(* ===== verification/_CoqProject ===== *)
-Q . S2P
Prelude.v
Enums.v
PyJson.v
PyDecimal.v
PyDecimalText.v
PyFloat.v
Failures.v
Verification.v
Registry.v
WorkflowSpec.v
Predicates.v
State.v
Graph.v
Normalize.v
RawValidation.v
GraphIssues.v
FanoutIssues.v
SnapshotIssues.v
PolicyIssues.v
Protected.v
Validate.v
NodeFactory.v
Compiler.v
Superstep.v
Guarantees.v
MissionContracts.v
Database.v
Ownership.v
Commands.v
Routing.v
Circuit.v
EventRegistry.v
EventLog.v
Sse.v
ModelSelection.v
Scheduler.v
WorkerSlots.v
Effects.v
Accounting.v
Regex.v
Redaction.v
Normalizer.v
Budget.v
ModelCalls.v
Ledger.v
Approvals.v
RegistryService.v
Auth.v
WorkflowStudio.v
MissionTables.v
MissionResources.v
Missions.v
MissionBacklog.v
MissionDispatch.v
MissionTurns.v
RunApi.v
WorkerPool.v
Demo.v
Instances.v
WorkflowScenarios.v
RuntimeScenarios.v
EffectScenarios.v
WorkerScenarios.v
ProviderScenarios.v
ModelScenarios.v
EventScenarios.v
ApprovalScenarios.v
MissionScenarios.v
TurnScenarios.v
RedactionScenarios.v
RegistryScenarios.v
AuthScenarios.v
StudioScenarios.v
RunScenarios.v
