(* ===== verification/Prelude.v ===== *)
(** * Jarvis V1: the control plane

A verification library for the decision-making core of the Jarvis control plane,
a Python program under [src/].  Jarvis runs software-development workflows: a
workflow template is validated, normalized and compiled to a LangGraph graph; an
orchestrator process claims a run under a lease, executes the graph node by node,
obeys the commands users send to the run, and records everything it does through
fenced database transactions and an effect ledger.

** Parts and files

Vocabulary (contracts, [src/packages/contracts/src/jarvis_contracts/]):
- [Enums.v] models [enums.py]: one Module per enumeration, interface [StrEnum];
- [PyJson.v] JSON values with Python's equality and truth, [canonical_json] and
  [sha256_digest] of [base.py]; [PyDecimal.v] and [PyFloat.v] the arithmetic of
  [decimal] and of binary64 floats that the policies compute with;
- [Failures.v] ([failures.py]), [Verification.v] ([verification.py]),
  [Registry.v] ([registry.py]) and [WorkflowSpec.v] ([workflow.py],
  [workflow_nodes.py], [workflow_api.py]): a Module per contract class with its
  record [t] and [valid], the bounds and validators pydantic enforces.

Workflows ([src/orchestrator/app/jarvis_orchestrator/workflows/]):
- [Predicates.v] ([predicates.py]) and [State.v] ([state.py]: the channel
  reducers, interface [Reducer]);
- [validation.py] is split by the groups of issues it reports: [Graph.v] (its
  graph routines), [Normalize.v], [RawValidation.v], [GraphIssues.v],
  [FanoutIssues.v], [SnapshotIssues.v], [PolicyIssues.v], [Protected.v], and
  [Validate.v], which composes them to [validate_workflow].  Each file states a
  declarative predicate ([graph_ok], [fanouts_ok], [snapshot_ok], [policies_ok],
  [protected_ok], for the document itself [document_ok]) and proves that an empty
  list of issues implies it (where the check is exact, that it is equivalent);
- [NodeFactory.v] ([factories.py]: what a node does when it is invoked) and
  [Compiler.v] ([compiler.py]); [Superstep.v] is the step relation of a compiled
  graph, with the proof that it ends within the recursion limit;
- [Guarantees.v] combines the above into the theorems about a validated workflow.

Runtime ([src/orchestrator/app/jarvis_orchestrator/runtime/] and
[src/packages/persistence/src/jarvis_persistence/]):
- [Database.v]: the tables, as finite maps and lists in one record [db], and the
  events; [Ownership.v] ([ownership.py] and [LeaseRepository.acquire]): claiming,
  fencing, renewal and release, the step relation [step] of all transactions and
  its invariants; [Commands.v] ([commands.py]);
- [Effects.v] ([effects.py] and [EffectRepository]): the effect ledger as program
  points between awaits, and the system of all concurrent calls for one effect;
  [Ledger.v] is the abstract ledger it refines;
- [ModelSelection.v] ([model_selection.py]) and [WorkerPool.v] (the worker
  selection of [composition.py]);
- [Approvals.v] ([approvals.py] of the runtime, of the API and of the contracts, and
  [IdempotencyRepository]): requests, decisions, expiry and the guard of protected
  effects, over one database.

Events: [EventRegistry.v] ([event_registry.py]), [EventLog.v] ([EventRepository]:
append, scopes, pages), [Sse.v] ([events/sse.py] and [events/router.py]: cursors
and streams), [Regex.v] (regular expressions with their matcher and language, as far as
the code uses them), [Redaction.v] ([events/redaction.py]) and [Normalizer.v]
([events/normalizer.py], [events/artifacts.py]: what is written for an intent).

The API ([src/api/app/jarvis_api/]): [RegistryService.v] ([registry/service.py]: writing,
resolving and validating configurations), [WorkflowStudio.v] ([workflows/service.py]: drafts
and published versions, over the state of the registry), [RunApi.v] ([runtime.py] of the API
and [CommandRepository]: projects, jobs and commands, over a [desk] that holds the tables of
the runs, the missions, the registry and the workflows; and [control_mission] of
[missions.py], the other request that sends commands) and [Auth.v] ([auth/service.py],
[repository.py], [bootstrap.py], [crypto.py]: logins, rate limits and sessions).

Workers ([workers/] of the orchestrator): [Scheduler.v] ([scheduler.py]) and
[WorkerSlots.v] ([leases.py]).

Models: [Routing.v] ([routing/policies.py] of the API), [Circuit.v] and
[Accounting.v] ([routing/observability.py]), [Budget.v] ([providers/budget.py] and
[team_resources.py]), [ModelCalls.v] ([providers/runtime.py]: two fenced
transactions around a provider call) and [PyDecimalText.v] (reading and printing
decimals).

Missions ([missions.py] of the contracts, [missions.py] and [mission_resources.py] of the
orchestrator): [MissionContracts.v], [MissionTables.v] (the mission tables over [db], and
the transactions' database [mdb]), [MissionResources.v] (admission, reservations at three
scopes, reconciliation), [Missions.v] (the manager service: claim, apply, fail, snapshot,
wakeups, dispatch and settlement), [MissionBacklog.v] (the step relation of its
transactions and the invariant of the work items), [MissionDispatch.v] (what a dispatch
starts and what the model is given) and [MissionTurns.v] (an executor's turn as program
points between awaits, and the system of all executors).

Demo ([src/orchestrator/app/jarvis_orchestrator/demo/bootstrap.py]): [Demo.v].
[Instances.v] gives every parameter of the model a concrete value that satisfies
its laws.  The files named [...Scenarios.v] apply the theorems to concrete inputs:
the demo workflow and one with a fan-out ([WorkflowScenarios.v]), small control
planes ([RuntimeScenarios.v]), an effect and its callers ([EffectScenarios.v]), a
worker pool ([WorkerScenarios.v]), a provider that fails and recovers
([ProviderScenarios.v]), model calls ([ModelScenarios.v]), an event log with a
stream ([EventScenarios.v]), a protected publication ([ApprovalScenarios.v]), a mission
from its decision to its outcome ([MissionScenarios.v]) and its manager
([TurnScenarios.v]), secrets in events ([RedactionScenarios.v]), a registry
([RegistryScenarios.v]), an owner who logs in ([AuthScenarios.v]), a template with two
versions ([StudioScenarios.v]) and a job on it with its commands ([RunScenarios.v]).

** How code becomes definitions

A function that may raise returns [res E A]; a database transaction is a function
from [db] to [res E (A * db)], so an exception rolls back.  Clock readings, fresh
identifiers, the rows another transaction has locked ([SKIP LOCKED]) and the
iteration order of Python sets are arguments or parameters, and the theorems hold
for all of them.  Where a service holds no transaction over an [await], its state
between two awaits is a constructor of a program-point type and the transactions of
all others may come in between.  What is not under [src/] is a type class:
[PyRuntime] (SHA-256, [repr] of floats), [Uuid5] and [UuidFormat] (identifiers),
[PyStr] ([str] of a value), [FloatPow] (powers of floats), [IsoFormat] and [IsoText]
(times), [SetOrder] (iteration over sets), [JsonbText] and [StoredData] (what a JSON
column returns); and pydantic's parsing and printing of contracts: [ConfigModel],
[SpecModel], [ModelDump], [ModelDumpJson], [WorkerSpecModel],
[WorkerPoolSpecModel], [RegistrySpecModel], [AccountingModel], [ResultModel],
[ApprovalModel], [PayloadModels], [LimitsModel], [TeamModel], [SnapshotModel], [RoleModel],
[ProfileModel], [ProviderModel], [DecisionModel], [DecisionSchema], [RecordModel],
[ReportModel], [StudioModel], [DeskModel] and [SetDump].  [PasswordHasher], [Hmac] and [IpNetwork] are
argon2, [hmac] and [ipaddress].  [RowOrder] is the order of a query without [ORDER BY].
[Redactor] and [TextRedactor] are what an event log needs of redaction; [Redaction.v]
implements them ([recursive_redactor], [recursive_text_redactor]).  A class whose name ends in
[Laws] states the documented behaviour the proofs use.

** Groups of theorems

- a valid report is sound ([Guarantees.validated_workflow]) and implies what the
  validator is for: protected publication, isolated branches, reachable ends,
  bounded depth;
- a compiled graph stops before its recursion limit ([Guarantees.compile_bound]);
- normal forms and hashes are stable, reducers independent of order, caches bounded;
- an executor is accepted after another only when that one gave its lease up or the lease
  expired; stale executors stay excluded, claims progress and
  respect order and capacity, commands are drained and a cancellation dominates;
- effects: an external action is dispatched at most once, its result is durable when
  it is returned, and the ledger refines its specification under any interleaving;
- approvals: a protected effect goes out only with a standing decision of the owner
  on exactly its parameters; decisions are final and idempotent, and expiry treats
  each run by itself, as long as every waiting run's approvals can be read;
- missions: the backlog stays acyclic and gated, outcomes are final, progress is never
  blocked by the backlog itself, a manager is asked once per turn, a dispatch respects
  both capacities, and reservations stay within the limits of their scopes;
- events: the log keeps dense sequences and increasing cursors, streams deliver exactly
  once; what is written does not depend on the values that redaction removes;
- registry: revisions are consistent and never change, of two writers with one version
  one is refused, the references that are looked up are active, private locators stay private; a published
  workflow is one the validator accepts and never changes;
- authentication: who is authenticated is the enabled owner, in a session that is neither
  ended nor too old; wrong guesses are bounded in every interval (when clock readings
  do not go back);
- jobs: what is enqueued is a published configuration that is still valid, a key enqueues
  once, and commands are numbered without gaps, those of mission controls too;
- worker slots: capacity, exclusion and selection; the circuit breaker admits one
  probe; model calls are sent once, within budget, and answered the same on replay;
- routing is sound and complete, affordable, and its retries and permissions are
  bounded.

** Fuel

[worklist] of this file runs the code's worklist loops with fuel; every use passes
a fuel computed from the graph ([reach_fuel], [path_fuel]) and [worklist_spec]
proves that it is enough, so no result depends on it.  [Graph.kahn] has
[kahn_terminates].  All other recursion is structural.

** Not modelled

LangGraph and its checkpointer, PostgreSQL, HTTP, git, processes and model providers
are outside the program.  Texts are ASCII where the code compares or redacts them
character by character.  Routes with their cookies and headers, key and password files,
files that a rolled-back transaction leaves behind, and the resolution of artifact paths are
not modelled.  The verification service, the worker processes with their workspaces and
transports, provider adapters, the API services other than those named above, and the
assembly of a run in [composition.py] are left to later work. *)
From stdpp Require Export base gmap strings list sets pretty sorting relations.
From Stdlib Require Export ZArith Lia.

(** ** Results

Python code under [src/] fails by raising.  A model of a raising function
returns [res E A]: [Ok] carries the value the call returns and [Err] the
exception it raises. *)

Inductive res (E A : Type) : Type :=
  | Ok (a : A)
  | Err (e : E).
Arguments Ok {E A} a.
Arguments Err {E A} e.

#[export] Instance res_ret {E} : MRet (res E) := λ A a, Ok a.
#[export] Instance res_bind {E} : MBind (res E) := λ A B f m,
  match m with Ok a => f a | Err e => Err e end.
#[export] Instance res_fmap {E} : FMap (res E) := λ A B f m,
  match m with Ok a => Ok (f a) | Err e => Err e end.

#[export] Instance res_eq_dec {E A} `{EqDecision E, EqDecision A} :
  EqDecision (res E A).
Proof. solve_decision. Defined.

Definition is_ok {E A} (m : res E A) : bool :=
  match m with Ok _ => true | Err _ => false end.

(** [if c then raise e]. *)
Definition raise_if {E} (c : bool) (e : E) : res E unit :=
  if c then Err e else Ok tt.

Lemma res_bind_ok {E A B} (m : res E A) (f : A → res E B) b :
  m ≫= f = Ok b ↔ ∃ a, m = Ok a ∧ f a = Ok b.
Proof. destruct m; simpl; naive_solver. Qed.

Lemma raise_if_ok {E} c (e : E) u : raise_if c e = Ok u ↔ c = false.
Proof. destruct c, u; simpl; naive_solver. Qed.

(** The loop [for x in xs: acc = body(acc, x)] of a raising body. *)
Fixpoint foldM {E A B} (f : B → A → res E B) (acc : B) (xs : list A) : res E B :=
  match xs with
  | [] => Ok acc
  | x :: xs' => acc' ← f acc x; foldM f acc' xs'
  end.

Lemma foldM_app {E A B} (f : B → A → res E B) xs ys acc :
  foldM f acc (xs ++ ys) = acc' ← foldM f acc xs; foldM f acc' ys.
Proof.
  revert acc; induction xs as [|x xs IH]; intros acc; simpl; [done|].
  destruct (f acc x); simpl; [apply IH|done].
Qed.

Lemma foldM_snoc {E A B} (f : B → A → res E B) xs x acc :
  foldM f acc (xs ++ [x]) = acc' ← foldM f acc xs; f acc' x.
Proof.
  rewrite foldM_app. destruct (foldM f acc xs) as [a|e]; [simpl|done].
  by destruct (f a x).
Qed.

(** Invariant rule for [foldM]. *)
Lemma foldM_ind {E A B} (f : B → A → res E B) (P : B → Prop) xs acc r :
  P acc → (∀ b x b', x ∈ xs → P b → f b x = Ok b' → P b') →
  foldM f acc xs = Ok r → P r.
Proof.
  revert acc; induction xs as [|x xs IH]; intros acc Hacc Hstep; simpl.
  - by intros [= <-].
  - destruct (f acc x) as [b'|] eqn:Hf; simpl; [|done].
    apply IH; [eapply Hstep; [|exact Hacc|exact Hf]; set_solver|].
    intros; eapply Hstep; [|eassumption..]; set_solver.
Qed.

(** ** Python's ordering and [sorted]

[sorted(xs, key=f)] is a stable sort by the key's [<].  [PyOrd] is the
three-way comparison of a key type; tuples compare lexicographically, strings
by code point (for UTF-8 bytes, by byte). *)

Class PyOrd (A : Type) := py_cmp : A → A → comparison.
#[export] Hint Mode PyOrd ! : typeclass_instances.

Class PyOrdLaws (A : Type) `{PyOrd A} := {
  py_cmp_eq : ∀ x y : A, py_cmp x y = Eq ↔ x = y;
  py_cmp_antisym : ∀ x y : A, py_cmp y x = CompOpp (py_cmp x y);
  py_cmp_trans : ∀ x y z : A, py_cmp x y = Lt → py_cmp y z = Lt → py_cmp x z = Lt;
}.

#[export] Instance Z_pyord : PyOrd Z := Z.compare.
#[export] Instance N_pyord : PyOrd N := N.compare.
#[export] Instance string_pyord : PyOrd string := String.compare.
#[export] Instance prod_pyord {A B} `{PyOrd A, PyOrd B} : PyOrd (A * B) :=
  λ p q, match py_cmp p.1 q.1 with Eq => py_cmp p.2 q.2 | c => c end.

#[export] Instance Z_pyord_laws : PyOrdLaws Z.
Proof.
  split; unfold py_cmp, Z_pyord; intros.
  - apply Z.compare_eq_iff.
  - apply Z.compare_antisym.
  - rewrite Z.compare_lt_iff in *; lia.
Qed.

#[export] Instance N_pyord_laws : PyOrdLaws N.
Proof.
  split; unfold py_cmp, N_pyord; intros.
  - apply N.compare_eq_iff.
  - apply N.compare_antisym.
  - rewrite N.compare_lt_iff in *; lia.
Qed.

Lemma ascii_compare_lt_trans a b c :
  Ascii.compare a b = Lt → Ascii.compare b c = Lt → Ascii.compare a c = Lt.
Proof. unfold Ascii.compare. rewrite !N.compare_lt_iff. lia. Qed.

#[export] Instance string_pyord_laws : PyOrdLaws string.
Proof.
  split; unfold py_cmp, string_pyord.
  - intros x y; split; [apply String.compare_eq_iff|intros ->].
    induction y as [|a y IH]; simpl; [done|].
    assert (Ascii.compare a a = Eq) as ->; [|done].
    unfold Ascii.compare. apply N.compare_refl.
  - intros; apply String.compare_antisym.
  - intros x; induction x as [|a x IH]; intros [|b y] [|c z]; simpl; try done.
    destruct (Ascii.compare a b) eqn:Hab; [| |done];
      destruct (Ascii.compare b c) eqn:Hbc; try done; intros Hxy Hyz.
    + apply Ascii.compare_eq_iff in Hab as ->. rewrite Hbc. eauto.
    + apply Ascii.compare_eq_iff in Hab as ->. by rewrite Hbc.
    + apply Ascii.compare_eq_iff in Hbc as ->. by rewrite Hab.
    + by rewrite (ascii_compare_lt_trans _ _ _ Hab Hbc).
Qed.

Lemma py_cmp_pair {A B} `{PyOrd A, PyOrd B} (a a' : A) (b b' : B) :
  py_cmp (a, b) (a', b') = match py_cmp a a' with Eq => py_cmp b b' | c => c end.
Proof. done. Qed.

Lemma py_cmp_refl {A} `{PyOrdLaws A} (x : A) : py_cmp x x = Eq.
Proof. by apply py_cmp_eq. Qed.

#[export] Instance prod_pyord_laws {A B} `{PyOrdLaws A, PyOrdLaws B} :
  PyOrdLaws (A * B).
Proof.
  split.
  - intros [a b] [a' b']; rewrite py_cmp_pair.
    destruct (py_cmp a a') eqn:Ha.
    + apply py_cmp_eq in Ha as ->. rewrite py_cmp_eq. naive_solver.
    + split; [done|]. intros [= -> ->]. by rewrite py_cmp_refl in Ha.
    + split; [done|]. intros [= -> ->]. by rewrite py_cmp_refl in Ha.
  - intros [a b] [a' b']; rewrite !py_cmp_pair.
    rewrite (py_cmp_antisym a a'). destruct (py_cmp a a'); simpl; [|done..].
    apply py_cmp_antisym.
  - intros [a b] [a' b'] [a'' b'']; rewrite !py_cmp_pair.
    destruct (py_cmp a a') eqn:Ha; [| |done];
      destruct (py_cmp a' a'') eqn:Ha'; try done; intros Hx Hy.
    + apply py_cmp_eq in Ha as ->. rewrite Ha'. by eapply py_cmp_trans.
    + apply py_cmp_eq in Ha as ->. by rewrite Ha'.
    + apply py_cmp_eq in Ha' as ->. by rewrite Ha.
    + by rewrite (py_cmp_trans _ _ _ Ha Ha').
Qed.

(** [x <= y] *)
Definition py_leb `{PyOrd A} (x y : A) : bool :=
  match py_cmp x y with Gt => false | _ => true end.

(** Insert [x], which comes before all of [l] in the input, in front of the
    first element whose key is not smaller: equal keys keep their order. *)
Fixpoint insert_key {A K} `{PyOrd K} (key : A → K) (x : A) (l : list A) : list A :=
  match l with
  | [] => [x]
  | y :: l' => if py_leb (key x) (key y) then x :: l else y :: insert_key key x l'
  end.

Definition sorted_key {A K} `{PyOrd K} (key : A → K) (l : list A) : list A :=
  foldr (insert_key key) [] l.

Definition py_sorted {K} `{PyOrd K} (l : list K) : list K := sorted_key id l.

Section sorting.
Context {A K : Type} `{PyOrdLaws K} (key : A → K).

Lemma py_leb_refl (x : K) : py_leb x x = true.
Proof. unfold py_leb. by rewrite (proj2 (py_cmp_eq x x)). Qed.

Lemma py_leb_total (x y : K) : py_leb x y = false → py_leb y x = true.
Proof. unfold py_leb. rewrite (py_cmp_antisym x y). by destruct (py_cmp x y). Qed.

Lemma py_leb_antisym (x y : K) : py_leb x y = true → py_leb y x = true → x = y.
Proof.
  unfold py_leb. rewrite (py_cmp_antisym x y).
  destruct (py_cmp x y) eqn:Hxy; try done. intros; by apply py_cmp_eq.
Qed.

Lemma py_leb_trans (x y z : K) :
  py_leb x y = true → py_leb y z = true → py_leb x z = true.
Proof.
  unfold py_leb. destruct (py_cmp x y) eqn:Hxy; [| |done].
  - by apply py_cmp_eq in Hxy as ->.
  - destruct (py_cmp y z) eqn:Hyz; [| |done].
    + apply py_cmp_eq in Hyz as ->. by rewrite Hxy.
    + by rewrite (py_cmp_trans _ _ _ Hxy Hyz).
Qed.

Lemma insert_key_perm x l : insert_key key x l ≡ₚ x :: l.
Proof.
  induction l as [|y l IH]; simpl; [done|].
  destruct (py_leb (key x) (key y)); [done|]. rewrite IH. apply perm_swap.
Qed.

Lemma sorted_key_perm l : sorted_key key l ≡ₚ l.
Proof.
  induction l as [|x l IH]; simpl; [done|]. by rewrite insert_key_perm, IH.
Qed.

Definition key_le (x y : A) : Prop := py_leb (key x) (key y) = true.

Lemma insert_key_sorted x l :
  StronglySorted key_le l → StronglySorted key_le (insert_key key x l).
Proof.
  induction 1 as [|y l Hl IH Hall]; simpl.
  - repeat constructor.
  - destruct (py_leb (key x) (key y)) eqn:Hxy.
    + constructor; [by constructor|]. constructor; [done|].
      eapply Forall_impl; [exact Hall|]. intros z; unfold key_le.
      by apply py_leb_trans.
    + constructor; [done|]. rewrite insert_key_perm. constructor; [|done].
      by apply py_leb_total.
Qed.

Lemma sorted_key_sorted l : StronglySorted key_le (sorted_key key l).
Proof. induction l; simpl; [constructor|]. by apply insert_key_sorted. Qed.

Lemma elem_of_sorted_key x l : x ∈ sorted_key key l ↔ x ∈ l.
Proof. by rewrite sorted_key_perm. Qed.

(** With distinct keys the result does not depend on the input order. *)
Lemma sorted_key_unique l1 l2 :
  l1 ≡ₚ l2 → (∀ x y, x ∈ l1 → y ∈ l1 → key x = key y → x = y) →
  sorted_key key l1 = sorted_key key l2.
Proof.
  intros Hperm Hinj.
  apply (StronglySorted_unique_strong key_le);
    [|apply sorted_key_sorted..|by rewrite !sorted_key_perm].
  intros x y Hx Hy Hxy Hyx. rewrite elem_of_sorted_key in Hx.
  rewrite elem_of_sorted_key, <-Hperm in Hy. apply Hinj; [done..|]. by apply py_leb_antisym.
Qed.

Lemma insert_key_id x l :
  StronglySorted key_le (x :: l) → insert_key key x l = x :: l.
Proof.
  intros Hs; destruct l as [|y l]; [done|]; simpl.
  inversion_clear Hs as [|?? _ Hall]. inversion_clear Hall as [|?? Hxy _].
  by rewrite Hxy.
Qed.

Lemma sorted_key_id l : StronglySorted key_le l → sorted_key key l = l.
Proof.
  induction 1 as [|x l Hl IH Hall]; simpl; [done|]. rewrite IH.
  apply insert_key_id. by constructor.
Qed.

Lemma sorted_key_idemp l : sorted_key key (sorted_key key l) = sorted_key key l.
Proof. apply sorted_key_id, sorted_key_sorted. Qed.
End sorting.

(** Members of a list whose [f]-images are distinct are determined by [f]. *)
Lemma NoDup_fmap_elem_inj {A B} (f : A → B) (l : list A) x y :
  NoDup (f <$> l) → x ∈ l → y ∈ l → f x = f y → x = y.
Proof.
  intros Hnd Hx Hy Hf.
  apply list_elem_of_lookup in Hx as [i Hi]. apply list_elem_of_lookup in Hy as [j Hj].
  assert (i = j) as <-; [|congruence].
  eapply (NoDup_lookup (f <$> l) _ _ (f x)); [done|..]; rewrite list_lookup_fmap, ?Hi, ?Hj;
    simpl; congruence.
Qed.

Lemma NoDup_fmap_filter {A B} (f : A → B) (P : A → bool) l :
  NoDup (f <$> l) → NoDup (f <$> List.filter P l).
Proof.
  induction l as [|x l IH]; [done|]. rewrite fmap_cons, NoDup_cons. intros [Hx Hl]. simpl.
  destruct (P x); [|by apply IH]. rewrite fmap_cons. apply NoDup_cons. split; [|by apply IH].
  intros (y & Hy & [Hin _]%list_elem_of_In%filter_In)%list_elem_of_fmap. apply Hx. rewrite Hy.
  by apply list_elem_of_fmap_2, list_elem_of_In.
Qed.


Lemma NoDup_fmap_snoc {A B} (f : A → B) (l : list A) x :
  NoDup (f <$> l) → (∀ y, y ∈ l → f y ≠ f x) → NoDup (f <$> (l ++ [x])).
Proof.
  intros Hnd Hne. rewrite fmap_app. apply NoDup_app. split_and!; [done| |apply NoDup_singleton].
  intros b (y & -> & Hy)%list_elem_of_fmap Hb%list_elem_of_singleton. by apply (Hne y).
Qed.

(** [next((x for x in l if f(x) == k), None)], and [{f(x): x for x in l}.get(k)]
when the keys are distinct. *)
Definition find_key {A K} `{EqDecision K} (f : A → K) (k : K) (l : list A) : option A :=
  snd <$> list_find (λ x, f x = k) l.

Section find_key.
Context {A K : Type} `{EqDecision K} (f : A → K).

Lemma find_key_Some k l x : find_key f k l = Some x → x ∈ l ∧ f x = k.
Proof.
  unfold find_key. destruct (list_find _ _) as [[i y]|] eqn:Hf; simpl; [|done].
  intros [= ->]. apply list_find_Some in Hf as (Hi & Hk & _).
  split; [by eapply list_elem_of_lookup_2|done].
Qed.

Lemma find_key_None k l : find_key f k l = None ↔ k ∉ f <$> l.
Proof.
  unfold find_key. rewrite fmap_None, list_find_None, Forall_forall, list_elem_of_fmap.
  naive_solver.
Qed.

Lemma find_key_is_Some k l : is_Some (find_key f k l) ↔ k ∈ f <$> l.
Proof.
  rewrite <-not_eq_None_Some, find_key_None. destruct (decide (k ∈ f <$> l)); tauto.
Qed.

Lemma find_key_elem l x : NoDup (f <$> l) → x ∈ l → find_key f (f x) l = Some x.
Proof.
  intros Hnd Hx. destruct (find_key f (f x) l) as [y|] eqn:Hf.
  - apply find_key_Some in Hf as [Hy Hk]. f_equal.
    by eapply NoDup_fmap_elem_inj.
  - apply find_key_None in Hf. destruct Hf. apply list_elem_of_fmap. eauto.
Qed.
End find_key.

(** ** Worklists

The loop shape the validators share:
[[
while pending:
    x = pending.pop()
    if skip(x) or x in seen: continue
    seen.add(x)
    ...visit x...
    pending.extend(succ(x))
]]
[pending] is kept with its end (the side [pop] takes from) first; [seen] is kept
in reverse visiting order.  [None] means that [fuel] ran out, which
[worklist_spec] excludes for the fuel the callers pass. *)

Section worklist.
Context {A St E : Type} `{EqDecision A}.
Variables (skip : A → bool) (visit : St → A → res E St) (succ : A → list A).

Fixpoint worklist (fuel : nat) (pending seen : list A) (acc : St)
    : option (res E (list A * St)) :=
  match pending with
  | [] => Some (Ok (seen, acc))
  | x :: pending' =>
      match fuel with
      | O => None
      | S fuel' =>
          if skip x || bool_decide (x ∈ seen) then worklist fuel' pending' seen acc
          else match visit acc x with
               | Err e => Some (Err e)
               | Ok acc' => worklist fuel' (reverse (succ x) ++ pending') (x :: seen) acc'
               end
      end
  end.

(** One move of the search: a successor that is not skipped. *)
Definition wstep (x y : A) : Prop := y ∈ succ x ∧ skip y = false.

Definition wreach (start : list A) (y : A) : Prop :=
  ∃ x, x ∈ start ∧ skip x = false ∧ rtc wstep x y.

Definition wcost (U seen : list A) : nat :=
  sum_list_with (λ x, if decide (x ∈ seen) then 0 else length (succ x)) U.

Lemma wcost_nil U : wcost U [] = sum_list_with (λ x, length (succ x)) U.
Proof.
  induction U as [|x U IH]; [done|]. unfold wcost in *; cbn [sum_list_with].
  rewrite IH. case_decide as Hx; [by apply elem_of_nil in Hx|done].
Qed.

Lemma wcost_notin U seen x : x ∉ U → wcost U (x :: seen) = wcost U seen.
Proof.
  induction U as [|y U IH]; intros Hx; [done|].
  rewrite not_elem_of_cons in Hx; destruct Hx as [Hxy Hx].
  unfold wcost in *; cbn [sum_list_with]. rewrite IH by done. f_equal.
  repeat case_decide; set_solver.
Qed.

Lemma wcost_visit U seen x : NoDup U → x ∈ U → x ∉ seen →
  wcost U seen = length (succ x) + wcost U (x :: seen).
Proof.
  induction 1 as [|y U Hy HU IH]; intros Hx Hseen; [by apply elem_of_nil in Hx|].
  unfold wcost in *; cbn [sum_list_with]. apply elem_of_cons in Hx as [->|Hx].
  - rewrite (decide_False (P:=y ∈ seen)), decide_True by set_solver.
    pose proof (wcost_notin U seen y Hy) as Heq. unfold wcost in Heq. lia.
  - rewrite IH by done. repeat case_decide; set_solver by lia.
Qed.

Record winv (start U pending seen : list A) (acc0 acc : St) : Prop := {
  winv_nodup : NoDup seen;
  winv_U : ∀ x, x ∈ pending ∨ x ∈ seen → x ∈ U;
  winv_sound : ∀ x, (x ∈ pending ∧ skip x = false) ∨ x ∈ seen → wreach start x;
  winv_closed : ∀ x y, x ∈ seen → wstep x y → y ∈ seen ∨ y ∈ pending;
  winv_start : ∀ x, x ∈ start → skip x = false → x ∈ seen ∨ x ∈ pending;
  winv_acc : foldM visit acc0 (reverse seen) = Ok acc;
}.

Lemma winv_skip start U x pending seen acc0 acc :
  winv start U (x :: pending) seen acc0 acc → skip x = true ∨ x ∈ seen →
  winv start U pending seen acc0 acc.
Proof.
  intros [Hnd HU Hs Hc Hst Ha] Hx; split; [done| | | | |done].
  - set_solver.
  - set_solver.
  - intros y z Hy Hyz. destruct (Hc _ _ Hy Hyz) as [?|[->|?]%elem_of_cons];
      [by left| |by right]. destruct Hyz, Hx; [congruence|by left].
  - intros y Hy Hsk. destruct (Hst _ Hy Hsk) as [?|[->|?]%elem_of_cons];
      [by left| |by right]. destruct Hx; [congruence|by left].
Qed.

Lemma winv_visit start U x pending seen acc0 acc acc' :
  (∀ y z, y ∈ U → wstep y z ∨ z ∈ succ y → z ∈ U) →
  winv start U (x :: pending) seen acc0 acc → skip x = false → x ∉ seen →
  visit acc x = Ok acc' →
  winv start U (reverse (succ x) ++ pending) (x :: seen) acc0 acc'.
Proof.
  intros HUc [Hnd HU Hs Hc Hst Ha] Hsk Hx Hv.
  assert (x ∈ U) as HxU by set_solver.
  assert (wreach start x) as Hr by set_solver.
  split.
  - by constructor.
  - intros y. rewrite elem_of_app, elem_of_reverse, elem_of_cons.
    intros [[Hy|Hy]|[->|Hy]]; [by eauto|set_solver|done|set_solver].
  - intros y. rewrite elem_of_app, elem_of_reverse, elem_of_cons.
    intros [[[Hy|Hy] Hsy]|[->|Hy]]; [|set_solver|done|set_solver].
    destruct Hr as (s & ? & ? & ?). exists s. split_and!; [done..|].
    eapply rtc_r; [done|]. by split.
  - intros y z. rewrite elem_of_app, elem_of_reverse, !elem_of_cons.
    intros [->|Hy] Hyz; [destruct Hyz; auto|].
    destruct (Hc _ _ Hy Hyz) as [?|[->|?]%elem_of_cons]; auto.
  - intros y Hy Hsy. rewrite elem_of_app, elem_of_cons.
    destruct (Hst _ Hy Hsy) as [?|[->|?]%elem_of_cons]; auto.
  - rewrite reverse_cons, foldM_snoc, Ha. done.
Qed.

(** Outcome of a terminated search: the set of visited nodes is exactly the set
reachable without entering a skipped node, every node was visited once, and the
accumulator is the fold of [visit] over the visiting order; or [visit] raised
at a reachable node. *)
Definition wresult (start : list A) (acc0 : St) (r : res E (list A * St)) : Prop :=
  match r with
  | Ok (seen, acc) =>
      NoDup seen ∧ (∀ x, x ∈ seen ↔ wreach start x)
      ∧ foldM visit acc0 (reverse seen) = Ok acc
  | Err e =>
      ∃ xs x a, NoDup (x :: xs) ∧ (∀ y, y ∈ x :: xs → wreach start y)
        ∧ foldM visit acc0 (reverse xs) = Ok a ∧ visit a x = Err e
  end.

Lemma worklist_inv start U acc0 fuel pending seen acc :
  NoDup U → (∀ y z, y ∈ U → wstep y z ∨ z ∈ succ y → z ∈ U) →
  winv start U pending seen acc0 acc →
  length pending + wcost U seen ≤ fuel →
  ∃ r, worklist fuel pending seen acc = Some r ∧ wresult start acc0 r.
Proof.
  intros HU HUc. revert pending seen acc.
  induction fuel as [|fuel IH]; intros [|x pending] seen acc Hinv Hfuel; simpl in *.
  2: lia.
  1,2: eexists; split; [done|]; destruct Hinv as [Hnd HUi Hs Hc Hst Ha];
    split_and!; [done| |done]; intros x; split; [intros; apply Hs; by right|];
    intros (s & Hs1 & Hs2 & Hrtc); destruct (Hst _ Hs1 Hs2) as [Hseen|Hbad];
    [|by apply elem_of_nil in Hbad];
    clear -Hrtc Hseen Hc; induction Hrtc as [|a b c Hab Hbc IHr]; [done|];
    apply IHr; destruct (Hc _ _ Hseen Hab) as [?|Hbad]; [done|by apply elem_of_nil in Hbad].
  destruct (skip x) eqn:Hsk; simpl.
  { apply IH; [|lia]. eapply winv_skip; eauto. }
  case_bool_decide as Hx.
  { apply IH; [|lia]. eapply winv_skip; eauto. }
  destruct (visit acc x) as [acc'|e] eqn:Hv.
  - apply IH; [by eapply winv_visit|].
    assert (x ∈ U) by (destruct Hinv; set_solver).
    rewrite length_app, length_reverse.
    rewrite (wcost_visit U seen x HU) in Hfuel by done. lia.
  - eexists; split; [done|]. destruct Hinv as [Hnd HUi Hs Hc Hst Ha].
    exists seen, x, acc. split_and!; [by constructor|set_solver|done|done].
Qed.

Lemma worklist_spec start U acc0 fuel :
  NoDup U → (∀ x, x ∈ start → x ∈ U) → (∀ x y, x ∈ U → y ∈ succ x → y ∈ U) →
  length start + sum_list_with (λ x, length (succ x)) U ≤ fuel →
  ∃ r, worklist fuel start [] acc0 = Some r ∧ wresult start acc0 r.
Proof.
  intros HU Hst Hc Hfuel. apply (worklist_inv _ U).
  - done.
  - intros y z Hy [[? _]|?]; eauto.
  - split.
    + constructor.
    + set_solver.
    + intros x [[??]|Hx]; [|by apply elem_of_nil in Hx]. exists x. split_and!; [done..|].
      apply rtc_refl.
    + by intros x y ?%elem_of_nil.
    + auto.
    + done.
  - by rewrite wcost_nil.
Qed.
End worklist.

Lemma worklist_ext {A St E : Type} `{EqDecision A} (skip skip' : A → bool)
    (visit : St → A → res E St) succ fuel pending seen acc :
  (∀ x, skip x = skip' x) →
  worklist skip visit succ fuel pending seen acc = worklist skip' visit succ fuel pending seen acc.
Proof.
  intros Hskip. revert pending seen acc; induction fuel as [|fuel IH]; intros [|x pending] seen acc;
    simpl; try done. rewrite Hskip. destruct (_ || _); [apply IH|].
  destruct (visit acc x); [apply IH|done].
Qed.

(** ** Strings

[String.prefix p s] is [s.startswith(p)]; [py_len] counts code points: the
bytes of a UTF-8 string that do not continue a character. *)

Definition startswith (p s : string) : bool := String.prefix p s.

Definition utf8_continuation (c : Ascii.ascii) : bool :=
  let n := Ascii.nat_of_ascii c in Nat.leb 128 n && Nat.ltb n 192.

Fixpoint py_len (s : string) : nat :=
  match s with
  | EmptyString => 0
  | String c s' => (if utf8_continuation c then 0 else 1) + py_len s'
  end.

(** [Field(min_length=lo, max_length=hi)] *)
Definition len_between (lo hi : nat) (s : string) : bool :=
  Nat.leb lo (py_len s) && Nat.leb (py_len s) hi.

(** [Field(ge=lo, le=hi)] *)
Definition z_between (lo hi z : Z) : bool := Z.leb lo z && Z.leb z hi.

Definition opt_all {A} (P : A → bool) (o : option A) : bool :=
  match o with Some x => P x | None => true end.

(** [len(set(xs)) == len(xs)] *)
Definition all_distinct {A} `{EqDecision A} (xs : list A) : bool :=
  bool_decide (NoDup xs).

(** [tuple(dict.fromkeys(xs))]: first occurrences, in order. *)
Fixpoint fromkeys_from {A} `{EqDecision A} (seen xs : list A) : list A :=
  match xs with
  | [] => []
  | x :: xs' => if bool_decide (x ∈ seen) then fromkeys_from seen xs'
                else x :: fromkeys_from (x :: seen) xs'
  end.
Definition fromkeys {A} `{EqDecision A} (xs : list A) : list A := fromkeys_from [] xs.

Lemma elem_of_fromkeys_from {A} `{EqDecision A} (seen xs : list A) x :
  x ∈ fromkeys_from seen xs ↔ x ∈ xs ∧ x ∉ seen.
Proof.
  revert seen; induction xs as [|y xs IH]; intros seen; simpl; [set_solver|].
  case_bool_decide as Hy; rewrite ?elem_of_cons, IH; [set_solver|].
  destruct (decide (x = y)); set_solver.
Qed.

Lemma elem_of_fromkeys {A} `{EqDecision A} (xs : list A) x : x ∈ fromkeys xs ↔ x ∈ xs.
Proof. unfold fromkeys. rewrite elem_of_fromkeys_from. set_solver. Qed.

Lemma NoDup_fromkeys_from {A} `{EqDecision A} (seen xs : list A) :
  NoDup (fromkeys_from seen xs).
Proof.
  revert seen; induction xs as [|y xs IH]; intros seen; simpl; [constructor|].
  case_bool_decide; [done|]. constructor; [|done].
  rewrite elem_of_fromkeys_from. set_solver.
Qed.

Lemma fromkeys_from_id {A} `{EqDecision A} (seen xs : list A) :
  NoDup xs → (∀ x, x ∈ xs → x ∉ seen) → fromkeys_from seen xs = xs.
Proof.
  intros Hnd. revert seen; induction Hnd as [|x xs Hx Hnd IH]; intros seen Hs; simpl; [done|].
  rewrite bool_decide_false by (apply Hs; by left). f_equal. apply IH.
  intros y Hy. specialize (Hs y). set_solver.
Qed.

Lemma fromkeys_id {A} `{EqDecision A} (xs : list A) : NoDup xs → fromkeys xs = xs.
Proof. intros Hnd. apply fromkeys_from_id; [done|set_solver]. Qed.

Lemma fromkeys_nil {A} `{EqDecision A} (xs : list A) : fromkeys xs = [] ↔ xs = [].
Proof.
  split; [|by intros ->]. destruct xs as [|x xs]; [done|]. simpl.
  unfold fromkeys; simpl. done.
Qed.

(** *** Character classes of the contracts' [pattern]s *)

Fixpoint str_forallb (P : Ascii.ascii → bool) (s : string) : bool :=
  match s with
  | EmptyString => true
  | String c s' => P c && str_forallb P s'
  end.

Definition in_range (lo hi : nat) (c : Ascii.ascii) : bool :=
  let n := Ascii.nat_of_ascii c in Nat.leb lo n && Nat.leb n hi.

Definition is_lower : Ascii.ascii → bool := in_range 97 122.
Definition is_upper : Ascii.ascii → bool := in_range 65 90.
Definition is_digit : Ascii.ascii → bool := in_range 48 57.
Definition is_alnum (c : Ascii.ascii) : bool := is_lower c || is_upper c || is_digit c.
(** [is_oneof codes c]: [c] is one of the listed ASCII codes. *)
Definition is_oneof (codes : list nat) (c : Ascii.ascii) : bool :=
  existsb (Nat.eqb (Ascii.nat_of_ascii c)) codes.

(** [^H T{lo,hi}$] for a first-character class [H] and a tail class [T]. *)
Definition head_tail (H T : Ascii.ascii → bool) (lo hi : nat) (s : string) : bool :=
  match s with
  | EmptyString => false
  | String c s' => H c && str_forallb T s' && Nat.leb lo (String.length s')
                   && Nat.leb (String.length s') hi
  end.

(** [^[a-z][a-z0-9_-]*$] with [max_length=n] *)
Definition slug_pattern (n : nat) (s : string) : bool :=
  head_tail is_lower (λ c, is_lower c || is_digit c || is_oneof [95; 45] c) 0 (n - 1) s.

(** [^[a-z][a-z0-9_.-]{0,n}$] *)
Definition dotted_pattern (n : nat) (s : string) : bool :=
  head_tail is_lower (λ c, is_lower c || is_digit c || is_oneof [95; 46; 45] c) 0 n s.

(** [^[a-f0-9]{n}$] *)
Definition hex_pattern (n : nat) (s : string) : bool :=
  str_forallb (λ c, in_range 97 102 c || is_digit c) s && Nat.eqb (String.length s) n.

(** [s.removeprefix(p)] *)
Definition removeprefix (p s : string) : string :=
  if startswith p s then String.substring (String.length p) (String.length s) s else s.

(** [^\$\.[A-Za-z0-9_.-]+$] *)
Definition path_pattern (s : string) : bool :=
  startswith "$." s
  && (let rest := removeprefix "$." s in
      negb (Nat.eqb (String.length rest) 0)
      && str_forallb (λ c, is_alnum c || is_oneof [95; 46; 45] c) rest).

(** ** Concatenation of strings *)

Lemma str_app_cons c (a b : string) : String c a +:+ b = String c (a +:+ b).
Proof. done. Qed.
Lemma str_app_assoc (a b c : string) : (a +:+ b) +:+ c = a +:+ (b +:+ c).
Proof. induction a as [|x a IH]; [done|]. by rewrite !str_app_cons, IH. Qed.
Lemma str_app_nil (a : string) : a +:+ "" = a.
Proof. induction a as [|x a IH]; [done|]. by rewrite str_app_cons, IH. Qed.

Lemma str_forallb_app P s t : str_forallb P (s +:+ t) = str_forallb P s && str_forallb P t.
Proof. induction s as [|c s IH]; simpl; [done|]. by rewrite IH, andb_assoc. Qed.

Lemma length_str_app s t : String.length (s +:+ t) = (String.length s + String.length t)%nat.
Proof. induction s as [|c s IH]; simpl; [done|]. by rewrite IH. Qed.

(** UUIDs are 128-bit integers; their canonical text ([str(uuid)]: fixed-width
lower-case hexadecimal) orders as the integers do. *)
Notation uuid := N (only parsing).

Lemma concat_fmap_nil {A B} (f : A → list B) l :
  concat (f <$> l) = [] ↔ ∀ x, x ∈ l → f x = [].
Proof.
  induction l as [|x l IH]; csimpl; [split; [by intros _ ? ?%elem_of_nil|done]|].
  rewrite app_nil, IH. split.
  - intros [Hx Hl] y [->|Hy]%elem_of_cons; auto.
  - intros Hall. split; [apply Hall; by left|]. intros y Hy. apply Hall. by right.
Qed.

(** [find] in a longer list. *)
Lemma find_some_app {A} (P : A → bool) l k x : find P l = Some x → find P (l ++ k) = Some x.
Proof. induction l as [|y l IH]; simpl; [done|]. destruct (P y); [done|exact IH]. Qed.
Lemma find_none_app {A} (P : A → bool) l k : find P l = None → find P (l ++ k) = find P k.
Proof. induction l as [|y l IH]; simpl; [done|]. destruct (P y); [done|exact IH]. Qed.

Lemma existsb_false {A} (P : A → bool) l : existsb P l = false ↔ ∀ x, x ∈ l → P x = false.
Proof.
  induction l as [|y l IH]; simpl; [split; [by intros _ ? ?%elem_of_nil|done]|].
  rewrite orb_false_iff, IH. split.
  - intros [Hy Hl] x [->|Hx]%elem_of_cons; auto.
  - intros Hall. split; [apply Hall; by left|]. intros x Hx. apply Hall. by right.
Qed.

Lemma Forall2_impl_elem {A B} (P Q : A → B → Prop) l k :
  Forall2 P l k → (∀ x y, x ∈ l → P x y → Q x y) → Forall2 Q l k.
Proof.
  induction 1 as [|x y l k Hxy Hlk IH]; intros Himp; constructor.
  - apply Himp; [by left|done].
  - apply IH. intros a b Ha. apply Himp. by right.
Qed.
