(* ===== verification/Enums.v ===== *)
(** * Enumerations: [packages/contracts/src/jarvis_contracts/enums.py]

One Module per [StrEnum], named like the class; [t] is the class, its
constructors are the members and [value] gives the wire string of a member.
[StrEnum] is the interface the rest of the development uses: a finite type with
distinct wire strings, so that [Enum(string)] ([enum_of_value]) inverts [value]. *)
From S2P Require Import Prelude.

Class StrEnum (A : Type) `{EqDecision A} := {
  enum_value : A → string;
  enum_all : list A;
  enum_all_elem : ∀ x, x ∈ enum_all;
  enum_value_inj : ∀ x y, enum_value x = enum_value y → x = y;
}.

(** [Enum(value)]: the member with that wire string; [ValueError] is [None]. *)
Definition enum_of_value {A} `{StrEnum A} (s : string) : option A :=
  snd <$> list_find (λ x, enum_value x = s) enum_all.

Lemma enum_of_value_value {A} `{StrEnum A} (x : A) :
  enum_of_value (enum_value x) = Some x.
Proof.
  unfold enum_of_value.
  destruct (list_find _ _) as [[i y]|] eqn:Hf; simpl.
  - apply list_find_Some in Hf as (_ & Heq & _). f_equal.
    symmetry. by apply enum_value_inj.
  - apply list_find_None in Hf. rewrite Forall_forall in Hf.
    by destruct (Hf x (enum_all_elem x)).
Qed.

Lemma enum_of_value_Some {A} `{StrEnum A} s (x : A) :
  enum_of_value s = Some x ↔ enum_value x = s.
Proof.
  split; [|intros <-; apply enum_of_value_value].
  unfold enum_of_value. destruct (list_find _ _) as [[i y]|] eqn:Hf; [|done].
  simpl; intros [= ->]. by apply list_find_Some in Hf as (_ & Heq & _).
Qed.

Ltac solve_str_enum_field :=
  first
    [ by intros []; apply (bool_decide_unpack _); vm_compute
    | by intros [] []; simpl; congruence ].


Module JobStatus.

Inductive t : Set :=
  | DRAFT
  | QUEUED
  | ACTIVE
  | WAITING
  | COMPLETED
  | FAILED
  | BLOCKED
  | CANCELLED.

Definition value (x : t) : string :=
  match x with
  | DRAFT => "draft"
  | QUEUED => "queued"
  | ACTIVE => "active"
  | WAITING => "waiting"
  | COMPLETED => "completed"
  | FAILED => "failed"
  | BLOCKED => "blocked"
  | CANCELLED => "cancelled"
  end.

Definition members : list t :=
  [ DRAFT;
    QUEUED;
    ACTIVE;
    WAITING;
    COMPLETED;
    FAILED;
    BLOCKED;
    CANCELLED ].

#[global] Instance eq_dec : EqDecision t.
Proof. solve_decision. Defined.

#[global] Instance str_enum : StrEnum t.
Proof. refine (Build_StrEnum t _ value members _ _); solve_str_enum_field. Defined.

End JobStatus.

Module RunStatus.

Inductive t : Set :=
  | QUEUED
  | CLAIMING
  | RUNNING
  | PAUSE_REQUESTED
  | PAUSED
  | APPROVAL_REQUIRED
  | CANCEL_REQUESTED
  | COMPLETED
  | FAILED
  | BLOCKED
  | CANCELLED.

Definition value (x : t) : string :=
  match x with
  | QUEUED => "queued"
  | CLAIMING => "claiming"
  | RUNNING => "running"
  | PAUSE_REQUESTED => "pause_requested"
  | PAUSED => "paused"
  | APPROVAL_REQUIRED => "approval_required"
  | CANCEL_REQUESTED => "cancel_requested"
  | COMPLETED => "completed"
  | FAILED => "failed"
  | BLOCKED => "blocked"
  | CANCELLED => "cancelled"
  end.

Definition members : list t :=
  [ QUEUED;
    CLAIMING;
    RUNNING;
    PAUSE_REQUESTED;
    PAUSED;
    APPROVAL_REQUIRED;
    CANCEL_REQUESTED;
    COMPLETED;
    FAILED;
    BLOCKED;
    CANCELLED ].

#[global] Instance eq_dec : EqDecision t.
Proof. solve_decision. Defined.

#[global] Instance str_enum : StrEnum t.
Proof. refine (Build_StrEnum t _ value members _ _); solve_str_enum_field. Defined.

End RunStatus.

Module DesiredRunState.

Inductive t : Set :=
  | RUNNING
  | PAUSED
  | CANCELLED.

Definition value (x : t) : string :=
  match x with
  | RUNNING => "running"
  | PAUSED => "paused"
  | CANCELLED => "cancelled"
  end.

Definition members : list t :=
  [ RUNNING;
    PAUSED;
    CANCELLED ].

#[global] Instance eq_dec : EqDecision t.
Proof. solve_decision. Defined.

#[global] Instance str_enum : StrEnum t.
Proof. refine (Build_StrEnum t _ value members _ _); solve_str_enum_field. Defined.

End DesiredRunState.

Module TaskStatus.

Inductive t : Set :=
  | PENDING
  | READY
  | RUNNING
  | WAITING
  | APPROVAL_REQUIRED
  | SUCCEEDED
  | FAILED
  | BLOCKED
  | CANCELLED
  | SKIPPED.

Definition value (x : t) : string :=
  match x with
  | PENDING => "pending"
  | READY => "ready"
  | RUNNING => "running"
  | WAITING => "waiting"
  | APPROVAL_REQUIRED => "approval_required"
  | SUCCEEDED => "succeeded"
  | FAILED => "failed"
  | BLOCKED => "blocked"
  | CANCELLED => "cancelled"
  | SKIPPED => "skipped"
  end.

Definition members : list t :=
  [ PENDING;
    READY;
    RUNNING;
    WAITING;
    APPROVAL_REQUIRED;
    SUCCEEDED;
    FAILED;
    BLOCKED;
    CANCELLED;
    SKIPPED ].

#[global] Instance eq_dec : EqDecision t.
Proof. solve_decision. Defined.

#[global] Instance str_enum : StrEnum t.
Proof. refine (Build_StrEnum t _ value members _ _); solve_str_enum_field. Defined.

End TaskStatus.

Module AttemptStatus.

Inductive t : Set :=
  | QUEUED
  | RUNNING
  | VERIFYING
  | REVIEWING
  | SUCCEEDED
  | FAILED
  | CANCELLED
  | UNKNOWN.

Definition value (x : t) : string :=
  match x with
  | QUEUED => "queued"
  | RUNNING => "running"
  | VERIFYING => "verifying"
  | REVIEWING => "reviewing"
  | SUCCEEDED => "succeeded"
  | FAILED => "failed"
  | CANCELLED => "cancelled"
  | UNKNOWN => "unknown"
  end.

Definition members : list t :=
  [ QUEUED;
    RUNNING;
    VERIFYING;
    REVIEWING;
    SUCCEEDED;
    FAILED;
    CANCELLED;
    UNKNOWN ].

#[global] Instance eq_dec : EqDecision t.
Proof. solve_decision. Defined.

#[global] Instance str_enum : StrEnum t.
Proof. refine (Build_StrEnum t _ value members _ _); solve_str_enum_field. Defined.

End AttemptStatus.

Module NodeExecutionStatus.

Inductive t : Set :=
  | QUEUED
  | RUNNING
  | WAITING
  | INTERRUPTED
  | SUCCEEDED
  | FAILED
  | CANCELLED
  | SKIPPED.

Definition value (x : t) : string :=
  match x with
  | QUEUED => "queued"
  | RUNNING => "running"
  | WAITING => "waiting"
  | INTERRUPTED => "interrupted"
  | SUCCEEDED => "succeeded"
  | FAILED => "failed"
  | CANCELLED => "cancelled"
  | SKIPPED => "skipped"
  end.

Definition members : list t :=
  [ QUEUED;
    RUNNING;
    WAITING;
    INTERRUPTED;
    SUCCEEDED;
    FAILED;
    CANCELLED;
    SKIPPED ].

#[global] Instance eq_dec : EqDecision t.
Proof. solve_decision. Defined.

#[global] Instance str_enum : StrEnum t.
Proof. refine (Build_StrEnum t _ value members _ _); solve_str_enum_field. Defined.

End NodeExecutionStatus.

Module CommandStatus.

Inductive t : Set :=
  | PENDING
  | APPLYING
  | APPLIED
  | REJECTED
  | SUPERSEDED.

Definition value (x : t) : string :=
  match x with
  | PENDING => "pending"
  | APPLYING => "applying"
  | APPLIED => "applied"
  | REJECTED => "rejected"
  | SUPERSEDED => "superseded"
  end.

Definition members : list t :=
  [ PENDING;
    APPLYING;
    APPLIED;
    REJECTED;
    SUPERSEDED ].

#[global] Instance eq_dec : EqDecision t.
Proof. solve_decision. Defined.

#[global] Instance str_enum : StrEnum t.
Proof. refine (Build_StrEnum t _ value members _ _); solve_str_enum_field. Defined.

End CommandStatus.

Module RunCommandKind.

Inductive t : Set :=
  | PAUSE
  | RESUME
  | CANCEL
  | INSTRUCTION
  | RETRY.

Definition value (x : t) : string :=
  match x with
  | PAUSE => "pause"
  | RESUME => "resume"
  | CANCEL => "cancel"
  | INSTRUCTION => "instruction"
  | RETRY => "retry"
  end.

Definition members : list t :=
  [ PAUSE;
    RESUME;
    CANCEL;
    INSTRUCTION;
    RETRY ].

#[global] Instance eq_dec : EqDecision t.
Proof. solve_decision. Defined.

#[global] Instance str_enum : StrEnum t.
Proof. refine (Build_StrEnum t _ value members _ _); solve_str_enum_field. Defined.

End RunCommandKind.

Module EffectStatus.

Inductive t : Set :=
  | PREPARED
  | DISPATCHED
  | RUNNING
  | SUCCEEDED
  | FAILED
  | CANCEL_REQUESTED
  | CANCELLED
  | UNKNOWN.

Definition value (x : t) : string :=
  match x with
  | PREPARED => "prepared"
  | DISPATCHED => "dispatched"
  | RUNNING => "running"
  | SUCCEEDED => "succeeded"
  | FAILED => "failed"
  | CANCEL_REQUESTED => "cancel_requested"
  | CANCELLED => "cancelled"
  | UNKNOWN => "unknown"
  end.

Definition members : list t :=
  [ PREPARED;
    DISPATCHED;
    RUNNING;
    SUCCEEDED;
    FAILED;
    CANCEL_REQUESTED;
    CANCELLED;
    UNKNOWN ].

#[global] Instance eq_dec : EqDecision t.
Proof. solve_decision. Defined.

#[global] Instance str_enum : StrEnum t.
Proof. refine (Build_StrEnum t _ value members _ _); solve_str_enum_field. Defined.

End EffectStatus.

Module EventMode.

Inductive t : Set :=
  | REAL
  | DEMO.

Definition value (x : t) : string :=
  match x with
  | REAL => "real"
  | DEMO => "demo"
  end.

Definition members : list t :=
  [ REAL;
    DEMO ].

#[global] Instance eq_dec : EqDecision t.
Proof. solve_decision. Defined.

#[global] Instance str_enum : StrEnum t.
Proof. refine (Build_StrEnum t _ value members _ _); solve_str_enum_field. Defined.

End EventMode.

Module EventVisibility.

Inductive t : Set :=
  | OWNER
  | OPERATOR
  | INTERNAL.

Definition value (x : t) : string :=
  match x with
  | OWNER => "owner"
  | OPERATOR => "operator"
  | INTERNAL => "internal"
  end.

Definition members : list t :=
  [ OWNER;
    OPERATOR;
    INTERNAL ].

#[global] Instance eq_dec : EqDecision t.
Proof. solve_decision. Defined.

#[global] Instance str_enum : StrEnum t.
Proof. refine (Build_StrEnum t _ value members _ _); solve_str_enum_field. Defined.

End EventVisibility.

Module EventSeverity.

Inductive t : Set :=
  | DEBUG
  | INFO
  | SUCCESS
  | WARNING
  | ERROR
  | CRITICAL.

Definition value (x : t) : string :=
  match x with
  | DEBUG => "debug"
  | INFO => "info"
  | SUCCESS => "success"
  | WARNING => "warning"
  | ERROR => "error"
  | CRITICAL => "critical"
  end.

Definition members : list t :=
  [ DEBUG;
    INFO;
    SUCCESS;
    WARNING;
    ERROR;
    CRITICAL ].

#[global] Instance eq_dec : EqDecision t.
Proof. solve_decision. Defined.

#[global] Instance str_enum : StrEnum t.
Proof. refine (Build_StrEnum t _ value members _ _); solve_str_enum_field. Defined.

End EventSeverity.

Module EventCategory.

Inductive t : Set :=
  | AUTH
  | CONFIG
  | THREAD
  | JOB
  | RUN
  | GRAPH
  | NODE
  | TASK
  | WORKER
  | MODEL
  | TOOL
  | FILE
  | COMMAND
  | TEST
  | REVIEW
  | GIT
  | APPROVAL
  | ARTIFACT
  | FAILURE
  | SYSTEM.

Definition value (x : t) : string :=
  match x with
  | AUTH => "auth"
  | CONFIG => "config"
  | THREAD => "thread"
  | JOB => "job"
  | RUN => "run"
  | GRAPH => "graph"
  | NODE => "node"
  | TASK => "task"
  | WORKER => "worker"
  | MODEL => "model"
  | TOOL => "tool"
  | FILE => "file"
  | COMMAND => "command"
  | TEST => "test"
  | REVIEW => "review"
  | GIT => "git"
  | APPROVAL => "approval"
  | ARTIFACT => "artifact"
  | FAILURE => "failure"
  | SYSTEM => "system"
  end.

Definition members : list t :=
  [ AUTH;
    CONFIG;
    THREAD;
    JOB;
    RUN;
    GRAPH;
    NODE;
    TASK;
    WORKER;
    MODEL;
    TOOL;
    FILE;
    COMMAND;
    TEST;
    REVIEW;
    GIT;
    APPROVAL;
    ARTIFACT;
    FAILURE;
    SYSTEM ].

#[global] Instance eq_dec : EqDecision t.
Proof. solve_decision. Defined.

#[global] Instance str_enum : StrEnum t.
Proof. refine (Build_StrEnum t _ value members _ _); solve_str_enum_field. Defined.

End EventCategory.

Module FailureClass.

Inductive t : Set :=
  | CODE_BUILD_FAILURE
  | INFRASTRUCTURE_TIMEOUT
  | UNKNOWN
  | CODE_IMPLEMENTATION_FAILURE
  | CODE_TEST_FAILURE
  | CODE_REVIEW_FAILURE
  | CODE_GIT_CONFLICT
  | INFRASTRUCTURE_WORKER_UNAVAILABLE
  | INFRASTRUCTURE_WORKER_TRANSPORT
  | INFRASTRUCTURE_SERVICE_UNAVAILABLE
  | PROVIDER_RATE_LIMITED
  | PROVIDER_TRANSIENT
  | PROVIDER_CONTRACT_FAILURE
  | CONFIGURATION_INVALID
  | SECURITY_POLICY_DENIED
  | APPROVAL_REJECTED
  | ORCHESTRATION_RUNTIME_ERROR
  | USER_CANCELLED.

Definition value (x : t) : string :=
  match x with
  | CODE_BUILD_FAILURE => "code.build_failure"
  | INFRASTRUCTURE_TIMEOUT => "infrastructure.timeout"
  | UNKNOWN => "unknown"
  | CODE_IMPLEMENTATION_FAILURE => "code.implementation_failure"
  | CODE_TEST_FAILURE => "code.test_failure"
  | CODE_REVIEW_FAILURE => "code.review_failure"
  | CODE_GIT_CONFLICT => "code.git_conflict"
  | INFRASTRUCTURE_WORKER_UNAVAILABLE => "infrastructure.worker_unavailable"
  | INFRASTRUCTURE_WORKER_TRANSPORT => "infrastructure.worker_transport"
  | INFRASTRUCTURE_SERVICE_UNAVAILABLE => "infrastructure.service_unavailable"
  | PROVIDER_RATE_LIMITED => "provider.rate_limited"
  | PROVIDER_TRANSIENT => "provider.transient"
  | PROVIDER_CONTRACT_FAILURE => "provider.contract_failure"
  | CONFIGURATION_INVALID => "configuration.invalid"
  | SECURITY_POLICY_DENIED => "security.policy_denied"
  | APPROVAL_REJECTED => "approval.rejected"
  | ORCHESTRATION_RUNTIME_ERROR => "orchestration.runtime_error"
  | USER_CANCELLED => "user.cancelled"
  end.

Definition members : list t :=
  [ CODE_BUILD_FAILURE;
    INFRASTRUCTURE_TIMEOUT;
    UNKNOWN;
    CODE_IMPLEMENTATION_FAILURE;
    CODE_TEST_FAILURE;
    CODE_REVIEW_FAILURE;
    CODE_GIT_CONFLICT;
    INFRASTRUCTURE_WORKER_UNAVAILABLE;
    INFRASTRUCTURE_WORKER_TRANSPORT;
    INFRASTRUCTURE_SERVICE_UNAVAILABLE;
    PROVIDER_RATE_LIMITED;
    PROVIDER_TRANSIENT;
    PROVIDER_CONTRACT_FAILURE;
    CONFIGURATION_INVALID;
    SECURITY_POLICY_DENIED;
    APPROVAL_REJECTED;
    ORCHESTRATION_RUNTIME_ERROR;
    USER_CANCELLED ].

#[global] Instance eq_dec : EqDecision t.
Proof. solve_decision. Defined.

#[global] Instance str_enum : StrEnum t.
Proof. refine (Build_StrEnum t _ value members _ _); solve_str_enum_field. Defined.

End FailureClass.

Module ConfigurationKind.

Inductive t : Set :=
  | WORKER
  | PROVIDER_CONNECTION
  | MODEL_PROFILE
  | ROUTE_POLICY
  | RETRY_POLICY
  | PERMISSION_POLICY
  | BRANCH_POLICY
  | PROJECT_SETTINGS
  | EXECUTION_PROFILE.

Definition value (x : t) : string :=
  match x with
  | WORKER => "worker"
  | PROVIDER_CONNECTION => "provider_connection"
  | MODEL_PROFILE => "model_profile"
  | ROUTE_POLICY => "route_policy"
  | RETRY_POLICY => "retry_policy"
  | PERMISSION_POLICY => "permission_policy"
  | BRANCH_POLICY => "branch_policy"
  | PROJECT_SETTINGS => "project_settings"
  | EXECUTION_PROFILE => "execution_profile"
  end.

Definition members : list t :=
  [ WORKER;
    PROVIDER_CONNECTION;
    MODEL_PROFILE;
    ROUTE_POLICY;
    RETRY_POLICY;
    PERMISSION_POLICY;
    BRANCH_POLICY;
    PROJECT_SETTINGS;
    EXECUTION_PROFILE ].

#[global] Instance eq_dec : EqDecision t.
Proof. solve_decision. Defined.

#[global] Instance str_enum : StrEnum t.
Proof. refine (Build_StrEnum t _ value members _ _); solve_str_enum_field. Defined.

End ConfigurationKind.

(** [TERMINAL_RUN_STATUSES] *)
Definition TERMINAL_RUN_STATUSES : list RunStatus.t :=
  [RunStatus.COMPLETED; RunStatus.FAILED; RunStatus.BLOCKED; RunStatus.CANCELLED].
