(* ===== verification/PyJson.v ===== *)
(** * JSON values as Python holds them

The values of pydantic's [JsonValue] (dictionaries keep insertion order), their
Python equality and truth value, dictionary access and update, and
[canonical_json] / [sha256_digest] of
[packages/contracts/src/jarvis_contracts/base.py].  Strings are UTF-8 byte
strings.  [repr] of a finite float and SHA-256 are the operations of
[PyRuntime], the interface to what the interpreter supplies. *)
From S2P Require Import Prelude.
From Stdlib Require Import QArith Ascii.
Local Close Scope Q_scope.
Local Open Scope nat_scope.
Local Open Scope stdpp_scope.

(** A Python [float]: a finite value (exactly a rational), an infinity or NaN. *)
Inductive pyfloat : Type :=
  | FFin (q : Q)
  | FInf (negative : bool)
  | FNan.

Inductive json : Type :=
  | JNull
  | JBool (b : bool)
  | JInt (z : Z)
  | JFloat (f : pyfloat)
  | JStr (s : string)
  | JArr (l : list json)
  | JObj (kvs : list (string * json)).

(** A Python [dict] with string keys, in insertion order. *)
Notation jobj := (list (string * json)).

Section json_ind.
Variable P : json → Prop.
Hypotheses (HN : P JNull) (HB : ∀ b, P (JBool b)) (HI : ∀ z, P (JInt z))
  (HF : ∀ f, P (JFloat f)) (HS : ∀ s, P (JStr s))
  (HA : ∀ l, Forall P l → P (JArr l))
  (HO : ∀ kvs, Forall (λ kv, P kv.2) kvs → P (JObj kvs)).

Fixpoint json_ind' (j : json) : P j :=
  match j with
  | JNull => HN
  | JBool b => HB b
  | JInt z => HI z
  | JFloat f => HF f
  | JStr s => HS s
  | JArr l => HA l
      ((fix go (l : list json) : Forall P l :=
          match l with
          | [] => Forall_nil_2 P
          | x :: l' => Forall_cons_2 P x l' (json_ind' x) (go l')
          end) l)
  | JObj kvs => HO kvs
      ((fix go (l : jobj) : Forall (λ kv, P kv.2) l :=
          match l with
          | [] => Forall_nil_2 _
          | x :: l' => Forall_cons_2 _ x l' (json_ind' x.2) (go l')
          end) kvs)
  end.
End json_ind.

#[export] Instance Q_eq_dec : EqDecision Q.
Proof. solve_decision. Defined.
#[export] Instance pyfloat_eq_dec : EqDecision pyfloat.
Proof. solve_decision. Defined.

(** ** Dictionaries *)

Fixpoint dict_get {V} (k : string) (d : list (string * V)) : option V :=
  match d with
  | [] => None
  | (k', v) :: d' => if bool_decide (k = k') then Some v else dict_get k d'
  end.

(** [d[k] = v]: in place when the key is there, at the end otherwise. *)
Fixpoint dict_set {V} (k : string) (v : V) (d : list (string * V))
    : list (string * V) :=
  match d with
  | [] => [(k, v)]
  | (k', v') :: d' =>
      if bool_decide (k = k') then (k, v) :: d' else (k', v') :: dict_set k v d'
  end.

(** [{**d, **u}] and [d.update(u)] *)
Definition dict_update {V} (d u : list (string * V)) : list (string * V) :=
  foldl (λ acc kv, dict_set kv.1 kv.2 acc) d u.

Definition dict_has {V} (k : string) (d : list (string * V)) : bool :=
  match dict_get k d with Some _ => true | None => false end.

(** [dict(sorted(d.items()))] *)
Definition dict_sorted {V} (d : list (string * V)) : list (string * V) :=
  sorted_key fst d.

(** Keys of a Python dictionary are distinct. *)
Definition dict_ok {V} (d : list (string * V)) : Prop := NoDup d.*1.

(** ** Python equality and truth value *)

Definition float_eqb (f g : pyfloat) : bool :=
  match f, g with
  | FFin q, FFin r => Qeq_bool q r
  | FInf b, FInf c => bool_decide (b = c)
  | _, _ => false
  end.

(** The number a value is, when [isinstance(v, (int, float))]: booleans are
integers in Python. *)
Definition py_number (j : json) : option pyfloat :=
  match j with
  | JBool b => Some (FFin (if b then 1 else 0)%Q)
  | JInt z => Some (FFin (inject_Z z))
  | JFloat f => Some f
  | _ => None
  end.

(** [a == b].  (Python takes the same NaN object inside two containers to be
equal by identity; here NaN differs from everything.) *)
Fixpoint py_eq (a b : json) {struct a} : bool :=
  match a, b with
  | JNull, JNull => true
  | JStr s, JStr t => bool_decide (s = t)
  | JArr l, JArr r =>
      (fix go (l r : list json) : bool :=
         match l, r with
         | [], [] => true
         | x :: l', y :: r' => py_eq x y && go l' r'
         | _, _ => false
         end) l r
  | JObj l, JObj r =>
      Nat.eqb (length l) (length r) &&
      List.forallb (λ kv, match dict_get kv.1 r with
                          | Some w => py_eq kv.2 w
                          | None => false
                          end) l
  | _, _ =>
      match py_number a, py_number b with
      | Some f, Some g => float_eqb f g
      | _, _ => false
      end
  end.

Definition truthy (j : json) : bool :=
  match j with
  | JNull => false
  | JBool b => b
  | JInt z => negb (Z.eqb z 0)
  | JFloat (FFin q) => negb (Qeq_bool q 0)
  | JFloat _ => true
  | JStr s => negb (bool_decide (s = ""))
  | JArr l => match l with [] => false | _ => true end
  | JObj kvs => match kvs with [] => false | _ => true end
  end.

(** [x < y] and [x <= y] of two numbers: NaN compares false. *)
Definition float_ltb (f g : pyfloat) : bool :=
  match f, g with
  | FNan, _ | _, FNan => false
  | FFin q, FFin r => negb (Qle_bool r q)
  | FFin _, FInf neg => negb neg
  | FInf neg, FFin _ => neg
  | FInf a, FInf b => a && negb b
  end.
Definition float_leb (f g : pyfloat) : bool :=
  match f, g with
  | FNan, _ | _, FNan => false
  | FFin q, FFin r => Qle_bool q r
  | FFin _, FInf neg => negb neg
  | FInf neg, FFin _ => neg
  | FInf a, FInf b => a || negb b
  end.

(** ** Canonical JSON text *)

Class PyRuntime := {
  (** [float.__repr__] of a finite float *)
  float_repr : Q → string;
  (** hex digest of SHA-256 of a byte string *)
  sha256 : string → string;
}.

Definition chr (n : nat) : string := String (ascii_of_nat n) EmptyString.
Definition quote : string := chr 34.
Definition backslash : string := chr 92.

Definition hex_digit (n : nat) : string :=
  chr (if Nat.ltb n 10 then 48 + n else 87 + n).

(** [str(uuid)]: 32 hexadecimal digits in groups of 8, 4, 4, 4 and 12. *)
Definition uuid_digit (u : uuid) (i : nat) : string :=
  hex_digit (N.to_nat (N.land (N.shiftr u (4 * N.of_nat (31 - i))) 15)).
Definition uuid_group (u : uuid) (start len : nat) : string :=
  foldr (λ i acc, uuid_digit u i +:+ acc) "" (seq start len).
Definition uuid_str (u : uuid) : string :=
  uuid_group u 0 8 +:+ "-" +:+ uuid_group u 8 4 +:+ "-" +:+ uuid_group u 12 4
  +:+ "-" +:+ uuid_group u 16 4 +:+ "-" +:+ uuid_group u 20 12.

(** [json.encoder.ESCAPE_DCT] and the [ensure_ascii=False] escaping. *)
Definition escape_char (c : ascii) : string :=
  match nat_of_ascii c with
  | 8 => backslash +:+ "b"
  | 9 => backslash +:+ "t"
  | 10 => backslash +:+ "n"
  | 12 => backslash +:+ "f"
  | 13 => backslash +:+ "r"
  | 34 => backslash +:+ quote
  | 92 => backslash +:+ backslash
  | n => if Nat.ltb n 32
         then backslash +:+ "u00" +:+ hex_digit (n / 16) +:+ hex_digit (n mod 16)
         else String c EmptyString
  end.

Fixpoint escape (s : string) : string :=
  match s with
  | EmptyString => EmptyString
  | String c s' => escape_char c +:+ escape s'
  end.

Definition json_string (s : string) : string := quote +:+ escape s +:+ quote.

Fixpoint join (sep : string) (l : list string) : string :=
  match l with
  | [] => ""
  | [x] => x
  | x :: l' => x +:+ sep +:+ join sep l'
  end.

Section canonical.
Context `{PyRuntime}.

Definition json_float (f : pyfloat) : string :=
  match f with
  | FFin q => float_repr q
  | FInf neg => if neg then "-Infinity" else "Infinity"
  | FNan => "NaN"
  end.

(** [canonical_json]: [json.dumps(value, ensure_ascii=False,
separators=(",", ":"), sort_keys=True).encode("utf-8")]. *)
Fixpoint canonical_json (j : json) : string :=
  match j with
  | JNull => "null"
  | JBool b => if b then "true" else "false"
  | JInt z => pretty z
  | JFloat f => json_float f
  | JStr s => json_string s
  | JArr l => "[" +:+ join "," (List.map canonical_json l) +:+ "]"
  | JObj kvs =>
      "{" +:+
      join ","
        (List.map (λ kv : string * string, json_string kv.1 +:+ ":" +:+ kv.2)
           (sorted_key fst (List.map (λ kv, (kv.1, canonical_json kv.2)) kvs)))
      +:+ "}"
  end.

Definition sha256_digest (value : json) : string := sha256 (canonical_json value).
End canonical.

(** ** Dictionary lemmas *)

Section dict.
Context {V : Type}.
Implicit Types (d u : list (string * V)) (k : string) (v : V).

Lemma dict_get_set_eq k v d : dict_get k (dict_set k v d) = Some v.
Proof.
  induction d as [|[k' v'] d IH]; simpl.
  - by rewrite bool_decide_true.
  - case_bool_decide; simpl; [by rewrite bool_decide_true|].
    by rewrite bool_decide_false.
Qed.

Lemma dict_get_set_ne k k' v d : k ≠ k' → dict_get k' (dict_set k v d) = dict_get k' d.
Proof.
  intros Hne; induction d as [|[k'' v''] d IH]; simpl.
  - by rewrite bool_decide_false by congruence.
  - destruct (decide (k = k'')) as [<-|]; simpl.
    + rewrite bool_decide_true by done; simpl.
      by rewrite (bool_decide_false (k' = k)) by congruence.
    + rewrite (bool_decide_false (k = k'')) by done; simpl. by rewrite IH.
Qed.

Lemma dict_get_set k k' v d :
  dict_get k' (dict_set k v d) = if decide (k = k') then Some v else dict_get k' d.
Proof.
  case_decide as Hk; [subst; apply dict_get_set_eq|by apply dict_get_set_ne].
Qed.

(** Writing what is there, a new key, and a key twice. *)
Lemma dict_set_present k v d : dict_get k d = Some v → dict_set k v d = d.
Proof.
  induction d as [|[k' v'] d IH]; simpl; [done|]. case_bool_decide as Hk; [by intros [= ->]; subst|].
  intros Hg. by rewrite IH.
Qed.

Lemma dict_set_absent k v d : k ∉ d.*1 → dict_set k v d = d ++ [(k, v)].
Proof.
  induction d as [|[k' v'] d IH]; csimpl; [done|]. rewrite not_elem_of_cons. intros [Hne Hk].
  rewrite bool_decide_false by done. by rewrite IH.
Qed.

Lemma dict_set_set k v w d : dict_set k v (dict_set k w d) = dict_set k v d.
Proof.
  induction d as [|[k' v'] d IH]; simpl; [by rewrite bool_decide_true|].
  case_bool_decide as Hk; simpl; [by rewrite bool_decide_true|].
  by rewrite bool_decide_false, IH.
Qed.

Lemma dict_set_swap k k' v w d :
  k ≠ k' → k ∈ d.*1 → dict_set k v (dict_set k' w d) = dict_set k' w (dict_set k v d).
Proof.
  intros Hne. induction d as [|[k2 v2] d IH]; csimpl; [by intros ?%elem_of_nil|]. intros Hin.
  destruct (decide (k = k2)) as [Hk|Hk], (decide (k' = k2)) as [Hk'|Hk']; [congruence|..];
    repeat first [rewrite bool_decide_true by done|rewrite bool_decide_false by done|progress csimpl];
    try congruence.
  rewrite IH; [done|]. by apply elem_of_cons in Hin as [?|Hin].
Qed.

Lemma dict_get_None k d : dict_get k d = None ↔ k ∉ d.*1.
Proof.
  induction d as [|[k' v'] d IH]; csimpl; [set_solver|].
  case_bool_decide; set_solver.
Qed.

Lemma dict_get_elem k v d : dict_get k d = Some v → (k, v) ∈ d.
Proof.
  induction d as [|[k' v'] d IH]; simpl; [done|].
  case_bool_decide; intros Hg; [|set_solver]. simplify_eq. set_solver.
Qed.

Lemma dict_get_Some k v d : dict_ok d → dict_get k d = Some v ↔ (k, v) ∈ d.
Proof.
  intros Hok; split; [apply dict_get_elem|]. unfold dict_ok in Hok.
  induction d as [|[k' v'] d IH]; csimpl in *; [set_solver|].
  apply NoDup_cons in Hok as [Hk' Hok].
  intros [[= -> ->]|Hin]%elem_of_cons; [by rewrite bool_decide_true|].
  rewrite bool_decide_false; [by apply IH|].
  intros ->. apply Hk'. apply list_elem_of_fmap. by exists (k', v).
Qed.

Lemma dict_get_perm d u k : dict_ok d → d ≡ₚ u → dict_get k d = dict_get k u.
Proof.
  intros Hok Hp. assert (dict_ok u) by (unfold dict_ok in *; by rewrite <-Hp).
  destruct (dict_get k u) as [v|] eqn:Hu.
  - rewrite dict_get_Some in Hu by done. rewrite dict_get_Some by done. by rewrite Hp.
  - rewrite dict_get_None in Hu. apply dict_get_None. by rewrite Hp.
Qed.

Lemma dict_set_keys k v d :
  (dict_set k v d).*1 = if decide (k ∈ d.*1) then d.*1 else d.*1 ++ [k].
Proof.
  induction d as [|[k' v'] d IH]; csimpl; [done|].
  case_bool_decide as Hk; csimpl.
  - subst k'. by rewrite decide_True by set_solver.
  - rewrite IH. repeat case_decide; set_solver.
Qed.

Lemma dict_ok_set k v d : dict_ok d → dict_ok (dict_set k v d).
Proof.
  unfold dict_ok. rewrite dict_set_keys. case_decide; [done|].
  intros. apply NoDup_app; split_and!; [done|set_solver|apply NoDup_singleton].
Qed.

Lemma dict_sorted_perm d : dict_sorted d ≡ₚ d.
Proof. apply sorted_key_perm. Qed.

Lemma dict_ok_perm d u : d ≡ₚ u → dict_ok d → dict_ok u.
Proof. unfold dict_ok. by intros ->. Qed.

Lemma dict_ok_sorted d : dict_ok (dict_sorted d) ↔ dict_ok d.
Proof. unfold dict_ok. by rewrite dict_sorted_perm. Qed.

Lemma dict_get_sorted k d : dict_ok d → dict_get k (dict_sorted d) = dict_get k d.
Proof.
  intros. apply dict_get_perm; [by apply dict_ok_sorted|apply dict_sorted_perm].
Qed.

(** Two dictionaries in sorted order with the same lookups are the same. *)
Lemma dict_sorted_ext d u :
  dict_ok d → dict_ok u → (∀ k, dict_get k d = dict_get k u) →
  dict_sorted d = dict_sorted u.
Proof.
  intros Hd Hu Hext. apply sorted_key_unique.
  - apply NoDup_Permutation.
    + by eapply NoDup_fmap_1.
    + by eapply NoDup_fmap_1.
    + intros [k v]. by rewrite <-!dict_get_Some, Hext.
  - intros [k v] [k' v'] Hx Hy ?; simpl in *; subst k'.
    rewrite <-dict_get_Some in Hx, Hy by done. congruence.
Qed.

Lemma dict_ok_update u d : dict_ok d → dict_ok (dict_update d u).
Proof.
  unfold dict_update. revert d; induction u as [|[k v] u IH]; intros d Hd; simpl; [done|].
  apply IH. by apply dict_ok_set.
Qed.

(** The updating dictionary wins. *)
Lemma dict_get_update u d k :
  dict_ok u →
  dict_get k (dict_update d u) =
    match dict_get k u with Some v => Some v | None => dict_get k d end.
Proof.
  unfold dict_ok, dict_update. revert d; induction u as [|[k' v] u IH]; intros d;
    csimpl; [done|]. intros [Hk Hu]%NoDup_cons. rewrite IH by done.
  case_bool_decide as Hkk.
  - subst k'. apply dict_get_None in Hk. by rewrite Hk, dict_get_set_eq.
  - by rewrite dict_get_set_ne by congruence.
Qed.
End dict.

(** ** Equality of JSON values up to the order of dictionary keys *)

Inductive json_equiv : json → json → Prop :=
  | je_refl j : json_equiv j j
  | je_arr l r : Forall2 json_equiv l r → json_equiv (JArr l) (JArr r)
  | je_obj kvs kvs' kvs'' :
      dict_ok kvs' →
      Forall2 (λ a b : string * json, a.1 = b.1 ∧ json_equiv a.2 b.2) kvs kvs' →
      kvs' ≡ₚ kvs'' →
      json_equiv (JObj kvs) (JObj kvs'').

Section canonical_lemmas.
Context `{PyRuntime}.

Definition canonical_items (kvs : jobj) : list (string * string) :=
  List.map (λ kv, (kv.1, canonical_json kv.2)) kvs.

Lemma canonical_items_keys kvs : (canonical_items kvs).*1 = kvs.*1.
Proof. unfold canonical_items. induction kvs; csimpl; congruence. Qed.

Lemma canonical_items_sorted_perm kvs kvs' :
  dict_ok kvs → kvs ≡ₚ kvs' →
  sorted_key fst (canonical_items kvs) = sorted_key fst (canonical_items kvs').
Proof.
  intros Hok Hp. apply sorted_key_unique.
  - unfold canonical_items. by apply Permutation_map.
  - assert (dict_ok (canonical_items kvs)) as Hok'
      by (unfold dict_ok; by rewrite canonical_items_keys).
    intros [k v] [k' v'] Hx Hy ?; simpl in *; subst k'.
    rewrite <-dict_get_Some in Hx, Hy by done. congruence.
Qed.

Lemma canonical_json_equiv j j' : json_equiv j j' → canonical_json j = canonical_json j'.
Proof.
  revert j'. induction j as [| | | | |l IH|kvs IH] using json_ind'; intros j' Hj;
    inversion_clear Hj as [|? r Hr|? kvs' kvs'' Hok Hkv Hp]; try done; simpl.
  - do 3 f_equal. revert IH. induction Hr as [|x y l r Hxy Hr IHr]; [done|].
    intros [Hx Hl]%Forall_cons. simpl. f_equal; eauto.
  - do 4 f_equal. fold (canonical_items kvs) (canonical_items kvs'').
    rewrite <-(canonical_items_sorted_perm _ _ Hok Hp). f_equal.
    clear Hok Hp. revert IH. induction Hkv as [|[k x] [k' y] l r [Hk Hxy] Hr IHr]; [done|].
    intros [Hx Hl]%Forall_cons. simpl in *. subst k'. f_equal; [f_equal|]; eauto.
Qed.

#[export] Instance canonical_json_proper : Proper (json_equiv ==> eq) canonical_json.
Proof. intros j j'. apply canonical_json_equiv. Qed.

#[export] Instance sha256_digest_proper : Proper (json_equiv ==> eq) sha256_digest.
Proof. intros j j' Hj. unfold sha256_digest. by rewrite Hj. Qed.
End canonical_lemmas.
