(* ===== verification/PyDecimal.v ===== *)
(** * Decimal arithmetic

[decimal.Decimal] under Python's default context: 28 significant digits,
[ROUND_HALF_EVEN].  A finite decimal is an integer coefficient times a power of
ten.  The exponent limits of the context (about 10^6) are not modelled: every
amount of this program is bounded by 10^19 and built from bounded inputs. *)
From S2P Require Import Prelude.
From Stdlib Require Import QArith Qpower.
Local Close Scope Q_scope.
Local Open Scope Z_scope.

Record decimal := Dec { coefficient : Z; exponent : Z }.

#[global] Instance decimal_eq_dec : EqDecision decimal.
Proof. solve_decision. Defined.

Definition precision : Z := 28.

(** [Decimal(n)] *)
Definition dec_of_Z (n : Z) : decimal := Dec n 0.

(** The number of excess digits of a coefficient [m >= 0]: the least [k] with
[m < 10^(28+k)]. *)
Fixpoint excess_from (fuel : nat) (m k : Z) : Z :=
  match fuel with
  | O => k
  | S fuel' => if Z.ltb m (10 ^ (precision + k)) then k else excess_from fuel' m (k + 1)
  end.
Definition excess (m : Z) : Z := excess_from (S (Z.to_nat (Z.log2 m))) m 0.

(** Rounding of the coefficient [m >= 0] to a multiple of [10^k], half to even. *)
Definition round_half_even (m k : Z) : Z :=
  let p := 10 ^ k in
  let q := m / p in
  let r := m mod p in
  match Z.compare (2 * r) p with
  | Lt => q
  | Gt => q + 1
  | Eq => if Z.even q then q else q + 1
  end.

(** The context's rounding of an exact result. *)
Definition dec_round (d : decimal) : decimal :=
  let m := Z.abs (coefficient d) in
  let k := excess m in
  if Z.eqb k 0 then d
  else
    let q := round_half_even m k in
    let q' := if Z.eqb q (10 ^ precision) then 10 ^ (precision - 1) else q in
    let e := if Z.eqb q (10 ^ precision) then exponent d + k + 1 else exponent d + k in
    Dec (Z.sgn (coefficient d) * q') e.

Definition dec_mul (a b : decimal) : decimal :=
  dec_round (Dec (coefficient a * coefficient b) (exponent a + exponent b)).

Definition dec_add (a b : decimal) : decimal :=
  let e := Z.min (exponent a) (exponent b) in
  dec_round (Dec (coefficient a * 10 ^ (exponent a - e)
                  + coefficient b * 10 ^ (exponent b - e)) e).

(** [a / Decimal(1_000_000)]: dividing a coefficient of the context's precision
by a power of ten is exact. *)
Definition dec_div_million (a : decimal) : decimal :=
  let r := dec_round a in Dec (coefficient r) (exponent r - 6).

(** Comparison is exact. *)
Definition dec_compare (a b : decimal) : comparison :=
  let e := Z.min (exponent a) (exponent b) in
  Z.compare (coefficient a * 10 ^ (exponent a - e)) (coefficient b * 10 ^ (exponent b - e)).
Definition dec_gtb (a b : decimal) : bool :=
  match dec_compare a b with Gt => true | _ => false end.
Definition dec_leb (a b : decimal) : bool := negb (dec_gtb a b).

(** [Field(ge=0, le=1_000_000)] *)
Definition dec_price_bounds (d : decimal) : bool :=
  dec_leb (dec_of_Z 0) d && dec_leb d (dec_of_Z 1000000).

Example dec_cost_example :
  dec_div_million (dec_add (dec_mul (dec_of_Z 1500) (Dec 25 (-1)))
                           (dec_mul (dec_of_Z 200) (Dec 10 0)))
  = Dec 57500 (-7).
Proof. vm_compute. reflexivity. Qed.
