(* ===== verification/PyDecimalText.v ===== *)
(** * Decimal text

[str(Decimal)] ([Decimal.__str__]) and [Decimal(text)] for finite decimals: amounts
cross the boundary to JSON as text.  [dec_text_roundtrip] is that reading inverts
writing.  Blanks, underscores, infinities and NaN, which [Decimal] reads too, are never
written for a finite decimal; [dec_of_string] refuses them.  A decimal here has no
negative zero. *)
From S2P Require Import Prelude PyDecimal.
From Stdlib Require Import Ascii.
Local Open Scope Z_scope.

(** ** Reading *)

Fixpoint digits_from (acc : N) (s : string) : option N :=
  match s with
  | EmptyString => Some acc
  | String c s' =>
      if is_digit c then digits_from (10 * acc + (N_of_ascii c - 48)) s' else None
  end.

(** The longest prefix of digits, and the rest. *)
Fixpoint span_digits (s : string) : string * string :=
  match s with
  | EmptyString => ("", "")
  | String c s' =>
      if is_digit c then (String c (span_digits s').1, (span_digits s').2) else ("", s)
  end.

Definition split_sign (s : string) : Z * string :=
  match s with
  | String "-" r => (-1, r)
  | String "+" r => (1, r)
  | _ => (1, s)
  end.

Definition split_frac (s : string) : string * string :=
  match s with
  | String "." r => span_digits r
  | _ => ("", s)
  end.

Definition exponent_of (s : string) : option Z :=
  match s with
  | EmptyString => Some 0
  | String c r =>
      if bool_decide (c = "E"%char) || bool_decide (c = "e"%char) then
        let '(sign, digits) := split_sign r in
        if bool_decide (digits = "") then None
        else n ← digits_from 0 digits; Some (sign * Z.of_N n)
      else None
  end.

(** [None]: [InvalidOperation]. *)
Definition dec_of_string (s : string) : option decimal :=
  let '(sign, body) := split_sign s in
  let '(int, r1) := span_digits body in
  let '(frac, r2) := split_frac r1 in
  if bool_decide (int +:+ frac = "") then None
  else
    m ← digits_from 0 (int +:+ frac);
    e ← exponent_of r2;
    Some (Dec (sign * Z.of_N m) (e - Z.of_nat (String.length frac))).

(** ** Writing *)

Fixpoint str_take (n : nat) (s : string) : string :=
  match n, s with
  | S n', String c s' => String c (str_take n' s')
  | _, _ => ""
  end.
Fixpoint str_drop (n : nat) (s : string) : string :=
  match n, s with
  | S n', String _ s' => str_drop n' s'
  | _, _ => s
  end.
Fixpoint zeros (n : nat) : string :=
  match n with O => "" | S n' => String "0" (zeros n') end.

(** ["%+d" % z] *)
Definition signed (z : Z) : string :=
  (if Z.ltb z 0 then "-" else "+") +:+ pretty (Z.abs_N z).

Definition dec_str (d : decimal) : string :=
  let int := pretty (Z.abs_N (coefficient d)) in
  let len := Z.of_nat (String.length int) in
  let leftdigits := exponent d + len in
  let dotplace := if Z.leb (exponent d) 0 && Z.ltb (-6) leftdigits then leftdigits else 1 in
  let mantissa :=
    if Z.leb dotplace 0 then "0." +:+ zeros (Z.to_nat (- dotplace)) +:+ int
    else if Z.leb len dotplace then int +:+ zeros (Z.to_nat (dotplace - len))
    else str_take (Z.to_nat dotplace) int +:+ "." +:+ str_drop (Z.to_nat dotplace) int in
  (if Z.ltb (coefficient d) 0 then "-" else "")
  +:+ mantissa
  +:+ (if Z.eqb leftdigits dotplace then "" else "E" +:+ signed (leftdigits - dotplace)).

Example dec_str_examples :
  dec_str <$> [Dec 57500 (-7); Dec 1 (-7); Dec (-15) 3; Dec 0 0; Dec 12 0; Dec 123 (-10)]
  = ["0.0057500"; "1E-7"; "-1.5E+4"; "0"; "12"; "1.23E-8"].
Proof. vm_compute. reflexivity. Qed.

(** ** Strings of digits *)

Lemma digits_app a b acc :
  digits_from acc (a +:+ b) = (v ← digits_from acc a; digits_from v b).
Proof.
  revert acc. induction a as [|c a IH]; intros acc; [done|].
  rewrite str_app_cons. cbn [digits_from]. destruct (is_digit c); [apply IH|done].
Qed.

Lemma span_app a b :
  str_forallb is_digit a = true →
  match b with String c _ => is_digit c | _ => false end = false →
  span_digits (a +:+ b) = (a, b).
Proof.
  intros Ha Hb. induction a as [|c a IH].
  - destruct b as [|c b]; [done|]. change ("" +:+ String c b) with (String c b). cbn [span_digits]. by rewrite Hb.
  - cbn in Ha. apply andb_true_iff in Ha as [Hc Ha].
    rewrite str_app_cons. cbn [span_digits]. by rewrite Hc, (IH Ha).
Qed.

Lemma pretty_char_digit n : (n < 10)%N →
  is_digit (pretty_N_char n) = true ∧ (N_of_ascii (pretty_N_char n) - 48 = n)%N.
Proof.
  intros Hn.
  assert (n = 0 ∨ n = 1 ∨ n = 2 ∨ n = 3 ∨ n = 4 ∨ n = 5 ∨ n = 6 ∨ n = 7 ∨ n = 8 ∨ n = 9)%N
    as Hc by lia.
  by repeat destruct Hc as [->|Hc]; [..|subst n].
Qed.

(** Reading the digits that [pretty] writes before [s]. *)
Lemma digits_pretty_go n s : digits_from 0 (pretty_N_go n s) = digits_from n s.
Proof.
  revert s. induction (N.lt_wf_0 n) as [n _ IH]; intros s.
  destruct (decide (n = 0)%N) as [->|Hn]; [by rewrite pretty_N_go_0|].
  rewrite pretty_N_go_step by lia. rewrite IH by (apply N.div_lt; lia).
  assert (n `mod` 10 < 10)%N as Hm by (by apply N.mod_lt).
  destruct (pretty_char_digit _ Hm) as [Hd Hv]. cbn [digits_from]. rewrite Hd, Hv.
  f_equal. symmetry. by apply N.div_mod.
Qed.

Lemma pretty_go_digits n s :
  str_forallb is_digit s = true → str_forallb is_digit (pretty_N_go n s) = true.
Proof.
  revert s. induction (N.lt_wf_0 n) as [n _ IH]; intros s Hs.
  destruct (decide (n = 0)%N) as [->|Hn]; [by rewrite pretty_N_go_0|].
  rewrite pretty_N_go_step by lia. apply IH; [apply N.div_lt; lia|].
  assert (n `mod` 10 < 10)%N as Hm by (by apply N.mod_lt).
  destruct (pretty_char_digit _ Hm) as [Hd _]. cbn [str_forallb]. by rewrite Hd.
Qed.

Lemma digits_pretty (n : N) : digits_from 0 (pretty n) = Some n.
Proof.
  unfold pretty, pretty_N. case_decide as Hn; [by subst|]. by rewrite digits_pretty_go.
Qed.
Lemma pretty_digits (n : N) : str_forallb is_digit (pretty n) = true.
Proof. unfold pretty, pretty_N. case_decide; [done|]. by apply pretty_go_digits. Qed.
Lemma pretty_nonempty (n : N) : pretty n ≠ "".
Proof.
  intros He. pose proof (digits_pretty n) as Hd. rewrite He in Hd. injection Hd as <-.
  by vm_compute in He.
Qed.

Lemma zeros_digits n : str_forallb is_digit (zeros n) = true.
Proof. by induction n. Qed.
Lemma zeros_value n : digits_from 0 (zeros n) = Some 0%N.
Proof. by induction n. Qed.
Lemma zeros_length n : String.length (zeros n) = n.
Proof. induction n; [done|]. by cbn; f_equal. Qed.

Lemma take_drop_str n s : str_take n s +:+ str_drop n s = s.
Proof.
  revert n. induction s as [|c s IH]; intros [|n]; try done.
  cbn [str_take str_drop]. by rewrite str_app_cons, IH.
Qed.
Lemma drop_length n s : String.length (str_drop n s) = (String.length s - n)%nat.
Proof. revert n. induction s as [|c s IH]; intros [|n]; try done. apply IH. Qed.

#[export] Hint Resolve pretty_digits zeros_digits : digits.

(** ** The round trip *)

(** The parts of a text: digits, an optional dot with digits, an optional exponent. *)
Lemma dec_of_parts (neg : bool) int frac (m : N) (dot : bool) rest e :
  str_forallb is_digit int = true → str_forallb is_digit frac = true →
  int ≠ "" → (dot = false → frac = "") →
  digits_from 0 (int +:+ frac) = Some m → exponent_of rest = Some e →
  match rest with String c _ => is_digit c || bool_decide (c = "."%char) | _ => false end = false →
  dec_of_string ((if neg then "-" else "") +:+ int
                 +:+ (if dot then "." +:+ frac else "") +:+ rest)
  = Some (Dec ((if neg then -1 else 1) * Z.of_N m) (e - Z.of_nat (String.length frac))).
Proof.
  intros Hi Hf Hne Hdot Hm He Hr.
  assert (match rest with String c _ => is_digit c | _ => false end = false) as Hr'.
  { destruct rest; [done|]. by apply orb_false_iff in Hr as [? _]. }
  assert (split_sign ((if neg then "-" else "") +:+ int
            +:+ (if dot then "." +:+ frac else "") +:+ rest)
          = (if neg then -1 else 1, int +:+ (if dot then "." +:+ frac else "") +:+ rest)) as Hs.
  { destruct neg; [done|]. destruct int as [|c int]; [done|].
    destruct c as [[] [] [] [] [] [] [] []]; done. }
  unfold dec_of_string. rewrite Hs.
  assert (span_digits (int +:+ (if dot then "." +:+ frac else "") +:+ rest)
          = (int, (if dot then "." +:+ frac else "") +:+ rest)) as ->.
  { apply span_app; [done|]. destruct dot; [done|]. exact Hr'. }
  assert (split_frac ((if dot then "." +:+ frac else "") +:+ rest) = (frac, rest)) as ->.
  { destruct dot.
    - change (split_frac (("." +:+ frac) +:+ rest)) with (span_digits (frac +:+ rest)).
      by apply span_app.
    - rewrite (Hdot eq_refl). unfold split_frac. destruct rest as [|c rest]; [done|].
      apply orb_false_iff in Hr as [_ Hr].
      by destruct c as [[] [] [] [] [] [] [] []]. }
  rewrite bool_decide_eq_false_2; [|by destruct int]. by rewrite Hm, He.
Qed.

Lemma exponent_signed z : exponent_of ("E" +:+ signed z) = Some z.
Proof.
  change ("E" +:+ signed z) with (String "E" (signed z)). unfold exponent_of.
  rewrite bool_decide_eq_true_2 by done. cbn [orb]. unfold signed.
  assert (split_sign ((if Z.ltb z 0 then "-" else "+") +:+ pretty (Z.abs_N z))
          = (if Z.ltb z 0 then -1 else 1, pretty (Z.abs_N z))) as ->
    by (by destruct (Z.ltb z 0)).
  rewrite bool_decide_eq_false_2 by apply pretty_nonempty.
  rewrite digits_pretty. cbn. f_equal. rewrite N2Z.inj_abs_N. destruct (Z.ltb_spec z 0); lia.
Qed.

Lemma sign_abs z : (if Z.ltb z 0 then -1 else 1) * Z.of_N (Z.abs_N z) = z.
Proof. rewrite N2Z.inj_abs_N. destruct (Z.ltb_spec z 0); lia. Qed.

(** What follows the mantissa. *)
Lemma suffix_ok a b :
  let rest := if Z.eqb a b then "" else "E" +:+ signed (a - b) in
  exponent_of rest = Some (a - b)
  ∧ match rest with String c _ => is_digit c || bool_decide (c = "."%char) | _ => false end = false.
Proof.
  simpl. destruct (Z.eqb_spec a b) as [->|_]; [by rewrite Z.sub_diag|]. by rewrite exponent_signed.
Qed.

(** The mantissa of [dec_str]: its digits are those of the coefficient, and the dot
stands [dot] digits from the left. *)
Lemma mantissa_parts int (dot : Z) m :
  str_forallb is_digit int = true → int ≠ "" → digits_from 0 int = Some m →
  dot ≤ Z.of_nat (String.length int) →
  ∃ before flag frac,
    (if Z.leb dot 0 then "0." +:+ zeros (Z.to_nat (- dot)) +:+ int
     else if Z.leb (Z.of_nat (String.length int)) dot
     then int +:+ zeros (Z.to_nat (dot - Z.of_nat (String.length int)))
     else str_take (Z.to_nat dot) int +:+ "." +:+ str_drop (Z.to_nat dot) int)
    = before +:+ (if (flag : bool) then "." +:+ frac else "")
    ∧ str_forallb is_digit before = true ∧ str_forallb is_digit frac = true ∧ before ≠ ""
    ∧ (flag = false → frac = "") ∧ digits_from 0 (before +:+ frac) = Some m
    ∧ Z.of_nat (String.length frac) = Z.of_nat (String.length int) - dot.
Proof.
  intros Hd Hne Hm Hdot. destruct (Z.leb_spec dot 0) as [Hz|Hz].
  - exists "0", true, (zeros (Z.to_nat (- dot)) +:+ int). split_and!; try done.
    + by rewrite str_forallb_app, zeros_digits.
    + rewrite digits_app. change (digits_from 0 "0") with (Some 0%N). simpl.
      by rewrite digits_app, zeros_value.
    + rewrite length_str_app, zeros_length, Nat2Z.inj_add, Z2Nat.id by lia. lia.
  - destruct (Z.leb_spec (Z.of_nat (String.length int)) dot) as [Hl|Hl].
    + assert (dot = Z.of_nat (String.length int)) as -> by lia.
      exists int, false, "". rewrite Z.sub_diag. cbn [Z.to_nat zeros].
      split_and!; rewrite ?str_app_nil; try done; cbn; lia.
    + pose proof (take_drop_str (Z.to_nat dot) int) as Hs.
      exists (str_take (Z.to_nat dot) int), true, (str_drop (Z.to_nat dot) int).
      rewrite <-Hs, str_forallb_app in Hd. apply andb_true_iff in Hd as [Ht Hf].
      split_and!; try done.
      * destruct int as [|c int]; [done|]. destruct (Z.to_nat dot) eqn:E; [lia|done].
      * by rewrite Hs.
      * rewrite drop_length. lia.
Qed.

(** C: [Decimal(str(d)) == d], with the same coefficient and exponent. *)
Theorem dec_text_roundtrip d : dec_of_string (dec_str d) = Some d.
Proof.
  destruct d as [c e]. unfold dec_str. cbn [coefficient exponent].
  set (left := e + Z.of_nat (String.length (pretty (Z.abs_N c)))).
  set (dot := if Z.leb e 0 && Z.ltb (-6) left then left else 1).
  assert (dot ≤ Z.of_nat (String.length (pretty (Z.abs_N c)))) as Hdot.
  { pose proof (pretty_nonempty (Z.abs_N c)) as Hne. unfold dot, left in *.
    destruct (pretty (Z.abs_N c)) as [|x int]; [done|].
    destruct (Z.leb_spec e 0), (Z.ltb _ _); cbn [String.length andb] in *; lia. }
  destruct (mantissa_parts _ dot _ (pretty_digits _) (pretty_nonempty _) (digits_pretty _) Hdot)
    as (before & flag & frac & -> & Hb & Hf & Hne & Hflag & Hm & Hlen).
  destruct (suffix_ok left dot) as [He Hr]. rewrite str_app_assoc.
  rewrite (dec_of_parts (Z.ltb c 0) before frac (Z.abs_N c) flag _ (left - dot)) by done.
  rewrite sign_abs. do 2 f_equal. unfold left. lia.
Qed.
