(* ===== verification/PyFloat.v ===== *)
(** * Floating point

The finite part of Python's [float]: a value is a rational, and an operation is
the exact result rounded to binary64 (53 significant bits, ties to even).  The
exponent range is not modelled: the expressions of this program stay between
[2^-34] and [100^100 * 86400000 < 2^1023], so neither overflow nor a subnormal
number occurs. *)
From S2P Require Import Prelude.
From Stdlib Require Import QArith Qround Lia.
Local Close Scope Q_scope.
Local Open Scope Z_scope.

(** [num / den] to the nearest integer, ties to even. *)
Definition round_div (num den : Z) : Z :=
  let q := num / den in
  match Z.compare (2 * (num mod den)) den with
  | Lt => q
  | Gt => q + 1
  | Eq => if Z.even q then q else q + 1
  end.

(** [2^e <= n / d] *)
Definition pow2_leb (n d e : Z) : bool :=
  Z.leb (d * 2 ^ Z.max 0 e) (n * 2 ^ Z.max 0 (- e)).

(** The exponent of the binade of [n / d], for positive [n] and [d]. *)
Definition binade (n d : Z) : Z :=
  let e := Z.log2 n - Z.log2 d in if pow2_leb n d e then e else e - 1.

(** [z * 2^k] *)
Definition scale (z k : Z) : Q :=
  Qmake (z * 2 ^ Z.max 0 k) (Z.to_pos (2 ^ Z.max 0 (- k))).

(** The nearest binary64 number. *)
Definition f64 (q : Q) : Q :=
  if Z.eqb (Qnum q) 0 then 0%Q
  else
    let n := Z.abs (Qnum q) in
    let d := Zpos (Qden q) in
    let k := binade n d - 52 in
    scale (Z.sgn (Qnum q) * round_div (n * 2 ^ Z.max 0 (- k)) (d * 2 ^ Z.max 0 k)) k.

Definition float_mul (a b : Q) : Q := f64 (Qmult a b).
Definition float_add (a b : Q) : Q := f64 (Qplus a b).
(** [a / b] of two integers is correctly rounded too. *)
Definition int_truediv (a b : Z) : Q := f64 (Qdiv (inject_Z a) (inject_Z b)).
(** [int(x)] truncates. *)
Definition float_int (q : Q) : Z := Z.quot (Qnum q) (Zpos (Qden q)).

Lemma round_div_le num den k : 0 < den → num ≤ k * den → round_div num den ≤ k.
Proof.
  intros Hd Hk. unfold round_div.
  pose proof (Z.div_mod num den ltac:(lia)). pose proof (Z.mod_pos_bound num den Hd).
  destruct (Z.compare_spec (2 * (num mod den)) den); [destruct (Z.even _)|..]; nia.
Qed.

Lemma round_div_ge num den k : 0 < den → k * den ≤ num → k ≤ round_div num den.
Proof.
  intros Hd Hk. unfold round_div.
  pose proof (Z.div_mod num den ltac:(lia)). pose proof (Z.mod_pos_bound num den Hd).
  destruct (Z.compare_spec (2 * (num mod den)) den); [destruct (Z.even _)|..]; nia.
Qed.

Lemma pow2_pos k : 0 < 2 ^ Z.max 0 k.
Proof. apply Z.pow_pos_nonneg; lia. Qed.
#[local] Hint Resolve pow2_pos : core.

Lemma pow2_split a b : 2 ^ Z.max 0 (a + b) * 2 ^ Z.max 0 (- a) * 2 ^ Z.max 0 (- b)
  = 2 ^ Z.max 0 a * 2 ^ Z.max 0 b * 2 ^ Z.max 0 (- (a + b)).
Proof. rewrite <-!Z.pow_add_r by lia. f_equal. lia. Qed.

Lemma binade_le n d : 0 < n → 0 < d → pow2_leb n d (binade n d) = true.
Proof.
  intros Hn Hd. unfold binade. destruct (pow2_leb n d (Z.log2 n - Z.log2 d)) eqn:He; [done|].
  unfold pow2_leb. apply Z.leb_le.
  pose proof (Z.log2_spec n Hn) as [Hl _]. pose proof (Z.log2_spec d Hd) as [_ Hu].
  set (a := Z.log2 n) in *. set (b := Z.log2 d) in *.
  assert (0 ≤ a ∧ 0 ≤ b) as [Ha Hb] by (split; apply Z.log2_nonneg).
  pose proof (pow2_pos (a - b - 1)). pose proof (pow2_pos (- (a - b - 1))).
  assert (2 ^ Z.succ b * 2 ^ Z.max 0 (a - b - 1) = 2 ^ a * 2 ^ Z.max 0 (- (a - b - 1)))
    by (rewrite <-!Z.pow_add_r by lia; f_equal; lia).
  nia.
Qed.

Lemma scale_le z j z' k :
  0 ≤ j → 0 ≤ k → z * 2 ^ k ≤ z' * 2 ^ j ↔ (scale z (- j) <= scale z' (- k))%Q.
Proof.
  intros Hj Hk. unfold scale, Qle; simpl. rewrite !Z.opp_involutive.
  rewrite (Z.max_l 0 (- j)), (Z.max_l 0 (- k)), (Z.max_r 0 j), (Z.max_r 0 k) by lia.
  rewrite !Z2Pos.id, Z.pow_0_r, !Z.mul_1_r by (apply Z.pow_pos_nonneg; lia). done.
Qed.

(** Comparison of a fraction with a dyadic number. *)
Lemma frac_le_scale n d z j :
  0 ≤ j → n * 2 ^ j ≤ z * Zpos d ↔ ((n # d) <= scale z (- j))%Q.
Proof.
  intros Hj. unfold scale, Qle; simpl. rewrite Z.opp_involutive.
  rewrite (Z.max_l 0 (- j)), (Z.max_r 0 j) by lia.
  by rewrite Z2Pos.id, Z.pow_0_r, Z.mul_1_r by (apply Z.pow_pos_nonneg; lia).
Qed.

Lemma scale_le_frac n d z j :
  0 ≤ j → z * Zpos d ≤ n * 2 ^ j ↔ (scale z (- j) <= (n # d))%Q.
Proof.
  intros Hj. unfold scale, Qle; simpl. rewrite Z.opp_involutive.
  rewrite (Z.max_l 0 (- j)), (Z.max_r 0 j) by lia.
  by rewrite Z2Pos.id, Z.pow_0_r, Z.mul_1_r by (apply Z.pow_pos_nonneg; lia).
Qed.

Lemma f64_scale n d : 0 < n →
  f64 (n # d) = scale (round_div (n * 2 ^ Z.max 0 (- (binade n (Zpos d) - 52)))
                         (Zpos d * 2 ^ Z.max 0 (binade n (Zpos d) - 52))) (binade n (Zpos d) - 52).
Proof.
  intros Hn. unfold f64; simpl. destruct (Z.eqb_spec n 0); [lia|].
  rewrite Z.abs_eq, Z.sgn_pos by lia. by rewrite Z.mul_1_l.
Qed.

Lemma scale_lt z z' k : z < z' → (scale z k < scale z' k)%Q.
Proof. intros Hz. unfold scale, Qlt; simpl.
  apply Z.mul_lt_mono_pos_r; [lia|]. by apply Z.mul_lt_mono_pos_r.
Qed.

Lemma scale_0 j : (scale 0 j == 0)%Q.
Proof. done. Qed.

(** Rounding does not cross a number [z * 2^-j] of at most 53 bits. *)
Lemma f64_le q z j :
  (0 <= q)%Q → 0 ≤ j → z < 2 ^ 53 → (q <= scale z (- j))%Q → (f64 q <= scale z (- j))%Q.
Proof.
  destruct q as [n d]. intros Hq Hj Hz Hle.
  assert (0 ≤ n) as Hn by (unfold Qle in Hq; simpl in Hq; lia).
  destruct (decide (n = 0)) as [->|].
  { change (f64 (0 # d)) with 0%Q. by apply (Qle_trans _ (0 # d)). }
  assert (n * 2 ^ j ≤ z * Zpos d) as Hle' by (by apply frac_le_scale).
  clear Hle. rewrite f64_scale by lia. set (b := binade n (Zpos d)).
  pose proof (binade_le n (Zpos d) ltac:(lia) ltac:(lia)) as Hb. fold b in Hb.
  apply Z.leb_le in Hb.
  assert (b - 52 ≤ - j) as Hk.
  { apply Z.le_ngt. intros Hgt.
    assert (2 ^ 53 * 2 ^ Z.max 0 (- b) ≤ 2 ^ j * 2 ^ Z.max 0 b).
    { rewrite <-!Z.pow_add_r by lia. apply Z.pow_le_mono_r; lia. }
    pose proof (pow2_pos (- b)). pose proof (pow2_pos b).
    assert (0 < 2 ^ j) by (apply Z.pow_pos_nonneg; lia).
    assert (Zpos d * 2 ^ Z.max 0 b * 2 ^ j ≤ z * Zpos d * 2 ^ Z.max 0 (- b)) by nia.
    assert (2 ^ 53 ≤ z); [|lia]. nia. }
  rewrite (Z.max_l 0 (b - 52)), (Z.max_r 0 (- (b - 52))) by lia.
  replace (b - 52) with (- (52 - b)) at 2 by lia. apply scale_le; [lia|lia|].
  assert (round_div (n * 2 ^ (- (b - 52))) (Zpos d * 2 ^ 0) ≤ z * 2 ^ (52 - b - j)).
  { apply round_div_le; [lia|]. rewrite Z.pow_0_r, Z.mul_1_r.
    replace (- (b - 52)) with (j + (52 - b - j)) by lia. rewrite Z.pow_add_r by lia.
    pose proof (Z.pow_pos_nonneg 2 (52 - b - j)). nia. }
  assert (2 ^ (52 - b) = 2 ^ (52 - b - j) * 2 ^ j) as ->
    by (rewrite <-Z.pow_add_r by lia; f_equal; lia).
  pose proof (Z.pow_pos_nonneg 2 j). nia.
Qed.

Lemma f64_ge_dyadic q z j :
  0 ≤ z ≤ 2 ^ 53 → 0 ≤ j → (scale z (- j) <= q)%Q → (scale z (- j) <= f64 q)%Q.
Proof.
  destruct q as [n d]. intros Hz Hj Hle.
  assert (z * Zpos d ≤ n * 2 ^ j) as Hle' by (by apply scale_le_frac).
  assert (0 < 2 ^ j) by (apply Z.pow_pos_nonneg; lia).
  destruct (decide (n ≤ 0)) as [Hn|Hn].
  { assert (z = 0) as -> by nia. destruct (decide (n = 0)) as [->|]; [done|].
    unfold scale, Qle in Hle; simpl in Hle. lia. }
  clear Hle. rewrite f64_scale by lia. set (b := binade n (Zpos d)).
  pose proof (binade_le n (Zpos d) ltac:(lia) ltac:(lia)) as Hb. fold b in Hb.
  apply Z.leb_le in Hb.
  destruct (decide (b - 52 ≤ - j)) as [Hk|Hk].
  - rewrite (Z.max_l 0 (b - 52)), (Z.max_r 0 (- (b - 52))) by lia.
    replace (b - 52) with (- (52 - b)) at 2 by lia. apply scale_le; [lia|lia|].
    assert (z * 2 ^ (52 - b - j) ≤ round_div (n * 2 ^ (- (b - 52))) (Zpos d * 2 ^ 0)).
    { apply round_div_ge; [lia|]. rewrite Z.pow_0_r, Z.mul_1_r.
      replace (- (b - 52)) with (j + (52 - b - j)) by lia. rewrite Z.pow_add_r by lia.
      pose proof (Z.pow_pos_nonneg 2 (52 - b - j)). nia. }
    assert (2 ^ (52 - b) = 2 ^ (52 - b - j) * 2 ^ j) as ->
      by (rewrite <-Z.pow_add_r by lia; f_equal; lia). nia.
  - set (r := round_div _ _).
    assert (2 ^ 52 ≤ r) as Hr.
    { apply round_div_ge; [by apply Z.mul_pos_pos|].
      pose proof (pow2_split 52 (b - 52)) as Hs. replace (52 + (b - 52)) with b in Hs by lia.
      change (2 ^ Z.max 0 (- (52))) with 1 in Hs. change (2 ^ Z.max 0 52) with (2 ^ 52) in Hs.
      pose proof (pow2_pos (- b)) as Hp1. pose proof (pow2_pos (- (b - 52))).
      rewrite Z.mul_1_r in Hs. apply (Zmult_le_reg_r _ _ (2 ^ Z.max 0 (- b))); [lia|]. nia. }
    assert (2 ^ 1 ≤ 2 ^ (b - 52 + j)) as H2 by (apply Z.pow_le_mono_r; lia).
    assert (z ≤ r * 2 ^ (b - 52 + j)) as Hzr by nia. clearbody r.
    destruct (decide (b - 52 ≤ 0)).
    + replace (b - 52) with (- (52 - b)) by lia. apply scale_le; [lia|lia|].
      assert (2 ^ j = 2 ^ (52 - b) * 2 ^ (b - 52 + j)) as ->
        by (rewrite <-Z.pow_add_r by lia; f_equal; lia).
      apply (Z.mul_le_mono_nonneg_r _ _ (2 ^ (52 - b))) in Hzr; [lia|].
      apply Z.pow_nonneg; lia.
    + unfold scale, Qle; simpl. rewrite Z.opp_involutive.
      rewrite (Z.max_r 0 (b - 52)), (Z.max_l 0 (- (b - 52))), (Z.max_l 0 (- j)), (Z.max_r 0 j)
        by lia.
      rewrite !Z2Pos.id, Z.pow_0_r, !Z.mul_1_r by (apply Z.pow_pos_nonneg; lia).
      rewrite Z.pow_add_r in Hzr by lia. lia.
Qed.

Lemma f64_ge q z :
  0 ≤ z ≤ 2 ^ 53 → (inject_Z z <= q)%Q → (inject_Z z <= f64 q)%Q.
Proof.
  assert (inject_Z z = scale z (- 0)) as -> by (unfold scale, inject_Z; simpl; by rewrite Z.mul_1_r).
  intros. by apply f64_ge_dyadic.
Qed.

(** Quotients of small integers keep their order. *)
Lemma int_truediv_lt a b c d :
  0 ≤ a ≤ 2 ^ 20 → 0 ≤ c ≤ 2 ^ 20 → 0 < b ≤ 128 → 0 < d ≤ 128 → a * d < c * b →
  (int_truediv a b < int_truediv c d)%Q.
Proof.
  intros Ha Hc Hb Hd Hlt. unfold int_truediv.
  set (z := (a * 2 ^ 16 + b - 1) / b).
  pose proof (Z.div_mod (a * 2 ^ 16 + b - 1) b ltac:(lia)) as Hz. fold z in Hz.
  pose proof (Z.mod_pos_bound (a * 2 ^ 16 + b - 1) b ltac:(lia)).
  assert (0 ≤ z) by nia. assert (z ≤ 2 ^ 40) by nia.
  assert ((z + 1) * d ≤ c * 2 ^ 16) by nia.
  destruct b as [|b|b], d as [|d|d]; try lia.
  apply (Qle_lt_trans _ (scale z (- (16)))).
  - apply (f64_le _ z 16); [|lia|lia|]; rewrite <-Qmake_Qdiv.
    + unfold Qle; simpl. lia.
    + apply frac_le_scale; lia.
  - apply (Qlt_le_trans _ (scale (z + 1) (- (16)))); [apply scale_lt; lia|].
    apply (f64_ge_dyadic _ (z + 1) 16); [lia|lia|]. rewrite <-Qmake_Qdiv.
    apply scale_le_frac; lia.
Qed.

Lemma float_int_bounds q a b :
  0 ≤ a → (inject_Z a <= q)%Q → (q <= inject_Z b)%Q → a ≤ float_int q ≤ b.
Proof.
  destruct q as [n d]. unfold Qle, float_int; simpl. intros.
  rewrite Z.quot_div_nonneg by nia. split.
  - apply Z.div_le_lower_bound; lia.
  - apply Z.div_le_upper_bound; lia.
Qed.

Example f64_third : f64 (Qmake 1 3) = (6004799503160661 # 18014398509481984)%Q.
Proof. vm_compute. reflexivity. Qed.
Example f64_big : float_int (f64 (inject_Z (2 ^ 53 + 1))) = 2 ^ 53.
Proof. vm_compute. reflexivity. Qed.
