(* ===== verification/Failures.v ===== *)
(** * Failure classes and retry rules

[packages/contracts/src/jarvis_contracts/failures.py].  [classify_failure] picks
one class by a fixed precedence; a retry policy lists at most one rule per
class. *)
From S2P Require Import Prelude Enums.
From Stdlib Require Import QArith.
Local Close Scope Q_scope.
Local Open Scope Z_scope.
Local Open Scope stdpp_scope.

Record FailureEvidence := {
  security_policy_denied : bool;
  user_cancelled : bool;
  explicit_class : option FailureClass.t;
  verifier_failed : bool;
  provider_rate_limited : bool;
  provider_transient : bool;
  worker_transport_failed : bool;
  evidence_code : string;
  evidence_summary : string;
}.

Definition FailureEvidence_valid (e : FailureEvidence) : bool :=
  len_between 1 120 (evidence_code e) && len_between 0 1024 (evidence_summary e).

(** [FailureEvidence(explicit_class=c, summary=s)]: every other field at its
default. *)
Definition explicit_evidence (c : option FailureClass.t) (s : string) : FailureEvidence := {|
  security_policy_denied := false; user_cancelled := false; explicit_class := c;
  verifier_failed := false; provider_rate_limited := false;
  provider_transient := false; worker_transport_failed := false;
  evidence_code := "unknown"; evidence_summary := s;
|}.

Record FailureClassification := {
  failure_class : FailureClass.t;
  classification_code : string;
  retryable : bool;
  budget_scope : string;
  consumes_semantic_attempt : bool;
  classification_summary : string;
}.

(** The [non_retryable] set of [classify_failure]. *)
Definition non_retryable : list FailureClass.t :=
  [ FailureClass.CONFIGURATION_INVALID; FailureClass.SECURITY_POLICY_DENIED;
    FailureClass.APPROVAL_REJECTED; FailureClass.USER_CANCELLED ].

(** The [if]/[elif] chain that selects the class. *)
Definition selected_class (evidence : FailureEvidence) : FailureClass.t :=
  if security_policy_denied evidence then FailureClass.SECURITY_POLICY_DENIED
  else if user_cancelled evidence then FailureClass.USER_CANCELLED
  else match explicit_class evidence with
  | Some c => c
  | None =>
      if verifier_failed evidence then FailureClass.CODE_TEST_FAILURE
      else if provider_rate_limited evidence then FailureClass.PROVIDER_RATE_LIMITED
      else if provider_transient evidence then FailureClass.PROVIDER_TRANSIENT
      else if worker_transport_failed evidence
      then FailureClass.INFRASTRUCTURE_WORKER_TRANSPORT
      else FailureClass.ORCHESTRATION_RUNTIME_ERROR
  end.

Definition classify_failure (evidence : FailureEvidence) : FailureClassification :=
  let selected := selected_class evidence in
  {| failure_class := selected;
     classification_code := evidence_code evidence;
     retryable := negb (bool_decide (selected ∈ non_retryable));
     budget_scope := FailureClass.value selected;
     consumes_semantic_attempt := startswith "code." (FailureClass.value selected);
     classification_summary := evidence_summary evidence |}.

Module ExhaustionAction.
Inductive t : Set := fail | block | approval.
#[global] Instance eq_dec : EqDecision t.
Proof. solve_decision. Defined.
Definition value (x : t) : string :=
  match x with fail => "fail" | block => "block" | approval => "approval" end.
End ExhaustionAction.

Module Jitter.
Inductive t : Set := none | deterministic.
#[global] Instance eq_dec : EqDecision t.
Proof. solve_decision. Defined.
End Jitter.

Record RetryRule := {
  rule_failure_class : FailureClass.t;
  max_retries : Z;
  initial_delay_ms : Z;
  multiplier : Q;
  exhaustion_action : ExhaustionAction.t;
  max_delay_ms : Z;
  jitter : Jitter.t;
  allow_failover : bool;
}.

#[export] Instance RetryRule_eq_dec : EqDecision RetryRule.
Proof.
  assert (EqDecision Q) by (intros x y; unfold Decision; repeat decide equality).
  solve_decision.
Defined.

(** Field bounds, then [delay_bounds]. *)
Definition RetryRule_valid (r : RetryRule) : bool :=
  z_between 0 100 (max_retries r)
  && z_between 0 86400000 (initial_delay_ms r)
  && (Qle_bool 1 (multiplier r) && Qle_bool (multiplier r) 100)
  && z_between 0 86400000 (max_delay_ms r)
  && negb (Z.ltb (max_delay_ms r) (initial_delay_ms r)).

(** [RetryPolicySpec] (and [RetryRegistrySpec], which adds only a tag). *)
Record RetryPolicySpec := { rules : list RetryRule }.

#[export] Instance RetryPolicySpec_eq_dec : EqDecision RetryPolicySpec.
Proof. solve_decision. Defined.

Definition RetryPolicySpec_valid (p : RetryPolicySpec) : bool :=
  forallb RetryRule_valid (rules p)
  && all_distinct (rule_failure_class <$> rules p).

(** [next((rule for rule in policy.rules if rule.failure_class == c), None)] *)
Definition find_rule (c : FailureClass.t) (rs : list RetryRule) : option RetryRule :=
  snd <$> list_find (λ r, rule_failure_class r = c) rs.

Lemma find_rule_Some c rs r :
  find_rule c rs = Some r → r ∈ rs ∧ rule_failure_class r = c.
Proof.
  unfold find_rule. destruct (list_find _ rs) as [[i r']|] eqn:Hf; [|done].
  simpl; intros [= ->]. apply list_find_Some in Hf as (Hr & ? & _).
  split; [by eapply list_elem_of_lookup_2|done].
Qed.

(** In a valid policy the rule of a class is unique. *)
Lemma find_rule_unique p c r :
  RetryPolicySpec_valid p = true →
  find_rule c (rules p) = Some r ↔ r ∈ rules p ∧ rule_failure_class r = c.
Proof.
  unfold RetryPolicySpec_valid, all_distinct. rewrite andb_true_iff, bool_decide_eq_true.
  intros [_ Hnd]. split; [apply find_rule_Some|]. intros [Hr Hc].
  unfold find_rule. destruct (list_find _ (rules p)) as [[i r']|] eqn:Hf; simpl.
  - f_equal. apply list_find_Some in Hf as (Hr' & Hc' & _).
    apply list_elem_of_lookup in Hr as [k Hk].
    assert (i = k) as <-; [|congruence].
    eapply (NoDup_lookup _ i k); [exact Hnd|rewrite list_lookup_fmap, Hr'; simpl; reflexivity|].
    rewrite list_lookup_fmap, Hk; simpl. congruence.
  - apply list_find_None in Hf. rewrite Forall_forall in Hf. by destruct (Hf r Hr).
Qed.
