(* ===== verification/Verification.v ===== *)
(** * Verification contracts

[packages/contracts/src/jarvis_contracts/verification.py]: execution profiles,
verification commands and required acceptance checks, with the validators
pydantic runs on them ([_valid] is true when construction succeeds). *)
From S2P Require Import Prelude Enums PyJson.
Local Open Scope Z_scope.
Local Open Scope stdpp_scope.

(** [ParserKind] *)
Module ParserKind.

Inductive t : Set := exit_code | pytest | vitest | playwright | typescript | next | eslint | ruff | mypy.

Definition value (x : t) : string :=
  match x with
  | exit_code => "exit_code"
  | pytest => "pytest"
  | vitest => "vitest"
  | playwright => "playwright"
  | typescript => "typescript"
  | next => "next"
  | eslint => "eslint"
  | ruff => "ruff"
  | mypy => "mypy"
  end.

#[global] Instance eq_dec : EqDecision t.
Proof. solve_decision. Defined.

#[global] Instance str_enum : StrEnum t.
Proof. refine (Build_StrEnum t _ value [exit_code; pytest; vitest; playwright; typescript; next; eslint; ruff; mypy] _ _); solve_str_enum_field. Defined.

End ParserKind.

(** [EnvironmentKey] *)
Module EnvironmentKey.

Inductive t : Set := CI | NO_COLOR | FORCE_COLOR | TZ | PYTHONDONTWRITEBYTECODE.

Definition value (x : t) : string :=
  match x with
  | CI => "CI"
  | NO_COLOR => "NO_COLOR"
  | FORCE_COLOR => "FORCE_COLOR"
  | TZ => "TZ"
  | PYTHONDONTWRITEBYTECODE => "PYTHONDONTWRITEBYTECODE"
  end.

#[global] Instance eq_dec : EqDecision t.
Proof. solve_decision. Defined.

#[global] Instance str_enum : StrEnum t.
Proof. refine (Build_StrEnum t _ value [CI; NO_COLOR; FORCE_COLOR; TZ; PYTHONDONTWRITEBYTECODE] _ _); solve_str_enum_field. Defined.

End EnvironmentKey.

(** [ExecutionProfileKey] *)
Module ExecutionProfileKey.

Inductive t : Set := python_pytest_v1 | node_build_v1 | browser_acceptance_v1.

Definition value (x : t) : string :=
  match x with
  | python_pytest_v1 => "python-pytest-v1"
  | node_build_v1 => "node-build-v1"
  | browser_acceptance_v1 => "browser-acceptance-v1"
  end.

#[global] Instance eq_dec : EqDecision t.
Proof. solve_decision. Defined.

#[global] Instance str_enum : StrEnum t.
Proof. refine (Build_StrEnum t _ value [python_pytest_v1; node_build_v1; browser_acceptance_v1] _ _); solve_str_enum_field. Defined.

End ExecutionProfileKey.

(** [VerificationPurpose] *)
Module VerificationPurpose.

Inductive t : Set := build | unit | browser | quality | integration.

Definition value (x : t) : string :=
  match x with
  | build => "build"
  | unit => "unit"
  | browser => "browser"
  | quality => "quality"
  | integration => "integration"
  end.

#[global] Instance eq_dec : EqDecision t.
Proof. solve_decision. Defined.

#[global] Instance str_enum : StrEnum t.
Proof. refine (Build_StrEnum t _ value [build; unit; browser; quality; integration] _ _); solve_str_enum_field. Defined.

End VerificationPurpose.

(** [DependencyPolicy.manager] *)
Module DependencyManager.

Inductive t : Set := none | pip | npm.

Definition value (x : t) : string :=
  match x with
  | none => "none"
  | pip => "pip"
  | npm => "npm"
  end.

#[global] Instance eq_dec : EqDecision t.
Proof. solve_decision. Defined.

#[global] Instance str_enum : StrEnum t.
Proof. refine (Build_StrEnum t _ value [none; pip; npm] _ _); solve_str_enum_field. Defined.

End DependencyManager.

(** [DependencyPolicy.lockfiles] *)
Module Lockfile.

Inductive t : Set := requirements_lock | package_lock_json.

Definition value (x : t) : string :=
  match x with
  | requirements_lock => "requirements.lock"
  | package_lock_json => "package-lock.json"
  end.

#[global] Instance eq_dec : EqDecision t.
Proof. solve_decision. Defined.

#[global] Instance str_enum : StrEnum t.
Proof. refine (Build_StrEnum t _ value [requirements_lock; package_lock_json] _ _); solve_str_enum_field. Defined.

End Lockfile.

(** [NetworkPolicy.preparation] *)
Module NetworkPreparation.

Inductive t : Set := none | registry_allowlist.

Definition value (x : t) : string :=
  match x with
  | none => "none"
  | registry_allowlist => "registry_allowlist"
  end.

#[global] Instance eq_dec : EqDecision t.
Proof. solve_decision. Defined.

#[global] Instance str_enum : StrEnum t.
Proof. refine (Build_StrEnum t _ value [none; registry_allowlist] _ _); solve_str_enum_field. Defined.

End NetworkPreparation.

(** [NetworkPolicy.verification] *)
Module NetworkVerification.

Inductive t : Set := none | application_loopback.

Definition value (x : t) : string :=
  match x with
  | none => "none"
  | application_loopback => "application_loopback"
  end.

#[global] Instance eq_dec : EqDecision t.
Proof. solve_decision. Defined.

#[global] Instance str_enum : StrEnum t.
Proof. refine (Build_StrEnum t _ value [none; application_loopback] _ _); solve_str_enum_field. Defined.

End NetworkVerification.

(** [ExecutionProfileSpec.project_types] *)
Module ProjectType.

Inductive t : Set := python | node | full_stack.

Definition value (x : t) : string :=
  match x with
  | python => "python"
  | node => "node"
  | full_stack => "full_stack"
  end.

#[global] Instance eq_dec : EqDecision t.
Proof. solve_decision. Defined.

#[global] Instance str_enum : StrEnum t.
Proof. refine (Build_StrEnum t _ value [python; node; full_stack] _ _); solve_str_enum_field. Defined.

End ProjectType.


Module ResourceBounds.
Record t := {
  cpu_count : Z;
  memory_mb : Z;
  pids : Z;
  workspace_mb : Z;
  timeout_seconds : Z;
  output_bytes : Z;
}.
#[global] Instance eq_dec : EqDecision t.
Proof. solve_decision. Defined.
Definition valid (r : t) : bool :=
  z_between 1 8 (cpu_count r) && z_between 128 8192 (memory_mb r)
  && z_between 16 1024 (pids r) && z_between 16 4096 (workspace_mb r)
  && z_between 1 86400 (timeout_seconds r) && z_between 1024 1048576 (output_bytes r).
End ResourceBounds.

Module DependencyPolicy.
Record t := {
  manager : DependencyManager.t;
  lockfiles : list Lockfile.t;
  require_lockfile : bool;
  require_integrity : bool;
  registry_allowlist : list string;
  cache_max_mb : Z;
}.
#[global] Instance eq_dec : EqDecision t.
Proof. solve_decision. Defined.
(** [^[a-z0-9.-]+$] *)
Definition registry_host (s : string) : bool :=
  negb (bool_decide (s = ""))
  && str_forallb (λ c, is_lower c || is_digit c || is_oneof [46%nat; 45%nat] c) s.
Definition valid (d : t) : bool :=
  forallb registry_host (registry_allowlist d) && z_between 0 4096 (cache_max_mb d).
End DependencyPolicy.

(** The [deny_*] switches of the class admit only [True]. *)
Module NetworkPolicy.
Record t := {
  preparation : NetworkPreparation.t;
  verification : NetworkVerification.t;
}.
#[global] Instance eq_dec : EqDecision t.
Proof. solve_decision. Defined.
End NetworkPolicy.

Module ExecutionProfileSpec.
Record t := {
  profile_key : ExecutionProfileKey.t;
  project_types : list ProjectType.t;
  image_reference : string;
  supported_commands : list string;
  tool_versions : list (string * string);
  resources : ResourceBounds.t;
  dependencies : DependencyPolicy.t;
  network : NetworkPolicy.t;
  max_files : Z;
  max_source_bytes : Z;
  source_formats : list string;
}.
#[global] Instance eq_dec : EqDecision t.
Proof. solve_decision. Defined.

Definition unique_commands (value : list string) : bool :=
  all_distinct value && forallb (λ item, len_between 1 80 item) value.

Definition unique_formats (value : list string) : bool :=
  all_distinct value && forallb (λ item, len_between 0 20 item) value.

Definition coherent_policy (self : t) : bool :=
  let deps := dependencies self in
  let manager_none := bool_decide (DependencyPolicy.manager deps = DependencyManager.none) in
  let no_lockfiles := bool_decide (DependencyPolicy.lockfiles deps = []) in
  negb (manager_none && negb no_lockfiles)
  && negb (negb manager_none && no_lockfiles)
  && negb (bool_decide (NetworkPolicy.preparation (network self)
                        = NetworkPreparation.registry_allowlist)
           && negb (negb manager_none
                    && negb (bool_decide (DependencyPolicy.registry_allowlist deps = []))))
  && negb (bool_decide (profile_key self = ExecutionProfileKey.browser_acceptance_v1)
           && (negb (bool_decide ("playwright" ∈ supported_commands self))
               || negb (bool_decide (NetworkPolicy.verification (network self)
                                     = NetworkVerification.application_loopback)))).

(** Field bounds and the three validators. *)
Definition valid (self : t) : bool :=
  Nat.leb 1 (length (project_types self))
  && len_between 1 300 (image_reference self)
  && Nat.leb 1 (length (supported_commands self))
  && Nat.leb (length (supported_commands self)) 32
  && forallb (λ kv, len_between 1 80 kv.2) (tool_versions self)
  && Nat.leb 1 (length (tool_versions self)) && Nat.leb (length (tool_versions self)) 32
  && ResourceBounds.valid (resources self)
  && DependencyPolicy.valid (dependencies self)
  && z_between 1 10000 (max_files self) && z_between 1024 67108864 (max_source_bytes self)
  && Nat.leb 1 (length (source_formats self)) && Nat.leb (length (source_formats self)) 64
  && unique_commands (supported_commands self) && unique_formats (source_formats self)
  && coherent_policy self.
End ExecutionProfileSpec.

Module VerificationCommand.
Record t := {
  argv : list string;
  timeout_seconds : Z;
  expected_exit_codes : list Z;
  environment : list (EnvironmentKey.t * string);
  parser : ParserKind.t;
  purpose : VerificationPurpose.t;
  profile_revision_id : option uuid;
  required_check_id : option string;
  require_nonempty_suite : bool;
  max_output_bytes : Z;
}.
#[global] Instance eq_dec : EqDecision t.
Proof. solve_decision. Defined.

(** The closed set of executables. *)
Definition supported_executables : list string :=
  ["python"; "pytest"; "npm"; "node"; "npx"; "playwright"; "vitest"; "tsc"; "next";
   "eslint"; "ruff"; "mypy"].

Definition has_nul (s : string) : bool :=
  negb (str_forallb (λ c, negb (Nat.eqb (Ascii.nat_of_ascii c) 0)) s).

Definition bounded_argv (value : list string) : bool :=
  forallb (λ item, len_between 1 1024 item && negb (has_nul item)) value
  && match value with
     | [] => false
     | program :: _ => bool_decide (program ∈ supported_executables)
     end.

Definition safe_environment (value : list (EnvironmentKey.t * string)) : bool :=
  forallb (λ kv,
    let allowed := if bool_decide (kv.1 = EnvironmentKey.TZ) then ["UTC"]
                   else ["0"; "1"; "true"; "false"] in
    bool_decide (kv.2 ∈ allowed)) value.

Definition valid (self : t) : bool :=
  Nat.leb 1 (length (argv self)) && Nat.leb (length (argv self)) 64
  && z_between 1 86400 (timeout_seconds self)
  && forallb (z_between 0 255) (expected_exit_codes self)
  && Nat.leb 1 (length (expected_exit_codes self))
  && Nat.leb (length (expected_exit_codes self)) 8
  && forallb (λ kv, len_between 0 128 kv.2) (environment self)
  && Nat.leb (length (environment self)) 5
  && opt_all (dotted_pattern 79) (required_check_id self)
  && z_between 1024 1048576 (max_output_bytes self)
  && bounded_argv (argv self) && safe_environment (environment self).
End VerificationCommand.

Module RequiredAcceptanceCheck.
Record t := {
  check_id : string;
  purpose : VerificationPurpose.t;
  profile_revision_id : uuid;
  command : VerificationCommand.t;
}.
#[global] Instance eq_dec : EqDecision t.
Proof. solve_decision. Defined.

Definition command_identity (self : t) : bool :=
  bool_decide (VerificationCommand.required_check_id (command self) = Some (check_id self))
  && bool_decide (VerificationCommand.profile_revision_id (command self)
                  = Some (profile_revision_id self))
  && bool_decide (VerificationCommand.purpose (command self) = purpose self)
  && negb (bool_decide (purpose self ∈ [VerificationPurpose.unit; VerificationPurpose.browser])
           && negb (VerificationCommand.require_nonempty_suite (command self)))
  && negb (bool_decide (purpose self = VerificationPurpose.browser)
           && negb (bool_decide (VerificationCommand.parser (command self)
                                 = ParserKind.playwright))).

Definition valid (self : t) : bool :=
  dotted_pattern 79 (check_id self) && VerificationCommand.valid (command self)
  && command_identity self.
End RequiredAcceptanceCheck.
