(* ===== verification/Registry.v ===== *)
(** * Registry contracts

[packages/contracts/src/jarvis_contracts/registry.py]: the versioned
configuration specs a workflow snapshot resolves (roles, teams, workers,
providers, model profiles, routes, retry and permission policies, profiles,
pools), and the routing requirement and usage records.  A Module per class:
[t] is the class, [valid] is true when pydantic's field bounds and the class's
validators accept it. *)
From S2P Require Import Prelude Enums PyJson PyDecimal Failures Verification.
From Stdlib Require Import QArith.
Local Close Scope Q_scope.
Local Open Scope Z_scope.
Local Open Scope stdpp_scope.

(** [RegistryKind] *)
Module RegistryKind.

Inductive t : Set := agent_role | team_template | worker | provider_connection | model_profile | route_policy | retry_policy | permission_policy | execution_profile | worker_pool.

Definition value (x : t) : string :=
  match x with
  | agent_role => "agent_role"
  | team_template => "team_template"
  | worker => "worker"
  | provider_connection => "provider_connection"
  | model_profile => "model_profile"
  | route_policy => "route_policy"
  | retry_policy => "retry_policy"
  | permission_policy => "permission_policy"
  | execution_profile => "execution_profile"
  | worker_pool => "worker_pool"
  end.

#[global] Instance eq_dec : EqDecision t.
Proof. solve_decision. Defined.

#[global] Instance str_enum : StrEnum t.
Proof. refine (Build_StrEnum t _ value [agent_role; team_template; worker; provider_connection; model_profile; route_policy; retry_policy; permission_policy; execution_profile; worker_pool] _ _); solve_str_enum_field. Defined.

End RegistryKind.

(** [ProviderKind] *)
Module ProviderKind.

Inductive t : Set := openai | ollama | demo.

Definition value (x : t) : string :=
  match x with
  | openai => "openai"
  | ollama => "ollama"
  | demo => "demo"
  end.

#[global] Instance eq_dec : EqDecision t.
Proof. solve_decision. Defined.

#[global] Instance str_enum : StrEnum t.
Proof. refine (Build_StrEnum t _ value [openai; ollama; demo] _ _); solve_str_enum_field. Defined.

End ProviderKind.

(** [Locality] *)
Module Locality.

Inductive t : Set := local | local_lan | remote.

Definition value (x : t) : string :=
  match x with
  | local => "local"
  | local_lan => "local_lan"
  | remote => "remote"
  end.

#[global] Instance eq_dec : EqDecision t.
Proof. solve_decision. Defined.

#[global] Instance str_enum : StrEnum t.
Proof. refine (Build_StrEnum t _ value [local; local_lan; remote] _ _); solve_str_enum_field. Defined.

End Locality.

(** [DataClassification] *)
Module DataClassification.

Inductive t : Set := public | internal | confidential | restricted.

Definition value (x : t) : string :=
  match x with
  | public => "public"
  | internal => "internal"
  | confidential => "confidential"
  | restricted => "restricted"
  end.

#[global] Instance eq_dec : EqDecision t.
Proof. solve_decision. Defined.

#[global] Instance str_enum : StrEnum t.
Proof. refine (Build_StrEnum t _ value [public; internal; confidential; restricted] _ _); solve_str_enum_field. Defined.

End DataClassification.

(** [HealthStatus] *)
Module HealthStatus.

Inductive t : Set := healthy | degraded | unavailable | misconfigured | unknown.

Definition value (x : t) : string :=
  match x with
  | healthy => "healthy"
  | degraded => "degraded"
  | unavailable => "unavailable"
  | misconfigured => "misconfigured"
  | unknown => "unknown"
  end.

#[global] Instance eq_dec : EqDecision t.
Proof. solve_decision. Defined.

#[global] Instance str_enum : StrEnum t.
Proof. refine (Build_StrEnum t _ value [healthy; degraded; unavailable; misconfigured; unknown] _ _); solve_str_enum_field. Defined.

End HealthStatus.

(** [Decision] *)
Module Decision3.

Inductive t : Set := allow | deny | require_approval.

Definition value (x : t) : string :=
  match x with
  | allow => "allow"
  | deny => "deny"
  | require_approval => "require_approval"
  end.

#[global] Instance eq_dec : EqDecision t.
Proof. solve_decision. Defined.

#[global] Instance str_enum : StrEnum t.
Proof. refine (Build_StrEnum t _ value [allow; deny; require_approval] _ _); solve_str_enum_field. Defined.

End Decision3.

(** [AgentRoleSpec.responsibility] *)
Module RoleResponsibility.

Inductive t : Set := manager | developer | reviewer | specialist.

Definition value (x : t) : string :=
  match x with
  | manager => "manager"
  | developer => "developer"
  | reviewer => "reviewer"
  | specialist => "specialist"
  end.

#[global] Instance eq_dec : EqDecision t.
Proof. solve_decision. Defined.

#[global] Instance str_enum : StrEnum t.
Proof. refine (Build_StrEnum t _ value [manager; developer; reviewer; specialist] _ _); solve_str_enum_field. Defined.

End RoleResponsibility.

(** [TeamTemplateSpec.mode] *)
Module TeamMode.

Inductive t : Set := demo | real.

Definition value (x : t) : string :=
  match x with
  | demo => "demo"
  | real => "real"
  end.

#[global] Instance eq_dec : EqDecision t.
Proof. solve_decision. Defined.

#[global] Instance str_enum : StrEnum t.
Proof. refine (Build_StrEnum t _ value [demo; real] _ _); solve_str_enum_field. Defined.

End TeamMode.

(** [ModelBinding.mode] *)
Module BindingMode.

Inductive t : Set := none | control_plane | worker_managed.

Definition value (x : t) : string :=
  match x with
  | none => "none"
  | control_plane => "control_plane"
  | worker_managed => "worker_managed"
  end.

#[global] Instance eq_dec : EqDecision t.
Proof. solve_decision. Defined.

#[global] Instance str_enum : StrEnum t.
Proof. refine (Build_StrEnum t _ value [none; control_plane; worker_managed] _ _); solve_str_enum_field. Defined.

End BindingMode.

(** [WorkerSpec.adapter_kind] *)
Module AdapterKind.

Inductive t : Set := demo | openhands_ssh_v1.

Definition value (x : t) : string :=
  match x with
  | demo => "demo"
  | openhands_ssh_v1 => "openhands_ssh_v1"
  end.

#[global] Instance eq_dec : EqDecision t.
Proof. solve_decision. Defined.

#[global] Instance str_enum : StrEnum t.
Proof. refine (Build_StrEnum t _ value [demo; openhands_ssh_v1] _ _); solve_str_enum_field. Defined.

End AdapterKind.

(** [Pricing.status] *)
Module PricingStatus.

Inductive t : Set := known | unknown | not_applicable.

Definition value (x : t) : string :=
  match x with
  | known => "known"
  | unknown => "unknown"
  | not_applicable => "not_applicable"
  end.

#[global] Instance eq_dec : EqDecision t.
Proof. solve_decision. Defined.

#[global] Instance str_enum : StrEnum t.
Proof. refine (Build_StrEnum t _ value [known; unknown; not_applicable] _ _); solve_str_enum_field. Defined.

End PricingStatus.

(** [ModelProfileSpec.usage_reporting] *)
Module UsageReporting.

Inductive t : Set := exact | partial | none.

Definition value (x : t) : string :=
  match x with
  | exact => "exact"
  | partial => "partial"
  | none => "none"
  end.

#[global] Instance eq_dec : EqDecision t.
Proof. solve_decision. Defined.

#[global] Instance str_enum : StrEnum t.
Proof. refine (Build_StrEnum t _ value [exact; partial; none] _ _); solve_str_enum_field. Defined.

End UsageReporting.

(** [Usage.provenance] *)
Module UsageProvenance.

Inductive t : Set := exact | estimated | unknown.

Definition value (x : t) : string :=
  match x with
  | exact => "exact"
  | estimated => "estimated"
  | unknown => "unknown"
  end.

#[global] Instance eq_dec : EqDecision t.
Proof. solve_decision. Defined.

#[global] Instance str_enum : StrEnum t.
Proof. refine (Build_StrEnum t _ value [exact; estimated; unknown] _ _); solve_str_enum_field. Defined.

End UsageProvenance.

(** [Cost.status] *)
Module CostStatus.

Inductive t : Set := exact | estimated | unknown | not_applicable.

Definition value (x : t) : string :=
  match x with
  | exact => "exact"
  | estimated => "estimated"
  | unknown => "unknown"
  | not_applicable => "not_applicable"
  end.

#[global] Instance eq_dec : EqDecision t.
Proof. solve_decision. Defined.

#[global] Instance str_enum : StrEnum t.
Proof. refine (Build_StrEnum t _ value [exact; estimated; unknown; not_applicable] _ _); solve_str_enum_field. Defined.

End CostStatus.

(** [RegistryRecord.secret_status] *)
Module SecretStatus.

Inductive t : Set := configured | missing | not_required.

Definition value (x : t) : string :=
  match x with
  | configured => "configured"
  | missing => "missing"
  | not_required => "not_required"
  end.

#[global] Instance eq_dec : EqDecision t.
Proof. solve_decision. Defined.

#[global] Instance str_enum : StrEnum t.
Proof. refine (Build_StrEnum t _ value [configured; missing; not_required] _ _); solve_str_enum_field. Defined.

End SecretStatus.

(** [RegistryRecord.circuit_state] *)
Module CircuitState.

Inductive t : Set := closed | open | half_open.

Definition value (x : t) : string :=
  match x with
  | closed => "closed"
  | open => "open"
  | half_open => "half_open"
  end.

#[global] Instance eq_dec : EqDecision t.
Proof. solve_decision. Defined.

#[global] Instance str_enum : StrEnum t.
Proof. refine (Build_StrEnum t _ value [closed; open; half_open] _ _); solve_str_enum_field. Defined.

End CircuitState.


(** [Capability]: [^[a-z][a-z0-9_.-]{0,63}$] *)
Definition Capability_valid : string → bool := dotted_pattern 63.
(** [PhysicalResourceId]: [^[A-Za-z0-9][A-Za-z0-9_-]{0,79}$] *)
Definition PhysicalResourceId_valid : string → bool :=
  head_tail is_alnum (λ c, is_alnum c || is_oneof [95%nat; 45%nat] c) 0 79.

(** [Field(min_length=lo, max_length=hi)] of a tuple *)
Definition size_between {A} (lo hi : nat) (l : list A) : bool :=
  Nat.leb lo (length l) && Nat.leb (length l) hi.

Module AgentRoleSpec.
Record t := {
  responsibility : RoleResponsibility.t;
  purpose : string;
  instructions : string;
}.
#[global] Instance eq_dec : EqDecision t.
Proof. solve_decision. Defined.
Definition valid (s : t) : bool :=
  Capability_valid (purpose s) && len_between 1 4000 (instructions s).
End AgentRoleSpec.

Module TeamMemberSpec.
Record t := {
  key : string;
  role_revision_id : uuid;
  model_route_revision_id : uuid;
  worker_pool_revision_ids : list uuid;
  required_capabilities : list string;
  allowed_tools : list string;
  permission_policy_revision_id : uuid;
  may_review : bool;
  may_execute : bool;
}.
#[global] Instance eq_dec : EqDecision t.
Proof. solve_decision. Defined.
Definition independent_review (s : t) : bool := negb (may_review s && may_execute s).
Definition valid (s : t) : bool :=
  Capability_valid (key s) && size_between 1 16 (worker_pool_revision_ids s)
  && forallb Capability_valid (required_capabilities s)
  && size_between 0 32 (required_capabilities s)
  && forallb Capability_valid (allowed_tools s) && size_between 1 64 (allowed_tools s)
  && independent_review s.
End TeamMemberSpec.

Module TeamBudgetPolicy.
Record t := {
  max_active_assignments : Z;
  max_execution_seconds : Z;
  max_inference_calls : Z;
  reserve_management_slots : Z;
  reserve_review_slots : Z;
}.
#[global] Instance eq_dec : EqDecision t.
Proof. solve_decision. Defined.
Definition valid (s : t) : bool :=
  z_between 1 128 (max_active_assignments s) && z_between 1 31536000 (max_execution_seconds s)
  && z_between 0 1000000 (max_inference_calls s)
  && z_between 0 32 (reserve_management_slots s) && z_between 0 32 (reserve_review_slots s).
End TeamBudgetPolicy.

Module TeamTemplateSpec.
Record t := {
  mode : TeamMode.t;
  manager_role_revision_id : uuid;
  manager_profile_revision_id : uuid;
  developer_role_revision_id : uuid;
  developer_worker_revision_id : uuid;
  reviewer_role_revision_id : uuid;
  reviewer_profile_revision_id : uuid;
  workflow_version_id : uuid;
  members : list TeamMemberSpec.t;
  budgets : TeamBudgetPolicy.t;
  escalation_policy_revision_id : option uuid;
}.
#[global] Instance eq_dec : EqDecision t.
Proof. solve_decision. Defined.
Definition member_roles (s : t) : bool :=
  match members s with
  | [] => true
  | _ :: _ =>
      all_distinct (TeamMemberSpec.key <$> members s)
      && existsb TeamMemberSpec.may_review (members s)
      && existsb TeamMemberSpec.may_execute (members s)
  end.
Definition valid (s : t) : bool :=
  forallb TeamMemberSpec.valid (members s) && size_between 0 32 (members s)
  && TeamBudgetPolicy.valid (budgets s) && member_roles s.
End TeamTemplateSpec.

Module WorkerPoolSpec.
Record t := {
  worker_revision_ids : list uuid;
  permitted_project_ids : list uuid;
  required_capabilities : list string;
  health_freshness_seconds : Z;
}.
#[global] Instance eq_dec : EqDecision t.
Proof. solve_decision. Defined.
Definition unique_workers (s : t) : bool := all_distinct (worker_revision_ids s).
Definition valid (s : t) : bool :=
  size_between 1 128 (worker_revision_ids s) && size_between 0 256 (permitted_project_ids s)
  && forallb Capability_valid (required_capabilities s)
  && size_between 0 32 (required_capabilities s)
  && z_between 5 3600 (health_freshness_seconds s) && unique_workers s.
End WorkerPoolSpec.

Module TimeoutPolicy.
Record t := { connect_seconds : Z; run_seconds : Z; heartbeat_seconds : Z }.
#[global] Instance eq_dec : EqDecision t.
Proof. solve_decision. Defined.
Definition valid (s : t) : bool :=
  z_between 1 120 (connect_seconds s) && z_between 1 86400 (run_seconds s)
  && z_between 1 300 (heartbeat_seconds s).
End TimeoutPolicy.

Module ModelBinding.
Record t := { mode : BindingMode.t; allowed_profile_revision_ids : list uuid }.
#[global] Instance eq_dec : EqDecision t.
Proof. solve_decision. Defined.
Definition compatible (s : t) : bool :=
  negb (bool_decide (mode s = BindingMode.worker_managed)
        && negb (Nat.eqb (length (allowed_profile_revision_ids s)) 1))
  && negb (bool_decide (mode s = BindingMode.none)
           && negb (bool_decide (allowed_profile_revision_ids s = []))).
Definition valid (s : t) : bool :=
  size_between 0 100 (allowed_profile_revision_ids s) && compatible s.
End ModelBinding.

Module WorkerSpec.
Record t := {
  adapter_kind : AdapterKind.t;
  execution_host_label : string;
  capabilities : list string;
  max_concurrency : Z;
  labels : list (string * string);
  timeouts : TimeoutPolicy.t;
  model_binding : ModelBinding.t;
  deployment_configured : bool;
  physical_resource_id : option string;
  permitted_project_ids : list uuid;
  execution_profile_revision_ids : list uuid;
  observed_build_digest : option string;
  observed_wrapper_version : option string;
}.
#[global] Instance eq_dec : EqDecision t.
Proof. solve_decision. Defined.
Definition adapter_binding (s : t) : bool :=
  negb (bool_decide (adapter_kind s = AdapterKind.openhands_ssh_v1)
        && (negb (bool_decide (ModelBinding.mode (model_binding s) = BindingMode.worker_managed))
            || negb (Z.eqb (max_concurrency s) 1)))
  && all_distinct (capabilities s).
Definition valid (s : t) : bool :=
  len_between 1 120 (execution_host_label s)
  && forallb Capability_valid (capabilities s) && size_between 0 64 (capabilities s)
  && z_between 1 128 (max_concurrency s)
  && forallb (λ kv, Capability_valid kv.1) (labels s) && size_between 0 32 (labels s)
  && TimeoutPolicy.valid (timeouts s) && ModelBinding.valid (model_binding s)
  && opt_all PhysicalResourceId_valid (physical_resource_id s)
  && size_between 0 256 (permitted_project_ids s)
  && size_between 0 32 (execution_profile_revision_ids s)
  && opt_all (hex_pattern 64) (observed_build_digest s)
  && opt_all (len_between 0 80) (observed_wrapper_version s)
  && adapter_binding s.
End WorkerSpec.

Module EgressPolicy.
Record t := { allowed_data : list DataClassification.t; remote_allowed : bool; paid : bool }.
#[global] Instance eq_dec : EqDecision t.
Proof. solve_decision. Defined.
End EgressPolicy.

Module CircuitPolicy.
Record t := { failure_threshold : Z; cooldown_seconds : Z; failure_window_seconds : Z }.
#[global] Instance eq_dec : EqDecision t.
Proof. solve_decision. Defined.
Definition valid (s : t) : bool :=
  z_between 1 100 (failure_threshold s) && z_between 1 3600 (cooldown_seconds s)
  && z_between 1 3600 (failure_window_seconds s).
End CircuitPolicy.

(** [safe_url] parses the endpoint with [urllib]; it is not modelled, so
[base_url] here is its result. *)
Module ProviderSpec.
Record t := {
  provider_kind : ProviderKind.t;
  base_url : option string;
  locality : Locality.t;
  egress : EgressPolicy.t;
  timeouts : TimeoutPolicy.t;
  retry_policy_revision_id : option uuid;
  circuit : CircuitPolicy.t;
}.
#[global] Instance eq_dec : EqDecision t.
Proof. solve_decision. Defined.
(** [bool(self.base_url)] *)
Definition has_url (s : t) : bool :=
  match base_url s with Some u => negb (bool_decide (u = "")) | None => false end.
Definition compatible (s : t) : bool :=
  negb (bool_decide (provider_kind s = ProviderKind.demo)
        && (has_url s || negb (bool_decide (locality s = Locality.local))))
  && negb (negb (bool_decide (provider_kind s = ProviderKind.demo)) && negb (has_url s))
  && negb (bool_decide (locality s = Locality.remote) && has_url s
           && negb (opt_all (startswith "https://") (base_url s))).
End ProviderSpec.

Module Pricing.
Record t := {
  status : PricingStatus.t;
  currency : string;
  input_per_million : option decimal;
  cached_per_million : option decimal;
  output_per_million : option decimal;
  source : string;
  effective_at : option Z;
}.
#[global] Instance eq_dec : EqDecision t.
Proof. solve_decision. Defined.
Definition complete (s : t) : bool :=
  negb (bool_decide (status s = PricingStatus.known)
        && (bool_decide (input_per_million s = None) || bool_decide (output_per_million s = None)))
  && negb (negb (bool_decide (status s = PricingStatus.known))
           && negb (bool_decide (input_per_million s = None)
                    && bool_decide (output_per_million s = None)
                    && bool_decide (cached_per_million s = None))).
Definition valid (s : t) : bool :=
  Nat.eqb (String.length (currency s)) 3 && str_forallb is_upper (currency s)
  && opt_all dec_price_bounds (input_per_million s)
  && opt_all dec_price_bounds (cached_per_million s)
  && opt_all dec_price_bounds (output_per_million s)
  && len_between 0 200 (source s) && complete s.
End Pricing.

Module ModelProfileSpec.
Record t := {
  provider_revision_id : uuid;
  model_identifier : string;
  purposes : list string;
  capabilities : list string;
  context_limit : Z;
  output_limit : Z;
  structured_json : bool;
  tool_calls : bool;
  streaming : bool;
  locality : Locality.t;
  parameters : jobj;
  usage_reporting : UsageReporting.t;
  pricing : Pricing.t;
}.

(** [isinstance(value, (int, float)) and not isinstance(value, bool) and
0 <= value <= ceiling] *)
Definition sampling_number (ceiling : Z) (value : json) : bool :=
  match value with
  | JInt z => z_between 0 ceiling z
  | JFloat f => float_leb (FFin 0) f && float_leb f (FFin (inject_Z ceiling))
  | _ => false
  end.

(** One iteration of the loop over [self.parameters]. *)
Definition parameter_ok (kv : string * json) : bool :=
  let '(key, value) := kv in
  if bool_decide (key ∈ ["temperature"; "top_p"]) then
    sampling_number (if bool_decide (key = "temperature") then 2 else 1) value
  else if bool_decide (key = "reasoning_effort") then
    match value with
    | JStr s => bool_decide (s ∈ ["none"; "minimal"; "low"; "medium"; "high"; "xhigh"])
    | _ => false
    end
  else if bool_decide (key ∈ ["seed"; "keep_alive"]) then
    match value with
    | JInt z => z_between 0 (if bool_decide (key = "seed") then 2 ^ 31 - 1 else 3600) z
    | _ => false
    end
  else true.

Definition allowed_parameters : list string :=
  ["temperature"; "top_p"; "reasoning_effort"; "seed"; "keep_alive"].

Definition limits (s : t) : bool :=
  Z.leb (output_limit s) (context_limit s)
  && forallb (λ cs : string * bool, negb (bool_decide (cs.1 ∈ capabilities s) && negb cs.2))
       [("structured_json", structured_json s); ("streaming", streaming s);
        ("tool_calls", tool_calls s)]
  && forallb (λ kv : string * json, bool_decide (kv.1 ∈ allowed_parameters)) (parameters s)
  && forallb parameter_ok (parameters s).

Definition valid (s : t) : bool :=
  len_between 1 160 (model_identifier s)
  && forallb Capability_valid (purposes s) && size_between 1 32 (purposes s)
  && forallb Capability_valid (capabilities s) && size_between 0 64 (capabilities s)
  && z_between 1 10000000 (context_limit s) && z_between 1 1000000 (output_limit s)
  && size_between 0 32 (parameters s) && Pricing.valid (pricing s) && limits s.
End ModelProfileSpec.

Module RouteCandidate.
Record t := { profile_revision_id : uuid; priority : Z }.
#[global] Instance eq_dec : EqDecision t.
Proof. solve_decision. Defined.
End RouteCandidate.

Module SpendPolicy.
Record t := {
  allow_paid : bool;
  max_input_tokens : Z;
  max_output_tokens : Z;
  max_call_cost : option decimal;
  max_run_cost : option decimal;
  on_exceeded : Decision3.t;
}.
#[global] Instance eq_dec : EqDecision t.
Proof. solve_decision. Defined.
(** [on_exceeded] admits only [deny] and [require_approval]. *)
Definition valid (s : t) : bool :=
  z_between 1 10000000 (max_input_tokens s) && z_between 1 1000000 (max_output_tokens s)
  && opt_all dec_price_bounds (max_call_cost s) && opt_all dec_price_bounds (max_run_cost s)
  && negb (bool_decide (on_exceeded s = Decision3.allow)).
End SpendPolicy.

Module RoutePolicySpec.
Record t := {
  candidates : list RouteCandidate.t;
  required_capabilities : list string;
  purposes : list string;
  allowed_data : list DataClassification.t;
  allow_remote : bool;
  allow_unknown_health : bool;
  failover_classes : list FailureClass.t;
  spend : SpendPolicy.t;
}.
#[global] Instance eq_dec : EqDecision t.
Proof. solve_decision. Defined.
Definition unique_candidates (s : t) : bool :=
  all_distinct (RouteCandidate.profile_revision_id <$> candidates s).
Definition valid (s : t) : bool :=
  size_between 1 32 (candidates s)
  && forallb (λ c, z_between 0 10000 (RouteCandidate.priority c)) (candidates s)
  && forallb Capability_valid (required_capabilities s)
  && forallb Capability_valid (purposes s) && size_between 1 32 (purposes s)
  && SpendPolicy.valid (spend s) && unique_candidates s.
End RoutePolicySpec.

Module PermissionPolicySpec.
Record t := {
  allowed_capabilities : list string;
  denied_capabilities : list string;
  approval_required_actions : list string;
  filesystem_scopes : list string;
  shell : Decision3.t;
  git : Decision3.t;
  docker : Decision3.t;
  browser : Decision3.t;
  network : Decision3.t;
  remote_provider : Decision3.t;
  sensitive_action : Decision3.t;
  destructive_action : Decision3.t;
  unknown_action : Decision3.t;
}.
#[global] Instance eq_dec : EqDecision t.
Proof. solve_decision. Defined.
(** The last three admit only [deny] and [require_approval]. *)
Definition valid (s : t) : bool :=
  forallb Capability_valid (allowed_capabilities s)
  && forallb Capability_valid (denied_capabilities s)
  && forallb Capability_valid (approval_required_actions s)
  && forallb Capability_valid (filesystem_scopes s)
  && negb (bool_decide (sensitive_action s = Decision3.allow))
  && negb (bool_decide (destructive_action s = Decision3.allow))
  && negb (bool_decide (unknown_action s = Decision3.allow)).
End PermissionPolicySpec.

(** [RegistrySpec], the union discriminated by [kind]. *)
Inductive RegistrySpec : Type :=
  | SAgentRole (s : AgentRoleSpec.t)
  | STeamTemplate (s : TeamTemplateSpec.t)
  | SWorker (s : WorkerSpec.t)
  | SProvider (s : ProviderSpec.t)
  | SModelProfile (s : ModelProfileSpec.t)
  | SRoutePolicy (s : RoutePolicySpec.t)
  | SRetryPolicy (s : RetryPolicySpec)
  | SPermissionPolicy (s : PermissionPolicySpec.t)
  | SExecutionProfile (s : ExecutionProfileSpec.t)
  | SWorkerPool (s : WorkerPoolSpec.t).

Definition spec_kind (s : RegistrySpec) : RegistryKind.t :=
  match s with
  | SAgentRole _ => RegistryKind.agent_role
  | STeamTemplate _ => RegistryKind.team_template
  | SWorker _ => RegistryKind.worker
  | SProvider _ => RegistryKind.provider_connection
  | SModelProfile _ => RegistryKind.model_profile
  | SRoutePolicy _ => RegistryKind.route_policy
  | SRetryPolicy _ => RegistryKind.retry_policy
  | SPermissionPolicy _ => RegistryKind.permission_policy
  | SExecutionProfile _ => RegistryKind.execution_profile
  | SWorkerPool _ => RegistryKind.worker_pool
  end.

(** [RegistryRecord].  The fields that no code modelled here reads (version,
timestamps, author, secret label and worker facts) are in [others]. *)
Module RegistryRecord.
Record t := {
  id : uuid;
  revision_id : uuid;
  revision : Z;
  key : string;
  display_name : string;
  description : string;
  enabled : bool;
  archived : bool;
  spec : RegistrySpec;
  content_hash : string;
  secret_status : SecretStatus.t;
  health : HealthStatus.t;
  circuit_state : CircuitState.t;
  others : jobj;
}.
End RegistryRecord.

Module RouteRequirements.
Record t := {
  purpose : string;
  capabilities : list string;
  input_tokens : Z;
  output_tokens : Z;
  data_classification : DataClassification.t;
  run_spend : option decimal;
}.
Definition valid (s : t) : bool :=
  Capability_valid (purpose s) && forallb Capability_valid (capabilities s)
  && z_between 0 10000000 (input_tokens s) && z_between 1 1000000 (output_tokens s)
  && opt_all (dec_leb (dec_of_Z 0)) (run_spend s).
End RouteRequirements.

Module RoutePreviewRequest.
Record t := {
  route_revision_id : uuid;
  requirements : RouteRequirements.t;
  failed_profile_revision_ids : list uuid;
  failure_class : option FailureClass.t;
}.
End RoutePreviewRequest.

Module CandidateDecision.
Record t := { profile_revision_id : uuid; eligible : bool; reasons : list string }.
End CandidateDecision.

Module RouteResolution.
Record t := {
  route_revision_id : uuid;
  selected_profile_revision_id : option uuid;
  selected_provider_revision_id : option uuid;
  decision : Decision3.t;
  reasons : list string;
  candidates : list CandidateDecision.t;
  snapshot_hash : string;
  demo : bool;
}.
End RouteResolution.

Module Usage.
Record t := {
  input_tokens : option Z;
  cached_tokens : option Z;
  output_tokens : option Z;
  total_tokens : option Z;
  provenance : UsageProvenance.t;
}.
Definition consistent_usage (s : t) : bool :=
  match cached_tokens s, input_tokens s with
  | Some c, Some i => Z.leb c i
  | _, _ => true
  end
  && match total_tokens s, input_tokens s, output_tokens s with
     | Some total, Some i, Some o => Z.eqb total (i + o)
     | _, _, _ => true
     end.
Definition valid (s : t) : bool :=
  opt_all (Z.leb 0) (input_tokens s) && opt_all (Z.leb 0) (cached_tokens s)
  && opt_all (Z.leb 0) (output_tokens s) && opt_all (Z.leb 0) (total_tokens s)
  && consistent_usage s.
End Usage.

Module Cost.
Record t := { amount : option decimal; currency : string; status : CostStatus.t }.
#[global] Instance eq_dec : EqDecision t.
Proof. solve_decision. Defined.
End Cost.
