(* ===== verification/WorkflowSpec.v ===== *)
(** * Workflow specification contracts

[packages/contracts/src/jarvis_contracts/workflow.py], [workflow_nodes.py] and
the snapshot records of [workflow_api.py].  A Module per class: [t] is the class
and [valid] is true when its field bounds and validators accept it.

A node's [config] is JSON in the wire contract and is checked against the
config model of the node's type; [NodeConfig.t] is the union of those models.  A
specification is therefore polymorphic in its node type: [RawNode.t] carries
the JSON object, [WorkflowNode.t] the typed configuration that
[normalize_workflow] (file Normalize) puts in its place, and [NodeLike] is what
both offer. *)
From S2P Require Import Prelude Enums PyJson PyDecimal Failures Verification Registry.
Local Open Scope Z_scope.
Local Open Scope stdpp_scope.

Definition SPEC_VERSION : string := "1.1".
Definition COMPILER_VERSION : string := "1.0.0".
Definition MAX_WORKFLOW_BYTES : Z := 1048576.
Definition MAX_JSON_DEPTH : Z := 24.
Definition MAX_NODES : Z := 500.
Definition MAX_EDGES : Z := 2000.
Definition MAX_GRAPH_DEPTH : Z := 500.
Definition MAX_PREDICATE_DEPTH : Z := 8.
Definition MAX_PREDICATE_COUNT : Z := 64.
Definition MAX_ITERATIONS : Z := 10000.
Definition MAX_FANOUT : Z := 64.

(** [WorkflowNodeType] *)
Module WorkflowNodeType.

Inductive t : Set := organizer | architect | task_dispatch | worker | verify | reviewer | integrate | router | fanout | join | approval | github_publish | finalize.

Definition value (x : t) : string :=
  match x with
  | organizer => "organizer"
  | architect => "architect"
  | task_dispatch => "task_dispatch"
  | worker => "worker"
  | verify => "verify"
  | reviewer => "reviewer"
  | integrate => "integrate"
  | router => "router"
  | fanout => "fanout"
  | join => "join"
  | approval => "approval"
  | github_publish => "github_publish"
  | finalize => "finalize"
  end.

#[global] Instance eq_dec : EqDecision t.
Proof. solve_decision. Defined.

#[global] Instance str_enum : StrEnum t.
Proof. refine (Build_StrEnum t _ value [organizer; architect; task_dispatch; worker; verify; reviewer; integrate; router; fanout; join; approval; github_publish; finalize] _ _); solve_str_enum_field. Defined.

End WorkflowNodeType.

(** [WorkflowEdgeKind] *)
Module WorkflowEdgeKind.

Inductive t : Set := always | on_result | retry | iterate | on_failure.

Definition value (x : t) : string :=
  match x with
  | always => "always"
  | on_result => "on_result"
  | retry => "retry"
  | iterate => "iterate"
  | on_failure => "on_failure"
  end.

#[global] Instance eq_dec : EqDecision t.
Proof. solve_decision. Defined.

#[global] Instance str_enum : StrEnum t.
Proof. refine (Build_StrEnum t _ value [always; on_result; retry; iterate; on_failure] _ _); solve_str_enum_field. Defined.

End WorkflowEdgeKind.

(** [PredicateOperator] *)
Module PredicateOperator.

Inductive t : Set := eq | neq | in_ | exists_ | lt | lte | gt | gte | and | or | not.

Definition value (x : t) : string :=
  match x with
  | eq => "eq"
  | neq => "neq"
  | in_ => "in"
  | exists_ => "exists"
  | lt => "lt"
  | lte => "lte"
  | gt => "gt"
  | gte => "gte"
  | and => "and"
  | or => "or"
  | not => "not"
  end.

#[global] Instance eq_dec : EqDecision t.
Proof. solve_decision. Defined.

#[global] Instance str_enum : StrEnum t.
Proof. refine (Build_StrEnum t _ value [eq; neq; in_; exists_; lt; lte; gt; gte; and; or; not] _ _); solve_str_enum_field. Defined.

End PredicateOperator.

(** The [action_type] literal of [ApprovalPolicy] and [ApprovalConfig]. *)
Module ActionType.

Inductive t : Set := github_push_and_pr | git_integrate | worker_execute.

Definition value (x : t) : string :=
  match x with
  | github_push_and_pr => "github.push_and_pr"
  | git_integrate => "git.integrate"
  | worker_execute => "worker.execute"
  end.

#[global] Instance eq_dec : EqDecision t.
Proof. solve_decision. Defined.

#[global] Instance str_enum : StrEnum t.
Proof. refine (Build_StrEnum t _ value [github_push_and_pr; git_integrate; worker_execute] _ _); solve_str_enum_field. Defined.

End ActionType.

(** The [outcome] literal of [FinalizeConfig]. *)
Module Outcome.

Inductive t : Set := derive | failed | blocked | cancelled.

Definition value (x : t) : string :=
  match x with
  | derive => "derive"
  | failed => "failed"
  | blocked => "blocked"
  | cancelled => "cancelled"
  end.

#[global] Instance eq_dec : EqDecision t.
Proof. solve_decision. Defined.

#[global] Instance str_enum : StrEnum t.
Proof. refine (Build_StrEnum t _ value [derive; failed; blocked; cancelled] _ _); solve_str_enum_field. Defined.

End Outcome.

(** [ReducerKind] *)
Module ReducerKind.

Inductive t : Set := merge_by_id | set_union | max_map.

Definition value (x : t) : string :=
  match x with
  | merge_by_id => "merge_by_id"
  | set_union => "set_union"
  | max_map => "max_map"
  end.

#[global] Instance eq_dec : EqDecision t.
Proof. solve_decision. Defined.

#[global] Instance str_enum : StrEnum t.
Proof. refine (Build_StrEnum t _ value [merge_by_id; set_union; max_map] _ _); solve_str_enum_field. Defined.

End ReducerKind.


(** [Predicate]: the bounded routing predicate AST.  An absent [value] is
[JNull]: pydantic gives both the same default. *)
Module Predicate.
Inductive t : Type := Mk {
  op : PredicateOperator.t;
  path : option string;
  value : json;
  args : list t;
}.

(** [op in {AND, OR, NOT}] *)
Definition logical (o : PredicateOperator.t) : bool :=
  bool_decide (o ∈ [PredicateOperator.and; PredicateOperator.or; PredicateOperator.not]).

(** [validate_shape] *)
Definition validate_shape (p : t) : bool :=
  let n := length (args p) in
  (if logical (op p) then
     let required := if bool_decide (op p = PredicateOperator.not) then 1%nat else 2%nat in
     Nat.leb required n && negb (bool_decide (is_Some (path p)))
     && negb (bool_decide (op p = PredicateOperator.not) && negb (Nat.eqb n 1))
   else bool_decide (is_Some (path p)) && Nat.eqb n 0)
  && negb (bool_decide (op p = PredicateOperator.exists_)
           && match value p with JNull => false | _ => true end).

(** A predicate is valid when it and all its arguments are. *)
Fixpoint valid (p : t) : bool :=
  opt_all path_pattern (path p) && Nat.leb (length (args p)) 64
  && validate_shape p && forallb valid (args p).

Section ind.
Variable P : t → Prop.
Hypothesis HP : ∀ o pa v l, Forall P l → P (Mk o pa v l).
Fixpoint ind' (p : t) : P p :=
  match p with
  | Mk o pa v l => HP o pa v l
      ((fix go (l : list t) : Forall P l :=
          match l with
          | [] => Forall_nil_2 P
          | x :: l' => Forall_cons_2 P x l' (ind' x) (go l')
          end) l)
  end.
End ind.
End Predicate.

Module ApprovalPolicy.
Record t := {
  required_grant_from : option string;
  action_type : option ActionType.t;
  expires_in_seconds : option Z;
}.
#[global] Instance eq_dec : EqDecision t.
Proof. solve_decision. Defined.
Definition valid (p : t) : bool :=
  opt_all (λ s, Nat.leb (py_len s) 80) (required_grant_from p)
  && opt_all (Z.ltb 0) (expires_in_seconds p).
End ApprovalPolicy.

(** [VerificationPolicy]; its [source] has the single value ["task"]. *)
Module VerificationPolicy.
Record t := {
  required : bool;
  execution_profile_revision_ids : list uuid;
  required_acceptance_checks : list RequiredAcceptanceCheck.t;
}.
#[global] Instance eq_dec : EqDecision t.
Proof. solve_decision. Defined.

Definition immutable_checks_use_selected_profiles (p : t) : bool :=
  all_distinct (execution_profile_revision_ids p)
  && forallb (λ c, bool_decide (RequiredAcceptanceCheck.profile_revision_id c
                                ∈ execution_profile_revision_ids p))
       (required_acceptance_checks p)
  && all_distinct (RequiredAcceptanceCheck.check_id <$> required_acceptance_checks p).

Definition valid (p : t) : bool :=
  size_between 0 3 (execution_profile_revision_ids p)
  && size_between 0 32 (required_acceptance_checks p)
  && forallb RequiredAcceptanceCheck.valid (required_acceptance_checks p)
  && immutable_checks_use_selected_profiles p.
End VerificationPolicy.

Module WorkerSelector.
Record t := { revision_id : uuid; requires : list string }.
#[global] Instance eq_dec : EqDecision t.
Proof. solve_decision. Defined.
Definition valid (p : t) : bool :=
  forallb Capability_valid (requires p) && size_between 0 64 (requires p).
End WorkerSelector.

(** [NodePolicy].  [accepts_set] is
["accepts_runtime_instructions" in self.model_fields_set]: the one field whose
default is not [None], so the one for which [exclude_unset] differs from
[exclude_none]. *)
Module NodePolicy.
Record t := {
  worker_selector : option WorkerSelector.t;
  model_route_ref : option uuid;
  retry_policy_ref : option uuid;
  permission_policy_ref : option uuid;
  verification : option VerificationPolicy.t;
  approval : option ApprovalPolicy.t;
  timeout_seconds : option Z;
  max_concurrency : option Z;
  accepts_runtime_instructions : bool;
  accepts_set : bool;
}.
#[global] Instance eq_dec : EqDecision t.
Proof. solve_decision. Defined.

(** [NodePolicy()] *)
Definition default : t :=
  Build_t None None None None None None None None false false.

Definition valid (p : t) : bool :=
  opt_all WorkerSelector.valid (worker_selector p)
  && opt_all VerificationPolicy.valid (verification p)
  && opt_all ApprovalPolicy.valid (approval p)
  && opt_all (z_between 1 86400) (timeout_seconds p)
  && opt_all (z_between 1 1000) (max_concurrency p)
  && (accepts_set p || negb (accepts_runtime_instructions p)).
End NodePolicy.

(** ** Node configurations

The config models of [workflow_nodes.py].  A field whose type is a literal with
one value carries no information and is left out. *)

Module NodeConfig.
Inductive t : Type :=
  | OrganizerConfig (summary_limit : Z)
  | ArchitectConfig (max_tasks : Z)
  | DispatchConfig
  | WorkerConfig
  | VerifyConfig
  | ReviewerConfig
  | IntegrateConfig
  | RouterConfig
  | FanoutConfig (children : list string) (join_id : string) (max_fanout : Z)
  | JoinConfig (fanout_id : string)
  | ApprovalConfig (action_type : ActionType.t) (expires_in_seconds : option Z)
  | PublishConfig (wait_for_ci : bool)
  | FinalizeConfig (outcome : Outcome.t).
#[global] Instance eq_dec : EqDecision t.
Proof. solve_decision. Defined.

(** The node type whose [NODE_DEFINITIONS] entry has this config model. *)
Definition config_type (c : t) : WorkflowNodeType.t :=
  match c with
  | OrganizerConfig _ => WorkflowNodeType.organizer
  | ArchitectConfig _ => WorkflowNodeType.architect
  | DispatchConfig => WorkflowNodeType.task_dispatch
  | WorkerConfig => WorkflowNodeType.worker
  | VerifyConfig => WorkflowNodeType.verify
  | ReviewerConfig => WorkflowNodeType.reviewer
  | IntegrateConfig => WorkflowNodeType.integrate
  | RouterConfig => WorkflowNodeType.router
  | FanoutConfig _ _ _ => WorkflowNodeType.fanout
  | JoinConfig _ => WorkflowNodeType.join
  | ApprovalConfig _ _ => WorkflowNodeType.approval
  | PublishConfig _ => WorkflowNodeType.github_publish
  | FinalizeConfig _ => WorkflowNodeType.finalize
  end.

Definition valid (c : t) : bool :=
  match c with
  | OrganizerConfig summary_limit => z_between 100 8000 summary_limit
  | ArchitectConfig max_tasks => z_between 1 MAX_ITERATIONS max_tasks
  | FanoutConfig children join_id max_fanout =>
      size_between 0 64 children && len_between 1 80 join_id
      && z_between 1 MAX_FANOUT max_fanout
  | JoinConfig fanout_id => len_between 1 80 fanout_id
  | ApprovalConfig _ expires => opt_all (z_between 60 604800) expires
  | _ => true
  end.

(** [NODE_DEFINITIONS[type].config_model()] *)
Definition default_config (ty : WorkflowNodeType.t) : t :=
  match ty with
  | WorkflowNodeType.organizer => OrganizerConfig 2000
  | WorkflowNodeType.architect => ArchitectConfig 100
  | WorkflowNodeType.task_dispatch => DispatchConfig
  | WorkflowNodeType.worker => WorkerConfig
  | WorkflowNodeType.verify => VerifyConfig
  | WorkflowNodeType.reviewer => ReviewerConfig
  | WorkflowNodeType.integrate => IntegrateConfig
  | WorkflowNodeType.router => RouterConfig
  | WorkflowNodeType.fanout => FanoutConfig [] "join" 8
  | WorkflowNodeType.join => JoinConfig "fanout"
  | WorkflowNodeType.approval => ApprovalConfig ActionType.github_push_and_pr None
  | WorkflowNodeType.github_publish => PublishConfig true
  | WorkflowNodeType.finalize => FinalizeConfig Outcome.derive
  end.

Definition opt_json {A} (f : A → json) (o : option A) : json :=
  match o with Some x => f x | None => JNull end.

(** [config.model_dump(mode="json")] *)
Definition dump (c : t) : jobj :=
  match c with
  | OrganizerConfig summary_limit => [("summary_limit", JInt summary_limit)]
  | ArchitectConfig max_tasks =>
      [("output_schema", JStr "task_plan.v1"); ("max_tasks", JInt max_tasks)]
  | DispatchConfig =>
      [("parallelism", JInt 1); ("ready_order", JStr "dependency_then_task_key")]
  | WorkerConfig => [("task_source", JStr "current_task")]
  | VerifyConfig =>
      [("commands_source", JStr "task.verification"); ("stop_on_failure", JBool true)]
  | ReviewerConfig => [("requires_repository_snapshot", JBool true)]
  | IntegrateConfig =>
      [("repository_source", JStr "project"); ("run_combined_gates", JBool true)]
  | RouterConfig => []
  | FanoutConfig children join_id max_fanout =>
      [("children", JArr (JStr <$> children)); ("join_id", JStr join_id);
       ("max_fanout", JInt max_fanout); ("cancellation_strategy", JStr "wait_all")]
  | JoinConfig fanout_id => [("fanout_id", JStr fanout_id); ("require_all", JBool true)]
  | ApprovalConfig action expires =>
      [("action_type", JStr (ActionType.value action));
       ("expires_in_seconds", opt_json JInt expires)]
  | PublishConfig wait_for_ci =>
      [("repository_source", JStr "project"); ("wait_for_ci", JBool wait_for_ci)]
  | FinalizeConfig outcome => [("outcome", JStr (Outcome.value outcome))]
  end.

Lemma default_config_type ty : config_type (default_config ty) = ty.
Proof. by destruct ty. Qed.

Lemma default_config_valid ty : valid (default_config ty) = true.
Proof. by destruct ty. Qed.
End NodeConfig.

(** [NodeDefinition]; its [config_model] is [NodeConfig.default_config]'s. *)
Module NodeDefinition.
Record t := {
  capabilities : list string;
  inputs : list string;
  outputs : list string;
  external : bool;
}.
End NodeDefinition.

(** [NODE_DEFINITIONS] *)
Definition NODE_DEFINITIONS (ty : WorkflowNodeType.t) : NodeDefinition.t :=
  let mk := NodeDefinition.Build_t in
  match ty with
  | WorkflowNodeType.organizer => mk [] ["results"] ["results"] true
  | WorkflowNodeType.architect => mk [] ["results"] ["results"; "tasks"] true
  | WorkflowNodeType.task_dispatch => mk [] ["tasks"] ["results"; "tasks"] false
  | WorkflowNodeType.worker => mk ["code"; "git"] ["results"] ["results"] true
  | WorkflowNodeType.verify => mk ["tests"] ["results"] ["results"; "verification"] true
  | WorkflowNodeType.reviewer => mk [] ["results"] ["results"; "review"] true
  | WorkflowNodeType.integrate => mk [] ["results"] ["results"; "tasks"] true
  | WorkflowNodeType.router => mk [] ["results"] ["results"] false
  | WorkflowNodeType.fanout => mk [] ["results"] ["expected_children"] false
  | WorkflowNodeType.join => mk [] ["expected_children"; "child_results"] ["results"] false
  | WorkflowNodeType.approval => mk [] ["results"] ["results"; "approval"] true
  | WorkflowNodeType.github_publish => mk [] ["results"] ["results"] true
  | WorkflowNodeType.finalize => mk [] ["results"] ["results"; "final"] false
  end.

(** ** Nodes, edges, specifications *)

(** [WorkflowNode] as published: [config] is a JSON object. *)
Module RawNode.
Record t := {
  id : string;
  type : WorkflowNodeType.t;
  label : string;
  config : jobj;
  policy : NodePolicy.t;
}.
End RawNode.

(** [WorkflowNode] after normalization: [config] is its typed model. *)
Module WorkflowNode.
Record t := {
  id : string;
  label : string;
  config : NodeConfig.t;
  policy : NodePolicy.t;
}.
#[global] Instance eq_dec : EqDecision t.
Proof. solve_decision. Defined.
Definition type (n : t) : WorkflowNodeType.t := NodeConfig.config_type (config n).
End WorkflowNode.

(** What the two forms of a node share. *)
Class NodeLike (N : Type) := {
  node_id : N → string;
  node_type : N → WorkflowNodeType.t;
  node_label : N → string;
  node_policy : N → NodePolicy.t;
}.
#[export] Instance RawNode_like : NodeLike RawNode.t :=
  Build_NodeLike _ RawNode.id RawNode.type RawNode.label RawNode.policy.
#[export] Instance WorkflowNode_like : NodeLike WorkflowNode.t :=
  Build_NodeLike _ WorkflowNode.id WorkflowNode.type WorkflowNode.label WorkflowNode.policy.

(** Field bounds of [WorkflowNode]. *)
Definition node_valid {N} `{NodeLike N} (n : N) : bool :=
  slug_pattern 80 (node_id n) && len_between 1 160 (node_label n)
  && NodePolicy.valid (node_policy n).

Module WorkflowEdge.
Record t := {
  id : string;
  source : string;
  target : string;
  kind : WorkflowEdgeKind.t;
  when : option Predicate.t;
  priority : Z;
  fallback : bool;
  retry_class : option FailureClass.t;
  iteration_key : option string;
  progress_path : option string;
  max_iterations : option Z;
}.

(** [not s] for [s : str | None] *)
Definition blank (s : option string) : bool :=
  match s with None => true | Some s => bool_decide (s = EmptyString) end.

Definition validate_kind_fields (e : t) : bool :=
  negb (bool_decide (kind e = WorkflowEdgeKind.always) && bool_decide (is_Some (when e)))
  && negb (bool_decide (kind e = WorkflowEdgeKind.retry)
           && bool_decide (retry_class e = None))
  && negb (bool_decide (kind e = WorkflowEdgeKind.iterate)
           && (blank (iteration_key e) || blank (progress_path e)
               || bool_decide (max_iterations e = None))).

Definition valid (e : t) : bool :=
  slug_pattern 80 (id e) && len_between 1 80 (source e) && len_between 1 80 (target e)
  && opt_all Predicate.valid (when e) && opt_all path_pattern (progress_path e)
  && opt_all (z_between 1 10000) (max_iterations e) && validate_kind_fields e.

(** The key edges are sorted by. *)
Definition order_key (e : t) : string * (Z * string) := (source e, (priority e, id e)).
End WorkflowEdge.

(** [default_reducers] *)
Definition default_reducers : list (string * ReducerKind.t) :=
  [("results", ReducerKind.merge_by_id); ("child_results", ReducerKind.merge_by_id);
   ("expected_children", ReducerKind.set_union);
   ("completed_children", ReducerKind.set_union); ("counters", ReducerKind.max_map)].

Module WorkflowSpec.
Record t {N : Type} := {
  spec_version : string;
  reducers : list (string * ReducerKind.t);
  key : string;
  name : string;
  description : string;
  entrypoint : string;
  defaults : NodePolicy.t;
  nodes : list N;
  edges : list WorkflowEdge.t;
  result_path : string;
}.
Arguments t : clear implicits.

(** [validate_references] *)
Definition validate_references {N} `{NodeLike N} (s : t N) : bool :=
  let ids := node_id <$> nodes s in
  all_distinct ids
  && all_distinct (WorkflowEdge.id <$> edges s)
  && bool_decide (entrypoint s ∈ ids)
  && forallb (λ e, bool_decide (WorkflowEdge.source e ∈ ids)
                   && bool_decide (WorkflowEdge.target e ∈ ids)) (edges s).

Definition valid {N} `{NodeLike N} (s : t N) : bool :=
  bool_decide (spec_version s ∈ ["1.0"; "1.1"])
  && slug_pattern 100 (key s) && len_between 1 160 (name s)
  && Nat.leb (py_len (description s)) 2000
  && len_between 1 80 (entrypoint s)
  && NodePolicy.valid (defaults s)
  && size_between 1 500 (nodes s) && forallb node_valid (nodes s)
  && size_between 0 2000 (edges s) && forallb WorkflowEdge.valid (edges s)
  && path_pattern (result_path s)
  && validate_references s.

(** The facts [validate_references] leaves to the code that runs after it. *)
Record wf {N} `{NodeLike N} (s : t N) : Prop := {
  wf_nodes : NoDup (node_id <$> nodes s);
  wf_edges : NoDup (WorkflowEdge.id <$> edges s);
  wf_entry : entrypoint s ∈ node_id <$> nodes s;
  wf_source : ∀ e, e ∈ edges s → WorkflowEdge.source e ∈ node_id <$> nodes s;
  wf_target : ∀ e, e ∈ edges s → WorkflowEdge.target e ∈ node_id <$> nodes s;
}.

Lemma validate_references_spec {N} `{NodeLike N} (s : t N) :
  validate_references s = true ↔ wf s.
Proof.
  unfold validate_references, all_distinct.
  rewrite !andb_true_iff, !bool_decide_eq_true, forallb_forall.
  setoid_rewrite andb_true_iff. setoid_rewrite bool_decide_eq_true.
  setoid_rewrite <-list_elem_of_In.
  split; [intros (((?&?)&?)&He); split; try done; naive_solver|].
  intros []; split_and!; naive_solver.
Qed.

Lemma valid_wf {N} `{NodeLike N} (s : t N) : valid s = true → wf s.
Proof. unfold valid. rewrite !andb_true_iff. rewrite validate_references_spec. tauto. Qed.
End WorkflowSpec.

(** [{node.id: node for node in spec.nodes}.get(id)]: a later node with the same
ID would replace an earlier one; specs have unique IDs. *)
Definition find_node {N} `{NodeLike N} (s : WorkflowSpec.t N) (i : string) : option N :=
  find_key node_id i (WorkflowSpec.nodes s).

(** ** Validation records and snapshots *)

Module WorkflowIssue.
Record t := {
  code : string;
  message : string;
  issue_node : option string;
  issue_edge : option string;
  issue_path : option string;
}.
#[global] Instance eq_dec : EqDecision t.
Proof. solve_decision. Defined.
End WorkflowIssue.

Module WorkflowValidationReport.
Record t := {
  valid : bool;
  issues : list WorkflowIssue.t;
  content_hash : option string;
  snapshot_hash : option string;
}.
End WorkflowValidationReport.

Module WorkflowResolvedRevision.
Record t := {
  revision_id : uuid;
  configuration_id : uuid;
  key : string;
  revision : Z;
  display_name : string;
  description : string;
  enabled : bool;
  archived : bool;
  spec : RegistrySpec;
  content_hash : string;
}.
End WorkflowResolvedRevision.

Module WorkflowResolvedSnapshot.
Record t := {
  workflow_content_hash : string;
  compiler_version : string;
  revisions : list WorkflowResolvedRevision.t;
}.
End WorkflowResolvedSnapshot.

(** ** Content hashes

[ModelDump A] is pydantic's serializer [model_dump(mode="json", by_alias=True)]
of the contract model [A]. *)

Class ModelDump (A : Type) := model_dump : A → json.
#[export] Hint Mode ModelDump ! : typeclass_instances.

(** Nodes by [id], edges by [(source, priority, id)]. *)
Definition sorted_nodes {N} `{NodeLike N} (l : list N) : list N := sorted_key node_id l.
Definition sorted_edges (l : list WorkflowEdge.t) : list WorkflowEdge.t :=
  sorted_key WorkflowEdge.order_key l.

Section hashes.
Context {N : Type} `{NodeLike N} `{PyRuntime} `{ModelDump N} `{ModelDump WorkflowEdge.t}
  `{ModelDump NodePolicy.t} `{ModelDump WorkflowResolvedRevision.t}.

(** [WorkflowSpec.canonical_payload] *)
Definition canonical_payload (s : WorkflowSpec.t N) : json :=
  JObj [("spec_version", JStr (WorkflowSpec.spec_version s));
        ("state_schema", JStr "jarvis.workflow_state.v1");
        ("reducers", JObj ((λ kv, (kv.1, JStr (ReducerKind.value kv.2)))
                           <$> WorkflowSpec.reducers s));
        ("key", JStr (WorkflowSpec.key s));
        ("name", JStr (WorkflowSpec.name s));
        ("description", JStr (WorkflowSpec.description s));
        ("entrypoint", JStr (WorkflowSpec.entrypoint s));
        ("defaults", model_dump (WorkflowSpec.defaults s));
        ("nodes", JArr (model_dump <$> sorted_nodes (WorkflowSpec.nodes s)));
        ("edges", JArr (model_dump <$> sorted_edges (WorkflowSpec.edges s)));
        ("outputs", JObj [("result_path", JStr (WorkflowSpec.result_path s))])].

(** [WorkflowSpec.content_hash] *)
Definition content_hash (s : WorkflowSpec.t N) : string :=
  sha256_digest (canonical_payload s).

(** [WorkflowResolvedSnapshot.snapshot_hash]; [str(uuid)] orders as the UUID. *)
Definition snapshot_hash (s : WorkflowResolvedSnapshot.t) : string :=
  sha256_digest (JObj
    [("workflow_content_hash", JStr (WorkflowResolvedSnapshot.workflow_content_hash s));
     ("compiler_version", JStr (WorkflowResolvedSnapshot.compiler_version s));
     ("revisions", JArr (model_dump <$>
        sorted_key WorkflowResolvedRevision.revision_id
          (WorkflowResolvedSnapshot.revisions s)))]).

(** Two specs that list the same nodes and edges in different orders. *)
Definition same_up_to_order (s s' : WorkflowSpec.t N) : Prop :=
  WorkflowSpec.spec_version s = WorkflowSpec.spec_version s'
  ∧ WorkflowSpec.reducers s ≡ₚ WorkflowSpec.reducers s'
  ∧ WorkflowSpec.key s = WorkflowSpec.key s'
  ∧ WorkflowSpec.name s = WorkflowSpec.name s'
  ∧ WorkflowSpec.description s = WorkflowSpec.description s'
  ∧ WorkflowSpec.entrypoint s = WorkflowSpec.entrypoint s'
  ∧ WorkflowSpec.defaults s = WorkflowSpec.defaults s'
  ∧ WorkflowSpec.nodes s ≡ₚ WorkflowSpec.nodes s'
  ∧ WorkflowSpec.edges s ≡ₚ WorkflowSpec.edges s'
  ∧ WorkflowSpec.result_path s = WorkflowSpec.result_path s'.

Lemma sorted_nodes_perm (l l' : list N) :
  NoDup (node_id <$> l) → l ≡ₚ l' → sorted_nodes l = sorted_nodes l'.
Proof.
  intros Hnd Hp. apply sorted_key_unique; [done|]. intros x y. by apply NoDup_fmap_elem_inj.
Qed.

Lemma sorted_edges_perm l l' :
  NoDup (WorkflowEdge.id <$> l) → l ≡ₚ l' → sorted_edges l = sorted_edges l'.
Proof.
  intros Hnd Hp. apply sorted_key_unique; [done|]. intros x y Hx Hy Hid.
  injection Hid as _ _ Hid. by eapply NoDup_fmap_elem_inj.
Qed.

Lemma canonical_payload_order s s' :
  WorkflowSpec.wf s → NoDup (WorkflowSpec.reducers s).*1 → same_up_to_order s s' →
  json_equiv (canonical_payload s) (canonical_payload s').
Proof.
  unfold canonical_payload.
  intros Hwf Hr (-> & Hred & -> & -> & -> & -> & -> & Hn & He & ->).
  rewrite (sorted_nodes_perm _ _ (WorkflowSpec.wf_nodes _ Hwf) Hn).
  rewrite (sorted_edges_perm _ _ (WorkflowSpec.wf_edges _ Hwf) He).
  match goal with |- json_equiv _ (JObj ?k) => apply (je_obj _ k k) end; [| |reflexivity].
  { apply (bool_decide_unpack _). by vm_compute. }
  repeat (constructor; [split; [reflexivity|]|]); try apply je_refl; [|constructor].
  eapply je_obj; [| |by apply fmap_Permutation].
  - unfold dict_ok. by rewrite <-list_fmap_compose.
  - apply Forall2_same_length_lookup_2; [done|].
    intros i x y -> [= ->]. split; [done|apply je_refl].
Qed.

(** The content hash identifies a workflow up to order: two well-formed
workflows that list the same nodes, edges and reducers in different orders have the
same hash. *)
Lemma content_hash_order s s' :
  WorkflowSpec.wf s → NoDup (WorkflowSpec.reducers s).*1 → same_up_to_order s s' →
  content_hash s = content_hash s'.
Proof.
  intros. unfold content_hash. by rewrite (canonical_payload_order s s').
Qed.

(** The snapshot hash ignores the order of the revisions. *)
Lemma snapshot_hash_order h c r r' :
  NoDup (WorkflowResolvedRevision.revision_id <$> r) → r ≡ₚ r' →
  snapshot_hash (WorkflowResolvedSnapshot.Build_t h c r)
  = snapshot_hash (WorkflowResolvedSnapshot.Build_t h c r').
Proof.
  intros Hnd Hp. unfold snapshot_hash; simpl. do 6 f_equal.
  rewrite (sorted_key_unique _ r r'); [done..|].
  intros x y. by apply NoDup_fmap_elem_inj.
Qed.
End hashes.
