(* ===== verification/Predicates.v ===== *)
(** * Routing predicates

[orchestrator/app/jarvis_orchestrator/workflows/predicates.py]: evaluation of
the predicate AST over the workflow's observable state.  The state is a JSON
object (a [Mapping]); evaluating [not] without an argument raises
[IndexError]. *)
From S2P Require Import Prelude Enums PyJson Verification Registry WorkflowSpec.
Local Open Scope nat_scope.
Local Open Scope stdpp_scope.

Definition ALLOWED_PATHS : list string :=
  ["$.outcome.status"; "$.outcome.failure_class"; "$.node.result"; "$.node.status";
   "$.node.failure_class"; "$.tasks.terminal_count"; "$.tasks.total_count";
   "$.tasks.current_task"; "$.verification.passed"; "$.review.passed";
   "$.approval.decision"; "$.approval.action_type"; "$.approval.granted_by";
   "$.final.status"; "$.cancelled"].

(** [s.split(c)] for a single character; [cur] is the current piece, reversed. *)
Fixpoint split_on (c : Ascii.ascii) (cur s : string) : list string :=
  match s with
  | EmptyString => [String.rev cur]
  | String d s' => if Ascii.eqb c d then String.rev cur :: split_on c EmptyString s'
                   else split_on c (String d cur) s'
  end.

Definition dot : Ascii.ascii := Ascii.ascii_of_nat 46.

(** [path[2:].split(".")] *)
Definition path_parts (path : string) : list string :=
  split_on dot EmptyString (String.substring 2 (String.length path) path).

(** The loop of [_lookup]: [None] is [_MISSING]. *)
Fixpoint walk (value : json) (parts : list string) : option json :=
  match parts with
  | [] => Some value
  | part :: parts' =>
      match value with
      | JObj d => match dict_get part d with
                  | Some v => walk v parts'
                  | None => None
                  end
      | _ => None
      end
  end.

Definition _lookup (state : jobj) (path : string) : option json :=
  if bool_decide (path ∈ ALLOWED_PATHS) then walk (JObj state) (path_parts path) else None.

(** [get_path]: a missing field reads as [None]. *)
Definition get_path (state : jobj) (path : string) : json :=
  match _lookup state path with Some v => v | None => JNull end.

Definition is_bool (j : json) : bool := match j with JBool _ => true | _ => false end.

(** [_equal] *)
Definition _equal (left right : json) : bool :=
  if negb (Bool.eqb (is_bool left) (is_bool right)) then false else py_eq left right.

(** [isinstance(j, (int, float)) and not isinstance(j, bool)], with its value. *)
Definition number (j : json) : option pyfloat :=
  if is_bool j then None else py_number j.

(** The four orderings on numbers. *)
Definition ordering (op : PredicateOperator.t) (actual expected : pyfloat) : bool :=
  match op with
  | PredicateOperator.lt => float_ltb actual expected
  | PredicateOperator.lte => float_leb actual expected
  | PredicateOperator.gt => float_ltb expected actual
  | _ => float_leb expected actual
  end.

(** The leaf operators on a value that is present. *)
Definition compare_value (op : PredicateOperator.t) (actual expected : json) : bool :=
  match op with
  | PredicateOperator.exists_ => true
  | PredicateOperator.eq => _equal actual expected
  | PredicateOperator.neq => negb (_equal actual expected)
  | PredicateOperator.in_ =>
      match expected with JArr l => existsb (_equal actual) l | _ => false end
  | _ =>
      match number actual, number expected with
      | Some a, Some e => ordering op a e
      | _, _ => false
      end
  end.

Inductive index_error : Set := IndexError.
#[export] Instance index_error_eq_dec : EqDecision index_error.
Proof. solve_decision. Defined.

(** [all(f(x) for x in l)] and [any(...)] stop at the first decisive element. *)
Section short_circuit.
Context {A E : Type} (f : A → res E bool).
Fixpoint all_res (l : list A) : res E bool :=
  match l with
  | [] => Ok true
  | x :: l' => b ← f x; if (b : bool) then all_res l' else Ok false
  end.
Fixpoint any_res (l : list A) : res E bool :=
  match l with
  | [] => Ok false
  | x :: l' => b ← f x; if (b : bool) then Ok true else any_res l'
  end.
End short_circuit.

(** [evaluate_predicate] *)
Fixpoint evaluate_predicate (predicate : Predicate.t) (state : jobj)
    : res index_error bool :=
  match predicate with
  | Predicate.Mk op path value args =>
      match op with
      | PredicateOperator.and => all_res (λ arg, evaluate_predicate arg state) args
      | PredicateOperator.or => any_res (λ arg, evaluate_predicate arg state) args
      | PredicateOperator.not =>
          match args with
          | [] => Err IndexError
          | arg :: _ => b ← evaluate_predicate arg state; Ok (negb b)
          end
      | _ =>
          match _lookup state (default EmptyString path) with
          | None => Ok false
          | Some actual => Ok (compare_value op actual value)
          end
      end
  end.

(** ** Theorems *)

Section short_circuit_lemmas.
Context {A E : Type} (f : A → res E bool).

Lemma all_res_total l :
  Forall (λ x, ∃ b, f x = Ok b) l →
  ∃ b, all_res f l = Ok b ∧ (b = true ↔ ∀ x, x ∈ l → f x = Ok true).
Proof.
  induction 1 as [|x l [[] Hx] Hl (b & IH & Hb)]; simpl.
  - exists true. set_solver.
  - rewrite Hx; simpl. exists b. split; [done|]. rewrite Hb. set_solver.
  - rewrite Hx; simpl. exists false. split; [done|]. split; [done|].
    intros Hall. specialize (Hall x ltac:(set_solver)). congruence.
Qed.

Lemma any_res_total l :
  Forall (λ x, ∃ b, f x = Ok b) l →
  ∃ b, any_res f l = Ok b ∧ (b = true ↔ ∃ x, x ∈ l ∧ f x = Ok true).
Proof.
  induction 1 as [|x l [[] Hx] Hl (b & IH & Hb)]; simpl.
  - exists false. set_solver.
  - rewrite Hx; simpl. exists true. split; [done|]. split; [|done]. intros _. set_solver.
  - rewrite Hx; simpl. exists b. split; [done|]. rewrite Hb. split.
    + intros (y & ? & ?). exists y. set_solver.
    + intros (y & [->|Hy]%elem_of_cons & Hfy); [congruence|eauto].
Qed.

Lemma all_res_ext g l : (∀ x, x ∈ l → f x = g x) → all_res f l = all_res g l.
Proof.
  induction l as [|x l IH]; intros Hfg; simpl; [done|].
  rewrite Hfg by set_solver. destruct (g x) as [[]|]; simpl; [|done..].
  apply IH. set_solver.
Qed.

Lemma any_res_ext g l : (∀ x, x ∈ l → f x = g x) → any_res f l = any_res g l.
Proof.
  induction l as [|x l IH]; intros Hfg; simpl; [done|].
  rewrite Hfg by set_solver. destruct (g x) as [[]|]; simpl; [done| |done].
  apply IH. set_solver.
Qed.
End short_circuit_lemmas.

(** The meaning of a predicate: the classical truth value of the formula whose
atoms hold when the approved field is present and compares as asked. *)
Inductive holds (state : jobj) : Predicate.t → Prop :=
  | holds_and p v args :
      (∀ a, a ∈ args → holds state a) →
      holds state (Predicate.Mk PredicateOperator.and p v args)
  | holds_or p v args a :
      a ∈ args → holds state a →
      holds state (Predicate.Mk PredicateOperator.or p v args)
  | holds_not p v a args :
      fails state a →
      holds state (Predicate.Mk PredicateOperator.not p v (a :: args))
  | holds_leaf op path v args actual :
      Predicate.logical op = false → path ∈ ALLOWED_PATHS →
      walk (JObj state) (path_parts path) = Some actual →
      compare_value op actual v = true →
      holds state (Predicate.Mk op (Some path) v args)
with fails (state : jobj) : Predicate.t → Prop :=
  | fails_and p v args a :
      a ∈ args → fails state a →
      fails state (Predicate.Mk PredicateOperator.and p v args)
  | fails_or p v args :
      (∀ a, a ∈ args → fails state a) →
      fails state (Predicate.Mk PredicateOperator.or p v args)
  | fails_not p v a args :
      holds state a →
      fails state (Predicate.Mk PredicateOperator.not p v (a :: args))
  | fails_leaf op path v args :
      Predicate.logical op = false →
      (∀ actual, path ∈ ALLOWED_PATHS →
         walk (JObj state) (path_parts path) = Some actual →
         compare_value op actual v = false) →
      fails state (Predicate.Mk op (Some path) v args).

Lemma valid_args op p v args :
  Predicate.valid (Predicate.Mk op p v args) = true →
  Forall (λ a, Predicate.valid a = true) args.
Proof. simpl. rewrite !andb_true_iff, forallb_forall, <-List.Forall_forall. tauto. Qed.

Lemma valid_shape op p v args :
  Predicate.valid (Predicate.Mk op p v args) = true →
  Predicate.validate_shape (Predicate.Mk op p v args) = true.
Proof. simpl. rewrite !andb_true_iff. tauto. Qed.

Lemma lookup_leaf state path :
  _lookup state path
  = if bool_decide (path ∈ ALLOWED_PATHS) then walk (JObj state) (path_parts path) else None.
Proof. done. Qed.

Lemma evaluate_leaf op path v args state :
  Predicate.logical op = false →
  evaluate_predicate (Predicate.Mk op path v args) state
  = Ok (match _lookup state (default EmptyString path) with
        | None => false | Some actual => compare_value op actual v end).
Proof. destruct op; try done; intros _; simpl; by destruct (_lookup _ _). Qed.

Definition decides (state : jobj) (p : Predicate.t) : Prop :=
  ∃ b, evaluate_predicate p state = Ok b
       ∧ (b = true ↔ holds state p) ∧ (b = false ↔ fails state p).

Lemma decides_true state p :
  decides state p → evaluate_predicate p state = Ok true ↔ holds state p.
Proof. intros (b & -> & <- & _). split; congruence. Qed.

Lemma decides_false state p :
  decides state p → evaluate_predicate p state = Ok false ↔ fails state p.
Proof. intros (b & -> & _ & <-). split; congruence. Qed.

Lemma decides_result state p :
  decides state p → ∃ b, evaluate_predicate p state = Ok b.
Proof. intros (b & -> & _). eauto. Qed.

Lemma decides_and state pa v args :
  Forall (decides state) args → decides state (Predicate.Mk PredicateOperator.and pa v args).
Proof.
  intros Hall. rewrite Forall_forall in Hall.
  destruct (all_res_total (λ a, evaluate_predicate a state) args) as (b & Hb & Hiff).
  { apply Forall_forall. intros a Ha. by apply decides_result, Hall. }
  exists b. split; [done|]. split; rewrite ?Hiff.
  - split; [intros Ht; constructor; intros a Ha; by apply decides_true; auto|].
    inversion_clear 1; [|done]. intros a Ha. apply decides_true; auto.
  - split.
    + intros ->. assert (¬ Forall (λ a, evaluate_predicate a state = Ok true) args) as Hn.
      { rewrite Forall_forall. intros Hx. apply Hiff in Hx. done. }
      apply not_Forall_Exists in Hn; [|intros a; apply _].
      apply Exists_exists in Hn as (a & Ha & Hna). econstructor; [done|].
      apply decides_false; [auto|]. destruct (decides_result _ _ (Hall a Ha)) as [[] ?]; done.
    + inversion_clear 1 as [? ? ? a Ha Hf| | |]; [|done]. destruct b; [|done].
      pose proof (proj1 Hiff eq_refl a Ha) as Ht.
      apply decides_false in Hf; [congruence|auto].
Qed.

Lemma decides_or state pa v args :
  Forall (decides state) args → decides state (Predicate.Mk PredicateOperator.or pa v args).
Proof.
  intros Hall. rewrite Forall_forall in Hall.
  destruct (any_res_total (λ a, evaluate_predicate a state) args) as (b & Hb & Hiff).
  { apply Forall_forall. intros a Ha. by apply decides_result, Hall. }
  exists b. split; [done|]. split; rewrite ?Hiff.
  - split.
    + intros (a & Ha & Ht). econstructor; [done|]. apply decides_true; auto.
    + inversion_clear 1 as [|? ? ? a Ha Hh| |]; [|done]. exists a. split; [done|].
      apply decides_true; auto.
  - split.
    + intros ->. constructor. intros a Ha. apply decides_false; [auto|].
      destruct (decides_result _ _ (Hall a Ha)) as [[] Ht]; [|done].
      assert (false = true) by (apply Hiff; eauto). done.
    + inversion_clear 1 as [|? ? ? Hf| |]; [|done]. destruct b; [|done].
      destruct (proj1 Hiff eq_refl) as (a & Ha & Ht).
      pose proof (proj2 (decides_false _ _ (Hall a Ha)) (Hf a Ha)). congruence.
Qed.

Lemma decides_not state pa v a args :
  decides state a → decides state (Predicate.Mk PredicateOperator.not pa v (a :: args)).
Proof.
  intros Ha. pose proof Ha as (b & Hb & Ht & Hf). exists (negb b). simpl. rewrite Hb; simpl.
  split; [done|]. split.
  - split; [intros ?; constructor; apply Hf; by destruct b|].
    inversion_clear 1 as [| |? ? ? ? Hx|]; [|done]. apply Hf in Hx. by subst.
  - split; [intros ?; constructor; apply Ht; by destruct b|].
    inversion_clear 1 as [| |? ? ? ? Hx|]; [|done]. apply Ht in Hx. by subst.
Qed.

Lemma decides_leaf state op path v args :
  Predicate.logical op = false → decides state (Predicate.Mk op (Some path) v args).
Proof.
  intros Hop. eexists. split; [by apply evaluate_leaf|]. rewrite lookup_leaf; simpl.
  case_bool_decide as Hp; [destruct (walk _ _) as [actual|] eqn:Hw|].
  - split; split.
    + intros; by econstructor.
    + inversion 1; subst; [done..|]. congruence.
    + intros. constructor; [done|]. intros ? _. rewrite Hw. congruence.
    + inversion 1; subst; [done..|]. auto.
  - split; split; [done|inversion 1; subst; [done..|congruence]| |done].
    intros _. constructor; [done|]. intros ? _. by rewrite Hw.
  - split; split; [done|inversion 1; subst; done| |done].
    intros _. by constructor.
Qed.

(** A valid predicate always evaluates, on any state, and its result is the
truth value of the formula it denotes; evaluation never raises. *)
Lemma evaluate_predicate_decides p state :
  Predicate.valid p = true → decides state p.
Proof.
  induction p as [op pa v args IH] using Predicate.ind'. intros Hv.
  pose proof (valid_args _ _ _ _ Hv) as Hargs.
  assert (Forall (decides state) args) as Hdec.
  { rewrite Forall_forall in *. eauto. }
  pose proof (valid_shape _ _ _ _ Hv) as Hs. unfold Predicate.validate_shape in Hs; simpl in Hs.
  apply andb_true_iff in Hs as [Hs _].
  destruct (Predicate.logical op) eqn:Hop.
  - destruct op; try done; [by apply decides_and|by apply decides_or|].
    destruct args as [|a args]; [done|]. apply decides_not. by inversion Hdec.
  - apply andb_true_iff in Hs as [Hp _]. apply bool_decide_eq_true in Hp as [path ->].
    by apply decides_leaf.
Qed.

(** Two states that agree on the approved paths. *)
Definition same_view (s s' : jobj) : Prop :=
  ∀ path, path ∈ ALLOWED_PATHS → _lookup s path = _lookup s' path.

Lemma lookup_same_view s s' path : same_view s s' → _lookup s path = _lookup s' path.
Proof.
  intros Hs. destruct (decide (path ∈ ALLOWED_PATHS)) as [?|Hn]; [by apply Hs|].
  rewrite !lookup_leaf. by rewrite !bool_decide_eq_false_2.
Qed.

(** Evaluation observes nothing else. *)
Lemma evaluate_predicate_view p s s' :
  same_view s s' → evaluate_predicate p s = evaluate_predicate p s'.
Proof.
  intros Hs. induction p as [op pa v args IH] using Predicate.ind'.
  rewrite Forall_forall in IH.
  destruct (Predicate.logical op) eqn:Hop.
  - destruct op; try done; simpl.
    + by apply all_res_ext.
    + by apply any_res_ext.
    + destruct args as [|a args]; [done|]. rewrite IH by set_solver. done.
  - rewrite !evaluate_leaf by done. by rewrite (lookup_same_view s s').
Qed.

(** [neq] is the negation of [eq] on a field that is present; on a missing field
both are false. *)
Lemma neq_eq path v state :
  evaluate_predicate (Predicate.Mk PredicateOperator.neq (Some path) v []) state
  = match _lookup state path with
    | None => Ok false
    | Some _ =>
        b ← evaluate_predicate (Predicate.Mk PredicateOperator.eq (Some path) v []) state;
        Ok (negb b)
    end.
Proof. simpl. by destruct (_lookup state path). Qed.

(** At the top level a boolean never equals a number. *)
Lemma equal_bool_number b z : _equal (JBool b) (JInt z) = false.
Proof. done. Qed.

(** The guard of _equal that keeps booleans apart from numbers is not applied
inside containers: [true] equals [1] although true does not equal 1. *)
Lemma equal_nested_bool_number :
  _equal (JArr [JBool true]) (JArr [JInt 1]) = true
  ∧ _equal (JBool true) (JInt 1) = false.
Proof. done. Qed.
