(* ===== verification/State.v ===== *)
(** * Workflow state channels and parallel reducers

[orchestrator/app/jarvis_orchestrator/workflows/state.py].  Parallel branches
write the channels of [BranchOutput]; the graph runtime folds their updates
with the channel's reducer, in an order the program does not control.
[Reducer] is the interface that makes this sound: the fold of a channel's
updates does not depend on their order.  [merge_by_id], [set_union] and
[max_map] implement it. *)
From S2P Require Import Prelude Enums PyJson Verification Registry WorkflowSpec Predicates.
Local Open Scope Z_scope.
Local Open Scope stdpp_scope.

(** [WorkflowInvariantError]; the messages that name an identity carry it. *)
Inductive workflow_error : Type :=
  | ConflictingCompletion (key : string)
  | NegativeCounter (key : string)
  | InvariantError (message : string).

#[export] Instance workflow_error_eq_dec : EqDecision workflow_error.
Proof. solve_decision. Defined.

Section reducers.
Context `{PyRuntime}.

(** The canonical text two completions of one identity must share. *)
Definition completion (value : json) : string := canonical_json (JObj [("value", value)]).

(** The loop body of [merge_by_id]. *)
Definition merge_item (merged : jobj) (kv : string * json) : res workflow_error jobj :=
  match dict_get kv.1 merged with
  | Some old =>
      if bool_decide (completion old = completion kv.2) then Ok (dict_set kv.1 kv.2 merged)
      else Err (ConflictingCompletion kv.1)
  | None => Ok (dict_set kv.1 kv.2 merged)
  end.

Definition merge_by_id (left right : jobj) : res workflow_error jobj :=
  dict_sorted <$> foldM merge_item left right.
End reducers.

(** [sorted(set(left) | set(right))] *)
Definition set_union (left right : list string) : list string :=
  py_sorted (fromkeys (left ++ right)).

(** The loop body of [max_map]; [type(value) is int] holds by typing. *)
Definition max_item (merged : list (string * Z)) (kv : string * Z)
    : res workflow_error (list (string * Z)) :=
  if Z.ltb kv.2 0 then Err (NegativeCounter kv.1)
  else Ok (dict_set kv.1 (Z.max (default 0 (dict_get kv.1 merged)) kv.2) merged).

Definition max_map (left right : list (string * Z)) : res workflow_error (list (string * Z)) :=
  dict_sorted <$> foldM max_item left right.

(** [WorkflowStateV1]: every channel is optional ([total=False]). *)
Module WorkflowStateV1.
Record t := {
  results : option jobj;
  child_results : option jobj;
  expected_children : option (list string);
  completed_children : option (list string);
  counters : option (list (string * Z));
  node : option jobj;
  outcome : option jobj;
  tasks : option jobj;
  verification : option jobj;
  review : option jobj;
  approval : option jobj;
  final : option jobj;
  cancelled : option bool;
  child_identity : option string;
  _route : option string;
  _needs_verification : option bool;
}.

(** [{}] *)
Definition empty : t :=
  Build_t None None None None None None None None None None None None None None None None.

(** [state.get("counters", {})] *)
Definition get_counters (s : t) : list (string * Z) := default [] (counters s).

(** The mapping routing predicates read. *)
Definition mapping (s : t) : jobj :=
  let obj k (o : option jobj) := match o with Some d => [(k, JObj d)] | None => [] end in
  obj "results" (results s) ++ obj "child_results" (child_results s)
  ++ match expected_children s with Some l => [("expected_children", JArr (JStr <$> l))]
     | None => [] end
  ++ match completed_children s with Some l => [("completed_children", JArr (JStr <$> l))]
     | None => [] end
  ++ match counters s with
     | Some l => [("counters", JObj ((λ kv, (kv.1, JInt kv.2)) <$> l))]
     | None => []
     end
  ++ obj "node" (node s) ++ obj "outcome" (outcome s) ++ obj "tasks" (tasks s)
  ++ obj "verification" (verification s) ++ obj "review" (review s)
  ++ obj "approval" (approval s) ++ obj "final" (final s)
  ++ match cancelled s with Some b => [("cancelled", JBool b)] | None => [] end
  ++ match child_identity s with Some i => [("child_identity", JStr i)] | None => [] end
  ++ match _route s with Some i => [("_route", JStr i)] | None => [] end
  ++ match _needs_verification s with Some b => [("_needs_verification", JBool b)]
     | None => [] end.
End WorkflowStateV1.

(** [{**a, **b}.get(k)] of an optional channel. *)
Definition override {A} (a b : option A) : option A :=
  match b with Some _ => b | None => a end.

Section merged_state.
Context `{PyRuntime}.
Import WorkflowStateV1.

Definition merged_state (state update : WorkflowStateV1.t)
    : res workflow_error WorkflowStateV1.t :=
  results' ← merge_by_id (default [] (results state)) (default [] (results update));
  child_results' ← merge_by_id (default [] (child_results state))
                                (default [] (child_results update));
  counters' ← max_map (get_counters state) (get_counters update);
  Ok {| results := Some results';
        child_results := Some child_results';
        counters := Some counters';
        expected_children :=
          Some (set_union (default [] (expected_children state))
                          (default [] (expected_children update)));
        completed_children :=
          Some (set_union (default [] (completed_children state))
                          (default [] (completed_children update)));
        node := override (node state) (node update);
        outcome := override (outcome state) (outcome update);
        tasks := override (tasks state) (tasks update);
        verification := override (verification state) (verification update);
        review := override (review state) (review update);
        approval := override (approval state) (approval update);
        final := override (final state) (final update);
        cancelled := override (cancelled state) (cancelled update);
        child_identity := override (child_identity state) (child_identity update);
        _route := override (_route state) (_route update);
        _needs_verification :=
          override (_needs_verification state) (_needs_verification update) |}.
End merged_state.

(** ** The reducer interface

[rd_wf] is the well-formedness of a channel value (dictionary keys distinct,
counters nonnegative), [rd_equiv] the equality of channel values. *)
Class Reducer (V : Type) (merge : V → V → res workflow_error V) := {
  rd_wf : V → Prop;
  rd_equiv : V → V → Prop;
  rd_preserves : ∀ v u w, rd_wf v → rd_wf u → merge v u = Ok w → rd_wf w;
  rd_order : ∀ us us' v, rd_wf v → Forall rd_wf us → us ≡ₚ us' → us ≠ [] →
    match foldM merge v us, foldM merge v us' with
    | Ok w, Ok w' => rd_equiv w w'
    | Err _, Err _ => True
    | _, _ => False
    end;
  rd_idempotent : ∀ v u w, rd_wf v → rd_wf u → merge v u = Ok w →
    ∃ w', merge w u = Ok w' ∧ rd_equiv w w';
}.

(** ** [merge_by_id] *)

Section merge_by_id_lemmas.
Context `{PyRuntime}.

(** What an identity's completion is, up to canonical equality. *)
Definition view (d : jobj) (k : string) : option string := completion <$> dict_get k d.

Definition compatible (d u : jobj) : Prop :=
  ∀ k a b, view d k = Some a → view u k = Some b → a = b.

Lemma view_nil k : view [] k = None.
Proof. done. Qed.

Lemma view_cons k v d k' :
  view ((k, v) :: d) k' = if decide (k' = k) then Some (completion v) else view d k'.
Proof. unfold view; simpl. case_decide; [by rewrite bool_decide_true|by rewrite bool_decide_false]. Qed.

Lemma view_None d k : view d k = None ↔ k ∉ d.*1.
Proof. unfold view. rewrite fmap_None. apply dict_get_None. Qed.

Lemma view_set k v d k' :
  view (dict_set k v d) k' = if decide (k = k') then Some (completion v) else view d k'.
Proof. unfold view. rewrite dict_get_set. by case_decide. Qed.

(** The loop of [merge_by_id] succeeds exactly when no identity conflicts, and
then the later completion is stored. *)
Lemma merge_loop_spec left right :
  dict_ok right →
  match foldM merge_item left right with
  | Ok w => compatible left right ∧ w = dict_update left right
  | Err _ => ¬ compatible left right
  end.
Proof.
  unfold dict_ok. revert left; induction right as [|[k v] right IH]; intros left; csimpl.
  { intros _. split; [|done]. intros k a b _. by rewrite view_nil. }
  intros [Hk Hr]%NoDup_cons.
  change (merge_item left (k, v)) with
    (match dict_get k left with
     | Some old => if bool_decide (completion old = completion v) then Ok (dict_set k v left)
                   else Err (ConflictingCompletion k)
     | None => Ok (dict_set k v left)
     end).
  assert (view left k = None ∨ view left k = Some (completion v) →
          compatible left ((k, v) :: right) ↔ compatible (dict_set k v left) right) as Hcompat.
  { intros Hl. unfold compatible. setoid_rewrite view_cons. setoid_rewrite view_set.
    apply view_None in Hk. split; intros Hc k' a b; specialize (Hc k' a b);
      repeat case_decide; subst; try congruence; naive_solver. }
  destruct (dict_get k left) as [old|] eqn:Hg;
    [case_bool_decide as Hold|]; simpl.
  2: { intros Hc. apply Hold. apply (Hc k); [unfold view; by rewrite Hg|].
       rewrite view_cons. by rewrite decide_True. }
  all: specialize (IH (dict_set k v left) Hr).
  all: destruct (foldM merge_item (dict_set k v left) right); simpl in IH;
    (rewrite Hcompat; [done|]); unfold view; rewrite Hg; simpl;
    first [left; done|right; congruence].
Qed.

(** [merge_by_id] on well-formed dictionaries. *)
Lemma merge_by_id_spec left right :
  dict_ok right →
  match merge_by_id left right with
  | Ok w => compatible left right ∧ w = dict_sorted (dict_update left right)
  | Err _ => ¬ compatible left right
  end.
Proof.
  intros Hr. unfold merge_by_id. pose proof (merge_loop_spec left right Hr) as Hl.
  destruct (foldM _ _ _); simpl in *; naive_solver.
Qed.

Lemma merge_by_id_view left right w :
  dict_ok left → dict_ok right → merge_by_id left right = Ok w →
  dict_ok w ∧ compatible left right ∧
  ∀ k a, view w k = Some a ↔ view left k = Some a ∨ view right k = Some a.
Proof.
  intros Hl Hr Hm. pose proof (merge_by_id_spec left right Hr) as Hs. rewrite Hm in Hs.
  destruct Hs as [Hc ->].
  assert (dict_ok (dict_update left right)) by (by apply dict_ok_update).
  split; [by apply dict_ok_sorted|]. split; [done|]. intros k a. unfold view.
  rewrite dict_get_sorted by done. rewrite dict_get_update by done.
  specialize (Hc k). unfold view in Hc.
  destruct (dict_get k right) as [x|], (dict_get k left) as [y|]; simpl in *;
    [rewrite <-(Hc _ _ eq_refl eq_refl)|..]; intuition congruence.
Qed.

(** Channel values that hold the same completions. *)
Definition same_completions (d u : jobj) : Prop := ∀ k, view d k = view u k.

Lemma same_completions_iff d u :
  (∀ k a, view d k = Some a ↔ view u k = Some a) → same_completions d u.
Proof. intros Hd k. apply option_eq. intros a. apply Hd. Qed.

(** A list of updates is coherent when no identity has two completions in it. *)
Definition coherent (ds : list jobj) : Prop :=
  ∀ d u, d ∈ ds → u ∈ ds → compatible d u.

Lemma merge_all_spec us v :
  dict_ok v → Forall dict_ok us → coherent [v] →
  match foldM merge_by_id v us with
  | Ok w => dict_ok w ∧ coherent (v :: us) ∧
            ∀ k a, view w k = Some a ↔ ∃ d, d ∈ v :: us ∧ view d k = Some a
  | Err _ => ¬ coherent (v :: us)
  end.
Proof.
  revert v; induction us as [|u us IH]; intros v Hv Hus Hcv; simpl.
  { split_and!; [done..|]. intros k a. split; [intros; exists v; set_solver|].
    intros (d & ->%list_elem_of_singleton & ?). done. }
  apply Forall_cons in Hus as [Hu Hus].
  destruct (merge_by_id v u) as [w|e] eqn:Hm; simpl.
  - destruct (merge_by_id_view _ _ _ Hv Hu Hm) as (Hw & Hc & Hview).
    assert (coherent (w :: us) ↔ coherent (v :: u :: us)) as Hcoh.
    { unfold coherent, compatible. split; intros Hx.
      - assert (∀ d k a, d ∈ v :: u :: us → view d k = Some a →
                ∃ d', d' ∈ w :: us ∧ view d' k = Some a) as Hlift.
        { intros d k a [->|[->|Hd]%elem_of_cons]%elem_of_cons Ha;
            [exists w; rewrite Hview; set_solver..|exists d; set_solver]. }
        intros d d' Hd Hd' k a b Ha Hb.
        destruct (Hlift _ _ _ Hd Ha) as (x & ? & ?), (Hlift _ _ _ Hd' Hb) as (y & ? & ?).
        by eapply (Hx x y).
      - assert (∀ d k a, d ∈ w :: us → view d k = Some a →
                ∃ d', d' ∈ v :: u :: us ∧ view d' k = Some a) as Hlift.
        { intros d k a [->|Hd]%elem_of_cons Ha; [|exists d; set_solver].
          apply Hview in Ha as [?|?]; [exists v|exists u]; set_solver. }
        intros d d' Hd Hd' k a b Ha Hb.
        destruct (Hlift _ _ _ Hd Ha) as (x & ? & ?), (Hlift _ _ _ Hd' Hb) as (y & ? & ?).
        by eapply (Hx x y). }
    assert (coherent [w]) as Hcw.
    { intros ?? ->%list_elem_of_singleton ->%list_elem_of_singleton k a b; congruence. }
    specialize (IH w Hw Hus Hcw). destruct (foldM merge_by_id w us) as [x|]; [|by rewrite <-Hcoh].
    destruct IH as (Hx & Hcoh' & Hview'). split_and!; [done|by apply Hcoh|].
    intros k a. rewrite Hview'. split.
    + intros (d & [->|Hd]%elem_of_cons & Ha); [|exists d; set_solver].
      apply Hview in Ha as [?|?]; [exists v|exists u]; set_solver.
    + intros (d & [->|[->|Hd]%elem_of_cons]%elem_of_cons & Ha);
        [exists w; rewrite Hview; set_solver..|exists d; set_solver].
  - intros Hcoh. pose proof (merge_by_id_spec v u Hu) as Hs. rewrite Hm in Hs.
    apply Hs, Hcoh; set_solver.
Qed.

Lemma coherent_singleton v : coherent [v].
Proof. intros ?? ->%list_elem_of_singleton ->%list_elem_of_singleton k a b; congruence. Qed.

Lemma coherent_perm ds ds' : ds ≡ₚ ds' → coherent ds → coherent ds'.
Proof. intros Hp Hc d u. rewrite <-!Hp. apply Hc. Qed.

Lemma merge_by_id_order us us' v :
  dict_ok v → Forall dict_ok us → us ≡ₚ us' → us ≠ [] →
  match foldM merge_by_id v us, foldM merge_by_id v us' with
  | Ok w, Ok w' => same_completions w w'
  | Err _, Err _ => True
  | _, _ => False
  end.
Proof.
  intros Hv Hus Hp _. pose proof (merge_all_spec us v Hv Hus (coherent_singleton v)) as H1.
  assert (Forall dict_ok us') as Hus' by (by rewrite <-Hp).
  pose proof (merge_all_spec us' v Hv Hus' (coherent_singleton v)) as H2.
  assert (coherent (v :: us) ↔ coherent (v :: us')) as Hcoh
    by (split; apply coherent_perm; by rewrite Hp).
  destruct (foldM merge_by_id v us) as [w|], (foldM merge_by_id v us') as [w'|];
    [|tauto..|done].
  destruct H1 as (_ & _ & H1), H2 as (_ & _ & H2). apply same_completions_iff.
  intros k a. rewrite H1, H2. by setoid_rewrite Hp.
Qed.

Lemma merge_by_id_idempotent v u w :
  dict_ok v → dict_ok u → merge_by_id v u = Ok w →
  ∃ w', merge_by_id w u = Ok w' ∧ same_completions w w'.
Proof.
  intros Hv Hu Hm. destruct (merge_by_id_view _ _ _ Hv Hu Hm) as (Hw & Hc & Hview).
  assert (compatible w u) as Hwu.
  { intros k a b Ha Hb. apply Hview in Ha as [Ha|Ha]; [by eapply Hc|congruence]. }
  destruct (merge_by_id w u) as [w'|] eqn:Hm'.
  - exists w'. split; [done|]. destruct (merge_by_id_view _ _ _ Hw Hu Hm') as (_ & _ & Hview').
    apply same_completions_iff. intros k a. rewrite Hview', Hview. tauto.
  - pose proof (merge_by_id_spec w u Hu) as Hs. rewrite Hm' in Hs. done.
Qed.

#[export] Instance merge_by_id_reducer : Reducer jobj merge_by_id.
Proof.
  refine (Build_Reducer _ _ dict_ok same_completions _ merge_by_id_order merge_by_id_idempotent).
  intros v u w Hv Hu Hm. by apply (merge_by_id_view v u w).
Defined.
End merge_by_id_lemmas.

(** ** [set_union] *)

Lemma elem_of_set_union left right x : x ∈ set_union left right ↔ x ∈ left ∨ x ∈ right.
Proof. unfold set_union, py_sorted. rewrite elem_of_sorted_key, elem_of_fromkeys. set_solver. Qed.

Lemma set_union_ext l r l' r' :
  (∀ x, x ∈ l ∨ x ∈ r ↔ x ∈ l' ∨ x ∈ r') → set_union l r = set_union l' r'.
Proof.
  intros Hext. unfold set_union, py_sorted. apply sorted_key_unique; [|done].
  apply NoDup_Permutation; [apply NoDup_fromkeys_from..|].
  intros x. rewrite !elem_of_fromkeys. set_solver.
Qed.

(** The reducer as the graph runtime calls it. *)
Definition set_union_res (left right : list string) : res workflow_error (list string) :=
  Ok (set_union left right).

Lemma set_union_all us v :
  us ≠ [] → foldM set_union_res v us = Ok (set_union v (concat us)).
Proof.
  revert v. induction us as [|u [|u' us] IH]; intros v Hne; [done|simpl|].
  - by rewrite app_nil_r.
  - change (foldM set_union_res (set_union v u) (u' :: us)
            = Ok (set_union v (concat (u :: u' :: us)))).
    rewrite IH by done. f_equal. apply set_union_ext. intros x.
    cbn [concat]. rewrite elem_of_set_union. set_solver.
Qed.

Lemma elem_of_concat_perm (us us' : list (list string)) x :
  us ≡ₚ us' → x ∈ concat us ↔ x ∈ concat us'.
Proof. intros Hp. by rewrite Hp. Qed.

#[export] Instance set_union_reducer : Reducer (list string) set_union_res.
Proof.
  refine (Build_Reducer _ _ (λ _, True) eq _ _ _).
  - done.
  - intros us us' v _ _ Hp Hne.
    assert (us' ≠ []) by (intros ->; by apply Permutation_nil_r in Hp).
    rewrite !set_union_all by done. apply set_union_ext. intros x.
    by rewrite (elem_of_concat_perm us us').
  - intros v u w _ _ [= <-]. eexists; split; [done|]. apply set_union_ext. intros x.
    rewrite elem_of_set_union. tauto.
Defined.

(** ** [max_map] *)

Definition nonneg (d : list (string * Z)) : Prop := ∀ k v, dict_get k d = Some v → 0 ≤ v.

Definition opt_max (a b : option Z) : option Z :=
  match a, b with
  | Some x, Some y => Some (Z.max x y)
  | Some x, None | None, Some x => Some x
  | None, None => None
  end.

Lemma opt_max_None_r a : opt_max a None = a.
Proof. by destruct a. Qed.
Lemma opt_max_comm a b : opt_max a b = opt_max b a.
Proof. destruct a, b; simpl; f_equal; lia. Qed.
Lemma opt_max_assoc a b c : opt_max a (opt_max b c) = opt_max (opt_max a b) c.
Proof. destruct a, b, c; simpl; f_equal; lia. Qed.
Lemma opt_max_idem a b : opt_max (opt_max a b) b = opt_max a b.
Proof. destruct a, b; simpl; f_equal; lia. Qed.

(** The loop of [max_map] on nonnegative counters. *)
Lemma max_loop left right :
  dict_ok left → dict_ok right → nonneg left → nonneg right →
  ∃ w, foldM max_item left right = Ok w ∧ dict_ok w
       ∧ ∀ k, dict_get k w = opt_max (dict_get k left) (dict_get k right).
Proof.
  unfold dict_ok. revert left; induction right as [|[k v] right IH]; intros left Hl;
    csimpl; intros Hr Hnl Hnr.
  { exists left. split_and!; [done..|]. intros k. by rewrite opt_max_None_r. }
  apply NoDup_cons in Hr as [Hk Hr].
  assert (0 ≤ v) as Hv by (apply (Hnr k); simpl; by rewrite bool_decide_true).
  assert (dict_get k right = None) as Hkr by (by apply dict_get_None).
  change (max_item left (k, v)) with
    (if Z.ltb v 0 then Err (NegativeCounter k) else
       Ok (dict_set k (Z.max (default 0 (dict_get k left)) v) left) : res workflow_error _).
  destruct (Z.ltb_spec v 0); [lia|]; simpl.
  destruct (IH (dict_set k (Z.max (default 0 (dict_get k left)) v) left))
    as (w & Hw & Hok & Hget).
  - by apply dict_ok_set.
  - done.
  - intros k' v'. rewrite dict_get_set. case_decide; [intros [= <-]; lia|apply Hnl].
  - intros k' v' Hg. apply (Hnr k'). simpl. rewrite bool_decide_false; [done|congruence].
  - exists w. split_and!; [done..|]. intros k'. rewrite Hget, dict_get_set.
    case_decide as Hkk; [|by rewrite bool_decide_false by congruence].
    subst k'. rewrite Hkr, bool_decide_true by done.
    destruct (dict_get k left) as [x|] eqn:Hx; simpl; f_equal.
    lia.
Qed.

Definition counters_ok (d : list (string * Z)) : Prop := dict_ok d ∧ nonneg d.

Lemma max_map_spec left right :
  counters_ok left → counters_ok right →
  ∃ w, max_map left right = Ok w ∧ counters_ok w ∧ dict_sorted w = w
       ∧ ∀ k, dict_get k w = opt_max (dict_get k left) (dict_get k right).
Proof.
  intros [Hl Hnl] [Hr Hnr]. destruct (max_loop left right) as (w & Hw & Hok & Hget); [done..|].
  exists (dict_sorted w). unfold max_map. rewrite Hw. split_and!; [done|split| |].
  - by apply dict_ok_sorted.
  - intros k v. rewrite dict_get_sorted, Hget by done. specialize (Hnl k). specialize (Hnr k).
    destruct (dict_get k left) as [x|], (dict_get k right) as [y|]; simpl; intros [= <-];
      try specialize (Hnl _ eq_refl); try specialize (Hnr _ eq_refl); lia.
  - apply sorted_key_idemp.
  - intros k. by rewrite dict_get_sorted.
Qed.

Definition max_all (k : string) (us : list (list (string * Z))) : option Z :=
  foldr (λ d acc, opt_max (dict_get k d) acc) None us.

Lemma max_all_perm k us us' : us ≡ₚ us' → max_all k us = max_all k us'.
Proof.
  induction 1 as [|d us us' Hp IH|d u us|us us' us'' _ IH1 _ IH2]; simpl; [done|congruence| |congruence].
  rewrite !opt_max_assoc. f_equal. apply opt_max_comm.
Qed.

Lemma max_map_all us v :
  counters_ok v → Forall counters_ok us → us ≠ [] →
  ∃ w, foldM max_map v us = Ok w ∧ counters_ok w ∧ dict_sorted w = w
       ∧ ∀ k, dict_get k w = max_all k (v :: us).
Proof.
  revert v. induction us as [|u us IH]; intros v Hv Hus Hne; [done|].
  apply Forall_cons in Hus as [Hu Hus].
  destruct (max_map_spec v u Hv Hu) as (w & Hw & Hok & Hs & Hget).
  cbn [foldM]. rewrite Hw; simpl.
  destruct us as [|u' us].
  - exists w. split_and!; [done..|]. intros k. rewrite Hget; simpl. by rewrite opt_max_None_r.
  - destruct (IH w Hok Hus) as (x & Hx & Hxok & Hxs & Hxget); [done|].
    exists x. split_and!; [done..|]. intros k. rewrite Hxget; simpl. rewrite Hget.
    by rewrite !opt_max_assoc.
Qed.

#[export] Instance max_map_reducer : Reducer (list (string * Z)) max_map.
Proof.
  refine (Build_Reducer _ _ counters_ok eq _ _ _).
  - intros v u w Hv Hu Hw. destruct (max_map_spec v u Hv Hu) as (w' & ? & ? & _). congruence.
  - intros us us' v Hv Hus Hp Hne.
    assert (us' ≠ []) by (intros ->; by apply Permutation_nil_r in Hp).
    assert (Forall counters_ok us') by (by rewrite <-Hp).
    destruct (max_map_all us v) as (w & -> & [Hok _] & Hs & Hget); [done..|].
    destruct (max_map_all us' v) as (w' & -> & [Hok' _] & Hs' & Hget'); [done..|].
    rewrite <-Hs, <-Hs'. apply dict_sorted_ext; [done..|]. intros k.
    rewrite Hget, Hget'. apply max_all_perm. by rewrite Hp.
  - intros v u w Hv Hu Hw. destruct (max_map_spec v u Hv Hu) as (w1 & Hw1 & Hok & Hs & Hget).
    rewrite Hw in Hw1; injection Hw1 as <-. destruct (max_map_spec w u Hok Hu) as (w2 & Hw2 & [Hok2 _] & Hs2 & Hget2).
    exists w2. split; [done|]. rewrite <-Hs, <-Hs2. destruct Hok.
    apply dict_sorted_ext; [done..|]. intros k. by rewrite Hget2, Hget, opt_max_idem.
Defined.

(** Counters are monotone: merging an update into the counters channel never
removes or lowers a visit, retry or iteration counter. *)
Lemma max_map_grows left right w k v :
  counters_ok left → counters_ok right → max_map left right = Ok w →
  dict_get k left = Some v → ∃ v', dict_get k w = Some v' ∧ v ≤ v'.
Proof.
  intros Hl Hr Hw Hk. destruct (max_map_spec left right Hl Hr) as (w' & Hw' & _ & _ & Hget).
  rewrite Hw in Hw'; injection Hw' as <-. rewrite Hget, Hk. destruct (dict_get k right); simpl; eexists; split; eauto; lia.
Qed.
