(* ===== verification/Graph.v ===== *)
(** * Graph routines of the workflow validator

[_adjacency], [_reachable] and [_acyclic_nodes] of
[orchestrator/app/jarvis_orchestrator/workflows/validation.py], with their
specifications: [_reachable] is exact reachability that does not enter [stop],
and [_acyclic_nodes] visits a node exactly when no cycle leads to it and bounds
the length of every path between visited nodes by the depth it returns.

Python sets of strings iterate in an order that changes from process to process;
a function that iterates over a set takes the set as a list, and its
specification holds for every order of it. *)
From S2P Require Import Prelude Enums PyJson Verification Registry WorkflowSpec.
Local Open Scope Z_scope.
Local Open Scope stdpp_scope.

Notation adjacency := (list (string * list string)) (only parsing).

(** [result.setdefault(edge.source, []).append(edge.target)] *)
Definition add_target (result : adjacency) (e : string * string) : adjacency :=
  dict_set e.1 (default [] (dict_get e.1 result) ++ [e.2]) result.

Definition adjacency_of (pairs : list (string * string)) : adjacency :=
  foldl add_target [] pairs.

Definition edge_pair (e : WorkflowEdge.t) : string * string :=
  (WorkflowEdge.source e, WorkflowEdge.target e).

Definition _adjacency (edges : list WorkflowEdge.t) : adjacency :=
  adjacency_of (edge_pair <$> edges).

(** [adjacency.get(node, ())] *)
Definition targets (adj : adjacency) (x : string) : list string :=
  default [] (dict_get x adj).

(** [_reachable]; the fuel covers every push on [pending] (see
[_reachable_spec]). *)
Definition reach_fuel (adj : adjacency) : nat := S (length (concat adj.*2)).

Definition _reachable (start : string) (adj : adjacency) (stop : option string)
    : list string :=
  match worklist (E:=Empty_set) (λ x, bool_decide (Some x = stop)) (λ _ _, Ok tt)
          (targets adj) (reach_fuel adj) [start] [] tt with
  | Some (Ok (seen, _)) => seen
  | _ => []
  end.

(** ** [_acyclic_nodes] *)

Record kahn_state := {
  k_pending : list (string * Z);
  k_visited : list string;
  k_indegree : gmap string Z;
  k_distances : gmap string Z;
  k_depth : Z;
}.

(** [indegree[x]]: a [Counter] reads 0 for a missing key. *)
Definition counter (m : gmap string Z) (x : string) : Z := default 0 (m !! x).

(** [Counter(xs)] *)
Definition Counter (xs : list string) : gmap string Z :=
  foldl (λ m x, <[x := counter m x + 1]> m) ∅ xs.

(** The body of [for target in adjacency.get(node, ())]. *)
Definition relax (level : Z) (st : kahn_state) (target : string) : kahn_state :=
  let ind := counter (k_indegree st) target - 1 in
  let dist := Z.max (default 1 (k_distances st !! target)) (level + 1) in
  {| k_pending := if Z.eqb ind 0 then k_pending st ++ [(target, dist)] else k_pending st;
     k_visited := k_visited st;
     k_indegree := <[target := ind]> (k_indegree st);
     k_distances := <[target := dist]> (k_distances st);
     k_depth := k_depth st |}.

(** [visited.add(node); depth = max(depth, level)] *)
Definition pop (st : kahn_state) (node : string) (level : Z) (pending : list (string * Z))
    : kahn_state :=
  {| k_pending := pending;
     k_visited := node :: k_visited st;
     k_indegree := k_indegree st;
     k_distances := k_distances st;
     k_depth := Z.max (k_depth st) level |}.

Fixpoint kahn (adj : adjacency) (fuel : nat) (st : kahn_state) : option kahn_state :=
  match k_pending st with
  | [] => Some st
  | (node, level) :: pending =>
      match fuel with
      | O => None
      | S fuel' =>
          kahn adj fuel' (foldl (relax level) (pop st node level pending) (targets adj node))
      end
  end.

Definition kahn_init (nodes : list string) (adj : adjacency) : kahn_state :=
  let indegree := Counter (concat adj.*2) in
  {| k_pending := (λ x, (x, 1)) <$> filter (λ x, counter indegree x = 0) nodes;
     k_visited := []; k_indegree := indegree; k_distances := ∅; k_depth := 0 |}.

(** Every node is popped at most once, so [length nodes] iterations suffice. *)
Definition acyclic_pairs (nodes : list string) (pairs : list (string * string))
    : list string * Z :=
  let adj := adjacency_of pairs in
  match kahn adj (length nodes) (kahn_init nodes adj) with
  | Some st => (k_visited st, k_depth st)
  | None => ([], 0)
  end.

Definition _acyclic_nodes (nodes : list string) (edges : list WorkflowEdge.t)
    : list string * Z :=
  acyclic_pairs nodes (edge_pair <$> edges).

(** ** Adjacency lemmas *)

Lemma adjacency_of_snoc pairs e :
  adjacency_of (pairs ++ [e]) = add_target (adjacency_of pairs) e.
Proof. unfold adjacency_of. by rewrite foldl_snoc. Qed.

Lemma targets_adjacency pairs x :
  targets (adjacency_of pairs) x = (filter (λ e, e.1 = x) pairs).*2.
Proof.
  induction pairs as [|[s t] pairs IH] using rev_ind; [done|].
  rewrite adjacency_of_snoc, filter_app, fmap_app, <-IH.
  unfold targets, add_target; simpl. rewrite dict_get_set, filter_cons; simpl.
  repeat case_decide; subst; simpl; rewrite ?app_nil_r; done.
Qed.

Lemma elem_of_targets pairs x y : y ∈ targets (adjacency_of pairs) x ↔ (x, y) ∈ pairs.
Proof.
  rewrite targets_adjacency, list_elem_of_fmap. setoid_rewrite list_elem_of_filter.
  split; [intros ([s t] & -> & <- & ?); done|intros; by exists (x, y)].
Qed.

Lemma dict_ok_adjacency pairs : dict_ok (adjacency_of pairs).
Proof.
  induction pairs as [|e pairs IH] using rev_ind; [constructor|].
  rewrite adjacency_of_snoc. by apply dict_ok_set.
Qed.

Lemma elem_of_adjacency edges x y :
  y ∈ targets (_adjacency edges) x
  ↔ ∃ e, e ∈ edges ∧ WorkflowEdge.source e = x ∧ WorkflowEdge.target e = y.
Proof.
  unfold _adjacency. rewrite elem_of_targets, list_elem_of_fmap.
  unfold edge_pair. naive_solver.
Qed.

(** ** Reachability *)

Definition adj_step (adj : adjacency) (stop : option string) (x y : string) : Prop :=
  y ∈ targets adj x ∧ Some y ≠ stop.

(** [y] can be reached from [x] without entering [stop]. *)
Definition reaches (adj : adjacency) (stop : option string) (x y : string) : Prop :=
  Some x ≠ stop ∧ rtc (adj_step adj stop) x y.

Lemma sum_targets (adj : adjacency) U :
  NoDup U → dict_ok adj →
  (sum_list_with (λ x, length (targets adj x)) U ≤ length (concat adj.*2))%nat.
Proof.
  unfold dict_ok. revert U; induction adj as [|[k ts] adj IH]; intros U HU; csimpl.
  - intros _. induction U as [|x U IHU]; simpl; [lia|]. apply IHU. by inversion HU.
  - intros [Hk Hadj]%NoDup_cons. rewrite length_app.
    assert (∀ V, k ∉ V → sum_list_with (λ x, length (targets ((k, ts) :: adj) x)) V
            = sum_list_with (λ x, length (targets adj x)) V) as Heq.
    { induction V as [|x V IHV]; intros HV; simpl; [done|].
      apply not_elem_of_cons in HV as [? ?]. rewrite IHV by done. unfold targets; simpl.
      by rewrite bool_decide_false by congruence. }
    destruct (decide (k ∈ U)) as [HkU|HkU].
    + apply list_elem_of_split in HkU as (U1 & U2 & ->).
      assert (NoDup (k :: U1 ++ U2)) as HU'
        by (eapply NoDup_Permutation_proper; [|exact HU]; by rewrite Permutation_middle).
      apply NoDup_cons in HU' as [HkU HU'].
      rewrite sum_list_with_app; simpl. unfold targets at 2; simpl.
      rewrite bool_decide_true by done; simpl. specialize (IH _ HU' Hadj).
      rewrite <-Heq in IH by done. rewrite sum_list_with_app in IH. lia.
    + rewrite Heq by done. specialize (IH U HU Hadj). lia.
Qed.

(** Reachability of the loop's relation and of the graph agree. *)
Lemma wreach_reaches adj stop x y :
  wreach (λ x, bool_decide (Some x = stop)) (targets adj) [x] y ↔ reaches adj stop x y.
Proof.
  unfold wreach, reaches. setoid_rewrite list_elem_of_singleton.
  assert (∀ a b, rtc (wstep (λ x, bool_decide (Some x = stop)) (targets adj)) a b
                 ↔ rtc (adj_step adj stop) a b) as Hrtc.
  { intros a b. unfold wstep, adj_step.
    split; (induction 1; [apply rtc_refl|eapply rtc_l; [|done]]);
      rewrite bool_decide_eq_false in *; done. }
  setoid_rewrite Hrtc. setoid_rewrite bool_decide_eq_false. naive_solver.
Qed.

(** The loop terminates within the fuel, having visited each reachable node
once. *)
Lemma _reachable_run start adj stop :
  dict_ok adj →
  NoDup (_reachable start adj stop)
  ∧ ∀ y, y ∈ _reachable start adj stop ↔ reaches adj stop start y.
Proof.
  intros Hadj. unfold _reachable.
  destruct (worklist_spec (E:=Empty_set) (λ x, bool_decide (Some x = stop)) (λ _ _, Ok tt)
    (targets adj) [start] (remove_dups (start :: concat adj.*2)) tt (reach_fuel adj))
    as (r & -> & Hr).
  - apply NoDup_remove_dups.
  - intros x ->%list_elem_of_singleton. rewrite elem_of_remove_dups. by left.
  - intros x z _ Hz. unfold targets in Hz. destruct (dict_get x adj) as [ts|] eqn:Hx;
      simpl in Hz; [|by apply elem_of_nil in Hz]. apply dict_get_elem in Hx.
    rewrite elem_of_remove_dups. apply elem_of_cons; right.
    apply list_elem_of_In, in_concat. exists ts.
    rewrite <-!list_elem_of_In. split; [|done]. apply list_elem_of_fmap. by exists (x, ts).
  - unfold reach_fuel. apply le_n_S. by apply sum_targets; [apply NoDup_remove_dups|].
  - destruct r as [[seen []]|[]]. destruct Hr as (Hnd & Hs & _). split; [done|].
    intros y. rewrite Hs. apply wreach_reaches.
Qed.

(** [_reachable] is exact reachability, for every graph. *)
Lemma _reachable_spec start adj stop y :
  dict_ok adj → y ∈ _reachable start adj stop ↔ reaches adj stop start y.
Proof. intros Hadj. by apply _reachable_run. Qed.

Lemma _reachable_NoDup start adj stop : dict_ok adj → NoDup (_reachable start adj stop).
Proof. intros Hadj. by apply _reachable_run. Qed.

(** ** Topological levels *)

Lemma counter_insert m x y v :
  counter (<[x := v]> m) y = if decide (x = y) then v else counter m y.
Proof.
  unfold counter. case_decide; [subst; by rewrite lookup_insert_eq|by rewrite lookup_insert_ne].
Qed.

Definition occurrences (x : string) (l : list string) : Z :=
  Z.of_nat (length (filter (eq x) l)).

Lemma occurrences_cons x y l :
  occurrences x (y :: l) = (if decide (x = y) then 1 else 0) + occurrences x l.
Proof. unfold occurrences. rewrite filter_cons. case_decide; simpl; lia. Qed.

Lemma occurrences_app x l r : occurrences x (l ++ r) = occurrences x l + occurrences x r.
Proof. unfold occurrences. rewrite filter_app, length_app. lia. Qed.

Lemma occurrences_nonneg x l : 0 ≤ occurrences x l.
Proof. unfold occurrences. lia. Qed.

Lemma occurrences_pos x l : 0 < occurrences x l ↔ x ∈ l.
Proof.
  induction l as [|y l IH]; [split; [done|set_solver]|].
  rewrite occurrences_cons, elem_of_cons. pose proof (occurrences_nonneg x l).
  case_decide; [split; [by left|lia]|]. rewrite Z.add_0_l, IH. naive_solver.
Qed.

Lemma occurrences_perm x l r : l ≡ₚ r → occurrences x l = occurrences x r.
Proof. unfold occurrences. by intros ->. Qed.

Lemma counter_Counter l x : counter (Counter l) x = occurrences x l.
Proof.
  unfold Counter. induction l as [|y l IH] using rev_ind; [done|].
  rewrite foldl_snoc, counter_insert, occurrences_app, occurrences_cons.
  change (occurrences x []) with 0. rewrite Z.add_0_r.
  repeat case_decide; subst; try congruence; rewrite IH; lia.
Qed.

Lemma concat_adjacency pairs : concat (adjacency_of pairs).*2 ≡ₚ pairs.*2.
Proof.
  induction pairs as [|[s t] pairs IH] using rev_ind; [done|].
  rewrite adjacency_of_snoc, fmap_app, <-IH; clear IH. unfold add_target; csimpl.
  set (d := adjacency_of pairs).
  assert (∀ s l, concat (dict_set s (default [] (dict_get s d) ++ l) d).*2
                 ≡ₚ concat d.*2 ++ l) as Hset; [|by apply Hset].
  clear. intros s l. induction d as [|[k ts] d IH]; csimpl; [by rewrite app_nil_r|].
  case_bool_decide; csimpl; [subst; solve_Permutation|]. rewrite IH. by rewrite app_assoc.
Qed.

Section kahn.
Variables (pairs : list (string * string)) (nodes : list string).
Hypothesis nodes_NoDup : NoDup nodes.
Hypothesis targets_nodes : ∀ x y, (x, y) ∈ pairs → y ∈ nodes.

(** Targets of the edges whose source is not in [visited]. *)
Definition waiting (visited : list string) : list string :=
  (filter (λ e, e.1 ∉ visited) pairs).*2.

Lemma elem_of_waiting visited y :
  y ∈ waiting visited ↔ ∃ x, (x, y) ∈ pairs ∧ x ∉ visited.
Proof.
  unfold waiting. rewrite list_elem_of_fmap. setoid_rewrite list_elem_of_filter.
  split; [intros ([x z] & -> & ? & ?); eauto|intros (x & ? & ?); by exists (x, y)].
Qed.

Lemma waiting_pop visited v x :
  v ∉ visited →
  occurrences x (waiting visited)
  = occurrences x (waiting (v :: visited)) + occurrences x (targets (adjacency_of pairs) v).
Proof.
  intros Hv. rewrite targets_adjacency. unfold waiting. clear targets_nodes.
  induction pairs as [|[s t] ps IH]; [done|].
  rewrite !filter_cons; simpl.
  destruct (decide (s = v)) as [->|Hsv].
  - rewrite (decide_True (P:=v ∉ visited)), (decide_False (P:=v ∉ v :: visited)) by set_solver.
    csimpl. rewrite !occurrences_cons, IH. lia.
  - destruct (decide (s ∈ visited)) as [Hs|Hs].
    + rewrite !(decide_False (P:=s ∉ _)) by set_solver. done.
    + rewrite !(decide_True (P:=s ∉ _)) by set_solver. csimpl.
      rewrite !occurrences_cons, IH. lia.
Qed.

(** The state between two iterations of the inner loop: [cur] is the popped
node, [rest] its targets still to process, [f] the level of each visited
node. *)
Record kinv (st : kahn_state) (cur : string) (rest : list string) (f : string → Z) : Prop := {
  ki_indegree : ∀ x, counter (k_indegree st) x
                     = occurrences x (waiting (k_visited st)) + occurrences x rest;
  ki_nodup : NoDup (k_visited st ++ (k_pending st).*1);
  ki_nodes : ∀ x, x ∈ k_visited st ++ (k_pending st).*1 → x ∈ nodes;
  ki_zero : ∀ x, x ∈ nodes →
    x ∈ k_visited st ++ (k_pending st).*1 ↔ counter (k_indegree st) x = 0;
  ki_rest : ∀ y, y ∈ rest → (cur, y) ∈ pairs;
  ki_level : ∀ x y, (x, y) ∈ pairs → x ∈ k_visited st →
    (x = cur ∧ y ∈ rest) ∨ f x < default 1 (k_distances st !! y);
  ki_dist : ∀ x, 1 ≤ default 1 (k_distances st !! x);
  ki_pending : ∀ x l, (x, l) ∈ k_pending st → l = default 1 (k_distances st !! x);
  ki_visited : ∀ x y, (x, y) ∈ pairs → y ∈ k_visited st → x ∈ k_visited st ∧ f x < f y;
  ki_depth : ∀ x, x ∈ k_visited st → 1 ≤ f x ≤ k_depth st;
}.

Lemma kinv_init cur :
  kinv (kahn_init nodes (adjacency_of pairs)) cur [] (λ _, 0).
Proof.
  assert (∀ x, counter (Counter (concat (adjacency_of pairs).*2)) x
               = occurrences x (waiting [])) as Hind.
  { intros x. rewrite counter_Counter. unfold waiting.
    rewrite (occurrences_perm x _ pairs.*2) by apply concat_adjacency.
    f_equal. f_equal. clear. induction pairs as [|e ps IH]; [done|].
    rewrite filter_cons, decide_True by set_solver. congruence. }
  assert (((λ x : string, (x, 1)) <$>
     filter (λ x, counter (Counter (concat (adjacency_of pairs).*2)) x = 0) nodes).*1
     = filter (λ x, counter (Counter (concat (adjacency_of pairs).*2)) x = 0) nodes) as Hfst.
  { rewrite <-list_fmap_compose. by rewrite list_fmap_id. }
  unfold kahn_init. split; simpl; rewrite ?Hfst.
  - intros x. rewrite Hind. unfold occurrences at 3; simpl. lia.
  - by apply NoDup_filter.
  - intros x. rewrite list_elem_of_filter. tauto.
  - intros x Hx. rewrite list_elem_of_filter. tauto.
  - set_solver.
  - set_solver.
  - intros x. by rewrite lookup_empty.
  - intros x l. rewrite list_elem_of_fmap. intros (? & [= -> ->] & _). by rewrite lookup_empty.
  - set_solver.
  - set_solver.
Qed.

Lemma kinv_pop st cur f v l pending :
  kinv st cur [] f → k_pending st = (v, l) :: pending →
  kinv (pop st v l pending) v (targets (adjacency_of pairs) v)
    (λ x, if decide (x = v) then l else f x).
Proof.
  intros [Hind Hnd Hn Hz _ Hl Hd Hp Hv Hdep] Heq. rewrite Heq in *. csimpl in *.
  assert (v ∉ k_visited st) as Hvv.
  { intros Hin. apply NoDup_app in Hnd as (_ & Hdis & _). apply (Hdis v); set_solver. }
  assert (k_visited st ++ v :: pending.*1 ≡ₚ v :: k_visited st ++ pending.*1) as Hperm
    by (by rewrite Permutation_middle).
  assert (counter (k_indegree st) v = 0) as Hv0 by (apply Hz; [apply Hn|]; set_solver).
  assert (∀ x, (x, v) ∈ pairs → x ∈ k_visited st) as Hpred.
  { intros x Hx. destruct (decide (x ∈ k_visited st)) as [|Hxn]; [done|].
    rewrite Hind in Hv0. change (occurrences v []) with 0 in Hv0.
    assert (0 < occurrences v (waiting (k_visited st))); [|lia].
    apply occurrences_pos, elem_of_waiting. eauto. }
  pose proof (Hp v l ltac:(set_solver)) as Hlv.
  split; simpl.
  - intros x. rewrite Hind, (waiting_pop _ v) by done. change (occurrences x []) with 0. lia.
  - by rewrite <-Hperm.
  - intros x Hx. apply Hn. by rewrite Hperm.
  - intros x Hx. rewrite <-(Hz x Hx). by rewrite Hperm.
  - intros y. by rewrite elem_of_targets.
  - intros x y Hxy Hx. rewrite elem_of_targets. case_decide as Hxv; [subst; by left|].
    right. destruct (Hl x y Hxy) as [[_ ?%elem_of_nil]|?]; set_solver.
  - done.
  - intros; apply Hp. by right.
  - intros x y Hxy Hy. destruct (decide (y = v)) as [->|Hyv].
    + specialize (Hpred x Hxy). split; [by right|].
      destruct (decide (x = v)); [subst; done|].
      destruct (Hl x v Hxy Hpred) as [[_ ?%elem_of_nil]|?]; [done|]. lia.
    + apply elem_of_cons in Hy as [?|Hy]; [done|]. destruct (Hv x y Hxy Hy) as [Hx Hf].
      split; [by right|]. destruct (decide (x = v)); [subst; done|done].
  - intros x Hx. destruct (decide (x = v)) as [->|Hxv].
    + specialize (Hd v). lia.
    + apply elem_of_cons in Hx as [?|Hx]; [done|]. specialize (Hdep x Hx). lia.
Qed.

Lemma kinv_relax st cur f t rest :
  kinv st cur (t :: rest) f → cur ∈ k_visited st →
  kinv (relax (f cur) st t) cur rest f.
Proof.
  intros [Hind Hnd Hn Hz Hr Hl Hd Hp Hv Hdep] Hcur.
  assert (t ∈ nodes) as Ht by (eapply targets_nodes, (Hr t); set_solver).
  assert (0 < counter (k_indegree st) t) as Hpos.
  { rewrite Hind, occurrences_cons, decide_True by done.
    pose proof (occurrences_nonneg t (waiting (k_visited st))).
    pose proof (occurrences_nonneg t rest). lia. }
  assert (t ∉ k_visited st ++ (k_pending st).*1) as Hnew.
  { intros Hin. apply Hz in Hin; [lia|done]. }
  assert (∀ x, x ∈ k_visited st ++ (k_pending (relax (f cur) st t)).*1
     ↔ x ∈ k_visited st ++ (k_pending st).*1 ∨ (x = t ∧ counter (k_indegree st) t = 1)) as Hmem.
  { intros x. simpl. destruct (Z.eqb_spec (counter (k_indegree st) t - 1) 0);
      rewrite ?fmap_app; csimpl; rewrite ?elem_of_app, ?list_elem_of_singleton;
      intuition (try lia). }
  split; cbn [k_visited k_indegree k_distances k_depth relax].
  - intros x. rewrite counter_insert. specialize (Hind x). rewrite occurrences_cons in Hind.
    destruct (decide (t = x)) as [<-|Htx]; [rewrite decide_True in Hind by done; lia|].
    rewrite decide_False in Hind by congruence. lia.
  - simpl. destruct (Z.eqb _ 0); [|done]. rewrite fmap_app; csimpl. rewrite app_assoc.
    apply NoDup_app; split_and!; [done| |apply NoDup_singleton].
    intros x Hx ->%list_elem_of_singleton. done.
  - intros x. rewrite Hmem. intros [?|[-> _]]; auto.
  - intros x Hx. rewrite Hmem, counter_insert. case_decide as Htx.
    + subst x. split; [intros [?|?]; [done|lia]|intros; right; split; [done|lia]].
    + rewrite <-Hz by done. naive_solver.
  - set_solver.
  - intros x y Hxy Hx. destruct (decide (t = y)) as [<-|Hty].
    + rewrite lookup_insert_eq; simpl.
      destruct (Hl x t Hxy Hx) as [[-> _]|?]; [right|right]; lia.
    + rewrite lookup_insert_ne by done. destruct (Hl x y Hxy Hx) as [[-> Hin]|?]; [|by right].
      left. set_solver.
  - intros x. destruct (decide (t = x)) as [<-|Htx].
    + rewrite lookup_insert_eq; simpl. specialize (Hd t). lia.
    + by rewrite lookup_insert_ne.
  - intros x l Hin. assert (x = t ∧ l = Z.max (default 1 (k_distances st !! t)) (f cur + 1)
      ∨ (x, l) ∈ k_pending st) as [[-> ->]|Hold].
    { simpl in Hin. destruct (Z.eqb _ 0); [|by right].
      apply elem_of_app in Hin as [?|[= -> ->]%list_elem_of_singleton]; auto. }
    + by rewrite lookup_insert_eq.
    + rewrite lookup_insert_ne; [by apply Hp|]. intros <-. apply Hnew, elem_of_app. right.
      apply list_elem_of_fmap. by exists (t, l).
  - done.
  - done.
Qed.

Lemma kinv_targets cur f rest st :
  kinv st cur rest f → cur ∈ k_visited st → kinv (foldl (relax (f cur)) st rest) cur [] f.
Proof.
  revert st; induction rest as [|t rest IH]; intros st Hinv Hcur; simpl; [done|].
  apply IH; [by apply kinv_relax|done].
Qed.

Lemma relax_visited level rest st : k_visited (foldl (relax level) st rest) = k_visited st.
Proof. revert st; induction rest as [|t rest IH]; intros st; simpl; [done|]. by rewrite IH. Qed.

Lemma kahn_terminates fuel st cur f :
  kinv st cur [] f → (length nodes ≤ fuel + length (k_visited st))%nat →
  ∃ st' cur' f', kahn (adjacency_of pairs) fuel st = Some st'
    ∧ kinv st' cur' [] f' ∧ k_pending st' = [].
Proof.
  revert st cur f; induction fuel as [|fuel IH]; intros st cur f Hinv Hfuel; simpl;
    destruct (k_pending st) as [|[v l] pending] eqn:Hp; [by eauto 7| |by eauto 7|].
  - exfalso. destruct Hinv as [_ Hnd Hn _ _ _ _ _ _ _]. rewrite Hp in *.
    assert (k_visited st ++ v :: pending.*1 ⊆+ nodes) as Hsub
      by (apply NoDup_submseteq; [done|exact Hn]).
    apply submseteq_length in Hsub. rewrite length_app in Hsub; simpl in Hsub. lia.
  - pose proof (kinv_pop _ _ _ _ _ _ Hinv Hp) as Hpop.
    apply kinv_targets in Hpop; [|by left]. rewrite decide_True in Hpop by done.
    eapply IH; [exact Hpop|]. rewrite relax_visited; simpl. lia.
Qed.

Definition edge_step (x y : string) : Prop := (x, y) ∈ pairs.

(** [x] lies on a cycle or behind one. *)
Definition behind_cycle (x : string) : Prop := ∃ c, tc edge_step c c ∧ rtc edge_step c x.

(** Every distance is the number of nodes of a path, and so is the depth. *)
Definition attained (l : Z) : Prop := ∃ n x y, nsteps edge_step n x y ∧ l = Z.of_nat n + 1.
Definition attained_at (x : string) (l : Z) : Prop :=
  ∃ n y, nsteps edge_step n y x ∧ l = Z.of_nat n + 1.
Record traced (st : kahn_state) : Prop := {
  tr_pending : ∀ x l, (x, l) ∈ k_pending st → attained_at x l;
  tr_distance : ∀ x l, k_distances st !! x = Some l → attained_at x l;
  tr_depth : k_depth st = 0 ∨ attained (k_depth st);
}.

Lemma attained_one x : attained_at x 1.
Proof. exists 0%nat, x. split; [constructor|done]. Qed.

Lemma traced_init : traced (kahn_init nodes (adjacency_of pairs)).
Proof.
  split; simpl; [|by intros x l; rewrite lookup_empty|by left].
  intros x l (y & [= -> ->] & _)%list_elem_of_fmap. apply attained_one.
Qed.

Lemma traced_relax v l t st :
  (v, t) ∈ pairs → attained_at v l → traced st → traced (relax l st t).
Proof.
  intros Hvt (n & u & Hn & Hl) [Hp Hd Hdep].
  assert (attained_at t (Z.max (default 1 (k_distances st !! t)) (l + 1))) as Hnew.
  { destruct (Z.max_spec (default 1 (k_distances st !! t)) (l + 1)) as [[_ ->]|[_ ->]].
    - exists (S n), u. split; [by eapply nsteps_r|lia].
    - destruct (k_distances st !! t) as [m|] eqn:Hm; [by apply Hd|apply attained_one]. }
  split; simpl; [| |done].
  - intros x m. destruct (Z.eqb _ 0); [|apply Hp].
    rewrite elem_of_app, list_elem_of_singleton. intros [?|[= -> ->]]; [by apply Hp|done].
  - intros x m [[<- <-]|[_ ?]]%lookup_insert_Some; [done|by apply Hd].
Qed.

Lemma traced_targets v l ts st :
  (∀ t, t ∈ ts → (v, t) ∈ pairs) → attained_at v l → traced st → traced (foldl (relax l) st ts).
Proof.
  intros Hts Hl. revert st. induction ts as [|t ts IH]; intros st Hst; simpl; [done|].
  apply IH; [intros ? ?; apply Hts; by right|]. eapply traced_relax; [apply Hts; by left|done..].
Qed.

Lemma kahn_traced fuel st st' :
  kahn (adjacency_of pairs) fuel st = Some st' → traced st → traced st'.
Proof.
  revert st; induction fuel as [|fuel IH]; intros st; simpl;
    destruct (k_pending st) as [|[v l] pending] eqn:Hp; try (by intros [= <-]).
  intros Hk [Htp Htd Hdep]. assert (attained_at v l) as Hv by (apply Htp; rewrite Hp; by left).
  apply (IH _ Hk), (traced_targets v); [intros t; by rewrite elem_of_targets|done|].
  split; simpl; [intros x m Hx; apply Htp; rewrite Hp; by right|done|].
  destruct (Z.max_spec (k_depth st) l) as [[_ ->]|[_ ->]]; [|done].
  right. destruct Hv as (n & y & Hn & Hl). by exists n, y, v.
Qed.

Section result.
Hypothesis sources_nodes : ∀ x y, (x, y) ∈ pairs → x ∈ nodes.
Variables (st : kahn_state) (cur : string) (f : string → Z).
Hypotheses (Hinv : kinv st cur [] f) (Hdone : k_pending st = []).

Lemma visited_pred x y : edge_step x y → y ∈ k_visited st → x ∈ k_visited st ∧ f x < f y.
Proof. apply (ki_visited _ _ _ _ Hinv). Qed.

Lemma visited_steps n x y :
  nsteps edge_step n x y → y ∈ k_visited st → x ∈ k_visited st ∧ f x + Z.of_nat n ≤ f y.
Proof.
  intros Hn. revert n x y Hn. induction n as [|n IH]; intros x y Hn Hy.
  - inversion Hn; subst. split; [done|lia].
  - apply nsteps_inv_r in Hn as (z & Hxz & Hzy).
    destruct (visited_pred _ _ Hzy Hy) as [Hz ?]. destruct (IH _ _ Hxz Hz). split; [done|lia].
Qed.

Lemma visited_not_behind x : x ∈ k_visited st → ¬ behind_cycle x.
Proof.
  intros Hx (c & Hc & Hcx). apply rtc_nsteps in Hcx as [n Hn].
  destruct (visited_steps _ _ _ Hn Hx) as [Hcv _].
  apply tc_nsteps in Hc as (m & Hm & Hcc).
  destruct (visited_steps _ _ _ Hcc Hcv). lia.
Qed.

Lemma unvisited_pred x :
  x ∈ nodes → x ∉ k_visited st → ∃ u, edge_step u x ∧ u ∈ nodes ∧ u ∉ k_visited st.
Proof.
  intros Hx Hxv. pose proof (ki_indegree _ _ _ _ Hinv x) as Hind.
  pose proof (ki_zero _ _ _ _ Hinv x Hx) as Hz. rewrite Hdone in Hz; simpl in Hz.
  rewrite app_nil_r in Hz. change (occurrences x []) with 0 in Hind.
  pose proof (occurrences_nonneg x (waiting (k_visited st))).
  assert (x ∈ waiting (k_visited st)) as Hw.
  { apply occurrences_pos. destruct (decide (occurrences x (waiting (k_visited st)) = 0)) as [H0|];
      [|lia]. destruct Hxv. apply Hz. lia. }
  apply elem_of_waiting in Hw as (u & Hu & Huv). exists u. split_and!; [done|eauto|done].
Qed.

(** A chain of unvisited predecessors can be made as long as one likes while no
cycle is behind it. *)
Lemma unvisited_chain x n :
  x ∈ nodes → x ∉ k_visited st → ¬ behind_cycle x →
  ∃ u l, length l = n ∧ NoDup (u :: l) ∧ (∀ y, y ∈ u :: l → y ∈ nodes ∧ y ∉ k_visited st)
    ∧ (∀ y, y ∈ l → tc edge_step u y) ∧ rtc edge_step u x.
Proof.
  intros Hx Hxv Hb. induction n as [|n (u & l & Hlen & Hnd & Hall & Htc & Hrtc)].
  - exists x, []. split_and!; [done|apply NoDup_singleton| | |apply rtc_refl]; set_solver.
  - destruct (Hall u ltac:(set_solver)) as [Hu Huv].
    destruct (unvisited_pred u Hu Huv) as (w & Hwu & Hw & Hwv).
    assert (∀ y, y ∈ u :: l → tc edge_step w y) as Hwtc.
    { intros y [->|Hy]%elem_of_cons; [by apply tc_once|]. eapply tc_l; [done|auto]. }
    exists w, (u :: l). split_and!; [simpl; lia| | |done|by eapply rtc_l].
    + constructor; [|done]. intros Hin. destruct Hb. exists w. split; [by apply Hwtc|].
      by eapply rtc_l.
    + intros y [->|Hy]%elem_of_cons; [done|by apply Hall].
Qed.

Lemma unvisited_behind x : x ∈ nodes → x ∉ k_visited st → ¬ ¬ behind_cycle x.
Proof.
  intros Hx Hxv Hb. destruct (unvisited_chain x (length nodes) Hx Hxv Hb)
    as (u & l & Hlen & Hnd & Hall & _).
  assert (u :: l ⊆+ nodes) as Hsub by (apply NoDup_submseteq; [done|]; intros; by apply Hall).
  apply submseteq_length in Hsub; simpl in Hsub. lia.
Qed.
End result.
End kahn.

(** [_acyclic_nodes] terminates; it visits exactly the nodes that no cycle leads
to, and no path that ends in a visited node has more than [depth] nodes. *)
Lemma acyclic_pairs_spec nodes pairs :
  NoDup nodes → (∀ x y, (x, y) ∈ pairs → x ∈ nodes ∧ y ∈ nodes) →
  let r := acyclic_pairs nodes pairs in
  NoDup r.1 ∧ (∀ x, x ∈ r.1 → x ∈ nodes)
  ∧ (∀ x, x ∈ nodes → x ∈ r.1 ↔ ¬ behind_cycle pairs x)
  ∧ (∀ n x y, nsteps (edge_step pairs) n x y → y ∈ r.1 → Z.of_nat n + 1 ≤ r.2).
Proof.
  intros Hnd Hpairs. unfold acyclic_pairs.
  destruct (kahn_terminates pairs nodes Hnd ltac:(naive_solver) (length nodes)
    (kahn_init nodes (adjacency_of pairs)) "" (λ _, 0)) as (st & cur & f & -> & Hinv & Hdone).
  { apply kinv_init; [done|naive_solver]. }
  { simpl; lia. }
  simpl. pose proof (ki_nodup _ _ _ _ _ _ Hinv) as Hvnd.
  pose proof (ki_nodes _ _ _ _ _ _ Hinv) as Hvn. rewrite Hdone in *; simpl in *.
  rewrite app_nil_r in *. split_and!; [done|done| |].
  - intros x Hx. split; [by eapply visited_not_behind|]. intros Hb.
    destruct (decide (x ∈ k_visited st)) as [|Hxv]; [done|]. exfalso.
    refine (unvisited_behind pairs nodes Hnd _ _ st cur f Hinv Hdone x Hx Hxv Hb);
      intros; naive_solver.
  - intros n x y Hn Hy. destruct (visited_steps _ _ _ _ _ Hinv _ _ _ Hn Hy) as [Hx ?].
    pose proof (ki_depth _ _ _ _ _ _ Hinv x Hx). pose proof (ki_depth _ _ _ _ _ _ Hinv y Hy).
    lia.
Qed.

(** The depth is reached by a path. *)
Lemma acyclic_pairs_depth nodes pairs :
  (acyclic_pairs nodes pairs).2 = 0 ∨ attained pairs (acyclic_pairs nodes pairs).2.
Proof.
  unfold acyclic_pairs. destruct (kahn _ _ _) as [st|] eqn:Hk; [|by left].
  by destruct (kahn_traced pairs _ _ _ Hk (traced_init pairs nodes)).
Qed.

(** All nodes are visited exactly when the graph has no cycle. *)
Lemma acyclic_pairs_all nodes pairs :
  NoDup nodes → (∀ x y, (x, y) ∈ pairs → x ∈ nodes ∧ y ∈ nodes) →
  (∀ x, x ∈ nodes → x ∈ (acyclic_pairs nodes pairs).1)
  ↔ ∀ x, ¬ tc (edge_step pairs) x x.
Proof.
  intros Hnd Hpairs. destruct (acyclic_pairs_spec nodes pairs Hnd Hpairs) as (_ & _ & Hb & _).
  split.
  - intros Hall x Hx. assert (x ∈ nodes) as Hxn.
    { inversion Hx as [? ? He|? ? ? He]; subst; by apply Hpairs in He as [? ?]. }
    specialize (Hall x Hxn). apply (Hb x Hxn) in Hall. destruct Hall.
    exists x. split; [done|apply rtc_refl].
  - intros Hac x Hx. apply Hb; [done|]. intros (c & Hc & _). by apply (Hac c).
Qed.
