(* ===== verification/Normalize.v ===== *)
(** * Effective policies and normalization

[effective_policy] and [normalize_workflow] of
[orchestrator/app/jarvis_orchestrator/workflows/validation.py].  Checking a raw
JSON [config] against the config model of a node type is pydantic's work:
[ConfigModel] is that operation, with the documented behaviour the code relies
on (a successful validation yields a valid instance of the model, and
validating a dump gives the instance back). *)
From S2P Require Import Prelude Enums PyJson Verification Registry WorkflowSpec Predicates.
Local Open Scope Z_scope.
Local Open Scope stdpp_scope.

(** A pydantic error: its type and location, a path of field names and
indices. *)
Inductive loc_part : Type := LKey (s : string) | LIndex (n : nat).
#[export] Instance loc_part_eq_dec : EqDecision loc_part.
Proof. solve_decision. Defined.

Record error_detail := { error_type : string; error_loc : list loc_part }.
#[export] Instance error_detail_eq_dec : EqDecision error_detail.
Proof. solve_decision. Defined.

(** [".".join(map(str, loc))] *)
Definition loc_text (l : list loc_part) : string :=
  join "." ((λ p, match p with LKey s => s | LIndex n => pretty n end) <$> l).

(** [NODE_DEFINITIONS[type].config_model.model_validate(config)] *)
Class ConfigModel :=
  config_validate : WorkflowNodeType.t → jobj → res (list error_detail) NodeConfig.t.

Class ConfigModelLaws `{ConfigModel} := {
  config_validate_sound : ∀ ty j c, config_validate ty j = Ok c →
    NodeConfig.config_type c = ty ∧ NodeConfig.valid c = true;
  config_validate_dump : ∀ c, NodeConfig.valid c = true →
    config_validate (NodeConfig.config_type c) (NodeConfig.dump c) = Ok c;
}.

(** ** Node type sets *)

Definition _BOUNDED : list WorkflowEdgeKind.t :=
  [WorkflowEdgeKind.retry; WorkflowEdgeKind.iterate].
Definition _MODEL_NODES : list WorkflowNodeType.t :=
  [WorkflowNodeType.organizer; WorkflowNodeType.architect; WorkflowNodeType.reviewer].
Definition _WORKER_NODES : list WorkflowNodeType.t :=
  [WorkflowNodeType.worker; WorkflowNodeType.verify].
Definition _ACTION_TYPES (ty : WorkflowNodeType.t) : option ActionType.t :=
  match ty with
  | WorkflowNodeType.worker => Some ActionType.worker_execute
  | WorkflowNodeType.integrate => Some ActionType.git_integrate
  | WorkflowNodeType.github_publish => Some ActionType.github_push_and_pr
  | _ => None
  end.

Definition bounded (e : WorkflowEdge.t) : bool := bool_decide (WorkflowEdge.kind e ∈ _BOUNDED).
Definition model_node (ty : WorkflowNodeType.t) : bool := bool_decide (ty ∈ _MODEL_NODES).
Definition worker_node (ty : WorkflowNodeType.t) : bool := bool_decide (ty ∈ _WORKER_NODES).
(** [type in _MODEL_NODES | {WORKER}] *)
Definition routable_node (ty : WorkflowNodeType.t) : bool :=
  model_node ty || bool_decide (ty = WorkflowNodeType.worker).
Definition action_node (ty : WorkflowNodeType.t) : bool :=
  match _ACTION_TYPES ty with Some _ => true | None => false end.

(** ** [effective_policy] *)

(** A default that applies to the node type, unless the node overrides it. *)
Definition overlay {A} (applies : bool) (inherited own : option A) : option A :=
  match own with Some _ => own | None => if applies then inherited else None end.

Definition effective {N} `{NodeLike N} (defaults : NodePolicy.t) (node : N) : NodePolicy.t :=
  let own := node_policy node in
  let ty := node_type node in
  {| NodePolicy.worker_selector :=
       overlay (worker_node ty) (NodePolicy.worker_selector defaults)
         (NodePolicy.worker_selector own);
     NodePolicy.model_route_ref :=
       overlay (routable_node ty) (NodePolicy.model_route_ref defaults)
         (NodePolicy.model_route_ref own);
     NodePolicy.retry_policy_ref :=
       overlay true (NodePolicy.retry_policy_ref defaults) (NodePolicy.retry_policy_ref own);
     NodePolicy.permission_policy_ref :=
       overlay true (NodePolicy.permission_policy_ref defaults)
         (NodePolicy.permission_policy_ref own);
     NodePolicy.verification :=
       overlay (worker_node ty) (NodePolicy.verification defaults) (NodePolicy.verification own);
     NodePolicy.approval :=
       overlay (action_node ty) (NodePolicy.approval defaults) (NodePolicy.approval own);
     NodePolicy.timeout_seconds :=
       overlay true (NodePolicy.timeout_seconds defaults) (NodePolicy.timeout_seconds own);
     NodePolicy.max_concurrency :=
       overlay true (NodePolicy.max_concurrency defaults) (NodePolicy.max_concurrency own);
     NodePolicy.accepts_runtime_instructions :=
       if NodePolicy.accepts_set own then NodePolicy.accepts_runtime_instructions own
       else NodePolicy.accepts_runtime_instructions defaults;
     NodePolicy.accepts_set := true |}.

Definition effective_policy {N} `{NodeLike N} (spec : WorkflowSpec.t N) (node : N)
    : NodePolicy.t :=
  effective (WorkflowSpec.defaults spec) node.

(** ** [normalize_workflow] *)

Section normalize.
Context `{ConfigModel}.

Definition normalize_node (defaults : NodePolicy.t) (node : RawNode.t)
    : res (list error_detail) WorkflowNode.t :=
  config ← config_validate (RawNode.type node) (RawNode.config node);
  Ok {| WorkflowNode.id := RawNode.id node;
        WorkflowNode.label := RawNode.label node;
        WorkflowNode.config := config;
        WorkflowNode.policy := effective defaults node |}.

(** The same specification with other nodes and edges. *)
Definition with_graph {N M} (spec : WorkflowSpec.t N) (nodes : list M)
    (edges : list WorkflowEdge.t) : WorkflowSpec.t M :=
  {| WorkflowSpec.spec_version := WorkflowSpec.spec_version spec;
     WorkflowSpec.reducers := WorkflowSpec.reducers spec;
     WorkflowSpec.key := WorkflowSpec.key spec;
     WorkflowSpec.name := WorkflowSpec.name spec;
     WorkflowSpec.description := WorkflowSpec.description spec;
     WorkflowSpec.entrypoint := WorkflowSpec.entrypoint spec;
     WorkflowSpec.defaults := WorkflowSpec.defaults spec;
     WorkflowSpec.nodes := nodes;
     WorkflowSpec.edges := edges;
     WorkflowSpec.result_path := WorkflowSpec.result_path spec |}.

Definition normalize_workflow (spec : WorkflowSpec.t RawNode.t)
    : res (list error_detail) (WorkflowSpec.t WorkflowNode.t) :=
  nodes ← mapM (normalize_node (WorkflowSpec.defaults spec))
               (sorted_nodes (WorkflowSpec.nodes spec));
  Ok (with_graph spec nodes (sorted_edges (WorkflowSpec.edges spec))).

(** The published form of a normalized node and specification. *)
Definition as_raw_node (n : WorkflowNode.t) : RawNode.t :=
  {| RawNode.id := WorkflowNode.id n; RawNode.type := WorkflowNode.type n;
     RawNode.label := WorkflowNode.label n;
     RawNode.config := NodeConfig.dump (WorkflowNode.config n);
     RawNode.policy := WorkflowNode.policy n |}.

Definition as_raw (s : WorkflowSpec.t WorkflowNode.t) : WorkflowSpec.t RawNode.t :=
  with_graph s (as_raw_node <$> WorkflowSpec.nodes s) (WorkflowSpec.edges s).
End normalize.

(** ** Theorems *)

Lemma overlay_idem {A} b (d o : option A) : overlay b d (overlay b d o) = overlay b d o.
Proof. by destruct o, b, d. Qed.

Lemma opt_all_overlay {A} (P : A → bool) b d o :
  opt_all P d = true → opt_all P o = true → opt_all P (overlay b d o) = true.
Proof. by destruct o, b. Qed.

(** What a node states itself wins; what it leaves open is inherited where the
node type admits it. *)
Lemma effective_own {N} `{NodeLike N} defaults (n : N) v :
  NodePolicy.retry_policy_ref (node_policy n) = Some v →
  NodePolicy.retry_policy_ref (effective defaults n) = Some v.
Proof. simpl. by intros ->. Qed.

(** Effective policies are valid contract values, so that the
[NodePolicy.model_validate] that builds them succeeds. *)
Lemma effective_valid {N} `{NodeLike N} defaults (n : N) :
  NodePolicy.valid defaults = true → NodePolicy.valid (node_policy n) = true →
  NodePolicy.valid (effective defaults n) = true.
Proof.
  unfold NodePolicy.valid, effective; simpl. rewrite !andb_true_iff.
  intros (((((?&?)&?)&?)&?)&_) (((((?&?)&?)&?)&?)&_).
  split_and!; try apply opt_all_overlay; done.
Qed.

(** A node type that takes no worker, model route, verification or approval does
not inherit one. *)
Lemma effective_inapplicable {N} `{NodeLike N} defaults (n : N) :
  (worker_node (node_type n) = false →
     NodePolicy.worker_selector (effective defaults n)
     = NodePolicy.worker_selector (node_policy n)
     ∧ NodePolicy.verification (effective defaults n)
       = NodePolicy.verification (node_policy n))
  ∧ (routable_node (node_type n) = false →
     NodePolicy.model_route_ref (effective defaults n)
     = NodePolicy.model_route_ref (node_policy n))
  ∧ (action_node (node_type n) = false →
     NodePolicy.approval (effective defaults n) = NodePolicy.approval (node_policy n)).
Proof.
  assert (∀ A (d o : option A), overlay false d o = o) as Ho by (by intros A d []).
  unfold effective; cbn -[overlay].
  split_and!; intros ->; rewrite !Ho; done.
Qed.

Section normalize_lemmas.
Context `{ConfigModelLaws}.

Lemma normalize_node_ok d r n :
  normalize_node d r = Ok n →
  WorkflowNode.id n = RawNode.id r ∧ WorkflowNode.label n = RawNode.label r
  ∧ config_validate (RawNode.type r) (RawNode.config r) = Ok (WorkflowNode.config n)
  ∧ WorkflowNode.policy n = effective d r.
Proof.
  unfold normalize_node. destruct (config_validate _ _) as [c|]; simpl; [|done].
  intros [= <-]. done.
Qed.

Lemma normalize_node_type d r n : normalize_node d r = Ok n → WorkflowNode.type n = RawNode.type r.
Proof.
  intros (_ & _ & Hc & _)%normalize_node_ok. by apply config_validate_sound in Hc as [? _].
Qed.

(** Normalizing the published form of a normalized node changes nothing. *)
Lemma normalize_node_idem d r n :
  normalize_node d r = Ok n → normalize_node d (as_raw_node n) = Ok n.
Proof.
  intros Hn. pose proof (normalize_node_type _ _ _ Hn) as Hty.
  apply normalize_node_ok in Hn as (_ & _ & Hc & Hp).
  apply config_validate_sound in Hc as [_ Hv].
  unfold normalize_node; simpl. unfold WorkflowNode.type.
  rewrite config_validate_dump by done; simpl. f_equal.
  destruct n as [i l c p]; simpl in *. f_equal. subst p. unfold effective; simpl.
  unfold WorkflowNode.type in *; simpl in *. rewrite Hty. by rewrite !overlay_idem.
Qed.

Lemma mapM_res_Forall2 {E A B} (f : A → res E B) l k :
  mapM f l = Ok k ↔ Forall2 (λ x y, f x = Ok y) l k.
Proof.
  split.
  - revert k; induction l as [|x l IH]; intros k; simpl; [by intros [= <-]; constructor|].
    destruct (f x) as [y|] eqn:Hx; simpl; [|done].
    destruct (mapM f l) as [ys|]; simpl; [|done]. intros [= <-]. constructor; auto.
  - induction 1 as [|x y l k Hx Hl IH]; simpl; [done|].
    rewrite Hx; simpl. by rewrite IH.
Qed.

Lemma normalize_ids d rs ns :
  Forall2 (λ r n, normalize_node d r = Ok n) rs ns →
  WorkflowNode.id <$> ns = RawNode.id <$> rs.
Proof.
  induction 1 as [|r n rs ns Hn Hrest IH]; [done|]. csimpl.
  apply normalize_node_ok in Hn as (-> & _). by rewrite IH.
Qed.

Lemma StronglySorted_fmap_key {A B K} `{PyOrd K} (f : A → K) (g : B → K) l k :
  g <$> k = f <$> l → StronglySorted (key_le f) l → StronglySorted (key_le g) k.
Proof.
  revert k; induction l as [|x l IH]; intros [|y k]; csimpl; try done.
  - intros _ _. constructor.
  - intros [= Hxy Hlk] [Hl Hall]%StronglySorted_inv. constructor; [by apply IH|].
    rewrite Forall_forall in Hall. rewrite Forall_forall. intros z Hz. unfold key_le in *.
    assert (g z ∈ f <$> l) as Hgz by (rewrite <-Hlk; by apply list_elem_of_fmap_2).
    apply list_elem_of_fmap in Hgz as (w & -> & Hw). rewrite Hxy. by apply Hall.
Qed.

(** Normalization is idempotent: the normal form of a workflow, read back as a
document, normalizes to itself. *)
Lemma normalize_workflow_idem spec s :
  normalize_workflow spec = Ok s → normalize_workflow (as_raw s) = Ok s.
Proof.
  unfold normalize_workflow. destruct (mapM _ _) as [ns|] eqn:Hm; simpl; [|done].
  intros [= <-]; simpl. apply mapM_res_Forall2 in Hm.
  pose proof (normalize_ids _ _ _ Hm) as Hids.
  assert (sorted_nodes (as_raw_node <$> ns) = as_raw_node <$> ns) as Hsort.
  { apply sorted_key_id. eapply (StronglySorted_fmap_key RawNode.id); [|apply sorted_key_sorted].
    rewrite <-list_fmap_compose. exact Hids. }
  rewrite Hsort.
  assert (mapM (normalize_node (WorkflowSpec.defaults spec)) (as_raw_node <$> ns) = Ok ns) as Hm'.
  { apply mapM_res_Forall2, Forall2_fmap_l. clear Hids Hsort.
    induction Hm as [|r n rs ns Hn Hrest IH]; constructor; [|done].
    by eapply normalize_node_idem. }
  cbn [WorkflowSpec.defaults with_graph]. rewrite Hm'; simpl. unfold with_graph; simpl.
  unfold sorted_edges. by rewrite sorted_key_idemp.
Qed.

(** Normalization forgets the order in which nodes and edges are listed. *)
Lemma normalize_workflow_order spec nodes edges :
  WorkflowSpec.wf spec → WorkflowSpec.nodes spec ≡ₚ nodes → WorkflowSpec.edges spec ≡ₚ edges →
  normalize_workflow (with_graph spec nodes edges) = normalize_workflow spec.
Proof.
  intros Hwf Hn He. unfold normalize_workflow; simpl.
  rewrite <-(sorted_nodes_perm _ _ (WorkflowSpec.wf_nodes _ Hwf) Hn).
  by rewrite <-(sorted_edges_perm _ _ (WorkflowSpec.wf_edges _ Hwf) He).
Qed.

(** Normalization keeps references intact. *)
Lemma normalize_workflow_wf spec s :
  normalize_workflow spec = Ok s → WorkflowSpec.wf spec → WorkflowSpec.wf s.
Proof.
  unfold normalize_workflow. destruct (mapM _ _) as [ns|] eqn:Hm; simpl; [|done].
  intros [= <-] [Hn He Hen Hsrc Htgt]. apply mapM_res_Forall2 in Hm.
  pose proof (normalize_ids _ _ _ Hm) as Hids.
  assert (node_id <$> ns ≡ₚ node_id <$> WorkflowSpec.nodes spec) as Hp.
  { change (WorkflowNode.id <$> ns ≡ₚ node_id <$> WorkflowSpec.nodes spec).
    rewrite Hids. apply fmap_Permutation, sorted_key_perm. }
  assert (sorted_edges (WorkflowSpec.edges spec) ≡ₚ WorkflowSpec.edges spec) as Hpe
    by apply sorted_key_perm.
  split; simpl.
  - by rewrite Hp.
  - by rewrite Hpe.
  - by rewrite Hp.
  - intros e. rewrite Hpe, Hp. apply Hsrc.
  - intros e. rewrite Hpe, Hp. apply Htgt.
Qed.

(** Normalization succeeds when every configuration validates. *)
Lemma normalize_workflow_total spec :
  (∀ n, n ∈ WorkflowSpec.nodes spec →
     is_ok (config_validate (RawNode.type n) (RawNode.config n)) = true) →
  ∃ s, normalize_workflow spec = Ok s.
Proof.
  intros Hall. unfold normalize_workflow.
  assert (∃ ns, mapM (normalize_node (WorkflowSpec.defaults spec))
                 (sorted_nodes (WorkflowSpec.nodes spec)) = Ok ns) as [ns ->]; [|by eexists].
  assert (∀ n, n ∈ sorted_nodes (WorkflowSpec.nodes spec) →
     is_ok (config_validate (RawNode.type n) (RawNode.config n)) = true) as Hall'.
  { intros n. unfold sorted_nodes. rewrite elem_of_sorted_key. apply Hall. }
  setoid_rewrite mapM_res_Forall2.
  clear Hall. induction (sorted_nodes _) as [|n ns IH]; [by eexists|].
  destruct IH as [ns' Hns]; [set_solver|]. specialize (Hall' n ltac:(set_solver)).
  destruct (config_validate (RawNode.type n) (RawNode.config n)) as [c|] eqn:Hc; [|done].
  eexists (_ :: ns'). constructor; [|done]. unfold normalize_node. by rewrite Hc.
Qed.
End normalize_lemmas.
