(* ===== verification/RawValidation.v ===== *)
(** * Validation of the raw document and of predicates

[_resource_issues], [_raw_references], [_schema_issues] and [_predicate_issues]
of [orchestrator/app/jarvis_orchestrator/workflows/validation.py]. *)
From S2P Require Import Prelude Enums PyJson Verification Registry WorkflowSpec Predicates.
From S2P Require Import Normalize.
Local Open Scope Z_scope.
Local Open Scope stdpp_scope.

(** [_issue(code, message, node=, edge=, path=)] *)
Definition _issue (code message : string) (node edge path : option string) : WorkflowIssue.t :=
  WorkflowIssue.Build_t code message node edge path.

(** ** [_resource_issues] *)

Definition too_deep : WorkflowIssue.t :=
  _issue "resource.json_depth" "Workflow JSON nesting/complexity exceeds limits" None None None.
Definition non_finite : WorkflowIssue.t :=
  _issue "resource.non_finite" "Workflow JSON must contain finite numbers" None None None.
Definition too_large : WorkflowIssue.t :=
  _issue "resource.json_size" "Workflow JSON exceeds the 1 MiB limit" None None None.

(** The items a value pushes on [pending]. *)
Definition children (value : json) : list json :=
  match value with
  | JObj kvs => kvs.*2
  | JArr l => l
  | _ => []
  end.

Definition is_non_finite (value : json) : bool :=
  match value with JFloat (FFin _) => false | JFloat _ => true | _ => false end.

(** The scanning loop; [pending] has its end first. *)
Fixpoint scan (fuel : nat) (pending : list (json * Z)) (count : Z)
    : option (list WorkflowIssue.t) :=
  match pending with
  | [] => Some []
  | (value, depth) :: pending' =>
      match fuel with
      | O => None
      | S fuel' =>
          if Z.ltb MAX_JSON_DEPTH depth || Z.ltb MAX_WORKFLOW_BYTES (count + 1)
          then Some [too_deep]
          else if is_non_finite value then Some [non_finite]
          else scan fuel' (reverse ((λ v, (v, depth + 1)) <$> children value) ++ pending')
                 (count + 1)
      end
  end.

(** Number of values in a document. *)
Fixpoint json_count (j : json) : nat :=
  S (match j with
     | JArr l => sum_list_with json_count l
     | JObj kvs => sum_list_with (λ kv, json_count kv.2) kvs
     | _ => 0
     end).

Section dumps.
Context `{PyRuntime}.

(** [json.dumps(value, ensure_ascii=False, allow_nan=False)] of a finite
value. *)
Fixpoint json_dumps (j : json) : string :=
  match j with
  | JNull => "null"
  | JBool b => if b then "true" else "false"
  | JInt z => pretty z
  | JFloat f => json_float f
  | JStr s => json_string s
  | JArr l => "[" +:+ join ", " (List.map json_dumps l) +:+ "]"
  | JObj kvs =>
      "{" +:+ join ", " (List.map (λ kv, json_string kv.1 +:+ ": " +:+ json_dumps kv.2) kvs)
      +:+ "}"
  end.

Definition _resource_issues (raw : jobj) : list WorkflowIssue.t :=
  match scan (json_count (JObj raw)) [(JObj raw, 0)] 0 with
  | Some [] =>
      if Z.ltb MAX_WORKFLOW_BYTES (Z.of_nat (String.length (json_dumps (JObj raw))))
      then [too_large] else []
  | Some issues => issues
  | None => []
  end.
End dumps.

(** ** [_raw_references] *)

(** [str(value)] of a JSON value. *)
Class PyStr := py_str : json → string.
Class PyStrLaws `{PyStr} := py_str_string : ∀ s, py_str (JStr s) = s.

(** The IDs of the members that are objects with a string [id], in order, with
their index. *)
Definition member_id (member : json) : option string :=
  match member with
  | JObj d => match dict_get "id" d with Some (JStr s) => Some s | _ => None end
  | _ => None
  end.

(** The loop over one collection: the issues, and [seen]. *)
Fixpoint scan_ids (collection singular : string) (index : nat) (members : list json)
    (seen : list string) : list WorkflowIssue.t * list string :=
  match members with
  | [] => ([], seen)
  | member :: members' =>
      match member_id member with
      | None => scan_ids collection singular (S index) members' seen
      | Some i =>
          let rest := scan_ids collection singular (S index) members' (i :: seen) in
          ((if bool_decide (i ∈ seen) then
              [_issue ("graph.duplicate_" +:+ singular) ("Duplicate " +:+ singular +:+ " ID")
                 (if bool_decide (singular = "node") then Some i else None)
                 (if bool_decide (singular = "edge") then Some i else None)
                 (Some (collection +:+ "." +:+ pretty index +:+ ".id"))]
            else []) ++ rest.1, rest.2)
      end
  end.

Definition scan_collection (collection singular : string) (raw : jobj)
    : list WorkflowIssue.t * list string :=
  match dict_get collection raw with
  | Some (JArr members) => scan_ids collection singular 0 members []
  | _ => ([], [])
  end.

Section references.
Context `{PyStr}.

(** [str(member.get("id", "")) or None] *)
Definition edge_label (member : jobj) : option string :=
  let s := py_str (default (JStr "") (dict_get "id" member)) in
  if bool_decide (s = "") then None else Some s.

Definition endpoint_issues (ids : list string) (index : nat) (member : jobj) (endpoint : string)
    : list WorkflowIssue.t :=
  let bad :=
    [_issue "graph.dangling_edge" "Edge endpoint must reference a node" None
       (edge_label member) (Some ("edges." +:+ pretty index +:+ "." +:+ endpoint))] in
  match dict_get endpoint member with
  | Some (JStr v) => if bool_decide (v ∈ ids) then [] else bad
  | _ => bad
  end.

Definition edge_reference_issues (ids : list string) (index : nat) (member : json)
    : list WorkflowIssue.t :=
  match member with
  | JObj d => endpoint_issues ids index d "from" ++ endpoint_issues ids index d "to"
  | _ => []
  end.

Definition _raw_references (raw : jobj) : list WorkflowIssue.t :=
  let nodes := scan_collection "nodes" "node" raw in
  let edges := scan_collection "edges" "edge" raw in
  nodes.1 ++ edges.1
  ++ match dict_get "entrypoint" raw with
     | Some (JStr e) =>
         if bool_decide (e ∈ nodes.2) then []
         else [_issue "graph.entrypoint" "Entrypoint must reference a node" None None
                 (Some "entrypoint")]
     | _ => [_issue "graph.entrypoint" "Entrypoint must reference a node" None None
               (Some "entrypoint")]
     end
  ++ match dict_get "edges" raw with
     | Some (JArr members) =>
         concat (imap (edge_reference_issues nodes.2) members)
     | _ => []
     end.
End references.

(** ** [_schema_issues] *)

(** The ID of the node or edge an error's location points into. *)
Definition located_id (collection : string) (raw : jobj) (index : loc_part) : option string :=
  match dict_get collection raw, index with
  | Some (JArr items), LIndex i => items !! i ≫= member_id
  | _, _ => None
  end.

Definition schema_issue (raw : jobj) (error : error_detail) : WorkflowIssue.t :=
  let '(node, edge) :=
    match error_loc error with
    | LKey "nodes" :: index :: _ => (located_id "nodes" raw index, None)
    | LKey "edges" :: index :: _ => (None, located_id "edges" raw index)
    | _ => (None, None)
    end in
  let path := loc_text (error_loc error) in
  _issue "schema.invalid" ("Invalid workflow field (" +:+ error_type error +:+ ")") node edge
    (Some (if bool_decide (path = "") then "$" else path)).

Definition _schema_issues (errors : list error_detail) (raw : jobj) : list WorkflowIssue.t :=
  schema_issue raw <$> errors.

(** ** [_predicate_issues] *)

Definition edge_issue (code message : string) (edge : WorkflowEdge.t) : WorkflowIssue.t :=
  _issue code message None (Some (WorkflowEdge.id edge)) None.

Definition ordering_op (o : PredicateOperator.t) : bool :=
  bool_decide (o ∈ [PredicateOperator.lt; PredicateOperator.lte; PredicateOperator.gt;
                    PredicateOperator.gte]).

Definition is_null (j : json) : bool := match j with JNull => true | _ => false end.

(** The checks on one AST node. *)
Definition check_predicate (current : Predicate.t) (edge : WorkflowEdge.t)
    : list WorkflowIssue.t :=
  (match Predicate.path current with
   | Some p => if bool_decide (p ∈ ALLOWED_PATHS) then []
               else [edge_issue "predicate.path" "Predicate path is not approved" edge]
   | None => []
   end)
  ++ (if bool_decide (Predicate.op current = PredicateOperator.in_)
         && negb (match Predicate.value current with
                  | JArr l => Nat.leb (length l) 64
                  | _ => false
                  end)
      then [edge_issue "predicate.value" "in requires at most 64 JSON values" edge] else [])
  ++ (if ordering_op (Predicate.op current)
         && bool_decide (number (Predicate.value current) = None)
      then [edge_issue "predicate.value" "Ordering requires a number" edge] else [])
  ++ (if negb (Nat.eqb (length (Predicate.args current)) 0)
         && negb (is_null (Predicate.value current))
      then [edge_issue "predicate.value" "Logical predicates cannot contain values" edge]
      else []).

Definition predicate_limit (edge : WorkflowEdge.t) : WorkflowIssue.t :=
  edge_issue "predicate.limit" "Predicate exceeds AST limits" edge.

Fixpoint predicate_loop (fuel : nat) (edge : WorkflowEdge.t) (pending : list (Predicate.t * Z))
    (count : Z) : option (list WorkflowIssue.t) :=
  match pending with
  | [] => Some []
  | (current, depth) :: pending' =>
      match fuel with
      | O => None
      | S fuel' =>
          if Z.ltb MAX_PREDICATE_DEPTH depth || Z.ltb MAX_PREDICATE_COUNT (count + 1)
          then Some [predicate_limit edge]
          else app (check_predicate current edge) <$>
               predicate_loop fuel' edge
                 (reverse ((λ a, (a, depth + 1)) <$> Predicate.args current) ++ pending')
                 (count + 1)
      end
  end.

Fixpoint predicate_count (p : Predicate.t) : nat :=
  S (sum_list_with predicate_count (Predicate.args p)).

Definition _predicate_issues (predicate : Predicate.t) (edge : WorkflowEdge.t)
    : list WorkflowIssue.t :=
  default [] (predicate_loop (predicate_count predicate) edge [(predicate, 1)] 0).

(** ** Theorems *)

Lemma sum_list_with_perm {A} (f : A → nat) l k :
  l ≡ₚ k → sum_list_with f l = sum_list_with f k.
Proof. induction 1; simpl; lia. Qed.

Lemma sum_list_with_fmap {A B} (f : B → nat) (g : A → B) l :
  sum_list_with f (g <$> l) = sum_list_with (λ x, f (g x)) l.
Proof. induction l; csimpl; lia. Qed.

Lemma json_count_children j : json_count j = S (sum_list_with json_count (children j)).
Proof. destruct j; simpl; try done. f_equal. by rewrite sum_list_with_fmap. Qed.

(** The document is nested at most [MAX_JSON_DEPTH] deep below [depth], and its
numbers are finite. *)
Fixpoint within (depth : Z) (j : json) : bool :=
  Z.leb depth MAX_JSON_DEPTH && negb (is_non_finite j)
  && match j with
     | JArr l => forallb (within (depth + 1)) l
     | JObj kvs => forallb (λ kv, within (depth + 1) kv.2) kvs
     | _ => true
     end.

Lemma within_children depth j :
  within depth j = true
  ↔ depth ≤ MAX_JSON_DEPTH ∧ is_non_finite j = false
    ∧ Forall (λ v, within (depth + 1) v = true) (children j).
Proof.
  assert (∀ l, forallb (within (depth + 1)) l = true
               ↔ Forall (λ v, within (depth + 1) v = true) l) as Hl.
  { intros l. by rewrite forallb_forall, <-List.Forall_forall. }
  destruct j; simpl; rewrite ?andb_true_iff, ?negb_true_iff, Z.leb_le; try rewrite Hl;
    try (rewrite forallb_forall, <-List.Forall_forall, Forall_fmap);
    intuition (try done); apply Forall_nil; done.
Qed.

Lemma scan_spec fuel pending count :
  (sum_list_with (λ p, json_count p.1) pending ≤ fuel)%nat →
  ∃ r, scan fuel pending count = Some r
    ∧ (r = [] ↔ Forall (λ p, within p.2 p.1 = true) pending
       ∧ (pending = [] ∨ count + Z.of_nat (sum_list_with (λ p, json_count p.1) pending)
          ≤ MAX_WORKFLOW_BYTES)).
Proof.
  revert pending count; induction fuel as [|fuel IH]; intros [|[v d] pending] count Hfuel.
  1,3: exists []; split; [done|]; split; [intros _; split; [by apply Forall_nil|by left]|done].
  { simpl in Hfuel. rewrite json_count_children in Hfuel. lia. }
  set (kids := (λ w, (w, d + 1)) <$> children v).
  set (total := λ l : list (json * Z), sum_list_with (λ p, json_count p.1) l) in *.
  set (ok := λ l : list (json * Z), Forall (λ p, within p.2 p.1 = true) l) in *.
  assert (total (reverse kids ++ pending) = total kids + total pending)%nat as Hsum.
  { unfold total. rewrite sum_list_with_app. f_equal.
    apply sum_list_with_perm, reverse_Permutation. }
  assert (total ((v, d) :: pending) = S (total kids + total pending))%nat as Htot.
  { unfold total; simpl. rewrite json_count_children. unfold kids.
    by rewrite sum_list_with_fmap. }
  assert (ok ((v, d) :: pending) ↔ d ≤ MAX_JSON_DEPTH ∧ is_non_finite v = false
          ∧ ok (reverse kids ++ pending)) as Hok.
  { unfold ok. rewrite Forall_cons, Forall_app, Forall_reverse. unfold kids.
    rewrite Forall_fmap; simpl. rewrite within_children. tauto. }
  setoid_rewrite Hok. rewrite Htot in *. cbn [scan].
  destruct (Z.ltb_spec MAX_JSON_DEPTH d) as [Hd|Hd]; simpl.
  { eexists; split; [done|]. split; [done|]. lia. }
  destruct (Z.ltb_spec MAX_WORKFLOW_BYTES (count + 1)) as [Hc|Hc]; simpl.
  { eexists; split; [done|]. split; [done|]. intros (_ & [?|?]); [done|lia]. }
  destruct (is_non_finite v) eqn:Hv.
  { eexists; split; [done|]. split; [done|]. naive_solver. }
  fold kids. destruct (IH (reverse kids ++ pending) (count + 1)) as (r & Hr & Hiff); [lia|].
  exists r. split; [done|]. rewrite Hiff, Hsum. split.
  - intros [Hk [Hnil|Hcnt]]; (split; [done|]); right; [|lia].
    assert (total (reverse kids ++ pending) = 0)%nat by (by rewrite Hnil). lia.
  - intros [(_ & _ & Hk) [?|Hcnt]]; [done|]. split; [done|]. right. lia.
Qed.

Section resource.
Context `{PyRuntime}.

(** The resource guard reports nothing exactly for the documents that respect
every bound: nesting depth, finite numbers, number of JSON values and serialized
size. *)
Lemma _resource_issues_spec raw :
  _resource_issues raw = []
  ↔ within 0 (JObj raw) = true
    ∧ Z.of_nat (json_count (JObj raw)) ≤ MAX_WORKFLOW_BYTES
    ∧ Z.of_nat (String.length (json_dumps (JObj raw))) ≤ MAX_WORKFLOW_BYTES.
Proof.
  unfold _resource_issues.
  destruct (scan_spec (json_count (JObj raw)) [(JObj raw, 0)] 0) as (r & -> & Hr).
  { cbn [sum_list_with fst]. lia. }
  rewrite Forall_singleton in Hr. cbn [sum_list_with fst snd] in Hr.
  rewrite Nat.add_0_r, Z.add_0_l in Hr.
  destruct r as [|i r].
  - destruct (proj1 Hr eq_refl) as [Hw [?|Hc]]; [done|].
    destruct (Z.ltb_spec MAX_WORKFLOW_BYTES
                (Z.of_nat (String.length (json_dumps (JObj raw))))); [|done].
    split; [done|]. lia.
  - split; [done|]. intros (Hw & Hc & _). assert (i :: r = []); [|done]. apply Hr; auto.
Qed.
End resource.

(** ** Predicates: the loop is exact *)

Lemma predicate_count_args p :
  predicate_count p = S (sum_list_with predicate_count (Predicate.args p)).
Proof. by destruct p. Qed.

(** An AST node reads an approved path, compares with a value of the right type, and has no
value when it has arguments. *)
Record predicate_node_ok (p : Predicate.t) : Prop := {
  po_path : ∀ x, Predicate.path p = Some x → x ∈ ALLOWED_PATHS;
  po_in : Predicate.op p = PredicateOperator.in_ →
    ∃ l, Predicate.value p = JArr l ∧ (length l ≤ 64)%nat;
  po_ordering : Predicate.op p ∈ [PredicateOperator.lt; PredicateOperator.lte;
                                  PredicateOperator.gt; PredicateOperator.gte] →
    is_Some (number (Predicate.value p));
  po_logical : Predicate.args p ≠ [] → Predicate.value p = JNull;
}.

(** Every AST node is as it must be, and none is deeper than [MAX_PREDICATE_DEPTH]. *)
Inductive predicate_within : Z → Predicate.t → Prop :=
  | PredicateWithin depth p :
      depth ≤ MAX_PREDICATE_DEPTH → predicate_node_ok p →
      Forall (predicate_within (depth + 1)) (Predicate.args p) →
      predicate_within depth p.

Lemma check_predicate_nil p edge : check_predicate p edge = [] ↔ predicate_node_ok p.
Proof.
  unfold check_predicate, ordering_op. rewrite !app_nil. split.
  - intros (Hp & Hi & Ho & Hl). split.
    + intros x Hx. rewrite Hx in Hp.
      destruct (decide (x ∈ ALLOWED_PATHS)) as [|Hn]; [done|]. by rewrite bool_decide_false in Hp.
    + intros Hop. rewrite bool_decide_true in Hi by done.
      destruct (Predicate.value p) as [| | | | |l|]; try done. exists l. split; [done|].
      revert Hi. by destruct (Nat.leb_spec (length l) 64).
    + intros Hop. rewrite bool_decide_true in Ho by done.
      destruct (number (Predicate.value p)); [eauto|done].
    + intros Ha. destruct (Predicate.args p); [done|]. by destruct (Predicate.value p).
  - intros [Hp Hi Ho Hl]. split_and!.
    + destruct (Predicate.path p) as [x|]; [|done]. by rewrite bool_decide_true by auto.
    + case_bool_decide as Hop; [|done]. destruct (Hi Hop) as (l & -> & Hn).
      apply Nat.leb_le in Hn. by rewrite Hn.
    + case_bool_decide as Hop; [|done]. destruct (Ho Hop) as [x ->]. done.
    + destruct (Predicate.args p); [done|]. by rewrite Hl.
Qed.

Lemma predicate_within_args edge depth p :
  predicate_within depth p
  ↔ depth ≤ MAX_PREDICATE_DEPTH ∧ check_predicate p edge = []
    ∧ Forall (predicate_within (depth + 1)) (Predicate.args p).
Proof. rewrite check_predicate_nil. split; [by inversion 1|]. intros (?&?&?). by constructor. Qed.

Lemma predicate_loop_spec edge fuel pending count :
  (sum_list_with (λ p, predicate_count p.1) pending ≤ fuel)%nat →
  ∃ r, predicate_loop fuel edge pending count = Some r
    ∧ (r = [] ↔ Forall (λ p, predicate_within p.2 p.1) pending
       ∧ (pending = [] ∨ count + Z.of_nat (sum_list_with (λ p, predicate_count p.1) pending)
          ≤ MAX_PREDICATE_COUNT)).
Proof.
  revert pending count; induction fuel as [|fuel IH]; intros [|[v d] pending] count Hfuel.
  1,3: exists []; split; [done|]; split; [intros _; split; [by apply Forall_nil|by left]|done].
  { simpl in Hfuel. rewrite predicate_count_args in Hfuel. lia. }
  set (kids := (λ w, (w, d + 1)) <$> Predicate.args v).
  set (total := λ l : list (Predicate.t * Z), sum_list_with (λ p, predicate_count p.1) l) in *.
  set (ok := λ l : list (Predicate.t * Z), Forall (λ p, predicate_within p.2 p.1) l) in *.
  assert (total (reverse kids ++ pending) = total kids + total pending)%nat as Hsum.
  { unfold total. rewrite sum_list_with_app. f_equal.
    apply sum_list_with_perm, reverse_Permutation. }
  assert (total ((v, d) :: pending) = S (total kids + total pending))%nat as Htot.
  { unfold total; simpl. rewrite predicate_count_args. unfold kids.
    by rewrite sum_list_with_fmap. }
  assert (ok ((v, d) :: pending) ↔ d ≤ MAX_PREDICATE_DEPTH ∧ check_predicate v edge = []
          ∧ ok (reverse kids ++ pending)) as Hok.
  { unfold ok. rewrite Forall_cons, Forall_app, Forall_reverse. unfold kids.
    rewrite Forall_fmap; simpl. rewrite (predicate_within_args edge). tauto. }
  setoid_rewrite Hok. rewrite Htot in *. cbn [predicate_loop].
  destruct (Z.ltb_spec MAX_PREDICATE_DEPTH d) as [Hd|Hd]; simpl.
  { eexists; split; [done|]. split; [done|]. lia. }
  destruct (Z.ltb_spec MAX_PREDICATE_COUNT (count + 1)) as [Hc|Hc]; simpl.
  { eexists; split; [done|]. split; [done|]. intros (_ & [?|?]); [done|lia]. }
  fold kids. destruct (IH (reverse kids ++ pending) (count + 1)) as (r & Hr & Hiff); [lia|].
  rewrite Hr; simpl. eexists. split; [done|]. rewrite app_nil, Hiff, Hsum. split.
  - intros [Hchk [Hk [Hnil|Hcnt]]]; (split; [done|]); right; [|lia].
    assert (total (reverse kids ++ pending) = 0)%nat by (by rewrite Hnil). lia.
  - intros [(_ & Hchk & Hk) [?|Hcnt]]; [done|]. split; [done|]. split; [done|]. right. lia.
Qed.

Lemma _predicate_issues_spec p edge :
  _predicate_issues p edge = []
  ↔ predicate_within 1 p ∧ Z.of_nat (predicate_count p) ≤ MAX_PREDICATE_COUNT.
Proof.
  unfold _predicate_issues.
  destruct (predicate_loop_spec edge (predicate_count p) [(p, 1)] 0) as (r & -> & Hr).
  { cbn [sum_list_with fst]. lia. }
  rewrite Forall_singleton in Hr. cbn [sum_list_with fst snd default] in *.
  rewrite Nat.add_0_r, Z.add_0_l in Hr. change (default [] (Some r)) with r. rewrite Hr.
  naive_solver.
Qed.

(** ** Raw references *)

(** The IDs a collection declares, in order. *)
Definition declared_ids (members : list json) : list string := omap member_id members.

Lemma scan_ids_spec c s n members seen :
  (∀ i, i ∈ (scan_ids c s n members seen).2 ↔ i ∈ seen ∨ i ∈ declared_ids members)
  ∧ ((scan_ids c s n members seen).1 = []
     ↔ NoDup (declared_ids members) ∧ ∀ i, i ∈ declared_ids members → i ∉ seen).
Proof.
  revert n seen; induction members as [|m ms IH]; intros n seen; simpl.
  - split; [set_solver|]. split; [|done]. intros _. split; [constructor|set_solver].
  - unfold declared_ids; csimpl. fold (declared_ids ms).
    destruct (member_id m) as [i|]; simpl; [|apply IH].
    destruct (IH (S n) (i :: seen)) as [IH1 IH2]. split.
    + intros j. rewrite IH1. set_solver.
    + rewrite app_nil, IH2, NoDup_cons. case_bool_decide as Hi.
      * split; [by intros [? _]|]. intros [_ Hx]. destruct (Hx i); set_solver.
      * split; [|set_solver]. intros (_ & Hnd & Hx). split_and!; [|done|].
        -- intros Hin. destruct (Hx i Hin). set_solver.
        -- intros j [->|Hj]%elem_of_cons; [done|]. specialize (Hx j Hj). set_solver.
Qed.

Definition collection (name : string) (raw : jobj) : list json :=
  match dict_get name raw with Some (JArr l) => l | _ => [] end.

Lemma scan_collection_spec name s raw :
  (∀ i, i ∈ (scan_collection name s raw).2 ↔ i ∈ declared_ids (collection name raw))
  ∧ ((scan_collection name s raw).1 = [] ↔ NoDup (declared_ids (collection name raw))).
Proof.
  unfold scan_collection, collection.
  destruct (dict_get name raw) as [[]|]; try (split; [done|]; split; [constructor|done]).
  destruct (scan_ids_spec name s 0 l []) as [H1 H2]. split.
  - intros i. rewrite H1. set_solver.
  - rewrite H2. split; [by intros [? _]|]. intros ?. split; [done|]. set_solver.
Qed.

Definition names_node (ids : list string) (o : option json) : Prop :=
  ∃ s, o = Some (JStr s) ∧ s ∈ ids.

Lemma endpoint_issues_nil `{PyStr} ids n d endpoint :
  endpoint_issues ids n d endpoint = [] ↔ names_node ids (dict_get endpoint d).
Proof.
  unfold endpoint_issues, names_node.
  destruct (dict_get endpoint d) as [[]|]; try (split; [done|by intros (? & [=] & _)]).
  case_bool_decide; [split; [eauto|done]|split; [done|by intros (? & [= <-] & ?)]].
Qed.

Lemma concat_imap_nil {A B} (f : nat → A → list B) l :
  concat (imap f l) = [] ↔ ∀ i x, l !! i = Some x → f i x = [].
Proof.
  revert f; induction l as [|x l IH]; intros f; simpl; [by split|].
  rewrite app_nil, IH. split.
  - intros [Hx Hl] [|i] y; simpl; [by intros [= <-]|apply Hl].
  - intros Hall. split; [by apply (Hall 0%nat)|]. intros i y Hy. by apply (Hall (S i)).
Qed.

(** The reference guard reports nothing exactly for the raw documents whose
node and edge identifiers are distinct, whose entrypoint names a declared node and
whose edges join declared nodes. *)
Lemma _raw_references_spec `{PyStr} raw :
  _raw_references raw = []
  ↔ NoDup (declared_ids (collection "nodes" raw))
    ∧ NoDup (declared_ids (collection "edges" raw))
    ∧ names_node (declared_ids (collection "nodes" raw)) (dict_get "entrypoint" raw)
    ∧ ∀ d, JObj d ∈ collection "edges" raw →
        names_node (declared_ids (collection "nodes" raw)) (dict_get "from" d)
        ∧ names_node (declared_ids (collection "nodes" raw)) (dict_get "to" d).
Proof.
  unfold _raw_references.
  destruct (scan_collection_spec "nodes" "node" raw) as [Hn1 Hn2].
  destruct (scan_collection_spec "edges" "edge" raw) as [_ He2].
  set (ids := (scan_collection "nodes" "node" raw).2) in *.
  assert (∀ o, names_node (declared_ids (collection "nodes" raw)) o ↔ names_node ids o) as Hnames.
  { intros o. unfold names_node. setoid_rewrite Hn1. done. }
  rewrite !app_nil, Hn2, He2, Hnames. setoid_rewrite Hnames.
  assert (match dict_get "entrypoint" raw with
     | Some (JStr e) =>
         if bool_decide (e ∈ ids) then []
         else [_issue "graph.entrypoint" "Entrypoint must reference a node" None None
                 (Some "entrypoint")]
     | _ => [_issue "graph.entrypoint" "Entrypoint must reference a node" None None
               (Some "entrypoint")]
     end = [] ↔ names_node ids (dict_get "entrypoint" raw)) as ->.
  { unfold names_node. destruct (dict_get "entrypoint" raw) as [[]|];
      try (split; [done|by intros (? & [=] & _)]).
    case_bool_decide; [split; [eauto|done]|split; [done|by intros (? & [= <-] & ?)]]. }
  assert (match dict_get "edges" raw with
     | Some (JArr members) => concat (imap (edge_reference_issues ids) members)
     | _ => []
     end = [] ↔ ∀ d, JObj d ∈ collection "edges" raw →
        names_node ids (dict_get "from" d) ∧ names_node ids (dict_get "to" d)) as ->; [|tauto].
  unfold collection. destruct (dict_get "edges" raw) as [[]|];
    try (split; [by intros _ d ?%elem_of_nil|done]).
  rewrite concat_imap_nil. split.
  - intros Hall d [i Hi]%list_elem_of_lookup. specialize (Hall i _ Hi). simpl in Hall.
    by rewrite app_nil, !endpoint_issues_nil in Hall.
  - intros Hall i x Hx. destruct x; try done. simpl.
    rewrite app_nil, !endpoint_issues_nil. apply Hall. by eapply list_elem_of_lookup_2.
Qed.
