(* ===== verification/GraphIssues.v ===== *)
(** * Routing and cycle checks

[_graph_issues] of [orchestrator/app/jarvis_orchestrator/workflows/validation.py]
on normalized specifications: reachability from the entrypoint and to a terminal
node, determinism of conditional routes, and boundedness of every cycle.
[graph_ok] states what a specification without issues satisfies, in terms of
paths. *)
From S2P Require Import Prelude Enums PyJson Failures Verification Registry WorkflowSpec.
From S2P Require Import Predicates Normalize RawValidation Graph.
Local Open Scope Z_scope.
Local Open Scope stdpp_scope.

Notation nspec := (WorkflowSpec.t WorkflowNode.t) (only parsing).

(** The order in which this process iterates over a set of strings. *)
Class SetOrder := set_order : list string → list string.
Class SetOrderLaws `{SetOrder} := set_order_perm : ∀ l, set_order l ≡ₚ l.

Definition node_ids (spec : nspec) : list string := node_id <$> WorkflowSpec.nodes spec.

Definition spec_adjacency (spec : nspec) : list (string * list string) :=
  _adjacency (WorkflowSpec.edges spec).

(** [reverse] *)
Definition reverse_adjacency (spec : nspec) : list (string * list string) :=
  adjacency_of ((λ e, (WorkflowEdge.target e, WorkflowEdge.source e))
                <$> WorkflowSpec.edges spec).

(** [[edge for edge in spec.edges if edge.source == i]] *)
Definition outgoing (spec : nspec) (i : string) : list WorkflowEdge.t :=
  filter (λ e, WorkflowEdge.source e = i) (WorkflowSpec.edges spec).

Definition node_issue (code message : string) (i : string) : WorkflowIssue.t :=
  _issue code message (Some i) None None.

Definition issue_if (b : bool) (i : WorkflowIssue.t) : list WorkflowIssue.t :=
  if b then [i] else [].

Definition is_type (ty : WorkflowNodeType.t) (n : WorkflowNode.t) : bool :=
  bool_decide (WorkflowNode.type n = ty).

(** [nodes[i].type is ty] *)
Definition type_at (spec : nspec) (i : string) (ty : WorkflowNodeType.t) : bool :=
  match find_node spec i with Some n => is_type ty n | None => false end.

(** [terminal_reached] *)
Definition terminal_reached (spec : nspec) : list string :=
  concat ((λ n, _reachable (node_id n) (reverse_adjacency spec) None)
          <$> filter (λ n, WorkflowNode.type n = WorkflowNodeType.finalize)
                (WorkflowSpec.nodes spec)).

Definition terminal_edge_issues (spec : nspec) (n : WorkflowNode.t) : list WorkflowIssue.t :=
  issue_if (is_type WorkflowNodeType.finalize n
            && negb (Nat.eqb (length (targets (spec_adjacency spec) (node_id n))) 0))
    (node_issue "graph.terminal_edges" "Finalize cannot have outgoing edges" (node_id n)).

(** The checks on one outgoing edge of a conditional node. *)
Definition route_edge_issues (e : WorkflowEdge.t) : list WorkflowIssue.t :=
  if WorkflowEdge.fallback e
     && (bool_decide (is_Some (WorkflowEdge.when e)) || bounded e
         || bool_decide (is_Some (WorkflowEdge.retry_class e)))
  then [edge_issue "routing.fallback_condition" "Fallback cannot have a condition or bound" e]
  else if negb (WorkflowEdge.fallback e)
          && bool_decide (WorkflowEdge.kind e = WorkflowEdgeKind.always)
  then [edge_issue "routing.unconditional_overlap"
          "An unconditional route must be the fallback" e]
  else if negb (WorkflowEdge.fallback e)
          && bool_decide (WorkflowEdge.kind e = WorkflowEdgeKind.on_result)
          && negb (bool_decide (is_Some (WorkflowEdge.when e)))
  then [edge_issue "routing.condition" "Result route requires a predicate" e]
  else [].

(** [len(outgoing) > 1 or any(edge.kind is not ALWAYS ...)] *)
Definition conditional (out : list WorkflowEdge.t) : bool :=
  Nat.ltb 1 (length out)
  || existsb (λ e, negb (bool_decide (WorkflowEdge.kind e = WorkflowEdgeKind.always))) out.

Definition fallbacks (out : list WorkflowEdge.t) : list WorkflowEdge.t :=
  filter (λ e, WorkflowEdge.fallback e = true) out.
Definition priorities (out : list WorkflowEdge.t) : list Z :=
  WorkflowEdge.priority <$> filter (λ e, WorkflowEdge.fallback e = false) out.

Definition routing_issues (spec : nspec) (n : WorkflowNode.t) : list WorkflowIssue.t :=
  let out := outgoing spec (node_id n) in
  if is_type WorkflowNodeType.fanout n || is_type WorkflowNodeType.finalize n
     || Nat.eqb (length out) 0
  then []
  else if conditional out then
    issue_if (negb (Nat.eqb (length (fallbacks out)) 1))
      (node_issue "routing.fallback" "Conditional routes require exactly one fallback"
         (node_id n))
    ++ issue_if (negb (all_distinct (priorities out)))
         (node_issue "routing.priority" "Conditional priorities must be distinct" (node_id n))
    ++ concat (route_edge_issues <$> out)
  else [].

Definition node_graph_issues (spec : nspec) (reached terminals : list string)
    (n : WorkflowNode.t) : list WorkflowIssue.t :=
  issue_if (negb (bool_decide (node_id n ∈ reached)))
    (node_issue "graph.unreachable" "Node is unreachable" (node_id n))
  ++ issue_if (negb (bool_decide (node_id n ∈ terminals)))
       (node_issue "graph.no_terminal" "Node has no terminal path" (node_id n))
  ++ routing_issues spec n.

(** The edges that no counter bounds. *)
Definition unbounded_edges (spec : nspec) : list WorkflowEdge.t :=
  filter (λ e, bounded e = false) (WorkflowSpec.edges spec).

Definition cycle_issues `{SetOrder} (spec : nspec) : list WorkflowIssue.t :=
  let '(acyclic, depth) := _acyclic_nodes (set_order (node_ids spec)) (unbounded_edges spec) in
  ((λ i, node_issue "graph.unbounded_cycle" "Cycle has no bounded retry or iterator edge" i)
     <$> py_sorted (filter (λ i, i ∉ acyclic) (node_ids spec)))
  ++ issue_if (Z.ltb MAX_GRAPH_DEPTH depth)
       (_issue "resource.graph_depth" "Graph depth exceeds its limit" None None None).

(** The graph without the edges that touch an [INTEGRATE] node. *)
Definition without_progress (spec : nspec) : list (string * list string) :=
  _adjacency (filter (λ e,
    type_at spec (WorkflowEdge.source e) WorkflowNodeType.integrate = false
    ∧ type_at spec (WorkflowEdge.target e) WorkflowNodeType.integrate = false)
    (WorkflowSpec.edges spec)).

Definition task_bound_issues (spec : nspec) (e : WorkflowEdge.t) (n : WorkflowNode.t)
    : list WorkflowIssue.t :=
  match WorkflowNode.config n with
  | NodeConfig.ArchitectConfig max_tasks =>
      issue_if (Z.ltb (default 0 (WorkflowEdge.max_iterations e)) max_tasks)
        (_issue "cycle.task_bound" "Architect task bound exceeds iterator bound"
           (Some (node_id n)) (Some (WorkflowEdge.id e)) None)
  | _ => []
  end.

(** The checks on an [ITERATE] edge; [keys] are the iteration keys seen so
far. *)
Definition iterate_issues (spec : nspec) (keys : list string) (e : WorkflowEdge.t)
    : list WorkflowIssue.t :=
  issue_if (negb (type_at spec (WorkflowEdge.source e) WorkflowNodeType.task_dispatch)
            || negb (bool_decide (WorkflowEdge.progress_path e = Some "$.tasks.terminal_count")))
    (edge_issue "cycle.progress"
       "Only task_dispatch can iterate strictly increasing task terminal_count" e)
  ++ issue_if (match WorkflowEdge.iteration_key e with
               | Some k => bool_decide (k ∈ keys)
               | None => false
               end)
       (edge_issue "cycle.iteration_key" "Iterator keys must be unique" e)
  ++ issue_if (bool_decide (WorkflowEdge.source e
                 ∈ _reachable (WorkflowEdge.target e) (without_progress spec) None))
       (edge_issue "cycle.nonprogressing"
          "Every task iteration cycle must integrate terminal task progress" e)
  ++ concat (task_bound_issues spec e <$> WorkflowSpec.nodes spec).

Definition unused_bound (e : WorkflowEdge.t) : bool :=
  (negb (bool_decide (WorkflowEdge.kind e = WorkflowEdgeKind.iterate))
   && (bool_decide (is_Some (WorkflowEdge.iteration_key e))
       || bool_decide (is_Some (WorkflowEdge.progress_path e))
       || bool_decide (is_Some (WorkflowEdge.max_iterations e))))
  || (negb (bool_decide (WorkflowEdge.kind e ∈ [WorkflowEdgeKind.retry;
                                                WorkflowEdgeKind.on_failure]))
      && bool_decide (is_Some (WorkflowEdge.retry_class e))).

Definition is_iterate (e : WorkflowEdge.t) : bool :=
  bool_decide (WorkflowEdge.kind e = WorkflowEdgeKind.iterate).

(** The last loop of [_graph_issues]. *)
Fixpoint edge_issues (spec : nspec) (keys : list string) (edges : list WorkflowEdge.t)
    : list WorkflowIssue.t :=
  match edges with
  | [] => []
  | e :: edges' =>
      match WorkflowEdge.when e with Some p => _predicate_issues p e | None => [] end
      ++ (if is_iterate e then iterate_issues spec keys e else [])
      ++ issue_if (unused_bound e)
           (edge_issue "routing.unused_bound" "Bounds belong only to their declared edge kind" e)
      ++ edge_issues spec
           (if is_iterate e then default "" (WorkflowEdge.iteration_key e) :: keys else keys)
           edges'
  end.

Definition _graph_issues `{SetOrder} (spec : nspec) : list WorkflowIssue.t :=
  let reached := _reachable (WorkflowSpec.entrypoint spec) (spec_adjacency spec) None in
  concat (terminal_edge_issues spec <$> WorkflowSpec.nodes spec)
  ++ concat (node_graph_issues spec reached (terminal_reached spec) <$> WorkflowSpec.nodes spec)
  ++ cycle_issues spec
  ++ edge_issues spec [] (WorkflowSpec.edges spec).

(** ** What a specification without graph issues satisfies *)

Definition edge_rel (edges : list WorkflowEdge.t) (x y : string) : Prop :=
  ∃ e, e ∈ edges ∧ WorkflowEdge.source e = x ∧ WorkflowEdge.target e = y.

(** [y] can be reached from [x] along the edges of the workflow. *)
Definition path (spec : nspec) : string → string → Prop :=
  rtc (edge_rel (WorkflowSpec.edges spec)).

Definition has_type (spec : nspec) (i : string) (ty : WorkflowNodeType.t) : Prop :=
  ∃ n, n ∈ WorkflowSpec.nodes spec ∧ node_id n = i ∧ WorkflowNode.type n = ty.

(** Deterministic routing: one unconditional fallback, and conditional routes
with distinct priorities. *)
Record deterministic (out : list WorkflowEdge.t) : Prop := {
  det_fallback : ∃ e, fallbacks out = [e];
  det_unconditional : ∀ e, e ∈ out → WorkflowEdge.fallback e = true →
    WorkflowEdge.when e = None ∧ bounded e = false ∧ WorkflowEdge.retry_class e = None;
  det_priorities : NoDup (priorities out);
  det_conditional : ∀ e, e ∈ out → WorkflowEdge.fallback e = false →
    WorkflowEdge.kind e ≠ WorkflowEdgeKind.always
    ∧ (WorkflowEdge.kind e = WorkflowEdgeKind.on_result → is_Some (WorkflowEdge.when e));
}.

(** An iterator edge makes progress: it leaves the dispatcher, counts finished
tasks, cannot be taken again without passing an integration, and is allowed as
often as there can be tasks. *)
Record iterator_ok (spec : nspec) (e : WorkflowEdge.t) : Prop := {
  it_source : type_at spec (WorkflowEdge.source e) WorkflowNodeType.task_dispatch = true;
  it_progress : WorkflowEdge.progress_path e = Some "$.tasks.terminal_count";
  it_integrates : ¬ rtc (edge_rel (filter (λ e,
      type_at spec (WorkflowEdge.source e) WorkflowNodeType.integrate = false
      ∧ type_at spec (WorkflowEdge.target e) WorkflowNodeType.integrate = false)
      (WorkflowSpec.edges spec))) (WorkflowEdge.target e) (WorkflowEdge.source e);
  it_bound : ∀ n max_tasks, n ∈ WorkflowSpec.nodes spec →
    WorkflowNode.config n = NodeConfig.ArchitectConfig max_tasks →
    max_tasks ≤ default 0 (WorkflowEdge.max_iterations e);
}.

(** The iteration keys, in order. *)
Definition iteration_keys (edges : list WorkflowEdge.t) : list string :=
  omap (λ e, if is_iterate e then WorkflowEdge.iteration_key e else None) edges.

Record edge_ok (spec : nspec) (e : WorkflowEdge.t) : Prop := {
  eo_predicate : ∀ p, WorkflowEdge.when e = Some p →
    predicate_within 1 p ∧ Z.of_nat (predicate_count p) ≤ MAX_PREDICATE_COUNT;
  eo_iterate : WorkflowEdge.kind e = WorkflowEdgeKind.iterate → iterator_ok spec e;
  eo_counters : WorkflowEdge.kind e ≠ WorkflowEdgeKind.iterate →
    WorkflowEdge.iteration_key e = None ∧ WorkflowEdge.progress_path e = None
    ∧ WorkflowEdge.max_iterations e = None;
  eo_retries : WorkflowEdge.kind e ≠ WorkflowEdgeKind.retry →
    WorkflowEdge.kind e ≠ WorkflowEdgeKind.on_failure → WorkflowEdge.retry_class e = None;
}.

Record graph_ok `{SetOrder} (spec : nspec) : Prop := {
  go_final : ∀ n e, n ∈ WorkflowSpec.nodes spec →
    WorkflowNode.type n = WorkflowNodeType.finalize →
    e ∈ WorkflowSpec.edges spec → WorkflowEdge.source e ≠ node_id n;
  go_reach : ∀ i, i ∈ node_ids spec → path spec (WorkflowSpec.entrypoint spec) i;
  go_terminal : ∀ i, i ∈ node_ids spec →
    ∃ f, has_type spec f WorkflowNodeType.finalize ∧ path spec i f;
  go_routing : ∀ n, n ∈ WorkflowSpec.nodes spec →
    WorkflowNode.type n ≠ WorkflowNodeType.fanout →
    WorkflowNode.type n ≠ WorkflowNodeType.finalize →
    outgoing spec (node_id n) ≠ [] → conditional (outgoing spec (node_id n)) = true →
    deterministic (outgoing spec (node_id n));
  go_cycle : ∀ i, ¬ tc (edge_rel (unbounded_edges spec)) i i;
  go_depth : ∀ k x y, nsteps (edge_rel (unbounded_edges spec)) k x y →
    Z.of_nat k + 1 ≤ MAX_GRAPH_DEPTH;
  go_edges : ∀ e, e ∈ WorkflowSpec.edges spec → edge_ok spec e;
  go_keys : NoDup (iteration_keys (WorkflowSpec.edges spec));
}.

(** ** Theorems *)

Lemma issue_if_nil b i : issue_if b i = [] ↔ b = false.
Proof. by destruct b. Qed.

Lemma rtc_iff {A} (R R' : A → A → Prop) x y :
  (∀ a b, R a b ↔ R' a b) → rtc R x y ↔ rtc R' x y.
Proof.
  intros HR. split; (induction 1; [apply rtc_refl|eapply rtc_l; [by apply HR|done]]).
Qed.

Lemma nsteps_iff {A} (R R' : A → A → Prop) (H : ∀ a b, R a b ↔ R' a b) n x y :
  nsteps R n x y ↔ nsteps R' n x y.
Proof. split; (induction 1; [constructor|econstructor; [by apply H|done]]). Qed.

Lemma tc_iff {A} (R R' : A → A → Prop) x y :
  (∀ a b, R a b ↔ R' a b) → tc R x y ↔ tc R' x y.
Proof.
  intros HR. split; (induction 1; [apply tc_once; by apply HR|eapply tc_l; [by apply HR|done]]).
Qed.

Lemma dict_ok__adjacency edges : dict_ok (_adjacency edges).
Proof. apply dict_ok_adjacency. Qed.

(** Reachability in the adjacency of some edges is the existence of a path. *)
Lemma reachable_path edges x y :
  y ∈ _reachable x (_adjacency edges) None ↔ rtc (edge_rel edges) x y.
Proof.
  rewrite _reachable_spec by apply dict_ok__adjacency. unfold reaches.
  rewrite (rtc_iff _ (edge_rel edges)); [naive_solver|].
  intros a b. unfold adj_step. rewrite elem_of_adjacency. unfold edge_rel. naive_solver.
Qed.

Lemma rtc_flip {A} (R R' : A → A → Prop) x y :
  (∀ a b, R a b ↔ R' b a) → rtc R x y → rtc R' y x.
Proof.
  intros HR. induction 1; [apply rtc_refl|]. eapply rtc_r; [done|]. by apply HR.
Qed.

Lemma reverse_reachable_path spec x y :
  y ∈ _reachable x (reverse_adjacency spec) None ↔ path spec y x.
Proof.
  rewrite _reachable_spec by apply dict_ok_adjacency. unfold reaches, path.
  assert (∀ a b, adj_step (reverse_adjacency spec) None a b
                 ↔ edge_rel (WorkflowSpec.edges spec) b a) as HR.
  { intros a b. unfold adj_step, reverse_adjacency, edge_rel.
    rewrite elem_of_targets, list_elem_of_fmap. naive_solver. }
  split; [intros [_ Hp]|intros Hp; split; [done|]]; (eapply rtc_flip; [|exact Hp]);
    intros a b; [apply HR|symmetry; apply HR].
Qed.

Lemma elem_of_terminal_reached spec i :
  i ∈ terminal_reached spec
  ↔ ∃ f, has_type spec f WorkflowNodeType.finalize ∧ path spec i f.
Proof.
  unfold terminal_reached. rewrite list_elem_of_In, in_concat.
  setoid_rewrite <-list_elem_of_In. setoid_rewrite list_elem_of_fmap.
  setoid_rewrite list_elem_of_filter. unfold has_type. split.
  - intros (? & (n & -> & Hty & Hn) & Hi). rewrite reverse_reachable_path in Hi. eauto 10.
  - intros (? & (n & Hn & <- & Hty) & Hp). eexists. split; [by exists n|].
    by rewrite reverse_reachable_path.
Qed.

Lemma route_edge_issues_nil e :
  route_edge_issues e = []
  ↔ (WorkflowEdge.fallback e = true →
       WorkflowEdge.when e = None ∧ bounded e = false ∧ WorkflowEdge.retry_class e = None)
    ∧ (WorkflowEdge.fallback e = false →
       WorkflowEdge.kind e ≠ WorkflowEdgeKind.always
       ∧ (WorkflowEdge.kind e = WorkflowEdgeKind.on_result → is_Some (WorkflowEdge.when e))).
Proof.
  unfold route_edge_issues. destruct (WorkflowEdge.fallback e); simpl.
  - destruct (WorkflowEdge.when e), (bounded e), (WorkflowEdge.retry_class e); simpl;
      (split; [by intros|intros [Hf _]; by destruct (Hf eq_refl) as (? & ? & ?)]).
  - destruct (WorkflowEdge.kind e), (WorkflowEdge.when e) as [w|]; simpl;
      (split; [intros; split; [done|]; intros _; split; [done|]; by eauto
              |intros [_ Hf]; destruct (Hf eq_refl) as [Hk Hw]; try done; by destruct (Hw eq_refl)]).
Qed.

Lemma length_one {A} (l : list A) : length l = 1%nat ↔ ∃ x, l = [x].
Proof. destruct l as [|x [|y l]]; simpl; naive_solver. Qed.

Lemma routing_issues_nil spec n :
  routing_issues spec n = []
  ↔ (WorkflowNode.type n ≠ WorkflowNodeType.fanout →
     WorkflowNode.type n ≠ WorkflowNodeType.finalize →
     outgoing spec (node_id n) ≠ [] → conditional (outgoing spec (node_id n)) = true →
     deterministic (outgoing spec (node_id n))).
Proof.
  unfold routing_issues, is_type. set (out := outgoing spec (node_id n)).
  destruct (decide (WorkflowNode.type n = WorkflowNodeType.fanout)) as [Hf|Hf].
  { rewrite (bool_decide_true (_ = WorkflowNodeType.fanout)) by done. simpl. naive_solver. }
  destruct (decide (WorkflowNode.type n = WorkflowNodeType.finalize)) as [Hz|Hz].
  { rewrite (bool_decide_true (_ = WorkflowNodeType.finalize)) by done.
    rewrite orb_true_r; simpl. naive_solver. }
  rewrite !bool_decide_false by done. simpl.
  destruct (Nat.eqb_spec (length out) 0) as [H0|H0].
  { apply length_zero_iff_nil in H0. naive_solver. }
  assert (out ≠ []) as Hout by (intros ->; done).
  destruct (conditional out) eqn:Hc; [|naive_solver].
  rewrite !app_nil, !issue_if_nil, !negb_false_iff, concat_fmap_nil, Nat.eqb_eq, length_one.
  unfold all_distinct. rewrite bool_decide_eq_true. setoid_rewrite route_edge_issues_nil.
  split.
  - intros (Hfb & Hp & He) _ _ _ _. split; [done| |done|]; intros e Hin; by apply He.
  - intros Hdet. destruct Hdet as [Hfb Hu Hp Hco]; [done..|]. split_and!; [done..|].
    intros e Hin. split; auto.
Qed.

Lemma edge_pairs_rel edges x y : edge_step (edge_pair <$> edges) x y ↔ edge_rel edges x y.
Proof.
  unfold edge_step, edge_rel. rewrite list_elem_of_fmap. unfold edge_pair. naive_solver.
Qed.

Lemma fmap_nil_iff {A B} (f : A → B) (l : list A) : f <$> l = [] ↔ l = [].
Proof. split; [apply fmap_nil_inv|by intros ->]. Qed.

Section set_order.
Context `{SetOrderLaws}.

Lemma set_order_NoDup l : NoDup l → NoDup (set_order l).
Proof. by rewrite set_order_perm. Qed.

Lemma edge_pairs_nodes (spec : nspec) (edges : list WorkflowEdge.t) x y :
  WorkflowSpec.wf spec → (∀ e, e ∈ edges → e ∈ WorkflowSpec.edges spec) →
  (x, y) ∈ edge_pair <$> edges →
  x ∈ set_order (node_ids spec) ∧ y ∈ set_order (node_ids spec).
Proof.
  intros Hwf He Hin. change (edge_step (edge_pair <$> edges) x y) in Hin.
  apply edge_pairs_rel in Hin as (e & Hin & <- & <-). rewrite !set_order_perm.
  split; [by apply (WorkflowSpec.wf_source _ Hwf), He|by apply (WorkflowSpec.wf_target _ Hwf), He].
Qed.

Lemma unbounded_edges_sub spec e : e ∈ unbounded_edges spec → e ∈ WorkflowSpec.edges spec.
Proof. unfold unbounded_edges. rewrite list_elem_of_filter. tauto. Qed.

Lemma cycle_issues_depth spec :
  WorkflowSpec.wf spec →
  cycle_issues spec = []
  ↔ (∀ i, ¬ tc (edge_rel (unbounded_edges spec)) i i)
    ∧ (_acyclic_nodes (set_order (node_ids spec)) (unbounded_edges spec)).2 ≤ MAX_GRAPH_DEPTH.
Proof.
  intros Hwf. unfold cycle_issues, _acyclic_nodes.
  pose proof (acyclic_pairs_all (set_order (node_ids spec)) (edge_pair <$> unbounded_edges spec)
    (set_order_NoDup _ (WorkflowSpec.wf_nodes _ Hwf))
    (λ x y, edge_pairs_nodes spec _ x y Hwf (unbounded_edges_sub spec))) as Hall.
  destruct (acyclic_pairs _ _) as [acyclic depth]; simpl in *.
  rewrite app_nil, issue_if_nil, Z.ltb_ge, fmap_nil_iff.
  assert (py_sorted (filter (λ i, i ∉ acyclic) (node_ids spec)) = []
    ↔ ∀ i, ¬ tc (edge_rel (unbounded_edges spec)) i i) as ->; [|done].
  assert (py_sorted (filter (λ i, i ∉ acyclic) (node_ids spec)) = []
    ↔ ∀ x, x ∈ set_order (node_ids spec) → x ∈ acyclic) as ->.
  { setoid_rewrite set_order_perm. split.
    - intros Hnil x Hx. destruct (decide (x ∈ acyclic)) as [|Hxa]; [done|].
      assert (x ∈ py_sorted (filter (λ i, i ∉ acyclic) (node_ids spec))) as Hin.
      { unfold py_sorted. rewrite elem_of_sorted_key, list_elem_of_filter. done. }
      rewrite Hnil in Hin. by apply elem_of_nil in Hin.
    - intros Hx. destruct (py_sorted _) as [|x l] eqn:Hs; [done|].
      assert (x ∈ py_sorted (filter (λ i, i ∉ acyclic) (node_ids spec))) as Hin
        by (rewrite Hs; by left).
      unfold py_sorted in Hin. rewrite elem_of_sorted_key, list_elem_of_filter in Hin.
      destruct Hin as [Hn Hi]. by apply Hx in Hi. }
  rewrite Hall. split; intros Hx i Hi; apply (Hx i); revert Hi;
    apply tc_iff; intros a b; by rewrite edge_pairs_rel.
Qed.

(** Without cycles, every path is within the depth. *)
Lemma unbounded_path_depth spec n x y :
  WorkflowSpec.wf spec → (∀ i, ¬ tc (edge_rel (unbounded_edges spec)) i i) →
  (_acyclic_nodes (set_order (node_ids spec)) (unbounded_edges spec)).2 ≤ MAX_GRAPH_DEPTH →
  nsteps (edge_rel (unbounded_edges spec)) n x y → Z.of_nat n + 1 ≤ MAX_GRAPH_DEPTH.
Proof.
  intros Hwf Hac Hdep Hn. destruct n as [|n]; [done|]. etrans; [|exact Hdep].
  unfold _acyclic_nodes.
  destruct (acyclic_pairs_spec (set_order (node_ids spec)) (edge_pair <$> unbounded_edges spec)
    (set_order_NoDup _ (WorkflowSpec.wf_nodes _ Hwf))
    (λ x y, edge_pairs_nodes spec _ x y Hwf (unbounded_edges_sub spec)))
    as (_ & _ & Hvis & Hlen).
  apply (nsteps_iff _ _ (edge_pairs_rel (unbounded_edges spec))) in Hn. apply (Hlen _ x y Hn).
  apply nsteps_inv_r in Hn as (z & _ & Hzy).
  apply Hvis; [by eapply (edge_pairs_nodes spec _ z y Hwf (unbounded_edges_sub spec))|].
  intros (c & Hc & _). apply (Hac c). revert Hc. apply tc_iff. intros. by rewrite edge_pairs_rel.
Qed.

Lemma cycle_issues_nil spec :
  WorkflowSpec.wf spec →
  cycle_issues spec = []
  ↔ (∀ i, ¬ tc (edge_rel (unbounded_edges spec)) i i)
    ∧ ∀ k x y, nsteps (edge_rel (unbounded_edges spec)) k x y →
        Z.of_nat k + 1 ≤ MAX_GRAPH_DEPTH.
Proof.
  intros Hwf. transitivity ((∀ i, ¬ tc (edge_rel (unbounded_edges spec)) i i)
    ∧ (_acyclic_nodes (set_order (node_ids spec)) (unbounded_edges spec)).2 ≤ MAX_GRAPH_DEPTH);
    [by apply cycle_issues_depth|].
  split; intros [Hac Hd]; (split; [done|]); [by intros; eapply unbounded_path_depth|].
  unfold _acyclic_nodes.
  destruct (acyclic_pairs_depth (set_order (node_ids spec)) (edge_pair <$> unbounded_edges spec))
    as [->|(n & x & y & Hn & ->)]; [done|].
  apply (Hd n x y), (nsteps_iff _ _ (edge_pairs_rel (unbounded_edges spec))), Hn.
Qed.
End set_order.

Lemma iterate_issues_nil spec keys e :
  iterate_issues spec keys e = []
  ↔ iterator_ok spec e
    ∧ match WorkflowEdge.iteration_key e with Some k => k ∉ keys | None => True end.
Proof.
  unfold iterate_issues. rewrite !app_nil, !issue_if_nil, orb_false_iff, !negb_false_iff.
  rewrite concat_fmap_nil, bool_decide_eq_true, bool_decide_eq_false.
  unfold without_progress. rewrite reachable_path.
  assert (∀ o : option string, match o with Some k => bool_decide (k ∈ keys) | None => false end
          = false ↔ match o with Some k => k ∉ keys | None => True end) as ->.
  { intros [k|]; [apply bool_decide_eq_false|done]. }
  assert ((∀ n, n ∈ WorkflowSpec.nodes spec → task_bound_issues spec e n = [])
    ↔ ∀ n m, n ∈ WorkflowSpec.nodes spec → WorkflowNode.config n = NodeConfig.ArchitectConfig m →
       m ≤ default 0 (WorkflowEdge.max_iterations e)) as ->.
  { unfold task_bound_issues. split.
    - intros Hall n m Hn Hm. specialize (Hall n Hn). rewrite Hm, issue_if_nil in Hall.
      apply Z.ltb_ge in Hall. done.
    - intros Hall n Hn. destruct (WorkflowNode.config n) eqn:Hc; try done.
      apply issue_if_nil, Z.ltb_ge. by eapply Hall. }
  split.
  - intros ((? & ?) & ? & ? & ?). done.
  - intros ([] & ?). done.
Qed.

Lemma unused_bound_false e :
  unused_bound e = false
  ↔ (WorkflowEdge.kind e ≠ WorkflowEdgeKind.iterate →
       WorkflowEdge.iteration_key e = None ∧ WorkflowEdge.progress_path e = None
       ∧ WorkflowEdge.max_iterations e = None)
    ∧ (WorkflowEdge.kind e ≠ WorkflowEdgeKind.retry →
       WorkflowEdge.kind e ≠ WorkflowEdgeKind.on_failure → WorkflowEdge.retry_class e = None).
Proof.
  unfold unused_bound. rewrite orb_false_iff, !andb_false_iff, !negb_false_iff, !orb_false_iff.
  rewrite !bool_decide_eq_true, !bool_decide_eq_false, <-!eq_None_not_Some. split.
  - intros [Hc Hr]. split; [intros ?; by destruct Hc as [|[[? ?] ?]]|].
    intros ? ?. destruct Hr as [Hr|]; [|done]. set_solver.
  - intros [Hc Hr]. split.
    + destruct (decide (WorkflowEdge.kind e = WorkflowEdgeKind.iterate)) as [|Hk]; [by left|].
      right. by destruct (Hc Hk) as (? & ? & ?).
    + destruct (decide (WorkflowEdge.kind e ∈ [WorkflowEdgeKind.retry; WorkflowEdgeKind.on_failure]))
        as [|Hk]; [by left|]. right. apply Hr; set_solver.
Qed.

Lemma edge_issues_nil spec keys edges :
  Forall (λ e, WorkflowEdge.validate_kind_fields e = true) edges →
  edge_issues spec keys edges = []
  ↔ (∀ e, e ∈ edges → edge_ok spec e) ∧ NoDup (iteration_keys edges)
    ∧ ∀ k, k ∈ iteration_keys edges → k ∉ keys.
Proof.
  intros Hv. revert keys; induction Hv as [|e edges He Hv IH]; intros keys; simpl.
  { split; [|done]. intros _. split_and!; [by intros ? ?%elem_of_nil|constructor|].
    by intros ? ?%elem_of_nil. }
  rewrite !app_nil, issue_if_nil, IH, unused_bound_false; clear IH.
  assert ((match WorkflowEdge.when e with Some p => _predicate_issues p e | None => [] end) = []
    ↔ ∀ p, WorkflowEdge.when e = Some p →
        predicate_within 1 p ∧ Z.of_nat (predicate_count p) ≤ MAX_PREDICATE_COUNT) as ->.
  { destruct (WorkflowEdge.when e) as [p|]; [|done]. rewrite _predicate_issues_spec.
    split; [by intros ? ? [= <-]|by intros Hp; apply Hp]. }
  unfold iteration_keys; csimpl. fold (iteration_keys edges).
  destruct (is_iterate e) eqn:Hk; [apply bool_decide_eq_true in Hk|apply bool_decide_eq_false in Hk].
  - assert (∃ k, WorkflowEdge.iteration_key e = Some k) as [k Hkey].
    { unfold WorkflowEdge.validate_kind_fields in He. rewrite !andb_true_iff in He.
      destruct He as [_ He]. rewrite bool_decide_true in He by done. simpl in He.
      destruct (WorkflowEdge.iteration_key e); [eauto|done]. }
    rewrite Hkey; simpl. rewrite iterate_issues_nil, Hkey, NoDup_cons. split.
    + intros (Hp & [Hit Hkn] & Hb & Hall & Hnd & Hks). split_and!; [|set_solver|done|].
      * intros x [->|Hx]%elem_of_cons; [|by apply Hall]. destruct Hb. by split.
      * intros x [->|Hx]%elem_of_cons; [done|]. set_solver.
    + intros (Hall & [Hkn Hnd] & Hks).
      destruct (Hall e ltac:(by left)) as [Hp Hit Hb1 Hb2].
      split_and!;
        [done|by apply Hit|set_solver|done|done|by intros; apply Hall; right|done|set_solver].
  - simpl. split.
    + intros (Hp & _ & Hb & Hall & Hnd & Hks). split_and!; [|done..].
      intros x [->|Hx]%elem_of_cons; [|by apply Hall]. destruct Hb. by split.
    + intros (Hall & Hnd & Hks). destruct (Hall e ltac:(by left)) as [Hp Hit Hb1 Hb2].
      split_and!; [done..|by intros; apply Hall; right|done|done].
Qed.

(** [_graph_issues] reports nothing exactly on the specifications whose graph is
as [graph_ok] says. *)
Lemma _graph_issues_spec `{SetOrderLaws} spec :
  WorkflowSpec.wf spec →
  Forall (λ e, WorkflowEdge.validate_kind_fields e = true) (WorkflowSpec.edges spec) →
  _graph_issues spec = [] ↔ graph_ok spec.
Proof.
  intros Hwf Hv. unfold _graph_issues.
  rewrite !app_nil, !concat_fmap_nil, cycle_issues_nil, edge_issues_nil by done.
  assert ((∀ n, n ∈ WorkflowSpec.nodes spec → terminal_edge_issues spec n = [])
    ↔ ∀ n e, n ∈ WorkflowSpec.nodes spec → WorkflowNode.type n = WorkflowNodeType.finalize →
        e ∈ WorkflowSpec.edges spec → WorkflowEdge.source e ≠ node_id n) as ->.
  { unfold terminal_edge_issues, is_type. split.
    - intros Hall n e Hn Hty He Hs. specialize (Hall n Hn).
      rewrite issue_if_nil, bool_decide_true, andb_true_l, negb_false_iff in Hall by done.
      apply Nat.eqb_eq, length_zero_iff_nil in Hall.
      assert (WorkflowEdge.target e ∈ targets (spec_adjacency spec) (node_id n)) as Hin
        by (apply elem_of_adjacency; eauto).
      rewrite Hall in Hin. by apply elem_of_nil in Hin.
    - intros Hall n Hn. apply issue_if_nil. case_bool_decide as Hty; [|done].
      apply negb_false_iff, Nat.eqb_eq, length_zero_iff_nil, elem_of_nil_inv. intros t Hin.
      apply elem_of_adjacency in Hin as (e & He & Hs & _). by eapply Hall. }
  assert ((∀ n, n ∈ WorkflowSpec.nodes spec → node_graph_issues spec
      (_reachable (WorkflowSpec.entrypoint spec) (spec_adjacency spec) None)
      (terminal_reached spec) n = [])
    ↔ (∀ i, i ∈ node_ids spec → path spec (WorkflowSpec.entrypoint spec) i
         ∧ ∃ f, has_type spec f WorkflowNodeType.finalize ∧ path spec i f)
      ∧ ∀ n, n ∈ WorkflowSpec.nodes spec → routing_issues spec n = []) as ->.
  { unfold node_graph_issues, node_ids.
    setoid_rewrite app_nil. setoid_rewrite app_nil. setoid_rewrite issue_if_nil.
    setoid_rewrite negb_false_iff. setoid_rewrite bool_decide_eq_true.
    setoid_rewrite elem_of_terminal_reached. unfold spec_adjacency.
    setoid_rewrite reachable_path. setoid_rewrite list_elem_of_fmap. split.
    - intros Hall. split; [|intros n Hn; by apply Hall].
      intros i (n & -> & Hn). by destruct (Hall n Hn) as (? & ? & _).
    - intros [Hi Hr] n Hn. destruct (Hi (node_id n)) as [? ?]; [by exists n|]. auto. }
  setoid_rewrite routing_issues_nil. split.
  - intros (Hf & [Hi Hr] & [Hc Hd] & He & Hk & _).
    split; try done; intros i Hin; by apply Hi.
  - intros [Hf Hi1 Hi2 Hr Hc Hd He Hk].
    split_and!; try done; [auto|by intros k _ ?%elem_of_nil].
Qed.

(** A path that avoids the counted edges has at most [MAX_GRAPH_DEPTH] nodes. *)
Lemma unbounded_path_bound `{SetOrderLaws} spec n x y :
  graph_ok spec → nsteps (edge_rel (unbounded_edges spec)) n x y → Z.of_nat n + 1 ≤ MAX_GRAPH_DEPTH.
Proof. intros Hok. apply (go_depth _ Hok). Qed.
