(* ===== verification/FanoutIssues.v ===== *)
(** * Fan-out regions and their checks

[fanout_regions] and [_fanout_issues] of
[orchestrator/app/jarvis_orchestrator/workflows/validation.py] on normalized
specifications: parallel branches are disjoint, acyclic, entered only through
their fan-out and left only to their join. *)
From S2P Require Import Prelude Enums PyJson Failures Verification Registry WorkflowSpec.
From S2P Require Import Predicates Normalize RawValidation Graph GraphIssues.
Local Open Scope Z_scope.
Local Open Scope stdpp_scope.

Module Fanout.
(** The configuration of a [FANOUT] node, and its ID. *)
Record t := { id : string; children : list string; join_id : string; max_fanout : Z }.
End Fanout.

Definition as_fanout (n : WorkflowNode.t) : option Fanout.t :=
  match WorkflowNode.config n with
  | NodeConfig.FanoutConfig children join_id max_fanout =>
      Some (Fanout.Build_t (WorkflowNode.id n) children join_id max_fanout)
  | _ => None
  end.

Definition fanouts (spec : nspec) : list Fanout.t := omap as_fanout (WorkflowSpec.nodes spec).

(** [_reachable(child, adjacency, stop=join_id)] *)
Definition region (spec : nspec) (f : Fanout.t) (child : string) : list string :=
  _reachable child (spec_adjacency spec) (Some (Fanout.join_id f)).

(** One entry of [fanout_regions]: a dict comprehension keeps one entry per
child. *)
Definition regions_of (spec : nspec) (f : Fanout.t) : list (string * list string) :=
  (λ child, (child, region spec f child)) <$> fromkeys (Fanout.children f).

Definition fanout_regions (spec : nspec) : list (string * list (string * list string)) :=
  (λ f, (Fanout.id f, regions_of spec f)) <$> fanouts spec.

(** [Counter(l) == Counter(r)] *)
Definition same_multiset (l r : list string) : bool := bool_decide (py_sorted l = py_sorted r).

(** [a & b] is not empty. *)
Definition intersects (a b : list string) : bool := existsb (λ x, bool_decide (x ∈ b)) a.

Definition children_issues (f : Fanout.t) : list WorkflowIssue.t :=
  issue_if (Nat.eqb (length (Fanout.children f)) 0 || negb (all_distinct (Fanout.children f))
            || Z.ltb (Fanout.max_fanout f) (Z.of_nat (length (Fanout.children f))))
    (node_issue "fanout.children" "Fanout needs unique children within its configured bound"
       (Fanout.id f)).

(** The join exists, names this fan-out back, and is not claimed by another. *)
Definition join_issues (spec : nspec) (claimed : list string) (f : Fanout.t)
    : list WorkflowIssue.t :=
  issue_if
    (negb (match WorkflowNode.config <$> find_node spec (Fanout.join_id f) with
           | Some (NodeConfig.JoinConfig fanout_id) => bool_decide (fanout_id = Fanout.id f)
           | _ => false
           end)
     || bool_decide (Fanout.join_id f ∈ claimed))
    (node_issue "fanout.join" "Fanout needs its own matching join" (Fanout.id f)).

Definition fanout_edge_issues (spec : nspec) (f : Fanout.t) : list WorkflowIssue.t :=
  let out := outgoing spec (Fanout.id f) in
  issue_if (negb (same_multiset (WorkflowEdge.target <$> out) (Fanout.children f))
            || existsb (λ e, negb (bool_decide (WorkflowEdge.kind e = WorkflowEdgeKind.always))
                             || WorkflowEdge.fallback e) out)
    (node_issue "fanout.edges" "Fanout edges must match all configured child entries"
       (Fanout.id f)).

(** Channels a parallel node writes that have no reducer. *)
Definition scalar_outputs (ty : WorkflowNodeType.t) : list string :=
  filter (λ c, c ∉ default_reducers.*1) (NodeDefinition.outputs (NODE_DEFINITIONS ty)).

Definition requires_verification (p : NodePolicy.t) : bool :=
  match NodePolicy.verification p with
  | Some v => VerificationPolicy.required v
  | None => false
  end.

(** An edge that enters the region other than from the fan-out to its child. *)
Definition external_entry (f : Fanout.t) (child : string) (reg : list string) (i : string)
    (e : WorkflowEdge.t) : bool :=
  bool_decide (WorkflowEdge.target e = i)
  && negb (bool_decide (WorkflowEdge.source e ∈ reg))
  && negb (bool_decide (WorkflowEdge.source e = Fanout.id f) && bool_decide (i = child)).

(** The checks on one node of a region. *)
Definition region_node_issues (spec : nspec) (f : Fanout.t) (child : string) (reg : list string)
    (i : string) : list WorkflowIssue.t :=
  match find_node spec i with
  | None => []
  | Some n =>
      issue_if (is_type WorkflowNodeType.fanout n || is_type WorkflowNodeType.join n)
        (node_issue "fanout.nested" "Nested fanout/join is unsupported" i)
      ++ issue_if (negb (Nat.eqb (length (scalar_outputs (WorkflowNode.type n))) 0))
           (node_issue "fanout.scalar_write" "Parallel node writes an unreduced state channel" i)
      ++ issue_if (is_type WorkflowNodeType.worker n
                   && requires_verification (effective_policy spec n))
           (node_issue "fanout.verification"
              "Parallel workers cannot require branch-local scalar verification" i)
      ++ issue_if (Nat.eqb (length (targets (spec_adjacency spec) i)) 0
                   || existsb (λ t, negb (bool_decide (t ∈ reg))
                                    && negb (bool_decide (t = Fanout.join_id f)))
                        (targets (spec_adjacency spec) i))
           (node_issue "fanout.escape" "Every branch route must reach its matching join" i)
      ++ ((λ e, _issue "fanout.external_entry"
                  "Parallel branches cannot have external incoming edges"
                  (Some i) (Some (WorkflowEdge.id e)) None)
          <$> filter (λ e, external_entry f child reg i e = true) (WorkflowSpec.edges spec))
  end.

Section fanout.
Context `{SetOrder}.

Definition branch_edges (spec : nspec) (reg : list string) : list WorkflowEdge.t :=
  filter (λ e, WorkflowEdge.source e ∈ reg ∧ WorkflowEdge.target e ∈ reg)
    (WorkflowSpec.edges spec).

(** The checks on one child region that is not skipped. *)
Definition branch_issues (spec : nspec) (f : Fanout.t) (owned all_owned : list string)
    (child : string) (reg : list string) : list WorkflowIssue.t :=
  issue_if (intersects owned reg || intersects all_owned reg)
    (node_issue "fanout.overlap" "Parallel child regions cannot overlap" (Fanout.id f))
  ++ (let acyclic := (_acyclic_nodes (set_order reg) (branch_edges spec reg)).1 in
      issue_if (negb (forallb (λ x, bool_decide (x ∈ acyclic)) reg
                      && forallb (λ x, bool_decide (x ∈ reg)) acyclic))
        (node_issue "fanout.cycle" "Parallel branches cannot contain cycles" (Fanout.id f)))
  ++ concat (region_node_issues spec f child reg <$> set_order reg)
  ++ issue_if (bool_decide (Fanout.id f
                 ∈ _reachable (Fanout.join_id f) (spec_adjacency spec) None))
       (node_issue "fanout.reentry" "Fanout activations cannot overlap through a cycle"
          (Fanout.id f)).

(** The loop over the children of one fan-out: issues and [owned]. *)
Fixpoint child_loop (spec : nspec) (f : Fanout.t) (all_owned owned : list string)
    (children : list (string * list string)) : list WorkflowIssue.t * list string :=
  match children with
  | [] => ([], owned)
  | (child, reg) :: children' =>
      if negb (bool_decide (child ∈ node_ids spec)) || bool_decide (child = Fanout.join_id f)
      then
        let r := child_loop spec f all_owned owned children' in
        (node_issue "fanout.child" "Child must reference a distinct entry node" (Fanout.id f)
           :: r.1, r.2)
      else
        let r := child_loop spec f all_owned (owned ++ reg) children' in
        (branch_issues spec f owned all_owned child reg ++ r.1, r.2)
  end.

(** Edges into the join from outside its branches. *)
Definition join_entry_issues (spec : nspec) (f : Fanout.t) (owned : list string)
    : list WorkflowIssue.t :=
  edge_issue "fanout.join_entry" "Join can receive only its own branch completions"
  <$> filter (λ e, WorkflowEdge.target e = Fanout.join_id f ∧ WorkflowEdge.source e ∉ owned)
        (WorkflowSpec.edges spec).

(** The loop over the fan-outs: issues and [claimed_joins]. *)
Fixpoint fanout_loop (spec : nspec) (all_owned claimed : list string) (fs : list Fanout.t)
    : list WorkflowIssue.t * list string :=
  match fs with
  | [] => ([], claimed)
  | f :: fs' =>
      let c := child_loop spec f all_owned [] (regions_of spec f) in
      let r := fanout_loop spec (all_owned ++ c.2) (Fanout.join_id f :: claimed) fs' in
      (children_issues f ++ join_issues spec claimed f ++ fanout_edge_issues spec f
         ++ c.1 ++ join_entry_issues spec f c.2 ++ r.1, r.2)
  end.

Definition _fanout_issues (spec : nspec) : list WorkflowIssue.t :=
  let r := fanout_loop spec [] [] (fanouts spec) in
  r.1
  ++ ((λ n, node_issue "fanout.orphan_join" "Join must have a matching fanout" (node_id n))
      <$> filter (λ n, WorkflowNode.type n = WorkflowNodeType.join ∧ node_id n ∉ r.2)
            (WorkflowSpec.nodes spec)).
End fanout.

(** ** What a specification without fan-out issues satisfies *)

Record region_node_ok (spec : nspec) (f : Fanout.t) (child : string) (reg : list string)
    (i : string) (n : WorkflowNode.t) : Prop := {
  rn_flat : WorkflowNode.type n ≠ WorkflowNodeType.fanout
            ∧ WorkflowNode.type n ≠ WorkflowNodeType.join;
  rn_reduced : ∀ c, c ∈ NodeDefinition.outputs (NODE_DEFINITIONS (WorkflowNode.type n)) →
    c ∈ default_reducers.*1;
  rn_verification : WorkflowNode.type n = WorkflowNodeType.worker →
    requires_verification (effective_policy spec n) = false;
  rn_continues : ∃ t, edge_rel (WorkflowSpec.edges spec) i t;
  rn_exit : ∀ t, edge_rel (WorkflowSpec.edges spec) i t → t ∈ reg ∨ t = Fanout.join_id f;
  rn_entry : ∀ s, edge_rel (WorkflowSpec.edges spec) s i →
    s ∈ reg ∨ (s = Fanout.id f ∧ i = child);
}.

Record branch_ok (spec : nspec) (f : Fanout.t) (child : string) (reg : list string) : Prop := {
  br_child : child ∈ node_ids spec ∧ child ≠ Fanout.join_id f;
  br_acyclic : ∀ i, ¬ tc (edge_rel (branch_edges spec reg)) i i;
  br_nodes : ∀ i n, i ∈ reg → find_node spec i = Some n → region_node_ok spec f child reg i n;
  br_reentry : ¬ path spec (Fanout.join_id f) (Fanout.id f);
}.

Record fanout_ok (spec : nspec) (f : Fanout.t) : Prop := {
  fo_children : Fanout.children f ≠ [] ∧ NoDup (Fanout.children f)
                ∧ Z.of_nat (length (Fanout.children f)) ≤ Fanout.max_fanout f;
  fo_join : ∃ n, find_node spec (Fanout.join_id f) = Some n
                 ∧ WorkflowNode.config n = NodeConfig.JoinConfig (Fanout.id f);
  fo_edges : WorkflowEdge.target <$> outgoing spec (Fanout.id f) ≡ₚ Fanout.children f;
  fo_always : ∀ e, e ∈ outgoing spec (Fanout.id f) →
    WorkflowEdge.kind e = WorkflowEdgeKind.always ∧ WorkflowEdge.fallback e = false;
  fo_branches : ∀ c, c ∈ Fanout.children f → branch_ok spec f c (region spec f c);
  fo_join_entry : ∀ s, edge_rel (WorkflowSpec.edges spec) s (Fanout.join_id f) →
    ∃ c, c ∈ Fanout.children f ∧ s ∈ region spec f c;
}.

(** The nodes of the branches of [fs], with repetition. *)
Definition owned_nodes (spec : nspec) (fs : list Fanout.t) : list string :=
  concat ((λ f, concat (regions_of spec f).*2) <$> fs).

Record fanouts_ok (spec : nspec) : Prop := {
  fs_each : ∀ f, f ∈ fanouts spec → fanout_ok spec f;
  fs_joins : NoDup (Fanout.join_id <$> fanouts spec);
  fs_disjoint : NoDup (owned_nodes spec (fanouts spec));
  fs_orphans : ∀ n, n ∈ WorkflowSpec.nodes spec →
    WorkflowNode.type n = WorkflowNodeType.join → node_id n ∈ Fanout.join_id <$> fanouts spec;
}.

(** ** Theorems *)

Lemma same_multiset_spec l r : same_multiset l r = true ↔ l ≡ₚ r.
Proof.
  unfold same_multiset. rewrite bool_decide_eq_true. split.
  - intros Heq. rewrite <-(sorted_key_perm id l), <-(sorted_key_perm id r).
    unfold py_sorted in Heq. by rewrite Heq.
  - intros Hp. by apply sorted_key_unique.
Qed.

Lemma intersects_spec a b : intersects a b = false ↔ ∀ x, x ∈ a → x ∉ b.
Proof.
  unfold intersects. rewrite existsb_false.
  split; intros Hall x Hx; specialize (Hall x Hx); by eapply bool_decide_eq_false.
Qed.

Lemma fmap_filter_nil {A B} (f : A → B) (P : A → Prop) `{!∀ x, Decision (P x)} l :
  f <$> filter P l = [] ↔ ∀ x, x ∈ l → ¬ P x.
Proof.
  rewrite fmap_nil_iff. split.
  - intros Hnil x Hx HP. assert (x ∈ filter P l) as Hin by (by apply list_elem_of_filter).
    rewrite Hnil in Hin. by apply elem_of_nil in Hin.
  - intros Hall. apply elem_of_nil_inv. intros x [HP Hx]%list_elem_of_filter. by eapply Hall.
Qed.

Lemma targets_rel spec x y :
  y ∈ targets (spec_adjacency spec) x ↔ edge_rel (WorkflowSpec.edges spec) x y.
Proof. unfold spec_adjacency. by rewrite elem_of_adjacency. Qed.

Lemma region_node_issues_nil spec f child reg i n :
  find_node spec i = Some n → i ∈ reg →
  region_node_issues spec f child reg i = [] → region_node_ok spec f child reg i n.
Proof.
  intros Hf Hi. unfold region_node_issues. rewrite Hf, !app_nil, !issue_if_nil.
  rewrite !orb_false_iff, existsb_false, fmap_filter_nil.
  intros ([Hfo Hjo] & Hsc & Hver & [Hne Hout] & Hin).
  apply bool_decide_eq_false in Hfo, Hjo. split.
  - done.
  - intros c Hc. apply negb_false_iff, Nat.eqb_eq, length_zero_iff_nil in Hsc.
    unfold scalar_outputs in Hsc. destruct (decide (c ∈ default_reducers.*1)) as [|Hn]; [done|].
    assert (c ∈ filter (λ c, c ∉ default_reducers.*1)
      (NodeDefinition.outputs (NODE_DEFINITIONS (WorkflowNode.type n)))) as Hcf
      by (by apply list_elem_of_filter).
    rewrite Hsc in Hcf. by apply elem_of_nil in Hcf.
  - intros Hw. unfold is_type in Hver. by rewrite bool_decide_true in Hver.
  - destruct (targets (spec_adjacency spec) i) as [|t ts] eqn:Ht; [done|].
    exists t. apply targets_rel. rewrite Ht. by left.
  - intros t Ht%targets_rel. specialize (Hout t Ht).
    apply andb_false_iff in Hout as [?%negb_false_iff|?%negb_false_iff];
      [left|right]; by eapply bool_decide_eq_true.
  - intros s (e & He & <- & Htgt). specialize (Hin e He). unfold external_entry in Hin.
    rewrite bool_decide_true in Hin by done. simpl in Hin.
    destruct (decide (WorkflowEdge.source e ∈ reg)) as [|Hs]; [by left|right].
    rewrite (bool_decide_false (_ ∈ reg)) in Hin by done. simpl in Hin.
    apply not_true_is_false, negb_false_iff, andb_true_iff in Hin.
    by rewrite !bool_decide_eq_true in Hin.
Qed.

Lemma region_nodes spec f child i :
  WorkflowSpec.wf spec → child ∈ node_ids spec → i ∈ region spec f child → i ∈ node_ids spec.
Proof.
  intros Hwf Hc. unfold region. rewrite _reachable_spec by apply dict_ok_adjacency.
  intros [_ Hr]. induction Hr as [x|x y z [Hxy _] Hyz IH]; [done|]. apply IH.
  apply targets_rel in Hxy as (e & He & _ & <-). by apply (WorkflowSpec.wf_target _ Hwf).
Qed.

Lemma region_NoDup spec f child : NoDup (region spec f child).
Proof. apply _reachable_NoDup, dict_ok_adjacency. Qed.

Lemma region_child spec f child : child ≠ Fanout.join_id f → child ∈ region spec f child.
Proof.
  intros Hc. unfold region. apply _reachable_spec; [apply dict_ok_adjacency|].
  split; [congruence|apply rtc_refl].
Qed.

Section fanout_lemmas.
Context `{SetOrderLaws}.

Lemma elem_of_set_order l x : x ∈ set_order l ↔ x ∈ l.
Proof. by rewrite set_order_perm. Qed.

Lemma branch_issues_nil spec f owned all_owned child :
  WorkflowSpec.wf spec → child ∈ node_ids spec → child ≠ Fanout.join_id f →
  branch_issues spec f owned all_owned child (region spec f child) = [] →
  branch_ok spec f child (region spec f child)
  ∧ ∀ x, x ∈ region spec f child → x ∉ owned ∧ x ∉ all_owned.
Proof.
  intros Hwf Hc Hcj. set (reg := region spec f child). unfold branch_issues.
  rewrite !app_nil, !issue_if_nil, orb_false_iff, !intersects_spec, concat_fmap_nil.
  unfold spec_adjacency. rewrite bool_decide_eq_false, reachable_path.
  intros ([Ho Ha] & Hcyc & Hnodes & Hre). split; [|intros x Hx; split; intros Hin;
    [by eapply Ho|by eapply Ha]].
  split; [done| | |done].
  - apply negb_false_iff, andb_true_iff in Hcyc as [Hcyc _].
    rewrite forallb_forall in Hcyc. intros i Hi.
    assert (∀ x y, (x, y) ∈ edge_pair <$> branch_edges spec reg →
            x ∈ set_order reg ∧ y ∈ set_order reg) as Hin.
    { intros x y (e & [= -> ->] & He)%list_elem_of_fmap.
      apply list_elem_of_filter in He as [[? ?] _]. by rewrite !set_order_perm. }
    destruct (acyclic_pairs_all (set_order reg) (edge_pair <$> branch_edges spec reg)
      (set_order_NoDup _ (region_NoDup spec f child)) Hin) as [Hac _].
    assert (∀ x, x ∈ set_order reg →
      x ∈ (_acyclic_nodes (set_order reg) (branch_edges spec reg)).1) as Hvis.
    { intros x Hx. rewrite elem_of_set_order in Hx. apply list_elem_of_In, Hcyc in Hx.
      by eapply bool_decide_eq_true. }
    apply (Hac Hvis i).
    revert Hi. apply tc_iff. intros a b. by rewrite edge_pairs_rel.
  - intros i n Hi Hf. apply region_node_issues_nil; [done..|]. apply Hnodes. by rewrite set_order_perm.
Qed.

Lemma child_loop_nil spec f all_owned owned cs :
  WorkflowSpec.wf spec →
  (child_loop spec f all_owned owned ((λ c, (c, region spec f c)) <$> cs)).1 = [] →
  NoDup owned → (∀ x, x ∈ owned → x ∉ all_owned) →
  let owned' := owned ++ concat (region spec f <$> cs) in
  (child_loop spec f all_owned owned ((λ c, (c, region spec f c)) <$> cs)).2 = owned'
  ∧ NoDup owned' ∧ (∀ x, x ∈ owned' → x ∉ all_owned)
  ∧ ∀ c, c ∈ cs → branch_ok spec f c (region spec f c).
Proof.
  intros Hwf. revert owned; induction cs as [|c cs IH]; intros owned; csimpl.
  { intros _ Ho Hd. rewrite app_nil_r. split_and!; [done..|]. by intros ? ?%elem_of_nil. }
  case_bool_decide as Hc; simpl; [|done].
  case_bool_decide as Hcj; simpl; [done|].
  rewrite app_nil. intros [Hb Hrest] Ho Hd.
  apply branch_issues_nil in Hb as [Hb Hdis]; [|done..].
  destruct (IH (owned ++ region spec f c) Hrest) as (Heq & Hnd & Hall & Hbs).
  - apply NoDup_app. split_and!; [done| |apply region_NoDup].
    intros x Hx Hxr. by destruct (Hdis x Hxr).
  - intros x [Hx|Hx]%elem_of_app; [by apply Hd|by apply Hdis].
  - rewrite app_assoc. split_and!; [done..|].
    intros x [->|Hx]%elem_of_cons; [done|by apply Hbs].
Qed.

Lemma children_issues_nil f :
  children_issues f = [] →
  Fanout.children f ≠ [] ∧ NoDup (Fanout.children f)
  ∧ Z.of_nat (length (Fanout.children f)) ≤ Fanout.max_fanout f.
Proof.
  unfold children_issues, all_distinct. rewrite issue_if_nil, !orb_false_iff, negb_false_iff.
  rewrite Nat.eqb_neq, bool_decide_eq_true, Z.ltb_ge. intros [[Hl Hnd] Hm].
  split_and!; [intros Hnil; by rewrite Hnil in Hl|done|done].
Qed.

Lemma join_issues_nil spec claimed f :
  join_issues spec claimed f = [] →
  (∃ n, find_node spec (Fanout.join_id f) = Some n
        ∧ WorkflowNode.config n = NodeConfig.JoinConfig (Fanout.id f))
  ∧ Fanout.join_id f ∉ claimed.
Proof.
  unfold join_issues. rewrite issue_if_nil, orb_false_iff, negb_false_iff, bool_decide_eq_false.
  intros [Hj Hc]. split; [|done]. destruct (find_node _ _) as [n|]; [|done].
  exists n. split; [done|]. simpl in Hj. destruct (WorkflowNode.config n); try done.
  by apply bool_decide_eq_true in Hj as ->.
Qed.

Lemma fanout_edge_issues_nil spec f :
  fanout_edge_issues spec f = [] →
  WorkflowEdge.target <$> outgoing spec (Fanout.id f) ≡ₚ Fanout.children f
  ∧ ∀ e, e ∈ outgoing spec (Fanout.id f) →
      WorkflowEdge.kind e = WorkflowEdgeKind.always ∧ WorkflowEdge.fallback e = false.
Proof.
  unfold fanout_edge_issues. rewrite issue_if_nil, orb_false_iff, negb_false_iff.
  rewrite same_multiset_spec, existsb_false. intros [Hp He]. split; [done|].
  intros e Hin. specialize (He e Hin). apply orb_false_iff in He as [Hk Hf].
  split; [|done]. by apply negb_false_iff, bool_decide_eq_true in Hk.
Qed.

Lemma fanout_loop_nil spec all_owned claimed fs :
  WorkflowSpec.wf spec → (fanout_loop spec all_owned claimed fs).1 = [] → NoDup all_owned →
  (∀ f, f ∈ fs → fanout_ok spec f)
  ∧ NoDup (all_owned ++ owned_nodes spec fs)
  ∧ (NoDup claimed → NoDup ((Fanout.join_id <$> fs) ++ claimed))
  ∧ ∀ j, j ∈ (fanout_loop spec all_owned claimed fs).2 ↔ j ∈ claimed ∨ j ∈ Fanout.join_id <$> fs.
Proof.
  intros Hwf. revert all_owned claimed; induction fs as [|f fs IH]; intros all claimed.
  { intros _ Hnd. cbn. rewrite app_nil_r.
    split_and!; [by intros ? ?%elem_of_nil|done|done|set_solver]. }
  cbn [fanout_loop fst snd]. rewrite !app_nil. intros (Hch & Hjo & Hed & Hcl & Hje & Hrest) Hall.
  apply children_issues_nil in Hch as (Hne & Hnd & Hmax).
  apply join_issues_nil in Hjo as [Hjo Hnew].
  apply fanout_edge_issues_nil in Hed as [Hed Halw].
  assert (fromkeys (Fanout.children f) = Fanout.children f) as Hfk by (by apply fromkeys_id).
  assert (regions_of spec f = (λ c, (c, region spec f c)) <$> Fanout.children f) as Hreg
    by (unfold regions_of; by rewrite Hfk).
  rewrite Hreg in Hcl, Hje, Hrest |- *.
  destruct (child_loop_nil spec f all [] (Fanout.children f) Hwf Hcl) as (Ho & Hond & Hodis & Hbr);
    [constructor|by intros ? ?%elem_of_nil|]. rewrite Ho in Hje, Hrest |- *.
  rewrite app_nil_l in *.
  destruct (IH _ _ Hrest) as (Hfs & Hdis & Hcld & Hj2).
  { apply NoDup_app. split_and!; [done| |done]. intros x Hx Hx'. by eapply Hodis. }
  split_and!.
  - intros g [->|Hg]%elem_of_cons; [|by apply Hfs].
    split; try done. intros s (e & He & <- & Ht).
    unfold join_entry_issues in Hje. rewrite fmap_filter_nil in Hje.
    destruct (decide (WorkflowEdge.source e ∈ concat (region spec f <$> Fanout.children f)))
      as [Hin|Hin]; [|by destruct (Hje e He)].
    apply list_elem_of_In, in_concat in Hin as (r & Hr & Hin).
    apply list_elem_of_In in Hr, Hin. apply list_elem_of_fmap in Hr as (c & -> & Hc). eauto.
  - unfold owned_nodes; csimpl. rewrite Hreg, <-list_fmap_compose.
    rewrite app_assoc. exact Hdis.
  - intros Hcl'. csimpl. rewrite Permutation_middle. apply Hcld. by constructor.
  - intros j. rewrite Hj2. csimpl. set_solver.
Qed.

(** A specification without fan-out issues has only well-formed parallel
regions. *)
Lemma _fanout_issues_sound spec :
  WorkflowSpec.wf spec → _fanout_issues spec = [] → fanouts_ok spec.
Proof.
  intros Hwf. unfold _fanout_issues. rewrite app_nil. intros [Hl Ho].
  destruct (fanout_loop_nil spec [] [] (fanouts spec) Hwf Hl) as (Hf & Hd & Hj & Hj2);
    [constructor|]. rewrite app_nil_r in Hj. simpl in Hd. rewrite fmap_filter_nil in Ho.
  split; [done|apply Hj; constructor|done|].
  intros n Hn Hty. destruct (decide (node_id n ∈ Fanout.join_id <$> fanouts spec)) as [|Hnj];
    [done|]. destruct (Ho n Hn). split; [done|]. rewrite Hj2. set_solver.
Qed.
End fanout_lemmas.

(** ** Isolation of parallel branches *)

Section isolation.
Variable spec : nspec.
Hypotheses (Hwf : WorkflowSpec.wf spec) (Hok : fanouts_ok spec).

Lemma NoDup_concat_disjoint {A} (ls : list (list A)) i j l k x :
  NoDup (concat ls) → ls !! i = Some l → ls !! j = Some k → x ∈ l → x ∈ k → i = j.
Proof.
  revert i j; induction ls as [|m ls IH]; intros i j Hnd Hi Hj Hx Hy; [done|].
  simpl in Hnd. apply NoDup_app in Hnd as (Hm & Hdis & Hls).
  assert (∀ p z n, ls !! p = Some n → z ∈ n → z ∈ concat ls) as Hin.
  { intros p z n Hp Hz. apply list_elem_of_In, in_concat. exists n.
    rewrite <-!list_elem_of_In. split; [by eapply list_elem_of_lookup_2|done]. }
  destruct i as [|i], j as [|j]; simplify_eq/=; [done| | |f_equal; by eapply IH].
  - exfalso. apply (Hdis x); [done|]. by eapply Hin.
  - exfalso. apply (Hdis x); [done|]. by eapply Hin.
Qed.

(** A node belongs to at most one branch. *)
Lemma branch_unique f c f' c' i :
  f ∈ fanouts spec → f' ∈ fanouts spec → c ∈ Fanout.children f → c' ∈ Fanout.children f' →
  i ∈ region spec f c → i ∈ region spec f' c' → f = f' ∧ c = c'.
Proof.
  intros Hf Hf' Hc Hc' Hi Hi'.
  assert (∀ g d, d ∈ Fanout.children g → i ∈ region spec g d →
          i ∈ concat (regions_of spec g).*2) as Hcat.
  { intros g d Hd Hr. unfold regions_of. rewrite <-list_fmap_compose.
    apply list_elem_of_In, in_concat. exists (region spec g d). rewrite <-!list_elem_of_In.
    split; [|done]. apply list_elem_of_fmap. exists d. by rewrite elem_of_fromkeys. }
  pose proof (fs_disjoint _ Hok) as Hnd. unfold owned_nodes in Hnd.
  assert (f = f') as <-.
  { apply list_elem_of_lookup in Hf as [p Hp]. apply list_elem_of_lookup in Hf' as [q Hq].
    assert (p = q) as <-; [|congruence].
    eapply (NoDup_concat_disjoint _ p q _ _ i Hnd); [..|exact (Hcat f c Hc Hi)|exact (Hcat f' c' Hc' Hi')];
      rewrite list_lookup_fmap; [by rewrite Hp|by rewrite Hq]. }
  split; [done|].
  assert (NoDup (concat (regions_of spec f).*2)) as Hndf.
  { apply list_elem_of_lookup in Hf as [p Hp].
    assert (concat (regions_of spec f).*2 ∈ (λ f, concat (regions_of spec f).*2) <$> fanouts spec)
      as Hin by (apply list_elem_of_fmap; exists f; split; [done|]; by eapply list_elem_of_lookup_2).
    apply list_elem_of_split in Hin as (l1 & l2 & Heq). rewrite Heq in Hnd.
    rewrite concat_app in Hnd. apply NoDup_app in Hnd as (_ & _ & Hnd). simpl in Hnd.
    by apply NoDup_app in Hnd as (? & _). }
  unfold regions_of in Hndf. rewrite <-list_fmap_compose in Hndf.
  rewrite <-elem_of_fromkeys in Hc, Hc'.
  apply list_elem_of_lookup in Hc as [p Hp]. apply list_elem_of_lookup in Hc' as [q Hq].
  assert (p = q) as <-; [|congruence].
  eapply (NoDup_concat_disjoint _ p q _ _ i Hndf); [..|exact Hi|exact Hi'];
    rewrite list_lookup_fmap; [by rewrite Hp|by rewrite Hq].
Qed.

Lemma region_node f c i :
  f ∈ fanouts spec → c ∈ Fanout.children f → i ∈ region spec f c →
  ∃ n, find_node spec i = Some n ∧ region_node_ok spec f c (region spec f c) i n.
Proof.
  intros Hf Hc Hi. destruct (fo_branches _ _ (fs_each _ Hok f Hf) c Hc) as [[Hcn _] _ Hn _].
  pose proof (region_nodes spec f c i Hwf Hcn Hi) as Hin.
  destruct (proj2 (find_key_is_Some node_id i (WorkflowSpec.nodes spec)) Hin) as [n Hfn]. exists n. split; [done|by apply Hn].
Qed.

(** A path that starts outside a branch enters it through its fan-out. *)
Lemma branch_entered_by_fanout f c x i :
  f ∈ fanouts spec → c ∈ Fanout.children f → x ∉ region spec f c → i ∈ region spec f c →
  path spec x i → path spec x (Fanout.id f).
Proof.
  intros Hf Hc Hx Hi Hp. revert Hi. unfold path in *.
  revert i Hp. refine (rtc_ind_r (λ i, i ∈ region spec f c → rtc _ x (Fanout.id f)) x _ _);
    [done|]. intros y z Hxy Hyz IH Hi.
  destruct (region_node f c z Hf Hc Hi) as (n & _ & Hn).
  destruct (rn_entry _ _ _ _ _ _ Hn y Hyz) as [Hy|[-> _]]; [by apply IH|done].
Qed.

(** A path that leaves a branch leaves it to the join. *)
Lemma branch_left_to_join f c x y :
  f ∈ fanouts spec → c ∈ Fanout.children f → x ∈ region spec f c → y ∉ region spec f c →
  path spec x y → path spec (Fanout.join_id f) y.
Proof.
  intros Hf Hc Hx Hy Hp. revert Hx. unfold path in *.
  induction Hp as [|x z y Hxz Hzy IH]; intros Hx; [done|].
  destruct (region_node f c x Hf Hc Hx) as (n & _ & Hn).
  destruct (rn_exit _ _ _ _ _ _ Hn z Hxz) as [Hz| ->]; [by apply IH|done].
Qed.
End isolation.
