(* ===== verification/SnapshotIssues.v ===== *)
(** * Registry snapshots

[_revision_dependencies] and [_snapshot_issues] of
[orchestrator/app/jarvis_orchestrator/workflows/validation.py]: the immutable
registry revisions a workflow is published with are intact (content hashes),
active, closed under dependencies and mutually compatible. *)
From S2P Require Import Prelude Enums PyJson PyDecimal Failures Verification Registry.
From S2P Require Import WorkflowSpec Predicates Normalize RawValidation Graph GraphIssues.
Local Open Scope Z_scope.
Local Open Scope stdpp_scope.

Notation revision := WorkflowResolvedRevision.t (only parsing).
Notation snapshot := WorkflowResolvedSnapshot.t (only parsing).

Definition plain_issue (code message : string) : WorkflowIssue.t :=
  _issue code message None None None.

(** [{revision.revision_id: revision for revision in revisions}.get(i)]: the
last revision with the ID. *)
Definition find_revision (revisions : list revision) (i : uuid) : option revision :=
  find_key WorkflowResolvedRevision.revision_id i (reverse revisions).

(** [revisions.get(ref) if ref else None]; [bool(uuid)] is true. *)
Definition find_ref (revisions : list revision) (ref : option uuid) : option revision :=
  ref ≫= find_revision revisions.

Definition rev_spec (r : revision) : RegistrySpec := WorkflowResolvedRevision.spec r.
Definition rev_active (r : revision) : bool :=
  WorkflowResolvedRevision.enabled r && negb (WorkflowResolvedRevision.archived r).
Definition rev_has_kind (k : RegistryKind.t) (r : revision) : bool :=
  bool_decide (spec_kind (rev_spec r) = k).

Definition _revision_dependencies (r : revision) : list (uuid * RegistryKind.t) :=
  match rev_spec r with
  | SRoutePolicy s =>
      (λ c, (RouteCandidate.profile_revision_id c, RegistryKind.model_profile))
      <$> RoutePolicySpec.candidates s
  | SModelProfile s => [(ModelProfileSpec.provider_revision_id s, RegistryKind.provider_connection)]
  | SWorker s =>
      (λ i, (i, RegistryKind.model_profile))
      <$> ModelBinding.allowed_profile_revision_ids (WorkerSpec.model_binding s)
  | SProvider s =>
      match ProviderSpec.retry_policy_revision_id s with
      | Some i => [(i, RegistryKind.retry_policy)]
      | None => []
      end
  | _ => []
  end.

(** [set(a) - set(b)] is empty. *)
Definition subset (a b : list string) : bool := forallb (λ x, bool_decide (x ∈ b)) a.

(** The capabilities a profile offers: the declared ones and its flags. *)
Definition offered_capabilities (p : ModelProfileSpec.t) : list string :=
  ModelProfileSpec.capabilities p
  ++ (if ModelProfileSpec.structured_json p then ["structured_json"] else [])
  ++ (if ModelProfileSpec.tool_calls p then ["tool_calls"] else [])
  ++ (if ModelProfileSpec.streaming p then ["streaming"] else []).

(** The loop over the candidates of a route. *)
Definition candidate_issues (revisions : list revision) (route : RoutePolicySpec.t)
    (candidate : RouteCandidate.t) : list WorkflowIssue.t :=
  match rev_spec <$> find_revision revisions (RouteCandidate.profile_revision_id candidate) with
  | Some (SModelProfile profile) =>
      issue_if
        (negb (subset (RoutePolicySpec.required_capabilities route) (offered_capabilities profile))
         || negb (subset (RoutePolicySpec.purposes route) (ModelProfileSpec.purposes profile)))
        (plain_issue "reference.model_capabilities"
           "Route candidate has incompatible capabilities or purposes")
  | _ => []
  end.

(** [allowed_parameters[provider_kind]] *)
Definition provider_parameters (k : ProviderKind.t) : list string :=
  match k with
  | ProviderKind.openai => ["temperature"; "top_p"; "reasoning_effort"]
  | ProviderKind.ollama => ["temperature"; "top_p"; "seed"; "keep_alive"]
  | ProviderKind.demo => ["temperature"; "top_p"; "reasoning_effort"; "seed"; "keep_alive"]
  end.

Definition profile_issues (revisions : list revision) (profile : ModelProfileSpec.t)
    : list WorkflowIssue.t :=
  match rev_spec <$> find_revision revisions (ModelProfileSpec.provider_revision_id profile) with
  | Some (SProvider provider) =>
      issue_if
        (negb (bool_decide (ModelProfileSpec.locality profile = ProviderSpec.locality provider))
         || negb (subset (ModelProfileSpec.parameters profile).*1
                    (provider_parameters (ProviderSpec.provider_kind provider))))
        (plain_issue "reference.provider_compatibility"
           "Profile is incompatible with provider locality or parameters")
  | _ => []
  end.

Definition dependency_issues (revisions : list revision) (dep : uuid * RegistryKind.t)
    : list WorkflowIssue.t :=
  issue_if (negb (match find_revision revisions dep.1 with
                  | Some r => rev_has_kind dep.2 r
                  | None => false
                  end))
    (plain_issue "reference.dependency"
       "Snapshot dependency is missing or has an incompatible type").

Section snapshot.
Context `{PyRuntime} `{ModelDump WorkflowNode.t} `{ModelDump WorkflowEdge.t}
  `{ModelDump NodePolicy.t} `{ModelDump RegistrySpec}.

(** The digest a revision's [content_hash] must equal. *)
Definition revision_digest (r : revision) : string :=
  sha256_digest (JObj
    [("kind", JStr (RegistryKind.value (spec_kind (rev_spec r))));
     ("key", JStr (WorkflowResolvedRevision.key r));
     ("revision", JInt (WorkflowResolvedRevision.revision r));
     ("schema_version", JStr "1.0");
     ("spec", JObj
       [("spec", model_dump (rev_spec r));
        ("display_name", JStr (WorkflowResolvedRevision.display_name r));
        ("description", JStr (WorkflowResolvedRevision.description r));
        ("enabled", JBool (WorkflowResolvedRevision.enabled r));
        ("archived", JBool (WorkflowResolvedRevision.archived r))])]).

(** The loop body over [snapshot.revisions]. *)
Definition revision_issues (revisions : list revision) (r : revision) : list WorkflowIssue.t :=
  issue_if (negb (bool_decide (WorkflowResolvedRevision.content_hash r = revision_digest r)))
    (plain_issue "snapshot.revision_hash" "Snapshot configuration content hash is invalid")
  ++ issue_if (negb (rev_active r))
       (plain_issue "reference.inactive" "Snapshot contains an inactive configuration revision")
  ++ concat (dependency_issues revisions <$> _revision_dependencies r)
  ++ match rev_spec r with
     | SRoutePolicy route =>
         concat (candidate_issues revisions route <$> RoutePolicySpec.candidates route)
     | SModelProfile profile => profile_issues revisions profile
     | _ => []
     end.

Definition _snapshot_issues (spec : nspec) (s : snapshot) : list WorkflowIssue.t :=
  let revisions := WorkflowResolvedSnapshot.revisions s in
  issue_if (negb (bool_decide (WorkflowResolvedSnapshot.compiler_version s = COMPILER_VERSION)))
    (plain_issue "snapshot.compiler_version" "Snapshot compiler version is unsupported")
  ++ issue_if (negb (bool_decide (WorkflowResolvedSnapshot.workflow_content_hash s
                                  = content_hash spec)))
       (plain_issue "snapshot.workflow_hash" "Snapshot does not match normalized workflow hash")
  ++ issue_if (negb (all_distinct (WorkflowResolvedRevision.revision_id <$> revisions)))
       (plain_issue "snapshot.duplicate_revision" "Snapshot revision IDs must be unique")
  ++ concat (revision_issues revisions <$> revisions).

(** ** What a snapshot without issues satisfies *)

(** A revision that is found is active, intact and of the expected kind, with
all it depends on. *)
Record revision_ok (revisions : list revision) (r : revision) : Prop := {
  ro_hash : WorkflowResolvedRevision.content_hash r = revision_digest r;
  ro_active : rev_active r = true;
  ro_dependencies : ∀ i k, (i, k) ∈ _revision_dependencies r →
    ∃ d, find_revision revisions i = Some d ∧ spec_kind (rev_spec d) = k;
  ro_route : ∀ route c, rev_spec r = SRoutePolicy route → c ∈ RoutePolicySpec.candidates route →
    ∃ d profile, find_revision revisions (RouteCandidate.profile_revision_id c) = Some d
      ∧ rev_spec d = SModelProfile profile
      ∧ RoutePolicySpec.required_capabilities route ⊆ offered_capabilities profile
      ∧ RoutePolicySpec.purposes route ⊆ ModelProfileSpec.purposes profile;
  ro_profile : ∀ profile, rev_spec r = SModelProfile profile →
    ∃ d provider, find_revision revisions (ModelProfileSpec.provider_revision_id profile) = Some d
      ∧ rev_spec d = SProvider provider
      ∧ ModelProfileSpec.locality profile = ProviderSpec.locality provider
      ∧ (ModelProfileSpec.parameters profile).*1
        ⊆ provider_parameters (ProviderSpec.provider_kind provider);
}.

Record snapshot_ok (spec : nspec) (s : snapshot) : Prop := {
  so_compiler : WorkflowResolvedSnapshot.compiler_version s = COMPILER_VERSION;
  so_hash : WorkflowResolvedSnapshot.workflow_content_hash s = content_hash spec;
  so_distinct : NoDup (WorkflowResolvedRevision.revision_id
                       <$> WorkflowResolvedSnapshot.revisions s);
  so_revisions : ∀ r, r ∈ WorkflowResolvedSnapshot.revisions s →
    revision_ok (WorkflowResolvedSnapshot.revisions s) r;
}.

Lemma subset_spec a b : subset a b = true ↔ a ⊆ b.
Proof.
  unfold subset. rewrite forallb_forall. split.
  - intros Hall x Hx. apply list_elem_of_In, Hall in Hx. by eapply bool_decide_eq_true.
  - intros Hs x Hx. apply bool_decide_eq_true, Hs. by apply list_elem_of_In.
Qed.

Lemma dependency_issues_nil revisions i k :
  dependency_issues revisions (i, k) = []
  ↔ ∃ d, find_revision revisions i = Some d ∧ spec_kind (rev_spec d) = k.
Proof.
  unfold dependency_issues, rev_has_kind. rewrite issue_if_nil, negb_false_iff; simpl.
  destruct (find_revision revisions i) as [d|]; [|split; [done|by intros (? & ? & _)]].
  rewrite bool_decide_eq_true. naive_solver.
Qed.

Lemma candidate_issues_nil revisions route c :
  dependency_issues revisions (RouteCandidate.profile_revision_id c, RegistryKind.model_profile)
    = [] →
  candidate_issues revisions route c = []
  ↔ ∃ d profile, find_revision revisions (RouteCandidate.profile_revision_id c) = Some d
      ∧ rev_spec d = SModelProfile profile
      ∧ RoutePolicySpec.required_capabilities route ⊆ offered_capabilities profile
      ∧ RoutePolicySpec.purposes route ⊆ ModelProfileSpec.purposes profile.
Proof.
  intros (d & Hd & Hk)%dependency_issues_nil. unfold candidate_issues. rewrite Hd; simpl.
  destruct (rev_spec d) as [| | | |profile| | | | |] eqn:Hs; try done.
  rewrite issue_if_nil, orb_false_iff, !negb_false_iff, !subset_spec. split.
  - intros [? ?]. by exists d, profile.
  - intros (? & ? & [= <-] & Hs' & ? & ?). rewrite Hs in Hs'. injection Hs' as <-. done.
Qed.

Lemma profile_issues_nil revisions profile :
  dependency_issues revisions
    (ModelProfileSpec.provider_revision_id profile, RegistryKind.provider_connection) = [] →
  profile_issues revisions profile = []
  ↔ ∃ d provider, find_revision revisions (ModelProfileSpec.provider_revision_id profile) = Some d
      ∧ rev_spec d = SProvider provider
      ∧ ModelProfileSpec.locality profile = ProviderSpec.locality provider
      ∧ (ModelProfileSpec.parameters profile).*1
        ⊆ provider_parameters (ProviderSpec.provider_kind provider).
Proof.
  intros (d & Hd & Hk)%dependency_issues_nil. unfold profile_issues. rewrite Hd; simpl.
  destruct (rev_spec d) as [| | |provider| | | | | |] eqn:Hs; try done.
  rewrite issue_if_nil, orb_false_iff, !negb_false_iff, subset_spec, bool_decide_eq_true. split.
  - intros [? ?]. by exists d, provider.
  - intros (? & ? & [= <-] & Hs' & ? & ?). rewrite Hs in Hs'. injection Hs' as <-. done.
Qed.

Lemma revision_issues_nil revisions r :
  revision_issues revisions r = [] ↔ revision_ok revisions r.
Proof.
  unfold revision_issues. rewrite !app_nil, !issue_if_nil, !negb_false_iff, bool_decide_eq_true.
  rewrite concat_fmap_nil. split.
  - intros (Hh & Ha & Hd & Hs). split; [done|done| | |].
    + intros i k Hik. by apply dependency_issues_nil, Hd.
    + intros route c Hr Hc. rewrite Hr, concat_fmap_nil in Hs.
      apply candidate_issues_nil; [|by apply Hs]. apply Hd. unfold _revision_dependencies.
      rewrite Hr. apply list_elem_of_fmap. eauto.
    + intros profile Hr. rewrite Hr in Hs. apply profile_issues_nil; [|done]. apply Hd.
      unfold _revision_dependencies. rewrite Hr. by left.
  - intros [Hh Ha Hd Hr Hp].
    assert (∀ x, x ∈ _revision_dependencies r → dependency_issues revisions x = []) as Hdep.
    { intros [i k] Hik. by apply dependency_issues_nil, Hd. }
    split_and!; [done..|]. destruct (rev_spec r) as [| | | |profile|route| | | |] eqn:Hs; try done.
    + apply profile_issues_nil; [|by apply Hp]. apply Hdep. unfold _revision_dependencies.
      rewrite Hs. by left.
    + apply concat_fmap_nil. intros c Hc. apply candidate_issues_nil; [|by apply Hr].
      apply Hdep. unfold _revision_dependencies. rewrite Hs. apply list_elem_of_fmap. eauto.
Qed.

(** [_snapshot_issues] is silent exactly on the intact, closed and compatible
snapshots of the normalized workflow. *)
Lemma _snapshot_issues_spec spec s : _snapshot_issues spec s = [] ↔ snapshot_ok spec s.
Proof.
  unfold _snapshot_issues, all_distinct.
  rewrite !app_nil, !issue_if_nil, !negb_false_iff, !bool_decide_eq_true, concat_fmap_nil.
  setoid_rewrite revision_issues_nil. split; [by intros (? & ? & ? & ?)|by intros []].
Qed.
End snapshot.
