(* ===== verification/PolicyIssues.v ===== *)
(** * Node policies against the snapshot

[_policy_issues] of
[orchestrator/app/jarvis_orchestrator/workflows/validation.py]: every node has
the policy its type requires, permissions and approvals are granted by the
right kind of node, references resolve to active revisions of the right kind,
and every retry edge has a finite, positive, class-specific budget with a
matching exhaustion route.  [policies_ok] says so without the code's functions, and
[_policy_issues_spec] that the check is exact. *)
From S2P Require Import Prelude Enums PyJson PyDecimal Failures Verification Registry.
From S2P Require Import WorkflowSpec Predicates Normalize RawValidation Graph GraphIssues.
From S2P Require Import SnapshotIssues.
Local Open Scope Z_scope.
Local Open Scope stdpp_scope.

Definition policy_issue (code message : string) (n : WorkflowNode.t) (field : string)
    : WorkflowIssue.t :=
  _issue code message (Some (node_id n)) None (Some ("policy." +:+ field)).

Definition here (code message : string) (n : WorkflowNode.t) : WorkflowIssue.t :=
  node_issue code message (node_id n).

Definition definition_of (n : WorkflowNode.t) : NodeDefinition.t :=
  NODE_DEFINITIONS (WorkflowNode.type n).

(** A node's own policy names something its type cannot use. *)
Definition inapplicable_issues (n : WorkflowNode.t) : list WorkflowIssue.t :=
  issue_if (bool_decide (is_Some (NodePolicy.worker_selector (WorkflowNode.policy n)))
            && negb (worker_node (WorkflowNode.type n)))
    (policy_issue "policy.inapplicable" "This node type cannot select a worker" n
       "worker_selector")
  ++ issue_if (bool_decide (is_Some (NodePolicy.model_route_ref (WorkflowNode.policy n)))
               && negb (routable_node (WorkflowNode.type n)))
       (policy_issue "policy.inapplicable" "This node type cannot select a model route" n
          "model_route_ref").

(** [required]: the fields the node type needs, with whether the effective
policy has them. *)
Definition required_fields (policy : NodePolicy.t) (n : WorkflowNode.t) : list (string * bool) :=
  (if NodeDefinition.external (definition_of n) then
     [("timeout_seconds", bool_decide (is_Some (NodePolicy.timeout_seconds policy)));
      ("retry_policy_ref", bool_decide (is_Some (NodePolicy.retry_policy_ref policy)));
      ("permission_policy_ref", bool_decide (is_Some (NodePolicy.permission_policy_ref policy)))]
   else [])
  ++ (if model_node (WorkflowNode.type n) then
        [("model_route_ref", bool_decide (is_Some (NodePolicy.model_route_ref policy)))] else [])
  ++ (if worker_node (WorkflowNode.type n) then
        [("worker_selector", bool_decide (is_Some (NodePolicy.worker_selector policy)))] else []).

Definition required_issues (policy : NodePolicy.t) (n : WorkflowNode.t) : list WorkflowIssue.t :=
  (λ f, policy_issue "policy.required" ("Node requires an effective " +:+ f.1) n f.1)
  <$> filter (λ f, f.2 = false) (required_fields policy n).

(** [policy.verification is None or not policy.verification.required] *)
Definition verify_issues (policy : NodePolicy.t) (n : WorkflowNode.t) : list WorkflowIssue.t :=
  issue_if (is_type WorkflowNodeType.verify n
            && negb (match NodePolicy.verification policy with
                     | Some v => VerificationPolicy.required v
                     | None => false
                     end))
    (here "policy.verification" "Verify requires enabled task verification policy" n).

(** The capabilities a node needs: its type's and its selector's. *)
Definition required_capabilities (policy : NodePolicy.t) (n : WorkflowNode.t) : list string :=
  NodeDefinition.capabilities (definition_of n)
  ++ match NodePolicy.worker_selector policy with
     | Some s => WorkerSelector.requires s
     | None => []
     end.

Definition find_permission (revisions : list revision) (policy : NodePolicy.t)
    : option PermissionPolicySpec.t :=
  match rev_spec <$> find_ref revisions (NodePolicy.permission_policy_ref policy) with
  | Some (SPermissionPolicy p) => Some p
  | _ => None
  end.

(** [operation_decisions] *)
Definition operation_decisions (p : PermissionPolicySpec.t) (n : WorkflowNode.t)
    : list Decision3.t :=
  (if bool_decide (WorkflowNode.type n ∈ [WorkflowNodeType.worker; WorkflowNodeType.integrate;
                                          WorkflowNodeType.github_publish])
   then [PermissionPolicySpec.git p] else [])
  ++ (if worker_node (WorkflowNode.type n) then [PermissionPolicySpec.shell p] else []).

Definition permission_issues (p : PermissionPolicySpec.t) (policy : NodePolicy.t)
    (n : WorkflowNode.t) : list WorkflowIssue.t :=
  let caps := required_capabilities policy n in
  issue_if (existsb (λ c, bool_decide (c ∈ PermissionPolicySpec.denied_capabilities p)) caps
            || negb (subset caps (PermissionPolicySpec.allowed_capabilities p)))
    (here "policy.capability_denied"
       "Permission policy does not allow required node capabilities" n)
  ++ issue_if (bool_decide (Decision3.deny ∈ operation_decisions p n))
       (here "policy.action_denied"
          "Permission policy denies a required shell or Git operation" n).

(** The final value of [approval_required]. *)
Definition approval_required (revisions : list revision) (policy : NodePolicy.t)
    (n : WorkflowNode.t) : bool :=
  is_type WorkflowNodeType.github_publish n
  || match find_permission revisions policy with
     | Some p =>
         match _ACTION_TYPES (WorkflowNode.type n) with
         | Some a => bool_decide (ActionType.value a
                                  ∈ PermissionPolicySpec.approval_required_actions p)
         | None => false
         end
         || bool_decide (Decision3.require_approval ∈ operation_decisions p n)
     | None => false
     end.

(** [approval is None or not approval.required_grant_from] *)
Definition no_grant (policy : NodePolicy.t) : bool :=
  match NodePolicy.approval policy with
  | Some a => WorkflowEdge.blank (ApprovalPolicy.required_grant_from a)
  | None => true
  end.

(** The granting node exists, is an approval and grants this action. *)
Definition grant_matches (spec : nspec) (n : WorkflowNode.t) (a : ApprovalPolicy.t) : bool :=
  match _ACTION_TYPES (WorkflowNode.type n) with
  | None => false
  | Some action =>
      bool_decide (ApprovalPolicy.action_type a = Some action)
      && match WorkflowNode.config
               <$> find_node spec (default "" (ApprovalPolicy.required_grant_from a)) with
         | Some (NodeConfig.ApprovalConfig granted _) => bool_decide (granted = action)
         | _ => false
         end
  end.

Definition approval_issues (spec : nspec) (revisions : list revision) (policy : NodePolicy.t)
    (n : WorkflowNode.t) : list WorkflowIssue.t :=
  issue_if (approval_required revisions policy n && no_grant policy)
    (here "policy.approval" "Protected action requires a named approval grant" n)
  ++ match NodePolicy.approval policy with
     | Some a =>
         issue_if (negb (grant_matches spec n a))
           (here "policy.approval"
              "Approval policy must name a matching typed granting node" n)
     | None => []
     end.

(** [refs]: the revisions the effective policy refers to. *)
Definition policy_refs (policy : NodePolicy.t) : list (option uuid * RegistryKind.t * string) :=
  [(WorkerSelector.revision_id <$> NodePolicy.worker_selector policy, RegistryKind.worker,
     "worker_selector");
   (NodePolicy.model_route_ref policy, RegistryKind.route_policy, "model_route_ref");
   (NodePolicy.retry_policy_ref policy, RegistryKind.retry_policy, "retry_policy_ref");
   (NodePolicy.permission_policy_ref policy, RegistryKind.permission_policy,
     "permission_policy_ref")]
  ++ match NodePolicy.verification policy with
     | Some v =>
         (λ i, (Some i, RegistryKind.execution_profile,
                "verification.execution_profile_revision_ids"))
         <$> VerificationPolicy.execution_profile_revision_ids v
     | None => []
     end.

Definition ref_issues (revisions : list revision) (n : WorkflowNode.t)
    (ref : option uuid * RegistryKind.t * string) : list WorkflowIssue.t :=
  let '(id, kind, field) := ref in
  match id with
  | None => []
  | Some i =>
      match find_revision revisions i with
      | Some r =>
          if rev_has_kind kind r then
            issue_if (negb (rev_active r))
              (policy_issue "reference.inactive" (field +:+ " revision is inactive") n field)
          else [policy_issue "reference.invalid"
                  (field +:+ " revision is missing or has an incompatible type") n field]
      | None => [policy_issue "reference.invalid"
                   (field +:+ " revision is missing or has an incompatible type") n field]
      end
  end.

Definition find_route (revisions : list revision) (policy : NodePolicy.t)
    : option RoutePolicySpec.t :=
  match rev_spec <$> find_ref revisions (NodePolicy.model_route_ref policy) with
  | Some (SRoutePolicy r) => Some r
  | _ => None
  end.

Definition find_worker (revisions : list revision) (policy : NodePolicy.t)
    : option WorkerSpec.t :=
  match rev_spec <$> find_ref revisions
                       (WorkerSelector.revision_id <$> NodePolicy.worker_selector policy) with
  | Some (SWorker w) => Some w
  | _ => None
  end.

(** ["developer" if node.type is WORKER else node.type.value] *)
Definition node_purpose (n : WorkflowNode.t) : string :=
  if is_type WorkflowNodeType.worker n then "developer"
  else WorkflowNodeType.value (WorkflowNode.type n).

Definition route_issues (revisions : list revision) (policy : NodePolicy.t) (n : WorkflowNode.t)
    : list WorkflowIssue.t :=
  match find_route revisions policy with
  | Some route =>
      issue_if (negb (bool_decide (node_purpose n ∈ RoutePolicySpec.purposes route)))
        (here "reference.route_purpose" "Model route does not support this node's purpose" n)
  | None => []
  end.

(** The checks on the selected worker. *)
Definition worker_issues (revisions : list revision) (policy : NodePolicy.t)
    (n : WorkflowNode.t) (w : WorkerSpec.t) : list WorkflowIssue.t :=
  let binding := WorkerSpec.model_binding w in
  issue_if (negb (subset (required_capabilities policy n) (WorkerSpec.capabilities w)))
    (here "reference.worker_capabilities" "Selected worker lacks required capabilities" n)
  ++ issue_if (match NodePolicy.max_concurrency policy with
               | Some m => negb (Z.eqb m 0) && Z.ltb (WorkerSpec.max_concurrency w) m
               | None => false
               end)
       (here "reference.worker_concurrency" "Node concurrency exceeds selected worker capacity" n)
  ++ issue_if (is_type WorkflowNodeType.worker n
               && bool_decide (ModelBinding.mode binding = BindingMode.control_plane)
               && bool_decide (NodePolicy.model_route_ref policy = None))
       (here "policy.required" "Control-plane worker requires a model route" n)
  ++ issue_if (is_type WorkflowNodeType.worker n
               && bool_decide (ModelBinding.mode binding = BindingMode.none)
               && negb (bool_decide (WorkerSpec.adapter_kind w = AdapterKind.demo)))
       (here "reference.worker_model" "Non-demo worker requires an explicit model binding" n)
  ++ issue_if (is_type WorkflowNodeType.worker n
               && negb (Nat.eqb (length (ModelBinding.allowed_profile_revision_ids binding)) 0)
               && match find_route revisions policy with
                  | Some route =>
                      existsb (λ c, negb (bool_decide (RouteCandidate.profile_revision_id c
                                 ∈ ModelBinding.allowed_profile_revision_ids binding)))
                        (RoutePolicySpec.candidates route)
                  | None => false
                  end)
       (here "reference.worker_model" "Model route exceeds worker's declared model binding" n).

Definition check_issues (revisions : list revision) (n : WorkflowNode.t)
    (check : RequiredAcceptanceCheck.t) : list WorkflowIssue.t :=
  match rev_spec <$> find_revision revisions
                       (RequiredAcceptanceCheck.profile_revision_id check) with
  | Some (SExecutionProfile profile) =>
      issue_if (negb (bool_decide
          (default "" (head (VerificationCommand.argv (RequiredAcceptanceCheck.command check)))
           ∈ ExecutionProfileSpec.supported_commands profile)))
        (policy_issue "profile.command_unsupported"
           "Required acceptance command is unsupported by its profile" n
           "verification.required_acceptance_checks")
  | _ => []
  end.

(** The [if snapshot:] block. *)
Definition node_snapshot_issues (revisions : list revision) (policy : NodePolicy.t)
    (n : WorkflowNode.t) : list WorkflowIssue.t :=
  concat (ref_issues revisions n <$> policy_refs policy)
  ++ route_issues revisions policy n
  ++ match find_worker revisions policy with
     | Some w => worker_issues revisions policy n w
     | None => []
     end
  ++ match NodePolicy.verification policy with
     | Some v => concat (check_issues revisions n
                         <$> VerificationPolicy.required_acceptance_checks v)
     | None => []
     end.

(** The loop over the nodes. *)
Definition node_policy_issues (spec : nspec) (s : option snapshot) (n : WorkflowNode.t)
    : list WorkflowIssue.t :=
  let revisions := match s with Some s => WorkflowResolvedSnapshot.revisions s | None => [] end in
  let policy := effective_policy spec n in
  inapplicable_issues n
  ++ required_issues policy n
  ++ verify_issues policy n
  ++ match find_permission revisions policy with
     | Some p => permission_issues p policy n
     | None => []
     end
  ++ approval_issues spec revisions policy n
  ++ match s with
     | Some _ => node_snapshot_issues revisions policy n
     | None => []
     end.

(** ** Retry edges *)

Definition non_retryable_class (c : option FailureClass.t) : bool :=
  match c with Some c => bool_decide (c ∈ non_retryable) | None => false end.

(** [next((rule for rule in rules if rule.failure_class == edge.retry_class), None)] *)
Definition edge_rule (p : RetryPolicySpec) (e : WorkflowEdge.t) : option RetryRule :=
  WorkflowEdge.retry_class e ≫= λ c, find_rule c (rules p).

(** [next((item for item in spec.edges if item.source == edge.source and item.fallback), None)] *)
Definition find_fallback (spec : nspec) (i : string) : option WorkflowEdge.t :=
  head (fallbacks (outgoing spec i)).

(** The fallback's target matches the rule's exhaustion action. *)
Definition exhaustion_matches (spec : nspec) (e : WorkflowEdge.t) (rule : RetryRule) : bool :=
  match find_fallback spec (WorkflowEdge.source e) ≫= λ f, find_node spec (WorkflowEdge.target f)
  with
  | None => false
  | Some target =>
      match exhaustion_action rule with
      | ExhaustionAction.approval => is_type WorkflowNodeType.approval target
      | ExhaustionAction.fail =>
          bool_decide (WorkflowNode.config target = NodeConfig.FinalizeConfig Outcome.failed)
      | ExhaustionAction.block =>
          bool_decide (WorkflowNode.config target = NodeConfig.FinalizeConfig Outcome.blocked)
      end
  end.

Definition find_retry_policy (revisions : list revision) (policy : NodePolicy.t)
    : option RetryPolicySpec :=
  match rev_spec <$> find_ref revisions (NodePolicy.retry_policy_ref policy) with
  | Some (SRetryPolicy p) => Some p
  | _ => None
  end.

(** The loop body over the retry edges. *)
Definition retry_edge_issues (spec : nspec) (s : option snapshot) (e : WorkflowEdge.t)
    : list WorkflowIssue.t :=
  let revisions := match s with Some s => WorkflowResolvedSnapshot.revisions s | None => [] end in
  match find_node spec (WorkflowEdge.source e) with
  | None => []
  | Some n =>
      let policy := effective_policy spec n in
      issue_if (non_retryable_class (WorkflowEdge.retry_class e))
        (edge_issue "cycle.nonretryable" "This failure class cannot be retried" e)
      ++ match NodePolicy.retry_policy_ref policy with
         | None => [edge_issue "cycle.retry_bound" "Retry requires an immutable retry policy" e]
         | Some _ =>
             match find_retry_policy revisions policy with
             | None => []
             | Some p =>
                 match edge_rule p e with
                 | Some rule =>
                     if Z.ltb (max_retries rule) 1 then
                       [edge_issue "cycle.retry_bound"
                          "Retry requires a positive class-specific finite budget" e]
                     else issue_if (negb (exhaustion_matches spec e rule))
                            (edge_issue "cycle.retry_exhaustion"
                               "Retry fallback must match the policy's terminal exhaustion action"
                               e)
                 | None => [edge_issue "cycle.retry_bound"
                              "Retry requires a positive class-specific finite budget" e]
                 end
             end
         end
  end.

Definition retry_edges (spec : nspec) : list WorkflowEdge.t :=
  filter (λ e, WorkflowEdge.kind e = WorkflowEdgeKind.retry) (WorkflowSpec.edges spec).

Definition _policy_issues (spec : nspec) (s : option snapshot) : list WorkflowIssue.t :=
  concat (node_policy_issues spec s <$> WorkflowSpec.nodes spec)
  ++ concat (retry_edge_issues spec s <$> retry_edges spec).

(** ** What a specification without policy issues satisfies *)

(** [ref] resolves to an active revision of [kind]. *)
Definition resolves (revisions : list revision) (ref : option uuid) (kind : RegistryKind.t)
    : Prop :=
  ∃ i r, ref = Some i ∧ find_revision revisions i = Some r
    ∧ spec_kind (rev_spec r) = kind ∧ rev_active r = true.

(** The revision [ref] names has the configuration [x]. *)
Definition denotes (revisions : list revision) (ref : option uuid) (x : RegistrySpec) : Prop :=
  ∃ i r, ref = Some i ∧ find_revision revisions i = Some r ∧ rev_spec r = x.

(** [x] is the first element of [l] with [P]. *)
Definition first_such {A} (P : A → Prop) (l : list A) (x : A) : Prop :=
  ∃ i, l !! i = Some x ∧ P x ∧ ∀ j y, l !! j = Some y → (j < i)%nat → ¬ P y.

(** The capabilities a node needs: its type's and its selector's. *)
Inductive needs (policy : NodePolicy.t) (n : WorkflowNode.t) : string → Prop :=
  | needs_type c : c ∈ NodeDefinition.capabilities (definition_of n) → needs policy n c
  | needs_selector s c :
      NodePolicy.worker_selector policy = Some s → c ∈ WorkerSelector.requires s →
      needs policy n c.

(** The node types that use Git. *)
Definition git_types : list WorkflowNodeType.t :=
  [WorkflowNodeType.worker; WorkflowNodeType.integrate; WorkflowNodeType.github_publish].

(** A permission policy allows all that a node needs. *)
Record permission_ok (p : PermissionPolicySpec.t) (policy : NodePolicy.t) (n : WorkflowNode.t)
    : Prop := {
  pm_capabilities : ∀ c, needs policy n c →
    c ∈ PermissionPolicySpec.allowed_capabilities p
    ∧ c ∉ PermissionPolicySpec.denied_capabilities p;
  pm_git : WorkflowNode.type n ∈ git_types → PermissionPolicySpec.git p ≠ Decision3.deny;
  pm_shell : WorkflowNode.type n ∈ _WORKER_NODES →
    PermissionPolicySpec.shell p ≠ Decision3.deny;
}.

(** A node is protected: it publishes, or its permission policy asks for an approval. *)
Inductive needs_approval (revisions : list revision) (policy : NodePolicy.t) (n : WorkflowNode.t)
    : Prop :=
  | na_publish : WorkflowNode.type n = WorkflowNodeType.github_publish →
      needs_approval revisions policy n
  | na_action p a :
      denotes revisions (NodePolicy.permission_policy_ref policy) (SPermissionPolicy p) →
      _ACTION_TYPES (WorkflowNode.type n) = Some a →
      ActionType.value a ∈ PermissionPolicySpec.approval_required_actions p →
      needs_approval revisions policy n
  | na_git p :
      denotes revisions (NodePolicy.permission_policy_ref policy) (SPermissionPolicy p) →
      WorkflowNode.type n ∈ git_types → PermissionPolicySpec.git p = Decision3.require_approval →
      needs_approval revisions policy n
  | na_shell p :
      denotes revisions (NodePolicy.permission_policy_ref policy) (SPermissionPolicy p) →
      WorkflowNode.type n ∈ _WORKER_NODES →
      PermissionPolicySpec.shell p = Decision3.require_approval →
      needs_approval revisions policy n.

(** The selected worker can do the node's work. *)
Record worker_ok (revisions : list revision) (policy : NodePolicy.t) (n : WorkflowNode.t)
    (w : WorkerSpec.t) : Prop := {
  wk_capabilities : ∀ c, needs policy n c → c ∈ WorkerSpec.capabilities w;
  wk_concurrency : ∀ m, NodePolicy.max_concurrency policy = Some m →
    m = 0 ∨ m ≤ WorkerSpec.max_concurrency w;
  wk_route : WorkflowNode.type n = WorkflowNodeType.worker →
    ModelBinding.mode (WorkerSpec.model_binding w) = BindingMode.control_plane →
    is_Some (NodePolicy.model_route_ref policy);
  wk_model : WorkflowNode.type n = WorkflowNodeType.worker →
    ModelBinding.mode (WorkerSpec.model_binding w) = BindingMode.none →
    WorkerSpec.adapter_kind w = AdapterKind.demo;
  wk_profiles : ∀ route c, WorkflowNode.type n = WorkflowNodeType.worker →
    ModelBinding.allowed_profile_revision_ids (WorkerSpec.model_binding w) ≠ [] →
    denotes revisions (NodePolicy.model_route_ref policy) (SRoutePolicy route) →
    c ∈ RoutePolicySpec.candidates route →
    RouteCandidate.profile_revision_id c
      ∈ ModelBinding.allowed_profile_revision_ids (WorkerSpec.model_binding w);
}.

(** What a node refers to is active, of the right kind, and fits the node. *)
Record references_ok (revisions : list revision) (policy : NodePolicy.t) (n : WorkflowNode.t)
    : Prop := {
  rf_worker : ∀ s, NodePolicy.worker_selector policy = Some s →
    resolves revisions (Some (WorkerSelector.revision_id s)) RegistryKind.worker;
  rf_route : ∀ i, NodePolicy.model_route_ref policy = Some i →
    resolves revisions (Some i) RegistryKind.route_policy;
  rf_retry : ∀ i, NodePolicy.retry_policy_ref policy = Some i →
    resolves revisions (Some i) RegistryKind.retry_policy;
  rf_permission : ∀ i, NodePolicy.permission_policy_ref policy = Some i →
    resolves revisions (Some i) RegistryKind.permission_policy;
  rf_profiles : ∀ v i, NodePolicy.verification policy = Some v →
    i ∈ VerificationPolicy.execution_profile_revision_ids v →
    resolves revisions (Some i) RegistryKind.execution_profile;
  rf_purpose : ∀ route,
    denotes revisions (NodePolicy.model_route_ref policy) (SRoutePolicy route) →
    node_purpose n ∈ RoutePolicySpec.purposes route;
  rf_selected : ∀ w,
    denotes revisions (WorkerSelector.revision_id <$> NodePolicy.worker_selector policy)
      (SWorker w) → worker_ok revisions policy n w;
  rf_checks : ∀ v check profile, NodePolicy.verification policy = Some v →
    check ∈ VerificationPolicy.required_acceptance_checks v →
    denotes revisions (Some (RequiredAcceptanceCheck.profile_revision_id check))
      (SExecutionProfile profile) →
    default "" (head (VerificationCommand.argv (RequiredAcceptanceCheck.command check)))
      ∈ ExecutionProfileSpec.supported_commands profile;
}.

(** The policy of a node: only what its type can use, all that its type needs, and a grant
for what is protected. *)
Record node_policy_ok (spec : nspec) (s : option snapshot) (revisions : list revision)
    (policy : NodePolicy.t) (n : WorkflowNode.t) : Prop := {
  np_selects : is_Some (NodePolicy.worker_selector (WorkflowNode.policy n)) →
    WorkflowNode.type n ∈ _WORKER_NODES;
  np_routes : is_Some (NodePolicy.model_route_ref (WorkflowNode.policy n)) →
    WorkflowNode.type n ∈ _MODEL_NODES ∨ WorkflowNode.type n = WorkflowNodeType.worker;
  np_external : NodeDefinition.external (definition_of n) = true →
    is_Some (NodePolicy.timeout_seconds policy) ∧ is_Some (NodePolicy.retry_policy_ref policy)
    ∧ is_Some (NodePolicy.permission_policy_ref policy);
  np_model : WorkflowNode.type n ∈ _MODEL_NODES → is_Some (NodePolicy.model_route_ref policy);
  np_worker : WorkflowNode.type n ∈ _WORKER_NODES → is_Some (NodePolicy.worker_selector policy);
  np_verify : WorkflowNode.type n = WorkflowNodeType.verify →
    ∃ v, NodePolicy.verification policy = Some v ∧ VerificationPolicy.required v = true;
  np_permission : ∀ p,
    denotes revisions (NodePolicy.permission_policy_ref policy) (SPermissionPolicy p) →
    permission_ok p policy n;
  np_protected : needs_approval revisions policy n →
    ∃ a g, NodePolicy.approval policy = Some a ∧ ApprovalPolicy.required_grant_from a = Some g
           ∧ g ≠ "";
  np_granted : ∀ a, NodePolicy.approval policy = Some a →
    ∃ action expires, _ACTION_TYPES (WorkflowNode.type n) = Some action
      ∧ ApprovalPolicy.action_type a = Some action
      ∧ WorkflowNode.config
          <$> find_node spec (default "" (ApprovalPolicy.required_grant_from a))
        = Some (NodeConfig.ApprovalConfig action expires);
  np_references : is_Some s → references_ok revisions policy n;
}.

(** The node a run is at when the retries of an edge are used up. *)
Definition exhausts (a : ExhaustionAction.t) (target : WorkflowNode.t) : Prop :=
  match a with
  | ExhaustionAction.approval => WorkflowNode.type target = WorkflowNodeType.approval
  | ExhaustionAction.fail =>
      WorkflowNode.config target = NodeConfig.FinalizeConfig Outcome.failed
  | ExhaustionAction.block =>
      WorkflowNode.config target = NodeConfig.FinalizeConfig Outcome.blocked
  end.

(** The budget that policy [p] gives a retry edge: positive, finite, for a class that can be
retried, with the exhaustion action as its fallback. *)
Definition budget_ok (spec : nspec) (e : WorkflowEdge.t) (p : RetryPolicySpec) : Prop :=
  ∃ c rule f target, WorkflowEdge.retry_class e = Some c
    ∧ first_such (λ r, rule_failure_class r = c) (rules p) rule ∧ 1 ≤ max_retries rule
    ∧ first_such (λ f, WorkflowEdge.source f = WorkflowEdge.source e
                       ∧ WorkflowEdge.fallback f = true) (WorkflowSpec.edges spec) f
    ∧ find_node spec (WorkflowEdge.target f) = Some target
    ∧ exhausts (exhaustion_action rule) target.

Record retry_policy_ok (spec : nspec) (revisions : list revision) (e : WorkflowEdge.t)
    (n : WorkflowNode.t) : Prop := {
  re_class : ∀ c, WorkflowEdge.retry_class e = Some c →
    c ∉ [FailureClass.CONFIGURATION_INVALID; FailureClass.SECURITY_POLICY_DENIED;
         FailureClass.APPROVAL_REJECTED; FailureClass.USER_CANCELLED];
  re_policy : is_Some (NodePolicy.retry_policy_ref (effective_policy spec n));
  re_budget : ∀ p,
    denotes revisions (NodePolicy.retry_policy_ref (effective_policy spec n)) (SRetryPolicy p) →
    budget_ok spec e p;
}.

(** [{revision.revision_id: revision ...} if snapshot else {}] *)
Definition revisions_of (s : option snapshot) : list revision :=
  match s with Some s => WorkflowResolvedSnapshot.revisions s | None => [] end.

Record policies_ok (spec : nspec) (s : option snapshot) : Prop := {
  py_nodes : ∀ n, n ∈ WorkflowSpec.nodes spec →
    node_policy_ok spec s (revisions_of s) (effective_policy spec n) n;
  py_retries : ∀ e n, e ∈ WorkflowSpec.edges spec →
    WorkflowEdge.kind e = WorkflowEdgeKind.retry →
    find_node spec (WorkflowEdge.source e) = Some n →
    retry_policy_ok spec (revisions_of s) e n;
}.

(** ** The checks and the conditions *)

Lemma denotes_spec revisions ref x :
  rev_spec <$> find_ref revisions ref = Some x ↔ denotes revisions ref x.
Proof.
  unfold find_ref, denotes. split.
  - intros (r & (i & -> & Hr)%bind_Some & ->)%fmap_Some. by exists i, r.
  - intros (i & r & -> & Hr & <-). simpl. by rewrite Hr.
Qed.

Lemma find_permission_Some revisions policy p :
  find_permission revisions policy = Some p
  ↔ denotes revisions (NodePolicy.permission_policy_ref policy) (SPermissionPolicy p).
Proof.
  rewrite <-denotes_spec. unfold find_permission.
  destruct (rev_spec <$> _) as [[]|]; split; intros Hx; congruence.
Qed.
Lemma find_route_Some revisions policy r :
  find_route revisions policy = Some r
  ↔ denotes revisions (NodePolicy.model_route_ref policy) (SRoutePolicy r).
Proof.
  rewrite <-denotes_spec. unfold find_route.
  destruct (rev_spec <$> _) as [[]|]; split; intros Hx; congruence.
Qed.
Lemma find_worker_Some revisions policy w :
  find_worker revisions policy = Some w
  ↔ denotes revisions (WorkerSelector.revision_id <$> NodePolicy.worker_selector policy)
      (SWorker w).
Proof.
  rewrite <-denotes_spec. unfold find_worker.
  destruct (rev_spec <$> _) as [[]|]; split; intros Hx; congruence.
Qed.
Lemma find_retry_policy_Some revisions policy p :
  find_retry_policy revisions policy = Some p
  ↔ denotes revisions (NodePolicy.retry_policy_ref policy) (SRetryPolicy p).
Proof.
  rewrite <-denotes_spec. unfold find_retry_policy.
  destruct (rev_spec <$> _) as [[]|]; split; intros Hx; congruence.
Qed.

Lemma worker_node_iff ty : worker_node ty = true ↔ ty ∈ _WORKER_NODES.
Proof. apply bool_decide_eq_true. Qed.
Lemma model_node_iff ty : model_node ty = true ↔ ty ∈ _MODEL_NODES.
Proof. apply bool_decide_eq_true. Qed.

Lemma needs_iff policy n c : c ∈ required_capabilities policy n ↔ needs policy n c.
Proof.
  unfold required_capabilities. rewrite elem_of_app. split.
  - intros [?|Hc]; [by constructor|]. destruct (NodePolicy.worker_selector policy) as [s|] eqn:Hs.
    + by eapply needs_selector.
    + by apply elem_of_nil in Hc.
  - destruct 1 as [c Hc|s c Hs Hc]; [by left|right]. by rewrite Hs.
Qed.

Lemma subset_needs policy n l :
  subset (required_capabilities policy n) l = true ↔ ∀ c, needs policy n c → c ∈ l.
Proof. rewrite subset_spec. unfold subseteq, list_subseteq. by setoid_rewrite needs_iff. Qed.

Lemma elem_of_decisions p n d :
  d ∈ operation_decisions p n
  ↔ (WorkflowNode.type n ∈ git_types ∧ PermissionPolicySpec.git p = d)
    ∨ (WorkflowNode.type n ∈ _WORKER_NODES ∧ PermissionPolicySpec.shell p = d).
Proof.
  unfold operation_decisions. fold git_types. rewrite elem_of_app.
  assert (∀ (b : bool) x, d ∈ (if b then [x] else []) ↔ b = true ∧ x = d) as Hif.
  { intros [] x; [rewrite list_elem_of_singleton|rewrite elem_of_nil]; naive_solver. }
  by rewrite !Hif, bool_decide_eq_true, worker_node_iff.
Qed.

Lemma inapplicable_nil n :
  inapplicable_issues n = []
  ↔ (is_Some (NodePolicy.worker_selector (WorkflowNode.policy n)) →
       WorkflowNode.type n ∈ _WORKER_NODES)
    ∧ (is_Some (NodePolicy.model_route_ref (WorkflowNode.policy n)) →
       WorkflowNode.type n ∈ _MODEL_NODES ∨ WorkflowNode.type n = WorkflowNodeType.worker).
Proof.
  unfold inapplicable_issues, routable_node.
  rewrite app_nil, !issue_if_nil, !andb_false_iff, !negb_false_iff, orb_true_iff.
  rewrite !bool_decide_eq_false, worker_node_iff, model_node_iff, bool_decide_eq_true.
  destruct (NodePolicy.worker_selector _), (NodePolicy.model_route_ref _); rewrite ?is_Some_alt;
    naive_solver.
Qed.

Lemma required_nil policy n :
  required_issues policy n = []
  ↔ (NodeDefinition.external (definition_of n) = true →
       is_Some (NodePolicy.timeout_seconds policy) ∧ is_Some (NodePolicy.retry_policy_ref policy)
       ∧ is_Some (NodePolicy.permission_policy_ref policy))
    ∧ (WorkflowNode.type n ∈ _MODEL_NODES → is_Some (NodePolicy.model_route_ref policy))
    ∧ (WorkflowNode.type n ∈ _WORKER_NODES → is_Some (NodePolicy.worker_selector policy)).
Proof.
  assert (required_issues policy n = []
    ↔ ∀ f b, (f, b) ∈ required_fields policy n → b = true) as ->.
  { unfold required_issues. rewrite fmap_nil_iff. split.
    - intros Hnil f [] Hf; [done|].
      assert ((f, false) ∈ filter (λ f, f.2 = false) (required_fields policy n)) as Hin
        by (by apply list_elem_of_filter).
      rewrite Hnil in Hin. by apply elem_of_nil in Hin.
    - intros Hall. apply elem_of_nil_inv. intros [f b] [Hb Hf]%list_elem_of_filter.
      simpl in Hb. apply Hall in Hf. congruence. }
  rewrite <-worker_node_iff, <-model_node_iff. unfold required_fields.
  destruct (NodeDefinition.external _), (model_node _), (worker_node _); cbn [app];
    repeat setoid_rewrite elem_of_cons; setoid_rewrite elem_of_nil;
    (split; [intros Hall; split_and!; intros; try done; split_and?;
             eapply bool_decide_eq_true, Hall; eauto 10
            |intros (He & Hm & Hw) f b Hin; destruct_or?; simplify_eq; try done;
             apply bool_decide_eq_true; naive_solver]).
Qed.

Lemma verify_nil policy n :
  verify_issues policy n = []
  ↔ (WorkflowNode.type n = WorkflowNodeType.verify →
     ∃ v, NodePolicy.verification policy = Some v ∧ VerificationPolicy.required v = true).
Proof.
  unfold verify_issues, is_type. rewrite issue_if_nil, andb_false_iff, negb_false_iff.
  rewrite bool_decide_eq_false. split.
  - intros [?|Hr] Ht; [done|]. destruct (NodePolicy.verification policy) as [v|]; [eauto|done].
  - intros H. destruct (decide (WorkflowNode.type n = WorkflowNodeType.verify)) as [Ht|];
      [right|by left]. by destruct (H Ht) as (v & -> & ?).
Qed.

Lemma permission_nil p policy n : permission_issues p policy n = [] ↔ permission_ok p policy n.
Proof.
  unfold permission_issues. rewrite app_nil, !issue_if_nil, orb_false_iff, negb_false_iff.
  rewrite subset_needs, bool_decide_eq_false, elem_of_decisions.
  rewrite existsb_false. setoid_rewrite bool_decide_eq_false.
  split.
  - intros [[Hd Ha] Hdec]. split; [|naive_solver..].
    intros c Hc. split; [by apply Ha|]. by apply Hd, needs_iff.
  - intros [Hc Hg Hs]. split; [split|naive_solver].
    + intros c Hin%needs_iff. by apply Hc.
    + intros c Hn. by apply Hc.
Qed.

Lemma approval_required_iff revisions policy n :
  approval_required revisions policy n = true ↔ needs_approval revisions policy n.
Proof.
  unfold approval_required, is_type. rewrite orb_true_iff, bool_decide_eq_true. split.
  - intros [?|Hp]; [by apply na_publish|].
    destruct (find_permission revisions policy) as [p|] eqn:Hf; [|done].
    apply find_permission_Some in Hf. apply orb_true_iff in Hp as [Ha|Hd].
    + destruct (_ACTION_TYPES _) as [a|] eqn:Hty; [|done]. apply bool_decide_eq_true in Ha.
      by eapply na_action.
    + apply bool_decide_eq_true, elem_of_decisions in Hd as [[??]|[??]];
        [by eapply na_git|by eapply na_shell].
  - destruct 1 as [?|p a Hp Ha Hin|p Hp Ht Hg|p Hp Ht Hs]; [by left|right..];
      apply find_permission_Some in Hp; rewrite Hp; apply orb_true_iff.
    + left. rewrite Ha. by apply bool_decide_eq_true.
    + right. apply bool_decide_eq_true, elem_of_decisions. by left.
    + right. apply bool_decide_eq_true, elem_of_decisions. by right.
Qed.

Lemma grant_matches_iff spec n a :
  grant_matches spec n a = true
  ↔ ∃ action expires, _ACTION_TYPES (WorkflowNode.type n) = Some action
      ∧ ApprovalPolicy.action_type a = Some action
      ∧ WorkflowNode.config
          <$> find_node spec (default "" (ApprovalPolicy.required_grant_from a))
        = Some (NodeConfig.ApprovalConfig action expires).
Proof.
  unfold grant_matches. destruct (_ACTION_TYPES _) as [action|]; [|naive_solver].
  rewrite andb_true_iff, bool_decide_eq_true.
  destruct (WorkflowNode.config <$> _) as [[]|]; try (split; [by intros [_ ?]|naive_solver]).
  rewrite bool_decide_eq_true. naive_solver.
Qed.

Lemma approval_nil spec revisions policy n :
  approval_issues spec revisions policy n = []
  ↔ (needs_approval revisions policy n →
      ∃ a g, NodePolicy.approval policy = Some a ∧ ApprovalPolicy.required_grant_from a = Some g
             ∧ g ≠ "")
    ∧ ∀ a, NodePolicy.approval policy = Some a →
        ∃ action expires, _ACTION_TYPES (WorkflowNode.type n) = Some action
          ∧ ApprovalPolicy.action_type a = Some action
          ∧ WorkflowNode.config
              <$> find_node spec (default "" (ApprovalPolicy.required_grant_from a))
            = Some (NodeConfig.ApprovalConfig action expires).
Proof.
  unfold approval_issues. rewrite app_nil, issue_if_nil, andb_false_iff.
  assert (no_grant policy = false
    ↔ ∃ a g, NodePolicy.approval policy = Some a ∧ ApprovalPolicy.required_grant_from a = Some g
             ∧ g ≠ "") as ->.
  { unfold no_grant, WorkflowEdge.blank. destruct (NodePolicy.approval policy) as [a|];
      [|naive_solver].
    destruct (ApprovalPolicy.required_grant_from a) as [g|] eqn:Hg.
    - rewrite bool_decide_eq_false. split; [eauto|naive_solver].
    - split; [done|]. intros (? & ? & [= <-] & ? & _). congruence. }
  f_equiv.
  - rewrite <-approval_required_iff. destruct (approval_required _ _ _); naive_solver.
  - setoid_rewrite <-grant_matches_iff.
    destruct (NodePolicy.approval policy) as [a|]; [|naive_solver].
    rewrite issue_if_nil, negb_false_iff. naive_solver.
Qed.

Lemma ref_issues_nil revisions n ref k f :
  ref_issues revisions n (ref, k, f) = [] ↔ ∀ i, ref = Some i → resolves revisions (Some i) k.
Proof.
  unfold ref_issues, rev_has_kind, resolves. destruct ref as [i|]; [|naive_solver].
  destruct (find_revision revisions i) as [r|] eqn:Hr.
  - case_bool_decide as Hk.
    + rewrite issue_if_nil, negb_false_iff. split; [|naive_solver].
      intros Ha ? [= <-]. by exists i, r.
    + split; [done|]. intros H. destruct (H i eq_refl) as (? & ? & [= <-] & ? & ? & _). congruence.
  - split; [done|]. intros H. destruct (H i eq_refl) as (? & ? & [= <-] & ? & _). congruence.
Qed.

Lemma refs_nil revisions policy n :
  concat (ref_issues revisions n <$> policy_refs policy) = []
  ↔ (∀ s, NodePolicy.worker_selector policy = Some s →
       resolves revisions (Some (WorkerSelector.revision_id s)) RegistryKind.worker)
    ∧ (∀ i, NodePolicy.model_route_ref policy = Some i →
         resolves revisions (Some i) RegistryKind.route_policy)
    ∧ (∀ i, NodePolicy.retry_policy_ref policy = Some i →
         resolves revisions (Some i) RegistryKind.retry_policy)
    ∧ (∀ i, NodePolicy.permission_policy_ref policy = Some i →
         resolves revisions (Some i) RegistryKind.permission_policy)
    ∧ ∀ v i, NodePolicy.verification policy = Some v →
        i ∈ VerificationPolicy.execution_profile_revision_ids v →
        resolves revisions (Some i) RegistryKind.execution_profile.
Proof.
  unfold policy_refs. rewrite fmap_app, concat_app, app_nil. cbn [fmap list_fmap concat].
  rewrite !app_nil, !ref_issues_nil.
  assert (concat (ref_issues revisions n <$> match NodePolicy.verification policy with
     | Some v => (λ i, (Some i, RegistryKind.execution_profile,
                        "verification.execution_profile_revision_ids"))
                 <$> VerificationPolicy.execution_profile_revision_ids v
     | None => []
     end) = []
    ↔ ∀ v i, NodePolicy.verification policy = Some v →
        i ∈ VerificationPolicy.execution_profile_revision_ids v →
        resolves revisions (Some i) RegistryKind.execution_profile) as ->.
  { destruct (NodePolicy.verification policy) as [v|]; [|naive_solver].
    rewrite concat_fmap_nil. setoid_rewrite list_elem_of_fmap. split.
    - intros H ? i [= <-] Hi. eapply ref_issues_nil; [|done]. apply H. by exists i.
    - intros H x (i & -> & Hi). apply ref_issues_nil. intros ? [= <-]. by eapply H. }
  destruct (NodePolicy.worker_selector policy); naive_solver.
Qed.

Lemma route_nil revisions policy n :
  route_issues revisions policy n = []
  ↔ ∀ route, denotes revisions (NodePolicy.model_route_ref policy) (SRoutePolicy route) →
      node_purpose n ∈ RoutePolicySpec.purposes route.
Proof.
  setoid_rewrite <-find_route_Some. unfold route_issues.
  destruct (find_route revisions policy) as [r|]; [|naive_solver].
  rewrite issue_if_nil, negb_false_iff, bool_decide_eq_true. naive_solver.
Qed.

Lemma concurrency_false policy w :
  match NodePolicy.max_concurrency policy with
  | Some m => negb (Z.eqb m 0) && Z.ltb (WorkerSpec.max_concurrency w) m
  | None => false
  end = false
  ↔ ∀ m, NodePolicy.max_concurrency policy = Some m → m = 0 ∨ m ≤ WorkerSpec.max_concurrency w.
Proof.
  destruct (NodePolicy.max_concurrency policy) as [m|]; [|naive_solver].
  rewrite andb_false_iff, negb_false_iff, Z.eqb_eq, Z.ltb_ge. naive_solver.
Qed.

Lemma outside_false revisions policy (l : list uuid) :
  match find_route revisions policy with
  | Some route => existsb (λ c, negb (bool_decide (RouteCandidate.profile_revision_id c ∈ l)))
                    (RoutePolicySpec.candidates route)
  | None => false
  end = false
  ↔ ∀ route c, denotes revisions (NodePolicy.model_route_ref policy) (SRoutePolicy route) →
      c ∈ RoutePolicySpec.candidates route → RouteCandidate.profile_revision_id c ∈ l.
Proof.
  setoid_rewrite <-find_route_Some.
  destruct (find_route revisions policy) as [r|]; [|naive_solver].
  rewrite existsb_false. setoid_rewrite negb_false_iff. setoid_rewrite bool_decide_eq_true.
  naive_solver.
Qed.

Lemma worker_nil revisions policy n w :
  worker_issues revisions policy n w = [] ↔ worker_ok revisions policy n w.
Proof.
  unfold worker_issues, is_type.
  rewrite !app_nil, !issue_if_nil, !andb_false_iff, concurrency_false, outside_false.
  rewrite !negb_false_iff, subset_needs, !bool_decide_eq_false, bool_decide_eq_true, Nat.eqb_eq.
  rewrite length_zero_iff_nil.
  destruct (decide (WorkflowNode.type n = WorkflowNodeType.worker)) as [Ht|Ht].
  - split.
    + intros (Hc & Hm & Hr & Hd & Hp). split; [done|done| | |].
      * intros _ Hmode. destruct (NodePolicy.model_route_ref policy); [done|].
        destruct Hr as [[]|]; done.
      * intros _ Hmode. by destruct Hd as [[]|].
      * intros route c _ Hne. destruct Hp as [[]|Hp]; [done|done|]. apply Hp.
    + intros [Hc Hm Hr Hd Hp]. split_and!; [done|done| | |].
      * destruct (decide (ModelBinding.mode (WorkerSpec.model_binding w)
                          = BindingMode.control_plane)) as [Hmode|]; [|by left; right].
        right. destruct (Hr Ht Hmode) as [x ->]. done.
      * destruct (decide (ModelBinding.mode (WorkerSpec.model_binding w) = BindingMode.none))
          as [Hmode|]; [right; by apply Hd|by left; right].
      * destruct (decide (ModelBinding.allowed_profile_revision_ids
                            (WorkerSpec.model_binding w) = [])) as [|Hne]; [by left; right|].
        right. intros route c. by apply Hp.
  - split; [|intros []; split_and!; [done|done|by left; left..]].
    intros (Hc & Hm & _). by split.
Qed.

Lemma checks_nil revisions n v :
  concat (check_issues revisions n <$> VerificationPolicy.required_acceptance_checks v) = []
  ↔ ∀ check profile, check ∈ VerificationPolicy.required_acceptance_checks v →
      denotes revisions (Some (RequiredAcceptanceCheck.profile_revision_id check))
        (SExecutionProfile profile) →
      default "" (head (VerificationCommand.argv (RequiredAcceptanceCheck.command check)))
        ∈ ExecutionProfileSpec.supported_commands profile.
Proof.
  rewrite concat_fmap_nil. setoid_rewrite <-denotes_spec. unfold check_issues, find_ref.
  cbn [mbind option_bind]. split.
  - intros H c p Hc Hp. specialize (H c Hc). rewrite Hp, issue_if_nil, negb_false_iff in H.
    by apply bool_decide_eq_true in H.
  - intros H c Hc. destruct (rev_spec <$> _) as [[| | | | | | | |p|]|] eqn:Hp; try done.
    apply issue_if_nil, negb_false_iff, bool_decide_eq_true. by eapply H.
Qed.

Lemma references_nil revisions policy n :
  node_snapshot_issues revisions policy n = [] ↔ references_ok revisions policy n.
Proof.
  unfold node_snapshot_issues. rewrite !app_nil, refs_nil, route_nil.
  assert (match find_worker revisions policy with
          | Some w => worker_issues revisions policy n w
          | None => []
          end = []
    ↔ ∀ w, denotes revisions (WorkerSelector.revision_id <$> NodePolicy.worker_selector policy)
             (SWorker w) → worker_ok revisions policy n w) as ->.
  { setoid_rewrite <-find_worker_Some. setoid_rewrite <-worker_nil.
    destruct (find_worker revisions policy); naive_solver. }
  assert (match NodePolicy.verification policy with
          | Some v => concat (check_issues revisions n
                              <$> VerificationPolicy.required_acceptance_checks v)
          | None => []
          end = []
    ↔ ∀ v check profile, NodePolicy.verification policy = Some v →
        check ∈ VerificationPolicy.required_acceptance_checks v →
        denotes revisions (Some (RequiredAcceptanceCheck.profile_revision_id check))
          (SExecutionProfile profile) →
        default "" (head (VerificationCommand.argv (RequiredAcceptanceCheck.command check)))
          ∈ ExecutionProfileSpec.supported_commands profile) as ->.
  { destruct (NodePolicy.verification policy) as [v|]; [|naive_solver].
    rewrite checks_nil. naive_solver. }
  split; [by intros ((?&?&?&?&?)&?&?&?)|by intros []].
Qed.

Lemma node_policy_nil spec s n :
  node_policy_issues spec s n = []
  ↔ node_policy_ok spec s (revisions_of s) (effective_policy spec n) n.
Proof.
  unfold node_policy_issues. fold (revisions_of s). set (policy := effective_policy spec n).
  rewrite !app_nil, inapplicable_nil, required_nil, verify_nil, approval_nil.
  assert (match find_permission (revisions_of s) policy with
          | Some p => permission_issues p policy n
          | None => []
          end = []
    ↔ ∀ p, denotes (revisions_of s) (NodePolicy.permission_policy_ref policy)
             (SPermissionPolicy p) → permission_ok p policy n) as ->.
  { setoid_rewrite <-find_permission_Some. setoid_rewrite <-permission_nil.
    destruct (find_permission _ policy); naive_solver. }
  assert (match s with
          | Some _ => node_snapshot_issues (revisions_of s) policy n
          | None => []
          end = [] ↔ (is_Some s → references_ok (revisions_of s) policy n)) as ->.
  { rewrite <-references_nil. destruct s; [naive_solver|]. rewrite is_Some_alt. naive_solver. }
  split; [by intros ((?&?)&(?&?&?)&?&?&(?&?)&?)|by intros []].
Qed.

Lemma first_such_filter {A} (P : A → Prop) `{∀ x, Decision (P x)} l x :
  head (filter P l) = Some x ↔ first_such P l x.
Proof.
  unfold first_such. induction l as [|y l IH].
  { split; [done|]. intros (i & Hi & _). by rewrite lookup_nil in Hi. }
  rewrite filter_cons. destruct (decide (P y)) as [Hy|Hy].
  - simpl. split.
    + intros [= <-]. exists 0%nat. split_and!; [done..|]. intros; lia.
    + intros ([|i] & Hi & Hx & Hall); [by injection Hi as ->|].
      destruct (Hall 0%nat y); [done|lia|done].
  - rewrite IH. split.
    + intros (i & Hi & Hx & Hall). exists (S i). split_and!; [done..|].
      intros [|j] z; simpl; [by intros [= <-]|]. intros Hz Hj. apply (Hall j z Hz). lia.
    + intros ([|i] & Hi & Hx & Hall); [by injection Hi as ->|]. exists i. split_and!; [done..|].
      intros j z Hz Hj. apply (Hall (S j) z); [done|lia].
Qed.

Lemma find_rule_first c rs r :
  find_rule c rs = Some r ↔ first_such (λ r, rule_failure_class r = c) rs r.
Proof.
  unfold find_rule, first_such. destruct (list_find _ rs) as [[i x]|] eqn:Hf; simpl.
  - apply list_find_Some in Hf as (Hi & Hx & Hall). split; [intros [= <-]; by exists i|].
    intros (j & Hj & Hr & Hallj). f_equal.
    destruct (Nat.lt_trichotomy i j) as [Hlt|[->|Hlt]]; [|congruence|].
    + by destruct (Hallj i x Hi Hlt).
    + by destruct (Hall j r Hj Hlt).
  - apply list_find_None in Hf. rewrite Forall_lookup in Hf. split; [done|].
    intros (i & Hi & Hr & _). by destruct (Hf i r Hi).
Qed.

Lemma find_fallback_first spec i f :
  find_fallback spec i = Some f
  ↔ first_such (λ f, WorkflowEdge.source f = i ∧ WorkflowEdge.fallback f = true)
      (WorkflowSpec.edges spec) f.
Proof.
  rewrite <-first_such_filter. unfold find_fallback, fallbacks, outgoing.
  assert (∀ l : list WorkflowEdge.t,
    filter (λ e, WorkflowEdge.fallback e = true) (filter (λ e, WorkflowEdge.source e = i) l)
    = filter (λ e, WorkflowEdge.source e = i ∧ WorkflowEdge.fallback e = true) l) as ->; [|done].
  intros l. rewrite list_filter_filter. apply list_filter_iff. tauto.
Qed.

Lemma exhausts_iff spec e rule :
  exhaustion_matches spec e rule = true
  ↔ ∃ f target,
      first_such (λ f, WorkflowEdge.source f = WorkflowEdge.source e
                       ∧ WorkflowEdge.fallback f = true) (WorkflowSpec.edges spec) f
      ∧ find_node spec (WorkflowEdge.target f) = Some target
      ∧ exhausts (exhaustion_action rule) target.
Proof.
  setoid_rewrite <-find_fallback_first. unfold exhaustion_matches, is_type.
  destruct (find_fallback _ _) as [f|]; simpl; [|naive_solver].
  destruct (find_node spec (WorkflowEdge.target f)) as [t|] eqn:Ht; [|naive_solver].
  transitivity (exhausts (exhaustion_action rule) t); [|naive_solver].
  destruct (exhaustion_action rule); apply bool_decide_eq_true.
Qed.

Lemma budget_iff spec e p :
  match edge_rule p e with
  | Some rule =>
      if Z.ltb (max_retries rule) 1 then
        [edge_issue "cycle.retry_bound"
           "Retry requires a positive class-specific finite budget" e]
      else issue_if (negb (exhaustion_matches spec e rule))
             (edge_issue "cycle.retry_exhaustion"
                "Retry fallback must match the policy's terminal exhaustion action" e)
  | None => [edge_issue "cycle.retry_bound"
               "Retry requires a positive class-specific finite budget" e]
  end = [] ↔ budget_ok spec e p.
Proof.
  unfold edge_rule, budget_ok. setoid_rewrite <-find_rule_first.
  destruct (WorkflowEdge.retry_class e) as [c|]; simpl; [|naive_solver].
  destruct (find_rule c (rules p)) as [rule|] eqn:Hf; [|naive_solver].
  destruct (Z.ltb_spec (max_retries rule) 1).
  - split; [done|]. intros (? & ? & ? & ? & [= <-] & ? & ? & _). simplify_eq. lia.
  - rewrite issue_if_nil, negb_false_iff, exhausts_iff. naive_solver.
Qed.

Lemma retry_edge_nil spec s e n :
  find_node spec (WorkflowEdge.source e) = Some n →
  retry_edge_issues spec s e = [] ↔ retry_policy_ok spec (revisions_of s) e n.
Proof.
  intros Hn. unfold retry_edge_issues. fold (revisions_of s). rewrite Hn, app_nil, issue_if_nil.
  set (policy := effective_policy spec n).
  assert (non_retryable_class (WorkflowEdge.retry_class e) = false
    ↔ ∀ c, WorkflowEdge.retry_class e = Some c → c ∉ non_retryable) as ->.
  { unfold non_retryable_class. destruct (WorkflowEdge.retry_class e) as [c|]; [|naive_solver].
    rewrite bool_decide_eq_false. naive_solver. }
  transitivity ((∀ c, WorkflowEdge.retry_class e = Some c → c ∉ non_retryable)
    ∧ is_Some (NodePolicy.retry_policy_ref policy)
    ∧ ∀ p, denotes (revisions_of s) (NodePolicy.retry_policy_ref policy) (SRetryPolicy p) →
        budget_ok spec e p); [|split; [by intros (?&?&?)|by intros []]].
  f_equiv. setoid_rewrite <-find_retry_policy_Some. setoid_rewrite <-budget_iff.
  destruct (NodePolicy.retry_policy_ref policy) eqn:Hr;
    [|split; [done|by intros [[] _]]].
  destruct (find_retry_policy _ _) as [p|]; naive_solver.
Qed.

(** [_policy_issues] reports nothing exactly when the conditions hold. *)
Lemma _policy_issues_spec spec s :
  WorkflowSpec.wf spec → _policy_issues spec s = [] ↔ policies_ok spec s.
Proof.
  intros Hwf. unfold _policy_issues. rewrite app_nil, !concat_fmap_nil.
  setoid_rewrite node_policy_nil. split.
  - intros [Hn He]. split; [done|]. intros e n Hin Hk Hf. apply (retry_edge_nil _ s e n Hf), He.
    by apply list_elem_of_filter.
  - intros [Hn He]. split; [done|]. intros e [Hk Hin]%list_elem_of_filter.
    destruct (proj2 (find_key_is_Some node_id (WorkflowEdge.source e) (WorkflowSpec.nodes spec))
      (WorkflowSpec.wf_source _ Hwf e Hin)) as [n Hf].
    apply (retry_edge_nil _ s e n Hf). by apply He.
Qed.

(** ** What the graph theorems use *)

(** A granting node for a protected action. *)
Definition granted_by (spec : nspec) (n : WorkflowNode.t) (policy : NodePolicy.t) : Prop :=
  ∃ a g action expires, NodePolicy.approval policy = Some a
    ∧ ApprovalPolicy.required_grant_from a = Some g
    ∧ _ACTION_TYPES (WorkflowNode.type n) = Some action
    ∧ ApprovalPolicy.action_type a = Some action
    ∧ WorkflowNode.config <$> find_node spec g = Some (NodeConfig.ApprovalConfig action expires).

(** The budget of a validated retry edge. *)
Record retry_ok (spec : nspec) (revisions : list revision) (e : WorkflowEdge.t) : Prop := {
  rt_policy : ∃ n p rule c, find_node spec (WorkflowEdge.source e) = Some n
    ∧ find_retry_policy revisions (effective_policy spec n) = Some p
    ∧ WorkflowEdge.retry_class e = Some c ∧ find_rule c (rules p) = Some rule
    ∧ 1 ≤ max_retries rule ∧ c ∉ non_retryable;
}.

Section policy_lemmas.
Variables (spec : nspec) (s : snapshot).
Notation revs := (WorkflowResolvedSnapshot.revisions s).
Hypothesis Hok : policies_ok spec (Some s).

(** Every protected publication names a granting approval node for exactly its
action; and so does every node that states an approval policy. *)
Lemma publish_granted n :
  n ∈ WorkflowSpec.nodes spec → WorkflowNode.type n = WorkflowNodeType.github_publish →
  granted_by spec n (effective_policy spec n).
Proof.
  intros Hn Hty. destruct (py_nodes _ _ Hok n Hn) as [_ _ _ _ _ _ _ Hp Hg _].
  destruct Hp as (a & g & Ha & Hgf & _); [by apply na_publish|].
  destruct (Hg a Ha) as (action & expires & Hact & Haa & Hc). rewrite Hgf in Hc.
  by exists a, g, action, expires.
Qed.

(** Every retry edge has a positive finite budget for a retryable class. *)
Lemma retry_edge_ok e :
  WorkflowSpec.wf spec → e ∈ WorkflowSpec.edges spec →
  WorkflowEdge.kind e = WorkflowEdgeKind.retry →
  retry_ok spec revs e.
Proof.
  intros Hwf He Hk.
  destruct (proj2 (find_key_is_Some node_id (WorkflowEdge.source e) (WorkflowSpec.nodes spec))
    (WorkflowSpec.wf_source _ Hwf e He)) as [n Hf].
  destruct (py_retries _ _ Hok e n He Hk Hf) as [Hclass [i Hi] Hb].
  assert (n ∈ WorkflowSpec.nodes spec) as Hn by (by apply find_key_Some in Hf as [? _]).
  destruct (np_references _ _ _ _ _ (py_nodes _ _ Hok n Hn) ltac:(by eexists))
    as [_ _ Hr _ _ _ _ _].
  destruct (Hr i Hi) as (? & r & [= <-] & Hfind & Hkind & _).
  assert (∃ p, find_retry_policy revs (effective_policy spec n) = Some p) as [p Hp].
  { unfold find_retry_policy. rewrite Hi; simpl. simpl in Hfind. rewrite Hfind; simpl.
    destruct (rev_spec r); try done. eauto. }
  destruct (Hb p) as (c & rule & f & t & Hc & Hrule & Hmax & _);
    [by apply find_retry_policy_Some|].
  constructor. exists n, p, rule, c. split_and!; [done..| |done|by apply Hclass].
  by apply find_rule_first.
Qed.
End policy_lemmas.
