(* ===== verification/Protected.v ===== *)
(** * Protected paths

[_protected_paths] of
[orchestrator/app/jarvis_orchestrator/workflows/validation.py]: a finite abstract
interpretation of every path from the entrypoint that tracks whether the current
work was verified and reviewed, and a reachability argument for approvals.

The theorems relate it to concrete histories: [trail spec h x] holds when a run
that starts at the entrypoint can be at [x] having visited [h] (newest first).
The checks are silent exactly when no history reaches a review, a publication or
a success without the evidence it needs, and a protected action is never reached
without its grant or with a grant older than the last worker. *)
From S2P Require Import Prelude Enums PyJson PyDecimal Failures Verification Registry.
From S2P Require Import WorkflowSpec Predicates Normalize RawValidation Graph GraphIssues.
Local Open Scope Z_scope.
Local Open Scope stdpp_scope.

(** [(verified, reviewed, verification_required)] *)
Notation evidence := (bool * bool * bool)%type (only parsing).
(** [identity] *)
Notation identity := (string * (bool * bool * bool))%type (only parsing).

Definition verified (ev : evidence) : bool := ev.1.1.
Definition reviewed (ev : evidence) : bool := ev.1.2.
Definition verification_required (ev : evidence) : bool := ev.2.

(** [policy.verification is not None and policy.verification.required] *)
Definition policy_requires (policy : NodePolicy.t) : bool :=
  match NodePolicy.verification policy with
  | Some v => VerificationPolicy.required v
  | None => false
  end.

(** The evidence after a node. *)
Definition after_node (spec : nspec) (n : WorkflowNode.t) (ev : evidence) : evidence :=
  match WorkflowNode.type n with
  | WorkflowNodeType.worker => (false, false, policy_requires (effective_policy spec n))
  | WorkflowNodeType.verify => (true, reviewed ev, verification_required ev)
  | WorkflowNodeType.reviewer => (verified ev, true, verification_required ev)
  | _ => ev
  end.

(** The issues a node raises in front of the evidence a path has. *)
Definition evidence_issues (n : WorkflowNode.t) (ev : evidence) : list WorkflowIssue.t :=
  let i := node_id n in
  match WorkflowNode.config n with
  | NodeConfig.ReviewerConfig =>
      issue_if (negb (verified ev))
        (node_issue "security.verification_bypass" "Review path bypasses required verification" i)
  | NodeConfig.PublishConfig _ =>
      issue_if (negb (verified ev))
        (node_issue "security.verification_bypass"
           "Publication path bypasses current verification" i)
      ++ issue_if (negb (reviewed ev))
           (node_issue "security.review_bypass"
              "Publication path bypasses current independent review" i)
  | NodeConfig.FinalizeConfig Outcome.derive =>
      issue_if (verification_required ev && negb (verified ev))
        (node_issue "security.verification_bypass" "Success path bypasses required verification" i)
  | _ => []
  end.

Definition evidence_after (spec : nspec) (x : identity) : evidence :=
  match find_node spec x.1 with Some n => after_node spec n x.2 | None => x.2 end.

(** [(target, verified, reviewed, verification_required) for target in ...] *)
Definition evidence_succ (spec : nspec) (x : identity) : list identity :=
  (λ t, (t, evidence_after spec x)) <$> targets (spec_adjacency spec) x.1.

Definition evidence_visit (spec : nspec) (issues : list WorkflowIssue.t) (x : identity)
    : res Empty_set (list WorkflowIssue.t) :=
  Ok (issues ++ match find_node spec x.1 with
                | Some n => evidence_issues n x.2
                | None => []
                end).

(** Every identity the loop can meet: the fuel is one push per edge and
evidence. *)
Definition evidences : list evidence :=
  [(false, false, false); (false, false, true); (false, true, false); (false, true, true);
   (true, false, false); (true, false, true); (true, true, false); (true, true, true)].
Definition identities (spec : nspec) : list identity :=
  i ← node_ids spec; ev ← evidences; [(i, ev)].
Definition path_fuel (spec : nspec) : nat :=
  S (sum_list_with (λ x, length (evidence_succ spec x)) (identities spec)).

Definition path_issues (spec : nspec) : list WorkflowIssue.t :=
  match worklist (λ _, false) (evidence_visit spec) (evidence_succ spec) (path_fuel spec)
          [(WorkflowSpec.entrypoint spec, (false, false, false))] [] [] with
  | Some (Ok (_, issues)) => issues
  | _ => []
  end.

(** ** Approvals *)

(** [approval.required_grant_from], when it is a non-empty string. *)
Definition grant_of (spec : nspec) (n : WorkflowNode.t) : option string :=
  match NodePolicy.approval (effective_policy spec n) with
  | Some a => if WorkflowEdge.blank (ApprovalPolicy.required_grant_from a) then None
              else ApprovalPolicy.required_grant_from a
  | None => None
  end.

Definition after_grant (spec : nspec) (grant : string) : list string :=
  fromkeys (concat ((λ t, _reachable t (spec_adjacency spec) (Some grant))
                    <$> targets (spec_adjacency spec) grant)).

(** The loop body over the nodes, for a node with a named grant.  The issues of
[for candidate in after_grant] are all equal, so the set's order does not
show. *)
Definition approval_path_issues (spec : nspec) (n : WorkflowNode.t) : list WorkflowIssue.t :=
  match grant_of spec n with
  | None => []
  | Some grant =>
      issue_if (bool_decide (node_id n ∈ _reachable (WorkflowSpec.entrypoint spec)
                                            (spec_adjacency spec) (Some grant)))
        (node_issue "security.approval_bypass"
           "Protected action has a path that bypasses its named approval" (node_id n))
      ++ ((λ _, node_issue "security.stale_approval"
                  "A new worker invalidates the grant before this protected action" (node_id n))
          <$> filter (λ c, c ≠ node_id n ∧ type_at spec c WorkflowNodeType.worker = true
                           ∧ node_id n ∈ _reachable c (spec_adjacency spec) (Some grant))
                (after_grant spec grant))
  end.

Definition _protected_paths (spec : nspec) : list WorkflowIssue.t :=
  path_issues spec ++ concat (approval_path_issues spec <$> WorkflowSpec.nodes spec).

(** ** Histories *)

Inductive trail (spec : nspec) : list string → string → Prop :=
  | trail_start : trail spec [] (WorkflowSpec.entrypoint spec)
  | trail_step h x y :
      trail spec h x → edge_rel (WorkflowSpec.edges spec) x y → trail spec (x :: h) y.

(** The evidence a history leaves. *)
Fixpoint evidence_of (spec : nspec) (h : list string) : evidence :=
  match h with
  | [] => (false, false, false)
  | x :: h' => evidence_after spec (x, evidence_of spec h')
  end.

(** In [h], a node of type [ty] was visited after the last worker. *)
Definition since_worker (spec : nspec) (ty : WorkflowNodeType.t) (h : list string) : Prop :=
  ∃ h1 v h2, h = h1 ++ v :: h2 ∧ type_at spec v ty = true
    ∧ ∀ w, w ∈ h1 → type_at spec w WorkflowNodeType.worker = false.

(** The last worker of [h] requires verification. *)
Definition owes_verification (spec : nspec) (h : list string) : Prop :=
  ∃ h1 w n h2, h = h1 ++ w :: h2 ∧ find_node spec w = Some n
    ∧ WorkflowNode.type n = WorkflowNodeType.worker
    ∧ policy_requires (effective_policy spec n) = true
    ∧ ∀ v, v ∈ h1 → type_at spec v WorkflowNodeType.worker = false.

(** What a history must have done before it is at [n]. *)
Definition evidence_ok (spec : nspec) (h : list string) (n : WorkflowNode.t) : Prop :=
  (WorkflowNode.type n = WorkflowNodeType.reviewer →
     since_worker spec WorkflowNodeType.verify h)
  ∧ (WorkflowNode.type n = WorkflowNodeType.github_publish →
       since_worker spec WorkflowNodeType.verify h
       ∧ since_worker spec WorkflowNodeType.reviewer h)
  ∧ (WorkflowNode.config n = NodeConfig.FinalizeConfig Outcome.derive →
       owes_verification spec h → since_worker spec WorkflowNodeType.verify h).

(** A protected action has its grant, and no other worker ran since. *)
Definition approval_ok (spec : nspec) (h : list string) (x grant : string) : Prop :=
  ∃ h1 h2, h = h1 ++ grant :: h2 ∧ grant ∉ h1
    ∧ ∀ w, w ∈ h1 → w ≠ x → type_at spec w WorkflowNodeType.worker = false.

(** ** Theorems *)

Lemma type_at_Some spec i n ty :
  find_node spec i = Some n → type_at spec i ty = bool_decide (WorkflowNode.type n = ty).
Proof. unfold type_at, is_type. by intros ->. Qed.

Section evidence_lemmas.
Variable spec : nspec.

Lemma since_worker_cons ty x h :
  ty ≠ WorkflowNodeType.worker →
  since_worker spec ty (x :: h)
  ↔ type_at spec x ty = true
    ∨ (type_at spec x WorkflowNodeType.worker = false ∧ since_worker spec ty h).
Proof.
  intros Hty. split.
  - intros (h1 & v & h2 & Heq & Hv & Hw). destruct h1 as [|y h1]; simplify_eq/=; [by left|].
    right. split; [apply Hw; by left|]. exists h1, v, h2. split_and!; [done..|].
    intros w Hin. apply Hw. by right.
  - intros [Hx|[Hx (h1 & v & h2 & -> & Hv & Hw)]].
    + exists [], x, h. split_and!; [done..|]. by intros ? ?%elem_of_nil.
    + exists (x :: h1), v, h2. split_and!; [done..|]. intros w [->|Hin]%elem_of_cons; auto.
Qed.

Lemma since_worker_nil ty : ¬ since_worker spec ty [].
Proof. intros (h1 & ? & ? & Heq & _). by destruct h1. Qed.

Lemma owes_cons x h :
  owes_verification spec (x :: h)
  ↔ (∃ n, find_node spec x = Some n ∧ WorkflowNode.type n = WorkflowNodeType.worker
          ∧ policy_requires (effective_policy spec n) = true)
    ∨ (type_at spec x WorkflowNodeType.worker = false ∧ owes_verification spec h).
Proof.
  split.
  - intros (h1 & w & n & h2 & Heq & Hf & Hn & Hp & Hw). destruct h1 as [|y h1]; simplify_eq/=.
    + left. eauto.
    + right. split; [apply Hw; by left|]. exists h1, w, n, h2. split_and!; [done..|].
      intros v Hin. apply Hw. by right.
  - intros [(n & Hf & Hn & Hp)|[Hx (h1 & w & n & h2 & -> & Hf & Hn & Hp & Hw)]].
    + exists [], x, n, h. split_and!; [done..|]. by intros ? ?%elem_of_nil.
    + exists (x :: h1), w, n, h2. split_and!; [done..|]. intros v [->|Hin]%elem_of_cons; auto.
Qed.

Lemma owes_nil : ¬ owes_verification spec [].
Proof. intros (h1 & ? & ? & ? & Heq & _). by destruct h1. Qed.

(** The abstract evidence is exact on every history. *)
Lemma evidence_of_spec h :
  (verified (evidence_of spec h) = true ↔ since_worker spec WorkflowNodeType.verify h)
  ∧ (reviewed (evidence_of spec h) = true ↔ since_worker spec WorkflowNodeType.reviewer h)
  ∧ (verification_required (evidence_of spec h) = true ↔ owes_verification spec h).
Proof.
  induction h as [|x h (IHv & IHr & IHq)].
  - split_and!; (split; [done|]); intros Hx; [by apply since_worker_nil in Hx..|].
    by apply owes_nil in Hx.
  - rewrite !since_worker_cons, owes_cons by done. cbn [evidence_of]. unfold evidence_after.
    cbn [fst snd]. destruct (find_node spec x) as [n|] eqn:Hf.
    + rewrite !(type_at_Some _ _ _ _ Hf), !bool_decide_eq_true, !bool_decide_eq_false.
      unfold after_node.
      assert ((∃ m, Some n = Some m ∧ WorkflowNode.type m = WorkflowNodeType.worker
                 ∧ policy_requires (effective_policy spec m) = true)
              ↔ WorkflowNode.type n = WorkflowNodeType.worker
                ∧ policy_requires (effective_policy spec n) = true) as ->.
      { split; [by intros (? & [= <-] & ? & ?)|eauto]. }
      destruct (WorkflowNode.type n); cbn [verified reviewed verification_required fst snd];
        rewrite ?IHv, ?IHr, ?IHq; intuition congruence.
    + unfold type_at. rewrite Hf, IHv, IHr, IHq. split_and!; [intuition done..|].
      split; [by right|]. intros [(? & ? & _)|[_ ?]]; done.
Qed.

Lemma evidence_issues_nil h n :
  evidence_issues n (evidence_of spec h) = [] ↔ evidence_ok spec h n.
Proof.
  destruct (evidence_of_spec h) as (Hv & Hr & Hq).
  unfold evidence_ok, evidence_issues, WorkflowNode.type. rewrite <-Hv, <-Hr, <-Hq.
  destruct (WorkflowNode.config n) as [| | | | | | | | | | | |[]]; simpl;
    rewrite ?app_nil, ?issue_if_nil, ?andb_false_iff, ?negb_false_iff;
    try (split; [intros _; split_and!; intros; done|done]); try intuition congruence.
  destruct (verification_required _), (verified _); intuition congruence.
Qed.
End evidence_lemmas.

Section path_lemmas.
Variable spec : nspec.
Hypothesis Hwf : WorkflowSpec.wf spec.

Notation start := [(WorkflowSpec.entrypoint spec, (false, false, false))].

Lemma trail_node h x : trail spec h x → x ∈ node_ids spec.
Proof.
  destruct 1 as [|h x y _ (e & He & _ & <-)]; [apply Hwf|].
  by apply (WorkflowSpec.wf_target _ Hwf).
Qed.

(** The identities the loop reaches are the histories' endpoints with their
evidence. *)
Lemma wreach_trail x ev :
  wreach (λ _, false) (evidence_succ spec) start (x, ev)
  ↔ ∃ h, trail spec h x ∧ ev = evidence_of spec h.
Proof.
  unfold wreach. setoid_rewrite list_elem_of_singleton. split.
  - intros (i & -> & _ & Hr).
    cut (∀ i j : identity, rtc (wstep (λ _, false) (evidence_succ spec)) i j →
          (∃ h, trail spec h i.1 ∧ i.2 = evidence_of spec h) →
          ∃ h, trail spec h j.1 ∧ j.2 = evidence_of spec h).
    { intros Hc. apply (Hc _ _ Hr). exists []. split; [constructor|done]. }
    clear. induction 1 as [|[a ea] [b eb] k [Hab _] _ IH]; [done|].
    intros (h & Ht & He). apply IH. simpl in *. unfold evidence_succ in Hab.
    apply list_elem_of_fmap in Hab as (t & [= -> ->] & Hin). simpl in Hin.
    exists (a :: h). split; [|by rewrite He].
    econstructor; [done|]. by apply elem_of_adjacency.
  - intros (h & Ht & ->). eexists. split_and!; [done..|].
    induction Ht as [|h x y Ht IH Hxy]; [apply rtc_refl|]. eapply rtc_r; [done|]. split; [|done].
    unfold evidence_succ; simpl. apply list_elem_of_fmap. exists y. split; [done|].
    by apply elem_of_adjacency.
Qed.

Lemma NoDup_identities : NoDup (identities spec).
Proof.
  unfold identities. pose proof (WorkflowSpec.wf_nodes _ Hwf) as Hnd.
  unfold node_ids. apply NoDup_bind; [| |done].
  - intros x1 x2 y _ _ (ev & Hy & _)%list_elem_of_bind (ev' & Hy' & _)%list_elem_of_bind.
    apply list_elem_of_singleton in Hy, Hy'. congruence.
  - intros x _. apply NoDup_bind; [| |by apply (bool_decide_unpack _); vm_compute].
    + intros e1 e2 y _ _ Hy%list_elem_of_singleton Hy'%list_elem_of_singleton. congruence.
    + intros ev _. apply NoDup_singleton.
Qed.

Lemma elem_of_identities x : x ∈ identities spec ↔ x.1 ∈ node_ids spec.
Proof.
  unfold identities. rewrite list_elem_of_bind. setoid_rewrite list_elem_of_bind.
  setoid_rewrite list_elem_of_singleton. split.
  - by intros (i & (ev & -> & _) & Hi).
  - intros Hx. destruct x as [i [[a b] c]]. exists i. split; [|done]. eexists. split; [done|].
    apply (bool_decide_unpack _). by destruct a, b, c; vm_compute.
Qed.

Lemma visit_fold xs acc :
  foldM (evidence_visit spec) acc xs
  = Ok (acc ++ concat ((λ x, match find_node spec x.1 with
                             | Some n => evidence_issues n x.2 | None => [] end) <$> xs)).
Proof.
  revert acc; induction xs as [|x xs IH]; intros acc; csimpl; [by rewrite app_nil_r|].
  rewrite IH. by rewrite <-app_assoc.
Qed.

(** The interpretation terminates; it reports nothing exactly when every history
satisfies its obligations. *)
Lemma path_issues_spec :
  path_issues spec = []
  ↔ ∀ h x n, trail spec h x → find_node spec x = Some n → evidence_ok spec h n.
Proof.
  unfold path_issues.
  destruct (worklist_spec (E:=Empty_set) (λ _, false) (evidence_visit spec) (evidence_succ spec)
    start (identities spec) [] (path_fuel spec)) as (r & -> & Hr).
  - apply NoDup_identities.
  - intros x ->%list_elem_of_singleton. apply elem_of_identities. apply Hwf.
  - intros x y _. unfold evidence_succ. rewrite list_elem_of_fmap. intros (t & -> & Ht).
    apply elem_of_identities. simpl. apply elem_of_adjacency in Ht as (e & He & _ & <-).
    by apply (WorkflowSpec.wf_target _ Hwf).
  - done.
  - destruct r as [[seen issues]|[]]. destruct Hr as (_ & Hseen & Hfold).
    rewrite visit_fold in Hfold. injection Hfold as <-. rewrite concat_fmap_nil.
    setoid_rewrite elem_of_reverse. setoid_rewrite Hseen. split.
    + intros Hall h x n Ht Hf. specialize (Hall (x, evidence_of spec h)). simpl in Hall.
      rewrite Hf in Hall. apply evidence_issues_nil, Hall, wreach_trail. eauto.
    + intros Hall [x ev] (h & Ht & ->)%wreach_trail. simpl.
      destruct (find_node spec x) as [n|] eqn:Hf; [|done]. apply evidence_issues_nil. eauto.
Qed.

(** ** Approvals *)

Lemma trail_avoids h x g :
  trail spec h x → g ∉ h → x ≠ g →
  reaches (spec_adjacency spec) (Some g) (WorkflowSpec.entrypoint spec) x.
Proof.
  induction 1 as [|h x y Ht IH Hxy]; intros Hg Hne.
  - split; [congruence|apply rtc_refl].
  - apply not_elem_of_cons in Hg as [Hgx Hg]. destruct (IH Hg) as [He Hr]; [done|].
    split; [done|]. eapply rtc_r; [done|]. split; [by apply elem_of_adjacency|congruence].
Qed.

Lemma trail_after_grant h1 h2 g x :
  trail spec (h1 ++ g :: h2) x → g ∉ h1 → x ≠ g →
  ∃ t, t ∈ targets (spec_adjacency spec) g
    ∧ reaches (spec_adjacency spec) (Some g) t x
    ∧ ∀ w, w ∈ h1 → reaches (spec_adjacency spec) (Some g) t w
                    ∧ reaches (spec_adjacency spec) (Some g) w x.
Proof.
  revert x; induction h1 as [|y h1 IH]; intros x Ht Hg Hx; simpl in Ht.
  - inversion Ht as [|? ? ? _ Hgx]; subst. exists x. split_and!.
    + by apply elem_of_adjacency.
    + split; [congruence|apply rtc_refl].
    + by intros ? ?%elem_of_nil.
  - inversion Ht as [|? ? ? Hty Hyx]; subst. apply not_elem_of_cons in Hg as [Hgy Hg].
    destruct (IH y Hty Hg) as (t & Htg & [Hts Hty'] & Hall); [done|].
    assert (adj_step (spec_adjacency spec) (Some g) y x) as Hstep
      by (split; [by apply elem_of_adjacency|congruence]).
    exists t. split_and!; [done|split; [done|by eapply rtc_r]|].
    intros w [->|Hw]%elem_of_cons.
    + split; [done|]. split; [congruence|]. by apply rtc_once.
    + destruct (Hall w Hw) as [Htw [Hws Hwy]]. split; [done|]. split; [done|].
      by eapply rtc_r.
Qed.

(** A protected action is always behind its grant, and no other worker runs
between the last grant and the action. *)
Lemma approval_path_issues_sound n g h :
  approval_path_issues spec n = [] → grant_of spec n = Some g → node_id n ≠ g →
  trail spec h (node_id n) → approval_ok spec h (node_id n) g.
Proof.
  intros Hnil Hg Hne Ht. unfold approval_path_issues in Hnil. rewrite Hg, app_nil in Hnil.
  rewrite issue_if_nil, bool_decide_eq_false in Hnil. destruct Hnil as [Hby Hst].
  rewrite _reachable_spec in Hby by apply dict_ok_adjacency.
  destruct (decide (g ∈ h)) as [Hin|Hin]; [|by destruct Hby; eapply trail_avoids].
  apply list_elem_of_split_l in Hin as (h1 & h2 & -> & Hg1).
  exists h1, h2. split_and!; [done..|]. intros w Hw Hwn.
  destruct (trail_after_grant h1 h2 g _ Ht Hg1 Hne) as (t & Htg & _ & Hall).
  destruct (Hall w Hw) as [Htw Hwx].
  destruct (type_at spec w WorkflowNodeType.worker) eqn:Hty; [|done]. exfalso.
  apply fmap_nil_inv in Hst.
  assert (w ∈ filter (λ c, c ≠ node_id n ∧ type_at spec c WorkflowNodeType.worker = true
     ∧ node_id n ∈ _reachable c (spec_adjacency spec) (Some g)) (after_grant spec g)) as Hf.
  { apply list_elem_of_filter. split.
    - split_and!; [done..|]. by apply _reachable_spec; [apply dict_ok_adjacency|].
    - unfold after_grant. rewrite elem_of_fromkeys. apply list_elem_of_In, in_concat.
      exists (_reachable t (spec_adjacency spec) (Some g)). rewrite <-!list_elem_of_In. split.
      + apply list_elem_of_fmap. eauto.
      + by apply _reachable_spec; [apply dict_ok_adjacency|]. }
  rewrite Hst in Hf. by apply elem_of_nil in Hf.
Qed.

(** The conditions on every history of a specification without protected-path
issues. *)
Record protected_ok : Prop := {
  pr_evidence : ∀ h x n, trail spec h x → find_node spec x = Some n → evidence_ok spec h n;
  pr_approval : ∀ n g h, n ∈ WorkflowSpec.nodes spec → grant_of spec n = Some g →
    node_id n ≠ g → trail spec h (node_id n) → approval_ok spec h (node_id n) g;
}.

Lemma _protected_paths_sound : _protected_paths spec = [] → protected_ok.
Proof.
  unfold _protected_paths. rewrite app_nil, concat_fmap_nil. intros [Hp Ha]. split.
  - by apply path_issues_spec.
  - intros n g h Hn Hg Hne Ht. apply approval_path_issues_sound; auto.
Qed.
End path_lemmas.
