(* ===== verification/Validate.v ===== *)
(** * [validate_workflow]

The validator of
[orchestrator/app/jarvis_orchestrator/workflows/validation.py] as a whole, on
the JSON payload it checks (for a [WorkflowSpec] argument the payload is its
dump).  Parsing the payload is pydantic's work: [SpecModel] is
[WorkflowSpec.model_validate], whose documented behaviour is that it returns
only values that satisfy the contract's bounds and validators. *)
From S2P Require Import Prelude Enums PyJson PyDecimal Failures Verification Registry.
From S2P Require Import WorkflowSpec Predicates Normalize RawValidation Graph GraphIssues.
From S2P Require Import FanoutIssues SnapshotIssues PolicyIssues Protected.
Local Open Scope Z_scope.
Local Open Scope stdpp_scope.

(** [WorkflowSpec.model_validate(payload)] *)
Class SpecModel := spec_validate : jobj → res (list error_detail) (WorkflowSpec.t RawNode.t).
Class SpecModelLaws `{SpecModel} :=
  spec_validate_sound : ∀ payload s, spec_validate payload = Ok s → WorkflowSpec.valid s = true.

(** [a == b] for dictionaries: the order of keys does not matter. *)
Definition reducers_eqb (a b : list (string * ReducerKind.t)) : bool :=
  Nat.eqb (length a) (length b)
  && forallb (λ kv : string * ReducerKind.t, bool_decide (dict_get kv.1 b = Some kv.2)) a.

Section validate.
Context `{PyRuntime} `{ConfigModel} `{SpecModel} `{SetOrder} `{PyStr}
  `{ModelDump WorkflowNode.t} `{ModelDump WorkflowEdge.t} `{ModelDump NodePolicy.t}
  `{ModelDump RegistrySpec} `{ModelDump WorkflowResolvedRevision.t}.

(** One [node.config] issue per validation error. *)
Definition config_issue (n : RawNode.t) (error : error_detail) : WorkflowIssue.t :=
  _issue "node.config" ("Invalid node configuration (" +:+ error_type error +:+ ")")
    (Some (RawNode.id n)) None (Some ("config." +:+ loc_text (error_loc error))).

Definition config_issues (n : RawNode.t) : list WorkflowIssue.t :=
  match config_validate (RawNode.type n) (RawNode.config n) with
  | Ok _ => []
  | Err errors => config_issue n <$> errors
  end.

Definition header_issues (spec : WorkflowSpec.t RawNode.t) : list WorkflowIssue.t :=
  issue_if (negb (bool_decide (WorkflowSpec.spec_version spec = "1.1")))
    (plain_issue "schema.unsupported_version" "Compiler requires workflow spec 1.1")
  ++ issue_if (negb (reducers_eqb (WorkflowSpec.reducers spec) default_reducers))
       (plain_issue "state.reducers" "Workflow reducers must match the versioned state contract").

Definition invalid_report (issues : list WorkflowIssue.t) : WorkflowValidationReport.t :=
  WorkflowValidationReport.Build_t false issues None None.

(** The checks on the normalized specification. *)
Definition semantic_issues (spec : nspec) (s : option snapshot) : list WorkflowIssue.t :=
  _graph_issues spec ++ _fanout_issues spec ++ _policy_issues spec s ++ _protected_paths spec
  ++ match s with Some s => _snapshot_issues spec s | None => [] end.

Definition final_report (issues : list WorkflowIssue.t) (spec : nspec) (s : option snapshot)
    : WorkflowValidationReport.t :=
  let unique := fromkeys issues in
  WorkflowValidationReport.Build_t (Nat.eqb (length unique) 0) unique
    (Some (content_hash spec)) (snapshot_hash <$> s).

(** [Err] would be an uncaught [ValidationError]; [validate_workflow_total]
excludes it. *)
Definition validate_workflow (payload : jobj) (s : option snapshot)
    : res (list error_detail) WorkflowValidationReport.t :=
  let resource := _resource_issues payload in
  if negb (Nat.eqb (length resource) 0) then Ok (invalid_report resource)
  else
    let references := _raw_references payload in
    match spec_validate payload with
    | Err errors => Ok (invalid_report (references ++ _schema_issues errors payload))
    | Ok spec =>
        let issues := references ++ header_issues spec
                      ++ concat (config_issues <$> WorkflowSpec.nodes spec) in
        if existsb (λ i, bool_decide (WorkflowIssue.code i = "node.config")) issues
        then Ok (invalid_report issues)
        else
          normalized ← normalize_workflow spec;
          Ok (final_report (issues ++ semantic_issues normalized s) normalized s)
    end.

(** ** Theorems *)

(** A config error always yields an issue: pydantic's error lists are not
empty. *)
Class ConfigErrors := config_errors : ∀ ty j errors, config_validate ty j = Err errors → errors ≠ [].

Lemma config_issues_nil `{!ConfigErrors} n :
  config_issues n = [] ↔ is_ok (config_validate (RawNode.type n) (RawNode.config n)) = true.
Proof.
  unfold config_issues. destruct (config_validate _ _) as [|errors] eqn:Hc; [done|].
  rewrite fmap_nil_iff. split; [|done]. intros Hn. by apply config_errors in Hc.
Qed.

Lemma config_issues_code n i :
  i ∈ config_issues n → WorkflowIssue.code i = "node.config".
Proof.
  unfold config_issues. destruct (config_validate _ _); [by intros ?%elem_of_nil|].
  by intros (err & -> & _)%list_elem_of_fmap.
Qed.

(** When no issue is a [node.config] issue, every configuration validates. *)
Lemma no_config_issue `{!ConfigErrors} spec pre :
  existsb (λ i, bool_decide (WorkflowIssue.code i = "node.config"))
    (pre ++ concat (config_issues <$> WorkflowSpec.nodes spec)) = false →
  ∀ n, n ∈ WorkflowSpec.nodes spec →
    is_ok (config_validate (RawNode.type n) (RawNode.config n)) = true.
Proof.
  intros Hex n Hn. rewrite existsb_false in Hex. apply config_issues_nil, elem_of_nil_inv.
  intros i Hi. specialize (Hex i). rewrite bool_decide_true in Hex.
  - discriminate Hex. apply elem_of_app; right. apply list_elem_of_In, in_concat.
    exists (config_issues n). rewrite <-!list_elem_of_In. split; [|done].
    apply list_elem_of_fmap. eauto.
  - by eapply config_issues_code.
Qed.

(** The validator never lets a [ValidationError] escape. *)
Lemma validate_workflow_returns `{!ConfigErrors, !ConfigModelLaws} payload s :
  ∃ r, validate_workflow payload s = Ok r.
Proof.
  unfold validate_workflow. destruct (negb _); [by eexists|].
  destruct (spec_validate payload) as [spec|errors]; [|by eexists]. rewrite app_assoc.
  destruct (existsb _ _) eqn:Hex; [by eexists|].
  destruct (normalize_workflow_total spec) as [n ->]; [by eapply no_config_issue|]. by eexists.
Qed.

(** Everything a validated workflow satisfies. *)
(** The raw document: nesting, finite numbers and size within the limits, distinct identifiers,
and an entrypoint and edges that name declared nodes. *)
Record document_ok `{PyRuntime} (raw : jobj) : Prop := {
  doc_nesting : within 0 (JObj raw) = true;
  doc_values : Z.of_nat (json_count (JObj raw)) ≤ MAX_WORKFLOW_BYTES;
  doc_bytes : Z.of_nat (String.length (json_dumps (JObj raw))) ≤ MAX_WORKFLOW_BYTES;
  doc_nodes : NoDup (declared_ids (collection "nodes" raw));
  doc_edges : NoDup (declared_ids (collection "edges" raw));
  doc_entrypoint : names_node (declared_ids (collection "nodes" raw)) (dict_get "entrypoint" raw);
  doc_endpoints : ∀ d, JObj d ∈ collection "edges" raw →
    names_node (declared_ids (collection "nodes" raw)) (dict_get "from" d)
    ∧ names_node (declared_ids (collection "nodes" raw)) (dict_get "to" d);
}.

Record workflow_ok (spec : WorkflowSpec.t RawNode.t) (n : nspec) (s : option snapshot)
    : Prop := {
  wo_normal : normalize_workflow spec = Ok n;
  wo_version : WorkflowSpec.spec_version spec = "1.1";
  wo_wf : WorkflowSpec.wf n;
  wo_edges : Forall (λ e, WorkflowEdge.valid e = true) (WorkflowSpec.edges n);
  wo_ids : ∀ i, i ∈ node_ids n → slug_pattern 80 i = true;
  wo_graph : graph_ok n;
  wo_fanout : fanouts_ok n;
  wo_policy : policies_ok n s;
  wo_protected : protected_ok n;
  wo_snapshot : ∀ sn, s = Some sn → snapshot_ok n sn;
}.

(** Normalization keeps the validity of edges and of node IDs. *)
Lemma normalized_graph_valid spec n :
  WorkflowSpec.valid spec = true → normalize_workflow spec = Ok n →
  Forall (λ e, WorkflowEdge.valid e = true) (WorkflowSpec.edges n)
  ∧ ∀ i, i ∈ node_ids n → slug_pattern 80 i = true.
Proof.
  intros Hv Hn. unfold normalize_workflow in Hn.
  destruct (mapM _ _) as [ns|] eqn:Hm; simpl in Hn; [|done]. injection Hn as <-; simpl.
  unfold WorkflowSpec.valid in Hv. rewrite !andb_true_iff in Hv.
  destruct Hv as [[[[[_ Hnodes] _] Hedges] _] _]. split.
  - unfold sorted_edges. rewrite sorted_key_perm. rewrite forallb_forall in Hedges.
    apply Forall_forall. intros e He. by apply Hedges, list_elem_of_In.
  - apply mapM_res_Forall2, normalize_ids in Hm. intros i Hi.
    assert (i ∈ RawNode.id <$> WorkflowSpec.nodes spec) as Hraw.
    { unfold node_ids in Hi; simpl in Hi. change (i ∈ WorkflowNode.id <$> ns) in Hi.
      rewrite Hm in Hi. unfold sorted_nodes in Hi. by rewrite sorted_key_perm in Hi. }
    apply list_elem_of_fmap in Hraw as (r & -> & Hr). rewrite forallb_forall in Hnodes.
    apply list_elem_of_In, Hnodes in Hr. unfold node_valid in Hr.
    rewrite !andb_true_iff in Hr. tauto.
Qed.

Lemma edge_valid_kind_fields e :
  WorkflowEdge.valid e = true → WorkflowEdge.validate_kind_fields e = true.
Proof. unfold WorkflowEdge.valid. rewrite !andb_true_iff. tauto. Qed.

(** What an accepting report means. *)
Lemma validate_workflow_accepts
    `{!ConfigErrors, !ConfigModelLaws, !SpecModelLaws, !SetOrderLaws} payload s r :
  validate_workflow payload s = Ok r → WorkflowValidationReport.valid r = true →
  ∃ spec n, spec_validate payload = Ok spec ∧ workflow_ok spec n s
    ∧ document_ok payload
    ∧ WorkflowValidationReport.issues r = []
    ∧ WorkflowValidationReport.content_hash r = Some (content_hash n).
Proof.
  unfold validate_workflow.
  destruct (Nat.eqb_spec (length (_resource_issues payload)) 0) as [Hres|Hres]; simpl;
    [|by intros [= <-]]. apply length_zero_iff_nil in Hres.
  destruct (spec_validate payload) as [spec|errors] eqn:Hs; [|by intros [= <-]].
  destruct (existsb _ _) eqn:Hex; [by intros [= <-]|].
  destruct (normalize_workflow spec) as [n|] eqn:Hn; simpl; [|done].
  intros [= <-]. unfold final_report; cbn [WorkflowValidationReport.valid].
  rewrite Nat.eqb_eq, length_zero_iff_nil. intros Hu.
  exists spec, n. pose proof Hu as Hi. rewrite fromkeys_nil in Hi.
  rewrite !app_nil in Hi. destruct Hi as ((Href & Hh & Hcfg) & Hsem).
  unfold semantic_issues in Hsem. rewrite !app_nil in Hsem.
  destruct Hsem as (Hg & Hf & Hp & Hpp & Hss).
  unfold header_issues in Hh. rewrite app_nil, !issue_if_nil, !negb_false_iff in Hh.
  destruct Hh as [Hv%bool_decide_eq_true _].
  pose proof (spec_validate_sound _ _ Hs) as Hvalid.
  pose proof (normalize_workflow_wf _ _ Hn (WorkflowSpec.valid_wf _ Hvalid)) as Hwf.
  destruct (normalized_graph_valid _ _ Hvalid Hn) as [Hev Hids].
  assert (Forall (λ e, WorkflowEdge.validate_kind_fields e = true) (WorkflowSpec.edges n)) as Hed
    by (eapply Forall_impl; [exact Hev|apply edge_valid_kind_fields]).
  apply _resource_issues_spec in Hres as (? & ? & ?).
  apply _raw_references_spec in Href as (? & ? & ? & ?).
  split_and!; [done| |by split|done|done]. split; try done.
  - by apply _graph_issues_spec.
  - by apply _fanout_issues_sound.
  - by apply _policy_issues_spec.
  - by apply _protected_paths_sound.
  - intros sn ->. by apply _snapshot_issues_spec.
Qed.

(** A report is valid exactly when it has no issues. *)
Lemma validate_workflow_valid_iff payload s r :
  (∀ errors, spec_validate payload = Err errors → errors ≠ []) →
  validate_workflow payload s = Ok r →
  WorkflowValidationReport.valid r = true ↔ WorkflowValidationReport.issues r = [].
Proof.
  intros Herr. unfold validate_workflow.
  destruct (Nat.eqb_spec (length (_resource_issues payload)) 0) as [Hres|Hres]; simpl.
  2: { intros [= <-]; simpl. split; [done|]. intros Hn. by rewrite Hn in Hres. }
  destruct (spec_validate payload) as [spec|errors] eqn:Hs.
  2: { intros [= <-]; simpl. split; [done|]. rewrite app_nil. intros [_ Hn].
       unfold _schema_issues in Hn. apply fmap_nil_inv in Hn. by destruct (Herr errors). }
  destruct (existsb _ _) eqn:Hex.
  - intros [= <-]; simpl. split; [done|]. intros Hn. by rewrite Hn in Hex.
  - destruct (normalize_workflow spec); simpl; [|done]. intros [= <-]; simpl.
    by rewrite Nat.eqb_eq, length_zero_iff_nil.
Qed.
End validate.
