(* ===== verification/NodeFactory.v ===== *)
(** * Node factories

[orchestrator/app/jarvis_orchestrator/workflows/factories.py]: what a node does
when the graph runtime invokes it.  Handlers (model, worker, approval services)
are injected; here they are functions from the state and the call context to an
update or an error, and the time-out of the call is theirs.  An update is a
[WorkflowStateV1] whose absent channels are not written.  [external_execution] says what
the update of an external node is. *)
From S2P Require Import Prelude Enums PyJson PyDecimal Failures Verification Registry.
From S2P Require Import WorkflowSpec Predicates State Normalize.
Local Open Scope Z_scope.
Local Open Scope stdpp_scope.

(** What running a node or choosing its route can raise. *)
Inductive run_error : Type :=
  | RInvariant (e : workflow_error)
  | RMissingHandler (node_id : string)
  | RStopIteration
  | RTypeError
  | RIndexError
  | RHandler (message : string).

Definition invariant {A} (message : string) : res run_error A :=
  Err (RInvariant (InvariantError message)).

Module NodeContext.
Record t := {
  node : WorkflowNode.t;
  policy : NodePolicy.t;
  snapshot : WorkflowResolvedSnapshot.t;
  execution_id : string;
}.
End NodeContext.

(** [NodeHandler] *)
Notation handler := (WorkflowStateV1.t → NodeContext.t → res run_error WorkflowStateV1.t)
  (only parsing).

Definition identity_of (state : WorkflowStateV1.t) : string :=
  default "main" (WorkflowStateV1.child_identity state).

(** [invocation_key] *)
Definition invocation_key (state : WorkflowStateV1.t) (node_id : string) : string :=
  "visit:" +:+ identity_of state +:+ ":" +:+ node_id.

(** [child_id] *)
Definition child_id (fanout_id : string) (visit : Z) (child : string) : string :=
  fanout_id +:+ ":" +:+ pretty visit +:+ ":" +:+ child.

(** [state.get("counters", {}).get(key, 0)] *)
Definition count (state : WorkflowStateV1.t) (key : string) : Z :=
  default 0 (dict_get key (WorkflowStateV1.get_counters state)).

(** ** [_dispatch] *)

Definition terminal_statuses : list string := ["completed"; "failed"; "cancelled"].

(** [item.get("status") in {...}]: an unhashable value raises [TypeError]. *)
Definition in_statuses (v : option json) (l : list string) : res run_error bool :=
  match v with
  | Some (JStr s) => Ok (bool_decide (s ∈ l))
  | Some (JArr _) | Some (JObj _) => Err RTypeError
  | _ => Ok false
  end.

(** [{key for key, item in items.items() if isinstance(item, dict) and
item.get("status") in {...}}] *)
Fixpoint terminal_keys (items : jobj) : res run_error (list string) :=
  match items with
  | [] => Ok []
  | (key, item) :: items' =>
      match item with
      | JObj d =>
          t ← in_statuses (dict_get "status" d) terminal_statuses;
          rest ← terminal_keys items';
          Ok (if (t : bool) then key :: rest else rest)
      | _ => terminal_keys items'
      end
  end.

Definition is_completed (item : json) : bool :=
  match item with
  | JObj d => match dict_get "status" d with
              | Some (JStr s) => bool_decide (s = "completed")
              | _ => false
              end
  | _ => false
  end.

(** [completed] *)
Definition completed_keys (items : jobj) : list string :=
  (filter (λ kv, is_completed kv.2 = true) items).*1.

Definition is_task_key (items : jobj) (v : json) : bool :=
  match v with JStr s => dict_has s items | _ => false end.

(** [set(dependencies) <= completed], for string dependencies. *)
Definition all_completed (deps : list json) (completed : list string) : bool :=
  forallb (λ v, match v with JStr s => bool_decide (s ∈ completed) | _ => false end) deps.

Definition is_pending (d : jobj) : bool :=
  match dict_get "status" d with
  | None => true
  | Some (JStr s) => bool_decide (s = "pending")
  | Some _ => false
  end.

(** The loop over the sorted items, which collects [ready]. *)
Fixpoint ready_keys (items : jobj) (completed : list string) (sorted_items : jobj)
    : res run_error (list string) :=
  match sorted_items with
  | [] => Ok []
  | (key, item) :: rest =>
      match item with
      | JObj d =>
          match default (JArr []) (dict_get "dependencies" d) with
          | JArr deps =>
              if forallb (is_task_key items) deps then
                ready ← ready_keys items completed rest;
                Ok (if is_pending d && all_completed deps completed then key :: ready else ready)
              else invariant "Task dependencies must name planned task keys"
          | _ => invariant "Task dependencies must name planned task keys"
          end
      | _ => invariant "Task entries must be objects"
      end
  end.

(** The new [tasks] channel. *)
Definition _dispatch (state : WorkflowStateV1.t) : res run_error jobj :=
  let tasks := default [] (WorkflowStateV1.tasks state) in
  match dict_get "items" tasks with
  | Some (JObj items) =>
      terminal ← terminal_keys items;
      ready ← ready_keys items (completed_keys items) (dict_sorted items);
      Ok (dict_update tasks
            [("terminal_count", JInt (Z.of_nat (length terminal)));
             ("total_count", JInt (Z.of_nat (length items)));
             ("current_task", match ready with k :: _ => JStr k | [] => JNull end)])
  | _ => Ok tasks
  end.

(** ** [_internal] *)

(** The updates of the internal node types. *)
Definition upd_tasks (t : jobj) : WorkflowStateV1.t :=
  WorkflowStateV1.Build_t None None None None None None None (Some t) None None None None None
    None None None.
Definition upd_expected (l : list string) : WorkflowStateV1.t :=
  WorkflowStateV1.Build_t None None (Some l) None None None None None None None None None None
    None None None.
Definition upd_results (r : jobj) : WorkflowStateV1.t :=
  WorkflowStateV1.Build_t (Some r) None None None None None None None None None None None None
    None None None.
Definition upd_final (d : jobj) : WorkflowStateV1.t :=
  WorkflowStateV1.Build_t None None None None None None None None None None None (Some d) None
    None None None.

(** The [FANOUT] branch. *)
Definition fanout_children (state : WorkflowStateV1.t) (id : string) (children : list string)
    : list string :=
  let visit := count state (invocation_key state id) + 1 in
  child_id id visit <$> children.

Definition join_prefix (state : WorkflowStateV1.t) (fanout_id : string) : string :=
  fanout_id +:+ ":" +:+ pretty (count state ("visit:main:" +:+ fanout_id)) +:+ ":".

(** The [JOIN] branch: the results of every expected child of the last
activation. *)
Definition join_results (state : WorkflowStateV1.t) (id fanout_id : string)
    : res run_error jobj :=
  let prefix := join_prefix state fanout_id in
  let expected := filter (λ k, startswith prefix k = true)
                    (default [] (WorkflowStateV1.expected_children state)) in
  let completed := default [] (WorkflowStateV1.completed_children state) in
  let results := default [] (WorkflowStateV1.child_results state) in
  if Nat.eqb (length expected) 0
     || existsb (λ k, negb (bool_decide (k ∈ completed)) || negb (dict_has k results)) expected
  then invariant ("Join " +:+ id +:+ " received incomplete child results")
  else Ok [("join:" +:+ prefix,
            JObj (foldl (λ acc k, dict_set k (default JNull (dict_get k results)) acc) []
                    (py_sorted expected)))].

(** What one child result adds to [child_failures]. *)
Definition child_failure (r : json) : option string :=
  match r with
  | JObj d =>
      if truthy (default JNull (dict_get "failure_class" d)) then Some "failed"
      else match dict_get "status" d with
           | Some (JStr s) =>
               if bool_decide (s ∈ ["failed"; "blocked"; "cancelled"]) then Some s else None
           | _ => None
           end
  | _ => None
  end.

Definition branch_failures (branch : json) : list string :=
  match branch with JObj d => omap child_failure d.*2 | _ => [] end.

Definition child_failures (state : WorkflowStateV1.t) : list string :=
  concat (branch_failures <$> (default [] (WorkflowStateV1.child_results state)).*2).

(** The [FINALIZE] branch: the status before it is checked. *)
Definition derived_status (state : WorkflowStateV1.t) (outcome : Outcome.t) : json :=
  let result := default [] (WorkflowStateV1.outcome state) in
  let failed := truthy (default JNull (dict_get "failure_class" result)) in
  let status := default (JStr (if failed then "failed" else "completed"))
                  (dict_get "status" result) in
  let failures := child_failures state in
  let status := foldl (λ st s, if bool_decide (s ∈ failures) then JStr s else st) status
                  ["blocked"; "failed"; "cancelled"] in
  let status := if bool_decide (outcome = Outcome.derive) then status
                else JStr (Outcome.value outcome) in
  let status := if default false (WorkflowStateV1.cancelled state) then JStr "cancelled"
                else status in
  match status with
  | JStr s => if bool_decide (s = "succeeded") then JStr "completed" else status
  | _ => status
  end.

Definition final_statuses : list string := ["completed"; "failed"; "blocked"; "cancelled"].

Definition finalize (state : WorkflowStateV1.t) (outcome : Outcome.t) : res run_error jobj :=
  match derived_status state outcome with
  | JStr s => if bool_decide (s ∈ final_statuses) then Ok [("status", JStr s)]
              else invariant "Finalize received an unknown classified outcome"
  | _ => invariant "Finalize received an unknown classified outcome"
  end.

Definition _internal (state : WorkflowStateV1.t) (node : WorkflowNode.t)
    : res run_error WorkflowStateV1.t :=
  match WorkflowNode.config node with
  | NodeConfig.DispatchConfig => upd_tasks <$> _dispatch state
  | NodeConfig.FanoutConfig children _ _ =>
      Ok (upd_expected (fanout_children state (WorkflowNode.id node) children))
  | NodeConfig.JoinConfig fanout_id =>
      upd_results <$> join_results state (WorkflowNode.id node) fanout_id
  | NodeConfig.FinalizeConfig outcome => upd_final <$> finalize state outcome
  | _ => Ok WorkflowStateV1.empty
  end.

(** ** [_factory] *)

(** The channels an update writes: [set(update)]. *)
Definition written (u : WorkflowStateV1.t) : list string :=
  let on {A} (k : string) (o : option A) := match o with Some _ => [k] | None => [] end in
  on "results" (WorkflowStateV1.results u) ++ on "child_results" (WorkflowStateV1.child_results u)
  ++ on "expected_children" (WorkflowStateV1.expected_children u)
  ++ on "completed_children" (WorkflowStateV1.completed_children u)
  ++ on "counters" (WorkflowStateV1.counters u) ++ on "node" (WorkflowStateV1.node u)
  ++ on "outcome" (WorkflowStateV1.outcome u) ++ on "tasks" (WorkflowStateV1.tasks u)
  ++ on "verification" (WorkflowStateV1.verification u) ++ on "review" (WorkflowStateV1.review u)
  ++ on "approval" (WorkflowStateV1.approval u) ++ on "final" (WorkflowStateV1.final u)
  ++ on "cancelled" (WorkflowStateV1.cancelled u)
  ++ on "child_identity" (WorkflowStateV1.child_identity u)
  ++ on "_route" (WorkflowStateV1._route u)
  ++ on "_needs_verification" (WorkflowStateV1._needs_verification u).

(** [update[...] = ...] for the channels the factory sets itself. *)
Definition set_worker_channels (needs : bool) (u : WorkflowStateV1.t) : WorkflowStateV1.t :=
  {| WorkflowStateV1.results := WorkflowStateV1.results u;
     WorkflowStateV1.child_results := WorkflowStateV1.child_results u;
     WorkflowStateV1.expected_children := WorkflowStateV1.expected_children u;
     WorkflowStateV1.completed_children := WorkflowStateV1.completed_children u;
     WorkflowStateV1.counters := WorkflowStateV1.counters u;
     WorkflowStateV1.node := WorkflowStateV1.node u;
     WorkflowStateV1.outcome := WorkflowStateV1.outcome u;
     WorkflowStateV1.tasks := WorkflowStateV1.tasks u;
     WorkflowStateV1.verification := Some [];
     WorkflowStateV1.review := Some [];
     WorkflowStateV1.approval := Some [];
     WorkflowStateV1.final := WorkflowStateV1.final u;
     WorkflowStateV1.cancelled := WorkflowStateV1.cancelled u;
     WorkflowStateV1.child_identity := WorkflowStateV1.child_identity u;
     WorkflowStateV1._route := WorkflowStateV1._route u;
     WorkflowStateV1._needs_verification := Some needs |}.

Definition set_needs_verification (needs : bool) (u : WorkflowStateV1.t) : WorkflowStateV1.t :=
  {| WorkflowStateV1.results := WorkflowStateV1.results u;
     WorkflowStateV1.child_results := WorkflowStateV1.child_results u;
     WorkflowStateV1.expected_children := WorkflowStateV1.expected_children u;
     WorkflowStateV1.completed_children := WorkflowStateV1.completed_children u;
     WorkflowStateV1.counters := WorkflowStateV1.counters u;
     WorkflowStateV1.node := WorkflowStateV1.node u;
     WorkflowStateV1.outcome := WorkflowStateV1.outcome u;
     WorkflowStateV1.tasks := WorkflowStateV1.tasks u;
     WorkflowStateV1.verification := WorkflowStateV1.verification u;
     WorkflowStateV1.review := WorkflowStateV1.review u;
     WorkflowStateV1.approval := WorkflowStateV1.approval u;
     WorkflowStateV1.final := WorkflowStateV1.final u;
     WorkflowStateV1.cancelled := WorkflowStateV1.cancelled u;
     WorkflowStateV1.child_identity := WorkflowStateV1.child_identity u;
     WorkflowStateV1._route := WorkflowStateV1._route u;
     WorkflowStateV1._needs_verification := Some needs |}.

Definition set_results_counters (results : jobj) (counters : list (string * Z))
    (route : option string) (u : WorkflowStateV1.t) : WorkflowStateV1.t :=
  {| WorkflowStateV1.results := Some results;
     WorkflowStateV1.child_results := WorkflowStateV1.child_results u;
     WorkflowStateV1.expected_children := WorkflowStateV1.expected_children u;
     WorkflowStateV1.completed_children := WorkflowStateV1.completed_children u;
     WorkflowStateV1.counters := Some counters;
     WorkflowStateV1.node := WorkflowStateV1.node u;
     WorkflowStateV1.outcome := WorkflowStateV1.outcome u;
     WorkflowStateV1.tasks := WorkflowStateV1.tasks u;
     WorkflowStateV1.verification := WorkflowStateV1.verification u;
     WorkflowStateV1.review := WorkflowStateV1.review u;
     WorkflowStateV1.approval := WorkflowStateV1.approval u;
     WorkflowStateV1.final := WorkflowStateV1.final u;
     WorkflowStateV1.cancelled := WorkflowStateV1.cancelled u;
     WorkflowStateV1.child_identity := WorkflowStateV1.child_identity u;
     WorkflowStateV1._route := route;
     WorkflowStateV1._needs_verification := WorkflowStateV1._needs_verification u |}.

(** [d.get(k) == s] *)
Definition field_is (d : option jobj) (k s : string) : bool :=
  match dict_get k (default [] d) with Some (JStr v) => bool_decide (v = s) | _ => false end.

(** [d.get("passed") is True] *)
Definition passed (d : option jobj) : bool :=
  match dict_get "passed" (default [] d) with Some (JBool true) => true | _ => false end.

Definition is_node_type (ty : WorkflowNodeType.t) (n : WorkflowNode.t) : bool :=
  bool_decide (WorkflowNode.type n = ty).

(** The approval check. *)
Definition grant_approved (state : WorkflowStateV1.t) (a : ApprovalPolicy.t) (g : string) : bool :=
  let grant := WorkflowStateV1.approval state in
  field_is grant "decision" "approved"
  && match ApprovalPolicy.action_type a with
     | Some action => field_is grant "action_type" (ActionType.value action)
     | None => match dict_get "action_type" (default [] grant) with
               | None | Some JNull => true
               | _ => false
               end
     end
  && field_is grant "granted_by" g.

Definition check_approval (state : WorkflowStateV1.t) (policy : NodePolicy.t)
    : res run_error unit :=
  match NodePolicy.approval policy with
  | Some a =>
      match ApprovalPolicy.required_grant_from a with
      | Some g =>
          if bool_decide (g = "") || grant_approved state a g then Ok tt
          else invariant "Protected action has no matching approved grant"
      | None => Ok tt
      end
  | None => Ok tt
  end.

(** The guards in front of the work. *)
Definition check_evidence (state : WorkflowStateV1.t) (n : WorkflowNode.t)
    : res run_error unit :=
  if (is_node_type WorkflowNodeType.reviewer n || is_node_type WorkflowNodeType.github_publish n)
     && negb (passed (WorkflowStateV1.verification state))
  then invariant "Required verification has not passed"
  else if is_node_type WorkflowNodeType.github_publish n
          && negb (passed (WorkflowStateV1.review state))
  then invariant "Required review has not passed"
  else if bool_decide (WorkflowNode.config n = NodeConfig.FinalizeConfig Outcome.derive)
          && default false (WorkflowStateV1._needs_verification state)
          && negb (default false (WorkflowStateV1.cancelled state))
          && negb (truthy (default JNull (dict_get "failure_class"
                                            (default [] (WorkflowStateV1.outcome state)))))
  then
    excused ← in_statuses (dict_get "status" (default [] (WorkflowStateV1.outcome state)))
                ["failed"; "blocked"; "cancelled"];
    if (excused : bool) then Ok tt else invariant "Final success cannot bypass required verification"
  else Ok tt.

(** The external or internal work, and the channels an external node may
write. *)
Definition run_node (ctx : NodeContext.t) (h : option handler) (state : WorkflowStateV1.t)
    : res run_error WorkflowStateV1.t :=
  let n := NodeContext.node ctx in
  let definition := NODE_DEFINITIONS (WorkflowNode.type n) in
  if NodeDefinition.external definition then
    match h with
    | None => Err (RMissingHandler (WorkflowNode.id n))
    | Some handle =>
        update ← handle state ctx;
        let allowed := NodeDefinition.outputs definition ++ ["node"; "outcome"] in
        if existsb (λ k, negb (bool_decide (k ∈ allowed))) (written update) then
          invariant ("Node " +:+ WorkflowNode.id n
                     +:+ " wrote channels outside its declared contract")
        else if negb (bool_decide (default "" (WorkflowStateV1.child_identity state) = ""))
                && existsb (λ k, negb (bool_decide (k = "results"))) (written update)
        then invariant "Parallel children may only write reduced results"
        else Ok update
    end
  else _internal state n.

(** The worker, verify and architect adjustments. *)
Definition adjust_update (ctx : NodeContext.t) (state update : WorkflowStateV1.t)
    : res run_error WorkflowStateV1.t :=
  let n := NodeContext.node ctx in
  let requires := match NodePolicy.verification (NodeContext.policy ctx) with
                  | Some v => VerificationPolicy.required v
                  | None => false
                  end in
  match WorkflowNode.config n with
  | NodeConfig.WorkerConfig =>
      Ok (if bool_decide (default "" (WorkflowStateV1.child_identity state) = "")
          then set_worker_channels requires update else update)
  | NodeConfig.VerifyConfig =>
      Ok (set_needs_verification (negb (passed (WorkflowStateV1.verification update))) update)
  | NodeConfig.ArchitectConfig max_tasks =>
      let tasks := default [] (WorkflowStateV1.tasks update) in
      match default (JObj []) (dict_get "items" tasks) with
      | JObj items =>
          let size := Z.of_nat (length items) in
          match default (JInt size) (dict_get "total_count" tasks) with
          | JInt count =>
              if Z.leb 0 count && Z.leb count max_tasks && Z.leb size max_tasks
                 && negb (dict_has "items" tasks && negb (Z.eqb size count))
              then Ok update
              else invariant "Architect output exceeds its declared task bound"
          | _ => invariant "Architect output exceeds its declared task bound"
          end
      | _ => invariant "Architect task entries must be an object"
      end
  | _ => Ok update
  end.

(** The execution's own result and its visit counter. *)
Definition record_result (ctx : NodeContext.t) (visit_key : string) (visit : Z)
    (update : WorkflowStateV1.t) : res run_error WorkflowStateV1.t :=
  let n := NodeContext.node ctx in
  let results := default [] (WorkflowStateV1.results update) in
  let execution_id := NodeContext.execution_id ctx in
  if NodeDefinition.external (NODE_DEFINITIONS (WorkflowNode.type n))
     && existsb (λ kv : string * json, negb (bool_decide (kv.1 = execution_id))) results
  then invariant "Handler results must use the supplied execution identity"
  else
    let results :=
      if dict_has execution_id results then results
      else results ++ [(execution_id, JObj [("node_id", JStr (WorkflowNode.id n))])] in
    Ok (set_results_counters results [(visit_key, visit)] (WorkflowStateV1._route update) update).

(** [_factory(context, handler)] *)
Definition _factory (node : WorkflowNode.t) (policy : NodePolicy.t)
    (snapshot : WorkflowResolvedSnapshot.t) (h : option handler) (state : WorkflowStateV1.t)
    : res run_error WorkflowStateV1.t :=
  let visit_key := invocation_key state (WorkflowNode.id node) in
  let visit := count state visit_key + 1 in
  let ctx := {| NodeContext.node := node; NodeContext.policy := policy;
                NodeContext.snapshot := snapshot;
                NodeContext.execution_id :=
                  identity_of state +:+ ":" +:+ WorkflowNode.id node +:+ ":" +:+ pretty visit |} in
  _ ← check_approval state policy;
  _ ← check_evidence state node;
  update ← run_node ctx h state;
  update ← adjust_update ctx state update;
  record_result ctx visit_key visit update.

(** ** Theorems: guards *)

Section factory.
Variables (node : WorkflowNode.t) (policy : NodePolicy.t) (snapshot : WorkflowResolvedSnapshot.t)
  (h : option handler) (state update : WorkflowStateV1.t).
Hypothesis Hrun : _factory node policy snapshot h state = Ok update.

Lemma factory_guards :
  check_approval state policy = Ok tt ∧ check_evidence state node = Ok tt.
Proof.
  unfold _factory in Hrun. destruct (check_approval state policy) as [[]|]; simpl in Hrun; [|done].
  by destruct (check_evidence state node) as [[]|]; simpl in Hrun.
Qed.

(** At run time too, a reviewer or publishing node only produces an update when
the state holds passed verification, and a publishing node only when the state also
holds a passed review. *)
Lemma factory_evidence :
  (WorkflowNode.type node = WorkflowNodeType.reviewer
   ∨ WorkflowNode.type node = WorkflowNodeType.github_publish →
     passed (WorkflowStateV1.verification state) = true)
  ∧ (WorkflowNode.type node = WorkflowNodeType.github_publish →
     passed (WorkflowStateV1.review state) = true).
Proof.
  destruct factory_guards as [_ H]. unfold check_evidence, is_node_type in H.
  destruct (WorkflowNode.type node) eqn:Hty;
    try (split; [by intros [?|?]|done]).
  - rewrite (bool_decide_true (WorkflowNodeType.reviewer = _)) in H by done. cbn [orb andb] in H.
    by destruct (passed (WorkflowStateV1.verification state)).
  - rewrite (bool_decide_true (WorkflowNodeType.github_publish = WorkflowNodeType.github_publish))
      in H by done.
    rewrite orb_true_r in H. cbn [andb] in H.
    destruct (passed (WorkflowStateV1.verification state)), (passed (WorkflowStateV1.review state));
      done.
Qed.

(** A node with a named grant only ever runs on that grant, approved. *)
Lemma factory_approval a g :
  NodePolicy.approval policy = Some a → ApprovalPolicy.required_grant_from a = Some g → g ≠ "" →
  grant_approved state a g = true.
Proof.
  intros Ha Hg Hne. destruct factory_guards as [H _]. unfold check_approval in H.
  rewrite Ha, Hg, bool_decide_false in H by done. by destruct (grant_approved state a g).
Qed.
End factory.

Lemma adjust_worker ctx state update update' :
  WorkflowNode.type (NodeContext.node ctx) = WorkflowNodeType.worker →
  default "" (WorkflowStateV1.child_identity state) = "" →
  adjust_update ctx state update = Ok update' →
  WorkflowStateV1.verification update' = Some [] ∧ WorkflowStateV1.review update' = Some []
  ∧ WorkflowStateV1.approval update' = Some [].
Proof.
  intros Hty Hc. unfold adjust_update. unfold WorkflowNode.type in Hty.
  destruct (WorkflowNode.config _); try done. rewrite bool_decide_true by done.
  by intros [= <-].
Qed.

Lemma record_result_channels ctx k v update update' :
  record_result ctx k v update = Ok update' →
  WorkflowStateV1.verification update' = WorkflowStateV1.verification update
  ∧ WorkflowStateV1.review update' = WorkflowStateV1.review update
  ∧ WorkflowStateV1.approval update' = WorkflowStateV1.approval update
  ∧ WorkflowStateV1.counters update' = Some [(k, v)].
Proof.
  unfold record_result. destruct (_ && _); [done|]. by intros [= <-].
Qed.

(** A node that produces an update ran, was adjusted and recorded. *)
Lemma factory_runs node policy snapshot h state update :
  _factory node policy snapshot h state = Ok update →
  let visit_key := invocation_key state (WorkflowNode.id node) in
  let visit := count state visit_key + 1 in
  let ctx := {| NodeContext.node := node; NodeContext.policy := policy; NodeContext.snapshot := snapshot;
                NodeContext.execution_id :=
                  identity_of state +:+ ":" +:+ WorkflowNode.id node +:+ ":" +:+ pretty visit |} in
  ∃ u u', run_node ctx h state = Ok u ∧ adjust_update ctx state u = Ok u'
    ∧ record_result ctx visit_key visit u' = Ok update.
Proof.
  unfold _factory. intros H. cbv zeta in *.
  destruct (check_approval state policy) as [[]|]; simpl in H; [|done].
  destruct (check_evidence state node) as [[]|]; simpl in H; [|done].
  match type of H with context [run_node ?c h state] => set (ctx := c) in * end.
  destruct (run_node ctx h state) as [u|] eqn:Hu; simpl in H; [|done].
  destruct (adjust_update ctx state u) as [u'|] eqn:Hu'; simpl in H; [|done].
  by exists u, u'.
Qed.

(** A worker node invalidates earlier evidence: in the state its update leaves,
verification and review have not passed and no approval grant is in force. *)
Lemma worker_invalidates `{PyRuntime} node policy snapshot h state update merged a g :
  WorkflowNode.type node = WorkflowNodeType.worker →
  default "" (WorkflowStateV1.child_identity state) = "" →
  _factory node policy snapshot h state = Ok update →
  merged_state state update = Ok merged →
  passed (WorkflowStateV1.verification merged) = false
  ∧ passed (WorkflowStateV1.review merged) = false
  ∧ grant_approved merged a g = false.
Proof.
  intros Hty Hc Hrun Hm. apply factory_runs in Hrun as (u & u' & _ & Ha & Hr).
  apply adjust_worker in Ha as (Hv & Hrv & Hap); [|done..].
  apply record_result_channels in Hr as (Hv' & Hr' & Ha' & _).
  unfold merged_state in Hm.
  apply res_bind_ok in Hm as (r & _ & Hm). apply res_bind_ok in Hm as (cr & _ & Hm).
  apply res_bind_ok in Hm as (c & _ & Hm). injection Hm as <-.
  unfold grant_approved; simpl. rewrite Hv', Hr', Ha', Hv, Hrv, Hap. done.
Qed.

(** ** Theorems: executions of external nodes *)

(** The tasks an architect plans: an object of at most [max_tasks] entries whose count is
its size, or a count alone. *)
Definition plans_within (max_tasks : Z) (tasks : jobj) : Prop :=
  ∃ items count, default (JObj []) (dict_get "items" tasks) = JObj items
    ∧ default (JInt (Z.of_nat (length items))) (dict_get "total_count" tasks) = JInt count
    ∧ 0 ≤ count ≤ max_tasks ∧ Z.of_nat (length items) ≤ max_tasks
    ∧ (is_Some (dict_get "items" tasks) → count = Z.of_nat (length items)).

Definition in_branch (state : WorkflowStateV1.t) : Prop :=
  default "" (WorkflowStateV1.child_identity state) ≠ "".
Definition requires_verification (policy : NodePolicy.t) : bool :=
  match NodePolicy.verification policy with Some v => VerificationPolicy.required v | None => false end.

(** The update of an external node whose handler answered [u] in execution [id]. *)
Record executed (node : WorkflowNode.t) (policy : NodePolicy.t) (state u : WorkflowStateV1.t)
    (id : string) (update : WorkflowStateV1.t) : Prop := {
  ex_verified : WorkflowNode.type node = WorkflowNodeType.reviewer
    ∨ WorkflowNode.type node = WorkflowNodeType.github_publish →
    passed (WorkflowStateV1.verification state) = true;
  ex_reviewed : WorkflowNode.type node = WorkflowNodeType.github_publish →
    passed (WorkflowStateV1.review state) = true;
  ex_channels : ∀ k, k ∈ written u →
    k ∈ NodeDefinition.outputs (NODE_DEFINITIONS (WorkflowNode.type node)) ++ ["node"; "outcome"]
    ∧ (in_branch state → k = "results");
  ex_results : ∃ r, WorkflowStateV1.results update = Some r
    ∧ dict_get id r = Some (default (JObj [("node_id", JStr (WorkflowNode.id node))])
                              (dict_get id (default [] (WorkflowStateV1.results u))))
    ∧ ∀ k v, (k, v) ∈ r → k = id;
  ex_counters : WorkflowStateV1.counters update
    = Some [(invocation_key state (WorkflowNode.id node),
             count state (invocation_key state (WorkflowNode.id node)) + 1)];
  ex_worker : WorkflowNode.type node = WorkflowNodeType.worker → ¬ in_branch state →
    WorkflowStateV1.verification update = Some [] ∧ WorkflowStateV1.review update = Some []
    ∧ WorkflowStateV1.approval update = Some []
    ∧ WorkflowStateV1._needs_verification update = Some (requires_verification policy);
  ex_verify : WorkflowNode.type node = WorkflowNodeType.verify →
    WorkflowStateV1._needs_verification update = Some (negb (passed (WorkflowStateV1.verification u)));
  ex_evidence : WorkflowNode.type node ≠ WorkflowNodeType.worker ∨ in_branch state →
    WorkflowStateV1.verification update = WorkflowStateV1.verification u
    ∧ WorkflowStateV1.review update = WorkflowStateV1.review u
    ∧ WorkflowStateV1.approval update = WorkflowStateV1.approval u
    ∧ (WorkflowNode.type node ≠ WorkflowNodeType.verify →
       WorkflowStateV1._needs_verification update = WorkflowStateV1._needs_verification u);
  ex_tasks : ∀ n, WorkflowNode.config node = NodeConfig.ArchitectConfig n →
    plans_within n (default [] (WorkflowStateV1.tasks u));
  ex_rest :
    WorkflowStateV1.child_results update = WorkflowStateV1.child_results u
    ∧ WorkflowStateV1.expected_children update = WorkflowStateV1.expected_children u
    ∧ WorkflowStateV1.completed_children update = WorkflowStateV1.completed_children u
    ∧ WorkflowStateV1.node update = WorkflowStateV1.node u
    ∧ WorkflowStateV1.outcome update = WorkflowStateV1.outcome u
    ∧ WorkflowStateV1.tasks update = WorkflowStateV1.tasks u
    ∧ WorkflowStateV1.final update = WorkflowStateV1.final u
    ∧ WorkflowStateV1.cancelled update = WorkflowStateV1.cancelled u
    ∧ WorkflowStateV1.child_identity update = WorkflowStateV1.child_identity u
    ∧ WorkflowStateV1._route update = WorkflowStateV1._route u;
}.

Lemma run_node_external ctx h state u :
  run_node ctx h state = Ok u →
  NodeDefinition.external (NODE_DEFINITIONS (WorkflowNode.type (NodeContext.node ctx))) = true →
  (∃ f, h = Some f ∧ f state ctx = Ok u)
  ∧ ∀ k, k ∈ written u →
      k ∈ NodeDefinition.outputs (NODE_DEFINITIONS (WorkflowNode.type (NodeContext.node ctx)))
          ++ ["node"; "outcome"]
      ∧ (in_branch state → k = "results").
Proof.
  intros Hrun Hext. unfold run_node in Hrun. rewrite Hext in Hrun.
  destruct h as [f|]; [|done]. destruct (f state ctx) as [u0|] eqn:Hf; simpl in Hrun; [|done].
  destruct (existsb _ (written u0)) eqn:He; [done|].
  destruct (negb (bool_decide (default "" (WorkflowStateV1.child_identity state) = ""))
            && existsb (λ k, negb (bool_decide (k = "results"))) (written u0)) eqn:Hc; [done|].
  injection Hrun as <-. split; [by exists f|]. intros k Hk. rewrite existsb_false in He. split.
  - specialize (He k Hk). by apply negb_false_iff, bool_decide_eq_true in He.
  - intros Hne. rewrite bool_decide_false, andb_true_l, existsb_false in Hc by done.
    specialize (Hc k Hk). by apply negb_false_iff, bool_decide_eq_true in Hc.
Qed.

(** What the adjustments of the three node types leave. *)
Record adjusted (ctx : NodeContext.t) (state u u' : WorkflowStateV1.t) : Prop := {
  aj_worker : WorkflowNode.type (NodeContext.node ctx) = WorkflowNodeType.worker → ¬ in_branch state →
    u' = set_worker_channels (requires_verification (NodeContext.policy ctx)) u;
  aj_verify : WorkflowNode.type (NodeContext.node ctx) = WorkflowNodeType.verify →
    u' = set_needs_verification (negb (passed (WorkflowStateV1.verification u))) u;
  aj_other : WorkflowNode.type (NodeContext.node ctx) ≠ WorkflowNodeType.worker ∨ in_branch state →
    WorkflowNode.type (NodeContext.node ctx) ≠ WorkflowNodeType.verify → u' = u;
  aj_tasks : ∀ n, WorkflowNode.config (NodeContext.node ctx) = NodeConfig.ArchitectConfig n →
    plans_within n (default [] (WorkflowStateV1.tasks u));
}.
Lemma architect_within ctx state u u' n :
  WorkflowNode.config (NodeContext.node ctx) = NodeConfig.ArchitectConfig n →
  adjust_update ctx state u = Ok u' → u' = u ∧ plans_within n (default [] (WorkflowStateV1.tasks u)).
Proof.
  intros Hn. unfold adjust_update. rewrite Hn. set (tasks := default [] (WorkflowStateV1.tasks u)).
  destruct (default (JObj []) (dict_get "items" tasks)) as [| | | | | |items] eqn:Hi; try done.
  destruct (default (JInt _) (dict_get "total_count" tasks)) as [| |count| | | |] eqn:Hc; try done.
  destruct (_ && _) eqn:Hb; [|done]. intros [= <-]. split; [done|].
  rewrite !andb_true_iff, negb_true_iff, !Z.leb_le in Hb. destruct Hb as [[[? ?] ?] Hsize].
  exists items, count. split_and!; try done. intros [v Hv]. unfold dict_has in Hsize. rewrite Hv in Hsize.
  by apply negb_false_iff, Z.eqb_eq in Hsize.
Qed.
Lemma adjust_update_ok ctx state u u' : adjust_update ctx state u = Ok u' → adjusted ctx state u u'.
Proof.
  intros Ha. destruct (WorkflowNode.config (NodeContext.node ctx)) eqn:Hcfg;
    try (destruct (architect_within _ _ _ _ _ Hcfg Ha) as [-> Hp]; split; unfold WorkflowNode.type;
         rewrite Hcfg; try done; intros n [= <-]; exact Hp).
  all: unfold adjust_update in Ha; rewrite Hcfg in Ha; injection Ha as <-;
    split; unfold WorkflowNode.type; rewrite Hcfg; try done.
  - intros _ Hb. destruct (decide (default "" (WorkflowStateV1.child_identity state) = "")) as [Hc|];
      [by rewrite bool_decide_true|by destruct Hb].
  - intros [?|Hb]; [done|]. by rewrite bool_decide_false.
Qed.

Lemma record_result_external ctx key n u update :
  record_result ctx key n u = Ok update →
  NodeDefinition.external (NODE_DEFINITIONS (WorkflowNode.type (NodeContext.node ctx))) = true →
  ∃ r, update = set_results_counters r [(key, n)] (WorkflowStateV1._route u) u
    ∧ dict_get (NodeContext.execution_id ctx) r
      = Some (default (JObj [("node_id", JStr (WorkflowNode.id (NodeContext.node ctx)))])
                (dict_get (NodeContext.execution_id ctx) (default [] (WorkflowStateV1.results u))))
    ∧ ∀ k v, (k, v) ∈ r → k = NodeContext.execution_id ctx.
Proof.
  unfold record_result. intros Hr Hext. rewrite Hext in Hr.
  set (rs := default [] (WorkflowStateV1.results u)) in *. set (id := NodeContext.execution_id ctx) in *.
  destruct (existsb _ rs) eqn:Hk; [done|]. injection Hr as <-. eexists. split; [done|].
  assert (∀ k v, (k, v) ∈ rs → k = id) as Hall.
  { intros k v Hin. rewrite existsb_false in Hk. specialize (Hk _ Hin).
    by apply negb_false_iff, bool_decide_eq_true in Hk. }
  unfold dict_has. destruct (dict_get id rs) as [v|] eqn:Hg; simpl; [by split|]. split.
  - destruct rs as [|[k v] rs']; [simpl; by rewrite bool_decide_true|].
    rewrite (Hall k v) in Hg by by left. simpl in Hg. by rewrite bool_decide_true in Hg.
  - intros k v [Hin|[= -> _]%list_elem_of_singleton]%elem_of_app; [by eapply Hall|done].
Qed.

(** C40. The update of an external node: the handler is asked once, with the state
and an execution identity made of the branch, the node and the number of the visit;
it writes only the channels its definition declares, besides node and outcome, and
inside a fan-out branch only results; the update records a result under that
identity and no other, and the visit; a worker outside a branch clears verification,
review and approval and says whether verification is needed, a verify node says
whether its verification passed, an architect stays within its task bound, and every
other channel is the handler's; a reviewer or publishing node ran on passed
verification, a publishing node on a passed review. *)
Theorem external_execution node policy snapshot h state update :
  _factory node policy snapshot h state = Ok update →
  NodeDefinition.external (NODE_DEFINITIONS (WorkflowNode.type node)) = true →
  let visit := count state (invocation_key state (WorkflowNode.id node)) + 1 in
  let id := identity_of state +:+ ":" +:+ WorkflowNode.id node +:+ ":" +:+ pretty visit in
  ∃ f u, h = Some f
    ∧ f state {| NodeContext.node := node; NodeContext.policy := policy;
                 NodeContext.snapshot := snapshot; NodeContext.execution_id := id |} = Ok u
    ∧ executed node policy state u id update.
Proof.
  intros Hrun Hext visit id. destruct (factory_evidence _ _ _ _ _ _ Hrun) as [Hverified Hreviewed].
  apply factory_runs in Hrun as (u & u' & Hn & Ha & Hr).
  destruct (run_node_external _ _ _ _ Hn Hext) as [(f & -> & Hf) Hch]. exists f, u. split_and!; [done..|].
  destruct (adjust_update_ok _ _ _ _ Ha) as [Hw Hv Ho Ht].
  destruct (record_result_external _ _ _ _ _ Hr Hext) as (r & -> & Hid & Hall). simpl in *.
  assert (WorkflowStateV1.results u' = WorkflowStateV1.results u ∧ WorkflowStateV1._route u' = WorkflowStateV1._route u
    ∧ ∃ v re ap ne, u' = WorkflowStateV1.Build_t (WorkflowStateV1.results u) (WorkflowStateV1.child_results u)
        (WorkflowStateV1.expected_children u) (WorkflowStateV1.completed_children u) (WorkflowStateV1.counters u)
        (WorkflowStateV1.node u) (WorkflowStateV1.outcome u) (WorkflowStateV1.tasks u) v re ap
        (WorkflowStateV1.final u) (WorkflowStateV1.cancelled u) (WorkflowStateV1.child_identity u)
        (WorkflowStateV1._route u) ne) as (Hres & Hroute & Hshape).
  { destruct (decide (WorkflowNode.type node = WorkflowNodeType.verify)) as [Hty|Hnv];
      [rewrite (Hv Hty); split_and!; [done..|by do 4 eexists]|].
    destruct (decide (WorkflowNode.type node = WorkflowNodeType.worker)) as [Hty|Hnw].
    - destruct (decide (default "" (WorkflowStateV1.child_identity state) = "")) as [Hc|Hc].
      + rewrite (Hw Hty) by (by intros ?); split_and!; [done..|by do 4 eexists].
      + rewrite (Ho (or_intror Hc) Hnv). split_and!; [done..|]. destruct u. by do 4 eexists.
    - rewrite (Ho (or_introl Hnw) Hnv). split_and!; [done..|]. destruct u. by do 4 eexists. }
  rewrite Hres in Hid. split; simpl.
  - exact Hverified.
  - exact Hreviewed.
  - exact Hch.
  - by exists r.
  - done.
  - intros Hty Hb. by rewrite (Hw Hty Hb).
  - intros Hty. by rewrite (Hv Hty).
  - intros Hno. destruct (decide (WorkflowNode.type node = WorkflowNodeType.verify)) as [Hty|Hnv].
    + by rewrite (Hv Hty).
    + by rewrite (Ho Hno Hnv).
  - exact Ht.
  - destruct Hshape as (? & ? & ? & ? & ->). done.
Qed.

(** ** Theorems: dispatch, join, finalize *)

(** The task the dispatcher selects. *)
Definition ready_task (items : jobj) (k : string) : Prop :=
  ∃ d deps, dict_get k items = Some (JObj d) ∧ is_pending d = true
    ∧ default (JArr []) (dict_get "dependencies" d) = JArr deps
    ∧ ∀ v, v ∈ deps → ∃ s item, v = JStr s ∧ dict_get s items = Some item
                                 ∧ is_completed item = true.

Lemma elem_of_completed items s :
  dict_ok items →
  s ∈ completed_keys items ↔ ∃ item, dict_get s items = Some item ∧ is_completed item = true.
Proof.
  intros Hok. unfold completed_keys. rewrite list_elem_of_fmap.
  setoid_rewrite list_elem_of_filter. setoid_rewrite dict_get_Some; [|done]. split.
  - intros ([k v] & -> & ? & ?). eauto.
  - intros (v & ? & ?). by exists (s, v).
Qed.

Lemma all_completed_spec items deps :
  dict_ok items →
  all_completed deps (completed_keys items) = true
  ↔ ∀ v, v ∈ deps → ∃ s item, v = JStr s ∧ dict_get s items = Some item ∧ is_completed item = true.
Proof.
  intros Hok. unfold all_completed. rewrite forallb_forall. setoid_rewrite <-list_elem_of_In.
  split; intros Hall v Hv; specialize (Hall v Hv).
  - destruct v; try done. apply bool_decide_eq_true, elem_of_completed in Hall as (i & ? & ?);
      [|done]. eauto.
  - destruct Hall as (s & i & -> & ? & ?). apply bool_decide_eq_true, elem_of_completed; eauto.
Qed.

Lemma ready_keys_spec items sorted_items ready :
  dict_ok items → ready_keys items (completed_keys items) sorted_items = Ok ready →
  (∀ kv, kv ∈ sorted_items → kv ∈ items) →
  ready `sublist_of` sorted_items.*1
  ∧ ∀ k, k ∈ ready ↔ k ∈ sorted_items.*1 ∧ ready_task items k.
Proof.
  intros Hok. revert ready; induction sorted_items as [|[k item] rest IH]; intros ready; simpl.
  { intros [= <-] _. split; [constructor|]. set_solver. }
  destruct item as [| | | | | |d]; try done.
  destruct (default (JArr []) (dict_get "dependencies" d)) as [| | | | |deps|] eqn:Hdeps; try done.
  destruct (forallb _ deps); [|done].
  destruct (ready_keys items _ rest) as [r|] eqn:Hr; simpl; [|done]. intros Heq Hsub.
  destruct (IH r eq_refl) as [Hs Hiff]; [intros; apply Hsub; by right|].
  assert (dict_get k items = Some (JObj d)) as Hk.
  { apply dict_get_Some; [done|]. apply Hsub. by left. }
  assert (is_pending d && all_completed deps (completed_keys items) = true ↔ ready_task items k)
    as Hready.
  { rewrite andb_true_iff, all_completed_spec by done. unfold ready_task. split.
    - intros [? ?]. by exists d, deps.
    - intros (d' & deps' & Hk' & ? & Hd' & ?). simplify_eq. by rewrite Hdeps in Hd'; simplify_eq. }
  destruct (is_pending d && all_completed deps (completed_keys items)); injection Heq as <-.
  - split; [by constructor|]. intros j. rewrite !elem_of_cons, Hiff. naive_solver.
  - split; [by constructor|]. intros j. rewrite elem_of_cons, Hiff. split; [naive_solver|].
    intros [[->|?] Hj]; [|done]. by apply Hready in Hj.
Qed.

Lemma StronglySorted_sublist {A} (R : A → A → Prop) l k :
  l `sublist_of` k → StronglySorted R k → StronglySorted R l.
Proof.
  induction 1 as [|x l k Hlk IH|x l k Hlk IH]; intros Hs; [done|..];
    apply StronglySorted_inv in Hs as [Hs Hall]; [|by apply IH].
  constructor; [by apply IH|]. rewrite Forall_forall in *. intros y Hy. apply Hall.
  eapply elem_of_submseteq; [exact Hy|]. by apply sublist_submseteq.
Qed.

Lemma sorted_keys_sorted (d : jobj) : StronglySorted (key_le id) (dict_sorted d).*1.
Proof.
  pose proof (sorted_key_sorted fst d) as Hs. unfold dict_sorted.
  induction Hs as [|x l Hl IH Hall]; csimpl; constructor; [done|].
  apply Forall_fmap. eapply Forall_impl; [exact Hall|]. done.
Qed.

(** The task dispatcher reports the number of planned tasks and selects the
least ready task (pending, with all dependencies completed), or none exactly when no
task is ready. *)
Lemma _dispatch_spec state tasks items :
  dict_get "items" (default [] (WorkflowStateV1.tasks state)) = Some (JObj items) →
  dict_ok items → _dispatch state = Ok tasks →
  dict_get "total_count" tasks = Some (JInt (Z.of_nat (length items)))
  ∧ match dict_get "current_task" tasks with
    | Some (JStr k) => ready_task items k ∧ ∀ j, ready_task items j → py_leb k j = true
    | Some JNull => ∀ j, ¬ ready_task items j
    | _ => False
    end.
Proof.
  intros Hitems Hok. unfold _dispatch. rewrite Hitems.
  destruct (terminal_keys items) as [terminal|]; simpl; [|done].
  destruct (ready_keys _ _ _) as [ready|] eqn:Hr; simpl; [|done]. intros [= <-].
  unfold dict_update; simpl. rewrite !dict_get_set. simpl.
  split; [done|].
  destruct (ready_keys_spec items (dict_sorted items) ready) as [Hsub Hiff]; [done..| |].
  { intros kv. by rewrite (dict_sorted_perm items). }
  assert (∀ j, ready_task items j → j ∈ ready) as Hin.
  { intros j Hj. apply Hiff. split; [|done]. rewrite (dict_sorted_perm items).
    destruct Hj as (d & ? & Hj & _). apply dict_get_elem in Hj. apply list_elem_of_fmap.
    by exists (j, JObj d). }
  destruct ready as [|k ready].
  - intros j Hj. apply Hin in Hj. by apply elem_of_nil in Hj.
  - split; [apply Hiff; by left|]. intros j Hj. apply Hin in Hj.
    apply elem_of_cons in Hj as [->|Hj]; [apply py_leb_refl|].
    assert (StronglySorted (key_le id) (k :: ready)) as Hs
      by (eapply StronglySorted_sublist; [exact Hsub|apply sorted_keys_sorted]).
    apply StronglySorted_inv in Hs as [_ Hall]. rewrite Forall_forall in Hall. by apply Hall.
Qed.

(** [FINALIZE] stores one of four outcomes; a cancelled run is cancelled, and a
fixed outcome is kept unless the run is cancelled. *)
Lemma finalize_status state outcome d :
  finalize state outcome = Ok d →
  ∃ s, d = [("status", JStr s)] ∧ s ∈ final_statuses
    ∧ (WorkflowStateV1.cancelled state = Some true → s = "cancelled")
    ∧ (WorkflowStateV1.cancelled state ≠ Some true → outcome ≠ Outcome.derive →
       s = Outcome.value outcome).
Proof.
  unfold finalize. destruct (derived_status state outcome) as [| | | |s| |] eqn:Hs; try done.
  case_bool_decide as Hin; [|done]. intros [= <-]. exists s. split_and!; [done..| |].
  - intros Hc. unfold derived_status in Hs. rewrite Hc in Hs. simpl in Hs. by injection Hs as <-.
  - intros Hc Ho. unfold derived_status in Hs. rewrite (bool_decide_false (outcome = _)) in Hs by done.
    assert (default false (WorkflowStateV1.cancelled state) = false) as Hcf
      by (by destruct (WorkflowStateV1.cancelled state) as [[]|]).
    rewrite Hcf in Hs. destruct outcome; simpl in Hs; by injection Hs as <-.
Qed.

(** A derived success is only reported when no child branch failed. *)
Lemma finalize_children state d :
  finalize state Outcome.derive = Ok d → WorkflowStateV1.cancelled state ≠ Some true →
  (∃ s, s ∈ child_failures state ∧ s ∈ ["blocked"; "failed"; "cancelled"]) →
  dict_get "status" d ≠ Some (JStr "completed").
Proof.
  intros Hf Hc (s & Hs & Hsin). unfold finalize in Hf.
  destruct (derived_status state Outcome.derive) as [| | | |st| |] eqn:Hd; try done.
  case_bool_decide; [|done]. injection Hf as <-. simpl. intros [= ->].
  unfold derived_status in Hd. rewrite (bool_decide_true (Outcome.derive = _)) in Hd by done.
  assert (default false (WorkflowStateV1.cancelled state) = false) as Hcf
    by (by destruct (WorkflowStateV1.cancelled state) as [[]|]).
  rewrite Hcf in Hd. cbn [foldl] in Hd.
  case_bool_decide; [by injection Hd|]. case_bool_decide; [by injection Hd|].
  case_bool_decide; [by injection Hd|]. set_solver.
Qed.

(** A join passes only when the last activation of its fan-out expected at
least one child and every expected child has completed and delivered its result;
otherwise it raises. *)
Lemma join_results_complete state id fanout_id d :
  join_results state id fanout_id = Ok d →
  let expected := filter (λ k, startswith (join_prefix state fanout_id) k = true)
                    (default [] (WorkflowStateV1.expected_children state)) in
  expected ≠ []
  ∧ ∀ k, k ∈ expected →
      k ∈ default [] (WorkflowStateV1.completed_children state)
      ∧ is_Some (dict_get k (default [] (WorkflowStateV1.child_results state))).
Proof.
  unfold join_results. set (expected := filter _ _).
  destruct (Nat.eqb_spec (length expected) 0) as [H0|H0]; [done|]. simpl.
  destruct (existsb _ expected) eqn:He; [done|]. intros _. split; [by intros ->|].
  intros k Hk. rewrite existsb_false in He. specialize (He k Hk) as Hf.
  apply orb_false_iff in Hf as [Hc%negb_false_iff Hr%negb_false_iff].
  split; [by apply bool_decide_eq_true in Hc|]. unfold dict_has in Hr.
  by destruct (dict_get k _).
Qed.
