(* ===== verification/Compiler.v ===== *)
(** * The workflow compiler

[orchestrator/app/jarvis_orchestrator/workflows/compiler.py]: run configuration,
the compile cache, route selection, branch regions and the superstep limit.
Building the LangGraph graph is the library's; what a compiled node does
([invoke]) and where it goes next ([_choose_route], [fanout_route]) is modelled.

[branch_regions_agree] relates the branch regions to the validator's;
[Superstep.v] bounds the runs of a compiled graph by [_superstep_limit]. *)
From S2P Require Import Prelude Enums PyJson PyDecimal Failures Verification Registry.
From S2P Require Import WorkflowSpec Predicates State Normalize RawValidation Graph GraphIssues.
From S2P Require Import FanoutIssues SnapshotIssues PolicyIssues Protected Validate NodeFactory.
Local Open Scope Z_scope.
Local Open Scope stdpp_scope.

(** ** [workflow_run_config] *)

Inductive config_error : Set := BadThreadId | ThreadIdChanged | BadConfigurable.

Definition workflow_run_config (thread_id : string) (config : jobj) : res config_error jobj :=
  if bool_decide (thread_id = "") || Nat.ltb 200 (py_len thread_id) then Err BadThreadId
  else
    match default (JObj []) (dict_get "configurable" config) with
    | JObj configurable =>
        if negb (py_eq (default (JStr thread_id) (dict_get "thread_id" configurable))
                   (JStr thread_id))
        then Err ThreadIdChanged
        else Ok (dict_set "configurable"
                   (JObj (dict_set "thread_id" (JStr thread_id) configurable)) config)
    | _ => Err BadConfigurable
    end.

(** ** [CompileCache] *)

Module CompileCache.
Section cache.
Context {K V : Type} `{EqDecision K}.

(** [_entries] is an [OrderedDict], oldest entry first. *)
Record t := { max_entries : Z; entries : list (K * V); closed : bool }.

Inductive error : Set := BadCapacity | ClosedScope.

(** [CompileCache(max_entries)] *)
Definition create (max_entries : Z) : res error t :=
  if z_between 1 256 max_entries then Ok (Build_t max_entries [] false) else Err BadCapacity.

Definition close (c : t) : t := Build_t (max_entries c) [] true.

Definition without (k : K) (l : list (K * V)) : list (K * V) := filter (λ kv, kv.1 ≠ k) l.

Definition find (k : K) (l : list (K * V)) : option V := snd <$> find_key fst k l.

(** [_get] *)
Definition get (k : K) (c : t) : res error (option V * t) :=
  if closed c then Err ClosedScope
  else match find k (entries c) with
       | None => Ok (None, c)
       | Some v => Ok (Some v, Build_t (max_entries c) (without k (entries c) ++ [(k, v)]) false)
       end.

(** [while len(self._entries) > self.max_entries: popitem(last=False)] *)
Fixpoint evict (max : Z) (l : list (K * V)) : list (K * V) :=
  match l with
  | [] => []
  | _ :: l' => if Z.ltb max (Z.of_nat (length l)) then evict max l' else l
  end.

(** [_put] *)
Definition put (k : K) (v : V) (c : t) : t :=
  Build_t (max_entries c) (evict (max_entries c) (without k (entries c) ++ [(k, v)])) (closed c).

(** The keys are distinct and fit the capacity. *)
Definition inv (c : t) : Prop :=
  NoDup (entries c).*1 ∧ Z.of_nat (length (entries c)) ≤ max_entries c ∧ 1 ≤ max_entries c.

Lemma evict_suffix max l : 0 ≤ max → ∃ old, l = old ++ evict max l
  ∧ Z.of_nat (length (evict max l)) ≤ max
  ∧ (old ≠ [] → Z.of_nat (length (evict max l)) = max).
Proof.
  intros Hmax. induction l as [|x l (old & Hl & Hlen & Hfull)]; cbn [evict].
  - exists []. simpl. split_and!; [done|lia|done].
  - destruct (Z.ltb_spec max (Z.of_nat (length (x :: l)))) as [Hlt|Hge].
    + exists (x :: old). rewrite Hl at 1. split_and!; [done|done|]. intros _.
      destruct old as [|y old]; [|by apply Hfull]. simpl in Hl. rewrite <-Hl in *.
      simpl in Hlt. lia.
    + exists []. split_and!; [done|lia|done].
Qed.

Lemma NoDup_without k (l : list (K * V)) : NoDup l.*1 → NoDup (without k l).*1 ∧ k ∉ (without k l).*1.
Proof.
  intros Hnd. unfold without. split.
  - induction l as [|[a b] l IH]; csimpl in *; [constructor|]. apply NoDup_cons in Hnd as [Ha Hl].
    rewrite filter_cons; simpl. case_decide; csimpl; [|by apply IH]. constructor; [|by apply IH].
    rewrite list_elem_of_fmap in Ha |- *. intros (y & ? & [_ Hy]%list_elem_of_filter). eauto.
  - rewrite list_elem_of_fmap. intros (y & -> & [Hy _]%list_elem_of_filter). done.
Qed.

Lemma find_without k k' l : k' ≠ k → find k' (without k l) = find k' l.
Proof.
  intros Hne. unfold find, find_key, without. induction l as [|[a b] l IH]; [done|].
  rewrite filter_cons; simpl. destruct (decide (a = k)) as [->|Ha].
  - rewrite (decide_False (P:=k ≠ k)) by naive_solver. rewrite IH.
    rewrite (decide_False (P:=k = k')) by done.
    by destruct (list_find _ l) as [[]|].
  - rewrite (decide_True (P:=a ≠ k)) by done. simpl. destruct (decide (a = k')); [done|].
    destruct (list_find _ (filter _ l)) as [[]|], (list_find _ l) as [[]|]; simpl in *; congruence.
Qed.

Lemma find_snoc k v l : k ∉ l.*1 → find k (l ++ [(k, v)]) = Some v.
Proof.
  unfold find, find_key. induction l as [|[a b] l IH]; csimpl.
  - intros _. by rewrite decide_True.
  - rewrite not_elem_of_cons. intros [Hak Hk]. rewrite decide_False by congruence.
    specialize (IH Hk). by destruct (list_find _ _) as [[]|].
Qed.

Lemma find_app_None k l r : k ∉ l.*1 → find k (l ++ r) = find k r.
Proof.
  unfold find, find_key. induction l as [|[a b] l IH]; csimpl; [done|].
  rewrite not_elem_of_cons. intros [Hak Hk]. rewrite decide_False by congruence.
  rewrite <-(IH Hk). by destruct (list_find _ (l ++ r)) as [[]|].
Qed.

Lemma create_inv n c : create n = Ok c → inv c.
Proof.
  unfold create, z_between. destruct (Z.leb_spec 1 n), (Z.leb_spec n 256); simpl; try done.
  intros [= <-]. split_and!; simpl; [constructor|lia|done].
Qed.

Lemma put_inv k v c : inv c → inv (put k v c).
Proof.
  intros (Hnd & Hlen & Hmax). unfold put, inv; simpl.
  destruct (evict_suffix (max_entries c) (without k (entries c) ++ [(k, v)])) as (old & Hl & Hle & _);
    [lia|]. destruct (NoDup_without k _ Hnd) as [Hnd' Hk].
  split_and!; [|done|done].
  assert (NoDup (without k (entries c) ++ [(k, v)]).*1) as Hall.
  { rewrite fmap_app. apply NoDup_app. split_and!; [done| |apply NoDup_singleton].
    intros x Hx ->%list_elem_of_singleton. done. }
  rewrite Hl, fmap_app in Hall. by apply NoDup_app in Hall as (_ & _ & ?).
Qed.

(** What was just put is found. *)
Lemma find_put k v c : inv c → find k (entries (put k v c)) = Some v.
Proof.
  intros Hinv. pose proof (put_inv k v c Hinv) as (Hnd & _ & _).
  destruct Hinv as (Hnd0 & _ & Hmax). unfold put in *; simpl in *.
  destruct (evict_suffix (max_entries c) (without k (entries c) ++ [(k, v)]))
    as (old & Hl & Hle & Hfull); [lia|].
  destruct (NoDup_without k _ Hnd0) as [_ Hk].
  assert ((k, v) ∈ evict (max_entries c) (without k (entries c) ++ [(k, v)])) as Hin.
  { destruct (evict _ _) as [|x l _] eqn:He using rev_ind.
    - rewrite app_nil_r in Hl. destruct old as [|o old]; [by destruct (without k (entries c))|].
      assert (o :: old ≠ []) as Hne by done. specialize (Hfull Hne). simpl in Hfull. lia.
    - rewrite app_assoc in Hl. apply app_inj_tail in Hl as [_ <-]. set_solver. }
  unfold find. change v with (k, v).2.
  change (snd <$> find_key fst (k, v).1 (evict (max_entries c) (without k (entries c) ++ [(k, v)]))
          = Some (k, v).2).
  by rewrite find_key_elem.
Qed.

(** Eviction drops the least recently used entries, and only when the cache is
full. *)
Lemma put_evicts_oldest k v c :
  inv c →
  ∃ old, without k (entries c) ++ [(k, v)] = old ++ entries (put k v c)
    ∧ (old ≠ [] → Z.of_nat (length (entries (put k v c))) = max_entries c).
Proof.
  intros (_ & _ & Hmax). destruct (evict_suffix (max_entries c) (without k (entries c) ++ [(k, v)]))
    as (old & Hl & _ & Hfull); [lia|]. by exists old.
Qed.

(** A lookup does not change what is stored, and makes its key the most
recent. *)
Lemma get_find k c v c' :
  inv c → get k c = Ok (Some v, c') →
  find k (entries c) = Some v ∧ (∀ k', find k' (entries c') = find k' (entries c))
  ∧ last (entries c') = Some (k, v) ∧ inv c'.
Proof.
  intros (Hnd & Hlen & Hmax) Hg. unfold get in Hg. destruct (closed c); [done|].
  destruct (find k (entries c)) as [w|] eqn:Hf; [|done]. injection Hg as -> <-. simpl.
  destruct (NoDup_without k _ Hnd) as [Hnd' Hk].
  split_and!; [done| |by rewrite last_snoc|].
  - intros k'. destruct (decide (k' = k)) as [->|Hne]; [by rewrite find_snoc|].
    destruct (decide (k' ∈ (without k (entries c)).*1)) as [Hin|Hin].
    + rewrite <-(find_without k k' (entries c) Hne). unfold find.
      apply list_elem_of_fmap in Hin as (y & -> & Hy).
      rewrite (find_key_elem fst (without k (entries c)) y) by done.
      rewrite (find_key_elem fst (without k (entries c) ++ [(k, v)]) y); [done| |set_solver].
      rewrite fmap_app. apply NoDup_app. split_and!; [done| |apply NoDup_singleton].
      intros x Hx ->%list_elem_of_singleton. done.
    + rewrite find_app_None by done. rewrite <-(find_without k k' (entries c) Hne).
      unfold find, find_key; simpl. rewrite decide_False by done.
      destruct (list_find _ (without k (entries c))) as [[i y]|] eqn:Hl; [|done].
      apply list_find_Some in Hl as (Hi & <- & _). destruct Hin.
      apply list_elem_of_fmap. exists y. split; [done|]. by eapply list_elem_of_lookup_2.
  - unfold inv; simpl. split_and!; [|rewrite length_app; simpl|done].
    + rewrite fmap_app. apply NoDup_app. split_and!; [done| |apply NoDup_singleton].
      intros x Hx ->%list_elem_of_singleton. done.
    + assert (length (without k (entries c)) < length (entries c))%nat; [|lia].
      unfold find in Hf. destruct (find_key fst k (entries c)) as [y|] eqn:Hfk; [|done].
      apply find_key_Some in Hfk as [Hy <-]. unfold without.
      apply list_elem_of_split in Hy as (l1 & l2 & ->).
      rewrite filter_app, filter_cons, decide_False by naive_solver.
      rewrite !length_app; simpl.
      pose proof (length_filter (λ kv, kv.1 ≠ y.1) l1). pose proof (length_filter (λ kv, kv.1 ≠ y.1) l2).
      lia.
Qed.
End cache.
End CompileCache.

(** ** Route selection *)

(** [_failure_class]: [outcome] takes precedence over [node]. *)
Definition _failure_class (state : WorkflowStateV1.t) : json :=
  match dict_get "failure_class" (default [] (WorkflowStateV1.outcome state)) with
  | Some v => v
  | None => default JNull (dict_get "failure_class" (default [] (WorkflowStateV1.node state)))
  end.

(** [failure_class != c.value] *)
Definition is_class (v : json) (c : FailureClass.t) : bool :=
  match v with JStr s => bool_decide (s = FailureClass.value c) | _ => false end.

Definition retry_key (i : string) (c : FailureClass.t) : string :=
  "retry:" +:+ i +:+ ":" +:+ FailureClass.value c.
Definition iterate_key (e : WorkflowEdge.t) : string :=
  "iterate:" +:+ default "None" (WorkflowEdge.iteration_key e).

(** What the loop body decides about an edge: skip it, or leave with a target
and counters. *)
Inductive choice : Type := Skip | Take (target : string) (counters : list (string * Z)).

(** The [RETRY] branch once the failure class matched. *)
Definition retry_choice (spec : nspec) (s : snapshot) (n : WorkflowNode.t)
    (fallback : option WorkflowEdge.t) (counters : list (string * Z)) (e : WorkflowEdge.t)
    (c : FailureClass.t) : res run_error choice :=
  match find_key WorkflowResolvedRevision.revision_id
          <$> NodePolicy.retry_policy_ref (effective_policy spec n) with
  | None => Err RStopIteration
  | Some find =>
      match find (WorkflowResolvedSnapshot.revisions s) with
      | None => Err RStopIteration
      | Some r =>
          match rev_spec r with
          | SRetryPolicy policy =>
              match find_rule c (rules policy) with
              | None => Err RStopIteration
              | Some rule =>
                  let key := retry_key (WorkflowNode.id n) c in
                  let consumed := default 0 (dict_get key counters) in
                  if Z.leb (max_retries rule) consumed then
                    match fallback with
                    | None => invariant "Exhausted retry has no fallback"
                    | Some f => Ok (Take (WorkflowEdge.target f) [])
                    end
                  else Ok (Take (WorkflowEdge.target e) [(key, consumed + 1)])
              end
          | _ => invariant "Retry policy snapshot has an incompatible type"
          end
      end
  end.

(** The [ITERATE] branch. *)
Definition iterate_choice (state : jobj) (counters : list (string * Z)) (e : WorkflowEdge.t)
    : res run_error choice :=
  let key := iterate_key e in
  let previous := default (-1) (dict_get (key +:+ ":progress") counters) in
  let count := default 0 (dict_get key counters) in
  match get_path state (default "None" (WorkflowEdge.progress_path e)) with
  | JInt progress =>
      if Z.ltb progress 0 || Z.leb progress previous then
        invariant ("Iterator " +:+ WorkflowEdge.id e +:+ " did not make monotonic progress")
      else
        match WorkflowEdge.max_iterations e with
        | Some max =>
            if Z.leb max count then
              invariant ("Iterator " +:+ WorkflowEdge.id e +:+ " exceeded its hard bound")
            else Ok (Take (WorkflowEdge.target e)
                       (dict_update [(key, count + 1)] [(key +:+ ":progress", progress)]))
        | None => invariant ("Iterator " +:+ WorkflowEdge.id e +:+ " exceeded its hard bound")
        end
  | _ => invariant ("Iterator " +:+ WorkflowEdge.id e +:+ " did not make monotonic progress")
  end.

(** The loop body of [_choose_route]. *)
Definition edge_choice (spec : nspec) (s : snapshot) (n : WorkflowNode.t)
    (fallback : option WorkflowEdge.t) (state : WorkflowStateV1.t) (e : WorkflowEdge.t)
    : res run_error choice :=
  if WorkflowEdge.fallback e then Ok Skip
  else
    passes ← match WorkflowEdge.when e with
             | None => Ok true
             | Some p => match evaluate_predicate p (WorkflowStateV1.mapping state) with
                         | Ok b => Ok b
                         | Err IndexError => Err RIndexError
                         end
             end;
    if negb passes then Ok Skip
    else
      let failure_class := _failure_class state in
      match WorkflowEdge.kind e with
      | WorkflowEdgeKind.on_failure =>
          if negb (truthy failure_class) then Ok Skip
          else match WorkflowEdge.retry_class e with
               | Some c => if is_class failure_class c then Ok (Take (WorkflowEdge.target e) [])
                           else Ok Skip
               | None => Ok (Take (WorkflowEdge.target e) [])
               end
      | WorkflowEdgeKind.retry =>
          match WorkflowEdge.retry_class e with
          | Some c =>
              if is_class failure_class c then
                retry_choice spec s n fallback (WorkflowStateV1.get_counters state) e c
              else Ok Skip
          | None => Ok Skip
          end
      | WorkflowEdgeKind.iterate =>
          iterate_choice (WorkflowStateV1.mapping state) (WorkflowStateV1.get_counters state) e
      | _ => Ok (Take (WorkflowEdge.target e) [])
      end.

(** The loop; [edges] is in priority order. *)
Fixpoint choose_loop (spec : nspec) (s : snapshot) (n : WorkflowNode.t)
    (fallback : option WorkflowEdge.t) (state : WorkflowStateV1.t) (edges : list WorkflowEdge.t)
    : res run_error (string * list (string * Z)) :=
  match edges with
  | [] =>
      match fallback with
      | None => invariant ("Node " +:+ WorkflowNode.id n +:+ " has no matching route")
      | Some f => Ok (WorkflowEdge.target f, [])
      end
  | e :: edges' =>
      c ← edge_choice spec s n fallback state e;
      match c with
      | Skip => choose_loop spec s n fallback state edges'
      | Take target counters => Ok (target, counters)
      end
  end.

Definition _choose_route (spec : nspec) (s : snapshot) (n : WorkflowNode.t)
    (edges : list WorkflowEdge.t) (state : WorkflowStateV1.t)
    : res run_error (string * list (string * Z)) :=
  choose_loop spec s n (head (fallbacks edges)) state edges.

(** [outgoing[node.id]]: by priority, then ID. *)
Definition route_edges (spec : nspec) (i : string) : list WorkflowEdge.t :=
  sorted_key (λ e, (WorkflowEdge.priority e, WorkflowEdge.id e)) (outgoing spec i).

(** ** Regions and limits *)

(** [_branch_regions]: the same regions, collected child by child. *)
Definition branch_region (adj : list (string * list string)) (join_id child : string)
    : list string :=
  match worklist (E:=Empty_set) (λ x, bool_decide (x = join_id)) (λ _ _, Ok tt) (targets adj)
          (reach_fuel adj) [child] [] tt with
  | Some (Ok (visited, _)) => visited
  | _ => []
  end.

Definition _branch_regions (spec : nspec) : list (string * list (string * list string)) :=
  (λ f, (Fanout.id f,
         foldl (λ acc c, dict_set c (branch_region (spec_adjacency spec) (Fanout.join_id f) c) acc)
           [] (Fanout.children f)))
  <$> fanouts spec.

(** The compiler and the validator agree on the branches. *)
Lemma foldl_dict_set {V} (g : string → V) seen done_ l :
  (∀ k, k ∈ seen ↔ k ∈ done_) →
  foldl (λ acc c, dict_set c (g c) acc) ((λ c, (c, g c)) <$> done_) l
  = (λ c, (c, g c)) <$> (done_ ++ fromkeys_from seen l).
Proof.
  revert seen done_; induction l as [|x l IH]; intros seen done_ Heq; simpl.
  { by rewrite app_nil_r. }
  assert (((λ c, (c, g c)) <$> done_).*1 = done_) as Hkeys
    by (rewrite <-list_fmap_compose; apply list_fmap_id).
  case_bool_decide as Hx.
  - rewrite dict_set_present; [by apply IH|]. apply Heq in Hx. clear -Hx.
    induction done_ as [|y d IHd]; [by apply elem_of_nil in Hx|]. csimpl.
    case_bool_decide as Hxy; [by subst|]. apply elem_of_cons in Hx as [?|Hx]; [done|auto].
  - rewrite dict_set_absent by (rewrite Hkeys; by rewrite <-Heq).
    change ((λ c, (c, g c)) <$> done_) with ((λ c, (c, g c)) <$> done_).
    replace (((λ c, (c, g c)) <$> done_) ++ [(x, g x)]) with ((λ c, (c, g c)) <$> (done_ ++ [x]))
      by (by rewrite fmap_app).
    rewrite (IH (x :: seen)); [by rewrite <-app_assoc|]. intros k.
    rewrite elem_of_app, elem_of_cons, list_elem_of_singleton, Heq. tauto.
Qed.

Lemma branch_region_region spec f c :
  branch_region (spec_adjacency spec) (Fanout.join_id f) c = region spec f c.
Proof.
  unfold branch_region, region, _reachable. rewrite (worklist_ext _
    (λ x, bool_decide (Some x = Some (Fanout.join_id f)))); [done|].
  intros x. apply bool_decide_ext. naive_solver.
Qed.

(** The compiler and the validator compute the same fan-out regions, so the
isolation that the validator checks holds of the branches the compiler builds. *)
Theorem branch_regions_agree spec : _branch_regions spec = fanout_regions spec.
Proof.
  unfold _branch_regions, fanout_regions. apply list_fmap_ext. intros _ f _. f_equal.
  unfold regions_of.
  pose proof (foldl_dict_set (branch_region (spec_adjacency spec) (Fanout.join_id f)) [] []
    (Fanout.children f)) as Hf.
  simpl in Hf. rewrite Hf by done. unfold fromkeys. apply list_fmap_ext. intros _ c _.
  by rewrite branch_region_region.
Qed.

(** The limits [_superstep_limit] collects. *)
Definition add_limit (spec : nspec) (s : snapshot) (limits : list (string * Z))
    (e : WorkflowEdge.t) : res run_error (list (string * Z)) :=
  match WorkflowEdge.kind e with
  | WorkflowEdgeKind.iterate =>
      Ok (dict_set (iterate_key e) (default 0 (WorkflowEdge.max_iterations e)) limits)
  | WorkflowEdgeKind.retry =>
      match find_node spec (WorkflowEdge.source e) with
      | None => Err RStopIteration
      | Some n =>
          match find_retry_policy (WorkflowResolvedSnapshot.revisions s) (effective_policy spec n)
          with
          | None => Ok limits
          | Some policy =>
              match WorkflowEdge.retry_class e ≫= λ c, (λ r, (c, r)) <$> find_rule c (rules policy)
              with
              | Some (c, rule) =>
                  Ok (dict_set (retry_key (WorkflowEdge.source e) c) (max_retries rule) limits)
              | None => Err RStopIteration
              end
          end
      end
  | _ => Ok limits
  end.

Definition step_limits (spec : nspec) (s : snapshot) : res run_error (list (string * Z)) :=
  foldM (add_limit spec s) [] (WorkflowSpec.edges spec).

Definition sum_values (d : list (string * Z)) : Z := foldr (λ kv acc, kv.2 + acc) 0 d.

Definition _superstep_limit (spec : nspec) (s : snapshot) : res run_error Z :=
  (λ limits, Z.of_nat (length (WorkflowSpec.nodes spec)) * (1 + sum_values limits) + 2)
  <$> step_limits spec s.

(** ** Invoking a node *)

Definition set_route (target : string) (counters : list (string * Z)) (u : WorkflowStateV1.t)
    : WorkflowStateV1.t :=
  {| WorkflowStateV1.results := WorkflowStateV1.results u;
     WorkflowStateV1.child_results := WorkflowStateV1.child_results u;
     WorkflowStateV1.expected_children := WorkflowStateV1.expected_children u;
     WorkflowStateV1.completed_children := WorkflowStateV1.completed_children u;
     WorkflowStateV1.counters := Some counters;
     WorkflowStateV1.node := WorkflowStateV1.node u;
     WorkflowStateV1.outcome := WorkflowStateV1.outcome u;
     WorkflowStateV1.tasks := WorkflowStateV1.tasks u;
     WorkflowStateV1.verification := WorkflowStateV1.verification u;
     WorkflowStateV1.review := WorkflowStateV1.review u;
     WorkflowStateV1.approval := WorkflowStateV1.approval u;
     WorkflowStateV1.final := WorkflowStateV1.final u;
     WorkflowStateV1.cancelled := WorkflowStateV1.cancelled u;
     WorkflowStateV1.child_identity := WorkflowStateV1.child_identity u;
     WorkflowStateV1._route := Some target;
     WorkflowStateV1._needs_verification := WorkflowStateV1._needs_verification u |}.

Definition lift_state {A} (m : res workflow_error A) : res run_error A :=
  match m with Ok a => Ok a | Err e => Err (RInvariant e) end.

Section invoke.
Context `{PyRuntime}.

(** The [invoke] closure of a compiled node, without its observer. *)
Definition invoke (spec : nspec) (s : snapshot) (n : WorkflowNode.t) (h : option handler)
    (state : WorkflowStateV1.t) : res run_error WorkflowStateV1.t :=
  update ← _factory n (effective_policy spec n) s h state;
  if default false (WorkflowStateV1.cancelled update) then Ok update
  else
    let edges := route_edges spec (WorkflowNode.id n) in
    if negb (Nat.eqb (length edges) 0) && negb (is_type WorkflowNodeType.fanout n) then
      merged ← lift_state (merged_state state update);
      route ← _choose_route spec s n edges merged;
      Ok (set_route route.1 (dict_update (WorkflowStateV1.get_counters update) route.2) update)
    else Ok update.
End invoke.

(** [route]: [None] is [END]; a missing [_route] raises [KeyError]. *)
Definition route (state : WorkflowStateV1.t) : res run_error (option string) :=
  if default false (WorkflowStateV1.cancelled state) then Ok None
  else match WorkflowStateV1._route state with
       | Some t => Ok (Some t)
       | None => Err RStopIteration
       end.

(** [complete]: a child reports the results of its own executions. *)
Definition complete (state : WorkflowStateV1.t) : res run_error WorkflowStateV1.t :=
  match WorkflowStateV1.child_identity state with
  | None => Err RStopIteration
  | Some identity =>
      let values := filter (λ kv : string * json, startswith (identity +:+ ":") kv.1 = true)
                      (default [] (WorkflowStateV1.results state)) in
      Ok (WorkflowStateV1.Build_t None (Some [(identity, JObj values)]) None (Some [identity])
            None None None None None None None None None None None None)
  end.

(** [BranchOutput]: the channels a child graph returns to its parent. *)
Definition branch_output (state : WorkflowStateV1.t) : WorkflowStateV1.t :=
  WorkflowStateV1.Build_t (WorkflowStateV1.results state) (WorkflowStateV1.child_results state)
    (WorkflowStateV1.expected_children state) (WorkflowStateV1.completed_children state)
    (WorkflowStateV1.counters state) None None None None None None None None None None None.

(** A [Send] carries the state and the identity of the child. *)
Definition send_state (identity : string) (st : WorkflowStateV1.t) : WorkflowStateV1.t :=
  {| WorkflowStateV1.results := WorkflowStateV1.results st;
     WorkflowStateV1.child_results := WorkflowStateV1.child_results st;
     WorkflowStateV1.expected_children := WorkflowStateV1.expected_children st;
     WorkflowStateV1.completed_children := WorkflowStateV1.completed_children st;
     WorkflowStateV1.counters := WorkflowStateV1.counters st;
     WorkflowStateV1.node := WorkflowStateV1.node st;
     WorkflowStateV1.outcome := WorkflowStateV1.outcome st;
     WorkflowStateV1.tasks := WorkflowStateV1.tasks st;
     WorkflowStateV1.verification := WorkflowStateV1.verification st;
     WorkflowStateV1.review := WorkflowStateV1.review st;
     WorkflowStateV1.approval := WorkflowStateV1.approval st;
     WorkflowStateV1.final := WorkflowStateV1.final st;
     WorkflowStateV1.cancelled := WorkflowStateV1.cancelled st;
     WorkflowStateV1.child_identity := Some identity;
     WorkflowStateV1._route := WorkflowStateV1._route st;
     WorkflowStateV1._needs_verification := WorkflowStateV1._needs_verification st |}.

(** [fanout_route]: the children to send, each with its state. *)
Definition fanout_route (state : WorkflowStateV1.t) (f : Fanout.t)
    : res run_error (list (string * WorkflowStateV1.t)) :=
  if default false (WorkflowStateV1.cancelled state) then Ok []
  else
    let visit := count state (invocation_key state (Fanout.id f)) in
    if Nat.eqb (length (Fanout.children f)) 0
       || Z.ltb (Fanout.max_fanout f) (Z.of_nat (length (Fanout.children f)))
    then invariant "Fanout exceeded its snapshotted child bound"
    else Ok ((λ c, (c, send_state (child_id (Fanout.id f) visit c) state)) <$> Fanout.children f).

(** ** [compile_workflow] *)

Inductive compile_error : Type :=
  | WorkflowCompilationError (report : WorkflowValidationReport.t)
  | UnknownHandlers
  | InternalHandlers
  | LimitError (e : run_error)
  | InvalidConfig (errors : list error_detail).

(** What the compiled graph is determined by. *)
Record compiled := {
  compiled_spec : nspec;
  compiled_snapshot : snapshot;
  recursion_limit : Z;
  compiled_identity : string;
}.

Section compile.
Context `{PyRuntime} `{ConfigModel} `{SpecModel} `{SetOrder} `{PyStr}
  `{ModelDump WorkflowNode.t} `{ModelDump WorkflowEdge.t} `{ModelDump NodePolicy.t}
  `{ModelDump RegistrySpec} `{ModelDump WorkflowResolvedRevision.t}.

(** [compilation_identity], of the normalized specification. *)
Definition compilation_identity (n : nspec) (s : snapshot) : string :=
  sha256_digest (JObj
    [("workflow_content_hash", JStr (content_hash n));
     ("spec_version", JStr (WorkflowSpec.spec_version n));
     ("compiler_version", JStr COMPILER_VERSION);
     ("snapshot_hash", JStr (snapshot_hash s))]).

(** [compile_workflow] up to the graph builder, without a cache; [payload] is the
dump of [spec] that [validate_workflow] checks. *)
Definition compile_workflow (payload : jobj) (spec : WorkflowSpec.t RawNode.t) (s : snapshot)
    (handlers : list string) : res compile_error compiled :=
  match validate_workflow payload (Some s) with
  | Err errors => Err (InvalidConfig errors)
  | Ok report =>
      if negb (WorkflowValidationReport.valid report) then Err (WorkflowCompilationError report)
      else
        match normalize_workflow spec with
        | Err errors => Err (InvalidConfig errors)
        | Ok n =>
            if existsb (λ h, negb (bool_decide (h ∈ node_ids n))) handlers then Err UnknownHandlers
            else if existsb (λ m, bool_decide (node_id m ∈ handlers)
                     && negb (NodeDefinition.external (definition_of m)))
                   (WorkflowSpec.nodes n)
            then Err InternalHandlers
            else
              match _superstep_limit n s with
              | Err e => Err (LimitError e)
              | Ok limit => Ok {| compiled_spec := n; compiled_snapshot := s;
                                  recursion_limit := limit;
                                  compiled_identity := compilation_identity n s |}
              end
        end
  end.
End compile.
