(* ===== verification/Superstep.v ===== *)
(** * The superstep bound

[_superstep_limit] claims that a run of a validated workflow cannot take more
steps than it returns, because every cycle consumes a bounded counter.  A run of
the sequential graph is a chain of [run_step]s, which leaves the handlers, and so
every other part of the state, unconstrained: counters may only grow.
[invoke_run_step] shows that invoking a node and merging its update is such a
step. *)
From S2P Require Import Prelude Enums PyJson PyDecimal Failures Verification Registry.
From S2P Require Import WorkflowSpec Predicates State Normalize RawValidation Graph GraphIssues.
From S2P Require Import FanoutIssues SnapshotIssues PolicyIssues Protected Validate NodeFactory.
From S2P Require Import Compiler.
Local Open Scope Z_scope.
Local Open Scope stdpp_scope.

Notation counters := (list (string * Z)) (only parsing).

Definition cval (c : counters) (k : string) : Z := default 0 (dict_get k c).
Definition grows (c c' : counters) : Prop := ∀ k, cval c k ≤ cval c' k.

(** One step of a run: from a node and its counters to the next. *)
Inductive run_step (spec : nspec) (s : snapshot) : string * counters → string * counters → Prop :=
  | run_route x n c state y upd c1 c' :
      find_node spec x = Some n → WorkflowNode.type n ≠ WorkflowNodeType.fanout →
      grows c c1 → WorkflowStateV1.get_counters state = c1 →
      _choose_route spec s n (route_edges spec x) state = Ok (y, upd) →
      outgoing spec x ≠ [] →
      grows c1 c' → (∀ k v, dict_get k upd = Some v → v ≤ cval c' k) →
      run_step spec s (x, c) (y, c')
  | run_fanout x n c y c' :
      find_node spec x = Some n → WorkflowNode.type n = WorkflowNodeType.fanout →
      edge_rel (WorkflowSpec.edges spec) x y → grows c c' →
      run_step spec s (x, c) (y, c')
  | run_join x f c c' :
      f ∈ fanouts spec → x ∈ Fanout.children f → grows c c' →
      run_step spec s (x, c) (Fanout.join_id f, c').

(** ** Counter keys *)

Definition no_colon : string → bool :=
  str_forallb (λ c, negb (Nat.eqb (Ascii.nat_of_ascii c) 58)).

Lemma colon_split a b r r' :
  no_colon a = true → no_colon b = true →
  a +:+ ":" +:+ r = b +:+ ":" +:+ r' → a = b ∧ r = r'.
Proof.
  revert b; induction a as [|x a IH]; intros [|y b]; cbn.
  - intros _ _ [= Heq]. split; [done|exact Heq].
  - intros _ Hb [= <- _]. done.
  - intros Ha _ [= -> _]. done.
  - intros [_ Ha]%andb_true_iff [_ Hb]%andb_true_iff [= -> Heq].
    destruct (IH b Ha Hb Heq) as [-> ->]. done.
Qed.

Lemma slug_no_colon n i : slug_pattern n i = true → no_colon i = true.
Proof.
  unfold slug_pattern, head_tail, no_colon. destruct i as [|c i]; [done|].
  rewrite !andb_true_iff. intros [[[Hc Ht] _] _]. cbn. apply andb_true_iff. split.
  - unfold is_lower, in_range in Hc. apply negb_true_iff, Nat.eqb_neq.
    apply andb_true_iff in Hc as [?%Nat.leb_le ?%Nat.leb_le]. lia.
  - clear Hc. induction i as [|d i IH]; [done|]. cbn in *.
    apply andb_true_iff in Ht as [Hd Ht]. apply andb_true_iff. split; [|by apply IH].
    apply negb_true_iff, Nat.eqb_neq. intros H58.
    unfold is_lower, is_digit, in_range, is_oneof in Hd. rewrite H58 in Hd. done.
Qed.

Lemma string_app_inj_l p a b : p +:+ a = p +:+ b → a = b.
Proof. induction p as [|c p IH]; [done|]. cbn. intros [= ?]. auto. Qed.

Lemma append_ne k : k +:+ ":progress" ≠ k.
Proof. induction k as [|c k IH]; [done|]. cbn. intros [= ?]. done. Qed.

Lemma retry_key_inj i j c d :
  no_colon i = true → no_colon j = true → retry_key i c = retry_key j d → i = j ∧ c = d.
Proof.
  unfold retry_key. intros Hi Hj Heq. apply string_app_inj_l, colon_split in Heq as [-> Heq];
    [|done..]. split; [done|]. by apply (enum_value_inj c d).
Qed.

Lemma retry_iterate_ne i c e : retry_key i c ≠ iterate_key e.
Proof. unfold retry_key, iterate_key. by cbn. Qed.

(** ** Counters and measures *)

Lemma grows_refl c : grows c c.
Proof. intros k. lia. Qed.
Lemma grows_trans c1 c2 c3 : grows c1 c2 → grows c2 c3 → grows c1 c3.
Proof. intros H1 H2 k. specialize (H1 k). specialize (H2 k). lia. Qed.

(** What the limits leave. *)
Definition remaining (limits c : counters) : Z :=
  sum_values ((λ kl, (kl.1, Z.max 0 (kl.2 - cval c kl.1))) <$> limits).

Lemma remaining_cons kl limits c :
  remaining (kl :: limits) c = Z.max 0 (kl.2 - cval c kl.1) + remaining limits c.
Proof. done. Qed.

Lemma remaining_nonneg limits c : 0 ≤ remaining limits c.
Proof.
  induction limits as [|kl limits IH]; [done|]. rewrite remaining_cons. lia.
Qed.

Lemma remaining_grows limits c c' : grows c c' → remaining limits c' ≤ remaining limits c.
Proof.
  intros Hg. induction limits as [|kl limits IH]; [done|]. rewrite !remaining_cons.
  specialize (Hg kl.1). lia.
Qed.

Lemma remaining_consumes limits c c' k l :
  grows c c' → (k, l) ∈ limits → cval c k < l → cval c k + 1 ≤ cval c' k →
  remaining limits c' + 1 ≤ remaining limits c.
Proof.
  intros Hg Hin Hlt Hstep. induction limits as [|kl limits IH]; [by apply elem_of_nil in Hin|].
  rewrite !remaining_cons. apply elem_of_cons in Hin as [<-|Hin]; simpl in *.
  - pose proof (remaining_grows limits c c' Hg). lia.
  - specialize (IH Hin). specialize (Hg kl.1). lia.
Qed.

Lemma remaining_start limits c :
  (∀ k, 0 ≤ cval c k) → Forall (λ kl, 0 ≤ kl.2) limits → remaining limits c ≤ sum_values limits.
Proof.
  intros Hc. induction 1 as [|kl limits Hl Hls IH]; [done|]. rewrite remaining_cons.
  change (sum_values (kl :: limits)) with (kl.2 + sum_values limits).
  specialize (Hc kl.1). lia.
Qed.

(** ** Acyclic paths are short *)

Lemma acyclic_path {A} `{EqDecision A} (R : A → A → Prop) n x y :
  (∀ z, ¬ tc R z z) → nsteps R n x y →
  ∃ l, length l = S n ∧ NoDup l ∧ ∀ z, z ∈ l → z = x ∨ ∃ w, R w z.
Proof.
  intros Hac Hn.
  cut (∃ l, length l = S n ∧ NoDup l ∧ ∀ z, z ∈ l → rtc R x z ∧ (z = x ∨ ∃ w, R w z)).
  { intros (l & ? & ? & Hz). exists l. split_and!; [done..|]. intros z Hin. by apply Hz. }
  induction Hn as [x|n x y z Hxy Hyz (l & Hlen & Hnd & Hl)].
  - exists [x]. split_and!; [done|apply NoDup_singleton|].
    intros z ->%list_elem_of_singleton. split; [apply rtc_refl|by left].
  - exists (x :: l). split_and!; [simpl; lia| |].
    + constructor; [|done]. intros Hin. apply (Hac x). destruct (Hl x Hin) as [Hyx _].
      eapply tc_rtc_r; [by apply tc_once|done].
    + intros w [->|Hin]%elem_of_cons; [split; [apply rtc_refl|by left]|].
      destruct (Hl w Hin) as [Hyw [->|[v Hv]]]; (split; [by eapply rtc_l|]); right; eauto.
Qed.

Lemma acyclic_path_length {A} `{EqDecision A} (R : A → A → Prop) (nodes : list A) n x y :
  (∀ z, ¬ tc R z z) → (∀ w z, R w z → z ∈ nodes) → x ∈ nodes → nsteps R n x y →
  (S n ≤ length nodes)%nat.
Proof.
  intros Hac HR Hx Hn. destruct (acyclic_path R n x y Hac Hn) as (l & <- & Hnd & Hl).
  apply submseteq_length, NoDup_submseteq; [done|]. intros z Hz.
  destruct (Hl z Hz) as [->|[w Hw]]; [done|eauto].
Qed.

(** ** The limits *)

(** The limit an edge contributes. *)
Definition edge_limit (spec : nspec) (s : snapshot) (e : WorkflowEdge.t) : option (string * Z) :=
  match WorkflowEdge.kind e with
  | WorkflowEdgeKind.iterate =>
      Some (iterate_key e, default 0 (WorkflowEdge.max_iterations e))
  | WorkflowEdgeKind.retry =>
      n ← find_node spec (WorkflowEdge.source e);
      policy ← find_retry_policy (WorkflowResolvedSnapshot.revisions s) (effective_policy spec n);
      c ← WorkflowEdge.retry_class e;
      rule ← find_rule c (rules policy);
      Some (retry_key (WorkflowEdge.source e) c, max_retries rule)
  | _ => None
  end.

Definition store (limits : counters) (o : option (string * Z)) : counters :=
  match o with Some (k, v) => dict_set k v limits | None => limits end.

Lemma add_limit_ok spec s limits e limits' :
  add_limit spec s limits e = Ok limits' → limits' = store limits (edge_limit spec s e).
Proof.
  unfold add_limit, edge_limit. destruct (WorkflowEdge.kind e); try (by intros [= <-]).
  destruct (find_node spec _) as [n|]; simpl; [|done].
  destruct (find_retry_policy _ _) as [p|]; simpl; [|by intros [= <-]].
  destruct (WorkflowEdge.retry_class e) as [c|]; simpl; [|done].
  destruct (find_rule c (rules p)) as [rule|]; simpl; [|done]. by intros [= <-].
Qed.

Lemma step_limits_fold spec s limits :
  step_limits spec s = Ok limits →
  limits = foldl (λ l e, store l (edge_limit spec s e)) [] (WorkflowSpec.edges spec).
Proof.
  unfold step_limits. generalize ([] : counters) as acc.
  induction (WorkflowSpec.edges spec) as [|e edges IH]; intros acc; simpl; [by intros [= <-]|].
  destruct (add_limit spec s acc e) as [acc'|] eqn:Ha; simpl; [|done].
  apply add_limit_ok in Ha as <-. apply IH.
Qed.

(** A key whose edges agree keeps its limit. *)
Lemma fold_limits_get f (edges : list WorkflowEdge.t) k v acc :
  (∀ e v', e ∈ edges → f e = Some (k, v') → v' = v) →
  (dict_get k acc = Some v ∨ ∃ e, e ∈ edges ∧ f e = Some (k, v)) →
  dict_get k (foldl (λ l e, store l (f e)) acc edges) = Some v.
Proof.
  revert acc; induction edges as [|e edges IH]; intros acc Hagree Hin; simpl.
  - destruct Hin as [?|(e & He & _)]; [done|by apply elem_of_nil in He].
  - apply IH; [intros e' v' He'; apply Hagree; by right|].
    assert (dict_get k acc = Some v → dict_get k (store acc (f e)) = Some v) as Hkeep.
    { intros Hacc. unfold store. destruct (f e) as [[k' v']|] eqn:Hf; [|done].
      rewrite dict_get_set. case_decide as Hk; [subst k'|done]. f_equal.
      apply (Hagree e); [by left|done]. }
    destruct Hin as [Hacc|(e' & He' & Hf)]; [left; auto|].
    apply elem_of_cons in He' as [->|He']; [|eauto].
    left. rewrite Hf; simpl. apply dict_get_set_eq.
Qed.

Lemma fold_limits_values f (edges : list WorkflowEdge.t) acc :
  (∀ e k v, e ∈ edges → f e = Some (k, v) → 0 ≤ v) → dict_ok acc → nonneg acc →
  let limits := foldl (λ l e, store l (f e)) acc edges in dict_ok limits ∧ nonneg limits.
Proof.
  revert acc; induction edges as [|e edges IH]; intros acc Hv Hok Hn; simpl; [done|].
  apply IH; [intros e' k v He'; apply Hv; by right|..];
    destruct (f e) as [[k v]|] eqn:Hf; simpl; try done.
  - by apply dict_ok_set.
  - intros k' v'. rewrite dict_get_set. case_decide; [|apply Hn]. intros [= <-].
    eapply Hv; [by left|done].
Qed.

Section bound.
Variables (spec : nspec) (s : snapshot).
Notation nodes := (WorkflowSpec.nodes spec).
Notation edges := (WorkflowSpec.edges spec).
Notation revisions := (WorkflowResolvedSnapshot.revisions s).

(** A validated workflow: what [validate_workflow_accepts] gives. *)
Hypotheses (Hwf : WorkflowSpec.wf spec)
  (Hids : ∀ i, i ∈ node_ids spec → no_colon i = true)
  (Hkinds : Forall (λ e, WorkflowEdge.validate_kind_fields e = true) edges)
  (Hbounds : ∀ e m, e ∈ edges → WorkflowEdge.max_iterations e = Some m → 0 ≤ m)
  (Hacyclic : ∀ i, ¬ tc (edge_rel (unbounded_edges spec)) i i)
  (Hrouting : ∀ n, n ∈ nodes → WorkflowNode.type n ≠ WorkflowNodeType.fanout →
    WorkflowNode.type n ≠ WorkflowNodeType.finalize → outgoing spec (node_id n) ≠ [] →
    conditional (outgoing spec (node_id n)) = true → deterministic (outgoing spec (node_id n)))
  (Hfinal : ∀ n e, n ∈ nodes → WorkflowNode.type n = WorkflowNodeType.finalize →
    e ∈ edges → WorkflowEdge.source e ≠ node_id n)
  (Hfanout : ∀ n e, n ∈ nodes → WorkflowNode.type n = WorkflowNodeType.fanout →
    e ∈ edges → WorkflowEdge.source e = node_id n → bounded e = false)
  (Hbranch : ∀ f c, f ∈ fanouts spec → c ∈ Fanout.children f →
    tc (edge_rel (unbounded_edges spec)) c (Fanout.join_id f))
  (Hkeys : NoDup (iteration_keys edges))
  (Hretry : ∀ e, e ∈ edges → WorkflowEdge.kind e = WorkflowEdgeKind.retry → retry_ok spec revisions e)
  (Hrevs : NoDup (WorkflowResolvedRevision.revision_id <$> revisions)).

Lemma elem_of_outgoing x e : e ∈ outgoing spec x ↔ e ∈ edges ∧ WorkflowEdge.source e = x.
Proof. unfold outgoing. rewrite list_elem_of_filter. tauto. Qed.

Lemma elem_of_route_edges x e : e ∈ route_edges spec x ↔ e ∈ outgoing spec x.
Proof. unfold route_edges. by rewrite elem_of_sorted_key. Qed.

Lemma unbounded_rel e :
  e ∈ edges → bounded e = false →
  edge_rel (unbounded_edges spec) (WorkflowEdge.source e) (WorkflowEdge.target e).
Proof. intros He Hb. exists e. split_and!; [|done..]. by apply list_elem_of_filter. Qed.

Lemma unconditional_unbounded out e : conditional out = false → e ∈ out → bounded e = false.
Proof.
  intros Hc He. unfold conditional in Hc. apply orb_false_iff in Hc as [_ Hc].
  rewrite existsb_false in Hc. specialize (Hc e He).
  apply negb_false_iff, bool_decide_eq_true in Hc. unfold bounded. rewrite Hc.
  apply bool_decide_eq_false. by intros [?|[?|?%elem_of_nil]%elem_of_cons]%elem_of_cons.
Qed.

Lemma unbounded_edge_rel x y :
  edge_rel (unbounded_edges spec) x y → edge_rel (WorkflowSpec.edges spec) x y.
Proof. intros (e & He & ? & ?). exists e. split_and!; [by apply unbounded_edges_sub|done..]. Qed.

(** A fallback edge is never counted. *)
Lemma fallback_unbounded x n e :
  find_node spec x = Some n → WorkflowNode.type n ≠ WorkflowNodeType.fanout →
  e ∈ outgoing spec x → WorkflowEdge.fallback e = true → bounded e = false.
Proof.
  intros Hn Hty He Hf. apply find_key_Some in Hn as [Hn <-].
  assert (outgoing spec (node_id n) ≠ []) as Hne
    by (intros Hnil; rewrite Hnil in He; by apply elem_of_nil in He).
  assert (WorkflowNode.type n ≠ WorkflowNodeType.finalize) as Hnf.
  { intros Hz. apply elem_of_outgoing in He as [He Hs]. by eapply Hfinal. }
  destruct (conditional (outgoing spec (node_id n))) eqn:Hc.
  - destruct (Hrouting n Hn Hty Hnf Hne Hc) as [_ Hu _ _]. by apply Hu.
  - by apply (unconditional_unbounded (outgoing spec (node_id n))).
Qed.

(** The selected target is the target of an edge of the node. *)
Lemma choose_target n fb state es y upd (P : string → Prop) :
  (∀ f, fb = Some f → P (WorkflowEdge.target f)) → (∀ e, e ∈ es → P (WorkflowEdge.target e)) →
  choose_loop spec s n fb state es = Ok (y, upd) → P y.
Proof.
  intros Hfb. induction es as [|e es IH]; intros Hes; simpl.
  - destruct fb as [f|]; [|done]. intros [= <- _]. by apply Hfb.
  - intros Hch. apply res_bind_ok in Hch as (ch & He & Hch). destruct ch as [|t u].
    + apply IH; [|done]. intros e' He'. apply Hes. by right.
    + injection Hch as <- _. specialize (Hes e ltac:(by left)).
      unfold edge_choice in He. destruct (WorkflowEdge.fallback e); [done|].
      apply res_bind_ok in He as (passes & _ & He). destruct passes; simpl in He; [|done].
      destruct (WorkflowEdge.kind e).
      * by injection He as <- _.
      * by injection He as <- _.
      * destruct (WorkflowEdge.retry_class e) as [c|]; [|done]. destruct (is_class _ _); [|done].
        unfold retry_choice in He.
        destruct (NodePolicy.retry_policy_ref (effective_policy spec n)) as [ri|]; [|done].
        simpl in He. destruct (find_key _ ri revisions) as [r|]; [|done].
        destruct (rev_spec r); try done. destruct (find_rule _ _) as [rule|]; [|done].
        destruct (Z.leb _ _); [|by injection He as <- _].
        destruct fb as [f|]; [|done]. injection He as <- _. by apply Hfb.
      * unfold iterate_choice in He. destruct (get_path _ _); try done.
        destruct (_ || _); [done|]. destruct (WorkflowEdge.max_iterations e); [|done].
        destruct (Z.leb _ _); [done|]. by injection He as <- _.
      * destruct (negb _); [done|]. destruct (WorkflowEdge.retry_class e);
          [destruct (is_class _ _)|]; by simplify_eq.
Qed.

(** First and last revision with an ID are the same. *)
Lemma find_revision_first i :
  find_revision revisions i = find_key WorkflowResolvedRevision.revision_id i revisions.
Proof.
  unfold find_revision.
  destruct (find_key WorkflowResolvedRevision.revision_id i revisions) as [r|] eqn:Hf.
  - apply find_key_Some in Hf as [Hr <-]. apply find_key_elem; [|by apply elem_of_reverse].
    by rewrite reverse_Permutation.
  - apply find_key_None in Hf. apply find_key_None. by rewrite reverse_Permutation.
Qed.

Lemma retry_limit e n p c rule :
  WorkflowEdge.kind e = WorkflowEdgeKind.retry → find_node spec (WorkflowEdge.source e) = Some n →
  find_retry_policy revisions (effective_policy spec n) = Some p →
  WorkflowEdge.retry_class e = Some c → find_rule c (rules p) = Some rule →
  edge_limit spec s e = Some (retry_key (WorkflowEdge.source e) c, max_retries rule).
Proof. intros Hk Hn Hp Hc Hr. unfold edge_limit. by rewrite Hk, Hn; simpl; rewrite Hp, Hc; simpl; rewrite Hr. Qed.

Lemma omap_NoDup_inj {A B} (g : A → option B) l x y k :
  NoDup (omap g l) → x ∈ l → y ∈ l → g x = Some k → g y = Some k → x = y.
Proof.
  induction l as [|z l IH]; [by intros _ ?%elem_of_nil|]. csimpl.
  intros Hnd Hx Hy Hgx Hgy.
  assert (∀ w, w ∈ l → g w = Some k → k ∈ omap g l) as Hin
    by (intros w Hw Hgw; apply list_elem_of_omap; eauto).
  apply elem_of_cons in Hx as [->|Hx]; apply elem_of_cons in Hy as [->|Hy]; [done| | |].
  - rewrite Hgx in Hnd. apply NoDup_cons in Hnd as [Hk _]. by destruct Hk; eapply Hin.
  - rewrite Hgy in Hnd. apply NoDup_cons in Hnd as [Hk _]. by destruct Hk; eapply Hin.
  - apply IH; try done. destruct (g z); [by apply NoDup_cons in Hnd as [_ ?]|done].
Qed.

Lemma iterate_edge e :
  e ∈ edges → WorkflowEdge.kind e = WorkflowEdgeKind.iterate →
  ∃ k m, WorkflowEdge.iteration_key e = Some k ∧ WorkflowEdge.max_iterations e = Some m.
Proof.
  intros He Hk. rewrite Forall_forall in Hkinds. specialize (Hkinds e He).
  unfold WorkflowEdge.validate_kind_fields in Hkinds. rewrite !andb_true_iff in Hkinds.
  destruct Hkinds as [_ H]. rewrite bool_decide_true in H by done. simpl in H.
  rewrite negb_true_iff, !orb_false_iff in H. destruct H as [[H1 _] H3].
  destruct (WorkflowEdge.iteration_key e) as [k|]; [|done].
  destruct (WorkflowEdge.max_iterations e) as [m|]; [eauto|].
  by rewrite bool_decide_true in H3.
Qed.

Section limits.
Variable limits : counters.
Hypothesis Hlimits : step_limits spec s = Ok limits.

Lemma limits_ok : dict_ok limits ∧ nonneg limits.
Proof.
  rewrite (step_limits_fold _ _ _ Hlimits). apply fold_limits_values; [|constructor|done].
  intros e k v He. unfold edge_limit. destruct (WorkflowEdge.kind e) eqn:Hk; try done.
  - destruct (Hretry e He Hk) as [(n & p & rule & c & Hn & Hp & Hc & Hr & Hmax & _)].
    rewrite Hn; simpl. rewrite Hp, Hc; simpl. rewrite Hr; simpl. intros [= <- <-]. lia.
  - destruct (iterate_edge e He Hk) as (ik & m & _ & Hm). rewrite Hm; simpl.
    intros [= _ <-]. by eapply Hbounds.
Qed.

Lemma limit_iterate e k m :
  e ∈ edges → WorkflowEdge.kind e = WorkflowEdgeKind.iterate →
  WorkflowEdge.iteration_key e = Some k → WorkflowEdge.max_iterations e = Some m →
  dict_get (iterate_key e) limits = Some m.
Proof.
  intros He Hk Hik Hm. rewrite (step_limits_fold _ _ _ Hlimits). apply fold_limits_get.
  - intros e' v' He'. unfold edge_limit. destruct (WorkflowEdge.kind e') eqn:Hk'; try done.
    + destruct (Hretry e' He' Hk') as [(n & p & rule & c & Hn & Hp & Hc & Hr & _)].
      rewrite Hn; simpl. rewrite Hp, Hc; simpl. rewrite Hr; simpl. intros Hl.
      destruct (retry_iterate_ne (WorkflowEdge.source e') c e). congruence.
    + destruct (iterate_edge e' He' Hk') as (ik' & m' & Hik' & Hm').
      intros Hl. assert (iterate_key e' = iterate_key e) as Heq by congruence.
      assert (v' = default 0 (WorkflowEdge.max_iterations e')) as -> by congruence.
      unfold iterate_key in Heq. rewrite Hik, Hik' in Heq. apply string_app_inj_l in Heq.
      simpl in Heq. assert (e' = e) as ->; [|by rewrite Hm].
      apply (omap_NoDup_inj _ _ e' e k Hkeys He' He); unfold is_iterate;
        [by rewrite bool_decide_true, Hik', Heq|by rewrite bool_decide_true, Hik].
  - right. exists e. split; [done|]. unfold edge_limit. by rewrite Hk, Hm.
Qed.

Lemma limit_retry e n p c rule :
  e ∈ edges → WorkflowEdge.kind e = WorkflowEdgeKind.retry →
  find_node spec (WorkflowEdge.source e) = Some n →
  find_retry_policy revisions (effective_policy spec n) = Some p →
  WorkflowEdge.retry_class e = Some c → find_rule c (rules p) = Some rule →
  dict_get (retry_key (WorkflowEdge.source e) c) limits = Some (max_retries rule).
Proof.
  intros He Hk Hn Hp Hc Hr. rewrite (step_limits_fold _ _ _ Hlimits). apply fold_limits_get.
  - intros e' v' He' Hl. pose proof Hl as Hl'. unfold edge_limit in Hl'.
    destruct (WorkflowEdge.kind e') eqn:Hk'; try done.
    { destruct (Hretry e' He' Hk') as [(n' & p' & rule' & c' & Hn' & Hp' & Hc' & Hr' & _)].
      rewrite (retry_limit e' n' p' c' rule') in Hl by done.
      assert (retry_key (WorkflowEdge.source e') c' = retry_key (WorkflowEdge.source e) c) as Heq
        by congruence. assert (v' = max_retries rule') as -> by congruence.
      apply retry_key_inj in Heq as [Hsrc <-];
        [|by apply Hids, (WorkflowSpec.wf_source _ Hwf)..].
      rewrite Hsrc, Hn in Hn'. injection Hn' as <-. rewrite Hp in Hp'. injection Hp' as <-.
      congruence. }
  - right. exists e. split; [done|]. by eapply retry_limit.
Qed.

(** A selected route follows an uncounted edge, or consumes a limited
counter. *)
Definition route_fact (x y : string) (c upd : counters) : Prop :=
  edge_rel (unbounded_edges spec) x y
  ∨ ∃ k l, dict_get k limits = Some l ∧ cval c k < l ∧ dict_get k upd = Some (cval c k + 1).

Lemma edge_choice_fact x n e fb state y upd :
  find_node spec x = Some n → WorkflowNode.type n ≠ WorkflowNodeType.fanout →
  e ∈ outgoing spec x → (∀ f, fb = Some f → f ∈ outgoing spec x ∧ WorkflowEdge.fallback f = true) →
  edge_choice spec s n fb state e = Ok (Take y upd) →
  route_fact x y (WorkflowStateV1.get_counters state) upd.
Proof.
  intros Hn Hty He Hfb. pose proof He as He0. apply elem_of_outgoing in He as [He Hsrc].
  assert (node_id n = x) as Hid by (by apply find_key_Some in Hn as [_ ?]).
  assert (bounded e = false → edge_rel (unbounded_edges spec) x (WorkflowEdge.target e)) as Hunb.
  { intros Hb. rewrite <-Hsrc. by apply unbounded_rel. }
  unfold edge_choice. destruct (WorkflowEdge.fallback e); [done|].
  intros Hch. apply res_bind_ok in Hch as (passes & _ & Hch). destruct passes; simpl in Hch; [|done].
  destruct (WorkflowEdge.kind e) eqn:Hk.
  - injection Hch as <- <-. left. apply Hunb. unfold bounded. by rewrite Hk.
  - injection Hch as <- <-. left. apply Hunb. unfold bounded. by rewrite Hk.
  - destruct (WorkflowEdge.retry_class e) as [c|] eqn:Hc; [|done].
    destruct (is_class _ _); [|done].
    destruct (Hretry e He Hk) as [(n' & p & rule & c' & Hn' & Hp & Hc' & Hr & _)].
    rewrite Hsrc, Hn in Hn'. injection Hn' as <-. rewrite Hc in Hc'. injection Hc' as <-.
    pose proof Hp as Hp0.
    unfold retry_choice in Hch. unfold find_retry_policy, find_ref in Hp.
    destruct (NodePolicy.retry_policy_ref (effective_policy spec n)) as [ri|]; [|done].
    simpl in Hch, Hp. rewrite find_revision_first in Hp.
    destruct (find_key _ ri revisions) as [r|]; [|done]. simpl in Hp.
    destruct (rev_spec r); try done. injection Hp as ->. rewrite Hr in Hch.
    destruct (Z.leb_spec (max_retries rule) (default 0 (dict_get (retry_key (WorkflowNode.id n) c)
      (WorkflowStateV1.get_counters state)))) as [Hle|Hlt].
    + destruct fb as [f|]; [|done]. injection Hch as <- <-. left.
      destruct (Hfb f eq_refl) as [Hf Hff]. pose proof Hf as Hf0.
      apply elem_of_outgoing in Hf as [Hf Hfs]. rewrite <-Hfs. apply unbounded_rel; [done|].
      by eapply fallback_unbounded.
    + injection Hch as <- <-. right. exists (retry_key x c), (max_retries rule).
      rewrite <-Hid in *. change (node_id n) with (WorkflowNode.id n) in *.
      split_and!; [|done|simpl; by rewrite bool_decide_true].
      rewrite <-Hsrc. eapply limit_retry; [done..|by rewrite Hsrc|done|done|done].
  - unfold iterate_choice in Hch. destruct (get_path _ _) as [| |progress| | | |]; try done.
    destruct (_ || _); [done|].
    destruct (iterate_edge e He Hk) as (k & m & Hik & Hm). rewrite Hm in Hch.
    destruct (Z.leb_spec m (default 0 (dict_get (iterate_key e) (WorkflowStateV1.get_counters state))));
      [done|]. injection Hch as <- <-. right. exists (iterate_key e), m.
    split_and!; [by eapply limit_iterate|done|].
    unfold dict_update; simpl. rewrite bool_decide_false by apply append_ne. simpl.
    by rewrite bool_decide_true.
  - destruct (negb _); [done|].
    assert (y = WorkflowEdge.target e) as ->.
    { destruct (WorkflowEdge.retry_class e); [destruct (is_class _ _)|]; by simplify_eq. }
    left. apply Hunb. unfold bounded. by rewrite Hk.
Qed.

Lemma choose_route_fact x n state y upd :
  find_node spec x = Some n → WorkflowNode.type n ≠ WorkflowNodeType.fanout →
  _choose_route spec s n (route_edges spec x) state = Ok (y, upd) →
  route_fact x y (WorkflowStateV1.get_counters state) upd.
Proof.
  intros Hn Hty. unfold _choose_route.
  assert (∀ f, head (fallbacks (route_edges spec x)) = Some f →
          f ∈ outgoing spec x ∧ WorkflowEdge.fallback f = true) as Hfb.
  { intros f Hf. assert (f ∈ fallbacks (route_edges spec x)) as Hin.
    { destruct (fallbacks _); [done|]. injection Hf as ->. by left. }
    unfold fallbacks in Hin. apply list_elem_of_filter in Hin as [? Hin].
    by rewrite elem_of_route_edges in Hin. }
  assert (∀ e, e ∈ route_edges spec x → e ∈ outgoing spec x) as Hsub
    by (intros e; by rewrite elem_of_route_edges).
  revert Hsub. generalize (route_edges spec x) at 1 3 as es.
  induction es as [|e es IH]; intros Hsub; simpl.
  - destruct (head (fallbacks (route_edges spec x))) as [f|]; [|done]. intros [= <- <-]. left.
    destruct (Hfb f eq_refl) as [Hf Hff]. pose proof Hf as Hf0.
    apply elem_of_outgoing in Hf as [Hf Hs]. rewrite <-Hs. apply unbounded_rel; [done|].
    by eapply fallback_unbounded.
  - intros Hch. apply res_bind_ok in Hch as (ch & He & Hch). destruct ch as [|t u].
    + apply IH; [|done]. intros e' He'. apply Hsub. by right.
    + injection Hch as <- <-. eapply edge_choice_fact; [done|done| |exact Hfb|exact He].
      apply Hsub. by left.
Qed.

(** What a step does to the position and the measure. *)
Lemma run_step_fact x c y c' :
  run_step spec s (x, c) (y, c') →
  grows c c' ∧ y ∈ node_ids spec
  ∧ (tc (edge_rel (unbounded_edges spec)) x y ∨ remaining limits c' + 1 ≤ remaining limits c).
Proof.
  assert (∀ a b, edge_rel (unbounded_edges spec) a b → b ∈ node_ids spec) as Hrel.
  { intros a b (e & He & _ & <-). apply (WorkflowSpec.wf_target _ Hwf).
    by apply unbounded_edges_sub. }
  assert (∀ a b, tc (edge_rel (unbounded_edges spec)) a b → b ∈ node_ids spec) as Hrels
    by (intros a b Hab; induction Hab; [by eapply Hrel|done]).
  inversion_clear 1 as [? n ? state ? upd c1 ? Hn Hty Hg Hst Hr Hne Hg' Hupd
                       |? n ? ? ? Hn Hty He Hg|? f ? ? Hf Hx Hg].
  - pose proof (choose_route_fact x n state y upd Hn Hty Hr) as Hf. rewrite Hst in Hf.
    split; [by eapply grows_trans|].
    assert (y ∈ node_ids spec) as Hy.
    { clear -Hr Hwf Hn. unfold _choose_route in Hr.
      assert (∀ e, e ∈ route_edges spec x → WorkflowEdge.target e ∈ node_ids spec) as Hsub.
      { intros e He. apply (WorkflowSpec.wf_target _ Hwf).
        rewrite elem_of_route_edges in He. by apply elem_of_outgoing in He as [? _]. }
      eapply (choose_target n _ state _ y upd (λ z, z ∈ node_ids spec)); [|exact Hsub|exact Hr].
      intros f Hf. apply Hsub.
      assert (f ∈ fallbacks (route_edges spec x)) as Hin.
      { destruct (fallbacks _); [done|]. injection Hf as ->. by left. }
      unfold fallbacks in Hin. by apply list_elem_of_filter in Hin as [_ ?]. }
    split; [done|]. destruct Hf as [?|(k & l & Hk & Hlt & Hu)]; [left; by apply tc_once|right].
    specialize (Hupd k _ Hu). pose proof (Hg k).
    assert (remaining limits c' + 1 ≤ remaining limits c1).
    { eapply (remaining_consumes limits c1 c' k l); [done| |done|done]. by apply dict_get_elem. }
    pose proof (remaining_grows limits c c1 Hg). lia.
  - split; [done|]. destruct He as (e & He & Hs & Ht).
    assert (edge_rel (unbounded_edges spec) x y) as Hxy.
    { rewrite <-Hs, <-Ht. apply unbounded_rel; [done|].
      apply find_key_Some in Hn as [Hn Hid]. eapply (Hfanout n e); [done..|]. by rewrite Hid. }
    split; [by eapply Hrel|left; by apply tc_once].
  - pose proof (Hbranch f x Hf Hx) as Hxj. split_and!; [done|by eapply Hrels|by left].
Qed.

(** A run of [n] steps: the counted edges consume the measure, and the others
form acyclic segments. *)
Lemma run_segments n x c y c' :
  x ∈ node_ids spec → nsteps (run_step spec s) n (x, c) (y, c') →
  grows c c' ∧ ∃ z j, z ∈ node_ids spec ∧ nsteps (edge_rel (unbounded_edges spec)) j z y
    ∧ Z.of_nat n ≤ Z.of_nat (length nodes) * (remaining limits c - remaining limits c')
                   + Z.of_nat j.
Proof.
  intros Hx. revert y c'; induction n as [|n IH]; intros y c' Hn.
  - inversion Hn; subst. split; [apply grows_refl|]. exists y, 0%nat.
    split_and!; [done|constructor|lia].
  - apply nsteps_inv_r in Hn as ([w c1] & Hn & Hstep).
    destruct (IH w c1 Hn) as (Hg & z & j & Hz & Hj & Hle).
    destruct (run_step_fact _ _ _ _ Hstep) as (Hg' & Hy & Hor).
    split; [by eapply grows_trans|].
    pose proof (remaining_grows limits c1 c' Hg') as Hmono.
    destruct Hor as [Hunb|Hdec].
    + apply tc_nsteps in Hunb as (m & Hm & Hsteps).
      exists z, (j + m)%nat. split_and!; [done|by eapply nsteps_trans|]. nia.
    + exists y, 0%nat. split_and!; [done|constructor|].
      assert (S j ≤ length (node_ids spec))%nat as Hlen.
      { eapply (acyclic_path_length (edge_rel (unbounded_edges spec)) _ j z w Hacyclic);
          [|done|done]. intros a b (e & He & _ & <-). apply (WorkflowSpec.wf_target _ Hwf).
        by apply unbounded_edges_sub. }
      unfold node_ids in Hlen. rewrite length_fmap in Hlen. nia.
Qed.

(** No run takes as many steps as [_superstep_limit] allows. *)
Lemma run_bound n x c y c' limit :
  x ∈ node_ids spec → (∀ k, 0 ≤ cval c k) → nsteps (run_step spec s) n (x, c) (y, c') →
  _superstep_limit spec s = Ok limit → Z.of_nat n + 3 ≤ limit.
Proof.
  intros Hx Hc Hn Hl. unfold _superstep_limit in Hl. rewrite Hlimits in Hl. simpl in Hl.
  injection Hl as <-. destruct (run_segments n x c y c' Hx Hn) as (_ & z & j & Hz & Hj & Hle).
  assert (S j ≤ length (node_ids spec))%nat as Hlen.
  { eapply (acyclic_path_length (edge_rel (unbounded_edges spec)) _ j z y Hacyclic); [|done|done].
    intros a b (e & He & _ & <-). apply (WorkflowSpec.wf_target _ Hwf).
    by apply unbounded_edges_sub. }
  unfold node_ids in Hlen. rewrite length_fmap in Hlen.
  destruct limits_ok as [Hok Hnn].
  assert (Forall (λ kl : string * Z, 0 ≤ kl.2) limits) as Hall.
  { apply Forall_forall. intros [k l] Hin. simpl. apply (Hnn k). by apply dict_get_Some. }
  pose proof (remaining_start limits c Hc Hall). pose proof (remaining_nonneg limits c'). nia.
Qed.
End limits.

(** The limit is always defined. *)
Lemma step_limits_total : ∃ limits, step_limits spec s = Ok limits.
Proof.
  unfold step_limits. generalize ([] : counters) as acc.
  assert (∀ e, e ∈ edges → e ∈ edges) as Hsub by done. revert Hsub.
  generalize edges at 1 3 as es. induction es as [|e es IH]; intros Hsub acc; [by eexists|]. simpl.
  assert (∃ acc', add_limit spec s acc e = Ok acc') as [acc' ->].
  { assert (e ∈ edges) as He by (apply Hsub; by left). unfold add_limit.
    destruct (WorkflowEdge.kind e) eqn:Hk; try by eexists.
    destruct (Hretry e He Hk) as [(n & p & rule & c & Hn & Hp & Hc & Hr & _)].
    rewrite Hn, Hp, Hc; simpl. rewrite Hr; simpl. by eexists. }
  simpl. apply IH. intros e' He'. apply Hsub. by right.
Qed.

Lemma superstep_limit_total : ∃ limit, _superstep_limit spec s = Ok limit.
Proof. unfold _superstep_limit. destruct step_limits_total as [l ->]. by eexists. Qed.
End bound.

(** ** Steps of a compiled graph

One superstep as the code performs it: [invoke] computes an update, the reducers
merge it, and [route] or [fanout_route] selects the next node.  The children of a
fan-out run in one superstep of the parent graph, each as a compiled subgraph of
its own that starts from the state [fanout_route] sends and ends with [complete], and returns its
[branch_output], counters included; the join follows.
A run of a subgraph is again a chain of [graph_step]s, from the child to the
join, whose node there is ["__complete__"].  [hs] binds the handlers; they may be
any functions of the state. *)

Section graph_step.
Context `{PyRuntime}.
Variables (spec : nspec) (s : snapshot) (hs : string → option handler).

(** The counters of a state are a dictionary of nonnegative integers. *)
Definition state_ok (st : WorkflowStateV1.t) : Prop :=
  counters_ok (WorkflowStateV1.get_counters st).

(** What a child returns: the branch channels after ["__complete__"]. *)
Definition child_output (out : WorkflowStateV1.t) : Prop :=
  ∃ st u st', state_ok st ∧ complete st = Ok u ∧ merged_state st u = Ok st'
    ∧ out = branch_output st'.

Inductive graph_step :
    string * WorkflowStateV1.t → string * WorkflowStateV1.t → Prop :=
  | gs_route x n st u st' y :
      find_node spec x = Some n → WorkflowNode.type n ≠ WorkflowNodeType.fanout →
      outgoing spec x ≠ [] →
      invoke spec s n (hs x) st = Ok u → merged_state st u = Ok st' →
      route st' = Ok (Some y) → graph_step (x, st) (y, st')
  | gs_fanout x n f st u st' sends y sent :
      find_node spec x = Some n → as_fanout n = Some f →
      invoke spec s n (hs x) st = Ok u → merged_state st u = Ok st' →
      fanout_route st' f = Ok sends → (y, sent) ∈ sends →
      graph_step (x, st) (y, st')
  | gs_children x f st outs st' :
      f ∈ fanouts spec → x ∈ Fanout.children f →
      Forall child_output outs → foldM merged_state st outs = Ok st' →
      graph_step (x, st) (Fanout.join_id f, st').

Lemma max_map_right left right w :
  max_map left right = Ok w → Forall (λ kv : string * Z, 0 ≤ kv.2) right.
Proof.
  unfold max_map. revert left; induction right as [|kv right IH]; intros left; [constructor|].
  cbn [foldM]. destruct (max_item left kv) as [m|] eqn:Hm; [|done].
  constructor; [|by eapply (IH m)].
  unfold max_item in Hm. destruct (Z.ltb_spec kv.2 0); [done|lia].
Qed.

Lemma dict_nonneg d : dict_ok d → Forall (λ kv : string * Z, 0 ≤ kv.2) d → nonneg d.
Proof.
  intros Hd Hall k v Hk%dict_get_Some; [|done]. rewrite Forall_forall in Hall.
  by apply (Hall (k, v)).
Qed.

Lemma merged_counters st u st' :
  merged_state st u = Ok st' →
  max_map (WorkflowStateV1.get_counters st) (WorkflowStateV1.get_counters u)
  = Ok (WorkflowStateV1.get_counters st').
Proof.
  unfold merged_state. intros (r & _ & Hm)%res_bind_ok.
  apply res_bind_ok in Hm as (cr & _ & Hm). apply res_bind_ok in Hm as (c & Hc & Hm).
  by injection Hm as <-.
Qed.

(** Merging an update keeps counters well formed and takes maxima. *)
Lemma merged_counters_spec st u st' :
  state_ok st → dict_ok (WorkflowStateV1.get_counters u) → merged_state st u = Ok st' →
  state_ok st' ∧ ∀ k, dict_get k (WorkflowStateV1.get_counters st')
    = opt_max (dict_get k (WorkflowStateV1.get_counters st))
              (dict_get k (WorkflowStateV1.get_counters u)).
Proof.
  intros Hst Hu Hm%merged_counters. pose proof (max_map_right _ _ _ Hm) as Hnn.
  destruct (max_map_spec _ _ Hst (conj Hu (dict_nonneg _ Hu Hnn))) as (w & Hw & Hok & _ & Hget).
  rewrite Hm in Hw. injection Hw as <-. done.
Qed.

Lemma opt_max_grows c c' u :
  nonneg c' → (∀ k, dict_get k c' = opt_max (dict_get k c) (dict_get k u)) → grows c c'.
Proof.
  intros Hnn Hget k. unfold cval. specialize (Hget k). specialize (Hnn k).
  destruct (dict_get k c') as [v|]; simpl in *;
    destruct (dict_get k c), (dict_get k u); simpl in *; simplify_eq; try lia.
  by apply Hnn.
Qed.

(** The factory writes the visit counter only. *)
Lemma factory_counters n h st u :
  _factory n (effective_policy spec n) s h st = Ok u →
  ∃ v, WorkflowStateV1.get_counters u = [(invocation_key st (WorkflowNode.id n), v)].
Proof.
  unfold _factory. intros (? & _ & Hf)%res_bind_ok. apply res_bind_ok in Hf as (? & _ & Hf).
  apply res_bind_ok in Hf as (u1 & _ & Hf). apply res_bind_ok in Hf as (u2 & _ & Hf).
  unfold record_result in Hf. destruct (_ && _); [done|]. injection Hf as <-.
  eexists. done.
Qed.

(** The counters a route consumes are not visit counters. *)
Lemma edge_choice_keys n fb st e y upd :
  edge_choice spec s n fb st e = Ok (Take y upd) →
  dict_ok upd ∧ ∀ st0 i, invocation_key st0 i ∉ upd.*1.
Proof.
  assert (dict_ok ([] : counters) ∧ ∀ st0 i, invocation_key st0 i ∉ ([] : counters).*1) as Hnil
    by (split; [constructor|intros st0 i; apply not_elem_of_nil]).
  unfold edge_choice. destruct (WorkflowEdge.fallback e); [done|].
  intros (passes & _ & He)%res_bind_ok. destruct passes; simpl in He; [|done].
  destruct (WorkflowEdge.kind e).
  - by injection He as _ <-.
  - by injection He as _ <-.
  - destruct (WorkflowEdge.retry_class e) as [c|]; [|done]. destruct (is_class _ _); [|done].
    unfold retry_choice in He.
    destruct (NodePolicy.retry_policy_ref (effective_policy spec n)) as [ri|]; [|done].
    simpl in He. destruct (find_key _ ri _) as [r|]; [|done].
    destruct (rev_spec r); try done. destruct (find_rule _ _) as [rule|]; [|done].
    destruct (Z.leb _ _); [destruct fb; [by injection He as _ <-|done]|].
    injection He as _ <-. split; [apply NoDup_singleton|].
    intros st0 i. csimpl. by rewrite list_elem_of_singleton.
  - unfold iterate_choice in He. destruct (get_path _ _); try done.
    destruct (_ || _); [done|]. destruct (WorkflowEdge.max_iterations e); [|done].
    destruct (Z.leb _ _); [done|]. injection He as _ <-. unfold dict_update; simpl.
    rewrite bool_decide_false by apply append_ne. split.
    + unfold dict_ok; csimpl. constructor; [|apply NoDup_singleton].
      rewrite list_elem_of_singleton. intros Hk. by eapply append_ne.
    + intros st0 i. csimpl. rewrite elem_of_cons, list_elem_of_singleton. by intros [|].
  - destruct (negb _); [done|].
    assert (upd = []) as ->; [|done].
    destruct (WorkflowEdge.retry_class e); [destruct (is_class _ _)|]; by simplify_eq.
Qed.

Lemma choose_loop_keys n fb es st y upd :
  choose_loop spec s n fb st es = Ok (y, upd) →
  dict_ok upd ∧ ∀ st0 i, invocation_key st0 i ∉ upd.*1.
Proof.
  induction es as [|e es IH]; simpl.
  - destruct fb; [|done]. intros [= _ <-]. split; [constructor|]. intros st0 i. apply not_elem_of_nil.
  - intros (ch & He & Hch)%res_bind_ok. destruct ch as [|t u]; [by apply IH|].
    injection Hch as _ <-. by eapply edge_choice_keys.
Qed.

Lemma route_get st y :
  route st = Ok (Some y) →
  default false (WorkflowStateV1.cancelled st) = false ∧ WorkflowStateV1._route st = Some y.
Proof.
  unfold route. destruct (default false (WorkflowStateV1.cancelled st)); [done|].
  destruct (WorkflowStateV1._route st); [|done]. by intros [= ->].
Qed.

(** Merging keeps the channels that have no reducer. *)
Lemma merged_override st u st' :
  merged_state st u = Ok st' →
  WorkflowStateV1.cancelled st' = override (WorkflowStateV1.cancelled st) (WorkflowStateV1.cancelled u)
  ∧ WorkflowStateV1._route st' = override (WorkflowStateV1._route st) (WorkflowStateV1._route u)
  ∧ WorkflowStateV1.child_identity st'
    = override (WorkflowStateV1.child_identity st) (WorkflowStateV1.child_identity u).
Proof.
  unfold merged_state. intros (r & _ & Hm)%res_bind_ok.
  apply res_bind_ok in Hm as (cr & _ & Hm). apply res_bind_ok in Hm as (c & Hc & Hm).
  by injection Hm as <-.
Qed.

(** The update of a node that selects a route. *)
Lemma invoke_routes n h st u :
  invoke spec s n h st = Ok u → default false (WorkflowStateV1.cancelled u) = false →
  WorkflowNode.type n ≠ WorkflowNodeType.fanout → outgoing spec (WorkflowNode.id n) ≠ [] →
  ∃ u0 m y upd, _factory n (effective_policy spec n) s h st = Ok u0 ∧ merged_state st u0 = Ok m
    ∧ _choose_route spec s n (route_edges spec (WorkflowNode.id n)) m = Ok (y, upd)
    ∧ u = set_route y (dict_update (WorkflowStateV1.get_counters u0) upd) u0.
Proof.
  unfold invoke. intros (u0 & Hf & Hi)%res_bind_ok Hc Hty Hout.
  destruct (default false (WorkflowStateV1.cancelled u0)) eqn:Hc0.
  { injection Hi as <-. congruence. }
  rewrite (proj2 (Nat.eqb_neq (length (route_edges spec (WorkflowNode.id n))) 0)) in Hi.
  - assert (is_type WorkflowNodeType.fanout n = false) as Hnf
      by (unfold is_type; by apply bool_decide_eq_false).
    rewrite Hnf in Hi; cbn [negb andb] in Hi.
    apply res_bind_ok in Hi as (m & Hm & Hi). apply res_bind_ok in Hi as ([y upd] & Hr & Hi).
    injection Hi as <-. exists u0, m, y, upd. split_and!; try done.
    unfold lift_state in Hm. by destruct (merged_state st u0); [injection Hm as ->|].
  - intros Hlen. apply length_zero_iff_nil in Hlen. apply Hout. unfold route_edges in Hlen.
    apply Permutation_nil_r. rewrite <-Hlen. by rewrite sorted_key_perm.
Qed.

Lemma invoke_fanout n h st u :
  invoke spec s n h st = Ok u → WorkflowNode.type n = WorkflowNodeType.fanout →
  _factory n (effective_policy spec n) s h st = Ok u.
Proof.
  unfold invoke. intros (u0 & Hf & Hi)%res_bind_ok Hty.
  destruct (default false (WorkflowStateV1.cancelled u0)); [congruence|].
  unfold is_type in Hi. rewrite bool_decide_true, andb_false_r in Hi by done. congruence.
Qed.

Lemma as_fanout_type n f :
  as_fanout n = Some f →
  WorkflowNode.type n = WorkflowNodeType.fanout ∧ Fanout.id f = WorkflowNode.id n.
Proof.
  unfold as_fanout, WorkflowNode.type. destruct (WorkflowNode.config n); try done.
  by intros [= <-].
Qed.

Lemma get_counters_set_route t c u : WorkflowStateV1.get_counters (set_route t c u) = c.
Proof. done. Qed.

(** Merging the outputs of the children keeps the counters and lets them grow. *)
Lemma child_output_counters out :
  child_output out → dict_ok (WorkflowStateV1.get_counters out).
Proof.
  intros (st & u & st' & Hst & Hu & Hm & ->).
  assert (dict_ok (WorkflowStateV1.get_counters u)) as Huok.
  { unfold complete in Hu. destruct (WorkflowStateV1.child_identity st); [|done].
    injection Hu as <-. constructor. }
  destruct (merged_counters_spec _ _ _ Hst Huok Hm) as [[Hok _] _]. exact Hok.
Qed.

Lemma children_grow st outs st' :
  state_ok st → Forall child_output outs → foldM merged_state st outs = Ok st' →
  state_ok st' ∧ grows (WorkflowStateV1.get_counters st) (WorkflowStateV1.get_counters st').
Proof.
  revert st; induction outs as [|out outs IH]; intros st Hst Houts Hfold.
  - injection Hfold as <-. split; [done|apply grows_refl].
  - apply Forall_cons in Houts as [Hc%child_output_counters Houts].
    cbn [foldM] in Hfold. apply res_bind_ok in Hfold as (m & Hm & Hfold).
    destruct (merged_counters_spec st out m Hst Hc Hm) as [Hmok Hget].
    destruct (IH m Hmok Houts Hfold) as [Hok Hg]. split; [done|].
    eapply grows_trans; [|exact Hg]. eapply opt_max_grows; [apply Hmok|exact Hget].
Qed.

(** A graph step is a step of the counters. *)
Lemma graph_step_run x st y st' :
  (∀ n f c, n ∈ WorkflowSpec.nodes spec → as_fanout n = Some f → c ∈ Fanout.children f →
    edge_rel (WorkflowSpec.edges spec) (node_id n) c) →
  state_ok st → graph_step (x, st) (y, st') →
  state_ok st' ∧ run_step spec s (x, WorkflowStateV1.get_counters st)
                                 (y, WorkflowStateV1.get_counters st').
Proof.
  intros Hchildren Hst. inversion_clear 1 as
    [? n ? u ? ? Hn Hty Hout Hinv Hmerge Hroute|? n f ? u ? sends ? i Hn Hf Hinv Hmerge Hsend Hin
    |? f ? outs ? Hf Hx Houts Hfold].
  - pose proof Hn as [_ Hid]%find_key_Some. change (node_id n) with (WorkflowNode.id n) in Hid.
    apply route_get in Hroute as [Hnc Hy].
    destruct (merged_override _ _ _ Hmerge) as (Hcm & Hrm & _).
    destruct (invoke_routes n (hs x) st u) as (u0 & m & t & upd & Hf & Hm & Hr & ->);
      [done| |done|by rewrite Hid|].
    { rewrite Hcm in Hnc. unfold override in Hnc. by destruct (WorkflowStateV1.cancelled u). }
    rewrite Hid in Hr. cbn [set_route WorkflowStateV1._route] in Hrm. rewrite Hrm in Hy.
    injection Hy as ->.
    destruct (factory_counters _ _ _ _ Hf) as [v Hu0].
    assert (dict_ok upd ∧ ∀ st0 i, invocation_key st0 i ∉ upd.*1) as [Hupd Hdis]
      by (eapply choose_loop_keys; exact Hr).
    assert (dict_ok (WorkflowStateV1.get_counters u0)) as Hok0
      by (rewrite Hu0; apply NoDup_singleton).
    destruct (merged_counters_spec _ _ _ Hst Hok0 Hm) as [Hmok Hmget].
    destruct (merged_counters_spec st
      (set_route y (dict_update (WorkflowStateV1.get_counters u0) upd) u0) st' Hst
      (dict_ok_update _ _ Hok0) Hmerge) as [Hok' Hget'].
    split; [done|].
    eapply run_route with (c1 := WorkflowStateV1.get_counters m); [done|done| |done|exact Hr|done| |].
    + eapply opt_max_grows; [apply Hmok|exact Hmget].
    + intros k. unfold cval. rewrite Hmget, Hget'.
      rewrite get_counters_set_route.
      rewrite dict_get_update by done. destruct (dict_get k upd) as [w|] eqn:Hk; [|done].
      assert (dict_get k (WorkflowStateV1.get_counters u0) = None) as ->.
      { rewrite Hu0. simpl. rewrite bool_decide_false; [done|]. intros ->.
        apply (Hdis st (WorkflowNode.id n)). apply dict_get_elem in Hk.
        apply list_elem_of_fmap. by exists (invocation_key st (WorkflowNode.id n), w). }
      pose proof (proj2 Hok' k) as Hnn. rewrite Hget' in Hnn.
      rewrite get_counters_set_route in Hnn.
      rewrite dict_get_update, Hk in Hnn by done.
      destruct (dict_get k (WorkflowStateV1.get_counters st)); simpl in *; [lia|].
      by apply Hnn.
    + intros k w Hk. unfold cval. rewrite Hget'.
      rewrite get_counters_set_route.
      rewrite dict_get_update, Hk by done.
      destruct (dict_get k (WorkflowStateV1.get_counters st)); simpl; lia.
  - destruct (as_fanout_type _ _ Hf) as [Hty Hfid].
    apply invoke_fanout in Hinv; [|done]. destruct (factory_counters _ _ _ _ Hinv) as [v Hu].
    assert (dict_ok (WorkflowStateV1.get_counters u)) as Huok by (rewrite Hu; apply NoDup_singleton).
    destruct (merged_counters_spec _ _ _ Hst Huok Hmerge) as [Hok' Hget'].
    assert (y ∈ Fanout.children f) as Hy.
    { unfold fanout_route in Hsend. destruct (default false _); [injection Hsend as <-;
        by apply elem_of_nil in Hin|]. destruct (_ || _); [done|]. injection Hsend as <-.
      apply list_elem_of_fmap in Hin as (c & [= -> _] & Hc). done. }
    split; [done|]. eapply run_fanout; [done|done| |eapply opt_max_grows; [apply Hok'|exact Hget']].
    pose proof Hn as [Hnin Hid]%find_key_Some. rewrite <-Hid. by eapply Hchildren.
  - destruct (children_grow _ _ _ Hst Houts Hfold) as [Hok' Hg]. split; [done|]. by apply run_join.
Qed.

Lemma graph_steps_run n x st y st' :
  (∀ n f c, n ∈ WorkflowSpec.nodes spec → as_fanout n = Some f → c ∈ Fanout.children f →
    edge_rel (WorkflowSpec.edges spec) (node_id n) c) →
  state_ok st → nsteps graph_step n (x, st) (y, st') →
  nsteps (run_step spec s) n (x, WorkflowStateV1.get_counters st)
                             (y, WorkflowStateV1.get_counters st').
Proof.
  intros Hch. revert x st; induction n as [|n IH]; intros x st Hst Hn.
  - inversion Hn; subst. constructor.
  - inversion Hn as [|? ? [z stz] ? Hstep Hrest]; subst.
    destruct (graph_step_run _ _ _ _ Hch Hst Hstep) as [Hstz Hrun].
    econstructor; [exact Hrun|by apply IH].
Qed.
End graph_step.

(** ** Validated workflows *)

Section validated.
Context `{PyRuntime} `{SetOrder} `{ConfigModel} `{ModelDump WorkflowNode.t}
  `{ModelDump WorkflowEdge.t} `{ModelDump NodePolicy.t} `{ModelDump RegistrySpec}
  `{ModelDump WorkflowResolvedRevision.t}.
Variables (raw : WorkflowSpec.t RawNode.t) (spec : nspec) (s : snapshot).
Hypothesis Hok : workflow_ok raw spec (Some s).

Lemma ok_fanout n :
  n ∈ WorkflowSpec.nodes spec → WorkflowNode.type n = WorkflowNodeType.fanout →
  ∃ f, as_fanout n = Some f ∧ f ∈ fanouts spec ∧ Fanout.id f = node_id n.
Proof.
  intros Hn Hty. unfold WorkflowNode.type in Hty.
  destruct (WorkflowNode.config n) as [| | | | | | | |ch j m| | | |] eqn:Hc; try done.
  eexists. split; [unfold as_fanout; by rewrite Hc|]. split; [|done].
  apply list_elem_of_omap. exists n. unfold as_fanout. by rewrite Hc.
Qed.

Lemma ok_edge e :
  e ∈ WorkflowSpec.edges spec → WorkflowEdge.valid e = true.
Proof. pose proof (wo_edges _ _ _ Hok) as Hed. rewrite Forall_forall in Hed. apply Hed. Qed.

Lemma ok_fanout_edges n e :
  n ∈ WorkflowSpec.nodes spec → WorkflowNode.type n = WorkflowNodeType.fanout →
  e ∈ WorkflowSpec.edges spec → WorkflowEdge.source e = node_id n → bounded e = false.
Proof.
  intros Hn Hty He Hs. destruct (ok_fanout n Hn Hty) as (f & _ & Hf & Hid).
  pose proof (fs_each _ (wo_fanout _ _ _ Hok) f Hf) as Hfo.
  destruct (fo_always _ _ Hfo e) as [Hk _].
  { unfold outgoing. apply list_elem_of_filter. by rewrite Hid. }
  unfold bounded. by rewrite Hk.
Qed.

Lemma ok_fanout_children n f c :
  n ∈ WorkflowSpec.nodes spec → as_fanout n = Some f → c ∈ Fanout.children f →
  edge_rel (WorkflowSpec.edges spec) (node_id n) c.
Proof.
  intros Hn Hf Hc. destruct (as_fanout_type _ _ Hf) as [_ Hid].
  assert (f ∈ fanouts spec) as Hin by (apply list_elem_of_omap; eauto).
  pose proof (fs_each _ (wo_fanout _ _ _ Hok) f Hin) as Hfo.
  rewrite <-(fo_edges _ _ Hfo) in Hc. apply list_elem_of_fmap in Hc as (e & -> & He).
  unfold outgoing in He. apply list_elem_of_filter in He as [Hs He]. exists e.
  split_and!; [done|by rewrite Hs, Hid|done].
Qed.

(** Every node that continues has an uncounted edge. *)
Lemma ok_successor i n t :
  find_node spec i = Some n → WorkflowNode.type n ≠ WorkflowNodeType.fanout →
  edge_rel (WorkflowSpec.edges spec) i t → ∃ t', edge_rel (unbounded_edges spec) i t'.
Proof.
  intros Hn Hty (e & He & Hs & _). apply find_key_Some in Hn as [Hn <-].
  pose proof (wo_graph _ _ _ Hok) as Hg.
  assert (e ∈ outgoing spec (node_id n)) as Heo by (by apply elem_of_outgoing).
  assert (∀ f, f ∈ outgoing spec (node_id n) → bounded f = false →
    ∃ t', edge_rel (unbounded_edges spec) (node_id n) t') as Hfin.
  { intros f [Hf Hfs]%elem_of_outgoing Hb. exists (WorkflowEdge.target f). rewrite <-Hfs.
    by apply unbounded_rel. }
  destruct (conditional (outgoing spec (node_id n))) eqn:Hc.
  - destruct (go_routing _ Hg n Hn Hty) as [[f Hf] Hu _ _]; [..|done|].
    + intros Hfz. by apply (go_final _ Hg n e).
    + intros Hnil. rewrite Hnil in Heo. by apply elem_of_nil in Heo.
    + assert (f ∈ fallbacks (outgoing spec (node_id n))) as Hfin' by (rewrite Hf; by left).
      apply list_elem_of_filter in Hfin' as [Hff Hfo]. destruct (Hu f Hfo Hff) as (_ & Hb & _).
      by apply (Hfin f).
  - apply (Hfin e Heo). by apply (unconditional_unbounded (outgoing spec (node_id n))).
Qed.

(** A branch reaches its join without counted edges. *)
Lemma ok_branch f c :
  f ∈ fanouts spec → c ∈ Fanout.children f →
  tc (edge_rel (unbounded_edges spec)) c (Fanout.join_id f).
Proof.
  intros Hf Hc. pose proof (wo_wf _ _ _ Hok) as Hwf. pose proof (wo_fanout _ _ _ Hok) as Hfo.
  destruct (fo_branches _ _ (fs_each _ Hfo f Hf) c Hc) as [[Hcn Hcj] _ _ _].
  assert (∀ k, tc (edge_rel (unbounded_edges spec)) c (Fanout.join_id f)
    ∨ ∃ y, y ∈ region spec f c ∧ nsteps (edge_rel (unbounded_edges spec)) k c y) as Hk.
  { induction k as [|k [IH|(y & Hy & Hn)]]; [right|by left|].
    - exists c. split; [by apply region_child|constructor].
    - destruct (region_node spec Hwf Hfo f c y Hf Hc Hy) as (n & Hyn & Hro).
      destruct (rn_continues _ _ _ _ _ _ Hro) as [t Ht].
      destruct (ok_successor y n t Hyn (proj1 (rn_flat _ _ _ _ _ _ Hro)) Ht) as [t' Hu].
      destruct (rn_exit _ _ _ _ _ _ Hro t' (unbounded_edge_rel _ _ _ Hu)) as [Hin| ->].
      + right. exists t'. split; [done|]. by eapply nsteps_r.
      + left. apply tc_nsteps. exists (S k). split; [lia|]. by eapply nsteps_r. }
  destruct (Hk (length (node_ids spec))) as [?|(y & _ & Hn)]; [done|exfalso].
  pose proof (acyclic_path_length (edge_rel (unbounded_edges spec)) (node_ids spec)
    (length (node_ids spec)) c y (go_cycle _ (wo_graph _ _ _ Hok))) as Hlen.
  assert (S (length (node_ids spec)) ≤ length (node_ids spec))%nat; [|lia].
  apply Hlen; [|done|done]. intros a b (e & He & _ & <-). apply (WorkflowSpec.wf_target _ Hwf).
  by apply unbounded_edges_sub.
Qed.

Lemma ok_retry e :
  e ∈ WorkflowSpec.edges spec → WorkflowEdge.kind e = WorkflowEdgeKind.retry →
  retry_ok spec (WorkflowResolvedSnapshot.revisions s) e.
Proof.
  apply retry_edge_ok; [exact (wo_policy _ _ _ Hok)|exact (wo_wf _ _ _ Hok)].
Qed.

Lemma ok_max_iterations e m :
  e ∈ WorkflowSpec.edges spec → WorkflowEdge.max_iterations e = Some m → 0 ≤ m.
Proof.
  intros He Hm. apply ok_edge in He. unfold WorkflowEdge.valid in He.
  rewrite !andb_true_iff in He. destruct He as [[_ Hb] _]. rewrite Hm in Hb; simpl in Hb.
  unfold z_between in Hb. apply andb_true_iff in Hb as [?%Z.leb_le _]. lia.
Qed.

(** [_superstep_limit] of a validated workflow is defined, and no execution
reaches it: a LangGraph recursion error cannot occur. *)
Theorem superstep_bound :
  ∃ limit, _superstep_limit spec s = Ok limit
    ∧ ∀ hs n x y st st', x ∈ node_ids spec → state_ok st →
        nsteps (graph_step spec s hs) n (x, st) (y, st') → Z.of_nat n + 3 ≤ limit.
Proof.
  assert (∀ i, i ∈ node_ids spec → no_colon i = true) as Hids
    by (intros i Hi; eapply slug_no_colon, (wo_ids _ _ _ Hok i Hi)).
  assert (Forall (λ e, WorkflowEdge.validate_kind_fields e = true) (WorkflowSpec.edges spec)) as Hk
    by (eapply Forall_impl; [exact (wo_edges _ _ _ Hok)|apply edge_valid_kind_fields]).
  pose proof (wo_graph _ _ _ Hok) as Hg.
  destruct (superstep_limit_total spec s ok_retry) as [limit Hl].
  destruct (step_limits_total spec s ok_retry) as [limits Hlim].
  exists limit. split; [done|]. intros hs n x y st st' Hx Hst Hn.
  eapply (run_bound spec s (wo_wf _ _ _ Hok) Hids Hk ok_max_iterations (go_cycle _ Hg)
    (go_routing _ Hg) (go_final _ Hg) ok_fanout_edges ok_branch (go_keys _ Hg) ok_retry
    (so_distinct _ _ (wo_snapshot _ _ _ Hok s eq_refl)) limits Hlim n x
    (WorkflowStateV1.get_counters st) y (WorkflowStateV1.get_counters st')); [done| | |done].
  - intros k. unfold cval. destruct (dict_get k _) as [v|] eqn:Hk'; simpl; [|done].
    by apply (proj2 Hst k).
  - eapply graph_steps_run; [|exact Hst|exact Hn]. intros n' f c. apply ok_fanout_children.
Qed.
End validated.
