(* ===== verification/Guarantees.v ===== *)
(** * What the workflow components give together

The theorems a reader of the code asks for, over the components: a validated
workflow is well formed and protected, the graph compiled from it ends before
LangGraph's recursion limit, its fan-out branches are isolated, and the channel
reducers make the merged state independent of the order of updates. *)
From S2P Require Import Prelude Enums PyJson PyDecimal Failures Verification Registry.
From S2P Require Import WorkflowSpec Predicates State Graph Normalize RawValidation GraphIssues.
From S2P Require Import FanoutIssues SnapshotIssues PolicyIssues Protected Validate NodeFactory.
From S2P Require Import Compiler Superstep.
Local Open Scope Z_scope.
Local Open Scope stdpp_scope.

Section validated.
Context `{PyRuntime} `{ConfigModel} `{SpecModel} `{SetOrder} `{PyStr}
  `{ModelDump WorkflowNode.t} `{ModelDump WorkflowEdge.t} `{ModelDump NodePolicy.t}
  `{ModelDump RegistrySpec} `{ModelDump WorkflowResolvedRevision.t}.

Lemma compile_workflow_ok payload spec s handlers c :
  compile_workflow payload spec s handlers = Ok c →
  ∃ r, validate_workflow payload (Some s) = Ok r ∧ WorkflowValidationReport.valid r = true
    ∧ normalize_workflow spec = Ok (compiled_spec c)
    ∧ compiled_snapshot c = s
    ∧ _superstep_limit (compiled_spec c) s = Ok (recursion_limit c)
    ∧ ∀ h, h ∈ handlers →
        h ∈ node_ids (compiled_spec c)
        ∧ ∀ m, m ∈ WorkflowSpec.nodes (compiled_spec c) → node_id m = h →
            NodeDefinition.external (definition_of m) = true.
Proof.
  unfold compile_workflow. destruct (validate_workflow _ _) as [r|]; [|done].
  destruct (WorkflowValidationReport.valid r) eqn:Hv; simpl; [|done].
  destruct (normalize_workflow spec) as [n|]; [|done].
  destruct (existsb _ handlers) eqn:Hh; [done|]. destruct (existsb _ (WorkflowSpec.nodes n)) eqn:Hi;
    [done|].
  destruct (_superstep_limit n s) as [limit|] eqn:Hl; [|done]. intros [= <-]; simpl.
  exists r. split_and!; try done. intros h Hin.
  rewrite existsb_false in Hh. rewrite existsb_false in Hi. split.
  - specialize (Hh h Hin). by rewrite negb_false_iff, bool_decide_eq_true in Hh.
  - intros m Hm <-. specialize (Hi m Hm). rewrite bool_decide_true in Hi by done.
    by apply negb_false_iff in Hi.
Qed.

Lemma compiled_workflow_ok `{!ConfigErrors, !ConfigModelLaws, !SpecModelLaws, !SetOrderLaws}
    payload spec s handlers c :
  spec_validate payload = Ok spec → compile_workflow payload spec s handlers = Ok c →
  workflow_ok spec (compiled_spec c) (Some s).
Proof.
  intros Hs Hc. apply compile_workflow_ok in Hc as (r & Hr & Hv & Hn & _).
  destruct (validate_workflow_accepts payload (Some s) r Hr Hv) as (spec' & n & Hs' & Hok & _).
  assert (spec' = spec) as -> by congruence.
  pose proof (wo_normal _ _ _ Hok). by assert (n = compiled_spec c) as -> by congruence.
Qed.

(** C1. A workflow that compile_workflow accepts ends before LangGraph's recursion
limit: whatever the node handlers and workers return, every execution of the
compiled graph from any node with well-formed counters takes at least three
supersteps fewer than the recursion_limit the compiler computed. *)
Theorem compile_bound `{!ConfigErrors, !ConfigModelLaws, !SpecModelLaws, !SetOrderLaws}
    payload spec s handlers c hs k x y st st' :
  spec_validate payload = Ok spec → compile_workflow payload spec s handlers = Ok c →
  x ∈ node_ids (compiled_spec c) → state_ok st →
  nsteps (graph_step (compiled_spec c) s hs) k (x, st) (y, st') →
  Z.of_nat k + 3 ≤ recursion_limit c.
Proof.
  intros Hs Hc Hx Hst Hrun. pose proof (compiled_workflow_ok _ _ _ _ _ Hs Hc) as Hok.
  apply compile_workflow_ok in Hc as (_ & _ & _ & _ & _ & Hl & _).
  destruct (superstep_bound _ _ _ Hok) as (limit & Hl' & Hb).
  assert (limit = recursion_limit c) as <- by congruence. by eapply Hb.
Qed.

(** C2. A workflow the validator accepts satisfies every check stated declaratively:
the document (nesting, counts, bytes, distinct IDs, references to declared nodes),
the graph (reachability, bounded cycles, depth), the fan-outs, the policies (each
node's permission policy is resolved and allows what its capabilities and actions
need, actions that need an approval are granted one, workers, models and
verification are resolved and usable, retries and budgets are sane), the protected
paths and the snapshot; the report carries the content hash of its normal form. *)
Theorem validated_workflow `{!ConfigErrors, !ConfigModelLaws, !SpecModelLaws, !SetOrderLaws}
    payload s r :
  validate_workflow payload s = Ok r → WorkflowValidationReport.valid r = true →
  ∃ spec n, spec_validate payload = Ok spec ∧ workflow_ok spec n s
    ∧ document_ok payload
    ∧ WorkflowValidationReport.issues r = []
    ∧ WorkflowValidationReport.content_hash r = Some (content_hash n).
Proof. apply validate_workflow_accepts. Qed.

(** In a validated workflow every node is reachable from the entrypoint, and
from every node a finalize node without outgoing edges can be reached: no execution
is trapped. *)
Theorem validated_reaches_terminal raw spec s :
  workflow_ok raw spec s →
  (∀ i, i ∈ node_ids spec → path spec (WorkflowSpec.entrypoint spec) i)
  ∧ ∀ i, i ∈ node_ids spec →
      ∃ n, n ∈ WorkflowSpec.nodes spec ∧ WorkflowNode.type n = WorkflowNodeType.finalize
        ∧ path spec i (node_id n)
        ∧ ∀ e, e ∈ WorkflowSpec.edges spec → WorkflowEdge.source e ≠ node_id n.
Proof.
  intros Hok. pose proof (wo_graph _ _ _ Hok) as Hg. split; [by apply go_reach|].
  intros i Hi. destruct (go_terminal _ Hg i Hi) as (f & (n & Hn & <- & Hty) & Hp).
  exists n. split_and!; try done.
  intros e He. by apply (go_final _ Hg).
Qed.

(** C3. In a validated workflow every way from the entrypoint to a github_publish
node has, since the last worker node on it, passed a verify node, a reviewer node
and an approval node that grants exactly the push-and-pull-request action. *)
Theorem publish_protected raw spec s n h :
  workflow_ok raw spec (Some s) → n ∈ WorkflowSpec.nodes spec →
  WorkflowNode.type n = WorkflowNodeType.github_publish → trail spec h (node_id n) →
  since_worker spec WorkflowNodeType.verify h ∧ since_worker spec WorkflowNodeType.reviewer h
  ∧ ∃ g expires, approval_ok spec h (node_id n) g
      ∧ WorkflowNode.config <$> find_node spec g
        = Some (NodeConfig.ApprovalConfig ActionType.github_push_and_pr expires).
Proof.
  intros Hok Hn Hty Ht. pose proof (wo_protected _ _ _ Hok) as Hpr.
  pose proof (WorkflowSpec.wf_nodes _ (wo_wf _ _ _ Hok)) as Hnd.
  assert (find_node spec (node_id n) = Some n) as Hf by by apply find_key_elem.
  destruct (pr_evidence _ Hpr h _ n Ht Hf) as (_ & Hpub & _).
  destruct (Hpub Hty) as [Hv Hr]. split; [done|]. split; [done|].
  destruct (publish_granted _ _ (wo_policy _ _ _ Hok) n Hn Hty)
    as (a & g & action & expires & Ha & Hg & Hact & _ & Hcfg).
  rewrite Hty in Hact. injection Hact as <-. exists g, expires. split; [|done].
  assert (node_id n ≠ g) as Hne.
  { intros <-. rewrite Hf in Hcfg; simpl in Hcfg. injection Hcfg as Hc.
    unfold WorkflowNode.type in Hty. by rewrite Hc in Hty. }
  apply (pr_approval _ Hpr n g); [done| |done|done].
  unfold grant_of. rewrite Ha. destruct (WorkflowEdge.blank _) eqn:Hb; [|done].
  rewrite Hg in Hb. apply bool_decide_eq_true in Hb as ->.
  destruct (find_node spec "") as [m|] eqn:Hm; [|done].
  apply find_key_Some in Hm as [Hm Hid].
  pose proof (wo_ids _ _ _ Hok "") as Hs. rewrite <-Hid in Hs at 1.
  discriminate Hs. apply list_elem_of_fmap. eauto.
Qed.

(** Fan-out branches of a validated workflow are isolated: two different
branches share no node, a path from outside into a branch goes through the branch's
fan-out node, and a path out of a branch goes through its join. *)
Theorem branch_isolated raw spec s f c :
  workflow_ok raw spec s → f ∈ fanouts spec → c ∈ Fanout.children f →
  (∀ f' c' i, f' ∈ fanouts spec → c' ∈ Fanout.children f' →
     i ∈ region spec f c → i ∈ region spec f' c' → f = f' ∧ c = c')
  ∧ (∀ x i, x ∉ region spec f c → i ∈ region spec f c → path spec x i →
       path spec x (Fanout.id f))
  ∧ ∀ x y, x ∈ region spec f c → y ∉ region spec f c → path spec x y →
      path spec (Fanout.join_id f) y.
Proof.
  intros Hok Hf Hc. pose proof (wo_fanout _ _ _ Hok) as Hfo. pose proof (wo_wf _ _ _ Hok) as Hwf.
  split_and!.
  - intros f' c' i Hf' Hc'. by apply (branch_unique _ Hfo).
  - intros x i. by apply (branch_entered_by_fanout _ Hwf Hfo).
  - intros x y. by apply (branch_left_to_join _ Hwf Hfo).
Qed.

(** In a validated workflow the edges without an iteration or retry bound form
no cycle, and no path along them is longer than MAX_GRAPH_DEPTH nodes. *)
Theorem validated_depth `{!SetOrderLaws} raw spec s k x y :
  workflow_ok raw spec s →
  nsteps (edge_rel (unbounded_edges spec)) k x y → Z.of_nat k + 1 ≤ MAX_GRAPH_DEPTH.
Proof.
  intros Hok. apply unbounded_path_bound. by eapply wo_graph.
Qed.
End validated.

(** ** Channels *)

(** Merging branch results is independent of the order in which parallel
branches report: any permutation of the same updates succeeds with the same
completions or conflicts, never one of each. *)
Theorem results_order_independent `{PyRuntime} us us' v :
  dict_ok v → Forall dict_ok us → us ≡ₚ us' → us ≠ [] →
  match foldM merge_by_id v us, foldM merge_by_id v us' with
  | Ok w, Ok w' => same_completions w w'
  | Err _, Err _ => True
  | _, _ => False
  end.
Proof. apply merge_by_id_order. Qed.

Theorem counters_order_independent us us' v :
  counters_ok v → Forall counters_ok us → us ≡ₚ us' → us ≠ [] →
  match foldM max_map v us, foldM max_map v us' with
  | Ok w, Ok w' => rd_equiv (Reducer := max_map_reducer) w w'
  | Err _, Err _ => True
  | _, _ => False
  end.
Proof. apply (rd_order (Reducer := max_map_reducer)). Qed.

(** ** The compilation cache *)

(** A compiled graph that was put into the open compile cache is found again as
its most recent entry, and the cache never exceeds its capacity. *)
Theorem cache_roundtrip {K V} `{EqDecision K} (c : @CompileCache.t K V) k v :
  CompileCache.inv c → CompileCache.closed (CompileCache.put k v c) = false →
  ∃ c', CompileCache.get k (CompileCache.put k v c) = Ok (Some v, c')
    ∧ CompileCache.inv c' ∧ last (CompileCache.entries c') = Some (k, v)
    ∧ Z.of_nat (length (CompileCache.entries c')) ≤ CompileCache.max_entries c'.
Proof.
  intros Hi Hc. pose proof (CompileCache.find_put k v c Hi) as Hf.
  pose proof (CompileCache.put_inv k v c Hi) as Hp.
  destruct (CompileCache.get k (CompileCache.put k v c)) as [[o c']|e] eqn:Hg;
    unfold CompileCache.get in Hg; rewrite Hc, Hf in Hg; [|done].
  assert (o = Some v) as -> by congruence.
  assert (CompileCache.get k (CompileCache.put k v c) = Ok (Some v, c')) as Hg'
    by (unfold CompileCache.get; by rewrite Hc, Hf).
  destruct (CompileCache.get_find k _ v c' Hp Hg') as (_ & _ & Hl & Hi').
  exists c'. split_and!; try done. unfold CompileCache.inv in Hi'. tauto.
Qed.
