(* ===== verification/MissionContracts.v ===== *)
(** * Mission contracts

[packages/contracts/src/jarvis_contracts/missions.py]: missions, the manager's decisions
and the resource limits of unattended work, with the bounds and validators pydantic
enforces.  [bounded_action_spec] says what the validator of a decision accepts: among
others, that the proposed dependencies have no cycle. *)
From S2P Require Import Prelude Enums PyJson PyDecimal Failures Registry GraphIssues.
Local Open Scope Z_scope.
Local Open Scope stdpp_scope.

(** ** Vocabulary *)

Module MissionLifecycle.
Inductive t : Set :=
  | active | idle | waiting_for_capacity | waiting_for_approval | blocked | paused
  | cancelling | cancelled | completed | archived.
Definition value (x : t) : string :=
  match x with
  | active => "active"
  | idle => "idle"
  | waiting_for_capacity => "waiting_for_capacity"
  | waiting_for_approval => "waiting_for_approval"
  | blocked => "blocked"
  | paused => "paused"
  | cancelling => "cancelling"
  | cancelled => "cancelled"
  | completed => "completed"
  | archived => "archived"
  end.
#[global] Instance eq_dec : EqDecision t.
Proof. solve_decision. Defined.
End MissionLifecycle.

Module WorkItemLifecycle.
Inductive t : Set := pending | ready | started | accepted | blocked | cancelled.
Definition value (x : t) : string :=
  match x with
  | pending => "pending"
  | ready => "ready"
  | started => "started"
  | accepted => "accepted"
  | blocked => "blocked"
  | cancelled => "cancelled"
  end.
#[global] Instance eq_dec : EqDecision t.
Proof. solve_decision. Defined.
End WorkItemLifecycle.

Module ManagerAction.
Inductive t : Set := explain | propose | clarify | wait | complete.
Definition value (x : t) : string :=
  match x with
  | explain => "explain"
  | propose => "propose"
  | clarify => "clarify"
  | wait => "wait"
  | complete => "complete"
  end.
#[global] Instance eq_dec : EqDecision t.
Proof. solve_decision. Defined.
End ManagerAction.

Module TurnStatus.
Inductive t : Set := queued | running | applied | stale | failed.
#[global] Instance eq_dec : EqDecision t.
Proof. solve_decision. Defined.
End TurnStatus.

Module Disposition.
Inductive t : Set := queued | delivered | stale | failed.
#[global] Instance eq_dec : EqDecision t.
Proof. solve_decision. Defined.
End Disposition.

Module MessageRole.
Inductive t : Set := user | manager | system.
Definition value (x : t) : string :=
  match x with user => "user" | manager => "manager" | system => "system" end.
#[global] Instance eq_dec : EqDecision t.
Proof. solve_decision. Defined.
End MessageRole.

Module WakeupKind.
Inductive t : Set := user_direction | job_completed | job_failed | approval_decided | deadline.
Definition value (x : t) : string :=
  match x with
  | user_direction => "user_direction"
  | job_completed => "job_completed"
  | job_failed => "job_failed"
  | approval_decided => "approval_decided"
  | deadline => "deadline"
  end.
#[global] Instance eq_dec : EqDecision t.
Proof. solve_decision. Defined.
End WakeupKind.

Module WakeupStatus.
Inductive t : Set := pending | claimed | turn_queued | committed | stale | failed.
#[global] Instance eq_dec : EqDecision t.
Proof. solve_decision. Defined.
End WakeupStatus.

Module ControlScope.
Inductive t : Set := mission | team | global.
Definition value (x : t) : string :=
  match x with mission => "mission" | team => "team" | global => "global" end.
#[global] Instance eq_dec : EqDecision t.
Proof. solve_decision. Defined.
End ControlScope.

Module ControlState.
Inductive t : Set := open | paused | draining | cancelling.
Definition value (x : t) : string :=
  match x with
  | open => "open"
  | paused => "paused"
  | draining => "draining"
  | cancelling => "cancelling"
  end.
#[global] Instance eq_dec : EqDecision t.
Proof. solve_decision. Defined.
End ControlState.

Module ControlAction.
Inductive t : Set := pause | resume | drain | safe_point | cancel.
Definition value (x : t) : string :=
  match x with
  | pause => "pause"
  | resume => "resume"
  | drain => "drain"
  | safe_point => "safe_point"
  | cancel => "cancel"
  end.
#[global] Instance eq_dec : EqDecision t.
Proof. solve_decision. Defined.
End ControlAction.

Definition ConstraintText_valid : string → bool := len_between 1 2000.
(** [^[A-Z][A-Z0-9_-]{1,39}$] *)
Definition WorkItemKey_valid : string → bool :=
  head_tail is_upper (λ c, is_upper c || is_digit c || is_oneof [95; 45]%nat c) 1 39.
(** [^[A-Z]{3}$] *)
Definition currency_pattern (s : string) : bool :=
  Nat.eqb (String.length s) 3 && str_forallb is_upper s.
Definition idempotency_key_valid : string → bool := len_between 8 120.
Definition constraints_valid (cs : list string) : bool :=
  forallb ConstraintText_valid cs && size_between 0 40 cs.

(** ** Limits and teams *)

Module FixedTeamSelection.
Record t := {
  team_template_revision_id : uuid;
  manager_role_revision_id : uuid;
  manager_profile_revision_id : uuid;
  developer_role_revision_id : uuid;
  developer_worker_revision_id : uuid;
  reviewer_role_revision_id : uuid;
  reviewer_profile_revision_id : uuid;
  workflow_version_id : uuid;
  members : list TeamMemberSpec.t;
  budgets : TeamBudgetPolicy.t;
  escalation_policy_revision_id : option uuid;
  eligible_worker_revision_ids : list uuid;
  worker_pool_snapshot_hash : option string;
}.
Definition valid (s : t) : bool :=
  forallb TeamMemberSpec.valid (members s) && TeamBudgetPolicy.valid (budgets s)
  && opt_all (hex_pattern 64) (worker_pool_snapshot_hash s).
End FixedTeamSelection.

(** The [timezone] is always UTC. *)
Module MissionResourceLimits.
Record t := {
  window_seconds : Z;
  max_calls : Z;
  max_input_tokens : Z;
  max_output_tokens : Z;
  max_active_jobs : Z;
  max_wall_seconds : Z;
  max_iterations : Z;
  max_new_work_items : Z;
  max_cost : option decimal;
  currency : string;
}.
#[global] Instance eq_dec : EqDecision t.
Proof. solve_decision. Defined.
Definition valid (s : t) : bool :=
  z_between 60 31536000 (window_seconds s) && z_between 0 1000000 (max_calls s)
  && z_between 0 1000000000 (max_input_tokens s) && z_between 0 1000000000 (max_output_tokens s)
  && z_between 0 128 (max_active_jobs s) && z_between 0 31536000 (max_wall_seconds s)
  && z_between 0 100000 (max_iterations s) && z_between 0 100000 (max_new_work_items s)
  && opt_all dec_price_bounds (max_cost s) && currency_pattern (currency s).
(** [MissionResourceLimits()] *)
Definition default : t := Build_t 86400 20 500000 100000 1 86400 20 20 None "USD".
End MissionResourceLimits.

Module MissionUsageView.
Record t := {
  window_started_at : Z;
  window_seconds : Z;
  reserved : jobj;
  actual : jobj;
  unknown_liability : bool;
  limits : MissionResourceLimits.t;
}.
End MissionUsageView.

(** ** Requests *)

Module MissionCreate.
Record t := {
  project_id : uuid;
  objective : string;
  constraints : list string;
  mode : TeamMode.t;
  team_template_revision_id : uuid;
  autonomous : bool;
  limits : MissionResourceLimits.t;
  idempotency_key : string;
}.
Definition valid (s : t) : bool :=
  len_between 1 8000 (objective s) && constraints_valid (constraints s)
  && MissionResourceLimits.valid (limits s) && idempotency_key_valid (idempotency_key s).
End MissionCreate.

Module MissionTeamUpdate.
Record t := {
  team_template_revision_id : uuid;
  expected_version : Z;
  idempotency_key : string;
}.
Definition valid (s : t) : bool :=
  Z.leb 1 (expected_version s) && idempotency_key_valid (idempotency_key s).
End MissionTeamUpdate.

Module DirectiveUpdate.
Record t := {
  objective : string;
  constraints : list string;
  expected_version : Z;
  idempotency_key : string;
}.
Definition valid (s : t) : bool :=
  len_between 1 8000 (objective s) && constraints_valid (constraints s)
  && Z.leb 1 (expected_version s) && idempotency_key_valid (idempotency_key s).
End DirectiveUpdate.

Module MissionMessageCreate.
Record t := {
  body : string;
  expected_version : Z;
  idempotency_key : string;
  allow_paid_inference : bool;
}.
Definition valid (s : t) : bool :=
  len_between 1 8000 (body s) && Z.leb 1 (expected_version s)
  && idempotency_key_valid (idempotency_key s).
End MissionMessageCreate.

Module MissionAutonomyUpdate.
Record t := { enabled : bool; expected_version : Z; idempotency_key : string }.
Definition valid (s : t) : bool :=
  Z.leb 1 (expected_version s) && idempotency_key_valid (idempotency_key s).
End MissionAutonomyUpdate.

Module MissionControlRequest.
Record t := {
  scope : ControlScope.t;
  action : ControlAction.t;
  instruction : option string;
  limits : option MissionResourceLimits.t;
  expected_version : Z;
  idempotency_key : string;
}.
Definition instruction_matches_action (s : t) : bool :=
  Bool.eqb (bool_decide (action s = ControlAction.safe_point)) (bool_decide (is_Some (instruction s))).
Definition valid (s : t) : bool :=
  opt_all (len_between 1 2000) (instruction s)
  && opt_all MissionResourceLimits.valid (limits s)
  && Z.leb 1 (expected_version s) && idempotency_key_valid (idempotency_key s)
  && instruction_matches_action s.
End MissionControlRequest.

Module WorkItemStart.
Record t := { expected_mission_version : Z; idempotency_key : string }.
Definition valid (s : t) : bool :=
  Z.leb 1 (expected_mission_version s) && idempotency_key_valid (idempotency_key s).
End WorkItemStart.

(** ** Decisions *)

Module WorkItemProposal.
Record t := {
  key : string;
  title : string;
  objective : string;
  acceptance_criteria : list string;
  priority : Z;
  dependencies : list string;
}.
Definition valid (s : t) : bool :=
  WorkItemKey_valid (key s) && len_between 1 240 (title s) && len_between 1 4000 (objective s)
  && forallb ConstraintText_valid (acceptance_criteria s)
  && size_between 1 20 (acceptance_criteria s) && z_between (-100) 100 (priority s)
  && forallb WorkItemKey_valid (dependencies s) && size_between 0 20 (dependencies s).
End WorkItemProposal.
Notation proposal := WorkItemProposal.t (only parsing).

(** What a cycle check may raise; [Depth] is Python's [RecursionError]. *)
Inductive visit_error : Set := Cyclic | Depth.

(** [visit]; the state is ([visiting], [visited]). *)
Section visit.
Context `{SetOrder}.

Definition edges_of (items : list proposal) : list (string * list string) :=
  (λ i, (WorkItemProposal.key i, fromkeys (WorkItemProposal.dependencies i))) <$> items.

Fixpoint visit (fuel : nat) (edges : list (string * list string)) (st : list string * list string)
    (key : string) : res visit_error (list string * list string) :=
  match fuel with
  | O => Err Depth
  | S fuel =>
      if bool_decide (key ∈ st.1) then Err Cyclic
      else if bool_decide (key ∈ st.2) then Ok st
      else
        st ← foldM (visit fuel edges) (key :: st.1, st.2)
               (set_order (default [] (dict_get key edges)));
        Ok (filter (λ k, k ≠ key) st.1, key :: st.2)
  end.

(** The loop over [keys]. *)
Definition visit_all (items : list proposal) : res visit_error (list string * list string) :=
  foldM (visit (S (length items)) (edges_of items)) ([], [])
    (set_order (fromkeys (WorkItemProposal.key <$> items))).
End visit.

Module ManagerDecision.
Record t := {
  action : ManagerAction.t;
  message : string;
  work_items : list WorkItemProposal.t;
  lifecycle : MissionLifecycle.t;
  scheduled_wakeup_at : option Z;
}.
(** The literals of [lifecycle] *)
Definition lifecycles : list MissionLifecycle.t :=
  [MissionLifecycle.active; MissionLifecycle.idle; MissionLifecycle.waiting_for_approval;
   MissionLifecycle.blocked; MissionLifecycle.completed].

(** [bounded_action]: the text of the [ValueError] *)
Definition bounded_action `{SetOrder} (d : t) : res string unit :=
  let keys := WorkItemProposal.key <$> work_items d in
  _ ← raise_if (negb (Bool.eqb (bool_decide (action d = ManagerAction.propose))
                       (negb (Nat.eqb (length (work_items d)) 0))))
        "only propose actions may contain work items";
  _ ← raise_if (bool_decide (action d = ManagerAction.complete)
                && negb (bool_decide (lifecycle d = MissionLifecycle.completed)))
        "complete action requires completed lifecycle";
  _ ← raise_if (negb (all_distinct keys)) "work item keys must be unique";
  _ ← raise_if (negb (forallb (λ i, forallb (λ k, bool_decide (k ∈ keys)) (WorkItemProposal.dependencies i))
                       (work_items d)))
        "proposal dependencies must stay inside this proposal";
  match visit_all (work_items d) with
  | Ok _ => Ok tt
  | Err Cyclic => Err "work item dependencies must be acyclic"
  | Err Depth => Err "RecursionError"
  end.

Definition valid `{SetOrder} (d : t) : bool :=
  len_between 1 8000 (message d) && forallb WorkItemProposal.valid (work_items d)
  && size_between 0 8 (work_items d) && bool_decide (lifecycle d ∈ lifecycles)
  && is_ok (bounded_action d).
End ManagerDecision.

(** ** What the validator accepts *)

(** [a] waits for [b] in a proposal. *)
Definition waits_for (items : list proposal) (a b : string) : Prop :=
  ∃ i, i ∈ items ∧ WorkItemProposal.key i = a ∧ b ∈ WorkItemProposal.dependencies i.

Record decision_ok (d : ManagerDecision.t) : Prop := {
  do_propose : ManagerDecision.action d = ManagerAction.propose ↔ ManagerDecision.work_items d ≠ [];
  do_complete : ManagerDecision.action d = ManagerAction.complete →
    ManagerDecision.lifecycle d = MissionLifecycle.completed;
  do_keys : NoDup (WorkItemProposal.key <$> ManagerDecision.work_items d);
  do_inside : ∀ a b, waits_for (ManagerDecision.work_items d) a b →
    b ∈ WorkItemProposal.key <$> ManagerDecision.work_items d;
  do_acyclic : ∀ a, ¬ tc (waits_for (ManagerDecision.work_items d)) a a;
}.

Section acyclic.
Context `{SetOrderLaws} (items : list proposal).
Hypothesis Hkeys : NoDup (WorkItemProposal.key <$> items).
Hypothesis Hinside : ∀ a b, waits_for items a b → b ∈ WorkItemProposal.key <$> items.

Notation keys := (WorkItemProposal.key <$> items).
Notation waits := (waits_for items).
(** Nothing infinite leaves [k]. *)
Notation safe k := (Acc (flip waits) k).

Lemma safe_acyclic k : safe k → ¬ tc waits k k.
Proof using.
  clear Hkeys Hinside.
  induction 1 as [k _ IH]. intros Hc. inversion Hc as [? ? Hk|? y ? Hk Hr]; subst.
  - by apply (IH k).
  - apply (IH y Hk). eapply tc_r; [exact Hr|exact Hk].
Qed.

Lemma edges_waits k b :
  b ∈ set_order (default [] (dict_get k (edges_of items))) ↔ waits k b.
Proof using All.
  rewrite set_order_perm. split.
  - destruct (dict_get k (edges_of items)) as [l|] eqn:Hg; simpl; [|by intros ?%elem_of_nil].
    apply dict_get_elem in Hg. apply list_elem_of_fmap in Hg as (i & [= -> ->] & Hi).
    rewrite elem_of_fromkeys. by exists i.
  - intros (i & Hi & <- & Hb).
    assert (dict_get (WorkItemProposal.key i) (edges_of items)
            = Some (fromkeys (WorkItemProposal.dependencies i))) as ->.
    { apply dict_get_Some.
      - unfold dict_ok, edges_of. rewrite <-list_fmap_compose. exact Hkeys.
      - apply list_elem_of_fmap. by exists i. }
    simpl. by apply elem_of_fromkeys.
Qed.

(** A visit that succeeds leaves [visiting] as it was, and everything visited is safe. *)
Definition grows (st st' : list string * list string) : Prop :=
  st'.1 = st.1 ∧ st.2 ⊆ st'.2 ∧ (∀ v, v ∈ st'.2 → safe v).

Lemma visit_loop fuel ds st st' :
  (∀ st k st', (∀ v, v ∈ st.2 → safe v) → visit fuel (edges_of items) st k = Ok st' →
     grows st st' ∧ k ∈ st'.2) →
  (∀ v, v ∈ st.2 → safe v) →
  foldM (visit fuel (edges_of items)) st ds = Ok st' →
  grows st st' ∧ ds ⊆ st'.2.
Proof using.
  clear Hkeys Hinside.
  intros IH. revert st. induction ds as [|d ds IHds]; intros st Hsafe; simpl.
  - intros [= <-]. split; [by split_and!|]. by intros ? ?%elem_of_nil.
  - intros (st1 & Hv & Hl)%res_bind_ok. destruct (IH _ _ _ Hsafe Hv) as [(Hf & Hsub & Hs) Hd].
    destruct (IHds _ Hs Hl) as [(Hf' & Hsub' & Hs') Hds]. split; [split_and!; [congruence| |done]|].
    + by etrans.
    + intros x [->|Hx]%elem_of_cons; auto.
Qed.

Lemma visit_safe fuel st k st' :
  (∀ v, v ∈ st.2 → safe v) → visit fuel (edges_of items) st k = Ok st' →
  grows st st' ∧ k ∈ st'.2.
Proof using All.
  revert st k st'. induction fuel as [|fuel IH]; intros st k st' Hsafe; simpl; [done|].
  case_bool_decide as Hv; [done|]. case_bool_decide as Hd.
  { intros [= <-]. split; [by split_and!|done]. }
  intros (st1 & Hl & [= <-])%res_bind_ok.
  apply visit_loop in Hl as [(Hf & Hsub & Hs) Hds]; [|exact IH|exact Hsafe].
  simpl in *. split; [split_and!|by left]; simpl.
  - rewrite Hf, filter_cons_False by (intros Hn; by apply Hn).
    clear -Hv. induction st.1 as [|x l IH]; [done|]. apply not_elem_of_cons in Hv as [Hx Hl].
    rewrite filter_cons_True by done. f_equal. by apply IH.
  - set_solver.
  - intros v [->|Hx]%elem_of_cons; [|by apply Hs].
    constructor. intros b Hb. apply Hs, Hds. by apply edges_waits.
Qed.

(** The keys being visited form a path to the current one. *)
Definition on_path (visiting : list string) (k : string) : Prop :=
  NoDup visiting ∧ visiting ⊆ keys ∧ k ∈ keys ∧ ∀ v, v ∈ visiting → tc waits v k.

Lemma foldM_error {E A B} (f : B → A → res E B) (P : B → Prop) l acc e :
  P acc → (∀ b x b', x ∈ l → P b → f b x = Ok b' → P b') → foldM f acc l = Err e →
  ∃ b x, x ∈ l ∧ P b ∧ f b x = Err e.
Proof using.
  clear. revert acc. induction l as [|x l IH]; intros acc Hacc Hstep; simpl; [done|].
  destruct (f acc x) as [b'|e'] eqn:Hf; simpl.
  - intros Hl. destruct (IH b') as (b & y & Hy & Hb & He); [|set_solver|done|].
    + eapply Hstep; [by left|exact Hacc|exact Hf].
    + exists b, y. split_and!; [by right|done..].
  - intros [= ->]. exists acc, x. split_and!; [by left|done..].
Qed.

(** A visit fails only at a cycle: its fuel is enough. *)
Lemma visit_fails fuel st k e :
  on_path st.1 k → (∀ v, v ∈ st.2 → safe v) → (length items < fuel + length st.1)%nat →
  visit fuel (edges_of items) st k = Err e → e = Cyclic ∧ ∃ a, tc waits a a.
Proof using All.
  revert st k. induction fuel as [|fuel IH]; intros st k (Hnd & Hin & Hk & Hpath) Hsafe Hfuel; simpl.
  { pose proof (submseteq_length _ _ (NoDup_submseteq _ _ Hnd Hin)) as Hlen.
    rewrite length_fmap in Hlen. lia. }
  case_bool_decide as Hv; [intros [= <-]; eauto|]. case_bool_decide as Hd; [done|].
  destruct (foldM _ _ _) as [st1|e'] eqn:Hl; simpl; [done|]. intros [= ->].
  eapply (foldM_error _ (λ b, b.1 = k :: st.1 ∧ ∀ v, v ∈ b.2 → safe v)) in Hl
    as (b & d & Hd' & (Hb & Hs) & He).
  - apply edges_waits in Hd'. refine (IH b d _ Hs _ He); rewrite Hb.
    + split_and!; [by constructor|set_solver|by eapply Hinside|].
      intros v [->|Hv']%elem_of_cons; [by apply tc_once|].
      eapply tc_r; [by apply Hpath|exact Hd'].
    + simpl. lia.
  - by split.
  - intros b x b' _ [Hb Hs] Hx. destruct (visit_safe _ _ _ _ Hs Hx) as [(Hf & _ & Hs') _].
    split; [congruence|done].
Qed.

(** The validator's depth-first search decides acyclicity. *)
Lemma visit_all_spec :
  match visit_all items with
  | Ok _ => ∀ a, ¬ tc waits a a
  | Err e => e = Cyclic ∧ ∃ a, tc waits a a
  end.
Proof using All.
  unfold visit_all. destruct (foldM _ _ _) as [st|e] eqn:Hl.
  - apply visit_loop in Hl as [(_ & _ & Hs) Hds]; [|apply visit_safe|by intros ? ?%elem_of_nil].
    intros a Ha. apply (safe_acyclic a); [|done]. apply Hs, Hds.
    rewrite set_order_perm, elem_of_fromkeys.
    assert (∃ b, waits a b) as (b & i & Hi & <- & _) by (inversion Ha; eauto).
    apply list_elem_of_fmap. eauto.
  - eapply (foldM_error _ (λ b, b.1 = [] ∧ ∀ v, v ∈ b.2 → safe v)) in Hl as (b & k & Hk & (Hb & Hs) & He).
    + refine (visit_fails _ b k _ _ Hs _ He); rewrite Hb; [|simpl; lia].
      rewrite set_order_perm, elem_of_fromkeys in Hk.
      split_and!; [constructor|set_solver|done|by intros ? ?%elem_of_nil].
    + split; [done|]. by intros ? ?%elem_of_nil.
    + intros b x b' _ [Hb Hs] Hx. destruct (visit_safe _ _ _ _ Hs Hx) as [(Hf & _ & Hs') _].
      split; [congruence|done].
Qed.
End acyclic.

Lemma inside_spec (items : list proposal) :
  forallb (λ i, forallb (λ k, bool_decide (k ∈ WorkItemProposal.key <$> items))
                  (WorkItemProposal.dependencies i)) items = true ↔
  ∀ a b, waits_for items a b → b ∈ WorkItemProposal.key <$> items.
Proof.
  rewrite forallb_forall. setoid_rewrite forallb_forall. split.
  - intros Hall a b (i & Hi & _ & Hb).
    eapply bool_decide_eq_true, Hall; [by apply list_elem_of_In|by apply list_elem_of_In].
  - intros Hall i Hi%list_elem_of_In b Hb%list_elem_of_In. apply bool_decide_eq_true.
    apply (Hall (WorkItemProposal.key i)). by exists i.
Qed.

(** The outcome of the validator, and what it means. *)
Lemma bounded_action_cases `{SetOrderLaws} d :
  (ManagerDecision.bounded_action d = Ok tt ∧ decision_ok d)
  ∨ ∃ e, ManagerDecision.bounded_action d = Err e ∧ e ≠ "RecursionError" ∧ ¬ decision_ok d.
Proof.
  unfold ManagerDecision.bounded_action.
  set (items := ManagerDecision.work_items d).
  assert (Nat.eqb (length items) 0 = bool_decide (items = [])) as -> by by destruct items.
  assert (∀ e, e ≠ "RecursionError" → ¬ decision_ok d → ∀ m, (Err e ≫= (λ _ : unit, m)) = Ok tt ∧ decision_ok d
            ∨ ∃ e', (Err e ≫= (λ _ : unit, m)) = Err e' ∧ e' ≠ "RecursionError" ∧ ¬ decision_ok d)
    as Hfail by (intros e He Hn m; right; by exists e).
  destruct (negb (Bool.eqb _ _)) eqn:Hp; simpl raise_if.
  { apply Hfail; [done|]. intros [Hd _ _ _ _]. fold items in Hd.
    destruct (bool_decide (items = [])) eqn:He;
      apply bool_decide_eq_true in He || apply bool_decide_eq_false in He;
      destruct (bool_decide (ManagerDecision.action d = _)) eqn:Ha; try done;
      apply bool_decide_eq_true in Ha || apply bool_decide_eq_false in Ha; tauto. }
  assert (ManagerDecision.action d = ManagerAction.propose ↔ items ≠ []) as Hd.
  { destruct (bool_decide (items = [])) eqn:He;
      apply bool_decide_eq_true in He || apply bool_decide_eq_false in He;
      destruct (bool_decide (ManagerDecision.action d = _)) eqn:Ha; try done;
      apply bool_decide_eq_true in Ha || apply bool_decide_eq_false in Ha; tauto. }
  clear Hp. simpl mbind at 1 5.
  destruct (bool_decide (ManagerDecision.action d = ManagerAction.complete) && _) eqn:Hc; simpl raise_if.
  { apply andb_true_iff in Hc as [Hc%bool_decide_eq_true Hl%negb_true_iff%bool_decide_eq_false].
    apply Hfail; [done|]. intros [_ Hco _ _ _]. auto. }
  assert (ManagerDecision.action d = ManagerAction.complete →
          ManagerDecision.lifecycle d = MissionLifecycle.completed) as Hco.
  { intros Ha. rewrite bool_decide_eq_true_2 in Hc by done.
    by apply negb_false_iff, bool_decide_eq_true in Hc. }
  unfold all_distinct. destruct (bool_decide (NoDup _)) eqn:Hk; simpl raise_if;
    apply bool_decide_eq_true in Hk || apply bool_decide_eq_false in Hk;
    [|apply Hfail; [done|]; by intros [_ _ Hn _ _]].
  destruct (forallb _ items) eqn:Hi; simpl raise_if;
    [|apply Hfail; [done|]; intros [_ _ _ Hin _]; apply inside_spec in Hin; fold items in Hin; congruence].
  pose proof (proj1 (inside_spec items) Hi) as Hin. pose proof (visit_all_spec items Hk Hin) as Hv.
  simpl. destruct (visit_all items) as [?|e]; [by left|].
  destruct Hv as [-> (a & Ha)]. right. eexists. split_and!; [done..|].
  intros [_ _ _ _ Hac]. by destruct (Hac a).
Qed.

Lemma bounded_action_sound `{SetOrderLaws} d :
  ManagerDecision.bounded_action d = Ok tt → decision_ok d.
Proof. destruct (bounded_action_cases d) as [[_ ?]|(e & He & _)]; [done|congruence]. Qed.

(** The validator of a manager's decision accepts exactly the decisions that
propose work items just when the action is propose, with distinct keys, dependencies
among them and without a cycle, and that declare a mission complete only with the
completed lifecycle; its depth-first search never runs out of depth. *)
Theorem bounded_action_spec `{SetOrderLaws} d :
  ManagerDecision.bounded_action d ≠ Err "RecursionError" ∧
  (ManagerDecision.bounded_action d = Ok tt ↔ decision_ok d).
Proof.
  destruct (bounded_action_cases d) as [[-> Hok]|(e & -> & He & Hn)]; [done|].
  split; [congruence|]. by split.
Qed.
