(* ===== verification/Database.v ===== *)
(** * Control-plane tables and their events

The rows of [packages/persistence/src/jarvis_persistence/models.py] that run
ownership and run commands read and write, with the columns those operations
use, and [RunOwnership.event] of
[orchestrator/app/jarvis_orchestrator/runtime/ownership.py].

A transaction ([sessions.begin()]) is a function from the tables to a result
with new tables: an exception rolls back, so an error carries no tables.  All
these transactions first lock the event counter row ([lock_events]), which
serialises them.  Time is a number of microseconds; each reading of the clock is
an argument. *)
From S2P Require Import Prelude Enums PyJson PyDecimal Registry MissionContracts.
Local Open Scope Z_scope.
Local Open Scope stdpp_scope.

Module RunModel.
(** [mode] is ["demo"] or ["real"]. *)
Record t := {
  id : uuid;
  job_id : uuid;
  run_number : Z;
  parent_run_id : option uuid;
  workflow_version_id : uuid;
  config_snapshot_id : uuid;
  langgraph_thread_id : string;
  status : RunStatus.t;
  desired_state : DesiredRunState.t;
  priority : Z;
  mode : string;
  runtime_json : jobj;
  claimable_at : Z;
  created_at : Z;
  version : Z;
}.

(** Attribute assignments. *)
Definition with_status (s : RunStatus.t) (r : t) : t :=
  Build_t (id r) (job_id r) (run_number r) (parent_run_id r) (workflow_version_id r)
    (config_snapshot_id r) (langgraph_thread_id r) s (desired_state r) (priority r) (mode r)
    (runtime_json r) (claimable_at r) (created_at r) (version r).
Definition with_desired (d : DesiredRunState.t) (r : t) : t :=
  Build_t (id r) (job_id r) (run_number r) (parent_run_id r) (workflow_version_id r)
    (config_snapshot_id r) (langgraph_thread_id r) (status r) d (priority r) (mode r)
    (runtime_json r) (claimable_at r) (created_at r) (version r).
Definition with_runtime (j : jobj) (r : t) : t :=
  Build_t (id r) (job_id r) (run_number r) (parent_run_id r) (workflow_version_id r)
    (config_snapshot_id r) (langgraph_thread_id r) (status r) (desired_state r) (priority r)
    (mode r) j (claimable_at r) (created_at r) (version r).
Definition with_claimable (z : Z) (r : t) : t :=
  Build_t (id r) (job_id r) (run_number r) (parent_run_id r) (workflow_version_id r)
    (config_snapshot_id r) (langgraph_thread_id r) (status r) (desired_state r) (priority r)
    (mode r) (runtime_json r) z (created_at r) (version r).
Definition bump (r : t) : t :=
  Build_t (id r) (job_id r) (run_number r) (parent_run_id r) (workflow_version_id r)
    (config_snapshot_id r) (langgraph_thread_id r) (status r) (desired_state r) (priority r)
    (mode r) (runtime_json r) (claimable_at r) (created_at r) (version r + 1).
End RunModel.

Module RunLeaseModel.
Record t := {
  run_id : uuid;
  owner_instance_id : string;
  generation : Z;
  acquired_at : Z;
  heartbeat_at : option Z;
  expires_at : Z;
  released_at : option Z;
}.
Definition with_expiry (e : Z) (l : t) : t :=
  Build_t (run_id l) (owner_instance_id l) (generation l) (acquired_at l) (heartbeat_at l) e
    (released_at l).
Definition with_heartbeat (h : Z) (l : t) : t :=
  Build_t (run_id l) (owner_instance_id l) (generation l) (acquired_at l) (Some h) (expires_at l)
    (released_at l).
Definition with_release (r : Z) (l : t) : t :=
  Build_t (run_id l) (owner_instance_id l) (generation l) (acquired_at l) (heartbeat_at l)
    (expires_at l) (Some r).
End RunLeaseModel.

Module RunCommandModel.
Record t := {
  id : uuid;
  run_id : uuid;
  sequence : Z;
  kind : RunCommandKind.t;
  status : CommandStatus.t;
  payload_json : jobj;
  applied_at : option Z;
}.
Definition settle (s : CommandStatus.t) (now : Z) (c : t) : t :=
  Build_t (id c) (run_id c) (sequence c) (kind c) s (payload_json c) (Some now).
End RunCommandModel.

Module OrchestratorInstanceModel.
Record t := { started_at : Z; heartbeat_at : Z; draining : bool }.
End OrchestratorInstanceModel.

Module RecoveryGenerationModel.
Record t := { generation : Z; automatic_dispatch_enabled : bool }.
End RecoveryGenerationModel.

(** A node execution, with the columns by which an effect finds it. *)
Module NodeExecutionModel.
Record t := { id : uuid; run_id : uuid; input_summary : option string }.
End NodeExecutionModel.

(** [task_attempt_id] stays [None]: only the effect ledger prepares effects. *)
Module EffectModel.
Record t := {
  id : uuid;
  run_id : uuid;
  node_execution_id : option uuid;
  kind : string;
  idempotency_key : string;
  request_digest : string;
  request_json : jobj;
  status : EffectStatus.t;
  fence_generation : Z;
  external_id : option string;
  result_json : option jobj;
  dispatched_at : option Z;
  completed_at : option Z;
}.

(** Attribute assignments. *)
Definition with_request (n : option uuid) (j : jobj) (e : t) : t :=
  Build_t (id e) (run_id e) n (kind e) (idempotency_key e) (request_digest e) j (status e)
    (fence_generation e) (external_id e) (result_json e) (dispatched_at e) (completed_at e).
Definition with_generation (g : Z) (e : t) : t :=
  Build_t (id e) (run_id e) (node_execution_id e) (kind e) (idempotency_key e) (request_digest e)
    (request_json e) (status e) g (external_id e) (result_json e) (dispatched_at e)
    (completed_at e).
Definition with_status (s : EffectStatus.t) (e : t) : t :=
  Build_t (id e) (run_id e) (node_execution_id e) (kind e) (idempotency_key e) (request_digest e)
    (request_json e) s (fence_generation e) (external_id e) (result_json e) (dispatched_at e)
    (completed_at e).
Definition with_dispatch (identity : string) (now : Z) (e : t) : t :=
  Build_t (id e) (run_id e) (node_execution_id e) (kind e) (idempotency_key e) (request_digest e)
    (request_json e) (status e) (fence_generation e) (Some identity) (result_json e) (Some now)
    (completed_at e).
Definition with_result (r : jobj) (e : t) : t :=
  Build_t (id e) (run_id e) (node_execution_id e) (kind e) (idempotency_key e) (request_digest e)
    (request_json e) (status e) (fence_generation e) (external_id e) (Some r) (dispatched_at e)
    (completed_at e).
Definition with_completion (now : Z) (e : t) : t :=
  Build_t (id e) (run_id e) (node_execution_id e) (kind e) (idempotency_key e) (request_digest e)
    (request_json e) (status e) (fence_generation e) (external_id e) (result_json e)
    (dispatched_at e) (Some now).
End EffectModel.

(** An event as it is handed to the writer, with the run of its scope. *)
Module Event.
Record t := { run_id : option uuid; name : string; payload : jobj }.
End Event.

(** A configuration revision, with [spec_json.get("spec")]. *)
Module ConfigurationRevisionModel.
Record t := { configuration_id : uuid; spec : option json }.
End ConfigurationRevisionModel.

Module TaskModel.
Record t := { run_id : uuid }.
End TaskModel.

Module TaskAttemptModel.
Record t := { task_id : uuid }.
End TaskAttemptModel.

Module WorkerSlotModel.
Record t := {
  id : uuid;
  worker_id : uuid;
  physical_resource_id : string;
  slot_number : Z;
  generation : Z;
}.
Definition bump (s : t) : t :=
  Build_t (id s) (worker_id s) (physical_resource_id s) (slot_number s) (generation s + 1).
End WorkerSlotModel.

(** [token_hash], the digest of random bytes that nothing reads, is left out. *)
Module WorkerLeaseModel.
Record t := {
  id : uuid;
  slot_id : uuid;
  worker_revision_id : uuid;
  run_id : uuid;
  task_attempt_id : uuid;
  owner_instance_id : string;
  generation : Z;
  run_generation : Z;
  acquired_at : Z;
  renewed_at : Z;
  expires_at : Z;
  released_at : option Z;
}.
Definition with_renewal (now expiry : Z) (l : t) : t :=
  Build_t (id l) (slot_id l) (worker_revision_id l) (run_id l) (task_attempt_id l)
    (owner_instance_id l) (generation l) (run_generation l) (acquired_at l) now expiry
    (released_at l).
Definition with_release (now : Z) (l : t) : t :=
  Build_t (id l) (slot_id l) (worker_revision_id l) (run_id l) (task_attempt_id l)
    (owner_instance_id l) (generation l) (run_generation l) (acquired_at l) (renewed_at l)
    (expires_at l) (Some now).
End WorkerLeaseModel.

(** The columns that acquisition assigns. *)
Module WorkerAssignmentModel.
Record t := {
  task_attempt_id : uuid;
  status : string;
  selected_worker_revision_id : option uuid;
  worker_lease_id : option uuid;
  queued_reason : option string;
}.
End WorkerAssignmentModel.

(** The tables of worker capacity. *)
Module WorkerTables.
Record t := {
  revisions : gmap uuid ConfigurationRevisionModel.t;
  tasks : gmap uuid TaskModel.t;
  attempts : gmap uuid TaskAttemptModel.t;
  slots : list WorkerSlotModel.t;
  worker_leases : list WorkerLeaseModel.t;
  assignments : list WorkerAssignmentModel.t;
}.
Definition empty : t := Build_t ∅ ∅ ∅ [] [] [].
Definition set_slots (l : list WorkerSlotModel.t) (w : t) : t :=
  Build_t (revisions w) (tasks w) (attempts w) l (worker_leases w) (assignments w).
Definition set_worker_leases (l : list WorkerLeaseModel.t) (w : t) : t :=
  Build_t (revisions w) (tasks w) (attempts w) (slots w) l (assignments w).
Definition set_assignments (l : list WorkerAssignmentModel.t) (w : t) : t :=
  Build_t (revisions w) (tasks w) (attempts w) (slots w) (worker_leases w) l.
End WorkerTables.

Module ModelCallModel.
Record t := {
  id : uuid;
  profile_revision_id : uuid;
  provider_revision_id : uuid;
  route_revision_id : option uuid;
  run_id : option uuid;
  management_turn_id : option uuid;
  correlation_id : string;
  idempotency_key : string;
  record_json : jobj;
}.
End ModelCallModel.

(** Stored under [call_id].  The columns of type [Numeric(20, 10)] round what is read
back; nothing computes with them. *)
Module ModelBudgetGrantModel.
Record t := {
  run_id : uuid;
  route_revision_id : option uuid;
  profile_revision_id : uuid;
  provider_revision_id : uuid;
  request_digest : string;
  policy_digest : string;
  decision : Decision3.t;
  reasons_json : list string;
  estimated_cost : option decimal;
  run_spend_before : option decimal;
}.
End ModelBudgetGrantModel.

(** Stored under [call_id]. *)
Module ModelResponseReceiptModel.
Record t := {
  run_id : option uuid;
  management_turn_id : option uuid;
  request_digest : string;
  response_digest : string;
  response_json : json;
}.
End ModelResponseReceiptModel.

(** A manager's turn.  [wakeup_id] is unique. *)
Module ManagementTurnModel.
Record t := {
  id : uuid;
  mission_id : uuid;
  input_message_id : uuid;
  directive_version : Z;
  team_version_id : uuid;
  wakeup_id : option uuid;
  source_event_cursor : option Z;
  input_snapshot_json : jobj;
  status : TurnStatus.t;
  mode : string;
  allow_paid_inference : bool;
  model_call_id : option uuid;
  response_json : option json;
  failure_code : option string;
  claimable_at : Z;
  lease_until : option Z;
  claimed_by : option string;
  attempt_count : Z;
  created_at : Z;
  completed_at : option Z;
}.

(** Attribute assignments: a claim, a requeue, an outcome and the call's identity. *)
Definition claimed (owner : string) (lease : Z) (s : t) : t :=
  Build_t (id s) (mission_id s) (input_message_id s) (directive_version s) (team_version_id s)
    (wakeup_id s) (source_event_cursor s) (input_snapshot_json s) TurnStatus.running (mode s)
    (allow_paid_inference s) (model_call_id s) (response_json s) (failure_code s)
    (claimable_at s) (Some lease) (Some owner) (attempt_count s + 1) (created_at s)
    (completed_at s).
Definition requeued (claimable attempts : Z) (s : t) : t :=
  Build_t (id s) (mission_id s) (input_message_id s) (directive_version s) (team_version_id s)
    (wakeup_id s) (source_event_cursor s) (input_snapshot_json s) TurnStatus.queued (mode s)
    (allow_paid_inference s) (model_call_id s) (response_json s) (failure_code s)
    claimable None None attempts (created_at s) (completed_at s).
Definition decided (status : TurnStatus.t) (response : json) (now : Z) (s : t) : t :=
  Build_t (id s) (mission_id s) (input_message_id s) (directive_version s) (team_version_id s)
    (wakeup_id s) (source_event_cursor s) (input_snapshot_json s) status (mode s)
    (allow_paid_inference s) (model_call_id s) (Some response) (failure_code s)
    (claimable_at s) (lease_until s) (claimed_by s) (attempt_count s) (created_at s) (Some now).
Definition failed (code : string) (now : Z) (s : t) : t :=
  Build_t (id s) (mission_id s) (input_message_id s) (directive_version s) (team_version_id s)
    (wakeup_id s) (source_event_cursor s) (input_snapshot_json s) TurnStatus.failed (mode s)
    (allow_paid_inference s) (model_call_id s) (response_json s) (Some code)
    (claimable_at s) (lease_until s) (claimed_by s) (attempt_count s) (created_at s) (Some now).
Definition with_call (call : uuid) (s : t) : t :=
  Build_t (id s) (mission_id s) (input_message_id s) (directive_version s) (team_version_id s)
    (wakeup_id s) (source_event_cursor s) (input_snapshot_json s) (status s) (mode s)
    (allow_paid_inference s) (Some call) (response_json s) (failure_code s)
    (claimable_at s) (lease_until s) (claimed_by s) (attempt_count s) (created_at s)
    (completed_at s).
End ManagementTurnModel.

(** The tables of model calls. *)
Module CallTables.
Record t := {
  model_calls : list ModelCallModel.t;
  grants : gmap uuid ModelBudgetGrantModel.t;
  receipts : gmap uuid ModelResponseReceiptModel.t;
  management_turns : gmap uuid ManagementTurnModel.t;
}.
Definition empty : t := Build_t [] ∅ ∅ ∅.
Definition add_call (c : ModelCallModel.t) (a : t) : t :=
  Build_t (model_calls a ++ [c]) (grants a) (receipts a) (management_turns a).
Definition put_grant (i : uuid) (g : ModelBudgetGrantModel.t) (a : t) : t :=
  Build_t (model_calls a) (<[i := g]> (grants a)) (receipts a) (management_turns a).
Definition put_receipt (i : uuid) (r : ModelResponseReceiptModel.t) (a : t) : t :=
  Build_t (model_calls a) (grants a) (<[i := r]> (receipts a)) (management_turns a).
Definition put_turn (turn : ManagementTurnModel.t) (a : t) : t :=
  Build_t (model_calls a) (grants a) (receipts a)
    (<[ManagementTurnModel.id turn := turn]> (management_turns a)).
End CallTables.

(** The tables.  [migrated]: the event counter row exists.  [workflow_versions]
holds the stored specifications, and [jobs] the job statuses. *)
Record db := {
  migrated : bool;
  runs : gmap uuid RunModel.t;
  leases : list RunLeaseModel.t;
  commands : list RunCommandModel.t;
  jobs : gmap uuid JobStatus.t;
  workflow_versions : gmap uuid jobj;
  instances : gmap string OrchestratorInstanceModel.t;
  recovery : option RecoveryGenerationModel.t;
  node_executions : list NodeExecutionModel.t;
  effects : gmap uuid EffectModel.t;
  workers : WorkerTables.t;
  accounts : CallTables.t;
  events : list Event.t;
}.

Definition set_runs (m : gmap uuid RunModel.t) (d : db) : db :=
  Build_db (migrated d) m (leases d) (commands d) (jobs d) (workflow_versions d)
    (instances d) (recovery d) (node_executions d) (effects d) (workers d) (accounts d) (events d).
Definition set_leases (l : list RunLeaseModel.t) (d : db) : db :=
  Build_db (migrated d) (runs d) l (commands d) (jobs d) (workflow_versions d)
    (instances d) (recovery d) (node_executions d) (effects d) (workers d) (accounts d) (events d).
Definition set_commands (l : list RunCommandModel.t) (d : db) : db :=
  Build_db (migrated d) (runs d) (leases d) l (jobs d) (workflow_versions d)
    (instances d) (recovery d) (node_executions d) (effects d) (workers d) (accounts d) (events d).
Definition set_jobs (m : gmap uuid JobStatus.t) (d : db) : db :=
  Build_db (migrated d) (runs d) (leases d) (commands d) m (workflow_versions d)
    (instances d) (recovery d) (node_executions d) (effects d) (workers d) (accounts d) (events d).
Definition set_instances (m : gmap string OrchestratorInstanceModel.t) (d : db) : db :=
  Build_db (migrated d) (runs d) (leases d) (commands d) (jobs d) (workflow_versions d)
    m (recovery d) (node_executions d) (effects d) (workers d) (accounts d) (events d).
Definition set_effects (m : gmap uuid EffectModel.t) (d : db) : db :=
  Build_db (migrated d) (runs d) (leases d) (commands d) (jobs d) (workflow_versions d)
    (instances d) (recovery d) (node_executions d) m (workers d) (accounts d) (events d).
Definition set_events (l : list Event.t) (d : db) : db :=
  Build_db (migrated d) (runs d) (leases d) (commands d) (jobs d) (workflow_versions d)
    (instances d) (recovery d) (node_executions d) (effects d) (workers d) (accounts d) l.

Definition set_workers (w : WorkerTables.t) (d : db) : db :=
  Build_db (migrated d) (runs d) (leases d) (commands d) (jobs d) (workflow_versions d)
    (instances d) (recovery d) (node_executions d) (effects d) w (accounts d) (events d).

Definition set_accounts (c : CallTables.t) (d : db) : db :=
  Build_db (migrated d) (runs d) (leases d) (commands d) (jobs d) (workflow_versions d)
    (instances d) (recovery d) (node_executions d) (effects d) (workers d) c (events d).

(** A change to a row already read. *)
Definition put_run (r : RunModel.t) (d : db) : db := set_runs (<[RunModel.id r := r]> (runs d)) d.
Definition put_effect (e : EffectModel.t) (d : db) : db :=
  set_effects (<[EffectModel.id e := e]> (effects d)) d.

(** ** Events *)

(** Event types registered with a payload model ([event_registry.py]). *)
Definition payload_models : list string :=
  ["config.created"; "config.revised"; "config.validated"; "model.health_changed";
   "model.route_selected"; "auth.security_denied"; "auth.owner_password_reset";
   "auth.login_succeeded"; "auth.login_failed"; "auth.logout"; "auth.session_revoked";
   "auth.owner_bootstrapped"; "workflow.created"; "workflow.revised"; "workflow.validated";
   "workflow.published"; "workflow.archived"; "workflow.restored"].

(** [RunOwnership.event]: what it passes to the writer, whose normalization and
sequencing are not modelled. *)
Definition event (r : RunModel.t) (name : string) (data : jobj) (d : db) : db :=
  let payload :=
    if bool_decide (name ∈ payload_models) then data
    else dict_update [("status", JStr (RunStatus.value (RunModel.status r)))] data in
  set_events (events d ++ [Event.Build_t (Some (RunModel.id r)) name payload]) d.

(** [TERMINAL] *)
Definition TERMINAL : list RunStatus.t :=
  [RunStatus.COMPLETED; RunStatus.FAILED; RunStatus.BLOCKED; RunStatus.CANCELLED].

(** ** Well-formed tables *)

(** Rows are stored under their primary key. *)
Definition keyed (d : db) : Prop := ∀ i r, runs d !! i = Some r → RunModel.id r = i.

Lemma keyed_put_run r d : keyed d → keyed (put_run r d).
Proof.
  intros Hk i r' Hr. unfold put_run, set_runs in Hr; simpl in Hr.
  destruct (decide (i = RunModel.id r)) as [->|Hne].
  - rewrite lookup_insert_eq in Hr. by injection Hr as <-.
  - rewrite lookup_insert_ne in Hr by congruence. by apply Hk.
Qed.

Lemma event_leases r name data d : leases (event r name data d) = leases d.
Proof. done. Qed.
Lemma event_runs r name data d : runs (event r name data d) = runs d.
Proof. done. Qed.
Lemma event_effects r name data d : effects (event r name data d) = effects d.
Proof. done. Qed.
