(* ===== verification/Ownership.v ===== *)
(** * Run ownership

[RunOwnership] of [orchestrator/app/jarvis_orchestrator/runtime/ownership.py] and
[LeaseRepository.acquire] of
[packages/persistence/src/jarvis_persistence/repositories.py]: executors claim
runs under leases with increasing generations, and every authoritative
transaction is fenced by the lease it was started under.

[reachable_leases_ok] is the invariant of the lease table, [fenced_exclusive]
mutual exclusion over time ([gives_up] lists how a lease ends), [superseded_forever] that an executor that lost its run never
commits again, and [claim_selects] and [claim_progress] what is claimed and
when. *)
From S2P Require Import Prelude Enums PyJson Database.
Local Open Scope Z_scope.
Local Open Scope stdpp_scope.

Inductive own_error : Set :=
  | StaleExecutorError
  | NotMigrated
  | NotRegistered
  | DuplicateInstance
  | BadTTL
  | RunMissing
  | LeaseAssertion
  | ApplicationError (message : string).

(** A violated constraint, and the other built-in exceptions. *)
Definition integrity_error : own_error := ApplicationError "IntegrityError".
Definition python_error (name : string) : own_error := ApplicationError name.

Module RunFence.
Record t := { run_id : uuid; owner : string; generation : Z; recovery_generation : Z }.
End RunFence.

Definition lock_events (d : db) : res own_error unit :=
  if migrated d then Ok tt else Err NotMigrated.

(** ** [register] and [heartbeat] *)

Definition register (owner : string) (now : Z) (d : db) : res own_error db :=
  match instances d !! owner with
  | Some _ => Err DuplicateInstance
  | None =>
      Ok (set_instances (<[owner := OrchestratorInstanceModel.Build_t now now false]>
                           (instances d)) d)
  end.

Definition heartbeat (owner : string) (draining : bool) (now : Z) (d : db) : res own_error db :=
  match instances d !! owner with
  | None => Err NotRegistered
  | Some row =>
      Ok (set_instances
            (<[owner := OrchestratorInstanceModel.Build_t
                          (OrchestratorInstanceModel.started_at row) now
                          (OrchestratorInstanceModel.draining row || draining)]>
               (instances d)) d)
  end.

(** ** Queries on leases *)

Definition unreleased (l : RunLeaseModel.t) : bool :=
  bool_decide (RunLeaseModel.released_at l = None).

(** [released_at IS NULL AND expires_at > now] *)
Definition live (now : Z) (l : RunLeaseModel.t) : bool :=
  unreleased l && Z.ltb now (RunLeaseModel.expires_at l).

Definition of_run (i : uuid) (ls : list RunLeaseModel.t) : list RunLeaseModel.t :=
  filter (λ l, RunLeaseModel.run_id l = i) ls.

(** The unreleased lease of a run; the table allows one. *)
Definition active_lease (i : uuid) (ls : list RunLeaseModel.t) : option RunLeaseModel.t :=
  head (filter (λ l, unreleased l = true) (of_run i ls)).

(** [func.max(RunLeaseModel.generation)] *)
Definition max_generation (i : uuid) (ls : list RunLeaseModel.t) : option Z :=
  foldr (λ l acc, Some (match acc with
                        | Some g => Z.max (RunLeaseModel.generation l) g
                        | None => RunLeaseModel.generation l
                        end)) None (of_run i ls).

Definition row_is (i : uuid) (g : Z) (l : RunLeaseModel.t) : bool :=
  bool_decide (RunLeaseModel.run_id l = i) && bool_decide (RunLeaseModel.generation l = g).

(** The lease with a generation. *)
Definition find_lease (i : uuid) (g : Z) (ls : list RunLeaseModel.t) : option RunLeaseModel.t :=
  head (filter (λ l, row_is i g l = true) ls).

(** Assignments to the attributes of that lease. *)
Definition alter_lease (i : uuid) (g : Z) (f : RunLeaseModel.t → RunLeaseModel.t)
    (ls : list RunLeaseModel.t) : list RunLeaseModel.t :=
  (λ l, if row_is i g l then f l else l) <$> ls.

(** ** [LeaseRepository.acquire] *)

Definition acquire (run_id : uuid) (owner : string) (ttl now : Z) (d : db)
    : res own_error (option RunLeaseModel.t * db) :=
  if Z.leb ttl 0 then Err BadTTL
  else
    match runs d !! run_id with
    | None => Err RunMissing
    | Some _ =>
        let active := active_lease run_id (leases d) in
        match active with
        | Some a =>
            if Z.ltb now (RunLeaseModel.expires_at a) then
              if bool_decide (RunLeaseModel.owner_instance_id a = owner) then
                Ok (Some (RunLeaseModel.with_expiry (now + ttl) a),
                    set_leases (alter_lease run_id (RunLeaseModel.generation a)
                                  (RunLeaseModel.with_expiry (now + ttl)) (leases d)) d)
              else Ok (None, d)
            else
              let released := alter_lease run_id (RunLeaseModel.generation a)
                                (RunLeaseModel.with_release now) (leases d) in
              let generation := default 0 (max_generation run_id released) + 1 in
              let lease := RunLeaseModel.Build_t run_id owner generation now None (now + ttl) None in
              Ok (Some lease, set_leases (released ++ [lease]) d)
        | None =>
            let generation := default 0 (max_generation run_id (leases d)) + 1 in
            let lease := RunLeaseModel.Build_t run_id owner generation now None (now + ttl) None in
            Ok (Some lease, set_leases (leases d ++ [lease]) d)
        end
    end.

(** ** [claim] *)

Definition claimable_statuses : list RunStatus.t :=
  [RunStatus.QUEUED; RunStatus.CLAIMING; RunStatus.RUNNING; RunStatus.PAUSE_REQUESTED;
   RunStatus.CANCEL_REQUESTED].

Definition live_leases (now : Z) (d : db) : list RunLeaseModel.t :=
  filter (λ l, live now l = true) (leases d).

(** The [WHERE] clause of the claim. *)
Definition eligible (mode : option string) (now : Z) (d : db) (r : RunModel.t) : bool :=
  bool_decide (RunModel.status r ∈ claimable_statuses)
  && Z.leb (RunModel.claimable_at r) now
  && match mode with Some m => bool_decide (RunModel.mode r = m) | None => true end
  && negb (existsb (λ l, bool_decide (RunLeaseModel.run_id l = RunModel.id r))
             (live_leases now d)).

(** [ORDER BY priority DESC, claimable_at, created_at, id] *)
Definition claim_key (r : RunModel.t) : Z * (Z * (Z * uuid)) :=
  (- RunModel.priority r, (RunModel.claimable_at r, (RunModel.created_at r, RunModel.id r))).

(** The run to claim; [skip_locked] passes over rows that another transaction
has locked. *)
Definition select_run (mode : option string) (locked : uuid → bool) (now : Z) (d : db)
    : option RunModel.t :=
  head (sorted_key claim_key
    (filter (λ r, eligible mode now d r = true ∧ locked (RunModel.id r) = false)
       (map_to_list (runs d)).*2)).

(** The changes to a run that was just leased. *)
Definition claim_run (run : RunModel.t) (previous : option Z) (d : db) : RunModel.t * db :=
  let recovering := bool_decide (is_Some previous)
                    && negb (bool_decide (RunModel.status run = RunStatus.QUEUED)) in
  let run := RunModel.with_runtime
               (dict_update (RunModel.runtime_json run) [("recovering", JBool recovering)]) run in
  let d := if recovering
           then event run "run.recovering" [] (event run "lease.expired" [] d) else d in
  let run := RunModel.bump (RunModel.with_status RunStatus.CLAIMING run) in
  (run, event run "run.claimed" [] (put_run run d)).

(** [claim]; [now] and [now'] are the clock readings of the claim and of the
acquisition. *)
Definition claim (owner : string) (ttl : Z) (capacity : option Z) (mode : option string)
    (locked : uuid → bool) (now now' : Z) (d : db) : res own_error (option RunFence.t * db) :=
  _ ← lock_events d;
  match instances d !! owner, recovery d with
  | Some instance, Some rec =>
      if OrchestratorInstanceModel.draining instance
         || negb (RecoveryGenerationModel.automatic_dispatch_enabled rec)
         || match capacity with
            | Some c => Z.leb c (Z.of_nat (length (live_leases now d)))
            | None => false
            end
      then Ok (None, d)
      else
        match select_run mode locked now d with
        | None => Ok (None, d)
        | Some run =>
            let i := RunModel.id run in
            let previous := max_generation i (leases d) in
            acquired ← acquire i owner ttl now' d;
            match acquired with
            | (None, d) => Ok (None, d)
            | (Some lease, d) =>
                let g := RunLeaseModel.generation lease in
                let d := set_leases (alter_lease i g (RunLeaseModel.with_heartbeat now)
                                       (leases d)) d in
                let d := (claim_run run previous d).2 in
                Ok (Some (RunFence.Build_t i owner g (RecoveryGenerationModel.generation rec)), d)
            end
        end
  | _, _ => Ok (None, d)
  end.

(** ** [fenced] *)

(** The guard, on the rows it reads. *)
Definition authorized (f : RunFence.t) (now : Z) (run : RunModel.t) (lease : RunLeaseModel.t)
    (rec : RecoveryGenerationModel.t) : bool :=
  negb (bool_decide (RunModel.status run ∈ TERMINAL))
  && bool_decide (RunLeaseModel.owner_instance_id lease = RunFence.owner f)
  && bool_decide (RunLeaseModel.generation lease = RunFence.generation f)
  && Z.ltb now (RunLeaseModel.expires_at lease)
  && bool_decide (RecoveryGenerationModel.generation rec = RunFence.recovery_generation f)
  && RecoveryGenerationModel.automatic_dispatch_enabled rec.

(** A fenced transaction: the guard, the body, and the check that the lease did
not expire meanwhile.  [now] and [now'] are the two clock readings; the second
check sees the body's changes to the lease. *)
Definition fenced {A} (f : RunFence.t) (now now' : Z)
    (body : RunModel.t → db → res own_error (A * db)) (d : db) : res own_error (A * db) :=
  _ ← lock_events d;
  match runs d !! RunFence.run_id f, active_lease (RunFence.run_id f) (leases d), recovery d with
  | Some run, Some lease, Some rec =>
      if authorized f now run lease rec then
        r ← body run d;
        let lease' := default lease (find_lease (RunFence.run_id f) (RunFence.generation f)
                                       (leases r.2)) in
        if Z.leb (RunLeaseModel.expires_at lease') now' then Err StaleExecutorError else Ok r
      else Err StaleExecutorError
  | _, _, _ => Err StaleExecutorError
  end.

(** The body of [renew]. *)
Definition renew_in (f : RunFence.t) (ttl now_heartbeat now_expiry : Z) (_ : RunModel.t) (d : db)
    : res own_error (unit * db) :=
  match find_lease (RunFence.run_id f) (RunFence.generation f) (leases d) with
  | None => Err LeaseAssertion
  | Some _ =>
      Ok (tt, set_leases (alter_lease (RunFence.run_id f) (RunFence.generation f)
                (λ l, RunLeaseModel.with_expiry (now_expiry + ttl)
                        (RunLeaseModel.with_heartbeat now_heartbeat l)) (leases d)) d)
  end.

Definition renew (f : RunFence.t) (ttl now now_heartbeat now_expiry now' : Z) (d : db)
    : res own_error (unit * db) :=
  fenced f now now' (renew_in f ttl now_heartbeat now_expiry) d.

Definition release_in (f : RunFence.t) (now : Z) (d : db) : res own_error (unit * db) :=
  match filter (λ l, bool_decide (RunLeaseModel.owner_instance_id l = RunFence.owner f) = true)
          (filter (λ l, row_is (RunFence.run_id f) (RunFence.generation f) l = true) (leases d)) with
  | [] => Err StaleExecutorError
  | _ :: _ =>
      Ok (tt, set_leases (alter_lease (RunFence.run_id f) (RunFence.generation f)
                (RunLeaseModel.with_release now) (leases d)) d)
  end.

Definition release (f : RunFence.t) (now now_release now' : Z) (d : db)
    : res own_error (unit * db) :=
  fenced f now now' (λ _ d, release_in f now_release d) d.

(** ** The lease table *)

Definition lease_key (l : RunLeaseModel.t) : uuid * Z :=
  (RunLeaseModel.run_id l, RunLeaseModel.generation l).

(** Generations of a run are positive and distinct, and only its newest lease can
be unreleased.  The unique indexes of the table follow. *)
Record leases_ok (ls : list RunLeaseModel.t) : Prop := {
  lo_positive : ∀ l, l ∈ ls → 0 < RunLeaseModel.generation l;
  lo_distinct : NoDup (lease_key <$> ls);
  lo_newest : ∀ l l', l ∈ ls → l' ∈ ls → RunLeaseModel.run_id l = RunLeaseModel.run_id l' →
    RunLeaseModel.released_at l = None → RunLeaseModel.generation l' ≤ RunLeaseModel.generation l;
}.

Lemma row_is_spec i g l : row_is i g l = true ↔ lease_key l = (i, g).
Proof.
  unfold row_is, lease_key. rewrite andb_true_iff, !bool_decide_eq_true.
  split; [by intros [-> ->]|by intros [= -> ->]].
Qed.

Lemma unreleased_spec l : unreleased l = true ↔ RunLeaseModel.released_at l = None.
Proof. apply bool_decide_eq_true. Qed.

Lemma leases_ok_key ls l l' :
  leases_ok ls → l ∈ ls → l' ∈ ls → lease_key l = lease_key l' → l = l'.
Proof. intros Hok. apply NoDup_fmap_elem_inj, (lo_distinct _ Hok). Qed.

(** At most one unreleased lease per run. *)
Lemma unreleased_unique ls l l' :
  leases_ok ls → l ∈ ls → l' ∈ ls → RunLeaseModel.run_id l = RunLeaseModel.run_id l' →
  RunLeaseModel.released_at l = None → RunLeaseModel.released_at l' = None → l = l'.
Proof.
  intros Hok Hl Hl' Hrun Hrel Hrel'. apply (leases_ok_key ls); [done..|].
  unfold lease_key. rewrite Hrun. f_equal.
  pose proof (lo_newest _ Hok l l' Hl Hl' Hrun Hrel).
  pose proof (lo_newest _ Hok l' l Hl' Hl (eq_sym Hrun) Hrel'). lia.
Qed.

Lemma active_lease_Some i ls l :
  active_lease i ls = Some l →
  l ∈ ls ∧ RunLeaseModel.run_id l = i ∧ RunLeaseModel.released_at l = None.
Proof.
  unfold active_lease, of_run. intros Hh.
  assert (l ∈ filter (λ l, unreleased l = true) (filter (λ l, RunLeaseModel.run_id l = i) ls)) as Hin
    by (destruct (filter _ (filter _ ls)); [done|]; injection Hh as ->; by left).
  rewrite !list_elem_of_filter, unreleased_spec in Hin. tauto.
Qed.

Lemma active_lease_None i ls l :
  active_lease i ls = None → l ∈ ls → RunLeaseModel.run_id l = i →
  RunLeaseModel.released_at l ≠ None.
Proof.
  unfold active_lease, of_run. intros Hh Hl Hi Hr.
  assert (l ∈ filter (λ l, unreleased l = true) (filter (λ l, RunLeaseModel.run_id l = i) ls)) as Hin
    by (by rewrite !list_elem_of_filter, unreleased_spec).
  destruct (filter _ (filter _ ls)); [by apply elem_of_nil in Hin|done].
Qed.

Lemma active_lease_elem ls l :
  leases_ok ls → l ∈ ls → RunLeaseModel.released_at l = None →
  active_lease (RunLeaseModel.run_id l) ls = Some l.
Proof.
  intros Hok Hl Hr. destruct (active_lease _ ls) as [a|] eqn:Ha.
  - apply active_lease_Some in Ha as (Hain & Hrun & Harel). f_equal.
    by apply (unreleased_unique ls).
  - by eapply active_lease_None in Ha.
Qed.

Lemma elem_of_alter i g f ls l' :
  l' ∈ alter_lease i g f ls ↔ ∃ l, l ∈ ls ∧ l' = if row_is i g l then f l else l.
Proof. unfold alter_lease. rewrite list_elem_of_fmap. naive_solver. Qed.

(** Changes to a lease keep its key and do not revive it. *)
Definition keeps (f : RunLeaseModel.t → RunLeaseModel.t) : Prop :=
  ∀ l, lease_key (f l) = lease_key l
       ∧ (RunLeaseModel.released_at (f l) = None → RunLeaseModel.released_at l = None).

Lemma alter_keys i g f ls : keeps f → lease_key <$> alter_lease i g f ls = lease_key <$> ls.
Proof.
  intros Hf. unfold alter_lease. rewrite <-list_fmap_compose. apply list_fmap_ext.
  intros _ l _. simpl. destruct (row_is i g l); [apply Hf|done].
Qed.

Lemma leases_ok_alter i g f ls : keeps f → leases_ok ls → leases_ok (alter_lease i g f ls).
Proof.
  intros Hf Hok.
  assert (∀ l', l' ∈ alter_lease i g f ls → ∃ l, l ∈ ls ∧ lease_key l' = lease_key l
    ∧ (RunLeaseModel.released_at l' = None → RunLeaseModel.released_at l = None)) as Hback.
  { intros l' (l & Hl & ->)%elem_of_alter. exists l. destruct (row_is i g l); [|done].
    split; [done|apply Hf]. }
  split.
  - intros l' (l & Hl & Hk & _)%Hback. pose proof (lo_positive _ Hok l Hl).
    unfold lease_key in Hk. by injection Hk as _ ->.
  - rewrite alter_keys by done. apply Hok.
  - intros l1 l2 (k1 & Hk1 & He1 & Hr1)%Hback (k2 & Hk2 & He2 & _)%Hback Hrun Hrel.
    unfold lease_key in He1, He2. injection He1 as Hi1 Hg1. injection He2 as Hi2 Hg2.
    rewrite Hg1, Hg2. apply (lo_newest _ Hok k1 k2); [done|done|congruence|auto].
Qed.

Lemma keeps_expiry e : keeps (RunLeaseModel.with_expiry e).
Proof. done. Qed.
Lemma keeps_heartbeat h : keeps (RunLeaseModel.with_heartbeat h).
Proof. done. Qed.
Lemma keeps_release r : keeps (RunLeaseModel.with_release r).
Proof. done. Qed.
Lemma keeps_compose f g : keeps f → keeps g → keeps (λ l, f (g l)).
Proof.
  intros Hf Hg l. destruct (Hf (g l)) as [Hk Hr], (Hg l) as [Hk' Hr']. split; [congruence|auto].
Qed.

Lemma max_generation_le i ls l :
  l ∈ ls → RunLeaseModel.run_id l = i →
  ∃ m, max_generation i ls = Some m ∧ RunLeaseModel.generation l ≤ m.
Proof.
  intros Hl Hi. assert (l ∈ of_run i ls) as Hin by (by apply list_elem_of_filter).
  unfold max_generation. induction (of_run i ls) as [|k ks IH]; [by apply elem_of_nil in Hin|].
  simpl. apply elem_of_cons in Hin as [->|Hin].
  - eexists. split; [done|]. destruct (foldr _ _ _); lia.
  - destruct (IH Hin) as (m & -> & Hm). eexists. split; [done|]. lia.
Qed.

Lemma max_generation_nonneg i ls m : leases_ok ls → max_generation i ls = Some m → 0 < m.
Proof.
  intros Hok. unfold max_generation.
  assert (∀ l, l ∈ of_run i ls → 0 < RunLeaseModel.generation l) as Hpos
    by (intros l [_ Hl]%list_elem_of_filter; by apply (lo_positive _ Hok)).
  revert m; induction (of_run i ls) as [|k ks IH]; intros m; [done|]. simpl. intros [= <-].
  pose proof (Hpos k ltac:(by left)). destruct (foldr _ _ _); lia.
Qed.

Lemma max_generation_alter i j g f ls :
  keeps f → max_generation i (alter_lease j g f ls) = max_generation i ls.
Proof.
  intros Hf. unfold max_generation, of_run, alter_lease.
  induction ls as [|l ls IH]; [done|]. csimpl. rewrite !filter_cons.
  assert (lease_key (if row_is j g l then f l else l) = lease_key l) as Hk
    by (destruct (row_is j g l); [apply Hf|done]).
  unfold lease_key in Hk. injection Hk as Hr Hg. rewrite Hr.
  destruct (decide (RunLeaseModel.run_id l = i)); simpl; [by rewrite Hg, IH|done].
Qed.

Definition next_generation (i : uuid) (ls : list RunLeaseModel.t) : Z :=
  default 0 (max_generation i ls) + 1.

Lemma next_generation_fresh i ls l :
  l ∈ ls → RunLeaseModel.run_id l = i → RunLeaseModel.generation l < next_generation i ls.
Proof.
  intros Hl Hi. unfold next_generation. destruct (max_generation_le i ls l Hl Hi) as (m & -> & Hm).
  simpl. lia.
Qed.

Lemma next_generation_positive i ls : leases_ok ls → 0 < next_generation i ls.
Proof.
  intros Hok. unfold next_generation. destruct (max_generation i ls) as [m|] eqn:Hm; simpl; [|lia].
  apply max_generation_nonneg in Hm; [lia|done].
Qed.

Lemma leases_ok_append ls l :
  leases_ok ls →
  (∀ k, k ∈ ls → RunLeaseModel.run_id k = RunLeaseModel.run_id l →
     RunLeaseModel.released_at k ≠ None ∧ RunLeaseModel.generation k < RunLeaseModel.generation l) →
  0 < RunLeaseModel.generation l → leases_ok (ls ++ [l]).
Proof.
  intros Hok Hnew Hpos. split.
  - intros k [Hk|Hk]%elem_of_app; [by apply (lo_positive _ Hok)|].
    by apply list_elem_of_singleton in Hk as ->.
  - rewrite fmap_app. apply NoDup_app. split_and!; [apply Hok| |apply NoDup_singleton].
    intros x Hx Hx'. apply list_elem_of_singleton in Hx' as ->.
    apply list_elem_of_fmap in Hx as (k & Heq & Hk). unfold lease_key in Heq.
    injection Heq as Hr Hg. destruct (Hnew k Hk (eq_sym Hr)) as [_ Hlt]. lia.
  - intros k k' [Hk|Hk]%elem_of_app [Hk'|Hk']%elem_of_app Hrun Hrel;
      try (apply list_elem_of_singleton in Hk as ->);
      try (apply list_elem_of_singleton in Hk' as ->); [by apply (lo_newest _ Hok)| | |done].
    + by destruct (Hnew k Hk Hrun).
    + destruct (Hnew k' Hk' (eq_sym Hrun)). lia.
Qed.

(** ** Acquisition *)

(** The lease of an executor: unreleased, under its owner and generation. *)
Definition held (f : RunFence.t) (l : RunLeaseModel.t) : Prop :=
  lease_key l = (RunFence.run_id f, RunFence.generation f)
  ∧ RunLeaseModel.owner_instance_id l = RunFence.owner f
  ∧ RunLeaseModel.released_at l = None.

(** A newer lease of the run exists. *)
Definition superseded (f : RunFence.t) (ls : list RunLeaseModel.t) : Prop :=
  ∃ l, l ∈ ls ∧ RunLeaseModel.run_id l = RunFence.run_id f
       ∧ RunFence.generation f < RunLeaseModel.generation l.

Lemma acquire_fresh i owner ttl now d r d' :
  leases_ok (leases d) → acquire i owner ttl now d = Ok (r, d') →
  (∀ a, active_lease i (leases d) = Some a → RunLeaseModel.expires_at a ≤ now) →
  ∃ l, r = Some l ∧ l = RunLeaseModel.Build_t i owner (next_generation i (leases d)) now None
                          (now + ttl) None
    ∧ leases_ok (leases d') ∧ d' = set_leases (leases d') d ∧ l ∈ leases d'
    ∧ ∃ old, leases d' = old ++ [l]
        ∧ (old = leases d ∨ ∃ g, old = alter_lease i g (RunLeaseModel.with_release now) (leases d)).
Proof.
  intros Hok Ha Hexp. unfold acquire in Ha. destruct (Z.leb ttl 0); [done|].
  destruct (runs d !! i) as [run|]; [|done].
  destruct (active_lease i (leases d)) as [a|] eqn:Hact.
  - destruct (Z.ltb_spec now (RunLeaseModel.expires_at a)) as [Hlt|_];
      [specialize (Hexp a eq_refl); lia|].
    rewrite (max_generation_alter i i _ _ _ (keeps_release now)) in Ha. fold (next_generation i (leases d)) in Ha.
    injection Ha as <- <-. simpl. eexists. split_and!; [done|done| |done|set_solver|].
    + apply active_lease_Some in Hact as (Hain & Hrun & Hrel).
      apply leases_ok_append; simpl.
      * by apply leases_ok_alter.
      * intros k (k0 & Hk0 & ->)%elem_of_alter Hr.
        assert (RunLeaseModel.run_id k0 = i) as Hk0i
          by (revert Hr; by destruct (row_is _ _ k0)).
        assert (RunLeaseModel.generation k0 < next_generation i (leases d)) as Hlt
          by (by apply next_generation_fresh).
        destruct (row_is i (RunLeaseModel.generation a) k0) eqn:Hrow; [done|]. split; [|done].
        intros Hk0rel. assert (k0 = a) as ->.
        { apply (unreleased_unique (leases d)); [done..|congruence|done|done]. }
        assert (row_is i (RunLeaseModel.generation a) a = true); [|congruence].
        apply row_is_spec. unfold lease_key. by rewrite Hrun.
      * by apply next_generation_positive.
    + eexists. split; [done|]. right. by eexists.
  - fold (next_generation i (leases d)) in Ha. injection Ha as <- <-. simpl.
    eexists. split_and!; [done|done| |done|set_solver|].
    + apply leases_ok_append; simpl; [done| |by apply next_generation_positive].
      intros k Hk Hr. split; [by eapply active_lease_None|by apply next_generation_fresh].
    + eexists. split; [done|]. by left.
Qed.

(** Renewal by the owner, and refusal to others, while a lease is live. *)
Lemma acquire_live i owner ttl now d r d' a :
  acquire i owner ttl now d = Ok (r, d') → active_lease i (leases d) = Some a →
  now < RunLeaseModel.expires_at a →
  (RunLeaseModel.owner_instance_id a ≠ owner ∧ r = None ∧ d' = d)
  ∨ (RunLeaseModel.owner_instance_id a = owner
     ∧ r = Some (RunLeaseModel.with_expiry (now + ttl) a)
     ∧ leases d' = alter_lease i (RunLeaseModel.generation a)
                     (RunLeaseModel.with_expiry (now + ttl)) (leases d)).
Proof.
  intros Ha Hact Hlt. unfold acquire in Ha. destruct (Z.leb ttl 0); [done|].
  destruct (runs d !! i); [|done]. rewrite Hact in Ha.
  destruct (Z.ltb_spec now (RunLeaseModel.expires_at a)); [|lia].
  case_bool_decide; injection Ha as <- <-; [right|left]; done.
Qed.

Lemma acquire_leases_ok i owner ttl now d r d' :
  leases_ok (leases d) → acquire i owner ttl now d = Ok (r, d') → leases_ok (leases d').
Proof.
  intros Hok Ha. destruct (active_lease i (leases d)) as [a|] eqn:Hact.
  - destruct (Z.ltb_spec now (RunLeaseModel.expires_at a)) as [Hlt|Hge].
    + destruct (acquire_live _ _ _ _ _ _ _ _ Ha Hact Hlt) as [(_ & _ & ->)|(_ & _ & ->)];
        [done|by apply leases_ok_alter].
    + destruct (acquire_fresh _ _ _ _ _ _ _ Hok Ha) as (l & _ & _ & Hok' & _); [|done].
      intros a' Ha'. assert (a' = a) as -> by congruence. done.
  - destruct (acquire_fresh _ _ _ _ _ _ _ Hok Ha) as (l & _ & _ & Hok' & _); [congruence|done].
Qed.

(** ** Selection *)

Lemma select_run_Some mode locked now d r :
  select_run mode locked now d = Some r →
  r ∈ (map_to_list (runs d)).*2 ∧ eligible mode now d r = true ∧ locked (RunModel.id r) = false
  ∧ ∀ r', r' ∈ (map_to_list (runs d)).*2 → eligible mode now d r' = true →
      locked (RunModel.id r') = false → py_leb (claim_key r) (claim_key r') = true.
Proof.
  unfold select_run. intros Hh. set (l := filter _ _) in Hh.
  pose proof (sorted_key_sorted claim_key l) as Hs.
  destruct (sorted_key claim_key l) as [|x xs] eqn:Hl; [done|]. injection Hh as ->.
  assert (∀ y, y ∈ l ↔ y ∈ r :: xs) as Hmem by (intros y; by rewrite <-Hl, elem_of_sorted_key).
  assert (r ∈ l) as Hr by (apply Hmem; by left). unfold l in Hr.
  apply list_elem_of_filter in Hr as [[He Hlk] Hr]. split_and!; [done..|].
  intros r' Hr' He' Hlk'. apply StronglySorted_inv in Hs as [_ Hall].
  assert (r' ∈ l) as Hin by (by apply list_elem_of_filter). apply Hmem in Hin.
  apply elem_of_cons in Hin as [->|Hin]; [apply py_leb_refl|].
  rewrite Forall_forall in Hall. by apply Hall.
Qed.

Lemma select_run_None mode locked now d r :
  select_run mode locked now d = None → r ∈ (map_to_list (runs d)).*2 →
  locked (RunModel.id r) = false → eligible mode now d r = false.
Proof.
  unfold select_run. intros Hh Hr Hlk. destruct (eligible mode now d r) eqn:He; [|done].
  assert (r ∈ sorted_key claim_key (filter (λ r, eligible mode now d r = true
    ∧ locked (RunModel.id r) = false) (map_to_list (runs d)).*2)) as Hin.
  { rewrite elem_of_sorted_key. by apply list_elem_of_filter. }
  destruct (sorted_key _ _); [by apply elem_of_nil in Hin|done].
Qed.

Lemma elem_of_rows d r :
  keyed d → r ∈ (map_to_list (runs d)).*2 ↔ runs d !! RunModel.id r = Some r.
Proof.
  intros Hk. rewrite list_elem_of_fmap. split.
  - intros ([i r'] & -> & Hin). simpl. apply elem_of_map_to_list in Hin.
    by rewrite (Hk i r' Hin).
  - intros Hr. exists (RunModel.id r, r). split; [done|]. by apply elem_of_map_to_list.
Qed.

(** An eligible run has no live lease. *)
Lemma eligible_expired mode now d r a :
  eligible mode now d r = true → active_lease (RunModel.id r) (leases d) = Some a →
  RunLeaseModel.expires_at a ≤ now.
Proof.
  unfold eligible. rewrite !andb_true_iff, negb_true_iff. intros [_ Hlive] Ha.
  apply active_lease_Some in Ha as (Hain & Hrun & Hrel).
  destruct (Z.le_gt_cases (RunLeaseModel.expires_at a) now) as [|Hgt]; [done|].
  rewrite existsb_false in Hlive. specialize (Hlive a). rewrite bool_decide_true in Hlive by done.
  discriminate Hlive. apply list_elem_of_filter. split; [|done]. unfold live.
  rewrite (proj2 (unreleased_spec a) Hrel). simpl. by apply Z.ltb_lt.
Qed.

(** ** Claims *)

(** Rows are stored under their key and the lease table is well formed. *)
Definition tables_ok (d : db) : Prop := keyed d ∧ leases_ok (leases d).

Lemma claim_run_leases r previous d : leases (claim_run r previous d).2 = leases d.
Proof. unfold claim_run. by destruct (_ && _). Qed.

Lemma claim_run_row r previous d :
  ∃ r', (claim_run r previous d).1 = r' ∧ RunModel.status r' = RunStatus.CLAIMING
    ∧ RunModel.id r' = RunModel.id r
    ∧ runs (claim_run r previous d).2 = <[RunModel.id r := r']> (runs d)
    ∧ recovery (claim_run r previous d).2 = recovery d
    ∧ migrated (claim_run r previous d).2 = migrated d.
Proof. unfold claim_run. by destruct (_ && _); eexists. Qed.

Lemma claim_run_keyed r previous d :
  keyed d → keyed (claim_run r previous d).2.
Proof.
  destruct (claim_run_row r previous d) as (r' & _ & _ & Hid & Hruns & _). intros Hk i x.
  rewrite Hruns. destruct (decide (i = RunModel.id r)) as [->|Hne].
  - rewrite lookup_insert_eq. by intros [= <-].
  - rewrite lookup_insert_ne by done. apply Hk.
Qed.

#[local] Opaque claim_run.

Lemma Ok_pair {E A B} (a a' : A) (b b' : B) :
  (Ok (a, b) : res E (A * B)) = Ok (a', b') → a = a' ∧ b = b'.
Proof. by intros [= -> ->]. Qed.

(** What a claim does. *)
Lemma claim_Some owner ttl capacity mode locked now now' d f d' :
  tables_ok d → now ≤ now' → claim owner ttl capacity mode locked now now' d = Ok (Some f, d') →
  ∃ r rec old, select_run mode locked now d = Some r ∧ recovery d = Some rec
    ∧ f = RunFence.Build_t (RunModel.id r) owner (next_generation (RunModel.id r) (leases d))
            (RecoveryGenerationModel.generation rec)
    ∧ RecoveryGenerationModel.automatic_dispatch_enabled rec = true
    ∧ (old = leases d ∨ ∃ g, old = alter_lease (RunModel.id r) g (RunLeaseModel.with_release now')
                                     (leases d))
    ∧ leases d' = alter_lease (RunModel.id r) (RunFence.generation f)
        (RunLeaseModel.with_heartbeat now)
        (old ++ [RunLeaseModel.Build_t (RunModel.id r) owner (RunFence.generation f) now' None
                   (now' + ttl) None])
    ∧ tables_ok d' ∧ migrated d = true ∧ migrated d' = true ∧ recovery d' = recovery d
    ∧ ∃ r', runs d' !! RunModel.id r = Some r' ∧ RunModel.status r' = RunStatus.CLAIMING.
Proof.
  intros [Hk Hok] Hnow. unfold claim, lock_events. destruct (migrated d) eqn:Hmig; simpl; [|done].
  destruct (instances d !! owner) as [instance|]; [|done].
  destruct (recovery d) as [rec|] eqn:Hrec; [|done].
  destruct (OrchestratorInstanceModel.draining instance
    || negb (RecoveryGenerationModel.automatic_dispatch_enabled rec) || _) eqn:Hguard; [done|].
  apply orb_false_iff in Hguard as [[_ Hen%negb_false_iff]%orb_false_iff _].
  destruct (select_run mode locked now d) as [r|] eqn:Hsel; [|done].
  intros ([o d1] & Hacq & Hrest)%res_bind_ok. destruct o as [l|]; [|done].
  apply Ok_pair in Hrest as [[= <-] <-]. apply select_run_Some in Hsel as Hsel'.
  destruct Hsel' as (_ & Helig & _ & _).
  destruct (acquire_fresh _ _ _ _ _ _ _ Hok Hacq) as (l' & [= <-] & -> & Hok1 & Hd1 & _ & old & Hold & Hor).
  { intros a Ha. pose proof (eligible_expired _ _ _ _ _ Helig Ha). lia. }
  cbn [RunLeaseModel.generation].
  set (d2 := set_leases _ d1).
  destruct (claim_run_row r (max_generation (RunModel.id r) (leases d)) d2)
    as (r' & Hr' & Hst & Hid & Hruns & Hrec' & Hmig').
  exists r, rec, old. split_and!; try done.
  - rewrite claim_run_leases. unfold d2; simpl. by rewrite Hold.
  - split.
    + apply claim_run_keyed. unfold d2, keyed; simpl. rewrite Hd1; simpl. exact Hk.
    + rewrite claim_run_leases. unfold d2; simpl. by apply leases_ok_alter.
  - rewrite Hmig'. unfold d2; simpl. by rewrite Hd1.
  - rewrite Hrec'. unfold d2; simpl. by rewrite Hd1.
  - exists r'. rewrite Hruns. split; [apply lookup_insert_eq|done].
Qed.

(** The lease of the new executor. *)
Lemma claim_held owner ttl capacity mode locked now now' d f d' :
  tables_ok d → now ≤ now' → claim owner ttl capacity mode locked now now' d = Ok (Some f, d') →
  ∃ l, l ∈ leases d' ∧ held f l ∧ RunLeaseModel.expires_at l = now' + ttl.
Proof.
  intros Hok Hnow Hc. destruct (claim_Some _ _ _ _ _ _ _ _ _ _ Hok Hnow Hc)
    as (r & rec & old & _ & _ & Hf & _ & _ & Hls & _).
  set (l := RunLeaseModel.Build_t (RunModel.id r) owner (RunFence.generation f) now' None
    (now' + ttl) None) in *.
  exists (RunLeaseModel.with_heartbeat now l). split_and!; [|by subst f|done].
  rewrite Hls. apply elem_of_alter. exists l. split; [set_solver|].
  by rewrite (proj2 (row_is_spec _ _ _)).
Qed.

(** A claim that fails leaves the tables alone. *)
Lemma claim_None owner ttl capacity mode locked now now' d d' :
  tables_ok d → now ≤ now' → claim owner ttl capacity mode locked now now' d = Ok (None, d') →
  d' = d.
Proof.
  intros [Hk Hok] Hnow. unfold claim. intros (? & _ & Hc)%res_bind_ok.
  destruct (instances d !! owner) as [instance|]; [|by injection Hc].
  destruct (recovery d) as [rec|]; [|by injection Hc].
  destruct (_ || _ || _); [by injection Hc|].
  destruct (select_run mode locked now d) as [r|] eqn:Hsel; [|by injection Hc].
  apply res_bind_ok in Hc as ([o d1] & Hacq & Hrest). destruct o as [l|]; [done|].
  apply select_run_Some in Hsel as (_ & Helig & _ & _).
  destruct (acquire_fresh _ _ _ _ _ _ _ Hok Hacq) as (l' & [=] & _).
  intros a Ha. pose proof (eligible_expired _ _ _ _ _ Helig Ha). lia.
Qed.

(** ** Fences *)

Lemma fenced_ok {A} f now now' (body : RunModel.t → db → res own_error (A * db)) d r :
  fenced f now now' body d = Ok r →
  ∃ run lease, runs d !! RunFence.run_id f = Some run ∧ RunModel.status run ∉ TERMINAL
    ∧ active_lease (RunFence.run_id f) (leases d) = Some lease ∧ held f lease
    ∧ now < RunLeaseModel.expires_at lease ∧ body run d = Ok r.
Proof.
  unfold fenced. intros (? & _ & Hf)%res_bind_ok.
  destruct (runs d !! RunFence.run_id f) as [run|]; [|done].
  destruct (active_lease (RunFence.run_id f) (leases d)) as [lease|] eqn:Hl; [|done].
  destruct (recovery d) as [rec|]; [|done].
  destruct (authorized f now run lease rec) eqn:Ha; [|done].
  apply res_bind_ok in Hf as (r' & Hb & Hf). destruct (Z.leb _ _); [done|]. injection Hf as ->.
  exists run, lease. unfold authorized in Ha.
  rewrite !andb_true_iff, negb_true_iff, bool_decide_eq_false, !bool_decide_eq_true in Ha.
  destruct Ha as (((((Hterm & Hown) & Hgen) & Hexp%Z.ltb_lt) & _) & _).
  apply active_lease_Some in Hl as Hl'. destruct Hl' as (_ & Hrun & Hrel).
  split_and!; try done. split_and!; try done. unfold lease_key. congruence.
Qed.

(** A superseded executor never passes the fence. *)
Lemma fenced_superseded {A} f now now' (body : RunModel.t → db → res own_error (A * db)) d r :
  leases_ok (leases d) → superseded f (leases d) → fenced f now now' body d ≠ Ok r.
Proof.
  intros Hok (l & Hl & Hrun & Hlt) Hf.
  destruct (fenced_ok _ _ _ _ _ _ Hf) as (run & a & _ & _ & Ha & (Hkey & _ & _) & _ & _).
  apply active_lease_Some in Ha as (Hain & Harun & Harel). unfold lease_key in Hkey.
  injection Hkey as _ Hg. pose proof (lo_newest _ Hok a l Hain Hl ltac:(congruence) Harel). lia.
Qed.

(** Rows of the lease table stay, and a released lease stays released. *)
Definition later (ls ls' : list RunLeaseModel.t) : Prop :=
  ∀ l, l ∈ ls → ∃ l', l' ∈ ls' ∧ lease_key l' = lease_key l
    ∧ (RunLeaseModel.released_at l' = None → RunLeaseModel.released_at l = None).

#[export] Instance later_preorder : PreOrder later.
Proof.
  split; [by intros ls l Hl; exists l|]. intros ls1 ls2 ls3 H12 H23 l Hl.
  destruct (H12 l Hl) as (l' & Hl' & Hk & Hr), (H23 l' Hl') as (l'' & Hl'' & Hk' & Hr').
  exists l''. split; [done|]. split; [congruence|auto].
Qed.
Lemma later_alter i g h ls : keeps h → later ls (alter_lease i g h ls).
Proof.
  intros Hh l Hl. exists (if row_is i g l then h l else l).
  split; [by apply elem_of_alter; exists l|]. destruct (row_is i g l); [apply Hh|done].
Qed.
Lemma later_app ls ls' : later ls (ls ++ ls').
Proof. intros l Hl. exists l. split; [apply elem_of_app; by left|done]. Qed.
Lemma superseded_later f ls ls' : later ls ls' → superseded f ls → superseded f ls'.
Proof.
  intros Hlt (l & Hl & Hrun & Hg). destruct (Hlt l Hl) as (l' & Hl' & Hk & _). exists l'.
  unfold lease_key in Hk. injection Hk as -> ->. done.
Qed.

Lemma release_in_leases f t d d' :
  release_in f t d = Ok (tt, d') →
  d' = set_leases (alter_lease (RunFence.run_id f) (RunFence.generation f)
                     (RunLeaseModel.with_release t) (leases d)) d.
Proof. unfold release_in. destruct (filter _ (filter _ _)); [done|]. by intros [= <-]. Qed.

Lemma renew_in_leases f ttl h e run d d' :
  renew_in f ttl h e run d = Ok (tt, d') →
  d' = set_leases (alter_lease (RunFence.run_id f) (RunFence.generation f)
         (λ l, RunLeaseModel.with_expiry (e + ttl) (RunLeaseModel.with_heartbeat h l)) (leases d)) d.
Proof. unfold renew_in. destruct (find_lease _ _ _); [|done]. by intros [= <-]. Qed.

(** ** Steps of the system

The transactions that touch the lease table, and all others. *)

Definition app_body {A} (body : RunModel.t → db → res own_error (A * db)) : Prop :=
  ∀ run d a d', body run d = Ok (a, d') → leases d' = leases d ∧ (keyed d → keyed d').

Inductive step : db → db → Prop :=
  | step_claim owner ttl capacity mode locked now now' d o d' :
      now ≤ now' → claim owner ttl capacity mode locked now now' d = Ok (o, d') → step d d'
  | step_renew f ttl now h e now' d d' :
      renew f ttl now h e now' d = Ok (tt, d') → step d d'
  | step_release f now t now' d d' :
      release f now t now' d = Ok (tt, d') → step d d'
  | step_fenced A f now now' (body : RunModel.t → db → res own_error (A * db)) d a d' :
      app_body body → fenced f now now' body d = Ok (a, d') → step d d'
  | step_fenced_release A f now t now' (body : RunModel.t → db → res own_error (A * db)) d a d' :
      app_body body →
      fenced f now now' (λ run d, r ← body run d; u ← release_in f t r.2; Ok (r.1, u.2)) d
        = Ok (a, d') → step d d'
  | step_other d d' : leases d' = leases d → keyed d' → step d d'.

Lemma step_ok d d' :
  tables_ok d → step d d' → tables_ok d' ∧ later (leases d) (leases d').
Proof.
  intros [Hk Hok] Hs. assert (tables_ok d) as Hd by done. inversion Hs; subst.
  - destruct o as [f|].
    + destruct (claim_Some _ _ _ _ _ _ _ _ _ _ Hd H H0)
        as (r & rec & old & _ & _ & _ & _ & Hold & Hls & Hd' & _).
      split; [done|]. rewrite Hls. etrans; [|by apply later_alter]. etrans; [|apply later_app].
      destruct Hold as [->|[g ->]]; [reflexivity|by apply later_alter].
    + assert (d' = d) as -> by (by eapply claim_None). split; [done|reflexivity].
  - unfold renew in H. destruct (fenced_ok _ _ _ _ _ _ H) as (run & l & _ & _ & _ & _ & _ & Hb).
    apply renew_in_leases in Hb as ->. split; [split; [done|]|]; simpl;
      [apply leases_ok_alter; [by apply keeps_compose|done]|apply later_alter; by apply keeps_compose].
  - unfold release in H. destruct (fenced_ok _ _ _ _ _ _ H) as (run & l & _ & _ & _ & _ & _ & Hb).
    apply release_in_leases in Hb as ->. split; [split; [done|]|]; simpl;
      [by apply leases_ok_alter|by apply later_alter].
  - destruct (fenced_ok _ _ _ _ _ _ H0) as (run & l & _ & _ & _ & _ & _ & Hb).
    destruct (H _ _ _ _ Hb) as [Hl Hk']. unfold tables_ok. rewrite Hl. split; [by auto|reflexivity].
  - destruct (fenced_ok _ _ _ _ _ _ H0) as (run & l & _ & _ & _ & _ & _ & Hb).
    apply res_bind_ok in Hb as ([a1 d1] & Hb & Hr). apply res_bind_ok in Hr as ([[] d2] & Hr & He).
    injection He as <- <-. destruct (H _ _ _ _ Hb) as [Hl Hk'].
    apply release_in_leases in Hr as ->. simpl. rewrite Hl.
    split; [split; [by apply Hk'|by apply leases_ok_alter]|by apply later_alter].
  - unfold tables_ok. rewrite H. split; [done|reflexivity].
Qed.

Lemma steps_ok d d' :
  tables_ok d → rtc step d d' → tables_ok d' ∧ later (leases d) (leases d').
Proof.
  intros Hd. induction 1 as [d|d d1 d' Hs Hr IH]; [split; [done|reflexivity]|].
  destruct (step_ok _ _ Hd Hs) as [Hd1 Hl]. destruct (IH Hd1) as [Hd' Hl']. split; [done|by etrans].
Qed.

(** *** Handing a run over *)

(** Two fences of one lease. *)
Definition same_lease (f f' : RunFence.t) : Prop :=
  RunFence.run_id f = RunFence.run_id f' ∧ RunFence.owner f = RunFence.owner f'
  ∧ RunFence.generation f = RunFence.generation f'.

(** The only steps in which an executor loses its lease: it releases it, alone or at
the end of a fenced transaction, or a claim finds it expired. *)
Inductive gives_up (f : RunFence.t) (d d' : db) : Prop :=
  | gu_release f' now t now' :
      same_lease f f' → release f' now t now' d = Ok (tt, d') → gives_up f d d'
  | gu_finish A f' now t now' (body : RunModel.t → db → res own_error (A * db)) a :
      same_lease f f' →
      fenced f' now now' (λ run d, r ← body run d; u ← release_in f' t r.2; Ok (r.1, u.2)) d
        = Ok (a, d') → gives_up f d d'
  | gu_expired owner ttl capacity mode locked now now' g l :
      claim owner ttl capacity mode locked now now' d = Ok (Some g, d') →
      RunFence.run_id g = RunFence.run_id f →
      l ∈ leases d → held f l → RunLeaseModel.expires_at l ≤ now → gives_up f d d'.

Definition holds_lease (f : RunFence.t) (ls : list RunLeaseModel.t) : Prop :=
  ∃ l, l ∈ ls ∧ held f l.
(** The lease of the fence was released. *)
Definition spent (f : RunFence.t) (ls : list RunLeaseModel.t) : Prop :=
  ∃ l, l ∈ ls ∧ lease_key l = (RunFence.run_id f, RunFence.generation f)
    ∧ RunLeaseModel.released_at l ≠ None.

Lemma spent_later f ls ls' : later ls ls' → spent f ls → spent f ls'.
Proof.
  intros Hlt (l & Hl & Hk & Hr). destruct (Hlt l Hl) as (l' & Hl' & Hk' & Hr'). exists l'.
  split; [done|]. split; [congruence|auto].
Qed.

Lemma held_unspent f ls l : leases_ok ls → l ∈ ls → held f l → ¬ spent f ls.
Proof.
  intros Hok Hl (Hk & _ & Hr) (l' & Hl' & Hk' & Hr'). apply Hr'.
  by rewrite (leases_ok_key ls l' l Hok Hl' Hl ltac:(congruence)).
Qed.

Lemma fenced_spent {A} f now now' (body : RunModel.t → db → res own_error (A * db)) d r :
  leases_ok (leases d) → spent f (leases d) → fenced f now now' body d ≠ Ok r.
Proof.
  intros Hok Hs Hf. destruct (fenced_ok _ _ _ _ _ _ Hf) as (run & a & _ & _ & Ha & Hh & _).
  apply active_lease_Some in Ha as (Hain & _). by eapply held_unspent.
Qed.

(** A change of one row keeps the lease, or releases it when the row is its own. *)
Lemma held_alter f l i g h ls :
  l ∈ ls → held f l → (row_is i g l = true → held f (h l)) → holds_lease f (alter_lease i g h ls).
Proof.
  intros Hl Hh Hr. exists (if row_is i g l then h l else l).
  split; [by apply elem_of_alter; exists l|]. destruct (row_is i g l); [by apply Hr|done].
Qed.
Lemma spent_alter f l i g t ls :
  l ∈ ls → held f l → row_is i g l = true →
  spent f (alter_lease i g (RunLeaseModel.with_release t) ls).
Proof.
  intros Hl [Hk _] Hr. exists (RunLeaseModel.with_release t l).
  split; [|done]. apply elem_of_alter. exists l. by rewrite Hr.
Qed.
Lemma released_or_held f l i g t ls :
  l ∈ ls → held f l →
  (row_is i g l = true ∧ spent f (alter_lease i g (RunLeaseModel.with_release t) ls))
  ∨ holds_lease f (alter_lease i g (RunLeaseModel.with_release t) ls).
Proof.
  intros Hl Hh. destruct (row_is i g l) eqn:Hr; [left|right].
  - split; [done|by eapply spent_alter].
  - eapply held_alter; [done..|]. by rewrite Hr.
Qed.

(** The lease that a fence names is its own. *)
Lemma same_lease_of f f' l a ls :
  leases_ok ls → l ∈ ls → held f l → a ∈ ls → held f' a →
  row_is (RunFence.run_id f') (RunFence.generation f') l = true → same_lease f f'.
Proof.
  intros Hok Hl (Hk & Ho & _) Ha (Hk' & Ho' & _) Hr%row_is_spec.
  assert (l = a) as -> by (apply (leases_ok_key ls); [done..|congruence]).
  unfold same_lease. rewrite Hk in Hk'. injection Hk' as -> ->. by rewrite <-Ho, <-Ho'.
Qed.

Lemma claim_gives_up f l owner ttl capacity mode locked now now' g d d' :
  tables_ok d → now ≤ now' → claim owner ttl capacity mode locked now now' d = Ok (Some g, d') →
  l ∈ leases d → held f l → holds_lease f (leases d') ∨ spent f (leases d') ∧ gives_up f d d'.
Proof.
  intros Hd Hnow Hc Hl Hh.
  destruct (claim_Some _ _ _ _ _ _ _ _ _ _ Hd Hnow Hc)
    as (r & rec & old & Hsel & _ & Hg & _ & Hold & Hls & _).
  assert (holds_lease f old ∨ spent f old ∧ gives_up f d d') as [(k & Hin & Hkh)|[Hsp Hgu]].
  { destruct Hold as [->|[x ->]]; [left; by exists l|].
    destruct (released_or_held f l (RunModel.id r) x now' (leases d) Hl Hh) as [[Hr Hsp]|]; [right|by left].
    split; [done|]. apply row_is_spec in Hr. unfold lease_key in Hr. injection Hr as Hr _.
    destruct Hh as (Hkey & Hown & Hrel). pose proof (active_lease_elem _ _ (proj2 Hd) Hl Hrel) as Ha.
    rewrite Hr in Ha. apply select_run_Some in Hsel as (_ & He & _).
    unfold lease_key in Hkey. injection Hkey as Hrun Hgen.
    eapply gu_expired; [done| |done|by split_and!; unfold lease_key; congruence|by eapply eligible_expired].
    subst g. simpl. congruence. }
  - left. rewrite Hls. eapply held_alter; [apply elem_of_app; by left|exact Hkh|done].
  - right. split; [|done]. rewrite Hls. eapply spent_later; [|exact Hsp].
    etrans; [apply later_app|by apply later_alter].
Qed.

Lemma step_gives_up f l d d' :
  tables_ok d → step d d' → l ∈ leases d → held f l →
  holds_lease f (leases d') ∨ spent f (leases d') ∧ gives_up f d d'.
Proof.
  intros Hd Hs Hl Hh. pose proof (step_ok _ _ Hd Hs) as [Hd' _]. destruct Hd as [Hk Hok].
  inversion Hs; subst.
  - destruct o as [g|]; [by eapply claim_gives_up|].
    apply claim_None in H0 as ->; [left; by exists l|done..].
  - unfold renew in H. destruct (fenced_ok _ _ _ _ _ _ H) as (run & a & _ & _ & _ & _ & _ & Hb).
    apply renew_in_leases in Hb as ->. left. by eapply held_alter.
  - unfold release in H. destruct (fenced_ok _ _ _ _ _ _ H) as (run & a & _ & _ & Ha & Hah & _ & Hb).
    apply active_lease_Some in Ha as (Hain & _).
    apply release_in_leases in Hb as Hd2. rewrite Hd2. simpl.
    destruct (released_or_held f l (RunFence.run_id f0) (RunFence.generation f0) t (leases d) Hl Hh)
      as [[Hr Hsp]|]; [right|by left].
    split; [done|]. rewrite <-Hd2.
    eapply gu_release; [by eapply (same_lease_of _ _ l a)|exact H].
  - destruct (fenced_ok _ _ _ _ _ _ H0) as (run & a0 & _ & _ & _ & _ & _ & Hb).
    destruct (H _ _ _ _ Hb) as [-> _]. left. by exists l.
  - destruct (fenced_ok _ _ _ _ _ _ H0) as (run & a0 & _ & _ & Ha & Hah & _ & Hb).
    apply active_lease_Some in Ha as (Hain & _).
    apply res_bind_ok in Hb as ([a1 d1] & Hb & Hr). apply res_bind_ok in Hr as ([[] d2] & Hr & He).
    injection He as <- <-. destruct (H _ _ _ _ Hb) as [Hls _].
    apply release_in_leases in Hr as Hd2. apply (f_equal leases) in Hd2.
    cbn [leases set_leases snd] in Hd2. rewrite Hls in Hd2. cbn [snd]. rewrite Hd2.
    destruct (released_or_held f l (RunFence.run_id f0) (RunFence.generation f0) t (leases d) Hl Hh)
      as [[Hrow Hsp]|]; [right|by left].
    split; [done|]. eapply gu_finish; [by eapply (same_lease_of _ _ l a0)|exact H0].
  - rewrite H. left. by exists l.
Qed.

Lemma steps_give_up f d d' :
  tables_ok d → rtc step d d' → holds_lease f (leases d) →
  holds_lease f (leases d')
  ∨ ∃ e e', rtc step d e ∧ step e e' ∧ rtc step e' d' ∧ gives_up f e e'
      ∧ tables_ok e' ∧ spent f (leases e').
Proof.
  intros Hd Hs. induction Hs as [d|d d1 d' Hs Hr IH]; [by left|]. intros (l & Hl & Hh).
  pose proof (step_ok _ _ Hd Hs) as [Hd1 _].
  destruct (step_gives_up _ _ _ _ Hd Hs Hl Hh) as [Hl1|[Hsp Hgu]].
  - destruct (IH Hd1 Hl1) as [|(e & e' & He & ?)]; [by left|]. right. exists e, e'.
    split; [by eapply rtc_l|done].
  - right. exists d, d1. split_and!; [apply rtc_refl|done..].
Qed.

(** ** Theorems *)

(** C18. Mutual exclusion of run executors over time: if a fenced transaction of one
executor was accepted and, after any sequence of claims, renewals, releases, fenced
and other transactions, one of a second fence of the same run is accepted, then
either both fences are of the same owner and lease, or the second has a greater
generation and there was one step in between in which the first executor gave the
run up (it released its lease, alone or at the end of a fenced transaction, or a
claim found the lease expired), after which no fenced transaction of the first is
ever accepted. *)
Theorem fenced_exclusive {A B} d1 d2 f1 f2 t1 t1' t2 t2'
    (b1 : RunModel.t → db → res own_error (A * db))
    (b2 : RunModel.t → db → res own_error (B * db)) r1 r2 :
  tables_ok d1 → RunFence.run_id f1 = RunFence.run_id f2 →
  fenced f1 t1 t1' b1 d1 = Ok r1 → rtc step d1 d2 → fenced f2 t2 t2' b2 d2 = Ok r2 →
  same_lease f1 f2
  ∨ RunFence.generation f1 < RunFence.generation f2
    ∧ ∃ e e', rtc step d1 e ∧ step e e' ∧ rtc step e' d2 ∧ gives_up f1 e e'
        ∧ ∀ d3, rtc step e' d3 →
            ∀ t t' (b : RunModel.t → db → res own_error (A * db)) r, fenced f1 t t' b d3 ≠ Ok r.
Proof.
  intros Hd1 Hrun H1 Hs H2. destruct (steps_ok _ _ Hd1 Hs) as [[_ Hok] _].
  destruct (fenced_ok _ _ _ _ _ _ H1) as (run1 & l1 & _ & _ & Ha1 & Hh1 & _).
  destruct (fenced_ok _ _ _ _ _ _ H2) as (run2 & l2 & _ & _ & Ha2 & Hh2 & _).
  apply active_lease_Some in Ha1 as (Hl1 & _), Ha2 as (Hl2 & Hr2 & Hu2).
  destruct (steps_give_up f1 _ _ Hd1 Hs) as [(l & Hl & Hh)|(e & e' & He & Hee & He' & Hgu & Hde & Hsp)];
    [by exists l1| |].
  - left. assert (RunLeaseModel.run_id l = RunFence.run_id f1) as Hr
      by (destruct Hh as [Hk _]; unfold lease_key in Hk; congruence).
    destruct Hh as (Hk & Ho & Hu), Hh2 as (Hk2 & Ho2 & _).
    assert (l = l2) as -> by (eapply unreleased_unique; [done..|congruence|done|done]).
    unfold same_lease, lease_key in *. split_and!; congruence.
  - right. destruct (steps_ok _ _ Hde He') as [_ Hlt]. split.
    + destruct (spent_later _ _ _ Hlt Hsp) as (l & Hl & Hk & Hr). unfold lease_key in Hk.
      injection Hk as Hlr Hlg. pose proof (lo_newest _ Hok l2 l Hl2 Hl ltac:(congruence) Hu2).
      destruct Hh2 as (Hk2 & _). unfold lease_key in Hk2. injection Hk2 as _ Hg2.
      destruct (decide (RunLeaseModel.generation l = RunLeaseModel.generation l2)) as [Heq|]; [|lia].
      exfalso. apply Hr. rewrite (leases_ok_key _ l l2 Hok Hl Hl2); [done|]. unfold lease_key. congruence.
    + exists e, e'. split_and!; [done..|]. intros d3 Hs3 t t' b r.
      destruct (steps_ok _ _ Hde Hs3) as [[_ Hok3] Hlt3]. apply fenced_spent; [done|].
      by eapply spent_later.
Qed.

(** In every database state reachable from an empty lease table, each run has
at most one unreleased lease, that lease has the greatest generation of the run, and
(run, generation) is a key of the table. *)
Lemma reachable_leases_ok d0 d :
  keyed d0 → leases d0 = [] → rtc step d0 d → leases_ok (leases d).
Proof.
  intros Hk Hnil Hs. destruct (steps_ok d0 d) as [[_ Hok] _]; [|done|done].
  split; [done|]. rewrite Hnil. split; [by intros l ?%elem_of_nil|constructor|by intros l l' ?%elem_of_nil].
Qed.

(** C19. Fencing: once another claim of its run has succeeded, a stale executor can
never again commit a fenced transaction, whatever sequence of claims, renewals,
releases, fenced writes and other transactions follows. *)
Lemma superseded_forever {A} d d' d2 f f' owner ttl capacity mode locked now now' l
    t t' (body : RunModel.t → db → res own_error (A * db)) r :
  tables_ok d → now ≤ now' → l ∈ leases d → held f l →
  claim owner ttl capacity mode locked now now' d = Ok (Some f', d') →
  RunFence.run_id f' = RunFence.run_id f → rtc step d' d2 → fenced f t t' body d2 ≠ Ok r.
Proof.
  intros Hok Hnow Hl (Hkey & _ & _) Hc Hrun Hs.
  destruct (claim_Some _ _ _ _ _ _ _ _ _ _ Hok Hnow Hc)
    as (r0 & rec & old & _ & _ & Hf & _ & _ & _ & Hd' & _).
  destruct (claim_held _ _ _ _ _ _ _ _ _ _ Hok Hnow Hc) as (l' & Hl' & (Hkey' & _ & _) & _).
  destruct (steps_ok _ _ Hd' Hs) as [[_ Hok2] Hsup]. apply fenced_superseded; [done|].
  apply (superseded_later _ _ _ Hsup). exists l'. unfold lease_key in Hkey, Hkey'. injection Hkey' as Hr' Hg'.
  injection Hkey as Hr Hg. split_and!; [done|congruence|]. rewrite Hg', <-Hg, Hf. simpl.
  apply next_generation_fresh; [done|]. subst f'. simpl in *. congruence.
Qed.

Lemma claimable_not_terminal s : s ∈ claimable_statuses → s ∉ TERMINAL.
Proof.
  intros H1 H2. apply (bool_decide_pack _) in H1. apply (bool_decide_pack _) in H2.
  destruct s; vm_compute in H1, H2; done.
Qed.

(** A successful claim takes the first run in claim order (higher priority,
then earlier claimable time, creation time, identifier) among the eligible runs of
its mode that are not locked; that run is not in a terminal status, and the new
fence has a generation greater than every earlier lease of the run. *)
Lemma claim_selects owner ttl capacity mode locked now now' d f d' :
  tables_ok d → now ≤ now' → claim owner ttl capacity mode locked now now' d = Ok (Some f, d') →
  ∃ r, runs d !! RunFence.run_id f = Some r ∧ eligible mode now d r = true
    ∧ RunModel.status r ∉ TERMINAL
    ∧ (∀ i r', runs d !! i = Some r' → eligible mode now d r' = true → locked i = false →
         py_leb (claim_key r) (claim_key r') = true)
    ∧ ∀ l, l ∈ leases d → RunLeaseModel.run_id l = RunFence.run_id f →
        RunLeaseModel.generation l < RunFence.generation f.
Proof.
  intros Hok Hnow Hc. destruct (claim_Some _ _ _ _ _ _ _ _ _ _ Hok Hnow Hc)
    as (r & rec & old & Hsel & _ & -> & _).
  destruct Hok as [Hk Hok]. apply select_run_Some in Hsel as (Hr & He & _ & Hmin).
  exists r. simpl. rewrite elem_of_rows in Hr by done. split_and!; [done|done| | |].
  - unfold eligible in He. rewrite !andb_true_iff, bool_decide_eq_true in He.
    destruct He as [[[He _] _] _]. by apply claimable_not_terminal.
  - intros i r' Hr' He' Hlk. pose proof (Hk i r' Hr') as Hid. subst i.
    apply Hmin; [by rewrite elem_of_rows|done|done].
  - intros l Hl Hi. by apply next_generation_fresh.
Qed.

(** The order of claims: higher priority first, then earlier [claimable_at]. *)
Lemma claim_key_order r r' :
  py_leb (claim_key r) (claim_key r') = true →
  RunModel.priority r' < RunModel.priority r
  ∨ RunModel.priority r = RunModel.priority r' ∧ RunModel.claimable_at r ≤ RunModel.claimable_at r'.
Proof.
  unfold py_leb, claim_key. rewrite py_cmp_pair.
  destruct (py_cmp (- RunModel.priority r) (- RunModel.priority r')) eqn:Hp.
  - apply Z.compare_eq in Hp. intros Hc. right. split; [lia|]. revert Hc. rewrite py_cmp_pair.
    destruct (py_cmp (RunModel.claimable_at r) (RunModel.claimable_at r')) eqn:Hq; [| |done].
    + apply Z.compare_eq in Hq. lia.
    + change (RunModel.claimable_at r ?= RunModel.claimable_at r' = Lt) in Hq.
      rewrite Z.compare_lt_iff in Hq. lia.
  - change (- RunModel.priority r ?= - RunModel.priority r' = Lt) in Hp.
    rewrite Z.compare_lt_iff in Hp. intros _. left. lia.
  - done.
Qed.

(** C20. A registered, non-draining orchestrator with automatic dispatch enabled and
spare capacity always obtains a lease when some eligible run is not locked: claim
neither fails nor returns nothing. *)
Lemma claim_progress owner ttl capacity mode locked now now' d instance rec i r :
  tables_ok d → now ≤ now' → 0 < ttl → migrated d = true →
  instances d !! owner = Some instance → OrchestratorInstanceModel.draining instance = false →
  recovery d = Some rec → RecoveryGenerationModel.automatic_dispatch_enabled rec = true →
  (∀ c, capacity = Some c → Z.of_nat (length (live_leases now d)) < c) →
  runs d !! i = Some r → eligible mode now d r = true → locked i = false →
  ∃ f d', claim owner ttl capacity mode locked now now' d = Ok (Some f, d').
Proof.
  intros [Hk Hok] Hnow Httl Hmig Hinst Hdr Hrec Hen Hcap Hr He Hlk.
  pose proof (Hk i r Hr) as Hid. subst i.
  unfold claim, lock_events. rewrite Hmig, Hinst, Hrec; simpl. rewrite Hdr, Hen. simpl.
  assert (match capacity with
          | Some c => Z.leb c (Z.of_nat (length (live_leases now d)))
          | None => false end = false) as ->.
  { destruct capacity as [c|]; [|done]. apply Z.leb_gt. by apply Hcap. }
  destruct (select_run mode locked now d) as [r0|] eqn:Hsel.
  2: { rewrite (select_run_None _ _ _ _ r Hsel) in He; [done|by apply elem_of_rows|done]. }
  apply select_run_Some in Hsel as (Hr0 & He0 & _ & _). rewrite elem_of_rows in Hr0 by done.
  assert (∃ l d1, acquire (RunModel.id r0) owner ttl now' d = Ok (Some l, d1)) as (l & d1 & ->).
  { unfold acquire. destruct (Z.leb_spec ttl 0); [lia|]. rewrite Hr0.
    destruct (active_lease (RunModel.id r0) (leases d)) as [a|] eqn:Ha; [|by do 2 eexists].
    pose proof (eligible_expired _ _ _ _ _ He0 Ha).
    destruct (Z.ltb_spec now' (RunLeaseModel.expires_at a)); [lia|by do 2 eexists]. }
  simpl. by do 2 eexists.
Qed.

(** The fence that claim returns authorises its holder: until the lease's time
to live has passed, a fenced transaction on the tables claim left runs its body on
the claimed run. *)
Lemma claim_authorizes {A} owner ttl capacity mode locked now now' d f d' t t'
    (body : RunModel.t → db → res own_error (A * db)) :
  tables_ok d → now ≤ now' → claim owner ttl capacity mode locked now now' d = Ok (Some f, d') →
  app_body body → t < now' + ttl → t' < now' + ttl →
  ∃ r', runs d' !! RunFence.run_id f = Some r' ∧ fenced f t t' body d' = body r' d'.
Proof.
  intros Hok Hnow Hc Hbody Ht Ht'.
  destruct (claim_Some _ _ _ _ _ _ _ _ _ _ Hok Hnow Hc)
    as (r & rec & old & _ & Hrec & Hf & Hen & _ & _ & [_ Hok'] & _ & Hmig & Hrec' & r' & Hr' & Hst).
  destruct (claim_held _ _ _ _ _ _ _ _ _ _ Hok Hnow Hc) as (l & Hl & (Hkey & Hown & Hrel) & Hexp).
  assert (RunFence.run_id f = RunModel.id r) as Hfr by (by subst f).
  exists r'. rewrite Hfr. split; [done|].
  unfold lease_key in Hkey. injection Hkey as Hlr Hlg.
  pose proof (active_lease_elem _ _ Hok' Hl Hrel) as Ha. rewrite Hlr in Ha.
  unfold fenced, lock_events. rewrite Hmig. simpl. rewrite Ha, Hfr, Hr', Hrec', Hrec.
  assert (authorized f t r' l rec = true) as ->.
  { assert (RunFence.recovery_generation f = RecoveryGenerationModel.generation rec) as Hfg
      by (by subst f).
    unfold authorized. rewrite Hst, Hown, Hlg, Hen, Hexp, Hfg.
    rewrite (bool_decide_false (RunStatus.CLAIMING ∈ TERMINAL))
      by (apply claimable_not_terminal; unfold claimable_statuses; set_solver).
    rewrite !bool_decide_true by done.
    by rewrite (proj2 (Z.ltb_lt t (now' + ttl)) Ht). }
  destruct (body r' d') as [[a d2]|] eqn:Hb; simpl; [|done].
  destruct (Hbody _ _ _ _ Hb) as [-> _].
  assert (find_lease (RunModel.id r) (RunFence.generation f) (leases d') = Some l) as ->.
  { unfold find_lease.
    assert (l ∈ filter (λ l, row_is (RunModel.id r) (RunFence.generation f) l = true) (leases d'))
      as Hin by (apply list_elem_of_filter; split; [apply row_is_spec; unfold lease_key; congruence|done]).
    destruct (filter _ (leases d')) as [|k ks] eqn:Hfl; [by apply elem_of_nil in Hin|]. simpl. f_equal.
    assert (k ∈ filter (λ l, row_is (RunModel.id r) (RunFence.generation f) l = true) (leases d'))
      as Hk by (rewrite Hfl; by left).
    apply list_elem_of_filter in Hk as [Hk Hkin]. apply row_is_spec in Hk.
    apply (leases_ok_key (leases d')); [done..|]. unfold lease_key. unfold lease_key in Hk. congruence. }
  simpl. rewrite Hexp. by rewrite (proj2 (Z.leb_gt (now' + ttl) t') Ht').
Qed.

Lemma length_filter_fmap (P : RunLeaseModel.t → Prop) `{∀ l, Decision (P l)} g ls :
  (∀ l, P (g l) → P l) → (length (filter P (g <$> ls)) ≤ length (filter P ls))%nat.
Proof.
  intros Hg. induction ls as [|l ls IH]; [done|]. csimpl. rewrite !filter_cons.
  destruct (decide (P (g l))), (decide (P l)); simpl; [lia|naive_solver|lia|done].
Qed.

(** With a capacity c, a successful claim leaves at most c live leases in the
whole table. *)
Lemma claim_capacity owner ttl c mode locked now now' d f d' :
  tables_ok d → now ≤ now' →
  claim owner ttl (Some c) mode locked now now' d = Ok (Some f, d') →
  Z.of_nat (length (live_leases now d')) ≤ c.
Proof.
  intros Hok Hnow Hc. destruct (claim_Some _ _ _ _ _ _ _ _ _ _ Hok Hnow Hc)
    as (r & rec & old & Hsel & _ & _ & _ & Hold & Hls & _).
  assert (Z.of_nat (length (live_leases now d)) < c) as Hlt.
  { unfold claim in Hc. apply res_bind_ok in Hc as (? & _ & Hc).
    destruct (instances d !! owner); [|done]. destruct (recovery d); [|done].
    destruct (Z.leb_spec c (Z.of_nat (length (live_leases now d)))); [|done].
    by rewrite orb_true_r in Hc. }
  unfold live_leases in *. rewrite Hls.
  assert (length (filter (λ l, live now l = true) old)
          ≤ length (filter (λ l, live now l = true) (leases d)))%nat as Hle.
  { destruct Hold as [->|[g ->]]; [done|]. apply length_filter_fmap. intros l.
    destruct (row_is _ _ l); [|done]. unfold live. intros [Hu _]%andb_true_iff.
    by apply unreleased_spec in Hu. }
  pose proof (length_filter_fmap (λ l, live now l = true)
    (λ l, if row_is (RunModel.id r) (RunFence.generation f) l
          then RunLeaseModel.with_heartbeat now l else l)
    (old ++ [RunLeaseModel.Build_t (RunModel.id r) owner (RunFence.generation f) now' None
               (now' + ttl) None])) as Hhb.
  rewrite filter_app, length_app in Hhb.
  assert (length (filter (λ l, live now l = true)
    [RunLeaseModel.Build_t (RunModel.id r) owner (RunFence.generation f) now' None (now' + ttl) None])
    ≤ 1)%nat by (rewrite filter_cons; case_decide; simpl; lia).
  assert (∀ l, live now (if row_is (RunModel.id r) (RunFence.generation f) l
          then RunLeaseModel.with_heartbeat now l else l) = true → live now l = true) as Hl
    by (intros l; by destruct (row_is _ _ l)).
  specialize (Hhb Hl). unfold alter_lease. lia.
Qed.
