(* ===== verification/Commands.v ===== *)
(** * Run commands

[CommandProcessor] of [orchestrator/app/jarvis_orchestrator/runtime/commands.py]:
pending commands of a run are settled in sequence, in one transaction.

[apply_drains] states that every command is settled, [apply_cancel] that a
cancellation dominates whatever is pending with it, [apply_terminal] that nothing
but a retry acts on a finished run, [apply_retry] and [apply_numbers] what a retry
creates, and [apply_step] that applying commands is a step of the ownership
system. *)
From S2P Require Import Prelude Enums PyJson PyDecimal Failures Verification Registry.
From S2P Require Import WorkflowSpec Normalize Validate Database Ownership.
Local Open Scope Z_scope.
Local Open Scope stdpp_scope.

(** [datetime.fromisoformat]: [None] when it raises. *)
Class IsoFormat := fromisoformat : string → option Z.

Inductive cmd_error : Set := CmdNotMigrated | CmdTypeError | CmdValueError | CmdAssertion | CmdKeyError.

(** The clock readings and the identifier a command's handling uses. *)
Record readings := { r_now : Z; r_applied : Z; r_fresh : uuid; r_created : Z }.

(** The [reason] and [status] of a command's disposition. *)
Record disposition := { reason : string; disposed : CommandStatus.t }.

Definition applied : disposition := {| reason := "applied"; disposed := CommandStatus.APPLIED |}.
Definition rejected (r : string) : disposition :=
  {| reason := r; disposed := CommandStatus.REJECTED |}.

(** ** [_retry] *)

(** [func.max(RunModel.run_number)] over the runs of a job *)
Definition max_run_number (job : uuid) (d : db) : option Z :=
  foldr (λ r acc, Some (match acc with
                        | Some n => Z.max (RunModel.run_number r) n
                        | None => RunModel.run_number r
                        end)) None
    (filter (λ r, RunModel.job_id r = job) (map_to_list (runs d)).*2).

(** The run that a retry creates. *)
Definition linked_run (run : RunModel.t) (c : readings) (d : db) : RunModel.t :=
  {| RunModel.id := r_fresh c;
     RunModel.job_id := RunModel.job_id run;
     RunModel.run_number := default 0 (max_run_number (RunModel.job_id run) d) + 1;
     RunModel.parent_run_id := Some (RunModel.id run);
     RunModel.workflow_version_id := RunModel.workflow_version_id run;
     RunModel.config_snapshot_id := RunModel.config_snapshot_id run;
     RunModel.langgraph_thread_id := uuid_str (r_fresh c);
     RunModel.status := RunStatus.QUEUED;
     RunModel.desired_state := DesiredRunState.RUNNING;
     RunModel.priority := RunModel.priority run;
     RunModel.mode := RunModel.mode run;
     RunModel.runtime_json :=
       match dict_get "demo_fixture" (RunModel.runtime_json run) with
       | Some v => if bool_decide (RunModel.mode run = "demo") then [("demo_fixture", v)] else []
       | None => []
       end;
     RunModel.claimable_at := r_now c;
     RunModel.created_at := r_created c;
     RunModel.version := 0 |}.

Definition _retry (run : RunModel.t) (command : RunCommandModel.t) (c : readings) (d : db)
    : res cmd_error db :=
  let linked := linked_run run c d in
  match jobs d !! RunModel.job_id run with
  | None => Err CmdAssertion
  | Some _ =>
      Ok (event linked "run.queued"
            [("retry_of_run_id", JStr (uuid_str (RunModel.id run)));
             ("command_id", JStr (uuid_str (RunCommandModel.id command)))]
            (set_jobs (<[RunModel.job_id run := JobStatus.QUEUED]> (jobs d)) (put_run linked d)))
  end.

Section commands.
Context `{IsoFormat} `{SpecModel}.

(** ** Instructions *)

(** A node that can receive runtime instructions. *)
Definition receives (n : RawNode.t) : bool :=
  NodeDefinition.external (NODE_DEFINITIONS (RawNode.type n))
  && bool_decide (WorkflowNodeType.value (RawNode.type n) ∈ ["organizer"; "architect"; "worker"])
  && NodePolicy.accepts_runtime_instructions (RawNode.policy n).

Definition has_receiver (run : RunModel.t) (d : db) : bool :=
  match workflow_versions d !! RunModel.workflow_version_id run with
  | None => false
  | Some spec_json =>
      match spec_validate spec_json with
      | Ok spec => existsb receives (WorkflowSpec.nodes spec)
      | Err _ => false
      end
  end.

(** [list(run.runtime_json.get("instructions", []))]; only arrays are stored. *)
Definition instructions_of (run : RunModel.t) : res cmd_error (list json) :=
  match default (JArr []) (dict_get "instructions" (RunModel.runtime_json run)) with
  | JArr l => Ok l
  | _ => Err CmdTypeError
  end.

Definition instruct (run : RunModel.t) (command : RunCommandModel.t) (d : db)
    : res cmd_error (disposition * RunModel.t * db) :=
  instructions ← instructions_of run;
  if bool_decide (RunModel.desired_state run = DesiredRunState.CANCELLED)
     || negb (has_receiver run d)
  then Ok (rejected "no_eligible_instruction_receiver", run, d)
  else if Nat.leb 100 (length instructions) then Ok (rejected "instruction_capacity", run, d)
  else
    let id := JStr (uuid_str (RunCommandModel.id command)) in
    let entry := JObj (dict_update [("command_id", id)] (RunCommandModel.payload_json command)) in
    let run := RunModel.with_runtime
                 (dict_update (RunModel.runtime_json run)
                    [("instructions", JArr (instructions ++ [entry]))]) run in
    Ok (applied, run,
        event run "instruction.queued"
          [("command_id", id);
           ("summary", JStr "Waiting for a supported instruction safe point")] d).

(** ** Other commands *)

Definition cancel (run : RunModel.t) (c : readings) (d : db) : RunModel.t * db :=
  let run := RunModel.with_claimable (r_now c)
               (RunModel.with_status RunStatus.CANCEL_REQUESTED
                  (RunModel.with_desired DesiredRunState.CANCELLED run)) in
  (run, event run "run.cancel_requested" [] d).

Definition pause (run : RunModel.t) (c : readings) (d : db) : RunModel.t * db :=
  let run := RunModel.with_claimable (r_now c)
               (RunModel.with_status RunStatus.PAUSE_REQUESTED
                  (RunModel.with_desired DesiredRunState.PAUSED run)) in
  (run, event run "run.pause_requested" [] d).

(** [max(now, datetime.fromisoformat(retry_at)) if retry_at else now] *)
Definition resume_at (run : RunModel.t) (now : Z) : res cmd_error Z :=
  match dict_get "retry_at" (RunModel.runtime_json run) with
  | None => Ok now
  | Some v =>
      if truthy v then
        match v with
        | JStr s => match fromisoformat s with
                    | Some t => Ok (Z.max now t)
                    | None => Err CmdValueError
                    end
        | _ => Err CmdTypeError
        end
      else Ok now
  end.

Definition resume (run : RunModel.t) (c : readings) (d : db) : res cmd_error (RunModel.t * db) :=
  at_ ← resume_at run (r_now c);
  let run := RunModel.with_claimable at_
               (RunModel.with_status RunStatus.QUEUED
                  (RunModel.with_desired DesiredRunState.RUNNING run)) in
  Ok (run, event run "run.resumed" [] d).

(** The disposition of one command: the [if] chain of the loop body. *)
Definition dispose (cancel_pending : bool) (c : readings) (run : RunModel.t)
    (command : RunCommandModel.t) (d : db) : res cmd_error (disposition * RunModel.t * db) :=
  let kind := RunCommandModel.kind command in
  if bool_decide (kind = RunCommandKind.RETRY) then
    if bool_decide (RunModel.status run ∈ [RunStatus.FAILED; RunStatus.BLOCKED]) then
      d ← _retry run command c d; Ok (applied, run, d)
    else Ok (rejected "retry_requires_failed_or_blocked", run, d)
  else if bool_decide (RunModel.status run ∈ TERMINAL) then Ok (rejected "terminal_run", run, d)
  else
    match kind with
    | RunCommandKind.CANCEL => let r := cancel run c d in Ok (applied, r.1, r.2)
    | RunCommandKind.PAUSE =>
        if cancel_pending || bool_decide (RunModel.desired_state run = DesiredRunState.CANCELLED)
        then Ok (Build_disposition "cancel_dominates" CommandStatus.SUPERSEDED, run, d)
        else if bool_decide (RunModel.status run = RunStatus.PAUSED)
        then Ok (rejected "already_paused", run, d)
        else let r := pause run c d in Ok (applied, r.1, r.2)
    | RunCommandKind.RESUME =>
        if cancel_pending || bool_decide (RunModel.desired_state run = DesiredRunState.CANCELLED)
        then Ok (Build_disposition "cancel_dominates" CommandStatus.SUPERSEDED, run, d)
        else if bool_decide (RunModel.status run = RunStatus.PAUSED)
        then r ← resume run c d; Ok (applied, r.1, r.2)
        else Ok (rejected "resume_requires_paused", run, d)
    | RunCommandKind.INSTRUCTION => instruct run command d
    | RunCommandKind.RETRY => Ok (applied, run, d)
    end.

(** [command.status = status; command.applied_at = now] *)
Definition settle_command (i : uuid) (s : CommandStatus.t) (now : Z) (d : db) : db :=
  set_commands ((λ c, if bool_decide (RunCommandModel.id c = i)
                      then RunCommandModel.settle s now c else c) <$> commands d) d.

(** One iteration of the loop. *)
Definition apply_command (cancel_pending : bool) (clock : uuid → readings)
    (acc : RunModel.t * db) (command : RunCommandModel.t) : res cmd_error (RunModel.t * db) :=
  let c := clock (RunCommandModel.id command) in
  r ← dispose cancel_pending c acc.1 command acc.2;
  let '(outcome, run, d) := r in
  let d := settle_command (RunCommandModel.id command) (disposed outcome) (r_applied c) d in
  let run := RunModel.bump run in
  let d := put_run run d in
  Ok (run,
      event run
        (if bool_decide (disposed outcome = CommandStatus.APPLIED)
         then "run.command_applied" else "run.command_rejected")
        [("command_id", JStr (uuid_str (RunCommandModel.id command)));
         ("sequence", JInt (RunCommandModel.sequence command));
         ("kind", JStr (RunCommandKind.value (RunCommandModel.kind command)));
         ("disposition", JStr (CommandStatus.value (disposed outcome)));
         ("reason", JStr (reason outcome))] d).

(** The pending commands of a run, in sequence. *)
Definition pending (run_id : uuid) (d : db) : list RunCommandModel.t :=
  sorted_key RunCommandModel.sequence
    (filter (λ c, RunCommandModel.run_id c = run_id
                  ∧ RunCommandModel.status c = CommandStatus.PENDING) (commands d)).

Definition cancel_pending_in (cs : list RunCommandModel.t) : bool :=
  existsb (λ c, bool_decide (RunCommandModel.kind c = RunCommandKind.CANCEL)) cs.

Definition apply (run_id : uuid) (clock : uuid → readings) (d : db) : res cmd_error db :=
  if negb (migrated d) then Err CmdNotMigrated
  else
    match runs d !! run_id with
    | None => Ok d
    | Some run =>
        let cs := pending run_id d in
        snd <$> foldM (apply_command (cancel_pending_in cs) clock) (run, d) cs
    end.

(** [poll]: each run with pending commands in a transaction of its own. *)
Definition poll_runs (limit : nat) (d : db) : list uuid :=
  take limit (sorted_key id (fromkeys (RunCommandModel.run_id <$>
    filter (λ c, RunCommandModel.status c = CommandStatus.PENDING) (commands d)))).

(** An exception leaves the transactions that already committed. *)
Fixpoint poll_loop (clock : uuid → readings) (ids : list uuid) (d : db) : db * option cmd_error :=
  match ids with
  | [] => (d, None)
  | i :: ids' =>
      match apply i clock d with
      | Ok d' => poll_loop clock ids' d'
      | Err e => (d, Some e)
      end
  end.

Definition poll (limit : nat) (clock : uuid → readings) (d : db) : db * option cmd_error :=
  poll_loop clock (poll_runs limit d) d.
End commands.

(** ** What a command leaves alone *)

Section frames.
Context `{IsoFormat} `{SpecModel}.

(** Tables other than runs, jobs and events are untouched. *)
Record same_tables (d d' : db) : Prop := {
  st_leases : leases d' = leases d;
  st_commands : commands d' = commands d;
  st_migrated : migrated d' = migrated d;
  st_keyed : keyed d → keyed d';
}.

Lemma same_tables_refl d : same_tables d d.
Proof. done. Qed.
Lemma same_tables_trans d1 d2 d3 : same_tables d1 d2 → same_tables d2 d3 → same_tables d1 d3.
Proof. intros [] []. split; try congruence. auto. Qed.
Lemma same_tables_event r n data d : same_tables d (event r n data d).
Proof. done. Qed.
Lemma same_tables_put r d : same_tables d (put_run r d).
Proof. split; try done. apply keyed_put_run. Qed.

Lemma retry_tables run command c d d' :
  _retry run command c d = Ok d' →
  same_tables d d' ∧ runs d' = <[r_fresh c := linked_run run c d]> (runs d).
Proof.
  unfold _retry. destruct (jobs d !! RunModel.job_id run); [|done]. intros [= <-].
  split; [|done]. split; try done. intros Hk. by apply (keyed_put_run (linked_run run c d) d).
Qed.

(** The parts of a run that no command changes. *)
Definition same_run (r r' : RunModel.t) : Prop :=
  RunModel.id r' = RunModel.id r ∧ RunModel.job_id r' = RunModel.job_id r
  ∧ RunModel.run_number r' = RunModel.run_number r
  ∧ RunModel.workflow_version_id r' = RunModel.workflow_version_id r
  ∧ RunModel.mode r' = RunModel.mode r ∧ RunModel.priority r' = RunModel.priority r
  ∧ RunModel.version r' = RunModel.version r.

Lemma instruct_frame run command d o run' d' :
  instruct run command d = Ok (o, run', d') →
  same_tables d d' ∧ runs d' = runs d ∧ same_run run run'
  ∧ RunModel.status run' = RunModel.status run
  ∧ RunModel.desired_state run' = RunModel.desired_state run
  ∧ disposed o ∈ [CommandStatus.APPLIED; CommandStatus.REJECTED].
Proof.
  unfold instruct. intros (l & _ & Hi)%res_bind_ok. destruct (_ || _).
  { injection Hi as <- <- <-. split_and!; try done. set_solver. }
  destruct (Nat.leb _ _); injection Hi as <- <- <-; split_and!; try done; set_solver.
Qed.

Lemma resume_frame run c d run' d' :
  resume run c d = Ok (run', d') →
  same_tables d d' ∧ runs d' = runs d ∧ same_run run run'
  ∧ RunModel.status run' = RunStatus.QUEUED ∧ RunModel.desired_state run' = DesiredRunState.RUNNING.
Proof. unfold resume. intros (at_ & _ & Hr)%res_bind_ok. by injection Hr as <- <-. Qed.

(** What a disposition can do. *)
Record disposes (cp : bool) (c : readings) (run : RunModel.t) (command : RunCommandModel.t)
    (d : db) (o : disposition) (run' : RunModel.t) (d' : db) : Prop := {
  di_tables : same_tables d d';
  di_run : same_run run run';
  di_runs : runs d' = runs d
    ∨ RunCommandModel.kind command = RunCommandKind.RETRY
      ∧ RunModel.status run ∈ [RunStatus.FAILED; RunStatus.BLOCKED]
      ∧ disposed o = CommandStatus.APPLIED
      ∧ runs d' = <[r_fresh c := linked_run run c d]> (runs d);
  di_settled : disposed o ∈ [CommandStatus.APPLIED; CommandStatus.REJECTED; CommandStatus.SUPERSEDED];
  di_terminal : RunModel.status run ∈ TERMINAL →
    run' = run ∧ (disposed o = CommandStatus.APPLIED →
                  RunCommandModel.kind command = RunCommandKind.RETRY
                  ∧ RunModel.status run ∈ [RunStatus.FAILED; RunStatus.BLOCKED]);
  di_nonterminal : RunModel.status run ∉ TERMINAL → RunModel.status run' ∉ TERMINAL;
  di_dominated : RunModel.status run ∉ TERMINAL →
    RunCommandModel.kind command ∈ [RunCommandKind.PAUSE; RunCommandKind.RESUME] →
    cp = true ∨ RunModel.desired_state run = DesiredRunState.CANCELLED →
    run' = run ∧ disposed o = CommandStatus.SUPERSEDED;
  di_cancel : RunModel.status run ∉ TERMINAL →
    RunCommandModel.kind command = RunCommandKind.CANCEL →
    RunModel.desired_state run' = DesiredRunState.CANCELLED
    ∧ RunModel.status run' = RunStatus.CANCEL_REQUESTED ∧ disposed o = CommandStatus.APPLIED;
  di_other : RunCommandModel.kind command ∈ [RunCommandKind.RETRY; RunCommandKind.INSTRUCTION] →
    RunModel.status run' = RunModel.status run
    ∧ RunModel.desired_state run' = RunModel.desired_state run;
}.

Lemma failed_terminal s : s ∈ [RunStatus.FAILED; RunStatus.BLOCKED] → s ∈ TERMINAL.
Proof.
  intros Hs. apply (bool_decide_unpack _). apply (bool_decide_pack _) in Hs.
  destruct s; vm_compute in Hs |- *; done.
Qed.

Lemma requested_nonterminal s :
  s ∈ [RunStatus.QUEUED; RunStatus.PAUSE_REQUESTED; RunStatus.CANCEL_REQUESTED] → s ∉ TERMINAL.
Proof. intros Hs. apply claimable_not_terminal. unfold claimable_statuses. set_solver. Qed.

(** Membership among constants, decided. *)
Ltac elem_consts := by (apply (bool_decide_unpack _); vm_compute).
Ltac not_elem_consts H := exfalso; apply (bool_decide_pack _) in H; by vm_compute in H.

(** The clauses of [disposes] that the case at hand settles. *)
Ltac disposes_tac Hkind :=
  split; simpl; try done; try (by left); try elem_consts; try (by intros; congruence);
  try (intros _ Hin; rewrite Hkind in Hin; not_elem_consts Hin);
  try (intros Hin; rewrite Hkind in Hin; not_elem_consts Hin);
  try (intros _ _ [|]; congruence);
  try (by intros; apply requested_nonterminal; elem_consts).

Lemma dispose_spec cp c run command d o run' d' :
  dispose cp c run command d = Ok (o, run', d') → disposes cp c run command d o run' d'.
Proof.
  unfold dispose. case_bool_decide as Hkind.
  - case_bool_decide as Hst.
    + intros (d1 & Hr & Ho)%res_bind_ok. injection Ho as <- <- <-.
      destruct (retry_tables _ _ _ _ _ Hr) as [Ht Hruns]. pose proof (failed_terminal _ Hst).
      disposes_tac Hkind. by right.
    + intros [= <- <- <-]. disposes_tac Hkind.
  - case_bool_decide as Hterm; [intros [= <- <- <-]; disposes_tac Hkind|].
    rename Hkind into Hretry. destruct (RunCommandModel.kind command) eqn:Hkind; try done.
    + destruct (cp || _) eqn:Hcp; [intros [= <- <- <-]; disposes_tac Hkind|].
      apply orb_false_iff in Hcp as [-> Hnc%bool_decide_eq_false].
      case_bool_decide as Hp; intros [= <- <- <-]; disposes_tac Hkind.
    + destruct (cp || _) eqn:Hcp; [intros [= <- <- <-]; disposes_tac Hkind|].
      apply orb_false_iff in Hcp as [-> Hnc%bool_decide_eq_false].
      case_bool_decide as Hp; [|intros [= <- <- <-]; disposes_tac Hkind].
      intros ([r1 d1] & Hr & Ho)%res_bind_ok. injection Ho as <- <- <-.
      destruct (resume_frame _ _ _ _ _ Hr) as (Ht & Hruns & Hsame & Hst & Hds).
      assert (RunModel.status r1 ∉ TERMINAL) by (apply requested_nonterminal; rewrite Hst; elem_consts).
      disposes_tac Hkind.
    + intros [= <- <- <-]; disposes_tac Hkind.
    + intros Hi. destruct (instruct_frame _ _ _ _ _ _ Hi) as (Ht & Hruns & Hsame & Hst & Hds & Ho).
      assert (RunModel.status run' ∉ TERMINAL) by (by rewrite Hst).
      assert (disposed o ∈ [CommandStatus.APPLIED; CommandStatus.REJECTED; CommandStatus.SUPERSEDED])
        by (clear -Ho; set_solver).
      disposes_tac Hkind.
Qed.

(** ** The loop *)

(** What the loop does to a command: one of [cs] is settled with a status that
[Q] allows, and the others are left alone. *)
Definition settled (Q : RunCommandModel.t → CommandStatus.t → Prop) (clock : uuid → readings)
    (cs : list RunCommandModel.t) (c c' : RunCommandModel.t) : Prop :=
  if decide (RunCommandModel.id c ∈ RunCommandModel.id <$> cs)
  then ∃ command st, command ∈ cs ∧ RunCommandModel.id command = RunCommandModel.id c ∧ Q command st
         ∧ c' = RunCommandModel.settle st (r_applied (clock (RunCommandModel.id c))) c
  else c' = c.

Lemma settle_id st t c : RunCommandModel.id (RunCommandModel.settle st t c) = RunCommandModel.id c.
Proof. done. Qed.

Lemma apply_command_ok cp clock run d command run' d' :
  apply_command cp clock (run, d) command = Ok (run', d') →
  ∃ o run1 d1, disposes cp (clock (RunCommandModel.id command)) run command d o run1 d1
    ∧ run' = RunModel.bump run1
    ∧ commands d' = (λ c, if bool_decide (RunCommandModel.id c = RunCommandModel.id command)
        then RunCommandModel.settle (disposed o) (r_applied (clock (RunCommandModel.id command))) c
        else c) <$> commands d
    ∧ leases d' = leases d ∧ (keyed d → keyed d')
    ∧ runs d' = <[RunModel.id run := run']> (runs d1).
Proof.
  unfold apply_command. intros ([[o run1] d1] & Hd & Hr)%res_bind_ok.
  apply dispose_spec in Hd as Hdi. injection Hr as <- <-.
  destruct (di_tables _ _ _ _ _ _ _ _ Hdi) as [Hl Hc Hm Hk].
  exists o, run1, d1. split_and!; try done.
  - simpl. by rewrite Hc.
  - intros Hkd. apply (keyed_put_run (RunModel.bump run1) d1). auto.
  - simpl. f_equal. apply (di_run _ _ _ _ _ _ _ _ Hdi).
Qed.

Section loop.
Variables (cp : bool) (clock : uuid → readings).
(** A property of the run that every command keeps, and of what becomes of the
commands. *)
Variables (Inv : RunModel.t → Prop) (Q : RunCommandModel.t → CommandStatus.t → Prop).
Hypothesis Hstep : ∀ c run command d o run' d',
  Inv run → disposes cp c run command d o run' d' →
  Inv (RunModel.bump run') ∧ Q command (disposed o).

Lemma loop_spec cs run d run' d' :
  Inv run → NoDup (RunCommandModel.id <$> cs) →
  foldM (apply_command cp clock) (run, d) cs = Ok (run', d') →
  Inv run' ∧ Forall2 (settled Q clock cs) (commands d) (commands d')
  ∧ leases d' = leases d ∧ (keyed d → keyed d')
  ∧ RunModel.id run' = RunModel.id run
  ∧ RunModel.version run' = RunModel.version run + Z.of_nat (length cs)
  ∧ (runs d !! RunModel.id run = Some run → runs d' !! RunModel.id run = Some run').
Proof.
  revert run d; induction cs as [|command cs IH]; intros run d Hinv Hnd.
  - intros [= <- <-]. split_and!; try done; [|simpl; lia].
    apply Forall_Forall2_diag, Forall_forall. intros c _. unfold settled.
    by rewrite decide_False by apply not_elem_of_nil.
  - cbn [foldM]. intros ([run1 d1] & Ha & Hf)%res_bind_ok.
    apply apply_command_ok in Ha as (o & run0 & d0 & Hdi & -> & Hc & Hl & Hk & Hruns).
    csimpl in Hnd. apply NoDup_cons in Hnd as [Hni Hnd].
    destruct (Hstep _ _ _ _ _ _ _ Hinv Hdi) as [Hinv' HQ].
    destruct (IH _ _ Hinv' Hnd Hf) as (Hi & Hs & Hl' & Hk' & Hid & Hv & Hrow).
    destruct (di_run _ _ _ _ _ _ _ _ Hdi) as (Hid0 & _ & _ & _ & _ & _ & Hv0).
    simpl in Hid, Hv, Hrow. split_and!; [done| |congruence|auto|congruence|simpl; lia|].
    + rewrite Hc in Hs. apply (proj1 (Forall2_fmap_l _ _ _ _)) in Hs. eapply Forall2_impl; [exact Hs|].
      intros c c' Hcc. simpl in Hcc. unfold settled in *. case_bool_decide as Heq.
      * rewrite settle_id in Hcc. rewrite Heq in Hcc |- *. rewrite decide_False in Hcc by done.
        rewrite decide_True by (csimpl; rewrite elem_of_cons; by left).
        exists command, (disposed o). split_and!; [by left|done|done|done].
      * destruct (decide (RunCommandModel.id c ∈ RunCommandModel.id <$> cs)) as [Hin|Hin].
        -- rewrite decide_True by (csimpl; rewrite elem_of_cons; by right).
           destruct Hcc as (cm & st & Hcm & ? & ? & ->). exists cm, st. split_and!; try done. by right.
        -- by rewrite decide_False by (csimpl; rewrite not_elem_of_cons; split; [congruence|done]).
    + intros _. rewrite <-Hid0. apply Hrow. rewrite Hruns, Hid0. apply lookup_insert_eq.
Qed.
End loop.

(** ** Theorems *)

(** Command IDs are a primary key. *)
Definition commands_ok (d : db) : Prop := NoDup (RunCommandModel.id <$> commands d).

Definition is_pending (run_id : uuid) (c : RunCommandModel.t) : Prop :=
  RunCommandModel.run_id c = run_id ∧ RunCommandModel.status c = CommandStatus.PENDING.

(** A pending command of the run gets a status that [Q] allows; other commands
stay as they are. *)
Definition settles (Q : RunCommandModel.t → CommandStatus.t → Prop) (clock : uuid → readings)
    (run_id : uuid) (c c' : RunCommandModel.t) : Prop :=
  if decide (RunCommandModel.run_id c = run_id ∧ RunCommandModel.status c = CommandStatus.PENDING)
  then ∃ st, Q c st
         ∧ c' = RunCommandModel.settle st (r_applied (clock (RunCommandModel.id c))) c
  else c' = c.

Lemma elem_of_pending run_id d c : c ∈ pending run_id d ↔ c ∈ commands d ∧ is_pending run_id c.
Proof. unfold pending. rewrite elem_of_sorted_key, list_elem_of_filter. unfold is_pending. tauto. Qed.

Lemma pending_NoDup run_id d : commands_ok d → NoDup (RunCommandModel.id <$> pending run_id d).
Proof.
  intros Hok. unfold pending. rewrite sorted_key_perm. unfold commands_ok in Hok.
  induction (commands d) as [|c cs IH]; [done|]. csimpl in *. apply NoDup_cons in Hok as [Hc Hcs].
  rewrite filter_cons. case_decide; [|by apply IH]. csimpl. constructor; [|by apply IH].
  intros Hin. apply Hc. apply list_elem_of_fmap in Hin as (y & -> & [_ Hy]%list_elem_of_filter).
  by apply list_elem_of_fmap_2.
Qed.

Lemma apply_spec Inv Q clock run_id run d d' :
  (∀ c r command d1 o r' d1', Inv r →
     disposes (cancel_pending_in (pending run_id d)) c r command d1 o r' d1' →
     Inv (RunModel.bump r') ∧ Q command (disposed o)) →
  keyed d → commands_ok d → runs d !! run_id = Some run → Inv run → apply run_id clock d = Ok d' →
  ∃ run', runs d' !! run_id = Some run' ∧ Inv run'
    ∧ RunModel.version run' = RunModel.version run + Z.of_nat (length (pending run_id d))
    ∧ Forall2 (settles Q clock run_id) (commands d) (commands d')
    ∧ leases d' = leases d ∧ keyed d'.
Proof.
  intros Hstep Hk Hok Hrun Hinv. unfold apply. destruct (migrated d); simpl; [|done].
  rewrite Hrun. destruct (foldM _ _ _) as [[run' d1]|] eqn:Hf; simpl; [|done]. intros [= <-].
  pose proof (Hk _ _ Hrun) as Hid.
  destruct (loop_spec _ clock Inv Q Hstep _ _ _ _ _ Hinv (pending_NoDup run_id d Hok) Hf)
    as (Hinv' & Hs & Hl & Hk' & _ & Hv & Hrow).
  exists run'. rewrite Hid in Hrow. split_and!; try done; [by apply Hrow| |by apply Hk'].
  eapply Forall2_impl_elem; [exact Hs|]. intros c c' Hc Hcc. unfold settled in Hcc. unfold settles.
  destruct (decide (RunCommandModel.id c ∈ RunCommandModel.id <$> pending run_id d)) as [Hin|Hin].
  - destruct Hcc as (cm & st & Hcm & Hcid & HQ & ->). apply elem_of_pending in Hcm as [Hcm Hp].
    assert (cm = c) as -> by (by apply (NoDup_fmap_elem_inj RunCommandModel.id (commands d))).
    rewrite decide_True by exact Hp. by exists st.
  - rewrite decide_False; [done|]. intros Hp. apply Hin.
    apply list_elem_of_fmap_2, elem_of_pending. by split.
Qed.

(** A transaction settles every pending command of its run, counts each in the
run's version, and leaves other commands and all leases alone. *)
Lemma apply_settles clock run_id run d d' :
  keyed d → commands_ok d → runs d !! run_id = Some run → apply run_id clock d = Ok d' →
  ∃ run', runs d' !! run_id = Some run'
    ∧ RunModel.version run' = RunModel.version run + Z.of_nat (length (pending run_id d))
    ∧ Forall2 (settles (λ _ st, st ∈ [CommandStatus.APPLIED; CommandStatus.REJECTED;
                                      CommandStatus.SUPERSEDED]) clock run_id)
        (commands d) (commands d')
    ∧ leases d' = leases d ∧ keyed d'.
Proof.
  intros Hk Hok Hrun Ha.
  destruct (apply_spec (λ _, True) (λ _ st, st ∈ [CommandStatus.APPLIED; CommandStatus.REJECTED;
    CommandStatus.SUPERSEDED]) clock run_id run d d')
    as (run' & ? & _ & ? & ? & ? & ?); [|done..|eauto 10].
  intros c r command d1 o r' d1' _ Hd. split; [done|]. apply (di_settled _ _ _ _ _ _ _ _ Hd).
Qed.

Lemma settles_pending Q clock run_id d d' :
  (∀ c st, Q c st → st ≠ CommandStatus.PENDING) →
  Forall2 (settles Q clock run_id) (commands d) (commands d') → pending run_id d' = [].
Proof.
  intros HQ Hs. apply elem_of_nil_inv. intros c' [Hc' [Hr Hp]]%elem_of_pending.
  apply list_elem_of_lookup in Hc' as [i Hi].
  destruct (Forall2_lookup_r _ _ _ _ _ Hs Hi) as (c & _ & Hcc). unfold settles in Hcc.
  case_decide as Hd; [|by subst c'; destruct Hd].
  destruct Hcc as (st & Hq & ->). by apply HQ in Hq.
Qed.

(** Applying the commands of a run settles all of them: none is left pending,
no command is lost or added, the commands of other runs are untouched, and no lease
changes. *)
Theorem apply_drains clock run_id run d d' :
  keyed d → commands_ok d → runs d !! run_id = Some run → apply run_id clock d = Ok d' →
  pending run_id d' = []
  ∧ RunCommandModel.id <$> commands d' = RunCommandModel.id <$> commands d
  ∧ (∀ c, c ∈ commands d → RunCommandModel.run_id c ≠ run_id → c ∈ commands d')
  ∧ leases d' = leases d.
Proof.
  intros Hk Hok Hrun Ha.
  destruct (apply_settles clock run_id run d d' Hk Hok Hrun Ha) as (_ & _ & _ & Hs & Hl & _).
  split_and!; [eapply settles_pending; [|exact Hs]| | |done].
  - intros c st Hst ->. by apply (bool_decide_pack _) in Hst; vm_compute in Hst.
  - clear -Hs. induction Hs as [|c c' cs cs' Hc Hs IH]; [done|]. rewrite !fmap_cons, IH. f_equal.
    unfold settles in Hc. case_decide; [|by subst]. by destruct Hc as (st & _ & ->).
  - intros c Hc Hne. apply list_elem_of_lookup in Hc as [i Hi].
    destruct (Forall2_lookup_l _ _ _ _ _ Hs Hi) as (c' & Hi' & Hcc). unfold settles in Hcc.
    case_decide as Hd; [by destruct Hd|]. subst c'. by eapply list_elem_of_lookup_2.
Qed.

(** Cancellation is final: nothing makes a cancelled run wanted again. *)
Lemma apply_cancelled clock run_id run d d' :
  keyed d → commands_ok d → runs d !! run_id = Some run →
  RunModel.desired_state run = DesiredRunState.CANCELLED → apply run_id clock d = Ok d' →
  ∃ run', runs d' !! run_id = Some run'
    ∧ RunModel.desired_state run' = DesiredRunState.CANCELLED.
Proof.
  intros Hk Hok Hrun Hc Ha.
  destruct (apply_spec (λ r, RunModel.desired_state r = DesiredRunState.CANCELLED) (λ _ _, True)
    clock run_id run d d') as (run' & ? & ? & _); [|done..|eauto].
  intros c r command d1 o r' d1' Hr Hd. split; [|done]. simpl.
  destruct (decide (RunModel.status r ∈ TERMINAL)) as [Ht|Ht].
  { by destruct (di_terminal _ _ _ _ _ _ _ _ Hd Ht) as [-> _]. }
  destruct (RunCommandModel.kind command) eqn:Hkind.
  - destruct (di_dominated _ _ _ _ _ _ _ _ Hd Ht) as [-> _]; [rewrite Hkind; elem_consts|by right|done].
  - destruct (di_dominated _ _ _ _ _ _ _ _ Hd Ht) as [-> _]; [rewrite Hkind; elem_consts|by right|done].
  - by apply (di_cancel _ _ _ _ _ _ _ _ Hd).
  - destruct (di_other _ _ _ _ _ _ _ _ Hd) as [_ ->]; [rewrite Hkind; elem_consts|done].
  - destruct (di_other _ _ _ _ _ _ _ _ Hd) as [_ ->]; [rewrite Hkind; elem_consts|done].
Qed.

(** A finished run keeps its status, desired state, runtime document and claim
time whatever is pending; the only command that can be applied to it is a retry of a
failed or blocked run. *)
Lemma apply_terminal clock run_id run d d' :
  keyed d → commands_ok d → runs d !! run_id = Some run →
  RunModel.status run ∈ TERMINAL → apply run_id clock d = Ok d' →
  ∃ run', runs d' !! run_id = Some run'
    ∧ RunModel.status run' = RunModel.status run
    ∧ RunModel.desired_state run' = RunModel.desired_state run
    ∧ RunModel.runtime_json run' = RunModel.runtime_json run
    ∧ RunModel.claimable_at run' = RunModel.claimable_at run
    ∧ Forall2 (settles (λ c st, st = CommandStatus.APPLIED →
          RunCommandModel.kind c = RunCommandKind.RETRY
          ∧ RunModel.status run ∈ [RunStatus.FAILED; RunStatus.BLOCKED]) clock run_id)
        (commands d) (commands d').
Proof.
  intros Hk Hok Hrun Ht Ha.
  destruct (apply_spec (λ r, RunModel.status r = RunModel.status run
      ∧ RunModel.desired_state r = RunModel.desired_state run
      ∧ RunModel.runtime_json r = RunModel.runtime_json run
      ∧ RunModel.claimable_at r = RunModel.claimable_at run)
    (λ c st, st = CommandStatus.APPLIED → RunCommandModel.kind c = RunCommandKind.RETRY
       ∧ RunModel.status run ∈ [RunStatus.FAILED; RunStatus.BLOCKED]) clock run_id run d d')
    as (run' & ? & (? & ? & ? & ?) & _ & ? & _); [|done..|eauto 10].
  intros c r command d1 o r' d1' (Hs & Hr) Hd. rewrite <-Hs in Ht.
  destruct (di_terminal _ _ _ _ _ _ _ _ Hd Ht) as [-> Happ]. rewrite Hs in Happ. done.
Qed.

(** A pending cancellation dominates: applying the commands of an unfinished
run leaves it cancel_requested with the desired state cancelled, and every pause or
resume pending together with it is superseded rather than applied. *)
Lemma apply_cancel clock run_id run d d' :
  keyed d → commands_ok d → runs d !! run_id = Some run →
  RunModel.status run ∉ TERMINAL → cancel_pending_in (pending run_id d) = true →
  apply run_id clock d = Ok d' →
  ∃ run', runs d' !! run_id = Some run'
    ∧ RunModel.desired_state run' = DesiredRunState.CANCELLED
    ∧ RunModel.status run' = RunStatus.CANCEL_REQUESTED
    ∧ Forall2 (settles (λ c st,
          RunCommandModel.kind c ∈ [RunCommandKind.PAUSE; RunCommandKind.RESUME] →
          st = CommandStatus.SUPERSEDED) clock run_id)
        (commands d) (commands d').
Proof.
  intros Hk Hok Hrun Ht Hcp Ha.
  set (cancelled := λ r, RunModel.status r = RunStatus.CANCEL_REQUESTED
                         ∧ RunModel.desired_state r = DesiredRunState.CANCELLED).
  assert (∀ c r command d1 o r' d1', RunModel.status r ∉ TERMINAL →
    disposes true c r command d1 o r' d1' →
    (RunCommandModel.kind command = RunCommandKind.CANCEL ∨ cancelled r) → cancelled r') as Hkeep.
  { intros c r command d1 o r' d1' Hr Hd Hor.
    destruct (RunCommandModel.kind command) eqn:Hkind.
    - destruct Hor as [|Hc]; [done|].
      by destruct (di_dominated _ _ _ _ _ _ _ _ Hd Hr) as [-> _]; [rewrite Hkind; elem_consts|by left|].
    - destruct Hor as [|Hc]; [done|].
      by destruct (di_dominated _ _ _ _ _ _ _ _ Hd Hr) as [-> _]; [rewrite Hkind; elem_consts|by left|].
    - destruct (di_cancel _ _ _ _ _ _ _ _ Hd Hr Hkind) as (? & ? & _). done.
    - destruct Hor as [|[? ?]]; [done|]. unfold cancelled.
      destruct (di_other _ _ _ _ _ _ _ _ Hd) as [-> ->]; [rewrite Hkind; elem_consts|done].
    - destruct Hor as [|[? ?]]; [done|]. unfold cancelled.
      destruct (di_other _ _ _ _ _ _ _ _ Hd) as [-> ->]; [rewrite Hkind; elem_consts|done]. }
  assert (∀ r, cancelled r → RunModel.status r ∉ TERMINAL) as Hcn
    by (intros r [-> _]; apply requested_nonterminal; elem_consts).
  destruct (apply_spec (λ r, RunModel.status r ∉ TERMINAL) (λ c st,
      RunCommandModel.kind c ∈ [RunCommandKind.PAUSE; RunCommandKind.RESUME] →
      st = CommandStatus.SUPERSEDED) clock run_id run d d')
    as (run' & Hrow & _ & _ & Hs & _); [|done..|].
  { intros c r command d1 o r' d1' Hr Hd. split; [by apply (di_nonterminal _ _ _ _ _ _ _ _ Hd)|].
    intros Hkind. rewrite Hcp in Hd.
    destruct (di_dominated _ _ _ _ _ _ _ _ Hd Hr Hkind) as [_ ?]; [by left|done]. }
  exists run'. cut (cancelled run'); [intros [? ?]; eauto|].
  pose proof (pending_NoDup run_id d Hok) as Hnd. pose proof (Hk _ _ Hrun) as Hid.
  unfold apply in Ha. destruct (migrated d); simpl in Ha; [|done]. rewrite Hrun, Hcp in Ha.
  destruct (foldM _ _ _) as [[r d1]|] eqn:Hf; simpl in Ha; [|done]. injection Ha as ->.
  apply existsb_exists in Hcp as (cm & Hcm & Hkind%bool_decide_eq_true).
  apply list_elem_of_In, list_elem_of_split in Hcm as (l1 & l2 & Hl). rewrite Hl in Hf, Hnd.
  rewrite fmap_app in Hnd. apply NoDup_app in Hnd as (Hnd1 & _ & Hnd2). csimpl in Hnd2.
  apply NoDup_cons in Hnd2 as [_ Hnd2].
  rewrite foldM_app in Hf. apply res_bind_ok in Hf as ([r1 d1'] & Hf1 & Hf).
  cbn [foldM] in Hf. apply res_bind_ok in Hf as ([r2 d2] & Hf2 & Hf3).
  destruct (loop_spec true clock (λ r, RunModel.status r ∉ TERMINAL) (λ _ _, True))
    with (cs := l1) (run := run) (d := d) (run' := r1) (d' := d1')
    as (Hr1 & _ & _ & _ & Hid1 & _ & Hrow1); [|done..|].
  { intros c r0 command d0 o r' d0' Hr Hd. split; [|done].
    by apply (di_nonterminal _ _ _ _ _ _ _ _ Hd). }
  apply apply_command_ok in Hf2 as (o & run0 & d0 & Hdi & -> & _ & _ & _ & Hruns2).
  assert (cancelled (RunModel.bump run0)) as Hc2 by (apply (Hkeep _ _ _ _ _ _ _ Hr1 Hdi); by left).
  destruct (loop_spec true clock cancelled (λ _ _, True))
    with (cs := l2) (run := RunModel.bump run0) (d := d2) (run' := r) (d' := d')
    as (Hr3 & _ & _ & _ & Hid3 & _ & Hrow3); [|done..|].
  { intros c r0 command d3 o' r' d3' Hr Hd. split; [|done].
    apply (Hkeep _ _ _ _ _ _ _ (Hcn _ Hr) Hd). by right. }
  destruct (di_run _ _ _ _ _ _ _ _ Hdi) as (Hid2 & _). simpl in Hrow3.
  rewrite Hid2, Hid1, Hid, Hruns2 in Hrow3. rewrite Hid1, Hid, lookup_insert_eq in Hrow3.
  specialize (Hrow3 eq_refl). congruence.
Qed.

(** Applying commands is a step of the ownership system: it touches no lease. *)
Lemma apply_step clock run_id d d' :
  keyed d → commands_ok d → apply run_id clock d = Ok d' → step d d'.
Proof.
  intros Hk Hok Ha. destruct (runs d !! run_id) as [run|] eqn:Hrun.
  - destruct (apply_settles clock run_id run d d' Hk Hok Hrun Ha) as (_ & _ & _ & _ & Hl & Hk').
    by apply step_other.
  - unfold apply in Ha. destruct (migrated d); simpl in Ha; [|done]. rewrite Hrun in Ha.
    injection Ha as <-. by apply step_other.
Qed.

(** ** Retries *)

(** Run numbers are distinct within a job ([uq_runs_job_number]). *)
Definition numbers_ok (m : gmap uuid RunModel.t) : Prop :=
  ∀ i j r r', m !! i = Some r → m !! j = Some r' → RunModel.job_id r = RunModel.job_id r' →
    RunModel.run_number r = RunModel.run_number r' → i = j.

Lemma max_run_number_le job d i r :
  runs d !! i = Some r → RunModel.job_id r = job →
  ∃ m, max_run_number job d = Some m ∧ RunModel.run_number r ≤ m.
Proof.
  intros Hr Hj. unfold max_run_number.
  assert (r ∈ filter (λ r, RunModel.job_id r = job) (map_to_list (runs d)).*2) as Hin.
  { apply list_elem_of_filter. split; [done|]. apply list_elem_of_fmap. exists (i, r).
    split; [done|]. by apply elem_of_map_to_list. }
  induction (filter _ _) as [|k ks IH]; [by apply elem_of_nil in Hin|]. simpl.
  apply elem_of_cons in Hin as [->|Hin].
  - eexists. split; [done|]. destruct (foldr _ _ _); lia.
  - destruct (IH Hin) as (m & -> & Hm). eexists. split; [done|]. lia.
Qed.

Lemma numbers_replace m i r r0 :
  numbers_ok m → m !! i = Some r0 → RunModel.job_id r = RunModel.job_id r0 →
  RunModel.run_number r = RunModel.run_number r0 → numbers_ok (<[i := r]> m).
Proof.
  intros Hok Hi Hj Hn a b x y Hx Hy Hjob Hnum.
  assert (∀ k z, <[i := r]> m !! k = Some z → ∃ z0, m !! k = Some z0
    ∧ RunModel.job_id z0 = RunModel.job_id z ∧ RunModel.run_number z0 = RunModel.run_number z) as Hb.
  { intros k z. destruct (decide (k = i)) as [->|Hne].
    - rewrite lookup_insert_eq. intros [= <-]. eauto.
    - rewrite lookup_insert_ne by done. eauto. }
  destruct (Hb _ _ Hx) as (x0 & Hx0 & ? & ?), (Hb _ _ Hy) as (y0 & Hy0 & ? & ?).
  apply (Hok a b x0 y0); congruence.
Qed.

Lemma numbers_link d run c :
  numbers_ok (runs d) → numbers_ok (<[r_fresh c := linked_run run c d]> (runs d)).
Proof.
  intros Hok a b x y Hx Hy Hjob Hnum.
  assert (∀ k z, k ≠ r_fresh c → runs d !! k = Some z → RunModel.job_id z = RunModel.job_id run →
    RunModel.run_number z ≠ default 0 (max_run_number (RunModel.job_id run) d) + 1) as Hnew.
  { intros k z _ Hz Hj. destruct (max_run_number_le _ _ _ _ Hz Hj) as (m & -> & Hm). simpl. lia. }
  destruct (decide (a = r_fresh c)) as [->|Ha], (decide (b = r_fresh c)) as [->|Hb]; [done| | |].
  - rewrite lookup_insert_eq in Hx. injection Hx as <-. rewrite lookup_insert_ne in Hy by done.
    simpl in Hjob, Hnum. by destruct (Hnew b y Hb Hy (eq_sym Hjob)).
  - rewrite lookup_insert_eq in Hy. injection Hy as <-. rewrite lookup_insert_ne in Hx by done.
    simpl in Hjob, Hnum. by destruct (Hnew a x Ha Hx Hjob).
  - rewrite lookup_insert_ne in Hx, Hy by done. by apply (Hok a b x y).
Qed.

Lemma loop_numbers cp clock cs run d run' d' r0 :
  keyed d → numbers_ok (runs d) → NoDup (r_fresh ∘ clock ∘ RunCommandModel.id <$> cs) →
  (∀ c, c ∈ cs → runs d !! r_fresh (clock (RunCommandModel.id c)) = None) →
  runs d !! RunModel.id run = Some r0 → RunModel.job_id run = RunModel.job_id r0 →
  RunModel.run_number run = RunModel.run_number r0 →
  foldM (apply_command cp clock) (run, d) cs = Ok (run', d') → numbers_ok (runs d').
Proof.
  revert run d r0; induction cs as [|command cs IH]; intros run d r0 Hk Hok Hnd Hfresh Hr Hj Hn.
  { by intros [= <- <-]. }
  cbn [foldM]. intros ([run1 d1] & Ha & Hf)%res_bind_ok.
  apply apply_command_ok in Ha as (o & run2 & d2 & Hdi & -> & _ & _ & Hk1 & Hruns).
  destruct (di_run _ _ _ _ _ _ _ _ Hdi) as (Hid & Hj2 & Hn2 & _).
  csimpl in Hnd. apply NoDup_cons in Hnd as [Hni Hnd].
  pose proof (Hfresh command ltac:(by left)) as Hf0.
  assert (numbers_ok (runs d2) ∧ runs d2 !! RunModel.id run = Some r0
    ∧ ∀ c, c ∈ cs → runs d2 !! r_fresh (clock (RunCommandModel.id c)) = None) as (Hok2 & Hr2 & Hfr2).
  { destruct (di_runs _ _ _ _ _ _ _ _ Hdi) as [->|(_ & _ & _ & ->)].
    - split_and!; [done|done|]. intros c Hc. apply Hfresh. by right.
    - split_and!; [by apply numbers_link|rewrite lookup_insert_ne by congruence; done|].
      intros c Hc. rewrite lookup_insert_ne; [apply Hfresh; by right|].
      intros Heq. apply Hni. apply list_elem_of_fmap. exists c. split; [exact Heq|done]. }
  eapply (IH (RunModel.bump run2) d1 (RunModel.bump run2)); [by apply Hk1| |done| | |done|done|exact Hf].
  - rewrite Hruns. eapply numbers_replace; [done|done|simpl; congruence|simpl; congruence].
  - intros c Hc. rewrite Hruns. rewrite lookup_insert_ne; [by apply Hfr2|].
    intros Heq. specialize (Hfr2 c Hc). congruence.
  - rewrite Hruns. simpl. rewrite Hid. apply lookup_insert_eq.
Qed.

(** Run numbers stay unique within a job: applying any pending commands,
retries included, preserves that no two runs of a job share a number. *)
Lemma apply_numbers clock run_id d d' :
  keyed d → numbers_ok (runs d) →
  NoDup (r_fresh ∘ clock ∘ RunCommandModel.id <$> pending run_id d) →
  (∀ c, c ∈ pending run_id d → runs d !! r_fresh (clock (RunCommandModel.id c)) = None) →
  apply run_id clock d = Ok d' → numbers_ok (runs d').
Proof.
  intros Hk Hok Hnd Hfresh. unfold apply. destruct (migrated d); simpl; [|done].
  destruct (runs d !! run_id) as [run|] eqn:Hr; [|by intros [= <-]].
  destruct (foldM _ _ _) as [[run' d1]|] eqn:Hf; simpl; [|done]. intros [= <-].
  eapply (loop_numbers _ clock _ run d run' d1 run); [done..| |done|done|exact Hf].
  by rewrite (Hk _ _ Hr).
Qed.

(** A retry of a failed or blocked run creates a new queued run of the same job
that is linked to the failed run, wants to run, is claimable at once and has a run
number greater than every run of the job; the job is queued again. *)
Lemma apply_retry clock run_id run d command status :
  keyed d → migrated d = true → runs d !! run_id = Some run → jobs d !! RunModel.job_id run = Some status →
  RunModel.status run ∈ [RunStatus.FAILED; RunStatus.BLOCKED] →
  pending run_id d = [command] → RunCommandModel.kind command = RunCommandKind.RETRY →
  let c := clock (RunCommandModel.id command) in
  r_fresh c ≠ run_id →
  ∃ d' new, apply run_id clock d = Ok d' ∧ runs d' !! r_fresh c = Some new
    ∧ RunModel.status new = RunStatus.QUEUED
    ∧ RunModel.desired_state new = DesiredRunState.RUNNING
    ∧ RunModel.parent_run_id new = Some run_id
    ∧ RunModel.job_id new = RunModel.job_id run
    ∧ RunModel.claimable_at new = r_now c
    ∧ (∀ i r, runs d !! i = Some r → RunModel.job_id r = RunModel.job_id run →
         RunModel.run_number r < RunModel.run_number new)
    ∧ jobs d' !! RunModel.job_id run = Some JobStatus.QUEUED.
Proof.
  intros Hk Hmig Hrun Hjob Hst Hp Hkind c Hne. unfold apply. rewrite Hmig, Hrun, Hp. simpl.
  pose proof (Hk _ _ Hrun) as Hid. unfold apply_command. simpl. unfold dispose.
  rewrite Hkind. rewrite bool_decide_true by done. rewrite bool_decide_true by done.
  unfold _retry. rewrite Hjob. simpl. eexists _, (linked_run run c d). split; [done|]. simpl.
  split_and!; try done.
  - rewrite Hid. rewrite lookup_insert_ne by done. apply lookup_insert_eq.
  - by rewrite Hid.
  - intros i r Hr Hj. destruct (max_run_number_le _ _ _ _ Hr Hj) as (m & -> & Hm). simpl. lia.
  - apply lookup_insert_eq.
Qed.
End frames.
