(* ===== verification/Routing.v ===== *)
(** * Routing, spend, retry and permission evaluation

[api/app/jarvis_api/routing/policies.py]: pure functions over registry records.
[resolve_route] picks the first eligible candidate of a route policy;
[evaluate_spend] bounds the estimated cost of a call; [evaluate_retry] gives the
delay of the next retry of a failure class; [evaluate_permission] combines the
decisions that apply to an action. *)
From S2P Require Import Prelude Enums PyJson PyDecimal PyFloat Failures Registry WorkflowSpec.
From stdpp Require Import gmap pretty.
From Stdlib Require Import QArith.
Local Close Scope Q_scope.
Local Open Scope Z_scope.
Local Open Scope stdpp_scope.

(** [if c: reasons.append(reason)] *)
Definition note (c : bool) (reason : string) : list string := if c then [reason] else [].

Lemma note_nil c reason : note c reason = [] ↔ c = false.
Proof. by destruct c. Qed.

(** ** [calculate_cost] *)

(** [Cost(currency=...)]: the defaults are no amount and status unknown. *)
Definition unknown_cost (pricing : Pricing.t) : Cost.t :=
  {| Cost.amount := None; Cost.currency := Pricing.currency pricing;
     Cost.status := CostStatus.unknown |}.

(** [status=usage.provenance] *)
Definition cost_status (p : UsageProvenance.t) : CostStatus.t :=
  match p with
  | UsageProvenance.exact => CostStatus.exact
  | UsageProvenance.estimated => CostStatus.estimated
  | UsageProvenance.unknown => CostStatus.unknown
  end.

Definition cost_amount (input cached output : Z) (p_in p_cached p_out : decimal) : decimal :=
  dec_div_million
    (dec_add
       (dec_add (dec_mul (dec_of_Z (input - cached)) p_in) (dec_mul (dec_of_Z cached) p_cached))
       (dec_mul (dec_of_Z output) p_out)).

Definition calculate_cost (usage : Usage.t) (pricing : Pricing.t) : Cost.t :=
  if bool_decide (Pricing.status pricing = PricingStatus.not_applicable) then
    {| Cost.amount := None; Cost.currency := Pricing.currency pricing;
       Cost.status := CostStatus.not_applicable |}
  else if negb (bool_decide (Pricing.status pricing = PricingStatus.known))
          || bool_decide (Usage.provenance usage = UsageProvenance.unknown)
  then unknown_cost pricing
  else
    match Usage.input_tokens usage, Usage.output_tokens usage,
          Pricing.input_per_million pricing, Pricing.output_per_million pricing with
    | Some input, Some output, Some p_in, Some p_out =>
        let cached := default 0 (Usage.cached_tokens usage) in
        if Z.ltb input cached then unknown_cost pricing
        else
          {| Cost.amount := Some (cost_amount input cached output p_in
                                    (default p_in (Pricing.cached_per_million pricing)) p_out);
             Cost.currency := Pricing.currency pricing;
             Cost.status := cost_status (Usage.provenance usage) |}
    | _, _, _, _ => unknown_cost pricing
    end.

(** ** [evaluate_spend] *)

Definition estimated_usage (r : RouteRequirements.t) : Usage.t :=
  {| Usage.input_tokens := Some (RouteRequirements.input_tokens r);
     Usage.cached_tokens := None;
     Usage.output_tokens := Some (RouteRequirements.output_tokens r);
     Usage.total_tokens := None;
     Usage.provenance := UsageProvenance.estimated |}.

(** The two cost ceilings. *)
Definition call_exceeded (amount : option decimal) (ceiling : option decimal) : bool :=
  match ceiling with
  | None => false
  | Some m => match amount with None => true | Some a => dec_gtb a m end
  end.
Definition run_exceeded (amount spent : option decimal) (ceiling : option decimal) : bool :=
  match ceiling with
  | None => false
  | Some m =>
      match amount, spent with
      | Some a, Some s => dec_gtb (dec_add s a) m
      | _, _ => true
      end
  end.

Definition spend_reasons (policy : SpendPolicy.t) (requirements : RouteRequirements.t)
    (pricing : Pricing.t) (paid : bool) : list string :=
  let estimate := calculate_cost (estimated_usage requirements) pricing in
  note (paid && negb (SpendPolicy.allow_paid policy)) "Paid provider use is disabled"
  ++ note (Z.ltb (SpendPolicy.max_input_tokens policy) (RouteRequirements.input_tokens requirements))
       "Per-call input token ceiling exceeded"
  ++ note (Z.ltb (SpendPolicy.max_output_tokens policy) (RouteRequirements.output_tokens requirements))
       "Per-call output token ceiling exceeded"
  ++ note (call_exceeded (Cost.amount estimate) (SpendPolicy.max_call_cost policy))
       "Per-call cost ceiling cannot be satisfied"
  ++ note (run_exceeded (Cost.amount estimate) (RouteRequirements.run_spend requirements)
             (SpendPolicy.max_run_cost policy))
       "Per-run cost ceiling cannot be satisfied".

Definition evaluate_spend (policy : SpendPolicy.t) (requirements : RouteRequirements.t)
    (pricing : Pricing.t) (paid : bool) : Decision3.t * list string :=
  let reasons := spend_reasons policy requirements pricing paid in
  (match reasons with [] => Decision3.allow | _ :: _ => SpendPolicy.on_exceeded policy end,
   reasons).

(** ** [resolve_route] *)

Definition is_profile (s : RegistrySpec) : option ModelProfileSpec.t :=
  match s with SModelProfile p => Some p | _ => None end.
Definition is_provider (s : RegistrySpec) : option ProviderSpec.t :=
  match s with SProvider p => Some p | _ => None end.

(** [records.get(revision)], accepted when its [revision_id] and the class of its
spec are the expected ones. *)
Definition record_as {A} (records : gmap uuid RegistryRecord.t) (f : RegistrySpec → option A)
    (revision : uuid) : option (RegistryRecord.t * A) :=
  record ← records !! revision;
  if bool_decide (RegistryRecord.revision_id record = revision)
  then (λ a, (record, a)) <$> f (RegistryRecord.spec record) else None.

Definition profile_capabilities (p : ModelProfileSpec.t) : list string :=
  ModelProfileSpec.capabilities p
  ++ (if ModelProfileSpec.structured_json p then ["structured_json"] else [])
  ++ (if ModelProfileSpec.tool_calls p then ["tool_calls"] else [])
  ++ (if ModelProfileSpec.streaming p then ["streaming"] else []).

(** [a <= b] on sets *)
Definition subset (a b : list string) : bool := forallb (λ x, bool_decide (x ∈ b)) a.

Definition is_inactive (r : RegistryRecord.t) : bool :=
  negb (RegistryRecord.enabled r) || RegistryRecord.archived r.

Definition provider_reasons (spec : RoutePolicySpec.t) (req : RouteRequirements.t)
    (profile : ModelProfileSpec.t) (record : RegistryRecord.t) (provider : ProviderSpec.t)
    : list string :=
  note (is_inactive record) "Provider is disabled or archived"
  ++ note (bool_decide (RegistryRecord.secret_status record = SecretStatus.missing))
       "Provider credential reference is missing"
  ++ note (negb (bool_decide (ProviderSpec.locality provider = ModelProfileSpec.locality profile)))
       "Provider/profile locality mismatch"
  ++ note (negb (bool_decide (RouteRequirements.data_classification req
                              ∈ EgressPolicy.allowed_data (ProviderSpec.egress provider))))
       "Provider data policy denied"
  ++ note (bool_decide (ProviderSpec.locality provider = Locality.remote)
           && negb (RoutePolicySpec.allow_remote spec
                    && EgressPolicy.remote_allowed (ProviderSpec.egress provider)))
       "Remote provider use is denied"
  ++ note (bool_decide (RegistryRecord.health record
                        ∈ [HealthStatus.unavailable; HealthStatus.misconfigured])
           || (bool_decide (RegistryRecord.health record = HealthStatus.unknown)
               && negb (RoutePolicySpec.allow_unknown_health spec)))
       "Provider health is ineligible"
  ++ note (negb (bool_decide (RegistryRecord.circuit_state record = CircuitState.closed)))
       "Provider circuit requires recovery probe".

Section route.
Context (spec : RoutePolicySpec.t) (request : RoutePreviewRequest.t)
  (records : gmap uuid RegistryRecord.t).
Let req := RoutePreviewRequest.requirements request.

(** [set(req.capabilities) | set(spec.required_capabilities)] *)
Definition required_capabilities : list string :=
  RouteRequirements.capabilities req ++ RoutePolicySpec.required_capabilities spec.

Definition profile_reasons (record : RegistryRecord.t) (profile : ModelProfileSpec.t)
    : list string :=
  note (is_inactive record) "Profile is disabled or archived"
  ++ note (negb (subset required_capabilities (profile_capabilities profile)))
       "Required capabilities are unavailable"
  ++ note (negb (bool_decide (RouteRequirements.purpose req ∈ ModelProfileSpec.purposes profile)))
       "Profile purpose is incompatible"
  ++ note (Z.ltb (ModelProfileSpec.context_limit profile)
             (RouteRequirements.input_tokens req + RouteRequirements.output_tokens req))
       "Context requirement exceeds profile limit"
  ++ note (Z.ltb (ModelProfileSpec.output_limit profile) (RouteRequirements.output_tokens req))
       "Output requirement exceeds profile limit".

(** The body of the loop: the reasons against a candidate. *)
Definition candidate_reasons (candidate : RouteCandidate.t) : list string :=
  let pid := RouteCandidate.profile_revision_id candidate in
  note (bool_decide (pid ∈ RoutePreviewRequest.failed_profile_revision_ids request))
    "Candidate already failed"
  ++ match record_as records is_profile pid with
     | None => ["Profile revision is missing"]
     | Some (record, profile) =>
         profile_reasons record profile
         ++ match record_as records is_provider (ModelProfileSpec.provider_revision_id profile) with
            | None => ["Provider revision is missing"]
            | Some (provider_record, provider) =>
                provider_reasons spec req profile provider_record provider
            end
     end.

Definition candidate_decision (candidate : RouteCandidate.t) : CandidateDecision.t :=
  let reasons := candidate_reasons candidate in
  {| CandidateDecision.profile_revision_id := RouteCandidate.profile_revision_id candidate;
     CandidateDecision.eligible := bool_decide (reasons = []);
     CandidateDecision.reasons := reasons |}.

(** [sorted(spec.candidates, key=...)]: by priority, then by the text of the
revision. *)
Definition candidate_key (c : RouteCandidate.t) : Z * string :=
  (RouteCandidate.priority c, uuid_str (RouteCandidate.profile_revision_id c)).
Definition ordered_candidates : list RouteCandidate.t :=
  sorted_key candidate_key (RoutePolicySpec.candidates spec).

(** The first candidate without reasons, with its two records. *)
Definition selected_candidate : option RouteCandidate.t :=
  List.find (λ c, bool_decide (candidate_reasons c = [])) ordered_candidates.
Definition selected_records
    : option (RegistryRecord.t * ModelProfileSpec.t * RegistryRecord.t * ProviderSpec.t) :=
  c ← selected_candidate;
  '(record, profile) ← record_as records is_profile (RouteCandidate.profile_revision_id c);
  '(provider_record, provider) ←
    record_as records is_provider (ModelProfileSpec.provider_revision_id profile);
  Some (record, profile, provider_record, provider).

(** The guards before the loop: the reason of the first that fails. *)
Definition failover_denied : bool :=
  negb (bool_decide (RoutePreviewRequest.failed_profile_revision_ids request = []))
  && match RoutePreviewRequest.failure_class request with
     | None => true
     | Some f =>
         negb (bool_decide (f ∈ RoutePolicySpec.failover_classes spec))
         || bool_decide (f ∈ [FailureClass.SECURITY_POLICY_DENIED; FailureClass.USER_CANCELLED])
     end.

Definition undeclared_failure : bool :=
  existsb (λ i, negb (bool_decide
             (i ∈ RouteCandidate.profile_revision_id <$> RoutePolicySpec.candidates spec)))
    (RoutePreviewRequest.failed_profile_revision_ids request).

Definition policy_denied : bool :=
  negb (bool_decide (RouteRequirements.purpose req ∈ RoutePolicySpec.purposes spec))
  || negb (bool_decide (RouteRequirements.data_classification req
                        ∈ RoutePolicySpec.allowed_data spec)).

Definition route_guard (route : RegistryRecord.t) : option string :=
  if is_inactive route then Some "Route is disabled or archived"
  else if policy_denied then Some "Route purpose or data policy denied"
  else if undeclared_failure then Some "Failover references an undeclared profile"
  else if failover_denied then Some "Failover is not permitted for this failure"
  else None.
End route.

Section resolve.
Context `{PyRuntime} `{ModelDump RoutePreviewRequest.t} `{ModelDump RegistryRecord.t}.

(** The digest of everything the resolution reads. *)
Definition route_digest (request : RoutePreviewRequest.t) (route : RegistryRecord.t)
    (records : gmap uuid RegistryRecord.t) : string :=
  sha256_digest (JObj
    [("request", model_dump request);
     ("route", model_dump route);
     ("records", JObj ((λ kv, (uuid_str kv.1, model_dump kv.2))
                         <$> sorted_key fst (map_to_list records)))]).

(** A [RouteResolution] with [reasons] and [candidates] only: denied, nothing selected. *)
Definition denied (request : RoutePreviewRequest.t) (digest : string) (reason : string)
    (candidates : list CandidateDecision.t) : RouteResolution.t :=
  {| RouteResolution.route_revision_id := RoutePreviewRequest.route_revision_id request;
     RouteResolution.selected_profile_revision_id := None;
     RouteResolution.selected_provider_revision_id := None;
     RouteResolution.decision := Decision3.deny;
     RouteResolution.reasons := [reason];
     RouteResolution.candidates := candidates;
     RouteResolution.snapshot_hash := digest;
     RouteResolution.demo := false |}.

Definition resolve_candidates (spec : RoutePolicySpec.t) (request : RoutePreviewRequest.t)
    (digest : string) (records : gmap uuid RegistryRecord.t) : RouteResolution.t :=
  let decisions := candidate_decision spec request records <$> ordered_candidates spec in
  match selected_records spec request records with
  | None => denied request digest "No eligible declared candidate" decisions
  | Some (record, profile, provider_record, provider) =>
      let '(decision, reasons) :=
        evaluate_spend (RoutePolicySpec.spend spec) (RoutePreviewRequest.requirements request)
          (ModelProfileSpec.pricing profile) (EgressPolicy.paid (ProviderSpec.egress provider)) in
      {| RouteResolution.route_revision_id := RoutePreviewRequest.route_revision_id request;
         RouteResolution.selected_profile_revision_id := Some (RegistryRecord.revision_id record);
         RouteResolution.selected_provider_revision_id :=
           Some (RegistryRecord.revision_id provider_record);
         RouteResolution.decision := decision;
         RouteResolution.reasons := reasons;
         RouteResolution.candidates := decisions;
         RouteResolution.snapshot_hash := digest;
         RouteResolution.demo :=
           bool_decide (ProviderSpec.provider_kind provider = ProviderKind.demo) |}
  end.

Definition resolve_route (request : RoutePreviewRequest.t) (route : RegistryRecord.t)
    (records : gmap uuid RegistryRecord.t) : RouteResolution.t :=
  let digest := route_digest request route records in
  match RegistryRecord.spec route with
  | SRoutePolicy spec =>
      if negb (bool_decide (RegistryRecord.revision_id route
                            = RoutePreviewRequest.route_revision_id request))
      then denied request digest "Invalid route revision" []
      else
        match route_guard spec request route with
        | Some reason => denied request digest reason []
        | None => resolve_candidates spec request digest records
        end
  | _ => denied request digest "Invalid route revision" []
  end.
End resolve.

(** ** [evaluate_retry] *)

Module RetryDecision.
Record t := {
  failure_class : FailureClass.t;
  retry : bool;
  used_retries : Z;
  delay_ms : Z;
  exhaustion_action : ExhaustionAction.t;
  allow_failover : bool;
  consumes_semantic_attempt : bool;
}.
End RetryDecision.

(** The C library's [pow], which [float ** int] calls. *)
Class FloatPow := float_pow : Q → Z → Q.

(** The [blocked] set. *)
Definition blocked_classes : list FailureClass.t :=
  [FailureClass.SECURITY_POLICY_DENIED; FailureClass.CONFIGURATION_INVALID;
   FailureClass.USER_CANCELLED; FailureClass.APPROVAL_REJECTED].

(** [int.from_bytes(digest[:4])] of a hexadecimal digest. *)
Definition hex_value (c : Ascii.ascii) : Z :=
  let n := Z.of_nat (Ascii.nat_of_ascii c) in
  if Z.leb 48 n && Z.leb n 57 then n - 48
  else if Z.leb 97 n && Z.leb n 102 then n - 87 else 0.
Fixpoint hex_prefix (digits : nat) (acc : Z) (s : string) : Z :=
  match digits, s with
  | S k, String c s' => hex_prefix k (16 * acc + hex_value c) s'
  | _, _ => acc
  end.

Section retry.
Context `{PyRuntime} `{FloatPow}.

(** [min(rule.max_delay_ms, int(rule.initial_delay_ms * rule.multiplier ** min(used, 100)))] *)
Definition backoff (rule : RetryRule) (used : Z) : Z :=
  Z.min (max_delay_ms rule)
    (float_int (float_mul (inject_Z (initial_delay_ms rule))
                  (float_pow (multiplier rule) (Z.min used 100)))).

Definition jitter_fraction (jitter_key : string) (failure : FailureClass.t) (used : Z) : Q :=
  int_truediv
    (hex_prefix 8 0 (sha256 (jitter_key +:+ ":" +:+ FailureClass.value failure
                             +:+ ":" +:+ pretty used)))
    (2 ^ 32 - 1).

(** [max(rule.initial_delay_ms, int(delay * (0.5 + 0.5 * fraction)))] *)
Definition spread (rule : RetryRule) (fraction : Q) (delay : Z) : Z :=
  Z.max (initial_delay_ms rule)
    (float_int (float_mul (inject_Z delay) (float_add (Qmake 1 2) (float_mul (Qmake 1 2) fraction)))).

Definition retry_delay (rule : RetryRule) (jitter_key : string) (failure : FailureClass.t)
    (used : Z) : Z :=
  let delay := backoff rule used in
  if bool_decide (jitter rule = Jitter.deterministic) && negb (Z.eqb delay 0)
  then spread rule (jitter_fraction jitter_key failure used) delay else delay.

(** [None] is the [ValueError] on a negative counter. *)
Definition evaluate_retry (policy : RetryPolicySpec) (failure : FailureClass.t)
    (counters : list (FailureClass.t * Z)) (jitter_key : string) : option RetryDecision.t :=
  let used := default 0 (snd <$> find_key fst failure counters) in
  if Z.ltb used 0 then None
  else
    match find_rule failure (rules policy) with
    | None => Some (RetryDecision.Build_t failure false used 0 ExhaustionAction.block false false)
    | Some rule =>
        if bool_decide (failure ∈ blocked_classes) || Z.leb (max_retries rule) used
        then Some (RetryDecision.Build_t failure false used 0 (exhaustion_action rule) false false)
        else Some (RetryDecision.Build_t failure true (used + 1)
                     (retry_delay rule jitter_key failure used) (exhaustion_action rule)
                     (allow_failover rule) (startswith "code." (FailureClass.value failure)))
    end.
End retry.

(** ** [evaluate_permission] *)

(** The [actions] table. *)
Definition action_decision (policy : PermissionPolicySpec.t) (action : string)
    : option Decision3.t :=
  dict_get action
    [("shell", PermissionPolicySpec.shell policy); ("git", PermissionPolicySpec.git policy);
     ("docker", PermissionPolicySpec.docker policy);
     ("browser", PermissionPolicySpec.browser policy);
     ("network", PermissionPolicySpec.network policy);
     ("remote_provider", PermissionPolicySpec.remote_provider policy)].

Definition scope_denied (policy : PermissionPolicySpec.t) (scope : option string) : bool :=
  match scope with
  | None => false
  | Some s => negb (bool_decide (s ∈ PermissionPolicySpec.filesystem_scopes policy))
  end.

Definition permission_decisions (policy : PermissionPolicySpec.t) (action : string)
    (sensitive destructive : bool) : list Decision3.t :=
  let listed := bool_decide (action ∈ PermissionPolicySpec.approval_required_actions policy) in
  let result :=
    match action_decision policy action with
    | Some d => d
    | None => if listed then Decision3.require_approval
              else PermissionPolicySpec.unknown_action policy
    end in
  [result]
  ++ (if destructive then [PermissionPolicySpec.destructive_action policy] else [])
  ++ (if sensitive then [PermissionPolicySpec.sensitive_action policy] else [])
  ++ (if listed then [Decision3.require_approval] else []).

Definition evaluate_permission (policy : PermissionPolicySpec.t) (action : string)
    (capabilities : list string) (filesystem_scope : option string)
    (sensitive destructive : bool) : Decision3.t :=
  if existsb (λ c, bool_decide (c ∈ PermissionPolicySpec.denied_capabilities policy)) capabilities
  then Decision3.deny
  else if negb (subset capabilities (PermissionPolicySpec.allowed_capabilities policy))
  then Decision3.deny
  else if scope_denied policy filesystem_scope then Decision3.deny
  else
    let decisions := permission_decisions policy action sensitive destructive in
    if bool_decide (Decision3.deny ∈ decisions) then Decision3.deny
    else if bool_decide (Decision3.require_approval ∈ decisions)
    then Decision3.require_approval else Decision3.allow.

(** ** Spend *)

(** What each ceiling requires of the estimate. *)
Definition within (ceiling amount : option decimal) : Prop :=
  match ceiling with
  | None => True
  | Some m => ∃ a, amount = Some a ∧ dec_gtb a m = false
  end.

Record affordable (policy : SpendPolicy.t) (req : RouteRequirements.t) (pricing : Pricing.t)
    (paid : bool) : Prop := {
  aff_paid : paid = true → SpendPolicy.allow_paid policy = true;
  aff_input : RouteRequirements.input_tokens req ≤ SpendPolicy.max_input_tokens policy;
  aff_output : RouteRequirements.output_tokens req ≤ SpendPolicy.max_output_tokens policy;
  aff_call : within (SpendPolicy.max_call_cost policy)
               (Cost.amount (calculate_cost (estimated_usage req) pricing));
  aff_run : within (SpendPolicy.max_run_cost policy)
              (a ← Cost.amount (calculate_cost (estimated_usage req) pricing);
               s ← RouteRequirements.run_spend req; Some (dec_add s a));
}.

Lemma call_exceeded_false a m : call_exceeded a m = false ↔ within m a.
Proof.
  destruct m as [m|]; simpl; [|tauto]. destruct a as [a|]; simpl.
  - split; [eauto|]. by intros (? & [= <-] & ?).
  - split; [done|]. by intros (? & ? & _).
Qed.

Lemma run_exceeded_false a s m :
  run_exceeded a s m = false ↔ within m (x ← a; y ← s; Some (dec_add y x)).
Proof.
  destruct m as [m|]; simpl; [|tauto]. destruct a as [a|], s as [s|]; simpl;
    (split; [eauto; try done|]); [by intros (? & [= <-] & ?)|by intros (? & ? & _)..].
Qed.

Lemma spend_reasons_nil policy req pricing paid :
  spend_reasons policy req pricing paid = [] ↔ affordable policy req pricing paid.
Proof.
  unfold spend_reasons. rewrite !app_nil, !note_nil, !Z.ltb_ge.
  rewrite call_exceeded_false, run_exceeded_false, andb_false_iff, negb_false_iff.
  split.
  - intros (Hp & ? & ? & ? & ?). split; try done. intros ->. by destruct Hp.
  - intros []. repeat split; try done. destruct paid; [right; auto|by left].
Qed.

Lemma evaluate_spend_allow policy req pricing paid :
  SpendPolicy.valid policy = true →
  (evaluate_spend policy req pricing paid).1 = Decision3.allow ↔ affordable policy req pricing paid.
Proof.
  intros Hv. rewrite <-spend_reasons_nil. unfold evaluate_spend; simpl.
  destruct (spend_reasons _ _ _ _); [tauto|]. split; [|done]. intros He.
  unfold SpendPolicy.valid in Hv. rewrite He, andb_false_r in Hv. done.
Qed.

(** ** Routes *)

Lemma record_as_Some {A} records (f : RegistrySpec → option A) i r a :
  record_as records f i = Some (r, a) ↔
  records !! i = Some r ∧ RegistryRecord.revision_id r = i ∧ f (RegistryRecord.spec r) = Some a.
Proof.
  unfold record_as. destruct (records !! i) as [r'|]; simpl; [|naive_solver].
  case_bool_decide as Hi; [|naive_solver].
  destruct (f (RegistryRecord.spec r')) eqn:Hf; simpl; naive_solver.
Qed.

Lemma subset_true a b : subset a b = true ↔ a ⊆ b.
Proof.
  unfold subset. rewrite forallb_forall. split.
  - intros Hs x Hx. by eapply bool_decide_eq_true_1, Hs, list_elem_of_In.
  - intros Hs x Hx. apply bool_decide_eq_true, Hs. by apply list_elem_of_In.
Qed.

Lemma is_inactive_false r :
  is_inactive r = false ↔ RegistryRecord.enabled r = true ∧ RegistryRecord.archived r = false.
Proof. unfold is_inactive. by rewrite orb_false_iff, negb_false_iff. Qed.

(** A usable profile and a usable provider of it. *)
Record profile_ok (spec : RoutePolicySpec.t) (req : RouteRequirements.t)
    (record : RegistryRecord.t) (p : ModelProfileSpec.t) : Prop := {
  po_enabled : RegistryRecord.enabled record = true;
  po_archived : RegistryRecord.archived record = false;
  po_capabilities : RouteRequirements.capabilities req ++ RoutePolicySpec.required_capabilities spec
                    ⊆ profile_capabilities p;
  po_purpose : RouteRequirements.purpose req ∈ ModelProfileSpec.purposes p;
  po_context : RouteRequirements.input_tokens req + RouteRequirements.output_tokens req
               ≤ ModelProfileSpec.context_limit p;
  po_output : RouteRequirements.output_tokens req ≤ ModelProfileSpec.output_limit p;
}.

Record provider_ok (spec : RoutePolicySpec.t) (req : RouteRequirements.t)
    (p : ModelProfileSpec.t) (record : RegistryRecord.t) (v : ProviderSpec.t) : Prop := {
  vo_enabled : RegistryRecord.enabled record = true;
  vo_archived : RegistryRecord.archived record = false;
  vo_secret : RegistryRecord.secret_status record ≠ SecretStatus.missing;
  vo_locality : ProviderSpec.locality v = ModelProfileSpec.locality p;
  vo_data : RouteRequirements.data_classification req
            ∈ EgressPolicy.allowed_data (ProviderSpec.egress v);
  vo_remote : ProviderSpec.locality v = Locality.remote →
              RoutePolicySpec.allow_remote spec = true
              ∧ EgressPolicy.remote_allowed (ProviderSpec.egress v) = true;
  vo_health : RegistryRecord.health record ∈ [HealthStatus.healthy; HealthStatus.degraded]
              ∨ RegistryRecord.health record = HealthStatus.unknown
                ∧ RoutePolicySpec.allow_unknown_health spec = true;
  vo_circuit : RegistryRecord.circuit_state record = CircuitState.closed;
}.

Record eligible (spec : RoutePolicySpec.t) (request : RoutePreviewRequest.t)
    (records : gmap uuid RegistryRecord.t) (c : RouteCandidate.t)
    (record : RegistryRecord.t) (p : ModelProfileSpec.t)
    (provider : RegistryRecord.t) (v : ProviderSpec.t) : Prop := {
  el_fresh : RouteCandidate.profile_revision_id c
             ∉ RoutePreviewRequest.failed_profile_revision_ids request;
  el_record : record_as records is_profile (RouteCandidate.profile_revision_id c)
              = Some (record, p);
  el_profile : profile_ok spec (RoutePreviewRequest.requirements request) record p;
  el_provider_record : record_as records is_provider (ModelProfileSpec.provider_revision_id p)
                       = Some (provider, v);
  el_provider : provider_ok spec (RoutePreviewRequest.requirements request) p provider v;
}.

Definition eligible_candidate (spec : RoutePolicySpec.t) (request : RoutePreviewRequest.t)
    (records : gmap uuid RegistryRecord.t) (c : RouteCandidate.t) : Prop :=
  ∃ record p provider v, eligible spec request records c record p provider v.

Lemma profile_reasons_nil spec request record p :
  profile_reasons spec request record p = []
  ↔ profile_ok spec (RoutePreviewRequest.requirements request) record p.
Proof.
  unfold profile_reasons. rewrite !app_nil, !note_nil, !Z.ltb_ge, is_inactive_false.
  rewrite !negb_false_iff, subset_true, bool_decide_eq_true.
  split; [intros ([] & ? & ? & ? & ?); by split|by intros []].
Qed.

Lemma health_eligible (h : HealthStatus.t) (b : bool) :
  (bool_decide (h ∈ [HealthStatus.unavailable; HealthStatus.misconfigured])
   || (bool_decide (h = HealthStatus.unknown) && negb b)) = false
  ↔ h ∈ [HealthStatus.healthy; HealthStatus.degraded] ∨ h = HealthStatus.unknown ∧ b = true.
Proof.
  transitivity ((bool_decide (h ∈ [HealthStatus.healthy; HealthStatus.degraded])
                 || (bool_decide (h = HealthStatus.unknown) && b)) = true).
  - by destruct h, b; vm_compute.
  - by rewrite orb_true_iff, andb_true_iff, !bool_decide_eq_true.
Qed.

Lemma provider_reasons_nil spec req p record v :
  provider_reasons spec req p record v = [] ↔ provider_ok spec req p record v.
Proof.
  unfold provider_reasons.
  rewrite !app_nil, !note_nil, is_inactive_false, health_eligible.
  rewrite !negb_false_iff, !bool_decide_eq_true, bool_decide_eq_false, andb_false_iff.
  rewrite bool_decide_eq_false, negb_false_iff, andb_true_iff.
  split.
  - intros ([] & ? & ? & ? & Hr & ? & ?). split; try done. by destruct Hr.
  - intros []. repeat split; try done.
    destruct (decide (ProviderSpec.locality v = Locality.remote)); auto.
Qed.

Lemma candidate_reasons_nil spec request records c :
  candidate_reasons spec request records c = [] ↔ eligible_candidate spec request records c.
Proof.
  unfold candidate_reasons, eligible_candidate. rewrite app_nil, note_nil, bool_decide_eq_false.
  destruct (record_as records is_profile _) as [[record p]|] eqn:Hr.
  - rewrite app_nil, profile_reasons_nil.
    destruct (record_as records is_provider _) as [[provider v]|] eqn:Hv.
    + rewrite provider_reasons_nil. split.
      * intros (? & ? & ?). by exists record, p, provider, v.
      * intros (? & ? & ? & ? & [Hf He Hp Hpv Hv']). simplify_eq. auto.
    + split; [by intros (_ & _ & ?)|]. intros (? & ? & ? & ? & []). simplify_eq.
  - split; [by intros []|]. intros (? & ? & ? & ? & []). simplify_eq.
Qed.

(** The candidate chosen is the least eligible one. *)
Lemma find_sorted {A K} `{PyOrdLaws K} (key : A → K) (P : A → bool) l x :
  StronglySorted (key_le key) l → List.find P l = Some x →
  x ∈ l ∧ P x = true ∧ ∀ y, y ∈ l → P y = true → key_le key x y.
Proof.
  induction 1 as [|y l Hs IH Hall]; simpl; [done|].
  destruct (P y) eqn:Hy.
  - intros [= <-]. split; [left|split; [done|]]. intros z [->|Hz]%elem_of_cons _.
    + apply py_leb_refl.
    + rewrite Forall_forall in Hall. auto.
  - intros Hf. destruct (IH Hf) as (? & ? & Hmin). split; [by right|split; [done|]].
    intros z [->|Hz]%elem_of_cons Hp; [congruence|auto].
Qed.

Lemma selected_candidate_Some spec request records c :
  selected_candidate spec request records = Some c →
  c ∈ RoutePolicySpec.candidates spec ∧ eligible_candidate spec request records c
  ∧ ∀ c', c' ∈ RoutePolicySpec.candidates spec → eligible_candidate spec request records c' →
      key_le candidate_key c c'.
Proof.
  intros Hf. apply (find_sorted candidate_key) in Hf as (Hc & He & Hmin).
  2: apply sorted_key_sorted.
  unfold ordered_candidates in *. rewrite elem_of_sorted_key in Hc.
  split; [done|]. rewrite bool_decide_eq_true, candidate_reasons_nil in He. split; [done|].
  intros c' Hc' He'. apply Hmin; [by rewrite elem_of_sorted_key|].
  by rewrite bool_decide_eq_true, candidate_reasons_nil.
Qed.

Lemma selected_candidate_None spec request records :
  selected_candidate spec request records = None →
  ∀ c, c ∈ RoutePolicySpec.candidates spec → ¬ eligible_candidate spec request records c.
Proof.
  intros Hf c Hc He. eapply List.find_none in Hf.
  - rewrite bool_decide_eq_false, candidate_reasons_nil in Hf. exact (Hf He).
  - apply list_elem_of_In. unfold ordered_candidates. by rewrite elem_of_sorted_key.
Qed.

Lemma selected_records_Some spec request records record p provider v :
  selected_records spec request records = Some (record, p, provider, v) →
  ∃ c, selected_candidate spec request records = Some c
       ∧ eligible spec request records c record p provider v.
Proof.
  unfold selected_records. destruct (selected_candidate _ _ _) as [c|] eqn:Hc; [|done]. simpl.
  apply selected_candidate_Some in Hc as (_ & (r & p' & pr & v' & He) & _).
  pose proof He as [_ Hr _ Hv _]. rewrite Hr; simpl. rewrite Hv; simpl.
  intros [= <- <- <- <-]. eauto.
Qed.

Lemma selected_records_None spec request records :
  selected_records spec request records = None → selected_candidate spec request records = None.
Proof.
  unfold selected_records. destruct (selected_candidate _ _ _) as [c|] eqn:Hc; [|done]. simpl.
  apply selected_candidate_Some in Hc as (_ & (r & p' & pr & v' & He) & _).
  destruct He as [_ Hr _ Hv _]. rewrite Hr; simpl. by rewrite Hv.
Qed.

(** What a route must satisfy before its candidates are considered. *)
Record route_open (spec : RoutePolicySpec.t) (request : RoutePreviewRequest.t)
    (route : RegistryRecord.t) : Prop := {
  ro_revision : RegistryRecord.revision_id route = RoutePreviewRequest.route_revision_id request;
  ro_enabled : RegistryRecord.enabled route = true;
  ro_archived : RegistryRecord.archived route = false;
  ro_purpose : RouteRequirements.purpose (RoutePreviewRequest.requirements request)
               ∈ RoutePolicySpec.purposes spec;
  ro_data : RouteRequirements.data_classification (RoutePreviewRequest.requirements request)
            ∈ RoutePolicySpec.allowed_data spec;
  ro_declared : RoutePreviewRequest.failed_profile_revision_ids request
                ⊆ RouteCandidate.profile_revision_id <$> RoutePolicySpec.candidates spec;
  ro_failover : RoutePreviewRequest.failed_profile_revision_ids request ≠ [] →
                ∃ f, RoutePreviewRequest.failure_class request = Some f
                     ∧ f ∈ RoutePolicySpec.failover_classes spec
                     ∧ f ∉ [FailureClass.SECURITY_POLICY_DENIED; FailureClass.USER_CANCELLED];
}.

Lemma failover_denied_false spec request :
  failover_denied spec request = false ↔
  (RoutePreviewRequest.failed_profile_revision_ids request ≠ [] →
   ∃ f, RoutePreviewRequest.failure_class request = Some f
        ∧ f ∈ RoutePolicySpec.failover_classes spec
        ∧ f ∉ [FailureClass.SECURITY_POLICY_DENIED; FailureClass.USER_CANCELLED]).
Proof.
  unfold failover_denied. case_bool_decide as Hn; simpl; [tauto|].
  destruct (RoutePreviewRequest.failure_class request) as [f|].
  - rewrite orb_false_iff, negb_false_iff, bool_decide_eq_true, bool_decide_eq_false.
    split; [intros [] _; eauto|]. intros Hf. by destruct (Hf Hn) as (? & [= <-] & ?).
  - split; [done|]. intros Hf. by destruct (Hf Hn) as (? & ? & _).
Qed.

Lemma undeclared_failure_false spec request :
  undeclared_failure spec request = false ↔
  RoutePreviewRequest.failed_profile_revision_ids request
  ⊆ RouteCandidate.profile_revision_id <$> RoutePolicySpec.candidates spec.
Proof.
  unfold undeclared_failure. rewrite existsb_false. apply forall_proper. intros x.
  by rewrite negb_false_iff, bool_decide_eq_true.
Qed.

Lemma route_guard_None spec request route :
  RegistryRecord.revision_id route = RoutePreviewRequest.route_revision_id request
  ∧ route_guard spec request route = None ↔ route_open spec request route.
Proof.
  unfold route_guard. split.
  - intros [Hr Hg].
    destruct (is_inactive route) eqn:Hi; [done|].
    destruct (policy_denied spec request) eqn:Hp; [done|].
    destruct (undeclared_failure spec request) eqn:Hu; [done|].
    destruct (failover_denied spec request) eqn:Hf; [done|].
    apply is_inactive_false in Hi as []. apply undeclared_failure_false in Hu.
    pose proof (proj1 (failover_denied_false _ _) Hf). unfold policy_denied in Hp.
    rewrite orb_false_iff, !negb_false_iff, !bool_decide_eq_true in Hp. destruct Hp.
    by split.
  - intros [Hr He Ha Hp Hd Hu Hf]. split; [done|].
    assert (is_inactive route = false) as -> by by apply is_inactive_false.
    assert (policy_denied spec request = false) as ->.
    { unfold policy_denied. by rewrite !bool_decide_eq_true_2. }
    apply undeclared_failure_false in Hu as ->. by apply failover_denied_false in Hf as ->.
Qed.

Section resolution.
Context `{PyRuntime} `{ModelDump RoutePreviewRequest.t} `{ModelDump RegistryRecord.t}.

(** Both branches of [resolve_route]: nothing is selected, or the route is open and
its candidates are resolved. *)
Lemma resolve_route_cases request route records :
  (RouteResolution.selected_profile_revision_id (resolve_route request route records) = None
   ∧ RouteResolution.decision (resolve_route request route records) = Decision3.deny
   ∧ ∀ spec, RegistryRecord.spec route = SRoutePolicy spec → ¬ route_open spec request route)
  ∨ ∃ spec, RegistryRecord.spec route = SRoutePolicy spec ∧ route_open spec request route
      ∧ resolve_route request route records
        = resolve_candidates spec request (route_digest request route records) records.
Proof.
  unfold resolve_route. destruct (RegistryRecord.spec route) eqn:Hs; try (left; split_and!; done).
  case_bool_decide as Hr; simpl.
  2: { left. split_and!; [done..|]. by intros ? [= <-] []. }
  destruct (route_guard s request route) eqn:Hg.
  - left. split_and!; [done..|]. intros ? [= <-] Ho. apply route_guard_None in Ho. naive_solver.
  - right. exists s. split_and!; [done| |done]. by apply route_guard_None.
Qed.

(** A resolution that selects a model profile selects the profile of the least
eligible candidate of an open route in candidate order, together with that profile's
provider, and its decision and reasons are those of the route's spend policy for
that profile. *)
Theorem route_selects request route records pid :
  RouteResolution.selected_profile_revision_id (resolve_route request route records) = Some pid →
  ∃ spec c record p provider v,
    RegistryRecord.spec route = SRoutePolicy spec ∧ route_open spec request route
    ∧ c ∈ RoutePolicySpec.candidates spec ∧ RouteCandidate.profile_revision_id c = pid
    ∧ eligible spec request records c record p provider v
    ∧ (∀ c', c' ∈ RoutePolicySpec.candidates spec → eligible_candidate spec request records c' →
        key_le candidate_key c c')
    ∧ RouteResolution.selected_provider_revision_id (resolve_route request route records)
      = Some (ModelProfileSpec.provider_revision_id p)
    ∧ (RouteResolution.decision (resolve_route request route records),
       RouteResolution.reasons (resolve_route request route records))
      = evaluate_spend (RoutePolicySpec.spend spec) (RoutePreviewRequest.requirements request)
          (ModelProfileSpec.pricing p) (EgressPolicy.paid (ProviderSpec.egress v)).
Proof.
  intros Hp. destruct (resolve_route_cases request route records) as
    [(Hn & _)|(spec & Hs & Ho & Hr)]; [congruence|].
  rewrite Hr in *. clear Hr. revert Hp. unfold resolve_candidates.
  destruct (selected_records spec request records) as [[[[record p] provider] v]|] eqn:Hsel; [|done].
  apply selected_records_Some in Hsel as (c & Hc & He).
  apply selected_candidate_Some in Hc as (Hin & _ & Hmin).
  simpl. intros [= <-].
  pose proof He as [_ Hrec _ Hprov _].
  apply record_as_Some in Hrec as (_ & Hid & _). apply record_as_Some in Hprov as (_ & Hpid & _).
  exists spec, c, record, p, provider, v. split_and!; try done. by rewrite Hpid.
Qed.

(** Route resolution is complete: a profile is selected exactly when the route
is open for the request and at least one of its candidates is eligible (active
profile and provider, purpose, capabilities, limits, data egress and health). *)
Theorem route_selects_iff request route records :
  is_Some (RouteResolution.selected_profile_revision_id (resolve_route request route records))
  ↔ ∃ spec c, RegistryRecord.spec route = SRoutePolicy spec ∧ route_open spec request route
      ∧ c ∈ RoutePolicySpec.candidates spec ∧ eligible_candidate spec request records c.
Proof.
  destruct (resolve_route_cases request route records) as
    [(Hn & _ & Hc)|(spec & Hs & Ho & ->)].
  - rewrite Hn. split; [by intros [? ?]|]. intros (spec & c & Hs & Ho & _).
    exfalso. exact (Hc spec Hs Ho).
  - unfold resolve_candidates.
    destruct (selected_records spec request records) as [[[[record p] provider] v]|] eqn:Hsel.
    + apply selected_records_Some in Hsel as (c & Hc & He).
      apply selected_candidate_Some in Hc as (Hin & Hel & _). simpl.
      split; [by exists spec, c|by eauto].
    + simpl. split; [by intros [? ?]|]. intros (spec' & c & Hs' & _ & Hc & He).
      assert (spec' = spec) as -> by congruence.
      by edestruct selected_candidate_None; [apply selected_records_None|..].
Qed.

(** When a resolution is allowed outright, the selected profile is eligible and
the token limits and both cost ceilings of the route's spend policy hold of the
estimate computed from that profile's pricing. *)
Theorem route_allow_affordable request route records spec :
  RegistryRecord.spec route = SRoutePolicy spec →
  RoutePolicySpec.valid spec = true →
  RouteResolution.decision (resolve_route request route records) = Decision3.allow →
  ∃ c record p provider v, c ∈ RoutePolicySpec.candidates spec
    ∧ eligible spec request records c record p provider v
    ∧ RouteResolution.selected_profile_revision_id (resolve_route request route records)
      = Some (RouteCandidate.profile_revision_id c)
    ∧ affordable (RoutePolicySpec.spend spec) (RoutePreviewRequest.requirements request)
        (ModelProfileSpec.pricing p) (EgressPolicy.paid (ProviderSpec.egress v)).
Proof.
  intros Hs Hv. destruct (resolve_route_cases request route records) as
    [(_ & Hd & _)|(spec' & Hs' & _ & ->)]; [congruence|].
  assert (spec' = spec) as -> by congruence. unfold resolve_candidates.
  destruct (selected_records spec request records) as [[[[record p] provider] v]|] eqn:Hsel; [|done].
  apply selected_records_Some in Hsel as (c & Hc & He).
  apply selected_candidate_Some in Hc as (Hin & _ & _). simpl. intros Ha.
  exists c, record, p, provider, v. split_and!; try done.
  - destruct He as [_ Hrec _ _ _]. by apply record_as_Some in Hrec as (_ & -> & _).
  - apply evaluate_spend_allow; [|done].
    unfold RoutePolicySpec.valid in Hv. by apply andb_true_iff in Hv as [[_ ?]%andb_true_iff _].
Qed.
End resolution.

(** ** Retries *)

Lemma hex_value_bounds c : 0 ≤ hex_value c ≤ 15.
Proof.
  unfold hex_value. pose proof (Zle_0_nat (Ascii.nat_of_ascii c)).
  repeat match goal with |- context [if ?b then _ else _] => destruct b eqn:? end; lia.
Qed.

Lemma hex_prefix_bounds k s : ∀ acc m, 0 ≤ acc ≤ m →
  0 ≤ hex_prefix k acc s ≤ (m + 1) * 16 ^ Z.of_nat k - 1.
Proof.
  revert s. induction k as [|k IH]; intros s acc m Ha; simpl; [lia|].
  assert (16 ^ Z.of_nat (S k) = 16 * 16 ^ Z.of_nat k) as Hp by
    (rewrite Nat2Z.inj_succ, Z.pow_succ_r; lia).
  pose proof (Z.pow_pos_nonneg 16 (Z.of_nat k)).
  destruct s as [|c s]; [nia|]. pose proof (hex_value_bounds c).
  assert (0 ≤ 16 * acc + hex_value c ≤ 16 * m + 15) as Hb by lia.
  pose proof (IH s _ _ Hb). lia.
Qed.

(** What the model assumes of [pow]: a base of at least one has powers of at least
one (C11 F.10.4.4 with faithful rounding: one is a binary64 number). *)
Class FloatPowLaws `{FloatPow} :=
  float_pow_ge_one : ∀ m n, (1 <= m)%Q → 0 ≤ n → (1 <= float_pow m n)%Q.

Section retries.
Context `{PyRuntime} `{FloatPowLaws}.

Lemma RetryRule_valid_bounds rule : RetryRule_valid rule = true →
  0 ≤ initial_delay_ms rule ≤ max_delay_ms rule ∧ max_delay_ms rule ≤ 86400000
  ∧ (1 <= multiplier rule)%Q ∧ 0 ≤ max_retries rule ≤ 100.
Proof.
  unfold RetryRule_valid, z_between.
  rewrite !andb_true_iff, !Z.leb_le, negb_true_iff, Z.ltb_ge.
  intros ((((? & ?) & (Hm & _)) & ?) & ?). apply Qle_bool_iff in Hm. split_and!; lia || done.
Qed.

(** A product with a factor of at least one does not go below the integer. *)
Lemma Qmult_ge_int z q : 0 ≤ z → (1 <= q)%Q → (inject_Z z <= inject_Z z * q)%Q.
Proof. destruct q as [n d]. unfold Qle; simpl. nia. Qed.

Lemma Qmult_le_int z q : 0 ≤ z → (q <= 1)%Q → (inject_Z z * q <= inject_Z z)%Q.
Proof. destruct q as [n d]. unfold Qle; simpl. nia. Qed.

Lemma float_int_ge q a : 0 ≤ a → (inject_Z a <= q)%Q → a ≤ float_int q.
Proof.
  destruct q as [n d]. unfold Qle, float_int; simpl. intros.
  rewrite Z.quot_div_nonneg by nia. apply Z.div_le_lower_bound; lia.
Qed.

Lemma float_int_le q b : (0 <= q)%Q → (q <= inject_Z b)%Q → float_int q ≤ b.
Proof.
  destruct q as [n d]. unfold Qle, float_int; simpl. intros.
  rewrite Z.quot_div_nonneg by nia. apply Z.div_le_upper_bound; lia.
Qed.

Lemma backoff_bounds rule used : RetryRule_valid rule = true → 0 ≤ used →
  initial_delay_ms rule ≤ backoff rule used ≤ max_delay_ms rule.
Proof.
  intros Hv Hu. apply RetryRule_valid_bounds in Hv as (Hi & Hm & Hmul & _).
  unfold backoff. split; [|lia]. apply Z.min_glb; [lia|].
  apply float_int_ge; [lia|]. apply f64_ge; [lia|].
  apply Qmult_ge_int; [lia|]. apply float_pow_ge_one; [done|lia].
Qed.

Lemma jitter_fraction_bounds key failure used : (0 <= jitter_fraction key failure used <= 1)%Q.
Proof.
  unfold jitter_fraction. set (h := hex_prefix 8 0 _).
  assert (0 ≤ h ≤ 2 ^ 32 - 1) as Hh.
  { pose proof (hex_prefix_bounds 8 (sha256 (key +:+ ":" +:+ FailureClass.value failure
      +:+ ":" +:+ pretty used)) 0 0 ltac:(lia)). subst h. lia. }
  change (2 ^ 32 - 1) with 4294967295 in *. unfold int_truediv.
  set (q := (inject_Z h / inject_Z 4294967295)%Q).
  assert (0 <= q)%Q as Hq0 by (subst q; unfold Qle, Qdiv, Qmult, Qinv; simpl; lia).
  assert (q <= 1)%Q as Hq1 by (subst q; unfold Qle, Qdiv, Qmult, Qinv; simpl; lia).
  split; [apply (f64_ge q 0); [lia|exact Hq0]|].
  apply (f64_le q 1 0); [exact Hq0|lia|lia|exact Hq1].
Qed.

(** The jitter factor [0.5 + 0.5 * fraction]. *)
Lemma jitter_factor_bounds fraction : (0 <= fraction <= 1)%Q →
  (0 <= float_add (Qmake 1 2) (float_mul (Qmake 1 2) fraction) <= 1)%Q.
Proof.
  intros [Hq0 Hq1]. unfold float_add, float_mul.
  assert (0 <= (Qmake 1 2) * fraction)%Q as Ha.
  { destruct fraction as [n d]. revert Hq0. unfold Qle. cbn -[Z.mul Pos.mul]. lia. }
  assert ((Qmake 1 2) * fraction <= scale 1 (- (1)))%Q as Hb.
  { destruct fraction as [n d]. revert Hq1. change (scale 1 (- (1))) with (Qmake 1 2).
    unfold Qle. cbn -[Z.mul Pos.mul]. lia. }
  pose proof (f64_ge _ 0 ltac:(lia) Ha) as Hc. pose proof (f64_le _ 1 1 Ha ltac:(lia) ltac:(lia) Hb) as Hd.
  set (x := f64 _) in *.
  assert (0 <= (Qmake 1 2) + x)%Q as He.
  { apply (Qplus_le_compat 0 _ 0); [done|exact Hc]. }
  assert ((Qmake 1 2) + x <= 1)%Q as Hf.
  { apply (Qle_trans _ ((Qmake 1 2) + scale 1 (- (1)))%Q); [|by vm_compute].
    apply Qplus_le_compat; [apply Qle_refl|exact Hd]. }
  split; [apply (f64_ge _ 0); [lia|exact He]|apply (f64_le _ 1 0); [exact He|lia|lia|exact Hf]].
Qed.

Lemma spread_bounds rule fraction delay : RetryRule_valid rule = true →
  (0 <= fraction <= 1)%Q → initial_delay_ms rule ≤ delay ≤ max_delay_ms rule →
  initial_delay_ms rule ≤ spread rule fraction delay ≤ delay.
Proof.
  intros Hv Hf Hd. apply RetryRule_valid_bounds in Hv as (Hi & Hm & _).
  apply jitter_factor_bounds in Hf as [Hq0 Hq1]. unfold spread.
  set (x := float_add _ _) in *. split; [lia|]. apply Z.max_lub; [lia|].
  assert (0 <= inject_Z delay * x)%Q as Hp.
  { apply Qmult_le_0_compat; [|done]. unfold Qle; simpl. lia. }
  unfold float_mul. apply float_int_le.
  - apply (f64_ge _ 0); [lia|exact Hp].
  - assert (scale delay (- 0) = inject_Z delay) as Hs by (unfold scale; simpl; by rewrite Z.mul_1_r).
    pose proof (Qmult_le_int delay x ltac:(lia) Hq1) as Hle. rewrite <-Hs in Hle at 2.
    pose proof (f64_le _ delay 0 Hp ltac:(lia) ltac:(lia) Hle) as Hr. by rewrite Hs in Hr.
Qed.

(** Every delay is between the initial and the maximal delay of its rule. *)
Lemma retry_delay_bounds rule key failure used : RetryRule_valid rule = true → 0 ≤ used →
  initial_delay_ms rule ≤ retry_delay rule key failure used ≤ max_delay_ms rule.
Proof.
  intros Hv Hu. pose proof (backoff_bounds rule used Hv Hu) as Hb. unfold retry_delay.
  destruct (_ && _); [|done].
  pose proof (spread_bounds rule _ _ Hv (jitter_fraction_bounds key failure used) Hb). lia.
Qed.

(** For a valid retry policy, a retry is granted only under a rule of the
failure class that is not blocked and has retries left; the counter advances by one
without passing the maximum and the backoff delay, jitter included, lies between the
rule's initial and maximal delays; a refusal leaves the counter as it was. *)
Theorem retry_decision policy failure counters key d :
  RetryPolicySpec_valid policy = true →
  evaluate_retry policy failure counters key = Some d →
  let used := default 0 (snd <$> find_key fst failure counters) in
  if RetryDecision.retry d then
    ∃ rule, rule ∈ rules policy ∧ rule_failure_class rule = failure
      ∧ failure ∉ blocked_classes ∧ 0 ≤ used < max_retries rule
      ∧ RetryDecision.used_retries d = used + 1
      ∧ initial_delay_ms rule ≤ RetryDecision.delay_ms d ≤ max_delay_ms rule
      ∧ RetryDecision.allow_failover d = allow_failover rule
  else
    RetryDecision.used_retries d = used ∧ RetryDecision.delay_ms d = 0
    ∧ RetryDecision.allow_failover d = false
    ∧ (failure ∈ blocked_classes
       ∨ ∀ rule, rule ∈ rules policy → rule_failure_class rule = failure → max_retries rule ≤ used).
Proof.
  intros Hp. unfold evaluate_retry. set (used := default 0 _). simpl.
  destruct (Z.ltb_spec used 0); [done|].
  destruct (find_rule failure (rules policy)) as [rule|] eqn:Hr.
  - apply (find_rule_unique policy) in Hr as Hin; [|done].
    destruct Hin as [Hin Hc].
    destruct (_ || _) eqn:Hb; intros [= <-]; simpl.
    + split_and!; [done..|]. apply orb_true_iff in Hb as [Hb|Hb].
      * left. by apply bool_decide_eq_true in Hb.
      * right. intros rule' Hin' Hc'. apply Z.leb_le in Hb.
        assert (rule' = rule) as ->; [|done].
        enough (Some rule' = Some rule) by congruence. rewrite <-Hr. symmetry.
        by apply (find_rule_unique policy).
    + apply orb_false_iff in Hb as [Hb Hm]. apply Z.leb_gt in Hm.
      apply bool_decide_eq_false in Hb. exists rule. split_and!; try done; try lia.
      all: apply retry_delay_bounds; [|lia].
      all: unfold RetryPolicySpec_valid in Hp; apply andb_true_iff in Hp as [Hp _].
      all: rewrite forallb_forall in Hp; by apply Hp, list_elem_of_In.
  - intros [= <-]; simpl. split_and!; [done..|]. right. intros rule Hin Hc.
    assert (find_rule failure (rules policy) = Some rule) by by apply find_rule_unique.
    congruence.
Qed.
End retries.

(** ** Permissions *)

Lemma combined_allow (ds : list Decision3.t) :
  (if bool_decide (Decision3.deny ∈ ds) then Decision3.deny
   else if bool_decide (Decision3.require_approval ∈ ds)
   then Decision3.require_approval else Decision3.allow) = Decision3.allow
  ↔ ∀ d, d ∈ ds → d = Decision3.allow.
Proof.
  destruct (bool_decide_reflect (Decision3.deny ∈ ds)) as [Hx|Hx].
  { split; [done|]. intros Hd. by apply Hd in Hx. }
  destruct (bool_decide_reflect (Decision3.require_approval ∈ ds)) as [Hy|Hy].
  { split; [done|]. intros Hd. by apply Hd in Hy. }
  split; [|done]. by intros _ [].
Qed.

(** A valid permission policy allows an action exactly when all its
capabilities are allowed and none is denied, its scope is listed, the action's own
decision is allow, no approval is required for it and it is neither sensitive nor
destructive: deny and require_approval always win. *)
Theorem permission_allow policy action capabilities scope sensitive destructive :
  PermissionPolicySpec.valid policy = true →
  evaluate_permission policy action capabilities scope sensitive destructive = Decision3.allow ↔
  (∀ c, c ∈ capabilities → c ∈ PermissionPolicySpec.allowed_capabilities policy
                           ∧ c ∉ PermissionPolicySpec.denied_capabilities policy)
  ∧ (∀ s, scope = Some s → s ∈ PermissionPolicySpec.filesystem_scopes policy)
  ∧ action_decision policy action = Some Decision3.allow
  ∧ action ∉ PermissionPolicySpec.approval_required_actions policy
  ∧ sensitive = false ∧ destructive = false.
Proof.
  unfold PermissionPolicySpec.valid. rewrite !andb_true_iff, !negb_true_iff, !bool_decide_eq_false.
  intros (((_ & Hs) & Hd) & Hu). unfold evaluate_permission.
  assert (scope_denied policy scope = false ↔
          ∀ s, scope = Some s → s ∈ PermissionPolicySpec.filesystem_scopes policy) as Hscope.
  { unfold scope_denied. destruct scope as [s|]; [|naive_solver].
    rewrite negb_false_iff, bool_decide_eq_true. naive_solver. }
  destruct (existsb _ capabilities) eqn:He.
  { split; [done|]. intros (Hc & _). apply existsb_exists in He as (c & Hin & Hden).
    apply bool_decide_eq_true in Hden. by destruct (Hc c) as [_ []]; [apply list_elem_of_In|]. }
  rewrite existsb_false in He.
  destruct (subset _ _) eqn:Hsub; simpl.
  2: { split; [done|]. intros (Hc & _). apply not_true_iff_false in Hsub. destruct Hsub.
       apply subset_true. intros c Hin. by apply Hc. }
  rewrite subset_true in Hsub.
  destruct (scope_denied policy scope) eqn:Hsd.
  { split; [done|]. intros (_ & Hf & _). by apply Hscope in Hf. }
  assert (∀ c, c ∈ capabilities → c ∈ PermissionPolicySpec.allowed_capabilities policy
            ∧ c ∉ PermissionPolicySpec.denied_capabilities policy) as Hcaps.
  { intros c Hin. split; [by apply Hsub|]. by eapply bool_decide_eq_false_1, He. }
  rewrite combined_allow. unfold permission_decisions.
  destruct (bool_decide_reflect (action ∈ PermissionPolicySpec.approval_required_actions policy))
    as [Hl|Hl].
  { split; [|tauto]. intros Hd'. discriminate (Hd' Decision3.require_approval).
    do 3 (apply elem_of_app; right). left. }
  split.
  - intros Hall. split_and!; try done.
    + by apply Hscope.
    + assert (∀ d, action_decision policy action = Some d → d = Decision3.allow) as Ha
        by (intros d Hd'; apply Hall; rewrite Hd'; left).
      destruct (action_decision policy action) as [d|]; [f_equal; by apply Ha|].
      destruct Hu. apply Hall. left.
    + destruct sensitive; [|done]. destruct Hs. apply Hall.
      apply elem_of_app; right. apply elem_of_app; right. apply elem_of_app; left. left.
    + destruct destructive; [|done]. destruct Hd. apply Hall.
      apply elem_of_app; right. apply elem_of_app; left. left.
  - intros (_ & _ & -> & _ & -> & ->) d. simpl. by intros ->%list_elem_of_singleton.
Qed.
