(* ===== verification/Circuit.v ===== *)
(** * Provider health and its circuit breaker

[HealthService] of [api/app/jarvis_api/routing/observability.py]: per provider
revision a circuit that opens after too many failures in a window, is probed by one
leaseholder after a cooldown, and closes again when a probe succeeds.  Both operations
run under [lock_events], so a state has one of them at a time.  Times are
microseconds; [total_seconds()] compares with whole seconds as microseconds do.

[circuit_refines] proves that the rows implement the abstract breaker [machine];
[single_probe], [circuit_trips] and [probe_recovers] are what it is for. *)
From S2P Require Import Prelude Enums PyJson Registry.
From stdpp Require Import gmap.
Local Open Scope Z_scope.
Local Open Scope stdpp_scope.

(** [version] comes from [MutableRow]. *)
Module ProviderHealthModel.
Record t := {
  status : HealthStatus.t;
  circuit_state : CircuitState.t;
  failure_count : Z;
  window_started_at : option Z;
  next_probe_at : option Z;
  probe_lease_until : option Z;
  observed_at : option Z;
  version : Z;
}.
Definition initial : t := {|
  status := HealthStatus.unknown; circuit_state := CircuitState.closed; failure_count := 0;
  window_started_at := None; next_probe_at := None; probe_lease_until := None;
  observed_at := None; version := 0;
|}.
End ProviderHealthModel.

Module HealthEvent.
Record t := { revision_id : uuid; mode : string; payload : jobj }.
End HealthEvent.

(** The tables: the specifications of the revisions ([None]: the stored one does not
validate), the health rows, and the events in order. *)
Record tables := {
  specs : gmap uuid (option RegistrySpec);
  health : gmap uuid ProviderHealthModel.t;
  log : list HealthEvent.t;
}.
Definition put (i : uuid) (row : ProviderHealthModel.t) (d : tables) : tables :=
  Build_tables (specs d) (<[i := row]> (health d)) (log d).

Inductive health_error : Set := MissingRevision | InvalidSpec | NotAProvider.

Definition seconds (n : Z) : Z := n * 1000000.

(** [_row]: the row of a provider revision, inserted when it is missing. *)
Definition _row (i : uuid) (d : tables) : res health_error (ProviderHealthModel.t * tables) :=
  match specs d !! i with
  | None => Err MissingRevision
  | Some None => Err InvalidSpec
  | Some (Some (SProvider _)) =>
      match health d !! i with
      | Some row => Ok (row, d)
      | None => Ok (ProviderHealthModel.initial, put i ProviderHealthModel.initial d)
      end
  | Some (Some _) => Err NotAProvider
  end.

Definition is_demo (i : uuid) (d : tables) : bool :=
  match specs d !! i with
  | Some (Some (SProvider p)) => bool_decide (ProviderSpec.provider_kind p = ProviderKind.demo)
  | _ => false
  end.

Definition _event (i : uuid) (row : ProviderHealthModel.t) (d : tables) : tables :=
  Build_tables (specs d) (health d) (log d ++ [{|
    HealthEvent.revision_id := i;
    HealthEvent.mode := if is_demo i d then "demo" else "real";
    HealthEvent.payload :=
      [("provider_revision_id", JStr (uuid_str i));
       ("status", JStr (HealthStatus.value (ProviderHealthModel.status row)));
       ("circuit_state", JStr (CircuitState.value (ProviderHealthModel.circuit_state row)));
       ("failure_count", JInt (ProviderHealthModel.failure_count row));
       ("version", JInt (ProviderHealthModel.version row))];
  |}]).

(** [deadline and deadline > now] *)
Definition pending (deadline : option Z) (now : Z) : bool :=
  match deadline with Some t => Z.ltb now t | None => false end.

(** ** [acquire_probe] *)

Definition lease_probe (policy : CircuitPolicy.t) (now : Z) (row : ProviderHealthModel.t)
    : ProviderHealthModel.t := {|
  ProviderHealthModel.status := ProviderHealthModel.status row;
  ProviderHealthModel.circuit_state := CircuitState.half_open;
  ProviderHealthModel.failure_count := ProviderHealthModel.failure_count row;
  ProviderHealthModel.window_started_at := ProviderHealthModel.window_started_at row;
  ProviderHealthModel.next_probe_at := ProviderHealthModel.next_probe_at row;
  ProviderHealthModel.probe_lease_until :=
    Some (now + seconds (CircuitPolicy.cooldown_seconds policy));
  ProviderHealthModel.observed_at := ProviderHealthModel.observed_at row;
  ProviderHealthModel.version := ProviderHealthModel.version row + 1;
|}.

Definition acquire_probe (i : uuid) (policy : CircuitPolicy.t) (now : Z) (d : tables)
    : res health_error (option Z * tables) :=
  found ← _row i d;
  let '(row, d) := found in
  match ProviderHealthModel.circuit_state row with
  | CircuitState.closed => Ok (Some (ProviderHealthModel.version row), d)
  | s =>
      if bool_decide (s = CircuitState.open)
         && pending (ProviderHealthModel.next_probe_at row) now then Ok (None, d)
      else if bool_decide (s = CircuitState.half_open)
              && pending (ProviderHealthModel.probe_lease_until row) now then Ok (None, d)
      else
        let row := lease_probe policy now row in
        Ok (Some (ProviderHealthModel.version row), _event i row (put i row d))
  end.

(** ** [observe] *)

Definition succeed (status : option HealthStatus.t) (now : Z) (row : ProviderHealthModel.t)
    : ProviderHealthModel.t := {|
  ProviderHealthModel.status := default HealthStatus.healthy status;
  ProviderHealthModel.circuit_state := CircuitState.closed;
  ProviderHealthModel.failure_count := 0;
  ProviderHealthModel.window_started_at := Some now;
  ProviderHealthModel.next_probe_at := None;
  ProviderHealthModel.probe_lease_until := None;
  ProviderHealthModel.observed_at := Some now;
  ProviderHealthModel.version := ProviderHealthModel.version row + 1;
|}.

(** Is the window of the row over? *)
Definition window_over (policy : CircuitPolicy.t) (now : Z) (row : ProviderHealthModel.t) : bool :=
  match ProviderHealthModel.window_started_at row with
  | None => true
  | Some t => Z.ltb (seconds (CircuitPolicy.failure_window_seconds policy)) (now - t)
  end.

Definition fail (policy : CircuitPolicy.t) (status : option HealthStatus.t) (now : Z)
    (row : ProviderHealthModel.t) : ProviderHealthModel.t :=
  let over := window_over policy now row in
  let count := (if over then 0 else ProviderHealthModel.failure_count row) + 1 in
  let opens := Z.leb (CircuitPolicy.failure_threshold policy) count
               || bool_decide (ProviderHealthModel.circuit_state row = CircuitState.half_open) in
  {|
    ProviderHealthModel.status :=
      default (if opens then HealthStatus.unavailable else HealthStatus.degraded) status;
    ProviderHealthModel.circuit_state :=
      if opens then CircuitState.open else ProviderHealthModel.circuit_state row;
    ProviderHealthModel.failure_count := count;
    ProviderHealthModel.window_started_at :=
      if over then Some now else ProviderHealthModel.window_started_at row;
    ProviderHealthModel.next_probe_at :=
      if opens then Some (now + seconds (CircuitPolicy.cooldown_seconds policy))
      else ProviderHealthModel.next_probe_at row;
    ProviderHealthModel.probe_lease_until :=
      if opens then None else ProviderHealthModel.probe_lease_until row;
    ProviderHealthModel.observed_at := Some now;
    ProviderHealthModel.version := ProviderHealthModel.version row + 1;
  |}.

(** The early returns. *)
Definition ignored (probe_version : option Z) (now : Z) (row : ProviderHealthModel.t) : bool :=
  match probe_version with
  | Some v => negb (Z.eqb (ProviderHealthModel.version row) v)
  | None => false
  end
  || bool_decide (ProviderHealthModel.circuit_state row = CircuitState.open)
  || (bool_decide (ProviderHealthModel.circuit_state row = CircuitState.half_open)
      && (bool_decide (probe_version = None)
          || negb (pending (ProviderHealthModel.probe_lease_until row) now))).

Definition observe (i : uuid) (policy : CircuitPolicy.t) (success : bool)
    (status : option HealthStatus.t) (probe_version : option Z) (now : Z) (d : tables)
    : res health_error (bool * tables) :=
  found ← _row i d;
  let '(row, d) := found in
  if ignored probe_version now row then Ok (false, d)
  else
    let row' := if success then succeed status now row else fail policy status now row in
    let d := put i row' d in
    Ok (true,
        if bool_decide (ProviderHealthModel.status row' = ProviderHealthModel.status row)
           && bool_decide (ProviderHealthModel.circuit_state row'
                           = ProviderHealthModel.circuit_state row)
        then d else _event i row' d).

(** ** The abstract breaker

Only the closed state counts failures; an open circuit waits, a probe has a deadline.
The version numbers what happened. *)
Inductive machine :=
  | Closed (window : option Z) (failures : Z)
  | Open (until : Z)
  | Probing (until : Z).

Definition m_start : machine * Z := (Closed None 0, 0).

Definition m_acquire (policy : CircuitPolicy.t) (now : Z) (s : machine * Z)
    : option Z * (machine * Z) :=
  match s.1 with
  | Closed _ _ => (Some s.2, s)
  | Open until | Probing until =>
      if Z.ltb now until then (None, s)
      else (Some (s.2 + 1), (Probing (now + seconds (CircuitPolicy.cooldown_seconds policy)),
                             s.2 + 1))
  end.

Definition m_fail (policy : CircuitPolicy.t) (now : Z) (m : machine) : machine :=
  let opened := Open (now + seconds (CircuitPolicy.cooldown_seconds policy)) in
  match m with
  | Closed window n =>
      let over := match window with
                  | None => true
                  | Some t => Z.ltb (seconds (CircuitPolicy.failure_window_seconds policy)) (now - t)
                  end in
      let n := (if over then 0 else n) + 1 in
      if Z.leb (CircuitPolicy.failure_threshold policy) n then opened
      else Closed (if over then Some now else window) n
  | Open until => Open until
  | Probing _ => opened
  end.

Definition m_observe (policy : CircuitPolicy.t) (success : bool) (probe_version : option Z)
    (now : Z) (s : machine * Z) : bool * (machine * Z) :=
  let current := match probe_version with Some v => Z.eqb s.2 v | None => true end in
  let listens :=
    match s.1 with
    | Closed _ _ => true
    | Open _ => false
    | Probing until => negb (bool_decide (probe_version = None)) && Z.ltb now until
    end in
  if current && listens
  then (true, (if success then Closed (Some now) 0 else m_fail policy now s.1, s.2 + 1))
  else (false, s).

(** ** Histories *)

Inductive op :=
  | Acquire (policy : CircuitPolicy.t) (now : Z)
  | Observe (policy : CircuitPolicy.t) (success : bool) (status : option HealthStatus.t)
      (probe_version : option Z) (now : Z).

Inductive answer := Version (v : option Z) | Observed (b : bool).

Definition exec1 (i : uuid) (o : op) (d : tables) : res health_error (answer * tables) :=
  match o with
  | Acquire policy now => r ← acquire_probe i policy now d; Ok (Version r.1, r.2)
  | Observe policy success status pv now =>
      r ← observe i policy success status pv now d; Ok (Observed r.1, r.2)
  end.

Fixpoint exec (ops : list (uuid * op)) (d : tables)
    : res health_error (list (uuid * answer) * tables) :=
  match ops with
  | [] => Ok ([], d)
  | (i, o) :: ops' =>
      r ← exec1 i o d;
      rs ← exec ops' r.2;
      Ok ((i, r.1) :: rs.1, rs.2)
  end.

Definition m_exec1 (o : op) (s : machine * Z) : answer * (machine * Z) :=
  match o with
  | Acquire policy now => let r := m_acquire policy now s in (Version r.1, r.2)
  | Observe policy success _ pv now =>
      let r := m_observe policy success pv now s in (Observed r.1, r.2)
  end.

Fixpoint m_exec (ops : list op) (s : machine * Z) : list answer * (machine * Z) :=
  match ops with
  | [] => ([], s)
  | o :: ops' =>
      let r := m_exec1 o s in
      let rs := m_exec ops' r.2 in (r.1 :: rs.1, rs.2)
  end.

(** The part of a history that concerns a revision. *)
Definition of_revision {A} (i : uuid) (l : list (uuid * A)) : list A :=
  snd <$> filter (λ p, p.1 = i) l.

(** ** Simulation *)

(** The abstract state of a row, and of a revision without one. *)
Definition simulates (row : ProviderHealthModel.t) (s : machine * Z) : Prop :=
  ProviderHealthModel.version row = s.2 ∧
  match s.1 with
  | Closed window n =>
      ProviderHealthModel.circuit_state row = CircuitState.closed
      ∧ ProviderHealthModel.window_started_at row = window
      ∧ ProviderHealthModel.failure_count row = n
  | Open until =>
      ProviderHealthModel.circuit_state row = CircuitState.open
      ∧ ProviderHealthModel.next_probe_at row = Some until
  | Probing until =>
      ProviderHealthModel.circuit_state row = CircuitState.half_open
      ∧ ProviderHealthModel.probe_lease_until row = Some until
  end.

Definition state_of (i : uuid) (d : tables) (s : machine * Z) : Prop :=
  match health d !! i with
  | Some row => simulates row s
  | None => s = m_start
  end.

Lemma _row_ok i d row d' :
  _row i d = Ok (row, d') →
  health d' !! i = Some row ∧ (∀ j, j ≠ i → health d' !! j = health d !! j)
  ∧ (health d !! i = Some row ∨ health d !! i = None ∧ row = ProviderHealthModel.initial).
Proof.
  unfold _row. destruct (specs d !! i) as [[[]|]|]; try done.
  destruct (health d !! i) as [r|] eqn:Hr; intros [= <- <-]; [split_and!; [done|done|by left]|].
  unfold put; simpl. split_and!; [apply lookup_insert_eq| |by right].
  intros j Hj. by apply lookup_insert_ne.
Qed.

Lemma state_of_row i d row d' s : _row i d = Ok (row, d') → state_of i d s → simulates row s.
Proof.
  intros Hr Hs. destruct (_row_ok _ _ _ _ Hr) as (_ & _ & [He|[He ->]]); unfold state_of in Hs;
    rewrite He in Hs; [done|]. by subst s.
Qed.

Lemma health_event i row d : health (_event i row d) = health d.
Proof. done. Qed.

Lemma pending_Some t now : pending (Some t) now = Z.ltb now t.
Proof. done. Qed.

Lemma leased i policy now row d d0 v :
  ProviderHealthModel.version row = v → (∀ j, j ≠ i → health d !! j = health d0 !! j) →
  Some (ProviderHealthModel.version (lease_probe policy now row)) = Some (v + 1)
  ∧ state_of i (_event i (lease_probe policy now row) (put i (lease_probe policy now row) d))
      (Probing (now + seconds (CircuitPolicy.cooldown_seconds policy)), v + 1)
  ∧ ∀ j, j ≠ i →
      health (_event i (lease_probe policy now row) (put i (lease_probe policy now row) d)) !! j
      = health d0 !! j.
Proof.
  intros Hv Hother. unfold state_of. rewrite health_event. unfold put. simpl.
  rewrite lookup_insert_eq, Hv. split_and!; [done|by rewrite <-Hv|].
  intros j Hj. rewrite lookup_insert_ne by done. by apply Hother.
Qed.

Lemma acquire_simulated i policy now d r d' s :
  acquire_probe i policy now d = Ok (r, d') → state_of i d s →
  r = (m_acquire policy now s).1 ∧ state_of i d' (m_acquire policy now s).2
  ∧ ∀ j, j ≠ i → health d' !! j = health d !! j.
Proof.
  unfold acquire_probe. intros ([row d1] & Hr & Ha)%res_bind_ok Hs.
  pose proof (state_of_row _ _ _ _ _ Hr Hs) as [Hv Hm].
  destruct (_row_ok _ _ _ _ Hr) as (Hget & Hother & _).
  destruct s as [m v]. cbn [fst snd] in Hv, Hm. unfold m_acquire. cbn [fst snd].
  destruct m as [w n|u|u].
  - destruct Hm as (Hc & Hw & Hn). rewrite Hc in Ha. injection Ha as <- <-.
    unfold state_of. rewrite Hget. split_and!; [by rewrite Hv|by split_and!|done].
  - destruct Hm as (Hc & Hu). rewrite Hc, Hu, pending_Some in Ha. simpl in Ha.
    destruct (Z.ltb now u); injection Ha as <- <-.
    + unfold state_of. rewrite Hget. split_and!; [done|by split_and!|done].
    + by apply leased.
  - destruct Hm as (Hc & Hu). rewrite Hc, Hu, pending_Some in Ha. simpl in Ha.
    destruct (Z.ltb now u); injection Ha as <- <-.
    + unfold state_of. rewrite Hget. split_and!; [done|by split_and!|done].
    + by apply leased.
Qed.

Lemma ignored_simulated pv now row s :
  simulates row s →
  ignored pv now row = negb ((match pv with Some v => Z.eqb s.2 v | None => true end)
    && match s.1 with
       | Closed _ _ => true
       | Open _ => false
       | Probing until => negb (bool_decide (pv = None)) && Z.ltb now until
       end).
Proof.
  destruct s as [m v]. intros [Hv Hm]. cbn [fst snd] in *. unfold ignored. rewrite Hv.
  rewrite !negb_andb. destruct m as [w n|u|u].
  - destruct Hm as (-> & _). simpl. rewrite !orb_false_r. by destruct pv.
  - destruct Hm as (-> & _). simpl. rewrite !orb_true_r. by destruct pv.
  - destruct Hm as (-> & ->). rewrite pending_Some. destruct pv as [v'|]; simpl; [|done].
    by rewrite orb_false_r.
Qed.

Lemma fail_simulated policy status now row s :
  simulates row s → (∀ u, s.1 ≠ Open u) →
  simulates (fail policy status now row) (m_fail policy now s.1, s.2 + 1).
Proof.
  destruct s as [m v]. intros [Hv Hm] Hopen. cbn [fst snd] in *. split; [simpl; by rewrite Hv|].
  destruct m as [w n|u|u]; [|by destruct (Hopen u)|].
  - destruct Hm as (Hc & <- & <-). unfold m_fail, fail, window_over. cbn [fst snd]. rewrite Hc.
    rewrite (bool_decide_false (CircuitState.closed = CircuitState.half_open)) by done.
    rewrite orb_false_r. by destruct (Z.leb _ _).
  - destruct Hm as (Hc & _). unfold m_fail, fail. cbn [fst snd]. rewrite Hc.
    rewrite (bool_decide_true (CircuitState.half_open = CircuitState.half_open)) by done.
    by rewrite orb_true_r.
Qed.

Lemma observe_simulated i policy success status pv now d b d' s :
  observe i policy success status pv now d = Ok (b, d') → state_of i d s →
  b = (m_observe policy success pv now s).1 ∧ state_of i d' (m_observe policy success pv now s).2
  ∧ ∀ j, j ≠ i → health d' !! j = health d !! j.
Proof.
  unfold observe. intros ([row d1] & Hr & Ho)%res_bind_ok Hs.
  pose proof (state_of_row _ _ _ _ _ Hr Hs) as Hsim.
  destruct (_row_ok _ _ _ _ Hr) as (Hget & Hother & _).
  rewrite (ignored_simulated _ _ _ _ Hsim) in Ho. unfold m_observe.
  destruct (_ && _) eqn:Hl; simpl in Ho; cycle 1.
  { injection Ho as <- <-. unfold state_of. by rewrite Hget. }
  set (row' := if success then _ else _) in Ho.
  assert (b = true ∧ health d' = <[i := row']> (health d1)) as [-> Hd'].
  { destruct (_ && _) in Ho; injection Ho as <- <-; done. }
  unfold state_of. rewrite Hd', lookup_insert_eq. split_and!; [done| |].
  - unfold row'. destruct success; cbn [fst snd].
    + destruct Hsim as [Hv _]. split; [simpl; by rewrite Hv|done].
    + apply fail_simulated; [done|]. intros u Hu. rewrite Hu, andb_false_r in Hl. done.
  - intros j Hj. rewrite lookup_insert_ne by done. by apply Hother.
Qed.

Lemma exec1_simulated i o d a d' s :
  exec1 i o d = Ok (a, d') → state_of i d s →
  a = (m_exec1 o s).1 ∧ state_of i d' (m_exec1 o s).2 ∧ ∀ j, j ≠ i → health d' !! j = health d !! j.
Proof.
  destruct o as [policy now|policy success status pv now]; simpl;
    intros ([r d1] & Hr & [= <- <-])%res_bind_ok Hs.
  - destruct (acquire_simulated _ _ _ _ _ _ _ Hr Hs) as (-> & ? & ?). done.
  - destruct (observe_simulated _ _ _ _ _ _ _ _ _ _ Hr Hs) as (-> & ? & ?). done.
Qed.

(** An operation leaves the rows of other revisions alone. *)
Lemma exec1_frame i o d a d' :
  exec1 i o d = Ok (a, d') → ∀ j, j ≠ i → health d' !! j = health d !! j.
Proof.
  intros He j Hj.
  assert (∀ row d1, _row i d = Ok (row, d1) → health d1 !! j = health d !! j) as Hrow.
  { intros row d1 Hr. destruct (_row_ok _ _ _ _ Hr) as (_ & Hother & _). by apply Hother. }
  assert (∀ row d1 row', _row i d = Ok (row, d1) → health (put i row' d1) !! j = health d !! j) as Hput.
  { intros row d1 row' Hr. unfold put; simpl. rewrite lookup_insert_ne by done. by eapply Hrow. }
  destruct o as [policy now|policy success status pv now]; simpl in He;
    apply res_bind_ok in He as ([r d1] & Hr & [= <- <-]).
  - unfold acquire_probe in Hr. apply res_bind_ok in Hr as ([row d2] & Hrow' & Hr).
    destruct (ProviderHealthModel.circuit_state row);
      [injection Hr as <- <-; by eapply Hrow|..];
      destruct (_ && _); [injection Hr as <- <-; by eapply Hrow| |injection Hr as <- <-; by eapply Hrow|];
      (destruct (_ && _); injection Hr as <- <-; [by eapply Hrow|rewrite health_event; by eapply Hput]).
  - unfold observe in Hr. apply res_bind_ok in Hr as ([row d2] & Hrow' & Hr).
    destruct (ignored _ _ _); [injection Hr as <- <-; by eapply Hrow|].
    destruct (_ && _); injection Hr as <- <-; [|rewrite health_event]; by eapply Hput.
Qed.

Lemma exec_simulated i ops d outs d' s :
  exec ops d = Ok (outs, d') → state_of i d s →
  of_revision i outs = (m_exec (of_revision i ops) s).1
  ∧ state_of i d' (m_exec (of_revision i ops) s).2.
Proof.
  unfold of_revision. revert d outs s. induction ops as [|[j o] ops IH]; intros d outs s; simpl.
  - intros [= <- <-]. done.
  - intros ([a d1] & Ha & Hr)%res_bind_ok Hs.
    apply res_bind_ok in Hr as ([rs d2] & Hrs & [= <- <-]). cbn [fst snd] in Hrs.
    rewrite !filter_cons. cbn [fst]. destruct (decide (j = i)) as [->|Hne].
    + destruct (exec1_simulated _ _ _ _ _ _ Ha Hs) as (-> & Hs1 & _).
      destruct (IH _ _ _ Hrs Hs1) as [Hrs' Hs2]. rewrite !fmap_cons, Hrs'. done.
    + apply (IH _ _ _ Hrs). unfold state_of.
      by rewrite (exec1_frame _ _ _ _ _ Ha i (not_eq_sym Hne)).
Qed.

(** ** Properties *)

(** C34. The provider health rows implement an abstract circuit breaker (closed with
a count of failures in a window, open until a time, probing until a time, with a
version): in any history of probes and observations on any revisions the answers
about a revision that had no row are those of the abstract machine, and the row
simulates its final state. *)
Theorem circuit_refines i ops d outs d' :
  exec ops d = Ok (outs, d') → health d !! i = None →
  of_revision i outs = (m_exec (of_revision i ops) m_start).1
  ∧ state_of i d' (m_exec (of_revision i ops) m_start).2.
Proof.
  intros He Hi. apply (exec_simulated _ _ _ _ _ m_start He). unfold state_of. by rewrite Hi.
Qed.

(** The time of an operation. *)
Definition time_of (o : op) : Z :=
  match o with Acquire _ now => now | Observe _ _ _ _ now => now end.

(** Neither a probe nor an observation of version [v]. *)
Definition stranger (v : Z) (o : op) : Prop :=
  match o with Acquire _ _ => True | Observe _ _ _ pv _ => pv ≠ Some v end.
Definition refused (a : answer) : Prop := a = Version None ∨ a = Observed false.

Lemma stranger_refused until v o :
  stranger v o → time_of o < until →
  refused (m_exec1 o (Probing until, v)).1 ∧ (m_exec1 o (Probing until, v)).2 = (Probing until, v).
Proof.
  intros Hs Ht. destruct o as [policy now|policy success status pv now]; simpl in *.
  - unfold m_acquire. cbn [fst snd]. rewrite (proj2 (Z.ltb_lt _ _) Ht). split; [by left|done].
  - unfold m_observe. cbn [fst snd]. destruct pv as [v'|].
    + destruct (Z.eqb_spec v v'); [congruence|]. split; [by right|done].
    + split; [by right|done].
Qed.

Lemma strangers_refused until v ops :
  Forall (λ o, stranger v o ∧ time_of o < until) ops →
  Forall refused (m_exec ops (Probing until, v)).1
  ∧ (m_exec ops (Probing until, v)).2 = (Probing until, v).
Proof.
  induction 1 as [|o ops [Hs Ht] _ [IHa IHs]]; simpl; [done|].
  destruct (stranger_refused until v o Hs Ht) as [Ha ->]. split; [by constructor|done].
Qed.

Lemma acquire_granted i policy now d row v d1 :
  health d !! i = Some row → ProviderHealthModel.circuit_state row ≠ CircuitState.closed →
  acquire_probe i policy now d = Ok (Some v, d1) →
  state_of i d1 (Probing (now + seconds (CircuitPolicy.cooldown_seconds policy)), v).
Proof.
  intros Hrow Hc. unfold acquire_probe. intros ([row' d'] & Hr & Ha)%res_bind_ok.
  destruct (_row_ok _ _ _ _ Hr) as (Hget & Hother & [He|[He _]]); [|congruence].
  assert (row' = row) as -> by congruence.
  destruct (ProviderHealthModel.circuit_state row); [done|..];
    destruct (_ && _); try done; destruct (_ && _); try done; injection Ha as <- <-;
    by apply (leased i policy now row d' d' _ eq_refl).
Qed.

(** One probe at a time: once a probe of an open or half-open circuit was
granted, then until its lease ends every other acquisition is refused, every
observation that does not carry its version is ignored, and the circuit stays half
open, whatever calls happen on this and on other providers. *)
Theorem single_probe i policy now d row v d1 ops outs d2 :
  health d !! i = Some row → ProviderHealthModel.circuit_state row ≠ CircuitState.closed →
  acquire_probe i policy now d = Ok (Some v, d1) →
  Forall (λ o, stranger v o ∧ time_of o < now + seconds (CircuitPolicy.cooldown_seconds policy))
    (of_revision i ops) →
  exec ops d1 = Ok (outs, d2) →
  Forall refused (of_revision i outs)
  ∧ state_of i d2 (Probing (now + seconds (CircuitPolicy.cooldown_seconds policy)), v).
Proof.
  intros Hrow Hc Ha Hops He. pose proof (acquire_granted _ _ _ _ _ _ _ Hrow Hc Ha) as Hs.
  destruct (exec_simulated _ _ _ _ _ _ He Hs) as [-> Hs2].
  destruct (strangers_refused _ _ _ Hops) as [Hr Hst]. by rewrite Hst in Hs2.
Qed.

(** Reports of failures without a probe. *)
Definition failures (policy : CircuitPolicy.t) (times : list Z) : list op :=
  (λ t, Observe policy false None None t) <$> times.

(** The machine after [n] failures in a window that began at [w]; [last] is the time of
the last of them. *)
Definition counted (policy : CircuitPolicy.t) (w n last : Z) : machine :=
  if Z.leb (CircuitPolicy.failure_threshold policy) n
  then Open (last + seconds (CircuitPolicy.cooldown_seconds policy))
  else Closed (Some w) n.

Lemma count_failures policy w n v times z :
  0 ≤ n < CircuitPolicy.failure_threshold policy →
  Forall (λ t, t ≤ w + seconds (CircuitPolicy.failure_window_seconds policy)) times →
  n + Z.of_nat (length times) ≤ CircuitPolicy.failure_threshold policy →
  let r := m_exec (failures policy times) (Closed (Some w) n, v) in
  Forall (eq (Observed true)) r.1
  ∧ r.2 = (counted policy w (n + Z.of_nat (length times)) (default z (last times)),
           v + Z.of_nat (length times)).
Proof.
  revert n v z. induction times as [|t times IH]; intros n v z Hn Ht Hlen.
  - simpl. unfold counted. rewrite Z.add_0_r, Z.add_0_r. rewrite (proj2 (Z.leb_gt _ _)) by lia.
    split; [constructor|done].
  - apply Forall_cons in Ht as [Ht0 Ht]. simpl in Hlen.
    change (failures policy (t :: times))
      with (Observe policy false None None t :: failures policy times).
    cbn [m_exec m_exec1]. unfold m_observe. cbn [fst snd andb]. unfold m_fail.
    rewrite (proj2 (Z.ltb_ge _ _)) by lia.
    destruct (Z.leb_spec (CircuitPolicy.failure_threshold policy) (n + 1)) as [Hle|Hgt].
    + assert (times = []) as -> by (destruct times; [done|simpl in Hlen; lia]). simpl.
      unfold counted. rewrite (proj2 (Z.leb_le _ _)) by lia. split; [by repeat constructor|done].
    + cbn [length]. destruct (IH (n + 1) (v + 1) t) as [Ha ->]; [lia|done|lia|]. split; [by constructor|].
      rewrite last_cons. replace (n + 1 + Z.of_nat (length times)) with (n + Z.of_nat (S (length times)))
        by lia.
      f_equal; [|lia]. destruct (last times); done.
Qed.

Lemma of_revision_all {A} i (l : list A) : of_revision i (pair i <$> l) = l.
Proof.
  unfold of_revision. induction l as [|o l IH]; [done|].
  rewrite fmap_cons, filter_cons_True by done. rewrite fmap_cons. by rewrite IH.
Qed.

(** The circuit opens exactly at its threshold: failures within one window that
starts with the first of them leave it closed while they are fewer than the
threshold, and the one that reaches it opens the circuit until the cooldown has
passed. *)
Theorem circuit_trips i policy d row t times outs d' :
  CircuitPolicy.valid policy = true →
  health d !! i = Some row → ProviderHealthModel.circuit_state row = CircuitState.closed →
  window_over policy t row = true →
  Forall (λ u, u ≤ t + seconds (CircuitPolicy.failure_window_seconds policy)) times →
  Z.of_nat (S (length times)) ≤ CircuitPolicy.failure_threshold policy →
  exec (pair i <$> failures policy (t :: times)) d = Ok (outs, d') →
  Forall (eq (Observed true)) (of_revision i outs)
  ∧ state_of i d' (counted policy t (Z.of_nat (S (length times))) (default t (last times)),
                   ProviderHealthModel.version row + Z.of_nat (S (length times))).
Proof.
  intros Hvalid Hrow Hc Hover Hts Hlen He.
  unfold CircuitPolicy.valid, z_between in Hvalid. rewrite !andb_true_iff, !Z.leb_le in Hvalid.
  set (v := ProviderHealthModel.version row).
  assert (state_of i d (Closed (ProviderHealthModel.window_started_at row)
    (ProviderHealthModel.failure_count row), v)) as Hs.
  { unfold state_of. rewrite Hrow. by split_and!. }
  destruct (exec_simulated _ _ _ _ _ _ He Hs) as [Ha Hs']. rewrite of_revision_all in Ha, Hs'.
  rewrite Ha. unfold failures in *. rewrite fmap_cons in *. cbn [m_exec m_exec1] in *.
  fold (failures policy times) in *. unfold m_observe in *. cbn [fst snd andb] in *.
  unfold m_fail in *. unfold window_over in Hover. rewrite Hover in *.
  destruct (Z.leb_spec (CircuitPolicy.failure_threshold policy) (0 + 1)) as [Hle|Hgt].
  - assert (times = []) as -> by (destruct times; [done|simpl in Hlen; lia]). simpl in *.
    unfold counted. rewrite (proj2 (Z.leb_le _ _)) by lia. split; [by repeat constructor|done].
  - destruct (count_failures policy t (0 + 1) (v + 1) times t) as [Hall Hst]; [lia|done|lia|].
    rewrite Hst in Hs'. split; [by constructor|].
    replace (Z.of_nat (S (length times))) with (0 + 1 + Z.of_nat (length times)) by lia.
    by replace (v + (0 + 1 + Z.of_nat (length times))) with (v + 1 + Z.of_nat (length times)) by lia.
Qed.

(** ** Recovery *)

Definition is_provider (i : uuid) (d : tables) : Prop := ∃ p, specs d !! i = Some (Some (SProvider p)).

Lemma _row_total i d :
  is_provider i d → ∃ row d', _row i d = Ok (row, d') ∧ specs d' = specs d.
Proof.
  intros [p Hp]. unfold _row. rewrite Hp. destruct (health d !! i) as [row|]; by eexists _, _.
Qed.

Lemma exec1_total i o d :
  is_provider i d → ∃ a d', exec1 i o d = Ok (a, d') ∧ specs d' = specs d.
Proof.
  intros Hp. destruct (_row_total i d Hp) as (row & d1 & Hr & Hs).
  destruct o as [policy now|policy success status pv now]; simpl.
  - unfold acquire_probe. rewrite Hr. simpl.
    destruct (ProviderHealthModel.circuit_state row); simpl; [by eexists _, _|..];
      (destruct (pending _ now); simpl; by eexists _, _).
  - unfold observe. rewrite Hr. simpl. destruct (ignored pv now row); [by eexists _, _|].
    destruct (_ && _); by eexists _, _.
Qed.

Lemma exec_total ops d :
  (∀ p, p ∈ ops → is_provider p.1 d) → ∃ outs d', exec ops d = Ok (outs, d').
Proof.
  revert d. induction ops as [|[i o] ops IH]; intros d Hp; simpl; [by eexists _, _|].
  destruct (exec1_total i o d (Hp (i, o) ltac:(by left))) as (a & d1 & -> & Hs). simpl.
  destruct (IH d1) as (outs & d' & ->); [|simpl; by eexists _, _].
  intros p Hin. unfold is_provider. rewrite Hs. apply Hp. by right.
Qed.

(** An open circuit recovers: after its cooldown a probe is granted with the
next version, and the report of its holder before the lease ends is heard; success
closes the circuit with a clean count, failure opens it for another cooldown. *)
Theorem probe_recovers i policy status success d until v u w :
  is_provider i d → state_of i d (Open until, v) → until ≤ u →
  w < u + seconds (CircuitPolicy.cooldown_seconds policy) → ∃ d',
  exec [(i, Acquire policy u); (i, Observe policy success status (Some (v + 1)) w)] d
    = Ok ([(i, Version (Some (v + 1))); (i, Observed true)], d')
  ∧ state_of i d' (if success then Closed (Some w) 0
                   else Open (w + seconds (CircuitPolicy.cooldown_seconds policy)), v + 2).
Proof.
  intros Hp Hs Hu Hw. set (cool := seconds (CircuitPolicy.cooldown_seconds policy)) in *.
  assert (m_exec1 (Acquire policy u) (Open until, v) = (Version (Some (v + 1)), (Probing (u + cool), v + 1)))
    as Hm1.
  { simpl. unfold m_acquire. cbn [fst snd]. by rewrite (proj2 (Z.ltb_ge _ _)). }
  assert (m_exec1 (Observe policy success status (Some (v + 1)) w) (Probing (u + cool), v + 1)
    = (Observed true, (if success then Closed (Some w) 0 else Open (w + cool), v + 2))) as Hm2.
  { simpl. unfold m_observe. cbn [fst snd]. rewrite Z.eqb_refl, (proj2 (Z.ltb_lt _ _)) by done.
    simpl. replace (v + 2) with (v + 1 + 1) by lia. done. }
  destruct (exec1_total i (Acquire policy u) d Hp) as (a1 & d1 & H1 & Hs1).
  destruct (exec1_simulated _ _ _ _ _ _ H1 Hs) as (-> & Hst & _). rewrite Hm1 in H1, Hst.
  destruct (exec1_total i (Observe policy success status (Some (v + 1)) w) d1)
    as (a2 & d2 & H2 & _); [unfold is_provider; by rewrite Hs1|].
  destruct (exec1_simulated _ _ _ _ _ _ H2 Hst) as (-> & Hst2 & _).
  cbn [snd] in H2, Hst2. rewrite Hm2 in H2, Hst2.
  exists d2. split; [|exact Hst2]. cbn [exec]. rewrite H1. cbn [mbind res_bind snd]. by rewrite H2.
Qed.
