(* ===== verification/EventRegistry.v ===== *)
(** * The event registry

[packages/contracts/src/jarvis_contracts/event_registry.py]: the event types the program may
write, with the category, the message and the payload model of each.  Pydantic's validation
of a payload is the parameter [PayloadModels]. *)
From S2P Require Import Prelude Enums PyJson.
From Stdlib Require Import Ascii.
Local Open Scope Z_scope.
Local Open Scope stdpp_scope.

(** ** Definitions *)

Module PayloadModel.
Inductive t : Set :=
  | RegistryAuditData
  | ProviderHealthData
  | RouteEvaluationData
  | SecurityDeniedData
  | OwnerPasswordResetData
  | LoginSucceededData
  | LoginFailedData
  | LogoutData
  | SessionRevokedData
  | OwnerBootstrappedData
  | WorkflowAuditData.
#[global] Instance eq_dec : EqDecision t.
Proof. solve_decision. Defined.
End PayloadModel.

Module EventDefinition.
Record t := {
  category : EventCategory.t;
  default_message : string;
  payload_model : option PayloadModel.t;
}.
End EventDefinition.

(** [payload_model.model_validate(data)] and its [model_dump(mode="json")]: [None] when the
validation raises. *)
Class PayloadModels := payload_dump : PayloadModel.t → jobj → option jobj.

(** ** Names *)

Definition _EVENT_NAMES : list string :=
  ["approval.cancelled"; "approval.decided"; "approval.expired"; "approval.requested";
   "approval.resume_queued"; "approval.resumed"; "artifact.created";
   "artifact.unavailable"; "artifact.verified"; "command.completed"; "command.failed";
   "command.output_summary"; "command.started"; "command.timed_out"; "config.created";
   "config.revised"; "dependency.prepared"; "effect.prepared"; "effect.dispatched";
   "effect.succeeded"; "effect.cancel_requested"; "effect.cancelled"; "effect.unknown";
   "effect.reconciliation_requested"; "project.created"; "config.validated";
   "failure.classified"; "file.created"; "file.deleted"; "file.read";
   "file.snapshot_created"; "file.write_completed"; "file.write_started";
   "git.branch_created"; "git.ci_updated"; "git.commit_created";
   "git.integration_completed"; "git.integration_conflict"; "git.integration_started";
   "git.pr_created"; "git.integration_lease_acquired"; "git.integration_lease_renewed";
   "git.integration_lease_released"; "command.normalized"; "git.push_completed";
   "git.push_started"; "graph.checkpointed"; "graph.compile_failed"; "graph.compiled";
   "graph.fanout_started"; "graph.join_completed"; "graph.route_selected";
   "instruction.applied"; "instruction.queued"; "job.blocked"; "job.cancelled";
   "job.completed"; "job.created"; "job.failed"; "job.status_changed"; "lease.expired";
   "message.created"; "mission.created"; "mission.directive_revised";
   "mission.lifecycle_changed"; "mission.autonomy_changed"; "mission.control_changed";
   "mission.wakeup_created"; "mission.wakeup_claimed"; "management.turn_queued";
   "management.turn_started"; "management.turn_applied"; "management.turn_stale";
   "management.turn_failed"; "work_item.created"; "work_item.updated";
   "work_item.ready"; "work_item.started"; "work_item.accepted"; "work_item.blocked";
   "work_item.cancelled"; "model.budget_authorized"; "model.budget_denied";
   "model.call_completed"; "model.call_failed"; "model.call_started"; "model.failover";
   "model.health_changed"; "model.route_selected"; "model.stream_progress";
   "model.usage_recorded"; "node.cancelled"; "node.failed"; "node.interrupted";
   "node.queued"; "node.skipped"; "node.started"; "node.succeeded"; "node.waiting";
   "orchestrator.heartbeat"; "retry.budget_consumed"; "retry.budget_exhausted";
   "review.completed"; "review.failed"; "review.snapshot_invalidated"; "review.started";
   "run.blocked"; "run.cancel_requested"; "run.cancelled"; "run.claimed";
   "run.configuration_bound"; "run.command_applied"; "run.command_rejected";
   "run.command_requested"; "run.completed"; "run.failed"; "run.pause_requested";
   "run.paused"; "run.queued"; "run.recovered"; "run.recovering"; "run.resumed";
   "run.started"; "security.redaction_applied"; "service.health_changed";
   "system.health_changed"; "task.attempt_started"; "task.blocked"; "task.cancelled";
   "task.created"; "task.delegated"; "task.dependencies_set"; "task.failed";
   "task.ready"; "task.retry_scheduled"; "task.reviewing"; "task.succeeded";
   "task.verifying"; "test.completed"; "test.failed"; "test.started"; "thread.created";
   "tool.completed"; "tool.failed"; "tool.started"; "worker.cancel_requested";
   "worker.cancelled"; "worker.health_changed"; "worker.heartbeat";
   "worker.invocation_completed"; "worker.invocation_dispatched";
   "worker.capacity_waiting"; "worker.workspace_prepared"; "worker.invocation_failed";
   "worker.lease_acquired"; "worker.lease_lost"; "workflow.published"].

Definition _PREFIX_CATEGORIES : list (string * EventCategory.t) :=
  [("approval", EventCategory.APPROVAL); ("artifact", EventCategory.ARTIFACT);
   ("command", EventCategory.COMMAND); ("config", EventCategory.CONFIG);
   ("dependency", EventCategory.TOOL); ("effect", EventCategory.NODE);
   ("project", EventCategory.CONFIG); ("failure", EventCategory.FAILURE);
   ("file", EventCategory.FILE); ("git", EventCategory.GIT);
   ("graph", EventCategory.GRAPH); ("instruction", EventCategory.COMMAND);
   ("job", EventCategory.JOB); ("lease", EventCategory.SYSTEM);
   ("message", EventCategory.THREAD); ("mission", EventCategory.THREAD);
   ("management", EventCategory.THREAD); ("model", EventCategory.MODEL);
   ("node", EventCategory.NODE); ("orchestrator", EventCategory.SYSTEM);
   ("retry", EventCategory.FAILURE); ("review", EventCategory.REVIEW);
   ("run", EventCategory.RUN); ("security", EventCategory.SYSTEM);
   ("service", EventCategory.SYSTEM); ("system", EventCategory.SYSTEM);
   ("task", EventCategory.TASK); ("test", EventCategory.TEST);
   ("thread", EventCategory.THREAD); ("tool", EventCategory.TOOL);
   ("worker", EventCategory.WORKER); ("work_item", EventCategory.TASK);
   ("workflow", EventCategory.CONFIG)].

(** [name.partition(".")[0]] *)
Fixpoint event_prefix (s : string) : string :=
  match s with
  | EmptyString => ""
  | String c s' => if bool_decide (c = "."%char) then "" else String c (event_prefix s')
  end.

(** ** Messages *)

Fixpoint str_map (f : ascii → ascii) (s : string) : string :=
  match s with EmptyString => "" | String c s' => String (f c) (str_map f s') end.
Definition shift (lo hi : nat) (d : nat → nat) (c : ascii) : ascii :=
  if in_range lo hi c then ascii_of_nat (d (nat_of_ascii c)) else c.
Definition to_upper : ascii → ascii := shift 97 122 (λ n, n - 32)%nat.
Definition to_lower : ascii → ascii := shift 65 90 (λ n, n + 32)%nat.
(** [str.capitalize] of ASCII text *)
Definition capitalize (s : string) : string :=
  match s with EmptyString => "" | String c s' => String (to_upper c) (str_map to_lower s') end.

(** [event_type.replace(".", " ").replace("_", " ").capitalize()] *)
Definition _humanize (event_type : string) : string :=
  capitalize (str_map (λ c, if is_oneof [46; 95]%nat c then " "%char else c) event_type).

(** ** The registry *)

Definition plain (c : EventCategory.t) (name : string) : EventDefinition.t :=
  EventDefinition.Build_t c (_humanize name) None.

(** The comprehension over [_EVENT_NAMES]; a name without a category raises. *)
Definition named_definitions : option (list (string * EventDefinition.t)) :=
  foldr (λ name acc,
    match dict_get (event_prefix name) _PREFIX_CATEGORIES, acc with
    | Some c, Some l => Some ((name, plain c name) :: l)
    | _, _ => None
    end) (Some []) _EVENT_NAMES.

Definition typed (c : EventCategory.t) (message : string) (m : PayloadModel.t) : EventDefinition.t :=
  EventDefinition.Build_t c message (Some m).

Definition typed_definitions : list (string * EventDefinition.t) :=
  [("config.created", typed EventCategory.CONFIG "Configuration created" PayloadModel.RegistryAuditData);
   ("config.revised", typed EventCategory.CONFIG "Configuration revised" PayloadModel.RegistryAuditData);
   ("config.validated", typed EventCategory.CONFIG "Configuration validated" PayloadModel.RegistryAuditData);
   ("model.health_changed", typed EventCategory.MODEL "Provider health changed" PayloadModel.ProviderHealthData);
   ("model.route_selected", typed EventCategory.MODEL "Model route evaluated" PayloadModel.RouteEvaluationData);
   ("auth.security_denied", typed EventCategory.AUTH "Security boundary denied request" PayloadModel.SecurityDeniedData);
   ("auth.owner_password_reset", typed EventCategory.AUTH "Owner password reset locally" PayloadModel.OwnerPasswordResetData);
   ("auth.login_succeeded", typed EventCategory.AUTH "Login succeeded" PayloadModel.LoginSucceededData);
   ("auth.login_failed", typed EventCategory.AUTH "Login failed" PayloadModel.LoginFailedData);
   ("auth.logout", typed EventCategory.AUTH "Logout completed" PayloadModel.LogoutData);
   ("auth.session_revoked", typed EventCategory.AUTH "Session revoked" PayloadModel.SessionRevokedData);
   ("auth.owner_bootstrapped", typed EventCategory.AUTH "Owner bootstrapped" PayloadModel.OwnerBootstrappedData)].

Definition workflow_definitions : list (string * EventDefinition.t) :=
  (λ action, ("workflow." +:+ action,
              typed EventCategory.CONFIG ("Workflow " +:+ action) PayloadModel.WorkflowAuditData))
    <$> ["created"; "revised"; "validated"; "published"; "archived"; "restored"].

Definition EVENT_REGISTRY : list (string * EventDefinition.t) :=
  dict_update (dict_update (default [] named_definitions) typed_definitions) workflow_definitions.

Definition event_definition (event_type : string) : option EventDefinition.t :=
  dict_get event_type EVENT_REGISTRY.

(** ** The registry is well formed *)

(** Importing the module does not raise. *)
Lemma named_definitions_total : is_Some named_definitions.
Proof. vm_compute. by eexists. Qed.

Definition definition_ok (kv : string * EventDefinition.t) : bool :=
  len_between 1 1024 (EventDefinition.default_message kv.2)
  && (bool_decide (event_prefix kv.1 = "auth")
      || bool_decide (dict_get (event_prefix kv.1) _PREFIX_CATEGORIES
                      = Some (EventDefinition.category kv.2))).

(** Every type has a message that fits an event, and the category of its prefix. *)
Lemma registry_ok event_type d :
  event_definition event_type = Some d → definition_ok (event_type, d) = true.
Proof.
  intros Hd%dict_get_elem. assert (forallb definition_ok EVENT_REGISTRY = true) as Hall by (by vm_compute).
  rewrite forallb_forall in Hall. by apply Hall, list_elem_of_In.
Qed.

(** The event types that the modelled parts of the program emit. *)
Definition emitted_types : list string :=
  ["run.claimed"; "run.recovering"; "lease.expired"; "run.command_applied"; "run.command_rejected";
   "run.queued"; "job.created"; "approval.requested"; "approval.resumed"; "approval.expired";
   "approval.decided"; "run.blocked"; "effect.prepared"; "effect.dispatched"; "effect.succeeded";
   "model.route_selected"; "model.call_started"; "model.call_completed"; "model.budget_authorized";
   "model.budget_denied"; "management.turn_started"; "management.turn_applied";
   "management.turn_stale"; "management.turn_failed"; "work_item.created"; "work_item.updated";
   "work_item.started"; "work_item.accepted"; "work_item.blocked"; "work_item.cancelled";
   "work_item.ready"; "mission.autonomy_changed"; "mission.control_changed";
   "mission.directive_revised"; "management.turn_queued"].
Lemma emitted_registered t : t ∈ emitted_types → is_Some (event_definition t).
Proof.
  intros Ht. assert (forallb (λ t, bool_decide (is_Some (event_definition t))) emitted_types = true)
    as Hall by (by vm_compute).
  rewrite forallb_forall in Hall. eapply bool_decide_eq_true, Hall. by apply list_elem_of_In.
Qed.

(** The type that [update_team] of [api/app/jarvis_api/missions.py] emits is missing. *)
Lemma team_revised_unregistered : event_definition "mission.team_revised" = None.
Proof. vm_compute. reflexivity. Qed.
