(* ===== verification/EventLog.v ===== *)
(** * The event log

[EventRepository] of [packages/persistence/src/jarvis_persistence/repositories.py]: an
append-only table of events with a global position and a sequence per run, both allocated
under locks of their counters.  [append] deduplicates, [page] reads a run's events at one
high-water mark although its statements see different snapshots of the tables, and the
row of a run repeats its last event.

A transaction that appends holds the row lock of the global counter until it commits, so
appends are steps of one system.  [reachable_log_ok] is the invariant of the tables,
[page_at_total] what a page is, and [append_spec] what an append does.  Pydantic's
serializer of the stored contract is the parameter [ModelDump NormalizedEvent.t]. *)
From S2P Require Import Prelude Enums PyJson WorkflowSpec.
From stdpp Require Import gmap.
From Stdlib Require Import Ascii.
Local Open Scope Z_scope.
Local Open Scope stdpp_scope.

(** ** Contracts ([packages/contracts/src/jarvis_contracts/events.py]) *)

Module EventScope.
Record t := {
  project_id : option uuid;
  thread_id : option uuid;
  job_id : option uuid;
  run_id : option uuid;
  task_id : option uuid;
  task_attempt_id : option uuid;
  workflow_node_id : option string;
  node_execution_id : option uuid;
}.
End EventScope.

Module EventSource.
Record t := {
  kind : string;
  name : string;
  instance_id : option string;
  host_id : option string;
  source_sequence : option Z;
}.
End EventSource.

Module ArtifactReference.
Record t := { artifact_id : uuid; relation : string }.
End ArtifactReference.

Module NewEvent.
Record t := {
  schema_version : string;
  occurred_at : Z;
  category : EventCategory.t;
  type : string;
  severity : EventSeverity.t;
  message : string;
  mode : EventMode.t;
  visibility : EventVisibility.t;
  scope : EventScope.t;
  source : EventSource.t;
  correlation_id : string;
  causation_event_id : option uuid;
  idempotency_key : option string;
  trace : option json;
  data : jobj;
  artifact_refs : list ArtifactReference.t;
}.
Definition run_id (e : t) : option uuid := EventScope.run_id (scope e).
Definition with_schema (v : string) (e : t) : t :=
  Build_t v (occurred_at e) (category e) (type e) (severity e) (message e) (mode e) (visibility e)
    (scope e) (source e) (correlation_id e) (causation_event_id e) (idempotency_key e) (trace e)
    (data e) (artifact_refs e).
End NewEvent.

(** [NormalizedEvent] extends [EventCore]. *)
Module NormalizedEvent.
Record t := {
  core : NewEvent.t;
  event_id : uuid;
  global_position : Z;
  run_sequence : option Z;
  recorded_at : Z;
}.
Definition validate_run_order (e : t) : bool :=
  Bool.eqb (bool_decide (NewEvent.run_id (core e) = None)) (bool_decide (run_sequence e = None)).
End NormalizedEvent.

(** A row: the columns of the event it stores, and those that [append] allocates. *)
Module EventModel.
Record t := {
  content : NewEvent.t;
  event_id : uuid;
  global_position : Z;
  run_sequence : option Z;
  source_dedupe_key : option string;
  idempotency_scope_key : option string;
  recorded_at : Z;
}.
Definition run_id (r : t) : option uuid := NewEvent.run_id (content r).
End EventModel.

(** ** Tables *)

(** The columns of a run that events touch, and its job. *)
Module RunProjection.
Record t := {
  job_id : uuid;
  status : string;
  last_event_position : Z;
  last_run_sequence : Z;
  last_event_at : option Z;
}.
Definition touch (position sequence recorded : Z) (r : t) : t :=
  Build_t (job_id r) (status r) position sequence (Some recorded).
End RunProjection.

Module JobScope.
Record t := { project_id : uuid; thread_id : option uuid }.
End JobScope.
Module NodeScope.
Record t := {
  run_id : uuid;
  task_id : option uuid;
  task_attempt_id : option uuid;
  workflow_node_id : string;
}.
End NodeScope.
Module ArtifactScope.
Record t := { run_id : option uuid; kind : string; storage_key : string }.
End ArtifactScope.

(** The rows an event may refer to.  [tasks] maps a task to its run and [attempts] an
attempt to its task. *)
Record references := {
  jobs : gmap uuid JobScope.t;
  projects : gset uuid;
  tasks : gmap uuid uuid;
  attempts : gmap uuid uuid;
  nodes : gmap uuid NodeScope.t;
  artifacts : gmap uuid ArtifactScope.t;
}.

(** [counter] is [None] before the migration has inserted the row. *)
Record tables := {
  counter : option Z;
  run_counters : gmap uuid Z;
  log : list EventModel.t;
  runs : gmap uuid RunProjection.t;
  refs : references;
}.

Inductive event_error :=
  | PersistenceInvariantError
  | ScopeError (message : string)
  | IntegrityError
  | ContractError
  | UnsupportedEventSchemaError (position : Z) (version : string)
  | CursorValueError
  | LimitValueError
  | EventCursorExpiredError (requested earliest latest : Z)
  | RunSequenceGapError (expected : Z) (actual : option Z) (position : Z).

(** ** [validate_scope] *)

Definition opt_in (o : option uuid) (f : uuid → bool) : bool :=
  match o with Some i => f i | None => true end.

Definition event_namespace (s : EventScope.t) : string :=
  match EventScope.run_id s, EventScope.job_id s, EventScope.project_id s with
  | Some i, _, _ => "run-" +:+ uuid_str i
  | None, Some i, _ => "job-" +:+ uuid_str i
  | None, None, Some i => "project-" +:+ uuid_str i
  | None, None, None => "system"
  end.

Definition artifact_in_scope (s : EventScope.t) (a : ArtifactScope.t) : bool :=
  bool_decide (ArtifactScope.run_id a = EventScope.run_id s)
  && (negb (String.eqb (ArtifactScope.kind a) "event_payload")
      || startswith ("events/" +:+ event_namespace s +:+ "/") (ArtifactScope.storage_key a)).

Definition node_in_scope (s : EventScope.t) (n : NodeScope.t) : bool :=
  bool_decide (Some (NodeScope.run_id n) = EventScope.run_id s)
  && opt_in (EventScope.task_id s) (λ i, bool_decide (NodeScope.task_id n = Some i))
  && opt_in (EventScope.task_attempt_id s) (λ i, bool_decide (NodeScope.task_attempt_id n = Some i))
  && match EventScope.workflow_node_id s with
     | Some w => String.eqb (NodeScope.workflow_node_id n) w
     | None => true
     end.

Definition attempt_in_scope (s : EventScope.t) (r : references) (attempt : uuid) : bool :=
  match attempts r !! attempt with
  | None => false
  | Some task =>
      match tasks r !! task with
      | None => false
      | Some run => bool_decide (Some run = EventScope.run_id s)
                    && opt_in (EventScope.task_id s) (λ i, bool_decide (task = i))
      end
  end.

Definition scope_job (s : EventScope.t) (run : option RunProjection.t) : option uuid :=
  match run with Some r => Some (RunProjection.job_id r) | None => EventScope.job_id s end.

(** The message of a [ValueError] is shortened to what is wrong. *)
Definition validate_scope (s : EventScope.t) (references : list ArtifactReference.t) (d : tables)
    : res event_error unit :=
  let r := refs d in
  let run := i ← EventScope.run_id s; runs d !! i in
  _ ← raise_if (bool_decide (is_Some (EventScope.run_id s)) && bool_decide (run = None))
        (ScopeError "missing run");
  let job_id := scope_job s run in
  let job := i ← job_id; jobs r !! i in
  _ ← raise_if (bool_decide (is_Some job_id) && bool_decide (job = None)) (ScopeError "missing job");
  _ ← raise_if (negb (opt_in (EventScope.job_id s) (λ i, bool_decide (job_id = Some i))))
        (ScopeError "job of another run");
  _ ← raise_if (negb (opt_in (EventScope.project_id s) (λ i,
        match job with Some j => bool_decide (JobScope.project_id j = i) | None => true end)))
        (ScopeError "project of another job");
  _ ← raise_if (negb (opt_in (EventScope.project_id s) (λ i, bool_decide (i ∈ projects r))))
        (ScopeError "missing project");
  _ ← raise_if (negb (opt_in (EventScope.thread_id s) (λ i,
        match job with Some j => bool_decide (JobScope.thread_id j = Some i) | None => false end)))
        (ScopeError "thread of another job");
  _ ← raise_if (negb (opt_in (EventScope.task_id s) (λ i,
        match tasks r !! i with Some run => bool_decide (Some run = EventScope.run_id s)
                              | None => false end)))
        (ScopeError "task of another run");
  _ ← raise_if (negb (opt_in (EventScope.task_attempt_id s) (attempt_in_scope s r)))
        (ScopeError "attempt of another task");
  _ ← raise_if (negb (opt_in (EventScope.node_execution_id s) (λ i,
        match nodes r !! i with Some n => node_in_scope s n | None => false end)))
        (ScopeError "node execution of another scope");
  raise_if (negb (forallb (λ ref, match artifacts r !! ArtifactReference.artifact_id ref with
                                  | Some a => artifact_in_scope s a
                                  | None => false
                                  end) references))
    (ScopeError "artifact of another run").

(** ** Deduplication keys *)

(** [scope.run_id or scope.job_id or scope.project_id or "system"] *)
Definition key_scope (s : EventScope.t) : string :=
  match EventScope.run_id s, EventScope.job_id s, EventScope.project_id s with
  | Some i, _, _ | None, Some i, _ | None, None, Some i => uuid_str i
  | None, None, None => "system"
  end.

Definition _idempotency_scope_key (e : NewEvent.t) : option string :=
  key ← NewEvent.idempotency_key e; Some (key_scope (NewEvent.scope e) +:+ ":" +:+ key).

(** [value or "-"] *)
Definition or_dash (o : option string) : string :=
  match o with Some s => if String.eqb s "" then "-" else s | None => "-" end.

Definition _source_dedupe_key (e : NewEvent.t) : option string :=
  let source := NewEvent.source e in
  n ← EventSource.source_sequence source;
  Some (PyJson.join ":" [EventSource.kind source; EventSource.name source;
                         or_dash (EventSource.instance_id source);
                         or_dash (EventSource.host_id source); pretty n]).

Definition same_key (a b : option string) : bool :=
  match a, b with Some x, Some y => String.eqb x y | _, _ => false end.

Definition _find_duplicate (idempotency source : option string) (l : list EventModel.t)
    : option EventModel.t :=
  find (λ r, same_key idempotency (EventModel.idempotency_scope_key r)
             || same_key source (EventModel.source_dedupe_key r)) l.

(** ** [append] *)

(** [version.partition(".")[0]] *)
Fixpoint before_dot (s : string) : string :=
  match s with
  | EmptyString => ""
  | String c s' => if bool_decide (c = "."%char) then "" else String c (before_dot s')
  end.

Section log.
Context `{PyRuntime} `{ModelDump NormalizedEvent.t}.

Definition SUPPORTED_EVENT_SCHEMA_MAJOR : string := "1".

(** [enforce_size_limit] measures the whole contract, and so counts what [append] adds to
an event. *)
Definition contract_ok (e : NormalizedEvent.t) : bool :=
  Z.leb (Z.of_nat (String.length (canonical_json (model_dump e)))) 65536
  && NormalizedEvent.validate_run_order e
  && Z.ltb 0 (NormalizedEvent.global_position e)
  && match NormalizedEvent.run_sequence e with Some n => Z.ltb 0 n | None => true end.

Definition _to_contract (r : EventModel.t) : res event_error NormalizedEvent.t :=
  let version := NewEvent.schema_version (EventModel.content r) in
  if negb (String.eqb (before_dot version) SUPPORTED_EVENT_SCHEMA_MAJOR)
  then Err (UnsupportedEventSchemaError (EventModel.global_position r) version)
  else
    let e := {|
      NormalizedEvent.core := NewEvent.with_schema "1.0" (EventModel.content r);
      NormalizedEvent.event_id := EventModel.event_id r;
      NormalizedEvent.global_position := EventModel.global_position r;
      NormalizedEvent.run_sequence := EventModel.run_sequence r;
      NormalizedEvent.recorded_at := EventModel.recorded_at r;
    |} in
    if contract_ok e then Ok e else Err ContractError.

(** The next sequence of the run; a missing counter row is inserted with 0. *)
Definition next_sequence (e : NewEvent.t) (d : tables) : option Z :=
  i ← NewEvent.run_id e; Some (default 0 (run_counters d !! i) + 1).

Definition event_row (fresh : uuid) (recorded position : Z) (sequence : option Z) (e : NewEvent.t)
    : EventModel.t := {|
  EventModel.content := e;
  EventModel.event_id := fresh;
  EventModel.global_position := position;
  EventModel.run_sequence := sequence;
  EventModel.source_dedupe_key := _source_dedupe_key e;
  EventModel.idempotency_scope_key := _idempotency_scope_key e;
  EventModel.recorded_at := recorded;
|}.

(** Would the row violate a unique constraint of the table?  Its keys are new
([_find_duplicate]). *)
Definition row_conflict (r : EventModel.t) (l : list EventModel.t) : bool :=
  existsb (λ x, bool_decide (EventModel.event_id x = EventModel.event_id r)
                || Z.eqb (EventModel.global_position x) (EventModel.global_position r)
                || (bool_decide (is_Some (EventModel.run_id r))
                    && bool_decide (EventModel.run_id x = EventModel.run_id r)
                    && bool_decide (EventModel.run_sequence x = EventModel.run_sequence r))) l.

(** The tables with the row. *)
Definition insert_event (r : EventModel.t) (d : tables) : tables :=
  let position := EventModel.global_position r in
  match EventModel.run_id r, EventModel.run_sequence r with
  | Some i, Some n =>
      Build_tables (Some position) (<[i := n]> (run_counters d)) (log d ++ [r])
        (alter (RunProjection.touch position n (EventModel.recorded_at r)) i (runs d)) (refs d)
  | _, _ => Build_tables (Some position) (run_counters d) (log d ++ [r]) (runs d) (refs d)
  end.

(** [fresh] is the new event's ID and [recorded] the time of the database. *)
Definition append (fresh : uuid) (recorded : Z) (e : NewEvent.t) (d : tables)
    : res event_error (NormalizedEvent.t * tables) :=
  match counter d with
  | None => Err PersistenceInvariantError
  | Some last =>
      _ ← validate_scope (NewEvent.scope e) (NewEvent.artifact_refs e) d;
      match _find_duplicate (_idempotency_scope_key e) (_source_dedupe_key e) (log d) with
      | Some r => n ← _to_contract r; Ok (n, d)
      | None =>
          let r := event_row fresh recorded (last + 1) (next_sequence e d) e in
          if row_conflict r (log d) then Err IntegrityError
          else n ← _to_contract r; Ok (n, insert_event r d)
      end
  end.

(** ** [page] *)

Record event_page := {
  items : list NormalizedEvent.t;
  p_after : Z;
  high_watermark : Z;
  next_after : option Z;
}.

Definition of_run (run : uuid) (r : EventModel.t) : bool :=
  bool_decide (EventModel.run_id r = Some run).
Definition visible (r : EventModel.t) : bool :=
  bool_decide (NewEvent.visibility (EventModel.content r)
               ∈ [EventVisibility.OWNER; EventVisibility.OPERATOR]).
Definition between (lo hi : Z) (r : EventModel.t) : bool :=
  Z.ltb lo (EventModel.global_position r) && Z.leb (EventModel.global_position r) hi.

(** [SELECT ... ORDER BY global_position] *)
Definition select_rows (P : EventModel.t → bool) (d : tables) : list EventModel.t :=
  sorted_key EventModel.global_position (List.filter P (log d)).

Definition earliest_position (d : tables) : option Z :=
  EventModel.global_position <$> head (sorted_key EventModel.global_position (log d)).

(** [max(run_sequence)] *)
Definition prior_sequence (run : uuid) (after : Z) (d : tables) : Z :=
  foldr Z.max 0 (omap EventModel.run_sequence
    (List.filter (λ r, of_run run r && Z.leb (EventModel.global_position r) after) (log d))).

(** The loop over [durable_rows]. *)
Fixpoint check_sequence (expected : Z) (rows : list EventModel.t) : res event_error unit :=
  match rows with
  | [] => Ok tt
  | r :: rows' =>
      if bool_decide (EventModel.run_sequence r = Some expected)
      then check_sequence (expected + 1) rows'
      else Err (RunSequenceGapError expected (EventModel.run_sequence r) (EventModel.global_position r))
  end.

Definition check_gap (run : uuid) (after : Z) (rows : list EventModel.t) (prior durable : tables)
    : res event_error unit :=
  match last rows with
  | None => Ok tt
  | Some r =>
      check_sequence (prior_sequence run after prior + 1)
        (select_rows (λ x, of_run run x && between after (EventModel.global_position r) x) durable)
  end.

(** The tables as the five statements of [page] see them: without [REPEATABLE READ] each
sees what is committed when it starts. *)
Record reads := {
  r_counter : tables;
  r_earliest : tables;
  r_rows : tables;
  r_prior : tables;
  r_durable : tables;
}.

Definition check_cursor (after last : Z) (earliest : option Z) : res event_error unit :=
  if Z.ltb last after then Err (EventCursorExpiredError after (default 0 earliest) last)
  else match earliest with
       | Some e => if Z.ltb 0 after && Z.ltb after (e - 1)
                   then Err (EventCursorExpiredError after e last) else Ok tt
       | None => Ok tt
       end.

Definition page_at (run : uuid) (after limit : Z) (s : reads) : res event_error event_page :=
  if negb (z_between 0 9223372036854775807 after) then Err CursorValueError
  else if Z.ltb limit 1 || Z.ltb 1000 limit then Err LimitValueError
  else
    match counter (r_counter s) with
    | None => Err PersistenceInvariantError
    | Some high =>
        _ ← check_cursor after high (earliest_position (r_earliest s));
        let rows := take (S (Z.to_nat limit))
                      (select_rows (λ r, of_run run r && between after high r && visible r)
                         (r_rows s)) in
        let has_more := Nat.ltb (Z.to_nat limit) (length rows) in
        let visible_rows := take (Z.to_nat limit) rows in
        _ ← check_gap run after visible_rows (r_prior s) (r_durable s);
        items ← mapM _to_contract visible_rows;
        Ok {| items := items; p_after := after; high_watermark := high;
              next_after := if has_more then NormalizedEvent.global_position <$> last items
                            else None |}
    end.

Definition page (run : uuid) (after limit : Z) (d : tables) : res event_error event_page :=
  page_at run after limit (Build_reads d d d d d).

(** ** [run_projection_snapshot] *)

Record RunProjectionSnapshot := {
  snapshot_status : string;
  snapshot_position : Z;
  snapshot_sequence : Z;
  snapshot_at : option Z;
  read_cursor : Z;
}.

Definition run_projection_snapshot (run : uuid) (d : tables) : option RunProjectionSnapshot :=
  r ← runs d !! run;
  high ← counter d;
  Some (Build_RunProjectionSnapshot (RunProjection.status r) (RunProjection.last_event_position r)
          (RunProjection.last_run_sequence r) (RunProjection.last_event_at r) high).
End log.

(** ** Ordered lists *)

Notation position := EventModel.global_position (only parsing).

Definition ordered (l : list EventModel.t) : Prop :=
  StronglySorted (λ x y, position x < position y) l.

Lemma ordered_seq l a n : position <$> l = seqZ a n → ordered l.
Proof.
  revert a n. induction l as [|x l IH]; intros a n Hl; [constructor|].
  destruct (decide (0 < n)) as [Hn|Hn]; [|by rewrite seqZ_nil in Hl by lia].
  rewrite seqZ_cons in Hl by done. injection Hl as Hx Hl. constructor; [by eapply IH|].
  apply Forall_forall. intros y Hy.
  assert (position y ∈ seqZ (Z.succ a) (Z.pred n)) as Hin
    by (rewrite <-Hl; by apply list_elem_of_fmap_2).
  apply elem_of_seqZ in Hin. lia.
Qed.

Lemma elem_filter (P : EventModel.t → bool) l x : x ∈ List.filter P l ↔ x ∈ l ∧ P x = true.
Proof. by rewrite !list_elem_of_In, filter_In. Qed.

Lemma ordered_filter P l : ordered l → ordered (List.filter P l).
Proof.
  induction 1 as [|x l _ IH Hx]; simpl; [constructor|]. destruct (P x); [|done].
  constructor; [done|]. rewrite Forall_forall in *. intros y [Hy _]%elem_filter. by apply Hx.
Qed.

Lemma ordered_sorted l : ordered l → sorted_key EventModel.global_position l = l.
Proof.
  intros Hl. apply sorted_key_id. induction Hl as [|x l _ IH Hx]; constructor; [done|].
  rewrite Forall_forall in *. intros y Hy. specialize (Hx y Hy). unfold key_le, py_leb.
  change (py_cmp ?a ?b) with (Z.compare a b). by rewrite (proj2 (Z.compare_lt_iff _ _) Hx).
Qed.

Lemma filter_filter (P Q : EventModel.t → bool) l :
  List.filter P (List.filter Q l) = List.filter (λ x, Q x && P x) l.
Proof.
  induction l as [|x l IH]; simpl; [done|]. destruct (Q x) eqn:HQ; simpl; [|done].
  destruct (P x); by rewrite IH.
Qed.

(** A threshold cuts an ordered list. *)
Lemma ordered_cut a l :
  ordered l →
  l = List.filter (λ r, Z.leb (position r) a) l ++ List.filter (λ r, Z.ltb a (position r)) l.
Proof.
  induction 1 as [|x l Hl IH Hx]; simpl; [done|].
  destruct (Z.leb_spec (position x) a) as [Ha|Ha], (Z.ltb_spec a (position x)); try lia.
  - simpl. by rewrite <-IH.
  - assert (List.filter (λ r, Z.leb (position r) a) l = []) as Hnil.
    { destruct (List.filter _ l) as [|y l'] eqn:Hf; [done|]. exfalso.
      assert (y ∈ List.filter (λ r, Z.leb (position r) a) l) as Hy by (rewrite Hf; by left).
      apply elem_filter in Hy as [Hy Hle]. rewrite Forall_forall in Hx. specialize (Hx y Hy).
      apply Z.leb_le in Hle. lia. }
    rewrite Hnil in IH |- *. simpl in *. by rewrite <-IH.
Qed.

(** ** Sequences *)

Lemma seq_cut {A} (f : A → option Z) l k n m :
  f <$> l ++ k = Some <$> seqZ n m → 0 ≤ m →
  f <$> l = Some <$> seqZ n (Z.of_nat (length l))
  ∧ f <$> k = Some <$> seqZ (n + Z.of_nat (length l)) (Z.of_nat (length k)).
Proof.
  intros Hs Hm.
  assert (m = Z.of_nat (length l) + Z.of_nat (length k)) as ->.
  { apply (f_equal length) in Hs. rewrite !length_fmap, length_app, length_seqZ in Hs. lia. }
  rewrite fmap_app, seqZ_app, fmap_app in Hs by lia. apply app_inj_1 in Hs; [done|].
  by rewrite !length_fmap, length_seqZ, Nat2Z.id.
Qed.

Lemma max_sequence (l : list EventModel.t) :
  EventModel.run_sequence <$> l = Some <$> seqZ 1 (Z.of_nat (length l)) →
  foldr Z.max 0 (omap EventModel.run_sequence l) = Z.of_nat (length l).
Proof.
  induction l as [|x l IH] using rev_ind; intros Hs; [done|].
  apply seq_cut in Hs as [Hl Hx]; [|lia]. cbn in Hx. injection Hx as Hx.
  rewrite omap_app, foldr_app. cbn. rewrite Hx. cbn.
  assert (∀ a b ls, foldr Z.max (Z.max a b) ls = Z.max a (foldr Z.max b ls)) as Hmax.
  { intros a b ls. induction ls as [|y ls IHl]; simpl; [done|]. rewrite IHl. lia. }
  rewrite Hmax, IH by done. rewrite length_app. simpl. lia.
Qed.

Lemma check_sequence_ok rows n :
  EventModel.run_sequence <$> rows = Some <$> seqZ n (Z.of_nat (length rows)) →
  check_sequence n rows = Ok tt.
Proof.
  revert n. induction rows as [|r rows IH]; intros n Hs; [done|].
  rewrite seqZ_cons in Hs by (simpl; lia). injection Hs as Hr Hs. simpl.
  rewrite bool_decide_eq_true_2 by done. apply IH. etrans; [exact Hs|].
  f_equal. f_equal; simpl; lia.
Qed.

(** ** The invariant *)

Definition rows_of (run : uuid) (d : tables) : list EventModel.t :=
  List.filter (of_run run) (log d).
Definition sequence_of (run : uuid) (d : tables) : Z := default 0 (run_counters d !! run).

(** The position of a run's last event, 0 when it has none. *)
Definition last_position (run : uuid) (d : tables) : Z :=
  default 0 (EventModel.global_position <$> last (rows_of run d)).

Section invariant.
Context `{PyRuntime} `{ModelDump NormalizedEvent.t}.

Record log_ok (d : tables) : Prop := {
  lo_counter : counter d = Some (Z.of_nat (length (log d)));
  lo_positions : EventModel.global_position <$> log d = seqZ 1 (Z.of_nat (length (log d)));
  lo_sequences : ∀ i, EventModel.run_sequence <$> rows_of i d = Some <$> seqZ 1 (sequence_of i d);
  lo_counters : ∀ i, 0 ≤ sequence_of i d;
  lo_contracts : ∀ r, r ∈ log d → ∃ n, _to_contract r = Ok n;
  lo_events : NoDup (EventModel.event_id <$> log d);
  lo_idempotency : NoDup (omap EventModel.idempotency_scope_key (log d));
  lo_sources : NoDup (omap EventModel.source_dedupe_key (log d));
  lo_runs : ∀ i p, runs d !! i = Some p →
    RunProjection.last_run_sequence p = sequence_of i d
    ∧ RunProjection.last_event_position p = last_position i d;
}.

(** A control plane without events. *)
Definition initial (d : tables) : Prop :=
  counter d = Some 0 ∧ run_counters d = ∅ ∧ log d = []
  ∧ ∀ i p, runs d !! i = Some p →
      RunProjection.last_run_sequence p = 0 ∧ RunProjection.last_event_position p = 0.

Lemma initial_ok d : initial d → log_ok d.
Proof.
  intros (Hc & Hr & Hl & Hp).
  assert (∀ i, sequence_of i d = 0) as Hs by (intros i; unfold sequence_of; by rewrite Hr).
  split; unfold rows_of, last_position; rewrite ?Hc, ?Hl; simpl; try done; try apply NoDup_nil_2.
  - intros i. by rewrite Hs.
  - intros i. by rewrite Hs.
  - by intros r ?%elem_of_nil.
  - intros i p Hi. destruct (Hp i p Hi) as [-> ->]. unfold rows_of. by rewrite Hs, Hl.
Qed.

Inductive log_step : tables → tables → Prop :=
  | log_append fresh recorded e d n d' :
      append fresh recorded e d = Ok (n, d') → log_step d d'
  (** Other transactions: new runs have no events; the projection belongs to [append]. *)
  | log_other d d' :
      counter d' = counter d → run_counters d' = run_counters d → log d' = log d →
      (∀ i p, runs d' !! i = Some p →
         match runs d !! i with
         | Some q => RunProjection.last_run_sequence p = RunProjection.last_run_sequence q
                     ∧ RunProjection.last_event_position p = RunProjection.last_event_position q
         | None => rows_of i d = [] ∧ run_counters d !! i = None
                   ∧ RunProjection.last_run_sequence p = 0 ∧ RunProjection.last_event_position p = 0
         end) →
      log_step d d'.

Lemma seqZ_snoc a n : 0 ≤ n → seqZ a n ++ [a + n] = seqZ a (n + 1).
Proof. intros Hn. by rewrite seqZ_app by lia. Qed.

(** What [append] does: it replays a stored event, or adds a row. *)
Lemma append_ok fresh recorded e d n d' :
  append fresh recorded e d = Ok (n, d') →
  (∃ r, r ∈ log d ∧ _to_contract r = Ok n ∧ d' = d
        ∧ _find_duplicate (_idempotency_scope_key e) (_source_dedupe_key e) (log d) = Some r)
  ∨ ∃ high, counter d = Some high
    ∧ let r := event_row fresh recorded (high + 1) (next_sequence e d) e in
      _find_duplicate (_idempotency_scope_key e) (_source_dedupe_key e) (log d) = None
      ∧ row_conflict r (log d) = false ∧ _to_contract r = Ok n ∧ d' = insert_event r d
      ∧ (∀ i, NewEvent.run_id e = Some i → is_Some (runs d !! i)).
Proof.
  unfold append. destruct (counter d) as [high|]; [|done]. intros ([] & Hv & Hs)%res_bind_ok.
  destruct (_find_duplicate _ _ _) as [r|] eqn:Hf.
  - apply res_bind_ok in Hs as (n' & Hn & [= <- <-]). left. exists r. split_and!; try done.
    by apply find_some in Hf as [Hin%list_elem_of_In _].
  - destruct (row_conflict _ _) eqn:Hc; [done|]. apply res_bind_ok in Hs as (n' & Hn & [= <- <-]).
    right. exists high. split_and!; try done. intros i Hi. unfold NewEvent.run_id in Hi.
    unfold validate_scope in Hv. rewrite Hi in Hv. simpl in Hv.
    destruct (runs d !! i) as [q|]; [by exists q|]. by apply res_bind_ok in Hv as (? & ? & _).
Qed.

Lemma log_insert r d :
  log (insert_event r d) = log d ++ [r]
  ∧ counter (insert_event r d) = Some (EventModel.global_position r).
Proof. unfold insert_event. by destruct (EventModel.run_id r), (EventModel.run_sequence r). Qed.

Lemma omap_snoc_NoDup {A} (f : A → option string) l x :
  NoDup (omap f l) → (∀ k, f x = Some k → ∀ y, y ∈ l → f y ≠ Some k) → NoDup (omap f (l ++ [x])).
Proof.
  intros Hl Hx. rewrite omap_app. apply NoDup_app. split; [done|]. cbn.
  destruct (f x) as [k|] eqn:Hk; [|split; [by intros ? _ ?%elem_of_nil|apply NoDup_nil_2]].
  split; [|apply NoDup_singleton].
  intros k' (y & Hy & Hfy)%list_elem_of_omap ->%list_elem_of_singleton. by eapply Hx.
Qed.

Lemma no_duplicate a b l r :
  _find_duplicate a b l = None → r ∈ l →
  (∀ k, a = Some k → EventModel.idempotency_scope_key r ≠ Some k)
  ∧ (∀ k, b = Some k → EventModel.source_dedupe_key r ≠ Some k).
Proof.
  intros Hf Hr%list_elem_of_In. apply (find_none _ _ Hf) in Hr. apply orb_false_iff in Hr as [H1 H2].
  split; intros k -> Hk; rewrite Hk in *; simpl in *; by rewrite String.eqb_refl in *.
Qed.

Lemma rows_insert i r d :
  rows_of i (insert_event r d) = rows_of i d ++ (if of_run i r then [r] else []).
Proof.
  unfold rows_of. rewrite (proj1 (log_insert r d)), List.filter_app. simpl.
  by destruct (of_run i r).
Qed.

(** A new row keeps the invariant. *)
Lemma insert_log_ok fresh recorded e n d :
  log_ok d →
  let r := event_row fresh recorded (Z.of_nat (length (log d)) + 1) (next_sequence e d) e in
  _find_duplicate (_idempotency_scope_key e) (_source_dedupe_key e) (log d) = None →
  row_conflict r (log d) = false → _to_contract r = Ok n → log_ok (insert_event r d).
Proof.
  intros [Hc Hp Hs Hk Hct He Hi Hso Hr] r Hdup Hconf Hn.
  destruct (log_insert r d) as [Hl Hcr].
  assert (length (log (insert_event r d)) = S (length (log d))) as Hlen
    by (rewrite Hl, length_app; simpl; lia).
  assert (∀ i, sequence_of i (insert_event r d)
               = sequence_of i d + if of_run i r then 1 else 0) as Hseq.
  { intros i. unfold sequence_of, insert_event, of_run, EventModel.run_id. simpl.
    unfold next_sequence. destruct (NewEvent.run_id e) as [j|]; simpl.
    - case_bool_decide as Hj; [injection Hj as ->; by rewrite lookup_insert_eq|].
      rewrite lookup_insert_ne by congruence. lia.
    - lia. }
  assert (∀ i, of_run i r = true → EventModel.run_sequence r = Some (sequence_of i d + 1)) as Hrs.
  { intros i Hri%bool_decide_eq_true. unfold EventModel.run_id in Hri. simpl in *.
    unfold next_sequence, sequence_of. by rewrite Hri. }
  split; rewrite ?Hlen, ?Nat2Z.inj_succ.
  - rewrite Hcr. done.
  - rewrite Hl, fmap_app, Hp. cbn. rewrite <-Z.add_1_r, <-seqZ_snoc by lia. do 2 f_equal. lia.
  - intros i. rewrite rows_insert, fmap_app, Hs, Hseq. destruct (of_run i r) eqn:Hi'.
    + rewrite <-seqZ_snoc, fmap_app by apply Hk. f_equal. cbn [fmap list_fmap].
      rewrite (Hrs i Hi'). do 2 f_equal. lia.
    + simpl. by rewrite app_nil_r, Z.add_0_r.
  - intros i. rewrite Hseq. specialize (Hk i). destruct (of_run i r); lia.
  - intros x. rewrite Hl, elem_of_app, list_elem_of_singleton. intros [Hx| ->]; [by apply Hct|by exists n].
  - rewrite Hl. apply NoDup_fmap_snoc; [done|]. intros x Hx Hid. unfold row_conflict in Hconf.
    pose proof (proj1 (existsb_false _ _) Hconf x Hx) as Hf.
    simpl in Hf. apply orb_false_iff in Hf as [[Hf _]%orb_false_iff _].
    by apply bool_decide_eq_false in Hf.
  - rewrite Hl. apply omap_snoc_NoDup; [done|]. intros k Hk' y Hy.
    destruct (no_duplicate _ _ _ _ Hdup Hy) as [H1 _]. by apply H1.
  - rewrite Hl. apply omap_snoc_NoDup; [done|]. intros k Hk' y Hy.
    destruct (no_duplicate _ _ _ _ Hdup Hy) as [_ H1]. by apply H1.
  - intros i p Hip. unfold last_position. rewrite Hseq, rows_insert.
    destruct (of_run i r) eqn:Hi'.
    + rewrite last_snoc. simpl. apply bool_decide_eq_true in Hi' as Hri.
      specialize (Hrs i Hi'). unfold insert_event in Hip. rewrite Hri, Hrs in Hip. simpl in Hip.
      rewrite lookup_alter_eq in Hip. apply fmap_Some in Hip as (q & _ & ->). done.
    + rewrite app_nil_r, Z.add_0_r. apply bool_decide_eq_false in Hi'.
      apply Hr. unfold insert_event in Hip. destruct (EventModel.run_id r) as [j|]; [|done].
      destruct (EventModel.run_sequence r); [|done]. simpl in Hip.
      by rewrite lookup_alter_ne in Hip by congruence.
Qed.

Lemma log_step_ok d d' : log_ok d → log_step d d' → log_ok d'.
Proof.
  intros Hok Hs. destruct Hs as [fresh recorded e d n d' Ha|d d' Hc Hrc Hl Hr].
  - apply append_ok in Ha as [(r & _ & _ & -> & _)|(high & Hh & Hd & Hcf & Hn & -> & _)]; [done|].
    rewrite (lo_counter _ Hok) in Hh. injection Hh as <-. by eapply insert_log_ok.
  - destruct Hok as [Hc0 Hp Hs Hk Hct He Hi Hso Hr0].
    assert (∀ i, sequence_of i d' = sequence_of i d) as Hseq
      by (intros i; unfold sequence_of; by rewrite Hrc).
    assert (∀ i, rows_of i d' = rows_of i d) as Hrows by (intros i; unfold rows_of; by rewrite Hl).
    split; unfold last_position; rewrite ?Hl, ?Hc; try done.
    + intros i. by rewrite Hrows, Hseq.
    + intros i. by rewrite Hseq.
    + intros i p Hip. specialize (Hr i p Hip). rewrite Hseq, Hrows.
      destruct (runs d !! i) as [q|] eqn:Hq.
      * destruct Hr as [-> ->]. by apply Hr0.
      * destruct Hr as (Hnil & Hn & -> & ->). unfold sequence_of. by rewrite Hn, Hnil.
Qed.

Lemma log_steps_ok d d' : log_ok d → rtc log_step d d' → log_ok d'.
Proof. intros Hd Hs. induction Hs; eauto using log_step_ok. Qed.

(** C37. In every state reachable from empty tables by appends and other
transactions, global positions are 1, 2, 3, … without a gap, each run's events are
numbered 1, 2, 3, … without a gap, event identifiers and both deduplication keys are
unique, every row can be read back as a contract, and each run's projection repeats
its last event. *)
Theorem reachable_log_ok d0 d : initial d0 → rtc log_step d0 d → log_ok d.
Proof. intros Hi%initial_ok Hs. by eapply log_steps_ok. Qed.
End invariant.

(** ** Pages *)

Section pages.
Context `{PyRuntime} `{ModelDump NormalizedEvent.t}.

(** Later snapshots hold more events. *)
Definition grows (d d' : tables) : Prop := log d `prefix_of` log d'.

Record growing (s : reads) : Prop := {
  gw_counter : log_ok (r_counter s);
  gw_earliest : log_ok (r_earliest s);
  gw_rows : log_ok (r_rows s);
  gw_prior : log_ok (r_prior s);
  gw_durable : log_ok (r_durable s);
  gw_1 : grows (r_counter s) (r_earliest s);
  gw_2 : grows (r_earliest s) (r_rows s);
  gw_3 : grows (r_rows s) (r_prior s);
  gw_4 : grows (r_prior s) (r_durable s);
}.

Definition high (d : tables) : Z := Z.of_nat (length (log d)).

Lemma log_ordered d : log_ok d → ordered (log d).
Proof. intros Hok. eapply ordered_seq, (lo_positions _ Hok). Qed.

Lemma position_bounds d r : log_ok d → r ∈ log d → 1 ≤ EventModel.global_position r ≤ high d.
Proof.
  intros Hok Hr.
  assert (EventModel.global_position r ∈ seqZ 1 (high d)) as Hin
    by (unfold high; rewrite <-(lo_positions _ Hok); by apply list_elem_of_fmap_2).
  apply elem_of_seqZ in Hin. lia.
Qed.

(** A query bounded by the high-water mark sees the same rows later. *)
Lemma stable_filter P d d' :
  log_ok d → log_ok d' → grows d d' →
  (∀ r, P r = true → EventModel.global_position r ≤ high d) →
  List.filter P (log d') = List.filter P (log d).
Proof.
  intros Hok Hok' [l Hl] HP. rewrite Hl, List.filter_app.
  assert (List.filter P l = []) as ->; [|by rewrite app_nil_r].
  destruct (List.filter P l) as [|r l'] eqn:Hf; [done|]. exfalso.
  assert (r ∈ List.filter P l) as [Hr HPr]%elem_filter by (rewrite Hf; by left).
  pose proof (log_ordered _ Hok') as Hord. rewrite Hl in Hord.
  assert (EventModel.global_position <$> l = seqZ (1 + high d) (Z.of_nat (length l))) as Hseq.
  { pose proof (lo_positions _ Hok') as Hp. pose proof (lo_positions _ Hok) as Hp0.
    rewrite Hl, fmap_app, length_app, Hp0, Nat2Z.inj_add in Hp.
    rewrite seqZ_app in Hp by lia. by apply app_inj_1 in Hp as [_ Hp]. }
  assert (EventModel.global_position r ∈ seqZ (1 + high d) (Z.of_nat (length l))) as Hin
    by (rewrite <-Hseq; by apply list_elem_of_fmap_2).
  apply elem_of_seqZ in Hin. specialize (HP r HPr). lia.
Qed.

Lemma select_stable P d d' :
  log_ok d → log_ok d' → grows d d' →
  (∀ r, P r = true → EventModel.global_position r ≤ high d) →
  select_rows P d' = List.filter P (log d).
Proof.
  intros Hok Hok' Hg HP. unfold select_rows. rewrite (stable_filter P d d') by done.
  by apply ordered_sorted, ordered_filter, log_ordered.
Qed.

Lemma earliest_ok d : log_ok d → earliest_position d = if Z.eqb (high d) 0 then None else Some 1.
Proof.
  intros Hok. unfold earliest_position. rewrite ordered_sorted by by apply log_ordered.
  pose proof (lo_positions _ Hok) as Hp. unfold high.
  destruct (log d) as [|r l]; [done|]. rewrite seqZ_cons in Hp by (simpl; lia).
  injection Hp as Hr _. simpl. by rewrite Hr.
Qed.

Lemma check_cursor_ok d after :
  log_ok d → 0 ≤ after → after ≤ high d → ∀ d', log_ok d' →
  check_cursor after (high d) (earliest_position d') = Ok tt.
Proof.
  intros _ H0' Ha d' Hok'. rewrite earliest_ok by done. unfold check_cursor.
  rewrite (proj2 (Z.ltb_ge _ _) Ha). destruct (Z.eqb (high d') 0); [done|].
  rewrite (proj2 (Z.ltb_ge after _)) by lia. by rewrite andb_false_r.
Qed.

(** The rows of a page lie in an uninterrupted part of the run's sequence. *)
Lemma check_gap_ok run after rows s d :
  log_ok d → log_ok (r_prior s) → log_ok (r_durable s) →
  grows d (r_prior s) → grows d (r_durable s) → after ≤ high d →
  (∀ r, r ∈ rows → r ∈ log d ∧ after < EventModel.global_position r) →
  check_gap run after rows (r_prior s) (r_durable s) = Ok tt.
Proof.
  intros Hok Hp Hd Hgp Hgd Ha Hrows. unfold check_gap. destruct (last rows) as [r|] eqn:Hl; [|done].
  apply last_Some_elem_of in Hl. destruct (Hrows r Hl) as [Hr Har].
  pose proof (position_bounds _ _ Hok Hr) as Hb.
  set (A := List.filter (λ x, Z.leb (EventModel.global_position x) after) (rows_of run d)).
  set (B := List.filter (λ x, Z.ltb after (EventModel.global_position x)) (rows_of run d)).
  set (B1 := List.filter (λ x, Z.leb (EventModel.global_position x) (EventModel.global_position r)) B).
  assert (ordered (rows_of run d)) as HoR by (apply ordered_filter, log_ordered, Hok).
  pose proof (ordered_cut after _ HoR) as Hcut. fold A B in Hcut.
  pose proof (ordered_cut (EventModel.global_position r) B (ordered_filter _ _ HoR)) as Hcut1.
  fold B1 in Hcut1.
  pose proof (lo_sequences _ Hok run) as Hseq. rewrite Hcut in Hseq.
  apply seq_cut in Hseq as [HA HB]; [|apply (lo_counters _ Hok)].
  rewrite Hcut1 in HB. apply seq_cut in HB as [HB1 _]; [|lia].
  assert (prior_sequence run after (r_prior s) = Z.of_nat (length A)) as ->.
  { unfold prior_sequence. rewrite (stable_filter _ d) by
      (done || (intros x [_ Hx%Z.leb_le]%andb_true_iff; lia)).
    rewrite <-(filter_filter _ (of_run run)). fold (rows_of run d). fold A. by apply max_sequence. }
  rewrite (select_stable _ d) by
    (done || (intros x [_ [_ Hx%Z.leb_le]%andb_true_iff]%andb_true_iff; lia)).
  assert (List.filter (λ x, of_run run x && between after (EventModel.global_position r) x) (log d)
          = B1) as ->.
  { unfold B1, B, rows_of. rewrite !filter_filter. apply filter_ext. intros x. unfold between.
    by rewrite andb_assoc. }
  rewrite Z.add_comm. by apply check_sequence_ok.
Qed.

Lemma contracts_total d rows :
  log_ok d → (∀ r, r ∈ rows → r ∈ log d) →
  ∃ ns, mapM _to_contract rows = Ok ns ∧ Forall2 (λ r n, _to_contract r = Ok n) rows ns.
Proof.
  intros Hok. induction rows as [|r rows IH]; intros Hin; [by exists []|].
  destruct (lo_contracts _ Hok r) as [n Hn]; [apply Hin; by left|].
  destruct IH as (ns & Hns & Hf); [intros x Hx; apply Hin; by right|].
  exists (n :: ns). split; [|by constructor]. cbn. rewrite Hn. cbn. by rewrite Hns.
Qed.

(** The visible events of a run after a cursor. *)
Definition visible_after (run : uuid) (after : Z) (d : tables) : list EventModel.t :=
  List.filter (λ r, of_run run r && between after (high d) r && visible r) (log d).

(** What a page of [limit] events holds. *)
Record page_of (run : uuid) (after limit : Z) (d : tables) (p : event_page) : Prop := {
  pg_items : Forall2 (λ r n, _to_contract r = Ok n)
               (take (Z.to_nat limit) (visible_after run after d)) (items p);
  pg_high : high_watermark p = high d;
  pg_next : next_after p
    = if Nat.ltb (Z.to_nat limit) (length (visible_after run after d))
      then NormalizedEvent.global_position <$> last (items p) else None;
}.

(** A page read by five statements that may each see a later state of the log
is exactly the page of the state the first statement saw: the first visible events
of the run after the cursor, with a continuation just when there are more; it never
reports a sequence gap, and an expired cursor only when the cursor lies beyond the
log. *)
Theorem page_at_total run after limit s :
  growing s → 0 ≤ after ≤ 9223372036854775807 → 1 ≤ limit ≤ 1000 →
  if Z.ltb (high (r_counter s)) after
  then ∃ earliest, page_at run after limit s
                   = Err (EventCursorExpiredError after earliest (high (r_counter s)))
  else ∃ p, page_at run after limit s = Ok p ∧ page_of run after limit (r_counter s) p.
Proof.
  intros [Hc He Hr Hp Hd G1 G2 G3 G4] Ha Hl. unfold page_at.
  assert (z_between 0 9223372036854775807 after = true) as ->
    by (unfold z_between; rewrite andb_true_iff, !Z.leb_le; lia).
  assert (Z.ltb limit 1 || Z.ltb 1000 limit = false) as ->
    by (rewrite orb_false_iff, !Z.ltb_ge; lia).
  cbn [negb]. rewrite (lo_counter _ Hc). fold (high (r_counter s)).
  destruct (Z.ltb_spec (high (r_counter s)) after) as [Hex|Hin].
  { exists (default 0 (earliest_position (r_earliest s))). unfold check_cursor.
    by rewrite (proj2 (Z.ltb_lt _ _) Hex). }
  rewrite (check_cursor_ok (r_counter s)) by (done || lia). cbn [res_bind].
  assert (grows (r_counter s) (r_rows s)) as G12 by (unfold grows in *; by etrans).
  assert (grows (r_counter s) (r_prior s)) as G13 by (unfold grows in *; by etrans).
  assert (grows (r_counter s) (r_durable s)) as G14 by (unfold grows in *; by etrans).
  rewrite (select_stable _ (r_counter s)) by
    (done || (intros x [[_ [_ Hx%Z.leb_le]%andb_true_iff]%andb_true_iff _]%andb_true_iff; lia)).
  fold (visible_after run after (r_counter s)). set (V := visible_after run after (r_counter s)).
  assert (take (Z.to_nat limit) (take (S (Z.to_nat limit)) V) = take (Z.to_nat limit) V) as ->
    by (rewrite take_take; f_equal; lia).
  assert (∀ r, r ∈ take (Z.to_nat limit) V →
    r ∈ log (r_counter s) ∧ after < EventModel.global_position r) as HV.
  { intros r Hr'. apply elem_of_take in Hr' as (i & Hi & _).
    apply list_elem_of_lookup_2, elem_filter in Hi as [Hi HP].
    split; [done|]. apply andb_true_iff in HP as [[_ [HP%Z.ltb_lt _]%andb_true_iff]%andb_true_iff _].
    done. }
  rewrite (check_gap_ok run after _ s (r_counter s)) by (done || lia).
  destruct (contracts_total (r_counter s) (take (Z.to_nat limit) V) Hc) as (ns & Hns & Hf);
    [intros r Hr'; by apply HV|].
  assert (Nat.ltb (Z.to_nat limit) (length (take (S (Z.to_nat limit)) V))
          = Nat.ltb (Z.to_nat limit) (length V)) as ->
    by (apply eq_iff_eq_true; rewrite !Nat.ltb_lt, length_take; lia).
  eexists. split; [cbn; rewrite Hns; reflexivity|]. by split.
Qed.
End pages.

(** ** Appending again *)

Section again.
Context `{PyRuntime} `{ModelDump NormalizedEvent.t}.

Lemma log_step_grows d d' : log_step d d' → grows d d'.
Proof.
  intros [fresh recorded e d1 n d2 Ha|d1 d2 _ _ Hl _].
  - apply append_ok in Ha as [(r & _ & _ & -> & _)|(h & _ & _ & _ & _ & -> & _)].
    + by unfold grows.
    + eexists. apply log_insert.
  - exists []. by rewrite Hl, app_nil_r.
Qed.

Lemma log_steps_grow d d' : rtc log_step d d' → grows d d'.
Proof.
  unfold grows. induction 1 as [|d1 d2 d3 H12%log_step_grows _ IH]; [done|]. by etrans.
Qed.

(** The event is identified by one of its keys. *)
Definition keyed_event (e : NewEvent.t) : Prop :=
  is_Some (_idempotency_scope_key e) ∨ is_Some (_source_dedupe_key e).

Lemma same_key_refl s : same_key (Some s) (Some s) = true.
Proof. apply String.eqb_refl. Qed.

(** Appending is idempotent: once an event with a deduplication key was
appended, appending it again at any later time returns the stored event and changes
no table. *)
Theorem append_once d fresh recorded e n d1 d2 fresh' recorded' n' d3 :
  keyed_event e → append fresh recorded e d = Ok (n, d1) → rtc log_step d1 d2 →
  append fresh' recorded' e d2 = Ok (n', d3) → n' = n ∧ d3 = d2.
Proof.
  intros Hk Ha [l Hl]%log_steps_grow Hb.
  assert (∃ r, _find_duplicate (_idempotency_scope_key e) (_source_dedupe_key e) (log d1) = Some r
               ∧ _to_contract r = Ok n) as (r & Hf & Hn).
  { apply append_ok in Ha as [(r & _ & Hn & -> & Hf)|(h & _ & Hf & _ & Hn & -> & _)]; [by exists r|].
    set (r := event_row fresh recorded (h + 1) (next_sequence e d) e) in *. exists r. split; [|done].
    rewrite (proj1 (log_insert r d)). unfold _find_duplicate in *.
    rewrite find_none_app by done. cbn [find]. change (EventModel.idempotency_scope_key r) with (_idempotency_scope_key e).
    change (EventModel.source_dedupe_key r) with (_source_dedupe_key e).
    destruct Hk as [[k Hk]|[k Hk]]; rewrite !Hk, same_key_refl, ?orb_true_r; done. }
  assert (_find_duplicate (_idempotency_scope_key e) (_source_dedupe_key e) (log d2) = Some r) as Hf2.
  { rewrite Hl. by apply find_some_app. }
  apply append_ok in Hb as [(r' & _ & Hn' & -> & Hf')|(h & _ & Hf' & _)]; [|congruence].
  split; [|done]. congruence.
Qed.
End again.

(** The parts of the key of a source are joined by a colon, which all but the first may
contain: two sources share a key, and the later event is taken for the earlier. *)
Definition source_with (name instance : string) (n : Z) : EventSource.t := {|
  EventSource.kind := "worker"; EventSource.name := name; EventSource.instance_id := Some instance;
  EventSource.host_id := None; EventSource.source_sequence := Some n;
|}.
Definition event_from (source : EventSource.t) (e : NewEvent.t) : NewEvent.t :=
  NewEvent.Build_t (NewEvent.schema_version e) (NewEvent.occurred_at e) (NewEvent.category e)
    (NewEvent.type e) (NewEvent.severity e) (NewEvent.message e) (NewEvent.mode e)
    (NewEvent.visibility e) (NewEvent.scope e) source (NewEvent.correlation_id e)
    (NewEvent.causation_event_id e) (NewEvent.idempotency_key e) (NewEvent.trace e)
    (NewEvent.data e) (NewEvent.artifact_refs e).

Lemma source_key_collision e n :
  _source_dedupe_key (event_from (source_with "a" "b:c" n) e)
  = _source_dedupe_key (event_from (source_with "a:b" "c" n) e).
Proof. unfold _source_dedupe_key. simpl. unfold PyJson.join. reflexivity. Qed.
