(* ===== verification/Sse.v ===== *)
(** * Event streams

[api/app/jarvis_api/events/sse.py] and the event routes of
[api/app/jarvis_api/events/router.py]: a stream reads page after page of a run's events,
frames them, and waits for a wakeup when a page was the last one.  A wakeup only shortens
the wait, so a poll of the loop is a page of the tables of its time ([poll]).

[stream_exactly_once]: what a client has received is what the log held after its cursor,
in order and without a gap; [stream_resumes]: so it is after a reconnection with the
identifier of the last frame; [stream_live]: enough polls deliver every event;
[limiter_bound]: a principal holds at most the configured number of streams.  The text
pydantic writes for an event is the parameter [ModelDumpJson]. *)
From S2P Require Import Prelude Enums PyJson PyDecimalText WorkflowSpec EventLog.
From stdpp Require Import gmap pretty.
From Stdlib Require Import Ascii.
Local Open Scope Z_scope.
Local Open Scope stdpp_scope.

(** ** Cursors *)

(** [str.isspace] on the UTF-8 encoding of each character. *)
Definition ascii_space : ascii → bool := is_oneof [9; 10; 11; 12; 13; 28; 29; 30; 31; 32]%nat.
Definition codes (l : list nat) (a b : ascii) : bool :=
  bool_decide (l = [nat_of_ascii a; nat_of_ascii b]).
Definition wide_space (a b c : ascii) : bool :=
  Nat.eqb (nat_of_ascii a) 226
    && ((Nat.eqb (nat_of_ascii b) 128
           && (in_range 128 138 c || is_oneof [168; 169; 175]%nat c))
        || (Nat.eqb (nat_of_ascii b) 129 && Nat.eqb (nat_of_ascii c) 159))
  || Nat.eqb (nat_of_ascii a) 225 && codes [154; 128]%nat b c
  || Nat.eqb (nat_of_ascii a) 227 && codes [128; 128]%nat b c.

(** [not s.strip()] *)
Fixpoint blank (s : string) : bool :=
  match s with
  | EmptyString => true
  | String a s1 =>
      (ascii_space a && blank s1)
      || match s1 with
         | EmptyString => false
         | String b s2 =>
             ((codes [194; 133]%nat a b || codes [194; 160]%nat a b) && blank s2)
             || match s2 with
                | EmptyString => false
                | String c s3 => wide_space a b c && blank s3
                end
         end
  end.

Inductive cursor_error := NegativeCursor | InvalidLastEventId | CursorOutOfRange.

(** [int(s)] of decimal digits. *)
Definition int_of_digits (s : string) : Z := Z.of_N (default 0%N (digits_from 0 s)).

Definition resolve_event_cursor (after : Z) (last_event_id : option string) : res cursor_error Z :=
  if Z.ltb after 0 then Err NegativeCursor
  else match last_event_id with
       | None => Ok after
       | Some s =>
           if blank s then Ok after
           else if negb (str_forallb is_digit s) then Err InvalidLastEventId
           else if Nat.ltb 19 (String.length s) || Z.ltb 9223372036854775807 (int_of_digits s)
           then Err CursorOutOfRange
           else Ok (int_of_digits s)
       end.

(** ** Frames *)

Module ResetReason.
Inductive t := cursor_expired | unsupported_schema | run_sequence_gap.
#[export] Instance t_dec : EqDecision t.
Proof. solve_decision. Defined.
End ResetReason.

Module EventStreamReset.
Record t := {
  reason : ResetReason.t;
  earliest_position : option Z;
  latest_position : option Z;
}.
End EventStreamReset.

Inductive frame :=
  | FEvent (e : NormalizedEvent.t)
  | FReset (r : EventStreamReset.t)
  | FKeepalive.

(** [model_dump_json(exclude_none=False)] *)
Class ModelDumpJson (A : Type) := model_dump_json : A → string.
#[export] Hint Mode ModelDumpJson ! : typeclass_instances.

Definition newline : string := chr 10.
Definition encode_frame `{ModelDumpJson NormalizedEvent.t} `{ModelDumpJson EventStreamReset.t}
    (f : frame) : string :=
  match f with
  | FEvent e => "id: " +:+ pretty (NormalizedEvent.global_position e) +:+ newline
                +:+ "event: jarvis.event" +:+ newline
                +:+ "data: " +:+ model_dump_json e +:+ newline +:+ newline
  | FReset r => "event: stream.reset" +:+ newline
                +:+ "data: " +:+ model_dump_json r +:+ newline +:+ newline
  | FKeepalive => ": keepalive" +:+ newline +:+ newline
  end.

Definition event_of (f : frame) : option NormalizedEvent.t :=
  match f with FEvent e => Some e | _ => None end.
Definition events_of (fs : list frame) : list NormalizedEvent.t := omap event_of fs.

(** ** [EventStream.iter_frames] *)

(** One iteration of the loop: the tables its page reads, whether the client was then
disconnected, and the clock after the wait. *)
Record poll := { p_reads : reads; p_disconnected : bool; p_now : Z }.

Inductive ending :=
  | Waiting (cursor : Z)
  | Closed
  | Failed (e : event_error).

Definition reset (e : event_error) : option EventStreamReset.t :=
  match e with
  | EventCursorExpiredError _ earliest latest =>
      Some {| EventStreamReset.reason := ResetReason.cursor_expired;
              EventStreamReset.earliest_position := Some earliest;
              EventStreamReset.latest_position := Some latest |}
  | UnsupportedEventSchemaError position _ =>
      Some {| EventStreamReset.reason := ResetReason.unsupported_schema;
              EventStreamReset.earliest_position := None;
              EventStreamReset.latest_position := Some position |}
  | RunSequenceGapError _ _ position =>
      Some {| EventStreamReset.reason := ResetReason.run_sequence_gap;
              EventStreamReset.earliest_position := None;
              EventStreamReset.latest_position := Some position |}
  | _ => None
  end.

Definition last_cursor (cursor : Z) (es : list NormalizedEvent.t) : Z :=
  match last es with Some e => NormalizedEvent.global_position e | None => cursor end.

Section stream.
Context `{PyRuntime} `{ModelDump NormalizedEvent.t}.
Variables (page_size keepalive : Z) (run_id : uuid).

(** What the stream has sent when the polls are over. *)
Fixpoint iter_frames (cursor last_keepalive : Z) (polls : list poll) : list frame * ending :=
  match polls with
  | [] => ([], Waiting cursor)
  | p :: polls' =>
      match page_at run_id cursor page_size (p_reads p) with
      | Err e => match reset e with
                 | Some r => ([FReset r], Closed)
                 | None => ([], Failed e)
                 end
      | Ok page =>
          let sent := FEvent <$> items page in
          let cursor' := last_cursor cursor (items page) in
          let '(fs, en) :=
            match next_after page with
            | Some n => iter_frames n last_keepalive polls'
            | None =>
                if p_disconnected p then ([], Closed)
                else if Z.leb keepalive (p_now p - last_keepalive)
                then let '(fs, en) := iter_frames cursor' (p_now p) polls' in (FKeepalive :: fs, en)
                else iter_frames cursor' last_keepalive polls'
            end in
          (sent ++ fs, en)
      end
  end.
End stream.

(** ** The routes *)

(** [frames] of [stream_events]: the principal is checked before each frame is passed on.
Each frame comes with the answers of [authorize_stream] and [authorize_run]. *)
Fixpoint authorized_frames (fs : list (frame * (bool * bool))) : list frame :=
  match fs with
  | [] => []
  | (f, (stream_ok, run_ok)) :: fs' =>
      if negb stream_ok then [] else if negb run_ok then [] else f :: authorized_frames fs'
  end.

Inductive http :=
  | HttpNotFound
  | HttpInvalidCursor
  | HttpCursorExpired (earliest latest : Z)
  | HttpUnsupportedSchema (position : Z)
  | HttpSequenceGap (position expected : Z) (actual : option Z)
  | HttpTooManyStreams
  | HttpServerError (e : event_error).

Definition page_problem (e : event_error) : http :=
  match e with
  | EventCursorExpiredError _ earliest latest => HttpCursorExpired earliest latest
  | UnsupportedEventSchemaError position _ => HttpUnsupportedSchema position
  | RunSequenceGapError expected actual position => HttpSequenceGap position expected actual
  | _ => HttpServerError e
  end.

(** FastAPI has checked the bounds of [after] and [limit]. *)
Definition list_events `{PyRuntime} `{ModelDump NormalizedEvent.t}
    (authorized : bool) (run : uuid) (after limit : Z) (s : reads) : res http event_page :=
  if negb authorized then Err HttpNotFound
  else match page_at run after limit s with Ok p => Ok p | Err e => Err (page_problem e) end.

Definition get_event_snapshot (authorized : bool) (run : uuid) (d : tables)
    : res http RunProjectionSnapshot :=
  if negb authorized then Err HttpNotFound
  else match run_projection_snapshot run d with Some s => Ok s | None => Err HttpNotFound end.

(** ** [SseConnectionLimiter] *)

Notation active_streams := (gmap string Z) (only parsing).

Section limiter.
Variable maximum : Z.

Definition claim (key : string) (m : active_streams) : bool * active_streams :=
  let active := default 0 (m !! key) in
  if Z.leb maximum active then (false, m) else (true, <[key := active + 1]> m).

(** [if remaining] is the truth of an integer. *)
Definition release (key : string) (m : active_streams) : active_streams :=
  let remaining := default 1 (m !! key) - 1 in
  if Z.eqb remaining 0 then delete key m else <[key := remaining]> m.

(** The limiter and the principals of the open streams: a stream releases what it
claimed. *)
Inductive limiter_step : active_streams * list string → active_streams * list string → Prop :=
  | limiter_open k m m' open :
      claim k m = (true, m') → limiter_step (m, open) (m', k :: open)
  | limiter_refuse k m m' open :
      claim k m = (false, m') → limiter_step (m, open) (m', open)
  | limiter_close k m a b :
      limiter_step (m, a ++ k :: b) (release k m, a ++ b).

(** The guards of [stream_events]: the cursor its stream starts from. *)
Definition stream_events (authorized : bool) (after : Z) (last_event_id : option string)
    (key : string) (m : active_streams) : res http Z * active_streams :=
  match resolve_event_cursor after last_event_id with
  | Err _ => (Err HttpInvalidCursor, m)
  | Ok cursor =>
      if negb authorized then (Err HttpNotFound, m)
      else match claim key m with
           | (false, m') => (Err HttpTooManyStreams, m')
           | (true, m') => (Ok cursor, m')
           end
  end.

Definition streams (k : string) (open : list string) : Z :=
  Z.of_nat (length (filter (k =.) open)).
End limiter.

(** ** Cursors, again *)

Lemma space_digit c : is_digit c = true → ascii_space c = false.
Proof. by destruct c as [[] [] [] [] [] [] [] []]. Qed.

Lemma wide_digit a b c : is_digit a = true → wide_space a b c = false ∧ codes [194; 133]%nat a b = false
  ∧ codes [194; 160]%nat a b = false.
Proof.
  unfold is_digit, in_range. intros [H1%Nat.leb_le H2%Nat.leb_le]%andb_true_iff.
  unfold wide_space. rewrite (proj2 (Nat.eqb_neq _ 226)), (proj2 (Nat.eqb_neq _ 225)),
    (proj2 (Nat.eqb_neq _ 227)) by lia.
  split_and!; [done|apply bool_decide_eq_false; intros [=]; lia..].
Qed.

Lemma blank_digits s : s ≠ "" → str_forallb is_digit s = true → blank s = false.
Proof.
  destruct s as [|a s]; [done|]. intros _ Hd. cbn [str_forallb] in Hd.
  apply andb_true_iff in Hd as [Ha _]. simpl. rewrite (space_digit _ Ha).
  destruct s as [|b s]; [done|]. destruct (wide_digit a b b Ha) as (_ & -> & ->). simpl.
  destruct s as [|c s]; [done|]. by destruct (wide_digit a b c Ha) as (-> & _ & _).
Qed.

Lemma pretty_go_length k n s :
  (n < 10 ^ N.of_nat k)%N → (String.length (pretty_N_go n s) ≤ k + String.length s)%nat.
Proof.
  revert n s. induction k as [|k IH]; intros n s Hn.
  { assert (n = 0)%N as -> by (simpl in Hn; lia). by rewrite pretty_N_go_0. }
  destruct (decide (n = 0)%N) as [->|H0]; [rewrite pretty_N_go_0; lia|].
  rewrite pretty_N_go_step by lia.
  etrans; [apply IH|simpl; lia]. apply N.Div0.div_lt_upper_bound.
  by rewrite Nat2N.inj_succ, N.pow_succ_r' in Hn.
Qed.

Lemma pretty_length (n : N) k :
  (n < 10 ^ N.of_nat k)%N → (0 < k)%nat → (String.length (pretty n) ≤ k)%nat.
Proof.
  intros Hn Hk. unfold pretty, pretty_N. case_decide; [simpl; lia|].
  etrans; [by apply (pretty_go_length k)|simpl; lia].
Qed.

Lemma pretty_Z_N z : 0 ≤ z → pretty z = pretty (Z.to_N z).
Proof. by destruct z. Qed.

Lemma resolve_position after z :
  0 ≤ after → 0 ≤ z ≤ 9223372036854775807 →
  resolve_event_cursor after (Some (pretty z)) = Ok z.
Proof.
  intros Ha Hz. unfold resolve_event_cursor. rewrite (proj2 (Z.ltb_ge _ _) Ha).
  rewrite pretty_Z_N by lia.
  rewrite blank_digits by (apply pretty_nonempty || apply pretty_digits).
  rewrite pretty_digits. unfold int_of_digits. rewrite digits_pretty. simpl.
  rewrite Z2N.id by lia. rewrite (proj2 (Z.ltb_ge _ _)) by lia.
  assert (String.length (pretty (Z.to_N z)) ≤ 19)%nat as Hl%Nat.leb_le.
  { apply pretty_length; [|lia]. apply N2Z.inj_lt. rewrite Z2N.id by lia. simpl. lia. }
  rewrite Nat.leb_antisym, negb_true_iff in Hl. by rewrite Hl.
Qed.

(** ** What a stream delivers *)

Section delivery.
Context `{PyRuntime} `{ModelDump NormalizedEvent.t}.
Variables (page_size keepalive : Z) (run_id : uuid).

(** The run's visible events after a cursor. *)
Definition pending_events (cursor : Z) (d : tables) : list EventModel.t :=
  List.filter (λ r, of_run run_id r && visible r && Z.ltb cursor (EventModel.global_position r))
    (log d).

Definition delivered_as (rows : list EventModel.t) (es : list NormalizedEvent.t) : Prop :=
  Forall2 (λ r e, _to_contract r = Ok e) rows es.

Lemma contract_position r e :
  _to_contract r = Ok e → NormalizedEvent.global_position e = EventModel.global_position r.
Proof. unfold _to_contract. case_match; [done|]. case_match; [|done]. by intros [= <-]. Qed.

Lemma visible_pending cursor d :
  log_ok d → visible_after run_id cursor d = pending_events cursor d.
Proof.
  intros Hok. unfold visible_after, pending_events. apply filter_ext_in.
  intros r Hr%list_elem_of_In. pose proof (position_bounds _ _ Hok Hr) as Hb. unfold EventLog.between.
  rewrite (proj2 (Z.leb_le _ _)) by lia. rewrite andb_true_r.
  by rewrite <-!andb_assoc, (andb_comm (visible r)).
Qed.

Lemma pending_grows cursor d d' : grows d d' → pending_events cursor d `prefix_of` pending_events cursor d'.
Proof. intros [l Hl]. unfold pending_events. rewrite Hl, List.filter_app. by eexists. Qed.

Lemma ordered_app_lt l k x y : ordered (l ++ k) → x ∈ l → y ∈ k → position x < position y.
Proof. intros Ho Hx Hy. by apply (StronglySorted_app_1_elem_of (λ x y, position x < position y) l k). Qed.

Lemma filter_nil (P : EventModel.t → bool) l : (∀ x, x ∈ l → P x = false) → List.filter P l = [].
Proof.
  induction l as [|x l IH]; intros Hl; [done|]. simpl. rewrite (Hl x), IH; set_solver.
Qed.
Lemma filter_all (P : EventModel.t → bool) l : (∀ x, x ∈ l → P x = true) → List.filter P l = l.
Proof.
  induction l as [|x l IH]; intros Hl; [done|]. simpl. rewrite (Hl x), IH; set_solver.
Qed.

(** A cursor on a pending event leaves what follows it. *)
Lemma pending_cut cursor d l r k :
  log_ok d → pending_events cursor d = (l ++ [r]) ++ k →
  pending_events (position r) d = k.
Proof.
  intros Hok Hp.
  assert (cursor < position r) as Hr.
  { assert (r ∈ pending_events cursor d) as [_ Hr]%elem_filter by (rewrite Hp; set_solver).
    by apply andb_true_iff in Hr as [_ ?%Z.ltb_lt]. }
  assert (ordered ((l ++ [r]) ++ k)) as Ho
    by (rewrite <-Hp; by apply ordered_filter, log_ordered).
  assert (pending_events (position r) d
          = List.filter (λ x, Z.ltb (position r) (position x)) (pending_events cursor d)) as ->.
  { unfold pending_events. rewrite filter_filter. apply filter_ext. intros x.
    destruct (of_run run_id x && visible x); [|done]. simpl.
    destruct (Z.ltb_spec (position r) (position x)), (Z.ltb_spec cursor (position x)); done || lia. }
  rewrite Hp, List.filter_app. rewrite (filter_nil _ (l ++ [r])), (filter_all _ k); [done|..].
  - intros x Hx. apply Z.ltb_lt. apply (ordered_app_lt _ _ r x Ho); set_solver.
  - intros x [Hx| ->%list_elem_of_singleton]%elem_of_app; apply Z.ltb_ge; [|lia].
    rewrite <-app_assoc in Ho. apply Z.lt_le_incl, (ordered_app_lt _ _ x r Ho); set_solver.
Qed.

(** The cursor after [rows] were delivered. *)
Lemma pending_after cursor d rows es k :
  log_ok d → delivered_as rows es → pending_events cursor d = rows ++ k →
  pending_events (last_cursor cursor es) d = k.
Proof.
  intros Hok Hd Hp. destruct rows as [|r rows _] using rev_ind.
  - apply Forall2_nil_inv_l in Hd as ->. done.
  - apply Forall2_app_inv_l in Hd as (es1 & es2 & _ & Hr & ->).
    inversion Hr as [|? e ? ? He Hn]; subst. apply Forall2_nil_inv_l in Hn as ->.
    unfold last_cursor. rewrite last_snoc, (contract_position _ _ He). by eapply pending_cut.
Qed.

Lemma delivered_bounds cursor d rows es k :
  log_ok d → cursor ≤ high d → delivered_as rows es → pending_events cursor d = rows ++ k →
  cursor ≤ last_cursor cursor es ≤ high d.
Proof.
  intros Hok Hc Hd Hp. unfold last_cursor. destruct (last es) as [e|] eqn:Hl; [|lia].
  apply last_Some_elem_of, list_elem_of_lookup in Hl as [i Hi].
  destruct (Forall2_lookup_r _ _ _ _ _ Hd Hi) as (r & Hr & He).
  rewrite (contract_position _ _ He).
  assert (r ∈ pending_events cursor d) as [Hr' Hlt]%elem_filter
    by (rewrite Hp; apply elem_of_app; left; by eapply list_elem_of_lookup_2).
  apply andb_true_iff in Hlt as [_ Hlt%Z.ltb_lt].
  pose proof (position_bounds _ _ Hok Hr'). lia.
Qed.

(** What one poll delivers. *)
Lemma poll_page s cursor :
  growing s → 0 ≤ cursor ≤ high (r_counter s) → high (r_counter s) ≤ 9223372036854775807 →
  1 ≤ page_size ≤ 1000 →
  ∃ p rows, page_at run_id cursor page_size s = Ok p ∧ delivered_as rows (items p)
    ∧ pending_events cursor (r_counter s)
      = rows ++ pending_events (last_cursor cursor (items p)) (r_counter s)
    ∧ match next_after p with
      | None => pending_events (last_cursor cursor (items p)) (r_counter s) = []
      | Some n => n = last_cursor cursor (items p) ∧ Z.of_nat (length rows) = page_size
      end.
Proof.
  intros Hg Hc Hb Hs. pose proof (gw_counter _ Hg) as Hok.
  pose proof (page_at_total run_id cursor page_size s Hg) as Ht.
  rewrite (proj2 (Z.ltb_ge (high (r_counter s)) cursor)) in Ht by lia.
  destruct Ht as (p & Hp & [Hi _ Hn]); [lia..|].
  rewrite visible_pending in Hi, Hn by done.
  set (V := pending_events cursor (r_counter s)) in *. set (rows := take (Z.to_nat page_size) V) in *.
  assert (V = rows ++ drop (Z.to_nat page_size) V) as HV by (symmetry; apply take_drop).
  pose proof (pending_after _ _ _ _ _ Hok Hi HV) as Hpa.
  exists p, rows. split_and!; [done|done|by rewrite Hpa|]. rewrite Hpa, Hn.
  destruct (Nat.ltb_spec (Z.to_nat page_size) (length V)) as [Hl|Hl]; [|by apply drop_ge].
  assert (length rows = Z.to_nat page_size) as Hlr by (unfold rows; rewrite length_take; lia).
  assert (length (items p) = length rows) as Hli by (symmetry; by eapply Forall2_length).
  unfold last_cursor. destruct (last (items p)) as [e|] eqn:He.
  - simpl. split; [done|]. lia.
  - apply last_None in He. rewrite He in Hli. simpl in Hli. lia.
Qed.

(** The polls see later and later tables; [D] holds all of them. *)
Fixpoint polls_ok (d : tables) (polls : list poll) (D : tables) : Prop :=
  match polls with
  | [] => grows d D
  | p :: polls' =>
      growing (p_reads p) ∧ grows d (r_counter (p_reads p))
      ∧ polls_ok (r_durable (p_reads p)) polls' D
  end.

Lemma polls_grow d polls D : polls_ok d polls D → grows d D.
Proof.
  revert d. induction polls as [|p polls IH]; intros d; [done|].
  intros ([_ _ _ _ _ G1 G2 G3 G4] & Hd & Hp%IH). unfold grows in *. do 5 (etrans; [eassumption|]). done.
Qed.

Lemma grows_high d d' : grows d d' → high d ≤ high d'.
Proof. intros H1%prefix_length. unfold high. lia. Qed.

(** What the polls still deliver from a cursor. *)
Definition delivers (cursor : Z) (D : tables) (r : list frame * ending) : Prop :=
  let cursor' := last_cursor cursor (events_of r.1) in
  (∃ rows, delivered_as rows (events_of r.1)
           ∧ pending_events cursor D = rows ++ pending_events cursor' D)
  ∧ (∀ reset, FReset reset ∉ r.1) ∧ (r.2 = Closed ∨ r.2 = Waiting cursor').

Lemma events_of_sent es fs : events_of ((FEvent <$> es) ++ fs) = es ++ events_of fs.
Proof.
  unfold events_of. rewrite omap_app. f_equal. induction es as [|e es IH]; [done|].
  cbn. by f_equal.
Qed.

Lemma last_cursor_app cursor a b : last_cursor cursor (a ++ b) = last_cursor (last_cursor cursor a) b.
Proof.
  unfold last_cursor. destruct b as [|e b _] using rev_ind; [by rewrite app_nil_r|].
  by rewrite app_assoc, !last_snoc.
Qed.

Lemma delivers_more cursor D rows es fs en :
  delivered_as rows es → pending_events cursor D = rows ++ pending_events (last_cursor cursor es) D →
  delivers (last_cursor cursor es) D (fs, en) → delivers cursor D ((FEvent <$> es) ++ fs, en).
Proof.
  intros Hd Hp ((rows' & Hd' & Hp') & Hr & He). unfold delivers in *. cbn [fst snd] in *.
  rewrite events_of_sent, last_cursor_app. split_and!; [|  |done].
  - exists (rows ++ rows'). split; [by apply Forall2_app|]. by rewrite Hp, Hp', app_assoc.
  - intros r [Hin|Hin]%elem_of_app; [|by apply (Hr r)].
    apply list_elem_of_fmap in Hin as (? & ? & _). done.
Qed.

Lemma delivers_nil cursor D en : en = Closed ∨ en = Waiting cursor → delivers cursor D ([], en).
Proof.
  intros He. split_and!; [|by intros r ?%elem_of_nil|done]. exists []. split; [constructor|done].
Qed.

Lemma delivers_keepalive cursor D fs en :
  delivers cursor D (fs, en) → delivers cursor D (FKeepalive :: fs, en).
Proof.
  intros (Hd & Hr & He). unfold delivers in *. cbn [fst snd] in *. split_and!; [done|..|done].
  intros r [?|Hin]%elem_of_cons; [done|]. by apply (Hr r).
Qed.

Lemma iter_delivers polls d D cursor ka :
  1 ≤ page_size ≤ 1000 → log_ok D → high D ≤ 9223372036854775807 →
  polls_ok d polls D → 0 ≤ cursor ≤ high d →
  delivers cursor D (iter_frames page_size keepalive run_id cursor ka polls).
Proof.
  intros Hs HD Hb. revert d cursor ka. induction polls as [|p polls IH]; intros d cursor ka Hp Hc.
  { apply delivers_nil. by right. }
  pose proof (polls_grow _ _ _ Hp) as HdD. destruct Hp as (Hg & Hdc & Hp).
  pose proof (polls_grow _ _ _ Hp) as HcD. pose proof Hg as [Hok _ _ _ _ G1 G2 G3 G4].
  assert (grows (r_counter (p_reads p)) (r_durable (p_reads p))) as Hcd
    by (unfold grows in *; do 3 (etrans; [eassumption|]); done).
  assert (grows (r_counter (p_reads p)) D) as HcD' by (unfold grows in *; by etrans).
  pose proof (grows_high _ _ Hdc). pose proof (grows_high _ _ HcD'). pose proof (grows_high _ _ Hcd).
  destruct (poll_page (p_reads p) cursor) as (pg & rows & Hpg & Hd & Hv & Hn); [done|lia..|].
  simpl. rewrite Hpg.
  assert (0 ≤ last_cursor cursor (items pg) ≤ high (r_durable (p_reads p))) as Hc'
    by (pose proof (delivered_bounds cursor _ _ _ _ Hok ltac:(lia) Hd Hv); lia).
  assert (pending_events cursor D = rows ++ pending_events (last_cursor cursor (items pg)) D) as HvD.
  { destruct (pending_grows cursor _ _ HcD') as [x Hx]. rewrite Hv, <-app_assoc in Hx.
    by rewrite (pending_after _ _ _ _ _ HD Hd Hx). }
  assert (∀ ka', delivers (last_cursor cursor (items pg)) D
    (iter_frames page_size keepalive run_id (last_cursor cursor (items pg)) ka' polls)) as Hrest
    by (intros ka'; by eapply IH).
  destruct (next_after pg) as [n|].
  - destruct Hn as [-> _]. specialize (Hrest ka).
    destruct (iter_frames _ _ _ _ _ _) as [fs en]. by eapply delivers_more.
  - destruct (p_disconnected p).
    { eapply delivers_more; [done..|]. apply delivers_nil. by left. }
    destruct (Z.leb keepalive (p_now p - ka)).
    + specialize (Hrest (p_now p)). destruct (iter_frames _ _ _ _ _ _) as [fs en].
      eapply delivers_more; [done..|]. by apply delivers_keepalive.
    + specialize (Hrest ka). destruct (iter_frames _ _ _ _ _ _) as [fs en].
      by eapply delivers_more.
Qed.

(** C39. A stream delivers exactly once and in order: whatever is appended while it
polls, the events of its frames are the run's visible events between its starting
cursor and the last event sent, none missing, repeated or swapped; it never sends a
reset frame, and ends only because the client has gone. *)
Theorem stream_exactly_once d polls D after ka :
  1 ≤ page_size ≤ 1000 → log_ok D → high D ≤ 9223372036854775807 →
  polls_ok d polls D → 0 ≤ after ≤ high d →
  let '(frames, en) := iter_frames page_size keepalive run_id after ka polls in
  let cursor := last_cursor after (events_of frames) in
  (∃ rows, delivered_as rows (events_of frames)
           ∧ pending_events after D = rows ++ pending_events cursor D)
  ∧ (∀ reset, FReset reset ∉ frames) ∧ (en = Closed ∨ en = Waiting cursor).
Proof.
  intros Hs HD Hb Hp Ha. pose proof (iter_delivers polls d D after ka Hs HD Hb Hp Ha) as Hd.
  by destruct (iter_frames _ _ _ _ _ _).
Qed.

(** The header of a client that reconnects. *)
Definition last_event_id (es : list NormalizedEvent.t) : option string :=
  pretty ∘ NormalizedEvent.global_position <$> last es.

Lemma polls_ok_mono d polls D D' : polls_ok d polls D → grows D D' → polls_ok d polls D'.
Proof.
  revert d. induction polls as [|p polls IH]; intros d.
  - unfold polls_ok, grows. intros ? ?. by etrans.
  - intros (Hg & Hd & Hp) HD. split_and!; [done|done|]. by apply IH.
Qed.

Lemma delivers_cursor cursor D r :
  log_ok D → 0 ≤ cursor ≤ high D → delivers cursor D r →
  cursor ≤ last_cursor cursor (events_of r.1) ≤ high D.
Proof. intros HD Hc ((rows & Hd & Hp) & _ & _). eapply delivered_bounds; [done|lia|done..]. Qed.

(** Reconnecting loses and repeats nothing: the identifier of the last frame,
written in decimal and read back by resolve_event_cursor, is the cursor from which a
second stream continues so that both together delivered the run's visible events
exactly once. *)
Theorem stream_resumes d polls1 d1 polls2 D after ka1 ka2 :
  1 ≤ page_size ≤ 1000 → log_ok d1 → log_ok D → high D ≤ 9223372036854775807 →
  polls_ok d polls1 d1 → polls_ok d1 polls2 D → 0 ≤ after ≤ high d →
  let received := events_of (iter_frames page_size keepalive run_id after ka1 polls1).1 in
  ∃ cursor, resolve_event_cursor after (last_event_id received) = Ok cursor
    ∧ let all := received
                 ++ events_of (iter_frames page_size keepalive run_id cursor ka2 polls2).1 in
      ∃ rows, delivered_as rows all
        ∧ pending_events after D = rows ++ pending_events (last_cursor after all) D.
Proof.
  intros Hs Hd1 HD Hb Hp1 Hp2 Ha received.
  pose proof (polls_grow _ _ _ Hp2) as Hg2. pose proof (grows_high _ _ Hg2) as Hh2.
  pose proof (grows_high _ _ (polls_grow _ _ _ Hp1)) as Hh1.
  pose proof (iter_delivers polls1 d D after ka1 Hs HD Hb (polls_ok_mono _ _ _ _ Hp1 Hg2) Ha) as H1.
  pose proof (iter_delivers polls1 d d1 after ka1 Hs Hd1 ltac:(lia) Hp1 Ha) as H1'.
  pose proof (delivers_cursor after d1 _ Hd1 ltac:(lia) H1') as Hc.
  destruct H1 as ((rows1 & Hr1 & Hv1) & _ & _). fold received in Hr1, Hv1, Hc.
  exists (last_cursor after received). split.
  - unfold last_event_id, last_cursor in *. destruct (last received) as [e|].
    + apply resolve_position; lia.
    + unfold resolve_event_cursor. simpl. by rewrite (proj2 (Z.ltb_ge _ _)) by lia.
  - destruct (iter_delivers polls2 d1 D (last_cursor after received) ka2 Hs HD Hb Hp2 ltac:(lia))
      as ((rows2 & Hr2 & Hv2) & _ & _).
    exists (rows1 ++ rows2). split; [by apply Forall2_app|].
    by rewrite last_cursor_app, <-app_assoc, <-Hv2.
Qed.

(** What one connected poll adds. *)
Lemma iter_connected p polls cursor ka :
  growing (p_reads p) → 0 ≤ cursor ≤ high (r_counter (p_reads p)) →
  high (r_counter (p_reads p)) ≤ 9223372036854775807 → 1 ≤ page_size ≤ 1000 →
  p_disconnected p = false →
  ∃ es rows ka', delivered_as rows es
    ∧ pending_events cursor (r_counter (p_reads p))
      = rows ++ pending_events (last_cursor cursor es) (r_counter (p_reads p))
    ∧ (pending_events (last_cursor cursor es) (r_counter (p_reads p)) = []
       ∨ Z.of_nat (length rows) = page_size)
    ∧ events_of (iter_frames page_size keepalive run_id cursor ka (p :: polls)).1
      = es ++ events_of
               (iter_frames page_size keepalive run_id (last_cursor cursor es) ka' polls).1.
Proof.
  intros Hg Hc Hb Hs Hdis. destruct (poll_page (p_reads p) cursor) as (pg & rows & Hpg & Hd & Hv & Hn);
    [done..|]. simpl. rewrite Hpg, Hdis.
  assert (∀ ka', events_of ((FEvent <$> items pg) ++
    (iter_frames page_size keepalive run_id (last_cursor cursor (items pg)) ka' polls).1)
    = items pg ++ events_of
       (iter_frames page_size keepalive run_id (last_cursor cursor (items pg)) ka' polls).1) as He
    by (intros; apply events_of_sent).
  destruct (next_after pg) as [n|]; [destruct Hn as [-> Hn]|destruct (Z.leb keepalive _)].
  - exists (items pg), rows, ka. split_and!; [done|done|by right|]. specialize (He ka).
    by destruct (iter_frames _ _ _ _ _ _).
  - exists (items pg), rows, (p_now p). split_and!; [done|done|by left|]. specialize (He (p_now p)).
    destruct (iter_frames _ _ _ _ _ _). simpl in *. by rewrite !events_of_sent in *.
  - exists (items pg), rows, ka. split_and!; [done|done|by left|]. specialize (He ka).
    by destruct (iter_frames _ _ _ _ _ _).
Qed.

Lemma iter_live polls d D cursor ka base :
  1 ≤ page_size ≤ 1000 → log_ok base → log_ok D → high D ≤ 9223372036854775807 →
  grows base d → polls_ok d polls D → 0 ≤ cursor ≤ high d →
  Forall (λ p, p_disconnected p = false) polls →
  Z.of_nat (length (pending_events cursor base)) ≤ Z.of_nat (length polls) * page_size →
  ∃ rows, delivered_as rows
            (events_of (iter_frames page_size keepalive run_id cursor ka polls).1)
          ∧ pending_events cursor base `prefix_of` rows.
Proof.
  intros Hs Hbase HD Hb. revert d cursor ka.
  induction polls as [|p polls IH]; intros d cursor ka Hbd Hp Hc Hf Hl.
  { exists []. split; [constructor|]. simpl in Hl. destruct (pending_events cursor base); [done|].
    simpl in Hl. lia. }
  destruct Hp as (Hg & Hdc & Hp). apply Forall_cons in Hf as [Hdis Hf].
  pose proof Hg as [Hok _ _ _ _ G1 G2 G3 G4].
  assert (grows (r_counter (p_reads p)) (r_durable (p_reads p))) as Hcd
    by (unfold grows in *; do 3 (etrans; [eassumption|]); done).
  pose proof (polls_grow _ _ _ Hp) as HcD.
  pose proof (grows_high _ _ Hdc). pose proof (grows_high _ _ HcD). pose proof (grows_high _ _ Hcd).
  destruct (iter_connected p polls cursor ka) as (es & rows & ka' & Hd & Hv & Hn & ->); [done|lia..|done|].
  pose proof (delivered_bounds cursor _ _ _ _ Hok ltac:(lia) Hd Hv) as Hc'.
  assert (grows base (r_counter (p_reads p))) as Hbc by (unfold grows in *; by etrans).
  pose proof (pending_grows cursor _ _ Hbc) as Hpre.
  pose proof (iter_delivers polls (r_durable (p_reads p)) D (last_cursor cursor es) ka' Hs HD Hb Hp
    ltac:(lia)) as ((rows' & Hr' & _) & _ & _).
  assert (rows `prefix_of` pending_events cursor (r_counter (p_reads p))) as Hrp
    by (rewrite Hv; by eexists).
  destruct (prefix_weak_total _ _ _ Hpre Hrp) as [Hfew|[k Hk]].
  { exists (rows ++ rows'). split; [by apply Forall2_app|]. by apply prefix_app_r. }
  destruct Hn as [Hn|Hn].
  { exists (rows ++ rows'). split; [by apply Forall2_app|]. apply prefix_app_r.
    rewrite Hn, app_nil_r in Hv. by rewrite <-Hv. }
  destruct (IH (r_durable (p_reads p)) (last_cursor cursor es) ka') as (rows2 & Hr2 & Hp2).
  - unfold grows in *. by etrans.
  - done.
  - lia.
  - done.
  - rewrite (pending_after _ _ _ _ _ Hbase Hd Hk). apply (f_equal length) in Hk.
    rewrite length_app in Hk. simpl length in Hl. lia.
  - exists (rows ++ rows2). split; [by apply Forall2_app|].
    rewrite (pending_after _ _ _ _ _ Hbase Hd Hk) in Hp2. rewrite Hk. by apply prefix_app.
Qed.

(** A stream catches up: once its polls, at the page size, suffice for the
visible events the log held when it started, all of them have been delivered,
however many more are appended meanwhile. *)
Theorem stream_live d polls D after ka :
  1 ≤ page_size ≤ 1000 → log_ok d → log_ok D → high D ≤ 9223372036854775807 →
  polls_ok d polls D → 0 ≤ after ≤ high d →
  Forall (λ p, p_disconnected p = false) polls →
  Z.of_nat (length (pending_events after d)) ≤ Z.of_nat (length polls) * page_size →
  ∃ rows, delivered_as rows
            (events_of (iter_frames page_size keepalive run_id after ka polls).1)
          ∧ pending_events after d `prefix_of` rows.
Proof. intros. apply (iter_live polls d D after ka d); try done. unfold grows. done. Qed.
End delivery.


(** The principal is checked for each frame that leaves. *)
Lemma authorized_prefix fs :
  authorized_frames fs `prefix_of` fs.*1
  ∧ ∀ i f, authorized_frames fs !! i = Some f → fs !! i = Some (f, (true, true)).
Proof.
  induction fs as [|[f [stream_ok run_ok]] fs [IHp IHi]]; [done|].
  cbn [authorized_frames]. destruct stream_ok, run_ok; cbn [negb].
  - split; [by apply prefix_cons|]. intros [|i] g; [by intros [= ->]|apply IHi].
  - split; [apply prefix_nil|done].
  - split; [apply prefix_nil|done].
  - split; [apply prefix_nil|done].
Qed.

(** ** Streams of a principal *)

Section limiting.
Variable maximum : Z.

Definition limiter_ok (s : active_streams * list string) : Prop :=
  ∀ k, s.1 !! k = (if Z.eqb (streams k s.2) 0 then None else Some (streams k s.2))
       ∧ streams k s.2 ≤ maximum.

Lemma streams_cons k k' open : streams k (k' :: open) = streams k open + if decide (k = k') then 1 else 0.
Proof. unfold streams. rewrite filter_cons. case_decide; simpl; lia. Qed.

Lemma streams_remove k k' a b :
  streams k (a ++ b) = streams k (a ++ k' :: b) - if decide (k = k') then 1 else 0.
Proof.
  unfold streams. rewrite !filter_app, !length_app, filter_cons. case_decide; simpl; lia.
Qed.

Lemma streams_nonneg k open : 0 ≤ streams k open.
Proof. unfold streams. lia. Qed.

Lemma claim_spec k m open :
  limiter_ok (m, open) →
  claim maximum k m = if Z.leb maximum (streams k open) then (false, m)
                      else (true, <[k := streams k open + 1]> m).
Proof.
  intros Hok. unfold claim. destruct (Hok k) as [Hk _]. simpl in Hk. rewrite Hk.
  destruct (Z.eqb_spec (streams k open) 0) as [->|]; done.
Qed.

Lemma limiter_step_ok s s' : 0 ≤ maximum → limiter_ok s → limiter_step maximum s s' → limiter_ok s'.
Proof.
  intros Hmax Hok Hs. destruct Hs as [k m m' open Hc|k m m' open Hc|k m a b].
  - rewrite (claim_spec _ _ _ Hok) in Hc. destruct (Z.leb_spec maximum (streams k open)); [done|].
    injection Hc as <-. intros k'. destruct (Hok k') as [Hk Hm]. cbn [fst snd] in *.
    rewrite streams_cons. pose proof (streams_nonneg k' open). case_decide as Hkk.
    + subst k'. rewrite lookup_insert_eq. destruct (Z.eqb_spec (streams k open + 1) 0); [lia|].
      split; [done|lia].
    + rewrite lookup_insert_ne by congruence. rewrite Z.add_0_r. by split.
  - rewrite (claim_spec _ _ _ Hok) in Hc. by destruct (Z.leb maximum _); [injection Hc as <-|].
  - intros k'. destruct (Hok k') as [Hk Hm]. cbn [fst snd] in *.
    rewrite (streams_remove k' k). unfold release.
    destruct (Hok k) as [Hkk _]. cbn [fst snd] in Hkk.
    assert (0 < streams k (a ++ k :: b)) as Hpos.
    { pose proof (streams_remove k k a b) as Hr. rewrite decide_True in Hr by done.
      pose proof (streams_nonneg k (a ++ b)). lia. }
    rewrite (proj2 (Z.eqb_neq _ 0)) in Hkk by lia. rewrite Hkk. simpl.
    case_decide as Heq; [subst k'|].
    + destruct (Z.eqb_spec (streams k (a ++ k :: b) - 1) 0).
      * rewrite lookup_delete_eq. split; [done|lia].
      * rewrite lookup_insert_eq. split; [done|lia].
    + rewrite Z.sub_0_r. by destruct (Z.eqb (streams k (a ++ k :: b) - 1) 0);
        [rewrite lookup_delete_ne|rewrite lookup_insert_ne].
Qed.

(** C: streams are counted, and bounded. *)
Theorem limiter_bound m open k :
  0 < maximum → rtc (limiter_step maximum) (∅, []) (m, open) →
  streams k open ≤ maximum
  ∧ ((claim maximum k m).1 = true ↔ streams k open < maximum).
Proof.
  intros Hmax Hs.
  assert (limiter_ok (m, open)) as Hok.
  { remember (∅, []) as s0 eqn:Hs0. remember (m, open) as s1 eqn:Hs1.
    assert (limiter_ok s0) as H0 by (intros k'; subst; split; cbn [fst snd]; change (streams k' []) with 0;
        [by rewrite lookup_empty|lia]).
    clear Hs0 Hs1. induction Hs as [|x y z Hxy _ IH]; [done|].
    apply IH. eapply limiter_step_ok; [lia|done..]. }
  split; [by apply (Hok k)|]. rewrite (claim_spec _ _ _ Hok).
  destruct (Z.leb_spec maximum (streams k open)); simpl; split; (done || lia).
Qed.
End limiting.
