(* ===== verification/ModelSelection.v ===== *)
(** * Model selection at run time

[orchestrator/app/jarvis_orchestrator/runtime/model_selection.py]: a node's route
is resolved against the immutable snapshot of its run, as the registry route
preview does against the live registry. *)
From S2P Require Import Prelude Enums PyJson PyDecimal Failures Registry WorkflowSpec Normalize.
From S2P Require Import NodeFactory Routing.
From stdpp Require Import gmap.
Local Open Scope Z_scope.
Local Open Scope stdpp_scope.

Module RouteEligibilityState.
Record t := {
  revision_id : uuid;
  enabled : bool;
  archived : bool;
  health : HealthStatus.t;
  circuit_state : CircuitState.t;
  credential_status : SecretStatus.t;
}.
End RouteEligibilityState.

(** [RouteEvaluationData] extends [RouteResolution]. *)
Module RouteEvaluationData.
Record t := {
  resolution : RouteResolution.t;
  request : RoutePreviewRequest.t;
  observed_state : list RouteEligibilityState.t;
}.
End RouteEvaluationData.

Inductive selection_error : Set := NoRouteReference | RouteKeyError.

Section selection.
Context `{PyRuntime} `{ModelDump RoutePreviewRequest.t} `{ModelDump RegistryRecord.t}.

(** A resolved revision as a registry record; the fields left out of the call have
their defaults. *)
Definition snapshot_record (now : Z) (r : WorkflowResolvedRevision.t) : RegistryRecord.t := {|
  RegistryRecord.id := WorkflowResolvedRevision.configuration_id r;
  RegistryRecord.revision_id := WorkflowResolvedRevision.revision_id r;
  RegistryRecord.revision := WorkflowResolvedRevision.revision r;
  RegistryRecord.key := WorkflowResolvedRevision.key r;
  RegistryRecord.display_name := WorkflowResolvedRevision.display_name r;
  RegistryRecord.description := WorkflowResolvedRevision.description r;
  RegistryRecord.enabled := WorkflowResolvedRevision.enabled r;
  RegistryRecord.archived := WorkflowResolvedRevision.archived r;
  RegistryRecord.spec := WorkflowResolvedRevision.spec r;
  RegistryRecord.content_hash := WorkflowResolvedRevision.content_hash r;
  RegistryRecord.secret_status := SecretStatus.not_required;
  RegistryRecord.health := HealthStatus.unknown;
  RegistryRecord.circuit_state := CircuitState.closed;
  RegistryRecord.others := [("version", JInt (WorkflowResolvedRevision.revision r));
                            ("created_at", JInt now); ("updated_at", JInt now)];
|}.

(** The dictionary comprehension: the last revision of an ID stays. *)
Definition snapshot_records (now : Z) (s : WorkflowResolvedSnapshot.t)
    : gmap uuid RegistryRecord.t :=
  foldl (λ m r, <[WorkflowResolvedRevision.revision_id r := snapshot_record now r]> m) ∅
    (WorkflowResolvedSnapshot.revisions s).

Definition node_requirements (n : WorkflowNode.t) : RouteRequirements.t := {|
  RouteRequirements.purpose :=
    if bool_decide (WorkflowNode.type n = WorkflowNodeType.worker) then "developer"
    else WorkflowNodeType.value (WorkflowNode.type n);
  RouteRequirements.capabilities := [];
  RouteRequirements.input_tokens := 0;
  RouteRequirements.output_tokens := 1;
  RouteRequirements.data_classification := DataClassification.public;
  RouteRequirements.run_spend := None;
|}.

Definition select_model (context : NodeContext.t) (failed : list uuid)
    (failure : option FailureClass.t) (now : Z) : res selection_error RouteEvaluationData.t :=
  match NodePolicy.model_route_ref (NodeContext.policy context) with
  | None => Err NoRouteReference
  | Some reference =>
      let records := snapshot_records now (NodeContext.snapshot context) in
      let request := RoutePreviewRequest.Build_t reference
                       (node_requirements (NodeContext.node context)) failed failure in
      match records !! reference with
      | None => Err RouteKeyError
      | Some route =>
          Ok (RouteEvaluationData.Build_t (resolve_route request route records) request [])
      end
  end.

(** ** What is selected *)

Lemma snapshot_records_Some now s i r :
  snapshot_records now s !! i = Some r →
  ∃ v, v ∈ WorkflowResolvedSnapshot.revisions s ∧ WorkflowResolvedRevision.revision_id v = i
    ∧ r = snapshot_record now v.
Proof.
  unfold snapshot_records. generalize (WorkflowResolvedSnapshot.revisions s) as l.
  intros l. induction l as [|v l IH] using rev_ind; [simpl; by rewrite lookup_empty|].
  rewrite foldl_snoc. intros [[<- <-]|[_ Hr]]%lookup_insert_Some.
  - exists v. split; [set_solver|done].
  - destruct (IH Hr) as (u & Hu & ?). exists u. split; [set_solver|done].
Qed.

(** A model selection that is allowed at run time names a profile of the run's
immutable snapshot that is enabled, not archived, serves the node's purpose and is
not among the profiles that failed before, and failover happens only after a failure
that is neither a security denial nor a cancellation. *)
Theorem select_model_allows context failed failure now e :
  select_model context failed failure now = Ok e →
  RouteResolution.decision (RouteEvaluationData.resolution e) = Decision3.allow →
  ∃ v p, v ∈ WorkflowResolvedSnapshot.revisions (NodeContext.snapshot context)
    ∧ WorkflowResolvedRevision.spec v = SModelProfile p
    ∧ RouteResolution.selected_profile_revision_id (RouteEvaluationData.resolution e)
      = Some (WorkflowResolvedRevision.revision_id v)
    ∧ WorkflowResolvedRevision.enabled v = true
    ∧ WorkflowResolvedRevision.archived v = false
    ∧ RouteRequirements.purpose (node_requirements (NodeContext.node context))
      ∈ ModelProfileSpec.purposes p
    ∧ WorkflowResolvedRevision.revision_id v ∉ failed
    ∧ (failed ≠ [] → ∃ f, failure = Some f
         ∧ f ∉ [FailureClass.SECURITY_POLICY_DENIED; FailureClass.USER_CANCELLED]).
Proof.
  unfold select_model. destruct (NodePolicy.model_route_ref _) as [ref|]; [|done].
  set (records := snapshot_records _ _). set (request := RoutePreviewRequest.Build_t _ _ _ _).
  destruct (records !! ref) as [route|] eqn:Hroute; [|done]. intros [= <-]; simpl.
  destruct (resolve_route_cases request route records) as
    [(_ & Hd & _)|(spec & _ & Ho & ->)]; [congruence|]. unfold resolve_candidates.
  destruct (selected_records spec request records) as [[[[record p] provider] w]|] eqn:Hsel; [|done].
  intros _. apply selected_records_Some in Hsel as (c & _ & [Hfresh Hrec Hprof _ _]).
  apply record_as_Some in Hrec as (Hin & Hid & Hspec).
  apply snapshot_records_Some in Hin as (v & Hv & Hvid & ->). simpl in *.
  exists v, p. split_and!; try done.
  - destruct (WorkflowResolvedRevision.spec v); simpl in Hspec; congruence.
  - apply Hprof.
  - apply Hprof.
  - apply Hprof.
  - by rewrite Hvid.
  - intros Hf. destruct (ro_failover _ _ _ Ho Hf) as (f & Hff & _ & Hnf). by exists f.
Qed.
End selection.
