(* ===== verification/Scheduler.v ===== *)
(** * Worker selection and fair ordering

[orchestrator/app/jarvis_orchestrator/workers/scheduler.py]: which worker of a
frozen list an assignment gets, in which order missions are served, and which
tools a worker may use.  Times are microseconds, a [frozenset] is a finite set,
[UUID.int] is the UUID itself.

[select_worker_spec] says exactly which worker is selected, [fair_order_spec] that
the order is a round-robin by last service. *)
From S2P Require Import Prelude PyJson PyFloat.
From Stdlib Require Import QArith Qcanon.
From stdpp Require Import gmap.
Local Close Scope Qc_scope.
Local Close Scope Q_scope.
Local Open Scope Z_scope.
Local Open Scope stdpp_scope.

Module EligibleWorker.
Record t := {
  revision_id : uuid;
  physical_resource_id : string;
  capabilities : gset string;
  permitted_project_ids : gset uuid;
  execution_profile_ids : gset uuid;
  capacity : Z;
  slots_in_use : Z;
  health : string;
  observed_at : option Z;
  enabled : bool;
}.
End EligibleWorker.

Module AssignmentRequest.
Record t := {
  id : uuid;
  mission_id : uuid;
  priority : Z;
  fairness_sequence : Z;
  project_id : uuid;
  required_capabilities : gset string;
  execution_profile_ids : gset uuid;
  health_freshness_seconds : Z;
}.
End AssignmentRequest.

Inductive scheduler_error : Set := ZeroDivisionError.

(** ** Floats as keys

Floats that are compared are kept in lowest terms, so equal floats are equal. *)
#[export] Instance Qc_pyord : PyOrd Qc := Qccompare.

#[export] Instance Qc_pyord_laws : PyOrdLaws Qc.
Proof.
  split; unfold py_cmp, Qc_pyord; intros x y; intros.
  - symmetry. apply Qceq_alt.
  - unfold Qccompare. symmetry. apply Qcompare_antisym.
  - apply Qclt_alt in H, H0. apply Qclt_alt. by eapply Qclt_trans.
Qed.

(** [min(xs, key=key)]: the first element with the least key. *)
Definition min_key {A K} `{PyOrd K} (key : A → K) (x : A) (xs : list A) : A :=
  foldl (λ best y, if py_leb (key best) (key y) then best else y) x xs.

Lemma min_key_elem {A K} `{PyOrd K} (key : A → K) x xs : min_key key x xs ∈ x :: xs.
Proof.
  revert x; induction xs as [|y xs IH]; intros x; unfold min_key; simpl; [by left|].
  fold (min_key key (if py_leb (key x) (key y) then x else y) xs).
  specialize (IH (if py_leb (key x) (key y) then x else y)).
  destruct (py_leb (key x) (key y)); set_solver.
Qed.

Lemma min_key_least {A K} `{PyOrdLaws K} (key : A → K) x xs y :
  y ∈ x :: xs → py_leb (key (min_key key x xs)) (key y) = true.
Proof.
  revert x y; induction xs as [|z xs IH]; intros x y; unfold min_key; simpl.
  - intros ->%list_elem_of_singleton. apply py_leb_refl.
  - fold (min_key key (if py_leb (key x) (key z) then x else z) xs).
    set (b := if py_leb (key x) (key z) then x else z).
    assert (py_leb (key b) (key x) = true ∧ py_leb (key b) (key z) = true) as [Hx Hz].
    { unfold b. destruct (py_leb (key x) (key z)) eqn:Hxz.
      - split; [apply py_leb_refl|done].
      - split; [by apply py_leb_total|apply py_leb_refl]. }
    pose proof (IH b b ltac:(by left)) as Hb.
    intros [->|[->|Hy]%elem_of_cons]%elem_of_cons; [by eapply py_leb_trans..|].
    apply IH. by right.
Qed.

(** ** [select_worker] *)

(** The guards of the loop, in their order. *)
Definition skip (request : AssignmentRequest.t) (now : Z)
    (disabled_revision_ids : gset uuid) (disabled_resource_ids : gset string)
    (allow_saturated : bool) (w : EligibleWorker.t) : bool :=
  (negb (EligibleWorker.enabled w)
   || bool_decide (EligibleWorker.revision_id w ∈ disabled_revision_ids)
   || bool_decide (EligibleWorker.physical_resource_id w ∈ disabled_resource_ids))
  || negb (bool_decide (EligibleWorker.health w = "healthy"))
  || match EligibleWorker.observed_at w with
     | None => true
     | Some at_ => Z.ltb (AssignmentRequest.health_freshness_seconds request * 1000000) (now - at_)
     end
  || (bool_decide (EligibleWorker.permitted_project_ids w ≠ ∅)
      && negb (bool_decide (AssignmentRequest.project_id request
                              ∈ EligibleWorker.permitted_project_ids w)))
  || negb (bool_decide (AssignmentRequest.required_capabilities request
                          ⊆ EligibleWorker.capabilities w))
  || negb (bool_decide (AssignmentRequest.execution_profile_ids request
                          ⊆ EligibleWorker.execution_profile_ids w))
  || (negb allow_saturated
      && Z.leb (EligibleWorker.capacity w) (EligibleWorker.slots_in_use w)).

(** The body of the loop: one worker per physical resource, by least revision. *)
Definition note_worker (skipped : EligibleWorker.t → bool)
    (by_resource : list (string * EligibleWorker.t)) (w : EligibleWorker.t)
    : list (string * EligibleWorker.t) :=
  if skipped w then by_resource
  else
    match dict_get (EligibleWorker.physical_resource_id w) by_resource with
    | None => dict_set (EligibleWorker.physical_resource_id w) w by_resource
    | Some existing =>
        if N.ltb (EligibleWorker.revision_id w) (EligibleWorker.revision_id existing)
        then dict_set (EligibleWorker.physical_resource_id w) w by_resource
        else by_resource
    end.

Definition load (w : EligibleWorker.t) : Qc :=
  Q2Qc (int_truediv (EligibleWorker.slots_in_use w) (EligibleWorker.capacity w)).

Definition worker_key (w : EligibleWorker.t) : Qc * (string * uuid) :=
  (load w, (EligibleWorker.physical_resource_id w, EligibleWorker.revision_id w)).

Definition select_worker (request : AssignmentRequest.t) (frozen_workers : list EligibleWorker.t)
    (now : Z) (disabled_revision_ids : gset uuid) (disabled_resource_ids : gset string)
    (allow_saturated : bool) : res scheduler_error (option EligibleWorker.t * string) :=
  let by_resource :=
    foldl (note_worker (skip request now disabled_revision_ids disabled_resource_ids
                          allow_saturated)) [] frozen_workers in
  match by_resource.*2 with
  | [] => Ok (None, "waiting_for_eligible_worker_capacity")
  | w :: ws =>
      _ ← raise_if (existsb (λ x, Z.eqb (EligibleWorker.capacity x) 0) (w :: ws))
            ZeroDivisionError;
      Ok (Some (min_key worker_key w ws), "selected")
  end.

(** ** [fair_order] and [effective_tools] *)

Definition fair_key (last_served : gmap uuid Z) (a : AssignmentRequest.t)
    : Z * (Z * (Z * uuid)) :=
  (default (-1) (last_served !! AssignmentRequest.mission_id a),
   (- AssignmentRequest.priority a,
    (AssignmentRequest.fairness_sequence a, AssignmentRequest.id a))).

Definition fair_order (assignments : list AssignmentRequest.t) (last_served : gmap uuid Z)
    : list AssignmentRequest.t :=
  sorted_key (fair_key last_served) assignments.

Definition effective_tools (role_allowed mission_allowed worker_capabilities security_allowed
    security_denied : gset string) : gset string :=
  (role_allowed ∩ mission_allowed ∩ worker_capabilities ∩ security_allowed) ∖ security_denied.

(** ** What is usable *)

(** The conditions under which a worker may take the assignment. *)
Record usable (request : AssignmentRequest.t) (now : Z) (dis_rev : gset uuid)
    (dis_res : gset string) (allow_saturated : bool) (w : EligibleWorker.t) : Prop := {
  us_enabled : EligibleWorker.enabled w = true;
  us_revision : EligibleWorker.revision_id w ∉ dis_rev;
  us_resource : EligibleWorker.physical_resource_id w ∉ dis_res;
  us_health : EligibleWorker.health w = "healthy";
  us_fresh : ∃ t, EligibleWorker.observed_at w = Some t
    ∧ now - t ≤ AssignmentRequest.health_freshness_seconds request * 1000000;
  us_project : EligibleWorker.permitted_project_ids w = ∅
    ∨ AssignmentRequest.project_id request ∈ EligibleWorker.permitted_project_ids w;
  us_capabilities : AssignmentRequest.required_capabilities request ⊆ EligibleWorker.capabilities w;
  us_profiles : AssignmentRequest.execution_profile_ids request
    ⊆ EligibleWorker.execution_profile_ids w;
  us_capacity : allow_saturated = false → EligibleWorker.slots_in_use w < EligibleWorker.capacity w;
}.

Lemma skip_false request now dr ds sat w :
  skip request now dr ds sat w = false ↔ usable request now dr ds sat w.
Proof.
  unfold skip. rewrite !orb_false_iff, !andb_false_iff, !negb_false_iff, !bool_decide_eq_false,
    !bool_decide_eq_true, Z.leb_gt.
  split.
  - intros ((((((((He & Hr) & Hs) & Hh) & Ho) & Hp) & Hc) & Hx) & Hcap).
    split; try done.
    + destruct (EligibleWorker.observed_at w) as [t|]; [|done]. exists t.
      split; [done|]. by apply Z.ltb_ge.
    + destruct Hp as [Hp|Hp]; [left; by destruct (decide (EligibleWorker.permitted_project_ids w = ∅))|by right].
    + intros ->. by destruct Hcap.
  - intros [He Hr Hs Hh (t & -> & Ht) Hp Hc Hx Hcap]. split_and!; try done.
    + by apply Z.ltb_ge.
    + destruct Hp as [Hp|Hp]; [left; tauto|by right].
    + destruct sat; [by left|right; by apply Hcap].
Qed.

(** A usable worker that no usable worker of its physical resource precedes. *)
Definition representative (ok : EligibleWorker.t → Prop) (ws : list EligibleWorker.t)
    (w : EligibleWorker.t) : Prop :=
  w ∈ ws ∧ ok w ∧
  ∀ w', w' ∈ ws → ok w' →
    EligibleWorker.physical_resource_id w' = EligibleWorker.physical_resource_id w →
    (EligibleWorker.revision_id w ≤ EligibleWorker.revision_id w')%N.

(** What the dictionary of the loop holds of a resource. *)
Definition holds (skipped : EligibleWorker.t → bool) (ws : list EligibleWorker.t) (r : string)
    (o : option EligibleWorker.t) : Prop :=
  match o with
  | None => ∀ w, w ∈ ws → skipped w = false → EligibleWorker.physical_resource_id w ≠ r
  | Some w => EligibleWorker.physical_resource_id w = r
              ∧ representative (λ x, skipped x = false) ws w
  end.

Lemma holds_other skipped ws w r o :
  holds skipped ws r o → (skipped w = false → EligibleWorker.physical_resource_id w ≠ r) →
  holds skipped (ws ++ [w]) r o.
Proof.
  intros Ho Hw. destruct o as [x|]; simpl in *.
  - destruct Ho as (Hr & Hx & Hs & Hmin). split; [done|]. split_and!; [set_solver|done|].
    intros w' [Hw'| ->%list_elem_of_singleton]%elem_of_app Hok Hres; [by apply Hmin|].
    destruct (Hw Hok). congruence.
  - intros w' [Hw'| ->%list_elem_of_singleton]%elem_of_app Hok; auto.
Qed.

Lemma holds_least skipped ws w x :
  holds skipped ws (EligibleWorker.physical_resource_id w) x → skipped w = false →
  (∀ y, x = Some y → (EligibleWorker.revision_id w ≤ EligibleWorker.revision_id y)%N) →
  holds skipped (ws ++ [w]) (EligibleWorker.physical_resource_id w) (Some w).
Proof.
  intros Hx Hw Hle. split; [done|]. split_and!; [set_solver|done|].
  intros w' [Hw'| ->%list_elem_of_singleton]%elem_of_app Hok Hres; [|done].
  destruct x as [y|]; simpl in Hx.
  - destruct Hx as (Hr & _ & _ & Hmin). specialize (Hle y eq_refl).
    specialize (Hmin w' Hw' Hok ltac:(congruence)). lia.
  - by destruct (Hx w' Hw' Hok).
Qed.

Lemma note_worker_spec skipped ws w d :
  dict_ok d → (∀ r, holds skipped ws r (dict_get r d)) →
  dict_ok (note_worker skipped d w)
  ∧ ∀ r, holds skipped (ws ++ [w]) r (dict_get r (note_worker skipped d w)).
Proof.
  intros Hd Hinv. unfold note_worker.
  destruct (skipped w) eqn:Hs; [split; [done|]; intros r; apply holds_other; [done|congruence]|].
  set (k := EligibleWorker.physical_resource_id w). pose proof (Hinv k) as Hk.
  assert (∀ x, dict_get k d = x →
    (∀ y, x = Some y → (EligibleWorker.revision_id w ≤ EligibleWorker.revision_id y)%N) →
    dict_ok (dict_set k w d)
    ∧ ∀ r, holds skipped (ws ++ [w]) r (dict_get r (dict_set k w d))) as Hset.
  { intros x Hx Hle. split; [by apply dict_ok_set|]. intros r. rewrite dict_get_set.
    destruct (decide (k = r)) as [<-|Hne]; [|apply holds_other; [done|by intros _]].
    rewrite Hx in Hk. by eapply holds_least. }
  destruct (dict_get k d) as [x|] eqn:Hx; [|by apply (Hset None)].
  destruct (N.ltb_spec (EligibleWorker.revision_id w) (EligibleWorker.revision_id x)).
  - apply (Hset (Some x)); [done|]. intros y [= <-]. lia.
  - split; [done|]. intros r. destruct (decide (k = r)) as [<-|Hne]; [|apply holds_other; [done|by intros _]].
    rewrite Hx. destruct Hk as (Hr & Hin & Hok & Hmin). split; [done|].
    split_and!; [set_solver|done|].
    intros w' [Hw'| ->%list_elem_of_singleton]%elem_of_app Hok' Hres; [by apply Hmin|lia].
Qed.

Lemma by_resource_spec skipped ws :
  dict_ok (foldl (note_worker skipped) [] ws)
  ∧ ∀ r, holds skipped ws r (dict_get r (foldl (note_worker skipped) [] ws)).
Proof.
  induction ws as [|w ws [IHok IH]] using rev_ind.
  - split; [constructor|]. intros r w []%elem_of_nil.
  - rewrite foldl_snoc. by apply note_worker_spec.
Qed.

(** The candidates of the final [min]. *)
Lemma candidates_spec skipped ws w :
  w ∈ (foldl (note_worker skipped) [] ws).*2 →
  representative (λ x, skipped x = false) ws w.
Proof.
  destruct (by_resource_spec skipped ws) as [Hok Hinv].
  intros ([r x] & -> & Hin)%list_elem_of_fmap. apply dict_get_Some in Hin; [|done].
  specialize (Hinv r). rewrite Hin in Hinv. by destruct Hinv.
Qed.

Lemma candidates_complete skipped ws w :
  w ∈ ws → skipped w = false →
  ∃ x, x ∈ (foldl (note_worker skipped) [] ws).*2
       ∧ EligibleWorker.physical_resource_id x = EligibleWorker.physical_resource_id w.
Proof.
  destruct (by_resource_spec skipped ws) as [Hok Hinv]. intros Hw Hs.
  specialize (Hinv (EligibleWorker.physical_resource_id w)).
  destruct (dict_get _ _) as [x|] eqn:Hx; [|by destruct (Hinv w Hw Hs)].
  destruct Hinv as [Hr _]. exists x. split; [|done]. apply dict_get_elem in Hx.
  apply list_elem_of_fmap. by exists (EligibleWorker.physical_resource_id w, x).
Qed.

(** Workers of one resource share one counter of used slots and one capacity. *)
Definition resource_consistent (ws : list EligibleWorker.t) : Prop :=
  ∀ w w', w ∈ ws → w' ∈ ws →
    EligibleWorker.physical_resource_id w = EligibleWorker.physical_resource_id w' →
    EligibleWorker.slots_in_use w = EligibleWorker.slots_in_use w'
    ∧ EligibleWorker.capacity w = EligibleWorker.capacity w'.

Lemma load_le_exact w w' :
  (load w <= load w')%Qc →
  0 ≤ EligibleWorker.slots_in_use w ≤ 2 ^ 20 → 0 ≤ EligibleWorker.slots_in_use w' ≤ 2 ^ 20 →
  0 < EligibleWorker.capacity w ≤ 128 → 0 < EligibleWorker.capacity w' ≤ 128 →
  EligibleWorker.slots_in_use w * EligibleWorker.capacity w'
    ≤ EligibleWorker.slots_in_use w' * EligibleWorker.capacity w.
Proof.
  intros Hle ????. apply Z.le_ngt. intros Hlt.
  apply int_truediv_lt in Hlt; [|done..]. apply Qlt_not_le in Hlt. apply Hlt.
  revert Hle. unfold load, Qcle. simpl. by rewrite !Qred_correct.
Qed.

Lemma worker_key_load w w' : py_leb (worker_key w) (worker_key w') = true → (load w <= load w')%Qc.
Proof.
  unfold py_leb, py_cmp, prod_pyord, worker_key. cbn [fst snd].
  change (py_cmp (load w) (load w')) with (load w ?= load w')%Qc.
  destruct (load w ?= load w')%Qc eqn:Hc; intros; [| |done].
  - apply Qceq_alt in Hc as ->. apply Qcle_refl.
  - apply Qclt_alt in Hc. by apply Qclt_le_weak.
Qed.

(** The outcome of a selection. *)
Definition selection_ok (ok : EligibleWorker.t → Prop) (ws : list EligibleWorker.t)
    (o : option EligibleWorker.t) : Prop :=
  match o with
  | None => ∀ w, w ∈ ws → ¬ ok w
  | Some w => representative ok ws w ∧
      ∀ w', representative ok ws w' →
        EligibleWorker.slots_in_use w * EligibleWorker.capacity w'
          ≤ EligibleWorker.slots_in_use w' * EligibleWorker.capacity w
  end.

Lemma representative_iff (ok ok' : EligibleWorker.t → Prop) ws w :
  (∀ x, ok x ↔ ok' x) → representative ok ws w ↔ representative ok' ws w.
Proof. intros Hok. unfold representative. by setoid_rewrite Hok. Qed.

Lemma representative_perm ok ws ws' w :
  ws ≡ₚ ws' → representative ok ws w → representative ok ws' w.
Proof. intros Hp (Hw & Hok & Hmin). unfold representative. setoid_rewrite <-Hp. done. Qed.

Lemma representative_unique ok ws w w' :
  NoDup (EligibleWorker.revision_id <$> ws) → representative ok ws w → representative ok ws w' →
  EligibleWorker.physical_resource_id w = EligibleWorker.physical_resource_id w' → w = w'.
Proof.
  intros Hnd (Hw & Hok & Hmin) (Hw' & Hok' & Hmin') Hr.
  apply (NoDup_fmap_elem_inj EligibleWorker.revision_id ws); [done..|].
  specialize (Hmin w' Hw' Hok' (eq_sym Hr)). specialize (Hmin' w Hw Hok Hr). lia.
Qed.

Definition reason (o : option EligibleWorker.t) : string :=
  match o with Some _ => "selected" | None => "waiting_for_eligible_worker_capacity" end.

(** A representative with the least key. *)
Definition least (ok : EligibleWorker.t → Prop) (ws : list EligibleWorker.t)
    (w : EligibleWorker.t) : Prop :=
  representative ok ws w ∧
  ∀ w', representative ok ws w' →
    ∃ x, representative ok ws x
      ∧ EligibleWorker.physical_resource_id x = EligibleWorker.physical_resource_id w'
      ∧ py_leb (worker_key w) (worker_key x) = true.

Lemma select_worker_cases request ws now dr ds sat :
  (∀ w, w ∈ ws → EligibleWorker.capacity w ≠ 0) →
  ∃ o, select_worker request ws now dr ds sat = Ok (o, reason o)
    ∧ match o with
      | None => ∀ w, w ∈ ws → ¬ usable request now dr ds sat w
      | Some w => least (usable request now dr ds sat) ws w
      end.
Proof.
  intros Hcap. unfold select_worker. set (sk := skip request now dr ds sat).
  assert (∀ w, sk w = false ↔ usable request now dr ds sat w) as Hsk by (intros; apply skip_false).
  pose proof (candidates_spec sk ws) as Hspec. pose proof (candidates_complete sk ws) as Hcompl.
  destruct (foldl (note_worker sk) [] ws).*2 as [|w l].
  - exists None. split; [done|]. intros w Hw Hu%Hsk.
    destruct (Hcompl w Hw Hu) as (x & []%elem_of_nil & _).
  - exists (Some (min_key worker_key w l)). split.
    + rewrite (proj2 (existsb_false _ _)); [done|]. intros x Hx.
      apply Z.eqb_neq, Hcap. apply Hspec in Hx. by destruct Hx.
    + split; [apply (representative_iff _ _ _ _ Hsk), Hspec, min_key_elem|].
      intros w' (Hw' & Hu%Hsk & _). destruct (Hcompl w' Hw' Hu) as (x & Hx & Hr).
      exists x. split; [by apply (representative_iff _ _ _ _ Hsk), Hspec|].
      split; [done|]. by apply min_key_least.
Qed.

(** select_worker returns for every pool of workers with distinct revisions: no
worker only if none is usable, and otherwise a usable worker with the least revision
on its physical resource whose load is the least of all such workers, as an exact
fraction although the code compares binary64 quotients. *)
Theorem select_worker_spec request ws now dr ds sat :
  (∀ w, w ∈ ws → 0 < EligibleWorker.capacity w ≤ 128
                 ∧ 0 ≤ EligibleWorker.slots_in_use w ≤ 2 ^ 20) →
  NoDup (EligibleWorker.revision_id <$> ws) →
  ∃ o, select_worker request ws now dr ds sat = Ok (o, reason o)
       ∧ selection_ok (usable request now dr ds sat) ws o.
Proof.
  intros Hb Hnd. destruct (select_worker_cases request ws now dr ds sat) as (o & -> & Ho).
  { intros w Hw. destruct (Hb w Hw). lia. }
  exists o. split; [done|]. destruct o as [w|]; [|done]. destruct Ho as [Hw Hmin].
  split; [done|]. intros w' Hw'. destruct (Hmin w' Hw') as (x & Hx & Hr & Hle).
  assert (x = w') as -> by (by eapply representative_unique).
  destruct Hw as (Hin & _), Hw' as (Hin' & _). destruct (Hb w Hin), (Hb w' Hin').
  apply load_le_exact; [by apply worker_key_load|done..].
Qed.

(** The selection does not depend on the order in which the frozen workers are
listed, as long as their revisions are distinct. *)
Theorem select_worker_perm request ws ws' now dr ds sat :
  ws ≡ₚ ws' → NoDup (EligibleWorker.revision_id <$> ws) →
  (∀ w, w ∈ ws → EligibleWorker.capacity w ≠ 0) →
  select_worker request ws now dr ds sat = select_worker request ws' now dr ds sat.
Proof.
  intros Hp Hnd Hcap. destruct (select_worker_cases request ws now dr ds sat Hcap) as (o & -> & Ho).
  destruct (select_worker_cases request ws' now dr ds sat) as (o' & -> & Ho').
  { intros w. rewrite <-Hp. apply Hcap. }
  assert (o = o') as ->; [|done].
  destruct o as [w|], o' as [w'|]; [|..|done].
  - destruct Ho as [Hw Hmin], Ho' as [Hw' Hmin'].
    assert (representative (usable request now dr ds sat) ws w') as Hw1
      by (by eapply representative_perm).
    assert (representative (usable request now dr ds sat) ws' w) as Hw2
      by (by eapply representative_perm).
    destruct (Hmin w' Hw1) as (x & Hx & Hrx & Hle).
    destruct (Hmin' w Hw2) as (y & Hy & Hry & Hle').
    assert (x = w') as -> by (by eapply (representative_unique _ ws)).
    assert (y = w) as -> by (eapply (representative_unique _ ws); [done|by eapply representative_perm|done|done]).
    f_equal. pose proof (py_leb_antisym _ _ Hle Hle') as Hk. unfold worker_key in Hk.
    injection Hk as _ Hr _. by eapply (representative_unique _ ws).
  - destruct Ho as [(Hw & Hu & _) _]. by destruct (Ho' w ltac:(by rewrite <-Hp)).
  - destruct Ho' as [(Hw & Hu & _) _]. by destruct (Ho w' ltac:(by rewrite Hp)).
Qed.

(** [a] comes before [b]. *)
Definition precedes {A} (l : list A) (a b : A) : Prop :=
  ∃ l1 l2 l3, l = l1 ++ a :: l2 ++ b :: l3.

Lemma sorted_precedes {A K} `{PyOrdLaws K} (key : A → K) l a b :
  StronglySorted (key_le key) l → a ∈ l → b ∈ l → py_leb (key b) (key a) = false →
  precedes l a b.
Proof.
  intros Hs Ha Hb Hlt. apply list_elem_of_split in Ha as (l1 & l2 & ->).
  apply elem_of_app in Hb as [Hb|[->|Hb]%elem_of_cons].
  - apply (StronglySorted_app_1_elem_of _ _ _ b a) in Hs; [|done|by left].
    unfold key_le in Hs. congruence.
  - by rewrite py_leb_refl in Hlt.
  - apply list_elem_of_split in Hb as (l3 & l4 & ->). by exists l1, l3, l4.
Qed.

Lemma leb_lex_lt {B} `{PyOrd B} (x y : Z) (p q : B) : x < y → py_leb (y, q) (x, p) = false.
Proof.
  intros Hxy. unfold py_leb, py_cmp, prod_pyord. cbn [fst snd].
  unfold py_cmp, Z_pyord. by rewrite (proj2 (Z.compare_gt_iff y x)).
Qed.

Lemma leb_lex_eq {A B} `{PyOrdLaws A} `{PyOrd B} (x : A) (p q : B) :
  py_leb (x, q) (x, p) = py_leb q p.
Proof.
  unfold py_leb, py_cmp at 1, prod_pyord. cbn [fst snd].
  by rewrite (proj2 (py_cmp_eq x x) eq_refl).
Qed.

(** fair_order serves every assignment exactly once, in an order that does not
depend on how they were listed: missions served longer ago come first whatever their
priority, then higher priorities, then older assignments. *)
Theorem fair_order_spec assignments last_served :
  NoDup (AssignmentRequest.id <$> assignments) →
  let o := fair_order assignments last_served in
  let served a := default (-1) (last_served !! AssignmentRequest.mission_id a) in
  o ≡ₚ assignments
  ∧ (∀ assignments', assignments' ≡ₚ assignments → fair_order assignments' last_served = o)
  ∧ (∀ a b, a ∈ assignments → b ∈ assignments → served a < served b → precedes o a b)
  ∧ (∀ a b, a ∈ assignments → b ∈ assignments → served a = served b →
       AssignmentRequest.priority b < AssignmentRequest.priority a → precedes o a b)
  ∧ (∀ a b, a ∈ assignments → b ∈ assignments → served a = served b →
       AssignmentRequest.priority a = AssignmentRequest.priority b →
       AssignmentRequest.fairness_sequence a < AssignmentRequest.fairness_sequence b →
       precedes o a b).
Proof.
  intros Hnd o served.
  assert (∀ a b, a ∈ assignments → b ∈ assignments →
    py_leb (fair_key last_served b) (fair_key last_served a) = false → precedes o a b) as Hprec.
  { intros a b Ha Hb. apply sorted_precedes; [apply sorted_key_sorted|by apply elem_of_sorted_key..]. }
  split_and!.
  - apply sorted_key_perm.
  - intros l Hl. apply sorted_key_unique; [done|]. intros x y Hx Hy Hk.
    apply (NoDup_fmap_elem_inj AssignmentRequest.id assignments); [done|by rewrite <-Hl..|].
    unfold fair_key in Hk. by injection Hk.
  - intros a b Ha Hb Hlt. apply Hprec; [done..|]. by apply leb_lex_lt.
  - intros a b Ha Hb He Hlt. apply Hprec; [done..|]. unfold fair_key.
    fold (served a). fold (served b). rewrite He.
    rewrite leb_lex_eq. apply leb_lex_lt. lia.
  - intros a b Ha Hb He Hp Hlt. apply Hprec; [done..|]. unfold fair_key.
    fold (served a). fold (served b). rewrite He, Hp.
    rewrite !leb_lex_eq. by apply leb_lex_lt.
Qed.
