(* ===== verification/WorkerSlots.v ===== *)
(** * Worker capacity

[orchestrator/app/jarvis_orchestrator/workers/leases.py]: a worker's capacity is a
set of numbered slots on its physical resource; an invocation leases a slot under
the fence of its run.  The unique constraints of the tables
([packages/persistence/src/jarvis_persistence/models.py]) are checked where rows
are inserted, and [slots_in_use] is the count with which
[runtime/composition.py] offers a worker to the scheduler.

[reachable_slots_ok] is the invariant of the tables, [capacity_bound] that a
resource never serves more than its slots, [slot_exclusive] mutual exclusion,
[slot_superseded_forever] that an old holder stays excluded, and
[acquire_body_spec] and [selected_worker_available] what is acquired and when. *)
From S2P Require Import Prelude PyJson Registry Database Ownership.
From stdpp Require Import gmap.
Local Open Scope Z_scope.
Local Open Scope stdpp_scope.

(** [WorkerSpec.model_validate] of stored JSON; [None] when it raises. *)
Class WorkerSpecModel := worker_spec_validate : option json → option WorkerSpec.t.
(** A specification that validates satisfies the bounds of its fields. *)
Class WorkerSpecModelLaws `{WorkerSpecModel} :=
  worker_spec_validate_valid : ∀ j s, worker_spec_validate j = Some s → WorkerSpec.valid s = true.

Module WorkerSlotFence.
Record t := {
  lease_id : uuid;
  worker_revision_id : uuid;
  slot : Z;
  generation : Z;
  run_generation : Z;
  expires_at : Z;
  physical_resource_id : option string;
}.
(** [SafeKey] has the pattern of [PhysicalResourceId]. *)
Definition valid (f : t) : bool :=
  z_between 0 127 (slot f) && Z.ltb 0 (generation f) && Z.ltb 0 (run_generation f)
  && opt_all PhysicalResourceId_valid (physical_resource_id f).
End WorkerSlotFence.

(** [WorkerBoundaryError(code)] *)
Definition boundary_error (code : string) : own_error := ApplicationError code.
(** [WorkerCapacityUnavailableError] *)
Definition capacity_unavailable : own_error := ApplicationError "worker_capacity_unavailable".

(** ** Queries *)

Definition active (l : WorkerLeaseModel.t) : bool :=
  bool_decide (WorkerLeaseModel.released_at l = None).

(** The unreleased lease of a slot; the table allows one. *)
Definition active_of (slot_id : uuid) (ls : list WorkerLeaseModel.t)
    : option WorkerLeaseModel.t :=
  find (λ l, bool_decide (WorkerLeaseModel.slot_id l = slot_id) && active l) ls.

Definition get_lease (i : uuid) (ls : list WorkerLeaseModel.t) : option WorkerLeaseModel.t :=
  find_key WorkerLeaseModel.id i ls.
Definition get_slot (i : uuid) (ss : list WorkerSlotModel.t) : option WorkerSlotModel.t :=
  find_key WorkerSlotModel.id i ss.

Definition on_resource (r : string) (s : WorkerSlotModel.t) : bool :=
  bool_decide (WorkerSlotModel.physical_resource_id s = r).

(** The slots of a resource, [ORDER BY slot_number]. *)
Definition slots_of (r : string) (ss : list WorkerSlotModel.t) : list WorkerSlotModel.t :=
  sorted_key WorkerSlotModel.slot_number (filter (λ s, on_resource r s = true) ss).

(** ** Insertions *)

(** Would the row violate the primary key or a unique constraint? *)
Definition slot_conflict (s : WorkerSlotModel.t) (ss : list WorkerSlotModel.t) : bool :=
  existsb (λ x,
    bool_decide (WorkerSlotModel.id x = WorkerSlotModel.id s)
    || (bool_decide (WorkerSlotModel.worker_id x = WorkerSlotModel.worker_id s)
        && Z.eqb (WorkerSlotModel.slot_number x) (WorkerSlotModel.slot_number s))
    || (bool_decide (WorkerSlotModel.physical_resource_id x
                     = WorkerSlotModel.physical_resource_id s)
        && Z.eqb (WorkerSlotModel.slot_number x) (WorkerSlotModel.slot_number s))) ss.

Definition slot_checks (s : WorkerSlotModel.t) : bool :=
  z_between 0 127 (WorkerSlotModel.slot_number s) && Z.leb 0 (WorkerSlotModel.generation s).

Definition insert_slot (ss : list WorkerSlotModel.t) (s : WorkerSlotModel.t)
    : res own_error (list WorkerSlotModel.t) :=
  if slot_conflict s ss || negb (slot_checks s) then Err integrity_error else Ok (ss ++ [s]).

Definition lease_conflict (l : WorkerLeaseModel.t) (ls : list WorkerLeaseModel.t) : bool :=
  existsb (λ x,
    bool_decide (WorkerLeaseModel.id x = WorkerLeaseModel.id l)
    || (bool_decide (WorkerLeaseModel.slot_id x = WorkerLeaseModel.slot_id l)
        && (Z.eqb (WorkerLeaseModel.generation x) (WorkerLeaseModel.generation l)
            || (active x && active l)))) ls.

Definition lease_checks (l : WorkerLeaseModel.t) : bool :=
  Z.ltb 0 (WorkerLeaseModel.generation l) && Z.ltb 0 (WorkerLeaseModel.run_generation l).

Definition insert_lease (ls : list WorkerLeaseModel.t) (l : WorkerLeaseModel.t)
    : res own_error (list WorkerLeaseModel.t) :=
  if lease_conflict l ls || negb (lease_checks l) then Err integrity_error else Ok (ls ++ [l]).

(** Assignments to the attributes of a row. *)
Definition alter_slot (i : uuid) (f : WorkerSlotModel.t → WorkerSlotModel.t)
    (ss : list WorkerSlotModel.t) : list WorkerSlotModel.t :=
  (λ s, if bool_decide (WorkerSlotModel.id s = i) then f s else s) <$> ss.
Definition alter_row (i : uuid) (f : WorkerLeaseModel.t → WorkerLeaseModel.t)
    (ls : list WorkerLeaseModel.t) : list WorkerLeaseModel.t :=
  (λ l, if bool_decide (WorkerLeaseModel.id l = i) then f l else l) <$> ls.

(** ** [contract] *)

Definition contract (l : WorkerLeaseModel.t) (s : WorkerSlotModel.t)
    : res own_error WorkerSlotFence.t :=
  let f := {|
    WorkerSlotFence.lease_id := WorkerLeaseModel.id l;
    WorkerSlotFence.worker_revision_id := WorkerLeaseModel.worker_revision_id l;
    WorkerSlotFence.slot := WorkerSlotModel.slot_number s;
    WorkerSlotFence.generation := WorkerLeaseModel.generation l;
    WorkerSlotFence.run_generation := WorkerLeaseModel.run_generation l;
    WorkerSlotFence.expires_at := WorkerLeaseModel.expires_at l;
    WorkerSlotFence.physical_resource_id := Some (WorkerSlotModel.physical_resource_id s);
  |} in
  if WorkerSlotFence.valid f then Ok f else Err (python_error "ValidationError").

(** ** [acquire] *)

(** [spec.physical_resource_id or str(configuration_id)] *)
Definition resource_id (configuration : uuid) (spec : WorkerSpec.t) : string :=
  match WorkerSpec.physical_resource_id spec with
  | Some r => if String.eqb r "" then uuid_str configuration else r
  | None => uuid_str configuration
  end.

(** The identity checks; the result is the configuration and the resource. *)
Definition resource_of `{WorkerSpecModel} (revision_id attempt_id : uuid) (spec : WorkerSpec.t)
    (run : RunModel.t) (w : WorkerTables.t) : res own_error (uuid * string) :=
  let task := attempt ← WorkerTables.attempts w !! attempt_id;
              WorkerTables.tasks w !! TaskAttemptModel.task_id attempt in
  match WorkerTables.revisions w !! revision_id, task with
  | Some revision, Some task =>
      _ ← raise_if (negb (bool_decide (TaskModel.run_id task = RunModel.id run)))
            (boundary_error "worker_lease_identity_invalid");
      match worker_spec_validate (ConfigurationRevisionModel.spec revision) with
      | None => Err (python_error "ValidationError")
      | Some stored =>
          _ ← raise_if (negb (bool_decide (stored = spec)))
                (boundary_error "worker_revision_spec_mismatch");
          let configuration := ConfigurationRevisionModel.configuration_id revision in
          Ok (configuration, resource_id configuration spec)
      end
  | _, _ => Err (boundary_error "worker_lease_identity_invalid")
  end.

(** The missing slots below the worker's concurrency; [fresh] gives their IDs. *)
Definition missing_slots (configuration : uuid) (resource : string) (n : Z) (fresh : Z → uuid)
    (existing : list WorkerSlotModel.t) : list WorkerSlotModel.t :=
  (λ number, WorkerSlotModel.Build_t (fresh number) configuration resource number 0) <$>
    filter (λ number, existsb (λ s, Z.eqb (WorkerSlotModel.slot_number s) number) existing = false)
      (Z.of_nat <$> seq 0 (Z.to_nat n)).

(** The loop over the slots. *)
Inductive found :=
  | Own (lease : WorkerLeaseModel.t) (slot : WorkerSlotModel.t)
  | Free (slot : WorkerSlotModel.t)
  | Full.

Fixpoint scan (attempt_id : uuid) (run_id : uuid) (n now : Z) (ls : list WorkerLeaseModel.t)
    (slots : list WorkerSlotModel.t) : found :=
  match slots with
  | [] => Full
  | slot :: slots' =>
      if Z.leb n (WorkerSlotModel.slot_number slot) then scan attempt_id run_id n now ls slots'
      else
        match active_of (WorkerSlotModel.id slot) ls with
        | Some current =>
            if bool_decide (WorkerLeaseModel.task_attempt_id current = attempt_id)
               && bool_decide (WorkerLeaseModel.run_id current = run_id)
               && Z.ltb now (WorkerLeaseModel.expires_at current)
            then Own current slot
            else scan attempt_id run_id n now ls slots'
        | None => Free slot
        end
  end.

(** The reservation of the attempt's assignment. *)
Definition reserve (attempt_id revision_id lease_id : uuid)
    (assignments : list WorkerAssignmentModel.t) : list WorkerAssignmentModel.t :=
  (λ a, if bool_decide (WorkerAssignmentModel.task_attempt_id a = attempt_id)
        then WorkerAssignmentModel.Build_t attempt_id "reserved" (Some revision_id) (Some lease_id)
               None
        else a) <$> assignments.

Section slots.
Context `{WorkerSpecModel}.

(** The transaction; [new_slot] and [new_lease] are the fresh IDs. *)
Definition acquire_body (f : RunFence.t) (ttl : Z) (revision_id attempt_id : uuid)
    (spec : WorkerSpec.t) (new_slot : Z → uuid) (new_lease : uuid) (now : Z)
    (run : RunModel.t) (d : db) : res own_error (WorkerSlotFence.t * db) :=
  let w := workers d in
  identity ← resource_of revision_id attempt_id spec run w;
  let n := WorkerSpec.max_concurrency spec in
  let existing := slots_of identity.2 (WorkerTables.slots w) in
  let missing := missing_slots identity.1 identity.2 n new_slot existing in
  stored ← foldM insert_slot (WorkerTables.slots w) missing;
  let w := WorkerTables.set_slots stored w in
  match scan attempt_id (RunModel.id run) n now (WorkerTables.worker_leases w)
          (existing ++ missing) with
  | Own current slot => c ← contract current slot; Ok (c, set_workers w d)
  | Free slot =>
      let slot := WorkerSlotModel.bump slot in
      let w := WorkerTables.set_slots
                 (alter_slot (WorkerSlotModel.id slot) WorkerSlotModel.bump stored) w in
      let lease := {|
        WorkerLeaseModel.id := new_lease;
        WorkerLeaseModel.slot_id := WorkerSlotModel.id slot;
        WorkerLeaseModel.worker_revision_id := revision_id;
        WorkerLeaseModel.run_id := RunModel.id run;
        WorkerLeaseModel.task_attempt_id := attempt_id;
        WorkerLeaseModel.owner_instance_id := RunFence.owner f;
        WorkerLeaseModel.generation := WorkerSlotModel.generation slot;
        WorkerLeaseModel.run_generation := RunFence.generation f;
        WorkerLeaseModel.acquired_at := now;
        WorkerLeaseModel.renewed_at := now;
        WorkerLeaseModel.expires_at := now + ttl;
        WorkerLeaseModel.released_at := None;
      |} in
      ls ← insert_lease (WorkerTables.worker_leases w) lease;
      let w := WorkerTables.set_worker_leases ls w in
      let w := WorkerTables.set_assignments
                 (reserve attempt_id revision_id new_lease (WorkerTables.assignments w)) w in
      let d := event run "worker.lease_acquired"
                 [("lease_id", JStr (uuid_str new_lease));
                  ("generation", JInt (WorkerLeaseModel.generation lease));
                  ("slot", JInt (WorkerSlotModel.slot_number slot));
                  ("worker_revision_id", JStr (uuid_str revision_id))] (set_workers w d) in
      c ← contract lease slot; Ok (c, d)
  | Full => Err capacity_unavailable
  end.

Definition acquire (f : RunFence.t) (ttl : Z) (revision_id attempt_id : uuid) (spec : WorkerSpec.t)
    (new_slot : Z → uuid) (new_lease : uuid) (now now_slots now' : Z) (d : db)
    : res own_error (WorkerSlotFence.t * db) :=
  fenced f now now' (acquire_body f ttl revision_id attempt_id spec new_slot new_lease now_slots) d.
End slots.

(** ** [require], [renew] and [release] *)

Definition require (f : RunFence.t) (lease : WorkerSlotFence.t) (now : Z) (d : db)
    : res own_error WorkerLeaseModel.t :=
  match get_lease (WorkerSlotFence.lease_id lease) (WorkerTables.worker_leases (workers d)) with
  | None => Err StaleExecutorError
  | Some row =>
      match get_slot (WorkerLeaseModel.slot_id row) (WorkerTables.slots (workers d)) with
      | None => Err StaleExecutorError
      | Some slot =>
          if negb (bool_decide (WorkerLeaseModel.run_id row = RunFence.run_id f))
             || negb (bool_decide (WorkerLeaseModel.worker_revision_id row
                                   = WorkerSlotFence.worker_revision_id lease))
             || negb (Z.eqb (WorkerLeaseModel.generation row) (WorkerSlotFence.generation lease))
             || negb (Z.eqb (WorkerSlotModel.generation slot) (WorkerSlotFence.generation lease))
             || negb (Z.eqb (WorkerSlotModel.slot_number slot) (WorkerSlotFence.slot lease))
             || match WorkerSlotFence.physical_resource_id lease with
                | Some r => negb (bool_decide (WorkerSlotModel.physical_resource_id slot = r))
                | None => false
                end
             || negb (active row)
             || Z.leb (WorkerLeaseModel.expires_at row) now
          then Err StaleExecutorError else Ok row
      end
  end.

(** [now_require], [now_renewed]: the clock readings of [require] and of the
renewal. *)
Definition renew_body (f : RunFence.t) (ttl : Z) (lease : WorkerSlotFence.t)
    (now_require now_renewed : Z) (_ : RunModel.t) (d : db) : res own_error (unit * db) :=
  row ← require f lease now_require d;
  Ok (tt, set_workers (WorkerTables.set_worker_leases
            (alter_row (WorkerLeaseModel.id row)
               (WorkerLeaseModel.with_renewal now_renewed (now_renewed + ttl))
               (WorkerTables.worker_leases (workers d))) (workers d)) d).

Definition renew (f : RunFence.t) (ttl : Z) (lease : WorkerSlotFence.t)
    (now now_require now_renewed now' : Z) (d : db) : res own_error (unit * db) :=
  fenced f now now' (renew_body f ttl lease now_require now_renewed) d.

Definition release_body (lease : WorkerSlotFence.t) (now : Z) (run : RunModel.t) (d : db)
    : res own_error (unit * db) :=
  match get_lease (WorkerSlotFence.lease_id lease) (WorkerTables.worker_leases (workers d)) with
  | None => Err StaleExecutorError
  | Some row =>
      if negb (bool_decide (WorkerLeaseModel.run_id row = RunModel.id run))
         || negb (Z.eqb (WorkerLeaseModel.generation row) (WorkerSlotFence.generation lease))
      then Err StaleExecutorError
      else if negb (active row) then Ok (tt, d)
      else
        Ok (tt, event run "worker.lease_lost"
                  [("lease_id", JStr (uuid_str (WorkerLeaseModel.id row)));
                   ("generation", JInt (WorkerLeaseModel.generation row))]
                  (set_workers (WorkerTables.set_worker_leases
                     (alter_row (WorkerLeaseModel.id row) (WorkerLeaseModel.with_release now)
                        (WorkerTables.worker_leases (workers d))) (workers d)) d))
  end.

Definition release (f : RunFence.t) (lease : WorkerSlotFence.t) (reconciled_terminal : bool)
    (now now_release now' : Z) (d : db) : res own_error (unit * db) :=
  _ ← raise_if (negb reconciled_terminal) (boundary_error "worker_release_requires_reconciliation");
  fenced f now now' (release_body lease now_release) d.

(** The query with which a worker is offered to the scheduler: the unreleased leases
joined with the slots of the resource. *)
Definition occupied (r : string) (w : WorkerTables.t)
    : list (WorkerLeaseModel.t * WorkerSlotModel.t) :=
  filter (λ p, WorkerSlotModel.id p.2 = WorkerLeaseModel.slot_id p.1
               ∧ on_resource r p.2 = true ∧ active p.1 = true)
    (list_prod (WorkerTables.worker_leases w) (WorkerTables.slots w)).

Definition slots_in_use (resource : string) (w : WorkerTables.t) : Z :=
  Z.of_nat (length (occupied resource w)).

(** ** The tables *)

Definition slot_key (s : WorkerSlotModel.t) : string * Z :=
  (WorkerSlotModel.physical_resource_id s, WorkerSlotModel.slot_number s).
Definition grant_key (l : WorkerLeaseModel.t) : uuid * Z :=
  (WorkerLeaseModel.slot_id l, WorkerLeaseModel.generation l).

(** The slot of a lease, which has not gone back behind it; an unreleased lease has
the generation of its slot. *)
Definition backed (ss : list WorkerSlotModel.t) (l : WorkerLeaseModel.t) : Prop :=
  0 < WorkerLeaseModel.generation l ∧ 0 < WorkerLeaseModel.run_generation l ∧
  ∃ s, s ∈ ss ∧ WorkerSlotModel.id s = WorkerLeaseModel.slot_id l
    ∧ WorkerLeaseModel.generation l ≤ WorkerSlotModel.generation s
    ∧ (WorkerLeaseModel.released_at l = None →
         WorkerLeaseModel.generation l = WorkerSlotModel.generation s).

Definition slot_ok (s : WorkerSlotModel.t) : Prop :=
  0 ≤ WorkerSlotModel.slot_number s ≤ 127 ∧ 0 ≤ WorkerSlotModel.generation s
  ∧ PhysicalResourceId_valid (WorkerSlotModel.physical_resource_id s) = true.

Record slots_ok (ss : list WorkerSlotModel.t) (ls : list WorkerLeaseModel.t) : Prop := {
  so_ids : NoDup (WorkerSlotModel.id <$> ss);
  so_keys : NoDup (slot_key <$> ss);
  so_slots : ∀ s, s ∈ ss → slot_ok s;
  so_lease_ids : NoDup (WorkerLeaseModel.id <$> ls);
  so_grants : NoDup (grant_key <$> ls);
  so_backed : ∀ l, l ∈ ls → backed ss l;
}.

Lemma active_spec l : active l = true ↔ WorkerLeaseModel.released_at l = None.
Proof. apply bool_decide_eq_true. Qed.

Lemma active_of_Some i ls l :
  active_of i ls = Some l →
  l ∈ ls ∧ WorkerLeaseModel.slot_id l = i ∧ WorkerLeaseModel.released_at l = None.
Proof.
  intros [Hin Hc]%find_some. apply andb_true_iff in Hc as [Hi%bool_decide_eq_true Ha%active_spec].
  split; [by apply list_elem_of_In|done].
Qed.

Lemma active_of_None i ls l :
  active_of i ls = None → l ∈ ls → WorkerLeaseModel.slot_id l = i →
  WorkerLeaseModel.released_at l ≠ None.
Proof.
  intros Hn Hl%list_elem_of_In Hi Hr. apply (find_none _ _ Hn), not_true_iff_false in Hl.
  apply Hl. rewrite bool_decide_true by done. by apply active_spec.
Qed.

(** A slot has one unreleased lease at most. *)
Lemma active_unique ss ls l l' :
  slots_ok ss ls → l ∈ ls → l' ∈ ls → WorkerLeaseModel.slot_id l = WorkerLeaseModel.slot_id l' →
  WorkerLeaseModel.released_at l = None → WorkerLeaseModel.released_at l' = None → l = l'.
Proof.
  intros Hok Hl Hl' Hs Hr Hr'. destruct (so_backed _ _ Hok l Hl) as (_ & _ & s & Hin & Hid & _ & Hg).
  destruct (so_backed _ _ Hok l' Hl') as (_ & _ & s' & Hin' & Hid' & _ & Hg').
  assert (s = s') as <- by (eapply (NoDup_fmap_elem_inj WorkerSlotModel.id ss); [apply Hok|done|done|congruence]).
  apply (NoDup_fmap_elem_inj grant_key ls); [apply Hok|done|done|].
  unfold grant_key. rewrite Hs, Hg, Hg' by done. done.
Qed.

Lemma active_of_elem ss ls l :
  slots_ok ss ls → l ∈ ls → WorkerLeaseModel.released_at l = None →
  active_of (WorkerLeaseModel.slot_id l) ls = Some l.
Proof.
  intros Hok Hl Hr. destruct (active_of _ ls) as [a|] eqn:Ha.
  - apply active_of_Some in Ha as (Hin & Hi & Hra). f_equal. by eapply active_unique.
  - by eapply active_of_None in Ha.
Qed.

Lemma backed_mono ss ss' l :
  (∀ s, s ∈ ss → WorkerSlotModel.id s = WorkerLeaseModel.slot_id l → s ∈ ss') →
  backed ss l → backed ss' l.
Proof.
  intros Hss (Hp & Hrp & s & Hs & Hid & Hrest). split_and!; [done..|]. exists s. auto.
Qed.

(** ** Insertion of slots *)

Lemma slot_conflict_false s ss :
  slot_conflict s ss = false →
  ∀ x, x ∈ ss → WorkerSlotModel.id x ≠ WorkerSlotModel.id s ∧ slot_key x ≠ slot_key s.
Proof.
  unfold slot_conflict. rewrite existsb_false. intros Hall x Hx. specialize (Hall x Hx).
  rewrite !orb_false_iff, !andb_false_iff, !bool_decide_eq_false, !Z.eqb_neq in Hall.
  destruct Hall as [[Hid _] Hkey]. split; [done|]. unfold slot_key. intros [=]. naive_solver.
Qed.

Lemma insert_slot_ok ss ls s ss' :
  slots_ok ss ls → PhysicalResourceId_valid (WorkerSlotModel.physical_resource_id s) = true →
  insert_slot ss s = Ok ss' → ss' = ss ++ [s] ∧ slots_ok ss' ls.
Proof.
  intros Hok Hv. unfold insert_slot.
  destruct (slot_conflict s ss) eqn:Hc; simpl; [done|].
  destruct (slot_checks s) eqn:Hk; simpl; [|done]. intros [= <-]. split; [done|].
  pose proof (slot_conflict_false s ss Hc) as Hfresh.
  unfold slot_checks, z_between in Hk. rewrite !andb_true_iff, !Z.leb_le in Hk.
  destruct Hok as [Hids Hkeys Hslots Hlids Hgr Hb]. split; [| | |done|done|].
  - apply NoDup_fmap_snoc; [done|]. intros x Hx. by apply Hfresh.
  - apply NoDup_fmap_snoc; [done|]. intros x Hx. by apply Hfresh.
  - intros x [Hx | ->%list_elem_of_singleton]%elem_of_app; [by apply Hslots|].
    unfold slot_ok. split_and!; [lia..|done].
  - intros l Hl. eapply backed_mono; [|by apply Hb]. set_solver.
Qed.

Lemma insert_slots_ok ss ls new ss' :
  slots_ok ss ls →
  (∀ s, s ∈ new → PhysicalResourceId_valid (WorkerSlotModel.physical_resource_id s) = true) →
  foldM insert_slot ss new = Ok ss' → ss' = ss ++ new ∧ slots_ok ss' ls.
Proof.
  revert ss. induction new as [|s new IH]; intros ss Hok Hv; simpl.
  - intros [= <-]. by rewrite app_nil_r.
  - intros (ss1 & Hi & Hf)%res_bind_ok.
    destruct (insert_slot_ok _ _ _ _ Hok (Hv s ltac:(by left)) Hi) as [-> Hok1].
    destruct (IH _ Hok1) as [-> Hok2]; [|done|]; [|split; [by rewrite <-app_assoc|done]].
    intros x Hx. apply Hv. by right.
Qed.

(** ** Changes to leases *)

(** A change keeps the identity of a lease and does not revive it. *)
Definition keeps_lease (f : WorkerLeaseModel.t → WorkerLeaseModel.t) : Prop :=
  ∀ l, WorkerLeaseModel.id (f l) = WorkerLeaseModel.id l ∧ grant_key (f l) = grant_key l
       ∧ WorkerLeaseModel.run_generation (f l) = WorkerLeaseModel.run_generation l
       ∧ (WorkerLeaseModel.released_at (f l) = None → WorkerLeaseModel.released_at l = None).

Lemma keeps_renewal n e : keeps_lease (WorkerLeaseModel.with_renewal n e).
Proof. done. Qed.
Lemma keeps_released n : keeps_lease (WorkerLeaseModel.with_release n).
Proof. done. Qed.

Lemma elem_of_alter_row i f ls l' :
  l' ∈ alter_row i f ls ↔
  ∃ l, l ∈ ls ∧ l' = if bool_decide (WorkerLeaseModel.id l = i) then f l else l.
Proof. unfold alter_row. rewrite list_elem_of_fmap. naive_solver. Qed.

Lemma alter_row_fmap {A} (p : WorkerLeaseModel.t → A) i f ls :
  (∀ l, p (f l) = p l) → p <$> alter_row i f ls = p <$> ls.
Proof.
  intros Hp. unfold alter_row. rewrite <-list_fmap_compose. apply list_fmap_ext.
  intros _ l _. simpl. by case_bool_decide.
Qed.

Lemma alter_row_ok ss ls i f : keeps_lease f → slots_ok ss ls → slots_ok ss (alter_row i f ls).
Proof.
  intros Hf [Hids Hkeys Hslots Hlids Hgr Hb]. split; [done..| | |].
  - rewrite alter_row_fmap; [done|]. intros l. apply Hf.
  - rewrite alter_row_fmap; [done|]. intros l. apply Hf.
  - intros l' (l & Hl & ->)%elem_of_alter_row. destruct (Hb l Hl) as (Hp & Hrp & s & Hs & Hid & Hle & Ha).
    case_bool_decide; [|by apply Hb].
    destruct (Hf l) as (_ & Hk & Hrg & Hr). unfold grant_key in Hk. injection Hk as Hk1 Hk2.
    unfold backed. rewrite Hk1, Hk2, Hrg. split_and!; [done..|]. exists s. split_and!; auto.
Qed.

(** ** A new lease *)

Lemma elem_of_alter_slot i f ss s' :
  s' ∈ alter_slot i f ss ↔
  ∃ s, s ∈ ss ∧ s' = if bool_decide (WorkerSlotModel.id s = i) then f s else s.
Proof. unfold alter_slot. rewrite list_elem_of_fmap. naive_solver. Qed.

Lemma alter_slot_fmap {A} (p : WorkerSlotModel.t → A) i f ss :
  (∀ s, p (f s) = p s) → p <$> alter_slot i f ss = p <$> ss.
Proof.
  intros Hp. unfold alter_slot. rewrite <-list_fmap_compose. apply list_fmap_ext.
  intros _ s _. simpl. by case_bool_decide.
Qed.

(** A slot without an unreleased lease goes to its next generation. *)
Lemma bump_ok ss ls s :
  slots_ok ss ls → s ∈ ss → active_of (WorkerSlotModel.id s) ls = None →
  slots_ok (alter_slot (WorkerSlotModel.id s) WorkerSlotModel.bump ss) ls.
Proof.
  intros [Hids Hkeys Hslots Hlids Hgr Hb] Hs Hfree. split; [| | |done|done|].
  - by rewrite alter_slot_fmap.
  - by rewrite alter_slot_fmap.
  - intros s' (x & Hx & ->)%elem_of_alter_slot. destruct (Hslots x Hx) as (Hn & Hg & Hv).
    case_bool_decide; [|done]. unfold slot_ok; simpl. split_and!; [lia..|done].
  - intros l Hl. destruct (Hb l Hl) as (Hp & Hrp & x & Hx & Hid & Hle & Ha). split_and!; [done..|].
    destruct (decide (WorkerSlotModel.id x = WorkerSlotModel.id s)) as [He|He].
    + exists (WorkerSlotModel.bump x). split_and!; [|done|simpl; lia|].
      * apply elem_of_alter_slot. exists x. by rewrite bool_decide_true.
      * intros Hr. eapply active_of_None in Hr; [done|exact Hfree|done|congruence].
    + exists x. split_and!; [|done..]. apply elem_of_alter_slot. exists x. by rewrite bool_decide_false.
Qed.

Lemma insert_lease_ok ss ls l ls' s :
  slots_ok ss ls → s ∈ ss → WorkerSlotModel.id s = WorkerLeaseModel.slot_id l →
  WorkerLeaseModel.generation l = WorkerSlotModel.generation s →
  insert_lease ls l = Ok ls' → ls' = ls ++ [l] ∧ slots_ok ss ls'.
Proof.
  intros [Hids Hkeys Hslots Hlids Hgr Hb] Hs Hid Hg. unfold insert_lease.
  destruct (lease_conflict l ls) eqn:Hc; simpl; [done|].
  destruct (lease_checks l) eqn:Hk; simpl; [|done]. intros [= <-]. split; [done|].
  unfold lease_conflict in Hc. rewrite existsb_false in Hc.
  assert (∀ x, x ∈ ls → WorkerLeaseModel.id x ≠ WorkerLeaseModel.id l ∧ grant_key x ≠ grant_key l)
    as Hfresh.
  { intros x Hx. specialize (Hc x Hx).
    rewrite !orb_false_iff, !andb_false_iff, !orb_false_iff, !bool_decide_eq_false, Z.eqb_neq in Hc.
    split; [apply Hc|]. unfold grant_key. intros [=]. naive_solver. }
  unfold lease_checks in Hk. rewrite andb_true_iff, !Z.ltb_lt in Hk.
  split; [done..| | |].
  - apply NoDup_fmap_snoc; [done|]. intros x Hx. by apply Hfresh.
  - apply NoDup_fmap_snoc; [done|]. intros x Hx. by apply Hfresh.
  - intros x [Hx | ->%list_elem_of_singleton]%elem_of_app; [by apply Hb|].
    split_and!; [apply Hk..|]. exists s. split_and!; [done|done|lia|by intros].
Qed.

(** ** Acquisition *)

Lemma uuid_digit_spec u i :
  ∃ c, uuid_digit u i = String c "" ∧ is_alnum c = true.
Proof.
  unfold uuid_digit. set (n := N.land _ 15).
  assert (n < 16)%N as Hn.
  { unfold n. change 15%N with (N.ones 4). rewrite N.land_ones. apply N.mod_lt. done. }
  eexists. split; [done|]. remember (N.to_nat n) as m eqn:Hm.
  assert (m < 16)%nat as Hm' by lia. clear Hm.
  do 16 (destruct m as [|m]; [vm_compute; reflexivity|]). lia.
Qed.

Lemma uuid_group_spec u start len :
  String.length (uuid_group u start len) = len
  ∧ str_forallb is_alnum (uuid_group u start len) = true.
Proof.
  unfold uuid_group. revert start. induction len as [|len IH]; intros start; [done|]. cbn [seq foldr].
  destruct (uuid_digit_spec u start) as (c & -> & Hc). destruct (IH (S start)) as [Hl Ha].
  rewrite length_str_app, str_forallb_app, Hl, Ha. simpl. by rewrite Hc.
Qed.

Lemma str_forallb_impl (P Q : Ascii.ascii → bool) s :
  (∀ c, P c = true → Q c = true) → str_forallb P s = true → str_forallb Q s = true.
Proof.
  intros HPQ. induction s as [|c s IH]; simpl; [done|].
  rewrite !andb_true_iff. intros [Hc Hs]. split; auto.
Qed.

(** The text of a UUID is a valid resource name. *)
Lemma uuid_str_valid u : PhysicalResourceId_valid (uuid_str u) = true.
Proof.
  set (Q := λ c, is_alnum c || is_oneof [95%nat; 45%nat] c).
  assert (∀ st n, str_forallb Q (uuid_group u st n) = true) as HQ.
  { intros st n. eapply str_forallb_impl; [|apply uuid_group_spec]. intros c Hc. unfold Q.
    by rewrite Hc. }
  assert (∃ c s, uuid_str u = String c s ∧ is_alnum c = true) as (c & s & Heq & Hc).
  { unfold uuid_str. change (uuid_group u 0 8) with (uuid_digit u 0 +:+ uuid_group u 1 7).
    destruct (uuid_digit_spec u 0) as (c & -> & Hc). eexists c, _. split; [|done]. reflexivity. }
  assert (str_forallb Q (uuid_str u) = true) as Hall.
  { unfold uuid_str. rewrite !str_forallb_app, !HQ. done. }
  assert (String.length (uuid_str u) = 36%nat) as Hlen.
  { unfold uuid_str. rewrite !length_str_app, !(λ st n, proj1 (uuid_group_spec u st n)). done. }
  rewrite Heq in *. simpl in Hall, Hlen. apply andb_true_iff in Hall as [_ Hall].
  unfold PhysicalResourceId_valid, head_tail. fold Q. rewrite Hc, Hall.
  apply andb_true_iff. split; [done|]. apply Nat.leb_le. lia.
Qed.

Lemma slot_scan_spec att run n now ls slots :
  match scan att run n now ls slots with
  | Own c s => s ∈ slots ∧ WorkerSlotModel.slot_number s < n
      ∧ active_of (WorkerSlotModel.id s) ls = Some c ∧ WorkerLeaseModel.task_attempt_id c = att
      ∧ WorkerLeaseModel.run_id c = run ∧ now < WorkerLeaseModel.expires_at c
  | Free s => s ∈ slots ∧ WorkerSlotModel.slot_number s < n
      ∧ active_of (WorkerSlotModel.id s) ls = None
  | Full => ∀ s, s ∈ slots → WorkerSlotModel.slot_number s < n →
      ∃ c, active_of (WorkerSlotModel.id s) ls = Some c
        ∧ ¬ (WorkerLeaseModel.task_attempt_id c = att ∧ WorkerLeaseModel.run_id c = run
             ∧ now < WorkerLeaseModel.expires_at c)
  end.
Proof.
  induction slots as [|s slots IH]; simpl; [by intros s ?%elem_of_nil|].
  destruct (Z.leb_spec n (WorkerSlotModel.slot_number s)) as [Hn|Hn].
  - destruct (scan att run n now ls slots); [destruct IH; split; [by right|done]..|].
    intros x [->|Hx]%elem_of_cons Hlt; [lia|by apply IH].
  - destruct (active_of (WorkerSlotModel.id s) ls) as [c|] eqn:Ha; [|split_and!; [by left|done..]].
    destruct (_ && _) eqn:Hown.
    + rewrite !andb_true_iff, !bool_decide_eq_true, Z.ltb_lt in Hown. destruct Hown as [[??]?].
      split_and!; [by left|done..].
    + destruct (scan att run n now ls slots); [destruct IH; split; [by right|done]..|].
      intros x [->|Hx]%elem_of_cons Hlt; [|by apply IH]. exists c. split; [done|].
      intros (H1 & H2 & H3%Z.ltb_lt). rewrite !bool_decide_true, H3 in Hown by done. done.
Qed.

Lemma elem_of_slots_of r ss s :
  s ∈ slots_of r ss ↔ s ∈ ss ∧ WorkerSlotModel.physical_resource_id s = r.
Proof.
  unfold slots_of, on_resource. rewrite elem_of_sorted_key, list_elem_of_filter, bool_decide_eq_true.
  tauto.
Qed.

Lemma elem_of_missing cfg r n fresh existing s :
  s ∈ missing_slots cfg r n fresh existing ↔
  ∃ number, s = WorkerSlotModel.Build_t (fresh number) cfg r number 0 ∧ 0 ≤ number < n
    ∧ ∀ x, x ∈ existing → WorkerSlotModel.slot_number x ≠ number.
Proof.
  unfold missing_slots. rewrite list_elem_of_fmap.
  apply exist_proper; intros number. rewrite list_elem_of_filter, list_elem_of_fmap.
  rewrite existsb_false. setoid_rewrite Z.eqb_neq. split.
  - intros (-> & Hn & k & -> & Hk%elem_of_seq). split_and!; [done|lia..|done].
  - intros (-> & Hr & Hn). split_and!; [done..|]. exists (Z.to_nat number).
    rewrite elem_of_seq. lia.
Qed.

Lemma elem_of_candidates cfg r n fresh ss s :
  s ∈ slots_of r ss ++ missing_slots cfg r n fresh (slots_of r ss) →
  s ∈ ss ++ missing_slots cfg r n fresh (slots_of r ss)
  ∧ WorkerSlotModel.physical_resource_id s = r.
Proof.
  intros [[Hs Hsr]%elem_of_slots_of|Hs]%elem_of_app; [set_solver|].
  split; [set_solver|]. by apply elem_of_missing in Hs as (k & -> & _).
Qed.

(** Every number below the concurrency has a slot. *)
Lemma slot_exists cfg r n fresh ss k :
  0 ≤ k < n →
  ∃ s, s ∈ slots_of r ss ++ missing_slots cfg r n fresh (slots_of r ss)
    ∧ WorkerSlotModel.slot_number s = k ∧ WorkerSlotModel.physical_resource_id s = r.
Proof.
  intros Hk.
  destruct (existsb (λ s, Z.eqb (WorkerSlotModel.slot_number s) k) (slots_of r ss)) eqn:He.
  - apply existsb_exists in He as (s & Hs%list_elem_of_In & Hn%Z.eqb_eq). exists s.
    apply elem_of_slots_of in Hs as Hs'. split_and!; [|done|tauto]. apply elem_of_app. by left.
  - rewrite existsb_false in He. exists (WorkerSlotModel.Build_t (fresh k) cfg r k 0).
    split_and!; [|done..]. apply elem_of_app. right. apply elem_of_missing. exists k.
    split_and!; [done|lia..|]. intros x Hx. specialize (He x Hx). by apply Z.eqb_neq.
Qed.

Lemma bind_Ok {E A B} (a : A) (g : A → res E B) : (x ← Ok a; g x) = g a.
Proof. done. Qed.

Section acquisition.
Context `{WorkerSpecModelLaws}.

Lemma resource_of_ok rev att spec run w cfg r :
  resource_of rev att spec run w = Ok (cfg, r) →
  PhysicalResourceId_valid r = true ∧ WorkerSpec.valid spec = true.
Proof.
  unfold resource_of. destruct (WorkerTables.revisions w !! rev) as [revision|]; [|done].
  destruct (_ ← _; _) as [task|]; [|done]. intros (? & _ & Hr)%res_bind_ok.
  destruct (worker_spec_validate _) as [stored|] eqn:Hs; [|done].
  apply res_bind_ok in Hr as (? & Heq%raise_if_ok & Hr).
  apply negb_false_iff, bool_decide_eq_true in Heq as ->. apply worker_spec_validate_valid in Hs.
  split; [|done]. apply Ok_pair in Hr as [_ <-]. unfold resource_id.
  destruct (WorkerSpec.physical_resource_id spec) as [r'|] eqn:Hp; [|apply uuid_str_valid].
  destruct (String.eqb r' ""); [apply uuid_str_valid|].
  unfold WorkerSpec.valid in Hs. rewrite Hp, !andb_true_iff in Hs. tauto.
Qed.

(** What an acquisition that returns has done. *)
Inductive acquired (f : RunFence.t) (ttl : Z) (rev att : uuid) (new_lease : uuid) (n now : Z)
    (run : RunModel.t) (r : string) (stored : list WorkerSlotModel.t) (w : WorkerTables.t)
    (c : WorkerSlotFence.t) (w' : WorkerTables.t) : Prop :=
  | AcquiredOwn cur s :
      s ∈ stored → WorkerSlotModel.physical_resource_id s = r → WorkerSlotModel.slot_number s < n →
      active_of (WorkerSlotModel.id s) (WorkerTables.worker_leases w) = Some cur →
      WorkerLeaseModel.task_attempt_id cur = att →
      WorkerLeaseModel.run_id cur = RunModel.id run → now < WorkerLeaseModel.expires_at cur →
      contract cur s = Ok c → WorkerTables.slots w' = stored →
      WorkerTables.worker_leases w' = WorkerTables.worker_leases w →
      acquired f ttl rev att new_lease n now run r stored w c w'
  | AcquiredFree s lease :
      s ∈ stored → WorkerSlotModel.physical_resource_id s = r → WorkerSlotModel.slot_number s < n →
      active_of (WorkerSlotModel.id s) (WorkerTables.worker_leases w) = None →
      lease = WorkerLeaseModel.Build_t new_lease (WorkerSlotModel.id s) rev (RunModel.id run) att
                (RunFence.owner f) (WorkerSlotModel.generation s + 1) (RunFence.generation f)
                now now (now + ttl) None →
      contract lease (WorkerSlotModel.bump s) = Ok c →
      WorkerTables.slots w' = alter_slot (WorkerSlotModel.id s) WorkerSlotModel.bump stored →
      WorkerTables.worker_leases w' = WorkerTables.worker_leases w ++ [lease] →
      insert_lease (WorkerTables.worker_leases w) lease
        = Ok (WorkerTables.worker_leases w ++ [lease]) →
      acquired f ttl rev att new_lease n now run r stored w c w'.

Lemma insert_lease_app ls l ls' : insert_lease ls l = Ok ls' → ls' = ls ++ [l].
Proof. unfold insert_lease. destruct (_ || _); [done|]. by intros [= <-]. Qed.

Lemma acquire_body_inv f ttl rev att spec ns nl now run d c d' :
  slots_ok (WorkerTables.slots (workers d)) (WorkerTables.worker_leases (workers d)) →
  acquire_body f ttl rev att spec ns nl now run d = Ok (c, d') →
  ∃ r new stored, stored = WorkerTables.slots (workers d) ++ new
    ∧ slots_ok stored (WorkerTables.worker_leases (workers d))
    ∧ leases d' = leases d ∧ runs d' = runs d ∧ WorkerSpec.valid spec = true
    ∧ acquired f ttl rev att nl (WorkerSpec.max_concurrency spec) now run r stored (workers d) c
        (workers d').
Proof.
  intros Hok. unfold acquire_body. intros ([cfg r] & Hres & Hb)%res_bind_ok. cbn [fst snd] in Hb.
  apply resource_of_ok in Hres as [Hr Hspec]. set (ss := WorkerTables.slots (workers d)) in *.
  set (ls := WorkerTables.worker_leases (workers d)) in *. set (n := WorkerSpec.max_concurrency spec) in *.
  set (new := missing_slots cfg r n ns (slots_of r ss)) in *.
  apply res_bind_ok in Hb as (stored & Hins & Hb).
  destruct (insert_slots_ok ss ls new stored Hok) as [-> Hok']; [|done|].
  { intros s (k & -> & _)%elem_of_missing. done. }
  exists r, new, (ss ++ new).
  pose proof (elem_of_candidates cfg r n ns ss) as Hin. fold new in Hin.
  cbn [WorkerTables.worker_leases WorkerTables.set_slots] in Hb. fold ls in Hb.
  pose proof (slot_scan_spec att (RunModel.id run) n now ls (slots_of r ss ++ new)) as Hscan.
  destruct (scan att (RunModel.id run) n now ls (slots_of r ss ++ new)) as [cur s|s|]; [| |done].
  - destruct Hscan as (Hs & Hn & Ha & Hatt & Hrun & Hexp). apply Hin in Hs as [Hs Hsr].
    apply res_bind_ok in Hb as (c' & Hc & [= -> <-]). split_and!; [done..|].
    by eapply AcquiredOwn.
  - destruct Hscan as (Hs & Hn & Ha). apply Hin in Hs as [Hs Hsr].
    apply res_bind_ok in Hb as (ls' & Hl & Hb).
    apply res_bind_ok in Hb as (c' & Hc & [= -> <-]).
    apply insert_lease_app in Hl as Hl'. subst ls'. split_and!; [done..|]. by eapply AcquiredFree.
Qed.

Lemma acquired_ok f ttl rev att nl n now run r stored w c w' :
  slots_ok stored (WorkerTables.worker_leases w) →
  acquired f ttl rev att nl n now run r stored w c w' →
  slots_ok (WorkerTables.slots w') (WorkerTables.worker_leases w').
Proof.
  intros Hok [cur s Hs _ _ Ha _ _ _ _ -> ->|s lease Hs _ _ Ha Hl _ -> -> Hi]; [done|].
  pose proof (bump_ok _ _ _ Hok Hs Ha) as Hok'.
  eapply (insert_lease_ok _ _ lease _ (WorkerSlotModel.bump s)); [done| |by subst lease..|done].
  apply elem_of_alter_slot. exists s. by rewrite bool_decide_true.
Qed.

(** ** Steps *)

(** The transactions on worker capacity, and all others. *)
Inductive wstep : db → db → Prop :=
  | w_acquire f ttl rev att spec ns nl now t now' d c d' :
      acquire f ttl rev att spec ns nl now t now' d = Ok (c, d') → wstep d d'
  | w_renew f ttl lease now t t' now' d d' :
      renew f ttl lease now t t' now' d = Ok (tt, d') → wstep d d'
  | w_release f lease b now t now' d d' :
      release f lease b now t now' d = Ok (tt, d') → wstep d d'
  | w_other d d' :
      WorkerTables.slots (workers d') = WorkerTables.slots (workers d) →
      WorkerTables.worker_leases (workers d') = WorkerTables.worker_leases (workers d) → wstep d d'.

Definition workers_ok (d : db) : Prop :=
  slots_ok (WorkerTables.slots (workers d)) (WorkerTables.worker_leases (workers d)).

Lemma get_lease_Some i ls l : get_lease i ls = Some l → l ∈ ls ∧ WorkerLeaseModel.id l = i.
Proof. apply find_key_Some. Qed.

Lemma require_ok f lease now d row :
  require f lease now d = Ok row →
  row ∈ WorkerTables.worker_leases (workers d) ∧ WorkerLeaseModel.id row = WorkerSlotFence.lease_id lease
  ∧ WorkerLeaseModel.run_id row = RunFence.run_id f
  ∧ WorkerLeaseModel.generation row = WorkerSlotFence.generation lease
  ∧ WorkerLeaseModel.released_at row = None ∧ now < WorkerLeaseModel.expires_at row
  ∧ ∃ s, s ∈ WorkerTables.slots (workers d) ∧ WorkerSlotModel.id s = WorkerLeaseModel.slot_id row
      ∧ WorkerSlotModel.generation s = WorkerSlotFence.generation lease
      ∧ WorkerSlotModel.slot_number s = WorkerSlotFence.slot lease
      ∧ (∀ r, WorkerSlotFence.physical_resource_id lease = Some r →
           WorkerSlotModel.physical_resource_id s = r).
Proof.
  unfold require. destruct (get_lease _ _) as [l|] eqn:Hl; [|done].
  destruct (get_slot _ _) as [s|] eqn:Hs; [|done].
  apply get_lease_Some in Hl as [Hl Hid]. apply find_key_Some in Hs as [Hs Hsid].
  destruct (_ || _) eqn:Hg; [done|]. intros [= <-].
  rewrite !orb_false_iff, !negb_false_iff, !bool_decide_eq_true, !Z.eqb_eq, active_spec,
    Z.leb_gt in Hg.
  destruct Hg as [[[[[[[? ?] ?] ?] ?] Hr] ?] ?]. split_and!; try done. exists s. split_and!; try done.
  intros r Hpr. rewrite Hpr in Hr. by apply negb_false_iff, bool_decide_eq_true in Hr.
Qed.

Lemma renew_inv f ttl lease now t t' now' d d' :
  renew f ttl lease now t t' now' d = Ok (tt, d') →
  ∃ row, require f lease t d = Ok row
    ∧ WorkerTables.slots (workers d') = WorkerTables.slots (workers d)
    ∧ WorkerTables.worker_leases (workers d') =
        alter_row (WorkerLeaseModel.id row) (WorkerLeaseModel.with_renewal t' (t' + ttl))
          (WorkerTables.worker_leases (workers d)).
Proof.
  intros Hr. apply fenced_ok in Hr as (run & l & _ & _ & _ & _ & _ & Hb).
  apply res_bind_ok in Hb as (row & Hq & [= <-]). by exists row.
Qed.

Lemma release_inv f lease b now t now' d d' :
  release f lease b now t now' d = Ok (tt, d') →
  b = true
  ∧ WorkerTables.slots (workers d') = WorkerTables.slots (workers d)
  ∧ ∃ row, row ∈ WorkerTables.worker_leases (workers d)
    ∧ WorkerLeaseModel.id row = WorkerSlotFence.lease_id lease
    ∧ (WorkerTables.worker_leases (workers d') =
         alter_row (WorkerLeaseModel.id row) (WorkerLeaseModel.with_release t)
           (WorkerTables.worker_leases (workers d))
       ∨ (WorkerLeaseModel.released_at row ≠ None ∧ d' = d)).
Proof.
  unfold release. intros (? & Hb%raise_if_ok & Hr)%res_bind_ok. apply negb_false_iff in Hb.
  split; [done|]. apply fenced_ok in Hr as (run & l & _ & _ & _ & _ & _ & Hbody).
  unfold release_body in Hbody. destruct (get_lease _ _) as [row|] eqn:Hl; [|done].
  apply get_lease_Some in Hl as [Hl Hid]. destruct (_ || _); [done|].
  destruct (active row) eqn:Ha; simpl in Hbody; injection Hbody as <-.
  - split; [done|]. exists row. split_and!; [done..|by left].
  - split; [done|]. exists row. split_and!; [done..|]. right. split; [|done].
    intros Hrel%active_spec. congruence.
Qed.

Lemma wstep_ok d d' : workers_ok d → wstep d d' → workers_ok d'.
Proof.
  intros Hok Hs. destruct Hs as [f ttl rev att spec ns nl now t now' d c d' Ha|
    f ttl lease now t t' now' d d' Hr|f lease b now t now' d d' Hr|d d' Hss Hls]; unfold workers_ok.
  - apply fenced_ok in Ha as (run & l & _ & _ & _ & _ & _ & Hb).
    destruct (acquire_body_inv _ _ _ _ _ _ _ _ _ _ _ _ Hok Hb)
      as (r & new & stored & _ & Hok' & _ & _ & _ & Hacq). by eapply acquired_ok.
  - destruct (renew_inv _ _ _ _ _ _ _ _ _ Hr) as (row & _ & -> & ->). by apply alter_row_ok.
  - destruct (release_inv _ _ _ _ _ _ _ _ Hr) as (_ & Hss & row & _ & _ & [Hls|[_ ->]]); [|done].
    rewrite Hss, Hls. by apply alter_row_ok.
  - by rewrite Hss, Hls.
Qed.
End acquisition.

(** ** Capacity *)

Lemma elem_of_occupied r w l s :
  (l, s) ∈ occupied r w ↔
  l ∈ WorkerTables.worker_leases w ∧ s ∈ WorkerTables.slots w
  ∧ WorkerSlotModel.id s = WorkerLeaseModel.slot_id l
  ∧ WorkerSlotModel.physical_resource_id s = r ∧ WorkerLeaseModel.released_at l = None.
Proof.
  unfold occupied, on_resource.
  rewrite list_elem_of_filter, list_elem_of_In, in_prod_iff, <-!list_elem_of_In. simpl.
  rewrite bool_decide_eq_true, active_spec. tauto.
Qed.

Lemma NoDup_filter_fmap {A B} (f : A → B) (P : A → Prop) `{∀ x, Decision (P x)} (l : list A) :
  NoDup l → (∀ x y, x ∈ l → y ∈ l → P x → P y → f x = f y → x = y) →
  NoDup (f <$> filter P l).
Proof.
  induction 1 as [|x l Hx Hnd IH]; intros Hinj; [constructor|].
  assert (NoDup (f <$> filter P l)) as IH'.
  { apply IH. intros. apply Hinj; [by right|by right|done..]. }
  rewrite filter_cons. destruct (decide (P x)) as [HP|HP]; [|done]. rewrite fmap_cons.
  constructor; [|done].
  intros (y & Hf & [HPy Hy]%list_elem_of_filter)%list_elem_of_fmap.
  apply Hinj in Hf as ->; [done|by left|by right|done..].
Qed.

Lemma NoDup_prod_list {A B} (l : list A) (k : list B) : NoDup l → NoDup k → NoDup (list_prod l k).
Proof.
  intros Hl Hk. induction Hl as [|x l Hx Hl IH]; simpl; [constructor|].
  apply NoDup_app. split_and!; [| |done].
  - change (List.map (λ y, (x, y)) k) with ((λ y, (x, y)) <$> k). by apply NoDup_fmap_2; [intros ?? [=]|].
  - intros [a b] Hab Hin. apply list_elem_of_In, in_map_iff in Hab as (y & [= <- _] & _).
    apply list_elem_of_In, in_prod_iff in Hin as [Hin%list_elem_of_In _]. done.
Qed.

Lemma occupied_numbers r w :
  slots_ok (WorkerTables.slots w) (WorkerTables.worker_leases w) →
  NoDup ((λ p, WorkerSlotModel.slot_number p.2) <$> occupied r w).
Proof.
  intros Hok. unfold occupied. apply NoDup_filter_fmap.
  - apply NoDup_prod_list; eapply NoDup_fmap_1; apply Hok.
  - intros [l s] [l' s'] Hp Hp'. unfold on_resource. simpl.
    rewrite !bool_decide_eq_true, !active_spec. intros (Hid & Hr & Ha) (Hid' & Hr' & Ha') Hn.
    rewrite list_elem_of_In, in_prod_iff, <-!list_elem_of_In in Hp, Hp'.
    destruct Hp as [Hl Hs], Hp' as [Hl' Hs'].
    assert (s = s') as <-.
    { apply (NoDup_fmap_elem_inj slot_key (WorkerTables.slots w)); [apply Hok|done..|].
      unfold slot_key. congruence. }
    f_equal. eapply active_unique; [done..|congruence|done|done].
Qed.

Lemma NoDup_Z_bound (l : list Z) (m : Z) :
  0 ≤ m → NoDup l → (∀ z, z ∈ l → 0 ≤ z < m) → Z.of_nat (length l) ≤ m.
Proof.
  intros Hm Hnd Hb. assert (length l ≤ length (seq 0 (Z.to_nat m)))%nat as Hle.
  { rewrite <-(length_map Z.of_nat). apply NoDup_incl_length; [by apply NoDup_ListNoDup|].
    intros z Hz%list_elem_of_In. apply in_map_iff. exists (Z.to_nat z). specialize (Hb z Hz).
    rewrite in_seq. lia. }
  rewrite length_seq in Hle. lia.
Qed.

Lemma NoDup_Z_cover (l : list Z) (m : Z) : (∀ z, 0 ≤ z < m → z ∈ l) → m ≤ Z.of_nat (length l).
Proof.
  intros Hc. assert (length (seq 0 (Z.to_nat m)) ≤ length l)%nat as Hle.
  { rewrite <-(length_map Z.of_nat (seq 0 (Z.to_nat m))). apply NoDup_incl_length.
    - apply NoDup_ListNoDup. apply (NoDup_fmap_2 Z.of_nat), NoDup_seq.
    - intros z (k & <- & Hk%in_seq)%in_map_iff. apply list_elem_of_In, Hc. lia. }
  rewrite length_seq in Hle. lia.
Qed.

(** ** Properties *)

Section properties.
Context `{WorkerSpecModelLaws}.

Lemma wsteps_ok d d' : workers_ok d → rtc wstep d d' → workers_ok d'.
Proof. intros Hok Hs. induction Hs as [d|d d1 d' Hs _ IH]; [done|]. by eapply IH, wstep_ok. Qed.

Lemma occupied_range r d k :
  workers_ok d → k ∈ (λ p, WorkerSlotModel.slot_number p.2) <$> occupied r (workers d) →
  0 ≤ k < 128.
Proof.
  intros Hok ([l s] & -> & Hp)%list_elem_of_fmap. apply elem_of_occupied in Hp as (_ & Hin & _).
  destruct (so_slots _ _ Hok s Hin) as [? _]. simpl. lia.
Qed.

Lemma slots_in_use_bound r d : workers_ok d → 0 ≤ slots_in_use r (workers d) ≤ 128.
Proof.
  intros Hok. split; [unfold slots_in_use; lia|]. unfold slots_in_use.
  rewrite <-(length_fmap (λ p, WorkerSlotModel.slot_number p.2)).
  apply NoDup_Z_bound; [done|by apply occupied_numbers|]. intros. by eapply occupied_range.
Qed.

(** C24. Worker capacity: after any sequence of acquisitions, renewals, releases and
other transactions the slot and lease tables are well formed (keys, at most one
unreleased lease per slot, at the slot's generation), a physical resource serves
each slot number at most once, so at most m invocations on its first m slots, and
the count of slots in use that the scheduler is given never exceeds 128. *)
Theorem capacity_bound d d' r m :
  workers_ok d → rtc wstep d d' → 0 ≤ m →
  let numbers := (λ p, WorkerSlotModel.slot_number p.2) <$> occupied r (workers d') in
  workers_ok d' ∧ NoDup numbers ∧ Z.of_nat (length (filter (λ k, k < m) numbers)) ≤ m
  ∧ slots_in_use r (workers d') ≤ 128.
Proof.
  intros Hok Hs Hm numbers. pose proof (wsteps_ok _ _ Hok Hs) as Hok'. split; [done|].
  pose proof (occupied_numbers r _ Hok') as Hnd. fold numbers in Hnd.
  split_and!; [done| |by apply slots_in_use_bound].
  apply NoDup_Z_bound; [done|by apply NoDup_filter|].
  intros z [Hz Hin]%list_elem_of_filter. pose proof (occupied_range r d' z Hok' Hin). lia.
Qed.

(** Mutual exclusion of workers: two slot fences that pass require on the same
reachable tables and name the same slot of the same physical resource are the same
lease, of the same run and generation. *)
Theorem slot_exclusive d0 d f f' c c' t t' row row' :
  workers_ok d0 → rtc wstep d0 d →
  require f c t d = Ok row → require f' c' t' d = Ok row' →
  WorkerSlotFence.physical_resource_id c = WorkerSlotFence.physical_resource_id c' →
  WorkerSlotFence.physical_resource_id c ≠ None →
  WorkerSlotFence.slot c = WorkerSlotFence.slot c' →
  row = row' ∧ RunFence.run_id f = RunFence.run_id f'
  ∧ WorkerSlotFence.lease_id c = WorkerSlotFence.lease_id c'
  ∧ WorkerSlotFence.generation c = WorkerSlotFence.generation c'.
Proof.
  intros Hok Hs Hr Hr' Hres Hsome Hslot. pose proof (wsteps_ok _ _ Hok Hs) as Hok'.
  apply require_ok in Hr as (Hin & Hid & Hrun & Hg & Hrel & _ & s & Hs1 & Hsid & _ & Hn & Hp).
  apply require_ok in Hr' as (Hin' & Hid' & Hrun' & Hg' & Hrel' & _ & s' & Hs1' & Hsid' & _ & Hn' & Hp').
  destruct (WorkerSlotFence.physical_resource_id c) as [r|] eqn:Hc; [|done].
  assert (s = s') as <-.
  { apply (NoDup_fmap_elem_inj slot_key (WorkerTables.slots (workers d))); [apply Hok'|done..|].
    unfold slot_key. rewrite (Hp r eq_refl), (Hp' r (eq_sym Hres)). congruence. }
  assert (row = row') as <- by (eapply active_unique; [exact Hok'|done|done|congruence|done|done]).
  split_and!; congruence.
Qed.

(** A lease that was released. *)
Definition released (i : uuid) (d : db) : Prop :=
  ∃ l, l ∈ WorkerTables.worker_leases (workers d) ∧ WorkerLeaseModel.id l = i
       ∧ WorkerLeaseModel.released_at l ≠ None.

Lemma released_alter i j f d d' :
  keeps_lease f →
  WorkerTables.worker_leases (workers d') = alter_row j f (WorkerTables.worker_leases (workers d)) →
  released i d → released i d'.
Proof.
  intros Hf Heq (l & Hl & Hi & Hr).
  exists (if bool_decide (WorkerLeaseModel.id l = j) then f l else l).
  rewrite Heq. split; [apply elem_of_alter_row; by exists l|]. destruct (Hf l) as (Hid & _ & _ & Hk).
  case_bool_decide; [|done]. split; [congruence|auto].
Qed.

Lemma wstep_released i d d' : workers_ok d → wstep d d' → released i d → released i d'.
Proof.
  intros Hok Hs. destruct Hs as [f ttl rev att spec ns nl now t now' d c d' Ha|
    f ttl lease now t t' now' d d' Hr|f lease b now t now' d d' Hr|d d' Hss Hls].
  - apply fenced_ok in Ha as (run & l & _ & _ & _ & _ & _ & Hb).
    destruct (acquire_body_inv _ _ _ _ _ _ _ _ _ _ _ _ Hok Hb)
      as (r & new & stored & _ & _ & _ & _ & _ & Hacq).
    intros (x & Hx & Hi & Hr). exists x. split_and!; [|done..].
    destruct Hacq as [cur s _ _ _ _ _ _ _ _ _ ->|s y _ _ _ _ _ _ _ -> _]; [done|set_solver].
  - destruct (renew_inv _ _ _ _ _ _ _ _ _ Hr) as (row & _ & _ & Hl).
    exact (released_alter i _ _ _ _ (keeps_renewal _ _) Hl).
  - destruct (release_inv _ _ _ _ _ _ _ _ Hr) as (_ & _ & row & _ & _ & [Hl|[_ ->]]); [|done].
    exact (released_alter i _ _ _ _ (keeps_released _) Hl).
  - intros (l & Hl & ?). exists l. by rewrite Hls.
Qed.

(** Once a lease has been released its fence never passes require again,
whatever acquisitions (including a new lease of the same slot), renewals, releases
and other transactions follow. *)
Theorem released_forever d d' c f t row :
  workers_ok d → released (WorkerSlotFence.lease_id c) d → rtc wstep d d' →
  require f c t d' ≠ Ok row.
Proof.
  intros Hok Hrel Hs Hq. pose proof (wsteps_ok _ _ Hok Hs) as Hok'.
  assert (released (WorkerSlotFence.lease_id c) d') as (l & Hl & Hid & Hr).
  { clear Hok' Hq. induction Hs as [|d d1 d' Hs _ IH]; [done|].
    apply IH; [by eapply wstep_ok|by eapply wstep_released]. }
  apply require_ok in Hq as (Hin & Hid' & _ & _ & Hn & _).
  assert (l = row) as ->; [|done].
  apply (NoDup_fmap_elem_inj WorkerLeaseModel.id (WorkerTables.worker_leases (workers d')));
    [apply Hok'|done|done|congruence].
Qed.

(** ** Acquisitions that return *)

Lemma contract_Ok l s :
  slot_ok s → 0 < WorkerLeaseModel.generation l → 0 < WorkerLeaseModel.run_generation l →
  ∃ c, contract l s = Ok c ∧ WorkerSlotFence.lease_id c = WorkerLeaseModel.id l
    ∧ WorkerSlotFence.worker_revision_id c = WorkerLeaseModel.worker_revision_id l
    ∧ WorkerSlotFence.slot c = WorkerSlotModel.slot_number s
    ∧ WorkerSlotFence.generation c = WorkerLeaseModel.generation l
    ∧ WorkerSlotFence.physical_resource_id c = Some (WorkerSlotModel.physical_resource_id s).
Proof.
  intros (Hn & _ & Hv) Hg Hrg. unfold contract.
  destruct (WorkerSlotFence.valid _) eqn:Hval; [by eexists|].
  apply not_true_iff_false in Hval as []. unfold WorkerSlotFence.valid, z_between. simpl.
  rewrite !andb_true_iff, !Z.leb_le, !Z.ltb_lt. split_and!; [lia..|done].
Qed.

(** An unreleased lease passes, for its run, until it expires. *)
Lemma require_active d f l s c t :
  workers_ok d → l ∈ WorkerTables.worker_leases (workers d) → s ∈ WorkerTables.slots (workers d) →
  WorkerSlotModel.id s = WorkerLeaseModel.slot_id l → WorkerLeaseModel.released_at l = None →
  WorkerLeaseModel.run_id l = RunFence.run_id f → contract l s = Ok c →
  t < WorkerLeaseModel.expires_at l → require f c t d = Ok l.
Proof.
  intros Hok Hl Hs Hid Hr Hrun Hc Ht. unfold contract in Hc.
  destruct (WorkerSlotFence.valid _); [|done]. injection Hc as <-. unfold require, get_lease. simpl.
  rewrite (find_key_elem WorkerLeaseModel.id _ l); [|apply Hok|done]. rewrite <-Hid.
  unfold get_slot. rewrite (find_key_elem WorkerSlotModel.id _ s); [|apply Hok|done].
  destruct (so_backed _ _ Hok l Hl) as (_ & _ & s' & Hs' & Hid' & _ & Hg).
  assert (s' = s) as ->.
  { apply (NoDup_fmap_elem_inj WorkerSlotModel.id (WorkerTables.slots (workers d)));
      [apply Hok|done|done|congruence]. }
  rewrite (Hg Hr), !Z.eqb_refl, !bool_decide_true by done.
  rewrite (proj2 (active_spec l) Hr), (proj2 (Z.leb_gt _ _) Ht). done.
Qed.

Lemma full_occupied d stored cfg r n ns att run now :
  workers_ok d → slots_ok stored (WorkerTables.worker_leases (workers d)) →
  stored = WorkerTables.slots (workers d)
           ++ missing_slots cfg r n ns (slots_of r (WorkerTables.slots (workers d))) →
  scan att run n now (WorkerTables.worker_leases (workers d))
    (slots_of r (WorkerTables.slots (workers d))
     ++ missing_slots cfg r n ns (slots_of r (WorkerTables.slots (workers d)))) = Full →
  n ≤ slots_in_use r (workers d).
Proof.
  intros Hok Hok' Hstored Hscan. set (ss := WorkerTables.slots (workers d)) in *.
  set (ls := WorkerTables.worker_leases (workers d)) in *.
  pose proof (slot_scan_spec att run n now ls
    (slots_of r ss ++ missing_slots cfg r n ns (slots_of r ss))) as Hs.
  rewrite Hscan in Hs. unfold slots_in_use.
  rewrite <-(length_fmap (λ p, WorkerSlotModel.slot_number p.2)). apply NoDup_Z_cover.
  intros k Hk. destruct (slot_exists cfg r n ns ss k Hk) as (s & Hin & Hn & Hr).
  destruct (Hs s Hin ltac:(lia)) as (c & Hc & _).
  apply active_of_Some in Hc as (Hcl & Hsid & Hrel).
  destruct (so_backed _ _ Hok c Hcl) as (_ & _ & s' & Hs' & Hid' & _).
  assert (s' = s) as ->.
  { apply (NoDup_fmap_elem_inj WorkerSlotModel.id stored); [apply Hok'| | |congruence].
    - rewrite Hstored. apply elem_of_app. by left.
    - rewrite Hstored. apply elem_of_app in Hin as [Hin|Hin]; apply elem_of_app; [left|by right].
      by apply elem_of_slots_of in Hin as [? _]. }
  apply list_elem_of_fmap. exists (c, s). split; [done|]. by apply elem_of_occupied.
Qed.

(** No constraint stands against the next generation of a free slot. *)
Lemma insert_lease_fresh ss ls s l :
  slots_ok ss ls → s ∈ ss → active_of (WorkerSlotModel.id s) ls = None →
  (∀ x, x ∈ ls → WorkerLeaseModel.id x ≠ WorkerLeaseModel.id l) →
  WorkerLeaseModel.slot_id l = WorkerSlotModel.id s →
  WorkerLeaseModel.generation l = WorkerSlotModel.generation s + 1 →
  0 < WorkerLeaseModel.run_generation l → insert_lease ls l = Ok (ls ++ [l]).
Proof.
  intros Hok Hs Hfree Hid Hsl Hg Hrg. unfold insert_lease.
  assert (lease_conflict l ls = false) as ->; cycle 1.
  - destruct (so_slots _ _ Hok s Hs) as (_ & Hg0 & _). unfold lease_checks.
    rewrite (proj2 (Z.ltb_lt _ _) Hrg), (proj2 (Z.ltb_lt 0 (WorkerLeaseModel.generation l)));
      [done|lia].
  - apply existsb_false. intros x Hx. rewrite bool_decide_false by auto. simpl.
    destruct (bool_decide_reflect (WorkerLeaseModel.slot_id x = WorkerLeaseModel.slot_id l))
      as [He|]; [simpl|done].
    destruct (so_backed _ _ Hok x Hx) as (_ & _ & s' & Hs' & Hid' & Hle & _).
    assert (s' = s) as ->.
    { apply (NoDup_fmap_elem_inj WorkerSlotModel.id ss); [apply Hok|done|done|congruence]. }
    rewrite (proj2 (Z.eqb_neq _ _)) by lia. simpl.
    destruct (active x) eqn:Ha; [|done]. apply active_spec in Ha.
    by eapply active_of_None in Ha; [|exact Hfree|exact Hx|congruence].
Qed.

(** An acquisition whose identity checks pass and whose new rows violate no
constraint returns a slot below the worker's concurrency on its resource, with a
fence that passes require until the lease expires; the only other outcome is the
capacity error, and then at least as many slots as the worker's concurrency are in
use on the resource. *)
Theorem acquire_returns f ttl rev att spec ns nl now run d cfg r stored :
  workers_ok d → 0 < RunFence.generation f → RunModel.id run = RunFence.run_id f →
  resource_of rev att spec run (workers d) = Ok (cfg, r) →
  foldM insert_slot (WorkerTables.slots (workers d))
    (missing_slots cfg r (WorkerSpec.max_concurrency spec) ns
       (slots_of r (WorkerTables.slots (workers d)))) = Ok stored →
  (∀ l, l ∈ WorkerTables.worker_leases (workers d) → WorkerLeaseModel.id l ≠ nl) →
  (acquire_body f ttl rev att spec ns nl now run d = Err capacity_unavailable
   ∧ WorkerSpec.max_concurrency spec ≤ slots_in_use r (workers d))
  ∨ ∃ c d' l, acquire_body f ttl rev att spec ns nl now run d = Ok (c, d')
      ∧ WorkerSlotFence.physical_resource_id c = Some r
      ∧ WorkerSlotFence.slot c < WorkerSpec.max_concurrency spec
      ∧ WorkerLeaseModel.task_attempt_id l = att
      ∧ ∀ t, t < WorkerLeaseModel.expires_at l → require f c t d' = Ok l.
Proof.
  intros Hok Hf Hrun Hres Hins Hfresh. unfold acquire_body. rewrite Hres, bind_Ok.
  cbn [fst snd]. rewrite Hins, bind_Ok.
  pose proof (resource_of_ok _ _ _ _ _ _ _ Hres) as [Hv _].
  set (n := WorkerSpec.max_concurrency spec) in *. set (ss := WorkerTables.slots (workers d)) in *.
  set (new := missing_slots cfg r n ns (slots_of r ss)) in *.
  destruct (insert_slots_ok ss _ new stored Hok) as [Hst Hok']; [|done|].
  { intros s (k & -> & _)%elem_of_missing. done. }
  pose proof (elem_of_candidates cfg r n ns ss) as Hin. fold new in Hin. rewrite <-Hst in Hin.
  cbn [WorkerTables.worker_leases WorkerTables.set_slots].
  set (ls := WorkerTables.worker_leases (workers d)) in *.
  pose proof (slot_scan_spec att (RunModel.id run) n now ls (slots_of r ss ++ new)) as Hscan.
  destruct (scan att (RunModel.id run) n now ls (slots_of r ss ++ new)) as [cur s|s|] eqn:Hsc.
  - right. destruct Hscan as (Hs & Hn & Ha & Hatt & Hcr & Hexp). apply Hin in Hs as [Hs Hsr].
    apply active_of_Some in Ha as (Hcl & Hcs & Hrel).
    destruct (so_backed _ _ Hok' cur Hcl) as (Hg & Hrg & _).
    destruct (contract_Ok cur s (so_slots _ _ Hok' s Hs) Hg Hrg) as (c & Hc & _ & _ & Hcn & _ & Hcp).
    exists c, (set_workers (WorkerTables.set_slots stored (workers d)) d), cur.
    rewrite Hc, Hcn, Hcp, Hsr. split_and!; [done..|]. intros t Ht.
    apply (require_active _ _ _ s); [exact Hok'|done..|congruence|done|done].
  - right. destruct Hscan as (Hs & Hn & Ha). apply Hin in Hs as [Hs Hsr].
    set (lease := WorkerLeaseModel.Build_t _ _ _ _ _ _ _ _ _ _ _ _).
    assert (insert_lease ls lease = Ok (ls ++ [lease])) as Hl
      by (by apply (insert_lease_fresh stored ls s)).
    pose proof (so_slots _ _ Hok' s Hs) as Hsok.
    assert (slot_ok (WorkerSlotModel.bump s)) as Hsok'.
    { destruct Hsok as (? & ? & ?). unfold slot_ok. simpl. split_and!; [lia..|done]. }
    destruct (contract_Ok lease (WorkerSlotModel.bump s) Hsok')
      as (c & Hc & _ & _ & Hcn & _ & Hcp); [destruct Hsok as (? & ? & ?); simpl; lia|done|].
    rewrite Hl, bind_Ok, Hc, bind_Ok. eexists c, _, lease. split; [reflexivity|].
    rewrite Hcn, Hcp. simpl. rewrite Hsr. split_and!; [done..|]. intros t Ht.
    assert (slots_ok (alter_slot (WorkerSlotModel.id s) WorkerSlotModel.bump stored) (ls ++ [lease]))
      as Hok2.
    { eapply (insert_lease_ok _ ls lease _ (WorkerSlotModel.bump s)); [by apply bump_ok| |done..].
      apply elem_of_alter_slot. exists s. by rewrite bool_decide_true. }
    apply (require_active _ _ _ (WorkerSlotModel.bump s)); [exact Hok2| | |done|done|done|done|done].
    + simpl. set_solver.
    + simpl. apply elem_of_alter_slot. exists s. by rewrite bool_decide_true.
  - left. split; [done|]. by eapply full_occupied.
Qed.


(** ** Moved workers *)

Lemma insert_slots_conflict ss new s :
  s ∈ new → slot_conflict s ss = true → foldM insert_slot ss new = Err integrity_error.
Proof.
  revert ss. induction new as [|x new IH]; intros ss; [by intros ?%elem_of_nil|].
  intros Hin Hc. simpl. destruct (insert_slot ss x) as [ss'|e] eqn:Hi; unfold insert_slot in Hi;
    destruct (slot_conflict x ss || negb (slot_checks x)) eqn:Hx; try discriminate Hi.
  2: by injection Hi as <-.
  injection Hi as <-.
  rewrite bind_Ok.
  apply elem_of_cons in Hin as [->|Hin]; [by rewrite Hc in Hx|].
  apply IH; [done|]. unfold slot_conflict in *. rewrite existsb_app, Hc. done.
Qed.

(** A worker whose configuration owns slot k on another physical resource
cannot acquire on a resource that has no slot k: every acquisition of the moved
revision fails with a violated unique constraint (worker_id, slot_number) instead of
the capacity error the callers handle. *)
Theorem moved_worker_blocked f ttl rev att spec ns nl now run d cfg r s :
  resource_of rev att spec run (workers d) = Ok (cfg, r) →
  s ∈ WorkerTables.slots (workers d) → WorkerSlotModel.worker_id s = cfg →
  0 ≤ WorkerSlotModel.slot_number s < WorkerSpec.max_concurrency spec →
  (∀ x, x ∈ WorkerTables.slots (workers d) → WorkerSlotModel.physical_resource_id x = r →
     WorkerSlotModel.slot_number x ≠ WorkerSlotModel.slot_number s) →
  acquire_body f ttl rev att spec ns nl now run d = Err integrity_error.
Proof.
  intros Hres Hs Hw Hn Hno. unfold acquire_body. rewrite Hres, bind_Ok. cbn [fst snd].
  set (k := WorkerSlotModel.slot_number s) in *.
  rewrite (insert_slots_conflict _ _ (WorkerSlotModel.Build_t (ns k) cfg r k 0)); [done|..].
  - apply elem_of_missing. exists k. split_and!; [done|lia..|].
    intros x [Hx Hxr]%elem_of_slots_of. by apply Hno.
  - apply existsb_exists. exists s. split; [by apply list_elem_of_In|]. simpl.
    rewrite (bool_decide_true (WorkerSlotModel.worker_id s = cfg)) by done.
    unfold k. rewrite Z.eqb_refl. simpl. by rewrite orb_true_r.
Qed.
End properties.
