(* ===== verification/Effects.v ===== *)
(** * The effect ledger

[EffectLedger] of [orchestrator/app/jarvis_orchestrator/runtime/effects.py] and
[EffectRepository] of [packages/persistence/src/jarvis_persistence/repositories.py]:
the prepare / reconcile / dispatch / commit protocol of external nodes.

[handler] and [cancel_pending] suspend at every [await].  A suspended call is a
program point ([pc], [cpc]) with the local variables that are still read; a
transaction ([handler_tx], [cancel_tx]) or an answer of the adapter
([handler_adapter], [cancel_adapter]) takes it to the next one.  Adapters are
external: each answer is an argument.  [RecursiveRedactor] is the parameter
[Redactor]; the fault hooks, which do nothing in production, are left out. *)
From S2P Require Import Prelude Enums PyJson PyDecimal Failures Verification Registry.
From S2P Require Import WorkflowSpec Normalize RawValidation State NodeFactory Validate Database.
From S2P Require Import Ownership Commands Routing ModelSelection.
From stdpp Require Import gmap.
Local Open Scope Z_scope.
Local Open Scope stdpp_scope.

Class Redactor := redact : jobj → jobj.
(** [uuid.UUID(text)]: [None] when it raises. *)
Class UuidFormat := uuid_of : string → option uuid.

Definition cooperative_cancel : own_error := ApplicationError "CooperativeCancelError".
Definition ambiguous (message : string) : own_error :=
  ApplicationError ("AmbiguousEffectError: " +:+ message).
Definition idempotency_conflict : own_error := ApplicationError "IdempotencyConflictError".

Module ObservedStatus.
Inductive t : Set := absent | running | succeeded | cancelled | unknown.
End ObservedStatus.
#[export] Instance ObservedStatus_eq_dec : EqDecision ObservedStatus.t.
Proof. solve_decision. Defined.

Module EffectObservation.
Record t := { status : ObservedStatus.t; result : option jobj }.
End EffectObservation.

(** How a call ends. *)
Inductive outcome :=
  | Returned (result : option jobj)
  | Raised (error : own_error).

(** ** [EffectRepository.prepare] *)

Definition effect_is (run_id : uuid) (key : string) (e : EffectModel.t) : bool :=
  bool_decide (EffectModel.run_id e = run_id) && bool_decide (EffectModel.idempotency_key e = key).

Definition find_effect (run_id : uuid) (key : string) (d : db) : option EffectModel.t :=
  head (filter (λ e, effect_is run_id key e = true) (map_to_list (effects d)).*2).

(** [fresh] is the [uuid7()] of a new row; [INSERT] checks the primary key and the
sign of the generation. *)
Definition prepare (run_id : uuid) (kind key digest : string) (request : jobj) (generation : Z)
    (fresh : uuid) (d : db) : res own_error (EffectModel.t * bool * db) :=
  match runs d !! run_id with
  | None => Err RunMissing
  | Some _ =>
      match find_effect run_id key d with
      | Some existing =>
          if bool_decide (EffectModel.request_digest existing = digest)
          then Ok (existing, false, d) else Err idempotency_conflict
      | None =>
          if bool_decide (is_Some (effects d !! fresh)) || Z.leb generation 0
          then Err integrity_error
          else
            let row := EffectModel.Build_t fresh run_id None kind key digest request
                         EffectStatus.PREPARED generation None None None None in
            Ok (row, true, put_effect row d)
      end
  end.

(** The clock readings and the identifier that a transaction uses. *)
Record readings := {
  t_now : Z;
  t_exit : Z;
  t_select : Z;
  t_dispatched : Z;
  t_completed : Z;
  t_fresh : uuid;
}.

(** What [handler] adds to the adapter's configuration. *)
Module DispatchConfig.
Record t := {
  runtime_instructions : json;
  runtime_model_profile_revision_id : json;
  runtime_provider_revision_id : json;
}.
End DispatchConfig.

(** [effect.request_json.get(...)] *)
Definition dispatch_config (request : jobj) : DispatchConfig.t := {|
  DispatchConfig.runtime_instructions := default (JArr []) (dict_get "instructions" request);
  DispatchConfig.runtime_model_profile_revision_id :=
    default JNull (dict_get "model_profile_revision_id" request);
  DispatchConfig.runtime_provider_revision_id :=
    default JNull (dict_get "provider_revision_id" request);
|}.

(** [str] of an optional UUID *)
Definition optional_str (u : option uuid) : string :=
  match u with Some u => uuid_str u | None => "None" end.

Definition as_object (j : json) : jobj := match j with JObj o => o | _ => [] end.

(** [select(NodeExecutionModel.id).where(...)], the first row. *)
Definition execution_of (run_id : uuid) (execution : string) (d : db) : option uuid :=
  NodeExecutionModel.id <$>
    head (filter (λ n, NodeExecutionModel.run_id n = run_id
                       ∧ NodeExecutionModel.input_summary n = Some execution) (node_executions d)).

Section ledger.
Context `{PyRuntime} `{PyStr} `{Redactor} `{UuidFormat}
  `{ModelDump WorkflowNode.t} `{ModelDump RoutePreviewRequest.t} `{ModelDump RegistryRecord.t}
  `{ModelDump RouteEvaluationData.t}.

(** ** The first transaction of [handler] *)

Definition effect_digest (context : NodeContext.t) (state : WorkflowStateV1.t) : string :=
  sha256_digest (JObj [("node", model_dump (NodeContext.node context));
                       ("state", JObj (WorkflowStateV1.mapping state))]).

Definition instructions_for (context : NodeContext.t) (run : RunModel.t)
    : res own_error (list json) :=
  if NodePolicy.accepts_runtime_instructions (NodeContext.policy context)
     && bool_decide (WorkflowNodeType.value (WorkflowNode.type (NodeContext.node context))
                     ∈ ["organizer"; "architect"; "worker"])
  then match instructions_of run with Ok l => Ok l | Err _ => Err (python_error "TypeError") end
  else Ok [].

(** [tuple(UUID(value) for value in ...)] *)
Definition uuid_values (l : list json) : res own_error (list uuid) :=
  mapM (λ j, match j with
             | JStr s => match uuid_of s with
                         | Some u => Ok u
                         | None => Err (python_error "ValueError")
                         end
             | JNull => Err (python_error "TypeError")
             | _ => Err (python_error "AttributeError")
             end) l.

(** The same over what a [for] loop makes of [j]: a dictionary yields its keys, and
no character is a UUID. *)
Definition iterated_uuids (j : json) : res own_error (list uuid) :=
  match j with
  | JArr l => uuid_values l
  | JObj o => uuid_values (JStr <$> o.*1)
  | JStr s => if String.eqb s "" then Ok [] else Err (python_error "ValueError")
  | _ => Err (python_error "TypeError")
  end.

(** The failed profiles and the failure class that [run_json] notes for a node. *)
Definition model_failure (node : string) (run : RunModel.t)
    : res own_error (list uuid * option FailureClass.t) :=
  match default (JObj []) (dict_get "model_failures" (RunModel.runtime_json run)) with
  | JObj failures =>
      match default (JObj []) (dict_get node failures) with
      | JObj [] => Ok ([], None)
      | JObj failed =>
          profiles ← iterated_uuids (default (JArr []) (dict_get "profiles" failed));
          match dict_get "failure_class" failed with
          | Some (JStr s) =>
              match enum_of_value s with
              | Some c => Ok (profiles, Some c)
              | None => Err (python_error "ValueError")
              end
          | Some _ => Err (python_error "ValueError")
          | None => Err (python_error "KeyError")
          end
      | _ => Err (python_error "AttributeError")
      end
  | _ => Err (python_error "AttributeError")
  end.

(** The model route: the request of the effect with the selection, and the event. *)
Definition route_effect (context : NodeContext.t) (now : Z) (run : RunModel.t) (request : jobj)
    (d : db) : res own_error (jobj * db) :=
  match NodePolicy.model_route_ref (NodeContext.policy context) with
  | None => Ok (request, d)
  | Some _ =>
      failed ← model_failure (node_id (NodeContext.node context)) run;
      match select_model context failed.1 failed.2 now with
      | Err _ => Err (python_error "KeyError")
      | Ok e =>
          let resolution := RouteEvaluationData.resolution e in
          if bool_decide (RouteResolution.decision resolution = Decision3.allow) then
            Ok (dict_update request
                  [("model_profile_revision_id",
                     JStr (optional_str (RouteResolution.selected_profile_revision_id resolution)));
                   ("provider_revision_id",
                     JStr (optional_str (RouteResolution.selected_provider_revision_id resolution)))],
                event run "model.route_selected" (as_object (model_dump e)) d)
          else Err (ambiguous "Immutable model route has no permitted candidate")
      end
  end.

(** [item["command_id"]] *)
Definition command_id_of (item : json) : res own_error json :=
  match item with
  | JObj o => match dict_get "command_id" o with
              | Some v => Ok v
              | None => Err (python_error "KeyError")
              end
  | _ => Err (python_error "TypeError")
  end.

(** The run's instructions go to this effect. *)
Definition consume (instructions : list json) (execution : option uuid) (run : RunModel.t) (d : db)
    : res own_error (RunModel.t * db) :=
  if bool_decide (instructions = []) then Ok (run, d)
  else
    let run := RunModel.with_runtime
                 (dict_update (RunModel.runtime_json run) [("instructions", JArr [])]) run in
    ids ← mapM command_id_of instructions;
    Ok (run, event run "instruction.applied"
               [("node_execution_id", JStr (optional_str execution));
                ("count", JInt (Z.of_nat (length instructions))); ("command_ids", JArr ids)]
               (put_run run d)).

(** The branch [if fresh]: the completed row. *)
Definition complete_effect (context : NodeContext.t) (now : Z) (run : RunModel.t)
    (row : EffectModel.t) (d : db) : res own_error (EffectModel.t * db) :=
  let execution := execution_of (RunModel.id run) (NodeContext.execution_id context) d in
  instructions ← instructions_for context run;
  routed ← route_effect context now run
             [("node", JStr (node_id (NodeContext.node context)));
              ("instructions", JArr instructions)] d;
  let row := EffectModel.with_request execution routed.1 row in
  consumed ← consume instructions execution run (put_effect row routed.2);
  Ok (row, event consumed.1 "effect.prepared"
             [("effect_id", JStr (uuid_str (EffectModel.id row)));
              ("instruction_count", JInt (Z.of_nat (length instructions)))] consumed.2).

(** What the transaction leads to: the stored result of an earlier execution, or
the protocol with the adapter. *)
Inductive prepared :=
  | Replay (result : option jobj)
  | Proceed (effect_id : uuid) (dispatched : bool) (config : DispatchConfig.t).

Definition prepare_body (fence : RunFence.t) (context : NodeContext.t) (state : WorkflowStateV1.t)
    (t : readings) (run : RunModel.t) (d : db) : res own_error (prepared * db) :=
  found ← prepare (RunFence.run_id fence)
            (WorkflowNodeType.value (WorkflowNode.type (NodeContext.node context)))
            (NodeContext.execution_id context) (effect_digest context state)
            [("node", JStr (node_id (NodeContext.node context)))] (RunFence.generation fence)
            (t_fresh t) d;
  let '(effect, fresh, d) := found in
  completed ← if (fresh : bool) then complete_effect context (t_select t) run effect d
              else Ok (effect, d);
  let '(effect, d) := completed in
  match EffectModel.status effect with
  | EffectStatus.SUCCEEDED => Ok (Replay (EffectModel.result_json effect), d)
  | EffectStatus.CANCELLED => Err cooperative_cancel
  | s =>
      Ok (Proceed (EffectModel.id effect) (negb (bool_decide (s = EffectStatus.PREPARED)))
            (dispatch_config (EffectModel.request_json effect)),
          put_effect (EffectModel.with_generation (RunFence.generation fence) effect) d)
  end.

(** ** [_record] *)

(** The result tells whether the run was cancelled meanwhile. *)
Definition record_body (fence : RunFence.t) (effect_id : uuid) (status : EffectStatus.t)
    (identity : option string) (result : option jobj) (t : readings) (run : RunModel.t) (d : db)
    : res own_error (bool * db) :=
  match effects d !! effect_id with
  | None => Err (python_error "AssertionError")
  | Some row =>
      let cancelled := bool_decide (status ∈ [EffectStatus.SUCCEEDED; EffectStatus.DISPATCHED])
                       && bool_decide (RunModel.desired_state run = DesiredRunState.CANCELLED) in
      let status := if cancelled then EffectStatus.CANCELLED else status in
      let result := if cancelled then None else result in
      let row := EffectModel.with_status status row in
      let row := match identity with
                 | Some i => EffectModel.with_dispatch i (t_dispatched t) row
                 | None => row
                 end in
      let row := match result with Some r => EffectModel.with_result r row | None => row end in
      let row := if bool_decide (status ∈ [EffectStatus.SUCCEEDED; EffectStatus.CANCELLED;
                                           EffectStatus.UNKNOWN])
                 then EffectModel.with_completion (t_completed t) row else row in
      Ok (cancelled,
          event run ("effect." +:+ EffectStatus.value status)
            [("effect_id", JStr (uuid_str (EffectModel.id row)));
             ("generation", JInt (RunFence.generation fence))] (put_effect row d))
  end.

Definition _record (fence : RunFence.t) (effect_id : uuid) (status : EffectStatus.t)
    (identity : option string) (result : option jobj) (t : readings) (d : db)
    : res own_error (bool * db) :=
  fenced fence (t_now t) (t_exit t) (record_body fence effect_id status identity result t) d.

(** The transaction of the loop: it tells whether cancellation was requested. *)
Definition poll_body (effect_id : uuid) (run : RunModel.t) (d : db) : res own_error (bool * db) :=
  match effects d !! effect_id with
  | None => Err (python_error "AssertionError")
  | Some current =>
      let cancel := bool_decide (RunModel.desired_state run = DesiredRunState.CANCELLED) in
      Ok (cancel,
          if cancel && negb (bool_decide (EffectModel.status current
                                          = EffectStatus.CANCEL_REQUESTED))
          then put_effect (EffectModel.with_status EffectStatus.CANCEL_REQUESTED current) d else d)
  end.

(** ** [handler] *)

(** The arguments of a call that do not change. *)
Record call := {
  c_fence : RunFence.t;
  c_context : NodeContext.t;
  c_state : WorkflowStateV1.t;
  c_idempotent : bool;
}.

Definition identity_of_call (c : call) : string :=
  uuid_str (RunFence.run_id (c_fence c)) +:+ ":" +:+ NodeContext.execution_id (c_context c).

Inductive pc :=
  | PPrepare
  | PInspect (e : uuid) (dispatched : bool) (config : DispatchConfig.t)
  | PIntent (e : uuid) (config : DispatchConfig.t)
  | PDispatch (e : uuid) (config : DispatchConfig.t)
  | PPoll (e : uuid)
  | PCancel (e : uuid)
  | PObserve (e : uuid) (cancel : bool)
  | PSettle (e : uuid) (status : EffectStatus.t) (result : option jobj) (next : outcome)
  | PSleep (e : uuid)
  | PDone (o : outcome).

(** A call whose transaction failed. *)
Definition raised (d : db) (e : own_error) : pc * db := (PDone (Raised e), d).

(** The next program point after a transaction, where the call is at one. *)
Definition handler_tx (c : call) (t : readings) (p : pc) (d : db) : option (pc * db) :=
  match p with
  | PPrepare =>
      Some match fenced (c_fence c) (t_now t) (t_exit t)
                   (prepare_body (c_fence c) (c_context c) (c_state c) t) d with
           | Ok (Replay r, d') => (PDone (Returned r), d')
           | Ok (Proceed e dispatched config, d') => (PInspect e dispatched config, d')
           | Err x => raised d x
           end
  | PIntent e config =>
      Some match _record (c_fence c) e EffectStatus.DISPATCHED (Some (identity_of_call c)) None t d
           with
           | Ok (true, d') => (PDone (Raised cooperative_cancel), d')
           | Ok (false, d') => (PDispatch e config, d')
           | Err x => raised d x
           end
  | PPoll e =>
      Some match fenced (c_fence c) (t_now t) (t_exit t) (poll_body e) d with
           | Ok (true, d') => (PCancel e, d')
           | Ok (false, d') => (PObserve e false, d')
           | Err x => raised d x
           end
  | PSettle e status result next =>
      Some match _record (c_fence c) e status None result t d with
           | Ok (true, d') => (PDone (Raised cooperative_cancel), d')
           | Ok (false, d') => (PDone next, d')
           | Err x => raised d x
           end
  | _ => None
  end.

(** [set(NODE_DEFINITIONS[...].outputs) | {"node", "outcome"}] *)
Definition allowed_outputs (c : call) : list string :=
  NodeDefinition.outputs (NODE_DEFINITIONS (WorkflowNode.type (NodeContext.node (c_context c))))
  ++ ["node"; "outcome"].

Definition valid_result (c : call) (result : jobj) : bool :=
  forallb (λ k, bool_decide (k ∈ allowed_outputs c)) result.*1
  && Z.leb (Z.of_nat (String.length (canonical_json (JObj result)))) 32768.

(** An observation after the dispatch. *)
Definition observe (c : call) (e : uuid) (cancel : bool) (o : EffectObservation.t) : pc :=
  match EffectObservation.status o with
  | ObservedStatus.succeeded =>
      if cancel then PSettle e EffectStatus.CANCELLED None (Raised cooperative_cancel)
      else
        match EffectObservation.result o with
        | None => PDone (Raised (ambiguous "Successful effect has no validated result"))
        | Some result =>
            if valid_result c result
            then PSettle e EffectStatus.SUCCEEDED (Some (redact result))
                   (Returned (Some (redact result)))
            else PDone (Raised (ambiguous "Adapter returned an invalid or oversized result"))
        end
  | ObservedStatus.cancelled =>
      PSettle e EffectStatus.CANCELLED None (Raised cooperative_cancel)
  | ObservedStatus.unknown | ObservedStatus.absent =>
      PSettle e EffectStatus.UNKNOWN None
        (Raised (ambiguous "Dispatched effect cannot be reconciled"))
  | ObservedStatus.running => PSleep e
  end.

(** The first observation. *)
Definition reconcile (c : call) (e : uuid) (dispatched : bool) (config : DispatchConfig.t)
    (o : EffectObservation.t) : pc :=
  match EffectObservation.status o with
  | ObservedStatus.unknown =>
      PSettle e EffectStatus.UNKNOWN None
        (Raised (ambiguous "External outcome requires reconciliation"))
  | ObservedStatus.absent =>
      if dispatched && negb (c_idempotent c)
      then PSettle e EffectStatus.UNKNOWN None
             (Raised (ambiguous "External outcome requires reconciliation"))
      else PIntent e config
  | _ => PPoll e
  end.

(** The next program point after the adapter (or the sleep) has answered. *)
Definition handler_adapter (c : call) (o : EffectObservation.t) (p : pc) : option pc :=
  match p with
  | PInspect e dispatched config => Some (reconcile c e dispatched config o)
  | PDispatch e _ => Some (PPoll e)
  | PCancel e => Some (PObserve e true)
  | PObserve e cancel => Some (observe c e cancel o)
  | PSleep e => Some (PPoll e)
  | _ => None
  end.

(** ** [cancel_pending] *)

Inductive cpc :=
  | CList
  | CSettle (e : EffectModel.t) (rest : list EffectModel.t)
  | CRequest (e : EffectModel.t) (rest : list EffectModel.t)
  | CCancel (e : EffectModel.t) (rest : list EffectModel.t)
  | CInspect (e : EffectModel.t) (rest : list EffectModel.t)
  | CUnknown (e : EffectModel.t)
  | CSleep (e : EffectModel.t) (rest : list EffectModel.t)
  | CDone (o : outcome).

Definition pending_statuses : list EffectStatus.t :=
  [EffectStatus.PREPARED; EffectStatus.DISPATCHED; EffectStatus.RUNNING;
   EffectStatus.CANCEL_REQUESTED].

Definition pending_effects (run_id : uuid) (d : db) : list EffectModel.t :=
  filter (λ e, EffectModel.run_id e = run_id ∧ EffectModel.status e ∈ pending_statuses)
    (map_to_list (effects d)).*2.

(** The head of the [for] loop; [adapters] are the nodes with an adapter. *)
Definition cancel_next (adapters : gset string) (es : list EffectModel.t) : cpc :=
  match es with
  | [] => CDone (Returned None)
  | e :: rest =>
      match EffectModel.external_id e with
      | None => CSettle e rest
      | Some _ =>
          if bool_decide (py_str (default JNull (dict_get "node" (EffectModel.request_json e)))
                          ∈ adapters)
          then CRequest e rest
          else CDone (Raised (ambiguous "Cancellation requires the original adapter"))
      end
  end.

Definition cancel_tx (fence : RunFence.t) (adapters : gset string) (t : readings) (p : cpc) (d : db)
    : option (cpc * db) :=
  let record e status next :=
    Some match _record fence (EffectModel.id e) status None None t d with
         | Ok (true, d') => (CDone (Raised cooperative_cancel), d')
         | Ok (false, d') => (next, d')
         | Err x => (CDone (Raised x), d)
         end in
  match p with
  | CList =>
      Some match fenced fence (t_now t) (t_exit t)
                   (λ _ d, Ok (pending_effects (RunFence.run_id fence) d, d)) d with
           | Ok (es, d') => (cancel_next adapters es, d')
           | Err x => (CDone (Raised x), d)
           end
  | CSettle e rest => record e EffectStatus.CANCELLED (cancel_next adapters rest)
  | CRequest e rest => record e EffectStatus.CANCEL_REQUESTED (CCancel e rest)
  | CUnknown e =>
      record e EffectStatus.UNKNOWN
        (CDone (Raised (ambiguous "Cancellation outcome requires reconciliation")))
  | _ => None
  end.

Definition cancel_adapter (o : EffectObservation.t) (p : cpc) : option cpc :=
  match p with
  | CCancel e rest => Some (CInspect e rest)
  | CInspect e rest =>
      Some match EffectObservation.status o with
           | ObservedStatus.succeeded | ObservedStatus.cancelled | ObservedStatus.absent =>
               CSettle e rest
           | ObservedStatus.unknown => CUnknown e
           | ObservedStatus.running => CSleep e rest
           end
  | CSleep e rest => Some (CRequest e rest)
  | _ => None
  end.
End ledger.

(** ** What the transactions do *)

Lemma consumed_instructions l run :
  instructions_of (RunModel.with_runtime (dict_update l [("instructions", JArr [])]) run) = Ok [].
Proof. unfold instructions_of. cbn [RunModel.runtime_json RunModel.with_runtime]. unfold dict_update. simpl. by rewrite dict_get_set_eq. Qed.

(** The parts of a row that no transaction changes. *)
Definition same_key (e e' : EffectModel.t) : Prop :=
  EffectModel.id e' = EffectModel.id e ∧ EffectModel.run_id e' = EffectModel.run_id e
  ∧ EffectModel.idempotency_key e' = EffectModel.idempotency_key e
  ∧ EffectModel.request_digest e' = EffectModel.request_digest e.

Section bodies.
Context `{PyRuntime} `{PyStr} `{Redactor} `{UuidFormat}
  `{ModelDump WorkflowNode.t} `{ModelDump RoutePreviewRequest.t} `{ModelDump RegistryRecord.t}
  `{ModelDump RouteEvaluationData.t}.

Lemma route_effect_ok context now run request d request' d' :
  route_effect context now run request d = Ok (request', d') →
  same_tables d d' ∧ runs d' = runs d ∧ effects d' = effects d
  ∧ node_executions d' = node_executions d
  ∧ dict_get "instructions" request' = dict_get "instructions" request.
Proof.
  unfold route_effect. destruct (NodePolicy.model_route_ref _); [|by intros [= <- <-]].
  intros ([failed failure] & _ & Hs)%res_bind_ok.
  destruct (select_model _ _ _ _) as [e|]; [|done]. case_bool_decide; [|done].
  injection Hs as <- <-. split_and!; try done. unfold dict_update. simpl.
  by rewrite !dict_get_set_ne.
Qed.

Lemma consume_ok l execution run d run' d' :
  consume l execution run d = Ok (run', d') →
  same_tables d d' ∧ effects d' = effects d ∧ RunModel.id run' = RunModel.id run
  ∧ (l = [] → run' = run ∧ runs d' = runs d)
  ∧ (l ≠ [] → instructions_of run' = Ok [] ∧ runs d' = <[RunModel.id run := run']> (runs d)).
Proof.
  unfold consume. case_bool_decide as Hl; [by intros [= <- <-]|].
  intros (ids & _ & Hc)%res_bind_ok. injection Hc as <- <-.
  split_and!; try done.
  { eapply same_tables_trans; [apply same_tables_put|apply same_tables_event]. }
  intros _.
  split; [apply consumed_instructions|done].
Qed.

(** The new row holds the instructions, and the run has lost them. *)
Record completes (context : NodeContext.t) (run : RunModel.t) (row : EffectModel.t) (d : db)
    (row' : EffectModel.t) (d' : db) : Prop := {
  cm_tables : same_tables d d';
  cm_effects : effects d' = <[EffectModel.id row := row']> (effects d);
  cm_row : ∃ execution request, row' = EffectModel.with_request execution request row;
  cm_instructions : ∃ l, instructions_for context run = Ok l
    ∧ dict_get "instructions" (EffectModel.request_json row') = Some (JArr l)
    ∧ (l = [] → runs d' = runs d)
    ∧ (l ≠ [] → ∃ run', runs d' = <[RunModel.id run := run']> (runs d)
                        ∧ instructions_of run' = Ok []);
}.

Lemma complete_effect_ok context now run row d row' d' :
  complete_effect context now run row d = Ok (row', d') → completes context run row d row' d'.
Proof.
  unfold complete_effect. intros (l & Hl & (routed & Hr & (consumed & Hc & He)%res_bind_ok)%res_bind_ok)%res_bind_ok.
  destruct routed as [request d1], consumed as [run1 d2].
  apply route_effect_ok in Hr as (Ht1 & Hruns1 & Heff1 & _ & Hi).
  apply consume_ok in Hc as (Ht2 & Heff2 & _ & Hnil & Hcons). simpl in *.
  injection He as <- <-. split.
  - eapply same_tables_trans; [exact Ht1|]. eapply same_tables_trans; [|apply same_tables_event].
    destruct Ht2. by split.
  - rewrite event_effects, Heff2. simpl. by rewrite Heff1.
  - by do 2 eexists.
  - exists l. split; [done|]. simpl. split; [by rewrite Hi|]. rewrite <-Hruns1. split.
    + intros Hn. by destruct (Hnil Hn).
    + intros Hn. destruct (Hcons Hn). by exists run1.
Qed.

(** The first transaction of [handler]. *)
Definition prepares (f : RunFence.t) (context : NodeContext.t) (state : WorkflowStateV1.t)
    (t : readings) (run : RunModel.t) (d : db) (r : prepared) (d' : db) : Prop :=
  match find_effect (RunFence.run_id f) (NodeContext.execution_id context) d with
  | Some row =>
      EffectModel.request_digest row = effect_digest context state
      ∧ match r with
        | Replay x => EffectModel.status row = EffectStatus.SUCCEEDED
                      ∧ x = EffectModel.result_json row ∧ d' = d
        | Proceed e dispatched config =>
            e = EffectModel.id row ∧ config = dispatch_config (EffectModel.request_json row)
            ∧ EffectModel.status row ∉ [EffectStatus.SUCCEEDED; EffectStatus.CANCELLED]
            ∧ dispatched = negb (bool_decide (EffectModel.status row = EffectStatus.PREPARED))
            ∧ d' = put_effect (EffectModel.with_generation (RunFence.generation f) row) d
        end
  | None =>
      effects d !! t_fresh t = None
      ∧ ∃ row, r = Proceed (t_fresh t) false (dispatch_config (EffectModel.request_json row))
        ∧ effects d' = <[t_fresh t := row]> (effects d)
        ∧ EffectModel.id row = t_fresh t ∧ EffectModel.run_id row = RunFence.run_id f
        ∧ EffectModel.idempotency_key row = NodeContext.execution_id context
        ∧ EffectModel.request_digest row = effect_digest context state
        ∧ EffectModel.status row = EffectStatus.PREPARED
        ∧ ∃ l, instructions_for context run = Ok l
          ∧ dict_get "instructions" (EffectModel.request_json row) = Some (JArr l)
          ∧ (l = [] → runs d' = runs d)
          ∧ (l ≠ [] → ∃ run', runs d' = <[RunModel.id run := run']> (runs d)
                              ∧ instructions_of run' = Ok [])
  end.

Lemma prepare_body_ok f context state t run d r d' :
  prepare_body f context state t run d = Ok (r, d') →
  same_tables d d' ∧ prepares f context state t run d r d'.
Proof.
  unfold prepare_body, prepares. intros ([[row fresh] d1] & Hp & Hb)%res_bind_ok.
  apply res_bind_ok in Hb as ([row' d2] & Hc & Hb). unfold prepare in Hp.
  destruct (runs d !! RunFence.run_id f); [|done].
  destruct (find_effect _ _ d) as [found|].
  - destruct (bool_decide_reflect (EffectModel.request_digest found = effect_digest context state))
      as [Hdig|]; [|done]. injection Hp as <- <- <-. apply Ok_pair in Hc as [<- <-].
    destruct (EffectModel.status found) eqn:Hst; try done;
      apply Ok_pair in Hb as [<- <-]; (split; [done|]); split_and!; try done; set_solver.
  - destruct (bool_decide _ || _) eqn:Hg; [done|]. apply orb_false_iff in Hg as [Hfr _].
    apply bool_decide_eq_false in Hfr. apply eq_None_not_Some in Hfr.
    injection Hp as <- <- <-. simpl in Hc. apply complete_effect_ok in Hc as [Ht He Hr Hi].
    destruct Hr as (execution & request & ->). simpl in *. apply Ok_pair in Hb as [<- <-].
    split; [destruct Ht; by split|]. split; [done|].
    eexists. split; [|split; [simpl; by rewrite He, !insert_insert_eq|]]; [done|].
    simpl. split_and!; try done.
Qed.

(** [_record]: the new status is [cancelled] when a success or a dispatch is
recorded for a run that is to be cancelled. *)
Definition dominated (status : EffectStatus.t) (run : RunModel.t) : bool :=
  bool_decide (status ∈ [EffectStatus.SUCCEEDED; EffectStatus.DISPATCHED])
  && bool_decide (RunModel.desired_state run = DesiredRunState.CANCELLED).

Lemma record_body_ok f e status identity result t run d c d' :
  record_body f e status identity result t run d = Ok (c, d') →
  same_tables d d' ∧ runs d' = runs d ∧ c = dominated status run
  ∧ ∃ row row', effects d !! e = Some row ∧ effects d' = <[EffectModel.id row := row']> (effects d)
      ∧ same_key row row'
      ∧ EffectModel.status row' = (if c then EffectStatus.CANCELLED else status)
      ∧ EffectModel.result_json row'
        = match result with
          | Some r => if c then EffectModel.result_json row else Some r
          | None => EffectModel.result_json row
          end.
Proof.
  unfold record_body. destruct (effects d !! e) as [row|]; [|done].
  fold (dominated status run). intros [<- <-]%Ok_pair.
  split_and!; try done. exists row. eexists. split; [done|]. split.
  { rewrite event_effects. unfold put_effect. simpl. f_equal.
    by destruct (bool_decide _), identity, (dominated status run), result. }
  by destruct (bool_decide _), identity, (dominated status run), result.
Qed.

Lemma poll_body_ok e run d c d' :
  poll_body e run d = Ok (c, d') →
  same_tables d d' ∧ runs d' = runs d
  ∧ c = bool_decide (RunModel.desired_state run = DesiredRunState.CANCELLED)
  ∧ ∃ row, effects d !! e = Some row
      ∧ (effects d' = effects d
         ∨ c = true ∧ effects d' = <[EffectModel.id row := EffectModel.with_status
                                       EffectStatus.CANCEL_REQUESTED row]> (effects d)).
Proof.
  unfold poll_body. destruct (effects d !! e) as [row|]; [|done]. intros [<- <-]%Ok_pair.
  destruct (_ && _) eqn:Hc; split_and!; try done; exists row; (split; [done|]); [right|by left].
  apply andb_true_iff in Hc as [Hc _]. done.
Qed.
End bodies.
