(* ===== verification/Accounting.v ===== *)
(** * Provider calls and their accounting

The request, result and accounting contracts of
[packages/contracts/src/jarvis_contracts/registry.py] and
[AccountingService.record_in_session] of [api/app/jarvis_api/routing/observability.py]:
append-only rows, one per call and idempotency key, checked against the immutable
configuration revisions they name.  Pydantic's validators of stored JSON and
[RecursiveRedactor] are parameters. *)
From S2P Require Import Prelude Enums PyJson PyDecimal Failures Registry WorkflowSpec Database.
From S2P Require Import Ownership Routing Effects.
From stdpp Require Import gmap.
Local Open Scope Z_scope.
Local Open Scope stdpp_scope.

(** ** Contracts *)

(** [^[a-zA-Z_][a-zA-Z0-9_]{0,63}$] *)
Definition tool_name_pattern (s : string) : bool :=
  head_tail (λ c, is_lower c || is_upper c || is_oneof [95%nat] c)
    (λ c, is_alnum c || is_oneof [95%nat] c) 0 63 s.

Module ProviderTool.
Record t := { name : string; description : string; parameters : jobj }.
Definition valid (s : t) : bool :=
  tool_name_pattern (name s) && len_between 0 1024 (description s).
End ProviderTool.

Module ProviderRequest.
Record t := {
  purpose : string;
  text : string;
  output_tokens : Z;
  structured_schema : option jobj;
  tools : list ProviderTool.t;
  correlation_id : string;
  run_id : option uuid;
  project_id : option uuid;
  task_id : option uuid;
  node_id : option string;
  data_classification : DataClassification.t;
}.
Definition valid (s : t) : bool :=
  Capability_valid (purpose s) && len_between 0 262144 (text s)
  && z_between 1 1000000 (output_tokens s)
  && forallb ProviderTool.valid (tools s) && size_between 0 32 (tools s)
  && len_between 1 200 (correlation_id s) && opt_all (len_between 0 120) (node_id s).
End ProviderRequest.

(** [retry_after_seconds] is a float of no consequence here. *)
Module ProviderFailure.
Record t := {
  failure_class : FailureClass.t;
  code : string;
  message : string;
  retryable : bool;
  retry_after_seconds : option json;
  request_id : option string;
}.
End ProviderFailure.

(** [others]: [provider_kind], [text], [tool_calls], [finish_reason] and [demo]. *)
Module ProviderResult.
Record t := {
  profile_revision_id : uuid;
  provider_revision_id : uuid;
  model_identifier : string;
  structured : option jobj;
  request_id : option string;
  latency_ms : Z;
  usage : Usage.t;
  failure : option ProviderFailure.t;
  others : jobj;
}.
End ProviderResult.

Module AccountingOutcome.
Inductive t : Set := completed | failed | unknown | denied | require_approval.
Definition value (o : t) : string :=
  match o with
  | completed => "completed" | failed => "failed" | unknown => "unknown"
  | denied => "denied" | require_approval => "require_approval"
  end.
End AccountingOutcome.

Module AccountingRecord.
Record t := {
  id : uuid;
  profile_revision_id : uuid;
  provider_revision_id : uuid;
  route_revision_id : option uuid;
  correlation_id : string;
  run_id : option uuid;
  project_id : option uuid;
  task_id : option uuid;
  node_id : option string;
  request_id : option string;
  latency_ms : Z;
  usage : Usage.t;
  pricing : Pricing.t;
  cost : Cost.t;
  outcome : AccountingOutcome.t;
  created_at : Z;
  demo : bool;
}.
End AccountingRecord.

(** ** Parameters *)

(** [RecursiveRedactor().redact_text(text)[1]]: something was redacted. *)
Class TextRedactor := redacts_text : string → bool.
(** [REGISTRY_SPEC_ADAPTER.validate_python]; [None] when it raises. *)
Class RegistrySpecModel := registry_spec_validate : option json → option RegistrySpec.
(** [AccountingRecord.model_validate] *)
Class AccountingModel := accounting_validate : jobj → option AccountingRecord.t.

(** ** Equality of snapshots *)

Definition opt_eqb {A} (f : A → A → bool) (a b : option A) : bool :=
  match a, b with Some x, Some y => f x y | None, None => true | _, _ => false end.

(** Decimals are equal as numbers. *)
Definition dec_eqb (a b : decimal) : bool :=
  match dec_compare a b with Eq => true | _ => false end.

Definition cost_eqb (a b : Cost.t) : bool :=
  opt_eqb dec_eqb (Cost.amount a) (Cost.amount b)
  && String.eqb (Cost.currency a) (Cost.currency b)
  && bool_decide (Cost.status a = Cost.status b).

Definition pricing_eqb (a b : Pricing.t) : bool :=
  bool_decide (Pricing.status a = Pricing.status b)
  && String.eqb (Pricing.currency a) (Pricing.currency b)
  && opt_eqb dec_eqb (Pricing.input_per_million a) (Pricing.input_per_million b)
  && opt_eqb dec_eqb (Pricing.cached_per_million a) (Pricing.cached_per_million b)
  && opt_eqb dec_eqb (Pricing.output_per_million a) (Pricing.output_per_million b)
  && String.eqb (Pricing.source a) (Pricing.source b)
  && bool_decide (Pricing.effective_at a = Pricing.effective_at b).

(** ** [record_in_session] *)

Definition value_error : own_error := python_error "ValueError".
Definition validation_error : own_error := python_error "ValidationError".

Definition call_is (correlation key : string) (c : ModelCallModel.t) : bool :=
  bool_decide (ModelCallModel.correlation_id c = correlation)
  && bool_decide (ModelCallModel.idempotency_key c = key).

Section accounting.
Context `{PyRuntime} `{Redactor} `{TextRedactor} `{RegistrySpecModel} `{AccountingModel}
  `{ModelDump AccountingRecord.t} `{ModelDump Usage.t} `{ModelDump Cost.t}.

(** [revision.spec_json.get("spec")] of a revision, validated. *)
Definition revision_spec (i : uuid) (d : db) : res own_error RegistrySpec :=
  match WorkerTables.revisions (workers d) !! i with
  | None => Err value_error
  | Some revision =>
      match registry_spec_validate (ConfigurationRevisionModel.spec revision) with
      | Some spec => Ok spec
      | None => Err validation_error
      end
  end.

(** [session.get(ConfigurationRevisionModel, ...)] is not [None]. *)
Definition revision_known (i : uuid) (d : db) : bool :=
  bool_decide (is_Some (WorkerTables.revisions (workers d) !! i)).

(** The record agrees with the revisions it names. *)
Definition matches_configuration (record : AccountingRecord.t) (profile provider : RegistrySpec)
    : bool :=
  match profile, provider with
  | SModelProfile profile, SProvider provider =>
      bool_decide (ModelProfileSpec.provider_revision_id profile
                   = AccountingRecord.provider_revision_id record)
      && pricing_eqb (AccountingRecord.pricing record) (ModelProfileSpec.pricing profile)
      && cost_eqb (AccountingRecord.cost record)
           (calculate_cost (AccountingRecord.usage record) (AccountingRecord.pricing record))
      && Bool.eqb (AccountingRecord.demo record)
           (bool_decide (ProviderSpec.provider_kind provider = ProviderKind.demo))
  | _, _ => false
  end.

Definition check_route (record : AccountingRecord.t) (d : db) : res own_error unit :=
  match AccountingRecord.route_revision_id record with
  | None => Ok tt
  | Some i =>
      route ← revision_spec i d;
      match route with
      | SRoutePolicy route =>
          raise_if (negb (bool_decide (AccountingRecord.profile_revision_id record
                            ∈ RouteCandidate.profile_revision_id <$> RoutePolicySpec.candidates route)))
            value_error
      | _ => Err value_error
      end
  end.

Definition call_row (record : AccountingRecord.t) (key : string) (payload : jobj)
    : ModelCallModel.t := {|
  ModelCallModel.id := AccountingRecord.id record;
  ModelCallModel.profile_revision_id := AccountingRecord.profile_revision_id record;
  ModelCallModel.provider_revision_id := AccountingRecord.provider_revision_id record;
  ModelCallModel.route_revision_id := AccountingRecord.route_revision_id record;
  ModelCallModel.run_id := AccountingRecord.run_id record;
  ModelCallModel.management_turn_id := None;
  ModelCallModel.correlation_id := AccountingRecord.correlation_id record;
  ModelCallModel.idempotency_key := key;
  ModelCallModel.record_json := payload;
|}.

(** The constraints of the table that the row can still violate: the primary key, the
length of the correlation ID, the unique key and the reference to the run. *)
Definition insert_call (row : ModelCallModel.t) (d : db) : res own_error db :=
  let calls := CallTables.model_calls (accounts d) in
  if existsb (λ c, bool_decide (ModelCallModel.id c = ModelCallModel.id row)
                   || call_is (ModelCallModel.correlation_id row)
                        (ModelCallModel.idempotency_key row) c) calls
     || negb (opt_all (λ r, bool_decide (is_Some (runs d !! r))) (ModelCallModel.run_id row))
  then Err integrity_error
  else if Nat.ltb 200 (py_len (ModelCallModel.correlation_id row))
  then Err (python_error "DataError")
  else Ok (set_accounts (CallTables.add_call row (accounts d)) d).

Definition usage_event (record : AccountingRecord.t) (d : db) : db :=
  set_events (events d ++ [Event.Build_t (AccountingRecord.run_id record) "model.usage_recorded"
    [("model_call_id", JStr (uuid_str (AccountingRecord.id record)));
     ("profile_revision_id", JStr (uuid_str (AccountingRecord.profile_revision_id record)));
     ("usage", model_dump (AccountingRecord.usage record));
     ("cost", model_dump (AccountingRecord.cost record));
     ("outcome", JStr (AccountingOutcome.value (AccountingRecord.outcome record)))]]) d.

Definition record_in_session (record : AccountingRecord.t) (key : string) (d : db)
    : res own_error (AccountingRecord.t * db) :=
  _ ← raise_if (negb (len_between 8 200 key) || redacts_text key) value_error;
  let payload := as_object (model_dump record) in
  _ ← raise_if (negb (py_eq (JObj (redact payload)) (JObj payload))) value_error;
  _ ← lock_events d;
  match find (call_is (AccountingRecord.correlation_id record) key)
          (CallTables.model_calls (accounts d)) with
  | Some prior =>
      if String.eqb (sha256_digest (JObj (ModelCallModel.record_json prior)))
           (sha256_digest (JObj payload))
      then match accounting_validate (ModelCallModel.record_json prior) with
           | Some stored => Ok (stored, d)
           | None => Err validation_error
           end
      else Err idempotency_conflict
  | None =>
      _ ← raise_if (negb (revision_known (AccountingRecord.profile_revision_id record) d)
                    || negb (revision_known (AccountingRecord.provider_revision_id record) d))
            value_error;
      profile ← revision_spec (AccountingRecord.profile_revision_id record) d;
      provider ← revision_spec (AccountingRecord.provider_revision_id record) d;
      _ ← raise_if (negb (matches_configuration record profile provider)) value_error;
      _ ← check_route record d;
      d ← insert_call (call_row record key payload) d;
      Ok (record, usage_event record d)
  end.

(** ** What it does *)

(** One row and one event more, or nothing for a repeated record. *)
Definition accounted (record : AccountingRecord.t) (key : string) (d d' : db) : Prop :=
  d' = d ∧ (∃ c, c ∈ CallTables.model_calls (accounts d)
                 ∧ call_is (AccountingRecord.correlation_id record) key c = true)
  ∨ d' = usage_event record
           (set_accounts (CallTables.add_call
              (call_row record key (as_object (model_dump record))) (accounts d)) d)
    ∧ ∀ c, c ∈ CallTables.model_calls (accounts d) →
        call_is (AccountingRecord.correlation_id record) key c = false.

Lemma insert_call_ok row d d' :
  insert_call row d = Ok d' →
  d' = set_accounts (CallTables.add_call row (accounts d)) d
  ∧ ∀ c, c ∈ CallTables.model_calls (accounts d) →
      ModelCallModel.id c ≠ ModelCallModel.id row
      ∧ call_is (ModelCallModel.correlation_id row) (ModelCallModel.idempotency_key row) c = false.
Proof.
  unfold insert_call. destruct (_ || _) eqn:Hc; [done|]. destruct (Nat.ltb _ _); [done|].
  intros [= <-]. split; [done|]. apply orb_false_iff in Hc as [Hc _].
  intros c Hin. pose proof (proj1 (existsb_false _ _) Hc c Hin) as He.
  apply orb_false_iff in He as [He1 He2]. apply bool_decide_eq_false in He1. done.
Qed.

Lemma record_in_session_ok record key d r d' :
  record_in_session record key d = Ok (r, d') → accounted record key d d'.
Proof.
  unfold record_in_session.
  intros (_ & _ & (_ & _ & (_ & _ & Hr)%res_bind_ok)%res_bind_ok)%res_bind_ok.
  destruct (find _ _) as [prior|] eqn:Hf.
  - destruct (String.eqb _ _); [|done]. destruct (accounting_validate _); [|done].
    injection Hr as <- <-. left. split; [done|]. exists prior.
    apply find_some in Hf as [Hin Hf]. split; [by apply list_elem_of_In|done].
  - apply res_bind_ok in Hr as (_ & _ & (profile & _ & (provider & _ & Hr)%res_bind_ok)%res_bind_ok).
    apply res_bind_ok in Hr as (_ & _ & (_ & _ & (d1 & Hi & Hr)%res_bind_ok)%res_bind_ok).
    injection Hr as <- <-. apply insert_call_ok in Hi as [-> _]. right. split; [done|].
    intros c Hin. by apply (find_none _ _ Hf), list_elem_of_In.
Qed.
End accounting.

(** Rows are unique per call and idempotency key. *)
Definition calls_ok (d : db) : Prop :=
  NoDup ((λ c, (ModelCallModel.correlation_id c, ModelCallModel.idempotency_key c))
           <$> CallTables.model_calls (accounts d)).

Lemma call_is_true correlation key c :
  call_is correlation key c = true
  ↔ (ModelCallModel.correlation_id c, ModelCallModel.idempotency_key c) = (correlation, key).
Proof. unfold call_is. rewrite andb_true_iff, !bool_decide_eq_true. naive_solver. Qed.
