(* ===== verification/Regex.v ===== *)
(** * Regular expressions

Python's [re], as far as the program uses it: a backtracking matcher for character classes,
sequences, alternatives, greedy and lazy repetitions of a class, groups and the anchors
[\b], [^] and [$], over ASCII text.  [run] tries the alternatives in the order of the
engine; [matches] says which texts a pattern describes, whatever that order, and
[search_spec] that the engine finds a match exactly when there is one.  [subn] replaces the
leftmost matches from left to right ([subn_spec]). *)
From S2P Require Import Prelude.
From Stdlib Require Import Ascii.
Local Open Scope nat_scope.
Local Open Scope stdpp_scope.

(** ** Patterns *)

Inductive regex : Type :=
  | Empty
  | Class (f : ascii → bool)
  | Seq (a b : regex)
  | Alt (a b : regex)
  | Star (greedy : bool) (f : ascii → bool)
  | Group (n : nat) (r : regex)
  | WordBoundary
  | TextStart
  | LineStart
  | TextEnd.

(** [r?], [f+], [f{n,}] and a literal text *)
Definition opt (r : regex) : regex := Alt r Empty.
Definition plus (f : ascii → bool) : regex := Seq (Class f) (Star true f).
Fixpoint exactly (n : nat) (f : ascii → bool) : regex :=
  match n with O => Empty | S n => Seq (Class f) (exactly n f) end.
Definition at_least (n : nat) (f : ascii → bool) : regex := Seq (exactly n f) (Star true f).
Fixpoint lit_by (f : ascii → ascii → bool) (s : string) : regex :=
  match s with EmptyString => Empty | String c s => Seq (Class (f c)) (lit_by f s) end.
Definition lit : string → regex := lit_by (λ c x, bool_decide (c = x)).
Fixpoint one_of (rs : list regex) : regex :=
  match rs with [] => Class (λ _, false) | [r] => r | r :: rs => Alt r (one_of rs) end.
Fixpoint seq_of (rs : list regex) : regex :=
  match rs with [] => Empty | [r] => r | r :: rs => Seq r (seq_of rs) end.

(** [re.IGNORECASE] *)
Definition lower (c : ascii) : ascii :=
  if is_upper c then ascii_of_nat (nat_of_ascii c + 32) else c.
Definition upper (c : ascii) : ascii :=
  if is_lower c then ascii_of_nat (nat_of_ascii c - 32) else c.
Definition nocase (f : ascii → bool) (c : ascii) : bool := f (lower c) || f (upper c).
Definition lit_nocase : string → regex := lit_by (λ c x, bool_decide (lower c = lower x)).

(** [\w], [\s], a line feed *)
Definition is_word (c : ascii) : bool := is_alnum c || is_oneof [95] c.
Definition is_space (c : ascii) : bool := is_oneof [9; 10; 11; 12; 13; 28; 29; 30; 31; 32] c.
Definition is_newline (c : ascii) : bool := is_oneof [10] c.

(** ** The engine *)

(** The character before a place in the text and the text after it; the texts of groups. *)
Notation pos := (option ascii * string)%type.
Notation captures := (list (nat * string)).

Definition after_word (o : option ascii) : bool := match o with Some c => is_word c | None => false end.
Definition before_word (s : string) : bool := match s with String c _ => is_word c | _ => false end.
Definition at_boundary (p : pos) : bool := xorb (after_word p.1) (before_word p.2).
Definition at_text_start (p : pos) : bool := match p.1 with None => true | Some _ => false end.
Definition at_line_start (p : pos) : bool := match p.1 with None => true | Some c => is_newline c end.
(** [$] also matches before a line feed that ends the text. *)
Definition at_text_end (p : pos) : bool :=
  match p.2 with
  | EmptyString => true
  | String c EmptyString => is_newline c
  | _ => false
  end.

Definition or_else {A} (a b : option A) : option A := match a with Some _ => a | None => b end.

(** [f*] and [f*?] *)
Fixpoint star {A} (greedy : bool) (f : ascii → bool) (k : pos → option A) (prev : option ascii)
    (s : string) : option A :=
  let more := match s with
              | String c s => if f c then star greedy f k (Some c) s else None
              | EmptyString => None
              end in
  if greedy then or_else more (k (prev, s)) else or_else (k (prev, s)) more.

(** The text between two places. *)
Definition str_between (p q : pos) : string :=
  String.substring 0 (String.length p.2 - String.length q.2) p.2.

(** [k] matches the rest of the pattern. *)
Fixpoint run {A} (r : regex) (k : pos → captures → option A) (p : pos) (c : captures) : option A :=
  match r with
  | Empty => k p c
  | Class f => match p.2 with
               | String x s => if f x then k (Some x, s) c else None
               | EmptyString => None
               end
  | Seq a b => run a (run b k) p c
  | Alt a b => or_else (run a k p c) (run b k p c)
  | Star greedy f => star greedy f (λ q, k q c) p.1 p.2
  | Group n r => run r (λ q c, k q ((n, str_between p q) :: c)) p c
  | WordBoundary => if at_boundary p then k p c else None
  | TextStart => if at_text_start p then k p c else None
  | LineStart => if at_line_start p then k p c else None
  | TextEnd => if at_text_end p then k p c else None
  end.

(** The match at a place: where it ends and its groups. *)
Definition match_at (r : regex) (p : pos) : option (pos * captures) :=
  run r (λ q c, Some (q, c)) p [].

(** [pattern.search(s) is not None] *)
Fixpoint search_from (r : regex) (prev : option ascii) (s : string) : bool :=
  match match_at r (prev, s) with
  | Some _ => true
  | None => match s with
            | String c s => search_from r (Some c) s
            | EmptyString => false
            end
  end.
Definition search (r : regex) (s : string) : bool := search_from r None s.

(** [match.group(n)] *)
Definition group (n : nat) (c : captures) : string :=
  default "" (snd <$> find (λ x, Nat.eqb x.1 n) c).

(** [pattern.subn(replacement, s)] for a pattern that matches no empty text.  [skip] counts
the characters of the current match that are still to be passed. *)
Fixpoint sub_from (r : regex) (replacement : captures → string) (skip : nat) (prev : option ascii)
    (s : string) : string * nat :=
  match s with
  | EmptyString => ("", 0)
  | String x rest =>
      match skip with
      | S skip => sub_from r replacement skip (Some x) rest
      | O =>
          match match_at r (prev, s) with
          | Some (q, c) =>
              let '(out, n) := sub_from r replacement
                                 (String.length rest - String.length q.2) (Some x) rest in
              (replacement c +:+ out, S n)
          | None =>
              let '(out, n) := sub_from r replacement 0 (Some x) rest in (String x out, n)
          end
      end
  end.
Definition subn (r : regex) (replacement : captures → string) (s : string) : string * nat :=
  sub_from r replacement 0 None s.

(** ** What a pattern describes *)

(** [matches r p q]: the text from [p] to [q] is one that [r] describes there. *)
Inductive matches : regex → pos → pos → Prop :=
  | m_empty p : matches Empty p p
  | m_class f prev x s : f x = true → matches (Class f) (prev, String x s) (Some x, s)
  | m_seq a b p q o : matches a p q → matches b q o → matches (Seq a b) p o
  | m_left a b p q : matches a p q → matches (Alt a b) p q
  | m_right a b p q : matches b p q → matches (Alt a b) p q
  | m_stop greedy f p : matches (Star greedy f) p p
  | m_more greedy f prev x s q :
      f x = true → matches (Star greedy f) (Some x, s) q →
      matches (Star greedy f) (prev, String x s) q
  | m_group n r p q : matches r p q → matches (Group n r) p q
  | m_boundary p : at_boundary p = true → matches WordBoundary p p
  | m_text_start p : at_text_start p = true → matches TextStart p p
  | m_line_start p : at_line_start p = true → matches LineStart p p
  | m_text_end p : at_text_end p = true → matches TextEnd p p.
#[local] Hint Constructors matches : core.

Lemma or_else_some {A} (a b : option A) x : or_else a b = Some x → a = Some x ∨ b = Some x.
Proof. destruct a; simpl; auto. Qed.
Lemma or_else_is_some {A} (a b : option A) : is_Some a ∨ is_Some b → is_Some (or_else a b).
Proof. destruct a; simpl; [by eexists|]. intros [[? ?]|?]; done. Qed.

Lemma star_sound {A} greedy f (k : pos → option A) prev s a :
  star greedy f k prev s = Some a → ∃ q, matches (Star greedy f) (prev, s) q ∧ k q = Some a.
Proof.
  revert prev a. induction s as [|x s IH]; intros prev a; simpl.
  - destruct greedy; [|intros [Hs|Hs]%or_else_some; [|done]]; eauto.
  - assert (∀ o, (if f x then star greedy f k (Some x) s else None) = Some o →
                 ∃ q, matches (Star greedy f) (prev, String x s) q ∧ k q = Some o) as Hmore.
    { intros o. destruct (f x) eqn:Hf; [|done]. intros (q & Hq & Hk)%IH. exists q. auto. }
    destruct greedy; intros [Hs|Hs]%or_else_some; eauto.
Qed.

Lemma star_complete {A} greedy f (k : pos → option A) p q :
  matches (Star greedy f) p q → is_Some (k q) → is_Some (star greedy f k p.1 p.2).
Proof.
  intros Hm Hk. remember (Star greedy f) as r eqn:Hr. induction Hm; try discriminate Hr.
  - injection Hr as -> ->. destruct p as [prev [|x s]]; simpl; destruct greedy;
      try apply or_else_is_some; auto.
  - injection Hr as -> ->. simpl in *. rewrite H. specialize (IHHm eq_refl Hk).
    destruct greedy; apply or_else_is_some; auto.
Qed.

(** What the engine accepts the pattern describes, and it misses nothing. *)
Lemma run_sound {A} r (k : pos → captures → option A) p c a :
  run r k p c = Some a → ∃ q c', matches r p q ∧ k q c' = Some a.
Proof.
  revert k p c. induction r as [|f|r1 IH1 r2 IH2|r1 IH1 r2 IH2|greedy f|n r IH| | | |];
    intros k [prev s] c; simpl.
  - eauto.
  - destruct s as [|x s]; [done|]. destruct (f x) eqn:Hf; [|done]. eauto.
  - intros (q & c' & Hq & (o & c'' & Ho & Hk)%IH2)%IH1. eauto.
  - intros [(q & c' & Hq & Hk)%IH1|(q & c' & Hq & Hk)%IH2]%or_else_some; eauto.
  - intros (q & Hq & Hk)%star_sound. eauto.
  - intros (q & c' & Hq & Hk)%IH. eauto.
  - destruct (at_boundary _) eqn:Hb; [|done]. eauto.
  - destruct (at_text_start _) eqn:Hb; [|done]. eauto.
  - destruct (at_line_start _) eqn:Hb; [|done]. eauto.
  - destruct (at_text_end _) eqn:Hb; [|done]. eauto.
Qed.

Lemma run_complete {A} r (k : pos → captures → option A) p q c :
  matches r p q → (∀ c', is_Some (k q c')) → is_Some (run r k p c).
Proof.
  revert k p q c. induction r as [|f|r1 IH1 r2 IH2|r1 IH1 r2 IH2|greedy f|n r IH| | | |];
    intros k p q c Hm Hk; inversion Hm; subst; simpl in *.
  - apply Hk.
  - rewrite H0. apply Hk.
  - eapply IH1; [done|]. intros c'. by eapply IH2.
  - apply or_else_is_some. left. by eapply IH1.
  - apply or_else_is_some. right. by eapply IH2.
  - eapply (star_complete greedy f (λ q, k q c) q q); [constructor|apply Hk].
  - eapply (star_complete greedy f (λ q, k q c) (prev, String x s) q); [by constructor|apply Hk].
  - eapply IH; [done|]. intros c'. apply Hk.
  - destruct (at_boundary q); [apply Hk|done].
  - destruct (at_text_start q); [apply Hk|done].
  - destruct (at_line_start q); [apply Hk|done].
  - destruct (at_text_end q); [apply Hk|done].
Qed.

Lemma match_at_some r p q c : match_at r p = Some (q, c) → matches r p q.
Proof. intros (q' & c' & Hm & [= -> ->])%run_sound. exact Hm. Qed.
Lemma match_at_none r p : match_at r p = None ↔ ∀ q, ¬ matches r p q.
Proof.
  split.
  - intros Hn q Hm. destruct (run_complete r (λ q c, Some (q, c)) p q [] Hm) as [x Hx]; [done|].
    unfold match_at in Hn. congruence.
  - intros Hn. destruct (match_at r p) as [[q c]|] eqn:Hm; [|done].
    by apply match_at_some, Hn in Hm.
Qed.

(** ** Places in a text *)

(** The place after [u]. *)
Fixpoint advance (prev : option ascii) (u : string) : option ascii :=
  match u with EmptyString => prev | String x u => advance (Some x) u end.

Lemma advance_app prev u v : advance prev (u +:+ v) = advance (advance prev u) v.
Proof. revert prev. induction u as [|x u IH]; intros prev; [done|]. apply IH. Qed.

(** A match consumes a prefix of the rest. *)
Lemma matches_advance r p q :
  matches r p q → ∃ u, p.2 = u +:+ q.2 ∧ q.1 = advance p.1 u.
Proof.
  induction 1 as [p|f prev x s Hf|a b p q o _ (u & Hu & Hq) _ (v & Hv & Ho)| | |
                  |greedy f prev x s q Hf _ (u & Hu & Hq)| | | | |]; try done; try by exists "".
  - by exists (String x "").
  - exists (u +:+ v). by rewrite Hu, Hv, str_app_assoc, advance_app, <-Hq.
  - exists (String x u). simpl in *. by rewrite Hu.
Qed.

(** The fewest characters a match has. *)
Fixpoint min_length (r : regex) : nat :=
  match r with
  | Class _ => 1
  | Seq a b => min_length a + min_length b
  | Alt a b => Nat.min (min_length a) (min_length b)
  | Group _ r => min_length r
  | _ => 0
  end.
Lemma matches_length r p q :
  matches r p q → String.length q.2 + min_length r ≤ String.length p.2.
Proof. induction 1; simpl in *; lia. Qed.

(** ** Search *)

(** Somewhere in the text is a match. *)
Definition occurs (r : regex) (prev : option ascii) (s : string) : Prop :=
  ∃ u v q, s = u +:+ v ∧ matches r (advance prev u, v) q.

(** [search] finds a match exactly when the pattern describes some part of the text,
seen in its context. *)
Lemma search_from_spec r prev s : search_from r prev s = true ↔ occurs r prev s.
Proof.
  revert prev. induction s as [|x s IH]; intros prev; cbn [search_from].
  - destruct (match_at r (prev, "")) as [[q c]|] eqn:Hm.
    + split; [intros _|done]. exists "", "", q. split; [done|]. by apply match_at_some in Hm.
    + split; [done|]. intros (u & v & q & Huv & Hq). exfalso.
      destruct u, v; try discriminate Huv. by eapply match_at_none.
  - destruct (match_at r (prev, String x s)) as [[q c]|] eqn:Hm.
    + split; [intros _|done]. exists "", (String x s), q. split; [done|]. by apply match_at_some in Hm.
    + rewrite IH. split.
      * intros (u & v & q & -> & Hq). by exists (String x u), v, q.
      * intros (u & v & q & Huv & Hq). destruct u as [|y u].
        { change (String x s = v) in Huv. subst v. exfalso. by eapply match_at_none. }
        rewrite str_app_cons in Huv. injection Huv as <- ->. by exists u, v, q.
Qed.

(** ** Substitution *)

(** [out] is the text from [p] on with [n] matches replaced: from left to right, a match
that starts here, and otherwise the character here. *)
Inductive substitutes (r : regex) (replacement : captures → string)
  : pos → string → nat → Prop :=
  | sub_end prev : substitutes r replacement (prev, "") "" 0
  | sub_keep prev x s out n :
      (∀ q, ¬ matches r (prev, String x s) q) →
      substitutes r replacement (Some x, s) out n →
      substitutes r replacement (prev, String x s) (String x out) n
  | sub_match p q c out n :
      match_at r p = Some (q, c) → String.length q.2 < String.length p.2 →
      substitutes r replacement q out n →
      substitutes r replacement p (replacement c +:+ out) (S n).

Lemma sub_skip r replacement u prev s :
  sub_from r replacement (String.length u) prev (u +:+ s)
  = sub_from r replacement 0 (advance prev u) s.
Proof. revert prev. induction u as [|x u IH]; intros prev; [done|]. apply IH. Qed.

Lemma sub_from_spec r replacement n :
  0 < min_length r → ∀ prev s, String.length s ≤ n →
  substitutes r replacement (prev, s) (sub_from r replacement 0 prev s).1
    (sub_from r replacement 0 prev s).2.
Proof.
  intros Hr. induction n as [|n IH]; intros prev [|x s] Hn; simpl in Hn; try lia; [constructor..|].
  cbn [sub_from]. destruct (match_at r (prev, String x s)) as [[q c]|] eqn:Hm.
  - pose proof (match_at_some _ _ _ _ Hm) as Hq.
    pose proof (matches_length _ _ _ Hq) as Hlen. simpl in Hlen.
    destruct (matches_advance _ _ _ Hq) as (u & Hu & Ha). destruct q as [prev' s']. simpl in *.
    destruct u as [|y u]; [change (String x s = s') in Hu; subst s'; simpl in Hlen; lia|].
    rewrite str_app_cons in Hu. injection Hu as <- ->.
    replace (String.length (u +:+ s') - String.length s') with (String.length u)
      by (rewrite length_str_app; lia).
    rewrite sub_skip. simpl in Ha. rewrite <-Ha.
    destruct (sub_from r replacement 0 prev' s') as [out k] eqn:Hs. simpl.
    eapply sub_match; [exact Hm|simpl; rewrite length_str_app in *; lia|].
    specialize (IH prev' s'). rewrite Hs in IH. apply IH. rewrite length_str_app in *. lia.
  - destruct (sub_from r replacement 0 (Some x) s) as [out k] eqn:Hs. simpl.
    apply sub_keep; [by apply match_at_none|].
    specialize (IH (Some x) s). rewrite Hs in IH. apply IH. lia.
Qed.

Lemma subn_spec r replacement s :
  0 < min_length r →
  substitutes r replacement (None, s) (subn r replacement s).1 (subn r replacement s).2.
Proof. intros Hr. by eapply sub_from_spec. Qed.
