(* ===== verification/Redaction.v ===== *)
(** * Redaction

[api/app/jarvis_api/events/redaction.py]: before structured data is stored or shown,
credentials in texts are replaced by placeholders, fields with secret names lose their
values and fields with hidden reasoning disappear.  [redact_clean] says what the result
looks like, [redact_noninterference] that it does not depend on what was withheld, and
[secret_field_spec] which names are secret.

Texts are ASCII: for other characters [re] and [casefold] use the tables of Unicode. *)
From S2P Require Import Prelude PyJson Regex Accounting Effects.
From Stdlib Require Import Ascii.
Local Open Scope Z_scope.
Local Open Scope stdpp_scope.

(** ** Patterns *)

(** [[_-]], [A-Z], [a-z0-9] without case, and any character *)
Definition dash (c : ascii) : bool := is_oneof [95; 45]%nat c.
Definition token_char (c : ascii) : bool := is_alnum c || dash c.
Definition any_char (_ : ascii) : bool := true.
Definition not_eol (c : ascii) : bool := negb (is_oneof [13; 10]%nat c).
Definition letter : ascii → bool := nocase is_lower.

(** [a[_-]?b] without case *)
Definition joined (a b : string) : regex := seq_of [lit_nocase a; opt (Class dash); lit_nocase b].

Definition _SECRET_NAME : regex := one_of
  [joined "api" "key"; joined "access" "key"; joined "client" "secret"; lit_nocase "token";
   lit_nocase "password"; lit_nocase "passwd"; lit_nocase "authorization"; lit_nocase "cookie";
   lit_nocase "secret"; joined "private" "key"; joined "connection" "string";
   joined "connection" "url"; joined "database" "url"].
Definition _SECRET_FIELD : regex := seq_of
  [Alt TextStart (Class dash); _SECRET_NAME; Alt TextEnd (Class dash)].

Definition _HIDDEN_REASONING_FIELDS : list string :=
  ["analysis"; "chain_of_thought"; "hidden_reasoning"; "internal_reasoning"; "provider_reasoning";
   "reasoning"; "scratchpad"].

Definition key_name_char (c : ascii) : bool := is_upper c || is_digit c || is_oneof [32]%nat c.
Definition _PRIVATE_KEY : regex := seq_of
  [lit "-----BEGIN "; Star true key_name_char; lit "PRIVATE KEY-----"; Star false any_char;
   Alt (seq_of [lit "-----END "; Star true key_name_char; lit "PRIVATE KEY-----"]) TextEnd].

(** [a-z0-9._~+/=-] without case *)
Definition bearer_char (c : ascii) : bool := is_alnum c || is_oneof [46; 95; 126; 43; 47; 61; 45]%nat c.
Definition _BEARER : regex := seq_of [WordBoundary; lit_nocase "bearer"; plus is_space; plus bearer_char].

(** [a-z0-9+.-] without case, [[^\s/@:]] and [[^\s/@]] *)
Definition scheme_char (c : ascii) : bool := is_alnum c || is_oneof [43; 46; 45]%nat c.
Definition user_char (c : ascii) : bool := negb (is_space c || is_oneof [47; 64; 58]%nat c).
Definition secret_char (c : ascii) : bool := negb (is_space c || is_oneof [47; 64]%nat c).
Definition _CREDENTIAL_URL : regex := seq_of
  [WordBoundary; Group 1 (seq_of [Class letter; Star true scheme_char; lit "://"]);
   Group 2 (plus user_char); opt (Seq (lit ":") (Star true secret_char)); lit "@"].

Definition env_start (c : ascii) : bool := is_upper c || is_oneof [95]%nat c.
Definition env_char (c : ascii) : bool := env_start c || is_digit c.
Definition _ENV_ASSIGNMENT : regex := seq_of
  [LineStart;
   Group 1 (seq_of [Star true is_space; opt (Seq (lit "export") (plus is_space)); Class env_start;
                    Star true env_char; Star true is_space; lit "="]);
   Star true is_space; Star true not_eol].

Definition _JWT : regex := seq_of
  [WordBoundary; lit "eyJ"; plus token_char; lit "."; plus token_char; lit "."; plus token_char;
   WordBoundary].

Definition _PROVIDER_TOKEN : regex := seq_of
  [WordBoundary;
   one_of
     [seq_of [lit "sk-"; opt (Alt (lit "proj-") (lit "ant-")); at_least 16 token_char];
      seq_of [lit "gh"; Class (λ c, existsb (Ascii.eqb c) ["p"; "o"; "u"; "s"; "r"]%char); lit "_";
              at_least 20 is_alnum];
      seq_of [lit "github_pat_"; at_least 20 is_word];
      seq_of [lit "xox"; Class (λ c, existsb (Ascii.eqb c) ["b"; "a"; "p"; "r"; "s"]%char); lit "-";
              at_least 16 (λ c, is_alnum c || is_oneof [45]%nat c)];
      seq_of [lit "AKIA"; exactly 16 (λ c, is_upper c || is_digit c)]];
   WordBoundary].

Definition _HEADER : regex := seq_of
  [WordBoundary; one_of [lit_nocase "authorization"; Seq (opt (lit_nocase "set-")) (lit_nocase "cookie")];
   Star true is_space; lit ":"; Star true is_space; plus not_eol].

(** A text in the quotes with code [q] *)
Definition quoted (q : nat) : regex := seq_of
  [Class (is_oneof [q]); Star true (λ c, negb (is_oneof [q] c)); Class (is_oneof [q])].
Definition _INLINE_ASSIGNMENT : regex := seq_of
  [WordBoundary;
   Group 1 (one_of [lit_nocase "password"; lit_nocase "passwd"; lit_nocase "token";
                    joined "api" "key"; joined "client" "secret"]);
   Star true is_space; Group 2 (Class (is_oneof [58; 61]%nat)); Star true is_space;
   Group 3 (one_of [quoted 34; quoted 39;
                    plus (λ c, negb (is_space c || is_oneof [44; 59]%nat c))])].

(** ** Counts *)

Notation counts := (list (string * Z)).

Definition _increment (rule : string) (amount : Z) (c : counts) : counts :=
  if Z.eqb amount 0 then c else dict_set rule (default 0 (dict_get rule c) + amount) c.
Definition count (c : counts) : Z := foldr Z.add 0 (snd <$> c).

Definition _placeholder (kind : string) : string := "[REDACTED:" +:+ kind +:+ "]".

Definition contains (w s : string) : bool := search (lit w) s.
Definition _field_kind (name : string) : string :=
  if contains "password" name || contains "passwd" name then "password"
  else if contains "cookie" name then "cookie"
  else if contains "authorization" name then "authorization"
  else if contains "private" name then "private_key"
  else if contains "connection" name || contains "database" name then "connection_string"
  else "token".

(** ** [_redact_string] *)

(** [len(value) >= 4] *)
Definition known_secrets (values : list string) : list string :=
  List.filter (λ v, Nat.leb 4 (String.length v)) values.

(** A pattern with the rule it counts for and what replaces its matches. *)
Definition pass (r : regex) (rule : string) (replacement : captures → string) (st : string * counts)
    : string * counts :=
  let '(s, n) := subn r replacement st.1 in (s, _increment rule (Z.of_nat n) st.2).

Definition known_pass (secret : string) : string * counts → string * counts :=
  pass (lit secret) "known_secret" (λ _, _placeholder "known_secret").
Definition placeholder_pass (r : regex) (rule : string) : string * counts → string * counts :=
  pass r rule (λ _, _placeholder rule).

Definition _redact_string (known : list string) (value : string) (c : counts) : string * counts :=
  let st := foldl (λ st secret, known_pass secret st) (value, c) known in
  let st := placeholder_pass _HEADER "header" st in
  let st := placeholder_pass _JWT "jwt" st in
  let st := placeholder_pass _PROVIDER_TOKEN "provider_token" st in
  let st := placeholder_pass _PRIVATE_KEY "private_key" st in
  let st := placeholder_pass _BEARER "bearer_token" st in
  let st := pass _CREDENTIAL_URL "credential_url"
              (λ m, group 1 m +:+ _placeholder "credentials" +:+ "@") st in
  let st := pass _ENV_ASSIGNMENT "environment_assignment"
              (λ m, group 1 m +:+ _placeholder "environment_secret") st in
  pass _INLINE_ASSIGNMENT "inline_credential"
    (λ m, group 1 m +:+ group 2 m +:+ _placeholder "credential") st.

Definition redact_text (known : list string) (value : string) : string * counts :=
  _redact_string known value [].

(** ** [_redact_value] *)

Fixpoint str_map (f : ascii → ascii) (s : string) : string :=
  match s with EmptyString => EmptyString | String c s => String (f c) (str_map f s) end.

(** [re.sub(r"([a-z])([A-Z])", r"\1_\2", key).casefold().replace("-", "_")] *)
Definition _CAMEL : regex := Seq (Group 1 (Class is_lower)) (Group 2 (Class is_upper)).
Definition normalized_key (key : string) : string :=
  str_map (λ c, if is_oneof [45]%nat c then "_"%char else c)
    (str_map lower (subn _CAMEL (λ m, group 1 m +:+ "_" +:+ group 2 m) key).1).

Definition hidden_field (key : string) : bool :=
  bool_decide (normalized_key key ∈ _HIDDEN_REASONING_FIELDS).
Definition secret_field (key : string) : bool := search _SECRET_FIELD (normalized_key key).
Definition secret_value (key : string) : json := JStr (_placeholder (_field_kind (normalized_key key))).

Fixpoint _redact_value (known : list string) (value : json) (c : counts) : json * counts :=
  match value with
  | JObj kvs =>
      let '(result, c) :=
        (fix go (kvs : jobj) (result : jobj) (c : counts) : jobj * counts :=
           match kvs with
           | [] => (result, c)
           | (raw_key, item) :: kvs =>
               let '(key, c) := _redact_string known raw_key c in
               if hidden_field key then go kvs result (_increment "hidden_reasoning" 1 c)
               else if secret_field key
               then go kvs (dict_set key (secret_value key) result) (_increment "secret_field" 1 c)
               else let '(item, c) := _redact_value known item c in
                    go kvs (dict_set key item result) c
           end) kvs [] c in
      (JObj result, c)
  | JArr items =>
      let '(items, c) :=
        (fix go (items : list json) (c : counts) : list json * counts :=
           match items with
           | [] => ([], c)
           | item :: items =>
               let '(item, c) := _redact_value known item c in
               let '(items, c) := go items c in (item :: items, c)
           end) items c in
      (JArr items, c)
  | JStr s => let '(s, c) := _redact_string known s c in (JStr s, c)
  | v => (v, c)
  end.

Definition redact (known : list string) (value : json) : json * counts := _redact_value known value [].

(** The loops of [_redact_value] *)
Fixpoint redact_fields (known : list string) (kvs result : jobj) (c : counts) : jobj * counts :=
  match kvs with
  | [] => (result, c)
  | (raw_key, item) :: kvs =>
      let '(key, c) := _redact_string known raw_key c in
      if hidden_field key then redact_fields known kvs result (_increment "hidden_reasoning" 1 c)
      else if secret_field key
      then redact_fields known kvs (dict_set key (secret_value key) result)
             (_increment "secret_field" 1 c)
      else let '(item, c) := _redact_value known item c in
           redact_fields known kvs (dict_set key item result) c
  end.
Fixpoint redact_items (known : list string) (items : list json) (c : counts) : list json * counts :=
  match items with
  | [] => ([], c)
  | item :: items =>
      let '(item, c) := _redact_value known item c in
      let '(items, c) := redact_items known items c in (item :: items, c)
  end.

(** The redactors without known secrets that other components use *)
#[export] Instance recursive_redactor : Redactor := λ o,
  match (redact [] (JObj o)).1 with JObj o => o | _ => [] end.
#[export] Instance recursive_text_redactor : TextRedactor := λ s,
  match (redact_text [] s).2 with [] => false | _ => true end.

Lemma redact_value_obj known kvs c :
  _redact_value known (JObj kvs) c
  = let '(result, c) := redact_fields known kvs [] c in (JObj result, c).
Proof.
  assert (∀ result c, (fix go (kvs : jobj) (result : jobj) (c : counts) : jobj * counts :=
           match kvs with
           | [] => (result, c)
           | (raw_key, item) :: kvs =>
               let '(key, c) := _redact_string known raw_key c in
               if hidden_field key then go kvs result (_increment "hidden_reasoning" 1 c)
               else if secret_field key
               then go kvs (dict_set key (secret_value key) result) (_increment "secret_field" 1 c)
               else let '(item, c) := _redact_value known item c in
                    go kvs (dict_set key item result) c
           end) kvs result c = redact_fields known kvs result c) as Hgo; [|cbn; by rewrite Hgo].
  induction kvs as [|[k v] kvs IH]; intros result c'; [done|]. cbn [redact_fields].
  destruct (_redact_string known k c') as [key c1]. rewrite !IH.
  destruct (hidden_field key), (secret_field key), (_redact_value known v c1); by rewrite ?IH.
Qed.
Lemma redact_value_arr known items c :
  _redact_value known (JArr items) c = let '(items, c) := redact_items known items c in (JArr items, c).
Proof.
  revert c. assert (∀ c, (fix go (items : list json) (c : counts) : list json * counts :=
           match items with
           | [] => ([], c)
           | item :: items =>
               let '(item, c) := _redact_value known item c in
               let '(items, c) := go items c in (item :: items, c)
           end) items c = redact_items known items c) as Hgo; [|intros c; cbn; by rewrite Hgo].
  induction items as [|v items IH]; intros c; [done|]. cbn [redact_items].
  destruct (_redact_value known v c) as [v' c']. by rewrite IH.
Qed.

(** ** What is left *)

(** Some text after [_redact_string]. *)
Definition redacted_text (known : list string) (s : string) : Prop :=
  ∃ raw c, s = (_redact_string known raw c).1.

(** Every text, name or value, was redacted; no field has a name of hidden reasoning; a
field with a secret name holds the placeholder of its kind. *)
Inductive clean (known : list string) : json → Prop :=
  | clean_null : clean known JNull
  | clean_bool b : clean known (JBool b)
  | clean_int z : clean known (JInt z)
  | clean_float f : clean known (JFloat f)
  | clean_str s : redacted_text known s → clean known (JStr s)
  | clean_arr l : Forall (clean known) l → clean known (JArr l)
  | clean_obj kvs :
      dict_ok kvs →
      Forall (λ kv, redacted_text known kv.1 ∧ hidden_field kv.1 = false
                    ∧ (secret_field kv.1 = true → kv.2 = secret_value kv.1)
                    ∧ (secret_field kv.1 = false → clean known kv.2)) kvs →
      clean known (JObj kvs).

Lemma dict_set_Forall {V} (P : string * V → Prop) k v d :
  P (k, v) → Forall P d → Forall P (dict_set k v d).
Proof.
  intros Hp. induction 1 as [|[k' v'] d Hkv Hd IH]; simpl; [by constructor|].
  case_bool_decide; by constructor.
Qed.

Section clean.
Variable known : list string.

Lemma redact_fields_clean kvs result c :
  Forall (λ kv, ∀ c, clean known (_redact_value known kv.2 c).1) kvs →
  clean known (JObj result) → clean known (JObj (redact_fields known kvs result c).1).
Proof.
  intros Hf. revert result c. induction Hf as [|[k v] kvs Hv _ IH]; intros result c Hr; [done|].
  cbn [redact_fields]. destruct (_redact_string known k c) as [key c1] eqn:Hk.
  assert (redacted_text known key) as Ht by (exists k, c; by rewrite Hk).
  destruct (hidden_field key) eqn:Hh; [by apply IH|]. inversion_clear Hr as [| | | | | |? Hd Hall].
  destruct (secret_field key) eqn:Hs; [|destruct (_redact_value known v c1) as [v' c2] eqn:Hv'];
    (apply IH; constructor; [by apply dict_ok_set|apply dict_set_Forall; [|done]]); simpl.
  - split_and!; [done..|]. congruence.
  - split_and!; [done|done|congruence|]. intros _. specialize (Hv c1). simpl in Hv. by rewrite Hv' in Hv.
Qed.

Lemma redact_items_clean items c :
  Forall (λ v, ∀ c, clean known (_redact_value known v c).1) items →
  Forall (clean known) (redact_items known items c).1.
Proof.
  intros Hf. revert c. induction Hf as [|v items Hv _ IH]; intros c; [done|]. cbn [redact_items].
  specialize (Hv c). destruct (_redact_value known v c) as [v' c']. specialize (IH c').
  destruct (redact_items known items c') as [l c'']. by constructor.
Qed.

Lemma redact_value_clean v c : clean known (_redact_value known v c).1.
Proof.
  revert c. induction v as [|b|z|f|s|items IH|kvs IH] using json_ind'; intros c;
    [constructor..| | |].
  - cbn. destruct (_redact_string known s c) as [s' c'] eqn:Hs. constructor. exists s, c. by rewrite Hs.
  - rewrite redact_value_arr. pose proof (redact_items_clean items c IH) as Hc.
    destruct (redact_items known items c). by constructor.
  - rewrite redact_value_obj.
    pose proof (redact_fields_clean kvs [] c IH (clean_obj _ [] (NoDup_nil_2) (Forall_nil_2 _))) as Hc.
    by destruct (redact_fields known kvs [] c).
Qed.

(** ** What it depends on *)

(** A field whose value is withheld. *)
Definition withheld (raw_key : string) : bool :=
  let key := (_redact_string known raw_key []).1 in hidden_field key || secret_field key.

(** Equal up to the values that are withheld. *)
Inductive agree : json → json → Prop :=
  | agree_same v : agree v v
  | agree_arr l m : Forall2 agree l m → agree (JArr l) (JArr m)
  | agree_obj l m :
      Forall2 (λ a b, a.1 = b.1 ∧ (withheld a.1 = false → agree a.2 b.2)) l m →
      agree (JObj l) (JObj m).

(** The redacted text does not depend on the counts so far. *)
Lemma pass_text r rule f st st' : st.1 = st'.1 → (pass r rule f st).1 = (pass r rule f st').1.
Proof. unfold pass. intros ->. by destruct (subn r f st'.1). Qed.
Lemma redact_string_text s c c' :
  (_redact_string known s c).1 = (_redact_string known s c').1.
Proof.
  unfold _redact_string, placeholder_pass. do 8 apply pass_text.
  assert (∀ st st', st.1 = st'.1 →
            (foldl (λ st secret, known_pass secret st) st known).1
            = (foldl (λ st secret, known_pass secret st) st' known).1) as Hk; [|by apply Hk].
  induction known as [|x l IH]; intros st st' Hst; [done|]. apply IH, pass_text, Hst.
Qed.
Lemma withheld_at raw_key c :
  withheld raw_key = hidden_field (_redact_string known raw_key c).1
                     || secret_field (_redact_string known raw_key c).1.
Proof. unfold withheld. by rewrite (redact_string_text raw_key [] c). Qed.

Lemma redact_fields_agree l m result c :
  Forall (λ kv, ∀ w c, agree kv.2 w → _redact_value known kv.2 c = _redact_value known w c) l →
  Forall2 (λ a b, a.1 = b.1 ∧ (withheld a.1 = false → agree a.2 b.2)) l m →
  redact_fields known l result c = redact_fields known m result c.
Proof.
  intros Hall Hf. revert result c Hall.
  induction Hf as [|[k v] [k' w] l m [Hk Ha] _ IH]; intros result c Hall; [done|].
  simpl in Hk, Ha. subst k'. inversion_clear Hall as [|? ? Hv Hall']. simpl in Hv.
  cbn [redact_fields]. rewrite (withheld_at k c) in Ha.
  destruct (_redact_string known k c) as [key c1]. simpl in Ha.
  destruct (hidden_field key); [by apply IH|]. destruct (secret_field key); [by apply IH|].
  rewrite (Hv w c1) by by apply Ha. destruct (_redact_value known w c1). by apply IH.
Qed.

Lemma redact_items_agree l m c :
  Forall (λ v, ∀ w c, agree v w → _redact_value known v c = _redact_value known w c) l →
  Forall2 agree l m → redact_items known l c = redact_items known m c.
Proof.
  intros Hall Hf. revert c Hall. induction Hf as [|v w l m Ha _ IH]; intros c Hall; [done|].
  inversion_clear Hall as [|? ? Hv Hall']. cbn [redact_items].
  rewrite (Hv w c Ha). destruct (_redact_value known w c) as [v' c']. by rewrite IH.
Qed.

Lemma redact_value_agree v w c : agree v w → _redact_value known v c = _redact_value known w c.
Proof.
  revert w c. induction v as [|b|z|f|s|items IH|kvs IH] using json_ind'; intros w c Ha;
    inversion Ha; subst; try done.
  - rewrite !redact_value_arr. by erewrite redact_items_agree.
  - rewrite !redact_value_obj. by erewrite redact_fields_agree.
Qed.
End clean.

(** ** Which names are secret *)

(** [r] describes the texts that are, without case, one of [words]. *)
Definition spells (r : regex) (words : list string) : Prop :=
  ∀ p q, matches r p q ↔
    ∃ u, p.2 = u +:+ q.2 ∧ q.1 = advance p.1 u ∧ str_map lower u ∈ words.

Definition concatenations (l m : list string) : list string := a ← l; b ← m; [a +:+ b].

Lemma str_map_app f u v : str_map f (u +:+ v) = str_map f u +:+ str_map f v.
Proof. induction u as [|c u IH]; [done|]. rewrite !str_app_cons. simpl. by rewrite IH. Qed.
Lemma elem_of_concatenations x l m : x ∈ concatenations l m ↔ ∃ a b, x = a +:+ b ∧ a ∈ l ∧ b ∈ m.
Proof.
  unfold concatenations. rewrite list_elem_of_bind. setoid_rewrite list_elem_of_bind.
  setoid_rewrite list_elem_of_singleton. naive_solver.
Qed.

Lemma str_map_split f u a b :
  str_map f u = a +:+ b → ∃ v w, u = v +:+ w ∧ str_map f v = a ∧ str_map f w = b.
Proof.
  revert a. induction u as [|c u IH]; intros a Hu.
  - destruct a; [|done]. by exists "", "".
  - destruct a as [|d a]; [by exists "", (String c u)|].
    rewrite str_app_cons in Hu. simpl in Hu. injection Hu as Hd (v & w & -> & Hv & Hw)%IH.
    exists (String c v), w. simpl. by rewrite Hd, Hv.
Qed.

Lemma spells_empty : spells Empty [""].
Proof.
  intros [prev s] [prev' s']. setoid_rewrite list_elem_of_singleton. split.
  - intros Hm. inversion Hm; subst. by exists "".
  - intros ([|c u] & Hs & Ha & Hu); [|done]. simpl in Hs, Ha. change (s = s') in Hs. subst. constructor.
Qed.
Lemma spells_seq a b l m : spells a l → spells b m → spells (Seq a b) (concatenations l m).
Proof.
  intros Ha Hb p o. setoid_rewrite elem_of_concatenations. split.
  - intros Hm. inversion Hm as [| |? ? ? q ? Hp Hq| | | | | | | | |]; subst.
    apply Ha in Hp as (u & Hu & Hpu & Hul). apply Hb in Hq as (v & Hv & Hqv & Hvm).
    exists (u +:+ v). rewrite Hu, Hv, str_app_assoc, advance_app, str_map_app, <-Hpu. eauto 8.
  - intros (u & Hu & Hpu & x & y & Hxy & Hx & Hy).
    apply str_map_split in Hxy as (v & w & -> & <- & <-). rewrite advance_app in Hpu.
    apply (m_seq _ _ _ (advance p.1 v, w +:+ o.2)).
    + apply Ha. exists v. by rewrite Hu, str_app_assoc.
    + apply Hb. by exists w.
Qed.
Lemma spells_alt a b l m : spells a l → spells b m → spells (Alt a b) (l ++ m).
Proof.
  intros Ha Hb p q. setoid_rewrite elem_of_app. split.
  - intros Hm. inversion Hm as [| | |? ? ? ? Hp|? ? ? ? Hp| | | | | | |]; subst.
    + apply Ha in Hp as (u & ? & ? & ?). eauto 6.
    + apply Hb in Hp as (u & ? & ? & ?). eauto 6.
  - intros (u & Hu & Hq & [Hl|Hl]); [apply m_left, Ha|apply m_right, Hb]; eauto.
Qed.
Lemma spells_class f l :
  (∀ x, f x = true ↔ String (lower x) "" ∈ l) → (∀ w, w ∈ l → String.length w = 1%nat) →
  spells (Class f) l.
Proof.
  intros Hf Hl [prev s] [prev' s']. split.
  - intros Hm. inversion Hm; subst. eexists (String _ ""). split_and!; [done..|]. by apply Hf.
  - intros (u & Hs & Ha & Hu). specialize (Hl _ Hu). simpl in Hs, Ha.
    destruct u as [|x [|y u]]; try discriminate Hl. subst. constructor. by apply Hf.
Qed.
Lemma spells_lit w : spells (lit_nocase w) [str_map lower w].
Proof.
  induction w as [|c w IH]; [apply spells_empty|].
  apply (spells_seq (Class (λ x, bool_decide (lower c = lower x))) _ [String (lower c) ""]
           [str_map lower w]); [|done].
  apply spells_class; [|by intros ? ->%list_elem_of_singleton].
  intros x. rewrite bool_decide_eq_true, list_elem_of_singleton. split; [by intros ->|by intros [= ->]].
Qed.

Lemma spells_dash : spells (Class dash) ["_"; "-"].
Proof.
  apply spells_class; [|set_solver]. intros x. rewrite !elem_of_cons, elem_of_nil.
  destruct x as [[] [] [] [] [] [] [] []]; vm_compute; split; try done; auto;
    intros [Hx|[Hx|[]]]; discriminate Hx.
Qed.
Lemma spells_joined a b :
  spells (joined a b) (concatenations [str_map lower a]
    (concatenations (["_"; "-"] ++ [""]) [str_map lower b])).
Proof.
  apply spells_seq; [apply spells_lit|]. apply spells_seq; [|apply spells_lit].
  apply spells_alt; [apply spells_dash|apply spells_empty].
Qed.

(** A secret word, with the separator inside it that may be left out. *)
Definition SECRET_WORDS : list string :=
  ["api_key"; "api-key"; "apikey"; "access_key"; "access-key"; "accesskey"; "client_secret";
   "client-secret"; "clientsecret"; "token"; "password"; "passwd"; "authorization"; "cookie";
   "secret"; "private_key"; "private-key"; "privatekey"; "connection_string"; "connection-string";
   "connectionstring"; "connection_url"; "connection-url"; "connectionurl"; "database_url";
   "database-url"; "databaseurl"].
Lemma spells_secret : spells _SECRET_NAME SECRET_WORDS.
Proof.
  repeat (first [refine (spells_alt _ _ [_; _; _] _ (spells_joined _ _) _)
                |refine (spells_alt _ _ [_] _ (spells_lit _) _)]).
  apply spells_joined.
Qed.

(** The word is at the start or after a separator, and at the end or before one. *)
Definition starts_word (before : string) : Prop :=
  before = "" ∨ ∃ b c, before = b +:+ String c "" ∧ dash c = true.
Definition ends_word (after : string) : Prop :=
  after = "" ∨ after = chr 10 ∨ ∃ c a, after = String c a ∧ dash c = true.

Lemma at_start u : advance None u = None ↔ u = "".
Proof.
  split; [|by intros ->]. destruct u as [|c u]; [done|]. simpl. revert c.
  induction u as [|d u IH]; intros c; [done|]. intros Hc. by apply (IH d) in Hc.
Qed.
Lemma at_end v : at_text_end (None, v) = true ↔ v = "" ∨ v = chr 10.
Proof.
  destruct v as [|c [|d v]]; simpl; [naive_solver| |].
  - destruct c as [[] [] [] [] [] [] [] []]; vm_compute; split; try done; auto;
      intros [Hx|Hx]; discriminate Hx.
  - split; [done|]. intros [?|Hv]; [done|]. by apply (f_equal String.length) in Hv.
Qed.

Lemma dash_matches p q : matches (Class dash) p q ↔ ∃ c, p.2 = String c q.2 ∧ q.1 = Some c ∧ dash c = true.
Proof.
  split.
  - intros Hm. inversion Hm; subst. eauto.
  - destruct p, q. intros (c & Hs & Hp & Hc). simpl in *. subst. by constructor.
Qed.

(** A field name is secret exactly when its normalized form contains, without
case, one of the listed words (with an underscore, a dash or nothing inside the
compound ones), at its start or after a separator, and at its end or before a
separator: the engine's search of the pattern misses no such name and takes no
other. *)
Theorem secret_field_spec key :
  secret_field key = true ↔
  ∃ before word after, normalized_key key = before +:+ word +:+ after
    ∧ str_map lower word ∈ SECRET_WORDS ∧ starts_word before ∧ ends_word after.
Proof.
  unfold secret_field, search. rewrite search_from_spec. unfold occurs. split.
  - intros (u & v & q & -> & Hm). cbn [_SECRET_FIELD seq_of] in Hm.
    inversion Hm as [| |? ? ? p1 ? Hl Hr| | | | | | | | |]; subst. clear Hm.
    inversion Hr as [| |? ? ? p2 ? Hw Ha| | | | | | | | |]; subst. clear Hr.
    apply spells_secret in Hw as (w & Hw & _ & Hin).
    assert (ends_word p2.2) as He.
    { inversion Ha as [| | |? ? ? ? Hx|? ? ? ? Hx| | | | | | |]; subst.
      - inversion Hx as [| | | | | | | | | | |? He]; subst.
        assert (at_text_end (None, q.2) = true) as [->| ->]%at_end by done; [by left|by right; left].
      - apply dash_matches in Hx as (c & Hc & _ & Hd). right. right. eauto. }
    inversion Hl as [| | |? ? ? ? Hx|? ? ? ? Hx| | | | | | |]; subst.
    + inversion Hx as [| | | | | | | | |? Hs| |]; subst. simpl in Hw. subst v.
      exists u, w, p2.2. split_and!; [done|done| |done]. left. apply at_start.
      unfold at_text_start in Hs. simpl in Hs. by destruct (advance None u).
    + apply dash_matches in Hx as (c & Hc & _ & Hd). simpl in Hc. subst v.
      exists (u +:+ String c ""), w, p2.2. split_and!; [|done| |done].
      * rewrite Hw. by rewrite str_app_assoc.
      * right. by exists u, c.
  - intros (before & word & after & Hk & Hin & Hb & Ha). rewrite Hk.
    assert (∀ prev, ∃ q, matches (Alt TextEnd (Class dash)) (prev, after) q) as Hafter.
    { intros prev. destruct Ha as [->|[->|(c & a & -> & Hc)]].
      - exists (prev, ""). by apply m_left, m_text_end.
      - exists (prev, chr 10). by apply m_left, m_text_end.
      - exists (Some c, a). by apply m_right, dash_matches; exists c. }
    assert (∀ prev, ∃ q, matches (Seq _SECRET_NAME (Alt TextEnd (Class dash))) (prev, word +:+ after) q) as Hword.
    { intros prev. destruct (Hafter (advance prev word)) as [q Hq]. exists q.
      eapply m_seq; [|exact Hq]. apply spells_secret. by exists word. }
    destruct Hb as [->|(b & c & -> & Hc)].
    + destruct (Hword None) as [q Hq]. exists "", (word +:+ after), q. split; [done|].
      eapply m_seq; [|exact Hq]. by apply m_left, m_text_start.
    + destruct (Hword (Some c)) as [q Hq]. exists b, (String c (word +:+ after)), q.
      split; [by rewrite str_app_assoc|].
      eapply m_seq; [|exact Hq]. apply m_right, dash_matches. by exists c.
Qed.

(** The result of redaction is clean: every text in it, name or value, went
through the text rules, no field at any depth has a name of hidden reasoning, and
every field with a secret name holds the placeholder of its kind. *)
Theorem redact_clean known v : clean known (redact known v).1.
Proof. apply redact_value_clean. Qed.

(** What redaction withholds does not influence its result: two values that
differ only below fields with a secret name or a name of hidden reasoning, at any
depth, have the same redacted value and the same counts. *)
Theorem redact_noninterference known v w : agree known v w → redact known v = redact known w.
Proof. apply redact_value_agree. Qed.
