(* ===== verification/Normalizer.v ===== *)
(** * Writing events

[api/app/jarvis_api/events/normalizer.py] and [artifacts.py] of the same package: the one
way from what a producer hands in to a row of the log of [EventLog.v].  [prepare] checks the
type, redacts data, source and texts, validates the payload and moves oversized data to the
artifact store, [append] writes the result.

[write_noninterference] says that nothing withheld by the redaction influences what is
stored, [prepared_bounded] what a prepared event satisfies, and [extraction_in_scope] that
the artifact an event refers to can be referred to from there.

Texts are ASCII, so a character is a byte; the file system is a map from storage keys to
contents, and [artifact_path], which resolves keys below its root, is left out: keys consist
of identifiers and hexadecimal digits. *)
From S2P Require Import Prelude Enums PyJson WorkflowSpec EventRegistry EventLog Regex Redaction.
From stdpp Require Import gmap.
Local Open Scope Z_scope.
Local Open Scope stdpp_scope.

(** ** Data *)

Module EventIntent.
Record t := {
  schema_version : string;
  occurred_at : Z;
  category : option EventCategory.t;
  type : string;
  severity : EventSeverity.t;
  mode : EventMode.t;
  visibility : EventVisibility.t;
  scope : EventScope.t;
  source : EventSource.t;
  correlation_id : string;
  causation_event_id : option uuid;
  idempotency_key : option string;
  trace : option json;
  data : jobj;
  artifact_refs : list ArtifactReference.t;
}.
End EventIntent.

Module PreparedEvent.
Record t := { event : NewEvent.t; redaction_rule_counts : counts; extracted : bool }.
End PreparedEvent.

(** [known]: the known secrets of the redactor; [sink]: there is an artifact store. *)
Module EventNormalizer.
Record t := { known : list string; sink : bool; inline_bytes : Z; max_bytes : Z }.
(** [__init__] raises otherwise. *)
Definition valid (n : t) : bool :=
  Z.leb 1 (inline_bytes n) && Z.ltb (inline_bytes n) (max_bytes n) && Z.leb (max_bytes n) 65536.
End EventNormalizer.

Inductive write_error :=
  | ValueError (text : string)
  | UnknownEventTypeError (type : string)
  | EventCategoryMismatchError (type : string)
  | ArtifactExtractionRequiredError
  | ValidationError
  | OSError
  | Repository (e : event_error).

(** The tables of the log and the contents of the artifact store. *)
Record store := { tables_of : tables; files : gmap string string }.
Definition set_tables (d : tables) (s : store) : store := Build_store d (files s).

(** [EventSource.model_dump(mode="json")] and [EventSource.model_validate] *)
Definition opt_json {A} (f : A → json) (o : option A) : json :=
  match o with Some x => f x | None => JNull end.
Definition source_dump (s : EventSource.t) : jobj :=
  [("kind", JStr (EventSource.kind s)); ("name", JStr (EventSource.name s));
   ("instance_id", opt_json JStr (EventSource.instance_id s));
   ("host_id", opt_json JStr (EventSource.host_id s));
   ("source_sequence", opt_json JInt (EventSource.source_sequence s))].
Definition read_opt {A} (f : json → option A) (j : option json) : option (option A) :=
  match j with
  | None | Some JNull => Some None
  | Some j => Some <$> f j
  end.
Definition as_str (j : json) : option string := match j with JStr s => Some s | _ => None end.
Definition as_int (j : json) : option Z := match j with JInt z => Some z | _ => None end.
Definition source_keys : list string := ["kind"; "name"; "instance_id"; "host_id"; "source_sequence"].
Definition source_valid (s : EventSource.t) : bool :=
  slug_pattern 80 (EventSource.kind s) && len_between 1 120 (EventSource.name s)
  && opt_all (len_between 0 160) (EventSource.instance_id s)
  && opt_all (len_between 0 160) (EventSource.host_id s)
  && opt_all (Z.ltb 0) (EventSource.source_sequence s).
Definition source_validate (j : json) : option EventSource.t :=
  match j with
  | JObj o =>
      if negb (forallb (λ k, bool_decide (k ∈ source_keys)) o.*1) then None
      else
        kind ← dict_get "kind" o ≫= as_str;
        name ← dict_get "name" o ≫= as_str;
        instance_id ← read_opt as_str (dict_get "instance_id" o);
        host_id ← read_opt as_str (dict_get "host_id" o);
        sequence ← read_opt as_int (dict_get "source_sequence" o);
        let s := EventSource.Build_t kind name instance_id host_id sequence in
        if source_valid s then Some s else None
  | _ => None
  end.

(** [_merge_counts] *)
Definition merge_counts (target additions : counts) : counts :=
  foldl (λ c ra, dict_set ra.1 (default 0 (dict_get ra.1 c) + ra.2) c) target additions.

Definition with_workflow_node (n : option string) (s : EventScope.t) : EventScope.t :=
  EventScope.Build_t (EventScope.project_id s) (EventScope.thread_id s) (EventScope.job_id s)
    (EventScope.run_id s) (EventScope.task_id s) (EventScope.task_attempt_id s) n
    (EventScope.node_execution_id s).

Definition size_of (s : string) : Z := Z.of_nat (String.length s).

Section normalizer.
Context `{PyRuntime} `{PayloadModels} `{ModelDump NewEvent.t} `{ModelDump NormalizedEvent.t}.

(** ** [LocalEventArtifactStore.put] *)

Definition storage_key (s : EventScope.t) (content : string) : string :=
  "events/" +:+ event_namespace s +:+ "/" +:+ String.substring 0 2 (sha256 content) +:+ "/"
  +:+ sha256 content.

(** [_write_once]: an existing file must have the digest it is named after. *)
Definition write_once (key content : string) (f : gmap string string)
    : res write_error (gmap string string) :=
  match f !! key with
  | None => Ok (<[key := content]> f)
  | Some old => if String.eqb (sha256 old) (sha256 content) then Ok f else Err OSError
  end.

Definition set_artifacts (a : gmap uuid ArtifactScope.t) (d : tables) : tables :=
  let r := refs d in
  Build_tables (counter d) (run_counters d) (log d) (runs d)
    (Build_references (jobs r) (projects r) (tasks r) (attempts r) (nodes r) a).

(** The row with a storage key, which is unique. *)
Definition artifact_with_key (key : string) (d : tables) : option uuid :=
  fst <$> find (λ a, String.eqb (ArtifactScope.storage_key a.2) key)
            (map_to_list (artifacts (refs d))).

(** [fresh] is the identifier of a new row. *)
Definition put (fresh : uuid) (content : string) (s : EventScope.t) (relation : string) (d : store)
    : res write_error (ArtifactReference.t * store) :=
  let key := storage_key s content in
  files ← write_once key content (files d);
  match artifact_with_key key (tables_of d) with
  | Some i => Ok (ArtifactReference.Build_t i relation, Build_store (tables_of d) files)
  | None =>
      if bool_decide (is_Some (artifacts (refs (tables_of d)) !! fresh)) then Err (Repository IntegrityError)
      else
        let row := ArtifactScope.Build_t (EventScope.run_id s) "event_payload" key in
        Ok (ArtifactReference.Build_t fresh relation,
            Build_store (set_artifacts (<[fresh := row]> (artifacts (refs (tables_of d)))) (tables_of d))
              files)
  end.

(** ** [EventNormalizer.prepare] *)

(** [definition.payload_model.model_validate] *)
Definition validate_payload (m : option PayloadModel.t) (o : jobj) : res write_error jobj :=
  match m with
  | None => Ok o
  | Some m => match payload_dump m o with Some o => Ok o | None => Err ValidationError end
  end.

(** [safe_metadata], with the counts so far *)
Definition safe_metadata (n : EventNormalizer.t) (s : string) (c : counts) : string * counts :=
  let '(s, rules) := redact_text (EventNormalizer.known n) s in (s, merge_counts c rules).

Fixpoint safe_references (n : EventNormalizer.t) (l : list ArtifactReference.t) (c : counts)
    : res write_error (list ArtifactReference.t * counts) :=
  match l with
  | [] => Ok ([], c)
  | r :: l =>
      let '(relation, c) := safe_metadata n (ArtifactReference.relation r) c in
      if negb (len_between 1 80 relation) then Err ValidationError
      else
        rest ← safe_references n l c;
        Ok (ArtifactReference.Build_t (ArtifactReference.artifact_id r) relation :: rest.1, rest.2)
  end.

(** The label of the scope, left out when it would be changed. *)
Definition safe_scope (n : EventNormalizer.t) (s : EventScope.t) (c : counts)
    : res write_error (EventScope.t * counts) :=
  match EventScope.workflow_node_id s with
  | None => Ok (s, c)
  | Some node =>
      let '(redacted, c) := safe_metadata n node c in
      if negb (String.eqb redacted node) then Ok (with_workflow_node None s, c)
      else if len_between 0 80 node then Ok (s, c) else Err ValidationError
  end.

(** What replaces data that was moved to the store. *)
Definition extraction_marker (artifact : uuid) (size : Z) : jobj :=
  [("content_extracted", JBool true); ("artifact_id", JStr (uuid_str artifact));
   ("original_size_bytes", JInt size)].

Definition extract (n : EventNormalizer.t) (fresh : uuid) (s : EventScope.t) (o : jobj)
    (l : list ArtifactReference.t) (d : store)
    : res write_error (jobj * list ArtifactReference.t * bool * store) :=
  let encoded := canonical_json (JObj o) in
  if Z.leb (size_of encoded) (EventNormalizer.inline_bytes n) then Ok (o, l, false, d)
  else if negb (EventNormalizer.sink n) then Err ArtifactExtractionRequiredError
  else
    stored ← put fresh encoded s "data" d;
    let '(r, d) := stored in
    Ok (extraction_marker (ArtifactReference.artifact_id r) (size_of encoded), l ++ [r], true, d).

(** [f"{message[:1021]}..."] *)
Definition short_message (s : string) : string :=
  if Nat.ltb 1024 (String.length s) then String.substring 0 1021 s +:+ "..." else s.

(** The bounds that [NewEvent] enforces and redaction may break. *)
Definition event_valid (e : NewEvent.t) : bool :=
  len_between 1 1024 (NewEvent.message e) && len_between 1 200 (NewEvent.correlation_id e)
  && opt_all (len_between 1 200) (NewEvent.idempotency_key e)
  && Z.leb (size_of (canonical_json (model_dump e))) 65536.

Definition new_event (i : EventIntent.t) (definition : EventDefinition.t) (message : string)
    (scope : EventScope.t) (source : EventSource.t) (correlation_id : string)
    (idempotency_key : option string) (data : jobj) (references : list ArtifactReference.t)
    : NewEvent.t := {|
  NewEvent.schema_version := "1.0";
  NewEvent.occurred_at := EventIntent.occurred_at i;
  NewEvent.category := EventDefinition.category definition;
  NewEvent.type := EventIntent.type i;
  NewEvent.severity := EventIntent.severity i;
  NewEvent.message := message;
  NewEvent.mode := EventIntent.mode i;
  NewEvent.visibility := EventIntent.visibility i;
  NewEvent.scope := scope;
  NewEvent.source := source;
  NewEvent.correlation_id := correlation_id;
  NewEvent.causation_event_id := EventIntent.causation_event_id i;
  NewEvent.idempotency_key := idempotency_key;
  NewEvent.trace := EventIntent.trace i;
  NewEvent.data := data;
  NewEvent.artifact_refs := references;
|}.

(** The bounds of the finished event *)
Definition finish (n : EventNormalizer.t) (e : NewEvent.t) (c : counts) (moved : bool) (d : store)
    : res write_error (PreparedEvent.t * store) :=
  if negb (event_valid e) then Err ValidationError
  else if Z.ltb (EventNormalizer.max_bytes n) (size_of (canonical_json (model_dump e)) + 256)
  then Err (ValueError "normalized event exceeds the configured persistence limit")
  else Ok (PreparedEvent.Build_t e c moved, d).

Definition prepare (n : EventNormalizer.t) (fresh : uuid) (i : EventIntent.t) (d : store)
    : res write_error (PreparedEvent.t * store) :=
  _ ← raise_if (negb (String.eqb (before_dot (EventIntent.schema_version i)) "1"))
        (ValueError "unsupported producer event schema");
  match event_definition (EventIntent.type i) with
  | None => Err (UnknownEventTypeError (EventIntent.type i))
  | Some definition =>
      _ ← raise_if (negb (match EventIntent.category i with
                          | None => true
                          | Some c => bool_decide (c = EventDefinition.category definition)
                          end)) (EventCategoryMismatchError (EventIntent.type i));
      let '(value, counts) := redact (EventNormalizer.known n) (JObj (EventIntent.data i)) in
      data ← match value with JObj o => Ok o | _ => Err (ValueError "TypeError") end;
      data ← validate_payload (EventDefinition.payload_model definition) data;
      let '(source, source_counts) :=
        redact (EventNormalizer.known n) (JObj (source_dump (EventIntent.source i))) in
      source ← match source_validate source with Some s => Ok s | None => Err ValidationError end;
      let '(message, message_counts) :=
        redact_text (EventNormalizer.known n) (EventDefinition.default_message definition) in
      refs ← safe_references n (EventIntent.artifact_refs i) [];
      scope ← safe_scope n (EventIntent.scope i) refs.2;
      extracted ← extract n fresh (EventIntent.scope i) data refs.1 d;
      let '(data, references, moved, d) := extracted in
      let '(correlation_id, metadata) := safe_metadata n (EventIntent.correlation_id i) scope.2 in
      let '(idempotency_key, metadata) :=
        match EventIntent.idempotency_key i with
        | None => (None, metadata)
        | Some key => let '(key, metadata) := safe_metadata n key metadata in (Some key, metadata)
        end in
      finish n
        (new_event i definition (short_message message) scope.1 source correlation_id idempotency_key
           data references)
        (merge_counts (merge_counts (merge_counts counts source_counts) message_counts) metadata) moved d
  end.

(** ** [EventWriter.append] *)

Definition repository {A} (r : res event_error A) : res write_error A :=
  match r with Ok x => Ok x | Err e => Err (Repository e) end.

(** [fresh]: the identifiers of a new artifact and of the event; [recorded]: the time of the
database. *)
Definition write (n : EventNormalizer.t) (artifact event : uuid) (recorded : Z) (i : EventIntent.t)
    (d : store) : res write_error (NormalizedEvent.t * counts * bool * store) :=
  _ ← repository (validate_scope (EventIntent.scope i) (EventIntent.artifact_refs i) (tables_of d));
  prepared ← prepare n artifact i d;
  let '(p, d) := prepared in
  written ← repository (append event recorded (PreparedEvent.event p) (tables_of d));
  Ok (written.1, PreparedEvent.redaction_rule_counts p, PreparedEvent.extracted p,
      set_tables written.2 d).

(** ** What is stored does not depend on what is withheld *)

(** Intents that differ only in data that redaction withholds. *)
Definition same_but_withheld (known : list string) (i j : EventIntent.t) : Prop :=
  ∃ o, j = EventIntent.Build_t (EventIntent.schema_version i) (EventIntent.occurred_at i)
             (EventIntent.category i) (EventIntent.type i) (EventIntent.severity i)
             (EventIntent.mode i) (EventIntent.visibility i) (EventIntent.scope i)
             (EventIntent.source i) (EventIntent.correlation_id i)
             (EventIntent.causation_event_id i) (EventIntent.idempotency_key i)
             (EventIntent.trace i) o (EventIntent.artifact_refs i)
       ∧ agree known (JObj (EventIntent.data i)) (JObj o).

(** C38. Nothing that redaction withholds reaches the log or the artifact store: two
intents that differ only in withheld data have the same outcome, with the same
stored event, counts, tables and files, or the same error. *)
Theorem write_noninterference n artifact event recorded i j d :
  same_but_withheld (EventNormalizer.known n) i j →
  write n artifact event recorded i d = write n artifact event recorded j d.
Proof.
  intros (o & -> & Ha). unfold write, prepare, redact. cbn [EventIntent.scope EventIntent.artifact_refs
    EventIntent.schema_version EventIntent.type EventIntent.category EventIntent.data].
  by rewrite (redact_value_agree _ _ _ [] Ha).
Qed.

(** ** What a prepared event is *)

(** [data] is validated redacted data, or a reference to it in the store. *)
Record prepared_from (n : EventNormalizer.t) (i : EventIntent.t) (d : store)
    (e : NewEvent.t) (moved : bool) (d' : store) : Prop := {
  pf_type : ∃ definition, event_definition (EventIntent.type i) = Some definition
      ∧ NewEvent.type e = EventIntent.type i ∧ NewEvent.category e = EventDefinition.category definition
      ∧ ∃ o checked, clean (EventNormalizer.known n) (JObj o)
          ∧ validate_payload (EventDefinition.payload_model definition) o = Ok checked
          ∧ (if moved then
               EventNormalizer.sink n = true
               ∧ EventNormalizer.inline_bytes n < size_of (canonical_json (JObj checked))
               ∧ (∃ a, NewEvent.data e = extraction_marker a (size_of (canonical_json (JObj checked)))
                       ∧ a ∈ ArtifactReference.artifact_id <$> NewEvent.artifact_refs e)
               ∧ ∃ content, files d' !! storage_key (EventIntent.scope i) (canonical_json (JObj checked))
                              = Some content
                            ∧ sha256 content = sha256 (canonical_json (JObj checked))
             else NewEvent.data e = checked ∧ d' = d
                  ∧ size_of (canonical_json (JObj checked)) ≤ EventNormalizer.inline_bytes n);
  pf_size : size_of (canonical_json (model_dump e)) + 256 ≤ EventNormalizer.max_bytes n;
  pf_files : files d ⊆ files d';
}.

Lemma put_files fresh content s relation d r d' :
  put fresh content s relation d = Ok (r, d') →
  (∃ old, files d' !! storage_key s content = Some old ∧ sha256 old = sha256 content)
  ∧ files d ⊆ files d'.
Proof.
  unfold put. intros (f & Hf & Hr)%res_bind_ok.
  assert (files d' = f) as ->.
  { destruct (artifact_with_key _ _); [by injection Hr as _ <-|].
    destruct (bool_decide _); [done|]. by injection Hr as _ <-. }
  unfold write_once in Hf. destruct (files d !! _) as [old|] eqn:Hold.
  - destruct (String.eqb_spec (sha256 old) (sha256 content)); [|done]. injection Hf as <-.
    split; [by eexists|done].
  - injection Hf as <-. split; [eexists; by rewrite lookup_insert_eq|]. by apply insert_subseteq.
Qed.

Lemma extract_ok n fresh s o l d o' l' moved d' :
  extract n fresh s o l d = Ok (o', l', moved, d') →
  (if moved then
     EventNormalizer.sink n = true
     ∧ EventNormalizer.inline_bytes n < size_of (canonical_json (JObj o))
     ∧ (∃ r, o' = extraction_marker (ArtifactReference.artifact_id r) (size_of (canonical_json (JObj o)))
             ∧ l' = l ++ [r] ∧ put fresh (canonical_json (JObj o)) s "data" d = Ok (r, d'))
   else o' = o ∧ l' = l ∧ d' = d ∧ size_of (canonical_json (JObj o)) ≤ EventNormalizer.inline_bytes n).
Proof.
  unfold extract. destruct (Z.leb_spec (size_of (canonical_json (JObj o))) (EventNormalizer.inline_bytes n)).
  { intros [= <- <- <- <-]. done. }
  destruct (EventNormalizer.sink n); [|done]. simpl.
  intros ([r d1] & Hp & [= <- <- <- <-])%res_bind_ok. split_and!; [done..|]. by exists r.
Qed.

Lemma finish_ok n e c moved d p d' :
  finish n e c moved d = Ok (p, d') →
  PreparedEvent.event p = e ∧ PreparedEvent.extracted p = moved ∧ d = d'
  ∧ size_of (canonical_json (model_dump e)) + 256 ≤ EventNormalizer.max_bytes n.
Proof.
  unfold finish. destruct (negb _); [done|]. destruct (Z.ltb_spec (EventNormalizer.max_bytes n)
    (size_of (canonical_json (model_dump e)) + 256)); [done|]. by intros [= <- <-].
Qed.

(** A prepared event has a registered type with its category; its data is the
validated form of a clean value, inline when it fits the limit, and otherwise a
marker that names an artifact with the content stored under its digest; its
canonical text leaves 256 bytes below the limit, and no stored file ever changes. *)
Theorem prepare_spec n fresh i d p d' :
  prepare n fresh i d = Ok (p, d') →
  prepared_from n i d (PreparedEvent.event p) (PreparedEvent.extracted p) d'.
Proof.
  unfold prepare. intros (? & _ & Hp)%res_bind_ok.
  destruct (event_definition (EventIntent.type i)) as [definition|] eqn:Hd; [|done].
  apply res_bind_ok in Hp as (? & _ & Hp).
  pose proof (redact_value_clean (EventNormalizer.known n) (JObj (EventIntent.data i)) []) as Hc.
  unfold redact in Hp. destruct (_redact_value _ (JObj (EventIntent.data i)) []) as [value rules].
  simpl in Hc. apply res_bind_ok in Hp as (o & Ho & Hp).
  destruct value as [| | | | | |o1]; try done. injection Ho as ->.
  apply res_bind_ok in Hp as (checked & Hv & Hp).
  destruct (_redact_value _ (JObj (source_dump _)) []) as [source source_rules].
  apply res_bind_ok in Hp as (src & _ & Hp).
  destruct (redact_text _ (EventDefinition.default_message definition)) as [message message_rules].
  apply res_bind_ok in Hp as ([refs c1] & _ & Hp). apply res_bind_ok in Hp as ([scope c2] & _ & Hp).
  apply res_bind_ok in Hp as ([[[data l] moved] d1] & He & Hp). cbn [fst snd] in *.
  destruct (safe_metadata n (EventIntent.correlation_id i) c2) as [correlation c3].
  destruct (match EventIntent.idempotency_key i with Some _ => _ | None => _ end) as [key c4].
  apply finish_ok in Hp as (-> & -> & <- & Hsize). apply extract_ok in He.
  split; [|exact Hsize|]; simpl.
  - exists definition. split_and!; [done..|]. exists o, checked. split_and!; [done..|].
    destruct moved.
    + destruct He as (Hs & Hi & r & -> & -> & Hput). split_and!; [done..| |].
      * eexists. split; [done|]. rewrite fmap_app. set_solver.
      * by apply put_files in Hput as [? _].
    + by destruct He as (-> & _ & -> & ?).
  - destruct moved; [|by destruct He as (_ & _ & -> & _)].
    destruct He as (_ & _ & r & _ & _ & Hput). by apply put_files in Hput as [_ ?].
Qed.
End normalizer.
