(* ===== verification/Budget.v ===== *)
(** * Budget authorization of paid inference

[orchestrator/app/jarvis_orchestrator/providers/budget.py] and
[orchestrator/app/jarvis_orchestrator/team_resources.py]: before a paid call is issued
the spend policy of the run's route must allow it, given what the run has durably spent
([run_spend]: unknown while any started call has no result), and a team may not exceed
its number of calls.  A grant is stored under the call's ID and replayed. *)
From S2P Require Import Prelude Enums PyJson PyDecimal PyDecimalText Failures Registry.
From S2P Require Import WorkflowSpec Normalize RawValidation NodeFactory Database Ownership.
From S2P Require Import Routing Effects Accounting.
From stdpp Require Import gmap.
From Stdlib Require Import Ascii.
Local Open Scope Z_scope.
Local Open Scope stdpp_scope.

Definition PROVIDER_REQUEST_OVERHEAD_TOKENS : Z := 256.

(** [BudgetDeniedError(reasons)] *)
Definition budget_denied (reasons : list string) : own_error :=
  ApplicationError ("BudgetDeniedError: " +:+ PyJson.join "; " reasons).

Module BudgetGateway.
Record t := {
  route : option RoutePolicySpec.t;
  route_revision_id : option uuid;
  max_inference_calls : option Z;
  mission_id : option uuid;
  team_version_id : option uuid;
}.
(** [self.route is None or self.route_revision_id is None] fails. *)
Definition bound (b : t) : option (RoutePolicySpec.t * uuid) :=
  route ← route b; i ← route_revision_id b; Some (route, i).
End BudgetGateway.

(** ** Team admission *)

Definition json_is (s : string) (j : option json) : bool :=
  match j with Some (JStr t) => String.eqb s t | _ => false end.

(** The rows of the team's management turns and runs. *)
Definition of_team (mission team : uuid) (d : db) (c : ModelCallModel.t) : bool :=
  match turn ← ModelCallModel.management_turn_id c; CallTables.management_turns (accounts d) !! turn with
  | Some turn => bool_decide (ManagementTurnModel.mission_id turn = mission)
                 && bool_decide (ManagementTurnModel.team_version_id turn = team)
  | None => false
  end
  || match i ← ModelCallModel.run_id c; runs d !! i with
     | Some run => json_is (uuid_str mission) (dict_get "mission_id" (RunModel.runtime_json run))
                   && json_is (uuid_str team) (dict_get "team_version_id" (RunModel.runtime_json run))
     | None => false
     end.

Definition team_calls (mission team : uuid) (d : db) : gset string :=
  list_to_set (ModelCallModel.correlation_id
    <$> filter (λ c, of_team mission team d c = true) (CallTables.model_calls (accounts d))).

(** [count(distinct(correlation_id))] *)
Definition inference_calls (mission team : uuid) (d : db) : Z :=
  Z.of_nat (size (team_calls mission team d)).

(** [ValueError(...)]; every transaction holds the lock on the event counter, so the
advisory lock is never waited for. *)
Definition reserve_inference_call (mission team : uuid) (maximum : Z) (d : db)
    : res string unit :=
  raise_if (Z.leb maximum (inference_calls mission team d)) "team_inference_call_budget_exceeded".

(** ** [run_spend] *)

(** [key.rpartition(":")[2]] *)
Fixpoint after_last (s : string) : option string :=
  match s with
  | EmptyString => None
  | String c r =>
      match after_last r with
      | Some t => Some t
      | None => if bool_decide (c = ":"%char) then Some r else None
      end
  end.
Definition stage_of (key : string) : string := default key (after_last key).

Record spend := { s_started : gset string; s_completed : gset string; s_total : decimal }.

(** What a [:result] row adds: nothing, an amount, or an unknown cost. *)
Inductive charge := NoCharge | Charge (amount : decimal) | UnknownCharge.

Section budget.
Context `{PyRuntime} `{PyStr} `{ModelDump ProviderTool.t} `{ModelDump SpendPolicy.t}.

Definition charge_of (record : jobj) : res own_error charge :=
  match dict_get "demo" record with
  | Some (JBool true) => Ok NoCharge
  | _ =>
      let stored := default JNull (dict_get "cost" record) in
      cost ← (if truthy stored
              then match stored with JObj o => Ok o | _ => Err (python_error "AttributeError") end
              else Ok []);
      let amount := default JNull (dict_get "amount" cost) in
      match default JNull (dict_get "status" cost) with
      | JStr status =>
          if String.eqb status "not_applicable" then Ok NoCharge
          else if String.eqb status "exact" || String.eqb status "estimated" then
            match amount with
            | JNull => Ok UnknownCharge
            | _ => match dec_of_string (py_str amount) with
                   | Some a => Ok (Charge a)
                   | None => Err (python_error "InvalidOperation")
                   end
            end
          else Ok UnknownCharge
      | JArr _ | JObj _ => Err (python_error "TypeError")
      | _ => Ok UnknownCharge
      end
  end.

(** The loop; [None] when the total is unknown. *)
Fixpoint spend_rows (rows : list ModelCallModel.t) (s : spend) : res own_error (option decimal) :=
  match rows with
  | [] => Ok (if bool_decide (s_started s ⊆ s_completed s) then Some (s_total s) else None)
  | row :: rest =>
      let stage := stage_of (ModelCallModel.idempotency_key row) in
      let call := ModelCallModel.correlation_id row in
      if String.eqb stage "started" then
        spend_rows rest (Build_spend ({[call]} ∪ s_started s) (s_completed s) (s_total s))
      else if String.eqb stage "result" then
        let s := Build_spend (s_started s) ({[call]} ∪ s_completed s) (s_total s) in
        charge ← charge_of (ModelCallModel.record_json row);
        match charge with
        | NoCharge => spend_rows rest s
        | UnknownCharge => Ok None
        | Charge a => spend_rows rest (Build_spend (s_started s) (s_completed s)
                                         (dec_add (s_total s) a))
        end
      else spend_rows rest s
  end.

Definition run_calls (run_id : uuid) (d : db) : list ModelCallModel.t :=
  filter (λ c, ModelCallModel.run_id c = Some run_id) (CallTables.model_calls (accounts d)).

Definition run_spend (run_id : uuid) (d : db) : res own_error (option decimal) :=
  spend_rows (run_calls run_id d) (Build_spend ∅ ∅ (dec_of_Z 0)).

(** ** [estimate_input_tokens] *)

(** Strings are their UTF-8 bytes. *)
Definition bytes (s : string) : Z := Z.of_nat (String.length s).

Definition estimate_input_tokens (request : ProviderRequest.t) : Z :=
  let size := bytes (ProviderRequest.text request) in
  let size := match ProviderRequest.structured_schema request with
              | Some schema => size + bytes (canonical_json (JObj schema))
              | None => size
              end in
  let size := foldl (λ n tool, n + bytes (canonical_json (model_dump tool))) size
                (ProviderRequest.tools request) in
  Z.max 1 (size + PROVIDER_REQUEST_OVERHEAD_TOKENS
           + 64 * Z.of_nat (length (ProviderRequest.tools request))).

(** ** [authorize] *)

Definition opt_json {A} (f : A → json) (o : option A) : json :=
  match o with Some x => f x | None => JNull end.

Definition policy_digest (b : BudgetGateway.t) : string :=
  let calls := opt_json JInt (BudgetGateway.max_inference_calls b) in
  match BudgetGateway.bound b with
  | None => sha256_digest (JObj [("spend", JNull); ("max_inference_calls", calls)])
  | Some (route, i) =>
      sha256_digest (JObj [("spend", model_dump (RoutePolicySpec.spend route));
                           ("route_revision_id", JStr (uuid_str i));
                           ("max_inference_calls", calls)])
  end.

(** The team's budget, before anything else. *)
Definition team_admission (b : BudgetGateway.t) (d : db) : res own_error unit :=
  match BudgetGateway.max_inference_calls b with
  | None => Ok tt
  | Some maximum =>
      match BudgetGateway.mission_id b, BudgetGateway.team_version_id b with
      | Some mission, Some team =>
          match reserve_inference_call mission team maximum d with
          | Ok _ => Ok tt
          | Err message => Err (budget_denied [message])
          end
      | _, _ => Err (budget_denied ["Team inference budget identity is incomplete"])
      end
  end.

Definition requirements_of (request : ProviderRequest.t) (spent : option decimal)
    : RouteRequirements.t := {|
  RouteRequirements.purpose := ProviderRequest.purpose request;
  RouteRequirements.capabilities := [];
  RouteRequirements.input_tokens := estimate_input_tokens request;
  RouteRequirements.output_tokens := ProviderRequest.output_tokens request;
  RouteRequirements.data_classification := ProviderRequest.data_classification request;
  RouteRequirements.run_spend := spent;
|}.

(** Decision, reasons and estimate of a call without a grant. *)
Definition spend_decision (b : BudgetGateway.t) (request : ProviderRequest.t)
    (profile : ModelProfileSpec.t) (spent : option decimal)
    : res own_error (Decision3.t * list string * option decimal) :=
  match BudgetGateway.bound b with
  | None => Ok (Decision3.deny, ["Paid use requires an immutable bound route policy"], None)
  | Some (route, _) =>
      let policy := RoutePolicySpec.spend route in
      let pricing := ModelProfileSpec.pricing profile in
      if negb (bool_decide (Pricing.status pricing = PricingStatus.known))
      then Ok (Decision3.deny, ["Paid provider pricing is not known"], None)
      else if bool_decide (spent = None) && negb (bool_decide (SpendPolicy.max_run_cost policy = None))
      then Ok (Decision3.deny, ["Durable run spend cannot be determined"], None)
      else
        let requirements := requirements_of request spent in
        if RouteRequirements.valid requirements then
          let decided := evaluate_spend policy requirements pricing true in
          Ok (decided.1, decided.2,
              Cost.amount (calculate_cost (estimated_usage requirements) pricing))
        else Err validation_error
  end.

(** The references of the new row. *)
Definition grant_known (b : BudgetGateway.t) (profile provider : uuid) (d : db) : bool :=
  opt_all (λ i, revision_known i d) (BudgetGateway.route_revision_id b)
  && revision_known profile d && revision_known provider d.

(** [run_id] names an existing run: the fence has read it. *)
Definition authorize (b : BudgetGateway.t) (run_id call_id : uuid) (request : ProviderRequest.t)
    (profile : ModelProfileSpec.t) (profile_id provider_id : uuid) (request_digest : string)
    (paid : bool) (d : db) : res own_error (option ModelBudgetGrantModel.t * db) :=
  _ ← team_admission b d;
  if negb paid then Ok (None, d)
  else
    match CallTables.grants (accounts d) !! call_id with
    | Some grant =>
        if negb (bool_decide (ModelBudgetGrantModel.run_id grant = run_id)
                 && bool_decide (ModelBudgetGrantModel.request_digest grant = request_digest)
                 && bool_decide (ModelBudgetGrantModel.policy_digest grant = policy_digest b))
        then Err (budget_denied ["Recorded budget grant does not match this call"])
        else if negb (bool_decide (ModelBudgetGrantModel.decision grant = Decision3.allow))
        then Err (budget_denied (ModelBudgetGrantModel.reasons_json grant))
        else Ok (Some grant, d)
    | None =>
        spent ← run_spend run_id d;
        decided ← spend_decision b request profile spent;
        let '(decision, reasons, estimate) := decided in
        let grant := {|
          ModelBudgetGrantModel.run_id := run_id;
          ModelBudgetGrantModel.route_revision_id := BudgetGateway.route_revision_id b;
          ModelBudgetGrantModel.profile_revision_id := profile_id;
          ModelBudgetGrantModel.provider_revision_id := provider_id;
          ModelBudgetGrantModel.request_digest := request_digest;
          ModelBudgetGrantModel.policy_digest := policy_digest b;
          ModelBudgetGrantModel.decision := decision;
          ModelBudgetGrantModel.reasons_json := reasons;
          ModelBudgetGrantModel.estimated_cost := estimate;
          ModelBudgetGrantModel.run_spend_before := spent;
        |} in
        if negb (grant_known b profile_id provider_id d) then Err integrity_error
        else Ok (Some grant, set_accounts (CallTables.put_grant call_id grant (accounts d)) d)
    end.
End budget.

(** ** [bound_budget] *)

Definition bound_budget (context : NodeContext.t) (max_inference_calls : option Z)
    (mission team : option uuid) : BudgetGateway.t :=
  let unbound := BudgetGateway.Build_t None None max_inference_calls mission team in
  match NodePolicy.model_route_ref (NodeContext.policy context) with
  | None => unbound
  | Some reference =>
      match find (λ row, bool_decide (WorkflowResolvedRevision.revision_id row = reference))
              (WorkflowResolvedSnapshot.revisions (NodeContext.snapshot context)) with
      | Some row =>
          match WorkflowResolvedRevision.spec row with
          | SRoutePolicy route =>
              BudgetGateway.Build_t (Some route) (Some reference) max_inference_calls mission team
          | _ => unbound
          end
      | None => unbound
      end
  end.

(** ** Spend *)

Definition staged (stage : string) (c : ModelCallModel.t) : bool :=
  String.eqb (stage_of (ModelCallModel.idempotency_key c)) stage.

Definition add_charge (total : decimal) (c : charge) : decimal :=
  match c with Charge a => dec_add total a | _ => total end.

Section spend.
Context `{PyRuntime} `{PyStr}.

(** A known total: every started call has a result, every result a known charge, and
the total is their sum. *)
Record spent (rows : list ModelCallModel.t) (total : decimal) : Prop := {
  sp_reconciled : ∀ c, c ∈ rows → staged "started" c = true →
    ∃ r, r ∈ rows ∧ staged "result" r = true
         ∧ ModelCallModel.correlation_id r = ModelCallModel.correlation_id c;
  sp_total : ∃ charges,
    Forall2 (λ r x, charge_of (ModelCallModel.record_json r) = Ok x ∧ x ≠ UnknownCharge)
      (filter (λ c, staged "result" c = true) rows) charges
    ∧ total = foldl add_charge (dec_of_Z 0) charges;
}.

Definition calls_at (stage : string) (rows : list ModelCallModel.t) : gset string :=
  list_to_set (ModelCallModel.correlation_id <$> filter (λ c, staged stage c = true) rows).

Lemma elem_of_calls_at stage rows i :
  i ∈ calls_at stage rows ↔
  ∃ c, c ∈ rows ∧ staged stage c = true ∧ ModelCallModel.correlation_id c = i.
Proof.
  unfold calls_at. rewrite elem_of_list_to_set, list_elem_of_fmap.
  setoid_rewrite list_elem_of_filter. naive_solver.
Qed.

Lemma calls_at_cons stage c rows :
  calls_at stage (c :: rows)
  = (if staged stage c then {[ModelCallModel.correlation_id c]} else ∅) ∪ calls_at stage rows.
Proof.
  unfold calls_at. rewrite filter_cons. destruct (staged stage c); case_decide; try done.
  set_solver.
Qed.

Lemma spend_rows_spec rows s total :
  spend_rows rows s = Ok (Some total) →
  s_started s ∪ calls_at "started" rows ⊆ s_completed s ∪ calls_at "result" rows
  ∧ ∃ charges,
      Forall2 (λ r x, charge_of (ModelCallModel.record_json r) = Ok x ∧ x ≠ UnknownCharge)
        (filter (λ c, staged "result" c = true) rows) charges
      ∧ total = foldl add_charge (s_total s) charges.
Proof.
  revert s. induction rows as [|c rows IH]; intros s; simpl.
  - case_bool_decide as Hs; [|done]. intros [= <-]. split; [set_solver|]. by exists [].
  - rewrite !calls_at_cons, filter_cons. fold (staged "started" c) (staged "result" c).
    destruct (staged "started" c) eqn:Hst.
    { assert (staged "result" c = false) as Hr.
      { unfold staged in *. apply String.eqb_eq in Hst. by rewrite Hst. }
      rewrite Hr. case_decide; [done|]. intros [Hs Hc]%IH. simpl in *. split; [clear -Hs; set_solver|done]. }
    destruct (staged "result" c) eqn:Hr; case_decide; try done.
    + intros (x & Hx & Hs)%res_bind_ok. destruct x as [|a|]; [| |done];
        apply IH in Hs as [Hs (charges & Hf & ->)]; simpl in *; (split; [clear -Hs; set_solver|]).
      * exists (NoCharge :: charges). split; [by constructor|done].
      * exists (Charge a :: charges). split; [by constructor|done].
    + intros [Hs Hc]%IH. split; [clear -Hs; set_solver|done].
Qed.

Lemma run_spend_known run_id d total :
  run_spend run_id d = Ok (Some total) → spent (run_calls run_id d) total.
Proof.
  unfold run_spend. intros [Hs Hc]%spend_rows_spec. simpl in Hs. split; [|exact Hc].
  intros c Hin Hst.
  assert (ModelCallModel.correlation_id c ∈ calls_at "result" (run_calls run_id d)) as Hr.
  { apply elem_of_subseteq in Hs.
    assert (ModelCallModel.correlation_id c ∈ calls_at "started" (run_calls run_id d))
      by (apply elem_of_calls_at; eauto). set_solver. }
  by apply elem_of_calls_at.
Qed.
End spend.

(** ** What [authorize] grants *)

Section authorization.
Context `{PyRuntime} `{PyStr} `{ModelDump ProviderTool.t} `{ModelDump SpendPolicy.t}.

(** A new grant that allows the call. *)
Record granted (b : BudgetGateway.t) (run_id call_id : uuid) (request : ProviderRequest.t)
    (profile : ModelProfileSpec.t) (request_digest : string) (d : db)
    (g : ModelBudgetGrantModel.t) (route : RoutePolicySpec.t) (total : option decimal) : Prop := {
  gr_route : ∃ i, BudgetGateway.bound b = Some (route, i);
  gr_digest : ModelBudgetGrantModel.request_digest g = request_digest;
  gr_policy : ModelBudgetGrantModel.policy_digest g = policy_digest b;
  gr_pricing : Pricing.status (ModelProfileSpec.pricing profile) = PricingStatus.known;
  gr_spend : run_spend run_id d = Ok total;
  gr_cap : SpendPolicy.max_run_cost (RoutePolicySpec.spend route) ≠ None → total ≠ None;
  gr_affordable : SpendPolicy.valid (RoutePolicySpec.spend route) = true →
    affordable (RoutePolicySpec.spend route) (requirements_of request total)
      (ModelProfileSpec.pricing profile) true;
}.

Lemma spend_decision_allow b request profile total reasons estimate :
  spend_decision b request profile total = Ok (Decision3.allow, reasons, estimate) →
  ∃ route i, BudgetGateway.bound b = Some (route, i)
  ∧ Pricing.status (ModelProfileSpec.pricing profile) = PricingStatus.known
  ∧ (SpendPolicy.max_run_cost (RoutePolicySpec.spend route) ≠ None → total ≠ None)
  ∧ (SpendPolicy.valid (RoutePolicySpec.spend route) = true →
     affordable (RoutePolicySpec.spend route) (requirements_of request total)
       (ModelProfileSpec.pricing profile) true).
Proof.
  unfold spend_decision. destruct (BudgetGateway.bound b) as [[route i]|]; [|done].
  case_bool_decide as Hp; simpl; [|done].
  destruct (bool_decide (total = None) && _) eqn:Hc; [done|].
  destruct (RouteRequirements.valid _); [|done]. intros [= Hd _ _].
  exists route, i. split_and!; try done.
  - intros Hm Ht. rewrite bool_decide_eq_true_2 in Hc by done.
    rewrite bool_decide_eq_false_2 in Hc by done. done.
  - intros Hv. by apply evaluate_spend_allow.
Qed.

(** The tables change only by the new grant. *)
Lemma authorize_ok b run_id call_id request profile profile_id provider_id digest paid d g d' :
  authorize b run_id call_id request profile profile_id provider_id digest paid d = Ok (g, d') →
  team_admission b d = Ok tt
  ∧ match g with
    | None => paid = false ∧ d' = d
    | Some g =>
        paid = true
        ∧ (CallTables.grants (accounts d) !! call_id = Some g
           ∧ ModelBudgetGrantModel.decision g = Decision3.allow ∧ d' = d
           ∨ CallTables.grants (accounts d) !! call_id = None
             ∧ d' = set_accounts (CallTables.put_grant call_id g (accounts d)) d
             ∧ (ModelBudgetGrantModel.decision g = Decision3.allow →
                ∃ route total, granted b run_id call_id request profile digest d g route total))
    end.
Proof.
  unfold authorize. intros ([] & Ha & Hb)%res_bind_ok. split; [done|].
  destruct paid; simpl in Hb; [|by injection Hb as <- <-].
  destruct (CallTables.grants (accounts d) !! call_id) as [grant|] eqn:Hg.
  - destruct (negb _); [done|]. case_bool_decide; simpl in Hb; [|done].
    injection Hb as <- <-. split; [done|]. by left.
  - apply res_bind_ok in Hb as (total & Hs & ([[decision reasons] estimate] & Hd & Hb)%res_bind_ok).
    destruct (negb _); [done|]. injection Hb as <- <-. split; [done|]. right.
    split_and!; try done. simpl. intros ->.
    apply spend_decision_allow in Hd as (route & i & ? & ? & ? & ?).
    exists route, total. split; try done. by exists i.
Qed.
End authorization.

(** ** The team's count *)

(** Rows of one call count once. *)
Lemma team_calls_added mission team call d d' :
  runs d' = runs d →
  CallTables.management_turns (accounts d') = CallTables.management_turns (accounts d) →
  (∃ rows, CallTables.model_calls (accounts d') = CallTables.model_calls (accounts d) ++ rows
           ∧ Forall (λ c, ModelCallModel.correlation_id c = call) rows) →
  team_calls mission team d' ⊆ {[call]} ∪ team_calls mission team d.
Proof.
  intros Hr Ht (rows & Hm & Hc) i. unfold team_calls. rewrite Hm, filter_app, fmap_app.
  rewrite elem_of_union, elem_of_singleton, !elem_of_list_to_set, elem_of_app.
  intros [Hi|Hi]; apply list_elem_of_fmap in Hi as (c & -> & [Hteam Hin]%list_elem_of_filter).
  - right. apply list_elem_of_fmap. exists c. split; [done|]. apply list_elem_of_filter.
    split; [|done]. rewrite <-Hteam. unfold of_team. by rewrite Hr, Ht.
  - left. by apply (proj1 (Forall_forall _ _) Hc).
Qed.

Lemma inference_calls_added mission team call d d' :
  team_calls mission team d' ⊆ {[call]} ∪ team_calls mission team d →
  inference_calls mission team d' ≤ inference_calls mission team d + 1.
Proof.
  intros Hs%subseteq_size. unfold inference_calls.
  pose proof (size_union_alt {[call]} (team_calls mission team d)) as Hu.
  assert (size (team_calls mission team d ∖ {[call]}) ≤ size (team_calls mission team d))%nat
    by (apply subseteq_size; set_solver). rewrite size_singleton in Hu. lia.
Qed.
