(* ===== verification/ModelCalls.v ===== *)
(** * Model calls

[RuntimeModel] of [orchestrator/app/jarvis_orchestrator/providers/runtime.py]: a call of
a model is started, authorized and accounted in one fenced transaction, issued once, and
its answer is stored as a receipt that later executions return.

[invoke] suspends at every [await].  A suspended call is a program point ([mpc]); a
transaction ([invoke_tx]) or the adapter's answer ([invoke_adapter]) takes it to the next
one.  The provider adapters are external: what [check_request] and [invoke] answer are
arguments.  The second half is the system of all executions of one call, over crashes
and every interleaving: [inference_once], [paid_inference_within_cap],
[inference_call_budget] and [model_result_stable] are what it guarantees. *)
From S2P Require Import Prelude Enums PyJson PyDecimal PyDecimalText Failures Registry.
From S2P Require Import WorkflowSpec Normalize RawValidation NodeFactory Database Ownership.
From S2P Require Import Commands Routing Effects Accounting Budget.
From stdpp Require Import gmap.
Local Open Scope Z_scope.
Local Open Scope stdpp_scope.

(** [uuid.uuid5(namespace, name)] *)
Class Uuid5 := uuid5 : uuid → string → uuid.
(** [ProviderResult.model_validate]; [None] when it raises. *)
Class ResultModel := result_validate : json → option ProviderResult.t.

(** [ClassifiedNodeError(failure_class)] *)
Definition classified (c : FailureClass.t) : own_error :=
  ApplicationError ("ClassifiedNodeError: " +:+ FailureClass.value c).

(** The arguments of a call that do not change. *)
Record model_call := {
  mc_fence : RunFence.t;
  mc_provider : ProviderSpec.t;
  mc_profile : ModelProfileSpec.t;
  mc_provider_id : uuid;
  mc_profile_id : uuid;
  mc_budget : BudgetGateway.t;
  mc_call_id : uuid;
  mc_request : ProviderRequest.t;
}.

(** Two clock readings of the fence, and that of the accounting record. *)
Record call_readings := { cr_now : Z; cr_exit : Z; cr_created : Z }.

Inductive mpc :=
  | MBegin
  | MInvoke
  | MReceipt (result : ProviderResult.t)
  | MDone (o : outcome).

(** What the first transaction leads to. *)
Inductive begun :=
  | Stored (structured : jobj)
  | Denied (reasons : list string)
  | Started.

(** [Usage()] *)
Definition no_usage : Usage.t :=
  Usage.Build_t None None None None UsageProvenance.unknown.

(** [_structured] *)
Definition _structured (r : ProviderResult.t) : res own_error jobj :=
  match ProviderResult.failure r with
  | Some f => Err (classified (ProviderFailure.failure_class f))
  | None => match ProviderResult.structured r with
            | Some o => Ok o
            | None => Err value_error
            end
  end.

Definition call_text (c : model_call) : json := JStr (uuid_str (mc_call_id c)).

Definition started_event (run_id call_id : uuid) (e : Event.t) : bool :=
  bool_decide (Event.run_id e = Some run_id)
  && String.eqb (Event.name e) "model.call_started"
  && json_is (uuid_str call_id) (dict_get "call_id" (Event.payload e)).

(** The call's start is recorded. *)
Definition started (run_id call_id : uuid) (d : db) : bool :=
  existsb (started_event run_id call_id) (events d).

Section calls.
Context `{PyRuntime} `{PyStr} `{Redactor} `{TextRedactor} `{RegistrySpecModel} `{AccountingModel}
  `{Uuid5} `{ResultModel}
  `{ModelDump AccountingRecord.t} `{ModelDump Usage.t} `{ModelDump Cost.t}
  `{ModelDump ProviderTool.t} `{ModelDump SpendPolicy.t} `{ModelDump ProviderRequest.t}
  `{ModelDump ProviderResult.t} `{ModelDump ProviderFailure.t}.

Definition request_digest (c : model_call) : string :=
  sha256_digest (JObj [("request", model_dump (mc_request c));
                       ("provider_revision_id", JStr (uuid_str (mc_provider_id c)));
                       ("profile_revision_id", JStr (uuid_str (mc_profile_id c)))]).

(** [_account] *)
Definition account_record (c : model_call) (result : option ProviderResult.t) (stage : string)
    (outcome : AccountingOutcome.t) (created : Z) : AccountingRecord.t :=
  let usage := match result with Some r => ProviderResult.usage r | None => no_usage end in
  let pricing := ModelProfileSpec.pricing (mc_profile c) in {|
  AccountingRecord.id := uuid5 (mc_call_id c) stage;
  AccountingRecord.profile_revision_id := mc_profile_id c;
  AccountingRecord.provider_revision_id := mc_provider_id c;
  AccountingRecord.route_revision_id := None;
  AccountingRecord.correlation_id := uuid_str (mc_call_id c);
  AccountingRecord.run_id := Some (RunFence.run_id (mc_fence c));
  AccountingRecord.project_id := None;
  AccountingRecord.task_id := ProviderRequest.task_id (mc_request c);
  AccountingRecord.node_id := ProviderRequest.node_id (mc_request c);
  AccountingRecord.request_id := r ← result; ProviderResult.request_id r;
  AccountingRecord.latency_ms := match result with Some r => ProviderResult.latency_ms r | None => 0 end;
  AccountingRecord.usage := usage;
  AccountingRecord.pricing := pricing;
  AccountingRecord.cost := calculate_cost usage pricing;
  AccountingRecord.outcome := outcome;
  AccountingRecord.created_at := created;
  AccountingRecord.demo := false;
|}.

Definition _account (c : model_call) (result : option ProviderResult.t) (stage : string)
    (outcome : AccountingOutcome.t) (created : Z) (d : db) : res own_error db :=
  recorded ← record_in_session (account_record c result stage outcome created)
               (uuid_str (mc_call_id c) +:+ ":" +:+ stage) d;
  Ok recorded.2.

(** ** The first transaction *)

Definition revision_fields (c : model_call) : jobj :=
  [("profile_revision_id", JStr (uuid_str (mc_profile_id c)));
   ("provider_revision_id", JStr (uuid_str (mc_provider_id c)))].

Definition denied_event (c : model_call) (run : RunModel.t) (g : ModelBudgetGrantModel.t) (d : db)
    : db :=
  event run "model.budget_denied"
    ([("call_id", call_text c);
      ("decision", JStr (Decision3.value (ModelBudgetGrantModel.decision g)));
      ("reasons", JArr (JStr <$> ModelBudgetGrantModel.reasons_json g))] ++ revision_fields c) d.

Definition authorized_event (c : model_call) (run : RunModel.t) (g : ModelBudgetGrantModel.t)
    (d : db) : db :=
  event run "model.budget_authorized"
    [("call_id", call_text c);
     ("estimated_cost", opt_json (λ a, JStr (dec_str a)) (ModelBudgetGrantModel.estimated_cost g));
     ("run_spend_before", opt_json (λ a, JStr (dec_str a)) (ModelBudgetGrantModel.run_spend_before g));
     ("policy_digest", JStr (ModelBudgetGrantModel.policy_digest g));
     ("route_revision_id", JStr (optional_str (ModelBudgetGrantModel.route_revision_id g)))] d.

Definition call_started_event (c : model_call) (run : RunModel.t) (d : db) : db :=
  event run "model.call_started"
    ([("call_id", call_text c)] ++ revision_fields c
     ++ [("model_identifier", JStr (ModelProfileSpec.model_identifier (mc_profile c)))]) d.

(** The stored answer of an earlier execution. *)
Definition replay_receipt (c : model_call) (run : RunModel.t) (r : ModelResponseReceiptModel.t)
    : res own_error jobj :=
  if negb (bool_decide (ModelResponseReceiptModel.run_id r = Some (RunModel.id run))
           && String.eqb (ModelResponseReceiptModel.request_digest r) (request_digest c)
           && String.eqb (sha256_digest (ModelResponseReceiptModel.response_json r))
                (ModelResponseReceiptModel.response_digest r))
  then Err (ambiguous "model receipt identity mismatch")
  else match result_validate (ModelResponseReceiptModel.response_json r) with
       | Some result => _structured result
       | None => Err validation_error
       end.

Definition denial (d : Decision3.t) : AccountingOutcome.t :=
  if bool_decide (d = Decision3.require_approval) then AccountingOutcome.require_approval
  else AccountingOutcome.denied.

(** After [authorize]. *)
Definition settle_grant (c : model_call) (created : Z) (run : RunModel.t)
    (grant : option ModelBudgetGrantModel.t) (d : db) : res own_error (begun * db) :=
  let start d :=
    d ← _account c None "started" AccountingOutcome.unknown created (call_started_event c run d);
    Ok (Started, d) in
  match grant with
  | None => start d
  | Some g =>
      if bool_decide (ModelBudgetGrantModel.decision g = Decision3.allow)
      then start (authorized_event c run g d)
      else
        d ← _account c None "denied" (denial (ModelBudgetGrantModel.decision g)) created d;
        Ok (Denied (ModelBudgetGrantModel.reasons_json g), denied_event c run g d)
  end.

Definition begin_body (c : model_call) (created : Z) (run : RunModel.t) (d : db)
    : res own_error (begun * db) :=
  match CallTables.receipts (accounts d) !! mc_call_id c with
  | Some receipt => structured ← replay_receipt c run receipt; Ok (Stored structured, d)
  | None =>
      if started (RunModel.id run) (mc_call_id c) d
      then Err (ambiguous "model call requires receipt reconciliation")
      else
        authorized ← authorize (mc_budget c) (RunModel.id run) (mc_call_id c) (mc_request c)
                       (mc_profile c) (mc_profile_id c) (mc_provider_id c) (request_digest c)
                       (EgressPolicy.paid (ProviderSpec.egress (mc_provider c))) d;
        settle_grant c created run authorized.1 authorized.2
  end.

(** ** The second transaction *)

Definition receipt_row (c : model_call) (run : RunModel.t) (result : ProviderResult.t)
    : ModelResponseReceiptModel.t := {|
  ModelResponseReceiptModel.run_id := Some (RunModel.id run);
  ModelResponseReceiptModel.management_turn_id := None;
  ModelResponseReceiptModel.request_digest := request_digest c;
  ModelResponseReceiptModel.response_digest := sha256_digest (model_dump result);
  ModelResponseReceiptModel.response_json := model_dump result;
|}.

Definition finished_event (c : model_call) (run : RunModel.t) (r : ProviderResult.t) (d : db) : db :=
  event run (match ProviderResult.failure r with
             | Some _ => "model.call_failed" | None => "model.call_completed" end)
    [("call_id", call_text c);
     ("profile_revision_id", JStr (uuid_str (ProviderResult.profile_revision_id r)));
     ("provider_revision_id", JStr (uuid_str (ProviderResult.provider_revision_id r)));
     ("model_identifier", JStr (ProviderResult.model_identifier r));
     ("usage", model_dump (ProviderResult.usage r));
     ("latency_ms", JInt (ProviderResult.latency_ms r));
     ("failure", opt_json model_dump (ProviderResult.failure r))] d.

(** The insertion fails when the call has a receipt. *)
Definition receipt_body (c : model_call) (result : ProviderResult.t) (created : Z)
    (run : RunModel.t) (d : db) : res own_error (unit * db) :=
  match CallTables.receipts (accounts d) !! mc_call_id c with
  | Some _ => Err integrity_error
  | None =>
      let d := set_accounts (CallTables.put_receipt (mc_call_id c) (receipt_row c run result)
                               (accounts d)) d in
      d ← _account c (Some result) "result"
            (match ProviderResult.failure result with
             | Some _ => AccountingOutcome.failed | None => AccountingOutcome.completed end)
            created d;
      Ok (tt, finished_event c run result d)
  end.

(** ** [invoke] *)

Definition finish (r : res own_error jobj) : outcome :=
  match r with Ok o => Returned (Some o) | Err e => Raised e end.

(** Before the first [await]; [checked] is what [adapter.check_request] does. *)
Definition invoke_start (c : model_call) (checked : res own_error unit) : mpc :=
  if negb (bool_decide (ProviderRequest.run_id (mc_request c) = Some (RunFence.run_id (mc_fence c))))
  then MDone (Raised value_error)
  else match checked with Ok _ => MBegin | Err e => MDone (Raised e) end.

Definition invoke_tx (c : model_call) (t : call_readings) (p : mpc) (d : db) : option (mpc * db) :=
  match p with
  | MBegin =>
      Some match fenced (mc_fence c) (cr_now t) (cr_exit t) (begin_body c (cr_created t)) d with
           | Ok (Stored structured, d') => (MDone (Returned (Some structured)), d')
           | Ok (Denied reasons, d') => (MDone (Raised (budget_denied reasons)), d')
           | Ok (Started, d') => (MInvoke, d')
           | Err e => (MDone (Raised e), d)
           end
  | MReceipt result =>
      Some match fenced (mc_fence c) (cr_now t) (cr_exit t)
                   (receipt_body c result (cr_created t)) d with
           | Ok (_, d') => (MDone (finish (_structured result)), d')
           | Err e => (MDone (Raised e), d)
           end
  | _ => None
  end.

Definition MAX_RECEIPT : Z := 2097152.

(** [answer]: what [adapter.invoke] returns or raises. *)
Definition invoke_adapter (answer : res own_error ProviderResult.t) (p : mpc) : option mpc :=
  match p with
  | MInvoke =>
      Some match answer with
           | Err e => MDone (Raised e)
           | Ok result =>
               if Z.ltb MAX_RECEIPT (bytes (canonical_json (model_dump result)))
               then MDone (Raised (ambiguous "model response exceeds receipt limit"))
               else MReceipt result
           end
  | _ => None
  end.
End calls.

(** ** What the transactions change *)

(** The receipts, the grants and the run are left alone; the rows and events added are
of this call and do not start it. *)
Record call_frame (call : string) (d d' : db) : Prop := {
  cf_runs : runs d' = runs d;
  cf_grants : CallTables.grants (accounts d') = CallTables.grants (accounts d);
  cf_receipts : CallTables.receipts (accounts d') = CallTables.receipts (accounts d);
  cf_turns : CallTables.management_turns (accounts d') = CallTables.management_turns (accounts d);
  cf_calls : ∃ rows, CallTables.model_calls (accounts d') = CallTables.model_calls (accounts d) ++ rows
                     ∧ Forall (λ c, ModelCallModel.correlation_id c = call) rows;
  cf_started : ∀ r i, started r i d' = started r i d;
}.

Lemma call_frame_refl call d : call_frame call d d.
Proof. split; try done. exists []. by rewrite app_nil_r. Qed.

Lemma call_frame_trans call d1 d2 d3 :
  call_frame call d1 d2 → call_frame call d2 d3 → call_frame call d1 d3.
Proof.
  intros [? ? ? ? (r1 & Hm1 & Hf1) Hs1] [? ? ? ? (r2 & Hm2 & Hf2) Hs2].
  split; try congruence.
  exists (r1 ++ r2). rewrite Hm2, Hm1, (assoc (++)). split; [done|]. by apply Forall_app.
Qed.

Lemma started_app r i d e :
  started r i (set_events (events d ++ [e]) d) = started r i d || started_event r i e.
Proof. unfold started. simpl. rewrite existsb_app. simpl. by rewrite orb_false_r. Qed.

Lemma call_frame_event call run name data d :
  name ≠ "model.call_started" → call_frame call d (event run name data d).
Proof.
  intros Hn. split; try done; [exists []; by rewrite app_nil_r|]. intros r i. unfold event.
  rewrite started_app. unfold started_event. simpl.
  rewrite (proj2 (String.eqb_neq name _) Hn), andb_false_r. by rewrite orb_false_r.
Qed.

#[export] Hint Resolve call_frame_refl call_frame_event : calls.

(** What one committed start means for the tables. *)
Record begins (run_id call_id : uuid) (d d' : db) : Prop := {
  be_fresh : started run_id call_id d = false;
  be_started : started run_id call_id d' = true;
  be_runs : runs d' = runs d;
  be_receipts : CallTables.receipts (accounts d') = CallTables.receipts (accounts d);
  be_grants : ∀ i, i ≠ call_id →
    CallTables.grants (accounts d') !! i = CallTables.grants (accounts d) !! i;
  be_turns : CallTables.management_turns (accounts d') = CallTables.management_turns (accounts d);
  be_calls : ∃ rows, CallTables.model_calls (accounts d') = CallTables.model_calls (accounts d) ++ rows
                     ∧ Forall (λ c, ModelCallModel.correlation_id c = uuid_str call_id) rows;
}.

Section bodies.
Context `{PyRuntime} `{PyStr} `{Redactor} `{TextRedactor} `{RegistrySpecModel} `{AccountingModel}
  `{Uuid5} `{ResultModel}
  `{ModelDump AccountingRecord.t} `{ModelDump Usage.t} `{ModelDump Cost.t}
  `{ModelDump ProviderTool.t} `{ModelDump SpendPolicy.t} `{ModelDump ProviderRequest.t}
  `{ModelDump ProviderResult.t} `{ModelDump ProviderFailure.t}.

Lemma account_ok c result stage o created d d' :
  _account c result stage o created d = Ok d' → call_frame (uuid_str (mc_call_id c)) d d'.
Proof.
  unfold _account. intros ([r d1] & Hr & [= <-])%res_bind_ok.
  apply record_in_session_ok in Hr as [[-> _]|[-> _]]; [auto with calls|].
  split; try done.
  { eexists [_]. split; [done|]. by apply Forall_singleton. }
  intros r' i. unfold usage_event. rewrite started_app. unfold started_event. simpl.
  rewrite andb_false_r. by rewrite orb_false_r.
Qed.

Lemma call_started_frame c run d :
  let d' := call_started_event c run d in
  started (RunModel.id run) (mc_call_id c) d' = true
  ∧ runs d' = runs d ∧ accounts d' = accounts d.
Proof.
  simpl. split; [|done]. unfold call_started_event, event.
  assert (bool_decide ("model.call_started" ∈ payload_models) = false) as -> by done.
  rewrite started_app. unfold started_event. cbn [Event.run_id Event.name Event.payload].
  rewrite bool_decide_eq_true_2, String.eqb_refl by done.
  unfold dict_update, revision_fields, call_text. cbn [foldl app].
  rewrite !dict_get_set_ne, dict_get_set_eq by done. cbn [json_is snd].
  by rewrite String.eqb_refl, orb_true_r.
Qed.

(** Starting a call on tables that [authorize] left. *)
Lemma start_ok c created run d0 d d' :
  started (RunModel.id run) (mc_call_id c) d0 = false →
  runs d = runs d0 → CallTables.receipts (accounts d) = CallTables.receipts (accounts d0) →
  (∀ i, i ≠ mc_call_id c →
     CallTables.grants (accounts d) !! i = CallTables.grants (accounts d0) !! i) →
  CallTables.management_turns (accounts d) = CallTables.management_turns (accounts d0) →
  CallTables.model_calls (accounts d) = CallTables.model_calls (accounts d0) →
  _account c None "started" AccountingOutcome.unknown created (call_started_event c run d) = Ok d' →
  begins (RunModel.id run) (mc_call_id c) d0 d'
  ∧ CallTables.grants (accounts d') = CallTables.grants (accounts d).
Proof.
  intros Hns Hr Hrc Hg Ht Hm [Fr Fg Frc Ft (rows & Fc & Ff) Fs]%account_ok.
  destruct (call_started_frame c run d) as (Hs & Hr' & Ha).
  rewrite ?Hr', ?Ha in *. split; [|done]. split; try congruence.
  - intros i Hi. rewrite Fg. auto.
  - exists rows. by rewrite Fc, Hm.
Qed.

Definition begin_spec (c : model_call) (run : RunModel.t) (d : db) (b : begun) (d' : db) : Prop :=
  match b with
  | Stored s =>
      d' = d ∧ ∃ rc r, CallTables.receipts (accounts d) !! mc_call_id c = Some rc
        ∧ result_validate (ModelResponseReceiptModel.response_json rc) = Some r
        ∧ _structured r = Ok s
  | Denied _ =>
      runs d' = runs d ∧ (∀ r i, started r i d' = started r i d)
      ∧ CallTables.receipts (accounts d') = CallTables.receipts (accounts d)
      ∧ ∃ g, CallTables.grants (accounts d') = <[mc_call_id c := g]> (CallTables.grants (accounts d))
             ∧ ModelBudgetGrantModel.decision g ≠ Decision3.allow
  | Started =>
      CallTables.receipts (accounts d) !! mc_call_id c = None
      ∧ begins (RunModel.id run) (mc_call_id c) d d'
      ∧ team_admission (mc_budget c) d = Ok tt
      ∧ if EgressPolicy.paid (ProviderSpec.egress (mc_provider c)) then
          ∃ g, CallTables.grants (accounts d') !! mc_call_id c = Some g
            ∧ ModelBudgetGrantModel.decision g = Decision3.allow
            ∧ (CallTables.grants (accounts d) !! mc_call_id c = Some g
               ∨ ∃ route total, granted (mc_budget c) (RunModel.id run) (mc_call_id c)
                   (mc_request c) (mc_profile c) (request_digest c) d g route total)
        else CallTables.grants (accounts d') = CallTables.grants (accounts d)
  end.

Lemma settle_started c created run grant d b d' :
  settle_grant c created run grant d = Ok (b, d') →
  match grant with Some g => ModelBudgetGrantModel.decision g = Decision3.allow | None => True end →
  b = Started ∧ ∃ d1, runs d1 = runs d ∧ accounts d1 = accounts d
    ∧ _account c None "started" AccountingOutcome.unknown created (call_started_event c run d1)
      = Ok d'.
Proof.
  unfold settle_grant. destruct grant as [g|].
  - intros Hs Hg. rewrite bool_decide_eq_true_2 in Hs by done.
    apply res_bind_ok in Hs as (d1 & Ha & [= <- <-]). split; [done|].
    by exists (authorized_event c run g d).
  - intros (d1 & Ha & [= <- <-])%res_bind_ok _. split; [done|]. by exists d.
Qed.

Lemma settle_denied c created run g d b d' :
  settle_grant c created run (Some g) d = Ok (b, d') →
  ModelBudgetGrantModel.decision g ≠ Decision3.allow →
  b = Denied (ModelBudgetGrantModel.reasons_json g) ∧ call_frame (uuid_str (mc_call_id c)) d d'.
Proof.
  unfold settle_grant. intros Hs Hg. rewrite bool_decide_eq_false_2 in Hs by done.
  apply res_bind_ok in Hs as (d1 & Ha%account_ok & [= <- <-]). split; [done|].
  eapply call_frame_trans; [exact Ha|]. by apply call_frame_event.
Qed.

Lemma begin_body_ok c created run d b d' :
  begin_body c created run d = Ok (b, d') → begin_spec c run d b d'.
Proof.
  unfold begin_body. destruct (CallTables.receipts (accounts d) !! mc_call_id c) as [rc|] eqn:Hrc.
  { intros (s & Hs & [= <- <-])%res_bind_ok. split; [done|]. unfold replay_receipt in Hs.
    destruct (negb _); [done|]. destruct (result_validate _) as [r|] eqn:Hv; [|done].
    by exists rc, r. }
  destruct (started _ _ d) eqn:Hst; [done|]. intros ([grant d1] & Ha & Hs)%res_bind_ok. simpl in Hs.
  apply authorize_ok in Ha as [Hadm Hg]. destruct grant as [g|].
  - destruct Hg as (Hpaid & [(Hg & Hd & ->)|(Hg & -> & Hgr)]).
    + apply settle_started in Hs as [-> (d2 & Hr & Hac & Hst')]; [|done].
      apply (start_ok _ _ _ d) in Hst' as [Hb Hgs]; rewrite ?Hac; try done.
      simpl. rewrite Hpaid. split_and!; try done. exists g. rewrite Hgs, Hac. auto.
    + destruct (decide (ModelBudgetGrantModel.decision g = Decision3.allow)) as [Hd|Hd].
      * apply settle_started in Hs as [-> (d2 & Hr & Hac & Hst')]; [|done].
        apply (start_ok _ _ _ d) in Hst' as [Hb Hgs]; rewrite ?Hac; try done;
          [|simpl; intros i Hi; by rewrite lookup_insert_ne].
        simpl. rewrite Hpaid. split_and!; try done. exists g. rewrite Hgs, Hac. simpl.
        rewrite lookup_insert_eq. auto.
      * apply settle_denied in Hs as [-> [Fr Fg Frc _ _ Fs]]; [|done].
        split_and!; try done. exists g. by rewrite Fg.
  - destruct Hg as [Hpaid ->].
    apply settle_started in Hs as [-> (d2 & Hr & Hac & Hst')]; [|done].
    apply (start_ok _ _ _ d) in Hst' as [Hb Hgs]; rewrite ?Hac; try done.
    simpl. rewrite Hpaid. split_and!; try done. by rewrite Hgs, Hac.
Qed.

Lemma receipt_body_ok c result created run d u d' :
  receipt_body c result created run d = Ok (u, d') →
  CallTables.receipts (accounts d) !! mc_call_id c = None
  ∧ CallTables.receipts (accounts d')
    = <[mc_call_id c := receipt_row c run result]> (CallTables.receipts (accounts d))
  ∧ runs d' = runs d ∧ CallTables.grants (accounts d') = CallTables.grants (accounts d)
  ∧ ∀ r i, started r i d' = started r i d.
Proof.
  unfold receipt_body. destruct (_ !! mc_call_id c); [done|].
  intros (d1 & [Fr Fg Frc _ _ Fs]%account_ok & [= _ <-])%res_bind_ok.
  assert (call_frame (uuid_str (mc_call_id c)) d1 (finished_event c run result d1)) as [].
  { apply call_frame_event. by destruct (ProviderResult.failure result). }
  split_and!; try done; try congruence. intros r i. by rewrite cf_started0, Fs.
Qed.
End bodies.

(** ** All executions of one call *)

(** [m_dispatches] counts the inferences that may have been issued: an execution that dies
at the call of the adapter counts. *)
Record msys := { m_db : db; m_procs : gmap nat (model_call * mpc); m_dispatches : nat }.

(** What is stored reads back with the same outcome. *)
Class ResultModelLaws `{ResultModel} `{ModelDump ProviderResult.t} :=
  result_reads_back : ∀ r, ∃ r', result_validate (model_dump r) = Some r'
                                 ∧ _structured r' = _structured r.

Section system.
Context `{PyRuntime} `{PyStr} `{Redactor} `{TextRedactor} `{RegistrySpecModel} `{AccountingModel}
  `{Uuid5} `{ResultModelLaws}
  `{ModelDump AccountingRecord.t} `{ModelDump Usage.t} `{ModelDump Cost.t}
  `{ModelDump ProviderTool.t} `{ModelDump SpendPolicy.t} `{ModelDump ProviderRequest.t}
  `{ModelDump ProviderFailure.t}.
Context (run_id call_id : uuid).

Definition of_call (c : model_call) : Prop :=
  RunFence.run_id (mc_fence c) = run_id ∧ mc_call_id c = call_id.

(** Other transactions: they never start this call, nor touch its grant or receipt. *)
Record undisturbed (d d' : db) : Prop := {
  un_keyed : keyed d';
  un_started : started run_id call_id d' = started run_id call_id d;
  un_grant : CallTables.grants (accounts d') !! call_id = CallTables.grants (accounts d) !! call_id;
  un_receipt :
    CallTables.receipts (accounts d') !! call_id = CallTables.receipts (accounts d) !! call_id;
}.

Inductive msys_step : msys → msys → Prop :=
  | ms_env s d' :
      undisturbed (m_db s) d' →
      msys_step s {| m_db := d'; m_procs := m_procs s; m_dispatches := m_dispatches s |}
  | ms_start s i c checked :
      m_procs s !! i = None → of_call c →
      msys_step s {| m_db := m_db s; m_procs := <[i := (c, invoke_start c checked)]> (m_procs s);
                     m_dispatches := m_dispatches s |}
  | ms_crash s i c p :
      m_procs s !! i = Some (c, p) →
      msys_step s {| m_db := m_db s; m_procs := delete i (m_procs s);
                     m_dispatches := match p with MInvoke => S (m_dispatches s)
                                     | _ => m_dispatches s end |}
  | ms_tx s i c p t p' d' :
      m_procs s !! i = Some (c, p) → invoke_tx c t p (m_db s) = Some (p', d') →
      msys_step s {| m_db := d'; m_procs := <[i := (c, p')]> (m_procs s);
                     m_dispatches := m_dispatches s |}
  | ms_adapter s i c p answer p' :
      m_procs s !! i = Some (c, p) → invoke_adapter answer p = Some p' →
      msys_step s {| m_db := m_db s; m_procs := <[i := (c, p')]> (m_procs s);
                     m_dispatches := S (m_dispatches s) |}.

(** A call that nothing has touched. *)
Record mstart (s : msys) : Prop := {
  mst_keyed : keyed (m_db s);
  mst_started : started run_id call_id (m_db s) = false;
  mst_grant : CallTables.grants (accounts (m_db s)) !! call_id = None;
  mst_receipt : CallTables.receipts (accounts (m_db s)) !! call_id = None;
  mst_procs : m_procs s = ∅;
  mst_dispatches : m_dispatches s = 0%nat;
}.

Definition invoking (s : msys) (i : nat) : Prop := ∃ c, m_procs s !! i = Some (c, MInvoke).

(** The stored answer is what an execution has returned. *)
Definition receipt_gives (d : db) (v : option jobj) : Prop :=
  ∃ rc r o, CallTables.receipts (accounts d) !! call_id = Some rc
    ∧ result_validate (ModelResponseReceiptModel.response_json rc) = Some r
    ∧ _structured r = Ok o ∧ v = Some o.

Record minv (s : msys) : Prop := {
  mi_keyed : keyed (m_db s);
  mi_of : ∀ i c p, m_procs s !! i = Some (c, p) → of_call c;
  mi_started : (∃ i, invoking s i) ∨ m_dispatches s ≠ 0%nat → started run_id call_id (m_db s) = true;
  mi_one : ∀ i j, invoking s i → invoking s j → i = j;
  mi_none : ∀ i, invoking s i → m_dispatches s = 0%nat;
  mi_bound : (m_dispatches s ≤ 1)%nat;
  mi_receipt : ∀ i c r, m_procs s !! i = Some (c, MReceipt r) → m_dispatches s ≠ 0%nat;
  mi_grant : ∀ g, CallTables.grants (accounts (m_db s)) !! call_id = Some g →
    ModelBudgetGrantModel.decision g = Decision3.allow → started run_id call_id (m_db s) = true;
  mi_returned : ∀ i c v, m_procs s !! i = Some (c, MDone (Returned v)) → receipt_gives (m_db s) v;
}.

Lemma minv_start s : mstart s → minv s.
Proof.
  intros [Hk Hs Hg Hr Hp Hd].
  assert (∀ i, ¬ invoking s i) as Hno by (intros i [c Hc]; by rewrite Hp in Hc).
  split; try done.
  - intros i c p. by rewrite Hp.
  - by intros [[i Hi%Hno]|].
  - by intros i j ?%Hno.
  - lia.
  - intros i c r. by rewrite Hp.
  - intros g. by rewrite Hg.
  - intros i c v. by rewrite Hp.
Qed.

Lemma invoking_insert s d i c p n j :
  invoking {| m_db := d; m_procs := <[i := (c, p)]> (m_procs s); m_dispatches := n |} j →
  j = i ∧ p = MInvoke ∨ j ≠ i ∧ invoking s j.
Proof.
  intros [c' Hc]. simpl in Hc. apply lookup_insert_Some in Hc as [[<- Hc]|[Hne Hj]].
  - left. split; [done|congruence].
  - right. split; [done|by exists c'].
Qed.

(** A process moves to a point that does not call the adapter, over tables that keep
what the invariant reads. *)
Lemma minv_move s i c p d :
  minv s → of_call c → keyed d →
  (started run_id call_id (m_db s) = true → started run_id call_id d = true) →
  (∀ g, CallTables.grants (accounts d) !! call_id = Some g →
     ModelBudgetGrantModel.decision g = Decision3.allow → started run_id call_id d = true) →
  (∀ v, receipt_gives (m_db s) v → receipt_gives d v) →
  p ≠ MInvoke → (∀ r, p = MReceipt r → m_dispatches s ≠ 0%nat) →
  (∀ v, p = MDone (Returned v) → receipt_gives d v) →
  minv {| m_db := d; m_procs := <[i := (c, p)]> (m_procs s); m_dispatches := m_dispatches s |}.
Proof.
  intros [Hk Hof Hst Hone Hnone Hb Hrc Hg Hret] Hc Hkd Hsd Hgd Hrg Hp Hpr Hpv.
  split; try done; simpl.
  - intros j c' p' [[<- [= <- <-]]|[_ Hj]]%lookup_insert_Some; [done|by eapply Hof].
  - intros [[j [[-> ?]|[_ Hj]]%invoking_insert]|Hn]; [done| |]; apply Hsd, Hst; [left; by exists j|by right].
  - intros j k [[-> ?]|[_ Hj]]%invoking_insert [[-> ?]|[_ Hk']]%invoking_insert; try done. by apply Hone.
  - intros j [[-> ?]|[_ Hj]]%invoking_insert; [done|by eapply Hnone].
  - intros j c' r [[<- [= <- ->]]|[_ Hj]]%lookup_insert_Some; [by eapply Hpr|by eapply Hrc].
  - intros j c' v [[<- [= <- ->]]|[_ Hj]]%lookup_insert_Some; [by apply Hpv|by eapply Hrg, Hret].
Qed.

(** The start of the call. *)
Lemma minv_begin s i c d :
  minv s → of_call c → keyed d →
  started run_id call_id (m_db s) = false → started run_id call_id d = true →
  (∀ v, receipt_gives (m_db s) v → receipt_gives d v) →
  minv {| m_db := d; m_procs := <[i := (c, MInvoke)]> (m_procs s); m_dispatches := m_dispatches s |}.
Proof.
  intros [Hk Hof Hst Hone Hnone Hb Hrc Hg Hret] Hc Hkd Hfresh Hsd Hrg.
  assert (∀ j, ¬ invoking s j) as Hno.
  { intros j Hj. rewrite Hst in Hfresh; [done|]. left. by exists j. }
  assert (m_dispatches s = 0%nat) as Hz.
  { destruct (decide (m_dispatches s = 0%nat)); [done|]. rewrite Hst in Hfresh; [done|by right]. }
  split; try done; simpl.
  - intros j c' p' [[<- [= <- <-]]|[_ Hj]]%lookup_insert_Some; [done|by eapply Hof].
  - intros j k [[-> ?]|[_ Hj%Hno]]%invoking_insert [[-> ?]|[_ Hk'%Hno]]%invoking_insert; done.
  - intros j c' r [[? ?]|[_ Hj]]%lookup_insert_Some; [done|by eapply Hrc].
  - intros j c' v [[? ?]|[_ Hj]]%lookup_insert_Some; [done|by eapply Hrg, Hret].
Qed.

(** ** Every step keeps the invariant *)

Lemma keyed_run d i r : keyed d → runs d !! i = Some r → RunModel.id r = i.
Proof. intros Hk Hr. by apply Hk. Qed.

Lemma keyed_same d d' : keyed d → runs d' = runs d → keyed d'.
Proof. intros Hk Hr i r. rewrite Hr. apply Hk. Qed.

(** A fenced transaction on the call's run. *)
Lemma call_fenced_run {A} c now now' (body : RunModel.t → db → res own_error (A * db)) d a d' :
  keyed d → of_call c → fenced (mc_fence c) now now' body d = Ok (a, d') →
  ∃ run, RunModel.id run = run_id ∧ body run d = Ok (a, d').
Proof.
  intros Hk [Hr _] Hf. destruct (fenced_ok _ _ _ _ _ _ Hf) as (run & l & Hrun & _ & _ & _ & _ & Hb).
  exists run. split; [|exact Hb]. rewrite Hr in Hrun. by apply Hk.
Qed.

Lemma receipt_gives_same d d' v :
  CallTables.receipts (accounts d') !! call_id = CallTables.receipts (accounts d) !! call_id →
  receipt_gives d v → receipt_gives d' v.
Proof. intros He (rc & r & o & Hrc & ?). exists rc, r, o. by rewrite He. Qed.

Lemma minv_tx s i c p t p' d' :
  minv s → m_procs s !! i = Some (c, p) → invoke_tx c t p (m_db s) = Some (p', d') →
  minv {| m_db := d'; m_procs := <[i := (c, p')]> (m_procs s); m_dispatches := m_dispatches s |}.
Proof.
  intros Hi Hp Htx. pose proof (mi_of _ Hi _ _ _ Hp) as Hof. pose proof Hof as [_ Hcall].
  pose proof (mi_keyed _ Hi) as Hk.
  assert (∀ e, minv {| m_db := m_db s; m_procs := <[i := (c, MDone (Raised e))]> (m_procs s);
                       m_dispatches := m_dispatches s |}) as Herr.
  { intros e. apply minv_move; try done. apply (mi_grant _ Hi). }
  destruct p as [| |result|]; try done; simpl in Htx; injection Htx as Htx.
  - destruct (fenced _ _ _ _ _) as [[b d1]|e] eqn:Hf; [|injection Htx as <- <-; apply Herr].
    destruct (call_fenced_run _ _ _ _ _ _ _ Hk Hof Hf) as (run & Hrun & Hb%begin_body_ok).
    destruct b as [structured|reasons|]; injection Htx as <- <-; simpl in Hb; rewrite Hcall in Hb.
    + destruct Hb as (-> & rc & r & Hrc & Hv & Hst). apply minv_move; try done; [apply (mi_grant _ Hi)|].
      intros v [= <-]. by exists rc, r, structured.
    + destruct Hb as (Hr & Hs & Hrc & g & Hg & Hd). apply minv_move; try done.
      * by eapply keyed_same.
      * by rewrite Hs.
      * intros g'. rewrite Hg, lookup_insert_eq. by intros [= <-].
      * intros v. apply receipt_gives_same. by rewrite Hrc.
    + destruct Hb as (_ & [Hfr Hst Hr Hrc _ _ _] & _). rewrite Hrun in *. apply minv_begin; try done.
      * by eapply keyed_same.
      * intros v. apply receipt_gives_same. by rewrite Hrc.
  - destruct (fenced _ _ _ _ _) as [[u d1]|e] eqn:Hf; [|injection Htx as <- <-; apply Herr].
    destruct (call_fenced_run _ _ _ _ _ _ _ Hk Hof Hf) as (run & Hrun & Hb%receipt_body_ok).
    injection Htx as <- <-. rewrite Hcall in Hb. destruct Hb as (Hnone & Hrc & Hr & Hg & Hs).
    apply minv_move; try done.
    + by eapply keyed_same.
    + by rewrite Hs.
    + intros g. rewrite Hg, Hs. apply (mi_grant _ Hi).
    + intros v (rc & r & o & Hx & _). congruence.
    + intros v Hv. unfold finish in Hv. destruct (_structured result) as [o|] eqn:Ho; [|done].
      injection Hv as <-. destruct (result_reads_back result) as (r' & Hv & Hr').
      exists (receipt_row c run result), r', o. rewrite Hrc, lookup_insert_eq, Hr'. done.
Qed.

Lemma minv_adapter s i c p answer p' :
  minv s → m_procs s !! i = Some (c, p) → invoke_adapter answer p = Some p' →
  minv {| m_db := m_db s; m_procs := <[i := (c, p')]> (m_procs s); m_dispatches := S (m_dispatches s) |}.
Proof.
  intros Hi Hp Ha. destruct p; try done. pose proof (mi_of _ Hi _ _ _ Hp) as Hof.
  destruct Hi as [Hk Hofs Hst Hone Hnone Hb Hrc Hg Hret].
  assert (invoking s i) as Hin by (by exists c).
  assert (p' ≠ MInvoke ∧ ∀ v, p' ≠ MDone (Returned v)) as [Hne Hnr].
  { unfold invoke_adapter in Ha. by repeat case_match; simplify_eq. }
  assert (∀ j, ¬ invoking {| m_db := m_db s; m_procs := <[i := (c, p')]> (m_procs s);
                             m_dispatches := S (m_dispatches s) |} j) as Hno.
  { intros j [[-> ?]|[Hji Hj]]%invoking_insert; [done|]. apply Hji. by apply Hone. }
  split; try done; simpl.
  - intros j c' q [[<- [= <- <-]]|[_ Hj]]%lookup_insert_Some; [done|by eapply Hofs].
  - intros _. apply Hst. left. by exists i.
  - by intros j k ?%Hno.
  - by intros j ?%Hno.
  - rewrite (Hnone i Hin). lia.
  - intros j c' v [[<- [= <- ->]]|[_ Hj]]%lookup_insert_Some; [by destruct (Hnr v)|by eapply Hret].
Qed.

Lemma minv_crash s i c p :
  minv s → m_procs s !! i = Some (c, p) →
  minv {| m_db := m_db s; m_procs := delete i (m_procs s);
          m_dispatches := match p with MInvoke => S (m_dispatches s) | _ => m_dispatches s end |}.
Proof.
  intros [Hk Hofs Hst Hone Hnone Hb Hrc Hg Hret] Hp.
  assert (∀ j n, invoking {| m_db := m_db s; m_procs := delete i (m_procs s); m_dispatches := n |} j →
    j ≠ i ∧ invoking s j) as Hdel.
  { intros j n [c' Hj]. simpl in Hj. apply lookup_delete_Some in Hj as [? Hj]. split; [done|by exists c']. }
  assert (∀ j q, delete i (m_procs s) !! j = Some q → m_procs s !! j = Some q) as Hl
    by (intros j q Hj; by apply lookup_delete_Some in Hj as [_ Hj]).
  assert (p = MInvoke → invoking s i) as Hin by (intros ->; by exists c).
  split; try done; simpl.
  - intros j c' q Hj%Hl. by eapply Hofs.
  - intros [[j [_ Hj]%Hdel]|Hn]; [apply Hst; left; by exists j|].
    apply Hst. destruct p; try by right. left. by exists i; apply Hin.
  - intros j k [_ Hj]%Hdel [_ Hk']%Hdel. by apply Hone.
  - intros j [Hji Hj]%Hdel. destruct p; try by eapply Hnone.
    exfalso. apply Hji. apply Hone; [done|by apply Hin].
  - destruct p; try done. rewrite (Hnone i); [lia|by apply Hin].
  - intros j c' r Hj%Hl%Hrc. by destruct p.
  - intros j c' v Hj%Hl. by eapply Hret.
Qed.

Lemma minv_step s s' : minv s → msys_step s s' → minv s'.
Proof.
  intros Hi Hs. destruct Hs as [s d' [Hk Hst Hg Hr]|s i c checked Hn Hof|s i c p Hp|s i c p t p' d' Hp Ht
    |s i c p answer p' Hp Ha]; [| |by apply minv_crash with (c := c)|by eapply minv_tx|by eapply minv_adapter].
  - destruct Hi as [Hk0 Hofs Hst0 Hone Hnone Hb Hrc Hgr Hret]. split; try done; simpl.
    + by rewrite Hst.
    + intros g. rewrite Hg, Hst. apply Hgr.
    + intros i c v Hp. eapply receipt_gives_same; [by symmetry in Hr|by eapply Hret].
  - apply minv_move; try done; [apply (mi_keyed _ Hi)|apply (mi_grant _ Hi)|..];
      unfold invoke_start; by repeat case_match.
Qed.

Lemma minv_reachable s0 s : mstart s0 → rtc msys_step s0 s → minv s.
Proof.
  intros H0' Hr. apply minv_start in H0'. induction Hr as [|s1 s2 s3 Hs _ IH]; [done|].
  apply IH. by eapply minv_step.
Qed.

(** C35. A model call is issued at most once: whatever executions of the call are
started, interleaved with each other and with other transactions, and wherever they
die, the adapter is asked at most once, and while one execution waits for its answer
no other does. *)
Theorem inference_once s0 s :
  mstart s0 → rtc msys_step s0 s →
  (m_dispatches s ≤ 1)%nat
  ∧ ∀ i, invoking s i → m_dispatches s = 0%nat ∧ ∀ j, invoking s j → j = i.
Proof.
  intros Hs Hr. destruct (minv_reachable _ _ Hs Hr) as [_ _ _ Hone Hnone Hb _ _ _].
  split; [done|]. intros i Hi. split; [by eapply Hnone|]. intros j Hj. by apply Hone.
Qed.

(** All executions of a model call that return give the same structured result,
although only one of them has seen the provider's answer and the others read the
stored receipt. *)
Theorem model_result_stable s0 s i j c c' v v' :
  mstart s0 → rtc msys_step s0 s →
  m_procs s !! i = Some (c, MDone (Returned v)) → m_procs s !! j = Some (c', MDone (Returned v')) →
  v = v'.
Proof.
  intros Hs Hr Hi Hj. destruct (minv_reachable _ _ Hs Hr) as [_ _ _ _ _ _ _ _ Hret].
  apply Hret in Hi as (rc & r & o & Hrc & Hv & Ho & ->).
  apply Hret in Hj as (rc' & r' & o' & Hrc' & Hv' & Ho' & ->). congruence.
Qed.

(** C36. When a paid call reaches its provider the spend policy of the bound route
allows its conservative estimate; under a cap on the run, every call of the run that
was started has a result of known cost, and their decimal sum together with the
estimate does not exceed the cap. *)
Theorem paid_inference_within_cap s0 s i c t d' :
  mstart s0 → rtc msys_step s0 s → m_procs s !! i = Some (c, MBegin) →
  EgressPolicy.paid (ProviderSpec.egress (mc_provider c)) = true →
  invoke_tx c t MBegin (m_db s) = Some (MInvoke, d') →
  ∃ route j total, BudgetGateway.bound (mc_budget c) = Some (route, j)
  ∧ run_spend run_id (m_db s) = Ok total
  ∧ (SpendPolicy.valid (RoutePolicySpec.spend route) = true →
     affordable (RoutePolicySpec.spend route) (requirements_of (mc_request c) total)
       (ModelProfileSpec.pricing (mc_profile c)) true
     ∧ ∀ cap, SpendPolicy.max_run_cost (RoutePolicySpec.spend route) = Some cap →
         ∃ sum estimate, total = Some sum ∧ spent (run_calls run_id (m_db s)) sum
         ∧ Cost.amount (calculate_cost (estimated_usage (requirements_of (mc_request c) total))
                          (ModelProfileSpec.pricing (mc_profile c))) = Some estimate
         ∧ dec_gtb (dec_add sum estimate) cap = false).
Proof.
  intros Hs Hr Hp Hpaid Htx. pose proof (minv_reachable _ _ Hs Hr) as Hi.
  pose proof (mi_of _ Hi _ _ _ Hp) as Hof. pose proof (proj2 Hof) as Hcall.
  simpl in Htx. injection Htx as Htx.
  destruct (fenced _ _ _ _ _) as [[b d1]|] eqn:Hf; [|done].
  destruct (call_fenced_run _ _ _ _ _ _ _ (mi_keyed _ Hi) Hof Hf) as (run & Hrun & Hb%begin_body_ok).
  destruct b; try done. destruct Hb as (_ & Hbe & _ & Hg). rewrite Hpaid, Hrun, Hcall in *.
  destruct Hg as (g & _ & Hd & [Hold|(route & total & [(j & Hb) _ _ _ Hsp Hcap Haff])]).
  { pose proof (mi_grant _ Hi _ Hold Hd). pose proof (be_fresh _ _ _ _ Hbe). congruence. }
  exists route, j, total. split_and!; try done. intros Hv. specialize (Haff Hv). split; [done|].
  intros cap Hc. destruct Haff as [_ _ _ _ Hw]. rewrite Hc in Hw. simpl in Hw.
  destruct Hw as (x & Hx & Hgt). destruct (Cost.amount _) as [estimate|]; [|done].
  destruct total as [sum|]; [|done]. simpl in Hx. injection Hx as <-.
  exists sum, estimate. split_and!; try done. by apply run_spend_known.
Qed.

(** A call that starts under a team's budget leaves the number of distinct
calls of the team's runs and management turns within the budget; a gateway with a
budget but no team identity starts nothing. *)
Theorem inference_call_budget s0 s i c t d' maximum :
  mstart s0 → rtc msys_step s0 s → m_procs s !! i = Some (c, MBegin) →
  BudgetGateway.max_inference_calls (mc_budget c) = Some maximum →
  invoke_tx c t MBegin (m_db s) = Some (MInvoke, d') →
  ∃ mission team, BudgetGateway.mission_id (mc_budget c) = Some mission
  ∧ BudgetGateway.team_version_id (mc_budget c) = Some team
  ∧ inference_calls mission team d' ≤ maximum.
Proof.
  intros Hs Hr Hp Hm Htx. pose proof (minv_reachable _ _ Hs Hr) as Hi.
  pose proof (mi_of _ Hi _ _ _ Hp) as Hof. simpl in Htx. injection Htx as Htx.
  destruct (fenced _ _ _ _ _) as [[b d1]|] eqn:Hf; [|done].
  destruct (call_fenced_run _ _ _ _ _ _ _ (mi_keyed _ Hi) Hof Hf) as (run & _ & Hb%begin_body_ok).
  destruct b; try done. injection Htx as <-. destruct Hb as (_ & Hbe & Hadm & _).
  unfold team_admission in Hadm. rewrite Hm in Hadm.
  destruct (BudgetGateway.mission_id _) as [mission|], (BudgetGateway.team_version_id _) as [team|];
    try done. exists mission, team. split_and!; try done.
  unfold reserve_inference_call, raise_if in Hadm. destruct (Z.leb_spec maximum (inference_calls mission team (m_db s)));
    [done|].
  pose proof (inference_calls_added mission team _ (m_db s) d1
    (team_calls_added mission team _ (m_db s) d1 (be_runs _ _ _ _ Hbe) (be_turns _ _ _ _ Hbe)
       (be_calls _ _ _ _ Hbe))). lia.
Qed.
End system.
