(* ===== verification/Ledger.v ===== *)
(** * At most one dispatch, and final results

The system of all calls of the effect ledger for one effect: [run_id] and [key]
(the execution ID of a node) name it, and its adapter is not idempotent.  A lease
generation of the run has at most one active call at a time, as its executor runs
[cancel_pending] and then the graph; calls of different generations interleave in
every way, may crash at any point and be repeated, and the adapter may answer
anything.  All other transactions are steps of [Ownership.step] that leave the
effect's row alone. *)
From S2P Require Import Prelude Enums PyJson PyDecimal Failures Verification Registry.
From S2P Require Import WorkflowSpec Normalize RawValidation State NodeFactory Validate Database.
From S2P Require Import Ownership Commands Routing ModelSelection Effects.
From stdpp Require Import gmap.
Local Open Scope Z_scope.
Local Open Scope stdpp_scope.

(** A call of either kind. *)
Inductive proc :=
  | Handling (c : call) (p : pc)
  | Cancelling (fence : RunFence.t) (adapters : gset string) (p : cpc).

Definition fence_of (p : proc) : RunFence.t :=
  match p with Handling c _ => c_fence c | Cancelling f _ _ => f end.

(** The end of a call. *)
Definition ended (p : proc) : bool :=
  match p with
  | Handling _ (PDone _) | Cancelling _ _ (CDone _) => true
  | _ => false
  end.

Definition initial (p : proc) : bool :=
  match p with
  | Handling _ PPrepare | Cancelling _ _ CList => true
  | _ => false
  end.

(** Between its first transaction and its end a call holds the IDs of the effects it
may still change. *)
Definition targets (p : proc) : list uuid :=
  match p with
  | Handling _ p =>
      match p with
      | PInspect e _ _ | PIntent e _ | PDispatch e _ | PPoll e | PCancel e | PObserve e _
      | PSettle e _ _ _ | PSleep e => [e]
      | PPrepare | PDone _ => []
      end
  | Cancelling _ _ p =>
      match p with
      | CSettle e es | CRequest e es | CCancel e es | CInspect e es | CSleep e es =>
          EffectModel.id <$> e :: es
      | CUnknown e => [EffectModel.id e]
      | CList | CDone _ => []
      end
  end.

(** The intent to dispatch is not recorded yet. *)
Definition may_dispatch (p : proc) : bool :=
  match p with
  | Handling _ (PInspect _ false _) | Handling _ (PIntent _ _) => true
  | _ => false
  end.

Definition cancelling (p : proc) : bool :=
  match p with Cancelling _ _ _ => true | Handling _ _ => false end.

(** [adapter.dispatch] is the next call. *)
Definition dispatching (p : proc) : bool :=
  match p with Handling _ (PDispatch _ _) => true | _ => false end.

Record sys := { tables : db; procs : gmap Z proc; dispatches : nat }.

(** Keys of the table [effects]. *)
Record effects_ok (d : db) : Prop := {
  eo_id : ∀ i e, effects d !! i = Some e → EffectModel.id e = i;
  eo_key : ∀ i e i' e', effects d !! i = Some e → effects d !! i' = Some e' →
    EffectModel.run_id e = EffectModel.run_id e' →
    EffectModel.idempotency_key e = EffectModel.idempotency_key e' → i = i';
}.

Section system.
Context `{PyRuntime} `{PyStr} `{Redactor} `{UuidFormat}
  `{ModelDump WorkflowNode.t} `{ModelDump RoutePreviewRequest.t} `{ModelDump RegistryRecord.t}
  `{ModelDump RouteEvaluationData.t}.
Context (run_id : uuid) (key : string).

Definition mine : EffectModel.t → bool := effect_is run_id key.

(** The calls in question: this run's, and for [handler] this execution's. *)
Definition of_effect (g : Z) (p : proc) : Prop :=
  RunFence.run_id (fence_of p) = run_id ∧ RunFence.generation (fence_of p) = g
  ∧ match p with
    | Handling c _ => NodeContext.execution_id (c_context c) = key ∧ c_idempotent c = false
    | Cancelling _ _ _ => True
    end.

Definition proc_tx (t : readings) (p : proc) (d : db) : option (proc * db) :=
  match p with
  | Handling c p => (λ r, (Handling c r.1, r.2)) <$> handler_tx c t p d
  | Cancelling f ads p => (λ r, (Cancelling f ads r.1, r.2)) <$> cancel_tx f ads t p d
  end.

Definition proc_adapter (o : EffectObservation.t) (p : proc) : option proc :=
  match p with
  | Handling c p => Handling c <$> handler_adapter c o p
  | Cancelling f ads p => Cancelling f ads <$> cancel_adapter o p
  end.

(** Other transactions leave the row alone. *)
Definition same_effect (d d' : db) : Prop :=
  ∀ i e, mine e = true → effects d !! i = Some e ↔ effects d' !! i = Some e.

Inductive sys_step : sys → sys → Prop :=
  | sys_env s d' :
      step (tables s) d' → effects_ok d' → same_effect (tables s) d' →
      sys_step s {| tables := d'; procs := procs s; dispatches := dispatches s |}
  | sys_start s g p :
      (∀ q, procs s !! g = Some q → ended q = true) → initial p = true → of_effect g p →
      sys_step s {| tables := tables s; procs := <[g := p]> (procs s); dispatches := dispatches s |}
  | sys_crash s g :
      sys_step s {| tables := tables s; procs := delete g (procs s); dispatches := dispatches s |}
  | sys_tx s g p t p' d' :
      procs s !! g = Some p → proc_tx t p (tables s) = Some (p', d') →
      sys_step s {| tables := d'; procs := <[g := p']> (procs s); dispatches := dispatches s |}
  | sys_adapter s g p o p' :
      procs s !! g = Some p → proc_adapter o p = Some p' →
      sys_step s {| tables := tables s; procs := <[g := p']> (procs s);
                    dispatches := if dispatching p then S (dispatches s) else dispatches s |}.

(** No call yet, and no row. *)
Record start_state (s : sys) : Prop := {
  ss_tables : tables_ok (tables s);
  ss_effects : effects_ok (tables s);
  ss_none : ∀ i e, effects (tables s) !! i = Some e → mine e = false;
  ss_procs : procs s = ∅;
  ss_dispatches : dispatches s = 0%nat;
}.

(** ** Generations *)

(** The run has a lease newer than generation [g]. *)
Definition outrun (g : Z) (ls : list RunLeaseModel.t) : Prop :=
  superseded (RunFence.Build_t run_id "" g 0) ls.

Lemma fenced_known {A} f now now' (body : RunModel.t → db → res own_error (A * db)) d r :
  RunFence.run_id f = run_id → fenced f now now' body d = Ok r →
  outrun (RunFence.generation f - 1) (leases d).
Proof.
  intros Hf Hr. destruct (fenced_ok _ _ _ _ _ _ Hr) as (_ & l & _ & _ & Hl & (Hk & _) & _).
  apply active_lease_Some in Hl as (Hin & Hrun & _). unfold lease_key in Hk. injection Hk as _ Hg.
  exists l. simpl. split_and!; [done|congruence|lia].
Qed.

(** Whoever passes the fence outruns every other generation that was ever known. *)
Lemma fenced_outruns {A} f now now' (body : RunModel.t → db → res own_error (A * db)) d r g :
  leases_ok (leases d) → RunFence.run_id f = run_id → fenced f now now' body d = Ok r →
  outrun (g - 1) (leases d) → g ≠ RunFence.generation f → outrun g (leases d).
Proof.
  intros Hok Hf Hr (k & Hk & Hki & Hkg) Hne.
  destruct (fenced_ok _ _ _ _ _ _ Hr) as (_ & l & _ & _ & Hl & (Hkey & _) & _).
  apply active_lease_Some in Hl as (Hin & Hrun & Hrel). unfold lease_key in Hkey.
  injection Hkey as _ Hg. simpl in *.
  pose proof (lo_newest _ Hok l k Hin Hk ltac:(congruence) Hrel).
  exists l. simpl. split_and!; [done|congruence|lia].
Qed.

Lemma fenced_not_outrun {A} f now now' (body : RunModel.t → db → res own_error (A * db)) d r :
  leases_ok (leases d) → RunFence.run_id f = run_id → fenced f now now' body d = Ok r →
  ¬ outrun (RunFence.generation f) (leases d).
Proof.
  intros Hok Hf Hr (l & Hl & Hli & Hlg). apply (fenced_superseded f now now' body d r Hok); [|done].
  exists l. simpl in *. by rewrite Hf.
Qed.

(** ** The table of effects *)

Lemma mine_same_key e e' : same_key e e' → mine e' = mine e.
Proof. unfold mine, effect_is. by intros (_ & -> & -> & _). Qed.

Lemma mine_spec e :
  mine e = true ↔ EffectModel.run_id e = run_id ∧ EffectModel.idempotency_key e = key.
Proof. unfold mine, effect_is. by rewrite andb_true_iff, !bool_decide_eq_true. Qed.

Lemma mine_unique d i e i' e' :
  effects_ok d → effects d !! i = Some e → effects d !! i' = Some e' →
  mine e = true → mine e' = true → i = i'.
Proof.
  intros Hok He He' [Hr Hk]%mine_spec [Hr' Hk']%mine_spec.
  apply (eo_key _ Hok i e i' e'); congruence.
Qed.

Lemma elem_of_effects d e :
  effects_ok d → e ∈ (map_to_list (effects d)).*2 ↔ effects d !! EffectModel.id e = Some e.
Proof.
  intros Hok. rewrite list_elem_of_fmap. split.
  - intros ([i e'] & -> & Hin). simpl. apply elem_of_map_to_list in Hin.
    by rewrite (eo_id _ Hok i e' Hin).
  - intros He. exists (EffectModel.id e, e). split; [done|]. by apply elem_of_map_to_list.
Qed.

Lemma find_effect_Some d e :
  effects_ok d → find_effect run_id key d = Some e →
  effects d !! EffectModel.id e = Some e ∧ mine e = true.
Proof.
  intros Hok Hf. unfold find_effect in Hf.
  assert (e ∈ filter (λ e, effect_is run_id key e = true) (map_to_list (effects d)).*2) as Hin
    by (destruct (filter _ _); [done|]; injection Hf as ->; by left).
  apply list_elem_of_filter in Hin as [Hm Hin]. by rewrite elem_of_effects in Hin.
Qed.

Lemma find_effect_None d i e :
  effects_ok d → find_effect run_id key d = None → effects d !! i = Some e → mine e = false.
Proof.
  intros Hok Hf He. destruct (mine e) eqn:Hm; [|done].
  assert (e ∈ filter (λ e, effect_is run_id key e = true) (map_to_list (effects d)).*2) as Hin.
  { apply list_elem_of_filter. split; [done|]. rewrite elem_of_effects by done.
    by rewrite (eo_id _ Hok i e He). }
  unfold find_effect in Hf. destruct (filter _ _); [by apply elem_of_nil in Hin|done].
Qed.

Lemma effects_ok_update d d' i e e' :
  effects_ok d → effects d !! i = Some e → same_key e e' → effects d' = <[i := e']> (effects d) →
  effects_ok d'.
Proof.
  intros Hok He Hsame Hd'.
  assert (∀ j x, effects d' !! j = Some x → ∃ y, effects d !! j = Some y ∧ same_key y x) as Hback.
  { intros j x. rewrite Hd'. intros [[<- <-]|[_ Hx]]%lookup_insert_Some; [by exists e|].
    by exists x. }
  split.
  - intros j x (y & Hy & Hid' & _)%Hback. rewrite Hid'. by apply (eo_id _ Hok).
  - intros j x j' x' (y & Hy & _ & Hr & Hk & _)%Hback (y' & Hy' & _ & Hr' & Hk' & _)%Hback Hrr Hkk.
    apply (eo_key _ Hok j y j' y'); congruence.
Qed.

(** ** What a transaction of a call does

Either it fails, and the call ends, or it commits under the call's fence and
changes at most one row. *)

Definition final (e : EffectModel.t) : bool :=
  bool_decide (EffectModel.status e ∈ [EffectStatus.SUCCEEDED; EffectStatus.CANCELLED]).

Definition commits (f : RunFence.t) (d d' : db) : Prop :=
  (∃ A now now' (body : RunModel.t → db → res own_error (A * db)) a,
     fenced f now now' body d = Ok (a, d'))
  ∧ leases d' = leases d ∧ (keyed d → keyed d').

Inductive change (p : proc) (m : gmap uuid EffectModel.t) (q : proc)
    (m' : gmap uuid EffectModel.t) : Prop :=
  (** no row changes *)
  | ch_frame :
      m' = m → may_dispatch q = false → dispatching q = false →
      (∀ e, e ∈ targets q →
         e ∈ targets p ∨ cancelling q = true ∧ ∃ row, m !! e = Some row ∧ final row = false) →
      change p m q m'
  (** a new effect *)
  | ch_fresh e row :
      (∀ i x, m !! i = Some x → mine x = false) → m !! e = None → m' = <[e := row]> m →
      EffectModel.id row = e → mine row = true → EffectModel.status row = EffectStatus.PREPARED →
      targets q = [e] → dispatching q = false → change p m q m'
  (** an effect that another generation left behind *)
  | ch_again e row row' :
      m !! e = Some row → mine row = true → m' = <[e := row']> m → same_key row row' →
      EffectModel.status row' = EffectModel.status row → final row = false → targets q = [e] →
      (may_dispatch q = true → EffectModel.status row = EffectStatus.PREPARED) →
      dispatching q = false → change p m q m'
  (** the intent to dispatch *)
  | ch_intent e row row' :
      may_dispatch p = true → targets p = [e] → m !! e = Some row → m' = <[e := row']> m →
      same_key row row' → EffectModel.status row' = EffectStatus.DISPATCHED → targets q = [e] →
      may_dispatch q = false → change p m q m'
  (** another status *)
  | ch_update e row row' :
      e ∈ targets p → m !! e = Some row → m' = <[e := row']> m → same_key row row' →
      EffectModel.status row' ≠ EffectStatus.PREPARED → targets q ⊆ targets p →
      (final row' = true → e ∉ targets q) → may_dispatch q = false → dispatching q = false →
      change p m q m'.

(** The result of a transaction. *)
Inductive transacts (p : proc) (d : db) (q : proc) (d' : db) : Prop :=
  | tr_fails : d' = d → ended q = true → transacts p d q d'
  | tr_commits : commits (fence_of p) d d' → change p (effects d) q (effects d') →
      transacts p d q d'.

Lemma commits_body {A} f now now' (body : RunModel.t → db → res own_error (A * db)) d a d' run :
  fenced f now now' body d = Ok (a, d') → body run d = Ok (a, d') →
  (∀ run a d', body run d = Ok (a, d') → same_tables d d') → commits f d d'.
Proof.
  intros Hf Hb Hs. destruct (Hs _ _ _ Hb) as [Hl _ _ Hk]. split; [|done].
  by exists A, now, now', body, a.
Qed.

Lemma fenced_run {A} f now now' (body : RunModel.t → db → res own_error (A * db)) d r run :
  runs d !! RunFence.run_id f = Some run → fenced f now now' body d = Ok r → body run d = Ok r.
Proof.
  intros Hrun Hf. apply fenced_ok in Hf as (run' & _ & Hrun' & _ & _ & _ & _ & Hb). congruence.
Qed.

Lemma fenced_body {A} f now now' (body : RunModel.t → db → res own_error (A * db)) d r :
  fenced f now now' body d = Ok r → ∃ run, body run d = Ok r.
Proof. intros Hf. apply fenced_ok in Hf as (run & _ & _ & _ & _ & _ & _ & Hb). by exists run. Qed.

(** [_record] as a commit. *)
Lemma _record_ok f e status identity result t d c d' :
  effects_ok d → _record f e status identity result t d = Ok (c, d') →
  commits f d d' ∧ ∃ row row', effects d !! e = Some row ∧ effects d' = <[e := row']> (effects d)
    ∧ same_key row row'
    ∧ EffectModel.status row' = (if c then EffectStatus.CANCELLED else status).
Proof.
  intros Hok Hr. unfold _record in Hr. destruct (fenced_body _ _ _ _ _ _ Hr) as [run Hb]. split.
  - eapply commits_body; [done|done|]. intros ??? (? & _)%record_body_ok. done.
  - apply record_body_ok in Hb as (_ & _ & _ & row & row' & Hrow & He & Hs & Hst & _).
    rewrite (eo_id _ Hok _ _ Hrow) in He. by exists row, row'.
Qed.

(** Only outcomes are settled, and what is returned is what is recorded. *)
Definition settles_outcome (p : proc) : Prop :=
  match p with
  | Handling _ (PSettle _ s r next) =>
      s ≠ EffectStatus.PREPARED
      ∧ ∀ x, next = Returned x → s = EffectStatus.SUCCEEDED ∧ r = x ∧ is_Some x
  | _ => True
  end.

Lemma prepare_transacts c t d r d' q :
  effects_ok d → RunFence.run_id (c_fence c) = run_id → NodeContext.execution_id (c_context c) = key →
  fenced (c_fence c) (t_now t) (t_exit t) (prepare_body (c_fence c) (c_context c) (c_state c) t) d
    = Ok (r, d') →
  q = match r with
      | Replay x => PDone (Returned x)
      | Proceed e dispatched config => PInspect e dispatched config
      end →
  transacts (Handling c PPrepare) d (Handling c q) d'.
Proof.
  intros Hok Hrun Hkey Hf ->. destruct (fenced_body _ _ _ _ _ _ Hf) as [run Hb].
  apply tr_commits.
  { eapply commits_body; [done|done|]. intros ??? (? & _)%prepare_body_ok. done. }
  apply prepare_body_ok in Hb as [_ Hp]. unfold prepares in Hp. rewrite Hrun, Hkey in Hp.
  destruct (find_effect run_id key d) as [row|] eqn:Hfind.
  - apply find_effect_Some in Hfind as [Hrow Hm]; [|done]. destruct Hp as [_ Hp]. destruct r.
    + destruct Hp as (_ & _ & ->). apply ch_frame; try done. by intros e ?%elem_of_nil.
    + destruct Hp as (-> & _ & Hst & -> & ->).
      eapply ch_again; [exact Hrow|done|done|done|done| |done| |done].
      * by apply bool_decide_eq_false.
      * simpl. destruct (bool_decide_reflect (EffectModel.status row = EffectStatus.PREPARED)); done.
  - destruct Hp as (Hnew & row & -> & He & Hid & Hr & Hk & _ & Hst & _).
    eapply ch_fresh; [|exact Hnew|exact He|done| |done|done|done].
    + intros i x Hx. by apply (find_effect_None d i).
    + by apply mine_spec.
Qed.

Lemma handler_transacts g c t p d q d' :
  effects_ok d → of_effect g (Handling c p) → settles_outcome (Handling c p) →
  handler_tx c t p d = Some (q, d') → transacts (Handling c p) d (Handling c q) d'.
Proof.
  intros Hok (Hrun & _ & Hkey & _) Hset. simpl in Hrun.
  destruct p as [| | e config | | e | | | e status result next | |]; simpl; try done.
  - destruct (fenced _ _ _ _ _) as [[r d1]|x] eqn:Hf; [|intros [= <- <-]; by apply tr_fails].
    intros Hq. assert (d1 = d' ∧ q = match r with
      | Replay x => PDone (Returned x)
      | Proceed e dispatched config => PInspect e dispatched config end) as [-> Hq']
      by (destruct r; injection Hq as <- <-; done).
    by eapply prepare_transacts.
  - destruct (_record _ _ _ _ _ _ _) as [[b d1]|x] eqn:Hr; [|intros [= <- <-]; by apply tr_fails].
    apply _record_ok in Hr as (Hc & row & row' & Hrow & He & Hs & Hst); [|done].
    destruct b; intros [= <- <-]; apply tr_commits; try done.
    + eapply ch_update; [by left|exact Hrow|exact He|done|by rewrite Hst|apply list_subseteq_nil
        |intros _; by apply not_elem_of_nil|done|done].
    + by eapply ch_intent.
  - destruct (fenced _ _ _ _ _) as [[b d1]|x] eqn:Hf; [|intros [= <- <-]; by apply tr_fails].
    destruct (fenced_body _ _ _ _ _ _ Hf) as [run Hb].
    assert (commits (c_fence c) d d1) as Hc.
    { eapply commits_body; [done|done|]. intros ??? (? & _)%poll_body_ok. done. }
    apply poll_body_ok in Hb as (_ & _ & Hbv & row & Hrow & He).
    intros Hq. assert (d1 = d' ∧ targets (Handling c q) = [e] ∧ may_dispatch (Handling c q) = false
      ∧ dispatching (Handling c q) = false) as (-> & Ht & Hm & Hdp)
      by (destruct b; injection Hq as <- <-; done).
    apply tr_commits; [done|]. destruct He as [He|[_ He]].
    + apply ch_frame; [done|done|done|]. rewrite Ht. intros e' He'. by left.
    + rewrite (eo_id _ Hok _ _ Hrow) in He.
      eapply ch_update; [by left|exact Hrow|exact He|done|done| |done|done|done]. by rewrite Ht.
  - destruct (_record _ _ _ _ _ _ _) as [[b d1]|x] eqn:Hr; [|intros [= <- <-]; by apply tr_fails].
    apply _record_ok in Hr as (Hc & row & row' & Hrow & He & Hs & Hst); [|done].
    intros Hq. assert (d1 = d' ∧ targets (Handling c q) = [] ∧ may_dispatch (Handling c q) = false
      ∧ dispatching (Handling c q) = false) as (-> & Ht & Hm & Hdp)
      by (destruct b; injection Hq as <- <-; done).
    apply tr_commits; [done|].
    eapply ch_update; [by left|exact Hrow|exact He|done| | | |done|done].
    + rewrite Hst. destruct b; [done|apply Hset].
    + rewrite Ht. set_solver.
    + intros _. rewrite Ht. by apply not_elem_of_nil.
Qed.

(** ** [cancel_pending] *)

Lemma cancel_next_targets f ads es : targets (Cancelling f ads (cancel_next ads es)) ⊆ EffectModel.id <$> es.
Proof.
  destruct es as [|e es]; simpl; [apply list_subseteq_nil|].
  destruct (EffectModel.external_id e); [|reflexivity].
  destruct (bool_decide _); [reflexivity|apply list_subseteq_nil].
Qed.

Lemma pending_not_final i d e :
  effects_ok d → e ∈ EffectModel.id <$> pending_effects i d →
  ∃ row, effects d !! e = Some row ∧ final row = false.
Proof.
  intros Hok (row & -> & Hin)%list_elem_of_fmap.
  apply list_elem_of_filter in Hin as [[_ Hst] Hin]. rewrite elem_of_effects in Hin by done.
  exists row. split; [done|]. unfold final. apply (bool_decide_pack _) in Hst.
  by destruct (EffectModel.status row).
Qed.

Lemma cancel_transacts g f ads t p d q d' :
  effects_ok d → of_effect g (Cancelling f ads p) → NoDup (targets (Cancelling f ads p)) →
  cancel_tx f ads t p d = Some (q, d') → transacts (Cancelling f ads p) d (Cancelling f ads q) d'.
Proof.
  intros Hok (Hrun & _) Hnd.
  assert (∀ e status next, status ≠ EffectStatus.PREPARED →
    EffectModel.id e ∈ targets (Cancelling f ads p) →
    targets (Cancelling f ads next) ⊆ targets (Cancelling f ads p) →
    (status ∈ [EffectStatus.SUCCEEDED; EffectStatus.CANCELLED; EffectStatus.DISPATCHED] →
     EffectModel.id e ∉ targets (Cancelling f ads next)) →
    Some match _record f (EffectModel.id e) status None None t d with
         | Ok (true, d') => (CDone (Raised cooperative_cancel), d')
         | Ok (false, d') => (next, d')
         | Err x => (CDone (Raised x), d)
         end = Some (q, d') →
    transacts (Cancelling f ads p) d (Cancelling f ads q) d') as Hrec.
  { intros e status next Hst Hin Hsub Hdone.
    destruct (_record _ _ _ _ _ _ _) as [[b d1]|x] eqn:Hr; [|intros [= <- <-]; by apply tr_fails].
    apply _record_ok in Hr as (Hc & row & row' & Hrow & He & Hs & Hst'); [|done].
    destruct b; intros [= <- <-]; (apply tr_commits; [done|]);
      (eapply ch_update; [exact Hin|exact Hrow|exact He|done|by rewrite Hst'| | |done|done]).
    - simpl. apply list_subseteq_nil.
    - simpl. intros _. by apply not_elem_of_nil.
    - done.
    - intros Hf%bool_decide_eq_true. rewrite Hst' in Hf. apply Hdone. set_solver. }
  destruct p as [|e rest|e rest| | |e| |]; simpl; try done.
  - destruct (fenced _ _ _ _ _) as [[es d1]|x] eqn:Hf; [|intros [= <- <-]; by apply tr_fails].
    destruct (fenced_body _ _ _ _ _ _ Hf) as [run Hb]. injection Hb as <- <-.
    intros [= <- <-]. apply tr_commits.
    + split; [by do 5 eexists|done].
    + apply ch_frame; [done|done|done|]. intros e He%cancel_next_targets. right.
      split; [done|]. by eapply pending_not_final.
  - simpl in Hnd. apply NoDup_cons in Hnd as [Hni _].
    apply Hrec; [done|by left| |].
    + rewrite cancel_next_targets. simpl. set_solver.
    + intros _ Hin. apply cancel_next_targets in Hin. done.
  - apply Hrec; [done|by left|done|]. intros Hin. set_solver.
  - apply Hrec; [done|by left|simpl; set_solver|]. intros _. by apply not_elem_of_nil.
Qed.

(** ** The invariant *)

(** What holds of a call on its own. *)
Record proc_ok (g : Z) (p : proc) (d : db) : Prop := {
  po_effect : of_effect g p;
  po_settles : settles_outcome p;
  po_distinct : NoDup (targets p);
  po_rows : match p with
            | Handling _ _ => ∀ e, e ∈ targets p → ∃ row, effects d !! e = Some row ∧ mine row = true
            | Cancelling _ _ _ => True
            end;
  po_known : targets p ≠ [] → outrun (g - 1) (leases d);
}.

(** The row of the effect exists with a status that satisfies [P]. *)
Definition row_with (P : EffectStatus.t → Prop) (d : db) : Prop :=
  ∃ e row, effects d !! e = Some row ∧ mine row = true ∧ P (EffectModel.status row).

Record inv (s : sys) : Prop := {
  iv_tables : tables_ok (tables s);
  iv_effects : effects_ok (tables s);
  iv_proc : ∀ g p, procs s !! g = Some p → proc_ok g p (tables s);
  (** a call that may still dispatch is outrun, or nobody has dispatched *)
  iv_may : ∀ g p, procs s !! g = Some p → may_dispatch p = true →
    row_with (λ st, st = EffectStatus.PREPARED) (tables s) ∨ outrun g (leases (tables s));
  iv_one : ∀ g p g' p', procs s !! g = Some p → procs s !! g' = Some p' →
    dispatching p = true → dispatching p' = true → g = g';
  iv_none : ∀ g p, procs s !! g = Some p → dispatching p = true → dispatches s = 0%nat;
  iv_bound : (dispatches s ≤ 1)%nat;
  iv_sent : (dispatches s ≠ 0%nat ∨ ∃ g p, procs s !! g = Some p ∧ dispatching p = true) →
    row_with (λ st, st ≠ EffectStatus.PREPARED) (tables s);
  (** whoever may change a final row is outrun *)
  iv_final : ∀ g p e row, procs s !! g = Some p → effects (tables s) !! e = Some row →
    mine row = true → final row = true → e ∈ targets p → outrun g (leases (tables s));
}.

Lemma row_with_prepared d :
  effects_ok d → row_with (λ st, st = EffectStatus.PREPARED) d →
  row_with (λ st, st ≠ EffectStatus.PREPARED) d → False.
Proof.
  intros Hok (e & row & He & Hm & Hst) (e' & row' & He' & Hm' & Hst').
  assert (e = e') as <- by by eapply mine_unique. congruence.
Qed.

Lemma inv_start s : start_state s → inv s.
Proof.
  destruct s as [d ps n]. intros [Ht He Hn Hp Hd]; simpl in *. subst. split; simpl; try done.
  - lia.
  - by intros [?|(g & p & Hg & _)].
Qed.

(** A step that changes no table and takes one call to a quiet point. *)
Lemma inv_move s g p q n :
  inv s → proc_ok g q (tables s) → procs s !! g = Some p →
  (∀ e, e ∈ targets q → e ∈ targets p) → (may_dispatch q = true → may_dispatch p = true) →
  dispatching q = false → n = (if dispatching p then S (dispatches s) else dispatches s) →
  inv {| tables := tables s; procs := <[g := q]> (procs s); dispatches := n |}.
Proof.
  intros Hi Hq Hp Ht Hm Hd ->. pose proof Hi as [Htb Hef Hpr Hmay Hone Hnone Hbd Hsent Hfin].
  assert (dispatching p = true → dispatches s = 0%nat) as Hz by (intros; by eapply Hnone).
  split; simpl; try done.
  - intros g' p' [[<- <-]|[_ Hg]]%lookup_insert_Some; [done|by apply Hpr].
  - intros g' p' [[<- <-]|[_ Hg]]%lookup_insert_Some Hmd; eauto.
  - intros g1 p1 g2 p2 [[<- <-]|[_ H1']]%lookup_insert_Some [[<- <-]|[_ H2']]%lookup_insert_Some;
      [done|congruence|congruence|by apply Hone].
  - intros g' p' [[<- <-]|[Hne Hg]]%lookup_insert_Some Hd'; [congruence|].
    destruct (dispatching p) eqn:Hdp; [|by eapply Hnone].
    by destruct (Hne (Hone _ _ _ _ Hp Hg Hdp Hd')).
  - destruct (dispatching p); [|done]. rewrite Hz by done. lia.
  - intros Hor. apply Hsent. destruct (dispatching p) eqn:Hdp; [right; by exists g, p|].
    destruct Hor as [?|(g' & p' & [[<- <-]|[_ Hg]]%lookup_insert_Some & Hd')]; [by left|congruence|].
    right. by exists g', p'.
  - intros g' p' e row [[<- <-]|[_ Hg]]%lookup_insert_Some He Hmi Hf Hin; eauto.
Qed.

(** ** Calls stay well formed *)

Lemma effect_ids d : effects_ok d → EffectModel.id <$> (map_to_list (effects d)).*2 = (map_to_list (effects d)).*1.
Proof.
  intros Hok. rewrite <-list_fmap_compose. apply list_fmap_ext. intros k [i e] Hk. simpl.
  apply list_elem_of_lookup_2, elem_of_map_to_list in Hk. by apply (eo_id _ Hok).
Qed.

Lemma pending_distinct i d : effects_ok d → NoDup (EffectModel.id <$> pending_effects i d).
Proof.
  intros Hok. eapply sublist_NoDup; [|apply fmap_sublist, sublist_filter].
  rewrite effect_ids by done. apply NoDup_fst_map_to_list.
Qed.

Lemma cancel_next_distinct f ads es :
  NoDup (EffectModel.id <$> es) → NoDup (targets (Cancelling f ads (cancel_next ads es))).
Proof.
  destruct es as [|e es]; simpl; [intros; constructor|].
  destruct (EffectModel.external_id e); [|done]. destruct (bool_decide _); [done|constructor].
Qed.

Lemma handler_targets_distinct c p : NoDup (targets (Handling c p)).
Proof. destruct p; simpl; try apply NoDup_nil_2; apply NoDup_singleton. Qed.

Lemma proc_tx_shape g t p d q d' :
  effects_ok d → proc_ok g p d → proc_tx t p d = Some (q, d') →
  of_effect g q ∧ settles_outcome q ∧ NoDup (targets q) ∧ dispatching p = false
  ∧ cancelling q = cancelling p.
Proof.
  intros Hok [Hof _ Hnd _ _]. destruct p as [c p|f ads p]; simpl.
  - intros ([p' d1] & Hp & [= -> ->])%fmap_Some. split; [exact Hof|].
    assert (settles_outcome (Handling c p') ∧ dispatching (Handling c p) = false) as [? ?].
    { destruct p; simpl in *; try done; split; try done; unfold raised in Hp;
        repeat case_match; simplify_eq; done. }
    split_and!; try done. apply handler_targets_distinct.
  - intros ([p' d1] & Hp & [= -> ->])%fmap_Some. split; [exact Hof|]. split; [done|].
    split_and!; try done. destruct p; simpl in Hp; try done; simpl in Hnd.
    + destruct (fenced _ _ _ _ _) as [[es d2]|] eqn:Hf; injection Hp as <- <-; [|constructor].
      destruct (fenced_body _ _ _ _ _ _ Hf) as [run Hb]. injection Hb as <- _.
      by apply cancel_next_distinct, pending_distinct.
    + apply NoDup_cons in Hnd as [_ Hnd].
      repeat case_match; simplify_eq; try constructor. by apply cancel_next_distinct.
    + repeat case_match; simplify_eq; try done; constructor.
    + repeat case_match; simplify_eq; constructor.
Qed.

Lemma proc_adapter_shape g o p q d :
  proc_ok g p d → proc_adapter o p = Some q →
  proc_ok g q d ∧ (∀ e, e ∈ targets q → e ∈ targets p)
  ∧ (may_dispatch q = true → may_dispatch p = true) ∧ dispatching q = false.
Proof.
  intros [Hof Hset Hnd Hrows Hknown] Hq.
  assert (of_effect g q ∧ settles_outcome q ∧ (∀ e, e ∈ targets q → e ∈ targets p)
    ∧ (may_dispatch q = true → may_dispatch p = true) ∧ dispatching q = false
    ∧ NoDup (targets q) ∧ cancelling q = cancelling p) as (Hof' & Hset' & Ht & Hm & Hd & Hnd' & Hc).
  { destruct p as [c p|f ads p]; simpl in Hq; apply fmap_Some in Hq as (p' & Hp & ->).
    - split; [exact Hof|]. destruct Hof as (_ & _ & _ & Hidem).
      split_and!; try done; [| | | |apply handler_targets_distinct];
        destruct p as [|e [|]| | | | |e [|]| | |]; simpl in Hp; try done; injection Hp as <-;
        unfold reconcile, observe; rewrite ?Hidem; repeat case_match; simpl; try done; set_solver.
    - split; [exact Hof|]. split; [done|]. destruct p; simpl in Hp; try done;
        try destruct (EffectObservation.status o); injection Hp as <-; split_and!; try done.
      + simpl. set_solver.
      + apply NoDup_singleton. }
  split; [|done]. split; try done.
  - destruct p, q; try done. intros e He. by apply Hrows, Ht.
  - intros Hne. apply Hknown. intros Hnil. apply Hne. destruct (targets q) as [|e es]; [done|].
    specialize (Ht e ltac:(by left)). rewrite Hnil in Ht. by apply elem_of_nil in Ht.
Qed.

(** ** Changes keep the table *)

Lemma change_update d d' e row row' :
  effects_ok d → effects d !! e = Some row → effects d' = <[e := row']> (effects d) →
  same_key row row' →
  effects_ok d'
  ∧ ∀ i x, effects d !! i = Some x → ∃ x', effects d' !! i = Some x' ∧ mine x' = mine x.
Proof.
  intros Hok He Hd' Hs. split; [by eapply effects_ok_update|]. intros i x Hx. rewrite Hd'.
  destruct (decide (i = e)) as [->|Hne].
  - rewrite lookup_insert_eq. exists row'. split; [done|].
    assert (x = row) as -> by congruence. by apply mine_same_key.
  - rewrite lookup_insert_ne by done. by exists x.
Qed.

Lemma change_ok p d q d' :
  effects_ok d → change p (effects d) q (effects d') →
  effects_ok d'
  ∧ ∀ i x, effects d !! i = Some x → ∃ x', effects d' !! i = Some x' ∧ mine x' = mine x.
Proof.
  intros Hok [Hm _ _ _|e row Hno Hnew Hm Hid Hmi _ _ _|e row row' He _ Hm Hs _ _ _ _ _
    |e row row' _ _ He Hm Hs _ _ _|e row row' _ He Hm Hs _ _ _ _ _];
    try by eapply change_update.
  - split; [|intros i x; rewrite Hm; by exists x].
    split; rewrite Hm; [apply (eo_id _ Hok)|apply (eo_key _ Hok)].
  - apply mine_spec in Hmi as [Hr Hk]. split.
    + split.
      * intros i x. rewrite Hm. intros [[<- <-]|[_ Hx]]%lookup_insert_Some; [done|].
        by apply (eo_id _ Hok).
      * intros i x i' x'. rewrite Hm.
        assert (∀ j y, effects d !! j = Some y → EffectModel.run_id y = EffectModel.run_id row →
          EffectModel.idempotency_key y = EffectModel.idempotency_key row → False) as Hclash.
        { intros j y Hy H1' H2'. pose proof (Hno j y Hy) as Hmy. revert Hmy.
          by rewrite (proj2 (mine_spec y)) by (split; congruence). }
        intros [[<- <-]|[_ Hx]]%lookup_insert_Some [[<- <-]|[_ Hx']]%lookup_insert_Some;
          [done|intros ??; exfalso; by eapply Hclash|intros ??; exfalso; by eapply Hclash|].
        by apply (eo_key _ Hok).
    + intros i x Hx. rewrite Hm, lookup_insert_ne by congruence. by exists x.
Qed.

Lemma row_with_update (P : EffectStatus.t → Prop) d d' e row row' :
  effects d !! e = Some row → effects d' = <[e := row']> (effects d) → same_key row row' →
  (P (EffectModel.status row) → P (EffectModel.status row')) → row_with P d → row_with P d'.
Proof.
  intros He Hd' Hs HP (i & x & Hx & Hm & Hst). destruct (decide (i = e)) as [->|Hne].
  - exists e, row'. rewrite Hd', lookup_insert_eq. assert (x = row) as -> by congruence.
    split; [done|]. rewrite (mine_same_key _ _ Hs). auto.
  - exists i, x. by rewrite Hd', lookup_insert_ne.
Qed.

(** What a change means for the dispatch and for final rows, when the call is not
outrun. *)
Record advance (p q : proc) (d d' : db) : Prop := {
  ad_may : may_dispatch q = true → row_with (λ st, st = EffectStatus.PREPARED) d';
  ad_intent : dispatching q = true → ¬ row_with (λ st, st ≠ EffectStatus.PREPARED) d;
  ad_sent : row_with (λ st, st ≠ EffectStatus.PREPARED) d ∨ dispatching q = true →
    row_with (λ st, st ≠ EffectStatus.PREPARED) d';
  ad_final : ∀ e row, effects d' !! e = Some row → mine row = true → final row = true →
    e ∉ targets q;
  ad_rows : cancelling q = false →
    ∀ e, e ∈ targets q → ∃ row, effects d' !! e = Some row ∧ mine row = true;
  (** a final row stays as it is *)
  ad_kept : ∀ e row, effects d !! e = Some row → mine row = true → final row = true →
    effects d' !! e = Some row;
}.

Lemma change_advance s g p q d' :
  inv s → procs s !! g = Some p → ¬ outrun g (leases (tables s)) →
  cancelling q = cancelling p →
  change p (effects (tables s)) q (effects d') → advance p q (tables s) d'.
Proof.
  intros Hi Hp Hno Hcq Hch. pose proof Hi as [_ Hok Hpr Hmay _ _ _ _ Hfin].
  assert (∀ e row, effects (tables s) !! e = Some row → mine row = true → final row = true →
    e ∉ targets p) as Hnf by (intros e row ????; by eapply Hno, Hfin).
  assert (cancelling p = false → ∀ e, e ∈ targets p →
    ∃ row, effects (tables s) !! e = Some row ∧ mine row = true) as Hrows.
  { intros Hc. pose proof (po_rows _ _ _ (Hpr _ _ Hp)). by destruct p. }
  destruct Hch as [Hm Hmq Hdq Ht|e row Hnone Hnew Hm Hid Hmi Hst Ht Hd
    |e row row' He Hmi Hm Hs Hst Hf Ht Hmq Hd|e row row' Hmp Ht He Hm Hs Hst Htq Hmq
    |e row row' Hin He Hm Hs Hst Ht Hf Hmq Hdq].
  - split; rewrite ?Hmq, ?Hdq; try done.
    + intros [(e & row & Hrow & ?)|?]; [|done]. exists e, row. by rewrite Hm.
    + intros e row Hrow Hmi Hf Hin. rewrite Hm in Hrow.
      destruct (Ht e Hin) as [?|(_ & row' & Hrow' & Hf')]; [by eapply Hnf|congruence].
    + intros Hc e Hin. rewrite Hm. destruct (Ht e Hin) as [?|(? & _)]; [|congruence].
      apply Hrows; congruence.
    + by rewrite Hm.
  - split; rewrite ?Hd; try done.
    + intros _. exists e, row. by rewrite Hm, lookup_insert_eq.
    + intros [(i & x & Hx & Hmx & _)|?]; [|done]. by rewrite (Hnone i x Hx) in Hmx.
    + intros i x Hx Hmx Hfx. rewrite Ht. intros ->%list_elem_of_singleton.
      rewrite Hm, lookup_insert_eq in Hx. injection Hx as <-. unfold final in Hfx.
      by rewrite Hst in Hfx.
    + intros _ i. rewrite Ht. intros ->%list_elem_of_singleton. exists row.
      by rewrite Hm, lookup_insert_eq.
    + intros i x Hx Hmx. by rewrite (Hnone i x Hx) in Hmx.
  - split; rewrite ?Hd; try done.
    + intros Hq. exists e, row'. rewrite Hm, lookup_insert_eq, (mine_same_key _ _ Hs), Hst.
      split; [done|]. split; [done|]. by apply Hmq.
    + intros [Hr|?]; [|done]. eapply row_with_update; [exact He|exact Hm|done| |done]. by rewrite Hst.
    + intros i x Hx Hmx Hfx. rewrite Ht. intros ->%list_elem_of_singleton.
      rewrite Hm, lookup_insert_eq in Hx. injection Hx as <-. unfold final in *.
      rewrite Hst in Hfx. by rewrite Hfx in Hf.
    + intros _ i. rewrite Ht. intros ->%list_elem_of_singleton. exists row'.
      by rewrite Hm, lookup_insert_eq, (mine_same_key _ _ Hs).
    + intros i x Hx Hmx Hfx. rewrite Hm. rewrite lookup_insert_ne; [done|]. intros ->. congruence.
  - assert (row_with (λ st, st = EffectStatus.PREPARED) (tables s)) as Hprep
      by (destruct (Hmay _ _ Hp Hmp); done).
    split; rewrite ?Hmq; try done.
    + intros _ Hr. exact (row_with_prepared _ Hok Hprep Hr).
    + intros _. destruct Hprep as (i & x & Hx & Hmx & Hsx).
      assert (mine row = true) as Hmr.
      { destruct (cancelling p) eqn:Hc; [by destruct p|].
        destruct (Hrows eq_refl e) as (r & Hr & ?); [rewrite Ht; by left|congruence]. }
      exists e, row'. rewrite Hm, lookup_insert_eq, (mine_same_key _ _ Hs), Hst. done.
    + intros i x Hx Hmx Hfx. rewrite Htq. intros ->%list_elem_of_singleton.
      rewrite Hm, lookup_insert_eq in Hx. injection Hx as <-. unfold final in Hfx.
      by rewrite Hst in Hfx.
    + intros Hc i. rewrite Htq. intros ->%list_elem_of_singleton.
      destruct (Hrows ltac:(congruence) e) as (r & Hr & Hmr); [rewrite Ht; by left|].
      exists row'. rewrite Hm, lookup_insert_eq, (mine_same_key _ _ Hs). split; [done|congruence].
    + intros i x Hx Hmx Hfx. rewrite Hm. rewrite lookup_insert_ne; [done|]. intros ->.
      apply (Hnf i x); [done..|]. rewrite Ht. by left.
  - split; rewrite ?Hmq, ?Hdq; try done.
    + intros [Hr|?]; [|done]. by eapply row_with_update.
    + intros i x Hx Hmx Hfx Hiq. rewrite Hm in Hx.
      apply lookup_insert_Some in Hx as [[<- <-]|[_ Hx]]; [by apply Hf|].
      by apply (Hnf i x), Ht.
    + intros Hc i Hiq. destruct (Hrows ltac:(congruence) i) as (r & Hr & Hmr); [by apply Ht|].
      rewrite Hm. destruct (decide (i = e)) as [->|Hne].
      * exists row'. rewrite lookup_insert_eq, (mine_same_key _ _ Hs). split; [done|congruence].
      * exists r. by rewrite lookup_insert_ne.
    + intros i x Hx Hmx Hfx. rewrite Hm. rewrite lookup_insert_ne; [done|]. intros ->.
      by apply (Hnf i x).
Qed.

(** ** Every step keeps the invariant *)

Lemma commits_fence f d d' :
  leases_ok (leases d) → RunFence.run_id f = run_id → commits f d d' →
  ¬ outrun (RunFence.generation f) (leases d) ∧ outrun (RunFence.generation f - 1) (leases d)
  ∧ ∀ g, outrun (g - 1) (leases d) → g ≠ RunFence.generation f → outrun g (leases d).
Proof.
  intros Hok Hf [(A & now & now' & body & a & Hc) _].
  split; [by eapply fenced_not_outrun|]. split; [by eapply fenced_known|].
  intros g. by eapply fenced_outruns.
Qed.

Lemma inv_commit s g p q d' :
  inv s → procs s !! g = Some p → dispatching p = false → cancelling q = cancelling p →
  of_effect g q → settles_outcome q → NoDup (targets q) →
  commits (fence_of p) (tables s) d' → change p (effects (tables s)) q (effects d') →
  inv {| tables := d'; procs := <[g := q]> (procs s); dispatches := dispatches s |}
  ∧ advance p q (tables s) d'.
Proof.
  intros Hi Hp Hdp Hcq Hof Hset Hnd Hcm Hch.
  pose proof Hi as [[Hk Hl] Hok Hpr Hmay Hone Hnone Hbd Hsent Hfin].
  pose proof (po_effect _ _ _ (Hpr _ _ Hp)) as (Hrun & Hg & _).
  destruct (commits_fence _ _ _ Hl Hrun Hcm) as (Hno & Hkn & Hout). rewrite Hg in *.
  pose proof (change_advance s g p q d' Hi Hp Hno Hcq Hch) as Had. split; [|done].
  destruct (change_ok _ _ _ _ Hok Hch) as [Hok' Hrows]. destruct Hcm as (_ & Hls & Hkd).
  destruct Had as [Hamay Haint Hasent Hafin Harows _].
  assert (∀ g' p', procs s !! g' = Some p' → g' ≠ g → targets p' ≠ [] →
    outrun g' (leases (tables s))) as Hothers.
  { intros g' p' Hg' Hne Ht. apply Hout; [|done]. by apply (po_known _ _ _ (Hpr _ _ Hg')). }
  split; simpl; rewrite ?Hls; try done.
  - split; [by apply Hkd|by rewrite Hls].
  - intros g' p' [[<- <-]|[_ Hg']]%lookup_insert_Some.
    + split; try done; [|by rewrite Hls]. destruct q; [|done]. by apply Harows.
    + destruct (Hpr _ _ Hg') as [Ho' Hs' Hn' Hr' Hk']. split; try done; [|by rewrite Hls].
      destruct p'; [|done]. intros e He. destruct (Hr' e He) as (x & Hx & Hmx).
      destruct (Hrows e x Hx) as (x' & Hx' & Hmx'). exists x'. split; [done|congruence].
  - intros g' p' [[<- <-]|[Hne Hg']]%lookup_insert_Some Hmd; [left; by apply Hamay|].
    right. apply (Hothers g' p'); [done|done|]. by destruct p' as [? []|].
  - intros g1 p1 g2 p2 [[<- <-]|[N1 H1']]%lookup_insert_Some [[<- <-]|[N2 H2']]%lookup_insert_Some
      D1 D2; [done| | |by eapply Hone]; exfalso; apply Haint; try done; apply Hsent; right; eauto.
  - intros g' p' [[<- <-]|[_ Hg']]%lookup_insert_Some Hd'; [|by eapply Hnone].
    destruct (decide (dispatches s = 0%nat)) as [|Hn]; [done|]. exfalso. apply Haint; [done|].
    apply Hsent. by left.
  - intros Hor. apply Hasent.
    destruct Hor as [Hn|(g' & p' & [[<- <-]|[_ Hg']]%lookup_insert_Some & Hd')];
      [left; apply Hsent; by left|by right|left; apply Hsent; right; eauto].
  - intros g' p' e row [[<- <-]|[Hne Hg']]%lookup_insert_Some He Hm Hf Hin;
      [by destruct (Hafin e row)|].
    apply (Hothers g' p'); [done|done|]. intros Hnil. rewrite Hnil in Hin. by apply elem_of_nil in Hin.
Qed.

Lemma ended_quiet q : ended q = true → targets q = [] ∧ may_dispatch q = false ∧ dispatching q = false.
Proof. by destruct q as [? []|? ? []]. Qed.

Lemma initial_quiet q :
  initial q = true → targets q = [] ∧ may_dispatch q = false ∧ dispatching q = false
  ∧ settles_outcome q.
Proof. by destruct q as [? []|? ? []]. Qed.

Lemma quiet_ok g q d :
  of_effect g q → settles_outcome q → targets q = [] → proc_ok g q d.
Proof.
  intros Ho Hs Ht. split; try done; rewrite ?Ht; [apply NoDup_nil_2|].
  destruct q; [|done]. by intros e ?%elem_of_nil.
Qed.

(** [advance] where nothing changed. *)
Lemma inv_tx s g p t q d' :
  inv s → procs s !! g = Some p → proc_tx t p (tables s) = Some (q, d') →
  inv {| tables := d'; procs := <[g := q]> (procs s); dispatches := dispatches s |}
  ∧ (d' = tables s ∨ advance p q (tables s) d').
Proof.
  intros Hi Hp Htx. pose proof Hi as [[Hk Hl] Hok Hpr _ _ _ _ _ _].
  pose proof (Hpr _ _ Hp) as Hpo.
  destruct (proc_tx_shape _ _ _ _ _ _ Hok Hpo Htx) as (Hof & Hset & Hnd & Hdp & Hcq).
  assert (transacts p (tables s) q d') as [->  He|Hcm Hch].
  { destruct p as [c p|f ads p]; simpl in Htx;
      apply fmap_Some in Htx as ([p' d1] & Hh & [= -> ->]).
    - eapply handler_transacts; [done|apply Hpo|apply Hpo|done].
    - eapply cancel_transacts; [done|apply Hpo|apply Hpo|done]. }
  - destruct (ended_quiet q He) as (Ht & Hm & Hd). split; [|by left].
    eapply inv_move; [done|by apply quiet_ok|done| |by rewrite Hm|done|by rewrite Hdp].
    rewrite Ht. by intros e ?%elem_of_nil.
  - destruct (inv_commit s g p q d') as [? ?]; try done. split; [done|by right].
Qed.

Lemma row_with_same P d d' : same_effect d d' → row_with P d → row_with P d'.
Proof. intros Hs (e & row & He & Hm & Hst). exists e, row. by rewrite <-(Hs e row Hm). Qed.

Lemma inv_env s d' :
  inv s → step (tables s) d' → effects_ok d' → same_effect (tables s) d' →
  inv {| tables := d'; procs := procs s; dispatches := dispatches s |}.
Proof.
  intros [Ht Hok Hpr Hmay Hone Hnone Hbd Hsent Hfin] Hst Hok' Hs.
  destruct (step_ok _ _ Ht Hst) as [Ht' Hlt].
  pose proof (λ f, superseded_later f _ _ Hlt) as Hsup. split; simpl; try done.
  - intros g p Hp. destruct (Hpr g p Hp) as [Ho Hse Hn Hr Hk]. split; try done.
    + destruct p; [|done]. intros e He. destruct (Hr e He) as (x & Hx & Hm). exists x.
      by rewrite <-(Hs e x Hm).
    + intros Hne. by apply Hsup, Hk.
  - intros g p Hp Hm. destruct (Hmay g p Hp Hm) as [Hr|Ho]; [left|right; by apply Hsup].
    by eapply row_with_same.
  - intros Hor. by eapply row_with_same, Hsent.
  - intros g p e row Hp He Hm Hf Hin. apply Hsup, (Hfin g p e row); try done. by apply (Hs e row Hm).
Qed.

Lemma inv_begin s g q :
  inv s → (∀ p, procs s !! g = Some p → ended p = true) → initial q = true → of_effect g q →
  inv {| tables := tables s; procs := <[g := q]> (procs s); dispatches := dispatches s |}.
Proof.
  intros Hi Hfree Hq Ho. pose proof Hi as [Ht Hok Hpr Hmay Hone Hnone Hbd Hsent Hfin].
  destruct (initial_quiet q Hq) as (Hqt & Hqm & Hqd & Hqs). split; simpl; try done.
  - intros g' p' [[<- <-]|[_ Hg]]%lookup_insert_Some; [by apply quiet_ok|by apply Hpr].
  - intros g' p' [[<- <-]|[_ Hg]]%lookup_insert_Some Hmd; [congruence|eauto].
  - intros g1 p1 g2 p2 [[<- <-]|[_ H1']]%lookup_insert_Some [[<- <-]|[_ H2']]%lookup_insert_Some;
      [done|congruence|congruence|by apply Hone].
  - intros g' p' [[<- <-]|[_ Hg]]%lookup_insert_Some Hd; [congruence|eauto].
  - intros Hor. apply Hsent. destruct Hor as [?|(g' & p' & Hg & Hd)]; [by left|].
    apply lookup_insert_Some in Hg as [[<- <-]|[_ Hg]]; [congruence|]. right. eauto.
  - intros g' p' e row [[<- <-]|[_ Hg]]%lookup_insert_Some He Hm Hf Hin; [|eauto].
    rewrite Hqt in Hin. by apply elem_of_nil in Hin.
Qed.

Lemma inv_kill s g :
  inv s → inv {| tables := tables s; procs := delete g (procs s); dispatches := dispatches s |}.
Proof.
  intros [Ht Hok Hpr Hmay Hone Hnone Hbd Hsent Hfin].
  split; simpl; try done; try (intros g' p' [_ Hg]%lookup_delete_Some; by eauto).
  - intros g1 p1 g2 p2 [_ H1']%lookup_delete_Some [_ H2']%lookup_delete_Some. by apply Hone.
  - intros [?|(g' & p' & [_ Hg]%lookup_delete_Some & Hd)]; apply Hsent; [by left|right; eauto].
  - intros g' p' e row [_ Hg]%lookup_delete_Some. by eauto.
Qed.

Lemma inv_step s s' : inv s → sys_step s s' → inv s'.
Proof.
  intros Hi. destruct 1 as [s d' Hst Hok Hs|s g p Hfree Hp Ho|s g|s g p t q d' Hp Htx
    |s g p o q Hp Had].
  - by apply inv_env.
  - by apply inv_begin.
  - by apply inv_kill.
  - by eapply inv_tx.
  - destruct (proc_adapter_shape _ _ _ _ _ (iv_proc _ Hi _ _ Hp) Had) as (Hpo & Ht & Hm & Hd).
    by eapply inv_move.
Qed.

Lemma inv_steps s s' : inv s → rtc sys_step s s' → inv s'.
Proof. intros Hi. induction 1 as [|s s1 s' Hs _ IH]; [done|]. by apply IH, (inv_step s). Qed.

(** A final row is kept. *)
Lemma final_step s s' e row :
  inv s → sys_step s s' → effects (tables s) !! e = Some row → mine row = true →
  final row = true → effects (tables s') !! e = Some row.
Proof.
  intros Hi. destruct 1 as [s d' Hst Hok Hs| | |s g p t q d' Hp Htx|]; intros He Hm Hf; simpl; try done.
  - by apply (Hs e row Hm).
  - destruct (inv_tx _ _ _ _ _ _ Hi Hp Htx) as [_ [->|Ha]]; [done|]. by eapply ad_kept.
Qed.

Lemma final_steps s s' e row :
  inv s → rtc sys_step s s' → effects (tables s) !! e = Some row → mine row = true →
  final row = true → effects (tables s') !! e = Some row.
Proof.
  intros Hi Hs He Hm Hf. induction Hs as [|s s1 s' Hs _ IH]; [done|].
  apply IH; [by eapply inv_step|by eapply final_step].
Qed.

(** ** The abstract ledger

A counter of dispatches that stops at one, and a verdict that is written once. *)

Definition verdict (d : db) : option (EffectStatus.t * option jobj) :=
  e ← find_effect run_id key d;
  if final e then Some (EffectModel.status e, EffectModel.result_json e) else None.

Definition abstraction (s : sys) : nat * option (EffectStatus.t * option jobj) :=
  (dispatches s, verdict (tables s)).

Inductive spec_step {V} : nat * option V → nat * option V → Prop :=
  | spec_send v : spec_step (0%nat, v) (1%nat, v)
  | spec_decide n x : spec_step (n, None) (n, Some x).

Lemma verdict_Some d x :
  effects_ok d →
  verdict d = Some x ↔ ∃ e row, effects d !! e = Some row ∧ mine row = true ∧ final row = true
                                ∧ x = (EffectModel.status row, EffectModel.result_json row).
Proof.
  intros Hok. unfold verdict. destruct (find_effect run_id key d) as [e|] eqn:Hf; simpl.
  - apply find_effect_Some in Hf as [He Hm]; [|done]. split.
    + destruct (final e) eqn:Hfe; [|done]. intros [= <-]. by exists (EffectModel.id e), e.
    + intros (i & row & Hi & Hmi & Hfi & ->).
      assert (i = EffectModel.id e) as -> by by eapply mine_unique.
      assert (row = e) as -> by congruence. by rewrite Hfi.
  - split; [done|]. intros (i & row & Hi & Hmi & _).
    by rewrite (find_effect_None d i row Hok Hf Hi) in Hmi.
Qed.

Lemma verdict_kept s s' x :
  inv s → sys_step s s' → verdict (tables s) = Some x → verdict (tables s') = Some x.
Proof.
  intros Hi Hs. pose proof (iv_effects _ Hi). pose proof (iv_effects _ (inv_step _ _ Hi Hs)).
  rewrite !verdict_Some by done. intros (e & row & He & Hm & Hf & ->). exists e, row.
  split; [by eapply final_step|done].
Qed.

Lemma step_refines s s' : inv s → sys_step s s' → rtc spec_step (abstraction s) (abstraction s').
Proof.
  intros Hi Hs. pose proof (λ x, verdict_kept s s' x Hi Hs) as Hkept.
  unfold abstraction.
  assert (dispatches s' = dispatches s ∨ dispatches s = 0%nat ∧ dispatches s' = 1%nat
          ∧ tables s' = tables s) as [->|(-> & -> & ->)].
  { destruct Hs as [| | | |s g p o q Hp Had]; simpl; try by left.
    destruct (dispatching p) eqn:Hd; [|by left]. right.
    by rewrite (iv_none _ Hi _ _ Hp Hd). }
  - destruct (verdict (tables s)) as [x|] eqn:Hv.
    + by rewrite (Hkept x eq_refl).
    + destruct (verdict (tables s')) as [x|]; [|done]. apply rtc_once, spec_decide.
  - apply rtc_once, spec_send.
Qed.

(** ** Theorems *)

(** C21. At most one dispatch: for an effect of a non-idempotent adapter, over every
interleaving of handler and cancel_pending calls of any lease generations, with
crashes and repetitions at every await and arbitrary answers of the adapter,
adapter.dispatch is called at most once. *)
Theorem dispatch_at_most_once s0 s :
  start_state s0 → rtc sys_step s0 s → (dispatches s ≤ 1)%nat.
Proof. intros H0' Hs. by eapply iv_bound, inv_steps, Hs; apply inv_start. Qed.

(** C23. The effect ledger refines its abstract specification: a counter of
dispatches that stops at one, together with a verdict (succeeded with a result, or
cancelled) that is written at most once; every reachable state of the concurrent
system is related to a run of that abstract machine. *)
Theorem ledger_refines s0 s :
  start_state s0 → rtc sys_step s0 s → rtc spec_step (0%nat, None) (abstraction s).
Proof.
  intros Hst Hs. assert (abstraction s0 = (0%nat, None)) as <-.
  { unfold abstraction. rewrite (ss_dispatches _ Hst). f_equal.
    destruct (verdict (tables s0)) as [x|] eqn:Hv; [|done].
    apply verdict_Some in Hv as (e & row & He & Hm & _); [|apply Hst].
    by rewrite (ss_none _ Hst e row He) in Hm. }
  assert (inv s0) as Hi by by apply inv_start. clear Hst.
  induction Hs as [|s s1 s' Hs _ IH]; [done|].
  etrans; [by apply step_refines|]. by apply IH, (inv_step s).
Qed.

(** What a transaction of [handler] returns is in the table. *)
Lemma returned_recorded s g p t c r d' :
  inv s → procs s !! g = Some p → proc_tx t p (tables s) = Some (Handling c (PDone (Returned r)), d') →
  ∃ e row, effects d' !! e = Some row ∧ mine row = true
    ∧ EffectModel.status row = EffectStatus.SUCCEEDED ∧ EffectModel.result_json row = r.
Proof.
  intros Hi Hp Htx. pose proof Hi as [_ Hok Hpr _ _ _ _ _ _].
  destruct (Hpr _ _ Hp) as [(Hrun & _ & Hrest) Hset _ Hrows _].
  destruct p as [c' p|]; simpl in Htx; apply fmap_Some in Htx as ([p' d1] & Hh & Heq); [|done].
  injection Heq as <- <- <-. destruct Hrest as [Hkey _]. simpl in Hrun.
  destruct p as [| | e config | | e | | | e status result next | |]; simpl in Hh; try done.
  - destruct (fenced _ _ _ _ _) as [[pr d1]|] eqn:Hf; [|done].
    destruct (fenced_body _ _ _ _ _ _ Hf) as [run Hb].
    apply prepare_body_ok in Hb as [_ Hpp]. unfold prepares in Hpp. rewrite Hrun, Hkey in Hpp.
    destruct pr as [x|]; [|done]. injection Hh as <- <-.
    destruct (find_effect run_id key (tables s)) as [row|] eqn:Hfind.
    + destruct Hpp as (_ & Hst & -> & ->). apply find_effect_Some in Hfind as [Hrow Hm]; [|done].
      by exists (EffectModel.id row), row.
    + by destruct Hpp as (_ & row & ? & _).
  - by destruct (_record _ _ _ _ _ _ _) as [[[] ?]|].
  - by destruct (fenced _ _ _ _ _) as [[[] ?]|].
  - destruct (_record _ _ _ _ _ _ _) as [[b d1]|] eqn:Hr; [|done]. unfold _record in Hr.
    destruct (fenced_body _ _ _ _ _ _ Hr) as [run Hb].
    apply record_body_ok in Hb as (_ & _ & _ & row & row' & Hrow & He & Hs & Hst & Hres).
    destruct b; [done|]. injection Hh as -> <-. destruct Hset as [_ Hset].
    destruct (Hset r eq_refl) as (-> & -> & x & ->).
    destruct (Hrows e ltac:(by left)) as (row0 & Hrow0 & Hm).
    assert (row0 = row) as -> by congruence. rewrite (eo_id _ Hok _ _ Hrow) in He.
    exists e, row'. rewrite He, lookup_insert_eq, (mine_same_key _ _ Hs). done.
Qed.

(** C22. Results are durable and replayed: once a handler call has returned a
result, the effect's row holds it as succeeded in every later state, and every later
call for that effect either returns exactly that result or raises, without changing
any table. *)
Theorem returned_durable s0 s s' s'' g p t c r d' :
  start_state s0 → rtc sys_step s0 s → procs s !! g = Some p →
  proc_tx t p (tables s) = Some (Handling c (PDone (Returned r)), d') →
  s' = {| tables := d'; procs := <[g := Handling c (PDone (Returned r))]> (procs s);
          dispatches := dispatches s |} →
  rtc sys_step s' s'' →
  verdict (tables s'') = Some (EffectStatus.SUCCEEDED, r)
  ∧ ∀ g' c' t' q d'', of_effect g' (Handling c' PPrepare) →
      handler_tx c' t' PPrepare (tables s'') = Some (q, d'') →
      d'' = tables s'' ∧ (q = PDone (Returned r) ∨ ∃ x, q = PDone (Raised x)).
Proof.
  intros Hst Hs Hp Htx -> Hs'. assert (inv s) as Hi by (eapply inv_steps; [by apply inv_start|done]).
  destruct (returned_recorded _ _ _ _ _ _ _ Hi Hp Htx) as (e & row & He & Hm & Hst' & Hr).
  destruct (inv_tx _ _ _ _ _ _ Hi Hp Htx) as [Hi' _].
  assert (final row = true) as Hf by (unfold final; by rewrite Hst').
  pose proof (final_steps _ _ e row Hi' Hs' He Hm Hf) as He'.
  pose proof (inv_steps _ _ Hi' Hs') as [_ Hok _ _ _ _ _ _ _].
  assert (find_effect run_id key (tables s'') = Some row) as Hfind.
  { destruct (find_effect run_id key (tables s'')) as [row'|] eqn:Hf'.
    - apply find_effect_Some in Hf' as [Hrow' Hm']; [|done].
      assert (e = EffectModel.id row') as -> by by eapply mine_unique. congruence.
    - by rewrite (find_effect_None _ _ _ Hok Hf' He') in Hm. }
  split.
  { apply verdict_Some; [done|]. exists e, row. split_and!; try done. by rewrite Hst', Hr. }
  intros g' c' t' q d'' (Hrun & _ & Hkey & _) Hh. simpl in Hh, Hrun.
  destruct (fenced _ _ _ _ _) as [[pr d1]|x] eqn:Hfen;
    [|injection Hh as <- <-; split; [done|right; by exists x]].
  destruct (fenced_body _ _ _ _ _ _ Hfen) as [run Hb].
  apply prepare_body_ok in Hb as [_ Hpp]. unfold prepares in Hpp. rewrite Hrun, Hkey, Hfind in Hpp.
  destruct Hpp as [_ Hpp]. destruct pr as [y|].
  - destruct Hpp as (_ & -> & ->). injection Hh as <- <-. split; [done|]. left. by rewrite Hr.
  - destruct Hpp as (_ & _ & Hns & _). rewrite Hst' in Hns. exfalso. apply Hns. by left.
Qed.
End system.

(** ** Cancelled runs *)

Section cancelled.
Context `{PyRuntime} `{PyStr} `{Redactor} `{UuidFormat}
  `{ModelDump WorkflowNode.t} `{ModelDump RoutePreviewRequest.t} `{ModelDump RegistryRecord.t}
  `{ModelDump RouteEvaluationData.t}.

(** No effect becomes dispatched or successful. *)
Definition no_progress (m m' : gmap uuid EffectModel.t) : Prop :=
  ∀ e row', m' !! e = Some row' →
    EffectModel.status row' ∈ [EffectStatus.SUCCEEDED; EffectStatus.DISPATCHED] →
    ∃ row, m !! e = Some row ∧ EffectModel.status row = EffectModel.status row'.

Lemma no_progress_refl m : no_progress m m.
Proof. intros e row He _. by exists row. Qed.
#[local] Hint Resolve no_progress_refl : core.

Lemma no_progress_insert m e row' :
  (EffectModel.status row' ∈ [EffectStatus.SUCCEEDED; EffectStatus.DISPATCHED] →
   ∃ row, m !! e = Some row ∧ EffectModel.status row = EffectModel.status row') →
  no_progress m (<[e := row']> m).
Proof.
  intros Hrow i x [[<- <-]|[_ Hx]]%lookup_insert_Some Hst; [by apply Hrow|]. by exists x.
Qed.

Lemma cancelled_record f e status identity result t d c d' run :
  effects_ok d → runs d !! RunFence.run_id f = Some run →
  RunModel.desired_state run = DesiredRunState.CANCELLED →
  _record f e status identity result t d = Ok (c, d') →
  no_progress (effects d) (effects d') ∧ (status = EffectStatus.DISPATCHED → c = true).
Proof.
  intros Hok Hrun Hcan Hr. unfold _record in Hr. apply (fenced_run _ _ _ _ _ _ run) in Hr; [|done].
  apply record_body_ok in Hr as (_ & _ & -> & row & row' & Hrow & -> & _ & Hst & _).
  unfold dominated in *. rewrite Hcan in *. rewrite (bool_decide_true (_ = _)) in * by done.
  rewrite andb_true_r in *. split; [|by intros ->].
  apply no_progress_insert. intros Hin. exfalso. revert Hin. rewrite Hst.
  destruct (bool_decide_reflect (status ∈ [EffectStatus.SUCCEEDED; EffectStatus.DISPATCHED]));
    [|done]. intros Hin. apply (bool_decide_pack _) in Hin. by vm_compute in Hin.
Qed.

Lemma prepare_no_progress f context state t run d r d' :
  effects_ok d → prepare_body f context state t run d = Ok (r, d') →
  no_progress (effects d) (effects d').
Proof.
  intros Hok Hb. apply prepare_body_ok in Hb as [_ Hp]. unfold prepares in Hp.
  destruct (find_effect _ _ d) as [row|] eqn:Hfind.
  - destruct Hp as [_ Hp]. destruct r.
    + by destruct Hp as (_ & _ & ->).
    + destruct Hp as (_ & _ & _ & _ & ->). apply no_progress_insert. simpl. intros _.
      exists row. split; [|done]. eapply find_effect_Some; [done|exact Hfind].
  - destruct Hp as (_ & row & _ & -> & _ & _ & _ & _ & Hst & _).
    apply no_progress_insert. rewrite Hst. intros Hin.
    apply (bool_decide_pack _) in Hin. by vm_compute in Hin.
Qed.

Lemma poll_no_progress e run d c d' :
  poll_body e run d = Ok (c, d') → no_progress (effects d) (effects d').
Proof.
  intros (_ & _ & _ & row & Hrow & [->|[_ ->]])%poll_body_ok; [done|].
  apply no_progress_insert. simpl. intros Hin. apply (bool_decide_pack _) in Hin.
  by vm_compute in Hin.
Qed.

Lemma handler_no_progress c t p d q d' run :
  effects_ok d → runs d !! RunFence.run_id (c_fence c) = Some run →
  RunModel.desired_state run = DesiredRunState.CANCELLED → handler_tx c t p d = Some (q, d') →
  dispatching (Handling c q) = false ∧ no_progress (effects d) (effects d').
Proof.
  intros Hok Hrun Hcan Hh.
  assert (∀ e status identity result next b d2,
    _record (c_fence c) e status identity result t d = Ok (b, d2) →
    (status = EffectStatus.DISPATCHED ∨ dispatching (Handling c next) = false) →
    q = (if b then PDone (Raised cooperative_cancel) else next) → d' = d2 →
    dispatching (Handling c q) = false ∧ no_progress (effects d) (effects d')) as Hrec.
  { intros e status identity result next b d2 Hr Hor -> ->.
    apply (cancelled_record _ _ _ _ _ _ _ _ _ run) in Hr as [Hnp Hb]; [|done..].
    split; [|done]. destruct Hor as [Hs|Hd]; [by rewrite (Hb Hs)|by destruct b]. }
  destruct p as [| | e config | | e | | | e status result next | |]; simpl in Hh; try done.
  - destruct (fenced _ _ _ _ _) as [[r d2]|x] eqn:Hf; [|injection Hh as <- <-; by split].
    apply (fenced_run _ _ _ _ _ _ run), prepare_no_progress in Hf; [|done..].
    destruct r; by injection Hh as <- <-.
  - destruct (_record _ _ _ _ _ _ _) as [[b d2]|x] eqn:Hr; [|injection Hh as <- <-; by split].
    eapply (Hrec _ _ _ _ (PDispatch e config)); [exact Hr|by left|..];
      destruct b; by injection Hh as <- <-.
  - destruct (fenced _ _ _ _ _) as [[b d2]|x] eqn:Hf; [|injection Hh as <- <-; by split].
    apply (fenced_run _ _ _ _ _ _ run), poll_no_progress in Hf; [|done].
    destruct b; by injection Hh as <- <-.
  - destruct (_record _ _ _ _ _ _ _) as [[b d2]|x] eqn:Hr; [|injection Hh as <- <-; by split].
    eapply (Hrec _ _ _ _ (PDone next)); [exact Hr|by right|..];
      destruct b; by injection Hh as <- <-.
Qed.

Lemma cancel_no_progress f ads t p d q d' run :
  effects_ok d → runs d !! RunFence.run_id f = Some run →
  RunModel.desired_state run = DesiredRunState.CANCELLED → cancel_tx f ads t p d = Some (q, d') →
  no_progress (effects d) (effects d').
Proof.
  intros Hok Hrun Hcan Hh.
  assert (∀ e status next,
    Some match _record f (EffectModel.id e) status None None t d with
         | Ok (true, d') => (CDone (Raised cooperative_cancel), d')
         | Ok (false, d') => (next, d')
         | Err x => (CDone (Raised x), d)
         end = Some (q, d') → no_progress (effects d) (effects d')) as Hrec.
  { intros e status next. destruct (_record _ _ _ _ _ _ _) as [[b d2]|x] eqn:Hr.
    - apply (cancelled_record _ _ _ _ _ _ _ _ _ run) in Hr as [Hnp _]; [|done..].
      destruct b; by intros [= <- <-].
    - by intros [= <- <-]. }
  destruct p; simpl in Hh; try done; try by eapply Hrec.
  destruct (fenced _ _ _ _ _) as [[es d2]|x] eqn:Hf; [|by injection Hh as <- <-].
  apply (fenced_run _ _ _ _ _ _ run) in Hf; [|done]. injection Hf as <- <-.
  by injection Hh as <- <-.
Qed.

(** Cancellation dominates effects: while a run is to be cancelled, no
transaction of its handlers or of cancel_pending turns an effect into dispatched or
succeeded, and none lets a call reach adapter.dispatch. *)
Theorem cancelled_run_effects t p d q d' run :
  effects_ok d → runs d !! RunFence.run_id (fence_of p) = Some run →
  RunModel.desired_state run = DesiredRunState.CANCELLED →
  proc_tx t p d = Some (q, d') →
  dispatching q = false ∧ no_progress (effects d) (effects d').
Proof.
  intros Hok Hrun Hcan Htx. destruct p as [c p|f ads p]; simpl in Htx, Hrun;
    apply fmap_Some in Htx as ([p' d1] & Hh & [= -> ->]).
  - by eapply handler_no_progress.
  - split; [done|]. by eapply cancel_no_progress.
Qed.

(** ** Instructions *)

(** Runtime instructions are delivered to one effect: preparing a new effect
moves the run's queued instructions into the effect's request and into the adapter's
configuration and empties the queue, while preparing an existing effect replays the
stored configuration and leaves every run alone. *)
Theorem instructions_once c t d e dispatched config d' :
  handler_tx c t PPrepare d = Some (PInspect e dispatched config, d') →
  ∃ run, runs d !! RunFence.run_id (c_fence c) = Some run ∧
  match find_effect (RunFence.run_id (c_fence c)) (NodeContext.execution_id (c_context c)) d with
  | Some row =>
      e = EffectModel.id row ∧ config = dispatch_config (EffectModel.request_json row)
      ∧ runs d' = runs d
  | None =>
      dispatched = false
      ∧ ∃ l row, instructions_for (c_context c) run = Ok l
        ∧ effects d' !! e = Some row ∧ config = dispatch_config (EffectModel.request_json row)
        ∧ DispatchConfig.runtime_instructions config = JArr l
        ∧ (l = [] → runs d' = runs d)
        ∧ (l ≠ [] → ∃ run', runs d' = <[RunModel.id run := run']> (runs d)
                            ∧ instructions_of run' = Ok [])
  end.
Proof.
  simpl. destruct (fenced _ _ _ _ _) as [[r d1]|x] eqn:Hf; [|done]. intros Hh.
  apply fenced_ok in Hf as (run & _ & Hrun & _ & _ & _ & _ & Hb). exists run. split; [done|].
  apply prepare_body_ok in Hb as [_ Hp]. unfold prepares in Hp.
  destruct (find_effect _ _ d) as [row|].
  - destruct r; [done|]. injection Hh as <- <- <- <-. by destruct Hp as (_ & -> & -> & _ & _ & ->).
  - destruct Hp as (_ & row & -> & He & _ & _ & _ & _ & _ & l & Hl & Hi & Hnil & Hcons).
    injection Hh as <- <- <- <-. split; [done|]. exists l, row. rewrite He, lookup_insert_eq.
    split_and!; try done. unfold dispatch_config. simpl. by rewrite Hi.
Qed.
End cancelled.
