(* ===== verification/Approvals.v ===== *)
(** * Approvals

[orchestrator/app/jarvis_orchestrator/runtime/approvals.py] and
[api/app/jarvis_api/approvals.py], with [IdempotencyRepository] of
[packages/persistence/src/jarvis_persistence/repositories.py]: an approval node requests
a decision and interrupts its run; the owner decides through the API; the run resumes, and
a protected effect is dispatched only with an approval that still fits what it would do.

The approvals of a run live in its [runtime_json]; the append-only log of events is the
authority they are compared with.  What the event writer stores of a payload is the
interface [StoredData].  Pydantic's serializer and parser of [ApprovalView] are the
interface [ApprovalModel] with its laws.

[protected_authorized] is the main theorem: before any protected dispatch the owner of the
run's project has approved it.  [decision_final] and
[decide_idempotent] say how a decision is made, and [expiry_isolated] what one tick of expiry does with every run:
[approvals_of] reads the approvals of a run as Python's [dict] does, and a run on which that
fails stops the tick. *)
From S2P Require Import Prelude Enums PyJson Failures Verification Registry WorkflowSpec Normalize.
From S2P Require Import RawValidation State NodeFactory Validate Database Ownership Effects Accounting ModelCalls.
From stdpp Require Import gmap.
Local Open Scope Z_scope.
Local Open Scope stdpp_scope.

(** ** Contracts ([packages/contracts/src/jarvis_contracts/approvals.py]) *)

Module ApprovalDecision.
Inductive t : Set := pending | approved | rejected | expired | cancelled.
#[global] Instance eq_dec : EqDecision t.
Proof. solve_decision. Defined.
Definition value (d : t) : string :=
  match d with
  | pending => "pending"
  | approved => "approved"
  | rejected => "rejected"
  | expired => "expired"
  | cancelled => "cancelled"
  end.
End ApprovalDecision.

Module ApprovalView.
Record t := {
  id : uuid;
  run_id : uuid;
  node_id : string;
  action_type : string;
  request_digest : string;
  parameters : jobj;
  created_at : Z;
  expires_at : option Z;
  decision : ApprovalDecision.t;
  actor_id : option uuid;
  decided_at : option Z;
}.
Definition valid (a : t) : bool := hex_pattern 64 (request_digest a).

(** [model_copy(update=...)] *)
Definition decided (d : ApprovalDecision.t) (actor : option uuid) (now : Z) (a : t) : t :=
  Build_t (id a) (run_id a) (node_id a) (action_type a) (request_digest a) (parameters a)
    (created_at a) (expires_at a) d actor (Some now).
(** [expires_at is not None and expires_at <= now] *)
Definition overdue (now : Z) (a : t) : bool :=
  match expires_at a with Some e => Z.leb e now | None => false end.
End ApprovalView.

(** A decision request: [decision] is one of two literals. *)
Module ApprovalDecisionRequest.
Record t := {
  idempotency_key : string;
  expected_run_version : Z;
  request_digest : string;
  approve : bool;
}.
Definition decision (r : t) : ApprovalDecision.t :=
  if approve r then ApprovalDecision.approved else ApprovalDecision.rejected.
End ApprovalDecisionRequest.

Module Principal.
Record t := { user_id : uuid; session_id : uuid }.
End Principal.

Class ApprovalModel := {
  approval_dump : ApprovalView.t → json;
  approval_validate : json → option ApprovalView.t;
}.
Class ApprovalModelLaws `{ApprovalModel} : Prop := {
  validate_dump : ∀ a, ApprovalView.valid a = true → approval_validate (approval_dump a) = Some a;
  validate_valid : ∀ j a, approval_validate j = Some a → ApprovalView.valid a = true;
}.
(** [datetime.isoformat] *)
Class IsoText := isoformat : Z → string.
(** The [data_json] of the row that the writer stores for an event. *)
Class StoredData := stored_data : Event.t → jobj.

(** ** Tables *)

Module IntegrationHeadModel.
Record t := {
  repository_id : uuid;
  head_sha : string;
  branch : string;
  snapshot_artifact_id : uuid;
}.
End IntegrationHeadModel.

(** The unique key is ([scope], [key]); [response_status] is written with the response. *)
Module IdempotencyRecordModel.
Record t := {
  scope : string;
  key : string;
  request_digest : string;
  state : string;
  response_json : option json;
}.
End IdempotencyRecordModel.

(** The control plane with the tables of the API.  [owners] maps a job to the owner of its
project and [heads] a run to its integration heads. *)
Record api_db := {
  core : db;
  records : list IdempotencyRecordModel.t;
  owners : gmap uuid uuid;
  heads : uuid → list IntegrationHeadModel.t;
}.
Definition set_core (c : db) (d : api_db) : api_db :=
  Build_api_db c (records d) (owners d) (heads d).
Definition set_records (l : list IdempotencyRecordModel.t) (d : api_db) : api_db :=
  Build_api_db (core d) l (owners d) (heads d).

(** ** [IdempotencyRepository.begin] *)

Inductive begun := Fresh (records : list IdempotencyRecordModel.t) | Replay (r : IdempotencyRecordModel.t)
  | IdempotencyConflict.

Definition record_is (scope key : string) (r : IdempotencyRecordModel.t) : bool :=
  String.eqb (IdempotencyRecordModel.scope r) scope && String.eqb (IdempotencyRecordModel.key r) key.

Definition begin_record (scope key digest : string) (l : list IdempotencyRecordModel.t) : begun :=
  match find (record_is scope key) l with
  | None => Fresh (l ++ [IdempotencyRecordModel.Build_t scope key digest "started" None])
  | Some r => if String.eqb (IdempotencyRecordModel.request_digest r) digest then Replay r
              else IdempotencyConflict
  end.

(** The assignments to the record of this transaction. *)
Definition complete_record (scope key : string) (response : json)
    (l : list IdempotencyRecordModel.t) : list IdempotencyRecordModel.t :=
  (λ r, if record_is scope key r
        then IdempotencyRecordModel.Build_t scope key (IdempotencyRecordModel.request_digest r)
               "completed" (Some response)
        else r) <$> l.

(** PostgreSQL's text of a JSON value that is not a string. *)
Class JsonbText := jsonb_text : json → string.
(** [data_json[key].astext] *)
Definition astext `{JsonbText} (key : string) (data : jobj) : option string :=
  match dict_get key data with
  | Some (JStr s) => Some s
  | Some JNull | None => None
  | Some j => Some (jsonb_text j)
  end.

Definition json_opt {A} (f : A → string) (o : option A) : json :=
  match o with Some x => JStr (f x) | None => JNull end.

Section approvals.
Context `{PyRuntime} `{PyStr} `{Uuid5} `{ApprovalModel} `{IsoText} `{StoredData} `{JsonbText}.

(** ** [validate_request_event] *)

Definition event_is (run : uuid) (name : string) (e : Event.t) : bool :=
  bool_decide (Event.run_id e = Some run) && String.eqb (Event.name e) name.

(** The row the query returns: the first one of the log. *)
Definition request_event (a : ApprovalView.t) (d : db) : option Event.t :=
  find (λ e, event_is (ApprovalView.run_id a) "approval.requested" e
             && bool_decide (astext "approval_id" (stored_data e)
                             = Some (uuid_str (ApprovalView.id a)))) (events d).

(** [data.get(key) == value] *)
Definition field_is (key : string) (value : json) (data : jobj) : bool :=
  py_eq (default JNull (dict_get key data)) value.

Definition request_matches (a : ApprovalView.t) (data : jobj) : bool :=
  field_is "request_digest" (JStr (ApprovalView.request_digest a)) data
  && String.eqb (sha256_digest (JObj (ApprovalView.parameters a))) (ApprovalView.request_digest a)
  && field_is "parameters" (JObj (ApprovalView.parameters a)) data
  && field_is "workflow_node_id" (JStr (ApprovalView.node_id a)) data
  && field_is "action_type" (JStr (ApprovalView.action_type a)) data
  && field_is "created_at" (JStr (isoformat (ApprovalView.created_at a))) data
  && field_is "expires_at" (json_opt isoformat (ApprovalView.expires_at a)) data.

Definition validate_request_event (a : ApprovalView.t) (d : db) : bool :=
  match request_event a d with
  | Some e => request_matches a (stored_data e)
  | None => false
  end.

(** ** [parameters] *)

Definition head_entry (h : IntegrationHeadModel.t) : json :=
  JObj [("repository_id", JStr (uuid_str (IntegrationHeadModel.repository_id h)));
        ("head_sha", JStr (IntegrationHeadModel.head_sha h));
        ("branch", JStr (IntegrationHeadModel.branch h));
        ("snapshot_artifact_id", JStr (uuid_str (IntegrationHeadModel.snapshot_artifact_id h)))].

Definition parameters (heads : list IntegrationHeadModel.t) (run : RunModel.t)
    (action target : string) (state : WorkflowStateV1.t) (target_configuration : jobj) : jobj :=
  [("run_id", JStr (uuid_str (RunModel.id run)));
   ("workflow_version_id", JStr (uuid_str (RunModel.workflow_version_id run)));
   ("config_snapshot_id", JStr (uuid_str (RunModel.config_snapshot_id run)));
   ("action_type", JStr action);
   ("target_node_id", JStr target);
   ("target_configuration", JObj target_configuration);
   ("current_task",
      default JNull (dict_get "current_task" (default [] (WorkflowStateV1.tasks state))));
   ("verification", JObj (default [] (WorkflowStateV1.verification state)));
   ("review", JObj (default [] (WorkflowStateV1.review state)));
   ("integration_heads",
      JArr (head_entry <$> sorted_key IntegrationHeadModel.repository_id heads))].

(** ** The approvals of a run *)

(** The characters of a string, which is stored as UTF-8. *)
Fixpoint py_chars (s : string) : list string :=
  match s with
  | EmptyString => []
  | String c s' =>
      let continued := match s' with String c' _ => utf8_continuation c' | _ => false end in
      match py_chars s' with
      | g :: gs => if continued then String c g :: gs else String c EmptyString :: g :: gs
      | [] => [String c EmptyString]
      end
  end.

(** [iter(j)]: the items of an array, the characters of a string, the keys of an object. *)
Definition py_items (j : json) : option (list json) :=
  match j with
  | JArr l => Some l
  | JStr s => Some (JStr <$> py_chars s)
  | JObj o => Some (JStr <$> o.*1)
  | _ => None
  end.

Definition hashable (j : json) : bool := match j with JArr _ | JObj _ => false | _ => true end.

(** [entries[key] = value] for a key that need not be a string. *)
Fixpoint pairs_set (key value : json) (pairs : list (json * json)) : list (json * json) :=
  match pairs with
  | [] => [(key, value)]
  | (k, v) :: pairs' =>
      if py_eq k key then (k, value) :: pairs' else (k, v) :: pairs_set key value pairs'
  end.

(** One item of the sequence that [dict] is given. *)
Definition add_pair (pairs : list (json * json)) (item : json)
    : res own_error (list (json * json)) :=
  match py_items item with
  | None => Err (python_error "TypeError")
  | Some [key; value] =>
      if hashable key then Ok (pairs_set key value pairs) else Err (python_error "TypeError")
  | Some _ => Err value_error
  end.

(** The JSON text of a key, under which the dictionary is written back. *)
Definition key_text (key : json) : string :=
  match key with JStr s => s | _ => canonical_json key end.

(** [dict(j)].  A key that is not a string is kept as the text it is stored with. *)
Definition py_dict (j : json) : res own_error jobj :=
  match j with
  | JObj o => Ok o
  | _ =>
      match py_items j with
      | None => Err (python_error "TypeError")
      | Some items =>
          pairs ← foldM add_pair [] items;
          Ok (foldl (λ o kv, dict_set (key_text kv.1) kv.2 o) [] pairs)
      end
  end.

(** [dict(run.runtime_json.get("approvals", {}))] *)
Definition approvals_of (run : RunModel.t) : res own_error jobj :=
  py_dict (default (JObj []) (dict_get "approvals" (RunModel.runtime_json run))).

Definition view_of (stored : option json) : res own_error ApprovalView.t :=
  match stored with
  | None => Err (python_error "KeyError")
  | Some j => match approval_validate j with Some a => Ok a | None => Err validation_error end
  end.

(** [{**run.runtime_json, ...}] *)
Definition update_runtime (u : jobj) (run : RunModel.t) : RunModel.t :=
  RunModel.with_runtime (dict_update (RunModel.runtime_json run) u) run.

Definition wait_for (key : string) : json := JObj [("kind", JStr "approval"); ("id", JStr key)].

(** ** [approval_handler] *)

(** The node that the approval authorizes. *)
Definition approval_target (spec : WorkflowSpec.t WorkflowNode.t) (context : NodeContext.t)
    : res own_error WorkflowNode.t :=
  match List.filter (λ n, match NodePolicy.approval (effective_policy spec n) with
                          | Some p => bool_decide (ApprovalPolicy.required_grant_from p
                                        = Some (node_id (NodeContext.node context)))
                          | None => false
                          end) (WorkflowSpec.nodes spec) with
  | [target] => Ok target
  | _ => Err value_error
  end.

Definition approval_id (run : uuid) (context : NodeContext.t) : uuid :=
  uuid5 run ("approval:" +:+ NodeContext.execution_id context).

(** [context.node.config["action_type"]] and [.get("expires_in_seconds")] *)
Definition approval_config (context : NodeContext.t) : res own_error (string * option Z) :=
  match WorkflowNode.config (NodeContext.node context) with
  | NodeConfig.ApprovalConfig action expires => Ok (ActionType.value action, expires)
  | _ => Err (python_error "KeyError")
  end.

Definition microseconds : Z := 1000000.

(** The request a node makes; [created] and [base] are the two readings of the clock. *)
Definition new_approval (run : RunModel.t) (context : NodeContext.t) (action : string)
    (expires : option Z) (current : jobj) (created base : Z) : ApprovalView.t := {|
  ApprovalView.id := approval_id (RunModel.id run) context;
  ApprovalView.run_id := RunModel.id run;
  ApprovalView.node_id := node_id (NodeContext.node context);
  ApprovalView.action_type := action;
  ApprovalView.request_digest := sha256_digest (JObj current);
  ApprovalView.parameters := current;
  ApprovalView.created_at := created;
  ApprovalView.expires_at :=
    match expires with
    | Some e => if Z.eqb e 0 then None else Some (base + e * microseconds)
    | None => None
    end;
  ApprovalView.decision := ApprovalDecision.pending;
  ApprovalView.actor_id := None;
  ApprovalView.decided_at := None;
|}.

Definition requested_payload (a : ApprovalView.t) : jobj :=
  [("approval_id", JStr (uuid_str (ApprovalView.id a)));
   ("workflow_node_id", JStr (ApprovalView.node_id a));
   ("request_digest", JStr (ApprovalView.request_digest a));
   ("action_type", JStr (ApprovalView.action_type a));
   ("parameters", JObj (ApprovalView.parameters a));
   ("created_at", JStr (isoformat (ApprovalView.created_at a)));
   ("expires_at", json_opt isoformat (ApprovalView.expires_at a))].

(** The approvals of the run with the node's own, and the log with its request. *)
Definition ensure_request (run : RunModel.t) (context : NodeContext.t) (current : jobj)
    (created base : Z) (d : db) : res own_error (jobj * db) :=
  let key := uuid_str (approval_id (RunModel.id run) context) in
  approvals ← approvals_of run;
  match dict_get key approvals with
  | Some _ => Ok (approvals, d)
  | None =>
      config ← approval_config context;
      let a := new_approval run context config.1 config.2 current created base in
      if ApprovalView.valid a
      then Ok (dict_set key (approval_dump a) approvals,
               event run "approval.requested" (requested_payload a) d)
      else Err validation_error
  end.

(** The first transaction; it returns the value of the interrupt. *)
Definition request_body (heads : list IntegrationHeadModel.t) (target : WorkflowNode.t)
    (state : WorkflowStateV1.t) (context : NodeContext.t) (target_configuration : jobj)
    (created base : Z) (run : RunModel.t) (d : db) : res own_error (json * db) :=
  let key := uuid_str (approval_id (RunModel.id run) context) in
  _ ← raise_if (negb (String.eqb (RunModel.mode run) "real")) value_error;
  config ← approval_config context;
  let current := parameters heads run config.1 (node_id target) state target_configuration in
  requested ← ensure_request run context current created base d;
  let '(approvals, d) := requested in
  a ← view_of (dict_get key approvals);
  _ ← raise_if (negb (validate_request_event a d)) value_error;
  _ ← raise_if (negb (String.eqb (ApprovalView.request_digest a) (sha256_digest (JObj current))))
        value_error;
  Ok (wait_for key,
      put_run (update_runtime [("approvals", JObj approvals); ("wait", wait_for key)] run) d).

(** The decision on which a run resumes. *)
Definition resumed_decision (run : RunModel.t) (now : Z) (a : ApprovalView.t)
    : ApprovalDecision.t :=
  if bool_decide (RunModel.desired_state run = DesiredRunState.CANCELLED)
  then ApprovalDecision.cancelled
  else if ApprovalView.overdue now a then ApprovalDecision.expired
  else ApprovalView.decision a.

(** The channels the node writes. *)
Definition granted (key : string) (context : NodeContext.t) (a : ApprovalView.t) (action : string)
    (decision : ApprovalDecision.t) : jobj * jobj :=
  ([("id", JStr key); ("decision", JStr (ApprovalDecision.value decision));
    ("action_type", JStr action); ("granted_by", JStr (node_id (NodeContext.node context)));
    ("request_digest", JStr (ApprovalView.request_digest a))],
   [("status", JStr (if bool_decide (decision = ApprovalDecision.approved)
                     then "succeeded" else "cancelled"))]).

(** The transaction after the interrupt. *)
Definition resume_body (context : NodeContext.t) (now : Z) (run : RunModel.t) (d : db)
    : res own_error (jobj * jobj * db) :=
  let key := uuid_str (approval_id (RunModel.id run) context) in
  config ← approval_config context;
  approvals ← match dict_get "approvals" (RunModel.runtime_json run) with
              | Some (JObj o) => Ok o
              | Some _ => Err (python_error "TypeError")
              | None => Err (python_error "KeyError")
              end;
  a ← view_of (dict_get key approvals);
  _ ← raise_if (negb (validate_request_event a d)) value_error;
  let decision := resumed_decision run now a in
  _ ← raise_if (bool_decide (decision = ApprovalDecision.pending)) value_error;
  let run' := update_runtime [("wait", JNull)] run in
  Ok (granted key context a config.1 decision,
      put_run run' (event run' "approval.resumed"
        [("approval_id", JStr key); ("decision", JStr (ApprovalDecision.value decision));
         ("request_digest", JStr (ApprovalView.request_digest a))] d)).
(** [decide] of the handler up to its interrupt, with the value it interrupts with. *)
Definition approval_request (fence : RunFence.t) (before after : Z)
    (spec : WorkflowSpec.t WorkflowNode.t) (state : WorkflowStateV1.t) (context : NodeContext.t)
    (target_configuration : jobj) (created base : Z) (d : api_db) : res own_error (json * api_db) :=
  target ← approval_target spec context;
  r ← fenced fence before after
        (request_body (heads d (RunFence.run_id fence)) target state context target_configuration
           created base) (core d);
  Ok (r.1, set_core r.2 d).

(** [decide] of the handler after the interrupt, which [value] resumes. *)
Definition approval_resume (fence : RunFence.t) (before after now : Z) (value : json)
    (context : NodeContext.t) (d : api_db) : res own_error (jobj * jobj * api_db) :=
  let key := uuid_str (approval_id (RunFence.run_id fence) context) in
  _ ← raise_if (negb (py_eq value (wait_for key))) value_error;
  r ← fenced fence before after (resume_body context now) (core d);
  Ok (r.1, set_core r.2 d).

(** ** [ProtectedEffect] *)

(** [stored is None] *)
Definition not_none (o : option json) : option json :=
  match o with Some JNull => None | _ => o end.

(** [run.runtime_json.get("approvals", {}).get(key)] *)
Definition stored_approval (key : string) (run : RunModel.t) : res own_error (option json) :=
  match default (JObj []) (dict_get "approvals" (RunModel.runtime_json run)) with
  | JObj approvals => Ok (not_none (dict_get key approvals))
  | _ => Err (python_error "AttributeError")
  end.

Definition decision_event (run : RunModel.t) (a : ApprovalView.t) (e : Event.t) : bool :=
  event_is (RunModel.id run) "approval.decided" e
  && bool_decide (astext "approval_id" (stored_data e) = Some (uuid_str (ApprovalView.id a)))
  && bool_decide (astext "decision" (stored_data e) = Some "approved")
  && bool_decide (astext "request_digest" (stored_data e) = Some (ApprovalView.request_digest a)).

Definition stale_grant (run : RunModel.t) (grantor action : string) (current : jobj) (now : Z)
    (a : ApprovalView.t) : bool :=
  bool_decide (RunModel.desired_state run = DesiredRunState.CANCELLED)
  || negb (bool_decide (ApprovalView.decision a = ApprovalDecision.approved))
  || negb (String.eqb (ApprovalView.node_id a) grantor)
  || negb (String.eqb (ApprovalView.action_type a) action)
  || negb (String.eqb (ApprovalView.request_digest a) (sha256_digest (JObj current)))
  || ApprovalView.overdue now a.

(** [str(channel.get("id"))] *)
Definition channel_key (state : WorkflowStateV1.t) : string :=
  py_str (default JNull (dict_get "id" (default [] (WorkflowStateV1.approval state)))).

(** The guard of a dispatch that needs a grant of [grantor] for [action]. *)
Definition grant_body (heads : list IntegrationHeadModel.t) (grantor action target : string)
    (state : WorkflowStateV1.t) (target_configuration : jobj) (now : Z) (run : RunModel.t) (d : db)
    : res own_error (unit * db) :=
  stored ← stored_approval (channel_key state) run;
  _ ← raise_if (bool_decide (stored = None)) value_error;
  a ← view_of stored;
  _ ← raise_if (negb (validate_request_event a d)) value_error;
  let current := parameters heads run action target state target_configuration in
  _ ← raise_if (stale_grant run grantor action current now a) value_error;
  _ ← raise_if (negb (existsb (decision_event run a) (events d))) value_error;
  Ok (tt, d).

(** [ProtectedEffect.dispatch] up to the call of the wrapped adapter.  [before] and [after]
are the clock readings of the fence. *)
Definition protected_dispatch (fence : RunFence.t) (before now after : Z)
    (state : WorkflowStateV1.t) (context : NodeContext.t) (target_configuration : jobj)
    (d : api_db) : res own_error (unit * api_db) :=
  match NodePolicy.approval (NodeContext.policy context) with
  | Some {| ApprovalPolicy.required_grant_from := Some grantor;
            ApprovalPolicy.action_type := action |} =>
      if String.eqb grantor "" then Ok (tt, d)
      else match action with
           | None => Err value_error
           | Some action =>
               r ← fenced fence before after
                     (grant_body (heads d (RunFence.run_id fence)) grantor (ActionType.value action)
                        (node_id (NodeContext.node context)) state target_configuration now)
                     (core d);
               Ok (r.1, set_core r.2 d)
           end
  | _ => Ok (tt, d)
  end.

(** ** [expire_approvals] *)

(** The readings of the clock for one run. *)
Record expiry_clock := { x_now : Z; x_decided : Z; x_claimable : Z }.

Definition waiting_runs (d : db) : list RunModel.t :=
  take 100 (sorted_key RunModel.id
    (filter (λ r, RunModel.mode r = "real" ∧ RunModel.status r = RunStatus.APPROVAL_REQUIRED)
       (map_to_list (runs d)).*2)).

(** The approval a run waits for: [None] when the run is passed over. *)
Definition waited_key (run : RunModel.t) : option string :=
  match default (JObj []) (dict_get "wait" (RunModel.runtime_json run)) with
  | JObj wait =>
      if py_eq (default JNull (dict_get "kind" wait)) (JStr "approval")
      then Some (py_str (default JNull (dict_get "id" wait))) else None
  | _ => None
  end.

Definition block_run (run : RunModel.t) (d : db) : db :=
  let run' := RunModel.bump (RunModel.with_status RunStatus.BLOCKED run) in
  put_run run' (event run' "run.blocked" [("reason", JStr "approval.invalid")] d).

Definition expire_one (clock : expiry_clock) (approvals : jobj) (a : ApprovalView.t)
    (run : RunModel.t) (d : db) : db :=
  let entry := approval_dump
    (ApprovalView.decided ApprovalDecision.expired (ApprovalView.actor_id a) (x_decided clock) a) in
  let run' := RunModel.bump (RunModel.with_claimable (x_claimable clock)
    (RunModel.with_status RunStatus.QUEUED
       (update_runtime
          [("approvals", JObj (dict_set (uuid_str (ApprovalView.id a)) entry approvals))] run))) in
  put_run run' (event run' "approval.expired"
    [("approval_id", JStr (uuid_str (ApprovalView.id a)));
     ("request_digest", JStr (ApprovalView.request_digest a))] d).

(** The body of the loop for one run. *)
Definition expire_run (clock : expiry_clock) (run : RunModel.t) (d : db) : res own_error db :=
  match waited_key run with
  | None => Ok d
  | Some key =>
      approvals ← approvals_of run;
      match not_none (dict_get key approvals) with
      | None => Ok d
      | Some j =>
          match approval_validate j with
          | None => Ok (block_run run d)
          | Some a =>
              if negb (validate_request_event a d) then Ok (block_run run d)
              else if bool_decide (ApprovalView.decision a = ApprovalDecision.pending)
                      && ApprovalView.overdue (x_now clock) a
              then Ok (expire_one clock approvals a run d)
              else Ok d
          end
      end
  end.

Definition expire_approvals (clock : uuid → expiry_clock) (d : db) : res own_error db :=
  _ ← lock_events d;
  foldM (λ d run, expire_run (clock (RunModel.id run)) run d) d (waiting_runs d).

(** ** [decide] *)

Inductive problem :=
  | NotFound
  | Conflict
  | Invalid
  | Stale
  | ServerError (e : own_error).

Definition server {A} (r : res own_error A) : res problem A :=
  match r with Ok x => Ok x | Err e => Err (ServerError e) end.

(** The run of a project that the principal owns. *)
Definition owned_run (p : Principal.t) (run_id : uuid) (d : api_db) : option RunModel.t :=
  run ← runs (core d) !! run_id;
  owner ← owners d !! RunModel.job_id run;
  if bool_decide (owner = Principal.user_id p) then Some run else None.

Definition has_pending_command (run_id : uuid) (d : db) : bool :=
  existsb (λ c, bool_decide (RunCommandModel.run_id c = run_id)
                && bool_decide (RunCommandModel.status c = CommandStatus.PENDING)) (commands d).

Definition stale_decision (run_id approval_id : uuid) (body : ApprovalDecisionRequest.t) (now : Z)
    (run : RunModel.t) (a : ApprovalView.t) (d : db) : bool :=
  negb (bool_decide (ApprovalView.run_id a = run_id))
  || negb (bool_decide (ApprovalView.decision a = ApprovalDecision.pending))
  || negb (String.eqb (ApprovalView.request_digest a) (ApprovalDecisionRequest.request_digest body))
  || negb (bool_decide (RunModel.status run = RunStatus.APPROVAL_REQUIRED))
  || negb (bool_decide (RunModel.desired_state run = DesiredRunState.RUNNING))
  || negb (Z.eqb (RunModel.version run) (ApprovalDecisionRequest.expected_run_version body))
  || has_pending_command run_id d
  || negb (py_eq (default JNull (dict_get "wait" (RunModel.runtime_json run)))
             (wait_for (uuid_str approval_id)))
  || ApprovalView.overdue now a.

Definition decided_payload (p : Principal.t) (approval_id : uuid) (a : ApprovalView.t)
    (decision : ApprovalDecision.t) : jobj :=
  [("approval_id", JStr (uuid_str approval_id)); ("decision", JStr (ApprovalDecision.value decision));
   ("request_digest", JStr (ApprovalView.request_digest a));
   ("actor_id", JStr (uuid_str (Principal.user_id p)));
   ("session_id", JStr (uuid_str (Principal.session_id p)))].

(** The run with the decision, queued to resume. *)
Definition decided_run (key : string) (decided : ApprovalView.t) (approvals : jobj) (now : Z)
    (run : RunModel.t) : RunModel.t :=
  RunModel.bump (RunModel.with_claimable now (RunModel.with_status RunStatus.QUEUED
    (update_runtime [("approvals", JObj (dict_set key (approval_dump decided) approvals))] run))).

Definition decision_scope (p : Principal.t) (approval_id : uuid) : string :=
  "approval:" +:+ uuid_str (Principal.user_id p) +:+ ":" +:+ uuid_str approval_id.

Context `{ModelDump ApprovalDecisionRequest.t}.

(** What a fresh request does, after its record was begun. *)
Definition decide_fresh (p : Principal.t) (run_id approval_id : uuid)
    (body : ApprovalDecisionRequest.t) (now : Z) (run : RunModel.t) (approvals : jobj) (j : json)
    (begun : list IdempotencyRecordModel.t) (d : api_db) : res problem (ApprovalView.t * api_db) :=
  let key := uuid_str approval_id in
  a ← server (view_of (Some j));
  if negb (validate_request_event a (core d)) then Err Invalid
  else if stale_decision run_id approval_id body now run a (core d) then Err Stale
  else
    let decided := ApprovalView.decided (ApprovalDecisionRequest.decision body)
                     (Some (Principal.user_id p)) now a in
    let run' := decided_run key decided approvals now run in
    let core' := put_run run'
      (event run' "approval.decided"
         (decided_payload p approval_id a (ApprovalDecisionRequest.decision body)) (core d)) in
    Ok (decided,
        set_records (complete_record (decision_scope p approval_id)
                       (ApprovalDecisionRequest.idempotency_key body) (approval_dump decided) begun)
          (set_core core' d)).

Definition decide (p : Principal.t) (run_id approval_id : uuid) (body : ApprovalDecisionRequest.t)
    (now : Z) (d : api_db) : res problem (ApprovalView.t * api_db) :=
  _ ← server (lock_events (core d));
  match owned_run p run_id d with
  | None => Err NotFound
  | Some run =>
      if negb (String.eqb (RunModel.mode run) "real") then Err NotFound
      else
        approvals ← server (approvals_of run);
        match not_none (dict_get (uuid_str approval_id) approvals) with
        | None => Err NotFound
        | Some j =>
            match begin_record (decision_scope p approval_id)
                    (ApprovalDecisionRequest.idempotency_key body) (sha256_digest (model_dump body))
                    (records d) with
            | IdempotencyConflict => Err Conflict
            | Replay r =>
                a ← server (view_of (Some (default JNull (IdempotencyRecordModel.response_json r))));
                Ok (a, d)
            | Fresh begun => decide_fresh p run_id approval_id body now run approvals j begun d
            end
        end
  end.
End approvals.

(** ** The approvals of every run, step by step *)

(** The entries of a run, as the code reads them. *)
Definition approvals_in `{PyRuntime} (run : RunModel.t) : jobj :=
  match approvals_of run with Ok o => o | Err _ => [] end.
Definition entry `{PyRuntime} (key : string) (run : RunModel.t) : option json :=
  dict_get key (approvals_in run).

Section system.
Context `{PyRuntime} `{PyStr} `{Uuid5} `{ApprovalModelLaws} `{IsoText} `{StoredData} `{JsonbText}
  `{ModelDump ApprovalDecisionRequest.t}.

(** Transactions that leave the approvals of runs and the idempotency records of decisions
alone: every other module of the program. *)
Record other_step (d d' : api_db) : Prop := {
  os_keyed : keyed (core d) → keyed (core d');
  os_runs : ∀ i r, runs (core d) !! i = Some r →
    ∃ r', runs (core d') !! i = Some r'
          ∧ dict_get "approvals" (RunModel.runtime_json r')
            = dict_get "approvals" (RunModel.runtime_json r);
  os_new : ∀ i r', runs (core d) !! i = None → runs (core d') !! i = Some r' →
    dict_get "approvals" (RunModel.runtime_json r') = None;
  os_records : ∀ scope key, startswith "approval:" scope = true →
    find (record_is scope key) (records d') = find (record_is scope key) (records d);
}.

Inductive approval_step : api_db → api_db → Prop :=
  | step_decide p run_id approval_id body now v d d' :
      decide p run_id approval_id body now d = Ok (v, d') → approval_step d d'
  | step_request fence before after spec state context configuration created base w d d' :
      approval_request fence before after spec state context configuration created base d = Ok (w, d') →
      approval_step d d'
  | step_resume fence before after now value context out d d' :
      approval_resume fence before after now value context d = Ok (out, d') →
      approval_step d d'
  | step_expire clock c d :
      expire_approvals clock (core d) = Ok c → approval_step d (set_core c d)
  | step_other d d' : other_step d d' → approval_step d d'.

(** Runs are stored under their identifiers, and no run has an approval. *)
Definition no_approvals (d : api_db) : Prop :=
  keyed (core d) ∧ ∀ i r, runs (core d) !! i = Some r → approvals_in r = [].

(** An entry that a step may write over [old]: the view has its key and run, replaces at most
a pending one, and is approved only if [D] says so. *)
Definition may_write (D : uuid → ApprovalView.t → Prop) (i : uuid) (key : string)
    (old new : option json) : Prop :=
  ∃ j a, new = Some j ∧ approval_validate j = Some a ∧ uuid_str (ApprovalView.id a) = key
    ∧ match old with
      | None => True
      | Some j0 => ∃ a0, approval_validate j0 = Some a0
                         ∧ ApprovalView.decision a0 = ApprovalDecision.pending
      end
    ∧ (ApprovalView.decision a = ApprovalDecision.approved → D i a).

Definition run_evolves (D : uuid → ApprovalView.t → Prop) (i : uuid) (r r' : RunModel.t) : Prop :=
  ∀ key, entry key r' = entry key r ∨ may_write D i key (entry key r) (entry key r').

Definition evolves (D : uuid → ApprovalView.t → Prop) (c c' : db) : Prop :=
  ∀ i, match runs c !! i, runs c' !! i with
       | Some r, Some r' => run_evolves D i r r'
       | None, Some r' => approvals_in r' = []
       | Some _, None => False
       | None, None => True
       end.

Lemma run_evolves_refl D i r : run_evolves D i r r.
Proof. intros key. by left. Qed.

Lemma run_evolves_trans D i r1 r2 r3 :
  run_evolves D i r1 r2 → run_evolves D i r2 r3 → run_evolves D i r1 r3.
Proof.
  intros Hf Hs key. destruct (Hs key) as [Hk3|Hk3].
  - rewrite Hk3. apply Hf.
  - right. destruct (Hf key) as [Hk2|(j & a & Hj & Hv & Hk & Hold & HD)]; [by rewrite <-Hk2|].
    destruct Hk3 as (j' & a' & Hj' & Hv' & Hk' & _ & HD'). by exists j', a'.
Qed.

Lemma evolves_refl D c : evolves D c c.
Proof. intros i. destruct (runs c !! i); [apply run_evolves_refl|done]. Qed.

Lemma evolves_trans D c1 c2 c3 :
  evolves D c1 c2 → evolves D c2 c3 → (∀ i, runs c1 !! i = None → runs c2 !! i = None) →
  evolves D c1 c3.
Proof.
  intros Hf Hs Hn i. specialize (Hf i). specialize (Hs i). specialize (Hn i).
  destruct (runs c1 !! i), (runs c2 !! i), (runs c3 !! i); try done.
  - by eapply run_evolves_trans.
  - by specialize (Hn eq_refl).
Qed.

(** Most steps change one run they have read. *)
Lemma evolves_put D run run' c c' :
  runs c !! RunModel.id run = Some run → RunModel.id run' = RunModel.id run →
  runs c' = <[RunModel.id run' := run']> (runs c) → run_evolves D (RunModel.id run) run run' →
  evolves D c c'.
Proof.
  intros Hr Hid Hc He i. rewrite Hc, Hid. destruct (base.decide (i = RunModel.id run)) as [->|Hne].
  - by rewrite Hr, lookup_insert_eq.
  - rewrite lookup_insert_ne by done. by destruct (runs c !! i); [apply run_evolves_refl|].
Qed.

Lemma approvals_of_in run o : approvals_of run = Ok o → approvals_in run = o.
Proof.
  unfold approvals_in. by intros ->.
Qed.

(** The entries depend only on the stored approvals. *)
Lemma approvals_in_stored r r' :
  dict_get "approvals" (RunModel.runtime_json r') = dict_get "approvals" (RunModel.runtime_json r) →
  approvals_in r' = approvals_in r.
Proof. unfold approvals_in, approvals_of. by intros ->. Qed.

Lemma approvals_in_object run o :
  dict_get "approvals" (RunModel.runtime_json run) = Some (JObj o) → approvals_in run = o.
Proof. unfold approvals_in, approvals_of. by intros ->. Qed.

Lemma stored_approvals u run :
  dict_ok u →
  dict_get "approvals" (RunModel.runtime_json (update_runtime u run))
  = match dict_get "approvals" u with
    | Some j => Some j
    | None => dict_get "approvals" (RunModel.runtime_json run)
    end.
Proof. intros Hu. apply dict_get_update, Hu. Qed.

Lemma entry_wait v key run : entry key (update_runtime [("wait", v)] run) = entry key run.
Proof.
  unfold entry. erewrite approvals_in_stored; [done|].
  rewrite stored_approvals by apply NoDup_singleton. done.
Qed.
Lemma entry_approvals o key run :
  entry key (update_runtime [("approvals", JObj o)] run) = dict_get key o.
Proof.
  unfold entry. erewrite approvals_in_object; [done|].
  by rewrite stored_approvals by apply NoDup_singleton.
Qed.
Lemma entry_both o v key run :
  entry key (update_runtime [("approvals", JObj o); ("wait", v)] run) = dict_get key o.
Proof.
  unfold entry. erewrite approvals_in_object; [done|]. rewrite stored_approvals; [done|].
  apply NoDup_cons. split; [set_solver|apply NoDup_singleton].
Qed.

Lemma stored_approval_entry key run j : stored_approval key run = Ok (Some j) → entry key run = Some j.
Proof.
  unfold stored_approval, entry, approvals_in, approvals_of.
  destruct (default _ _) as [| | | | | |o]; try done. simpl. intros [= Hj].
  unfold not_none in Hj. destruct (dict_get key o) as [[]|]; congruence.
Qed.

Lemma view_of_ok o a : view_of o = Ok a → ∃ j, o = Some j ∧ approval_validate j = Some a.
Proof.
  unfold view_of. destruct o as [j|]; [|done]. destruct (approval_validate j) eqn:Hv; [|done].
  intros [= ->]. by exists j.
Qed.

Definition entries_ok (r : RunModel.t) : Prop :=
  ∀ key j, entry key r = Some j →
    ∃ a, approval_validate j = Some a ∧ uuid_str (ApprovalView.id a) = key.
Record api_ok (d : api_db) : Prop := {
  ao_keyed : keyed (core d);
  ao_entries : ∀ i r, runs (core d) !! i = Some r → entries_ok r;
}.

Lemma evolves_entries D c c' :
  (∀ i r, runs c !! i = Some r → entries_ok r) → evolves D c c' →
  ∀ i r, runs c' !! i = Some r → entries_ok r.
Proof.
  intros Hok He i r' Hr'. specialize (He i). rewrite Hr' in He.
  destruct (runs c !! i) as [r|] eqn:Hr; [|by intros key j; unfold entry; rewrite He].
  intros key j Hj. destruct (He key) as [Hk|(j' & a & Hj' & Hv & Hk & _)].
  - rewrite Hk in Hj. by eapply Hok.
  - exists a. split; [|done]. congruence.
Qed.

Lemma not_none_Some o j : not_none o = Some j → o = Some j.
Proof. by destruct o as [[]|]. Qed.

Lemma request_evolves D heads target state context configuration created base run d w c :
  runs d !! RunModel.id run = Some run →
  request_body heads target state context configuration created base run d = Ok (w, c) →
  evolves D d c ∧ (keyed d → keyed c).
Proof.
  intros Hr. unfold request_body. intros (? & _ & Hb)%res_bind_ok.
  apply res_bind_ok in Hb as (config & Hcfg & Hb).
  apply res_bind_ok in Hb as ([approvals d'] & Hreq & Hb).
  apply res_bind_ok in Hb as (a & Ha & Hb). apply res_bind_ok in Hb as (? & _ & Hb).
  apply res_bind_ok in Hb as (? & _ & [= _ <-]).
  assert (runs d' = runs d ∧ run_evolves D (RunModel.id run) run
    (update_runtime [("approvals", JObj approvals);
       ("wait", wait_for (uuid_str (approval_id (RunModel.id run) context)))] run)) as [Hrd He].
  { unfold ensure_request in Hreq. apply res_bind_ok in Hreq as (old & Hold & Hreq).
    pose proof (approvals_of_in _ _ Hold) as Hin.
    destruct (dict_get (uuid_str _) old) as [j|] eqn:Hj.
    - injection Hreq as <- <-. split; [done|]. intros key. left.
      unfold entry at 2. by rewrite entry_both, Hin.
    - apply res_bind_ok in Hreq as (config' & _ & Hreq).
      destruct (ApprovalView.valid _) eqn:Hvalid; [|done].
      injection Hreq as <- <-. split; [done|]. intros key.
      rewrite entry_both, dict_get_set. destruct (base.decide _) as [<-|Hne]; [|left; unfold entry; by rewrite Hin].
      right. eexists _, _. split; [done|]. split; [by apply validate_dump|].
      split; [done|]. unfold entry. rewrite Hin, Hj. by split. }
  split.
  - eapply (evolves_put D run); [done|..|exact He]; simpl; by rewrite ?Hrd.
  - intros Hk. apply keyed_put_run. intros i r. rewrite Hrd. apply Hk.
Qed.

Lemma resume_evolves D context now run d out c :
  runs d !! RunModel.id run = Some run →
  resume_body context now run d = Ok (out, c) → evolves D d c ∧ (keyed d → keyed c).
Proof.
  intros Hr. unfold resume_body. intros (? & _ & Hb)%res_bind_ok.
  apply res_bind_ok in Hb as (old & Hold & Hb). apply res_bind_ok in Hb as (a & Ha & Hb).
  apply res_bind_ok in Hb as (? & _ & Hb). apply res_bind_ok in Hb as (? & _ & [= _ <-]).
  split; [|intros Hk; apply keyed_put_run; intros i r; apply Hk].
  eapply (evolves_put D run (update_runtime [("wait", JNull)] run)); [done..|].
  intros key. left. apply entry_wait.
Qed.

Lemma entry_queued z s run key :
  entry key (RunModel.bump (RunModel.with_claimable z (RunModel.with_status s run))) = entry key run.
Proof. done. Qed.

Lemma expire_run_evolves D clock run d d' :
  runs d !! RunModel.id run = Some run → entries_ok run → expire_run clock run d = Ok d' →
  evolves D d d' ∧ (keyed d → keyed d')
  ∧ ∀ i, i ≠ RunModel.id run → runs d' !! i = runs d !! i.
Proof.
  intros Hr Hok. unfold expire_run.
  assert (∀ r' dd, RunModel.id r' = RunModel.id run → runs dd = runs d →
    run_evolves D (RunModel.id run) run r' →
    evolves D d (put_run r' dd) ∧ (keyed d → keyed (put_run r' dd))
    ∧ ∀ i, i ≠ RunModel.id run → runs (put_run r' dd) !! i = runs d !! i) as Hput.
  { intros r' dd Hid Hdd He. split_and!.
    - eapply (evolves_put D run r'); [done..| |done]. simpl. by rewrite Hdd.
    - intros Hk. apply keyed_put_run. intros i r. rewrite Hdd. apply Hk.
    - intros i Hi. simpl. rewrite lookup_insert_ne by congruence. by rewrite Hdd. }
  assert (d' = d → evolves D d d' ∧ (keyed d → keyed d')
    ∧ ∀ i, i ≠ RunModel.id run → runs d' !! i = runs d !! i) as Hsame
    by (intros ->; split; [apply evolves_refl|done]).
  destruct (waited_key run) as [key|]; [|intros [= <-]; by apply Hsame].
  intros (approvals & Hap & Hb)%res_bind_ok. apply approvals_of_in in Hap.
  destruct (not_none _) as [j|] eqn:Hj; [|injection Hb as <-; by apply Hsame].
  apply not_none_Some in Hj.
  assert (run_evolves D (RunModel.id run) run
            (RunModel.bump (RunModel.with_status RunStatus.BLOCKED run))) as Hblock
    by (intros k; by left).
  destruct (approval_validate j) as [a|] eqn:Hv; [|injection Hb as <-; by apply Hput].
  destruct (negb _); [injection Hb as <-; by apply Hput|].
  destruct (bool_decide _ && _) eqn:Hover; [|injection Hb as <-; by apply Hsame].
  apply andb_true_iff in Hover as [Hpend%bool_decide_eq_true _].
  injection Hb as <-. apply Hput; [done..|]. intros k.
  rewrite entry_queued, entry_approvals, dict_get_set. case_decide as Hk.
  - right. eexists _, _. split; [done|]. split; [apply validate_dump, (validate_valid _ _ Hv)|].
    split; [done|]. split; [|done]. subst k. unfold entry. rewrite Hap.
    destruct (Hok key j) as (a' & Hv' & Hkey); [by unfold entry; rewrite Hap|].
    assert (a' = a) as -> by congruence. rewrite Hkey, Hj. by exists a.
  - left. unfold entry. by rewrite Hap.
Qed.

Lemma expire_fold_evolves D clock l d d' :
  NoDup (RunModel.id <$> l) → (∀ r, r ∈ l → runs d !! RunModel.id r = Some r ∧ entries_ok r) →
  foldM (λ d run, expire_run (clock (RunModel.id run)) run d) d l = Ok d' →
  evolves D d d' ∧ (keyed d → keyed d').
Proof.
  revert d. induction l as [|r l IH]; intros d Hnd Hl.
  { intros [= <-]. split; [apply evolves_refl|done]. }
  apply NoDup_cons in Hnd as [Hnin Hnd]. intros (d1 & Hd1 & Hrest)%res_bind_ok.
  destruct (Hl r) as [Hr Hok]; [by left|].
  destruct (expire_run_evolves D _ _ _ _ Hr Hok Hd1) as (He1 & Hk1 & Hsame).
  destruct (IH d1 Hnd) as [He2 Hk2]; [|done|].
  - intros x Hx. destruct (Hl x) as [Hxr Hxok]; [by right|]. split; [|done].
    rewrite Hsame; [done|]. intros Heq. apply Hnin. rewrite <-Heq. by apply list_elem_of_fmap_2.
  - split; [|auto]. eapply evolves_trans; [done..|]. intros i Hi.
    destruct (base.decide (i = RunModel.id r)) as [->|Hne]; [congruence|]. by rewrite Hsame.
Qed.

Lemma elem_of_waiting_runs d r : keyed d → r ∈ waiting_runs d → runs d !! RunModel.id r = Some r.
Proof.
  intros Hk Hr. unfold waiting_runs in Hr. apply elem_of_take in Hr as (i & Hi & _).
  apply list_elem_of_lookup_2, elem_of_sorted_key, list_elem_of_filter in Hi as [_ Hi].
  by apply (elem_of_rows d r Hk).
Qed.

Lemma waiting_distinct d : keyed d → NoDup (RunModel.id <$> waiting_runs d).
Proof.
  intros Hk. unfold waiting_runs.
  eapply sublist_NoDup; [|apply fmap_sublist, sublist_take]. rewrite sorted_key_perm.
  eapply sublist_NoDup; [|apply fmap_sublist, sublist_filter].
  assert (RunModel.id <$> (map_to_list (runs d)).*2 = (map_to_list (runs d)).*1) as ->.
  { rewrite <-list_fmap_compose. apply list_fmap_ext. intros k [i r] Hi.
    apply list_elem_of_lookup_2, elem_of_map_to_list in Hi. by apply Hk. }
  apply NoDup_fst_map_to_list.
Qed.

Lemma expire_evolves D clock d d' :
  keyed d → (∀ i r, runs d !! i = Some r → entries_ok r) →
  expire_approvals clock d = Ok d' → evolves D d d' ∧ keyed d'.
Proof.
  intros Hk Hok. unfold expire_approvals. intros (? & _ & Hf)%res_bind_ok.
  destruct (expire_fold_evolves D clock (waiting_runs d) d d' (waiting_distinct d Hk)) as [He Hk'];
    [|done|by auto].
  intros r Hr%(elem_of_waiting_runs d); [|done]. split; [done|by eapply Hok].
Qed.

(** What a fresh decision has checked and written. *)
Lemma decide_ok p i id body now d v d' :
  decide p i id body now d = Ok (v, d') →
  ∃ run approvals j, owned_run p i d = Some run ∧ RunModel.mode run = "real"
    ∧ approvals_of run = Ok approvals ∧ dict_get (uuid_str id) approvals = Some j
    ∧ ((∃ r, begin_record (decision_scope p id) (ApprovalDecisionRequest.idempotency_key body)
               (sha256_digest (model_dump body)) (records d) = Replay r
             ∧ approval_validate (default JNull (IdempotencyRecordModel.response_json r)) = Some v
             ∧ d' = d)
       ∨ ∃ begun, begin_record (decision_scope p id) (ApprovalDecisionRequest.idempotency_key body)
               (sha256_digest (model_dump body)) (records d) = Fresh begun
             ∧ decide_fresh p i id body now run approvals j begun d = Ok (v, d')).
Proof.
  unfold decide. intros (? & _ & Hd)%res_bind_ok.
  destruct (owned_run p i d) as [run|]; [|done].
  destruct (String.eqb_spec (RunModel.mode run) "real") as [Hm|]; [|done]. cbn [negb] in Hd.
  apply res_bind_ok in Hd as (approvals & Hap & Hd).
  destruct (not_none _) as [j|] eqn:Hj; [|done]. apply not_none_Some in Hj.
  exists run, approvals, j. unfold server in Hap.
  destruct (approvals_of run) as [o|]; [|done]. injection Hap as ->.
  split_and!; [done..|]. destruct (begin_record _ _ _ _) as [begun|r|]; [right|left|done].
  - by exists begun.
  - apply res_bind_ok in Hd as (a & Ha & [= <- <-]). exists r. split; [done|]. split; [|done].
    unfold server, view_of in Ha. destruct (approval_validate _); [by injection Ha as ->|done].
Qed.

Lemma decide_fresh_ok p i id body now run approvals j begun d v d' :
  decide_fresh p i id body now run approvals j begun d = Ok (v, d') →
  ∃ a, approval_validate j = Some a ∧ validate_request_event a (core d) = true
    ∧ stale_decision i id body now run a (core d) = false
    ∧ v = ApprovalView.decided (ApprovalDecisionRequest.decision body)
            (Some (Principal.user_id p)) now a
    ∧ runs (core d') = <[RunModel.id run := decided_run (uuid_str id) v approvals now run]>
                         (runs (core d))
    ∧ events (core d') = events (event (decided_run (uuid_str id) v approvals now run)
        "approval.decided" (decided_payload p id a (ApprovalDecisionRequest.decision body)) (core d))
    ∧ records d' = complete_record (decision_scope p id)
        (ApprovalDecisionRequest.idempotency_key body) (approval_dump v) begun.
Proof.
  unfold decide_fresh. intros (a & Ha & Hd)%res_bind_ok.
  destruct (validate_request_event a (core d)) eqn:Hv; [|done]. cbn [negb] in Hd.
  destruct (stale_decision _ _ _ _ _ _ _) eqn:Hs; [done|]. injection Hd as <- <-.
  exists a. unfold server, view_of in Ha. destruct (approval_validate j); [injection Ha as ->|done].
  by split_and!.
Qed.

(** An approval that the decision route has just granted. *)
Definition decided_by (d d' : api_db) (i : uuid) (a : ApprovalView.t) : Prop :=
  ∃ p id body now v, decide p i id body now d = Ok (v, d')
    ∧ uuid_str id = uuid_str (ApprovalView.id a) ∧ ApprovalDecisionRequest.approve body = true
    ∧ ApprovalDecisionRequest.request_digest body = ApprovalView.request_digest a
    ∧ is_Some (owned_run p i d).

Lemma owned_run_Some p i d run :
  owned_run p i d = Some run →
  runs (core d) !! i = Some run ∧ owners d !! RunModel.job_id run = Some (Principal.user_id p).
Proof.
  unfold owned_run. intros (r & Hr & (owner & Ho & Hown)%bind_Some)%bind_Some.
  case_bool_decide as Heq; [|done]. injection Hown as ->. by rewrite <-Heq.
Qed.

Lemma decide_evolves p i id body now v d d' :
  api_ok d → decide p i id body now d = Ok (v, d') →
  evolves (decided_by d d') (core d) (core d') ∧ keyed (core d').
Proof.
  intros [Hk Hent] Hd. pose proof (decide_ok _ _ _ _ _ _ _ _ Hd)
    as (run & approvals & j & Hown & _ & Hap & Hj & [(r & _ & _ & ->)|(begun & _ & Hf)]).
  { split; [apply evolves_refl|done]. }
  apply decide_fresh_ok in Hf as (a & Hv & _ & Hstale & Hvw & Hruns & _ & _).
  pose proof (owned_run_Some _ _ _ _ Hown) as [Hr _]. pose proof (Hk _ _ Hr) as Hid.
  apply approvals_of_in in Hap.
  unfold stale_decision in Hstale. rewrite !orb_false_iff, !negb_false_iff in Hstale.
  destruct Hstale as ((((((((Hrun & Hpend) & Hdg) & _) & _) & _) & _) & _) & _).
  apply bool_decide_eq_true in Hrun, Hpend. apply String.eqb_eq in Hdg.
  split.
  - eapply (evolves_put _ run (decided_run (uuid_str id) v approvals now run)); [by rewrite Hid|done|done|].
    intros key. unfold decided_run. rewrite entry_queued, entry_approvals, dict_get_set.
    case_decide as Hkey; [|left; unfold entry; by rewrite Hap]. subst key. right.
    destruct (Hent _ _ Hr (uuid_str id) j) as (a' & Hv' & Hkey); [by unfold entry; rewrite Hap|].
    assert (a' = a) as -> by congruence.
    exists (approval_dump v), v. split; [done|]. split_and!.
    + apply validate_dump. subst v. apply (validate_valid _ _ Hv).
    + by subst v.
    + unfold entry. rewrite Hap, Hj. by exists a.
    + intros Happ. rewrite Hid. exists p, id, body, now, v. subst v. split_and!; [done|done| |done|by eexists].
      cbn in Happ. unfold ApprovalDecisionRequest.decision in Happ.
      by destruct (ApprovalDecisionRequest.approve body).
  - intros k r. rewrite Hruns. destruct (base.decide (k = RunModel.id run)) as [->|Hne].
    + rewrite lookup_insert_eq. by intros [= <-].
    + rewrite lookup_insert_ne by done. apply Hk.
Qed.

Lemma fenced_reads_run {A} fence before after (body : RunModel.t → db → res own_error (A * db)) d r c :
  keyed d → fenced fence before after body d = Ok (r, c) →
  ∃ run, runs d !! RunModel.id run = Some run ∧ RunModel.id run = RunFence.run_id fence
         ∧ body run d = Ok (r, c).
Proof.
  intros Hk (run & lease & Hr & _ & _ & _ & _ & Hb)%fenced_ok.
  pose proof (Hk _ _ Hr) as Hid. exists run. by rewrite Hid.
Qed.

Lemma step_evolves d d' :
  api_ok d → approval_step d d' → evolves (decided_by d d') (core d) (core d') ∧ api_ok d'.
Proof.
  intros Hok Hs. pose proof Hok as [Hk Hent].
  assert (evolves (decided_by d d') (core d) (core d') ∧ keyed (core d')) as [He Hk'].
  { destruct Hs as [p i id body now v d d' Hd
                   |fence before after spec state context configuration created base w d d' Hf
                   |fence before after now value context out d d' Hf
                   |clock c d Hc
                   |d d' Ho].
    - by eapply decide_evolves.
    - apply res_bind_ok in Hf as (target & _ & Hf). apply res_bind_ok in Hf as ([w' c] & Hf & [= _ <-]).
      apply fenced_reads_run in Hf as (run & Hr & _ & Hb); [|done].
      eapply request_evolves in Hb as [He Hkc]; [|done]. split; [exact He|by apply Hkc].
    - apply res_bind_ok in Hf as (? & _ & Hf). apply res_bind_ok in Hf as ([w' c] & Hf & [= _ <-]).
      apply fenced_reads_run in Hf as (run & Hr & _ & Hb); [|done].
      eapply resume_evolves in Hb as [He Hkc]; [|done]. split; [exact He|by apply Hkc].
    - by eapply expire_evolves.
    - destruct Ho as [Hko Hro Hno _]. split; [|by apply Hko]. intros i.
      destruct (runs (core d) !! i) as [r|] eqn:Hr.
      + destruct (Hro i r Hr) as (r' & -> & Happ). intros key. left. unfold entry.
        by rewrite (approvals_in_stored r r').
      + destruct (runs (core d') !! i) as [r'|] eqn:Hr'; [|done].
        unfold approvals_in, approvals_of. by rewrite (Hno i r' Hr Hr'). }
  split; [done|]. split; [done|]. by eapply evolves_entries.
Qed.

Lemma no_approvals_ok d : no_approvals d → api_ok d.
Proof.
  intros [Hk Hn]. split; [done|]. intros i r Hr key j. unfold entry. by rewrite (Hn i r Hr).
Qed.

Lemma steps_api_ok d d' : api_ok d → rtc approval_step d d' → api_ok d'.
Proof. intros Hd Hs. induction Hs as [|x y z Hxy _ IH]; [done|]. apply IH. by eapply step_evolves. Qed.

(** An approved entry has been decided through the route, earlier. *)
Definition granted_before (d0 d : api_db) (i : uuid) (a : ApprovalView.t) : Prop :=
  ∃ p id body now v d1 d2, rtc approval_step d0 d1 ∧ decide p i id body now d1 = Ok (v, d2)
    ∧ rtc approval_step d2 d
    ∧ uuid_str id = uuid_str (ApprovalView.id a) ∧ ApprovalDecisionRequest.approve body = true
    ∧ ApprovalDecisionRequest.request_digest body = ApprovalView.request_digest a
    ∧ is_Some (owned_run p i d1).

Lemma approved_decided d0 d i r key j a :
  no_approvals d0 → rtc approval_step d0 d →
  runs (core d) !! i = Some r → entry key r = Some j → approval_validate j = Some a →
  ApprovalView.decision a = ApprovalDecision.approved → granted_before d0 d i a.
Proof.
  intros Hn Hs. revert r j a. revert d Hs.
  apply (rtc_ind_r (λ d, ∀ r j a, runs (core d) !! i = Some r → entry key r = Some j →
    approval_validate j = Some a → ApprovalView.decision a = ApprovalDecision.approved →
    granted_before d0 d i a) d0); [intros r' j a|intros d d' Hs Hstep IH r' j a].
  { intros Hr Hj. unfold entry in Hj. by rewrite (proj2 Hn i r' Hr) in Hj. }
  intros Hr' Hj Hv Happ.
  assert (api_ok d) as Hok by (eapply steps_api_ok; [by apply no_approvals_ok|done]).
  destruct (step_evolves d d' Hok Hstep) as [He _]. specialize (He i). rewrite Hr' in He.
  destruct (runs (core d) !! i) as [r|] eqn:Hr; [|by unfold entry in Hj; rewrite He in Hj].
  destruct (He key) as [Hsame|(j' & a' & Hj' & Hv' & Hk' & _ & HD)].
  - rewrite Hsame in Hj.
    destruct (IH r j a eq_refl Hj Hv Happ) as (p & id & body & now & v & d1 & d2 & H1' & Hd & H2' & Hrest).
    exists p, id, body, now, v, d1, d2. split; [done|]. split; [done|]. split; [by eapply rtc_r|done].
  - assert (a' = a) as -> by congruence. destruct (HD Happ) as (p & id & body & now & v & Hd & Hid & Hb & Hdg & Ho).
    exists p, id, body, now, v, d, d'. split_and!; [done|done|apply rtc_refl|done..].
Qed.

(** C4. A protected effect is dispatched only with authority: whatever requests,
decisions, expiries, resumptions and other transactions came before, when
ProtectedEffect lets a dispatch through, the owner of the run's project has
approved, through the decision route, exactly the digest of the parameters the
dispatch now has; the approval comes from the node and for the action the policy
demands, is not overdue, its request and its decision are in the append-only log,
and the run is not cancelled. *)
Theorem protected_authorized d0 d fence before now after state context configuration policy grantor
    action d' :
  no_approvals d0 → rtc approval_step d0 d →
  NodePolicy.approval (NodeContext.policy context) = Some policy →
  ApprovalPolicy.required_grant_from policy = Some grantor → grantor ≠ "" →
  ApprovalPolicy.action_type policy = Some action →
  protected_dispatch fence before now after state context configuration d = Ok (tt, d') →
  ∃ run a, d' = d ∧ runs (core d) !! RunFence.run_id fence = Some run
    ∧ ApprovalView.decision a = ApprovalDecision.approved
    ∧ uuid_str (ApprovalView.id a) = channel_key state
    ∧ RunModel.desired_state run ≠ DesiredRunState.CANCELLED
    ∧ ApprovalView.node_id a = grantor ∧ ApprovalView.action_type a = ActionType.value action
    ∧ ApprovalView.overdue now a = false
    ∧ ApprovalView.request_digest a
      = sha256_digest (JObj (parameters (heads d (RunFence.run_id fence)) run (ActionType.value action)
          (node_id (NodeContext.node context)) state configuration))
    ∧ validate_request_event a (core d) = true
    ∧ existsb (decision_event run a) (events (core d)) = true
    ∧ granted_before d0 d (RunFence.run_id fence) a.
Proof.
  intros Hn Hs Hpol Hg Hne Hact. unfold protected_dispatch. rewrite Hpol.
  destruct policy as [required act exp]. cbn in Hg, Hact. subst required act.
  destruct (String.eqb_spec grantor "") as [|_]; [done|].
  intros ([u c] & Hf & [= _ <-])%res_bind_ok.
  assert (api_ok d) as [Hk Hent] by (eapply steps_api_ok; [by apply no_approvals_ok|done]).
  apply fenced_reads_run in Hf as (run & Hr & Hid & Hb); [|done]. unfold grant_body in Hb.
  apply res_bind_ok in Hb as (stored & Hst & Hb). apply res_bind_ok in Hb as (? & _ & Hb).
  apply res_bind_ok in Hb as (a & Ha & Hb). apply res_bind_ok in Hb as (? & Hval & Hb).
  apply res_bind_ok in Hb as (? & Hstale & Hb). apply res_bind_ok in Hb as (? & Hdec & [= _ <-]).
  apply raise_if_ok, negb_false_iff in Hval. apply raise_if_ok in Hstale.
  apply raise_if_ok, negb_false_iff in Hdec.
  apply view_of_ok in Ha as (j & -> & Hv). apply stored_approval_entry in Hst as Hj.
  destruct (Hent _ _ Hr _ _ Hj) as (a' & Hv' & Hkey). assert (a' = a) as -> by congruence.
  unfold stale_grant in Hstale. rewrite !orb_false_iff, !negb_false_iff in Hstale.
  destruct Hstale as (((((Hcan & Happ) & Hnode) & Hact) & Hdig) & Hover).
  apply bool_decide_eq_false in Hcan. apply bool_decide_eq_true in Happ.
  apply String.eqb_eq in Hnode, Hact, Hdig. exists run, a. rewrite <-Hid.
  split_and!; try done; [by destruct d| by rewrite Hid|].
  eapply (approved_decided d0 d _ run (channel_key state) j a); done.
Qed.

Lemma decided_step d d' i r key j a :
  api_ok d → approval_step d d' → runs (core d) !! i = Some r → entry key r = Some j →
  approval_validate j = Some a → ApprovalView.decision a ≠ ApprovalDecision.pending →
  ∃ r', runs (core d') !! i = Some r' ∧ entry key r' = Some j.
Proof.
  intros Hok Hs Hr Hj Hv Hp. destruct (step_evolves d d' Hok Hs) as [He _]. specialize (He i).
  rewrite Hr in He. destruct (runs (core d') !! i) as [r'|]; [|done]. exists r'. split; [done|].
  destruct (He key) as [Hsame|(j' & a' & _ & _ & _ & Hold & _)]; [by rewrite Hsame|].
  rewrite Hj in Hold. destruct Hold as (a0 & Hv0 & Hp0). congruence.
Qed.

(** C5. A decision is final: once an approval is approved, rejected or expired, no
later request, decision, expiry, resumption or other transaction changes its entry.
*)
Theorem decision_final d0 d d' i r key j a :
  no_approvals d0 → rtc approval_step d0 d → rtc approval_step d d' →
  runs (core d) !! i = Some r → entry key r = Some j → approval_validate j = Some a →
  ApprovalView.decision a ≠ ApprovalDecision.pending →
  ∃ r', runs (core d') !! i = Some r' ∧ entry key r' = Some j.
Proof.
  intros Hn%no_approvals_ok Hs Hs' Hr Hj Hv Hp.
  assert (api_ok d) as Hok by (by eapply steps_api_ok). clear Hn Hs d0.
  revert r Hr Hj. induction Hs' as [d|d d1 d' Hstep _ IH]; intros r Hr Hj; [by exists r|].
  destruct (decided_step d d1 i r key j a Hok Hstep Hr Hj Hv Hp) as (r1 & Hr1 & Hj1).
  eapply IH; [by eapply step_evolves|done..].
Qed.

(** Records of decisions stay. *)
Lemma find_complete scope key digest scope' key' response l b r :
  find (record_is scope key) l = Some r → begin_record scope' key' digest l = Fresh b →
  find (record_is scope key) (complete_record scope' key' response b) = Some r.
Proof.
  unfold begin_record. intros Hf Hb. destruct (find (record_is scope' key') l) eqn:Hn; [by case_match|].
  injection Hb as <-. unfold complete_record. rewrite fmap_app. apply find_some_app.
  revert Hf Hn. induction l as [|x l IH]; [done|]. simpl. intros Hf Hn.
  destruct (record_is scope' key' x); [done|]. destruct (record_is scope key x); [done|]. by apply IH.
Qed.

Lemma find_completed scope key digest response l b :
  begin_record scope key digest l = Fresh b →
  find (record_is scope key) (complete_record scope key response b)
  = Some (IdempotencyRecordModel.Build_t scope key digest "completed" (Some response)).
Proof.
  unfold begin_record. destruct (find (record_is scope key) l) eqn:Hn; [by case_match|].
  intros [= <-]. unfold complete_record. rewrite fmap_app, find_none_app.
  - cbn. unfold record_is. simpl. by rewrite !String.eqb_refl.
  - clear -Hn. induction l as [|x l IH]; [done|]. simpl in *. destruct (record_is scope key x) eqn:Hx; [done|].
    rewrite Hx. by apply IH.
Qed.

Lemma record_kept d d' scope key r :
  approval_step d d' → startswith "approval:" scope = true →
  find (record_is scope key) (records d) = Some r →
  find (record_is scope key) (records d') = Some r.
Proof.
  intros Hs Happ Hf. destruct Hs as [p i id body now v d d' Hd|? ? ? ? ? ? ? ? ? ? d d' Hq|? ? ? ? ? ? ? d d' Hq| |d d' Ho]; try done.
  - apply decide_ok in Hd as (run & approvals & j & _ & _ & _ & _ & [(? & _ & _ & ->)|(b & Hb & Hd)]);
      [done|].
    apply decide_fresh_ok in Hd as (a & _ & _ & _ & _ & _ & _ & ->). by eapply find_complete.
  - apply res_bind_ok in Hq as (? & _ & Hq). by apply res_bind_ok in Hq as ([? ?] & _ & [= _ <-]).
  - apply res_bind_ok in Hq as (? & _ & Hq). by apply res_bind_ok in Hq as ([? ?] & _ & [= _ <-]).
  - by rewrite (os_records _ _ Ho).
Qed.

Lemma decision_scope_prefix p id : startswith "approval:" (decision_scope p id) = true.
Proof. reflexivity. Qed.

(** A decision request is answered once: a later request of the same principal
for the same approval with the same idempotency key succeeds only with the same
content, returns the first answer and changes nothing. *)
Theorem decide_idempotent p i id body body' now now' v v' d d1 d2 d3 :
  decide p i id body now d = Ok (v, d1) → rtc approval_step d1 d2 →
  ApprovalDecisionRequest.idempotency_key body' = ApprovalDecisionRequest.idempotency_key body →
  decide p i id body' now' d2 = Ok (v', d3) →
  sha256_digest (model_dump body') = sha256_digest (model_dump body) ∧ v' = v ∧ d3 = d2.
Proof.
  intros Hd Hs Hkey Hd'.
  assert (∃ r, find (record_is (decision_scope p id) (ApprovalDecisionRequest.idempotency_key body))
                 (records d1) = Some r
    ∧ IdempotencyRecordModel.request_digest r = sha256_digest (model_dump body)
    ∧ approval_validate (default JNull (IdempotencyRecordModel.response_json r)) = Some v)
    as (r & Hr & Hdig & Hresp).
  { apply decide_ok in Hd as (run & approvals & j & _ & _ & _ & _ & [(r & Hb & Hv & ->)|(b & Hb & Hd)]).
    - exists r. unfold begin_record in Hb. destruct (find _ _) as [r'|]; [|done].
      destruct (String.eqb_spec (IdempotencyRecordModel.request_digest r')
                  (sha256_digest (model_dump body))) as [Heq|]; [|done].
      by injection Hb as ->.
    - apply decide_fresh_ok in Hd as (a & Hv & _ & _ & Hvw & _ & _ & ->). eexists.
      split; [by eapply find_completed|]. split; [done|]. cbn. apply validate_dump. subst v.
      apply (validate_valid _ _ Hv). }
  assert (find (record_is (decision_scope p id) (ApprovalDecisionRequest.idempotency_key body))
            (records d2) = Some r) as Hr2.
  { clear -Hr Hs. induction Hs as [|x y z Hxy _ IH]; [done|]. apply IH.
    by eapply record_kept. }
  apply decide_ok in Hd' as (run & approvals & j & _ & _ & _ & _ & Hcase).
  unfold begin_record in Hcase. rewrite Hkey, Hr2 in Hcase.
  destruct (String.eqb_spec (IdempotencyRecordModel.request_digest r)
              (sha256_digest (model_dump body'))) as [Heq|];
    [|by destruct Hcase as [(? & ? & _)|(? & ? & _)]].
  destruct Hcase as [(r' & [= <-] & Hv' & ->)|(? & ? & _)]; [|done]. split_and!; congruence.
Qed.

(** ** Expiry *)

(** The log has the request of [a]: the first event with its identifier agrees with it, and
the digest is that of the parameters. *)
Record request_logged (a : ApprovalView.t) (d : db) : Prop := {
  rl_digest : sha256_digest (JObj (ApprovalView.parameters a)) = ApprovalView.request_digest a;
  rl_event : ∃ e, request_event a d = Some e
    ∧ ∀ key value, (key, value) ∈
        [("request_digest", JStr (ApprovalView.request_digest a));
         ("parameters", JObj (ApprovalView.parameters a));
         ("workflow_node_id", JStr (ApprovalView.node_id a));
         ("action_type", JStr (ApprovalView.action_type a));
         ("created_at", JStr (isoformat (ApprovalView.created_at a)));
         ("expires_at", json_opt isoformat (ApprovalView.expires_at a))] →
      field_is key value (stored_data e) = true;
}.

Lemma validate_logged a d : validate_request_event a d = true ↔ request_logged a d.
Proof.
  unfold validate_request_event. split.
  - destruct (request_event a d) as [e|] eqn:He; [|done]. unfold request_matches.
    rewrite !andb_true_iff. intros ((((((Ha & Hdig) & Hb) & Hc) & Hf) & Hg) & Hh).
    split; [by apply String.eqb_eq|]. exists e. split; [done|].
    intros key value Hin. repeat (apply elem_of_cons in Hin as [Hin|Hin]; [by simplify_eq|]).
    by apply elem_of_nil in Hin.
  - intros [Hd (e & -> & Hall)]. unfold request_matches. rewrite !andb_true_iff.
    split_and!; [|by apply String.eqb_eq|..]; apply Hall; set_solver.
Qed.

(** The approval that a run waits for, as it is stored. *)
Definition awaits (run : RunModel.t) (key : string) (j : json) : Prop :=
  waited_key run = Some key ∧ entry key run = Some j ∧ j ≠ JNull.

(** What one tick makes of a waiting run. *)
Inductive expiry_outcome (clock : expiry_clock) (d : db) (run : RunModel.t) : RunModel.t → Prop :=
  | xo_idle : (∀ key j, ¬ awaits run key j) → expiry_outcome clock d run run
  | xo_corrupt key j run' :
      awaits run key j →
      (∀ a, approval_validate j = Some a → ¬ request_logged a d) →
      RunModel.status run' = RunStatus.BLOCKED →
      RunModel.runtime_json run' = RunModel.runtime_json run →
      expiry_outcome clock d run run'
  | xo_waiting key j a :
      awaits run key j → approval_validate j = Some a → request_logged a d →
      (ApprovalView.decision a = ApprovalDecision.pending →
       ∀ t, ApprovalView.expires_at a = Some t → x_now clock < t) →
      expiry_outcome clock d run run
  | xo_overdue key j a t run' :
      awaits run key j → approval_validate j = Some a → request_logged a d →
      ApprovalView.decision a = ApprovalDecision.pending →
      ApprovalView.expires_at a = Some t → t ≤ x_now clock →
      RunModel.status run' = RunStatus.QUEUED →
      RunModel.claimable_at run' = x_claimable clock →
      entry (uuid_str (ApprovalView.id a)) run'
        = Some (approval_dump (ApprovalView.decided ApprovalDecision.expired
                                 (ApprovalView.actor_id a) (x_decided clock) a)) →
      expiry_outcome clock d run run'.

(** The stored approvals of a run that waits for one are no dictionary. *)
Definition unreadable (run : RunModel.t) : Prop :=
  is_Some (waited_key run) ∧ ∃ e, approvals_of run = Err e.

(** Events of this tick do not change which request an approval has. *)
Lemma validate_more a d d' l :
  events d' = events d ++ l → (∀ e, e ∈ l → Event.name e ≠ "approval.requested") →
  validate_request_event a d' = validate_request_event a d.
Proof.
  intros He Hl. unfold validate_request_event, request_event. rewrite He.
  destruct (find _ (events d)) as [e|] eqn:Hf; [by rewrite (find_some_app _ _ _ _ Hf)|].
  rewrite find_none_app by done. destruct (find _ l) as [e|] eqn:Hf'; [|done].
  apply find_some in Hf' as [Hin%list_elem_of_In Hp]. apply andb_true_iff in Hp as [Hp _].
  apply andb_true_iff in Hp as [_ Hp%String.eqb_eq]. by apply Hl in Hin.
Qed.

Definition log_extends (d d' : db) : Prop :=
  ∃ l, events d' = events d ++ l ∧ ∀ e, e ∈ l → Event.name e ≠ "approval.requested".

Lemma log_extends_refl d : log_extends d d.
Proof. exists []. split; [by rewrite app_nil_r|]. by intros e ?%elem_of_nil. Qed.
Lemma log_extends_trans d1 d2 d3 : log_extends d1 d2 → log_extends d2 d3 → log_extends d1 d3.
Proof.
  intros (l & Hl & Hn) (k & Hk & Hm). exists (l ++ k). split; [by rewrite Hk, Hl, app_assoc|].
  intros e [He|He]%elem_of_app; auto.
Qed.

Lemma overdue_spec now a :
  ApprovalView.overdue now a = true ↔ ∃ t, ApprovalView.expires_at a = Some t ∧ t ≤ now.
Proof.
  unfold ApprovalView.overdue. destruct (ApprovalView.expires_at a) as [t|]; [|naive_solver].
  rewrite Z.leb_le. naive_solver.
Qed.

(** A run that is written with its event. *)
Lemma written_run run r' name data d :
  RunModel.id r' = RunModel.id run → name ≠ "approval.requested" →
  let d' := put_run r' (event r' name data d) in
  runs d' !! RunModel.id run = Some r' ∧ log_extends d d'
  ∧ ∀ i, i ≠ RunModel.id run → runs d' !! i = runs d !! i.
Proof.
  intros Hid Hname. simpl. split_and!.
  - by rewrite Hid, lookup_insert_eq.
  - eexists. split; [done|]. by intros e ->%list_elem_of_singleton.
  - intros i Hi. by rewrite lookup_insert_ne by congruence.
Qed.

Lemma expire_run_outcome clock run d :
  runs d !! RunModel.id run = Some run →
  match expire_run clock run d with
  | Ok d' => ¬ unreadable run
      ∧ (∃ run', runs d' !! RunModel.id run = Some run' ∧ expiry_outcome clock d run run')
      ∧ log_extends d d' ∧ ∀ i, i ≠ RunModel.id run → runs d' !! i = runs d !! i
  | Err _ => unreadable run
  end.
Proof.
  intros Hr.
  assert (expiry_outcome clock d run run →
    (∃ run', runs d !! RunModel.id run = Some run' ∧ expiry_outcome clock d run run')
      ∧ log_extends d d ∧ ∀ i, i ≠ RunModel.id run → runs d !! i = runs d !! i) as Hsame
    by (intros Ho; split; [by exists run|by split; [apply log_extends_refl|]]).
  unfold expire_run, unreadable. destruct (waited_key run) as [key|] eqn:Hw.
  2:{ split; [by intros [[? ?] _]|]. apply Hsame, xo_idle. intros key j (Hk & _). congruence. }
  destruct (approvals_of run) as [o|e] eqn:Ho; cbn [mbind option_bind res_bind]; [|by split; eexists].
  pose proof (approvals_of_in _ _ Ho) as Hin.
  assert (¬ (is_Some (Some key) ∧ ∃ e, @Ok own_error _ o = Err e)) as Hread by (by intros [_ [? ?]]).
  destruct (not_none (dict_get key o)) as [j|] eqn:Hj.
  2:{ split; [done|]. apply Hsame, xo_idle. intros k j (Hk & He & Hn).
      assert (k = key) as -> by congruence.
      unfold entry in He. rewrite Hin in He. rewrite He in Hj. by destruct j. }
  assert (awaits run key j) as Hwf.
  { split_and!; [done| |by intros ->; destruct (dict_get key o) as [[]|]].
    unfold entry. rewrite Hin. by apply not_none_Some. }
  assert (∀ d', d' = block_run run d → (∀ a, approval_validate j = Some a → ¬ request_logged a d) →
    (∃ run', runs d' !! RunModel.id run = Some run' ∧ expiry_outcome clock d run run')
      ∧ log_extends d d' ∧ ∀ i, i ≠ RunModel.id run → runs d' !! i = runs d !! i) as Hblock.
  { intros d' -> Hbad.
    destruct (written_run run (RunModel.bump (RunModel.with_status RunStatus.BLOCKED run))
      "run.blocked" [("reason", JStr "approval.invalid")] d) as (Hrun & Hlog & Hoth); [done..|].
    split; [|done]. eexists. split; [exact Hrun|]. by eapply xo_corrupt. }
  destruct (approval_validate j) as [a|] eqn:Hv.
  2:{ split; [done|]. by apply Hblock. }
  pose proof (validate_logged a d) as Hlogged.
  destruct (validate_request_event a d) eqn:Hval; cbn [negb].
  2:{ split; [done|]. apply Hblock; [done|]. intros ? [= <-]. rewrite <-Hlogged. done. }
  assert (request_logged a d) as Hreq by (by apply Hlogged).
  destruct (bool_decide _ && _) eqn:Hover; (split; [done|]).
  - apply andb_true_iff in Hover as [Hp%bool_decide_eq_true (t & Ht & Hle)%overdue_spec].
    unfold expire_one. match goal with |- context [put_run ?r' (event _ ?n ?data d)] =>
      destruct (written_run run r' n data d) as (Hrun & Hlog & Hoth); [done..|] end.
    split; [|done]. eexists. split; [exact Hrun|]. eapply xo_overdue; try done.
    by rewrite entry_queued, entry_approvals, dict_get_set_eq.
  - apply Hsame. eapply xo_waiting; [done..|]. intros Hp t Ht.
    apply andb_false_iff in Hover as [Hd%bool_decide_eq_false|Hd]; [done|].
    destruct (Z.lt_ge_cases (x_now clock) t); [done|].
    assert (ApprovalView.overdue (x_now clock) a = true); [|congruence].
    apply overdue_spec. by exists t.
Qed.

Lemma outcome_more clock d d' run run' :
  log_extends d d' → expiry_outcome clock d' run run' → expiry_outcome clock d run run'.
Proof.
  intros (l & Hl & Hn).
  assert (∀ a, request_logged a d' ↔ request_logged a d) as Heq
    by (intros a; by rewrite <-!validate_logged, (validate_more _ d d' l)).
  destruct 1 as [|key j run' Hw Hbad| | ].
  - by apply xo_idle.
  - eapply xo_corrupt; [done| |done..]. intros a Ha. rewrite <-Heq. by apply Hbad.
  - eapply xo_waiting; try done. by apply Heq.
  - eapply xo_overdue; try done. by apply Heq.
Qed.

Lemma expire_fold_outcome clock l d :
  NoDup (RunModel.id <$> l) →
  (∀ r, r ∈ l → runs d !! RunModel.id r = Some r) →
  match foldM (λ d run, expire_run (clock (RunModel.id run)) run d) d l with
  | Ok d' => (∀ r, r ∈ l → ¬ unreadable r ∧ ∃ r', runs d' !! RunModel.id r = Some r'
                           ∧ expiry_outcome (clock (RunModel.id r)) d r r')
    ∧ (∀ i, i ∉ RunModel.id <$> l → runs d' !! i = runs d !! i) ∧ log_extends d d'
  | Err _ => ∃ r, r ∈ l ∧ unreadable r
  end.
Proof.
  revert d. induction l as [|r l IH]; intros d Hnd Hl.
  { split_and!; [by intros r ?%elem_of_nil|done|apply log_extends_refl]. }
  apply NoDup_cons in Hnd as [Hnin Hnd]. cbn [foldM].
  pose proof (expire_run_outcome (clock (RunModel.id r)) r d (Hl r ltac:(by left))) as Hout.
  destruct (expire_run _ r d) as [d1|e]; cbn [mbind option_bind res_bind].
  2:{ exists r. split; [by left|done]. }
  destruct Hout as (Hread & (r1 & Hr1 & Hout) & Hlog & Hoth).
  specialize (IH d1 Hnd).
  destruct (foldM _ d1 l) as [d'|e].
  - destruct IH as (Hall & Hrest & Hlog').
    { intros x Hx. rewrite Hoth; [apply Hl; by right|]. intros Heq. apply Hnin. rewrite <-Heq.
      by apply list_elem_of_fmap_2. }
    split_and!; [| |by eapply log_extends_trans].
    + intros x [->|Hx]%elem_of_cons.
      * split; [done|]. exists r1. split; [|done]. by rewrite Hrest.
      * destruct (Hall x Hx) as (Hxr & x' & Hx' & Hox). split; [done|]. exists x'. split; [done|].
        by eapply outcome_more.
    + intros i [Hi Hi']%not_elem_of_cons. by rewrite Hrest, Hoth.
  - destruct IH as (x & Hx & Hu); [|exists x; split; [by right|done]].
    intros x Hx. rewrite Hoth; [apply Hl; by right|]. intros Heq. apply Hnin. rewrite <-Heq.
    by apply list_elem_of_fmap_2.
Qed.

(** C6. One tick of approval expiry treats the waiting runs one by one: a run that
awaits no approval or whose approval has not expired is left alone, one whose
request event or stored approval is corrupt is blocked, one whose approval is
overdue is expired, and what one of these runs holds changes nothing for another.
The tick fails as a whole exactly when some waiting run awaits an approval and its
approvals value cannot be made a dictionary: that read stands before the handler, so
one such run stops the expiry of every run. *)
Theorem expiry_isolated clock d :
  keyed d → migrated d = true →
  match expire_approvals clock d with
  | Ok d' => (∀ r, r ∈ waiting_runs d → ¬ unreadable r ∧ ∃ r', runs d' !! RunModel.id r = Some r'
                                        ∧ expiry_outcome (clock (RunModel.id r)) d r r')
    ∧ ∀ i, i ∉ RunModel.id <$> waiting_runs d → runs d' !! i = runs d !! i
  | Err _ => ∃ r, r ∈ waiting_runs d ∧ unreadable r
  end.
Proof.
  intros Hk Hm. unfold expire_approvals, lock_events. rewrite Hm. cbn [res_bind].
  pose proof (expire_fold_outcome clock (waiting_runs d) d (waiting_distinct d Hk)
    (λ r Hr, elem_of_waiting_runs d r Hk Hr)) as Hf. destruct (foldM _ _ _); [|done].
  by destruct Hf as (? & ? & _).
Qed.

End system.
