(* ===== verification/RegistryService.v ===== *)
(** * The registry service

[api/app/jarvis_api/registry/service.py]: configurations with immutable, numbered revisions.
A write checks the input for credentials and the references of the specification, replays a
repeated request, and appends a revision when the client has seen the current one; secrets
and deployment locators are kept apart from the public payload.  [validate] records a report.

[registry_sound] is the invariant of the tables, [no_lost_update] says that of two writes
that saw the same version one is refused, [references_active] what an accepted revision may
refer to ([mentions] are all its references, [unchecked] those that are not looked up) and [secret_hidden] that a response does not depend on the secret.

Every transaction locks the event counter first, so operations are steps of one system.
What the worker tables say of a worker is the parameter [worker_view] of the state; the
listings, which page through the tables, are left out. *)
From S2P Require Import Prelude Enums PyJson PyDecimal Failures Verification Registry WorkflowSpec Database.
From S2P Require Import Circuit Accounting Approvals Regex Redaction.
From stdpp Require Import gmap.
From Stdlib Require Import Ascii.
Local Open Scope Z_scope.
Local Open Scope stdpp_scope.

(** ** Rows *)

(** The unique key is ([kind], [key]). *)
Module ConfigurationModel.
Record t := {
  id : uuid;
  kind : RegistryKind.t;
  key : string;
  display_name : string;
  description : string;
  enabled : bool;
  current_revision_id : option uuid;
  archived_at : option Z;
  version : Z;
  created_at : Z;
  updated_at : Z;
}.
End ConfigurationModel.

(** The unique key is ([configuration_id], [revision]). *)
Module ConfigurationRevisionModel.
Record t := {
  id : uuid;
  configuration_id : uuid;
  revision : Z;
  schema_version : string;
  spec_json : jobj;
  content_hash : string;
  created_by : option uuid;
  created_at : Z;
}.
End ConfigurationRevisionModel.

Module ConfigurationPrivateRefModel.
Record t := { secret_ref : option string; deployment_ref : option string }.
End ConfigurationPrivateRefModel.

(** What the worker tables say of a revision: its health report and runtime facts. *)
Record worker_reading := { wr_health : option HealthStatus.t; wr_runtime : json }.

Record registry := {
  counter : bool;
  configurations : gmap uuid ConfigurationModel.t;
  revisions : gmap uuid ConfigurationRevisionModel.t;
  private_refs : gmap uuid ConfigurationPrivateRefModel.t;
  health : gmap uuid ProviderHealthModel.t;
  worker_view : uuid → worker_reading;
  published : gmap uuid (option Z);
  records : list IdempotencyRecordModel.t;
  events : list Event.t;
}.
Definition set_records (l : list IdempotencyRecordModel.t) (d : registry) : registry :=
  Build_registry (counter d) (configurations d) (revisions d) (private_refs d) (health d)
    (worker_view d) (published d) l (events d).
Definition set_events (l : list Event.t) (d : registry) : registry :=
  Build_registry (counter d) (configurations d) (revisions d) (private_refs d) (health d)
    (worker_view d) (published d) (records d) l.
Definition set_health (h : gmap uuid ProviderHealthModel.t) (d : registry) : registry :=
  Build_registry (counter d) (configurations d) (revisions d) (private_refs d) h
    (worker_view d) (published d) (records d) (events d).

(** An [ApiProblemError] with its status and code, or any other exception. *)
Inductive registry_error :=
  | Problem (status : Z) (code : string)
  | ServerError (text : string).
Definition _problem (status : Z) (code : string) : registry_error :=
  Problem status ("registry." +:+ code).

(** ** Requests and answers *)

Module RegistryWrite.
Record t := {
  key : string;
  display_name : string;
  description : string;
  enabled : bool;
  archived : bool;
  expected_version : Z;
  idempotency_key : string;
  spec : RegistrySpec;
  secret_ref : option string;
  deployment_ref : option string;
  clear_secret : bool;
}.
Definition with_refs (secret deployment : option string) (b : t) : t :=
  Build_t (key b) (display_name b) (description b) (enabled b) (archived b) (expected_version b)
    (idempotency_key b) (spec b) secret deployment (clear_secret b).
End RegistryWrite.

Module ValidationReport.
Record t := {
  valid : bool;
  health : HealthStatus.t;
  issues : list string;
  network_checked : bool;
  demo : bool;
}.
End ValidationReport.

(** [RegistryRecord.model_validate] and [ValidationReport.model_validate] of a stored response *)
Class RecordModel := record_validate : json → option RegistryRecord.t.
Class ReportModel := report_validate : json → option ValidationReport.t.

(** ** [_safe_strings] *)

(** [RecursiveRedactor().redact_text(value)[1]] is not empty. *)
Definition unsafe_text (s : string) : bool := redacts_text (TextRedactor := recursive_text_redactor) s.
(** [RecursiveRedactor().redact({key: None}).count] *)
Definition unsafe_key (key : string) : bool :=
  negb (Z.eqb (count (redact [] (JObj [(key, JNull)])).2) 0).

Fixpoint _safe_strings (value : json) : bool :=
  match value with
  | JStr s => negb (unsafe_text s)
  | JArr l => forallb _safe_strings l
  | JObj kvs =>
      forallb (λ kv, (bool_decide (kv.1 = "clear_secret") || negb (unsafe_key kv.1))
                     && negb (unsafe_text kv.1) && _safe_strings kv.2) kvs
  | _ => true
  end.

(** [body.model_dump(mode="json", exclude={"secret_ref", "deployment_ref"})] *)
Definition public_fields (j : json) : json :=
  match j with
  | JObj o => JObj (List.filter (λ kv, negb (bool_decide (kv.1 ∈ ["secret_ref"; "deployment_ref"]))) o)
  | j => j
  end.

(** [bool(text)] of a text that may be missing *)
Definition present (o : option string) : bool :=
  match o with Some s => negb (bool_decide (s = "")) | None => false end.
(** [a or b] *)
Definition or_text (a b : option string) : option string := if present a then a else b.

(** [r"(?:[/\\]|\b\d{1,3}(?:\.\d{1,3}){3}\b|[a-z0-9-]+\.[a-z]{2,}\b|@|:)"] with [re.I] *)
Definition one_to_three : regex := Seq (Class is_digit) (opt (Seq (Class is_digit) (opt (Class is_digit)))).
Definition address_part : regex := Seq (lit ".") one_to_three.
Definition host_char (c : ascii) : bool := is_alnum c || is_oneof [45]%nat c.
Definition host_pattern : regex := one_of
  [Class (is_oneof [47; 92]%nat);
   seq_of [WordBoundary; one_to_three; address_part; address_part; address_part; WordBoundary];
   seq_of [Regex.plus host_char; lit "."; at_least 2 letter; WordBoundary];
   lit "@"; lit ":"].

Section service.
Context `{PyRuntime} `{RegistrySpecModel} `{ModelDump RegistrySpec} `{ModelDump RegistryWrite.t}
  `{RecordModel} `{ModelDump RegistryRecord.t} `{ReportModel} `{ModelDump ValidationReport.t}.

(** ** Reading revisions *)

Definition envelope_keys : list string := ["spec"; "display_name"; "description"; "enabled"; "archived"].
Definition same_keys (o : jobj) : bool :=
  forallb (λ k, bool_decide (k ∈ envelope_keys)) o.*1
  && forallb (λ k, bool_decide (k ∈ o.*1)) envelope_keys.

Definition _typed_spec (r : ConfigurationRevisionModel.t) : res registry_error RegistrySpec :=
  let envelope := ConfigurationRevisionModel.spec_json r in
  if negb (same_keys envelope)
     || negb (String.eqb (ConfigurationRevisionModel.schema_version r) "1.0")
  then Err (_problem 422 "unsupported_revision")
  else match registry_spec_validate (dict_get "spec" envelope) with
       | Some spec => Ok spec
       | None => Err (_problem 422 "unsupported_revision")
       end.

(** The fields of an envelope have the types [write] gives them. *)
Definition envelope_text (k : string) (o : jobj) : res registry_error string :=
  match dict_get k o with Some (JStr s) => Ok s | _ => Err (ServerError "ValidationError") end.
Definition envelope_bool (k : string) (o : jobj) : res registry_error bool :=
  match dict_get k o with Some (JBool b) => Ok b | _ => Err (ServerError "ValidationError") end.

Definition secret_of (o : option ConfigurationPrivateRefModel.t) : option string :=
  r ← o; ConfigurationPrivateRefModel.secret_ref r.
Definition deployment_of (o : option ConfigurationPrivateRefModel.t) : option string :=
  r ← o; ConfigurationPrivateRefModel.deployment_ref r.
Definition secret_status (spec : RegistrySpec) (p : option ConfigurationPrivateRefModel.t)
    : SecretStatus.t :=
  match spec with
  | SProvider s =>
      if present (secret_of p) then SecretStatus.configured
      else if bool_decide (ProviderSpec.provider_kind s = ProviderKind.openai)
      then SecretStatus.missing else SecretStatus.not_required
  | _ => SecretStatus.not_required
  end.
Definition is_worker (spec : RegistrySpec) : bool := match spec with SWorker _ => true | _ => false end.

Definition _record (identity : ConfigurationModel.t) (r : ConfigurationRevisionModel.t) (d : registry)
    : res registry_error RegistryRecord.t :=
  let envelope := ConfigurationRevisionModel.spec_json r in
  let i := ConfigurationRevisionModel.id r in
  spec ← _typed_spec r;
  let row := health d !! i in
  let worker := if is_worker spec then Some (worker_view d i) else None in
  let status := secret_status spec (private_refs d !! i) in
  display_name ← envelope_text "display_name" envelope;
  description ← envelope_text "description" envelope;
  enabled ← envelope_bool "enabled" envelope;
  archived ← envelope_bool "archived" envelope;
  Ok {|
    RegistryRecord.id := ConfigurationModel.id identity;
    RegistryRecord.revision_id := i;
    RegistryRecord.revision := ConfigurationRevisionModel.revision r;
    RegistryRecord.key := ConfigurationModel.key identity;
    RegistryRecord.display_name := display_name;
    RegistryRecord.description := description;
    RegistryRecord.enabled := enabled;
    RegistryRecord.archived := archived;
    RegistryRecord.spec := spec;
    RegistryRecord.content_hash := ConfigurationRevisionModel.content_hash r;
    RegistryRecord.secret_status := status;
    RegistryRecord.health :=
      match worker ≫= wr_health with
      | Some h => h
      | None => match row with Some h => ProviderHealthModel.status h | None => HealthStatus.unknown end
      end;
    RegistryRecord.circuit_state :=
      match row with Some h => ProviderHealthModel.circuit_state h | None => CircuitState.closed end;
    RegistryRecord.others :=
      [("version", JInt (ConfigurationRevisionModel.revision r));
       ("created_at", JInt (ConfigurationModel.created_at identity));
       ("updated_at", JInt (ConfigurationRevisionModel.created_at r));
       ("created_by", json_opt uuid_str (ConfigurationRevisionModel.created_by r));
       ("secret_label", if bool_decide (status = SecretStatus.configured)
                        then JStr "Server-managed credential" else JNull);
       ("worker_runtime", match worker with Some w => wr_runtime w | None => JNull end)];
  |}.

(** The revision, its configuration, and whether that has the kind. *)
Definition find_revision (i : uuid) (kind : option RegistryKind.t) (d : registry)
    : res registry_error (ConfigurationModel.t * ConfigurationRevisionModel.t) :=
  match revisions d !! i with
  | None => Err (_problem 422 "invalid_reference")
  | Some r =>
      match configurations d !! ConfigurationRevisionModel.configuration_id r with
      | None => Err (_problem 422 "invalid_reference")
      | Some identity =>
          if opt_all (λ k, bool_decide (ConfigurationModel.kind identity = k)) kind
          then Ok (identity, r) else Err (_problem 422 "invalid_reference")
      end
  end.

(** The configuration is disabled or archived. *)
Definition retired (identity : ConfigurationModel.t) : bool :=
  negb (ConfigurationModel.enabled identity)
  || bool_decide (ConfigurationModel.archived_at identity ≠ None).

Definition _reference_spec (i : uuid) (kind : RegistryKind.t) (active : bool) (d : registry)
    : res registry_error RegistrySpec :=
  found ← find_revision i (Some kind) d;
  spec ← _typed_spec found.2;
  let field k := truthy (default JNull (dict_get k (ConfigurationRevisionModel.spec_json found.2))) in
  if active && (negb (field "enabled") || field "archived" || retired found.1)
  then Err (_problem 422 "inactive_reference") else Ok spec.

Definition _revision (i : uuid) (kind : option RegistryKind.t) (active : bool) (d : registry)
    : res registry_error RegistryRecord.t :=
  found ← find_revision i kind d;
  result ← _record found.1 found.2 d;
  if active && (negb (RegistryRecord.enabled result) || RegistryRecord.archived result || retired found.1)
  then Err (_problem 422 "inactive_reference") else Ok result.

(** [get] *)
Definition get (kind : RegistryKind.t) (i : uuid) (d : registry) : res registry_error RegistryRecord.t :=
  match configurations d !! i with
  | Some row =>
      if bool_decide (ConfigurationModel.kind row = kind)
      then match ConfigurationModel.current_revision_id row with
           | Some r => _revision r None false d
           | None => Err (_problem 503 "unavailable")
           end
      else Err (_problem 404 "not_found")
  | None => Err (_problem 404 "not_found")
  end.

(** ** [_compatible] *)

Definition assertion : registry_error := ServerError "AssertionError".
Definition reference (i : uuid) (kind : RegistryKind.t) (d : registry)
    : res registry_error RegistrySpec :=
  result ← _revision i (Some kind) true d; Ok (RegistryRecord.spec result).
Definition provider_at (i : uuid) (d : registry) : res registry_error ProviderSpec.t :=
  spec ← reference i RegistryKind.provider_connection d;
  match spec with SProvider p => Ok p | _ => Err assertion end.
Definition each {A} (f : A → res registry_error unit) (l : list A) : res registry_error unit :=
  foldM (λ _ x, f x) tt l.
Definition require (b : bool) (code : string) : res registry_error unit :=
  raise_if (negb b) (_problem 422 code).

Definition parameter_names (k : ProviderKind.t) : list string :=
  match k with
  | ProviderKind.openai => ["temperature"; "top_p"; "reasoning_effort"]
  | ProviderKind.ollama => ["temperature"; "top_p"; "seed"; "keep_alive"]
  | ProviderKind.demo => ["temperature"; "top_p"; "reasoning_effort"; "seed"; "keep_alive"]
  end.
Definition subset_of (l m : list string) : bool := forallb (λ x, bool_decide (x ∈ m)) l.

Definition compatible_profile (s : ModelProfileSpec.t) (d : registry) : res registry_error unit :=
  provider ← provider_at (ModelProfileSpec.provider_revision_id s) d;
  _ ← require (subset_of (ModelProfileSpec.parameters s).*1
                 (parameter_names (ProviderSpec.provider_kind provider))) "incompatible_parameters";
  require (bool_decide (ProviderSpec.locality provider = ModelProfileSpec.locality s))
    "incompatible_locality".

(** The two modes agree: [(kind == "demo") == (mode == "demo")] *)
Definition same_mode (demo : bool) (m : TeamMode.t) : bool :=
  Bool.eqb demo (bool_decide (m = TeamMode.demo)).
Definition demo_provider (p : ProviderSpec.t) : bool :=
  bool_decide (ProviderSpec.provider_kind p = ProviderKind.demo).
Definition demo_worker (w : WorkerSpec.t) : bool :=
  bool_decide (WorkerSpec.adapter_kind w = AdapterKind.demo).

Definition compatible_role (d : registry) (ir : uuid * RoleResponsibility.t) : res registry_error unit :=
  role ← reference ir.1 RegistryKind.agent_role d;
  require (match role with
           | SAgentRole r => bool_decide (AgentRoleSpec.responsibility r = ir.2)
           | _ => false
           end) "incompatible_role".

Definition team_profile (mode : TeamMode.t) (d : registry) (ip : uuid * string) : res registry_error unit :=
  profile ← reference ip.1 RegistryKind.model_profile d;
  match profile with
  | SModelProfile p =>
      _ ← require (bool_decide (ip.2 ∈ ModelProfileSpec.purposes p) && ModelProfileSpec.structured_json p
                   && Z.leb 16384 (ModelProfileSpec.context_limit p)) "incompatible_profile";
      _ ← compatible_profile p d;
      provider ← provider_at (ModelProfileSpec.provider_revision_id p) d;
      require (same_mode (demo_provider provider) mode) "mode_mismatch"
  | _ => Err (_problem 422 "incompatible_profile")
  end.

Definition team_member (d : registry) (m : TeamMemberSpec.t) : res registry_error unit :=
  role ← reference (TeamMemberSpec.role_revision_id m) RegistryKind.agent_role d;
  _ ← require (match role with SAgentRole _ => true | _ => false end) "incompatible_role";
  _ ← reference (TeamMemberSpec.model_route_revision_id m) RegistryKind.route_policy d;
  _ ← reference (TeamMemberSpec.permission_policy_revision_id m) RegistryKind.permission_policy d;
  each (λ i, _ ← reference i RegistryKind.worker_pool d; Ok tt) (TeamMemberSpec.worker_pool_revision_ids m).

Definition compatible_team (s : TeamTemplateSpec.t) (d : registry) : res registry_error unit :=
  _ ← each (compatible_role d)
        [(TeamTemplateSpec.manager_role_revision_id s, RoleResponsibility.manager);
         (TeamTemplateSpec.developer_role_revision_id s, RoleResponsibility.developer);
         (TeamTemplateSpec.reviewer_role_revision_id s, RoleResponsibility.reviewer)];
  _ ← each (team_profile (TeamTemplateSpec.mode s) d)
        [(TeamTemplateSpec.manager_profile_revision_id s, "mission_manager");
         (TeamTemplateSpec.reviewer_profile_revision_id s, "reviewer")];
  worker ← reference (TeamTemplateSpec.developer_worker_revision_id s) RegistryKind.worker d;
  _ ← match worker with
      | SWorker w => require (same_mode (demo_worker w) (TeamTemplateSpec.mode s)) "mode_mismatch"
      | _ => Err (_problem 422 "incompatible_worker")
      end;
  _ ← each (team_member d) (TeamTemplateSpec.members s);
  require (match published d !! TeamTemplateSpec.workflow_version_id s with
           | Some (Some _) => true
           | _ => false
           end) "incompatible_workflow".

Definition pool_worker (required : list string) (d : registry) (i : uuid) : res registry_error unit :=
  worker ← reference i RegistryKind.worker d;
  match worker with
  | SWorker w => require (subset_of required (WorkerSpec.capabilities w)) "incompatible_worker"
  | _ => Err assertion
  end.

(** The capabilities of a profile with those its switches stand for. *)
Definition capabilities_of (p : ModelProfileSpec.t) : list string :=
  ModelProfileSpec.capabilities p
  ++ (if ModelProfileSpec.structured_json p then ["structured_json"] else [])
  ++ (if ModelProfileSpec.tool_calls p then ["tool_calls"] else [])
  ++ (if ModelProfileSpec.streaming p then ["streaming"] else []).
Definition profile_at (i : uuid) (d : registry) : res registry_error ModelProfileSpec.t :=
  profile ← reference i RegistryKind.model_profile d;
  match profile with SModelProfile p => Ok p | _ => Err assertion end.

Definition route_candidate (s : RoutePolicySpec.t) (d : registry) (c : RouteCandidate.t)
    : res registry_error unit :=
  p ← profile_at (RouteCandidate.profile_revision_id c) d;
  _ ← compatible_profile p d;
  _ ← require (subset_of (RoutePolicySpec.required_capabilities s) (capabilities_of p)
               && subset_of (RoutePolicySpec.purposes s) (ModelProfileSpec.purposes p))
        "incompatible_profile";
  _ ← provider_at (ModelProfileSpec.provider_revision_id p) d;
  require (negb (bool_decide (ModelProfileSpec.locality p = Locality.remote)
                 && negb (RoutePolicySpec.allow_remote s))) "incompatible_egress".

(** The profile of a worker: [_compatible(session, profile.spec)]; a revision of a model profile
has such a specification, since [write] checks the kind. *)
Definition worker_profile (d : registry) (i : uuid) : res registry_error unit :=
  profile ← reference i RegistryKind.model_profile d;
  match profile with SModelProfile p => compatible_profile p d | _ => Err assertion end.

Definition _compatible (allowed_endpoints : list string) (spec : RegistrySpec) (d : registry)
    : res registry_error unit :=
  match spec with
  | STeamTemplate s => compatible_team s d
  | SWorkerPool s => each (pool_worker (WorkerPoolSpec.required_capabilities s) d)
                       (WorkerPoolSpec.worker_revision_ids s)
  | SProvider s =>
      _ ← require (negb (ProviderSpec.has_url s)
                   || opt_all (λ u, bool_decide (u ∈ allowed_endpoints)) (ProviderSpec.base_url s))
            "endpoint_denied";
      match ProviderSpec.retry_policy_revision_id s with
      | Some i => _ ← reference i RegistryKind.retry_policy d; Ok tt
      | None => Ok tt
      end
  | SModelProfile s => compatible_profile s d
  | SWorker s => each (worker_profile d) (ModelBinding.allowed_profile_revision_ids (WorkerSpec.model_binding s))
  | SRoutePolicy s => each (route_candidate s d) (RoutePolicySpec.candidates s)
  | _ => Ok tt
  end.

(** ** [write] *)

Definition real_provider (s : RegistrySpec) : bool :=
  match s with SProvider p => negb (demo_provider p) | _ => false end.
Definition real_worker (s : RegistrySpec) : bool :=
  match s with SWorker w => negb (demo_worker w) | _ => false end.

(** The checks before the transaction. *)
Definition write_input (kind : RegistryKind.t) (b : RegistryWrite.t) : res registry_error unit :=
  let secret := RegistryWrite.secret_ref b in
  let deployment := RegistryWrite.deployment_ref b in
  _ ← require (bool_decide (spec_kind (RegistryWrite.spec b) = kind)) "kind_mismatch";
  _ ← require (_safe_strings (public_fields (model_dump b))) "unsafe_input";
  _ ← require (negb (present secret && negb (real_provider (RegistryWrite.spec b)))) "invalid_secret";
  _ ← require (negb (RegistryWrite.clear_secret b && present secret)) "invalid_secret";
  _ ← require (negb (present deployment && negb (real_worker (RegistryWrite.spec b)))) "invalid_deployment";
  require (forallb (λ o, match o with
                         | Some s => negb (present (Some s) && unsafe_text s)
                         | None => true
                         end) [secret; deployment]) "unsafe_input".

Definition write_scope (actor : uuid) (kind : RegistryKind.t) (i : option uuid) : string :=
  "registry:" +:+ uuid_str actor +:+ ":" +:+ RegistryKind.value kind +:+ ":"
  +:+ match i with Some i => uuid_str i | None => "create" end.

(** The identifiers of new rows and the clock reading. *)
Record write_readings := { wr_configuration : uuid; wr_revision : uuid; wr_now : Z }.

Definition same_identity (kind : RegistryKind.t) (key : string) (c : ConfigurationModel.t) : bool :=
  bool_decide (ConfigurationModel.kind c = kind) && String.eqb (ConfigurationModel.key c) key.
Definition new_configuration (t : write_readings) (kind : RegistryKind.t) (b : RegistryWrite.t)
    : ConfigurationModel.t := {|
  ConfigurationModel.id := wr_configuration t;
  ConfigurationModel.kind := kind;
  ConfigurationModel.key := RegistryWrite.key b;
  ConfigurationModel.display_name := "";
  ConfigurationModel.description := "";
  ConfigurationModel.enabled := true;
  ConfigurationModel.current_revision_id := None;
  ConfigurationModel.archived_at := None;
  ConfigurationModel.version := 0;
  ConfigurationModel.created_at := wr_now t;
  ConfigurationModel.updated_at := wr_now t;
|}.

(** The configuration to write, and the private locators of its current revision. *)
Definition write_target (t : write_readings) (kind : RegistryKind.t) (b : RegistryWrite.t)
    (i : option uuid) (d : registry)
    : res registry_error (ConfigurationModel.t * option ConfigurationPrivateRefModel.t) :=
  match i with
  | None =>
      if negb (Z.eqb (RegistryWrite.expected_version b) 0) then Err (_problem 409 "version_conflict")
      else if existsb (λ c, same_identity kind (RegistryWrite.key b) c.2) (map_to_list (configurations d))
      then Err (_problem 409 "duplicate_key")
      else if bool_decide (is_Some (configurations d !! wr_configuration t))
      then Err (ServerError "IntegrityError")
      else Ok (new_configuration t kind b, None)
  | Some i =>
      match configurations d !! i with
      | None => Err (_problem 404 "not_found")
      | Some c =>
          if negb (bool_decide (ConfigurationModel.kind c = kind)) then Err (_problem 404 "not_found")
          else if negb (String.eqb (RegistryWrite.key b) (ConfigurationModel.key c))
          then Err (_problem 422 "immutable_key")
          else if negb (Z.eqb (ConfigurationModel.version c) (RegistryWrite.expected_version b))
          then Err (_problem 409 "version_conflict")
          else Ok (c, r ← ConfigurationModel.current_revision_id c; private_refs d !! r)
      end
  end.

(** The locators of the new revision. *)
Definition new_secret (b : RegistryWrite.t) (previous : option ConfigurationPrivateRefModel.t)
    : option string :=
  if RegistryWrite.clear_secret b then None
  else or_text (RegistryWrite.secret_ref b) (secret_of previous).
Definition new_deployment (b : RegistryWrite.t) (previous : option ConfigurationPrivateRefModel.t)
    : option string :=
  match RegistryWrite.spec b with
  | SWorker w =>
      if demo_worker w then None else or_text (RegistryWrite.deployment_ref b) (deployment_of previous)
  | _ => or_text (RegistryWrite.deployment_ref b) (deployment_of previous)
  end.

Definition json_set (k : string) (v : json) (j : json) : json :=
  match j with JObj o => JObj (dict_set k v o) | j => j end.
Definition stored_spec (s : RegistrySpec) (deployment : option string) : json :=
  match s with
  | SWorker w =>
      let j := json_set "deployment_configured" (JBool (present deployment)) (model_dump s) in
      if search host_pattern (WorkerSpec.execution_host_label w)
      then json_set "execution_host_label" (JStr "Server-managed execution host") j else j
  | _ => model_dump s
  end.
Definition envelope_of (b : RegistryWrite.t) (deployment : option string) : jobj :=
  [("spec", stored_spec (RegistryWrite.spec b) deployment);
   ("display_name", JStr (RegistryWrite.display_name b));
   ("description", JStr (RegistryWrite.description b));
   ("enabled", JBool (RegistryWrite.enabled b)); ("archived", JBool (RegistryWrite.archived b))].

(** The configuration after the write, with its current revision. *)
Definition written_configuration (t : write_readings) (b : RegistryWrite.t) (c : ConfigurationModel.t)
    : ConfigurationModel.t := {|
  ConfigurationModel.id := ConfigurationModel.id c;
  ConfigurationModel.kind := ConfigurationModel.kind c;
  ConfigurationModel.key := ConfigurationModel.key c;
  ConfigurationModel.display_name := RegistryWrite.display_name b;
  ConfigurationModel.description := RegistryWrite.description b;
  ConfigurationModel.enabled := RegistryWrite.enabled b;
  ConfigurationModel.current_revision_id := Some (wr_revision t);
  ConfigurationModel.archived_at := if RegistryWrite.archived b then Some (wr_now t) else None;
  ConfigurationModel.version := ConfigurationModel.version c + 1;
  ConfigurationModel.created_at := ConfigurationModel.created_at c;
  ConfigurationModel.updated_at := wr_now t;
|}.
Definition new_revision (t : write_readings) (kind : RegistryKind.t) (actor : uuid) (envelope : jobj)
    (c : ConfigurationModel.t) : ConfigurationRevisionModel.t := {|
  ConfigurationRevisionModel.id := wr_revision t;
  ConfigurationRevisionModel.configuration_id := ConfigurationModel.id c;
  ConfigurationRevisionModel.revision := ConfigurationModel.version c;
  ConfigurationRevisionModel.schema_version := "1.0";
  ConfigurationRevisionModel.spec_json := envelope;
  ConfigurationRevisionModel.content_hash := sha256_digest (JObj
    [("kind", JStr (RegistryKind.value kind)); ("key", JStr (ConfigurationModel.key c));
     ("revision", JInt (ConfigurationModel.version c)); ("schema_version", JStr "1.0");
     ("spec", JObj envelope)]);
  ConfigurationRevisionModel.created_by := Some actor;
  ConfigurationRevisionModel.created_at := wr_now t;
|}.

(** The flushed rows; the keys of revisions are unique. *)
Definition insert_revision (c : ConfigurationModel.t) (r : ConfigurationRevisionModel.t)
    (p : ConfigurationPrivateRefModel.t) (d : registry) : res registry_error registry :=
  let i := ConfigurationRevisionModel.id r in
  if bool_decide (is_Some (revisions d !! i))
     || existsb (λ x, bool_decide (ConfigurationRevisionModel.configuration_id x.2
                                   = ConfigurationRevisionModel.configuration_id r)
                      && Z.eqb (ConfigurationRevisionModel.revision x.2)
                           (ConfigurationRevisionModel.revision r)) (map_to_list (revisions d))
  then Err (ServerError "IntegrityError")
  else Ok (Build_registry (counter d) (<[ConfigurationModel.id c := c]> (configurations d))
             (<[i := r]> (revisions d)) (<[i := p]> (private_refs d)) (health d) (worker_view d)
             (published d) (records d) (events d)).

Definition _audit (kind : RegistryKind.t) (i r actor : uuid) (action : string) (d : registry) : registry :=
  set_events (events d ++ [Event.Build_t None ("config." +:+ action)
    [("configuration_id", JStr (uuid_str i)); ("revision_id", JStr (uuid_str r));
     ("kind", JStr (RegistryKind.value kind)); ("actor_id", JStr (uuid_str actor));
     ("action", JStr action)]]) d.

Definition write_fresh (allowed : list string) (t : write_readings) (kind : RegistryKind.t)
    (b : RegistryWrite.t) (actor : uuid) (i : option uuid) (d : registry)
    : res registry_error (RegistryRecord.t * registry) :=
  _ ← _compatible allowed (RegistryWrite.spec b) d;
  target ← write_target t kind b i d;
  let '(c, previous) := target in
  let secret := new_secret b previous in
  let deployment := new_deployment b previous in
  _ ← require (negb (match RegistryWrite.spec b with
                     | SProvider p => demo_provider p && present secret
                     | _ => false
                     end)) "invalid_secret";
  let c := written_configuration t b c in
  let r := new_revision t kind actor (envelope_of b deployment) c in
  d ← insert_revision c r (ConfigurationPrivateRefModel.Build_t secret deployment) d;
  result ← _record c r d;
  Ok (result, _audit kind (ConfigurationModel.id c) (wr_revision t) actor
                (match i with None => "created" | Some _ => "revised" end) d).

Definition write (allowed : list string) (t : write_readings) (kind : RegistryKind.t)
    (b : RegistryWrite.t) (actor : uuid) (i : option uuid) (d : registry)
    : res registry_error (RegistryRecord.t * registry) :=
  _ ← write_input kind b;
  if negb (counter d) then Err (_problem 503 "unavailable")
  else
    let scope := write_scope actor kind i in
    let key := RegistryWrite.idempotency_key b in
    match begin_record scope key (sha256_digest (model_dump b)) (records d) with
    | IdempotencyConflict => Err (_problem 409 "idempotency_conflict")
    | Replay r =>
        match record_validate (default JNull (IdempotencyRecordModel.response_json r)) with
        | Some result => Ok (result, d)
        | None => Err (ServerError "ValidationError")
        end
    | Approvals.Fresh begun =>
        written ← write_fresh allowed t kind b actor i (set_records begun d);
        Ok (written.1,
            set_records (complete_record scope key (model_dump written.1) begun) written.2)
    end.

(** ** [validate] *)

Definition validation_issues (allowed : list string) (r : RegistryRecord.t) (d : registry) : res registry_error (list string) :=
  first ← match _compatible allowed (RegistryRecord.spec r) d with
          | Ok _ => Ok []
          | Err (Problem _ _) => Ok ["Configuration references or endpoint policy require attention"]
          | Err e => Err e
          end;
  Ok (first
      ++ (if bool_decide (RegistryRecord.secret_status r = SecretStatus.missing)
          then ["A server-managed credential reference is required"] else [])
      ++ (match RegistryRecord.spec r with
          | SWorker w => if negb (demo_worker w) && negb (WorkerSpec.deployment_configured w)
                         then ["A server-managed deployment reference is required"] else []
          | _ => []
          end)
      ++ (if negb (RegistryRecord.enabled r) || RegistryRecord.archived r
          then ["Configuration is disabled or archived"] else [])).

Definition report_of (r : RegistryRecord.t) (issues : list string) : ValidationReport.t :=
  ValidationReport.Build_t (bool_decide (issues = []))
    (if bool_decide (issues = []) then HealthStatus.unknown else HealthStatus.misconfigured)
    issues false
    (match RegistryRecord.spec r with SProvider p => demo_provider p | _ => false end).

(** The row of a provider takes the status of the report. *)
Definition report_health (now : Z) (r : RegistryRecord.t) (s : HealthStatus.t) (d : registry) : registry :=
  match RegistryRecord.spec r with
  | SProvider _ =>
      let i := RegistryRecord.revision_id r in
      let row := default ProviderHealthModel.initial (health d !! i) in
      set_health (<[i := ProviderHealthModel.Build_t s (ProviderHealthModel.circuit_state row)
                           (ProviderHealthModel.failure_count row)
                           (ProviderHealthModel.window_started_at row)
                           (ProviderHealthModel.next_probe_at row)
                           (ProviderHealthModel.probe_lease_until row) (Some now)
                           (ProviderHealthModel.version row)]> (health d)) d
  | _ => d
  end.

Definition validate_fresh (allowed : list string) (now : Z) (kind : RegistryKind.t) (i current actor : uuid)
    (d : registry) : res registry_error (ValidationReport.t * registry) :=
  r ← _revision current None false d;
  issues ← validation_issues allowed r d;
  let report := report_of r issues in
  let d := report_health now r (ValidationReport.health report) d in
  Ok (report, _audit kind i (RegistryRecord.revision_id r) actor "validated" d).

Definition validate (allowed : list string) (now : Z) (kind : RegistryKind.t) (i : uuid)
    (key : string) (actor : uuid) (d : registry) : res registry_error (ValidationReport.t * registry) :=
  _ ← require (_safe_strings (JStr key)) "unsafe_input";
  if negb (counter d) then Err (_problem 503 "unavailable")
  else
    match configurations d !! i with
    | None => Err (_problem 404 "not_found")
    | Some c =>
        if negb (bool_decide (ConfigurationModel.kind c = kind)) then Err (_problem 404 "not_found")
        else
          match ConfigurationModel.current_revision_id c with
          | None => Err (_problem 503 "unavailable")
          | Some current =>
              let scope := "validate:" +:+ uuid_str actor +:+ ":" +:+ uuid_str i in
              match begin_record scope key (sha256_digest (JObj [("id", JStr (uuid_str i))])) (records d) with
              | IdempotencyConflict => Err (_problem 409 "idempotency_conflict")
              | Replay r =>
                  match report_validate (default JNull (IdempotencyRecordModel.response_json r)) with
                  | Some report => Ok (report, d)
                  | None => Err (ServerError "ValidationError")
                  end
              | Approvals.Fresh begun =>
                  validated ← validate_fresh allowed now kind i current actor (set_records begun d);
                  Ok (validated.1, set_records (complete_record scope key (model_dump validated.1) begun) validated.2)
              end
          end
    end.
End service.

(** ** The system *)

Section system.
Context `{PyRuntime} `{RegistrySpecModel} `{ModelDump RegistrySpec} `{ModelDump RegistryWrite.t}
  `{RecordModel} `{ModelDump RegistryRecord.t} `{ReportModel} `{ModelDump ValidationReport.t}.

(** What other components do leaves configurations and revisions alone. *)
Inductive registry_step : registry → registry → Prop :=
  | rs_write allowed t kind b actor i r d d' :
      write allowed t kind b actor i d = Ok (r, d') → registry_step d d'
  | rs_validate allowed now kind i key actor r d d' :
      validate allowed now kind i key actor d = Ok (r, d') → registry_step d d'
  | rs_other d d' :
      configurations d' = configurations d → revisions d' = revisions d →
      private_refs d' = private_refs d → registry_step d d'.

(** The envelope of a revision repeats the state of its configuration. *)
Definition mirrors (c : ConfigurationModel.t) (r : ConfigurationRevisionModel.t) : Prop :=
  dict_get "enabled" (ConfigurationRevisionModel.spec_json r)
    = Some (JBool (ConfigurationModel.enabled c))
  ∧ dict_get "archived" (ConfigurationRevisionModel.spec_json r)
    = Some (JBool (bool_decide (ConfigurationModel.archived_at c ≠ None))).

(** Configurations have unique keys and a current revision, whose number is their version;
the revisions of a configuration are numbered from 1 to its version, each number once. *)
Record registry_ok (d : registry) : Prop := {
  ro_keyed : ∀ i c, configurations d !! i = Some c → ConfigurationModel.id c = i;
  ro_unique : ∀ i j a b, configurations d !! i = Some a → configurations d !! j = Some b →
    ConfigurationModel.kind a = ConfigurationModel.kind b →
    ConfigurationModel.key a = ConfigurationModel.key b → i = j;
  ro_current : ∀ i c, configurations d !! i = Some c →
    ∃ r rev, ConfigurationModel.current_revision_id c = Some r ∧ revisions d !! r = Some rev
      ∧ ConfigurationRevisionModel.configuration_id rev = i
      ∧ ConfigurationRevisionModel.revision rev = ConfigurationModel.version c ∧ mirrors c rev;
  ro_owner : ∀ r rev, revisions d !! r = Some rev → ConfigurationRevisionModel.id rev = r ∧
    ∃ c, configurations d !! ConfigurationRevisionModel.configuration_id rev = Some c
      ∧ 1 ≤ ConfigurationRevisionModel.revision rev ≤ ConfigurationModel.version c;
  ro_numbered : ∀ i c n, configurations d !! i = Some c → 1 ≤ n ≤ ConfigurationModel.version c →
    ∃ r rev, revisions d !! r = Some rev ∧ ConfigurationRevisionModel.configuration_id rev = i
      ∧ ConfigurationRevisionModel.revision rev = n;
  ro_once : ∀ r s a b, revisions d !! r = Some a → revisions d !! s = Some b →
    ConfigurationRevisionModel.configuration_id a = ConfigurationRevisionModel.configuration_id b →
    ConfigurationRevisionModel.revision a = ConfigurationRevisionModel.revision b → r = s;
}.

(** Revisions stay as they are; configurations stay, and their versions only grow. *)
Record registry_grows (d d' : registry) : Prop := {
  rg_revisions : revisions d ⊆ revisions d';
  rg_versions : ∀ i c, configurations d !! i = Some c →
    ∃ c', configurations d' !! i = Some c'
      ∧ ConfigurationModel.kind c' = ConfigurationModel.kind c
      ∧ ConfigurationModel.key c' = ConfigurationModel.key c
      ∧ ConfigurationModel.version c ≤ ConfigurationModel.version c';
}.
#[local] Instance registry_grows_preorder : PreOrder registry_grows.
Proof.
  split.
  - intros d. split; [done|]. intros i c Hc. exists c. by split_and!.
  - intros d1 d2 d3 [Hr Hv] [Hr' Hv']. split; [by etrans|]. intros i c Hc.
    destruct (Hv i c Hc) as (c2 & Hc2 & Hk & Hkey & Hle).
    destruct (Hv' i c2 Hc2) as (c3 & Hc3 & Hk3 & Hkey3 & Hle3). exists c3.
    split_and!; [done|congruence|congruence|lia].
Qed.

Lemma same_registry d d' :
  configurations d' = configurations d → revisions d' = revisions d →
  registry_grows d d' ∧ (registry_ok d → registry_ok d').
Proof.
  intros Hc Hr. split.
  - split; [by rewrite Hr|]. rewrite Hc. intros i c Hi. exists c. by split_and!.
  - intros [? ? ? ? ? ?]. split; rewrite ?Hc, ?Hr; done.
Qed.

(** What a fresh write puts into the tables. *)
Definition writes (t : write_readings) (kind : RegistryKind.t) (b : RegistryWrite.t) (actor : uuid)
    (c : ConfigurationModel.t) (deployment : option string) (d d' : registry) : Prop :=
  configurations d' = <[ConfigurationModel.id c := written_configuration t b c]> (configurations d)
  ∧ revisions d' = <[wr_revision t := new_revision t kind actor (envelope_of b deployment)
                                        (written_configuration t b c)]> (revisions d)
  ∧ revisions d !! wr_revision t = None
  ∧ ∀ r rev, revisions d !! r = Some rev →
      ConfigurationRevisionModel.configuration_id rev = ConfigurationModel.id c →
      ConfigurationRevisionModel.revision rev ≠ ConfigurationModel.version c + 1.

Lemma existsb_map {V} (P : uuid * V → bool) (m : gmap uuid V) :
  existsb P (map_to_list m) = false ↔ ∀ i v, m !! i = Some v → P (i, v) = false.
Proof.
  rewrite existsb_false. split.
  - intros Hall i v Hi. apply Hall. by apply elem_of_map_to_list.
  - intros Hall [i v] Hi. apply Hall. by apply elem_of_map_to_list.
Qed.

Lemma write_fresh_ok allowed t kind b actor i d r d' :
  write_fresh allowed t kind b actor i d = Ok (r, d') →
  ∃ c previous, _compatible allowed (RegistryWrite.spec b) d = Ok tt
    ∧ write_target t kind b i d = Ok (c, previous)
    ∧ writes t kind b actor c (new_deployment b previous) d d'.
Proof.
  unfold write_fresh. intros ([] & Hc & ([c previous] & Ht & (? & _ & Hw)%res_bind_ok)%res_bind_ok)%res_bind_ok.
  apply res_bind_ok in Hw as (d1 & Hi & (res & _ & [= _ <-])%res_bind_ok).
  exists c, previous. split_and!; [done..|]. unfold insert_revision in Hi.
  destruct (_ || _) eqn:Hex; [done|]. injection Hi as <-.
  apply orb_false_iff in Hex as [Hn Hex]. split_and!; [done|done| |].
  - apply bool_decide_eq_false in Hn. by apply eq_None_not_Some.
  - intros r1 rev Hr Hcid Hrev. pose proof (proj1 (existsb_map _ _) Hex r1 rev Hr) as Hne. simpl in Hne.
    rewrite bool_decide_eq_true_2 in Hne by exact Hcid. rewrite Hrev, Z.eqb_refl in Hne. done.
Qed.

(** The configuration a write revises, or a new one with an unused key. *)
Lemma write_target_ok t kind b i d c previous :
  write_target t kind b i d = Ok (c, previous) → registry_ok d →
  ConfigurationModel.kind c = kind ∧ ConfigurationModel.key c = RegistryWrite.key b
  ∧ ConfigurationModel.version c = RegistryWrite.expected_version b
  ∧ match i with
    | Some i => i = ConfigurationModel.id c ∧ configurations d !! i = Some c
    | None => configurations d !! ConfigurationModel.id c = None ∧ ConfigurationModel.version c = 0
        ∧ ∀ j a, configurations d !! j = Some a → ConfigurationModel.kind a = kind →
            ConfigurationModel.key a ≠ RegistryWrite.key b
    end.
Proof.
  intros Ht Hok. unfold write_target in Ht. destruct i as [i|].
  - destruct (configurations d !! i) as [a|] eqn:Ha; [|done].
    destruct (bool_decide_reflect (ConfigurationModel.kind a = kind)); [|done].
    destruct (String.eqb_spec (RegistryWrite.key b) (ConfigurationModel.key a)); [|done].
    destruct (Z.eqb_spec (ConfigurationModel.version a) (RegistryWrite.expected_version b)); [|done].
    injection Ht as <- _. split_and!; [done..| |done]. symmetry. by apply (ro_keyed _ Hok).
  - destruct (Z.eqb_spec (RegistryWrite.expected_version b) 0) as [Hz|]; [|done]. simpl in Ht.
    destruct (existsb _ _) eqn:Hex; [done|]. case_bool_decide as Hn; [done|]. injection Ht as <- _.
    split_and!; [done|done|done|by apply eq_None_not_Some|done|].
    intros j a Ha Hk Hkey. pose proof (proj1 (existsb_map _ _) Hex j a Ha) as Hne.
    unfold same_identity in Hne. simpl in Hne.
    rewrite bool_decide_eq_true_2, Hkey, String.eqb_refl in Hne by done. done.
Qed.

(** The version of the target before the write, and what it shares with other rows. *)
Record target_frame (kind : RegistryKind.t) (key : string) (c : ConfigurationModel.t) (d : registry)
  : Prop := {
  tf_same : ∀ j a, configurations d !! j = Some a → j = ConfigurationModel.id c → a = c;
  tf_unique : ∀ j a, configurations d !! j = Some a → ConfigurationModel.kind a = kind →
    ConfigurationModel.key a = key → j = ConfigurationModel.id c;
  tf_version : 0 ≤ ConfigurationModel.version c;
  tf_new : configurations d !! ConfigurationModel.id c = Some c ∨ ConfigurationModel.version c = 0;
  tf_kind : ConfigurationModel.kind c = kind;
  tf_key : ConfigurationModel.key c = key;
}.

Lemma target_framed t kind b i d c previous :
  write_target t kind b i d = Ok (c, previous) → registry_ok d →
  target_frame kind (RegistryWrite.key b) c d.
Proof.
  intros Ht Hok. destruct (write_target_ok _ _ _ _ _ _ _ Ht Hok) as (Hkind & Hkey & _ & Hi).
  destruct i as [i|].
  - destruct Hi as [-> Hi]. split; [| | |by left|done|done].
    + intros j a Ha ->. congruence.
    + intros j a Ha Hk Hkey'. eapply (ro_unique _ Hok); [done|done|congruence..].
    + destruct (ro_current _ Hok _ _ Hi) as (r & rev & _ & Hr & Hcid & Hnum & _).
      destruct (ro_owner _ Hok _ _ Hr) as (_ & c' & _ & Hle). lia.
  - destruct Hi as (Hn & Hz & Hi). split; [| |lia|by right|done|done].
    + intros j a Ha ->. congruence.
    + intros j a Ha Hk Hkey'. by destruct (Hi j a Ha Hk).
Qed.

Lemma writes_grow t kind b actor key c deployment d d' :
  target_frame kind key c d → writes t kind b actor c deployment d d' → registry_grows d d'.
Proof.
  intros Hf (Hcs & Hrs & Hnew & _). split; [by rewrite Hrs; apply insert_subseteq|].
  intros j a Ha. rewrite Hcs. destruct (base.decide (j = ConfigurationModel.id c)) as [->|Hj].
  - rewrite (tf_same _ _ _ _ Hf _ _ Ha eq_refl), lookup_insert_eq. eexists. split_and!; [done..|].
    simpl. lia.
  - exists a. rewrite lookup_insert_ne by done. by split_and!.
Qed.

Lemma writes_ok t kind b actor c deployment d d' :
  target_frame kind (RegistryWrite.key b) c d → writes t kind b actor c deployment d d' →
  registry_ok d → registry_ok d'.
Proof.
  intros [Hsame Huniq Hpos Hfirst Hkind Hkey] (Hcs & Hrs & Hnew & Hfree) Hok.
  split; rewrite ?Hcs, ?Hrs.
  - intros j a. rewrite lookup_insert_Some. intros [[<- <-]|[_ Ha]]; [done|by eapply ro_keyed].
  - intros j k a a'. rewrite !lookup_insert_Some.
    intros [[<- <-]|[Hj Ha]] [[<- <-]|[Hk Ha']]; [done| | |by eapply ro_unique]; simpl; intros Hkk Hkey'.
    + symmetry. eapply Huniq; [done|congruence..].
    + eapply Huniq; [done|congruence..].
  - intros j a. rewrite lookup_insert_Some. intros [[<- <-]|[Hj Ha]].
    + eexists _, _. split; [done|]. rewrite lookup_insert_eq. split_and!; [done..|].
      split; simpl; [done|]. by destruct (RegistryWrite.archived b).
    + destruct (ro_current _ Hok _ _ Ha) as (r & rev & Hr & Hrev & Hm). exists r, rev.
      split; [done|]. rewrite lookup_insert_ne by congruence. done.
  - intros r rev. rewrite lookup_insert_Some. intros [[<- <-]|[_ Hr]].
    + split; [done|]. eexists. simpl. rewrite lookup_insert_eq. split; [done|]. simpl. lia.
    + destruct (ro_owner _ Hok _ _ Hr) as (Hid & a & Ha & Hle). split; [done|].
      destruct (base.decide (ConfigurationRevisionModel.configuration_id rev = ConfigurationModel.id c)) as [Heq|Hne].
      * eexists. rewrite Heq, lookup_insert_eq. split; [done|]. simpl.
        rewrite <-(Hsame _ _ Ha Heq). lia.
      * exists a. by rewrite lookup_insert_ne.
  - intros j a n. rewrite lookup_insert_Some. intros [[<- <-]|[Hj Ha]] Hn.
    + simpl in Hn. destruct (base.decide (n = ConfigurationModel.version c + 1)) as [->|].
      * eexists _, _. by rewrite lookup_insert_eq.
      * destruct Hfirst as [Hc|]; [|lia].
        destruct (ro_numbered _ Hok _ _ n Hc) as (r & rev & Hr & Hrev); [lia|].
        exists r, rev. rewrite lookup_insert_ne by congruence. done.
    + destruct (ro_numbered _ Hok _ _ n Ha Hn) as (r & rev & Hr & Hrev).
      exists r, rev. rewrite lookup_insert_ne by congruence. done.
  - intros r s a a'. rewrite !lookup_insert_Some.
    intros [[<- <-]|[Hr Ha]] [[<- <-]|[Hs Ha']]; [done| | |by eapply ro_once]; simpl; intros Hid Hnum.
    + destruct (Hfree _ _ Ha' (eq_sym Hid)). done.
    + destruct (Hfree _ _ Ha Hid). done.
Qed.

(** A write that succeeds replays a response or adds a revision. *)
Lemma write_ok allowed t kind b actor i d r d' :
  write allowed t kind b actor i d = Ok (r, d') →
  d' = d ∨ ∃ begun e, begin_record (write_scope actor kind i) (RegistryWrite.idempotency_key b)
             (sha256_digest (model_dump b)) (records d) = Approvals.Fresh begun
    ∧ write_fresh allowed t kind b actor i (set_records begun d) = Ok (r, e)
    ∧ d' = set_records (complete_record (write_scope actor kind i)
                          (RegistryWrite.idempotency_key b) (model_dump r) begun) e.
Proof.
  unfold write. intros (? & _ & Hw)%res_bind_ok. destruct (counter d); [|done]. cbn [negb] in Hw.
  destruct (begin_record _ _ _ _) as [begun|old|]; [|destruct (record_validate _); [|done]|done].
  - apply res_bind_ok in Hw as ([r' e] & Hf & [= <- <-]). right. by exists begun, e.
  - injection Hw as _ <-. by left.
Qed.

Lemma validate_same allowed now kind i key actor d r d' :
  validate allowed now kind i key actor d = Ok (r, d') →
  configurations d' = configurations d ∧ revisions d' = revisions d.
Proof.
  unfold validate. intros (? & _ & Hv)%res_bind_ok. destruct (counter d); [|done].
  destruct (configurations d !! i) as [c|]; [|done]. cbn [negb] in Hv.
  destruct (bool_decide _); [|done]. destruct (ConfigurationModel.current_revision_id c) as [current|]; [|done].
  destruct (begin_record _ _ _ _) as [begun|old|]; [|destruct (report_validate _); [|done]|done].
  - apply res_bind_ok in Hv as ([report e] & Hf & [= _ <-]). unfold validate_fresh in Hf.
    apply res_bind_ok in Hf as (rec & _ & (issues & _ & [= _ <-])%res_bind_ok).
    unfold report_health. by destruct (RegistryRecord.spec rec).
  - by injection Hv as _ <-.
Qed.

Lemma registry_step_ok d d' : registry_step d d' → registry_ok d → registry_grows d d' ∧ registry_ok d'.
Proof.
  intros Hs Hok. destruct Hs as [allowed t kind b actor i r d d' Hw|allowed now kind i key actor r d d' Hv|
                                 d d' Hc Hr _].
  - apply write_ok in Hw as [->|(begun & e & _ & Hw & ->)]; [done|].
    apply write_fresh_ok in Hw as (c & previous & _ & Ht & Hwr).
    assert (target_frame kind (RegistryWrite.key b) c d) as Hf by by eapply target_framed.
    split; [by eapply writes_grow|by eapply writes_ok].
  - apply validate_same in Hv as [Hc Hr]. destruct (same_registry d d' Hc Hr). auto.
  - destruct (same_registry d d' Hc Hr). auto.
Qed.

Lemma registry_steps_ok d d' : rtc registry_step d d' → registry_ok d → registry_grows d d' ∧ registry_ok d'.
Proof.
  induction 1 as [d|d1 d2 d3 Hs _ IH]; intros Hok; [done|].
  destruct (registry_step_ok _ _ Hs Hok) as [Hg Hok2]. destruct (IH Hok2) as [Hg' ?].
  split; [by etrans|done].
Qed.

(** C25. every sequence of writes, validations and steps of other components keeps
the tables of the registry consistent: kind and key identify a configuration, its
current revision is stored, repeats its enabled and archived state and has its
version as number, and the revisions of a configuration are numbered from 1 to its
version, each number once; stored revisions are never changed or removed. *)
Theorem registry_sound d0 d :
  rtc registry_step d0 d → registry_ok d0 → registry_ok d ∧ revisions d0 ⊆ revisions d.
Proof. intros Hs Hok. destruct (registry_steps_ok _ _ Hs Hok) as [[? _] ?]. done. Qed.

(** C26. after a write of a configuration was stored, no later write that names the
same expected version stores anything, whatever happened in between: of two clients
that read the same version one is refused (or only replays a response). *)
Theorem no_lost_update allowed t1 kind b1 actor1 i r1 d d1 d2 t2 b2 actor2 r2 d3 :
  registry_ok d →
  write allowed t1 kind b1 actor1 (Some i) d = Ok (r1, d1) → configurations d1 ≠ configurations d →
  rtc registry_step d1 d2 →
  write allowed t2 kind b2 actor2 (Some i) d2 = Ok (r2, d3) →
  RegistryWrite.expected_version b2 = RegistryWrite.expected_version b1 → d3 = d2.
Proof.
  intros Hok Hw1 Hchanged Hs Hw2 Hexp.
  assert (registry_ok d1) as Hok1 by (eapply registry_step_ok; [by eapply rs_write|done]).
  destruct (registry_steps_ok _ _ Hs Hok1) as [[_ Hv] Hok2].
  apply write_ok in Hw1 as [->|(begun & e & _ & Hf & ->)]; [done|].
  apply write_fresh_ok in Hf as (c & previous & _ & Ht & Hcs & _).
  destruct (write_target_ok _ _ _ _ _ _ _ Ht (proj2 (same_registry d (set_records begun d) eq_refl eq_refl) Hok))
    as (_ & _ & Hver & -> & Hc).
  destruct (Hv (ConfigurationModel.id c) (written_configuration t1 b1 c)) as (c2 & Hc2 & _ & _ & Hle).
  { simpl. by rewrite Hcs, lookup_insert_eq. }
  simpl in Hle. apply write_ok in Hw2 as [->|(begun' & e' & _ & Hf' & _)]; [done|].
  apply write_fresh_ok in Hf' as (c' & previous' & _ & Ht' & _).
  destruct (write_target_ok _ _ _ _ _ _ _ Ht' (proj2 (same_registry d2 (set_records begun' d2) eq_refl eq_refl) Hok2))
    as (_ & _ & Hver' & Hid' & Hc').
  simpl in Hc'. rewrite Hc2 in Hc'. injection Hc' as ->. lia.
Qed.

(** ** Secrets stay hidden *)

Lemma compatible_records allowed spec l d :
  _compatible allowed spec (set_records l d) = _compatible allowed spec d.
Proof. by destruct spec. Qed.
Lemma target_records t kind b i l d :
  write_target t kind b i (set_records l d) = write_target t kind b i d.
Proof. done. Qed.

Lemma present_or a a' o : present a = present a' → present (or_text a o) = present (or_text a' o).
Proof. unfold or_text. intros Ha. rewrite <-Ha. by destruct (present a) eqn:Hp; rewrite ?Hp, <-?Ha. Qed.

(** The locators of two requests are there or not, whatever they are. *)
Definition same_presence (b : RegistryWrite.t) (secret deployment : option string) : Prop :=
  present secret = present (RegistryWrite.secret_ref b)
  ∧ present deployment = present (RegistryWrite.deployment_ref b).

Lemma same_envelope b secret deployment previous :
  same_presence b secret deployment →
  present (new_secret (RegistryWrite.with_refs secret deployment b) previous) = present (new_secret b previous)
  ∧ envelope_of (RegistryWrite.with_refs secret deployment b)
      (new_deployment (RegistryWrite.with_refs secret deployment b) previous)
    = envelope_of b (new_deployment b previous).
Proof.
  intros [Hs Hd]. split.
  - unfold new_secret. simpl. destruct (RegistryWrite.clear_secret b); [done|]. by apply present_or.
  - assert (present (new_deployment (RegistryWrite.with_refs secret deployment b) previous)
            = present (new_deployment b previous)) as Hp.
    { unfold new_deployment. simpl. destruct (RegistryWrite.spec b); try by apply present_or.
      destruct (demo_worker s); [done|]. by apply present_or. }
    unfold envelope_of, stored_spec. simpl. destruct (RegistryWrite.spec b); try done. by rewrite Hp.
Qed.

(** Equal but for the private locators and the idempotency records. *)
Definition same_public (d e : registry) : Prop :=
  configurations d = configurations e ∧ revisions d = revisions e ∧ health d = health e
  ∧ events d = events e.
Definition same_answer (a b : res registry_error (RegistryRecord.t * registry)) : Prop :=
  match a, b with
  | Ok (r, d), Ok (r', d') => r = r' ∧ same_public d d'
  | Err e, Err e' => e = e'
  | _, _ => False
  end.

Lemma same_record c r d e :
  health d = health e → worker_view d = worker_view e →
  present (secret_of (private_refs d !! ConfigurationRevisionModel.id r))
  = present (secret_of (private_refs e !! ConfigurationRevisionModel.id r)) →
  _record c r d = _record c r e.
Proof. intros Hh Hw Hp. unfold _record, secret_status. by rewrite Hh, Hw, Hp. Qed.

Lemma fresh_hides allowed t kind b actor i d l l' secret deployment :
  same_presence b secret deployment →
  same_answer (write_fresh allowed t kind b actor i (set_records l d))
    (write_fresh allowed t kind (RegistryWrite.with_refs secret deployment b) actor i (set_records l' d)).
Proof.
  intros Hp. unfold write_fresh. rewrite !compatible_records, !target_records.
  cbn [RegistryWrite.spec RegistryWrite.with_refs].
  destruct (_compatible allowed (RegistryWrite.spec b) d) as [[]|e]; [|done]. simpl.
  change (write_target t kind (RegistryWrite.with_refs secret deployment b) i d) with (write_target t kind b i d).
  destruct (write_target t kind b i d) as [[c previous]|e]; [|done]. simpl.
  destruct (same_envelope b secret deployment previous Hp) as [Hs He]. rewrite He, Hs.
  change (written_configuration t (RegistryWrite.with_refs secret deployment b) c)
    with (written_configuration t b c).
  destruct (require _ _) as [[]|e]; [|done]. simpl. unfold insert_revision. cbn [set_records revisions].
  destruct (bool_decide _ || _); [done|]. cbn -[_record].
  match goal with |- same_answer (_record ?c ?r ?e ≫= _) (_record _ _ ?e' ≫= _) =>
    rewrite (same_record c r e e' eq_refl eq_refl) by (simpl; by rewrite !lookup_insert_eq);
    by destruct (_record c r e')
  end.
Qed.

(** C28. what a write answers, and what it stores outside of the private locators
and the idempotency record, depends on the credential and deployment locators of the
request only through their presence. *)
Theorem secret_hidden allowed t kind b actor i d secret deployment begun begun' :
  let b' := RegistryWrite.with_refs secret deployment b in
  let scope := write_scope actor kind i in
  same_presence b secret deployment →
  write_input kind b = Ok tt → write_input kind b' = Ok tt →
  begin_record scope (RegistryWrite.idempotency_key b) (sha256_digest (model_dump b)) (records d)
    = Approvals.Fresh begun →
  begin_record scope (RegistryWrite.idempotency_key b) (sha256_digest (model_dump b')) (records d)
    = Approvals.Fresh begun' →
  same_answer (write allowed t kind b actor i d) (write allowed t kind b' actor i d).
Proof.
  intros b' scope Hp Hi Hi' Hb Hb'. unfold write. rewrite Hi, Hi'.
  change (RegistryWrite.idempotency_key b') with (RegistryWrite.idempotency_key b).
  destruct (counter d); [|done]. simpl. fold scope. rewrite Hb, Hb'.
  pose proof (fresh_hides allowed t kind b actor i d begun begun' secret deployment Hp) as Hh.
  unfold b'. destruct (write_fresh _ _ _ b _ _ _) as [[r e]|], (write_fresh _ _ _ _ _ _ (set_records begun' d))
    as [[r' e']|]; try done.
Qed.

(** ** What an accepted specification refers to *)

(** Revision [i] has the specification [s] and belongs to a configuration of [kind] in use. *)
Definition active_ref (d : registry) (i : uuid) (kind : RegistryKind.t) (s : RegistrySpec) : Prop :=
  ∃ rev c, revisions d !! i = Some rev
    ∧ configurations d !! ConfigurationRevisionModel.configuration_id rev = Some c
    ∧ ConfigurationModel.kind c = kind ∧ retired c = false ∧ _typed_spec rev = Ok s.

Definition references (s : RegistrySpec) : list (uuid * RegistryKind.t) :=
  match s with
  | STeamTemplate s =>
      [(TeamTemplateSpec.manager_role_revision_id s, RegistryKind.agent_role);
       (TeamTemplateSpec.developer_role_revision_id s, RegistryKind.agent_role);
       (TeamTemplateSpec.reviewer_role_revision_id s, RegistryKind.agent_role);
       (TeamTemplateSpec.manager_profile_revision_id s, RegistryKind.model_profile);
       (TeamTemplateSpec.reviewer_profile_revision_id s, RegistryKind.model_profile);
       (TeamTemplateSpec.developer_worker_revision_id s, RegistryKind.worker)]
      ++ m ← TeamTemplateSpec.members s;
         [(TeamMemberSpec.role_revision_id m, RegistryKind.agent_role);
          (TeamMemberSpec.model_route_revision_id m, RegistryKind.route_policy);
          (TeamMemberSpec.permission_policy_revision_id m, RegistryKind.permission_policy)]
         ++ ((λ i, (i, RegistryKind.worker_pool)) <$> TeamMemberSpec.worker_pool_revision_ids m)
  | SWorkerPool s => (λ i, (i, RegistryKind.worker)) <$> WorkerPoolSpec.worker_revision_ids s
  | SProvider s => match ProviderSpec.retry_policy_revision_id s with
                   | Some i => [(i, RegistryKind.retry_policy)]
                   | None => []
                   end
  | SModelProfile s => [(ModelProfileSpec.provider_revision_id s, RegistryKind.provider_connection)]
  | SWorker s => (λ i, (i, RegistryKind.model_profile))
                   <$> ModelBinding.allowed_profile_revision_ids (WorkerSpec.model_binding s)
  | SRoutePolicy s => (λ c, (RouteCandidate.profile_revision_id c, RegistryKind.model_profile))
                        <$> RoutePolicySpec.candidates s
  | _ => []
  end.

(** Every field of a specification that holds the identifier of a registry revision. *)
Definition mentions (s : RegistrySpec) : list uuid :=
  match s with
  | STeamTemplate s =>
      [TeamTemplateSpec.manager_role_revision_id s; TeamTemplateSpec.manager_profile_revision_id s;
       TeamTemplateSpec.developer_role_revision_id s; TeamTemplateSpec.developer_worker_revision_id s;
       TeamTemplateSpec.reviewer_role_revision_id s; TeamTemplateSpec.reviewer_profile_revision_id s]
      ++ option_list (TeamTemplateSpec.escalation_policy_revision_id s)
      ++ m ← TeamTemplateSpec.members s;
         TeamMemberSpec.role_revision_id m :: TeamMemberSpec.model_route_revision_id m
         :: TeamMemberSpec.permission_policy_revision_id m :: TeamMemberSpec.worker_pool_revision_ids m
  | SWorkerPool s => WorkerPoolSpec.worker_revision_ids s
  | SProvider s => option_list (ProviderSpec.retry_policy_revision_id s)
  | SModelProfile s => [ModelProfileSpec.provider_revision_id s]
  | SWorker s => ModelBinding.allowed_profile_revision_ids (WorkerSpec.model_binding s)
                 ++ WorkerSpec.execution_profile_revision_ids s
  | SRoutePolicy s => RouteCandidate.profile_revision_id <$> RoutePolicySpec.candidates s
  | _ => []
  end.

(** The fields that a write stores without looking the revision up. *)
Definition unchecked (s : RegistrySpec) : list uuid :=
  match s with
  | STeamTemplate s => option_list (TeamTemplateSpec.escalation_policy_revision_id s)
  | SWorker s => WorkerSpec.execution_profile_revision_ids s
  | _ => []
  end.

Lemma mentions_complete s i :
  i ∈ mentions s → i ∈ unchecked s ∨ ∃ k, (i, k) ∈ references s.
Proof.
  destruct s as [r|t|w|p|m|r|r|r|e|w]; simpl; try (intros ?%elem_of_nil; done).
  - rewrite !elem_of_cons, elem_of_app, list_elem_of_bind.
    intros [->|[->|[->|[->|[->|[->|[Hi|(m & Hi & Hm)]]]]]]];
      [right; eexists; solve [repeat first [apply list_elem_of_here|apply list_elem_of_further]]..|by left|].
    right. rewrite !elem_of_cons in Hi.
    assert (∃ k, (i, k) ∈ [(TeamMemberSpec.role_revision_id m, RegistryKind.agent_role);
              (TeamMemberSpec.model_route_revision_id m, RegistryKind.route_policy);
              (TeamMemberSpec.permission_policy_revision_id m, RegistryKind.permission_policy)]
             ++ ((λ i, (i, RegistryKind.worker_pool)) <$> TeamMemberSpec.worker_pool_revision_ids m))
      as (k & Hk).
    { destruct Hi as [->|[->|[->|Hi]]]; eexists;
        [solve [repeat first [apply list_elem_of_here|apply list_elem_of_further]]..|].
      do 3 right. apply list_elem_of_fmap. by exists i. }
    exists k. do 6 right. apply list_elem_of_bind. by exists m.
  - rewrite elem_of_app. intros [Hi|Hi]; [right|by left]. eexists. apply list_elem_of_fmap. by exists i.
  - destruct (ProviderSpec.retry_policy_revision_id p); simpl; [|by intros ?%elem_of_nil].
    intros ->%list_elem_of_singleton. right. eexists. by left.
  - intros ->%list_elem_of_singleton. right. eexists. by left.
  - intros (c & -> & Hc)%list_elem_of_fmap. right. eexists. apply list_elem_of_fmap. by exists c.
  - intros Hi. right. eexists. apply list_elem_of_fmap. by exists i.
Qed.

(** The role of a team member with a responsibility. *)
Definition responsible (d : registry) (i : uuid) (x : RoleResponsibility.t) : Prop :=
  ∃ role, active_ref d i RegistryKind.agent_role (SAgentRole role)
    ∧ AgentRoleSpec.responsibility role = x.

Definition profile_ready (d : registry) (p : ModelProfileSpec.t) : Prop :=
  ∃ provider, active_ref d (ModelProfileSpec.provider_revision_id p) RegistryKind.provider_connection
                (SProvider provider)
    ∧ ProviderSpec.locality provider = ModelProfileSpec.locality p
    ∧ (ModelProfileSpec.parameters p).*1 ⊆ parameter_names (ProviderSpec.provider_kind provider).

(** The references are active; the profiles among them run on an active provider of their
locality; endpoints are on the list, and workflows published. *)
Record spec_ok (allowed : list string) (s : RegistrySpec) (d : registry) : Prop := {
  so_references : ∀ i k, (i, k) ∈ references s → ∃ t, active_ref d i k t;
  so_mentions : ∀ i, i ∈ mentions s → i ∉ unchecked s →
    ∃ k t, (i, k) ∈ references s ∧ active_ref d i k t;
  so_roles : ∀ t, s = STeamTemplate t →
    responsible d (TeamTemplateSpec.manager_role_revision_id t) RoleResponsibility.manager
    ∧ responsible d (TeamTemplateSpec.developer_role_revision_id t) RoleResponsibility.developer
    ∧ responsible d (TeamTemplateSpec.reviewer_role_revision_id t) RoleResponsibility.reviewer;
  so_profiles : ∀ i p, (i, RegistryKind.model_profile) ∈ references s →
    active_ref d i RegistryKind.model_profile (SModelProfile p) → profile_ready d p;
  so_profile : ∀ p, s = SModelProfile p → profile_ready d p;
  so_endpoint : ∀ p u, s = SProvider p → ProviderSpec.base_url p = Some u → u = "" ∨ u ∈ allowed;
  so_workflow : ∀ t, s = STeamTemplate t →
    ∃ at_, published d !! TeamTemplateSpec.workflow_version_id t = Some (Some at_);
}.

(** The parts of [spec_ok] from those that a kind of specification proves. *)
Lemma spec_ok_of allowed s d :
  (∀ i k, (i, k) ∈ references s → ∃ t, active_ref d i k t) →
  (∀ i p, (i, RegistryKind.model_profile) ∈ references s →
    active_ref d i RegistryKind.model_profile (SModelProfile p) → profile_ready d p) →
  (∀ p, s = SModelProfile p → profile_ready d p) →
  (∀ p u, s = SProvider p → ProviderSpec.base_url p = Some u → u = "" ∨ u ∈ allowed) →
  (∀ t, s = STeamTemplate t →
    (responsible d (TeamTemplateSpec.manager_role_revision_id t) RoleResponsibility.manager
     ∧ responsible d (TeamTemplateSpec.developer_role_revision_id t) RoleResponsibility.developer
     ∧ responsible d (TeamTemplateSpec.reviewer_role_revision_id t) RoleResponsibility.reviewer)
    ∧ ∃ at_, published d !! TeamTemplateSpec.workflow_version_id t = Some (Some at_)) →
  spec_ok allowed s d.
Proof.
  intros Hrefs Hprofiles Hp He Ht. split; try done.
  - intros i [Hi|(k & Hk)]%mentions_complete Hu; [done|]. destruct (Hrefs i k Hk) as (t & Hr). by exists k, t.
  - intros t Hs. by apply Ht.
  - intros t Hs. by apply Ht.
Qed.

Lemma each_ok {A} (f : A → res registry_error unit) l :
  each f l = Ok tt → ∀ x, x ∈ l → f x = Ok tt.
Proof.
  unfold each. induction l as [|y l IH]; simpl; [by intros _ x Hx%elem_of_nil|].
  intros ([] & Hy & Hl)%res_bind_ok x [->|Hx]%elem_of_cons; auto.
Qed.
Lemma required_ok b code u : require b code = Ok u → b = true.
Proof. unfold require. intros Hr%raise_if_ok. by apply negb_false_iff. Qed.

Lemma reference_ok i k d s : reference i k d = Ok s → active_ref d i k s.
Proof.
  unfold reference, _revision. intros (r & ([c rev] & Hf & (rec & Hrec & Hr)%res_bind_ok)%res_bind_ok
    & [= <-])%res_bind_ok.
  simpl in *. unfold find_revision in Hf. destruct (revisions d !! i) as [rev'|] eqn:Hrev; [|done].
  destruct (configurations d !! _) as [c'|] eqn:Hc; [|done]. simpl in Hf.
  case_bool_decide as Hk; [|done]. injection Hf as -> ->.
  destruct (negb (RegistryRecord.enabled rec) || _ || _) eqn:Ha; [done|]. injection Hr as ->.
  apply orb_false_iff in Ha as [_ Ha]. unfold _record in Hrec.
  apply res_bind_ok in Hrec as (spec & Hs & Hrec).
  apply res_bind_ok in Hrec as (? & _ & (? & _ & (? & _ & (? & _ & [= <-])%res_bind_ok)%res_bind_ok)%res_bind_ok).
  by exists rev, c.
Qed.
Lemma active_ref_inj d i k s t : active_ref d i k s → active_ref d i k t → s = t.
Proof. intros (? & ? & Hr & _ & _ & _ & Hs) (? & ? & Hr' & _ & _ & _ & Ht). congruence. Qed.

Lemma compatible_profile_ready p d : compatible_profile p d = Ok tt → profile_ready d p.
Proof.
  unfold compatible_profile, provider_at.
  intros (provider & (spec & Hs%reference_ok & Hp)%res_bind_ok & ([] & Hsub%required_ok & Hl%required_ok)%res_bind_ok)%res_bind_ok.
  destruct spec; try done. injection Hp as <-. exists s. split; [done|].
  apply bool_decide_eq_true in Hl. split; [done|]. intros x Hx. unfold subset_of in Hsub.
  rewrite forallb_forall in Hsub. apply list_elem_of_In in Hx. by apply Hsub, bool_decide_eq_true in Hx.
Qed.

(** An active profile that passed is ready. *)
Lemma ready_profile d i p s :
  reference i RegistryKind.model_profile d = Ok (SModelProfile s) → compatible_profile s d = Ok tt →
  active_ref d i RegistryKind.model_profile (SModelProfile p) → profile_ready d p.
Proof.
  intros Hr%reference_ok Hc Hp. pose proof (active_ref_inj _ _ _ _ _ Hr Hp) as [= ->].
  by apply compatible_profile_ready.
Qed.

Lemma team_profile_ok mode d i purpose :
  team_profile mode d (i, purpose) = Ok tt →
  (∃ t, active_ref d i RegistryKind.model_profile t)
  ∧ ∀ p, active_ref d i RegistryKind.model_profile (SModelProfile p) → profile_ready d p.
Proof.
  unfold team_profile. simpl. intros (profile & Hr & Hc)%res_bind_ok.
  split; [eexists; by apply reference_ok|]. destruct profile; try done.
  apply res_bind_ok in Hc as ([] & _ & ([] & Hc & _)%res_bind_ok). intros p. by eapply ready_profile.
Qed.
Lemma team_member_ok d m i k :
  team_member d m = Ok tt →
  (i, k) ∈ [(TeamMemberSpec.role_revision_id m, RegistryKind.agent_role);
            (TeamMemberSpec.model_route_revision_id m, RegistryKind.route_policy);
            (TeamMemberSpec.permission_policy_revision_id m, RegistryKind.permission_policy)]
           ++ ((λ i, (i, RegistryKind.worker_pool)) <$> TeamMemberSpec.worker_pool_revision_ids m) →
  (∃ t, active_ref d i k t) ∧ k ≠ RegistryKind.model_profile.
Proof.
  unfold team_member. intros (role & Hr & ([] & _ & (route & Hro & (perm & Hpe & Hpools)%res_bind_ok)%res_bind_ok)%res_bind_ok)%res_bind_ok.
  rewrite elem_of_app, !elem_of_cons, elem_of_nil, list_elem_of_fmap.
  intros [[[= -> ->]|[[= -> ->]|[[= -> ->]|[]]]]|(j & [= -> ->] & Hj)]; (split; [|done]);
    try by eexists; apply reference_ok.
  eapply each_ok in Hpools; [|exact Hj]. apply res_bind_ok in Hpools as (s & Hs & _).
  eexists. by apply reference_ok.
Qed.

Lemma compatible_role_ok d i x : compatible_role d (i, x) = Ok tt → responsible d i x.
Proof.
  unfold compatible_role. intros (s & Hs & Hc)%res_bind_ok. destruct s as [r| | | | | | | | |]; try done.
  apply required_ok, bool_decide_eq_true in Hc. exists r. split; [by apply reference_ok|done].
Qed.
Lemma responsible_ref d i x : responsible d i x → ∃ t, active_ref d i RegistryKind.agent_role t.
Proof. intros (r & Hr & _). by eexists. Qed.

Lemma team_ok allowed s d : compatible_team s d = Ok tt → spec_ok allowed (STeamTemplate s) d.
Proof.
  unfold compatible_team. intros ([] & Hroles & ([] & Hprofiles & (worker & Hw & Hrest)%res_bind_ok)%res_bind_ok)%res_bind_ok.
  apply res_bind_ok in Hrest as ([] & _ & ([] & Hmembers & Hpub)%res_bind_ok).
  assert (∀ i x, (i, x) ∈ [(TeamTemplateSpec.manager_role_revision_id s, RoleResponsibility.manager);
      (TeamTemplateSpec.developer_role_revision_id s, RoleResponsibility.developer);
      (TeamTemplateSpec.reviewer_role_revision_id s, RoleResponsibility.reviewer)] → responsible d i x)
    as Hresp by (intros i x Hix; apply compatible_role_ok, (each_ok _ _ Hroles); set_solver).
  assert (∀ i k, (i, k) ∈ references (STeamTemplate s) →
            (∃ t, active_ref d i k t)
            ∧ ∀ p, k = RegistryKind.model_profile → active_ref d i k (SModelProfile p) → profile_ready d p) as Hall.
  { intros i k. simpl. rewrite !elem_of_cons, list_elem_of_bind.
    intros [Hik|[Hik|[Hik|[Hik|[Hik|[Hik|(m & Hik & Hm)]]]]]]; try injection Hik as -> ->.
    1: split; [|done]; apply (responsible_ref d _ RoleResponsibility.manager), Hresp; set_solver.
    1: split; [|done]; apply (responsible_ref d _ RoleResponsibility.developer), Hresp; set_solver.
    1: split; [|done]; apply (responsible_ref d _ RoleResponsibility.reviewer), Hresp; set_solver.
    1: destruct (team_profile_ok (TeamTemplateSpec.mode s) d (TeamTemplateSpec.manager_profile_revision_id s)
                   "mission_manager"); [apply (each_ok _ _ Hprofiles); set_solver|naive_solver].
    1: destruct (team_profile_ok (TeamTemplateSpec.mode s) d (TeamTemplateSpec.reviewer_profile_revision_id s)
                   "reviewer"); [apply (each_ok _ _ Hprofiles); set_solver|naive_solver].
    - split; [|done]. eexists. by apply reference_ok.
    - pose proof (each_ok _ _ Hmembers m Hm) as Hok. destruct (team_member_ok _ _ _ _ Hok Hik) as [? Hk].
      by split. }
  apply spec_ok_of; try done.
  - intros i k Hik. by apply Hall in Hik as [? _].
  - intros i p Hi. apply Hall in Hi as [_ Hp]. by apply Hp.
  - intros t [= <-]. split; [split_and!; apply Hresp; set_solver|].
    apply required_ok in Hpub. destruct (published d !! _) as [[at_|]|]; try done. by exists at_.
Qed.

Lemma compatible_ok allowed s d : _compatible allowed s d = Ok tt → spec_ok allowed s d.
Proof.
  destruct s as [r|t|w|p|m|r|r|r|e|w]; simpl; intros Hc; try (by apply spec_ok_of; simpl; set_solver).
  - by apply team_ok.
  - (* a worker *) pose proof (each_ok _ _ Hc) as Hp. apply spec_ok_of; try done; simpl.
    + intros i k (j & [= -> ->] & Hj)%list_elem_of_fmap. apply Hp in Hj.
      apply res_bind_ok in Hj as (s & Hs & _). eexists. by apply reference_ok.
    + intros i p (j & [= ->] & Hj)%list_elem_of_fmap. apply Hp in Hj.
      apply res_bind_ok in Hj as (s & Hs & Hj). destruct s; try done. by eapply ready_profile.
  - (* a provider *) apply res_bind_ok in Hc as ([] & He%required_ok & Hc). apply spec_ok_of; try done; simpl.
    + intros i k. destruct (ProviderSpec.retry_policy_revision_id p) as [j|]; [|set_solver].
      intros [= -> ->]%list_elem_of_singleton. apply res_bind_ok in Hc as (s & Hs & _).
      eexists. by apply reference_ok.
    + intros i q. destruct (ProviderSpec.retry_policy_revision_id p); set_solver.
    + intros q u [= <-] Hu. unfold ProviderSpec.has_url in He. rewrite Hu in He. simpl in He.
      rewrite negb_involutive in He. apply orb_true_iff in He as [He|He]; apply bool_decide_eq_true in He; auto.
  - (* a profile *) pose proof (compatible_profile_ready _ _ Hc) as Hr. apply spec_ok_of; try done; simpl.
    + intros i k [= -> ->]%list_elem_of_singleton. destruct Hr as (q & Hq & _). by eexists.
    + intros i p [= _]%list_elem_of_singleton.
    + by intros p [= <-].
  - (* a route *) pose proof (each_ok _ _ Hc) as Hp. apply spec_ok_of; try done; simpl.
    + intros i k (c & [= -> ->] & Hc')%list_elem_of_fmap. apply Hp in Hc'.
      apply res_bind_ok in Hc' as (s & (s' & Hs & _)%res_bind_ok & _). eexists. by apply reference_ok.
    + intros i p (c & [= ->] & Hc')%list_elem_of_fmap. apply Hp in Hc'.
      apply res_bind_ok in Hc' as (s & (s' & Hs & Hs')%res_bind_ok & Hc').
      destruct s'; try done. injection Hs' as <-. apply res_bind_ok in Hc' as ([] & Hcp & _).
      by eapply ready_profile.
  - (* a pool *) pose proof (each_ok _ _ Hc) as Hp. apply spec_ok_of; try done; simpl.
    + intros i k (j & [= -> ->] & Hj)%list_elem_of_fmap. apply Hp in Hj.
      apply res_bind_ok in Hj as (s & Hs & _). eexists. by apply reference_ok.
    + intros i p (j & [= ->] & Hj)%list_elem_of_fmap.
Qed.

(** C27. A write that is stored has a specification of its kind; every registry
revision its fields name, except the escalation policy of a team template and the
execution profiles of a worker, which are not looked up, is a revision of the right
kind whose configuration is enabled and not archived; the manager, developer and
reviewer roles of a team have these responsibilities; the model profiles it uses run
on an active provider of the same locality that takes their parameters, a provider
has an endpoint from the allowlist and a team template a published workflow. *)
Theorem references_active allowed t kind b actor i d r d' :
  write allowed t kind b actor i d = Ok (r, d') → configurations d' ≠ configurations d →
  spec_kind (RegistryWrite.spec b) = kind ∧ spec_ok allowed (RegistryWrite.spec b) d.
Proof.
  intros Hw Hchanged. split.
  - unfold write in Hw. apply res_bind_ok in Hw as (? & Hi & _). unfold write_input in Hi.
    apply res_bind_ok in Hi as ([] & Hk%required_ok & _). by apply bool_decide_eq_true in Hk.
  - apply write_ok in Hw as [->|(begun & e & _ & Hf & _)]; [done|].
    apply write_fresh_ok in Hf as (c & previous & Hc & _). rewrite compatible_records in Hc.
    by apply compatible_ok.
Qed.
End system.
