(* ===== verification/Auth.v ===== *)
(** * Authentication of the owner

[auth/service.py], [auth/repository.py], [auth/bootstrap.py] and [auth/crypto.py] of the API:
login with durable rate limits, sessions, revocation, and the local commands that create the
owner and reset the password.

A login reads and verifies the password in one transaction and decides in another; between
the two anything may happen, so [login_write] gets the observation of an earlier state.  The
same holds for [authenticate] and [_revoke_expired].

[login_sound] says what a login has checked, [login_authenticates] that its session works,
[ended_forever] that a session that was ended never works again, [guesses_bounded] how many
wrong passwords can be tried in any interval as long as a window: windows are fixed, so an
interval meets two of them; and [auth_sound] is the invariant of the tables.

Texts are ASCII where the code normalizes them.  Argon2, HMAC and [ipaddress] are parameters;
times are in microseconds. *)
From S2P Require Import Prelude PyJson Database EventRegistry Regex.
From stdpp Require Import gmap.
From Stdlib Require Import Ascii.
Local Open Scope Z_scope.
Local Open Scope stdpp_scope.

(** ** Parameters *)

(** argon2's [PasswordHasher]; a result of [None] is one of the exceptions the code catches. *)
Class PasswordHasher := {
  argon2_verify : string → string → option bool;
  argon2_needs_rehash : string → option bool;
  argon2_hash : N → string → string;
}.
(** [hmac.new(key, message, sha256)] as hexadecimal digits and as URL-safe base 64 without
padding, and the bytes of a SHA-256 digest. *)
Class Hmac := {
  hmac_hex : string → string → string;
  hmac_base64 : string → string → string;
  sha256_bytes : string → string;
}.
(** [str(ip_network(f"{address}/{prefix}", strict=False))] of a text that is an address *)
Class IpNetwork := ip_network : string → option string.

(** ** Rows *)

Module UserModel.
Record t := {
  id : uuid;
  username : string;
  password_hash : string;
  role : string;
  enabled : bool;
  last_login_at : option Z;
  version : Z;
  created_at : Z;
  updated_at : Z;
}.
End UserModel.

Module SessionModel.
Record t := {
  id : uuid;
  user_id : uuid;
  token_hash : string;
  csrf_secret_hash : string;
  created_at : Z;
  last_seen_at : Z;
  expires_at : Z;
  absolute_expires_at : Z;
  revoked_at : option Z;
  revoke_reason : option string;
  ip_prefix : option string;
  user_agent_hash : option string;
}.
Definition touched (now expires : Z) (r : t) : t :=
  Build_t (id r) (user_id r) (token_hash r) (csrf_secret_hash r) (created_at r) now expires
    (absolute_expires_at r) (revoked_at r) (revoke_reason r) (ip_prefix r) (user_agent_hash r).
Definition revoked (now : Z) (reason : string) (r : t) : t :=
  Build_t (id r) (user_id r) (token_hash r) (csrf_secret_hash r) (created_at r) (last_seen_at r)
    (expires_at r) (absolute_expires_at r) (Some now) (Some reason) (ip_prefix r) (user_agent_hash r).
End SessionModel.

(** The key is ([scope], [subject_hash]). *)
Module LoginRateLimitModel.
Record t := {
  failed_count : Z;
  window_started_at : Z;
  locked_until : option Z;
  updated_at : Z;
}.
End LoginRateLimitModel.

Record auth := {
  counter : bool;
  users : gmap uuid UserModel.t;
  sessions : gmap uuid SessionModel.t;
  limits : gmap (string * string) LoginRateLimitModel.t;
  owners : gmap uuid uuid;
  events : list Event.t;
}.
Definition set_users (u : gmap uuid UserModel.t) (d : auth) : auth :=
  Build_auth (counter d) u (sessions d) (limits d) (owners d) (events d).
Definition set_sessions (s : gmap uuid SessionModel.t) (d : auth) : auth :=
  Build_auth (counter d) (users d) s (limits d) (owners d) (events d).
Definition set_limits (l : gmap (string * string) LoginRateLimitModel.t) (d : auth) : auth :=
  Build_auth (counter d) (users d) (sessions d) l (owners d) (events d).
Definition set_owners (o : gmap uuid uuid) (d : auth) : auth :=
  Build_auth (counter d) (users d) (sessions d) (limits d) o (events d).
Definition log (name : string) (data : jobj) (d : auth) : auth :=
  Build_auth (counter d) (users d) (sessions d) (limits d) (owners d)
    (events d ++ [Event.Build_t None name data]).

Inductive auth_error :=
  | RuntimeError (text : string)
  | ValueError (text : string)
  | PasswordPolicyError
  | BootstrapAlreadyCompletedError
  | IntegrityError.

(** ** Settings and requests *)

Module Settings.
Record t := {
  session_idle_seconds : Z;
  session_absolute_seconds : Z;
  session_touch_interval_seconds : Z;
  login_window_seconds : Z;
  login_account_limit : Z;
  login_network_limit : Z;
  login_base_delay_seconds : Z;
  login_max_delay_seconds : Z;
}.
Definition valid (s : t) : bool :=
  Z.leb 60 (session_idle_seconds s) && Z.leb (session_idle_seconds s) 86400
  && Z.leb 300 (session_absolute_seconds s) && Z.leb (session_absolute_seconds s) 604800
  && Z.leb 1 (session_touch_interval_seconds s) && Z.leb (session_touch_interval_seconds s) 3600
  && Z.leb 60 (login_window_seconds s) && Z.leb (login_window_seconds s) 86400
  && Z.leb 1 (login_account_limit s) && Z.leb (login_account_limit s) 100
  && Z.leb 1 (login_network_limit s) && Z.leb (login_network_limit s) 1000
  && Z.leb 0 (login_base_delay_seconds s) && Z.leb (login_base_delay_seconds s) 60
  && Z.leb 1 (login_max_delay_seconds s) && Z.leb (login_max_delay_seconds s) 3600
  && Z.leb (session_idle_seconds s) (session_absolute_seconds s)
  && Z.leb (session_touch_interval_seconds s) (session_idle_seconds s)
  && Z.leb (login_base_delay_seconds s) (login_max_delay_seconds s).
End Settings.

Module ClientMetadata.
Record t := { ip_address : option string; user_agent : option string }.
End ClientMetadata.

Module AuthPrincipal.
Record t := {
  user_id : uuid;
  username : string;
  role : string;
  session_id : uuid;
  idle_expires_at : Z;
  absolute_expires_at : Z;
  session_token : string;
  csrf_token : string;
}.
End AuthPrincipal.

Module LoginResult.
Record t := { principal : option AuthPrincipal.t; retry_after_seconds : Z }.
End LoginResult.

(** The service with its settings, its key and the hash of a password nobody knows. *)
Module AuthService.
Record t := { settings : Settings.t; server_key : option string; dummy_hash : string }.
End AuthService.

Definition seconds (n : Z) : Z := n * 1000000.
(** [math.ceil(delta.total_seconds())] *)
Definition ceil_seconds (delta : Z) : Z := - ((- delta) / 1000000).

(** ** [crypto.py] *)

Definition username_pattern : string → bool :=
  head_tail (λ c, is_lower c || is_digit c) (λ c, is_lower c || is_digit c || is_oneof [95; 46; 45]%nat c) 2 63.
Fixpoint lstrip (s : string) : string :=
  match s with
  | EmptyString => ""
  | String c s' => if is_space c then lstrip s' else s
  end.
Fixpoint rstrip (s : string) : string :=
  match s with
  | EmptyString => ""
  | String c s' => match rstrip s' with
                   | EmptyString => if is_space c then "" else String c ""
                   | r => String c r
                   end
  end.
(** [unicodedata.normalize("NFKC", value).strip().casefold()] of ASCII text *)
Definition folded (value : string) : string := str_map to_lower (rstrip (lstrip value)).
Definition normalize_username (value : string) : option string :=
  let normalized := folded value in
  if negb (username_pattern normalized) then None
  else if String.eqb normalized "migration-unassigned" then None else Some normalized.

Definition client_network `{IpNetwork} (value : option string) : string :=
  match value with
  | None => "unknown"
  | Some v => default "unknown" (ip_network v)
  end.
Definition is_ascii (s : string) : bool := str_forallb (in_range 0 127) s.

Section service.
Context `{PyRuntime} `{PasswordHasher} `{Hmac} `{IpNetwork}.

Definition verify (password_hash password : string) : bool :=
  default false (argon2_verify password_hash password).
Definition needs_rehash (password_hash : string) : bool := default false (argon2_needs_rehash password_hash).
Definition hash_password (salt : N) (password : string) : res auth_error string :=
  if Nat.ltb (py_len password) 12 then Err PasswordPolicyError
  else if Nat.ltb 1024 (py_len password) then Err PasswordPolicyError
  else Ok (argon2_hash salt password).
Definition derive_csrf_token (session_token : string) (server_key : option string) : string :=
  hmac_base64 (default (sha256_bytes session_token) server_key)
    ("jarvis-v1-csrf" +:+ chr 0 +:+ session_token).
Definition keyed_fingerprint (server_key purpose value : string) : string :=
  hmac_hex server_key (purpose +:+ chr 0 +:+ value).

(** ** [AuthRepository] *)

Definition lock_event_counter (d : auth) : res auth_error unit :=
  raise_if (negb (counter d)) (RuntimeError "event store is not initialized").
Definition find_user (username : string) (d : auth) : option UserModel.t :=
  find (λ u, String.eqb (UserModel.username u) username) (map_to_list (users d)).*2.
Definition get_session_with_user (token_hash : string) (d : auth)
    : option (SessionModel.t * UserModel.t) :=
  row ← find (λ r, String.eqb (SessionModel.token_hash r) token_hash) (map_to_list (sessions d)).*2;
  user ← users d !! SessionModel.user_id row;
  Some (row, user).
(** The keys of both tables are unique. *)
Definition create_session (row : SessionModel.t) (d : auth) : res auth_error auth :=
  if bool_decide (is_Some (sessions d !! SessionModel.id row))
     || existsb (λ r, String.eqb (SessionModel.token_hash r) (SessionModel.token_hash row))
          (map_to_list (sessions d)).*2
  then Err IntegrityError
  else Ok (set_sessions (<[SessionModel.id row := row]> (sessions d)) d).

(** ** Rate limits *)

Notation rate_key := (string * string)%type.
Notation rate_rows := (list (rate_key * LoginRateLimitModel.t)).

Definition _fingerprint_key (s : AuthService.t) : string :=
  default "jarvis-local-development-fingerprints-v1" (AuthService.server_key s).
Definition _subject (s : AuthService.t) (username : string) : option string * string :=
  (normalize_username username,
   keyed_fingerprint (_fingerprint_key s) "login-account" (folded username)).
(** In the order of [sorted(keys)]. *)
Definition _rate_keys (s : AuthService.t) (account_hash network : string) : list rate_key :=
  [("account", account_hash);
   ("network", keyed_fingerprint (_fingerprint_key s) "login-network" network)].

Definition rate_limits (keys : list rate_key) (d : auth) : rate_rows :=
  omap (λ k, row ← limits d !! k; Some (k, row)) keys.
Definition lock_rate_limits (keys : list rate_key) (now : Z) (d : auth) : rate_rows :=
  (λ k, (k, default (LoginRateLimitModel.Build_t 0 now None now) (limits d !! k))) <$> keys.

Definition in_window (s : AuthService.t) (now : Z) (row : LoginRateLimitModel.t) : bool :=
  Z.ltb (now - LoginRateLimitModel.window_started_at row)
    (seconds (Settings.login_window_seconds (AuthService.settings s))).
Definition reset_window (s : AuthService.t) (now : Z) (row : LoginRateLimitModel.t)
    : LoginRateLimitModel.t :=
  if in_window s now row then row else LoginRateLimitModel.Build_t 0 now None now.
Definition _reset_windows (s : AuthService.t) (rows : rate_rows) (now : Z) : rate_rows :=
  prod_map id (reset_window s now) <$> rows.

Definition remaining (now : Z) (row : LoginRateLimitModel.t) : option Z :=
  until ← LoginRateLimitModel.locked_until row;
  if Z.ltb now until then Some (until - now) else None.
Definition _blocked_seconds (rows : rate_rows) (now : Z) : Z :=
  Z.max 0 (ceil_seconds (foldr Z.max 0 (omap (remaining now) rows.*2))).

Definition limit_of (s : AuthService.t) (scope : string) : Z :=
  if String.eqb scope "account" then Settings.login_account_limit (AuthService.settings s)
  else Settings.login_network_limit (AuthService.settings s).
(** The delay after [count] failures. *)
Definition delay_after (s : AuthService.t) (scope : string) (count : Z) : Z :=
  Z.min (Settings.login_max_delay_seconds (AuthService.settings s))
    (Settings.login_base_delay_seconds (AuthService.settings s) * 2 ^ Z.min (count - limit_of s scope) 30).
Definition fail_row (s : AuthService.t) (now : Z) (k : rate_key) (row : LoginRateLimitModel.t)
    : LoginRateLimitModel.t :=
  let count := LoginRateLimitModel.failed_count row + 1 in
  LoginRateLimitModel.Build_t count (LoginRateLimitModel.window_started_at row)
    (if Z.leb (limit_of s k.1) count
        && Z.ltb 0 (Settings.login_base_delay_seconds (AuthService.settings s))
     then Some (now + seconds (delay_after s k.1 count))
     else LoginRateLimitModel.locked_until row) now.
Definition _record_failure (s : AuthService.t) (rows : rate_rows) (now : Z) : rate_rows * Z :=
  let rows := (λ kr, (kr.1, fail_row s now kr.1 kr.2)) <$> rows in
  (rows, _blocked_seconds rows now).
Definition save_limits (rows : rate_rows) (d : auth) : auth :=
  set_limits (list_to_map rows ∪ limits d) d.

(** ** Audit events *)

Definition login_failed (account_hash : string) (retry_after : Z) (d : auth) : auth :=
  log "auth.login_failed"
    [("subject_fingerprint", JStr account_hash); ("outcome", JStr "invalid_credentials");
     ("rate_limited", JBool (Z.ltb 0 retry_after)); ("retry_after_seconds", JInt retry_after)] d.
Definition session_revoked (user session : uuid) (reason : string) (d : auth) : auth :=
  log "auth.session_revoked"
    [("user_id", JStr (uuid_str user)); ("session_id", JStr (uuid_str session)); ("reason", JStr reason)] d.

(** ** [login] *)

(** What the first transaction of a login saw, and the verification after it. *)
Record observation := {
  ob_normalized : option string;
  ob_account : string;
  ob_keys : list rate_key;
  ob_blocked : bool;
  ob_hash : string;
  ob_verified : bool;
}.
Definition hash_of (s : AuthService.t) (user : option UserModel.t) : string :=
  match user with
  | Some u => if UserModel.enabled u then UserModel.password_hash u else AuthService.dummy_hash s
  | None => AuthService.dummy_hash s
  end.
Definition login_read (s : AuthService.t) (username password : string) (m : ClientMetadata.t) (now : Z)
    (d : auth) : observation :=
  let '(normalized, account_hash) := _subject s username in
  let keys := _rate_keys s account_hash (client_network (ClientMetadata.ip_address m)) in
  let still_in_window := List.filter (λ kr, in_window s now kr.2) (rate_limits keys d) in
  let blocked := Z.ltb 0 (_blocked_seconds still_in_window now) in
  let hash := hash_of s (u ← normalized; find_user u d) in
  Build_observation normalized account_hash keys blocked hash
    (if blocked then false else verify hash password).

Definition revoke (now : Z) (reason : string) (row : SessionModel.t) (d : auth) : auth :=
  set_sessions (<[SessionModel.id row := SessionModel.revoked now reason row]> (sessions d)) d.
Definition _rotate_previous (token : string) (now : Z) (d : auth) : auth :=
  match get_session_with_user (sha256 token) d with
  | None => d
  | Some (previous, user) =>
      match SessionModel.revoked_at previous with
      | Some _ => d
      | None => session_revoked (UserModel.id user) (SessionModel.id previous) "rotated_on_login"
                  (revoke now "rotated_on_login" previous d)
      end
  end.

Definition _principal (row : SessionModel.t) (user : UserModel.t) (token csrf : string)
    : AuthPrincipal.t := {|
  AuthPrincipal.user_id := UserModel.id user;
  AuthPrincipal.username := UserModel.username user;
  AuthPrincipal.role := UserModel.role user;
  AuthPrincipal.session_id := SessionModel.id row;
  AuthPrincipal.idle_expires_at := SessionModel.expires_at row;
  AuthPrincipal.absolute_expires_at := SessionModel.absolute_expires_at row;
  AuthPrincipal.session_token := token;
  AuthPrincipal.csrf_token := csrf;
|}.

(** The fresh values of a login: token, session identifier, salt and the database's [now()]. *)
Record login_readings := { lr_token : string; lr_session : uuid; lr_salt : N; lr_db_now : Z }.

Definition new_session_row (s : AuthService.t) (t : login_readings) (user : UserModel.t) (now : Z)
    (m : ClientMetadata.t) : SessionModel.t :=
  let absolute := now + seconds (Settings.session_absolute_seconds (AuthService.settings s)) in
  {| SessionModel.id := lr_session t;
     SessionModel.user_id := UserModel.id user;
     SessionModel.token_hash := sha256 (lr_token t);
     SessionModel.csrf_secret_hash := sha256 (derive_csrf_token (lr_token t) (AuthService.server_key s));
     SessionModel.created_at := now;
     SessionModel.last_seen_at := now;
     SessionModel.expires_at :=
       Z.min (now + seconds (Settings.session_idle_seconds (AuthService.settings s))) absolute;
     SessionModel.absolute_expires_at := absolute;
     SessionModel.revoked_at := None;
     SessionModel.revoke_reason := None;
     SessionModel.ip_prefix := Some (client_network (ClientMetadata.ip_address m));
     SessionModel.user_agent_hash :=
       match ClientMetadata.user_agent m with
       | Some a => if String.eqb a "" then None else Some (sha256 a)
       | None => None
       end |}.
Definition _new_session (s : AuthService.t) (t : login_readings) (user : UserModel.t) (now : Z)
    (m : ClientMetadata.t) (d : auth) : res auth_error (AuthPrincipal.t * auth) :=
  let row := new_session_row s t user now m in
  d ← create_session row d;
  Ok (_principal row user (lr_token t) (derive_csrf_token (lr_token t) (AuthService.server_key s)),
      log "auth.login_succeeded"
        [("user_id", JStr (uuid_str (UserModel.id user)));
         ("session_id", JStr (uuid_str (SessionModel.id row)));
         ("client_network", JStr (client_network (ClientMetadata.ip_address m)))] d).

(** The row of the account starts over; that of the network stays. *)
Definition succeed_row (now : Z) (kr : rate_key * LoginRateLimitModel.t)
    : rate_key * LoginRateLimitModel.t :=
  (kr.1, if String.eqb kr.1.1 "account" then LoginRateLimitModel.Build_t 0 now None now else kr.2).
Definition logged_in (now db_now : Z) (hash : string) (u : UserModel.t) : UserModel.t :=
  UserModel.Build_t (UserModel.id u) (UserModel.username u) hash (UserModel.role u)
    (UserModel.enabled u) (Some now) (UserModel.version u) (UserModel.created_at u) db_now.

(** [if previous_session_token] *)
Definition rotate (previous : option string) (now : Z) (d : auth) : auth :=
  match previous with
  | Some token => if String.eqb token "" then d else _rotate_previous token now d
  | None => d
  end.
Definition login_succeed (s : AuthService.t) (t : login_readings) (user : UserModel.t) (password : string)
    (m : ClientMetadata.t) (previous : option string) (now : Z) (rows : rate_rows) (d : auth)
    : res auth_error (LoginResult.t * auth) :=
  hash ← (if needs_rehash (UserModel.password_hash user) then hash_password (lr_salt t) password
          else Ok (UserModel.password_hash user));
  let user := logged_in now (lr_db_now t) hash user in
  let d := set_users (<[UserModel.id user := user]> (users d)) (save_limits (succeed_row now <$> rows) d) in
  let d := rotate previous now d in
  r ← _new_session s t user now m d;
  Ok (LoginResult.Build_t (Some r.1) 0, r.2).

Definition login_write (s : AuthService.t) (ob : observation) (t : login_readings) (password : string)
    (m : ClientMetadata.t) (previous : option string) (now : Z) (d : auth)
    : res auth_error (LoginResult.t * auth) :=
  _ ← lock_event_counter d;
  let rows := _reset_windows s (lock_rate_limits (ob_keys ob) now d) now in
  let preexisting_delay := _blocked_seconds rows now in
  let user := u ← ob_normalized ob; find_user u d in
  if Z.ltb 0 preexisting_delay then
    Ok (LoginResult.Build_t None preexisting_delay,
        login_failed (ob_account ob) preexisting_delay (save_limits rows d))
  else
    let current_hash := hash_of s user in
    let valid := if ob_blocked ob || negb (String.eqb current_hash (ob_hash ob))
                 then verify current_hash password else ob_verified ob in
    let fail := let '(rows, retry_after) := _record_failure s rows now in
                Ok (LoginResult.Build_t None retry_after,
                    login_failed (ob_account ob) retry_after (save_limits rows d)) in
    match user with
    | None => fail
    | Some user => if negb (UserModel.enabled user) || negb valid then fail
                   else login_succeed s t user password m previous now rows d
    end.

(** ** Sessions *)

Inductive outcome :=
  | Denied
  | Granted (p : AuthPrincipal.t)
  | Expired (reason : string).

(** The first transaction of [authenticate]. *)
Definition authenticate (s : AuthService.t) (session_token : string) (read_only : bool) (now : Z)
    (d : auth) : outcome * auth :=
  if Nat.ltb (py_len session_token) 32 || Nat.ltb 256 (py_len session_token) then (Denied, d)
  else
    match get_session_with_user (sha256 session_token) d with
    | None => (Denied, d)
    | Some (row, user) =>
        let csrf := derive_csrf_token session_token (AuthService.server_key s) in
        if bool_decide (is_Some (SessionModel.revoked_at row)) then (Denied, d)
        else if negb (UserModel.enabled user) then (Expired "user_disabled", d)
        else if Z.leb (SessionModel.absolute_expires_at row) now then (Expired "absolute_expired", d)
        else if Z.leb (SessionModel.expires_at row) now then (Expired "idle_expired", d)
        else if negb (String.eqb (SessionModel.csrf_secret_hash row) (sha256 csrf))
        then (Expired "csrf_key_changed", d)
        else if negb read_only
                && Z.leb (seconds (Settings.session_touch_interval_seconds (AuthService.settings s)))
                     (now - SessionModel.last_seen_at row)
        then
          let row := SessionModel.touched now
            (Z.min (now + seconds (Settings.session_idle_seconds (AuthService.settings s)))
               (SessionModel.absolute_expires_at row)) row in
          (Granted (_principal row user session_token csrf),
           set_sessions (<[SessionModel.id row := row]> (sessions d)) d)
        else (Granted (_principal row user session_token csrf), d)
    end.

(** The second one, when the first saw [reason] and is not read-only. *)
Definition _revoke_expired (token_hash reason : string) (now : Z) (d : auth) : res auth_error auth :=
  _ ← lock_event_counter d;
  match get_session_with_user token_hash d with
  | None => Ok d
  | Some (row, user) =>
      if bool_decide (is_Some (SessionModel.revoked_at row)) then Ok d
      else if String.eqb reason "idle_expired" && Z.ltb now (SessionModel.expires_at row) then Ok d
      else if String.eqb reason "user_disabled" && UserModel.enabled user then Ok d
      else Ok (session_revoked (UserModel.id user) (SessionModel.id row) reason (revoke now reason row d))
  end.

Definition valid_csrf (p : AuthPrincipal.t) (candidate : option string) : bool :=
  match candidate with
  | None => false
  | Some c => is_ascii c && String.eqb (AuthPrincipal.csrf_token p) c
  end.

Definition security_denied (payload : jobj) (d : auth) : res auth_error auth :=
  _ ← lock_event_counter d; Ok (log "auth.security_denied" payload d).

Definition logout (p : AuthPrincipal.t) (now : Z) (d : auth) : res auth_error (bool * auth) :=
  _ ← lock_event_counter d;
  match sessions d !! AuthPrincipal.session_id p with
  | None => Ok (false, d)
  | Some row =>
      if bool_decide (is_Some (SessionModel.revoked_at row)) then Ok (false, d)
      else Ok (true, log "auth.logout"
                       [("user_id", JStr (uuid_str (AuthPrincipal.user_id p)));
                        ("session_id", JStr (uuid_str (AuthPrincipal.session_id p)))]
                       (revoke now "owner_logout" row d))
  end.

(** ** [bootstrap.py] *)

Definition bootstrapped_event : string := "auth.owner_bootstrapped".
(** The unique keys of the users; the partial index on the enabled owner. *)
Definition insert_user (u : UserModel.t) (d : auth) : res auth_error auth :=
  if bool_decide (is_Some (users d !! UserModel.id u))
     || bool_decide (is_Some (find_user (UserModel.username u) d))
     || existsb UserModel.enabled (map_to_list (users d)).*2
  then Err IntegrityError
  else Ok (set_users (<[UserModel.id u := u]> (users d)) d).

Definition bootstrap_owner (username password : string) (owner_id : uuid) (salt : N) (now : Z) (d : auth)
    : res auth_error ((uuid * Z) * auth) :=
  match normalize_username username with
  | None => Err (ValueError "username")
  | Some normalized =>
      hash ← hash_password salt password;
      _ ← lock_event_counter d;
      _ ← raise_if (existsb UserModel.enabled (map_to_list (users d)).*2
                    || existsb (λ e, String.eqb (Event.name e) bootstrapped_event) (events d))
            BootstrapAlreadyCompletedError;
      d ← insert_user (UserModel.Build_t owner_id normalized hash "owner" true None 0 now now) d;
      let migrated := match find_user "migration-unassigned" d with
                      | Some u => if UserModel.enabled u then None else Some (UserModel.id u)
                      | None => None
                      end in
      let moved owner := bool_decide (Some owner = migrated) in
      let count := Z.of_nat (List.length (List.filter moved (map_to_list (owners d)).*2)) in
      let d := set_owners ((λ owner, if moved owner then owner_id else owner) <$> owners d) d in
      Ok ((owner_id, count),
          log bootstrapped_event
            [("user_id", JStr (uuid_str owner_id)); ("migrated_project_count", JInt count)] d)
  end.

(** The sessions of a user that are not revoked, in the order of their identifiers. *)
Definition open_sessions (user : uuid) (d : auth) : list SessionModel.t :=
  sorted_key SessionModel.id
    (List.filter (λ r, bool_decide (SessionModel.user_id r = user)
                       && bool_decide (SessionModel.revoked_at r = None)) (map_to_list (sessions d)).*2).

(** The loop of a reset. *)
Definition end_sessions (user : uuid) (now : Z) (d : auth) (rows : list SessionModel.t) : auth :=
  foldl (λ d r, session_revoked user (SessionModel.id r) "local_password_reset"
                  (revoke now "local_password_reset" r d)) d rows.

Definition reset_owner_password (username password : string) (salt : N) (now : Z) (d : auth)
    : res auth_error ((uuid * Z) * auth) :=
  match normalize_username username with
  | None => Err (ValueError "username")
  | Some normalized =>
      hash ← hash_password salt password;
      _ ← lock_event_counter d;
      match find_user normalized d with
      | None => Err (ValueError "the specified owner does not exist")
      | Some owner =>
          _ ← raise_if (existsb (λ u, UserModel.enabled u && negb (bool_decide (UserModel.id u = UserModel.id owner)))
                          (map_to_list (users d)).*2)
                (ValueError "a different owner is enabled; local recovery refused");
          let owner := UserModel.Build_t (UserModel.id owner) (UserModel.username owner) hash
            (UserModel.role owner) true (UserModel.last_login_at owner) (UserModel.version owner + 1)
            (UserModel.created_at owner) now in
          let d := set_users (<[UserModel.id owner := owner]> (users d)) d in
          let rows := open_sessions (UserModel.id owner) d in
          let d := end_sessions (UserModel.id owner) now d rows in
          let count := Z.of_nat (List.length rows) in
          Ok ((UserModel.id owner, count),
              log "auth.owner_password_reset"
                [("user_id", JStr (uuid_str (UserModel.id owner)));
                 ("revoked_session_count", JInt count)] d)
      end
  end.
End service.

(** ** The system *)

Section system.
Context `{PyRuntime} `{PasswordHasher} `{Hmac} `{IpNetwork} (s : AuthService.t).

(** One transaction at the clock reading [now].  A login comes with the observation of any
state [d0]; other components append events and change the owners of projects. *)
Inductive quiet_step (now : Z) : auth → auth → Prop :=
  | as_authenticate token read_only d :
      quiet_step now d (authenticate s token read_only now d).2
  | as_revoke token_hash reason d d' :
      _revoke_expired token_hash reason now d = Ok d' → quiet_step now d d'
  | as_logout p r d d' : logout p now d = Ok (r, d') → quiet_step now d d'
  | as_bootstrap username password i salt r d d' :
      bootstrap_owner username password i salt now d = Ok (r, d') → quiet_step now d d'
  | as_reset username password salt r d d' :
      reset_owner_password username password salt now d = Ok (r, d') → quiet_step now d d'
  | as_other l d d' :
      users d' = users d → sessions d' = sessions d → limits d' = limits d →
      events d' = events d ++ l → Forall (λ e, Event.name e ≠ bootstrapped_event) l →
      quiet_step now d d'.
Inductive auth_step (now : Z) : auth → auth → Prop :=
  | as_login d0 username password m t previous r d d' :
      login_write s (login_read s username password m now d0) t password m previous now d = Ok (r, d') →
      auth_step now d d'
  | as_quiet d d' : quiet_step now d d' → auth_step now d d'.
Definition any_step (d d' : auth) : Prop := ∃ now, auth_step now d d'.

Definition bootstraps (d : auth) : list Event.t :=
  List.filter (λ e, String.eqb (Event.name e) bootstrapped_event) (events d).

(** Names, token hashes and the enabled owner are unique; a session belongs to a user and ends
a fixed time after it began; the owner was created once. *)
Record auth_ok (d : auth) : Prop := {
  ao_users : ∀ i u, users d !! i = Some u → UserModel.id u = i;
  ao_names : ∀ i j u v, users d !! i = Some u → users d !! j = Some v →
    UserModel.username u = UserModel.username v → i = j;
  ao_owner : ∀ i j u v, users d !! i = Some u → users d !! j = Some v →
    UserModel.enabled u = true → UserModel.enabled v = true → i = j;
  ao_sessions : ∀ i r, sessions d !! i = Some r →
    SessionModel.id r = i ∧ is_Some (users d !! SessionModel.user_id r)
    ∧ SessionModel.expires_at r ≤ SessionModel.absolute_expires_at r
    ∧ SessionModel.absolute_expires_at r
      = SessionModel.created_at r + seconds (Settings.session_absolute_seconds (AuthService.settings s));
  ao_tokens : ∀ i j r q, sessions d !! i = Some r → sessions d !! j = Some q →
    SessionModel.token_hash r = SessionModel.token_hash q → i = j;
  ao_bootstraps : (List.length (bootstraps d) ≤ 1)%nat;
}.

(** ** Lookups *)

Lemma find_map {V} (P : V → bool) (m : gmap uuid V) v :
  find P (map_to_list m).*2 = Some v → ∃ i, m !! i = Some v ∧ P v = true.
Proof.
  intros Hf. apply find_some in Hf as [Hin HP]. apply list_elem_of_In, list_elem_of_fmap in Hin as ([i w] & -> & Hin).
  exists i. split; [by apply elem_of_map_to_list|done].
Qed.
Lemma find_map_none {V} (P : V → bool) (m : gmap uuid V) i v :
  find P (map_to_list m).*2 = None → m !! i = Some v → P v = false.
Proof.
  intros Hf Hi. apply (find_none P _ Hf). apply list_elem_of_In, list_elem_of_fmap. exists (i, v).
  split; [done|]. by apply elem_of_map_to_list.
Qed.
(** The only row that satisfies a test is found. *)
Lemma find_map_unique {V} (P : V → bool) (m : gmap uuid V) i v :
  m !! i = Some v → P v = true → (∀ j w, m !! j = Some w → P w = true → j = i) →
  find P (map_to_list m).*2 = Some v.
Proof.
  intros Hi HP Hu. destruct (find P _) as [w|] eqn:Hf.
  - apply find_map in Hf as (j & Hj & Hw). rewrite (Hu j w Hj Hw) in Hj. congruence.
  - apply (find_map_none _ _ i v) in Hf; [congruence|done].
Qed.
Lemma existsb_values {V} (P : V → bool) (m : gmap uuid V) :
  existsb P (map_to_list m).*2 = false → ∀ i v, m !! i = Some v → P v = false.
Proof.
  intros Hf i v Hi. destruct (P v) eqn:HP; [|done]. rewrite <-Hf. symmetry. apply existsb_exists.
  exists v. split; [|done]. apply list_elem_of_In, list_elem_of_fmap. exists (i, v).
  split; [done|]. by apply elem_of_map_to_list.
Qed.

Lemma find_user_ok d name u :
  auth_ok d → find_user name d = Some u → users d !! UserModel.id u = Some u ∧ UserModel.username u = name.
Proof.
  intros Hok (i & Hi & Hn)%find_map. pose proof (ao_users _ Hok i u Hi) as ->.
  by apply String.eqb_eq in Hn.
Qed.
Lemma session_found d h r u :
  auth_ok d → get_session_with_user h d = Some (r, u) →
  sessions d !! SessionModel.id r = Some r ∧ SessionModel.token_hash r = h
  ∧ users d !! SessionModel.user_id r = Some u ∧ UserModel.id u = SessionModel.user_id r.
Proof.
  unfold get_session_with_user. intros Hok Hg. apply bind_Some in Hg as (r' & Hf & (u' & Hu & [= -> ->])%bind_Some).
  apply find_map in Hf as (i & Hi & Hh). apply String.eqb_eq in Hh.
  destruct (ao_sessions _ Hok i r Hi) as (<- & _). by eauto using ao_users.
Qed.
Lemma session_of_hash d i r :
  auth_ok d → sessions d !! i = Some r →
  ∃ u, users d !! SessionModel.user_id r = Some u
    ∧ get_session_with_user (SessionModel.token_hash r) d = Some (r, u).
Proof.
  intros Hok Hi. destruct (ao_sessions _ Hok i r Hi) as (_ & [u Hu] & _). exists u. split; [done|].
  unfold get_session_with_user. rewrite (find_map_unique _ _ i r Hi); [simpl; by rewrite Hu|by apply String.eqb_eq|].
  intros j q Hj Hq%String.eqb_eq. by eapply (ao_tokens _ Hok).
Qed.

(** ** What transactions do to sessions *)

(** A row keeps its identity; once revoked it is never changed. *)
Definition keeps (r r' : SessionModel.t) : Prop :=
  SessionModel.id r' = SessionModel.id r ∧ SessionModel.user_id r' = SessionModel.user_id r
  ∧ SessionModel.token_hash r' = SessionModel.token_hash r
  ∧ SessionModel.csrf_secret_hash r' = SessionModel.csrf_secret_hash r
  ∧ SessionModel.created_at r' = SessionModel.created_at r
  ∧ SessionModel.absolute_expires_at r' = SessionModel.absolute_expires_at r
  ∧ (is_Some (SessionModel.revoked_at r) → r' = r).
Definition evolves (d d' : auth) : Prop :=
  ∀ i r, sessions d !! i = Some r → ∃ r', sessions d' !! i = Some r' ∧ keeps r r'.
Lemma session_keeps_refl r : keeps r r.
Proof. by split_and!. Qed.
#[local] Instance evolves_preorder : PreOrder evolves.
Proof.
  split.
  - intros d i r Hr. exists r. split; [done|apply session_keeps_refl].
  - intros d1 d2 d3 H12 H23 i r Hr. destruct (H12 i r Hr) as (r2 & Hr2 & K).
    destruct (H23 i r2 Hr2) as (r3 & Hr3 & K'). exists r3. split; [done|].
    destruct K as (? & ? & ? & ? & ? & ? & Hrev), K' as (? & ? & ? & ? & ? & ? & Hrev').
    split_and!; try congruence. intros Hs. specialize (Hrev Hs) as ->. auto.
Qed.

Definition good (d d' : auth) : Prop := auth_ok d → auth_ok d' ∧ evolves d d'.
#[local] Instance good_preorder : PreOrder good.
Proof.
  split.
  - intros d Hok. by split.
  - intros d1 d2 d3 H12 H23 Hok. destruct (H12 Hok) as [Hok2 He]. destruct (H23 Hok2) as [Hok3 He'].
    split; [done|by etrans].
Qed.

Lemma good_frame d d' :
  users d' = users d → sessions d' = sessions d → bootstraps d' = bootstraps d → good d d'.
Proof.
  intros Hu Hs Hb [? ? ? ? ? ?]. split.
  - split; rewrite ?Hu, ?Hs, ?Hb; done.
  - unfold evolves. rewrite Hs. intros i r Hr. exists r. split; [done|apply session_keeps_refl].
Qed.
Lemma bootstraps_app d l :
  Forall (λ e, Event.name e ≠ bootstrapped_event) l →
  List.filter (λ e, String.eqb (Event.name e) bootstrapped_event) (events d ++ l) = bootstraps d.
Proof.
  intros Hl. rewrite List.filter_app. fold (bootstraps d). replace (List.filter _ l) with (@nil Event.t); [apply app_nil_r|].
  induction Hl as [|e l He Hl IH]; simpl; [done|]. by rewrite (proj2 (String.eqb_neq _ _) He), <-IH.
Qed.
Lemma good_log name data d : name ≠ bootstrapped_event → good d (log name data d).
Proof. intros Hn. apply good_frame; [done..|]. apply bootstraps_app. by repeat constructor. Qed.

Lemma good_session d r r' :
  sessions d !! SessionModel.id r = Some r → SessionModel.revoked_at r = None → keeps r r' →
  SessionModel.expires_at r' ≤ SessionModel.absolute_expires_at r' →
  good d (set_sessions (<[SessionModel.id r := r']> (sessions d)) d).
Proof.
  intros Hr Hopen (Hid & Huser & Htoken & Hcsrf & Hcreated & Habs & _) Hexp Hok.
  assert (∀ i q, <[SessionModel.id r := r']> (sessions d) !! i = Some q →
            ∃ q0, sessions d !! i = Some q0 ∧ SessionModel.token_hash q = SessionModel.token_hash q0) as Hback.
  { intros i q. destruct (decide (SessionModel.id r = i)) as [<-|Hne].
    - rewrite lookup_insert_eq. intros [= <-]. by exists r.
    - rewrite lookup_insert_ne by done. by exists q. }
  split.
  - destruct (ao_sessions _ Hok _ _ Hr) as (_ & Hu & _ & Hlife). split; try apply Hok; cbn [set_sessions sessions users].
    + intros i q. destruct (decide (SessionModel.id r = i)) as [<-|Hne].
      * rewrite lookup_insert_eq. intros [= <-]. by rewrite Hid, Huser, Hcreated, Habs in *.
      * rewrite lookup_insert_ne by done. by apply (ao_sessions _ Hok).
    + intros i j q p (q0 & Hq & ->)%Hback (p0 & Hp & ->)%Hback. by eapply (ao_tokens _ Hok).
  - intros i q Hq. cbn [set_sessions sessions]. destruct (decide (SessionModel.id r = i)) as [<-|Hne].
    + rewrite lookup_insert_eq. exists r'. split; [done|]. rewrite Hr in Hq. injection Hq as <-.
      split_and!; try done. intros Hs. rewrite Hopen in Hs. by destruct Hs.
    + rewrite lookup_insert_ne by done. exists q. split; [done|apply session_keeps_refl].
Qed.
Lemma good_revoke now reason d r :
  sessions d !! SessionModel.id r = Some r → SessionModel.revoked_at r = None → good d (revoke now reason r d).
Proof.
  intros Hr Hopen Hok. apply good_session; try done.
  - split_and!; try done. rewrite Hopen. by intros [].
  - by destruct (ao_sessions _ Hok _ _ Hr) as (_ & _ & ? & _).
Qed.

Lemma good_user d u u' :
  users d !! UserModel.id u = Some u → UserModel.id u' = UserModel.id u →
  UserModel.username u' = UserModel.username u →
  (UserModel.enabled u' = true →
     ∀ j v, users d !! j = Some v → UserModel.enabled v = true → j = UserModel.id u) →
  good d (set_users (<[UserModel.id u := u']> (users d)) d).
Proof.
  intros Hu Hid Hname Hen Hok.
  assert (∀ i v, <[UserModel.id u := u']> (users d) !! i = Some v →
            (i = UserModel.id u ∧ v = u') ∨ (i ≠ UserModel.id u ∧ users d !! i = Some v)) as Hback.
  { intros i v. destruct (decide (UserModel.id u = i)) as [<-|Hne].
    - rewrite lookup_insert_eq. intros [= <-]. by left.
    - rewrite lookup_insert_ne by done. auto. }
  split; [|intros i r Hr; exists r; split; [done|apply session_keeps_refl]].
  split; try apply Hok; cbn [set_users sessions users].
  - intros i v [[-> ->]|[_ Hv]]%Hback; [done|]. by apply (ao_users _ Hok).
  - intros i j v w [[-> ->]|[_ Hv]]%Hback [[-> ->]|[_ Hw]]%Hback; try done; rewrite ?Hname.
    + intros He. by eapply (ao_names _ Hok).
    + intros He. by eapply (ao_names _ Hok).
    + by eapply (ao_names _ Hok).
  - intros i j v w [[-> ->]|[_ Hv]]%Hback [[-> ->]|[_ Hw]]%Hback Hev Hew; try done.
    + symmetry. by eapply Hen.
    + by eapply Hen.
    + by eapply (ao_owner _ Hok).
  - intros i r Hr. destruct (ao_sessions _ Hok i r Hr) as (? & Hsome & ? & ?). split_and!; try done.
    destruct (decide (UserModel.id u = SessionModel.user_id r)) as [<-|Hne];
      [rewrite lookup_insert_eq; by eexists|by rewrite lookup_insert_ne].
Qed.

Lemma good_create row d d' :
  create_session row d = Ok d' → is_Some (users d !! SessionModel.user_id row) →
  SessionModel.expires_at row ≤ SessionModel.absolute_expires_at row →
  SessionModel.absolute_expires_at row
    = SessionModel.created_at row + seconds (Settings.session_absolute_seconds (AuthService.settings s)) →
  good d d'.
Proof.
  unfold create_session. intros Hc Hu Hexp Habs Hok. destruct (bool_decide _ || _) eqn:Hfresh; [done|].
  injection Hc as <-. apply orb_false_iff in Hfresh as [Hid Htok]. apply bool_decide_eq_false in Hid.
  rewrite <-eq_None_not_Some in Hid. pose proof (existsb_values _ _ Htok) as Hnew. simpl in Hnew.
  assert (∀ i r, <[SessionModel.id row := row]> (sessions d) !! i = Some r →
            (i = SessionModel.id row ∧ r = row) ∨ sessions d !! i = Some r) as Hback.
  { intros i r. destruct (decide (SessionModel.id row = i)) as [<-|Hne].
    - rewrite lookup_insert_eq. intros [= <-]. by left.
    - rewrite lookup_insert_ne by done. auto. }
  split.
  - split; try apply Hok; cbn [set_sessions sessions users].
    + intros i r [[-> ->]|Hr]%Hback; [by split_and!|by apply (ao_sessions _ Hok)].
    + intros i j r q [[-> ->]|Hr]%Hback [[-> ->]|Hq]%Hback; try done; intros He.
      * apply Hnew in Hq. by rewrite He, String.eqb_refl in Hq.
      * apply Hnew in Hr. by rewrite He, String.eqb_refl in Hr.
      * by eapply (ao_tokens _ Hok).
  - intros i r Hr. exists r. split; [|apply session_keeps_refl]. cbn [set_sessions sessions].
    rewrite lookup_insert_ne; [done|]. intros <-. congruence.
Qed.

Ltac chain :=
  match goal with Hok : auth_ok ?d |- auth_ok ?e ∧ evolves ?d ?e => revert Hok; change (good d e) end.
Lemma good_limits l d : good d (set_limits l d).
Proof. by apply good_frame. Qed.
Lemma good_failed account delay d : good d (login_failed account delay d).
Proof. by apply good_log. Qed.
Lemma good_rotate token now d : good d (_rotate_previous token now d).
Proof.
  intros Hok. unfold _rotate_previous. destruct (get_session_with_user _ d) as [[r u]|] eqn:Hg; [|by split].
  destruct (SessionModel.revoked_at r) eqn:Hrev; [by split|].
  destruct (session_found d _ r u Hok Hg) as (Hr & _). chain.
  etrans; [by apply good_revoke|by apply good_log].
Qed.

Lemma rotate_ok previous now d :
  good d (rotate previous now d) ∧ users (rotate previous now d) = users d
  ∧ (auth_ok d → ∀ token i q, previous = Some token → token ≠ "" → sessions d !! i = Some q →
       SessionModel.token_hash q = sha256 token →
       ∃ q', sessions (rotate previous now d) !! i = Some q' ∧ is_Some (SessionModel.revoked_at q')).
Proof.
  destruct previous as [token|]; [|by split_and!]. simpl. destruct (String.eqb_spec token "") as [->|Hne];
    [split_and!; [done..|]; intros _ ? ? ? [= <-]; done|].
  split_and!; [apply good_rotate|..].
  - unfold _rotate_previous. destruct (get_session_with_user _ _) as [[q v]|]; [|done].
    by destruct (SessionModel.revoked_at q).
  - intros Hok ? i q [= <-] _ Hi Hq. destruct (session_of_hash d i q Hok Hi) as (u & _ & Hg). rewrite Hq in Hg.
    unfold _rotate_previous. rewrite Hg. destruct (SessionModel.revoked_at q) eqn:Hrev.
    + exists q. rewrite Hrev. split; [done|by eexists].
    + simpl. destruct (ao_sessions _ Hok i q Hi) as (-> & _). rewrite lookup_insert_eq.
      eexists. split; [done|by eexists].
Qed.

(** The tables before the new session is stored. *)
Definition prepared (t : login_readings) (user : UserModel.t) (hash : string) (previous : option string)
    (now : Z) (rows : list ((string * string) * LoginRateLimitModel.t)) (d : auth) : auth :=
  rotate previous now
    (set_users (<[UserModel.id user := logged_in now (lr_db_now t) hash user]> (users d)) (save_limits rows d)).
Lemma prepared_tables t u hash previous now rows d :
  auth_ok d → users d !! UserModel.id u = Some u → UserModel.enabled u = true →
  good d (prepared t u hash previous now rows d)
  ∧ users (prepared t u hash previous now rows d) !! UserModel.id u = Some (logged_in now (lr_db_now t) hash u)
  ∧ ∀ token i q, previous = Some token → token ≠ "" → sessions d !! i = Some q →
       SessionModel.token_hash q = sha256 token →
       ∃ q', sessions (prepared t u hash previous now rows d) !! i = Some q' ∧ is_Some (SessionModel.revoked_at q').
Proof.
  intros Hok Hu He. unfold prepared. set (d1 := set_users _ _).
  assert (good d d1) as H01.
  { unfold d1. trans (save_limits rows d); [apply good_limits|].
    apply (good_user (save_limits rows d) u (logged_in now (lr_db_now t) hash u)); try done.
    intros _ j v Hv Hev. by eapply (ao_owner _ Hok). }
  destruct (rotate_ok previous now d1) as (H12 & -> & Hrot). split_and!.
  - by etrans.
  - unfold d1. simpl. by rewrite lookup_insert_eq.
  - apply Hrot. by apply H01.
Qed.

(** What a successful login found and did. *)
Lemma login_granted ob t password m previous now d p n d' :
  auth_ok d → login_write s ob t password m previous now d = Ok (LoginResult.Build_t (Some p) n, d') →
  n = 0 ∧ ∃ name user hash rows,
    ob_normalized ob = Some name ∧ users d !! UserModel.id user = Some user
    ∧ UserModel.username user = name ∧ UserModel.enabled user = true
    ∧ _blocked_seconds (_reset_windows s (lock_rate_limits (ob_keys ob) now d) now) now = 0
    ∧ (if ob_blocked ob || negb (String.eqb (UserModel.password_hash user) (ob_hash ob))
       then verify (UserModel.password_hash user) password else ob_verified ob) = true
    ∧ _new_session s t (logged_in now (lr_db_now t) hash user) now m
        (prepared t user hash previous now rows d) = Ok (p, d').
Proof.
  unfold login_write. intros Hok (? & _ & Hl)%res_bind_ok. revert Hl. cbv zeta.
  destruct (Z.ltb_spec 0 (_blocked_seconds (_reset_windows s (lock_rate_limits (ob_keys ob) now d) now) now)) as [|Hb];
    [done|].
  destruct (_record_failure _ _ _) as [rows' delay].
  destruct (u ← _; find_user u d) as [u|] eqn:Hu; [|done].
  apply bind_Some in Hu as (name & Hn & Hu). apply find_user_ok in Hu as [Hu Hname]; [|done].
  destruct (UserModel.enabled u) eqn:He; [|done]. simpl.
  unfold hash_of. rewrite He. destruct (if ob_blocked ob || _ then _ else _) eqn:Hv; [|done]. simpl.
  unfold login_succeed. intros (hash & _ & ([p' e] & Hnew & [= <- <- <-])%res_bind_ok)%res_bind_ok.
  split; [done|]. eexists name, u, hash, _. split_and!; try done. apply Z.le_antisymm; [done|]. apply Z.le_max_l.
Qed.
Lemma login_refused ob t password m previous now d n d' :
  login_write s ob t password m previous now d = Ok (LoginResult.Build_t None n, d') → good d d'.
Proof.
  unfold login_write. intros (? & _ & Hl)%res_bind_ok. revert Hl. cbv zeta.
  assert (∀ l a k e, good d (login_failed a k (save_limits l d)) ∧ (e = login_failed a k (save_limits l d) → good d e)) as Hf.
  { intros l a k e. assert (good d (login_failed a k (save_limits l d))) by (etrans; [apply good_limits|apply good_failed]).
    split; [done|]. by intros ->. }
  destruct (Z.ltb 0 _); [by intros [= _ <-]; apply Hf|]. destruct (_record_failure _ _ _) as [rows' delay].
  destruct (u ← _; find_user u d) as [u|]; [|by intros [= _ <-]; apply Hf].
  destruct (negb _ || _); [by intros [= _ <-]; apply Hf|].
  unfold login_succeed. by intros (hash & _ & ([p e] & _ & [= <- <- <-])%res_bind_ok)%res_bind_ok.
Qed.

Lemma good_login ob t password m previous now r d d' :
  login_write s ob t password m previous now d = Ok (r, d') → good d d'.
Proof.
  destruct r as [[p|] n]; [|apply login_refused]. intros Hl Hok.
  destruct (login_granted _ _ _ _ _ _ _ _ _ _ Hok Hl) as (_ & name & u & hash & rows & _ & Hu & _ & He & _ & _ & Hn).
  destruct (prepared_tables t u hash previous now rows d Hok Hu He) as (Hg & Hu2 & _).
  unfold _new_session in Hn. apply res_bind_ok in Hn as (d3 & Hc & [= _ <-]).
  chain. etrans; [exact Hg|]. etrans; [|by apply good_log].
  apply (good_create _ _ _ Hc); simpl; [rewrite Hu2; by eexists|apply Z.le_min_r|done].
Qed.

Lemma good_authenticate token read_only now d : good d (authenticate s token read_only now d).2.
Proof.
  intros Hok. unfold authenticate. destruct (Nat.ltb _ _ || _); [by split|].
  destruct (get_session_with_user _ d) as [[r u]|] eqn:Hg; [|by split].
  destruct (session_found d _ r u Hok Hg) as (Hr & _).
  destruct (bool_decide _) eqn:Hrev; [by split|]. apply bool_decide_eq_false in Hrev.
  rewrite <-eq_None_not_Some in Hrev. repeat (case_match; [by split|]). destruct (negb read_only && _); [|by split].
  simpl. chain. apply good_session; try done; [|apply Z.le_min_r]. split_and!; try done. rewrite Hrev. by intros [].
Qed.

Lemma good_revoke_expired token_hash reason now d d' :
  _revoke_expired token_hash reason now d = Ok d' → good d d'.
Proof.
  unfold _revoke_expired. intros (? & _ & Hr)%res_bind_ok Hok. revert Hr.
  destruct (get_session_with_user _ d) as [[r u]|] eqn:Hg; [|by intros [= <-]].
  destruct (session_found d _ r u Hok Hg) as (Hr & _).
  destruct (bool_decide _) eqn:Hrev; [by intros [= <-]|]. apply bool_decide_eq_false in Hrev.
  rewrite <-eq_None_not_Some in Hrev. do 2 (case_match; [by intros [= <-]|]). intros [= <-].
  chain. etrans; [by apply good_revoke|by apply good_log].
Qed.

Lemma good_logout p now r d d' : logout p now d = Ok (r, d') → good d d'.
Proof.
  unfold logout. intros (? & _ & Hl)%res_bind_ok Hok. revert Hl.
  destruct (sessions d !! _) as [row|] eqn:Hi; [|by intros [= _ <-]].
  destruct (ao_sessions _ Hok _ _ Hi) as (Hid & _).
  destruct (bool_decide _) eqn:Hrev; [by intros [= _ <-]|]. apply bool_decide_eq_false in Hrev.
  rewrite <-eq_None_not_Some in Hrev. intros [= _ <-].
  chain. etrans; [apply good_revoke; [by rewrite Hid|done]|by apply good_log].
Qed.

Lemma no_bootstraps d :
  existsb (λ e, String.eqb (Event.name e) bootstrapped_event) (events d) = false → bootstraps d = [].
Proof.
  unfold bootstraps. rewrite existsb_false. intros Hall. induction (events d) as [|e l IH]; [done|]. simpl.
  rewrite Hall by set_solver. apply IH. intros e' He'. apply Hall. set_solver.
Qed.
Lemma good_bootstrap username password i salt now r d d' :
  bootstrap_owner username password i salt now d = Ok (r, d') → good d d'.
Proof.
  unfold bootstrap_owner. destruct (normalize_username username) as [name|]; [|done].
  intros (hash & _ & (? & _ & (? & [Hen Hev]%raise_if_ok%orb_false_iff & (d1 & Hi & [= _ <-])%res_bind_ok)%res_bind_ok)%res_bind_ok)%res_bind_ok Hok.
  unfold insert_user in Hi. destruct (bool_decide _ || _ || _) eqn:Hfresh; [done|]. injection Hi as <-.
  apply orb_false_iff in Hfresh as [[Hid Hname]%orb_false_iff _].
  apply bool_decide_eq_false in Hid, Hname. rewrite <-eq_None_not_Some in Hid, Hname. simpl in Hid, Hname.
  pose proof (existsb_values _ _ Hen) as Hnone. simpl in Hnone.
  assert (∀ j u, users d !! j = Some u → UserModel.username u ≠ name) as Hnames.
  { intros j u Hu. pose proof (find_map_none _ _ j u Hname Hu) as Hne. by apply String.eqb_neq in Hne. }
  set (new := UserModel.Build_t i name hash "owner" true None 0 now now).
  assert (∀ j u, <[i := new]> (users d) !! j = Some u → (j = i ∧ u = new) ∨ users d !! j = Some u) as Hback.
  { intros j u. destruct (decide (i = j)) as [<-|Hne].
    - rewrite lookup_insert_eq. intros [= <-]. by left.
    - rewrite lookup_insert_ne by done. auto. }
  split; [|intros j q Hq; exists q; split; [done|apply session_keeps_refl]].
  split; try apply Hok; cbn [log set_owners set_users users sessions].
  - intros j u [[-> ->]|Hu]%Hback; [done|by apply (ao_users _ Hok)].
  - intros j k u v [[-> ->]|Hu]%Hback [[-> ->]|Hv]%Hback; try done; intros He.
    + by apply Hnames in Hv.
    + by apply Hnames in Hu.
    + by eapply (ao_names _ Hok).
  - intros j k u v [[-> ->]|Hu]%Hback [[-> ->]|Hv]%Hback Heu Hev'; try done.
    + apply Hnone in Hv. congruence.
    + apply Hnone in Hu. congruence.
    + by eapply (ao_owner _ Hok).
  - intros j q Hq. destruct (ao_sessions _ Hok j q Hq) as (? & Hs & ? & ?). split_and!; try done.
    destruct (decide (i = SessionModel.user_id q)) as [->|Hne];
      [rewrite lookup_insert_eq; by eexists|by rewrite lookup_insert_ne].
  - unfold bootstraps. cbn [log events]. rewrite List.filter_app. fold (bootstraps d).
    cbn [set_owners set_users events]. fold (bootstraps d). by rewrite (no_bootstraps _ Hev).
Qed.

Lemma end_sessions_ok user now rows d :
  NoDup (SessionModel.id <$> rows) →
  (∀ r, r ∈ rows → sessions d !! SessionModel.id r = Some r ∧ SessionModel.revoked_at r = None) →
  good d (end_sessions user now d rows)
  ∧ ∀ r, r ∈ rows →
      sessions (end_sessions user now d rows) !! SessionModel.id r
      = Some (SessionModel.revoked now "local_password_reset" r).
Proof.
  revert d. induction rows as [|r rows IH]; intros d Hnd Hrows; [split; [done|set_solver]|].
  apply NoDup_cons in Hnd as [Hr Hnd]. destruct (Hrows r ltac:(set_solver)) as [Hin Hopen].
  set (d1 := session_revoked user (SessionModel.id r) "local_password_reset" (revoke now "local_password_reset" r d)).
  assert (good d d1) as Hg1 by (etrans; [by apply good_revoke|by apply good_log]).
  destruct (IH d1 Hnd) as [Hg2 Hall].
  { intros q Hq. destruct (Hrows q ltac:(set_solver)) as [Hq1 Hq2]. split; [|done]. simpl.
    rewrite lookup_insert_ne; [done|]. intros He. apply Hr. rewrite He. by apply list_elem_of_fmap_2. }
  split; [by etrans|]. intros q [->|Hq]%elem_of_cons; [|by apply Hall].
  change (end_sessions user now d (r :: rows)) with (end_sessions user now d1 rows).
  clear IH Hall Hg1 Hg2 Hrows. assert (sessions d1 !! SessionModel.id r = Some (SessionModel.revoked now "local_password_reset" r))
    as Hd1 by (simpl; by rewrite lookup_insert_eq).
  generalize dependent d1. intros d1 Hd1. revert d1 Hd1. induction rows as [|q rows IH]; intros d1 Hd1; [done|].
  simpl in *. apply IH; [set_solver|by apply NoDup_cons in Hnd as [_ ?]|]. simpl.
  rewrite lookup_insert_ne; [done|]. intros He. apply Hr. rewrite He. set_solver.
Qed.

Lemma open_sessions_ok user d :
  auth_ok d →
  NoDup (SessionModel.id <$> open_sessions user d)
  ∧ ∀ r, r ∈ open_sessions user d ↔
      sessions d !! SessionModel.id r = Some r ∧ SessionModel.user_id r = user ∧ SessionModel.revoked_at r = None.
Proof.
  intros Hok. unfold open_sessions. split.
  - rewrite sorted_key_perm. apply NoDup_fmap_filter.
    assert (SessionModel.id <$> (map_to_list (sessions d)).*2 = (map_to_list (sessions d)).*1) as ->.
    { rewrite <-list_fmap_compose. apply list_fmap_ext. intros ? [i r] Hi%list_elem_of_lookup_2%elem_of_map_to_list.
      by destruct (ao_sessions _ Hok i r Hi). }
    apply NoDup_fst_map_to_list.
  - intros r. rewrite elem_of_sorted_key, list_elem_of_In, filter_In, <-list_elem_of_In, list_elem_of_fmap.
    rewrite andb_true_iff, !bool_decide_eq_true. split.
    + intros (([i r'] & -> & Hi%elem_of_map_to_list) & Hu & Hrev). simpl in *.
      destruct (ao_sessions _ Hok i r' Hi) as (-> & _). done.
    + intros (Hi & Hu & Hrev). split; [|done]. exists (SessionModel.id r, r).
      split; [done|]. by apply elem_of_map_to_list.
Qed.

(** A reset leaves one row per session of the owner, all of them revoked. *)
Lemma reset_ok username password salt now r d d' :
  auth_ok d → reset_owner_password username password salt now d = Ok (r, d') →
  auth_ok d' ∧ evolves d d'
  ∧ ∀ i q, sessions d !! i = Some q → SessionModel.user_id q = r.1 →
      ∃ q', sessions d' !! i = Some q' ∧ is_Some (SessionModel.revoked_at q').
Proof.
  unfold reset_owner_password. intros Hok. destruct (normalize_username username) as [name|]; [|done].
  intros (hash & _ & (? & _ & Hr)%res_bind_ok)%res_bind_ok. destruct (find_user name d) as [u|] eqn:Hu; [|done].
  destruct (find_user_ok _ _ _ Hok Hu) as [Hin _].
  apply res_bind_ok in Hr as (? & Hothers%raise_if_ok & [= <- <-]). simpl.
  set (u' := UserModel.Build_t (UserModel.id u) _ _ _ _ _ _ _ _).
  set (d1 := set_users (<[UserModel.id u := u']> (users d)) d).
  assert (good d d1) as Hg1.
  { apply good_user; try done. intros _ j v Hv Hev. pose proof (existsb_values _ _ Hothers j v Hv) as Hne.
    simpl in Hne. rewrite Hev in Hne. simpl in Hne. apply negb_false_iff, bool_decide_eq_true in Hne. by rewrite <-(ao_users _ Hok j v Hv). }
  destruct (Hg1 Hok) as [Hok1 _]. destruct (open_sessions_ok (UserModel.id u) d1 Hok1) as [Hnd Hopen].
  destruct (end_sessions_ok (UserModel.id u) now _ d1 Hnd) as [Hg2 Hall]; [intros q Hq; by apply Hopen in Hq as (? & _ & ?)|].
  set (d2 := end_sessions _ _ _ _) in *.
  assert (good d (log "auth.owner_password_reset"
                    [("user_id", JStr (uuid_str (UserModel.id u)));
                     ("revoked_session_count", JInt (Z.of_nat (length (open_sessions (UserModel.id u) d1))))] d2)) as Hg.
  { etrans; [exact Hg1|]. etrans; [exact Hg2|]. by apply good_log. }
  destruct (Hg Hok) as [Hok' Hev]. split_and!; [done..|]. intros i q Hq Huser.
  destruct (SessionModel.revoked_at q) as [t|] eqn:Hrev.
  - destruct (Hev i q Hq) as (q' & Hq' & _ & _ & _ & _ & _ & _ & Hk). exists q'. split; [done|].
    rewrite Hk by (by eexists). by eexists.
  - destruct (ao_sessions _ Hok i q Hq) as (<- & _).
    eexists. split; [apply Hall, Hopen; by split_and!|]. by eexists.
Qed.

Lemma auth_step_ok now d d' : auth_step now d d' → good d d'.
Proof.
  destruct 1 as [d0 username password m t previous r d d' Hl|? ?
                 [token ro d|h reason d d' Hr|p r d d' Hl|username password i salt r d d' Hb|
                  username password salt r d d' Hr|l d d' Hu Hs _ He Hn]].
  - by eapply good_login.
  - apply good_authenticate.
  - by eapply good_revoke_expired.
  - by eapply good_logout.
  - by eapply good_bootstrap.
  - intros Hok. by destruct (reset_ok _ _ _ _ _ _ _ Hok Hr) as (? & ? & _).
  - apply good_frame; [done..|]. unfold bootstraps at 1. rewrite He. by apply bootstraps_app.
Qed.
Lemma auth_steps_ok d d' : rtc any_step d d' → good d d'.
Proof. induction 1 as [d|d1 d2 d3 [now Hs] _ IH]; [done|]. etrans; [by eapply auth_step_ok|done]. Qed.

(** ** Authentication *)

Lemma authenticate_granted d token read_only now p :
  auth_ok d → (authenticate s token read_only now d).1 = Granted p →
  ∃ row user, sessions d !! AuthPrincipal.session_id p = Some row
    ∧ SessionModel.token_hash row = sha256 token ∧ SessionModel.revoked_at row = None
    ∧ users d !! AuthPrincipal.user_id p = Some user ∧ SessionModel.user_id row = UserModel.id user
    ∧ UserModel.enabled user = true ∧ now < SessionModel.expires_at row
    ∧ AuthPrincipal.csrf_token p = derive_csrf_token token (AuthService.server_key s)
    ∧ SessionModel.csrf_secret_hash row = sha256 (AuthPrincipal.csrf_token p).
Proof.
  intros Hok. unfold authenticate. destruct (Nat.ltb _ _ || _); [done|].
  destruct (get_session_with_user _ d) as [[r u]|] eqn:Hg; [|done].
  destruct (session_found d _ r u Hok Hg) as (Hr & Ht & Hu & Hid).
  destruct (bool_decide _) eqn:Hrev; [done|]. apply bool_decide_eq_false in Hrev. rewrite <-eq_None_not_Some in Hrev.
  destruct (negb (UserModel.enabled u)) eqn:He; [done|]. apply negb_false_iff in He.
  destruct (Z.leb (SessionModel.absolute_expires_at r) now); [done|].
  destruct (Z.leb_spec (SessionModel.expires_at r) now); [done|].
  destruct (negb (String.eqb _ _)) eqn:Hc; [done|]. apply negb_false_iff, String.eqb_eq in Hc.
  rewrite <-Hid in Hu. destruct (negb read_only && _); intros [= <-]; exists r, u; by split_and!.
Qed.

(** C7. whatever logins, touches, revocations, logouts, bootstraps and password
resets happened, a token that is authenticated belongs to a stored session that is
not revoked and began less than the absolute lifetime ago, however often it was
touched, and its user is the one enabled owner. *)
Theorem auth_sound d0 d token read_only now p :
  auth_ok d0 → rtc any_step d0 d → (authenticate s token read_only now d).1 = Granted p →
  ∃ row user, sessions d !! AuthPrincipal.session_id p = Some row
    ∧ users d !! AuthPrincipal.user_id p = Some user
    ∧ SessionModel.token_hash row = sha256 token ∧ SessionModel.user_id row = UserModel.id user
    ∧ SessionModel.revoked_at row = None
    ∧ now < SessionModel.created_at row + seconds (Settings.session_absolute_seconds (AuthService.settings s))
    ∧ UserModel.enabled user = true
    ∧ ∀ i u, users d !! i = Some u → UserModel.enabled u = true → i = AuthPrincipal.user_id p.
Proof.
  intros Hok0 Hs Hg. destruct (auth_steps_ok _ _ Hs Hok0) as [Hok _].
  destruct (authenticate_granted _ _ _ _ _ Hok Hg) as (row & user & Hr & Ht & Hrev & Hu & Hid & He & Hexp & _).
  destruct (ao_sessions _ Hok _ _ Hr) as (_ & _ & Hle & Habs).
  exists row, user. split_and!; try done; [lia|]. intros i u Hi Hen. by eapply (ao_owner _ Hok).
Qed.

(** ** What ends a session *)

Inductive ends (i : uuid) : auth → auth → Prop :=
  | ends_logout p now d d' :
      AuthPrincipal.session_id p = i → logout p now d = Ok (true, d') → ends i d d'
  | ends_reset username password salt now owner n q d d' :
      reset_owner_password username password salt now d = Ok ((owner, n), d') →
      sessions d !! i = Some q → SessionModel.user_id q = owner → ends i d d'
  | ends_rotated ob t password m token now p q d d' :
      login_write s ob t password m (Some token) now d = Ok (LoginResult.Build_t (Some p) 0, d') →
      token ≠ "" → sessions d !! i = Some q → SessionModel.token_hash q = sha256 token → ends i d d'.

Lemma ends_ok i d d' :
  auth_ok d → ends i d d' →
  auth_ok d' ∧ ∃ q', sessions d' !! i = Some q' ∧ is_Some (SessionModel.revoked_at q').
Proof.
  intros Hok He. destruct He as [p now d d' Hp Hl|username password salt now owner n q d d' Hr Hi Hq|
                               ob t password m token now p q d d' Hl Hne Hi Hq].
  - subst i. destruct (good_logout _ _ _ _ _ Hl Hok) as [Hok' _]. split; [done|]. unfold logout in Hl.
    apply res_bind_ok in Hl as (? & _ & Hl). destruct (sessions d !! _) as [row|] eqn:Hrow; [|done].
    destruct (ao_sessions _ Hok _ _ Hrow) as (Hid & _). destruct (bool_decide _); [done|]. injection Hl as <-.
    simpl. rewrite Hid, lookup_insert_eq. eexists. split; [done|by eexists].
  - destruct (reset_ok _ _ _ _ _ _ _ Hok Hr) as (? & _ & Hall). split; [done|]. by eapply Hall.
  - destruct (good_login _ _ _ _ _ _ _ _ _ Hl Hok) as [Hok' _]. split; [done|].
    destruct (login_granted _ _ _ _ _ _ _ _ _ _ Hok Hl) as (_ & name & u & hash & rows & _ & Hu & _ & He & _ & _ & Hn).
    destruct (prepared_tables t u hash (Some token) now rows d Hok Hu He) as (_ & _ & Hrot).
    destruct (Hrot token i q eq_refl Hne Hi Hq) as (q' & Hq' & Hrev). exists q'. split; [|done].
    unfold _new_session in Hn. apply res_bind_ok in Hn as (d3 & Hc & [= _ <-]). unfold create_session in Hc.
    destruct (bool_decide _ || _) eqn:Hfresh; [done|]. injection Hc as <-.
    apply orb_false_iff in Hfresh as [Hnew _]. apply bool_decide_eq_false in Hnew. simpl in *.
    rewrite lookup_insert_ne; [done|]. intros <-. apply Hnew. by eexists.
Qed.

(** C10. a session that its owner left, that a password reset of its user ended or
that a login with its token replaced is never authenticated again, and its row never
changes. *)
Theorem ended_forever i d d1 d2 row token read_only now :
  auth_ok d → ends i d d1 → rtc any_step d1 d2 →
  sessions d1 !! i = Some row → sha256 token = SessionModel.token_hash row →
  sessions d2 !! i = Some row ∧ authenticate s token read_only now d2 = (Denied, d2).
Proof.
  intros Hok He Hs Hi Ht. destruct (ends_ok _ _ _ Hok He) as (Hok1 & row' & Hi' & Hrev).
  rewrite Hi in Hi'. injection Hi' as <-. destruct (auth_steps_ok _ _ Hs Hok1) as [Hok2 Hev].
  destruct (Hev i row Hi) as (row2 & Hi2 & _ & _ & _ & _ & _ & _ & Hk). rewrite (Hk Hrev) in Hi2.
  split; [done|]. unfold authenticate. destruct (Nat.ltb _ _ || _); [done|]. rewrite Ht.
  destruct (session_of_hash _ _ _ Hok2 Hi2) as (u & _ & ->). by rewrite bool_decide_true.
Qed.

(** ** Logins *)

Lemma unblocked rows now :
  _blocked_seconds rows now = 0 →
  ∀ k row until, (k, row) ∈ rows → LoginRateLimitModel.locked_until row = Some until → until ≤ now.
Proof.
  intros Hb k row until Hin Hlock. destruct (Z.le_gt_cases until now) as [|Hgt]; [done|]. exfalso.
  assert (∀ l x, x ∈ l → x ≤ foldr Z.max 0 l) as Hmax.
  { induction l as [|y l IH]; intros x; [by intros ?%elem_of_nil|]. intros [->|Hx]%elem_of_cons; simpl; [lia|].
    specialize (IH x Hx). lia. }
  assert (until - now ∈ omap (remaining now) rows.*2) as Hr.
  { apply list_elem_of_omap. exists row. split; [apply list_elem_of_fmap; by exists (k, row)|].
    unfold remaining. rewrite Hlock. simpl. by rewrite (proj2 (Z.ltb_lt _ _) Hgt). }
  apply Hmax in Hr. unfold _blocked_seconds in Hb. set (worst := foldr Z.max 0 _) in *.
  unfold ceil_seconds in Hb. assert (- worst / 1000000 < 0) by (apply Z.div_lt_upper_bound; lia). lia.
Qed.

(** C8. a login that succeeds, whatever happened between its two transactions, names
the enabled owner, has verified the password against the hash stored at the time of
the decision, and none of its two rate limits was locked. *)
Theorem login_sound d0 d username password m t previous now p n d' :
  auth_ok d →
  login_write s (login_read s username password m now d0) t password m previous now d
    = Ok (LoginResult.Build_t (Some p) n, d') →
  ∃ user, users d !! AuthPrincipal.user_id p = Some user
    ∧ normalize_username username = Some (UserModel.username user)
    ∧ UserModel.enabled user = true ∧ verify (UserModel.password_hash user) password = true
    ∧ ∀ k row until, k ∈ ob_keys (login_read s username password m now d0) → limits d !! k = Some row →
        in_window s now row = true → LoginRateLimitModel.locked_until row = Some until → until ≤ now.
Proof.
  intros Hok Hl.
  destruct (login_granted _ _ _ _ _ _ _ _ _ _ Hok Hl) as (_ & name & u & hash & rows & Hn & Hu & Hname & He & Hb & Hv & Hnew).
  unfold _new_session in Hnew. apply res_bind_ok in Hnew as (d3 & _ & [= <- _]). simpl. exists u.
  split_and!; [done|by rewrite Hname|done|..].
  - revert Hv. simpl. set (blocked := Z.ltb 0 _). destruct blocked; [done|]. simpl.
    destruct (String.eqb_spec (UserModel.password_hash u) (hash_of s (u0 ← normalize_username username; find_user u0 d0)))
      as [<-|_]; done.
  - intros k row until Hk Hrow Hw Hlock.
    apply (unblocked _ _ Hb k row until); [|done]. unfold _reset_windows, lock_rate_limits.
    rewrite <-list_fmap_compose. apply list_elem_of_fmap. exists k. split; [|done]. simpl.
    rewrite Hrow. simpl. unfold reset_window. by rewrite Hw.
Qed.

(** C9. the session a login returns authenticates until it is idle for too long: its
token yields a principal with the same session, user and CSRF token, which expires
no earlier, and a read-only request yields exactly the principal of the login and
changes nothing. *)
Theorem login_authenticates ob t password m previous now d p n d' later read_only :
  auth_ok d →
  (32 ≤ py_len (lr_token t) ≤ 256)%nat →
  login_write s ob t password m previous now d = Ok (LoginResult.Build_t (Some p) n, d') →
  now ≤ later < AuthPrincipal.idle_expires_at p →
  ∃ p' d'', authenticate s (AuthPrincipal.session_token p) read_only later d' = (Granted p', d'')
    ∧ AuthPrincipal.session_id p' = AuthPrincipal.session_id p
    ∧ AuthPrincipal.user_id p' = AuthPrincipal.user_id p
    ∧ AuthPrincipal.csrf_token p' = AuthPrincipal.csrf_token p
    ∧ AuthPrincipal.idle_expires_at p ≤ AuthPrincipal.idle_expires_at p'
    ∧ (read_only = true → p' = p ∧ d'' = d').
Proof.
  intros Hok Hlen Hl Hlater. destruct (good_login _ _ _ _ _ _ _ _ _ Hl Hok) as [Hok' _].
  destruct (login_granted _ _ _ _ _ _ _ _ _ _ Hok Hl) as (_ & name & u & hash & rows & _ & Hu & _ & He & _ & _ & Hn).
  destruct (prepared_tables t u hash previous now rows d Hok Hu He) as (_ & Hu2 & _).
  unfold _new_session in Hn. apply res_bind_ok in Hn as (d3 & Hc & [= <- <-]). unfold create_session in Hc.
  destruct (bool_decide _ || _); [done|]. injection Hc as <-.
  set (row := new_session_row s t (logged_in now (lr_db_now t) hash u) now m) in *.
  set (d3 := log _ _ _) in *. cbn [_principal AuthPrincipal.session_token].
  assert (sessions d3 !! lr_session t = Some row) as Hrow by (apply lookup_insert_eq).
  destruct (session_of_hash d3 _ _ Hok' Hrow) as (v & Hv & Hg).
  assert (v = logged_in now (lr_db_now t) hash u) as -> by (change (users d3) with (users (prepared t u hash previous now rows d)) in Hv; simpl in Hv; congruence).
  unfold authenticate. rewrite (proj2 (Nat.ltb_ge _ _)), (proj2 (Nat.ltb_ge _ _)) by lia. cbn [orb].
  change (SessionModel.token_hash row) with (sha256 (lr_token t)) in Hg. rewrite Hg. cbn [negb].
  change (UserModel.enabled (logged_in now (lr_db_now t) hash u)) with (UserModel.enabled u). rewrite He.
  rewrite bool_decide_false by (by intros []). cbn [negb].
  assert (SessionModel.expires_at row ≤ SessionModel.absolute_expires_at row) as Hle by apply Z.le_min_r.
  simpl in Hlater. change (Z.min _ _) with (SessionModel.expires_at row) in Hlater.
  rewrite (proj2 (Z.leb_gt (SessionModel.absolute_expires_at row) later)) by lia.
  rewrite (proj2 (Z.leb_gt (SessionModel.expires_at row) later)) by lia.
  rewrite (proj2 (String.eqb_eq _ _)) by done. cbn [negb].
  destruct (negb read_only && _) eqn:Ht; eexists _, _; (split; [reflexivity|]); split_and!; try done.
  - apply Z.min_le_compat_r. lia.
  - intros ->. done.
Qed.

(** ** The rate limits *)

(** The time that must pass from the start of a window to the [n]th failure. *)
Definition lock_time (scope : string) (n : Z) : Z :=
  foldr Z.add 0 (delay_after s scope <$> seqZ (limit_of s scope) (n - limit_of s scope)).

Lemma lock_time_below scope n : n ≤ limit_of s scope → lock_time scope n = 0.
Proof. intros Hn. unfold lock_time. by rewrite seqZ_nil by lia. Qed.
Lemma sum_app (l k : list Z) : foldr Z.add 0 (l ++ k) = foldr Z.add 0 l + foldr Z.add 0 k.
Proof. induction l as [|x l IH]; simpl; lia. Qed.
Lemma lock_time_next scope n :
  limit_of s scope ≤ n → lock_time scope (n + 1) = lock_time scope n + delay_after s scope n.
Proof.
  intros Hn. unfold lock_time. replace (n + 1 - limit_of s scope) with ((n - limit_of s scope) + 1) by lia.
  rewrite seqZ_app, fmap_app, sum_app by lia. f_equal.
  replace (limit_of s scope + (n - limit_of s scope)) with n by lia. rewrite seqZ_cons by lia.
  rewrite seqZ_nil by lia. simpl. lia.
Qed.
Lemma lock_time_free scope n :
  Settings.login_base_delay_seconds (AuthService.settings s) = 0 →
  1 ≤ Settings.login_max_delay_seconds (AuthService.settings s) → lock_time scope n = 0.
Proof.
  intros Hb Hm. unfold lock_time. induction (seqZ _ _) as [|x l IH]; [done|].
  rewrite fmap_cons. cbn [foldr]. rewrite IH.
  unfold delay_after. rewrite Hb. lia.
Qed.

(** At the clock reading [now]: the failures of the window took their time, and the lock of the
last one is in place. *)
Definition window_seconds : Z := Settings.login_window_seconds (AuthService.settings s).
Record row_ok (now : Z) (scope : string) (row : LoginRateLimitModel.t) : Prop := {
  wo_started : LoginRateLimitModel.window_started_at row ≤ now;
  wo_count : 0 ≤ LoginRateLimitModel.failed_count row;
  wo_failed : lock_time scope (LoginRateLimitModel.failed_count row) < window_seconds;
  wo_locked : 0 < Settings.login_base_delay_seconds (AuthService.settings s) →
    limit_of s scope ≤ LoginRateLimitModel.failed_count row →
    ∃ until, LoginRateLimitModel.locked_until row = Some until
      ∧ LoginRateLimitModel.window_started_at row
        + seconds (lock_time scope (LoginRateLimitModel.failed_count row + 1)) ≤ until;
}.
Definition limits_ok (now : Z) (d : auth) : Prop :=
  ∀ k row, limits d !! k = Some row → row_ok now k.1 row.

Lemma row_ok_later now later scope row : row_ok now scope row → now ≤ later → row_ok later scope row.
Proof. intros [? ? ? ?] Hl. split; [lia|done..]. Qed.

Hypothesis Hvalid : Settings.valid (AuthService.settings s) = true.
Lemma settings_bounds :
  0 < window_seconds ∧ 0 ≤ Settings.login_base_delay_seconds (AuthService.settings s)
  ∧ 1 ≤ Settings.login_max_delay_seconds (AuthService.settings s) ∧ ∀ scope, 1 ≤ limit_of s scope.
Proof.
  pose proof Hvalid as Hv. unfold Settings.valid in Hv. rewrite !andb_true_iff, !Z.leb_le in Hv.
  unfold window_seconds, limit_of. split_and!; [lia..|]. intros scope. destruct (String.eqb _ _); lia.
Qed.

Lemma fresh_row_ok now scope : row_ok now scope (LoginRateLimitModel.Build_t 0 now None now).
Proof.
  destruct settings_bounds as (Hw & _ & _ & Hl). specialize (Hl scope). split; simpl; [lia|lia|rewrite lock_time_below by lia; lia|lia].
Qed.

(** A failure of an unlocked row within its window. *)
Lemma fail_row_ok now k row :
  row_ok now k.1 row → in_window s now row = true →
  (∀ until, LoginRateLimitModel.locked_until row = Some until → until ≤ now) →
  row_ok now k.1 (fail_row s now k row).
Proof.
  intros [Hst Hcount Hf Hlock] Hw%Z.ltb_lt Hfree. destruct settings_bounds as (Hpos & Hbase & Hmax & Hlim). specialize (Hlim k.1).
  unfold fail_row. set (n := LoginRateLimitModel.failed_count row) in *. fold window_seconds in Hw. unfold seconds in *.
  assert (0 < Settings.login_base_delay_seconds (AuthService.settings s) → limit_of s k.1 ≤ n + 1 →
            LoginRateLimitModel.window_started_at row + lock_time k.1 (n + 1) * 1000000 ≤ now) as Hsince.
  { intros Hb Hn. destruct (Z.le_gt_cases (limit_of s k.1) n) as [Hge|Hlt].
    - destruct (Hlock Hb Hge) as (until & Hu & Hle). specialize (Hfree until Hu). lia.
    - rewrite lock_time_below by lia. lia. }
  split; simpl; [done|lia|..].
  - destruct (Z.le_gt_cases (n + 1) (limit_of s k.1)) as [|Hgt]; [rewrite lock_time_below by lia; lia|].
    destruct (Z.eq_dec (Settings.login_base_delay_seconds (AuthService.settings s)) 0) as [Hz|Hz];
      [rewrite lock_time_free by done; lia|]. specialize (Hsince ltac:(lia) ltac:(lia)). lia.
  - intros Hb Hn. rewrite (proj2 (Z.leb_le _ _) Hn), (proj2 (Z.ltb_lt _ _) Hb). simpl. eexists. split; [done|].
    specialize (Hsince Hb Hn). rewrite (lock_time_next _ (n + 1)) by done. unfold seconds. lia.
Qed.

Lemma reset_row_ok now k d :
  ∀ t, t ≤ now → limits_ok t d →
  let row := reset_window s now (default (LoginRateLimitModel.Build_t 0 now None now) (limits d !! k)) in
  row_ok now k.1 row ∧ in_window s now row = true.
Proof.
  intros t Ht Hok. destruct settings_bounds as (Hw & _).
  assert (in_window s now (LoginRateLimitModel.Build_t 0 now None now) = true) as Hfresh.
  { apply Z.ltb_lt. simpl. fold window_seconds. unfold seconds. lia. }
  destruct (limits d !! k) as [row|] eqn:Hk; simpl; unfold reset_window.
  - destruct (in_window s now row) eqn:Hin; [|split; [apply fresh_row_ok|done]].
    split; [|done]. eapply row_ok_later; [by apply Hok|done].
  - rewrite Hfresh. split; [apply fresh_row_ok|done].
Qed.

(** What a login stores for its keys, by its result. *)
Inductive attempt := Quiet | Failed (keys : list (string * string)) | Entered (keys : list (string * string)).
Definition attempt_of (ob : observation) (now : Z) (r : LoginResult.t) (d : auth) : attempt :=
  if Z.ltb 0 (_blocked_seconds (_reset_windows s (lock_rate_limits (ob_keys ob) now d) now) now)
  then Quiet
  else match LoginResult.principal r with
       | None => Failed (ob_keys ob)
       | Some _ => Entered (ob_keys ob)
       end.

Definition stored_row (ob : observation) (now : Z) (r : LoginResult.t) (d : auth) (k : string * string)
    : LoginRateLimitModel.t :=
  let row := reset_window s now
               (default (LoginRateLimitModel.Build_t 0 now None now) (limits d !! k)) in
  match attempt_of ob now r d with
  | Quiet => row
  | Failed _ => fail_row s now k row
  | Entered _ => if String.eqb k.1 "account" then LoginRateLimitModel.Build_t 0 now None now else row
  end.

Lemma login_stored ob t password m previous now r d d' :
  login_write s ob t password m previous now d = Ok (r, d') →
  limits d' = list_to_map ((λ k, (k, stored_row ob now r d k)) <$> ob_keys ob) ∪ limits d.
Proof.
  unfold login_write. intros (? & _ & Hl)%res_bind_ok. revert Hl. cbv zeta.
  unfold stored_row, attempt_of.
  set (rows := _reset_windows s (lock_rate_limits (ob_keys ob) now d) now).
  set (row := λ k, reset_window s now
    (default (LoginRateLimitModel.Build_t 0 now None now) (limits d !! k))).
  assert (rows = (λ k, (k, row k)) <$> ob_keys ob) as Hrows
    by (unfold rows, _reset_windows, lock_rate_limits; by rewrite <-list_fmap_compose).
  destruct (Z.ltb_spec 0 (_blocked_seconds rows now)) as [|Hb].
  { intros [= _ <-]. simpl. by rewrite Hrows. }
  assert (∀ e n, Ok (LoginResult.Build_t None n,
                     login_failed (ob_account ob) n (save_limits (_record_failure s rows now).1 d))
            = @Ok auth_error _ (r, e) →
          limits e = list_to_map ((λ k, (k, match (match LoginResult.principal r with
                                                   | None => Failed (ob_keys ob)
                                                   | Some _ => Entered (ob_keys ob)
                                                   end) with
            | Quiet => row k
            | Failed _ => fail_row s now k (row k)
            | Entered _ => if String.eqb k.1 "account"
                           then LoginRateLimitModel.Build_t 0 now None now else row k
            end)) <$> ob_keys ob) ∪ limits d) as Hfail.
  { intros e n [= <- <-]. simpl. by rewrite Hrows, <-list_fmap_compose. }
  unfold _record_failure at 1. cbv zeta.
  destruct (u ← _; find_user u d) as [u|]; [|by intros ?%Hfail].
  destruct (negb _ || _); [by intros ?%Hfail|]. unfold login_succeed.
  intros (hash & _ & ([p e] & Hn & [= <- <-])%res_bind_ok)%res_bind_ok. cbn [LoginResult.principal].
  unfold _new_session, create_session in Hn. apply res_bind_ok in Hn as (d3 & Hc & [= _ <-]).
  destruct (bool_decide _ || _); [done|]. injection Hc as <-.
  transitivity (list_to_map (succeed_row now <$> rows) ∪ limits d).
  - simpl. unfold rotate. destruct previous as [token|]; [|done]. destruct (String.eqb token ""); [done|].
    unfold _rotate_previous. destruct (get_session_with_user _ _) as [[q v]|]; [|done].
    by destruct (SessionModel.revoked_at q).
  - by rewrite Hrows, <-list_fmap_compose.
Qed.

Lemma login_row ob t password m previous now r d d' k :
  login_write s ob t password m previous now d = Ok (r, d') →
  limits d' !! k = if bool_decide (k ∈ ob_keys ob) then Some (stored_row ob now r d k) else limits d !! k.
Proof.
  intros ->%login_stored. case_bool_decide as Hk.
  - assert ((list_to_map ((λ k, (k, stored_row ob now r d k)) <$> ob_keys ob)
               : gmap (string * string) LoginRateLimitModel.t) !! k
            = Some (stored_row ob now r d k)) as Hrow.
    { apply elem_of_list_to_map_1'; [|by apply list_elem_of_fmap; exists k].
      by intros y (k' & [= -> ->] & _)%list_elem_of_fmap. }
    by apply lookup_union_Some_l.
  - rewrite lookup_union_r; [done|]. apply not_elem_of_list_to_map_1.
    rewrite <-list_fmap_compose. simpl. by rewrite list_fmap_id.
Qed.

(** No lock is left when a password is tried. *)
Lemma tried_free ob now d k row until :
  _blocked_seconds (_reset_windows s (lock_rate_limits (ob_keys ob) now d) now) now ≤ 0 →
  k ∈ ob_keys ob →
  reset_window s now (default (LoginRateLimitModel.Build_t 0 now None now) (limits d !! k)) = row →
  LoginRateLimitModel.locked_until row = Some until → until ≤ now.
Proof.
  intros Hb Hk Hrow. apply (unblocked (_reset_windows s (lock_rate_limits (ob_keys ob) now d) now) now) with (k := k).
  - apply Z.le_antisymm; [done|apply Z.le_max_l].
  - unfold _reset_windows, lock_rate_limits. rewrite <-list_fmap_compose. apply list_elem_of_fmap.
    exists k. by rewrite <-Hrow.
Qed.

Lemma login_limits_ok now t ob readings password m previous r d d' :
  t ≤ now → limits_ok t d → login_write s ob readings password m previous now d = Ok (r, d') → limits_ok now d'.
Proof.
  intros Ht Hok Hl k row'. rewrite (login_row _ _ _ _ _ _ _ _ _ k Hl). case_bool_decide as Hk.
  2:{ intros Hr. eapply row_ok_later; [by apply Hok|done]. }
  intros [= <-]. destruct (reset_row_ok now k d t Ht Hok) as [Hrow Hw]. unfold stored_row, attempt_of.
  destruct (Z.ltb_spec 0 (_blocked_seconds (_reset_windows s (lock_rate_limits (ob_keys ob) now d) now) now))
    as [|Hb]; [done|].
  destruct (LoginResult.principal r); [destruct (String.eqb _ _); [apply fresh_row_ok|done]|].
  apply fail_row_ok; [done|done|]. intros u. by eapply tried_free.
Qed.

Lemma same_limits now t d d' : t ≤ now → limits_ok t d → limits d' = limits d → limits_ok now d'.
Proof. intros Ht Hok Hl k row. rewrite Hl. intros Hk. eapply row_ok_later; [by apply Hok|done]. Qed.
Lemma end_sessions_limits user now d rows : limits (end_sessions user now d rows) = limits d.
Proof. revert d. induction rows as [|r rows IH]; intros d; [done|]. apply (IH (session_revoked _ _ _ (revoke _ _ r d))). Qed.
Lemma quiet_limits now d d' : quiet_step now d d' → limits d' = limits d.
Proof.
  destruct 1 as [token ro d|h reason d d' Hr|p r d d' Hl|username password i salt r d d' Hb|
                 username password salt r d d' Hr|l d d' _ _ Hl _ _].
  - unfold authenticate. destruct (Nat.ltb _ _ || _); [done|]. destruct (get_session_with_user _ d) as [[q u]|]; [|done].
    by repeat case_match.
  - unfold _revoke_expired in Hr. apply res_bind_ok in Hr as (? & _ & Hr).
    destruct (get_session_with_user _ d) as [[q u]|]; [|by injection Hr as <-].
    repeat (case_match; [by injection Hr as <-|]). by injection Hr as <-.
  - unfold logout in Hl. apply res_bind_ok in Hl as (? & _ & Hl).
    destruct (sessions d !! _); [|by injection Hl as _ <-]. case_match; by injection Hl as _ <-.
  - unfold bootstrap_owner in Hb. destruct (normalize_username username); [|done].
    apply res_bind_ok in Hb as (? & _ & (? & _ & (? & _ & (d1 & Hi & [= _ <-])%res_bind_ok)%res_bind_ok)%res_bind_ok).
    unfold insert_user in Hi. case_match; [done|]. by injection Hi as <-.
  - unfold reset_owner_password in Hr. destruct (normalize_username username); [|done].
    apply res_bind_ok in Hr as (? & _ & (? & _ & Hr)%res_bind_ok). destruct (find_user _ d); [|done].
    apply res_bind_ok in Hr as (? & _ & [= _ <-]).
    etrans; [apply end_sessions_limits|done].
  - exact Hl.
Qed.

(** *** Histories *)

(** One transaction, with what it means for the rate limits. *)
Inductive auth_event (now : Z) (d : auth) : attempt → auth → Prop :=
  | ae_login d0 username password m t previous r d' :
      login_write s (login_read s username password m now d0) t password m previous now d = Ok (r, d') →
      auth_event now d (attempt_of (login_read s username password m now d0) now r d) d'
  | ae_quiet d' : quiet_step now d d' → auth_event now d Quiet d'.

(** The transactions between two states with the clock readings they use, which do not go back. *)
Inductive history : Z * auth → list (Z * attempt) → Z * auth → Prop :=
  | history_nil c : history c [] c
  | history_snoc c l t d t' x d' :
      history c l (t, d) → t ≤ t' → auth_event t' d x d' → history c (l ++ [(t', x)]) (t', d').

(** The passwords that were tried for a key and found wrong; the logins that succeeded for it. *)
Definition failed_for (k : string * string) (x : attempt) : Prop := ∃ keys, x = Failed keys ∧ k ∈ keys.
Definition entered_for (k : string * string) (x : attempt) : Prop := ∃ keys, x = Entered keys ∧ k ∈ keys.
#[global] Instance failed_for_dec k x : Decision (failed_for k x).
Proof.
  refine (match x with
          | Failed keys => cast_if (decide (k ∈ keys))
          | _ => right _
          end); unfold failed_for; naive_solver.
Defined.
Definition guesses (k : string * string) (l : list (Z * attempt)) : nat :=
  length (filter (λ tx, failed_for k tx.2) l).

Lemma guesses_snoc k l t x :
  guesses k (l ++ [(t, x)]) = (guesses k l + if bool_decide (failed_for k x) then 1 else 0)%nat.
Proof.
  unfold guesses. rewrite filter_app, length_app, filter_cons, filter_nil. simpl.
  by case_bool_decide; case_decide.
Qed.

Lemma event_limits_ok t now d x d' : t ≤ now → limits_ok t d → auth_event now d x d' → limits_ok now d'.
Proof.
  intros Ht Hok [d0 username password m r previous res d1 Hl|d1 Hq]; [by eapply login_limits_ok|].
  eapply same_limits; [done..|]. by eapply quiet_limits.
Qed.
Lemma history_limits_ok c l c' : history c l c' → limits_ok c.1 c.2 → limits_ok c'.1 c'.2.
Proof. induction 1 as [c|c l t d t' x d' _ IH Ht He]; [done|]. intros Hok. eapply event_limits_ok; [done| |done]. by apply IH. Qed.

Lemma delay_nonneg scope n : limit_of s scope ≤ n → 0 ≤ delay_after s scope n.
Proof.
  intros Hn. destruct settings_bounds as (_ & Hb & Hm & _). unfold delay_after.
  assert (0 ≤ 2 ^ Z.min (n - limit_of s scope) 30) by (apply Z.pow_nonneg; lia).
  apply Z.min_glb; [lia|]. by apply Z.mul_nonneg_nonneg.
Qed.
Lemma lock_time_step scope n : lock_time scope n ≤ lock_time scope (n + 1).
Proof.
  destruct (Z.le_gt_cases (limit_of s scope) n) as [Hn|Hn].
  - rewrite lock_time_next by done. pose proof (delay_nonneg scope n Hn). lia.
  - rewrite !lock_time_below by lia. lia.
Qed.
Lemma lock_time_mono scope n m : n ≤ m → lock_time scope n ≤ lock_time scope m.
Proof.
  intros Hnm. replace m with (n + Z.of_nat (Z.to_nat (m - n))) by lia.
  induction (Z.to_nat (m - n)) as [|i IH]; [by rewrite Z.add_0_r|]. etrans; [exact IH|].
  replace (n + Z.of_nat (S i)) with (n + Z.of_nat i + 1) by lia. apply lock_time_step.
Qed.
(** The most failures that fit into one window. *)
Lemma failures_fit N t d k row :
  limits_ok t d → limits d !! k = Some row → window_seconds ≤ lock_time k.1 (N + 1) →
  LoginRateLimitModel.failed_count row ≤ N.
Proof.
  intros Hok Hk HN. destruct (Hok k row Hk) as [_ _ Hf _].
  destruct (Z.le_gt_cases (LoginRateLimitModel.failed_count row) N) as [|Hgt]; [done|].
  pose proof (lock_time_mono k.1 (N + 1) (LoginRateLimitModel.failed_count row)). lia.
Qed.

(** The failures [g] counted since [start]: those of the stored window, and at most [N] before. *)
Definition counted (N start : Z) (k : string * string) (g : nat) (d : auth) : Prop :=
  match limits d !! k with
  | None => g = 0%nat
  | Some row =>
      Z.of_nat g ≤ LoginRateLimitModel.failed_count row
      ∨ (Z.of_nat g ≤ N + LoginRateLimitModel.failed_count row
         ∧ start ≤ LoginRateLimitModel.window_started_at row)
  end.

Lemma counted_event N start k g t now d x d' :
  t ≤ now → start ≤ now < start + seconds window_seconds → limits_ok t d →
  window_seconds ≤ lock_time k.1 (N + 1) → 0 ≤ N → (k.1 = "account" → ¬ entered_for k x) →
  auth_event now d x d' → counted N start k g d →
  counted N start k (g + if bool_decide (failed_for k x) then 1 else 0) d'.
Proof.
  intros Ht Hnow Hok HN Hpos Hent He. destruct He as [d0 username password m r previous res d' Hl|d' Hq].
  2:{ unfold counted. rewrite (quiet_limits _ _ _ Hq), bool_decide_false by (by intros (? & [=] & _)).
      by rewrite Nat.add_0_r. }
  set (ob := login_read s username password m now d0) in *. unfold counted.
  rewrite (login_row _ _ _ _ _ _ _ _ _ k Hl). case_bool_decide as Hk.
  2:{ rewrite bool_decide_false; [by rewrite Nat.add_0_r|]. unfold attempt_of.
      destruct (Z.ltb _ _), (LoginResult.principal res); intros (keys & Hx & ?); congruence. }
  set (old := default (LoginRateLimitModel.Build_t 0 now None now) (limits d !! k)).
  assert (match limits d !! k with
    | None => g = 0%nat
    | Some row => Z.of_nat g ≤ LoginRateLimitModel.failed_count row
      ∨ (Z.of_nat g ≤ N + LoginRateLimitModel.failed_count row
         ∧ start ≤ LoginRateLimitModel.window_started_at row)
    end → Z.of_nat g ≤ LoginRateLimitModel.failed_count (reset_window s now old)
      ∨ (Z.of_nat g ≤ N + LoginRateLimitModel.failed_count (reset_window s now old)
         ∧ start ≤ LoginRateLimitModel.window_started_at (reset_window s now old))) as Hreset.
  { unfold old, reset_window. destruct (limits d !! k) as [row|] eqn:Hrow; simpl.
    - destruct (in_window s now row) eqn:Hw; [done|]. apply Z.ltb_ge in Hw. fold window_seconds in Hw.
      pose proof (failures_fit N t d k row Hok Hrow HN). simpl. lia.
    - intros ->. left. destruct (in_window s now _); simpl; lia. }
  intros Hg. specialize (Hreset Hg). clear Hg. set (row := reset_window s now old) in *.
  unfold stored_row, attempt_of in *. fold old. fold row.
  destruct (Z.ltb 0 _); [rewrite bool_decide_false by (by intros (? & [=] & _)); rewrite Nat.add_0_r; exact Hreset|].
  destruct (LoginResult.principal res).
  - rewrite bool_decide_false by (by intros (? & [=] & _)). rewrite Nat.add_0_r.
    destruct (String.eqb_spec k.1 "account") as [Ha|]; [|exact Hreset]. exfalso. apply (Hent Ha). by eexists.
  - rewrite bool_decide_true by (by eexists). simpl. lia.
Qed.

(** C11. The password guesses on an account are bounded: whatever else happens, in
any interval of one window's length in which nobody logs in to the account at most
2N wrong passwords are tried against it, because windows are fixed and an interval
meets two of them, and at most N are counted in the stored window, N being the
attempts after which the lock lasts a whole window (15 in 15 minutes with the
default settings). Readings of the clock do not go back. *)
Theorem guesses_bounded N start t0 d0 past t1 d1 recent t2 d2 k :
  limits d0 = ∅ → history (t0, d0) past (t1, d1) → history (t1, d1) recent (t2, d2) →
  (∀ t x, (t, x) ∈ recent → start ≤ t < start + seconds window_seconds
                            ∧ (k.1 = "account" → ¬ entered_for k x)) →
  0 ≤ N → window_seconds ≤ lock_time k.1 (N + 1) →
  Z.of_nat (guesses k recent) ≤ 2 * N
  ∧ ∀ row, limits d2 !! k = Some row → LoginRateLimitModel.failed_count row ≤ N.
Proof.
  intros Hempty Hpast Hrecent Hin Hpos HN.
  assert (limits_ok t1 d1) as Hok1.
  { apply (history_limits_ok _ _ _ Hpast). intros ? ?. simpl. by rewrite Hempty. }
  assert (limits_ok t2 d2) as Hok2 by exact (history_limits_ok _ _ _ Hrecent Hok1).
  split; [|intros row Hrow; by eapply failures_fit].
  enough (counted N start k (guesses k recent) d2) as Hc.
  { unfold counted in Hc. destruct (limits d2 !! k) as [row|] eqn:Hrow; [|lia].
    pose proof (failures_fit N t2 d2 k row Hok2 Hrow HN). lia. }
  clear Hok2. remember (t1, d1) as c eqn:Hc. remember (t2, d2) as c' eqn:Hc'.
  revert t2 d2 Hc'. induction Hrecent as [c|c l t d t' x d' Hh IH Ht He]; intros t2 d2 Hc'; subst c.
  { injection Hc' as <- <-. unfold counted. destruct (limits d1 !! k) as [row|] eqn:Hrow; [|done]. left. simpl.
    by apply Hok1 in Hrow as [_ ? _ _]. }
  injection Hc' as <- <-. rewrite guesses_snoc. destruct (Hin t' x) as [Hnow Hent]; [set_solver|].
  apply (counted_event N start k (guesses k l) t t' d x d' Ht Hnow); try done.
  - exact (history_limits_ok _ _ _ Hh Hok1).
  - eapply (IH eq_refl Hpast); [|done]. intros u y Hy. apply Hin, elem_of_app. by left.
Qed.
End system.
