(* ===== verification/WorkflowStudio.v ===== *)
(** * The workflow service

[api/app/jarvis_api/workflows/service.py]: templates with drafts and published versions.  A
draft is saved freely; publication resolves the registry revisions the workflow refers to,
validates the workflow against them and freezes both.

[published_sound] says that what is published is a workflow that the validator accepts
against revisions of the registry, [published_forever] that a published version never
changes, [resolve_enough] that the recursion over references ends.

The state holds the tables of [RegistryService.v], whose lock all transactions take, so
operations are steps of one system; the writer of events is taken to succeed. *)
From S2P Require Import Prelude Enums PyJson PyDecimal Failures Verification Registry WorkflowSpec.
From S2P Require Import Predicates Normalize RawValidation Graph GraphIssues FanoutIssues SnapshotIssues.
From S2P Require Import PolicyIssues Protected Validate Database Circuit Accounting Approvals Regex.
From S2P Require Import Redaction RegistryService.
From stdpp Require Import gmap.
Local Open Scope Z_scope.
Local Open Scope stdpp_scope.

(** ** Contracts *)

Module WorkflowPosition.
Record t := { x : pyfloat; y : pyfloat }.
End WorkflowPosition.
Module WorkflowViewport.
Record t := { x : pyfloat; y : pyfloat; zoom : pyfloat }.
End WorkflowViewport.
Module WorkflowLayout.
Record t := { nodes : list (string * WorkflowPosition.t); viewport : option WorkflowViewport.t }.
Definition empty : t := Build_t [] None.
End WorkflowLayout.

Module WorkflowCommand.
Record t := { expected_version : Z; idempotency_key : string }.
End WorkflowCommand.
Module WorkflowCreateRequest.
Record t := { key : string; name : string; description : string; idempotency_key : string }.
End WorkflowCreateRequest.
Module WorkflowDraftWrite.
Record t := { command : WorkflowCommand.t; spec : WorkflowSpec.t RawNode.t; layout : WorkflowLayout.t }.
End WorkflowDraftWrite.
Module WorkflowValidateRequest.
Record t := { command : WorkflowCommand.t; spec : jobj; layout : jobj }.
End WorkflowValidateRequest.
Module WorkflowNewDraft.
Record t := { command : WorkflowCommand.t; source_version_id : option uuid }.
End WorkflowNewDraft.
Module WorkflowArchiveRequest.
Record t := { command : WorkflowCommand.t; archived : bool }.
End WorkflowArchiveRequest.

Module WorkflowTemplateRecord.
Record t := {
  id : uuid;
  key : string;
  name : string;
  description : string;
  version : Z;
  archived : bool;
  current_draft_version_id : option uuid;
  current_published_version_id : option uuid;
  created_at : Z;
  updated_at : Z;
}.
End WorkflowTemplateRecord.

Module WorkflowVersionRecord.
Record t := {
  id : uuid;
  workflow_template_id : uuid;
  version : Z;
  spec : WorkflowSpec.t RawNode.t;
  layout : WorkflowLayout.t;
  content_hash : string;
  compiler_version : string;
  published : bool;
  created_at : Z;
  published_at : option Z;
  snapshot_hash : option string;
}.
End WorkflowVersionRecord.

Module WorkflowDocument.
Record t := { template : WorkflowTemplateRecord.t; version : WorkflowVersionRecord.t }.
End WorkflowDocument.

(** ** Rows *)

(** [key] is unique. *)
Module WorkflowTemplateModel.
Record t := {
  id : uuid;
  key : string;
  name : string;
  description : string;
  owner_user_id : option uuid;
  current_draft_version_id : option uuid;
  current_published_version_id : option uuid;
  archived_at : option Z;
  version : Z;
  created_at : Z;
  updated_at : Z;
}.
Definition with_draft (draft : option uuid) (r : t) : t :=
  Build_t (id r) (key r) (name r) (description r) (owner_user_id r) draft
    (current_published_version_id r) (archived_at r) (version r) (created_at r) (updated_at r).
Definition with_published (published : option uuid) (r : t) : t :=
  Build_t (id r) (key r) (name r) (description r) (owner_user_id r) (current_draft_version_id r)
    published (archived_at r) (version r) (created_at r) (updated_at r).
Definition with_texts (name description : string) (r : t) : t :=
  Build_t (id r) (key r) name description (owner_user_id r) (current_draft_version_id r)
    (current_published_version_id r) (archived_at r) (version r) (created_at r) (updated_at r).
Definition with_archived (at_ : option Z) (r : t) : t :=
  Build_t (id r) (key r) (name r) (description r) (owner_user_id r) (current_draft_version_id r)
    (current_published_version_id r) at_ (version r) (created_at r) (updated_at r).
Definition with_times (version updated_at : Z) (r : t) : t :=
  Build_t (id r) (key r) (name r) (description r) (owner_user_id r) (current_draft_version_id r)
    (current_published_version_id r) (archived_at r) version (created_at r) updated_at.
End WorkflowTemplateModel.

(** ([workflow_template_id], [version]) is unique. *)
Module WorkflowVersionModel.
Record t := {
  id : uuid;
  workflow_template_id : uuid;
  version : Z;
  spec_version : string;
  compiler_version : string;
  spec_json : jobj;
  layout_json : json;
  content_hash : string;
  resolved_snapshot_json : option json;
  snapshot_hash : option string;
  published_at : option Z;
  created_at : Z;
}.
Definition drafted (spec : jobj) (layout : json) (hash : string) (r : t) : t :=
  Build_t (id r) (workflow_template_id r) (version r) (spec_version r) (compiler_version r) spec layout
    hash (resolved_snapshot_json r) (snapshot_hash r) (published_at r) (created_at r).
Definition frozen (spec : jobj) (hash : string) (snapshot : json) (digest : string) (now : Z) (r : t) : t :=
  Build_t (id r) (workflow_template_id r) (version r) (spec_version r) COMPILER_VERSION spec
    (layout_json r) hash (Some snapshot) (Some digest) (Some now) (created_at r).
End WorkflowVersionModel.

Record studio := {
  base : registry;
  templates : gmap uuid WorkflowTemplateModel.t;
  versions : gmap uuid WorkflowVersionModel.t;
  references_of : list (uuid * uuid);
}.
Definition set_base (b : registry) (d : studio) : studio :=
  Build_studio b (templates d) (versions d) (references_of d).
Definition put_template (r : WorkflowTemplateModel.t) (d : studio) : studio :=
  Build_studio (base d) (<[WorkflowTemplateModel.id r := r]> (templates d)) (versions d) (references_of d).
(** What the registry sees of the versions changes with them. *)
Definition put_version (v : WorkflowVersionModel.t) (d : studio) : studio :=
  let b := base d in
  let i := WorkflowVersionModel.id v in
  Build_studio
    (Build_registry (counter b) (configurations b) (revisions b) (private_refs b) (health b) (worker_view b)
       (<[i := WorkflowVersionModel.published_at v]> (published b)) (records b) (events b))
    (templates d) (<[i := v]> (versions d)) (references_of d).

(** pydantic's work: [model_validate] of layouts and stored responses, the dump of a request
with the fields that were set ([exclude_unset]), and the payload [validate_workflow] makes of
a [WorkflowSpec]. *)
Class StudioModel := {
  layout_validate : json → option WorkflowLayout.t;
  document_validate : json → option WorkflowDocument.t;
  template_validate : json → option WorkflowTemplateRecord.t;
  validation_validate : json → option WorkflowValidationReport.t;
  spec_dump : nspec → jobj;
}.
Class SetDump (A : Type) := set_dump : A → json.
#[export] Hint Mode SetDump ! : typeclass_instances.

Definition problem (status : Z) (code : string) : registry_error :=
  Problem status ("workflow." +:+ code).
Definition validation_error : registry_error := ServerError "ValidationError".

(** ** [safe_workflow_input] *)

(** The loop over the stack; its top is the head of the list. *)
Fixpoint safe_scan (fuel : nat) (stack : list (json * Z)) (count : Z) : option (res registry_error unit) :=
  match stack with
  | [] => Some (Ok tt)
  | (item, depth) :: stack =>
      match fuel with
      | O => None
      | S fuel =>
          if Z.ltb MAX_JSON_DEPTH depth || Z.ltb 100000 (count + 1)
          then Some (Err (problem 422 "resource_limit"))
          else
            match item with
            | JStr s => if String.prefix "secret:" s || String.prefix "file:" s
                        then Some (Err (problem 422 "unsafe_input"))
                        else safe_scan fuel stack (count + 1)
            | _ => if is_non_finite item then Some (Err (problem 422 "unsafe_input"))
                   else safe_scan fuel (reverse ((λ v, (v, depth + 1)) <$> children item) ++ stack) (count + 1)
            end
      end
  end.
(** [safe_scan_total] shows that the fuel is enough. *)
Definition safe_workflow_input `{PyRuntime} (value : json) : res registry_error unit :=
  _ ← default (Ok tt) (safe_scan (json_count value) [(value, 0)] 0);
  if Z.ltb MAX_WORKFLOW_BYTES (Z.of_nat (String.length (canonical_json value)))
  then Err (problem 413 "resource_limit")
  else raise_if (negb (_safe_strings value)) (problem 422 "unsafe_input").

Section service.
Context `{PyRuntime} `{ConfigModel} `{SpecModel} `{SetOrder} `{PyStr} `{StudioModel}
  `{ModelDump WorkflowNode.t} `{ModelDump RawNode.t} `{ModelDump WorkflowEdge.t} `{ModelDump NodePolicy.t}
  `{RegistrySpecModel} `{ModelDump RegistrySpec} `{ModelDump WorkflowResolvedRevision.t}
  `{ModelDump WorkflowResolvedSnapshot.t} `{ModelDump WorkflowLayout.t}
  `{ModelDump WorkflowDocument.t} `{ModelDump WorkflowTemplateRecord.t} `{ModelDump WorkflowValidationReport.t}
  `{ModelDump WorkflowCommand.t} `{ModelDump WorkflowCreateRequest.t} `{ModelDump WorkflowDraftWrite.t}
  `{ModelDump WorkflowValidateRequest.t} `{ModelDump WorkflowNewDraft.t} `{ModelDump WorkflowArchiveRequest.t}
  `{SetDump WorkflowCommand.t} `{SetDump WorkflowCreateRequest.t} `{SetDump WorkflowDraftWrite.t}
  `{SetDump WorkflowValidateRequest.t} `{SetDump WorkflowNewDraft.t} `{SetDump WorkflowArchiveRequest.t}.

(** ** Records of rows *)

Definition template_record (r : WorkflowTemplateModel.t) : WorkflowTemplateRecord.t := {|
  WorkflowTemplateRecord.id := WorkflowTemplateModel.id r;
  WorkflowTemplateRecord.key := WorkflowTemplateModel.key r;
  WorkflowTemplateRecord.name := WorkflowTemplateModel.name r;
  WorkflowTemplateRecord.description := WorkflowTemplateModel.description r;
  WorkflowTemplateRecord.version := WorkflowTemplateModel.version r;
  WorkflowTemplateRecord.archived := bool_decide (is_Some (WorkflowTemplateModel.archived_at r));
  WorkflowTemplateRecord.current_draft_version_id := WorkflowTemplateModel.current_draft_version_id r;
  WorkflowTemplateRecord.current_published_version_id := WorkflowTemplateModel.current_published_version_id r;
  WorkflowTemplateRecord.created_at := WorkflowTemplateModel.created_at r;
  WorkflowTemplateRecord.updated_at := WorkflowTemplateModel.updated_at r;
|}.

Definition payload_of (s : WorkflowSpec.t RawNode.t) : jobj :=
  match canonical_payload s with JObj o => o | _ => [] end.

(** With [consistent_hash]. *)
Definition version_record (r : WorkflowVersionModel.t) : res registry_error WorkflowVersionRecord.t :=
  match spec_validate (WorkflowVersionModel.spec_json r), layout_validate (WorkflowVersionModel.layout_json r) with
  | Ok spec, Some layout =>
      if String.eqb (WorkflowVersionModel.content_hash r) (content_hash spec)
      then Ok {|
        WorkflowVersionRecord.id := WorkflowVersionModel.id r;
        WorkflowVersionRecord.workflow_template_id := WorkflowVersionModel.workflow_template_id r;
        WorkflowVersionRecord.version := WorkflowVersionModel.version r;
        WorkflowVersionRecord.spec := spec;
        WorkflowVersionRecord.layout := layout;
        WorkflowVersionRecord.content_hash := WorkflowVersionModel.content_hash r;
        WorkflowVersionRecord.compiler_version := WorkflowVersionModel.compiler_version r;
        WorkflowVersionRecord.published := bool_decide (is_Some (WorkflowVersionModel.published_at r));
        WorkflowVersionRecord.created_at := WorkflowVersionModel.created_at r;
        WorkflowVersionRecord.published_at := WorkflowVersionModel.published_at r;
        WorkflowVersionRecord.snapshot_hash := WorkflowVersionModel.snapshot_hash r;
      |}
      else Err (problem 422 "unsupported_version")
  | _, _ => Err (problem 422 "unsupported_version")
  end.

Definition _lock (d : studio) : res registry_error unit :=
  raise_if (negb (counter (base d))) (RegistryService._problem 503 "unavailable").
Definition _template (i actor : uuid) (d : studio) : res registry_error WorkflowTemplateModel.t :=
  match templates d !! i with
  | Some r => if bool_decide (WorkflowTemplateModel.owner_user_id r = Some actor) then Ok r
              else Err (problem 404 "not_found")
  | None => Err (problem 404 "not_found")
  end.
Definition _version (r : WorkflowTemplateModel.t) (i : option uuid) (d : studio)
    : res registry_error WorkflowVersionModel.t :=
  match i ≫= λ i, versions d !! i with
  | Some v => if bool_decide (WorkflowVersionModel.workflow_template_id v = WorkflowTemplateModel.id r) then Ok v
              else Err (problem 404 "version_not_found")
  | None => Err (problem 404 "version_not_found")
  end.
(** [a or b or c] of identifiers *)
Definition or_id (a b : option uuid) : option uuid := match a with Some i => Some i | None => b end.
Definition _document (r : WorkflowTemplateModel.t) (i : option uuid) (d : studio)
    : res registry_error WorkflowDocument.t :=
  v ← _version r (or_id i (or_id (WorkflowTemplateModel.current_draft_version_id r)
                             (WorkflowTemplateModel.current_published_version_id r))) d;
  record ← version_record v;
  Ok (WorkflowDocument.Build_t (template_record r) record).

Definition get (i actor : uuid) (version_id : option uuid) (published : bool) (d : studio)
    : res registry_error WorkflowDocument.t :=
  r ← _template i actor d;
  if published then
    match WorkflowTemplateModel.current_published_version_id r with
    | None => Err (problem 404 "version_not_found")
    | Some p => _document r (Some p) d
    end
  else _document r version_id d.

Definition _audit (r : WorkflowTemplateModel.t) (actor : uuid) (action : string)
    (v : option WorkflowVersionModel.t) (valid : option bool) (observed : option string) (d : studio) : studio :=
  let data := [("template_id", JStr (uuid_str (WorkflowTemplateModel.id r)));
               ("version_id", NodeConfig.opt_json (λ v, JStr (uuid_str (WorkflowVersionModel.id v))) v);
               ("actor_id", JStr (uuid_str actor)); ("action", JStr action);
               ("valid", NodeConfig.opt_json JBool valid);
               ("content_hash", NodeConfig.opt_json JStr
                                  (match v with Some v => Some (WorkflowVersionModel.content_hash v) | None => observed end))] in
  set_base (set_events (events (base d) ++ [Event.Build_t None ("workflow." +:+ action) data]) (base d)) d.

(** ** Commands *)

Definition scope_of (actor : uuid) (action : string) (i : option uuid) : string :=
  "workflow:" +:+ uuid_str actor +:+ ":" +:+ action +:+ ":" +:+ match i with Some i => uuid_str i | None => "new" end.
(** The record keeps its state. *)
Definition answer_record (scope key : string) (response : json) (l : list IdempotencyRecordModel.t)
    : list IdempotencyRecordModel.t :=
  (λ r, if record_is scope key r
        then IdempotencyRecordModel.Build_t scope key (IdempotencyRecordModel.request_digest r)
               (IdempotencyRecordModel.state r) (Some response)
        else r) <$> l.

(** What [create], [new_draft], [save], [validate], [publish] and [archive] share: the answer of
an earlier request with the key, or that of [work], which is stored. *)
Definition command {A} `{ModelDump A} (scope key : string) (digest : json) (parse : json → option A)
    (work : studio → res registry_error (A * studio)) (d : studio) : res registry_error (A * studio) :=
  match begin_record scope key (sha256_digest digest) (records (base d)) with
  | IdempotencyConflict => Err (problem 409 "idempotency_conflict")
  | Replay r =>
      match parse (default JNull (IdempotencyRecordModel.response_json r)) with
      | Some a => Ok (a, d)
      | None => Err validation_error
      end
  | Approvals.Fresh begun =>
      done ← work (set_base (set_records begun (base d)) d);
      let '(a, d) := done in
      Ok (a, set_base (set_records (answer_record scope key (model_dump a) (records (base d))) (base d)) d)
  end.

Definition _expected (r : WorkflowTemplateModel.t) (c : WorkflowCommand.t) (allow_archived : bool)
    : res registry_error unit :=
  if negb (Z.eqb (WorkflowTemplateModel.version r) (WorkflowCommand.expected_version c))
  then Err (problem 409 "version_conflict")
  else raise_if (bool_decide (is_Some (WorkflowTemplateModel.archived_at r)) && negb allow_archived)
         (problem 409 "archived").
Definition _touch (now : Z) (r : WorkflowTemplateModel.t) : WorkflowTemplateModel.t :=
  WorkflowTemplateModel.with_times (WorkflowTemplateModel.version r + 1) now r.

(** The fresh identifiers and clock readings of a request. *)
Record readings := { rd_template : uuid; rd_version : uuid; rd_now : Z; rd_db_now : Z }.

(** [select(func.max(version))] or 0 *)
Definition latest (template : uuid) (d : studio) : Z :=
  foldr Z.max 0 (WorkflowVersionModel.version <$>
    List.filter (λ v, bool_decide (WorkflowVersionModel.workflow_template_id v = template)) (map_to_list (versions d)).*2).
Definition _new_version (t : readings) (r : WorkflowTemplateModel.t) (spec : WorkflowSpec.t RawNode.t)
    (layout : WorkflowLayout.t) (d : studio)
    : res registry_error ((WorkflowTemplateModel.t * WorkflowVersionModel.t) * studio) :=
  let v := {|
    WorkflowVersionModel.id := rd_version t;
    WorkflowVersionModel.workflow_template_id := WorkflowTemplateModel.id r;
    WorkflowVersionModel.version := latest (WorkflowTemplateModel.id r) d + 1;
    WorkflowVersionModel.spec_version := WorkflowSpec.spec_version spec;
    WorkflowVersionModel.compiler_version := COMPILER_VERSION;
    WorkflowVersionModel.spec_json := payload_of spec;
    WorkflowVersionModel.layout_json := model_dump layout;
    WorkflowVersionModel.content_hash := content_hash spec;
    WorkflowVersionModel.resolved_snapshot_json := None;
    WorkflowVersionModel.snapshot_hash := None;
    WorkflowVersionModel.published_at := None;
    WorkflowVersionModel.created_at := rd_db_now t;
  |} in
  if bool_decide (is_Some (versions d !! rd_version t)) then Err (ServerError "IntegrityError")
  else
    let r := WorkflowTemplateModel.with_draft (Some (rd_version t)) r in
    Ok ((r, v), put_template r (put_version v d)).

Definition initial_payload (b : WorkflowCreateRequest.t) : jobj :=
  [("key", JStr (WorkflowCreateRequest.key b)); ("name", JStr (WorkflowCreateRequest.name b));
   ("description", JStr (WorkflowCreateRequest.description b)); ("entrypoint", JStr "finish");
   ("nodes", JArr [JObj [("id", JStr "finish"); ("type", JStr "finalize"); ("label", JStr "Finish");
                         ("config", JObj [])]]);
   ("edges", JArr []); ("outputs", JObj [("result_path", JStr "$.final")])].
Definition parsed (payload : jobj) : res registry_error nspec :=
  match spec_validate payload with
  | Err _ => Err validation_error
  | Ok spec => match normalize_workflow spec with Ok n => Ok n | Err _ => Err validation_error end
  end.

Definition create_fresh (t : readings) (b : WorkflowCreateRequest.t) (actor : uuid) (d : studio)
    : res registry_error (WorkflowDocument.t * studio) :=
  if existsb (λ r, String.eqb (WorkflowTemplateModel.key r) (WorkflowCreateRequest.key b)) (map_to_list (templates d)).*2
  then Err (problem 409 "duplicate_key")
  else if bool_decide (is_Some (templates d !! rd_template t)) then Err (ServerError "IntegrityError")
  else
    let r := WorkflowTemplateModel.Build_t (rd_template t) (WorkflowCreateRequest.key b)
      (WorkflowCreateRequest.name b) (WorkflowCreateRequest.description b) (Some actor) None None None 1
      (rd_db_now t) (rd_now t) in
    spec ← parsed (initial_payload b);
    made ← _new_version t r (as_raw spec) WorkflowLayout.empty (put_template r d);
    let '((r, v), d) := made in
    let d := _audit r actor "created" (Some v) None None d in
    result ← _document r None d;
    Ok (result, d).
Definition create (t : readings) (b : WorkflowCreateRequest.t) (actor : uuid) (d : studio)
    : res registry_error (WorkflowDocument.t * studio) :=
  _ ← safe_workflow_input (model_dump b);
  _ ← _lock d;
  command (scope_of actor "create" None) (WorkflowCreateRequest.idempotency_key b) (set_dump b)
    document_validate (create_fresh t b actor) d.

Definition new_draft_fresh (t : readings) (r : WorkflowTemplateModel.t) (b : WorkflowNewDraft.t) (actor : uuid)
    (d : studio) : res registry_error (WorkflowDocument.t * studio) :=
  _ ← _expected r (WorkflowNewDraft.command b) false;
  _ ← raise_if (bool_decide (is_Some (WorkflowTemplateModel.current_draft_version_id r))) (problem 409 "draft_exists");
  source ← _version r (or_id (WorkflowNewDraft.source_version_id b)
                         (WorkflowTemplateModel.current_published_version_id r)) d;
  old ← version_record source;
  made ← _new_version t r (WorkflowVersionRecord.spec old) (WorkflowVersionRecord.layout old) d;
  let '((r, v), d) := made in
  let r := _touch (rd_now t) r in
  let d := _audit r actor "revised" (Some v) None None (put_template r d) in
  result ← _document r None d;
  Ok (result, d).
Definition new_draft (t : readings) (i : uuid) (b : WorkflowNewDraft.t) (actor : uuid) (d : studio)
    : res registry_error (WorkflowDocument.t * studio) :=
  _ ← safe_workflow_input (model_dump b);
  _ ← _lock d;
  r ← _template i actor d;
  command (scope_of actor "new-draft" (Some i)) (WorkflowCommand.idempotency_key (WorkflowNewDraft.command b))
    (set_dump b) document_validate (new_draft_fresh t r b actor) d.

(** The policies with what they inherit. *)
Definition with_policy (p : NodePolicy.t) (n : RawNode.t) : RawNode.t :=
  RawNode.Build_t (RawNode.id n) (RawNode.type n) (RawNode.label n) (RawNode.config n) p.
Definition materialized (spec : WorkflowSpec.t RawNode.t) : WorkflowSpec.t RawNode.t :=
  with_graph spec ((λ n, with_policy (effective_policy spec n) n) <$> WorkflowSpec.nodes spec) (WorkflowSpec.edges spec).
Definition save_fresh (t : readings) (r : WorkflowTemplateModel.t) (b : WorkflowDraftWrite.t) (actor : uuid)
    (d : studio) : res registry_error (WorkflowDocument.t * studio) :=
  _ ← _expected r (WorkflowDraftWrite.command b) false;
  _ ← raise_if (negb (String.eqb (WorkflowSpec.key (WorkflowDraftWrite.spec b)) (WorkflowTemplateModel.key r))
                || negb (String.eqb (WorkflowSpec.spec_version (WorkflowDraftWrite.spec b)) "1.1"))
        (problem 422 "invalid_identity");
  v ← _version r (WorkflowTemplateModel.current_draft_version_id r) d;
  _ ← raise_if (bool_decide (is_Some (WorkflowVersionModel.published_at v))) (problem 409 "immutable");
  let spec := materialized (WorkflowDraftWrite.spec b) in
  let v := WorkflowVersionModel.drafted (payload_of spec) (model_dump (WorkflowDraftWrite.layout b)) (content_hash spec) v in
  let r := _touch (rd_now t) (WorkflowTemplateModel.with_texts (WorkflowSpec.name (WorkflowDraftWrite.spec b))
                                (WorkflowSpec.description (WorkflowDraftWrite.spec b)) r) in
  let d := _audit r actor "revised" (Some v) None None (put_template r (put_version v d)) in
  result ← _document r None d;
  Ok (result, d).
Definition save (t : readings) (i : uuid) (b : WorkflowDraftWrite.t) (actor : uuid) (d : studio)
    : res registry_error (WorkflowDocument.t * studio) :=
  _ ← safe_workflow_input (model_dump b);
  _ ← raise_if (existsb (λ k, negb (bool_decide (k ∈ RawNode.id <$> WorkflowSpec.nodes (WorkflowDraftWrite.spec b))))
                  (WorkflowLayout.nodes (WorkflowDraftWrite.layout b)).*1) (problem 422 "invalid_layout");
  _ ← _lock d;
  r ← _template i actor d;
  command (scope_of actor "save" (Some i)) (WorkflowCommand.idempotency_key (WorkflowDraftWrite.command b))
    (set_dump b) document_validate (save_fresh t r b actor) d.

(** ** [_resolve] *)

(** The dictionary of resolved revisions, and the issues. *)
Notation resolution := (list WorkflowResolvedRevision.t * list WorkflowIssue.t)%type.
Definition kind_issue (node_id : string) : WorkflowIssue.t :=
  WorkflowIssue.Build_t "reference.kind" "Revision kind is incompatible" (Some node_id) None None.
Definition unavailable_issue (node_id : string) : WorkflowIssue.t :=
  WorkflowIssue.Build_t "reference.unavailable" "Referenced revision is missing, disabled or archived"
    (Some node_id) None None.
Definition resolved_of (r : RegistryRecord.t) : WorkflowResolvedRevision.t := {|
  WorkflowResolvedRevision.revision_id := RegistryRecord.revision_id r;
  WorkflowResolvedRevision.configuration_id := RegistryRecord.id r;
  WorkflowResolvedRevision.key := RegistryRecord.key r;
  WorkflowResolvedRevision.revision := RegistryRecord.revision r;
  WorkflowResolvedRevision.display_name := RegistryRecord.display_name r;
  WorkflowResolvedRevision.description := RegistryRecord.description r;
  WorkflowResolvedRevision.enabled := RegistryRecord.enabled r;
  WorkflowResolvedRevision.archived := RegistryRecord.archived r;
  WorkflowResolvedRevision.spec := RegistryRecord.spec r;
  WorkflowResolvedRevision.content_hash := RegistryRecord.content_hash r;
|}.
(** The references of a resolved specification, with their kinds. *)
Definition child_references (s : RegistrySpec) : list (uuid * RegistryKind.t) :=
  match s with
  | SRoutePolicy s => (λ c, (RouteCandidate.profile_revision_id c, RegistryKind.model_profile))
                        <$> RoutePolicySpec.candidates s
  | SModelProfile s => [(ModelProfileSpec.provider_revision_id s, RegistryKind.provider_connection)]
  | SWorker s => (λ i, (i, RegistryKind.model_profile))
                   <$> ModelBinding.allowed_profile_revision_ids (WorkerSpec.model_binding s)
  | SProvider s => match ProviderSpec.retry_policy_revision_id s with
                   | Some i => [(i, RegistryKind.retry_policy)]
                   | None => []
                   end
  | _ => []
  end.

(** [visit]; [resolve_enough] shows that four levels are enough. *)
Fixpoint visit (fuel : nat) (d : registry) (node_id : string) (i : uuid) (expected : RegistryKind.t)
    (st : resolution) : res registry_error resolution :=
  match fuel with
  | O => Ok st
  | S fuel =>
      match find (λ r, bool_decide (WorkflowResolvedRevision.revision_id r = i)) st.1 with
      | Some r => Ok (if bool_decide (spec_kind (WorkflowResolvedRevision.spec r) = expected) then st
                      else (st.1, st.2 ++ [kind_issue node_id]))
      | None =>
          match RegistryService._revision i None true d with
          | Err (Problem _ _) => Ok (st.1, st.2 ++ [unavailable_issue node_id])
          | Err e => Err e
          | Ok r =>
              if negb (bool_decide (spec_kind (RegistryRecord.spec r) = expected))
              then Ok (st.1, st.2 ++ [kind_issue node_id])
              else foldM (λ st ik, visit fuel d node_id ik.1 ik.2 st) (st.1 ++ [resolved_of r], st.2)
                     (child_references (RegistryRecord.spec r))
          end
      end
  end.

(** The references of a node, in the order they are visited. *)
Definition node_references (p : NodePolicy.t) : list (uuid * RegistryKind.t) :=
  (match NodePolicy.worker_selector p with
   | Some w => [(WorkerSelector.revision_id w, RegistryKind.worker)]
   | None => []
   end)
  ++ omap (λ rk, i ← rk.1; Some (i, rk.2))
       [(NodePolicy.model_route_ref p, RegistryKind.route_policy);
        (NodePolicy.retry_policy_ref p, RegistryKind.retry_policy);
        (NodePolicy.permission_policy_ref p, RegistryKind.permission_policy)]
  ++ match NodePolicy.verification p with
     | Some v => (λ i, (i, RegistryKind.execution_profile)) <$> VerificationPolicy.execution_profile_revision_ids v
     | None => []
     end.
Definition _resolve (spec : nspec) (d : registry)
    : res registry_error (WorkflowResolvedSnapshot.t * list WorkflowIssue.t) :=
  st ← foldM (λ st n, foldM (λ st ik, visit 4 d (WorkflowNode.id n) ik.1 ik.2 st) st
                        (node_references (effective_policy spec n))) ([], []) (WorkflowSpec.nodes spec);
  Ok (WorkflowResolvedSnapshot.Build_t (content_hash (as_raw spec)) COMPILER_VERSION st.1, st.2).

(** ** [_evaluate] *)

Definition layout_issues (spec : nspec) (layout : json) : list WorkflowIssue.t :=
  match layout_validate layout with
  | Some l =>
      (λ k, WorkflowIssue.Build_t "layout.unknown_node" "Layout references an unknown node" (Some k) None None)
        <$> py_sorted (List.filter (λ k, negb (bool_decide (k ∈ WorkflowNode.id <$> WorkflowSpec.nodes spec)))
                         (fromkeys (WorkflowLayout.nodes l).*1))
  | None => [WorkflowIssue.Build_t "layout.invalid"
               "Layout must contain bounded finite positions and viewport only" None None (Some "layout")]
  end.
(** [validate_workflow], whose exceptions are not caught *)
Definition checked (payload : jobj) (s : option snapshot) : res registry_error WorkflowValidationReport.t :=
  match validate_workflow payload s with Ok r => Ok r | Err _ => Err validation_error end.

Definition _evaluate (raw : jobj) (layout : json) (d : registry)
    : res registry_error (WorkflowValidationReport.t * option (nspec * snapshot)) :=
  _ ← safe_workflow_input (JObj [("spec", JObj raw); ("layout", layout)]);
  match parsed raw with
  | Err _ => report ← checked raw None; Ok (report, None)
  | Ok spec =>
      resolved ← _resolve spec d;
      let '(snapshot, issues) := resolved in
      report ← checked (spec_dump spec) (Some snapshot);
      let all_issues := WorkflowValidationReport.issues report ++ issues ++ layout_issues spec layout in
      Ok (WorkflowValidationReport.Build_t (Nat.eqb (List.length all_issues) 0) all_issues
            (Some (content_hash (as_raw spec))) (Some (snapshot_hash snapshot)),
          Some (spec, snapshot))
  end.

Definition validate_fresh (r : WorkflowTemplateModel.t) (b : WorkflowValidateRequest.t) (actor : uuid)
    (d : studio) : res registry_error (WorkflowValidationReport.t * studio) :=
  _ ← _expected r (WorkflowValidateRequest.command b) true;
  evaluated ← _evaluate (WorkflowValidateRequest.spec b) (JObj (WorkflowValidateRequest.layout b)) (base d);
  let report := evaluated.1 in
  Ok (report, _audit r actor "validated" None (Some (WorkflowValidationReport.valid report))
                (WorkflowValidationReport.content_hash report) d).
Definition validate (i : uuid) (b : WorkflowValidateRequest.t) (actor : uuid) (d : studio)
    : res registry_error (WorkflowValidationReport.t * studio) :=
  _ ← safe_workflow_input (model_dump b);
  _ ← _lock d;
  r ← _template i actor d;
  command (scope_of actor "validate" (Some i)) (WorkflowCommand.idempotency_key (WorkflowValidateRequest.command b))
    (set_dump b) validation_validate (validate_fresh r b actor) d.

(** ** [publish] *)

(** The rows of [WorkflowRevisionReferenceModel]; the key is the pair. *)
Definition add_references (v : uuid) (s : snapshot) (d : studio) : res registry_error studio :=
  let rows := (λ r, (v, WorkflowResolvedRevision.revision_id r)) <$> WorkflowResolvedSnapshot.revisions s in
  if existsb (λ x, bool_decide (x ∈ references_of d)) rows then Err (ServerError "IntegrityError")
  else Ok (Build_studio (base d) (templates d) (versions d) (references_of d ++ rows)).

Definition publish_fresh (t : readings) (r : WorkflowTemplateModel.t) (b : WorkflowCommand.t) (actor : uuid)
    (d : studio) : res registry_error (WorkflowDocument.t * studio) :=
  _ ← _expected r b false;
  v ← _version r (WorkflowTemplateModel.current_draft_version_id r) d;
  _ ← raise_if (bool_decide (is_Some (WorkflowVersionModel.published_at v))) (problem 409 "immutable");
  evaluated ← _evaluate (WorkflowVersionModel.spec_json v) (WorkflowVersionModel.layout_json v) (base d);
  match evaluated with
  | (report, Some (spec, snapshot)) =>
      _ ← raise_if (negb (WorkflowValidationReport.valid report)) (problem 422 "validation_failed");
      _ ← raise_if (negb (String.eqb (WorkflowSpec.key spec) (WorkflowTemplateModel.key r))
                    || negb (String.eqb (WorkflowSpec.spec_version spec) "1.1")) (problem 422 "invalid_identity");
      d ← add_references (WorkflowVersionModel.id v) snapshot d;
      let v := WorkflowVersionModel.frozen (payload_of (as_raw spec)) (content_hash (as_raw spec))
                 (model_dump snapshot) (snapshot_hash snapshot) (rd_now t) v in
      let r := _touch (rd_now t) (WorkflowTemplateModel.with_published (Some (WorkflowVersionModel.id v))
                                    (WorkflowTemplateModel.with_draft None r)) in
      let d := _audit r actor "published" (Some v) None None (put_template r (put_version v d)) in
      result ← _document r (Some (WorkflowVersionModel.id v)) d;
      Ok (result, d)
  | (_, None) => Err (problem 422 "validation_failed")
  end.
Definition publish (t : readings) (i : uuid) (b : WorkflowCommand.t) (actor : uuid) (d : studio)
    : res registry_error (WorkflowDocument.t * studio) :=
  _ ← safe_workflow_input (model_dump b);
  _ ← _lock d;
  r ← _template i actor d;
  command (scope_of actor "publish" (Some i)) (WorkflowCommand.idempotency_key b)
    (set_dump b) document_validate (publish_fresh t r b actor) d.

Definition archive_fresh (t : readings) (r : WorkflowTemplateModel.t) (b : WorkflowArchiveRequest.t) (actor : uuid)
    (d : studio) : res registry_error (WorkflowTemplateRecord.t * studio) :=
  _ ← _expected r (WorkflowArchiveRequest.command b) true;
  let r := _touch (rd_now t) (WorkflowTemplateModel.with_archived
             (if WorkflowArchiveRequest.archived b then Some (rd_now t) else None) r) in
  let d := _audit r actor (if WorkflowArchiveRequest.archived b then "archived" else "restored") None None None
             (put_template r d) in
  Ok (template_record r, d).
Definition archive (t : readings) (i : uuid) (b : WorkflowArchiveRequest.t) (actor : uuid) (d : studio)
    : res registry_error (WorkflowTemplateRecord.t * studio) :=
  _ ← safe_workflow_input (model_dump b);
  _ ← _lock d;
  r ← _template i actor d;
  command (scope_of actor "archive" (Some i)) (WorkflowCommand.idempotency_key (WorkflowArchiveRequest.command b))
    (set_dump b) template_validate (archive_fresh t r b actor) d.

(** ** Listings *)

(** One row more than the limit is read, to see whether there is a next page. *)
Definition page {A} (ident : A → uuid) (after : option uuid) (limit : nat) (rows : list A) : list A * option uuid :=
  let behind r := match after with Some a => N.ltb a (ident r) | None => true end in
  let found := take (S limit) (sorted_key ident (List.filter behind rows)) in
  (take limit found,
   if Nat.ltb limit (List.length found) then ident <$> found !! (limit - 1)%nat else None).
Definition list_templates (actor : uuid) (after : option uuid) (limit : nat) (d : studio)
    : list WorkflowTemplateRecord.t * option uuid :=
  let owned := List.filter (λ r, bool_decide (WorkflowTemplateModel.owner_user_id r = Some actor))
                 (map_to_list (templates d)).*2 in
  let found := page WorkflowTemplateModel.id after limit owned in
  (template_record <$> found.1, found.2).
Definition list_versions (i actor : uuid) (after : option uuid) (limit : nat) (d : studio)
    : res registry_error (list WorkflowVersionRecord.t * option uuid) :=
  r ← _template i actor d;
  let rows := List.filter (λ v, bool_decide (WorkflowVersionModel.workflow_template_id v = i)) (map_to_list (versions d)).*2 in
  let found := page WorkflowVersionModel.id after limit rows in
  items ← foldM (λ l v, record ← version_record v; Ok (l ++ [record])) [] found.1;
  Ok (items, found.2).
End service.

(** ** Termination *)

Lemma sum_reverse_counts (d : Z) l (stack : list (json * Z)) :
  sum_list_with (λ p, json_count p.1) (reverse ((λ v, (v, d)) <$> l) ++ stack)
  = (sum_list_with json_count l + sum_list_with (λ p, json_count p.1) stack)%nat.
Proof.
  rewrite sum_list_with_app. f_equal.
  rewrite (sum_list_with_perm _ _ _ (reverse_Permutation _)). by rewrite sum_list_with_fmap.
Qed.
Lemma safe_scan_total fuel stack count :
  (sum_list_with (λ p, json_count p.1) stack ≤ fuel)%nat → is_Some (safe_scan fuel stack count).
Proof.
  revert stack count. induction fuel as [|fuel IH]; intros [|[v d] stack] count Hfuel; try by eexists.
  { simpl in Hfuel. rewrite json_count_children in Hfuel. lia. }
  simpl in Hfuel. rewrite json_count_children in Hfuel. cbn [safe_scan].
  destruct (Z.ltb _ d || _); [by eexists|].
  assert (is_Some (safe_scan fuel (reverse ((λ v, (v, d + 1)) <$> children v) ++ stack) (count + 1))) as Hrest.
  { apply IH. rewrite sum_reverse_counts. lia. }
  destruct v as [| | |f|str| |]; try exact Hrest.
  - by destruct f; [exact Hrest|eexists..].
  - destruct (_ || _); [by eexists|]. apply IH. simpl in Hfuel. lia.
Qed.

Section resolution.
Context `{PyRuntime} `{RegistrySpecModel}.

Lemma foldM_ext {E A B} (f g : B → A → res E B) acc l :
  (∀ b x, x ∈ l → f b x = g b x) → foldM f acc l = foldM g acc l.
Proof.
  revert acc. induction l as [|x l IH]; intros acc Hfg; [done|]. simpl. rewrite Hfg by set_solver.
  destruct (g acc x); simpl; [|done]. apply IH. intros. apply Hfg. set_solver.
Qed.

(** How deep the references below a specification of a kind go. *)
Definition rank (k : RegistryKind.t) : nat :=
  match k with
  | RegistryKind.route_policy | RegistryKind.worker => 4
  | RegistryKind.model_profile => 3
  | RegistryKind.provider_connection => 2
  | _ => 1
  end.
Lemma rank_bound k : (1 ≤ rank k ≤ 4)%nat.
Proof. destruct k; simpl; lia. Qed.
Lemma child_rank s i k : (i, k) ∈ child_references s → (rank k < rank (spec_kind s))%nat.
Proof.
  destruct s as [| |w|p|m|r| | | |]; simpl; try by intros ?%elem_of_nil.
  - intros (j & [= -> ->] & _)%list_elem_of_fmap. simpl. lia.
  - destruct (ProviderSpec.retry_policy_revision_id p); [|by intros ?%elem_of_nil].
    intros [= -> ->]%list_elem_of_singleton. simpl. lia.
  - intros [= -> ->]%list_elem_of_singleton. simpl. lia.
  - intros (c & [= -> ->] & _)%list_elem_of_fmap. simpl. lia.
Qed.

Lemma visit_rank n m d node i k st :
  (rank k ≤ n)%nat → (rank k ≤ m)%nat → visit n d node i k st = visit m d node i k st.
Proof.
  revert m i k st. induction n as [|n IH]; intros m i k st Hn Hm; [pose proof (rank_bound k); lia|].
  destruct m as [|m]; [pose proof (rank_bound k); lia|]. cbn [visit].
  destruct (find _ st.1); [done|]. destruct (RegistryService._revision i None true d) as [r|[]]; try done.
  destruct (decide (spec_kind (RegistryRecord.spec r) = k)) as [Hk|]; [|by rewrite bool_decide_false].
  rewrite bool_decide_true by done. cbn [negb]. apply foldM_ext. intros b [j l] Hin. simpl.
  apply child_rank in Hin. rewrite Hk in Hin. apply IH; lia.
Qed.

(** *)
Theorem resolve_enough n d node i k st : visit (4 + n) d node i k st = visit 4 d node i k st.
Proof. pose proof (rank_bound k). apply visit_rank; lia. Qed.
End resolution.

(** ** The system *)

(** A spec parsed from the payload of a normal form is its published form, which is printed the
same way. *)
Class StudioModelLaws `{ConfigModel} `{SpecModel} `{StudioModel} `{ModelDump WorkflowNode.t}
    `{ModelDump RawNode.t} := {
  spec_dump_valid : ∀ payload raw n,
    spec_validate payload = Ok raw → normalize_workflow raw = Ok n → spec_validate (spec_dump n) = Ok (as_raw n);
  dump_as_raw : ∀ n : WorkflowNode.t, model_dump (as_raw_node n) = model_dump n;
}.

Section system.
Context `{PyRuntime} `{ConfigModel} `{SpecModel} `{SetOrder} `{PyStr} `{StudioModel}
  `{ModelDump WorkflowNode.t} `{ModelDump RawNode.t} `{ModelDump WorkflowEdge.t} `{ModelDump NodePolicy.t}
  `{RegistrySpecModel} `{ModelDump RegistrySpec} `{ModelDump WorkflowResolvedRevision.t}
  `{ModelDump WorkflowResolvedSnapshot.t} `{ModelDump WorkflowLayout.t}
  `{ModelDump WorkflowDocument.t} `{ModelDump WorkflowTemplateRecord.t} `{ModelDump WorkflowValidationReport.t}
  `{ModelDump WorkflowCommand.t} `{ModelDump WorkflowCreateRequest.t} `{ModelDump WorkflowDraftWrite.t}
  `{ModelDump WorkflowValidateRequest.t} `{ModelDump WorkflowNewDraft.t} `{ModelDump WorkflowArchiveRequest.t}
  `{SetDump WorkflowCommand.t} `{SetDump WorkflowCreateRequest.t} `{SetDump WorkflowDraftWrite.t}
  `{SetDump WorkflowValidateRequest.t} `{SetDump WorkflowNewDraft.t} `{SetDump WorkflowArchiveRequest.t}
  `{ModelDump RegistryWrite.t} `{RecordModel} `{ModelDump RegistryRecord.t} `{ReportModel}
  `{ModelDump ValidationReport.t}.

(** Requests, and steps of the registry, which leave the versions alone. *)
Inductive studio_step : studio → studio → Prop :=
  | ss_create t b actor a d d' : create t b actor d = Ok (a, d') → studio_step d d'
  | ss_new_draft t i b actor a d d' : new_draft t i b actor d = Ok (a, d') → studio_step d d'
  | ss_save t i b actor a d d' : save t i b actor d = Ok (a, d') → studio_step d d'
  | ss_validate i b actor a d d' : validate i b actor d = Ok (a, d') → studio_step d d'
  | ss_publish t i b actor a d d' : publish t i b actor d = Ok (a, d') → studio_step d d'
  | ss_archive t i b actor a d d' : archive t i b actor d = Ok (a, d') → studio_step d d'
  | ss_registry b d : registry_step (base d) b → published b = published (base d) → studio_step d (set_base b d).

(** The registry has the revision with the specification. *)
Definition resolved_ok (b : registry) (r : WorkflowResolvedRevision.t) : Prop :=
  ∃ rev, revisions b !! WorkflowResolvedRevision.revision_id r = Some rev
    ∧ _typed_spec rev = Ok (WorkflowResolvedRevision.spec r)
    ∧ ConfigurationRevisionModel.content_hash rev = WorkflowResolvedRevision.content_hash r
    ∧ ConfigurationRevisionModel.revision rev = WorkflowResolvedRevision.revision r.

(** What is frozen: the normal form of a workflow that satisfies every check of the validator
against revisions of the registry, with its hashes. *)
Definition published_ok (d : studio) (v : WorkflowVersionModel.t) : Prop :=
  ∃ n sn r, workflow_ok (as_raw n) n (Some sn)
    ∧ WorkflowVersionModel.spec_json v = payload_of (as_raw n)
    ∧ WorkflowVersionModel.content_hash v = content_hash n
    ∧ WorkflowVersionModel.resolved_snapshot_json v = Some (model_dump sn)
    ∧ WorkflowVersionModel.snapshot_hash v = Some (snapshot_hash sn)
    ∧ templates d !! WorkflowVersionModel.workflow_template_id v = Some r
    ∧ WorkflowTemplateModel.key r = WorkflowSpec.key n
    ∧ Forall (resolved_ok (base d)) (WorkflowResolvedSnapshot.revisions sn)
    ∧ Forall (λ x, (WorkflowVersionModel.id v, WorkflowResolvedRevision.revision_id x) ∈ references_of d)
        (WorkflowResolvedSnapshot.revisions sn).

Definition is_published (v : WorkflowVersionModel.t) : Prop := is_Some (WorkflowVersionModel.published_at v).
(** The draft of a template is one of its versions that is not published, its current
publication one that is. *)
Definition pointers_ok (d : studio) (r : WorkflowTemplateModel.t) : Prop :=
  (∀ i, WorkflowTemplateModel.current_draft_version_id r = Some i → ∃ v, versions d !! i = Some v
     ∧ WorkflowVersionModel.workflow_template_id v = WorkflowTemplateModel.id r ∧ ¬ is_published v)
  ∧ (∀ i, WorkflowTemplateModel.current_published_version_id r = Some i → ∃ v, versions d !! i = Some v
     ∧ WorkflowVersionModel.workflow_template_id v = WorkflowTemplateModel.id r ∧ is_published v).

Record studio_ok (d : studio) : Prop := {
  so_registry : registry_ok (base d);
  so_published : ∀ i, published (base d) !! i = WorkflowVersionModel.published_at <$> versions d !! i;
  so_templates : ∀ i r, templates d !! i = Some r → WorkflowTemplateModel.id r = i ∧ pointers_ok d r;
  so_keys : ∀ i j r q, templates d !! i = Some r → templates d !! j = Some q →
    WorkflowTemplateModel.key r = WorkflowTemplateModel.key q → i = j;
  so_versions : ∀ i v, versions d !! i = Some v → WorkflowVersionModel.id v = i
    ∧ 1 ≤ WorkflowVersionModel.version v ∧ is_Some (templates d !! WorkflowVersionModel.workflow_template_id v)
    ∧ (is_published v → published_ok d v);
  so_numbers : ∀ i j v w, versions d !! i = Some v → versions d !! j = Some w →
    WorkflowVersionModel.workflow_template_id v = WorkflowVersionModel.workflow_template_id w →
    WorkflowVersionModel.version v = WorkflowVersionModel.version w → i = j;
}.

(** Templates keep their keys, published versions and registry revisions stay. *)
Record studio_grows (d d' : studio) : Prop := {
  sg_registry : revisions (base d) ⊆ revisions (base d');
  sg_templates : ∀ i r, templates d !! i = Some r →
    ∃ r', templates d' !! i = Some r' ∧ WorkflowTemplateModel.key r' = WorkflowTemplateModel.key r;
  sg_versions : ∀ i v, versions d !! i = Some v → is_published v → versions d' !! i = Some v;
  sg_references : ∀ x, x ∈ references_of d → x ∈ references_of d';
}.
#[local] Instance studio_grows_preorder : PreOrder studio_grows.
Proof.
  split.
  - intros d. split; [done| |done..]. intros i r Hr. by exists r.
  - intros d1 d2 d3 [R1 T1 V1 F1] [R2 T2 V2 F2]. split; [by etrans| |auto..].
    intros i r (r2 & Hr2 & Hk)%T1. apply T2 in Hr2 as (r3 & Hr3 & Hk'). exists r3. split; [done|congruence].
Qed.

Lemma published_grows d d' v : studio_grows d d' → published_ok d v → published_ok d' v.
Proof.
  intros [HR HT _ HF] (n & sn & r & Hok & ? & ? & ? & ? & Hr & Hk & Hrev & Href).
  apply HT in Hr as (r' & Hr' & Hk'). exists n, sn, r'. split_and!; try done; [congruence|..].
  - eapply Forall_impl; [exact Hrev|]. intros x (rev & Hx & ?). exists rev. split; [|done].
    by eapply lookup_weaken.
  - eapply Forall_impl; [exact Href|]. intros x. apply HF.
Qed.

(** [d'] is sound and grew out of [d]. *)
Definition follows (d d' : studio) : Prop := studio_ok d → studio_ok d' ∧ studio_grows d d'.
#[local] Instance follows_preorder : PreOrder follows.
Proof.
  split.
  - by intros d.
  - intros d1 d2 d3 Hab Hbc Hok. destruct (Hab Hok) as [Hok2 Hg]. destruct (Hbc Hok2) as [Hok3 Hg'].
    split; [done|by etrans].
Qed.

Lemma follows_base d b :
  (registry_ok (base d) → registry_ok b ∧ revisions (base d) ⊆ revisions b) → published b = published (base d) →
  follows d (set_base b d).
Proof.
  intros Hb Hp [HR HP HT HK HV HN]. destruct (Hb HR) as [HR' Hs].
  assert (studio_grows d (set_base b d)) as Hg.
  { split; [done| |done..]. intros i r Hr. by exists r. }
  split; [|done]. split; simpl; try done; [by rewrite Hp|].
  intros i v Hv. destruct (HV i v Hv) as (? & ? & ? & Hpub). split_and!; try done.
  intros Hi. by eapply published_grows, Hpub.
Qed.
Lemma follows_frame d b :
  configurations b = configurations (base d) → revisions b = revisions (base d) →
  published b = published (base d) → follows d (set_base b d).
Proof.
  intros Hc Hr Hp. apply follows_base; [|done]. intros Hok. rewrite Hr. split; [|done].
  by apply (same_registry (base d) b Hc Hr).
Qed.
Lemma follows_audit r actor action v valid observed d : follows d (_audit r actor action v valid observed d).
Proof. by apply follows_frame. Qed.

(** A template row is replaced. *)
Lemma follows_template d r r' :
  templates d !! WorkflowTemplateModel.id r' = Some r →
  WorkflowTemplateModel.key r' = WorkflowTemplateModel.key r → pointers_ok d r' → follows d (put_template r' d).
Proof.
  intros Hr Hk Hp [HR HP HT HK HV HN].
  assert (∀ i q, <[WorkflowTemplateModel.id r' := r']> (templates d) !! i = Some q →
            ∃ q0, templates d !! i = Some q0 ∧ WorkflowTemplateModel.key q = WorkflowTemplateModel.key q0) as Hback.
  { intros i q. destruct (decide (WorkflowTemplateModel.id r' = i)) as [<-|Hne].
    - rewrite lookup_insert_eq. intros [= <-]. by exists r.
    - rewrite lookup_insert_ne by done. by exists q. }
  assert (∀ i q, templates d !! i = Some q → ∃ q', <[WorkflowTemplateModel.id r' := r']> (templates d) !! i = Some q'
            ∧ WorkflowTemplateModel.key q' = WorkflowTemplateModel.key q) as Hforth.
  { intros i q Hq. destruct (decide (WorkflowTemplateModel.id r' = i)) as [<-|Hne].
    - rewrite lookup_insert_eq. exists r'. split; [done|]. congruence.
    - rewrite lookup_insert_ne by done. by exists q. }
  assert (studio_grows d (put_template r' d)) as Hg by done.
  split; [|done]. split; simpl; try done.
  - intros i q Hq. destruct (decide (WorkflowTemplateModel.id r' = i)) as [<-|Hne].
    + rewrite lookup_insert_eq in Hq. by injection Hq as <-.
    + rewrite lookup_insert_ne in Hq by done. by apply HT.
  - intros i j q p (q0 & Hq & ->)%Hback (p0 & Hp0 & ->)%Hback. by eapply HK.
  - intros i v Hv. destruct (HV i v Hv) as (? & ? & [q Hq] & Hpub). split_and!; try done.
    + apply Hforth in Hq as (q' & -> & _). by eexists.
    + intros Hi. by eapply published_grows, Hpub.
Qed.

(** A template without versions is added. *)
Lemma follows_new_template d r :
  templates d !! WorkflowTemplateModel.id r = None →
  (∀ i q, templates d !! i = Some q → WorkflowTemplateModel.key q ≠ WorkflowTemplateModel.key r) →
  WorkflowTemplateModel.current_draft_version_id r = None →
  WorkflowTemplateModel.current_published_version_id r = None → follows d (put_template r d).
Proof.
  intros Hr Hk Hd Hp [HR HP HT HK HV HN].
  assert (∀ i q, <[WorkflowTemplateModel.id r := r]> (templates d) !! i = Some q →
            (i = WorkflowTemplateModel.id r ∧ q = r) ∨ templates d !! i = Some q) as Hback.
  { intros i q. destruct (decide (WorkflowTemplateModel.id r = i)) as [<-|Hne].
    - rewrite lookup_insert_eq. intros [= <-]. by left.
    - rewrite lookup_insert_ne by done. auto. }
  assert (∀ i q, templates d !! i = Some q → <[WorkflowTemplateModel.id r := r]> (templates d) !! i = Some q) as Hforth.
  { intros i q Hq. rewrite lookup_insert_ne; [done|]. intros <-. congruence. }
  assert (studio_grows d (put_template r d)) as Hg.
  { split; [done| |done..]. intros i q Hq. exists q. split; [by apply Hforth|done]. }
  split; [|done]. split; simpl; try done.
  - intros i q [[-> ->]|Hq]%Hback; [|by apply HT]. split; [done|]. split; intros ?; by rewrite ?Hd, ?Hp.
  - intros i j q p [[-> ->]|Hq]%Hback [[-> ->]|Hq']%Hback; try done; intros He.
    + by destruct (Hk j p Hq').
    + by destruct (Hk i q Hq).
    + by eapply HK.
  - intros i v Hv. destruct (HV i v Hv) as (? & ? & [q Hq] & Hpub). split_and!; try done.
    + rewrite (Hforth _ _ Hq). by eexists.
    + intros Hi. by eapply published_grows, Hpub.
Qed.

(** The pointers to other versions stay good when a version is stored. *)
Lemma pointers_stored d v r :
  (∀ i, WorkflowTemplateModel.current_draft_version_id r = Some i → i = WorkflowVersionModel.id v → ¬ is_published v) →
  (∀ w, versions d !! WorkflowVersionModel.id v = Some w →
     ¬ is_published w ∧ WorkflowVersionModel.workflow_template_id w = WorkflowVersionModel.workflow_template_id v) →
  pointers_ok d r → pointers_ok (put_version v d) r.
Proof.
  intros Hdraft Hold [Hd Hp]. split; simpl.
  - intros i Hi. destruct (Hd i Hi) as (w & Hw & Ht & Hu). destruct (decide (WorkflowVersionModel.id v = i)) as [<-|Hne].
    + rewrite lookup_insert_eq. exists v. destruct (Hold w Hw) as [_ <-]. split_and!; [done..|]. by eapply Hdraft.
    + rewrite lookup_insert_ne by done. by exists w.
  - intros i Hi. destruct (Hp i Hi) as (w & Hw & Ht & Hu). destruct (decide (WorkflowVersionModel.id v = i)) as [<-|Hne].
    + by destruct (Hold w Hw) as [? _].
    + rewrite lookup_insert_ne by done. by exists w.
Qed.

(** A version is added, or one that is not published is replaced. *)
Lemma follows_version d v :
  (∀ w, versions d !! WorkflowVersionModel.id v = Some w → ¬ is_published w
     ∧ WorkflowVersionModel.workflow_template_id w = WorkflowVersionModel.workflow_template_id v
     ∧ WorkflowVersionModel.version w = WorkflowVersionModel.version v) →
  (versions d !! WorkflowVersionModel.id v = None → ∀ i w, versions d !! i = Some w →
     WorkflowVersionModel.workflow_template_id w = WorkflowVersionModel.workflow_template_id v →
     WorkflowVersionModel.version w ≠ WorkflowVersionModel.version v) →
  1 ≤ WorkflowVersionModel.version v → is_Some (templates d !! WorkflowVersionModel.workflow_template_id v) →
  (is_published v → published_ok d v ∧ ∀ i r, templates d !! i = Some r →
     WorkflowTemplateModel.current_draft_version_id r ≠ Some (WorkflowVersionModel.id v)) →
  follows d (put_version v d).
Proof.
  intros Hold Hnew Hver Htpl Hpub [HR HP HT HK HV HN].
  assert (∀ i w, <[WorkflowVersionModel.id v := v]> (versions d) !! i = Some w →
            (i = WorkflowVersionModel.id v ∧ w = v) ∨ (i ≠ WorkflowVersionModel.id v ∧ versions d !! i = Some w)) as Hback.
  { intros i w. destruct (decide (WorkflowVersionModel.id v = i)) as [<-|Hne].
    - rewrite lookup_insert_eq. intros [= <-]. by left.
    - rewrite lookup_insert_ne by done. auto. }
  assert (studio_grows d (put_version v d)) as Hg.
  { split; simpl; [done| | |done].
    - intros i r Hr. by exists r.
    - intros i w Hw Hi. rewrite lookup_insert_ne; [done|]. intros <-. by destruct (Hold w Hw) as [? _]. }
  assert (∀ i w, versions d !! i = Some w → i ≠ WorkflowVersionModel.id v →
            WorkflowVersionModel.workflow_template_id w = WorkflowVersionModel.workflow_template_id v →
            WorkflowVersionModel.version w = WorkflowVersionModel.version v → False) as Hnum.
  { intros i w Hw Hne Ht He. destruct (versions d !! WorkflowVersionModel.id v) as [o|] eqn:Ho.
    - destruct (Hold o eq_refl) as (_ & Hto & Hvo). apply Hne. eapply HN; [exact Hw|exact Ho|congruence..].
    - by eapply Hnew. }
  split; [|done]. split; simpl; try done.
  - by apply (same_registry (base d)).
  - intros i. destruct (decide (WorkflowVersionModel.id v = i)) as [<-|Hne]; [by rewrite !lookup_insert_eq|].
    by rewrite !lookup_insert_ne.
  - intros i r Hr. destruct (HT i r Hr) as [Hi Hptr]. split; [done|]. apply pointers_stored; [| |done].
    + intros j Hj -> Hp. apply Hpub in Hp as [_ Hnd]. by apply (Hnd i r Hr).
    + intros w Hw. by destruct (Hold w Hw) as (? & ? & _).
  - intros i w [[-> ->]|[_ Hw]]%Hback.
    + split_and!; try done. intros Hi. eapply published_grows; [exact Hg|]. by apply Hpub.
    + destruct (HV i w Hw) as (? & ? & ? & Hi). by split_and!.
  - intros i j w u [[-> ->]|[Hne Hw]]%Hback [[-> ->]|[Hne' Hu]]%Hback Ht He; try done.
    + by destruct (Hnum j u Hu Hne').
    + by destruct (Hnum i w Hw Hne).
    + by eapply HN.
Qed.

(** ** The transactions *)

Lemma command_ok {A} `{ModelDump A} scope key digest parse work d (a : A) d' :
  command scope key digest parse work d = Ok (a, d') → 
  (∀ l e, work (set_base (set_records l (base d)) d) = Ok (a, e) → follows (set_base (set_records l (base d)) d) e) →
  follows d d'.
Proof.
  unfold command. intros Hc Hwork. destruct (begin_record _ _ _ _) as [begun|r|]; [|destruct (parse _); [|done]|done].
  - apply res_bind_ok in Hc as ([a' e] & He & [= -> <-]).
    etrans; [apply (follows_frame d (set_records begun (base d))); done|]. etrans; [by eapply Hwork|].
    by apply follows_frame.
  - by injection Hc as _ <-.
Qed.

Lemma template_found i actor d r :
  studio_ok d → _template i actor d = Ok r → templates d !! WorkflowTemplateModel.id r = Some r ∧ pointers_ok d r.
Proof.
  intros Hok. unfold _template. destruct (templates d !! i) as [q|] eqn:Hq; [|done].
  destruct (bool_decide _); [|done]. intros [= <-]. by destruct (so_templates _ Hok i q Hq) as [-> ?].
Qed.
Lemma version_found r i d v :
  studio_ok d → _version r i d = Ok v →
  i = Some (WorkflowVersionModel.id v) ∧ versions d !! WorkflowVersionModel.id v = Some v
  ∧ WorkflowVersionModel.workflow_template_id v = WorkflowTemplateModel.id r.
Proof.
  intros Hok. unfold _version. destruct (i ≫= _) as [w|] eqn:Hw; [|done].
  apply bind_Some in Hw as (j & -> & Hj). case_bool_decide as Ht; [|done]. intros [= <-].
  by destruct (so_versions _ Hok j w Hj) as (-> & _).
Qed.

Lemma latest_bound template d i v :
  versions d !! i = Some v → WorkflowVersionModel.workflow_template_id v = template →
  WorkflowVersionModel.version v ≤ latest template d.
Proof.
  intros Hv Ht. unfold latest.
  assert (∀ l x, x ∈ l → x ≤ foldr Z.max 0 l) as Hmax.
  { induction l as [|y l IH]; intros x; [by intros ?%elem_of_nil|]. intros [->|Hx]%elem_of_cons; simpl; [lia|].
    specialize (IH x Hx). lia. }
  apply Hmax, list_elem_of_fmap. exists v. split; [done|]. apply list_elem_of_In, filter_In.
  rewrite <-list_elem_of_In. split; [|by apply bool_decide_eq_true]. apply list_elem_of_fmap. exists (i, v).
  split; [done|]. by apply elem_of_map_to_list.
Qed.
Lemma latest_nonneg template d : 0 ≤ latest template d.
Proof. unfold latest. induction (WorkflowVersionModel.version <$> _) as [|x l IH]; simpl; lia. Qed.

(** The row [r] may differ from the stored one in what its pointers are not. *)
Lemma follows_new_version t r q spec layout d r' v d' :
  _new_version t r spec layout d = Ok ((r', v), d') → templates d !! WorkflowTemplateModel.id r = Some q →
  WorkflowTemplateModel.key r = WorkflowTemplateModel.key q → (studio_ok d → pointers_ok d r) →
  follows d d' ∧ templates d' !! WorkflowTemplateModel.id r' = Some r' ∧ (studio_ok d → pointers_ok d' r').
Proof.
  unfold _new_version. intros Hn Hq Hk Hp. destruct (bool_decide _) eqn:Hfresh; [done|].
  apply bool_decide_eq_false in Hfresh. rewrite <-eq_None_not_Some in Hfresh. injection Hn as <- <- <-.
  set (v := WorkflowVersionModel.Build_t _ _ _ _ _ _ _ _ _ _ _ _). set (r' := WorkflowTemplateModel.with_draft _ _).
  assert (follows d (put_version v d)) as Hput.
  { apply follows_version; simpl.
    - intros w Hw. congruence.
    - intros _ i w Hw Ht Hv. pose proof (latest_bound _ _ _ _ Hw Ht). lia.
    - pose proof (latest_nonneg (WorkflowTemplateModel.id r) d). lia.
    - rewrite Hq. by eexists.
    - by intros []. }
  assert (studio_ok d → pointers_ok (put_version v d) r') as Hptr.
  { intros Hok. destruct (Hp Hok) as [_ Hpub]. split.
    - intros i [= <-]. exists v. simpl. rewrite lookup_insert_eq. split_and!; [done..|]. by intros [].
    - intros i Hi. destruct (Hpub i Hi) as (w & Hw & ? & ?). exists w. simpl.
      rewrite lookup_insert_ne; [done|]. intros <-. congruence. }
  split; [|split].
  - intros Hok. destruct (Hput Hok) as [Hok1 Hg]. destruct (follows_template (put_version v d) q r' Hq Hk (Hptr Hok) Hok1).
    split; [done|by etrans].
  - apply lookup_insert_eq.
  - exact Hptr.
Qed.

(** ** Resolution and evaluation *)

Lemma revision_found b i r :
  registry_ok b → RegistryService._revision i None true b = Ok r →
  RegistryRecord.revision_id r = i ∧ resolved_ok b (resolved_of r).
Proof.
  unfold RegistryService._revision. intros Hok ([c rev] & Hf & Hr)%res_bind_ok.
  apply res_bind_ok in Hr as (rec & Hrec & Hr). destruct (true && _); [done|]. injection Hr as <-.
  unfold RegistryService.find_revision in Hf. destruct (revisions b !! i) as [rev'|] eqn:Hrev; [|done].
  destruct (configurations b !! _); [|done]. simpl in Hf. injection Hf as -> ->.
  destruct (ro_owner _ Hok i rev Hrev) as [Hid _]. unfold _record in Hrec.
  apply res_bind_ok in Hrec as (spec & Hs & Hrec).
  apply res_bind_ok in Hrec as (? & _ & (? & _ & (? & _ & (? & _ & [= <-])%res_bind_ok)%res_bind_ok)%res_bind_ok).
  simpl in *. split; [done|]. exists rev. by rewrite Hid.
Qed.
Lemma visit_ok n b node i k st st' :
  registry_ok b → Forall (resolved_ok b) st.1 → visit n b node i k st = Ok st' → Forall (resolved_ok b) st'.1.
Proof.
  intros Hok. revert i k st st'. induction n as [|n IH]; intros i k st st' Hst; [by intros [= <-]|]. cbn [visit].
  destruct (find _ st.1) as [r|]; [intros [= <-]; by destruct (bool_decide _)|].
  destruct (RegistryService._revision i None true b) as [r|[]] eqn:Hr; [|by intros [= <-]|done].
  destruct (bool_decide _); cbn [negb]; [|by intros [= <-]]. intros Hf.
  refine (foldM_ind _ (λ st, Forall (resolved_ok b) st.1) _ _ _ _ _ Hf).
  - simpl. apply Forall_app. split; [done|]. apply Forall_singleton. by apply (revision_found b i).
  - intros st1 [j l] st2 _ Hst1 Hv. by eapply IH.
Qed.
Lemma resolve_ok b n sn issues :
  registry_ok b → _resolve n b = Ok (sn, issues) →
  WorkflowResolvedSnapshot.workflow_content_hash sn = content_hash (as_raw n)
  ∧ Forall (resolved_ok b) (WorkflowResolvedSnapshot.revisions sn).
Proof.
  unfold _resolve. intros Hok (st & Hf & [= <- <-])%res_bind_ok. split; [done|]. simpl.
  refine (foldM_ind _ (λ st, Forall (resolved_ok b) st.1) _ _ _ _ _ Hf); [by apply Forall_nil|].
  intros st1 node st2 _ Hst1 Hn. refine (foldM_ind _ (λ st, Forall (resolved_ok b) st.1) _ _ _ Hst1 _ Hn).
  intros st3 [j l] st4 _ Hst3 Hv. by eapply visit_ok.
Qed.

Lemma sorted_key_map {A B K} `{PyOrd K} (f : A → B) (key : B → K) (l : list A) :
  sorted_key key (f <$> l) = f <$> sorted_key (key ∘ f) l.
Proof.
  induction l as [|x l IH]; [done|].
  change (insert_key key (f x) (sorted_key key (f <$> l)) = f <$> insert_key (key ∘ f) x (sorted_key (key ∘ f) l)).
  rewrite IH. generalize (sorted_key (key ∘ f) l) as k.
  induction k as [|y k IHk]; [done|]. rewrite !fmap_cons. cbn [insert_key]. unfold compose at 1 2.
  destruct (py_leb _ _); [done|]. by rewrite IHk.
Qed.

Section laws.
Context `{!StudioModelLaws} `{!ConfigErrors, !ConfigModelLaws, !SpecModelLaws, !SetOrderLaws}.

Lemma payload_as_raw (n : nspec) : canonical_payload (as_raw n) = canonical_payload n.
Proof.
  unfold canonical_payload. repeat f_equal. unfold as_raw, sorted_nodes. simpl.
  rewrite (sorted_key_map as_raw_node). change (node_id ∘ as_raw_node) with WorkflowNode.id.
  rewrite <-list_fmap_compose. apply list_fmap_ext. intros _ x _. apply dump_as_raw.
Qed.
Lemma hash_as_raw (n : nspec) : content_hash (as_raw n) = content_hash n.
Proof. unfold content_hash. by rewrite payload_as_raw. Qed.

Lemma parsed_ok payload n :
  parsed payload = Ok n → ∃ raw, spec_validate payload = Ok raw ∧ normalize_workflow raw = Ok n.
Proof.
  unfold parsed. destruct (spec_validate payload) as [raw|]; [|done].
  destruct (normalize_workflow raw) as [m|] eqn:Hm; [|done]. intros [= <-]. by exists raw.
Qed.

(** A valid report with a spec is about that spec and revisions of the registry. *)
Lemma evaluate_ok raw layout b report n sn :
  registry_ok b → _evaluate raw layout b = Ok (report, Some (n, sn)) →
  WorkflowValidationReport.valid report = true →
  workflow_ok (as_raw n) n (Some sn) ∧ Forall (resolved_ok b) (WorkflowResolvedSnapshot.revisions sn).
Proof.
  unfold _evaluate. intros Hok (? & _ & He)%res_bind_ok. destruct (parsed raw) as [m|] eqn:Hp.
  2: { apply res_bind_ok in He as (? & _ & [= ]). }
  apply res_bind_ok in He as ([sn' issues] & Hr & He). apply res_bind_ok in He as (rep & Hc & [= <- <- <-]).
  cbn [WorkflowValidationReport.valid]. rewrite Nat.eqb_eq, length_zero_iff_nil. intros [Hnil _]%app_nil.
  split; [|by eapply resolve_ok]. apply parsed_ok in Hp as (spec & Hs & Hn).
  pose proof (spec_dump_valid _ _ _ Hs Hn) as Hd. unfold checked in Hc.
  destruct (validate_workflow _ _) as [rep'|] eqn:Hv; [|done]. injection Hc as ->.
  assert (WorkflowValidationReport.valid rep = true) as Hvalid.
  { eapply validate_workflow_valid_iff; [|exact Hv|exact Hnil]. intros errors He. congruence. }
  destruct (validate_workflow_accepts _ _ _ Hv Hvalid) as (spec' & n' & Hs' & Hw & _).
  rewrite Hd in Hs'. injection Hs' as <-. pose proof (wo_normal _ _ _ Hw) as Hn'.
  rewrite (normalize_workflow_idem _ _ Hn) in Hn'. by injection Hn' as <-.
Qed.

(** The spec of an evaluation is the normal form of its input. *)
Lemma evaluate_parsed raw layout b report n sn :
  _evaluate raw layout b = Ok (report, Some (n, sn)) →
  ∃ spec, spec_validate raw = Ok spec ∧ normalize_workflow spec = Ok n.
Proof.
  unfold _evaluate. intros (? & _ & He)%res_bind_ok. destruct (parsed raw) as [m|] eqn:Hp.
  2: { apply res_bind_ok in He as (? & _ & [= ]). }
  apply res_bind_ok in He as ([sn' issues] & _ & (rep & _ & [= _ <- _])%res_bind_ok). by apply parsed_ok.
Qed.

(** ** Each request *)

Lemma pointers_of d r :
  templates d !! WorkflowTemplateModel.id r = Some r → studio_ok d → pointers_ok d r.
Proof. intros Hr Hok. by destruct (so_templates _ Hok _ _ Hr). Qed.

Lemma create_follows t b actor a d d' : create t b actor d = Ok (a, d') → follows d d'.
Proof.
  unfold create. intros (? & _ & (? & _ & Hc)%res_bind_ok)%res_bind_ok. eapply command_ok; [exact Hc|].
  intros l e. set (d1 := set_base _ d). unfold create_fresh. destruct (existsb _ _) eqn:Hkey; [done|].
  destruct (bool_decide _) eqn:Hid; [done|]. apply bool_decide_eq_false in Hid. rewrite <-eq_None_not_Some in Hid.
  set (r := WorkflowTemplateModel.Build_t _ _ _ _ _ _ _ _ _ _ _).
  intros (spec & _ & ([[r' v] d2] & Hn & (doc & _ & [= _ <-])%res_bind_ok)%res_bind_ok)%res_bind_ok.
  assert (follows d1 (put_template r d1)) as Hput.
  { apply follows_new_template; try done. intros i q Hq Hk.
    assert (existsb (λ r, String.eqb (WorkflowTemplateModel.key r) (WorkflowCreateRequest.key b))
              (map_to_list (templates d1)).*2 = true) as Hex; [|congruence].
    apply existsb_exists. exists q. split; [|by apply String.eqb_eq].
    apply list_elem_of_In, list_elem_of_fmap. exists (i, q). split; [done|]. by apply elem_of_map_to_list. }
  etrans; [exact Hput|]. etrans; [|apply follows_audit].
  eapply follows_new_version; [exact Hn|apply lookup_insert_eq|done|]. intros _. by split.
Qed.

(** A row that differs only in texts, times, archive date or version. *)
Lemma follows_touched d r r' :
  templates d !! WorkflowTemplateModel.id r = Some r →
  WorkflowTemplateModel.id r' = WorkflowTemplateModel.id r → WorkflowTemplateModel.key r' = WorkflowTemplateModel.key r →
  WorkflowTemplateModel.current_draft_version_id r' = WorkflowTemplateModel.current_draft_version_id r →
  WorkflowTemplateModel.current_published_version_id r' = WorkflowTemplateModel.current_published_version_id r →
  follows d (put_template r' d).
Proof.
  intros Hr Hi Hk Hd Hp Hok. apply (follows_template d r); [by rewrite Hi|done| |done].
  unfold pointers_ok. rewrite Hi, Hd, Hp. by apply pointers_of.
Qed.

Lemma new_draft_follows t i b actor a d d' : new_draft t i b actor d = Ok (a, d') → follows d d'.
Proof.
  unfold new_draft. intros (? & _ & (? & _ & (r & Hr & Hc)%res_bind_ok)%res_bind_ok)%res_bind_ok Hok.
  destruct (template_found _ _ _ _ Hok Hr) as [Hin _]. revert Hok. change (follows d d').
  eapply command_ok; [exact Hc|]. intros l e. set (d1 := set_base _ d). unfold new_draft_fresh.
  intros (? & _ & (? & _ & (source & _ & (old & _ & ([[r' v] d2] & Hn & (doc & _ & [= _ <-])%res_bind_ok)%res_bind_ok)%res_bind_ok)%res_bind_ok)%res_bind_ok)%res_bind_ok.
  destruct (follows_new_version _ _ r _ _ _ _ _ _ Hn Hin eq_refl (pointers_of d1 r Hin)) as (Hf & Hr' & _).
  etrans; [exact Hf|]. etrans; [|apply follows_audit]. by eapply follows_touched.
Qed.

Lemma save_follows t i b actor a d d' : save t i b actor d = Ok (a, d') → follows d d'.
Proof.
  unfold save. intros (? & _ & (? & _ & (? & _ & (r & Hr & Hc)%res_bind_ok)%res_bind_ok)%res_bind_ok)%res_bind_ok Hok.
  destruct (template_found _ _ _ _ Hok Hr) as [Hin _]. revert Hok. change (follows d d').
  eapply command_ok; [exact Hc|]. intros l e. set (d1 := set_base _ d).
  assert (templates d1 !! WorkflowTemplateModel.id r = Some r) as Hin1 by exact Hin. clearbody d1. unfold save_fresh.
  intros (? & _ & (? & _ & (v & Hv & (? & Hu%raise_if_ok%bool_decide_eq_false & (doc & _ & [= _ <-])%res_bind_ok)%res_bind_ok)%res_bind_ok)%res_bind_ok)%res_bind_ok Hok.
  destruct (version_found _ _ _ _ Hok Hv) as (_ & Hvin & Ht).
  set (v' := WorkflowVersionModel.drafted _ _ _ v). set (r' := _touch _ _).
  assert (follows d1 (put_version v' d1)) as Hput.
  { destruct (so_versions _ Hok _ _ Hvin) as (_ & Hver & Htpl & _). apply follows_version; simpl; try done.
    - intros w Hw. rewrite Hvin in Hw. by injection Hw as <-.
    - intros Hn. congruence. }
  revert Hok. change (follows d1 (_audit r' actor "revised" (Some v') None None (put_template r' (put_version v' d1)))).
  etrans; [exact Hput|]. etrans; [|apply follows_audit]. by apply (follows_touched (put_version v' d1) r).
Qed.

Lemma validate_follows i b actor a d d' : validate i b actor d = Ok (a, d') → follows d d'.
Proof.
  unfold validate. intros (? & _ & (? & _ & (r & _ & Hc)%res_bind_ok)%res_bind_ok)%res_bind_ok.
  eapply command_ok; [exact Hc|]. intros l e. set (d1 := set_base _ d). unfold validate_fresh.
  intros (? & _ & (ev & _ & [= _ <-])%res_bind_ok)%res_bind_ok. apply follows_audit.
Qed.

Lemma archive_follows t i b actor a d d' : archive t i b actor d = Ok (a, d') → follows d d'.
Proof.
  unfold archive. intros (? & _ & (? & _ & (r & Hr & Hc)%res_bind_ok)%res_bind_ok)%res_bind_ok Hok.
  destruct (template_found _ _ _ _ Hok Hr) as [Hin _]. revert Hok. change (follows d d').
  eapply command_ok; [exact Hc|]. intros l e. set (d1 := set_base _ d). unfold archive_fresh.
  intros (? & _ & [= _ <-])%res_bind_ok. etrans; [|apply follows_audit]. by apply (follows_touched d1 r).
Qed.

Lemma follows_references v sn d e :
  add_references v sn d = Ok e →
  follows d e ∧ templates e = templates d ∧ versions e = versions d ∧ base e = base d
  ∧ Forall (λ x, (v, WorkflowResolvedRevision.revision_id x) ∈ references_of e) (WorkflowResolvedSnapshot.revisions sn).
Proof.
  unfold add_references. destruct (existsb _ _); [done|]. intros [= <-]. split_and!; try done; simpl.
  - intros Hok. assert (studio_grows d (Build_studio (base d) (templates d) (versions d) (references_of d
      ++ ((λ r, (v, WorkflowResolvedRevision.revision_id r)) <$> WorkflowResolvedSnapshot.revisions sn)))) as Hg.
    { split; simpl; try done; [intros i r Hr; by exists r|set_solver]. }
    split; [|done]. destruct Hok as [HR HP HT HK HV HN]. split; simpl; try done. intros i w Hw.
    destruct (HV i w Hw) as (? & ? & ? & Hpub). split_and!; try done. intros Hi. by eapply published_grows, Hpub.
  - apply Forall_forall. intros x Hx. apply elem_of_app. right. apply list_elem_of_fmap. by exists x.
Qed.

(** The version that becomes the publication. *)
Lemma follows_frozen d r v v' r' :
  studio_ok d → templates d !! WorkflowTemplateModel.id r = Some r →
  versions d !! WorkflowVersionModel.id v = Some v → ¬ is_published v →
  WorkflowVersionModel.workflow_template_id v = WorkflowTemplateModel.id r →
  WorkflowVersionModel.id v' = WorkflowVersionModel.id v →
  WorkflowVersionModel.workflow_template_id v' = WorkflowVersionModel.workflow_template_id v →
  WorkflowVersionModel.version v' = WorkflowVersionModel.version v → is_published v' → published_ok d v' →
  WorkflowTemplateModel.id r' = WorkflowTemplateModel.id r → WorkflowTemplateModel.key r' = WorkflowTemplateModel.key r →
  WorkflowTemplateModel.current_draft_version_id r' = None →
  WorkflowTemplateModel.current_published_version_id r' = Some (WorkflowVersionModel.id v) →
  studio_ok (put_template r' (put_version v' d)) ∧ studio_grows d (put_template r' (put_version v' d)).
Proof.
  intros Hok Hr Hv Hu Ht Hi' Ht' Hver' Hp' Hpub Hir Hkr Hdr Hpr. set (r0 := WorkflowTemplateModel.with_draft None r).
  destruct (pointers_of d r Hr Hok) as [_ Hcur].
  assert (follows d (put_template r0 d)) as H0'.
  { apply (follows_template d r); [done|done|]. split; [by intros ?|exact Hcur]. }
  destruct (H0' Hok) as [Hok0 Hg0]. assert (templates (put_template r0 d) !! WorkflowTemplateModel.id r = Some r0) as Hr0
    by apply lookup_insert_eq.
  assert (follows (put_template r0 d) (put_version v' (put_template r0 d))) as Hput.
  { destruct (so_versions _ Hok _ _ Hv) as (_ & Hver & _). apply follows_version; rewrite ?Hi', ?Ht', ?Hver'.
    - intros w Hw. change (versions (put_template r0 d)) with (versions d) in Hw. rewrite Hv in Hw. by injection Hw as <-.
    - intros Hn. change (versions (put_template r0 d)) with (versions d) in Hn. congruence.
    - done.
    - rewrite Ht, Hr0. by eexists.
    - intros _. split; [by eapply published_grows|]. intros i q Hq Hd.
      destruct (so_templates _ Hok0 i q Hq) as [Hiq [Hdraft _]]. destruct (Hdraft _ Hd) as (w & Hw & Htw & _).
      change (versions (put_template r0 d)) with (versions d) in Hw. rewrite Hv in Hw. injection Hw as <-.
      assert (i = WorkflowTemplateModel.id r) as -> by congruence. rewrite Hr0 in Hq. by injection Hq as <-. }
  assert (put_template r' (put_version v' d) = put_template r' (put_version v' (put_template r0 d))) as ->.
  { unfold put_template, put_version. simpl. f_equal. rewrite Hir. by rewrite insert_insert_eq. }
  destruct (Hput Hok0) as [Hok1 Hg1].
  assert (follows (put_version v' (put_template r0 d)) (put_template r' (put_version v' (put_template r0 d)))) as Hlast.
  { apply (follows_template _ r0); [rewrite Hir; exact Hr0|done|]. split; [intros i; by rewrite Hdr|].
    intros i. rewrite Hpr, Hir. intros [= <-]. exists v'. simpl. rewrite Hi', lookup_insert_eq. split_and!; [done| |done].
    congruence. }
  destruct (Hlast Hok1) as [Hok2 Hg2]. split; [done|]. etrans; [exact Hg0|]. by etrans.
Qed.

Lemma publish_follows t i b actor a d d' : publish t i b actor d = Ok (a, d') → follows d d'.
Proof.
  unfold publish. intros (? & _ & (? & _ & (r & Hr & Hc)%res_bind_ok)%res_bind_ok)%res_bind_ok Hok.
  destruct (template_found _ _ _ _ Hok Hr) as [Hin _]. revert Hok. change (follows d d').
  eapply command_ok; [exact Hc|]. intros l e. set (d1 := set_base _ d).
  assert (templates d1 !! WorkflowTemplateModel.id r = Some r) as Hin1 by exact Hin. clearbody d1. unfold publish_fresh.
  intros (? & _ & (v & Hv & (? & Hu%raise_if_ok%bool_decide_eq_false & ([report [[n sn]|]] & He & Hp)%res_bind_ok)%res_bind_ok)%res_bind_ok)%res_bind_ok Hok; [|done].
  apply res_bind_ok in Hp as (? & Hvalid%raise_if_ok%negb_false_iff & Hp).
  apply res_bind_ok in Hp as (? & [Hkey Hversion]%raise_if_ok%orb_false_iff & (d2 & Hrefs & (doc & _ & [= _ <-])%res_bind_ok)%res_bind_ok).
  apply negb_false_iff, String.eqb_eq in Hkey.
  destruct (evaluate_ok _ _ _ _ _ _ (so_registry _ Hok) He Hvalid) as [Hw Hres].
  destruct (version_found _ _ _ _ Hok Hv) as (_ & Hvin & Ht).
  destruct (follows_references _ _ _ _ Hrefs) as (Hf2 & HT2 & HV2 & HB2 & Hmem).
  destruct (Hf2 Hok) as [Hok2 Hg2].
  set (v' := WorkflowVersionModel.frozen _ _ _ _ _ v). set (r' := _touch _ _).
  destruct (follows_frozen d2 r v v' r') as [Hok3 Hg3]; try done; rewrite ?HT2, ?HV2; try done.
  - by eexists.
  - exists n, sn, r. split_and!; try done; simpl; [by rewrite hash_as_raw|by rewrite HT2, Ht|by rewrite HB2].
  - destruct (follows_audit r' actor "published" (Some v') None None _ Hok3) as [? ?].
    split; [done|]. etrans; [exact Hg2|]. by etrans.
Qed.

Lemma studio_step_ok d d' : studio_step d d' → follows d d'.
Proof.
  destruct 1 as [t b actor a d d' Hc|t i b actor a d d' Hn|t i b actor a d d' Hs|i b actor a d d' Hv|
                 t i b actor a d d' Hp|t i b actor a d d' Ha|b d Hs Hp].
  - by eapply create_follows.
  - by eapply new_draft_follows.
  - by eapply save_follows.
  - by eapply validate_follows.
  - by eapply publish_follows.
  - by eapply archive_follows.
  - apply follows_base; [|done]. intros Hok. destruct (registry_step_ok _ _ Hs Hok) as [[? _] ?]. done.
Qed.
Lemma studio_steps_ok d d' : rtc studio_step d d' → follows d d'.
Proof. induction 1 as [d|d1 d2 d3 Hs _ IH]; [done|]. etrans; [by apply studio_step_ok|done]. Qed.

(** C29. whatever requests the workflow service answered, and whatever else happened
to the registry, a published version holds the normal form of a workflow that
satisfies every check of the validator against its frozen snapshot; its hashes are
those of the workflow and of the snapshot, its key is that of its template, every
revision of the snapshot is one the registry stores with that specification, and is
recorded as referenced. *)
Theorem published_sound d0 d i v :
  studio_ok d0 → rtc studio_step d0 d → versions d !! i = Some v → is_published v → published_ok d v.
Proof.
  intros Hok Hs Hv Hp. destruct (studio_steps_ok _ _ Hs Hok) as [Hd _].
  destruct (so_versions _ Hd i v Hv) as (_ & _ & _ & Hpub). by apply Hpub.
Qed.

(** C30. a published version never changes: no later save, draft, publication,
archiving or step of the registry touches its row. *)
Theorem published_forever d0 d i v :
  studio_ok d0 → rtc studio_step d0 d → versions d0 !! i = Some v → is_published v → versions d !! i = Some v.
Proof. intros Hok Hs Hv Hp. destruct (studio_steps_ok _ _ Hs Hok) as [_ [_ _ Hk _]]. by apply Hk. Qed.
End laws.
End system.
