(* ===== verification/MissionTables.v ===== *)
(** * Mission tables

The rows of [packages/persistence/src/jarvis_persistence/models.py] that missions are made
of, with the columns their operations use, and the statements that insert and update them:
a violated key, check or column length is an error.  [put_mission] keeps what the
scheduling of missions reads: [updated_at] moves exactly when some column changes.

The mission service holds row locks and the lock on the event counter from its first write,
so its transactions are functions of the tables here, as those of [Database.v].  A transaction
that reads before its first lock, as [reconcile_items] does, reads here what it would read
with the lock.  Queries
without [ORDER BY] return their rows in the order [RowOrder]. *)
From S2P Require Import Prelude Enums PyJson PyDecimal Registry MissionContracts Database.
From stdpp Require Import gmap.
Local Open Scope Z_scope.
Local Open Scope stdpp_scope.

(** What a mission operation raises: the two errors of [mission_resources.py], and any
other exception with its text. *)
Inductive mission_error : Set :=
  | MissionAdmissionDeniedError (code : string)
  | MissionBudgetDeniedError (code : string)
  | Raised (text : string).

(** Errors of the database driver. *)
Definition integrity : mission_error := Raised "IntegrityError".
Definition data_error : mission_error := Raised "DataError".
Definition assertion : mission_error := Raised "AssertionError".

(** The order of the rows a query without [ORDER BY] returns. *)
Class RowOrder := row_order : ∀ {A : Type}, list A → list A.
Class RowOrderLaws `{RowOrder} := row_order_perm : ∀ A (l : list A), row_order l ≡ₚ l.

(** ** Rows *)

Module MissionModel.
Record t := {
  id : uuid;
  project_id : uuid;
  objective : string;
  constraints_json : list string;
  lifecycle : MissionLifecycle.t;
  mode : string;
  autonomous : bool;
  waiting_reason : option string;
  next_action : option string;
  next_action_basis : option string;
  user_action_required : option string;
  resource_limits_json : json;
  directive_version : Z;
  selected_team_version_id : uuid;
  next_message_sequence : Z;
  version : Z;
  updated_at : Z;
}.

(** Attribute assignments. *)
Definition with_state (l : MissionLifecycle.t) (reason : option string) (m : t) : t :=
  Build_t (id m) (project_id m) (objective m) (constraints_json m) l (mode m) (autonomous m)
    reason (next_action m) (next_action_basis m) (user_action_required m)
    (resource_limits_json m) (directive_version m) (selected_team_version_id m)
    (next_message_sequence m) (version m) (updated_at m).
Definition with_reason (reason : option string) (m : t) : t := with_state (lifecycle m) reason m.
Definition with_lifecycle (l : MissionLifecycle.t) (m : t) : t := with_state l (waiting_reason m) m.
Definition with_next (action basis : option string) (m : t) : t :=
  Build_t (id m) (project_id m) (objective m) (constraints_json m) (lifecycle m) (mode m)
    (autonomous m) (waiting_reason m) action basis (user_action_required m)
    (resource_limits_json m) (directive_version m) (selected_team_version_id m)
    (next_message_sequence m) (version m) (updated_at m).
Definition with_user_action (action : option string) (m : t) : t :=
  Build_t (id m) (project_id m) (objective m) (constraints_json m) (lifecycle m) (mode m)
    (autonomous m) (waiting_reason m) (next_action m) (next_action_basis m) action
    (resource_limits_json m) (directive_version m) (selected_team_version_id m)
    (next_message_sequence m) (version m) (updated_at m).
Definition with_autonomous (b : bool) (m : t) : t :=
  Build_t (id m) (project_id m) (objective m) (constraints_json m) (lifecycle m) (mode m)
    b (waiting_reason m) (next_action m) (next_action_basis m) (user_action_required m)
    (resource_limits_json m) (directive_version m) (selected_team_version_id m)
    (next_message_sequence m) (version m) (updated_at m).
Definition with_limits (limits : json) (m : t) : t :=
  Build_t (id m) (project_id m) (objective m) (constraints_json m) (lifecycle m) (mode m)
    (autonomous m) (waiting_reason m) (next_action m) (next_action_basis m)
    (user_action_required m) limits (directive_version m) (selected_team_version_id m)
    (next_message_sequence m) (version m) (updated_at m).
Definition with_directive (objective : string) (constraints : list string) (m : t) : t :=
  Build_t (id m) (project_id m) objective constraints (lifecycle m) (mode m)
    (autonomous m) (waiting_reason m) (next_action m) (next_action_basis m)
    (user_action_required m) (resource_limits_json m) (directive_version m + 1)
    (selected_team_version_id m) (next_message_sequence m) (version m) (updated_at m).
Definition with_team (team : uuid) (m : t) : t :=
  Build_t (id m) (project_id m) (objective m) (constraints_json m) (lifecycle m) (mode m)
    (autonomous m) (waiting_reason m) (next_action m) (next_action_basis m)
    (user_action_required m) (resource_limits_json m) (directive_version m) team
    (next_message_sequence m) (version m) (updated_at m).
Definition next_message (m : t) : t :=
  Build_t (id m) (project_id m) (objective m) (constraints_json m) (lifecycle m) (mode m)
    (autonomous m) (waiting_reason m) (next_action m) (next_action_basis m)
    (user_action_required m) (resource_limits_json m) (directive_version m)
    (selected_team_version_id m) (next_message_sequence m + 1) (version m) (updated_at m).
Definition bump (m : t) : t :=
  Build_t (id m) (project_id m) (objective m) (constraints_json m) (lifecycle m) (mode m)
    (autonomous m) (waiting_reason m) (next_action m) (next_action_basis m)
    (user_action_required m) (resource_limits_json m) (directive_version m)
    (selected_team_version_id m) (next_message_sequence m) (version m + 1) (updated_at m).
Definition touch (now : Z) (m : t) : t :=
  Build_t (id m) (project_id m) (objective m) (constraints_json m) (lifecycle m) (mode m)
    (autonomous m) (waiting_reason m) (next_action m) (next_action_basis m)
    (user_action_required m) (resource_limits_json m) (directive_version m)
    (selected_team_version_id m) (next_message_sequence m) (version m) now.

(** The lengths of the [String] columns. *)
Definition fits (m : t) : bool :=
  opt_all (len_between 0 240) (waiting_reason m) && opt_all (len_between 0 240) (next_action m)
  && opt_all (len_between 0 1024) (next_action_basis m)
  && opt_all (len_between 0 1024) (user_action_required m).

(** No column differs. *)
Definition unchanged (a b : t) : bool :=
  bool_decide (project_id a = project_id b) && bool_decide (objective a = objective b)
  && bool_decide (constraints_json a = constraints_json b)
  && bool_decide (lifecycle a = lifecycle b) && bool_decide (mode a = mode b)
  && bool_decide (autonomous a = autonomous b)
  && bool_decide (waiting_reason a = waiting_reason b)
  && bool_decide (next_action a = next_action b)
  && bool_decide (next_action_basis a = next_action_basis b)
  && bool_decide (user_action_required a = user_action_required b)
  && py_eq (resource_limits_json a) (resource_limits_json b)
  && bool_decide (directive_version a = directive_version b)
  && bool_decide (selected_team_version_id a = selected_team_version_id b)
  && bool_decide (next_message_sequence a = next_message_sequence b)
  && bool_decide (version a = version b).
End MissionModel.

Module MissionTeamVersionModel.
Record t := {
  id : uuid;
  mission_id : uuid;
  version : Z;
  selection_json : json;
}.
End MissionTeamVersionModel.

Module MissionMessageModel.
Record t := {
  id : uuid;
  mission_id : uuid;
  sequence : Z;
  role : MessageRole.t;
  identity : string;
  body : string;
  directive_version : Z;
  management_turn_id : option uuid;
  context_json : jobj;
  disposition : Disposition.t;
}.
Definition with_disposition (d : Disposition.t) (m : t) : t :=
  Build_t (id m) (mission_id m) (sequence m) (role m) (identity m) (body m) (directive_version m)
    (management_turn_id m) (context_json m) d.
Definition with_turn (turn : uuid) (m : t) : t :=
  Build_t (id m) (mission_id m) (sequence m) (role m) (identity m) (body m) (directive_version m)
    (Some turn) (context_json m) (disposition m).
End MissionMessageModel.

Module MissionWorkItemModel.
Record t := {
  id : uuid;
  mission_id : uuid;
  key : string;
  title : string;
  objective : string;
  acceptance_criteria_json : list string;
  priority : Z;
  lifecycle : WorkItemLifecycle.t;
  directive_version : Z;
  team_version_id : uuid;
  job_id : option uuid;
  run_id : option uuid;
  source_wakeup_id : option uuid;
  accepted_event_cursor : option Z;
  version : Z;
}.
Definition with_lifecycle (l : WorkItemLifecycle.t) (i : t) : t :=
  Build_t (id i) (mission_id i) (key i) (title i) (objective i) (acceptance_criteria_json i)
    (priority i) l (directive_version i) (team_version_id i) (job_id i) (run_id i)
    (source_wakeup_id i) (accepted_event_cursor i) (version i + 1).
Definition started (job run : uuid) (i : t) : t :=
  Build_t (id i) (mission_id i) (key i) (title i) (objective i) (acceptance_criteria_json i)
    (priority i) WorkItemLifecycle.started (directive_version i) (team_version_id i) (Some job)
    (Some run) (source_wakeup_id i) (accepted_event_cursor i) (version i + 1).
Definition with_cursor (cursor : Z) (i : t) : t :=
  Build_t (id i) (mission_id i) (key i) (title i) (objective i) (acceptance_criteria_json i)
    (priority i) (lifecycle i) (directive_version i) (team_version_id i) (job_id i) (run_id i)
    (source_wakeup_id i) (Some cursor) (version i).
End MissionWorkItemModel.

Module MissionWakeupModel.
Record t := {
  id : uuid;
  mission_id : uuid;
  kind : WakeupKind.t;
  deduplication_key : string;
  directive_version : Z;
  team_version_id : uuid;
  source_event_cursor : option Z;
  accepted_target_identity : option string;
  accepted_source_identity : option string;
  snapshot_json : jobj;
  outcome_json : option json;
  status : WakeupStatus.t;
  scheduled_for : Z;
  management_turn_id : option uuid;
  created_at : Z;
}.
Definition with_status (s : WakeupStatus.t) (w : t) : t :=
  Build_t (id w) (mission_id w) (kind w) (deduplication_key w) (directive_version w)
    (team_version_id w) (source_event_cursor w) (accepted_target_identity w)
    (accepted_source_identity w) (snapshot_json w) (outcome_json w) s (scheduled_for w)
    (management_turn_id w) (created_at w).
Definition with_outcome (s : WakeupStatus.t) (o : json) (w : t) : t :=
  Build_t (id w) (mission_id w) (kind w) (deduplication_key w) (directive_version w)
    (team_version_id w) (source_event_cursor w) (accepted_target_identity w)
    (accepted_source_identity w) (snapshot_json w) (Some o) s (scheduled_for w)
    (management_turn_id w) (created_at w).
Definition with_turn (turn : uuid) (w : t) : t :=
  Build_t (id w) (mission_id w) (kind w) (deduplication_key w) (directive_version w)
    (team_version_id w) (source_event_cursor w) (accepted_target_identity w)
    (accepted_source_identity w) (snapshot_json w) (outcome_json w) WakeupStatus.turn_queued
    (scheduled_for w) (Some turn) (created_at w).
End MissionWakeupModel.

(** The unique key is [scope_key]. *)
Module MissionAdmissionControlModel.
Record t := {
  scope : ControlScope.t;
  scope_key : string;
  state : ControlState.t;
  safe_point_instruction : option string;
  resource_limits_json : json;
  version : Z;
}.
End MissionAdmissionControlModel.

Module ReservationStatus.
Inductive t : Set := reserved | reconciled | unknown | released.
#[global] Instance eq_dec : EqDecision t.
Proof. solve_decision. Defined.
End ReservationStatus.

(** The unique key is ([scope_key], [action_id]). *)
Module MissionResourceReservationModel.
Record t := {
  mission_id : uuid;
  scope_key : string;
  action_id : string;
  kind : string;
  liability_json : jobj;
  actual_json : option jobj;
  status : ReservationStatus.t;
  currency : string;
  price_unit : string;
  window_started_at : Z;
  reconciled_at : option Z;
}.
Definition settled (actual : option jobj) (s : ReservationStatus.t) (now : Z) (r : t) : t :=
  Build_t (mission_id r) (scope_key r) (action_id r) (kind r) (liability_json r) actual s
    (currency r) (price_unit r) (window_started_at r) (Some now).
Definition released (now : Z) (r : t) : t :=
  Build_t (mission_id r) (scope_key r) (action_id r) (kind r) (liability_json r) (actual_json r)
    ReservationStatus.released (currency r) (price_unit r) (window_started_at r) (Some now).
End MissionResourceReservationModel.

(** The columns of the workflow versions, frozen configurations and jobs that dispatch reads
and writes; [snapshot_hash] is unique.  The status of a job is in [Database.jobs]. *)
Module WorkflowVersionModel.
Record t := { published_at : option Z; resolved_snapshot_json : option json }.
End WorkflowVersionModel.

Module RunConfigSnapshotModel.
Record t := {
  id : uuid;
  workflow_version_id : uuid;
  resolved_revisions_json : json;
  effective_spec_json : jobj;
  snapshot_hash : string;
}.
End RunConfigSnapshotModel.

Module JobModel.
Record t := { project_id : uuid; objective : string }.
End JobModel.

(** The control plane with the tables of missions.  [dependencies] holds the pairs of a work
item and one it depends on. *)
Record mdb := {
  core : db;
  missions : gmap uuid MissionModel.t;
  teams : gmap uuid MissionTeamVersionModel.t;
  messages : gmap uuid MissionMessageModel.t;
  items : gmap uuid MissionWorkItemModel.t;
  dependencies : list (uuid * uuid);
  wakeups : gmap uuid MissionWakeupModel.t;
  controls : list MissionAdmissionControlModel.t;
  reservations : list MissionResourceReservationModel.t;
  versions : gmap uuid WorkflowVersionModel.t;
  snapshots : list RunConfigSnapshotModel.t;
  job_rows : gmap uuid JobModel.t;
}.
Definition set_core (x : db) (d : mdb) : mdb :=
  Build_mdb x (missions d) (teams d) (messages d) (items d) (dependencies d)
    (wakeups d) (controls d) (reservations d) (versions d) (snapshots d) (job_rows d).
Definition set_missions (x : gmap uuid MissionModel.t) (d : mdb) : mdb :=
  Build_mdb (core d) x (teams d) (messages d) (items d) (dependencies d)
    (wakeups d) (controls d) (reservations d) (versions d) (snapshots d) (job_rows d).
Definition set_teams (x : gmap uuid MissionTeamVersionModel.t) (d : mdb) : mdb :=
  Build_mdb (core d) (missions d) x (messages d) (items d) (dependencies d)
    (wakeups d) (controls d) (reservations d) (versions d) (snapshots d) (job_rows d).
Definition set_messages (x : gmap uuid MissionMessageModel.t) (d : mdb) : mdb :=
  Build_mdb (core d) (missions d) (teams d) x (items d) (dependencies d)
    (wakeups d) (controls d) (reservations d) (versions d) (snapshots d) (job_rows d).
Definition set_items (x : gmap uuid MissionWorkItemModel.t) (d : mdb) : mdb :=
  Build_mdb (core d) (missions d) (teams d) (messages d) x (dependencies d)
    (wakeups d) (controls d) (reservations d) (versions d) (snapshots d) (job_rows d).
Definition set_dependencies (x : list (uuid * uuid)) (d : mdb) : mdb :=
  Build_mdb (core d) (missions d) (teams d) (messages d) (items d) x
    (wakeups d) (controls d) (reservations d) (versions d) (snapshots d) (job_rows d).
Definition set_wakeups (x : gmap uuid MissionWakeupModel.t) (d : mdb) : mdb :=
  Build_mdb (core d) (missions d) (teams d) (messages d) (items d) (dependencies d)
    x (controls d) (reservations d) (versions d) (snapshots d) (job_rows d).
Definition set_controls (x : list MissionAdmissionControlModel.t) (d : mdb) : mdb :=
  Build_mdb (core d) (missions d) (teams d) (messages d) (items d) (dependencies d)
    (wakeups d) x (reservations d) (versions d) (snapshots d) (job_rows d).
Definition set_reservations (x : list MissionResourceReservationModel.t) (d : mdb) : mdb :=
  Build_mdb (core d) (missions d) (teams d) (messages d) (items d) (dependencies d)
    (wakeups d) (controls d) x (versions d) (snapshots d) (job_rows d).
Definition set_snapshots (x : list RunConfigSnapshotModel.t) (d : mdb) : mdb :=
  Build_mdb (core d) (missions d) (teams d) (messages d) (items d) (dependencies d)
    (wakeups d) (controls d) (reservations d) (versions d) x (job_rows d).
Definition set_job_rows (x : gmap uuid JobModel.t) (d : mdb) : mdb :=
  Build_mdb (core d) (missions d) (teams d) (messages d) (items d) (dependencies d)
    (wakeups d) (controls d) (reservations d) (versions d) (snapshots d) x.

Definition turns (d : mdb) : gmap uuid ManagementTurnModel.t :=
  CallTables.management_turns (accounts (core d)).
Definition set_accounts_of (f : CallTables.t → CallTables.t) (d : mdb) : mdb :=
  set_core (set_accounts (f (accounts (core d))) (core d)) d.

(** ** Statements *)

(** An [UPDATE] is issued only when a column changes; it sets [updated_at] to the time the
transaction started. *)
Definition put_mission (now : Z) (m : MissionModel.t) (d : mdb) : res mission_error mdb :=
  match missions d !! MissionModel.id m with
  | None => Err assertion
  | Some old =>
      if MissionModel.unchanged m old then Ok d
      else if MissionModel.fits m
      then Ok (set_missions (<[MissionModel.id m := MissionModel.touch now m]> (missions d)) d)
      else Err data_error
  end.

Definition put_turn (turn : ManagementTurnModel.t) : mdb → mdb :=
  set_accounts_of (CallTables.put_turn turn).
Definition put_message (m : MissionMessageModel.t) (d : mdb) : mdb :=
  set_messages (<[MissionMessageModel.id m := m]> (messages d)) d.
Definition put_item (i : MissionWorkItemModel.t) (d : mdb) : mdb :=
  set_items (<[MissionWorkItemModel.id i := i]> (items d)) d.
Definition put_wakeup (w : MissionWakeupModel.t) (d : mdb) : mdb :=
  set_wakeups (<[MissionWakeupModel.id w := w]> (wakeups d)) d.

(** [session.add]: the keys of the table are unique. *)
Definition insert_row {V} (clash : V → V → bool) (i : uuid) (v : V) (m : gmap uuid V)
    : res mission_error (gmap uuid V) :=
  if bool_decide (is_Some (m !! i)) || existsb (clash v) (snd <$> map_to_list m)
  then Err integrity else Ok (<[i := v]> m).

Definition insert_message (m : MissionMessageModel.t) (d : mdb) : res mission_error mdb :=
  rows ← insert_row (λ a b, bool_decide (MissionMessageModel.mission_id a = MissionMessageModel.mission_id b)
                        && bool_decide (MissionMessageModel.sequence a = MissionMessageModel.sequence b))
           (MissionMessageModel.id m) m (messages d);
  Ok (set_messages rows d).
Definition insert_item (i : MissionWorkItemModel.t) (d : mdb) : res mission_error mdb :=
  rows ← insert_row (λ a b, bool_decide (MissionWorkItemModel.mission_id a = MissionWorkItemModel.mission_id b)
                        && bool_decide (MissionWorkItemModel.key a = MissionWorkItemModel.key b))
           (MissionWorkItemModel.id i) i (items d);
  Ok (set_items rows d).
Definition insert_wakeup (w : MissionWakeupModel.t) (d : mdb) : res mission_error mdb :=
  rows ← insert_row (λ a b, bool_decide (MissionWakeupModel.mission_id a = MissionWakeupModel.mission_id b)
                        && bool_decide (MissionWakeupModel.deduplication_key a
                                        = MissionWakeupModel.deduplication_key b))
           (MissionWakeupModel.id w) w (wakeups d);
  Ok (set_wakeups rows d).
Definition insert_turn (turn : ManagementTurnModel.t) (d : mdb) : res mission_error mdb :=
  rows ← insert_row (λ a b, bool_decide (ManagementTurnModel.wakeup_id a ≠ None)
                        && bool_decide (ManagementTurnModel.wakeup_id a = ManagementTurnModel.wakeup_id b))
           (ManagementTurnModel.id turn) turn (turns d);
  Ok (set_accounts_of (λ a, CallTables.Build_t (CallTables.model_calls a) (CallTables.grants a)
                              (CallTables.receipts a) rows) d).
(** [(work_item_id, depends_on_work_item_id)] is the primary key; the two differ. *)
Definition insert_dependency (p : uuid * uuid) (d : mdb) : res mission_error mdb :=
  if bool_decide (p ∈ dependencies d) || bool_decide (p.1 = p.2)
     || negb (bool_decide (is_Some (items d !! p.1)) && bool_decide (is_Some (items d !! p.2)))
  then Err integrity else Ok (set_dependencies (dependencies d ++ [p]) d).

(** The writer appends an event without a run and returns its position: that of the event
counter, which it locks. *)
Definition emit (name : string) (data : jobj) (d : mdb) : res mission_error (Z * mdb) :=
  if migrated (core d)
  then Ok (Z.of_nat (length (events (core d))) + 1,
           set_core (set_events (events (core d) ++ [Event.Build_t None name data]) (core d)) d)
  else Err (Raised "Database migration is required").
Definition emit_ (name : string) (data : jobj) (d : mdb) : res mission_error mdb :=
  written ← emit name data d; Ok written.2.

Definition found {A} (e : mission_error) (o : option A) : res mission_error A :=
  match o with Some x => Ok x | None => Err e end.
Definition get_mission (i : uuid) (d : mdb) : res mission_error MissionModel.t :=
  found assertion (missions d !! i).

(** The rows of a table that satisfy a condition. *)
Definition select_rows {V} `{RowOrder} (P : V → bool) (m : gmap uuid V) : list V :=
  row_order (List.filter P (snd <$> map_to_list m)).

Lemma ok_inj {E A} (a b : A) : Ok (E := E) a = Ok b → a = b.
Proof. congruence. Qed.
