(* ===== verification/MissionResources.v ===== *)
(** * Resource limits of missions

[orchestrator/app/jarvis_orchestrator/mission_resources.py]: before a mission acts it
reserves the most the action may use at three scopes, and is denied when a window of any
scope would exceed its limits; afterwards the reservation is reconciled with what was used,
or released.

[held_within_limits] is the invariant: the live reservations of every scope and window
stay within the limits.  [reserve_checks] says what a new reservation means, and
[reserve_idempotent] that an action reserves once. *)
From S2P Require Import Prelude Enums PyJson PyDecimal PyDecimalText Registry RawValidation.
From S2P Require Import MissionContracts Database MissionTables.
From stdpp Require Import gmap.
Local Open Scope Z_scope.
Local Open Scope stdpp_scope.

(** [MissionResourceLimits.model_validate] and [model_dump(mode="json")] *)
Class LimitsModel := {
  limits_validate : json → option MissionResourceLimits.t;
  limits_dump : MissionResourceLimits.t → json;
}.
Class LimitsModelLaws `{LimitsModel} : Prop := {
  limits_roundtrip : ∀ l, MissionResourceLimits.valid l = true →
    limits_validate (limits_dump l) = Some l;
  limits_valid : ∀ j l, limits_validate j = Some l → MissionResourceLimits.valid l = true;
}.

Notation reservation := MissionResourceReservationModel.t (only parsing).
Notation control := MissionAdmissionControlModel.t (only parsing).

Definition COUNT_FIELDS : list string :=
  ["calls"; "input_tokens"; "output_tokens"; "active_jobs"; "wall_seconds"; "iterations";
   "new_work_items"].
Definition LIMIT_FIELDS : list (string * (MissionResourceLimits.t → Z)) :=
  [("calls", MissionResourceLimits.max_calls);
   ("input_tokens", MissionResourceLimits.max_input_tokens);
   ("output_tokens", MissionResourceLimits.max_output_tokens);
   ("active_jobs", MissionResourceLimits.max_active_jobs);
   ("wall_seconds", MissionResourceLimits.max_wall_seconds);
   ("iterations", MissionResourceLimits.max_iterations);
   ("new_work_items", MissionResourceLimits.max_new_work_items)].
Definition SHARED_RESOURCE_LIMITS : MissionResourceLimits.t :=
  MissionResourceLimits.Build_t 86400 1000000 1000000000 1000000000 128 31536000 100000 100000
    None "USD".

Definition scope_keys (m : MissionModel.t) : list string :=
  ["global"; "team:" +:+ uuid_str (MissionModel.selected_team_version_id m);
   "mission:" +:+ uuid_str (MissionModel.id m)].

(** [zip(("global", "team", "mission"), scope_keys(mission))] *)
Definition scoped_keys (m : MissionModel.t) : list (ControlScope.t * string) :=
  zip [ControlScope.global; ControlScope.team; ControlScope.mission] (scope_keys m).

Definition control_at (key : string) (d : mdb) : option control :=
  find (λ c, String.eqb (MissionAdmissionControlModel.scope_key c) key) (controls d).

(** [int(now.timestamp())] of microseconds; the start of the window they lie in. *)
Definition _window_start (now : Z) (limits : MissionResourceLimits.t) : Z :=
  let epoch := now / 1000000 in
  (epoch - epoch mod MissionResourceLimits.window_seconds limits) * 1000000.

(** The sums of a window. *)
Record totals := { t_counts : list (string * Z); t_cost : decimal }.
Definition no_totals : totals := {| t_counts := (λ f, (f, 0)) <$> COUNT_FIELDS; t_cost := dec_of_Z 0 |}.

(** [int(text)] of digits with a sign, as [dec_of_string] reads decimals. *)
Definition int_of_string (s : string) : option Z :=
  let '(sign, digits) := split_sign s in
  if bool_decide (digits = "") then None else n ← digits_from 0 digits; Some (sign * Z.of_N n).

(** [values.get(field)] as the loop of [_add] reads it *)
Definition count_value (values : jobj) (field : string) : res mission_error Z :=
  match default JNull (dict_get field values) with
  | JNull => Ok 0
  | JBool b => Ok (if b then 1 else 0)
  | JInt z => Ok z
  | JStr s => found (Raised "ValueError") (int_of_string s)
  | _ => Err (MissionBudgetDeniedError "budget_value_invalid")
  end.

Fixpoint add_counts (values : jobj) (counts : list (string * Z))
    : res mission_error (list (string * Z)) :=
  match counts with
  | [] => Ok []
  | (f, n) :: rest =>
      v ← count_value values f;
      rest ← add_counts values rest;
      Ok ((f, n + v) :: rest)
  end.

Section resources.
Context `{PyRuntime} `{PyStr} `{LimitsModel}.

(** ** Controls *)

Definition validate_limits (j : json) : res mission_error MissionResourceLimits.t :=
  found (Raised "ValidationError") (limits_validate j).

Definition ensure_control (mission_limits : MissionResourceLimits.t) (d : mdb)
    (sk : ControlScope.t * string) : mdb :=
  match control_at sk.2 d with
  | Some _ => d
  | None =>
      set_controls (controls d ++ [{|
        MissionAdmissionControlModel.scope := sk.1;
        MissionAdmissionControlModel.scope_key := sk.2;
        MissionAdmissionControlModel.state := ControlState.open;
        MissionAdmissionControlModel.safe_point_instruction := None;
        MissionAdmissionControlModel.resource_limits_json :=
          limits_dump (if bool_decide (sk.1 = ControlScope.mission) then mission_limits
                       else SHARED_RESOURCE_LIMITS);
        MissionAdmissionControlModel.version := 0;
      |}]) d
  end.

Definition ensure_controls (m : MissionModel.t) (d : mdb) : res mission_error mdb :=
  limits ← validate_limits (MissionModel.resource_limits_json m);
  Ok (foldl (ensure_control limits) d (scoped_keys m)).

(** The controls of a mission, ordered by their key and locked. *)
Definition controls_of (m : MissionModel.t) (d : mdb) : list control :=
  sorted_key MissionAdmissionControlModel.scope_key
    (List.filter (λ c, bool_decide (MissionAdmissionControlModel.scope_key c ∈ scope_keys m))
       (controls d)).

Definition closed (c : control) : bool :=
  negb (bool_decide (MissionAdmissionControlModel.state c = ControlState.open)).
Definition control_text (c : control) : string :=
  ControlScope.value (MissionAdmissionControlModel.scope c) +:+ ":"
  +:+ ControlState.value (MissionAdmissionControlModel.state c).

(** The lifecycles in which a mission admits nothing. *)
Definition halted : list MissionLifecycle.t :=
  [MissionLifecycle.paused; MissionLifecycle.cancelling; MissionLifecycle.cancelled;
   MissionLifecycle.completed; MissionLifecycle.archived].

(** The answer and the tables: an error that the caller catches leaves what was written
before it, one that it does not catch rolls back. *)
Definition require_admission (m : MissionModel.t) (operation : string) (d : mdb)
    : res mission_error unit * mdb :=
  match ensure_controls m d with
  | Err e => (Err e, d)
  | Ok d =>
      (match List.filter closed (controls_of m d) with
       | _ :: _ as denied =>
           Err (MissionAdmissionDeniedError
                  (operation +:+ "_admission_paused:" +:+ PyJson.join "," (control_text <$> denied)))
       | [] =>
           raise_if (bool_decide (MissionModel.lifecycle m ∈ halted))
             (MissionAdmissionDeniedError
                (operation +:+ "_mission_" +:+ MissionLifecycle.value (MissionModel.lifecycle m)))
       end, d)
  end.

(** ** Reservations *)

(** [Decimal(str(amount))] *)
Definition add_cost (values : jobj) (cost : decimal) : res mission_error decimal :=
  match default JNull (dict_get "cost_amount" values) with
  | JNull => Ok cost
  | amount => amount ← found (Raised "InvalidOperation") (dec_of_string (py_str amount));
              Ok (dec_add cost amount)
  end.
Definition _add (t : totals) (values : jobj) : res mission_error totals :=
  counts ← add_counts values (t_counts t);
  cost ← add_cost values (t_cost t);
  Ok {| t_counts := counts; t_cost := cost |}.

Definition of_action (key action : string) (r : reservation) : bool :=
  String.eqb (MissionResourceReservationModel.scope_key r) key
  && String.eqb (MissionResourceReservationModel.action_id r) action.
(** The rows of a window that count. *)
Definition live (key : string) (window : Z) (r : reservation) : bool :=
  String.eqb (MissionResourceReservationModel.scope_key r) key
  && Z.eqb (MissionResourceReservationModel.window_started_at r) window
  && negb (bool_decide (MissionResourceReservationModel.status r = ReservationStatus.released)).
Definition row_values (r : reservation) : jobj :=
  if bool_decide (MissionResourceReservationModel.status r = ReservationStatus.reconciled)
  then default [] (MissionResourceReservationModel.actual_json r)
  else MissionResourceReservationModel.liability_json r.

Definition add_row (currency price_unit : string) (t : totals) (r : reservation)
    : res mission_error totals :=
  if negb (String.eqb (MissionResourceReservationModel.currency r) currency
           && String.eqb (MissionResourceReservationModel.price_unit r) price_unit)
  then Err (MissionBudgetDeniedError "budget_price_unit_mismatch")
  else _add t (row_values r).

Definition total_of (field : string) (t : totals) : Z := default 0 (dict_get field (t_counts t)).

Definition check_limits (limits : MissionResourceLimits.t) (t : totals) : res mission_error unit :=
  match find (λ fl, Z.ltb (fl.2 limits) (total_of fl.1 t)) LIMIT_FIELDS with
  | Some (field, _) => Err (MissionBudgetDeniedError ("budget_" +:+ field +:+ "_exceeded"))
  | None =>
      raise_if (negb (Z.eqb (coefficient (t_cost t)) 0)
                && match MissionResourceLimits.max_cost limits with
                   | None => true
                   | Some maximum => dec_gtb (t_cost t) maximum
                   end)
        (MissionBudgetDeniedError "budget_cost_exceeded")
  end.

Record request := {
  rq_action : string;
  rq_kind : string;
  rq_liability : jobj;
  rq_currency : string;
  rq_price_unit : string;
}.

Definition same_reservation (q : request) (r : reservation) : bool :=
  String.eqb (sha256_digest (JObj (MissionResourceReservationModel.liability_json r)))
    (sha256_digest (JObj (rq_liability q)))
  && String.eqb (MissionResourceReservationModel.currency r) (rq_currency q)
  && String.eqb (MissionResourceReservationModel.price_unit r) (rq_price_unit q).

Definition new_reservation (m : MissionModel.t) (q : request) (key : string) (window : Z)
    : reservation := {|
  MissionResourceReservationModel.mission_id := MissionModel.id m;
  MissionResourceReservationModel.scope_key := key;
  MissionResourceReservationModel.action_id := rq_action q;
  MissionResourceReservationModel.kind := rq_kind q;
  MissionResourceReservationModel.liability_json := rq_liability q;
  MissionResourceReservationModel.actual_json := None;
  MissionResourceReservationModel.status := ReservationStatus.reserved;
  MissionResourceReservationModel.currency := rq_currency q;
  MissionResourceReservationModel.price_unit := rq_price_unit q;
  MissionResourceReservationModel.window_started_at := window;
  MissionResourceReservationModel.reconciled_at := None;
|}.

(** The body of the loop over the controls: a row that is there, or a new one. *)
Definition reserve_at (m : MissionModel.t) (q : request) (now : Z) (d : mdb) (c : control)
    : res mission_error (reservation * mdb) :=
  let key := MissionAdmissionControlModel.scope_key c in
  limits ← validate_limits (MissionAdmissionControlModel.resource_limits_json c);
  if negb (String.eqb (MissionResourceLimits.currency limits) (rq_currency q))
  then Err (MissionBudgetDeniedError "budget_currency_mismatch")
  else
    let window := _window_start now limits in
    match find (of_action key (rq_action q)) (reservations d) with
    | Some existing =>
        if same_reservation q existing then Ok (existing, d)
        else Err (MissionBudgetDeniedError "budget_reservation_identity_mismatch")
    | None =>
        total ← foldM (add_row (rq_currency q) (rq_price_unit q)) no_totals
                  (List.filter (live key window) (reservations d));
        total ← _add total (rq_liability q);
        _ ← check_limits limits total;
        let row := new_reservation m q key window in
        Ok (row, set_reservations (reservations d ++ [row]) d)
    end.

(** The rows added before an error stay in the session. *)
Fixpoint reserve_all (m : MissionModel.t) (q : request) (now : Z) (created : list reservation)
    (d : mdb) (cs : list control) : res mission_error (list reservation) * mdb :=
  match cs with
  | [] => (Ok created, d)
  | c :: cs =>
      match reserve_at m q now d c with
      | Ok (row, d) => reserve_all m q now (created ++ [row]) d cs
      | Err e => (Err e, d)
      end
  end.

Definition reserve (m : MissionModel.t) (q : request) (now : Z) (d : mdb)
    : res mission_error (list reservation) * mdb :=
  match ensure_controls m d with
  | Err e => (Err e, d)
  | Ok d => reserve_all m q now [] d (controls_of m d)
  end.

(** The rows of an action at the scopes of a mission. *)
Definition action_row (m : MissionModel.t) (action : string) (r : reservation) : bool :=
  bool_decide (MissionResourceReservationModel.scope_key r ∈ scope_keys m)
  && String.eqb (MissionResourceReservationModel.action_id r) action.

Definition reconcile_row (actual : option jobj) (unknown : bool) (now : Z) (r : reservation)
    : reservation :=
  if bool_decide (MissionResourceReservationModel.status r ∈
                    [ReservationStatus.reconciled; ReservationStatus.unknown])
  then r
  else MissionResourceReservationModel.settled actual
         (if unknown then ReservationStatus.unknown else ReservationStatus.reconciled) now r.

Definition reconcile (m : MissionModel.t) (action : string) (actual : option jobj)
    (unknown : bool) (now : Z) (d : mdb) : res mission_error mdb :=
  if existsb (action_row m action) (reservations d)
  then Ok (set_reservations
             ((λ r, if action_row m action r then reconcile_row actual unknown now r else r)
                <$> reservations d) d)
  else Err (MissionBudgetDeniedError "budget_reservation_missing").

Definition release (m : MissionModel.t) (action : string) (now : Z) (d : mdb) : mdb :=
  set_reservations
    ((λ r, if action_row m action r
              && bool_decide (MissionResourceReservationModel.status r = ReservationStatus.reserved)
           then MissionResourceReservationModel.released now r else r)
       <$> reservations d) d.

(** ** [usage_view] *)

Definition is_liability (r : reservation) : bool :=
  bool_decide (MissionResourceReservationModel.status r ∈
                 [ReservationStatus.reserved; ReservationStatus.unknown]).

(** The sums of what is reserved and of what was used. *)
Definition usage_row (acc : totals * totals) (r : reservation)
    : res mission_error (totals * totals) :=
  if is_liability r
  then reserved ← _add acc.1 (MissionResourceReservationModel.liability_json r); Ok (reserved, acc.2)
  else match MissionResourceReservationModel.actual_json r with
       | Some actual => used ← _add acc.2 actual; Ok (acc.1, used)
       | None => Ok acc
       end.

Definition public (limits : MissionResourceLimits.t) (t : totals) : jobj :=
  dict_update ((λ fn, (fn.1, JInt fn.2)) <$> t_counts t)
    [("cost_amount", JStr (dec_str (t_cost t)));
     ("currency", JStr (MissionResourceLimits.currency limits))].

Definition usage_view (m : MissionModel.t) (now : Z) (d : mdb)
    : res mission_error MissionUsageView.t :=
  limits ← validate_limits (MissionModel.resource_limits_json m);
  let window := _window_start now limits in
  let rows := List.filter (live ("mission:" +:+ uuid_str (MissionModel.id m)) window)
                (reservations d) in
  sums ← foldM usage_row (no_totals, no_totals) rows;
  Ok {|
    MissionUsageView.window_started_at := window;
    MissionUsageView.window_seconds := MissionResourceLimits.window_seconds limits;
    MissionUsageView.reserved := public limits sums.1;
    MissionUsageView.actual := public limits sums.2;
    MissionUsageView.unknown_liability :=
      existsb (λ r, bool_decide (MissionResourceReservationModel.status r = ReservationStatus.unknown))
        rows;
    MissionUsageView.limits := limits;
  |}.
End resources.

(** ** What a window holds *)

(** What [values] contribute to a count. *)
Definition amount (field : string) (values : jobj) : Z :=
  match count_value values field with Ok z => z | Err _ => 0 end.
Definition sum_rows (field : string) (rows : list reservation) : Z :=
  foldr (λ r n, amount field (row_values r) + n) 0 rows.
Definition held (d : mdb) (key : string) (window : Z) (field : string) : Z :=
  sum_rows field (List.filter (live key window) (reservations d)).

Lemma sum_rows_app field a b : sum_rows field (a ++ b) = sum_rows field a + sum_rows field b.
Proof. induction a as [|r a IH]; simpl; [lia|]. fold (sum_rows field (a ++ b)). unfold sum_rows in *. lia. Qed.

Lemma sum_filter_cons field P r rows :
  sum_rows field (List.filter P (r :: rows))
  = sum_rows field (List.filter P [r]) + sum_rows field (List.filter P rows).
Proof. rewrite <-sum_rows_app, <-List.filter_app. done. Qed.

Lemma add_counts_get values counts counts' field n :
  add_counts values counts = Ok counts' → dict_get field counts = Some n →
  dict_get field counts' = Some (n + amount field values).
Proof.
  revert counts'. induction counts as [|[f k] counts IH]; intros counts'; simpl; [done|].
  intros (v & Hv & (rest & Hr & [= <-])%res_bind_ok)%res_bind_ok. simpl.
  case_bool_decide as Hf; [|by apply IH]. intros [= ->]. subst f.
  unfold amount. by rewrite Hv.
Qed.

Section totals.
Context `{PyStr}.

Lemma _add_get t values t' field n :
  _add t values = Ok t' → dict_get field (t_counts t) = Some n →
  dict_get field (t_counts t') = Some (n + amount field values).
Proof.
  unfold _add. intros (counts & Hc & (cost & _ & [= <-])%res_bind_ok)%res_bind_ok. simpl.
  by apply add_counts_get.
Qed.

Lemma add_rows_get currency unit rows t t' field n :
  foldM (add_row currency unit) t rows = Ok t' → dict_get field (t_counts t) = Some n →
  dict_get field (t_counts t') = Some (n + sum_rows field rows).
Proof.
  revert t n. induction rows as [|r rows IH]; intros t n; simpl; [intros [= ->] ->; f_equal; lia|].
  intros (t1 & Hr & Ht)%res_bind_ok Hn. unfold add_row in Hr.
  destruct (negb _); [done|]. rewrite (IH _ _ Ht (_add_get _ _ _ _ _ Hr Hn)). f_equal. lia.
Qed.
End totals.

Lemma no_totals_get field limit :
  (field, limit) ∈ LIMIT_FIELDS → dict_get field (t_counts no_totals) = Some 0.
Proof. unfold LIMIT_FIELDS. rewrite !elem_of_cons, elem_of_nil. naive_solver. Qed.

Lemma check_limits_ok limits t :
  check_limits limits t = Ok tt →
  (∀ field limit, (field, limit) ∈ LIMIT_FIELDS → total_of field t ≤ limit limits)
  ∧ (coefficient (t_cost t) ≠ 0 → ∃ maximum, MissionResourceLimits.max_cost limits = Some maximum
                                             ∧ dec_leb (t_cost t) maximum = true).
Proof.
  unfold check_limits. destruct (find _ _) as [[? ?]|] eqn:Hf; [done|]. intros Hc%raise_if_ok. split.
  - intros field limit Hin. apply list_elem_of_In in Hin.
    pose proof (find_none _ _ Hf _ Hin) as Hle. simpl in Hle. lia.
  - intros Hz. apply andb_false_iff in Hc as [Hc|Hc].
    + apply negb_false_iff, Z.eqb_eq in Hc. done.
    + destruct (MissionResourceLimits.max_cost limits) as [maximum|]; [|done].
      exists maximum. split; [done|]. unfold dec_leb. by rewrite Hc.
Qed.

(** ** Live reservations stay within the limits *)

(** The keys of the controls with their limits. *)
Definition control_limits (d : mdb) : list (string * json) :=
  (λ c, (MissionAdmissionControlModel.scope_key c,
         MissionAdmissionControlModel.resource_limits_json c)) <$> controls d.

Section invariant.
Context `{PyRuntime} `{PyStr} `{LimitsModel} `{!LimitsModelLaws}.

Definition nonneg (liability : jobj) : Prop :=
  ∀ field limit, (field, limit) ∈ LIMIT_FIELDS → 0 ≤ amount field liability.

Record resources_ok (d : mdb) : Prop := {
  ro_within : ∀ key j limits, (key, j) ∈ control_limits d → limits_validate j = Some limits →
    ∀ window field limit, (field, limit) ∈ LIMIT_FIELDS → held d key window field ≤ limit limits;
  ro_keys : NoDup (control_limits d).*1;
  ro_controlled : ∀ r, r ∈ reservations d →
    MissionResourceReservationModel.scope_key r ∈ (control_limits d).*1;
  ro_nonneg : ∀ r, r ∈ reservations d → nonneg (MissionResourceReservationModel.liability_json r);
}.

(** Actual usage within what was reserved, of an action that was not released. *)
Definition covered (m : MissionModel.t) (action : string) (actual : option jobj) (d : mdb) : Prop :=
  ∀ r, r ∈ reservations d → action_row m action r = true →
    MissionResourceReservationModel.status r ≠ ReservationStatus.released
    ∧ ∀ field limit, (field, limit) ∈ LIMIT_FIELDS →
        amount field (default [] actual) ≤ amount field (MissionResourceReservationModel.liability_json r).

(** The operations, and every other transaction that leaves limits and reservations alone. *)
Inductive resource_step : mdb → mdb → Prop :=
  | rs_admission m operation d d' :
      (require_admission m operation d).2 = d' → resource_step d d'
  | rs_reserve m q now d d' :
      nonneg (rq_liability q) → (reserve m q now d).2 = d' → resource_step d d'
  | rs_reconcile m action actual unknown now d d' :
      covered m action actual d → reconcile m action actual unknown now d = Ok d' →
      resource_step d d'
  | rs_release m action now d : resource_step d (release m action now d)
  | rs_other d d' :
      control_limits d' = control_limits d → reservations d' = reservations d → resource_step d d'.

Lemma valid_limits_nonneg limits field limit :
  MissionResourceLimits.valid limits = true → (field, limit) ∈ LIMIT_FIELDS → 0 ≤ limit limits.
Proof using.
  unfold MissionResourceLimits.valid, z_between, LIMIT_FIELDS. rewrite !andb_true_iff, !Z.leb_le.
  intros Hv. rewrite !elem_of_cons, elem_of_nil. intros Hin.
  repeat destruct Hin as [[= -> ->]|Hin]; try done; lia.
Qed.

Lemma find_control_none key d :
  control_at key d = None → key ∉ (control_limits d).*1.
Proof using.
  unfold control_at, control_limits. intros Hf (kj & -> & (c & -> & Hc)%list_elem_of_fmap)%list_elem_of_fmap.
  apply list_elem_of_In in Hc. pose proof (find_none _ _ Hf _ Hc) as Hk. simpl in Hk.
  by rewrite String.eqb_refl in Hk.
Qed.

(** No row of a key that no reservation has. *)
Lemma held_fresh d key window field :
  (∀ r, r ∈ reservations d → MissionResourceReservationModel.scope_key r ≠ key) →
  held d key window field = 0.
Proof using.
  intros Hk. unfold held. assert (List.filter (live key window) (reservations d) = []) as ->; [|done].
  induction (reservations d) as [|r l IH]; [done|]. simpl. unfold live at 1.
  rewrite (proj2 (String.eqb_neq _ _)); [simpl|apply Hk; by left].
  apply IH. intros r' Hr'. apply Hk. by right.
Qed.

Lemma ensure_control_ok limits d sk :
  MissionResourceLimits.valid limits = true → resources_ok d → resources_ok (ensure_control limits d sk).
Proof using Type*.
  intros Hv [Hw Hk Hc Hn]. unfold ensure_control. destruct (control_at sk.2 d) eqn:Hf; [done|].
  apply find_control_none in Hf.
  unfold control_limits in *. split; unfold control_limits; cbn [set_controls controls reservations];
    try rewrite fmap_app; simpl.
  - intros key j l [Hin|Hin%list_elem_of_singleton]%elem_of_app Hl window field limit Hfl; [eauto|].
    injection Hin as -> ->.
    assert (MissionResourceLimits.valid l = true) as Hvl by by eapply limits_valid.
    change (held d sk.2 window field ≤ limit l). rewrite held_fresh.
    + by eapply valid_limits_nonneg.
    + intros r Hr Heq. apply Hf. rewrite <-Heq. by apply Hc.
  - rewrite fmap_app. apply NoDup_app. split_and!; [done| |apply NoDup_singleton].
    intros x Hx Hs%list_elem_of_singleton. simpl in Hs. by subst.
  - intros r Hr. rewrite fmap_app. apply elem_of_app. left. by apply Hc.
  - done.
Qed.

Lemma ensure_all_ok limits sks d :
  MissionResourceLimits.valid limits = true → resources_ok d →
  resources_ok (foldl (ensure_control limits) d sks)
  ∧ reservations (foldl (ensure_control limits) d sks) = reservations d.
Proof using Type*.
  intros Hv. revert d. induction sks as [|sk sks IH]; intros d Hok; [by split|]. simpl.
  destruct (IH _ (ensure_control_ok limits d sk Hv Hok)) as [Hok' Hr]. split; [exact Hok'|].
  rewrite Hr. unfold ensure_control. by destruct (control_at _ _).
Qed.

Lemma ensure_controls_ok m d d' :
  ensure_controls m d = Ok d' → resources_ok d → resources_ok d' ∧ reservations d' = reservations d.
Proof using Type*.
  unfold ensure_controls, validate_limits. intros (l & Hl & Hd)%res_bind_ok Hok.
  destruct (limits_validate _) as [l'|] eqn:Hv; [|done]. injection Hl as ->. apply ok_inj in Hd as <-.
  apply ensure_all_ok; [|done]. by eapply limits_valid.
Qed.

Lemma held_app d rows key window field :
  held (set_reservations (reservations d ++ rows) d) key window field
  = held d key window field + sum_rows field (List.filter (live key window) rows).
Proof using. unfold held. simpl. by rewrite List.filter_app, sum_rows_app. Qed.

Lemma filter_new m q key window key' window' :
  List.filter (live key' window') [new_reservation m q key window]
  = if String.eqb key key' && Z.eqb window window' then [new_reservation m q key window] else [].
Proof using. simpl. unfold live. simpl. rewrite andb_true_r. by destruct (_ && _). Qed.

(** What one new reservation checks. *)
Lemma reserve_at_ok m q now d c row d' :
  reserve_at m q now d c = Ok (row, d') →
  (d' = d ∧ is_Some (find (of_action (MissionAdmissionControlModel.scope_key c) (rq_action q)) (reservations d)))
  ∨ ∃ limits, let key := MissionAdmissionControlModel.scope_key c in
      let window := _window_start now limits in
      limits_validate (MissionAdmissionControlModel.resource_limits_json c) = Some limits
      ∧ d' = set_reservations (reservations d ++ [new_reservation m q key window]) d
      ∧ ∀ field limit, (field, limit) ∈ LIMIT_FIELDS → held d' key window field ≤ limit limits.
Proof using.
  unfold reserve_at, validate_limits. intros (limits & Hl & Hr)%res_bind_ok.
  destruct (limits_validate _) as [l|] eqn:Hv; [|done]. injection Hl as ->.
  destruct (negb _); [done|]. destruct (find _ _) as [e|] eqn:Hf.
  { destruct (same_reservation q e); [|done]. injection Hr as <- <-. left. eauto. }
  right. exists limits. split; [done|].
  apply res_bind_ok in Hr as (t & Ht & (t' & Ht' & ([] & Hc & [= <- <-])%res_bind_ok)%res_bind_ok).
  split; [done|]. intros field limit Hin.
  pose proof (no_totals_get _ _ Hin) as H0'.
  pose proof (_add_get _ _ _ _ _ Ht' (add_rows_get _ _ _ _ _ _ _ Ht H0')) as Hg.
  apply check_limits_ok in Hc as [Hc _]. specialize (Hc _ _ Hin). unfold total_of in Hc.
  rewrite Hg in Hc. simpl in Hc. rewrite held_app, filter_new, String.eqb_refl, Z.eqb_refl.
  simpl. unfold row_values. simpl. unfold held. lia.
Qed.

Lemma reserve_at_preserves m q now d c row d' :
  nonneg (rq_liability q) → c ∈ controls d → reserve_at m q now d c = Ok (row, d') →
  resources_ok d → resources_ok d' ∧ controls d' = controls d.
Proof using Type*.
  intros Hnn Hc [[-> _]|(limits & Hl & -> & Hheld)]%reserve_at_ok [Hw Hk Hctl Hn]; [done|].
  assert ((MissionAdmissionControlModel.scope_key c, MissionAdmissionControlModel.resource_limits_json c)
          ∈ control_limits d) as Hin by (apply list_elem_of_fmap; eauto).
  split; [|done]. split; [|done| |].
  - intros key j l Hkj Hj window field limit Hfl. change (control_limits _) with (control_limits d) in Hkj.
    destruct (decide (key = MissionAdmissionControlModel.scope_key c
                      ∧ window = _window_start now limits)) as [[-> ->]|Hne].
    + assert (j = MissionAdmissionControlModel.resource_limits_json c) as ->.
      { assert ((MissionAdmissionControlModel.scope_key c, j)
                = (MissionAdmissionControlModel.scope_key c,
                   MissionAdmissionControlModel.resource_limits_json c)) as [= ->]; [|done].
        eapply (NoDup_fmap_elem_inj fst); eauto. }
      rewrite Hl in Hj. injection Hj as <-. by apply Hheld.
    + rewrite held_app, filter_new.
      assert (String.eqb (MissionAdmissionControlModel.scope_key c) key
              && Z.eqb (_window_start now limits) window = false) as ->.
      { apply andb_false_iff. rewrite String.eqb_neq, Z.eqb_neq.
        destruct (decide (key = MissionAdmissionControlModel.scope_key c)); [right|left]; naive_solver. }
      simpl. rewrite Z.add_0_r. eauto.
  - intros r [Hr|Hr%list_elem_of_singleton]%elem_of_app; [by apply Hctl|].
    rewrite Hr. simpl. apply list_elem_of_fmap. by eexists (_, _).
  - intros r [Hr| ->%list_elem_of_singleton]%elem_of_app; [by apply Hn|exact Hnn].
Qed.

Lemma controls_of_in m d c : c ∈ controls_of m d → c ∈ controls d.
Proof using.
  unfold controls_of. rewrite elem_of_sorted_key. intros [Hc _]%list_elem_of_In%filter_In.
  by apply list_elem_of_In.
Qed.

Lemma reserve_all_preserves m q now cs created d :
  nonneg (rq_liability q) → (∀ c, c ∈ cs → c ∈ controls d) → resources_ok d →
  resources_ok (reserve_all m q now created d cs).2.
Proof using Type*.
  intros Hnn. revert created d. induction cs as [|c cs IH]; intros created d Hin Hok; simpl; [done|].
  destruct (reserve_at m q now d c) as [[row d1]|e] eqn:Hc; [|done].
  destruct (reserve_at_preserves _ _ _ _ _ _ _ Hnn (Hin c (list_elem_of_here _ _)) Hc Hok) as [Hok1 Hctl].
  apply IH; [|done]. intros c' Hc'. rewrite Hctl. apply Hin. by right.
Qed.

Lemma reserve_preserves m q now d :
  nonneg (rq_liability q) → resources_ok d → resources_ok (reserve m q now d).2.
Proof using Type*.
  unfold reserve. intros Hnn Hok. destruct (ensure_controls m d) as [d1|e] eqn:Hd1; [|done].
  destruct (ensure_controls_ok _ _ _ Hd1 Hok) as [Hok1 _].
  apply reserve_all_preserves; [done|apply controls_of_in|done].
Qed.

(** Changing the rows of an action without raising what they contribute. *)
Lemma map_rows_preserves (f : reservation → reservation) d :
  (∀ r, MissionResourceReservationModel.scope_key (f r) = MissionResourceReservationModel.scope_key r
        ∧ MissionResourceReservationModel.liability_json (f r)
          = MissionResourceReservationModel.liability_json r) →
  (∀ r key window field limit, r ∈ reservations d → (field, limit) ∈ LIMIT_FIELDS →
     sum_rows field (List.filter (live key window) [f r]) ≤ sum_rows field (List.filter (live key window) [r])) →
  resources_ok d → resources_ok (set_reservations (f <$> reservations d) d).
Proof using Type*.
  intros Hkey Hle [Hw Hk Hctl Hn]. split; [|done| |].
  - intros key j l Hkj Hj window field limit Hfl. etrans; [|by eapply Hw].
    unfold held. simpl. clear Hkey Hctl Hw Hn Hkj Hk. induction (reservations d) as [|r rs IH]; [done|].
    rewrite fmap_cons, (sum_filter_cons _ _ (f r)), (sum_filter_cons _ _ r).
    pose proof (Hle r key window field limit (list_elem_of_here _ _) Hfl).
    assert (sum_rows field (List.filter (live key window) (f <$> rs))
            ≤ sum_rows field (List.filter (live key window) rs)); [|lia].
    apply IH. intros r' k' w' f' l' Hr'. apply Hle. by right.
  - intros r (r0 & -> & Hr)%list_elem_of_fmap. rewrite (proj1 (Hkey _)). by apply Hctl.
  - intros r (r0 & -> & Hr)%list_elem_of_fmap. rewrite (proj2 (Hkey _)). by apply Hn.
Qed.

Lemma live_single key window field r :
  sum_rows field (List.filter (live key window) [r])
  = if live key window r then amount field (row_values r) else 0.
Proof using Type*. simpl. destruct (live key window r); simpl; lia. Qed.

Lemma reconcile_preserves m action actual unknown now d d' :
  covered m action actual d → reconcile m action actual unknown now d = Ok d' →
  resources_ok d → resources_ok d'.
Proof using Type*.
  unfold reconcile. intros Hcov Hd Hok. destruct (existsb _ _); [|done]. apply ok_inj in Hd as <-.
  apply map_rows_preserves; [| |done].
  { intros r. destruct (action_row m action r); [|done]. unfold reconcile_row. by case_bool_decide. }
  intros r key window field limit Hr Hfl. rewrite !live_single.
  destruct (action_row m action r) eqn:Ha; [|done].
  destruct (Hcov r Hr Ha) as [Hrel Hle]. specialize (Hle field limit Hfl).
  unfold reconcile_row. case_bool_decide as Hs; [done|].
  assert (MissionResourceReservationModel.status r = ReservationStatus.reserved) as Hst.
  { destruct (MissionResourceReservationModel.status r); set_solver. }
  assert (live key window
    (MissionResourceReservationModel.settled actual
       (if unknown then ReservationStatus.unknown else ReservationStatus.reconciled) now r)
    = live key window r) as ->.
  { unfold live. simpl. rewrite Hst. f_equal. by destruct unknown. }
  destruct (live key window r); [|done]. unfold row_values. simpl. rewrite Hst. by destruct unknown.
Qed.

Lemma release_preserves m action now d : resources_ok d → resources_ok (release m action now d).
Proof using Type*.
  intros Hok. apply map_rows_preserves; [|intros r key window field limit Hr Hfl|done].
  { intros r. by destruct (_ && _). }
  destruct (_ && _) eqn:Ha; [|done]. apply andb_true_iff in Ha as [_ Hs%bool_decide_eq_true].
  rewrite !live_single. unfold live at 1. simpl. rewrite andb_false_r.
  destruct (live key window r); [|done]. unfold row_values. rewrite Hs. simpl.
  by eapply ro_nonneg.
Qed.

(** C17. The resource invariant: in every state the mission operations can reach,
for every scope with a control, every window and every counted resource, the live
reservations (the full liability until it is reconciled, then the actual usage) sum
to at most the limit of that scope, as long as limits are not changed, usage stays
within what was reserved, and no released action is reconciled. *)
Theorem held_within_limits d0 d key j limits window field limit :
  rtc resource_step d0 d → resources_ok d0 →
  (key, j) ∈ control_limits d → limits_validate j = Some limits → (field, limit) ∈ LIMIT_FIELDS →
  held d key window field ≤ limit limits.
Proof using Type*.
  intros Hr Hok0 Hkj Hj Hfl. assert (resources_ok d) as Hok; [|by eapply ro_within].
  revert Hok0. clear Hkj Hj. induction Hr as [|d0 d1 d2 Hs _ IH]; [done|]. intros Hok. apply IH.
  destruct Hs as [m operation d d' <-|m q now d d' Hnn <-|m action actual unknown now d d' Hc Hr
                 |m action now d|d d' Hc Hr].
  - unfold require_admission. destruct (ensure_controls m d) as [d1'|e] eqn:Hd1; [|done].
    by apply ensure_controls_ok in Hd1 as [Hok1 _].
  - by apply reserve_preserves.
  - by eapply reconcile_preserves.
  - by apply release_preserves.
  - destruct Hok as [Hw Hk Hctl Hn]. split; rewrite ?Hc, ?Hr; try done.
    intros ? ? ? ? ? ? ? ? ?. unfold held. rewrite Hr. by eapply Hw.
Qed.

End invariant.

(** ** An action reserves once *)

Section once.
Context `{PyRuntime} `{PyStr} `{LimitsModel}.

(** The row that answers a request at a control. *)
Definition answered (q : request) (c : control) (d : mdb) (r : reservation) : Prop :=
  find (of_action (MissionAdmissionControlModel.scope_key c) (rq_action q)) (reservations d) = Some r
  ∧ same_reservation q r = true
  ∧ ∃ limits, limits_validate (MissionAdmissionControlModel.resource_limits_json c) = Some limits
              ∧ MissionResourceLimits.currency limits = rq_currency q.

Lemma answered_app q c d r rows :
  answered q c d r → answered q c (set_reservations (reservations d ++ rows) d) r.
Proof using. intros (Hf & Hs & Hl). split_and!; [|done|done]. by apply find_some_app. Qed.

Lemma reserve_at_answers m q now d c r d' :
  reserve_at m q now d c = Ok (r, d') →
  answered q c d' r ∧ ∃ rows, d' = set_reservations (reservations d ++ rows) d.
Proof using.
  unfold reserve_at, validate_limits. intros (limits & Hl & Hr)%res_bind_ok.
  destruct (limits_validate _) as [l|] eqn:Hv; [|done]. injection Hl as ->.
  destruct (negb _) eqn:Hc; [done|]. apply negb_false_iff, String.eqb_eq in Hc.
  destruct (find _ _) as [e|] eqn:Hf.
  { destruct (same_reservation q e) eqn:Hs; [|done]. injection Hr as <- <-.
    split; [by repeat (eexists || split)|]. exists []. rewrite app_nil_r. by destruct d. }
  apply res_bind_ok in Hr as (t & _ & (t' & _ & ([] & _ & [= <- <-])%res_bind_ok)%res_bind_ok).
  split; [|by eexists]. split_and!; [| |by eexists].
  - simpl. rewrite find_none_app by done. simpl. unfold of_action. simpl. by rewrite !String.eqb_refl.
  - unfold same_reservation. simpl. by rewrite !String.eqb_refl.
Qed.

Lemma reserve_all_answers m q now cs created d out d' :
  reserve_all m q now created d cs = (Ok out, d') →
  ∃ rs, out = created ++ rs ∧ Forall2 (λ c r, answered q c d' r) cs rs
        ∧ ∃ rows, d' = set_reservations (reservations d ++ rows) d.
Proof using.
  revert created d. induction cs as [|c cs IH]; intros created d; simpl.
  { intros [= <- <-]. exists []. rewrite app_nil_r. split_and!; [done|constructor|].
    exists []. rewrite app_nil_r. by destruct d. }
  destruct (reserve_at m q now d c) as [[r d1]|e] eqn:Hc; [|done].
  intros (rs & -> & Hrs & rows & ->)%IH. apply reserve_at_answers in Hc as (Hr & rows1 & ->).
  exists (r :: rs). rewrite <-app_assoc. split_and!; [done| |].
  - constructor; [by apply answered_app|done].
  - exists (rows1 ++ rows). simpl. by rewrite app_assoc.
Qed.

Lemma answered_all m q now cs created d rs :
  Forall2 (λ c r, answered q c d r) cs rs →
  reserve_all m q now created d cs = (Ok (created ++ rs), d).
Proof using.
  intros Hrs. revert created. induction Hrs as [|c r cs rs (Hf & Hs & l & Hl & Hc) _ IH]; intros created; simpl.
  { by rewrite app_nil_r. }
  assert (reserve_at m q now d c = Ok (r, d)) as ->.
  { unfold reserve_at, validate_limits. rewrite Hl. simpl. by rewrite Hc, String.eqb_refl, Hf, Hs. }
  rewrite IH, <-app_assoc. done.
Qed.

Lemma control_at_app key d c : control_at key d = Some c →
  ∀ l, control_at key (set_controls (controls d ++ l) d) = Some c.
Proof using. intros Hc l. unfold control_at. simpl. by apply find_some_app. Qed.

(** All controls are there after [ensure_controls]. *)
Lemma ensure_all_there limits sks d :
  Forall (λ sk, is_Some (control_at sk.2 (foldl (ensure_control limits) d sks))) sks
  ∧ ∃ l, foldl (ensure_control limits) d sks = set_controls (controls d ++ l) d.
Proof using.
  revert d. induction sks as [|sk sks IH]; intros d; simpl.
  { split; [constructor|]. exists []. rewrite app_nil_r. by destruct d. }
  destruct (IH (ensure_control limits d sk)) as [Hall (l & Hl)].
  assert (∃ l0, ensure_control limits d sk = set_controls (controls d ++ l0) d
                ∧ is_Some (control_at sk.2 (ensure_control limits d sk))) as (l0 & Hl0 & [c Hc]).
  { unfold ensure_control. destruct (control_at sk.2 d) as [c|] eqn:Hc.
    - exists []. rewrite app_nil_r. split; [by destruct d|by rewrite Hc].
    - eexists. split; [done|]. unfold control_at in *. simpl. rewrite find_none_app by done. simpl.
      by rewrite String.eqb_refl. }
  split.
  - constructor; [|done]. rewrite Hl. eexists. by apply control_at_app.
  - exists (l0 ++ l). rewrite Hl, Hl0. simpl. by rewrite app_assoc.
Qed.

Lemma ensure_all_idle limits sks d :
  Forall (λ sk, is_Some (control_at sk.2 d)) sks → foldl (ensure_control limits) d sks = d.
Proof using.
  induction 1 as [|sk sks [c Hc] _ IH]; simpl; [done|].
  unfold ensure_control at 2. by rewrite Hc.
Qed.

(** Reserving is idempotent: repeating a request, at any later time and in any
window, returns the rows of the first request and changes nothing, so a retried
action is never counted twice. *)
Theorem reserve_idempotent m q now now' d rows d' :
  reserve m q now d = (Ok rows, d') → reserve m q now' d' = (Ok rows, d').
Proof using Type*.
  unfold reserve. destruct (ensure_controls m d) as [d1|e] eqn:Hd1; [|done].
  intros (rs & -> & Hrs & more & ->)%reserve_all_answers.
  assert (ensure_controls m (set_reservations (reservations d1 ++ more) d1)
          = Ok (set_reservations (reservations d1 ++ more) d1)) as ->.
  { unfold ensure_controls in *. apply res_bind_ok in Hd1 as (limits & Hl & Hd1). apply ok_inj in Hd1.
    rewrite Hl. apply (f_equal Ok), ensure_all_idle.
    destruct (ensure_all_there limits (scoped_keys m) d) as [Hall _]. by rewrite Hd1 in Hall. }
  by apply (answered_all _ _ _ _ []).
Qed.
End once.
