(* ===== verification/Missions.v ===== *)
(** * The mission manager

[MissionManagerService] of [orchestrator/app/jarvis_orchestrator/missions.py]: a mission
keeps a backlog of work items with dependencies; durable wakeups and messages queue
management turns; a claimed turn asks the manager model for a decision and applies it; items
whose dependencies are accepted become ready and are dispatched as runs, within the limits
of the mission and its team; finished runs settle their items.

Every operation here is one transaction.  [MissionBacklog.v] proves what they keep true of
work items and dependencies, [MissionDispatch.v] what one dispatch does, and
[MissionTurns.v] adds the conversation with the manager model. *)
From S2P Require Import Prelude Enums PyJson PyDecimal PyDecimalText Failures Verification Registry.
From S2P Require Import WorkflowSpec Normalize RawValidation GraphIssues MissionContracts Database Ownership.
From S2P Require Import Commands Routing Effects Accounting Budget ModelCalls Approvals MissionTables MissionResources.
From stdpp Require Import gmap.
Local Open Scope Z_scope.
Local Open Scope stdpp_scope.

(** [FixedTeamSelection.model_validate], [WorkflowResolvedSnapshot.model_validate] *)
Class TeamModel := team_validate : json → option FixedTeamSelection.t.
Class SnapshotModel := snapshot_validate : json → option WorkflowResolvedSnapshot.t.

(** [UUID("f9492020-172c-4b2e-a165-e317125eef68")] and
[UUID("aeac7562-bffc-48e6-9779-41161cf5b55a")] *)
Definition MANAGER_NAMESPACE : uuid := 0xf9492020172c4b2ea165e317125eef68%N.
Definition ASSIGNMENT_NAMESPACE : uuid := 0xaeac7562bffc48e6977941161cf5b55a%N.

(** [configured]: [provider_config] is not [None]. *)
Module MissionManagerService.
Record t := {
  owner : string;
  mode : string;
  lease_seconds : Z;
  max_attempts : Z;
  call_timeout_seconds : Z;
  max_output_tokens : Z;
  configured : bool;
}.
Definition valid (s : t) : bool :=
  Z.leb (call_timeout_seconds s + 30) (lease_seconds s) && z_between 1 5 (max_attempts s)
  && z_between 128 8192 (max_output_tokens s).
End MissionManagerService.
Notation manager := MissionManagerService.t (only parsing).
Notation turn_row := ManagementTurnModel.t (only parsing).
Notation mission_row := MissionModel.t (only parsing).
Notation item_row := MissionWorkItemModel.t (only parsing).
Notation wakeup_row := MissionWakeupModel.t (only parsing).
Notation decision := ManagerDecision.t (only parsing).

(** [session.get] of a row a foreign key names *)
Definition get_message (i : uuid) (d : mdb) : res mission_error MissionMessageModel.t :=
  found assertion (messages d !! i).

Definition turn_data (turn : turn_row) : jobj :=
  [("management_turn_id", JStr (uuid_str (ManagementTurnModel.id turn)))].

(** The first [n] characters of an ASCII text: [text[:n]] *)
Definition prefix_of (n : nat) (s : string) : string := str_take n s.

(** ** [failure_code] *)

Definition allowed_codes : list string :=
  ["management_turn_claim_lost"; "management_context_missing"; "manager_profile_missing";
   "manager_role_missing"; "manager_provider_missing"; "management_receipt_mismatch";
   "management_receipt_reconciliation_required"; "paid_inference_not_authorized";
   "real_manager_provider_unavailable"; "management_response_too_large";
   "work_item_update_not_allowed"; "management_context_too_large"; "mission_team_missing"].
Definition failure_code (e : mission_error) : string :=
  match e with
  | MissionAdmissionDeniedError code | MissionBudgetDeniedError code => code
  | Raised text => if bool_decide (text ∈ allowed_codes) then text else "manager_response_invalid"
  end.

(** ** Work items of a mission *)

Definition of_mission (m : uuid) (i : item_row) : bool := bool_decide (MissionWorkItemModel.mission_id i = m).
Definition in_state (l : WorkItemLifecycle.t) (i : item_row) : bool :=
  bool_decide (MissionWorkItemModel.lifecycle i = l).

(** [0 < priority] first, then the identifier: [ORDER BY priority DESC, id] *)
Definition by_priority (i : item_row) : Z * N :=
  (- MissionWorkItemModel.priority i, MissionWorkItemModel.id i).

(** The run of an item. *)
Definition run_of (d : mdb) (i : item_row) : option RunModel.t :=
  r ← MissionWorkItemModel.run_id i; runs (core d) !! r.
Definition terminal_run (r : RunModel.t) : bool := bool_decide (RunModel.status r ∈ TERMINAL).

Section missions.
Context `{PyRuntime} `{PyStr} `{LimitsModel} `{Uuid5} `{UuidFormat} `{IsoText} `{RowOrder}
  `{TeamModel} `{SnapshotModel} `{ModelDump ManagerDecision.t} `{ModelDump FixedTeamSelection.t}
  `{ModelDump WorkflowResolvedSnapshot.t} `{ModelDump WorkflowResolvedRevision.t}.

(** ** [claim] *)

Definition claimable (s : manager) (now : Z) (turn : turn_row) : bool :=
  String.eqb (ManagementTurnModel.mode turn) (MissionManagerService.mode s)
  && Z.leb (ManagementTurnModel.claimable_at turn) now
  && (bool_decide (ManagementTurnModel.status turn = TurnStatus.queued)
      || bool_decide (ManagementTurnModel.status turn = TurnStatus.running)
         && match ManagementTurnModel.lease_until turn with
            | Some lease => Z.ltb lease now
            | None => false
            end).

(** [locked]: the rows another transaction holds. *)
Definition claim (s : manager) (now : Z) (locked : uuid → bool) (d : mdb)
    : res mission_error (option uuid * mdb) :=
  match List.filter (λ turn, negb (locked (ManagementTurnModel.id turn)))
          (sorted_key ManagementTurnModel.created_at (select_rows (claimable s now) (turns d))) with
  | [] => Ok (None, d)
  | turn :: _ =>
      let d := put_turn (ManagementTurnModel.claimed (MissionManagerService.owner s)
                           (now + MissionManagerService.lease_seconds s * microseconds) turn) d in
      _ ← get_mission (ManagementTurnModel.mission_id turn) d;
      d ← emit_ "management.turn_started" (turn_data turn) d;
      Ok (Some (ManagementTurnModel.id turn), d)
  end.

(** ** [apply] *)

(** The clock readings and the fresh identifiers of a decision. *)
Record apply_readings := { ap_start : Z; ap_reserve : Z; ap_completed : Z; ap_reconcile : Z }.
Record apply_ids := { ap_item : nat → uuid; ap_message : uuid; ap_deadline : uuid }.

Definition same_cursor (a b : option Z) : bool := bool_decide (a = b).

(** The item whose run woke the manager is still as it was. *)
Definition wakeup_valid (m : mission_row) (w : option wakeup_row) (d : mdb) : bool :=
  match w with
  | None => true
  | Some w =>
      if bool_decide (MissionWakeupModel.kind w ∈ [WakeupKind.job_completed; WakeupKind.job_failed])
      then match uuid_of (default "None" (MissionWakeupModel.accepted_target_identity w)) with
           | None => false
           | Some i =>
               match items d !! i with
               | None => false
               | Some target =>
                   of_mission (MissionModel.id m) target
                   && bool_decide (Some (optional_str (MissionWorkItemModel.run_id target))
                                   = MissionWakeupModel.accepted_source_identity w)
                   && same_cursor (MissionWorkItemModel.accepted_event_cursor target)
                        (MissionWakeupModel.source_event_cursor w)
                   && bool_decide (MissionWorkItemModel.lifecycle target ∈
                                     [WorkItemLifecycle.accepted; WorkItemLifecycle.blocked;
                                      WorkItemLifecycle.cancelled])
               end
           end
      else true
  end.

(** The decision is out of date: the turn, its message and its wakeup are stale. *)
Definition apply_stale (t : apply_readings) (turn : turn_row) (m : mission_row)
    (w : option wakeup_row) (c : decision) (d : mdb) : res mission_error mdb :=
  let d := put_turn (ManagementTurnModel.decided TurnStatus.stale (model_dump c) (ap_completed t) turn) d in
  message ← get_message (ManagementTurnModel.input_message_id turn) d;
  let d := put_message (MissionMessageModel.with_disposition Disposition.stale message) d in
  let d := match w with
           | Some w => put_wakeup (MissionWakeupModel.with_outcome WakeupStatus.stale (model_dump c) w) d
           | None => d
           end in
  emit_ "management.turn_stale"
    (turn_data turn
     ++ [("governing_directive_version", JInt (ManagementTurnModel.directive_version turn));
         ("current_directive_version", JInt (MissionModel.directive_version m))]) d.

(** [{row.key: row ...}]: keys are unique in a mission. *)
Definition existing_items (m : uuid) (d : mdb) : list (string * item_row) :=
  (λ i, (MissionWorkItemModel.key i, i)) <$> select_rows (of_mission m) (items d).

(** The row of a proposal. *)
Definition proposed_item (i : uuid) (turn : turn_row) (p : proposal) (old : option item_row)
    : item_row := {|
  MissionWorkItemModel.id := i;
  MissionWorkItemModel.mission_id := ManagementTurnModel.mission_id turn;
  MissionWorkItemModel.key := WorkItemProposal.key p;
  MissionWorkItemModel.title := WorkItemProposal.title p;
  MissionWorkItemModel.objective := WorkItemProposal.objective p;
  MissionWorkItemModel.acceptance_criteria_json := WorkItemProposal.acceptance_criteria p;
  MissionWorkItemModel.priority := WorkItemProposal.priority p;
  MissionWorkItemModel.lifecycle :=
    if bool_decide (WorkItemProposal.dependencies p = []) then WorkItemLifecycle.ready
    else WorkItemLifecycle.pending;
  MissionWorkItemModel.directive_version := ManagementTurnModel.directive_version turn;
  MissionWorkItemModel.team_version_id := ManagementTurnModel.team_version_id turn;
  MissionWorkItemModel.job_id := r ← old; MissionWorkItemModel.job_id r;
  MissionWorkItemModel.run_id := r ← old; MissionWorkItemModel.run_id r;
  MissionWorkItemModel.source_wakeup_id := ManagementTurnModel.wakeup_id turn;
  MissionWorkItemModel.accepted_event_cursor := r ← old; MissionWorkItemModel.accepted_event_cursor r;
  MissionWorkItemModel.version :=
    match old with Some r => MissionWorkItemModel.version r + 1 | None => 0 end;
|}.

(** [delete(MissionWorkItemDependencyModel)] of an item *)
Definition clear_dependencies (i : uuid) (d : mdb) : mdb :=
  set_dependencies (List.filter (λ p, negb (bool_decide (p.1 = i))) (dependencies d)) d.

Definition item_event (turn : turn_row) (i : uuid) (p : proposal) (created : bool) (d : mdb)
    : res mission_error mdb :=
  emit_ (if created then "work_item.created" else "work_item.updated")
    (turn_data turn ++ [("work_item_id", JStr (uuid_str i)); ("key", JStr (WorkItemProposal.key p))]) d.

(** The body of the first loop: an item is created or revised. *)
Definition apply_item (turn : turn_row) (existing : list (string * item_row)) (fresh : uuid)
    (p : proposal) (d : mdb) : res mission_error (uuid * mdb) :=
  match dict_get (WorkItemProposal.key p) existing with
  | None =>
      d ← insert_item (proposed_item fresh turn p None) d;
      d ← item_event turn fresh p true d;
      Ok (fresh, d)
  | Some row =>
      let i := MissionWorkItemModel.id row in
      if bool_decide (MissionWorkItemModel.lifecycle row ∈ [WorkItemLifecycle.pending; WorkItemLifecycle.ready])
      then d ← item_event turn i p false (clear_dependencies i (put_item (proposed_item i turn p (Some row)) d));
           Ok (i, d)
      else Err (Raised "work_item_update_not_allowed")
  end.

(** [rows] maps the keys of the proposals to their items. *)
Fixpoint apply_items (turn : turn_row) (existing : list (string * item_row)) (fresh : nat → uuid)
    (n : nat) (ps : list proposal) (rows : list (string * uuid)) (d : mdb)
    : res mission_error (list (string * uuid) * mdb) :=
  match ps with
  | [] => Ok (rows, d)
  | p :: ps =>
      applied ← apply_item turn existing (fresh n) p d;
      apply_items turn existing fresh (S n) ps (dict_set (WorkItemProposal.key p) applied.1 rows) applied.2
  end.

Definition apply_dependency (rows : list (string * uuid)) (d : mdb) (edge : string * string)
    : res mission_error mdb :=
  a ← found (Raised "KeyError") (dict_get edge.1 rows);
  b ← found (Raised "KeyError") (dict_get edge.2 rows);
  insert_dependency (a, b) d.

(** The pairs of the nested loop. *)
Definition proposal_edges (ps : list proposal) : list (string * string) :=
  concat ((λ p, (λ k, (WorkItemProposal.key p, k)) <$> WorkItemProposal.dependencies p) <$> ps).

Definition manager_message (i : uuid) (turn : turn_row) (m : mission_row) (c : decision)
    : MissionMessageModel.t := {|
  MissionMessageModel.id := i;
  MissionMessageModel.mission_id := MissionModel.id m;
  MissionMessageModel.sequence := MissionModel.next_message_sequence m + 1;
  MissionMessageModel.role := MessageRole.manager;
  MissionMessageModel.identity := "mission-manager";
  MissionMessageModel.body := ManagerDecision.message c;
  MissionMessageModel.directive_version := ManagementTurnModel.directive_version turn;
  MissionMessageModel.management_turn_id := Some (ManagementTurnModel.id turn);
  MissionMessageModel.context_json := [("action", JStr (ManagerAction.value (ManagerDecision.action c)))];
  MissionMessageModel.disposition := Disposition.delivered;
|}.

Definition decided_mission (turn : turn_row) (c : decision) (m : mission_row) : mission_row :=
  let l := ManagerDecision.lifecycle c in
  let reason := if bool_decide (l = MissionLifecycle.waiting_for_approval)
                then Some "manager_requested_approval"
                else if bool_decide (l = MissionLifecycle.idle) then Some "manager_waiting" else None in
  let action := if negb (bool_decide (ManagerDecision.work_items c = []))
                then Some "Launch highest-priority ready work"
                else if bool_decide (is_Some (ManagerDecision.scheduled_wakeup_at c))
                then Some "Wait for the scheduled deadline" else None in
  let basis := "Management turn " +:+ uuid_str (ManagementTurnModel.id turn)
               +:+ " under directive v" +:+ pretty (ManagementTurnModel.directive_version turn) in
  let user := if bool_decide (l ∈ [MissionLifecycle.waiting_for_approval; MissionLifecycle.blocked])
              then Some (ManagerDecision.message c) else None in
  MissionModel.bump (MissionModel.with_user_action user
    (MissionModel.with_next action (Some basis)
       (MissionModel.with_state l reason (MissionModel.next_message m)))).

Definition deadline_key (turn : turn_row) (at_ : Z) : string :=
  "deadline:" +:+ uuid_str (ManagementTurnModel.id turn) +:+ ":" +:+ isoformat at_.
Definition wakeup_exists (m : uuid) (key : string) (d : mdb) : bool :=
  existsb (λ w, bool_decide (MissionWakeupModel.mission_id w = m)
                && String.eqb (MissionWakeupModel.deduplication_key w) key)
    (snd <$> map_to_list (wakeups d)).
Definition deadline_wakeup (i : uuid) (t : apply_readings) (turn : turn_row) (m : mission_row)
    (c : decision) (at_ : Z) : wakeup_row := {|
  MissionWakeupModel.id := i;
  MissionWakeupModel.mission_id := MissionModel.id m;
  MissionWakeupModel.kind := WakeupKind.deadline;
  MissionWakeupModel.deduplication_key := deadline_key turn at_;
  MissionWakeupModel.directive_version := MissionModel.directive_version m;
  MissionWakeupModel.team_version_id := MissionModel.selected_team_version_id m;
  MissionWakeupModel.source_event_cursor := ManagementTurnModel.source_event_cursor turn;
  MissionWakeupModel.accepted_target_identity := None;
  MissionWakeupModel.accepted_source_identity := Some (uuid_str (ManagementTurnModel.id turn));
  MissionWakeupModel.snapshot_json := [("basis", JStr (ManagerDecision.message c))];
  MissionWakeupModel.outcome_json := None;
  MissionWakeupModel.status := WakeupStatus.pending;
  MissionWakeupModel.scheduled_for := at_;
  MissionWakeupModel.management_turn_id := None;
  MissionWakeupModel.created_at := ap_start t;
|}.

Definition schedule_deadline (i : uuid) (t : apply_readings) (turn : turn_row) (m : mission_row)
    (c : decision) (d : mdb) : res mission_error mdb :=
  match ManagerDecision.scheduled_wakeup_at c with
  | None => Ok d
  | Some at_ =>
      if wakeup_exists (MissionModel.id m) (deadline_key turn at_) d then Ok d
      else insert_wakeup (deadline_wakeup i t turn m c at_) d
  end.

Definition count_liability (n : Z) : jobj := [("new_work_items", JInt n)].
Definition decision_action (turn : turn_row) : string :=
  "decision:" +:+ uuid_str (ManagementTurnModel.id turn).

Definition new_count (existing : list (string * item_row)) (c : decision) : Z :=
  Z.of_nat (length (List.filter (λ p, negb (dict_has (WorkItemProposal.key p) existing))
                      (ManagerDecision.work_items c))).

(** The reservation for the new items, when there are any. *)
Definition reserve_items (turn : turn_row) (m : mission_row) (n now : Z) (d : mdb)
    : res mission_error mdb :=
  if Z.eqb n 0 then Ok d
  else
    limits ← validate_limits (MissionModel.resource_limits_json m);
    match reserve m {| rq_action := decision_action turn; rq_kind := "new_work_items";
                       rq_liability := count_liability n;
                       rq_currency := MissionResourceLimits.currency limits;
                       rq_price_unit := "currency" |} now d with
    | (Ok _, d) => Ok d
    | (Err e, _) => Err e
    end.
Definition reconcile_items_of (turn : turn_row) (m : mission_row) (n now : Z) (d : mdb)
    : res mission_error mdb :=
  if Z.eqb n 0 then Ok d
  else reconcile m (decision_action turn) (Some (count_liability n)) false now d.

Definition commit_wakeup (w : option wakeup_row) (c : decision) (d : mdb) : mdb :=
  match w with
  | Some w => put_wakeup (MissionWakeupModel.with_outcome WakeupStatus.committed (model_dump c) w) d
  | None => d
  end.

(** The backlog of the decision. *)
Definition apply_backlog (ids : apply_ids) (turn : turn_row) (existing : list (string * item_row))
    (c : decision) (d : mdb) : res mission_error mdb :=
  applied ← apply_items turn existing (ap_item ids) 0 (ManagerDecision.work_items c) [] d;
  foldM (apply_dependency applied.1) applied.2 (proposal_edges (ManagerDecision.work_items c)).

(** A decision that is up to date. *)
Definition apply_decision (t : apply_readings) (ids : apply_ids) (turn : turn_row) (m : mission_row)
    (w : option wakeup_row) (c : decision) (d : mdb) : res mission_error mdb :=
  let existing := existing_items (MissionModel.id m) d in
  let n := new_count existing c in
  d ← reserve_items turn m n (ap_reserve t) d;
  d ← apply_backlog ids turn existing c d;
  d ← insert_message (manager_message (ap_message ids) turn m c) d;
  d ← put_mission (ap_start t) (decided_mission turn c m) d;
  let d := put_turn (ManagementTurnModel.decided TurnStatus.applied (model_dump c) (ap_completed t) turn) d in
  message ← get_message (ManagementTurnModel.input_message_id turn) d;
  let d := put_message (MissionMessageModel.with_disposition Disposition.delivered message) d in
  d ← schedule_deadline (ap_deadline ids) t turn m c (commit_wakeup w c d);
  d ← reconcile_items_of turn m n (ap_reconcile t) d;
  emit_ "management.turn_applied"
    (turn_data turn
     ++ [("action", JStr (ManagerAction.value (ManagerDecision.action c)));
         ("work_item_count", JInt (Z.of_nat (length (ManagerDecision.work_items c))))]) d.

(** The decision was made under the mission's directive and team, and its wakeup holds. *)
Definition current (turn : turn_row) (m : mission_row) (w : option wakeup_row) (d : mdb) : bool :=
  Z.eqb (MissionModel.directive_version m) (ManagementTurnModel.directive_version turn)
  && bool_decide (MissionModel.selected_team_version_id m = ManagementTurnModel.team_version_id turn)
  && wakeup_valid m w d.

Definition apply (t : apply_readings) (ids : apply_ids) (turn_id : uuid) (c : decision) (d : mdb)
    : res mission_error mdb :=
  turn ← found assertion (turns d !! turn_id);
  m ← get_mission (ManagementTurnModel.mission_id turn) d;
  let w := i ← ManagementTurnModel.wakeup_id turn; wakeups d !! i in
  if current turn m w d then apply_decision t ids turn m w c d else apply_stale t turn m w c d.

(** ** [fail] *)

Record fail_readings := { fa_start : Z; fa_now : Z }.

(** The call of the turn was started and has no result. *)
Definition started_rows (turn : turn_row) (d : mdb) : bool :=
  existsb (λ c, bool_decide (ModelCallModel.management_turn_id c = Some (ManagementTurnModel.id turn))
                && json_is "unknown" (dict_get "outcome" (ModelCallModel.record_json c)))
    (CallTables.model_calls (accounts (core d))).
Definition unanswered (turn : turn_row) (call : uuid) (d : mdb) : bool :=
  started_rows turn d && bool_decide (CallTables.receipts (accounts (core d)) !! call = None).

Definition manager_action (call : uuid) : string := "manager:" +:+ uuid_str call.

(** The liability of such a call stays held; a missing reservation is ignored. *)
Definition settle_unknown (turn : turn_row) (m : mission_row) (now : Z) (d : mdb)
    : res mission_error mdb :=
  match ManagementTurnModel.model_call_id turn with
  | None => Ok d
  | Some call =>
      if unanswered turn call d
      then match reconcile m (manager_action call) None true now d with
           | Err (MissionBudgetDeniedError _) => Ok d
           | r => r
           end
      else Ok d
  end.

Definition final_codes : list string :=
  ["paid_inference_not_authorized"; "management_receipt_reconciliation_required"].

Definition blocked_mission (code : string) (m : mission_row) : mission_row :=
  if startswith "budget_" code
  then MissionModel.with_user_action (Some "Review or increase the applicable resource limit.")
         (MissionModel.with_state MissionLifecycle.blocked (Some (prefix_of 240 code)) m)
  else m.

Definition fail_wakeup (turn : turn_row) (code : string) (d : mdb) : mdb :=
  match i ← ManagementTurnModel.wakeup_id turn; wakeups d !! i with
  | Some w => put_wakeup (MissionWakeupModel.with_outcome WakeupStatus.failed
                            (JObj [("failure_code", JStr code)]) w) d
  | None => d
  end.

(** The turn fails for good. *)
Definition fail_turn (t : fail_readings) (turn : turn_row) (m : mission_row) (code : string) (d : mdb)
    : res mission_error mdb :=
  let d := put_turn (ManagementTurnModel.failed code (fa_now t) turn) d in
  d ← put_mission (fa_start t) (blocked_mission code m) d;
  message ← get_message (ManagementTurnModel.input_message_id turn) d;
  let d := put_message (MissionMessageModel.with_disposition Disposition.failed message) d in
  emit_ "management.turn_failed" (turn_data turn ++ [("failure_code", JStr code)])
    (fail_wakeup turn code d).

Definition fail (s : manager) (t : fail_readings) (turn_id : uuid) (code : string) (d : mdb)
    : res mission_error mdb :=
  match turns d !! turn_id with
  | None => Ok d
  | Some turn =>
      if bool_decide (ManagementTurnModel.status turn ∈ [TurnStatus.applied; TurnStatus.stale])
      then Ok d
      else
        m ← get_mission (ManagementTurnModel.mission_id turn) d;
        let attempts := ManagementTurnModel.attempt_count turn in
        if startswith "inference_admission_paused" code
        then put_mission (fa_start t) (MissionModel.with_reason (Some (prefix_of 240 code)) m)
               (put_turn (ManagementTurnModel.requeued (fa_now t + 5 * microseconds)
                            (Z.max 0 (attempts - 1)) turn) d)
        else
          d ← settle_unknown turn m (fa_now t) d;
          if Z.ltb attempts (MissionManagerService.max_attempts s)
             && negb (bool_decide (code ∈ final_codes))
          then Ok (put_turn (ManagementTurnModel.requeued (fa_now t + 2 ^ attempts * microseconds)
                               attempts turn) d)
          else fail_turn t turn m code d
  end.

(** ** [snapshot] *)

Definition history (m : uuid) (d : mdb) : list MissionMessageModel.t :=
  reverse (take 50 (sorted_key (λ r, - MissionMessageModel.sequence r)
    (select_rows (λ r, bool_decide (MissionMessageModel.mission_id r = m)) (messages d)))).
Definition backlog (m : uuid) (d : mdb) : list item_row :=
  take 100 (sorted_key by_priority (select_rows (of_mission m) (items d))).

(** The keys an item depends on. *)
Definition dependency_keys (i : uuid) (d : mdb) : list string :=
  omap (λ p, if bool_decide (p.1 = i) then MissionWorkItemModel.key <$> items d !! p.2 else None)
    (row_order (dependencies d)).

Definition message_entry (r : MissionMessageModel.t) : json :=
  JObj [("role", JStr (MessageRole.value (MissionMessageModel.role r)));
        ("body", JStr (MissionMessageModel.body r));
        ("sequence", JInt (MissionMessageModel.sequence r))].
Definition backlog_entry (d : mdb) (i : item_row) : json :=
  JObj [("key", JStr (MissionWorkItemModel.key i));
        ("title", JStr (MissionWorkItemModel.title i));
        ("objective", JStr (MissionWorkItemModel.objective i));
        ("acceptance_criteria", JArr (JStr <$> MissionWorkItemModel.acceptance_criteria_json i));
        ("priority", JInt (MissionWorkItemModel.priority i));
        ("dependencies", JArr (JStr <$> dependency_keys (MissionWorkItemModel.id i) d));
        ("lifecycle", JStr (WorkItemLifecycle.value (MissionWorkItemModel.lifecycle i)));
        ("directive_version", JInt (MissionWorkItemModel.directive_version i));
        ("run_id", json_opt uuid_str (MissionWorkItemModel.run_id i))].
Definition snapshot (m : mission_row) (d : mdb) : jobj :=
  [("objective", JStr (MissionModel.objective m));
   ("constraints", JArr (JStr <$> MissionModel.constraints_json m));
   ("directive_version", JInt (MissionModel.directive_version m));
   ("messages", JArr (message_entry <$> history (MissionModel.id m) d));
   ("backlog", JArr (backlog_entry d <$> backlog (MissionModel.id m) d))].

(** [bounded_snapshot]: the oldest messages are dropped until the text fits. *)
Definition json_list (j : option json) : list json :=
  match j with Some (JArr l) => l | _ => [] end.
Definition text_size (o : jobj) : Z := bytes (canonical_json (JObj o)).

Fixpoint trim_messages (maximum : Z) (bounded : jobj) (messages : list json) : jobj :=
  match messages with
  | [] => bounded
  | _ :: rest =>
      if Z.ltb maximum (text_size bounded)
      then trim_messages maximum (dict_set "messages" (JArr rest) bounded) rest
      else bounded
  end.

(** [messages[-20:]] *)
Definition last_n {A} (n : nat) (l : list A) : list A := drop (length l - n) l.

Definition bounded_snapshot (o : jobj) (context_limit : Z) : res mission_error jobj :=
  let messages := last_n 20 (json_list (dict_get "messages" o)) in
  let backlog := take 50 (json_list (dict_get "backlog" o)) in
  let bounded := dict_set "backlog" (JArr backlog) (dict_set "messages" (JArr messages) o) in
  let maximum := Z.min 1000000 (context_limit * 3) in
  let bounded := trim_messages maximum bounded messages in
  if Z.ltb maximum (text_size bounded) then Err (Raised "management_context_too_large") else Ok bounded.

(** ** [materialize_wakeup] *)

Definition due (s : manager) (now : Z) (d : mdb) (w : wakeup_row) : bool :=
  bool_decide (MissionWakeupModel.status w = WakeupStatus.pending)
  && Z.leb (MissionWakeupModel.scheduled_for w) now
  && match missions d !! MissionWakeupModel.mission_id w with
     | Some m => String.eqb (MissionModel.mode m) (MissionManagerService.mode s) && MissionModel.autonomous m
     | None => false
     end.

Definition active_turn (m : uuid) (d : mdb) : bool :=
  existsb (λ turn, bool_decide (ManagementTurnModel.mission_id turn = m)
                   && bool_decide (ManagementTurnModel.status turn ∈ [TurnStatus.queued; TurnStatus.running]))
    (snd <$> map_to_list (turns d)).

Definition wakeup_turn (w : uuid) : uuid := uuid5 MANAGER_NAMESPACE ("wakeup:" +:+ uuid_str w).

Definition wakeup_message (i : uuid) (m : mission_row) (w : wakeup_row) : MissionMessageModel.t := {|
  MissionMessageModel.id := i;
  MissionMessageModel.mission_id := MissionModel.id m;
  MissionMessageModel.sequence := MissionModel.next_message_sequence m + 1;
  MissionMessageModel.role := MessageRole.system;
  MissionMessageModel.identity := "mission-wakeup";
  MissionMessageModel.body := "Durable wakeup: " +:+ WakeupKind.value (MissionWakeupModel.kind w);
  MissionMessageModel.directive_version := MissionModel.directive_version m;
  MissionMessageModel.management_turn_id := Some (wakeup_turn (MissionWakeupModel.id w));
  MissionMessageModel.context_json :=
    [("wakeup_id", JStr (uuid_str (MissionWakeupModel.id w)));
     ("source_event_cursor", opt_json JInt (MissionWakeupModel.source_event_cursor w))];
  MissionMessageModel.disposition := Disposition.queued;
|}.

Definition queued_turn (i message : uuid) (m : mission_row) (w : wakeup_row) (o : jobj)
    (now created : Z) (paid : bool) : turn_row := {|
  ManagementTurnModel.id := i;
  ManagementTurnModel.mission_id := MissionModel.id m;
  ManagementTurnModel.input_message_id := message;
  ManagementTurnModel.directive_version := MissionModel.directive_version m;
  ManagementTurnModel.team_version_id := MissionModel.selected_team_version_id m;
  ManagementTurnModel.wakeup_id := Some (MissionWakeupModel.id w);
  ManagementTurnModel.source_event_cursor := MissionWakeupModel.source_event_cursor w;
  ManagementTurnModel.input_snapshot_json := o;
  ManagementTurnModel.status := TurnStatus.queued;
  ManagementTurnModel.mode := MissionModel.mode m;
  ManagementTurnModel.allow_paid_inference := paid;
  ManagementTurnModel.model_call_id := None;
  ManagementTurnModel.response_json := None;
  ManagementTurnModel.failure_code := None;
  ManagementTurnModel.claimable_at := now;
  ManagementTurnModel.lease_until := None;
  ManagementTurnModel.claimed_by := None;
  ManagementTurnModel.attempt_count := 0;
  ManagementTurnModel.created_at := created;
  ManagementTurnModel.completed_at := None;
|}.

Definition woken_mission (w : wakeup_row) (m : mission_row) : mission_row :=
  MissionModel.with_next (Some "Run a finite management turn")
    (Some ("Persisted " +:+ WakeupKind.value (MissionWakeupModel.kind w) +:+ " wakeup "
           +:+ uuid_str (MissionWakeupModel.id w)))
    (MissionModel.next_message m).

Definition queue_turn (start now : Z) (message : uuid) (w : wakeup_row) (m : mission_row) (d : mdb)
    : res mission_error mdb :=
  let turn := wakeup_turn (MissionWakeupModel.id w) in
  let o := snapshot m d in
  d ← insert_message (wakeup_message message m w) d;
  d ← match turns d !! turn with
      | Some _ => Ok d
      | None => insert_turn (queued_turn turn message m w o now start false) d
      end;
  put_mission start (woken_mission w m) (put_wakeup (MissionWakeupModel.with_turn turn w) d).

(** [start] is when the transaction began. *)
Definition materialize_wakeup (s : manager) (now start : Z) (locked : uuid → bool) (message : uuid)
    (d : mdb) : res mission_error mdb :=
  match List.filter (λ w, negb (locked (MissionWakeupModel.id w)))
          (sorted_key (λ w, (MissionWakeupModel.scheduled_for w, MissionWakeupModel.created_at w))
             (select_rows (due s now d) (wakeups d))) with
  | [] => Ok d
  | w :: _ =>
      m ← get_mission (MissionWakeupModel.mission_id w) d;
      match require_admission m "inference" d with
      | (Err (MissionAdmissionDeniedError _), d) => Ok d
      | (Err e, _) => Err e
      | (Ok _, d) =>
          if negb (Z.eqb (MissionModel.directive_version m) (MissionWakeupModel.directive_version w)
                   && bool_decide (MissionModel.selected_team_version_id m
                                   = MissionWakeupModel.team_version_id w))
          then Ok (put_wakeup (MissionWakeupModel.with_status WakeupStatus.stale w) d)
          else if active_turn (MissionModel.id m) d then Ok d
          else queue_turn start now message w m d
      end
  end.

(** ** [dispatch_ready] *)

Definition dispatchable (m : mission_row) (i : item_row) : bool :=
  of_mission (MissionModel.id m) i && in_state WorkItemLifecycle.ready i
  && Z.eqb (MissionWorkItemModel.directive_version i) (MissionModel.directive_version m).

Definition serviceable (s : manager) (d : mdb) (m : mission_row) : bool :=
  String.eqb (MissionModel.mode m) (MissionManagerService.mode s) && MissionModel.autonomous m
  && bool_decide (MissionModel.lifecycle m ∈ [MissionLifecycle.active; MissionLifecycle.idle;
                                              MissionLifecycle.waiting_for_capacity])
  && existsb (dispatchable m) (snd <$> map_to_list (items d)).

(** The least recently served mission with ready work. *)
Definition next_mission (s : manager) (locked : uuid → bool) (d : mdb) : option mission_row :=
  head (List.filter (λ m, negb (locked (MissionModel.id m)))
          (sorted_key (λ m, (MissionModel.updated_at m, MissionModel.id m))
             (select_rows (serviceable s d) (missions d)))).
Definition next_item (m : mission_row) (locked : uuid → bool) (d : mdb) : option item_row :=
  head (List.filter (λ i, negb (locked (MissionWorkItemModel.id i)))
          (sorted_key by_priority (select_rows (dispatchable m) (items d)))).

Definition active_item (m : uuid) (d : mdb) (i : item_row) : bool :=
  of_mission m i && in_state WorkItemLifecycle.started i
  && match run_of d i with Some r => negb (terminal_run r) | None => false end.
Definition active_count (m : uuid) (d : mdb) : Z :=
  Z.of_nat (length (select_rows (active_item m d) (items d))).

Definition job_action (i : uuid) : string := "job:" +:+ uuid_str i.
Definition job_liability (limits : MissionResourceLimits.t) (budgets : TeamBudgetPolicy.t) : jobj :=
  [("active_jobs", JInt 1);
   ("wall_seconds", JInt (Z.min (Z.min 7200 (MissionResourceLimits.max_wall_seconds limits))
                            (TeamBudgetPolicy.max_execution_seconds budgets)))].

(** [configuration_digest] of [runtime/binding.py] *)
Definition configuration_digest (version : uuid) (payload : jobj) : res mission_error string :=
  o ← found (Raised "KeyError") (dict_get "snapshot" payload);
  let keep k := match dict_get k payload with Some v => [(k, v)] | None => [] end in
  Ok (sha256_digest (JObj ([("version_id", JStr (uuid_str version)); ("snapshot", o)]
                           ++ keep "repository_binding" ++ keep "mission_team"))).

(** The frozen configuration of a digest, or a new one. *)
Definition freeze (fresh version : uuid) (o : WorkflowResolvedSnapshot.t) (payload : jobj)
    (digest : string) (d : mdb) : res mission_error (uuid * mdb) :=
  match find (λ r, String.eqb (RunConfigSnapshotModel.snapshot_hash r) digest) (snapshots d) with
  | Some r => Ok (RunConfigSnapshotModel.id r, d)
  | None =>
      if existsb (λ r, bool_decide (RunConfigSnapshotModel.id r = fresh)) (snapshots d)
      then Err integrity
      else Ok (fresh, set_snapshots (snapshots d ++ [{|
             RunConfigSnapshotModel.id := fresh;
             RunConfigSnapshotModel.workflow_version_id := version;
             RunConfigSnapshotModel.resolved_revisions_json :=
               JArr (model_dump <$> WorkflowResolvedSnapshot.revisions o);
             RunConfigSnapshotModel.effective_spec_json := payload;
             RunConfigSnapshotModel.snapshot_hash := digest |}]) d)
  end.

(** [prefix + "\n- ".join(l)] *)
Definition newline : string := chr 10.
Definition bullets (l : list string) : string := PyJson.join (newline +:+ "- ") l.
Definition job_objective (m : mission_row) (i : item_row) : string :=
  MissionWorkItemModel.objective i
  +:+ newline +:+ newline +:+ "Acceptance criteria:" +:+ newline +:+ "- "
  +:+ bullets (MissionWorkItemModel.acceptance_criteria_json i)
  +:+ newline +:+ newline +:+ "Mission constraints:" +:+ newline +:+ "- "
  +:+ bullets (if bool_decide (MissionModel.constraints_json m = []) then ["No additional constraints"]
               else MissionModel.constraints_json m).

Definition item_job (i : uuid) : uuid := uuid5 ASSIGNMENT_NAMESPACE ("job:" +:+ uuid_str i).
Definition item_run (i : uuid) : uuid := uuid5 ASSIGNMENT_NAMESPACE ("run:" +:+ uuid_str i).

Definition new_run (m : mission_row) (i : item_row) (team version frozen : uuid) (now created : Z)
    : RunModel.t := {|
  RunModel.id := item_run (MissionWorkItemModel.id i);
  RunModel.job_id := item_job (MissionWorkItemModel.id i);
  RunModel.run_number := 1;
  RunModel.parent_run_id := None;
  RunModel.workflow_version_id := version;
  RunModel.config_snapshot_id := frozen;
  RunModel.langgraph_thread_id := uuid_str (item_run (MissionWorkItemModel.id i));
  RunModel.status := RunStatus.QUEUED;
  RunModel.desired_state := DesiredRunState.RUNNING;
  RunModel.priority := MissionWorkItemModel.priority i;
  RunModel.mode := MissionModel.mode m;
  RunModel.runtime_json :=
    [("mission_id", JStr (uuid_str (MissionModel.id m)));
     ("work_item_id", JStr (uuid_str (MissionWorkItemModel.id i)));
     ("team_version_id", JStr (uuid_str team));
     ("governing_directive_version", JInt (MissionWorkItemModel.directive_version i))];
  RunModel.claimable_at := now;
  RunModel.created_at := created;
  RunModel.version := 0;
|}.

(** The job and the run of an item, unless they exist. *)
Definition create_run (m : mission_row) (i : item_row) (team version frozen : uuid) (now created : Z)
    (d : mdb) : res mission_error mdb :=
  let job := item_job (MissionWorkItemModel.id i) in
  let run := new_run m i team version frozen now created in
  let d := match jobs (core d) !! job with
           | Some _ => d
           | None =>
               set_job_rows (<[job := {| JobModel.project_id := MissionModel.project_id m;
                                         JobModel.objective := job_objective m i |}]> (job_rows d))
                 (set_core (set_jobs (<[job := JobStatus.QUEUED]> (jobs (core d))) (core d)) d)
           end in
  match runs (core d) !! RunModel.id run with
  | Some _ => Ok d
  | None =>
      if migrated (core d) then
        let data := [("mission_id", JStr (uuid_str (MissionModel.id m)));
                     ("work_item_id", JStr (uuid_str (MissionWorkItemModel.id i)))] in
        Ok (set_core (event run "run.queued" data
              (event run "job.created" data (put_run run (core d)))) d)
      else Err (Raised "Database migration is required")
  end.

Definition started_mission (i : item_row) (m : mission_row) : mission_row :=
  MissionModel.bump (MissionModel.with_next
    (Some ("Run " +:+ MissionWorkItemModel.key i +:+ ": " +:+ MissionWorkItemModel.title i))
    (Some ("Ready work item governed by directive v" +:+ pretty (MissionWorkItemModel.directive_version i)))
    (MissionModel.with_state MissionLifecycle.active None m)).

Record dispatch_readings := { di_now : Z; di_start : Z; di_frozen : uuid }.

(** The end of the dispatch, after its reservation. *)
Definition launch (t : dispatch_readings) (m : mission_row) (i : item_row)
    (team : MissionTeamVersionModel.t) (selection : FixedTeamSelection.t) (d : mdb)
    : res mission_error mdb :=
  let version := FixedTeamSelection.workflow_version_id selection in
  match versions d !! version with
  | Some (WorkflowVersionModel.Build_t (Some _) (Some stored)) =>
      o ← found (Raised "ValidationError") (snapshot_validate stored);
      let payload := [("snapshot", model_dump o); ("mission_team", model_dump selection)] in
      digest ← configuration_digest version payload;
      frozen ← freeze (di_frozen t) version o payload digest d;
      d ← create_run m i (MissionTeamVersionModel.id team) version frozen.1 (di_now t) (di_start t) frozen.2;
      let job := item_job (MissionWorkItemModel.id i) in
      let run := item_run (MissionWorkItemModel.id i) in
      let d := put_item (MissionWorkItemModel.started job run i) d in
      d ← put_mission (di_start t) (started_mission i m) d;
      emit_ "work_item.started"
        [("work_item_id", JStr (uuid_str (MissionWorkItemModel.id i)));
         ("job_id", JStr (uuid_str job)); ("run_id", JStr (uuid_str run));
         ("automatic", JBool true)] d
  | _ => put_mission (di_start t) (MissionModel.with_state MissionLifecycle.blocked
                                     (Some "dispatch_workflow_snapshot_missing") m) d
  end.

(** The reservation; a denial blocks the mission. *)
Definition dispatch_reserved (t : dispatch_readings) (m : mission_row) (i : item_row)
    (team : MissionTeamVersionModel.t) (selection : FixedTeamSelection.t)
    (limits : MissionResourceLimits.t) (d : mdb) : res mission_error mdb :=
  match reserve m {| rq_action := job_action (MissionWorkItemModel.id i); rq_kind := "job_execution";
                     rq_liability := job_liability limits (FixedTeamSelection.budgets selection);
                     rq_currency := MissionResourceLimits.currency limits;
                     rq_price_unit := "currency" |} (di_now t) d with
  | (Ok _, d) => launch t m i team selection d
  | (Err (MissionBudgetDeniedError code), d) =>
      put_mission (di_start t)
        (MissionModel.with_user_action (Some "Increase the applicable resource limit or resume manually.")
           (MissionModel.with_state MissionLifecycle.blocked (Some (prefix_of 240 code)) m)) d
  | (Err e, _) => Err e
  end.

Definition dispatch_item (t : dispatch_readings) (m : mission_row) (i : item_row) (d : mdb)
    : res mission_error mdb :=
  limits ← validate_limits (MissionModel.resource_limits_json m);
  match teams d !! MissionWorkItemModel.team_version_id i with
  | None => put_mission (di_start t) (MissionModel.with_state MissionLifecycle.blocked
                                        (Some "dispatch_team_snapshot_missing") m) d
  | Some team =>
      selection ← found (Raised "ValidationError")
                    (team_validate (MissionTeamVersionModel.selection_json team));
      let active_limit := Z.min (MissionResourceLimits.max_active_jobs limits)
                            (TeamBudgetPolicy.max_active_assignments (FixedTeamSelection.budgets selection)) in
      if Z.leb active_limit (active_count (MissionModel.id m) d)
      then put_mission (di_start t) (MissionModel.with_state MissionLifecycle.waiting_for_capacity
                                       (Some "team_active_assignment_capacity") m) d
      else dispatch_reserved t m i team selection limits d
  end.

Definition dispatch_mission (t : dispatch_readings) (locked : uuid → bool) (m : mission_row) (d : mdb)
    : res mission_error mdb :=
  match require_admission m "dispatch" d with
  | (Err (MissionAdmissionDeniedError code), d) =>
      put_mission (di_start t) (MissionModel.with_reason (Some (prefix_of 240 code)) m) d
  | (Err e, _) => Err e
  | (Ok _, d) =>
      match next_item m locked d with
      | None =>
          if bool_decide (MissionModel.lifecycle m = MissionLifecycle.active)
          then put_mission (di_start t) (MissionModel.with_state MissionLifecycle.idle (Some "no_ready_work") m) d
          else Ok d
      | Some i => dispatch_item t m i d
      end
  end.

Definition dispatch_ready (s : manager) (t : dispatch_readings) (locked : uuid → bool) (d : mdb)
    : res mission_error mdb :=
  match next_mission s locked d with
  | None => Ok d
  | Some m => dispatch_mission t locked m d
  end.

(** ** [reconcile_items] *)

(** The clock readings, what the times of a run give as its [wall_seconds], and the
identifiers of new wakeups. *)
Record reconcile_inputs := {
  re_start : Z;
  re_now : Z;
  re_wall : uuid → Z;
  re_wakeup : nat → uuid;
}.

(** Started items with their runs. *)
Definition started_items (terminal : bool) (d : mdb) : list (item_row * RunModel.t) :=
  omap (λ i, r ← run_of d i; if Bool.eqb (terminal_run r) terminal then Some (i, r) else None)
    (select_rows (in_state WorkItemLifecycle.started) (items d)).

(** A mission waits while a run of it does. *)
Definition waiting_mission (r : RunModel.t) (m : mission_row) : mission_row :=
  if bool_decide (RunModel.status r = RunStatus.APPROVAL_REQUIRED)
  then MissionModel.with_user_action (Some "Review the active run approval request.")
         (MissionModel.with_state MissionLifecycle.waiting_for_approval
            (Some "active_run_requires_approval") m)
  else if bool_decide (MissionModel.lifecycle m = MissionLifecycle.waiting_for_approval)
  then MissionModel.with_user_action None (MissionModel.with_state MissionLifecycle.active None m)
  else m.
Definition reflect_run (t : reconcile_inputs) (d : mdb) (ir : item_row * RunModel.t)
    : res mission_error mdb :=
  m ← get_mission (MissionWorkItemModel.mission_id ir.1) d;
  put_mission (re_start t) (waiting_mission ir.2 m) d.

Definition outcome_of (r : RunModel.t) : WorkItemLifecycle.t :=
  if bool_decide (RunModel.status r = RunStatus.COMPLETED) then WorkItemLifecycle.accepted
  else if bool_decide (RunModel.status r ∈ [RunStatus.BLOCKED; RunStatus.FAILED])
  then WorkItemLifecycle.blocked else WorkItemLifecycle.cancelled.

Notation changes := (list (uuid * WorkItemLifecycle.t)).

(** A finished run settles its item and its reservation. *)
Definition settle_item (t : reconcile_inputs) (acc : changes * mdb) (ir : item_row * RunModel.t)
    : res mission_error (changes * mdb) :=
  let '(cs, d) := acc in
  let i := MissionWorkItemModel.id ir.1 in
  let l := outcome_of ir.2 in
  let d := put_item (MissionWorkItemModel.with_lifecycle l ir.1) d in
  m ← get_mission (MissionWorkItemModel.mission_id ir.1) d;
  let actual := [("active_jobs", JInt 0); ("wall_seconds", JInt (re_wall t (RunModel.id ir.2)))] in
  match reconcile m (job_action i) (Some actual) false (re_now t) d with
  | Ok d => Ok (cs ++ [(i, l)], d)
  | Err (MissionBudgetDeniedError code) =>
      if String.eqb code "budget_reservation_missing" then Ok (cs ++ [(i, l)], d)
      else Err (MissionBudgetDeniedError code)
  | Err e => Err e
  end.

(** Something the item depends on is not accepted. *)
Definition incomplete (i : uuid) (d : mdb) : bool :=
  existsb (λ p, bool_decide (p.1 = i)
                && match items d !! p.2 with
                   | Some j => negb (in_state WorkItemLifecycle.accepted j)
                   | None => false
                   end) (dependencies d).
Definition ready_item (acc : changes * mdb) (i : item_row) : changes * mdb :=
  let '(cs, d) := acc in
  if incomplete (MissionWorkItemModel.id i) d then (cs, d)
  else (cs ++ [(MissionWorkItemModel.id i, WorkItemLifecycle.ready)],
        put_item (MissionWorkItemModel.with_lifecycle WorkItemLifecycle.ready i) d).

(** The wakeup of a settled item. *)
Definition terminal_key (i : item_row) (l : WorkItemLifecycle.t) : string :=
  "run-terminal:" +:+ optional_str (MissionWorkItemModel.run_id i) +:+ ":" +:+ WorkItemLifecycle.value l.
Definition terminal_wakeup (fresh : uuid) (t : reconcile_inputs) (m : mission_row) (i : item_row)
    (l : WorkItemLifecycle.t) (cursor : Z) (o : jobj) : wakeup_row := {|
  MissionWakeupModel.id := fresh;
  MissionWakeupModel.mission_id := MissionModel.id m;
  MissionWakeupModel.kind := if bool_decide (l = WorkItemLifecycle.accepted)
                             then WakeupKind.job_completed else WakeupKind.job_failed;
  MissionWakeupModel.deduplication_key := terminal_key i l;
  MissionWakeupModel.directive_version := MissionModel.directive_version m;
  MissionWakeupModel.team_version_id := MissionModel.selected_team_version_id m;
  MissionWakeupModel.source_event_cursor := Some cursor;
  MissionWakeupModel.accepted_target_identity := Some (uuid_str (MissionWorkItemModel.id i));
  MissionWakeupModel.accepted_source_identity := Some (optional_str (MissionWorkItemModel.run_id i));
  MissionWakeupModel.snapshot_json := o;
  MissionWakeupModel.outcome_json := None;
  MissionWakeupModel.status := WakeupStatus.pending;
  MissionWakeupModel.scheduled_for := re_now t;
  MissionWakeupModel.management_turn_id := None;
  MissionWakeupModel.created_at := re_start t;
|}.

Definition evaluating_mission (i : item_row) (cursor : Z) (m : mission_row) : mission_row :=
  MissionModel.bump (MissionModel.with_next (Some "Evaluate the accepted run evidence")
    (Some ("Terminal run " +:+ optional_str (MissionWorkItemModel.run_id i) +:+ " at event "
           +:+ pretty cursor)) m).

Definition asleep : list MissionLifecycle.t :=
  [MissionLifecycle.paused; MissionLifecycle.cancelled; MissionLifecycle.completed;
   MissionLifecycle.archived].

(** What a settled item does to its mission. *)
Definition wake_mission (t : reconcile_inputs) (fresh : uuid) (m : mission_row) (i : item_row)
    (l : WorkItemLifecycle.t) (cursor : Z) (d : mdb) : res mission_error mdb :=
  if bool_decide (MissionModel.lifecycle m = MissionLifecycle.cancelling)
  then put_mission (re_start t) (MissionModel.with_state MissionLifecycle.cancelled None m) d
  else if MissionModel.autonomous m && negb (bool_decide (MissionModel.lifecycle m ∈ asleep))
  then
    if wakeup_exists (MissionModel.id m) (terminal_key i l) d then Ok d
    else
      d ← insert_wakeup (terminal_wakeup fresh t m i l cursor (snapshot m d)) d;
      put_mission (re_start t) (evaluating_mission i cursor m) d
  else Ok d.

Definition report_change (t : reconcile_inputs) (fresh : uuid) (change : uuid * WorkItemLifecycle.t)
    (d : mdb) : res mission_error mdb :=
  let '(i, l) := change in
  item ← found assertion (items d !! i);
  m ← get_mission (MissionWorkItemModel.mission_id item) d;
  written ← emit ("work_item." +:+ WorkItemLifecycle.value l)
    [("work_item_id", JStr (uuid_str i)); ("run_id", json_opt uuid_str (MissionWorkItemModel.run_id item))] d;
  let '(cursor, d) := written in
  if bool_decide (l = WorkItemLifecycle.ready) then Ok d
  else wake_mission t fresh m item l cursor (put_item (MissionWorkItemModel.with_cursor cursor item) d).

Fixpoint report_changes (t : reconcile_inputs) (n : nat) (cs : changes) (d : mdb)
    : res mission_error mdb :=
  match cs with
  | [] => Ok d
  | c :: cs => d ← report_change t (re_wakeup t n) c d; report_changes t (S n) cs d
  end.

Definition reconcile_items (t : reconcile_inputs) (d : mdb) : res mission_error mdb :=
  d ← foldM (reflect_run t) d (started_items false d);
  settled ← foldM (settle_item t) ([], d) (started_items true d);
  let '(cs, d) := settled in
  let '(cs, d) := foldl ready_item (cs, d)
                    (select_rows (in_state WorkItemLifecycle.pending) (items d)) in
  report_changes t 0 cs d.
End missions.
