(* ===== verification/MissionBacklog.v ===== *)
(** * The backlog of a mission

What the transactions of [Missions.v] keep true of work items and their dependencies,
whatever the manager decides and however runs end: the dependencies have no cycle, nothing
starts before everything it depends on is accepted, and what is accepted stays accepted
([backlog_sound]); a pending item always waits for one that is not ([backlog_progress]). *)
From S2P Require Import Prelude Enums PyJson PyDecimal PyDecimalText Failures Verification Registry.
From S2P Require Import WorkflowSpec Normalize RawValidation GraphIssues MissionContracts Database Ownership.
From S2P Require Import Commands Routing Effects Accounting Budget ModelCalls Approvals MissionTables MissionResources Missions.
From stdpp Require Import gmap.
Local Open Scope Z_scope.
Local Open Scope stdpp_scope.

Notation unsettled := [WorkItemLifecycle.pending; WorkItemLifecycle.ready] (only parsing).

(** [a] depends on [b]. *)
Definition depends (d : mdb) (a b : uuid) : Prop := (a, b) ∈ dependencies d.

Record backlog_ok (d : mdb) : Prop := {
  bo_missions : ∀ i m, missions d !! i = Some m → MissionModel.id m = i;
  bo_items : ∀ i r, items d !! i = Some r → MissionWorkItemModel.id r = i;
  bo_keys : ∀ i j r s, items d !! i = Some r → items d !! j = Some s →
    MissionWorkItemModel.mission_id r = MissionWorkItemModel.mission_id s →
    MissionWorkItemModel.key r = MissionWorkItemModel.key s → i = j;
  bo_edges : ∀ a b, depends d a b → ∃ r s, items d !! a = Some r ∧ items d !! b = Some s
    ∧ MissionWorkItemModel.mission_id r = MissionWorkItemModel.mission_id s;
  bo_acyclic : ∀ a, ¬ tc (depends d) a a;
  bo_gated : ∀ a b r, depends d a b → items d !! a = Some r →
    MissionWorkItemModel.lifecycle r ≠ WorkItemLifecycle.pending →
    ∃ s, items d !! b = Some s ∧ MissionWorkItemModel.lifecycle s = WorkItemLifecycle.accepted;
}.

(** What has ended keeps its outcome; no item disappears or changes its name. *)
Notation settled := [WorkItemLifecycle.accepted; WorkItemLifecycle.blocked; WorkItemLifecycle.cancelled]
  (only parsing).
Lemma settled_unsettled l : l ∈ settled → l ∈ unsettled → False.
Proof. rewrite !elem_of_cons, !elem_of_nil. naive_solver. Qed.

Definition keeps (d d' : mdb) : Prop :=
  ∀ i r, items d !! i = Some r → ∃ r', items d' !! i = Some r'
    ∧ MissionWorkItemModel.mission_id r' = MissionWorkItemModel.mission_id r
    ∧ MissionWorkItemModel.key r' = MissionWorkItemModel.key r
    ∧ (MissionWorkItemModel.lifecycle r ∈ settled →
       MissionWorkItemModel.lifecycle r' = MissionWorkItemModel.lifecycle r).
Definition good (d d' : mdb) : Prop := backlog_ok d → backlog_ok d' ∧ keeps d d'.

Lemma keeps_refl d : keeps d d.
Proof. intros i r Hr. exists r. by split_and!. Qed.
Lemma good_refl d : good d d.
Proof. intros Hok. split; [done|apply keeps_refl]. Qed.
Lemma good_trans d1 d2 d3 : good d1 d2 → good d2 d3 → good d1 d3.
Proof.
  intros H1 H2 Hok. destruct (H1 Hok) as [Hok2 Hk1]. destruct (H2 Hok2) as [Hok3 Hk2].
  split; [done|]. intros i r Hr. destruct (Hk1 i r Hr) as (r2 & Hr2 & Hm2 & Hn2 & Hl2).
  destruct (Hk2 i r2 Hr2) as (r3 & Hr3 & Hm3 & Hn3 & Hl3). exists r3. split_and!; [done|congruence..|].
  intros Hs. rewrite Hl3, Hl2; [done..|by rewrite Hl2].
Qed.

(** ** Statements that leave the backlog alone *)

Record same_backlog (d d' : mdb) : Prop := {
  sb_items : items d' = items d;
  sb_dependencies : dependencies d' = dependencies d;
  sb_missions : ∀ i m', missions d' !! i = Some m' → (∀ i m, missions d !! i = Some m → MissionModel.id m = i) →
    MissionModel.id m' = i;
}.

Lemma same_backlog_refl d : same_backlog d d.
Proof. split; naive_solver. Qed.
Lemma same_backlog_trans d1 d2 d3 : same_backlog d1 d2 → same_backlog d2 d3 → same_backlog d1 d3.
Proof. intros [? ? H1] [? ? H2]. split; [congruence..|]. intros i m Hm Hk. apply (H2 i m Hm). eauto. Qed.

Lemma same_backlog_ok d d' : same_backlog d d' → backlog_ok d → backlog_ok d'.
Proof.
  intros [Hi Hd Hm] [? ? ? ? Hac ?]. split; unfold depends in *; rewrite ?Hi, ?Hd; eauto.
Qed.

Lemma same_backlog_good d d' : same_backlog d d' → good d d'.
Proof.
  intros Hs Hok. split; [by eapply same_backlog_ok|]. unfold keeps.
  rewrite (sb_items _ _ Hs). apply keeps_refl.
Qed.

(** Changes outside missions, items and dependencies. *)
Lemma same_backlog_of d d' :
  missions d' = missions d → items d' = items d → dependencies d' = dependencies d → same_backlog d d'.
Proof. intros Hm Hi Hd. split; [done..|]. rewrite Hm. eauto. Qed.

Lemma put_mission_same now m d d' : put_mission now m d = Ok d' → same_backlog d d'.
Proof.
  unfold put_mission. destruct (missions d !! MissionModel.id m); [|done].
  destruct (MissionModel.unchanged _ _); [intros [= <-]; apply same_backlog_refl|].
  destruct (MissionModel.fits m); [|done]. intros [= <-]. split; [done..|]. simpl.
  intros i m' Hm' Hk. destruct (decide (i = MissionModel.id m)) as [->|Hne].
  - rewrite lookup_insert_eq in Hm'. injection Hm' as <-. done.
  - rewrite lookup_insert_ne in Hm' by done. eauto.
Qed.

Lemma emit_same name data d c d' : emit name data d = Ok (c, d') → same_backlog d d'.
Proof. unfold emit. destruct (migrated _); [|done]. intros [= _ <-]. by apply same_backlog_of. Qed.
Lemma emit_same_ name data d d' : emit_ name data d = Ok d' → same_backlog d d'.
Proof. unfold emit_. intros ([c d1] & He & [= <-])%res_bind_ok. by eapply emit_same. Qed.

Lemma insert_message_same m d d' : insert_message m d = Ok d' → same_backlog d d'.
Proof. unfold insert_message. intros (rows & _ & [= <-])%res_bind_ok. by apply same_backlog_of. Qed.
Lemma insert_wakeup_same w d d' : insert_wakeup w d = Ok d' → same_backlog d d'.
Proof. unfold insert_wakeup. intros (rows & _ & [= <-])%res_bind_ok. by apply same_backlog_of. Qed.
Lemma insert_turn_same t d d' : insert_turn t d = Ok d' → same_backlog d d'.
Proof. unfold insert_turn. intros (rows & _ & [= <-])%res_bind_ok. by apply same_backlog_of. Qed.
Lemma put_turn_same t d : same_backlog d (put_turn t d).
Proof. by apply same_backlog_of. Qed.
Lemma put_message_same m d : same_backlog d (put_message m d).
Proof. by apply same_backlog_of. Qed.
Lemma put_wakeup_same w d : same_backlog d (put_wakeup w d).
Proof. by apply same_backlog_of. Qed.

Section resources.
Context `{PyRuntime} `{PyStr} `{LimitsModel}.

Lemma foldl_control_same l sks d : same_backlog d (foldl (ensure_control l) d sks).
Proof.
  revert d. induction sks as [|sk sks IH]; intros d; simpl; [apply same_backlog_refl|].
  eapply same_backlog_trans; [|apply IH]. unfold ensure_control.
  destruct (control_at _ _); [apply same_backlog_refl|by apply same_backlog_of].
Qed.
Lemma ensure_controls_same m d d' : ensure_controls m d = Ok d' → same_backlog d d'.
Proof.
  unfold ensure_controls. intros (l & _ & Hd)%res_bind_ok. apply ok_inj in Hd as <-.
  apply foldl_control_same.
Qed.
Lemma require_admission_same m op d : same_backlog d (require_admission m op d).2.
Proof.
  unfold require_admission. destruct (ensure_controls m d) eqn:He; [|apply same_backlog_refl].
  by eapply ensure_controls_same.
Qed.
Lemma reserve_all_same m q now cs created d : same_backlog d (reserve_all m q now created d cs).2.
Proof.
  revert created d. induction cs as [|c cs IH]; intros created d; simpl; [apply same_backlog_refl|].
  destruct (reserve_at m q now d c) as [[r d1]|e] eqn:Hc; [|apply same_backlog_refl].
  eapply same_backlog_trans; [|apply IH]. apply reserve_at_answers in Hc as (_ & rows & ->).
  by apply same_backlog_of.
Qed.
Lemma reserve_same m q now d : same_backlog d (reserve m q now d).2.
Proof.
  unfold reserve. destruct (ensure_controls m d) eqn:He; [|apply same_backlog_refl].
  eapply same_backlog_trans; [by eapply ensure_controls_same|apply reserve_all_same].
Qed.
Lemma reconcile_same m a actual unknown now d d' :
  reconcile m a actual unknown now d = Ok d' → same_backlog d d'.
Proof. unfold reconcile. destruct (existsb _ _); [|done]. intros [= <-]. by apply same_backlog_of. Qed.
End resources.

#[export] Hint Resolve same_backlog_refl put_turn_same put_message_same put_wakeup_same
  require_admission_same reserve_same : backlog.
#[export] Hint Extern 2 (same_backlog _ _) =>
  first [eapply put_mission_same|eapply emit_same|eapply emit_same_|eapply insert_message_same
        |eapply insert_wakeup_same|eapply insert_turn_same|eapply reconcile_same]; eassumption : backlog.

(** Chains of such statements. *)
Ltac same_chain :=
  repeat match goal with
    | |- same_backlog ?d ?d => apply same_backlog_refl
    | H : put_mission _ _ ?e = Ok ?d |- same_backlog _ ?d =>
        eapply same_backlog_trans; [|by eapply (put_mission_same _ _ _ _ H)]
    | H : emit_ _ _ ?e = Ok ?d |- same_backlog _ ?d =>
        eapply same_backlog_trans; [|by eapply (emit_same_ _ _ _ _ H)]
    | H : insert_message _ ?e = Ok ?d |- same_backlog _ ?d =>
        eapply same_backlog_trans; [|by eapply (insert_message_same _ _ _ H)]
    | H : insert_wakeup _ ?e = Ok ?d |- same_backlog _ ?d =>
        eapply same_backlog_trans; [|by eapply (insert_wakeup_same _ _ _ H)]
    | H : insert_turn _ ?e = Ok ?d |- same_backlog _ ?d =>
        eapply same_backlog_trans; [|by eapply (insert_turn_same _ _ _ H)]
    | H : reconcile _ _ _ _ _ ?e = Ok ?d |- same_backlog _ ?d =>
        eapply same_backlog_trans; [|by eapply (reconcile_same _ _ _ _ _ _ _ H)]
    | |- same_backlog _ (put_turn _ _) => eapply same_backlog_trans; [|apply put_turn_same]
    | |- same_backlog _ (put_message _ _) => eapply same_backlog_trans; [|apply put_message_same]
    | |- same_backlog _ (put_wakeup _ _) => eapply same_backlog_trans; [|apply put_wakeup_same]
    end.

Section operations.
Context `{PyRuntime} `{PyStr} `{LimitsModel} `{Uuid5} `{UuidFormat} `{IsoText} `{RowOrder}
  `{TeamModel} `{SnapshotModel} `{ModelDump ManagerDecision.t} `{ModelDump FixedTeamSelection.t}
  `{ModelDump WorkflowResolvedSnapshot.t} `{ModelDump WorkflowResolvedRevision.t} `{SetOrderLaws}.
Context `{!RowOrderLaws}.

(** ** Operations that leave the backlog alone *)

Lemma claim_same s now locked d i d' : claim s now locked d = Ok (i, d') → same_backlog d d'.
Proof using.
  unfold claim. destruct (List.filter _ _) as [|turn l]; [intros [= _ <-]; apply same_backlog_refl|].
  intros (m & _ & (d1 & He & [= _ <-])%res_bind_ok)%res_bind_ok. same_chain.
Qed.

Lemma apply_stale_same t turn m w c d d' : apply_stale t turn m w c d = Ok d' → same_backlog d d'.
Proof using.
  unfold apply_stale. intros (msg & _ & He)%res_bind_ok. same_chain.
  destruct w; same_chain.
Qed.

Lemma settle_unknown_same turn m now d d' : settle_unknown turn m now d = Ok d' → same_backlog d d'.
Proof using.
  unfold settle_unknown. destruct (ManagementTurnModel.model_call_id turn) as [call|];
    [|intros [= <-]; same_chain].
  destruct (unanswered _ _ _); [|intros [= <-]; same_chain].
  destruct (reconcile _ _ _ _ _ _) as [d1|[]] eqn:Hr; try done; intros [= <-]; same_chain.
Qed.

Lemma fail_same s t i code d d' : fail s t i code d = Ok d' → same_backlog d d'.
Proof using.
  unfold fail. destruct (turns d !! i) as [turn|]; [|intros [= <-]; same_chain].
  destruct (bool_decide _); [intros [= <-]; same_chain|].
  intros (m & _ & Hf)%res_bind_ok. destruct (startswith _ _); [same_chain|].
  apply res_bind_ok in Hf as (d1 & Hs%settle_unknown_same & Hf).
  eapply same_backlog_trans; [exact Hs|]. clear Hs.
  destruct (_ && _); [injection Hf as <-; same_chain|].
  unfold fail_turn in Hf. apply res_bind_ok in Hf as (d2 & Hp & (msg & _ & He)%res_bind_ok).
  same_chain. unfold fail_wakeup. destruct (_ ≫= _); same_chain.
Qed.

Lemma queue_turn_same start now msg w m d d' : queue_turn start now msg w m d = Ok d' → same_backlog d d'.
Proof using.
  unfold queue_turn. intros (d1 & Hm & (d2 & Ht & Hp)%res_bind_ok)%res_bind_ok. same_chain.
  destruct (turns d1 !! _); [injection Ht as <-|]; same_chain.
Qed.

Lemma materialize_wakeup_same s now start locked msg d d' :
  materialize_wakeup s now start locked msg d = Ok d' → same_backlog d d'.
Proof using.
  unfold materialize_wakeup. destruct (List.filter _ _) as [|w l]; [intros [= <-]; same_chain|].
  intros (m & _ & Hr)%res_bind_ok. pose proof (require_admission_same m "inference" d) as Hs.
  destruct (require_admission m "inference" d) as [r d1]. simpl in Hs.
  eapply same_backlog_trans; [exact Hs|]. clear Hs.
  destruct r as [[]|[code|code|text]]; try done; [|injection Hr as <-; same_chain].
  destruct (negb _); [injection Hr as <-; same_chain|].
  destruct (active_turn _ _); [injection Hr as <-; same_chain|]. by eapply queue_turn_same.
Qed.

Lemma wake_mission_same t fresh m i l cursor d d' :
  wake_mission t fresh m i l cursor d = Ok d' → same_backlog d d'.
Proof using.
  unfold wake_mission. destruct (bool_decide _); [intros; same_chain|].
  destruct (_ && _); [|intros [= <-]; same_chain].
  destruct (wakeup_exists _ _ _); [intros [= <-]; same_chain|].
  intros (d1 & Hw & Hp)%res_bind_ok. same_chain.
Qed.

Lemma reflect_runs_same t irs d d' : foldM (reflect_run t) d irs = Ok d' → same_backlog d d'.
Proof using.
  apply (foldM_ind _ (λ x, same_backlog d x)); [apply same_backlog_refl|].
  intros d1 ir d2 _ Hs. unfold reflect_run. intros (m & _ & Hp)%res_bind_ok.
  eapply same_backlog_trans; [exact Hs|]. same_chain.
Qed.

(** ** Changing one item *)

(** The row of an item changes, but not what identifies it; it stays gated. *)
Definition revises (d : mdb) (i : uuid) (r r' : item_row) : Prop :=
  MissionWorkItemModel.id r' = i
  ∧ MissionWorkItemModel.mission_id r' = MissionWorkItemModel.mission_id r
  ∧ MissionWorkItemModel.key r' = MissionWorkItemModel.key r
  ∧ (MissionWorkItemModel.lifecycle r ∈ settled →
     MissionWorkItemModel.lifecycle r' = MissionWorkItemModel.lifecycle r)
  ∧ (MissionWorkItemModel.lifecycle r = WorkItemLifecycle.pending →
     MissionWorkItemModel.lifecycle r' ≠ WorkItemLifecycle.pending →
     ∀ b, depends d i b → ∃ s, items d !! b = Some s
       ∧ MissionWorkItemModel.lifecycle s = WorkItemLifecycle.accepted).

Lemma put_item_good d i r r' :
  items d !! i = Some r → revises d i r r' → good d (put_item r' d).
Proof using.
  intros Hr (Hid & Hm & Hk & Hset & Hgate) [B1 B2 B3 B4 B5 B6]. unfold put_item. rewrite Hid.
  split; [|intros j s Hs; simpl; destruct (decide (j = i)) as [->|Hne];
    [rewrite lookup_insert_eq; rewrite Hr in Hs; injection Hs as <-; exists r'; by split_and!
    |rewrite lookup_insert_ne by done; exists s; by split_and!]].
  assert (MissionWorkItemModel.lifecycle r = WorkItemLifecycle.accepted →
          MissionWorkItemModel.lifecycle r' = WorkItemLifecycle.accepted) as Hacc.
  { intros Ha. rewrite Hset; [done|]. rewrite Ha. by left. }
  assert (∀ j s, <[i:=r']> (items d) !! j = Some s →
            ∃ s0, items d !! j = Some s0 ∧ MissionWorkItemModel.mission_id s = MissionWorkItemModel.mission_id s0
              ∧ MissionWorkItemModel.key s = MissionWorkItemModel.key s0) as Hback.
  { intros j s [[-> <-]|[Hne Hs]]%lookup_insert_Some; eauto. }
  split; unfold depends in *; simpl; try done.
  - intros j s [[-> <-]|[_ Hs]]%lookup_insert_Some; [done|eauto].
  - intros j k s t (s0 & Hs & Hsm & Hsk)%Hback (t0 & Ht & Htm & Htk)%Hback Hmm Hkk.
    eapply B3; [exact Hs|exact Ht|congruence..].
  - intros a b Hab. destruct (B4 a b Hab) as (ra & sb & Ha & Hb & Hmm).
    assert (∀ j s, items d !! j = Some s → ∃ s', <[i:=r']> (items d) !! j = Some s'
              ∧ MissionWorkItemModel.mission_id s' = MissionWorkItemModel.mission_id s) as Hfw.
    { intros j s Hs. destruct (decide (j = i)) as [->|Hne].
      - rewrite lookup_insert_eq. rewrite Hr in Hs. injection Hs as <-. eauto.
      - rewrite lookup_insert_ne by done. eauto. }
    destruct (Hfw _ _ Ha) as (? & ? & ?). destruct (Hfw _ _ Hb) as (? & ? & ?).
    do 2 eexists. split_and!; [done..|congruence].
  - intros a b s Hab Hs Hl.
    assert (∃ t, items d !! b = Some t ∧ MissionWorkItemModel.lifecycle t = WorkItemLifecycle.accepted)
      as (t & Ht & Hta).
    { apply lookup_insert_Some in Hs as [[<- <-]|[Hne Hs]]; [|eauto].
      destruct (decide (MissionWorkItemModel.lifecycle r = WorkItemLifecycle.pending)); eauto. }
    destruct (decide (b = i)) as [->|Hne].
    + rewrite lookup_insert_eq. rewrite Hr in Ht. injection Ht as <-. eauto.
    + rewrite lookup_insert_ne by done. eauto.
Qed.

(** ** Rows that a query returns *)

Lemma elem_of_select_rows {V} (P : V → bool) (m : gmap uuid V) v :
  v ∈ select_rows P m ↔ ∃ i, m !! i = Some v ∧ P v = true.
Proof using Type*.
  unfold select_rows. rewrite row_order_perm, list_elem_of_In, filter_In, <-list_elem_of_In, list_elem_of_fmap.
  setoid_rewrite <-elem_of_map_to_list. split.
  - intros [([i x] & -> & Hx) Hp]. by exists i.
  - intros (i & Hi & Hp). split; [by exists (i, v)|done].
Qed.

Lemma NoDup_select_rows {V} (key : V → uuid) (P : V → bool) (m : gmap uuid V) :
  (∀ i v, m !! i = Some v → key v = i) → NoDup (key <$> select_rows P m).
Proof using Type*.
  intros Hk. unfold select_rows. rewrite row_order_perm. apply NoDup_fmap_filter.
  rewrite <-list_fmap_compose.
  assert ((key ∘ snd) <$> map_to_list m = fst <$> map_to_list m) as ->.
  { apply list_fmap_ext. intros ? [i v] Hiv%list_elem_of_lookup_2%elem_of_map_to_list. by apply Hk. }
  apply NoDup_fst_map_to_list.
Qed.

Lemma NoDup_omap_fmap {A B C} (f : A → option B) (g : A → C) (h : B → C) l :
  (∀ x y, f x = Some y → h y = g x) → NoDup (g <$> l) → NoDup (h <$> omap f l).
Proof using.
  intros Hf. induction l as [|x l IH]; [done|]. rewrite fmap_cons, NoDup_cons. intros [Hx Hl]. simpl.
  destruct (f x) as [y|] eqn:Hy; [|by apply IH]. rewrite fmap_cons. apply NoDup_cons. split; [|by apply IH].
  rewrite (Hf _ _ Hy). intros (z & Hz & (w & Hw & Hfw)%list_elem_of_omap)%list_elem_of_fmap.
  apply Hx. rewrite Hz, (Hf _ _ Hfw). by apply list_elem_of_fmap_2.
Qed.

(** ** Runs settle items, and accepted dependencies free them *)

Lemma started_items_rows b d ir :
  ir ∈ started_items b d → (∀ i r, items d !! i = Some r → MissionWorkItemModel.id r = i) →
  items d !! MissionWorkItemModel.id ir.1 = Some ir.1
  ∧ MissionWorkItemModel.lifecycle ir.1 = WorkItemLifecycle.started.
Proof using Type*.
  unfold started_items. intros (i & (j & Hj & Hs)%elem_of_select_rows & Hr)%list_elem_of_omap Hk.
  destruct (run_of d i) as [r|]; [|done]. simpl in Hr. destruct (Bool.eqb _ _); [|done].
  injection Hr as <-. simpl. rewrite (Hk _ _ Hj). split; [done|]. by apply bool_decide_eq_true in Hs.
Qed.

Lemma NoDup_started_items b d :
  (∀ i r, items d !! i = Some r → MissionWorkItemModel.id r = i) →
  NoDup ((λ ir, MissionWorkItemModel.id ir.1) <$> started_items b d).
Proof using Type*.
  intros Hk. unfold started_items. eapply (NoDup_omap_fmap _ MissionWorkItemModel.id).
  - intros i [? ?]. destruct (run_of d i) as [r|]; [|done]. simpl. destruct (Bool.eqb _ _); [|done].
    by intros [= <- <-].
  - by apply NoDup_select_rows.
Qed.

Lemma outcome_not_pending r : outcome_of r ≠ WorkItemLifecycle.pending.
Proof using. unfold outcome_of. by repeat case_bool_decide. Qed.

Lemma settle_item_good t cs d ir cs' d' :
  items d !! MissionWorkItemModel.id ir.1 = Some ir.1 →
  MissionWorkItemModel.lifecycle ir.1 = WorkItemLifecycle.started →
  settle_item t (cs, d) ir = Ok (cs', d') →
  good d d' ∧ items d' = items (put_item (MissionWorkItemModel.with_lifecycle (outcome_of ir.2) ir.1) d).
Proof using.
  intros Hr Hl. unfold settle_item. intros (m & _ & Hs)%res_bind_ok.
  assert (good d (put_item (MissionWorkItemModel.with_lifecycle (outcome_of ir.2) ir.1) d)) as Hg.
  { eapply put_item_good; [exact Hr|]. unfold revises. simpl. rewrite Hl.
    split_and!; try done. intros Hin. rewrite !elem_of_cons, elem_of_nil in Hin. naive_solver. }
  destruct (reconcile _ _ _ _ _ _) as [d1|[|code|]] eqn:Hrec; try done.
  - injection Hs as <- <-. apply reconcile_same in Hrec. split; [|apply Hrec].
    eapply good_trans; [exact Hg|]. by apply same_backlog_good.
  - destruct (String.eqb _ _); [|done]. by injection Hs as <- <-.
Qed.

Lemma settle_items_good t irs cs d out :
  NoDup ((λ ir, MissionWorkItemModel.id ir.1) <$> irs) →
  (∀ ir, ir ∈ irs → items d !! MissionWorkItemModel.id ir.1 = Some ir.1
                    ∧ MissionWorkItemModel.lifecycle ir.1 = WorkItemLifecycle.started) →
  foldM (settle_item t) (cs, d) irs = Ok out → good d out.2.
Proof using.
  revert cs d. induction irs as [|ir irs IH]; intros cs d Hnd Hrows; simpl.
  { intros [= <-]. apply good_refl. }
  intros ([cs1 d1] & Hs & Hf)%res_bind_ok. rewrite fmap_cons, NoDup_cons in Hnd. destruct Hnd as [Hni Hnd].
  destruct (Hrows ir) as [Hr Hl]; [by left|].
  destruct (settle_item_good _ _ _ _ _ _ Hr Hl Hs) as [Hg Hi].
  eapply good_trans; [exact Hg|]. eapply IH; [done| |exact Hf].
  intros ir' Hin. rewrite Hi. simpl. rewrite lookup_insert_ne; [by apply Hrows; right|].
  intros Heq. apply Hni. rewrite Heq. by apply (list_elem_of_fmap_2 (λ ir, MissionWorkItemModel.id ir.1)).
Qed.

Lemma incomplete_false i d :
  incomplete i d = false → backlog_ok d →
  ∀ b, depends d i b → ∃ s, items d !! b = Some s ∧ MissionWorkItemModel.lifecycle s = WorkItemLifecycle.accepted.
Proof using.
  unfold incomplete. intros Hi Hok b Hb. rewrite existsb_false in Hi. specialize (Hi _ Hb). simpl in Hi.
  rewrite bool_decide_eq_true_2 in Hi by done. simpl in Hi.
  destruct (bo_edges _ Hok _ _ Hb) as (_ & s & _ & Hs & _). rewrite Hs in Hi.
  apply negb_false_iff, bool_decide_eq_true in Hi. eauto.
Qed.

Lemma ready_item_good cs d i :
  items d !! MissionWorkItemModel.id i = Some i →
  MissionWorkItemModel.lifecycle i = WorkItemLifecycle.pending → good d (ready_item (cs, d) i).2.
Proof using.
  intros Hi Hl Hok. unfold ready_item. destruct (incomplete _ _) eqn:Hc; [by apply good_refl|]. simpl.
  eapply put_item_good; [exact Hi| |done]. unfold revises. simpl. rewrite Hl. split_and!; try done.
  - rewrite !elem_of_cons, elem_of_nil. naive_solver.
  - intros _ _. by apply incomplete_false.
Qed.

Lemma ready_items_good rs acc :
  NoDup (MissionWorkItemModel.id <$> rs) →
  (∀ i, i ∈ rs → items acc.2 !! MissionWorkItemModel.id i = Some i
                 ∧ MissionWorkItemModel.lifecycle i = WorkItemLifecycle.pending) →
  good acc.2 (foldl ready_item acc rs).2.
Proof using.
  revert acc. induction rs as [|i rs IH]; intros acc Hnd Hrows; simpl; [apply good_refl|].
  rewrite fmap_cons, NoDup_cons in Hnd. destruct Hnd as [Hni Hnd].
  destruct (Hrows i) as [Hi Hl]; [by left|].
  assert (good acc.2 (ready_item acc i).2) as Hg by (destruct acc; by apply ready_item_good).
  eapply good_trans; [exact Hg|]. apply IH; [done|]. clear Hg.
  intros j Hj. assert (MissionWorkItemModel.id i ≠ MissionWorkItemModel.id j) as Hne.
  { intros Heq. apply Hni. rewrite Heq. by apply list_elem_of_fmap_2. }
  destruct acc as [cs d]. unfold ready_item. destruct (incomplete _ _); [by apply Hrows; right|].
  simpl. rewrite lookup_insert_ne by done. apply Hrows. by right.
Qed.

Lemma report_change_good t fresh c d d' : report_change t fresh c d = Ok d' → good d d'.
Proof using.
  destruct c as [i l]. unfold report_change.
  intros (item & Hi & (m & _ & ([cursor d1] & He & Hw)%res_bind_ok)%res_bind_ok)%res_bind_ok.
  apply emit_same in He. eapply good_trans; [by apply same_backlog_good|].
  case_bool_decide; [injection Hw as <-; apply good_refl|].
  eapply good_trans; [|by apply same_backlog_good; eapply wake_mission_same].
  destruct (items d !! i) as [r|] eqn:Hr; [|done]. injection Hi as ->.
  intros Hok. eapply (put_item_good d1 i item); [by rewrite (sb_items _ _ He)| |done].
  unfold revises. simpl. split_and!; try done.
  rewrite <-(sb_items _ _ He) in Hr. by apply (bo_items _ Hok).
Qed.

Lemma report_changes_good t n cs d d' : report_changes t n cs d = Ok d' → good d d'.
Proof using.
  revert n d. induction cs as [|c cs IH]; intros n d; simpl; [intros [= <-]; apply good_refl|].
  intros (d1 & Hc & Hr)%res_bind_ok. eapply good_trans; [by eapply report_change_good|by eapply IH].
Qed.

Lemma pending_rows d i :
  backlog_ok d → i ∈ select_rows (in_state WorkItemLifecycle.pending) (items d) →
  items d !! MissionWorkItemModel.id i = Some i
  ∧ MissionWorkItemModel.lifecycle i = WorkItemLifecycle.pending.
Proof using Type*.
  intros Hok (j & Hj & Hs)%elem_of_select_rows. rewrite (bo_items _ Hok _ _ Hj). split; [done|].
  by apply bool_decide_eq_true in Hs.
Qed.

Lemma reconcile_items_good t d d' : reconcile_items t d = Ok d' → good d d'.
Proof using Type*.
  unfold reconcile_items.
  intros (d1 & Hr & ([cs d2] & Hs & Hf)%res_bind_ok)%res_bind_ok.
  apply reflect_runs_same in Hr. eapply good_trans; [by apply same_backlog_good|]. intros Hok.
  assert (good d1 d2) as Hg2.
  { eapply (settle_items_good _ _ _ _ (cs, d2)); [|intros ir Hir|exact Hs];
      [apply NoDup_started_items|apply started_items_rows in Hir; [done|]]; by apply (bo_items _ Hok). }
  destruct (foldl ready_item (cs, d2) _) as [cs3 d3] eqn:Hfold.
  eapply good_trans; [exact Hg2| |exact Hok]. intros Hok2.
  eapply good_trans; [|by eapply report_changes_good|exact Hok2].
  enough (good d2 (cs3, d3).2) by done. rewrite <-Hfold. apply (ready_items_good _ (cs, d2)).
  - apply NoDup_select_rows. by apply (bo_items _ Hok2).
  - intros i. by apply pending_rows.
Qed.

(** ** Dispatch *)

Lemma freeze_same fresh version o payload digest d i d' :
  freeze fresh version o payload digest d = Ok (i, d') → same_backlog d d'.
Proof using.
  unfold freeze. destruct (find _ _); [intros [= _ <-]; same_chain|].
  destruct (existsb _ _); [done|]. intros [= _ <-]. by apply same_backlog_of.
Qed.

Lemma create_run_same m i team version frozen now created d d' :
  create_run m i team version frozen now created d = Ok d' → same_backlog d d'.
Proof using.
  unfold create_run.
  assert (same_backlog d (match jobs (core d) !! item_job (MissionWorkItemModel.id i) with
           | Some _ => d
           | None =>
               set_job_rows (<[item_job (MissionWorkItemModel.id i) :=
                                 {| JobModel.project_id := MissionModel.project_id m;
                                    JobModel.objective := job_objective m i |}]> (job_rows d))
                 (set_core (set_jobs (<[item_job (MissionWorkItemModel.id i) := JobStatus.QUEUED]>
                                        (jobs (core d))) (core d)) d)
           end)) as Hs by (destruct (jobs _ !! _); by apply same_backlog_of).
  intros Hc. eapply same_backlog_trans; [exact Hs|]. revert Hc. clear Hs.
  match goal with |- context [runs (core ?e) !! _] => generalize e as d1 end. intros d1.
  destruct (runs _ !! _); [intros [= <-]; same_chain|]. destruct (migrated _); [|done].
  intros [= <-]. by apply same_backlog_of.
Qed.

Lemma launch_good t m i team selection d d' :
  items d !! MissionWorkItemModel.id i = Some i →
  MissionWorkItemModel.lifecycle i = WorkItemLifecycle.ready →
  launch t m i team selection d = Ok d' → good d d'.
Proof using.
  intros Hi Hl. unfold launch.
  destruct (versions d !! _) as [[[published|] [stored|]]|]; try solve [intros; apply same_backlog_good; same_chain].
  intros (o & _ & (digest & _ & ([frozen d1] & Hfr%freeze_same & (d2 & Hc%create_run_same & (d3 & Hp & He)%res_bind_ok)
    %res_bind_ok)%res_bind_ok)%res_bind_ok)%res_bind_ok. simpl in *.
  assert (same_backlog d d2) as Hs by by eapply same_backlog_trans.
  eapply good_trans; [by apply same_backlog_good|].
  eapply good_trans; [|apply same_backlog_good; same_chain; apply same_backlog_refl].
  eapply put_item_good; [by rewrite (sb_items _ _ Hs)|]. unfold revises. simpl. rewrite Hl.
  split_and!; try done. rewrite !elem_of_cons, elem_of_nil. naive_solver.
Qed.

Lemma next_item_row m locked d i :
  backlog_ok d → next_item m locked d = Some i →
  items d !! MissionWorkItemModel.id i = Some i ∧ MissionWorkItemModel.lifecycle i = WorkItemLifecycle.ready.
Proof using Type*.
  intros Hok Hn. unfold next_item in Hn. apply head_Some_elem_of in Hn.
  apply list_elem_of_In, filter_In in Hn as [Hn _].
  apply list_elem_of_In in Hn. rewrite elem_of_sorted_key in Hn.
  apply elem_of_select_rows in Hn as (j & Hj & Hd). rewrite (bo_items _ Hok _ _ Hj). split; [done|].
  unfold dispatchable in Hd. rewrite !andb_true_iff in Hd. destruct Hd as [[_ Hr] _].
  by apply bool_decide_eq_true in Hr.
Qed.

Lemma dispatch_item_good t m i d d' :
  items d !! MissionWorkItemModel.id i = Some i →
  MissionWorkItemModel.lifecycle i = WorkItemLifecycle.ready →
  dispatch_item t m i d = Ok d' → good d d'.
Proof using.
  intros Hi Hl. unfold dispatch_item. intros (limits & _ & Hd)%res_bind_ok.
  destruct (teams d !! _) as [team|]; [|apply same_backlog_good; same_chain].
  apply res_bind_ok in Hd as (selection & _ & Hd).
  destruct (Z.leb _ _); [apply same_backlog_good; same_chain|]. unfold dispatch_reserved in Hd.
  match type of Hd with context [reserve m ?q ?now d] => pose proof (reserve_same m q now d) as Hs;
    destruct (reserve m q now d) as [r d1] end.
  simpl in Hs. eapply good_trans; [by apply same_backlog_good|].
  destruct r as [rows|[code|code|text]]; try done; [|apply same_backlog_good; same_chain].
  eapply launch_good; [by rewrite (sb_items _ _ Hs)|done|exact Hd].
Qed.

Lemma dispatch_ready_good s t locked d d' : dispatch_ready s t locked d = Ok d' → good d d'.
Proof using Type*.
  unfold dispatch_ready. destruct (next_mission s locked d) as [m|]; [|intros [= <-]; apply good_refl].
  unfold dispatch_mission. pose proof (require_admission_same m "dispatch" d) as Hs.
  destruct (require_admission m "dispatch" d) as [r d1]. simpl in Hs. intros Hd.
  eapply good_trans; [by apply same_backlog_good|]. clear Hs.
  destruct r as [[]|[code|code|text]]; try done; [|apply same_backlog_good; same_chain].
  destruct (next_item m locked d1) as [i|] eqn:Hi.
  - intros Hok. destruct (next_item_row _ _ _ _ Hok Hi) as [Hr Hl].
    by eapply dispatch_item_good.
  - case_bool_decide; [apply same_backlog_good; same_chain|]. injection Hd as <-. apply good_refl.
Qed.

(** ** A decision *)

(** The row of a proposal's item: new, or one that had not started. *)
Definition item_of (mission : uuid) (p : proposal) (i : uuid) (d0 d : mdb) : Prop :=
  (∃ r, items d !! i = Some r ∧ MissionWorkItemModel.id r = i
     ∧ MissionWorkItemModel.mission_id r = mission ∧ MissionWorkItemModel.key r = WorkItemProposal.key p
     ∧ MissionWorkItemModel.lifecycle r = if bool_decide (WorkItemProposal.dependencies p = [])
                                          then WorkItemLifecycle.ready else WorkItemLifecycle.pending)
  ∧ (items d0 !! i = None
       ∧ (∀ j s, items d0 !! j = Some s → MissionWorkItemModel.mission_id s = mission →
          MissionWorkItemModel.key s ≠ WorkItemProposal.key p)
     ∨ ∃ old, items d0 !! i = Some old ∧ MissionWorkItemModel.mission_id old = mission
         ∧ MissionWorkItemModel.key old = WorkItemProposal.key p
         ∧ MissionWorkItemModel.lifecycle old ∈ unsettled).

(** [d] is [d0] with the proposals [done] applied, [rows] naming their items. *)
Record staged (mission : uuid) (done : list proposal) (rows : list (string * uuid)) (d0 d : mdb) : Prop := {
  sg_rows : ∀ p, p ∈ done → ∃ i, dict_get (WorkItemProposal.key p) rows = Some i ∧ item_of mission p i d0 d;
  sg_keys : ∀ k i, dict_get k rows = Some i → ∃ p, p ∈ done ∧ WorkItemProposal.key p = k;
  sg_others : ∀ i, (∀ k, dict_get k rows ≠ Some i) → items d !! i = items d0 !! i;
  sg_edges : ∀ a b, depends d a b ↔ depends d0 a b ∧ ∀ k, dict_get k rows ≠ Some a;
  sg_missions : missions d = missions d0;
}.

(** Equal in items, dependencies and missions. *)
Definition same_tables (d d' : mdb) : Prop :=
  items d' = items d ∧ dependencies d' = dependencies d ∧ missions d' = missions d.

Lemma emit_tables name data d d' : emit_ name data d = Ok d' → same_tables d d'.
Proof using.
  unfold emit_, emit. destruct (migrated _); [|done]. simpl. by intros [= <-].
Qed.

Lemma staged_tables mission done rows d0 d d' :
  same_tables d d' → staged mission done rows d0 d → staged mission done rows d0 d'.
Proof using.
  intros (Hi & Hd & Hm) [S1 S2 S3 S4 S5].
  split; unfold item_of, depends in *; rewrite ?Hi, ?Hd, ?Hm; done.
Qed.

Lemma existing_items_get m k d r :
  backlog_ok d → dict_get k (existing_items m d) = Some r →
  items d !! MissionWorkItemModel.id r = Some r ∧ MissionWorkItemModel.mission_id r = m
  ∧ MissionWorkItemModel.key r = k.
Proof using Type*.
  intros Hok (i & [= -> ->] & (j & Hj & Hm)%elem_of_select_rows)%dict_get_elem%list_elem_of_fmap.
  rewrite (bo_items _ Hok _ _ Hj). apply bool_decide_eq_true in Hm. done.
Qed.

Lemma existing_items_none m k d j s :
  dict_get k (existing_items m d) = None → items d !! j = Some s →
  MissionWorkItemModel.mission_id s = m → MissionWorkItemModel.key s ≠ k.
Proof using Type*.
  intros Hn%dict_get_None Hs Hm Hk. apply Hn. unfold existing_items. rewrite <-list_fmap_compose.
  apply list_elem_of_fmap. exists s. split; [done|]. apply elem_of_select_rows. exists j.
  split; [done|]. unfold of_mission. by rewrite bool_decide_eq_true_2.
Qed.

(** An item that no proposal names yet is as it was. *)
Lemma staged_fresh mission done rows d0 d i :
  staged mission done rows d0 d → items d !! i = None →
  items d0 !! i = None ∧ ∀ k, dict_get k rows ≠ Some i.
Proof using.
  intros Hst Hi. assert (∀ k, dict_get k rows ≠ Some i) as Hk.
  { intros k Hk. destruct (sg_keys _ _ _ _ _ Hst _ _ Hk) as (p & Hp & <-).
    destruct (sg_rows _ _ _ _ _ Hst p Hp) as (j & Hj & (r & Hr & _) & _). congruence. }
  split; [|done]. by rewrite <-(sg_others _ _ _ _ _ Hst).
Qed.

(** One more proposal, whose item is [i]. *)
Lemma staged_step mission done rows d0 d d' p i :
  staged mission done rows d0 d → item_of mission p i d0 d' →
  (∀ q, q ∈ done → WorkItemProposal.key q ≠ WorkItemProposal.key p) →
  (∀ k, dict_get k rows ≠ Some i) →
  (∀ j, j ≠ i → items d' !! j = items d !! j) →
  (∀ a b, depends d' a b ↔ depends d a b ∧ a ≠ i) → missions d' = missions d →
  staged mission (done ++ [p]) (dict_set (WorkItemProposal.key p) i rows) d0 d'.
Proof using.
  intros [S1 S2 S3 S4 S5] Hp Hne Hi Hj Hd Hm. split.
  - intros q [Hq| ->%list_elem_of_singleton]%elem_of_app.
    + destruct (S1 q Hq) as (j & Hrow & (r & Hr & Hrest) & Hold). exists j.
      rewrite dict_get_set_ne by (intros Heq; by apply (Hne q Hq)). split; [done|].
      split; [exists r; split; [|done]|done]. rewrite Hj; [done|]. intros ->. by apply (Hi (WorkItemProposal.key q)).
    + exists i. by rewrite dict_get_set_eq.
  - intros k j. rewrite dict_get_set. case_decide as Hk.
    + intros _. exists p. split; [apply elem_of_app; right; by left|done].
    + intros (q & Hq & <-)%S2. exists q. split; [by apply elem_of_app; left|done].
  - intros j Hnone. assert (j ≠ i) as Hji.
    { intros ->. apply (Hnone (WorkItemProposal.key p)). by rewrite dict_get_set_eq. }
    rewrite Hj by done. apply S3. intros k Hk. apply (Hnone k).
    rewrite dict_get_set_ne; [done|]. intros <-. destruct (S2 _ _ Hk) as (q & Hq & Heq). by apply (Hne q Hq).
  - intros a b. rewrite Hd, S4. split.
    + intros [[Hab Hk] Ha]. split; [done|]. intros k. rewrite dict_get_set. case_decide; congruence.
    + intros [Hab Hk]. split; [split; [done|]|].
      * intros k Hka. apply (Hk k). rewrite dict_get_set_ne; [done|]. intros <-.
        destruct (S2 _ _ Hka) as (q & Hq & Heq). by apply (Hne q Hq).
      * intros ->. apply (Hk (WorkItemProposal.key p)). by rewrite dict_get_set_eq.
  - congruence.
Qed.

Lemma apply_item_staged turn done rows d0 d fresh p i d' :
  let mission := ManagementTurnModel.mission_id turn in
  backlog_ok d0 → staged mission done rows d0 d →
  (∀ q, q ∈ done → WorkItemProposal.key q ≠ WorkItemProposal.key p) →
  apply_item turn (existing_items mission d0) fresh p d = Ok (i, d') →
  staged mission (done ++ [p]) (dict_set (WorkItemProposal.key p) i rows) d0 d'.
Proof using Type*.
  intros mission Hok Hst Hne. unfold apply_item.
  destruct (dict_get _ _) as [row|] eqn:Hex.
  - apply existing_items_get in Hex as (Hrow & Hmis & Hkey); [|done].
    case_bool_decide as Hl; [|done]. unfold item_event. intros (d1 & He%emit_tables & [= <- <-])%res_bind_ok.
    eapply staged_tables; [exact He|].
    assert (∀ k, dict_get k rows ≠ Some (MissionWorkItemModel.id row)) as Hk.
    { intros k Hk. destruct (sg_keys _ _ _ _ _ Hst _ _ Hk) as (q & Hq & <-).
      destruct (sg_rows _ _ _ _ _ Hst q Hq) as (j & Hj & _ & [[Hnone _]|(old & Hold & _ & Hkq & _)]);
        rewrite Hk in Hj; injection Hj as <-; [congruence|]. apply (Hne q Hq). congruence. }
    eapply staged_step; [exact Hst| |done|done|..].
    + split; [eexists; split; [apply lookup_insert_eq|by split_and!]|].
      right. exists row. by split_and!.
    + intros j Hj. simpl. by rewrite lookup_insert_ne.
    + intros a b. unfold depends. simpl. rewrite list_elem_of_In, filter_In, <-list_elem_of_In. simpl.
      split; intros [Hab Ha]; (split; [done|]).
      * apply negb_true_iff, bool_decide_eq_false in Ha. done.
      * apply negb_true_iff, bool_decide_eq_false. done.
    + done.
  - intros (d1 & Hins & (d2 & He%emit_tables & [= <- <-])%res_bind_ok)%res_bind_ok.
    eapply staged_tables; [exact He|]. unfold insert_item in Hins.
    apply res_bind_ok in Hins as (table & Hrow & [= <-]). unfold insert_row in Hrow.
    simpl in Hrow. destruct (bool_decide _ || _) eqn:Hf; [done|]. injection Hrow as <-.
    apply orb_false_iff in Hf as [Hf%bool_decide_eq_false _].
    assert (items d !! fresh = None) as Hnone by by apply eq_None_not_Some.
    destruct (staged_fresh _ _ _ _ _ _ Hst Hnone) as [Hnone0 Hk].
    eapply staged_step; [exact Hst| |done|done|..].
    + split; [eexists; split; [apply lookup_insert_eq|by split_and!]|left].
      split; [done|]. intros j s. by apply existing_items_none.
    + intros j Hj. simpl. by rewrite lookup_insert_ne.
    + intros a b. split; [|by intros [? _]]. intros Hab. split; [exact Hab|]. intros ->.
      apply (sg_edges _ _ _ _ _ Hst) in Hab as [Hab _].
      destruct (bo_edges _ Hok _ _ Hab) as (r & _ & Hr & _). congruence.
    + done.
Qed.

Lemma apply_items_staged turn ps n fresh d0 done rows d rows' d' :
  let mission := ManagementTurnModel.mission_id turn in
  backlog_ok d0 → staged mission done rows d0 d → NoDup (WorkItemProposal.key <$> done ++ ps) →
  apply_items turn (existing_items mission d0) fresh n ps rows d = Ok (rows', d') →
  staged mission (done ++ ps) rows' d0 d'.
Proof using Type*.
  intros mission Hok. revert n done rows d. induction ps as [|p ps IH]; intros n done rows d Hst Hnd; simpl.
  { intros [= <- <-]. by rewrite app_nil_r. }
  intros ([i d1] & Hi & Hrest)%res_bind_ok. simpl in Hrest.
  assert (done ++ p :: ps = (done ++ [p]) ++ ps) as Heq by by rewrite <-app_assoc.
  rewrite Heq in *. eapply IH; [|exact Hnd|exact Hrest].
  eapply apply_item_staged; [done|exact Hst| |exact Hi].
  intros q Hq Hkey. rewrite !fmap_app, <-app_assoc in Hnd. apply NoDup_app in Hnd as (_ & Hnd & _).
  apply (Hnd (WorkItemProposal.key q)); [by apply list_elem_of_fmap_2|]. rewrite Hkey. by left.
Qed.

Lemma apply_dependencies_spec rows d edges d' :
  foldM (apply_dependency rows) d edges = Ok d' →
  items d' = items d ∧ missions d' = missions d
  ∧ ∀ a b, depends d' a b ↔ depends d a b
      ∨ ∃ e, e ∈ edges ∧ dict_get e.1 rows = Some a ∧ dict_get e.2 rows = Some b.
Proof using.
  revert d. induction edges as [|e edges IH]; intros d; simpl.
  { intros [= <-]. split_and!; [done..|]. intros a b. split; [by left|].
    intros [?|(e & He%elem_of_nil & _)]; done. }
  intros (d1 & He & (Hi & Hm & Hd)%IH)%res_bind_ok. unfold apply_dependency in He.
  destruct (dict_get e.1 rows) as [x|] eqn:Hx; [|done]. destruct (dict_get e.2 rows) as [y|] eqn:Hy; [|done].
  simpl in He. unfold insert_dependency in He. destruct (_ || _); [done|]. injection He as <-.
  split_and!; [done..|]. intros a b. rewrite Hd. unfold depends. simpl. rewrite elem_of_app, list_elem_of_singleton.
  split.
  - intros [[Hab|[= -> ->]]|(e' & He' & Ha & Hb)]; [by left|right; exists e; split_and!; [by left|done..]|].
    right. exists e'. split_and!; [by right|done..].
  - intros [Hab|(e' & [->|He']%elem_of_cons & Ha & Hb)]; [by left; left| |].
    + left. right. congruence.
    + right. by exists e'.
Qed.

Lemma elem_of_proposal_edges ps a b : (a, b) ∈ proposal_edges ps ↔ waits_for ps a b.
Proof using.
  unfold proposal_edges, waits_for. rewrite list_elem_of_In, in_concat. setoid_rewrite <-list_elem_of_In. split.
  - intros (l & (p & -> & Hp)%list_elem_of_fmap & (k & [= -> ->] & Hk)%list_elem_of_fmap).
    by exists p.
  - intros (p & Hp & <- & Hb). exists ((λ k, (WorkItemProposal.key p, k)) <$> WorkItemProposal.dependencies p).
    split; apply list_elem_of_fmap; eauto.
Qed.

Section applied.
Context (mission : uuid) (c : decision) (rows : list (string * uuid)) (d0 d1 d : mdb).
Notation ps := (ManagerDecision.work_items c).
Hypothesis Hok : backlog_ok d0.
Hypothesis Hc : decision_ok c.
Hypothesis Hst : staged mission ps rows d0 d1.
Hypothesis Hitems : items d = items d1.
Hypothesis Hmis : missions d = missions d1.
Hypothesis Hdeps : ∀ a b, depends d a b ↔ depends d1 a b
  ∨ ∃ e, e ∈ proposal_edges ps ∧ dict_get e.1 rows = Some a ∧ dict_get e.2 rows = Some b.

Definition named (i : uuid) : Prop := ∃ k, dict_get k rows = Some i.

Lemma named_dec i : named i ∨ ∀ k, dict_get k rows ≠ Some i.
Proof using.
  clear. destruct (decide (i ∈ rows.*2)) as [Hi|Hi].
  - destruct (decide (Exists (λ k, dict_get k rows = Some i) rows.*1)) as [He|He].
    + left. apply Exists_exists in He as (k & _ & Hk). by exists k.
    + right. intros k Hk. apply He, Exists_exists. exists k. split; [|done].
      apply dict_get_elem in Hk. by apply (list_elem_of_fmap_2 fst) in Hk.
  - right. intros k Hk%dict_get_elem. by apply (list_elem_of_fmap_2 snd) in Hk.
Qed.

(** The item of a name. *)
Lemma named_item k i : dict_get k rows = Some i →
  ∃ p, p ∈ ps ∧ WorkItemProposal.key p = k ∧ item_of mission p i d0 d.
Proof using Hst Hitems.
  intros Hk. destruct (sg_keys _ _ _ _ _ Hst _ _ Hk) as (p & Hp & <-).
  destruct (sg_rows _ _ _ _ _ Hst p Hp) as (j & Hj & Hitem). rewrite Hk in Hj. injection Hj as <-.
  exists p. split_and!; [done..|]. unfold item_of. by rewrite Hitems.
Qed.

Lemma named_inj k k' i : dict_get k rows = Some i → dict_get k' rows = Some i → k = k'.
Proof using Hst Hitems.
  intros (p & _ & <- & (r & Hr & _ & _ & Hk & _) & _)%named_item
    (p' & _ & <- & (r' & Hr' & _ & _ & Hk' & _) & _)%named_item. congruence.
Qed.

Lemma unnamed_item i : (∀ k, dict_get k rows ≠ Some i) → items d !! i = items d0 !! i.
Proof using Hst Hitems. rewrite Hitems. by apply (sg_others _ _ _ _ _ Hst). Qed.

(** An edge is a new one between names, or an old one from an item that is not named. *)
Lemma edge_cases a b : depends d a b →
  (∃ k k', dict_get k rows = Some a ∧ dict_get k' rows = Some b ∧ waits_for ps k k')
  ∨ depends d0 a b ∧ ∀ k, dict_get k rows ≠ Some a.
Proof using Hst Hdeps.
  intros [Hab|([k k'] & He%elem_of_proposal_edges & Ha & Hb)]%Hdeps; [right|left; by exists k, k'].
  by apply (sg_edges _ _ _ _ _ Hst) in Hab.
Qed.

Lemma named_path a b k : tc (depends d) a b → dict_get k rows = Some a →
  ∃ k', dict_get k' rows = Some b ∧ tc (waits_for ps) k k'.
Proof using Hst Hdeps Hitems.
  intros Ht. revert k. induction Ht as [a b Hab|a y b Hay _ IH]; intros k Hk.
  - apply edge_cases in Hab as [(k1 & k2 & Ha & Hb & Hw)|[_ Hn]]; [|by destruct (Hn k)].
    rewrite (named_inj _ _ _ Hk Ha). exists k2. split; [done|]. by apply tc_once.
  - apply edge_cases in Hay as [(k1 & k2 & Ha & Hb & Hw)|[_ Hn]]; [|by destruct (Hn k)].
    destruct (IH _ Hb) as (k3 & Hk3 & Ht3). exists k3. split; [done|].
    rewrite (named_inj _ _ _ Hk Ha). by eapply tc_l.
Qed.

Lemma unnamed_path a b : tc (depends d) a b → (∀ k, dict_get k rows ≠ Some b) →
  tc (depends d0) a b ∧ ∀ k, dict_get k rows ≠ Some a.
Proof using Hst Hdeps.
  intros Ht Hb. induction Ht as [a b Hab|a y b Hay _ IH].
  - apply edge_cases in Hab as [(k1 & k2 & _ & Hk2 & _)|[Hab Ha]]; [by destruct (Hb k2)|].
    split; [by apply tc_once|done].
  - destruct (IH Hb) as [Hyb Hy].
    apply edge_cases in Hay as [(k1 & k2 & _ & Hk2 & _)|[Hay Ha]]; [by destruct (Hy k2)|].
    split; [by eapply tc_l|done].
Qed.

Lemma applied_acyclic a : ¬ tc (depends d) a a.
Proof using Hok Hc Hst Hdeps Hitems.
  intros Ha. destruct (named_dec a) as [[k Hk]|Hn].
  - destruct (named_path _ _ _ Ha Hk) as (k' & Hk' & Ht). rewrite (named_inj _ _ _ Hk Hk') in Ht.
    by apply (do_acyclic _ Hc k').
  - destruct (unnamed_path _ _ Ha Hn) as [Ht _]. by apply (bo_acyclic _ Hok a).
Qed.

(** Every row comes from the item it was before, or is new. *)
Lemma applied_row i r : items d !! i = Some r →
  (∃ p k, dict_get k rows = Some i ∧ p ∈ ps ∧ WorkItemProposal.key p = k ∧ item_of mission p i d0 d)
  ∨ items d0 !! i = Some r ∧ ∀ k, dict_get k rows ≠ Some i.
Proof using Hst Hitems.
  intros Hr. destruct (named_dec i) as [[k Hk]|Hn].
  - left. destruct (named_item _ _ Hk) as (p & Hp & Hkey & Hi). by exists p, k.
  - right. by rewrite <-unnamed_item.
Qed.

Lemma applied_keeps : keeps d0 d.
Proof using Hst Hitems.
  intros i r Hr. destruct (named_dec i) as [[k Hk]|Hn].
  - destruct (named_item _ _ Hk) as (p & _ & _ & (r' & Hr' & _ & Hm' & Hk' & _) & [[Hnone _]|(old & Hold & Hmo & Hko & Hlo)]);
      [congruence|].
    rewrite Hr in Hold. injection Hold as ->. exists r'. split_and!; [done|congruence..|].
    intros Hs. by destruct (settled_unsettled _ Hs Hlo).
  - exists r. rewrite unnamed_item by done. by split_and!.
Qed.

Lemma applied_keys i j r s : items d !! i = Some r → items d !! j = Some s →
  MissionWorkItemModel.mission_id r = MissionWorkItemModel.mission_id s →
  MissionWorkItemModel.key r = MissionWorkItemModel.key s → i = j.
Proof using Hok Hst Hitems.
  assert (∀ i j r s, items d !! i = Some r → items d !! j = Some s →
    MissionWorkItemModel.mission_id r = MissionWorkItemModel.mission_id s →
    MissionWorkItemModel.key r = MissionWorkItemModel.key s → named i →
    (∀ k, dict_get k rows ≠ Some j) → i = j) as Hmixed.
  { clear i j r s. intros i j r s Hr Hs Hm Hk [k Hki] Hj.
    destruct (named_item _ _ Hki) as (p & _ & _ & (r' & Hr' & _ & Hm' & Hk' & _) & Hold).
    rewrite unnamed_item in Hs by done. rewrite Hr in Hr'. injection Hr' as <-.
    destruct Hold as [[_ Hfresh]|(old & Hold & Hmo & Hko & _)].
    - destruct (Hfresh j s); [done|congruence|congruence].
    - eapply (bo_keys _ Hok); [exact Hold|exact Hs|congruence..]. }
  intros Hr Hs Hm Hk. destruct (named_dec i) as [Hi|Hi], (named_dec j) as [Hj|Hj].
  - destruct Hi as [k Hki], Hj as [k' Hkj].
    destruct (named_item _ _ Hki) as (p & _ & <- & (r' & Hr' & _ & _ & Hk' & _) & _).
    destruct (named_item _ _ Hkj) as (p' & _ & <- & (s' & Hs' & _ & _ & Hk'' & _) & _).
    assert (WorkItemProposal.key p = WorkItemProposal.key p') as Heq by congruence.
    rewrite Heq in Hki. congruence.
  - by eapply Hmixed.
  - symmetry. by eapply Hmixed.
  - rewrite unnamed_item in Hr, Hs by done. by eapply (bo_keys _ Hok).
Qed.

Lemma applied_edges a b : depends d a b → ∃ r s, items d !! a = Some r ∧ items d !! b = Some s
  ∧ MissionWorkItemModel.mission_id r = MissionWorkItemModel.mission_id s.
Proof using Hok Hst Hitems Hdeps.
  intros [(k & k' & Hk & Hk' & _)|[Hab Ha]]%edge_cases.
  - destruct (named_item _ _ Hk) as (p & _ & _ & (r & Hr & _ & Hm & _) & _).
    destruct (named_item _ _ Hk') as (p' & _ & _ & (s & Hs & _ & Hm' & _) & _).
    exists r, s. split_and!; [done..|congruence].
  - destruct (bo_edges _ Hok _ _ Hab) as (r & s & Hr & Hs & Hm).
    destruct (applied_keeps a r Hr) as (r' & Hr' & Hmr & _).
    destruct (applied_keeps b s Hs) as (s' & Hs' & Hms & _).
    exists r', s'. split_and!; [done..|congruence].
Qed.

Lemma applied_gated a b r : depends d a b → items d !! a = Some r →
  MissionWorkItemModel.lifecycle r ≠ WorkItemLifecycle.pending →
  ∃ s, items d !! b = Some s ∧ MissionWorkItemModel.lifecycle s = WorkItemLifecycle.accepted.
Proof using Hok Hc Hst Hitems Hdeps.
  intros [(k & k' & Hk & Hk' & p & Hp & Hpk & Hb)|[Hab Ha]]%edge_cases Hr Hl.
  - destruct (named_item _ _ Hk) as (q & Hq & Hqk & (r' & Hr' & _ & _ & _ & Hlc) & _).
    assert (q = p) as ->.
    { eapply (NoDup_fmap_elem_inj WorkItemProposal.key); [apply (do_keys _ Hc)|done..|congruence]. }
    rewrite Hr in Hr'. injection Hr' as <-. rewrite bool_decide_eq_false_2 in Hlc; [done|].
    intros Hnil. rewrite Hnil in Hb. by apply elem_of_nil in Hb.
  - rewrite unnamed_item in Hr by done.
    destruct (bo_gated _ Hok _ _ _ Hab Hr Hl) as (s & Hs & Hls).
    destruct (applied_keeps b s Hs) as (s' & Hs' & _ & _ & Hset). exists s'. split; [done|].
    rewrite Hset; [done|]. rewrite Hls. by left.
Qed.

Lemma applied_good : backlog_ok d ∧ keeps d0 d.
Proof using Hok Hc Hst Hitems Hmis Hdeps.
  split; [|apply applied_keeps]. split.
  - rewrite Hmis, (sg_missions _ _ _ _ _ Hst). apply (bo_missions _ Hok).
  - intros i r Hr. destruct (applied_row _ _ Hr) as [(p & k & _ & _ & _ & (r' & Hr' & Hid & _) & _)|[Hr0 _]].
    + congruence.
    + by apply (bo_items _ Hok).
  - apply applied_keys.
  - apply applied_edges.
  - apply applied_acyclic.
  - apply applied_gated.
Qed.
End applied.

Lemma staged_start mission d : staged mission [] [] d d.
Proof using.
  split; try done.
  - intros p Hp. by apply elem_of_nil in Hp.
  - intros a b. naive_solver.
Qed.

Lemma apply_backlog_good ids turn c d d' :
  decision_ok c →
  apply_backlog ids turn (existing_items (ManagementTurnModel.mission_id turn) d) c d = Ok d' → good d d'.
Proof using Type*.
  intros Hc Ha Hok. unfold apply_backlog in Ha. apply res_bind_ok in Ha as ([rows d1] & Hi & Hd).
  eapply (apply_items_staged _ _ _ _ _ []) in Hi; [|exact Hok|apply staged_start|apply (do_keys _ Hc)].
  apply apply_dependencies_spec in Hd as (Hitems & Hmis & Hdeps). simpl in *.
  by eapply applied_good.
Qed.

Lemma apply_decision_good t ids turn m w c d d' :
  decision_ok c → MissionModel.id m = ManagementTurnModel.mission_id turn →
  apply_decision t ids turn m w c d = Ok d' → good d d'.
Proof using Type*.
  intros Hc Hm. unfold apply_decision. rewrite Hm.
  set (existing := existing_items _ d). set (n := new_count existing c).
  intros (d1 & Hr & (d2 & Hb & (d3 & Hmsg & (d4 & Hp & (msg & _ & (d5 & Hs & (d6 & Hrec & He)
    %res_bind_ok)%res_bind_ok)%res_bind_ok)%res_bind_ok)%res_bind_ok)%res_bind_ok)%res_bind_ok.
  assert (same_backlog d d1) as Hs1.
  { unfold reserve_items in Hr. destruct (Z.eqb n 0); [injection Hr as <-; same_chain|].
    apply res_bind_ok in Hr as (limits & _ & Hr).
    match type of Hr with context [reserve m ?q ?now d] => pose proof (reserve_same m q now d) as Hq;
      destruct (reserve m q now d) as [[rows|e] dr] end; [|done]. by injection Hr as <-. }
  assert (good d1 d2) as Hg.
  { apply (apply_backlog_good ids turn c); [done|]. revert Hb. unfold existing, existing_items.
    by rewrite (sb_items _ _ Hs1). }
  eapply good_trans; [by apply same_backlog_good|]. eapply good_trans; [exact Hg|].
  apply same_backlog_good. eapply same_backlog_trans; [|by eapply (emit_same_ _ _ _ _ He)].
  assert (same_backlog d5 d6) as Hs6.
  { unfold reconcile_items_of in Hrec. destruct (Z.eqb n 0); [injection Hrec as <-|]; same_chain. }
  eapply same_backlog_trans; [|exact Hs6]. unfold schedule_deadline in Hs.
  eapply same_backlog_trans; [|destruct (ManagerDecision.scheduled_wakeup_at c);
    [destruct (wakeup_exists _ _ _); [injection Hs as <-; same_chain|]|injection Hs as <-; same_chain]].
  all: try (eapply insert_wakeup_same; exact Hs).
  all: unfold commit_wakeup; destruct w; same_chain; apply same_backlog_refl.
Qed.

Lemma apply_good t ids i c d d' :
  ManagerDecision.valid c = true → Missions.apply t ids i c d = Ok d' → good d d'.
Proof using Type*.
  intros Hv Ha Hok. unfold ManagerDecision.valid in Hv. rewrite !andb_true_iff in Hv. destruct Hv as [_ Hv].
  destruct (ManagerDecision.bounded_action c) as [[]|] eqn:Hb; [|done].
  apply bounded_action_sound in Hb. unfold Missions.apply in Ha.
  apply res_bind_ok in Ha as (turn & _ & (m & Hm & Ha)%res_bind_ok).
  unfold get_mission in Hm. destruct (missions d !! _) as [m'|] eqn:Hm'; [|done]. injection Hm as ->.
  apply (bo_missions _ Hok) in Hm'.
  destruct (current _ _ _ _); [by eapply apply_decision_good|].
  by eapply same_backlog_good; [eapply apply_stale_same|].
Qed.

(** ** All transactions *)

(** The manager's transactions, of any executor and in any order; and those of others, which
leave items and dependencies alone. *)
Inductive mission_step : mdb → mdb → Prop :=
  | ms_claim s now locked d i d' : claim s now locked d = Ok (i, d') → mission_step d d'
  | ms_apply t ids turn c d d' :
      ManagerDecision.valid c = true → Missions.apply t ids turn c d = Ok d' → mission_step d d'
  | ms_fail s t turn code d d' : fail s t turn code d = Ok d' → mission_step d d'
  | ms_materialize s now start locked message d d' :
      materialize_wakeup s now start locked message d = Ok d' → mission_step d d'
  | ms_dispatch s t locked d d' : dispatch_ready s t locked d = Ok d' → mission_step d d'
  | ms_reconcile t d d' : reconcile_items t d = Ok d' → mission_step d d'
  | ms_other d d' : same_backlog d d' → mission_step d d'.

Lemma mission_step_good d d' : mission_step d d' → good d d'.
Proof using Type*.
  intros [? ? ? ? ? ? Hs|? ? ? ? ? ? Hv Hs|? ? ? ? ? ? Hs|? ? ? ? ? ? ? Hs|? ? ? ? ? Hs|? ? ? Hs|? ? Hs].
  - eapply same_backlog_good, claim_same, Hs.
  - by eapply apply_good.
  - eapply same_backlog_good, fail_same, Hs.
  - eapply same_backlog_good, materialize_wakeup_same, Hs.
  - by eapply dispatch_ready_good.
  - by eapply reconcile_items_good.
  - by apply same_backlog_good.
Qed.

Lemma mission_steps_good d d' : rtc mission_step d d' → good d d'.
Proof using Type*.
  induction 1 as [d|d1 d2 d3 Hs _ IH]; [apply good_refl|].
  eapply good_trans; [by apply mission_step_good|exact IH].
Qed.

(** C12. Whatever managers decide, runs do and executors interleave, the
dependencies between the work items of a mission never have a cycle, stay within the
mission, and an item that is ready, started or finished depends only on accepted
items: no work is dispatched before what it builds on is accepted. *)
Theorem backlog_sound d0 d :
  rtc mission_step d0 d → backlog_ok d0 →
  (∀ a, ¬ tc (depends d) a a)
  ∧ ∀ a b, depends d a b → ∃ r s, items d !! a = Some r ∧ items d !! b = Some s
      ∧ MissionWorkItemModel.mission_id r = MissionWorkItemModel.mission_id s
      ∧ (MissionWorkItemModel.lifecycle r ≠ WorkItemLifecycle.pending →
         MissionWorkItemModel.lifecycle s = WorkItemLifecycle.accepted).
Proof using Type*.
  intros Hr Hok0. destruct (mission_steps_good _ _ Hr Hok0) as [Hok _].
  split; [apply (bo_acyclic _ Hok)|]. intros a b Hab.
  destruct (bo_edges _ Hok _ _ Hab) as (r & s & Ha & Hb & Hm). exists r, s. split_and!; [done..|].
  intros Hl. destruct (bo_gated _ Hok _ _ _ Hab Ha Hl) as (s' & Hs' & Hacc). congruence.
Qed.

(** An outcome is final: no later decision, dispatch or settlement changes a
work item that was accepted, blocked or cancelled, and no item disappears or changes
its key or mission. *)
Theorem outcome_final d0 d i r :
  rtc mission_step d0 d → backlog_ok d0 → items d0 !! i = Some r →
  ∃ r', items d !! i = Some r' ∧ MissionWorkItemModel.key r' = MissionWorkItemModel.key r
    ∧ MissionWorkItemModel.mission_id r' = MissionWorkItemModel.mission_id r
    ∧ (MissionWorkItemModel.lifecycle r ∈ settled →
       MissionWorkItemModel.lifecycle r' = MissionWorkItemModel.lifecycle r).
Proof using Type*.
  intros Hr Hok0 Hi. destruct (mission_steps_good _ _ Hr Hok0) as [_ Hk].
  destruct (Hk i r Hi) as (r' & ? & ? & ? & ?). by exists r'.
Qed.

(** ** Progress *)

(** The items that are accepted do not change. *)
Definition same_accepted (d d' : mdb) : Prop :=
  dependencies d' = dependencies d ∧
  ∀ i, in_state WorkItemLifecycle.accepted <$> items d' !! i
       = in_state WorkItemLifecycle.accepted <$> items d !! i.

Lemma incomplete_same i d d' : same_accepted d d' → incomplete i d' = incomplete i d.
Proof using.
  intros [Hd Hi]. unfold incomplete. rewrite Hd. clear Hd. induction (dependencies d) as [|[a b] l IH]; simpl; [done|].
  rewrite IH. specialize (Hi b). destruct (items d' !! b) as [x|], (items d !! b) as [y|]; simpl in *; try done.
  injection Hi as Hi. unfold in_state in *. by rewrite Hi.
Qed.

Lemma same_accepted_refl d : same_accepted d d.
Proof using. done. Qed.
Lemma same_accepted_trans d1 d2 d3 : same_accepted d1 d2 → same_accepted d2 d3 → same_accepted d1 d3.
Proof using. intros [? ?] [? ?]. split; [congruence|]. intros i. congruence. Qed.
Lemma same_backlog_accepted d d' : same_backlog d d' → same_accepted d d'.
Proof using. intros [Hi Hd _]. split; [done|]. by rewrite Hi. Qed.

Lemma put_item_accepted d i r r' :
  items d !! i = Some r → MissionWorkItemModel.id r' = i →
  in_state WorkItemLifecycle.accepted r' = in_state WorkItemLifecycle.accepted r →
  same_accepted d (put_item r' d).
Proof using.
  intros Hr Hid Hl. split; [done|]. intros j. simpl. rewrite Hid. destruct (decide (j = i)) as [->|Hne].
  - rewrite lookup_insert_eq, Hr. simpl. by rewrite Hl.
  - by rewrite lookup_insert_ne.
Qed.

Lemma ready_item_accepted acc i :
  items acc.2 !! MissionWorkItemModel.id i = Some i →
  MissionWorkItemModel.lifecycle i = WorkItemLifecycle.pending → same_accepted acc.2 (ready_item acc i).2.
Proof using.
  destruct acc as [cs d]. simpl. intros Hi Hl. destruct (incomplete _ _); [done|].
  eapply put_item_accepted; [exact Hi|done|]. unfold in_state. simpl. by rewrite Hl.
Qed.

(** After the loop, what is still pending is incomplete. *)
Lemma ready_items_complete rs acc i r :
  NoDup (MissionWorkItemModel.id <$> rs) →
  (∀ i, i ∈ rs → items acc.2 !! MissionWorkItemModel.id i = Some i
                 ∧ MissionWorkItemModel.lifecycle i = WorkItemLifecycle.pending) →
  (∀ r, items acc.2 !! i = Some r → MissionWorkItemModel.lifecycle r = WorkItemLifecycle.pending →
     i ∈ MissionWorkItemModel.id <$> rs ∨ incomplete i acc.2 = true) →
  items (foldl ready_item acc rs).2 !! i = Some r →
  MissionWorkItemModel.lifecycle r = WorkItemLifecycle.pending →
  incomplete i (foldl ready_item acc rs).2 = true.
Proof using.
  revert acc. induction rs as [|j rs IH]; intros acc Hnd Hrows Hpend Hr Hl; simpl in *.
  { destruct (Hpend r Hr Hl) as [Hin%elem_of_nil|]; done. }
  rewrite NoDup_cons in Hnd. destruct Hnd as [Hni Hnd].
  destruct (Hrows j) as [Hj Hlj]; [by left|].
  pose proof (ready_item_accepted acc j Hj Hlj) as Hacc.
  assert (∀ k, k ≠ MissionWorkItemModel.id j → items (ready_item acc j).2 !! k = items acc.2 !! k) as Hoth.
  { intros k Hk. destruct acc as [cs d]. unfold ready_item. simpl.
    destruct (incomplete (MissionWorkItemModel.id j) d); [done|]. simpl. by rewrite lookup_insert_ne. }
  eapply IH; [done| | |exact Hr|done].
  - intros k Hk. rewrite Hoth; [apply Hrows; by right|]. intros Heq. apply Hni. rewrite <-Heq.
    by apply list_elem_of_fmap_2.
  - intros s Hs Hls. rewrite (incomplete_same _ _ _ Hacc).
    destruct (decide (i = MissionWorkItemModel.id j)) as [->|Hne].
    + right. revert Hs. destruct acc as [cs d]. unfold ready_item. simpl.
      destruct (incomplete (MissionWorkItemModel.id j) d); [done|]. simpl.
      rewrite lookup_insert_eq. by intros [= <-].
    + rewrite Hoth in Hs by done. destruct (Hpend s Hs Hls) as [[Heq|Hin]%elem_of_cons|Hi];
        [by destruct Hne|by left|by right].
Qed.

Lemma report_change_accepted t fresh c d d' :
  report_change t fresh c d = Ok d' → (∀ i r, items d !! i = Some r → MissionWorkItemModel.id r = i) →
  same_accepted d d' ∧ ∀ i, MissionWorkItemModel.lifecycle <$> items d' !! i
                            = MissionWorkItemModel.lifecycle <$> items d !! i.
Proof using.
  destruct c as [i l]. unfold report_change.
  intros (item & Hi & (m & _ & ([cursor d1] & He & Hw)%res_bind_ok)%res_bind_ok)%res_bind_ok Hk.
  destruct (items d !! i) as [r|] eqn:Hr; [|done]. injection Hi as ->.
  apply emit_same in He. pose proof (same_backlog_accepted _ _ He) as Ha.
  case_bool_decide; [injection Hw as <-; split; [done|]; by rewrite (sb_items _ _ He)|].
  apply wake_mission_same in Hw.
  assert (items d1 !! i = Some item) as Hr1 by by rewrite (sb_items _ _ He).
  pose proof (Hk _ _ Hr) as Hid. split.
  - eapply same_accepted_trans; [exact Ha|].
    eapply same_accepted_trans; [|by apply same_backlog_accepted].
    by eapply (put_item_accepted d1 i item).
  - intros j. rewrite (sb_items _ _ Hw). simpl. rewrite Hid. destruct (decide (j = i)) as [->|Hne].
    + by rewrite lookup_insert_eq, Hr.
    + rewrite lookup_insert_ne by done. by rewrite (sb_items _ _ He).
Qed.

Lemma report_changes_accepted t n cs d d' :
  report_changes t n cs d = Ok d' → backlog_ok d →
  same_accepted d d' ∧ ∀ i, MissionWorkItemModel.lifecycle <$> items d' !! i
                            = MissionWorkItemModel.lifecycle <$> items d !! i.
Proof using.
  revert n d. induction cs as [|c cs IH]; intros n d; simpl; [by intros [= <-]|].
  intros (d1 & Hc & Hr)%res_bind_ok Hok.
  destruct (report_change_good _ _ _ _ _ Hc Hok) as [Hok1 _].
  destruct (report_change_accepted _ _ _ _ _ Hc (bo_items _ Hok)) as [Ha1 Hl1].
  destruct (IH _ _ Hr Hok1) as [Ha2 Hl2].
  split; [by eapply same_accepted_trans|]. intros i. by rewrite Hl2.
Qed.

(** What is pending after [reconcile_items] waits for something that is not accepted. *)
Lemma reconciled_pending t d d' i r :
  reconcile_items t d = Ok d' → backlog_ok d → items d' !! i = Some r →
  MissionWorkItemModel.lifecycle r = WorkItemLifecycle.pending → incomplete i d' = true.
Proof using Type*.
  unfold reconcile_items.
  intros (d1 & Hr & ([cs d2] & Hs & Hf)%res_bind_ok)%res_bind_ok Hok0 Hi Hl.
  apply reflect_runs_same in Hr. destruct (same_backlog_good _ _ Hr Hok0) as [Hok _].
  assert (good d1 d2) as Hg2.
  { eapply (settle_items_good _ _ _ _ (cs, d2)); [|intros ir Hir|exact Hs];
      [apply NoDup_started_items|apply started_items_rows in Hir; [done|]]; by apply (bo_items _ Hok). }
  destruct (Hg2 Hok) as [Hok2 _].
  set (rs := select_rows (in_state WorkItemLifecycle.pending) (items d2)) in *.
  assert (NoDup (MissionWorkItemModel.id <$> rs)) as Hnd by by apply NoDup_select_rows, (bo_items _ Hok2).
  assert (∀ j, j ∈ rs → items d2 !! MissionWorkItemModel.id j = Some j
            ∧ MissionWorkItemModel.lifecycle j = WorkItemLifecycle.pending) as Hrows
    by (intros j; by apply pending_rows).
  destruct (ready_items_good rs (cs, d2) Hnd Hrows Hok2) as [Hok3 _].
  pose proof (ready_items_complete rs (cs, d2) i) as Hcomplete.
  destruct (foldl ready_item (cs, d2) rs) as [cs3 d3]. simpl in *.
  destruct (report_changes_accepted _ _ _ _ _ Hf Hok3) as [Ha Hlc].
  rewrite (incomplete_same _ _ _ Ha). specialize (Hlc i). rewrite Hi in Hlc. simpl in Hlc.
  destruct (items d3 !! i) as [r3|] eqn:Hr3; [|done]. injection Hlc as Hlc.
  eapply Hcomplete; [done|done| |done|congruence].
  intros s Hsi Hls. left. apply list_elem_of_fmap. exists s. split; [by rewrite (bo_items _ Hok2 _ _ Hsi)|].
  apply elem_of_select_rows. exists i. split; [done|]. unfold in_state. by rewrite bool_decide_eq_true_2.
Qed.

(** A walk along dependencies from a pending item ends at one that blocks it. *)
Lemma blocking_item d n i r (V : gset uuid) :
  backlog_ok d →
  (∀ i r, items d !! i = Some r → MissionWorkItemModel.lifecycle r = WorkItemLifecycle.pending →
     incomplete i d = true) →
  (size (dom (items d) ∖ V) ≤ n)%nat → (∀ v, v ∈ V → tc (depends d) v i) →
  items d !! i = Some r → MissionWorkItemModel.lifecycle r = WorkItemLifecycle.pending →
  ∃ j s, tc (depends d) i j ∧ items d !! j = Some s
    ∧ MissionWorkItemModel.lifecycle s ∉ [WorkItemLifecycle.pending; WorkItemLifecycle.accepted].
Proof using.
  intros Hok Hinc. revert i r V. induction n as [|n IH]; intros i r V Hn HV Hi Hl.
  { assert (i ∈ dom (items d) ∖ V) as Hin.
    { apply elem_of_difference. split; [by apply elem_of_dom|]. intros Hv%HV. by apply (bo_acyclic _ Hok i). }
    assert (size (dom (items d) ∖ V) ≠ 0%nat) as Hz; [|clear -Hn Hz; lia]. apply size_non_empty_iff. clear -Hin. set_solver. }
  specialize (Hinc i r Hi Hl) as Hb. unfold incomplete in Hb.
  apply existsb_exists in Hb as ([a b] & Hab%list_elem_of_In & Hb). simpl in Hb.
  apply andb_true_iff in Hb as [->%bool_decide_eq_true Hb].
  destruct (items d !! b) as [s|] eqn:Hs; [|done]. apply negb_true_iff, bool_decide_eq_false in Hb.
  destruct (decide (MissionWorkItemModel.lifecycle s = WorkItemLifecycle.pending)) as [Hp|Hp].
  - destruct (IH b s ({[i]} ∪ V)) as (j & t & Hij & Hj & Ht); [| |done|done|].
    + assert (size (dom (items d) ∖ ({[i]} ∪ V)) < size (dom (items d) ∖ V))%nat as Hs'; [|clear -Hn Hs'; lia].
      apply subset_size. assert (i ∈ dom (items d)) as Hx by by apply elem_of_dom.
      assert (i ∉ V) as Hy by (intros Hv%HV; by apply (bo_acyclic _ Hok i)).
      clear -Hx Hy. set_solver.
    + intros v [->%elem_of_singleton|Hv]%elem_of_union; [by apply tc_once|].
      eapply tc_r; [by apply HV|done].
    + exists j, t. split_and!; [by eapply tc_l|done..].
  - exists b, s. split_and!; [by apply tc_once|done|]. rewrite !elem_of_cons, elem_of_nil. naive_solver.
Qed.

(** C15. The backlog never deadlocks on itself: after reconcile_items, behind every
item that is still pending there is a dependency, direct or indirect, that is ready
or started, or that ended blocked or cancelled; in particular a backlog with pending
items has an item to dispatch, to wait for or to revise. *)
Theorem backlog_progress t d d' i r :
  reconcile_items t d = Ok d' → backlog_ok d → items d' !! i = Some r →
  MissionWorkItemModel.lifecycle r = WorkItemLifecycle.pending →
  ∃ j s, tc (depends d') i j ∧ items d' !! j = Some s
    ∧ MissionWorkItemModel.lifecycle s ∉ [WorkItemLifecycle.pending; WorkItemLifecycle.accepted].
Proof using Type*.
  intros Hr Hok Hi Hl. destruct (reconcile_items_good _ _ _ Hr Hok) as [Hok' _].
  eapply (blocking_item d' _ i r ∅); [done| |reflexivity|by intros v Hv%not_elem_of_empty|done|done].
  intros j s. by eapply reconciled_pending.
Qed.
End operations.
