(* ===== verification/MissionDispatch.v ===== *)
(** * What a dispatch does

[dispatch_ready] of [Missions.v] as the manager's clients rely on it: it starts at most one
item, the most urgent ready one of the mission that was served least recently, when no
control is closed, within the capacity of the mission and its team, and reserved at the
three scopes ([may_start], [starts], [dispatch_starts]); and [bounded_snapshot] gives the model the longest recent history that
fits its context ([snapshot_bounded]). *)
From S2P Require Import Prelude Enums PyJson PyDecimal PyDecimalText Failures Verification Registry.
From S2P Require Import WorkflowSpec Normalize RawValidation GraphIssues MissionContracts Database Ownership.
From S2P Require Import Commands Routing Effects Accounting Budget ModelCalls Approvals MissionTables MissionResources.
From S2P Require Import Missions MissionBacklog.
From stdpp Require Import gmap.
Local Open Scope Z_scope.
Local Open Scope stdpp_scope.

(** ** Admission and reservations change controls and reservations only *)

Definition resources_only (d d' : mdb) : Prop :=
  ∃ cs rs, d' = set_controls cs (set_reservations rs d).

Lemma resources_only_refl d : resources_only d d.
Proof. exists (controls d), (reservations d). by destruct d. Qed.
Lemma resources_only_trans d1 d2 d3 :
  resources_only d1 d2 → resources_only d2 d3 → resources_only d1 d3.
Proof. intros (c1 & r1 & ->) (c2 & r2 & ->). by exists c2, r2. Qed.

Section dispatch.
Context `{PyRuntime} `{PyStr} `{LimitsModel} `{Uuid5} `{UuidFormat} `{IsoText} `{RowOrder}
  `{TeamModel} `{SnapshotModel} `{ModelDump ManagerDecision.t} `{ModelDump FixedTeamSelection.t}
  `{ModelDump WorkflowResolvedSnapshot.t} `{ModelDump WorkflowResolvedRevision.t}.

Lemma foldl_control_only l sks d : resources_only d (foldl (ensure_control l) d sks).
Proof using.
  revert d. induction sks as [|sk sks IH]; intros d; simpl; [apply resources_only_refl|].
  eapply resources_only_trans; [|apply IH]. unfold ensure_control.
  destruct (control_at _ _); [apply resources_only_refl|]. by eexists (_ ++ [_]), (reservations d).
Qed.
Lemma ensure_controls_only m d d' : ensure_controls m d = Ok d' → resources_only d d'.
Proof using.
  unfold ensure_controls. intros (l & _ & Hd)%res_bind_ok. apply ok_inj in Hd as <-.
  apply foldl_control_only.
Qed.
Lemma require_admission_only m op d : resources_only d (require_admission m op d).2.
Proof using.
  unfold require_admission. destruct (ensure_controls m d) eqn:He; [|apply resources_only_refl].
  by eapply ensure_controls_only.
Qed.
Lemma reserve_all_only m q now cs created d : resources_only d (reserve_all m q now created d cs).2.
Proof using.
  revert created d. induction cs as [|c cs IH]; intros created d; simpl; [apply resources_only_refl|].
  destruct (reserve_at m q now d c) as [[r d1]|e] eqn:Hc; [|apply resources_only_refl].
  eapply resources_only_trans; [|apply IH]. apply reserve_at_answers in Hc as (_ & rows & ->).
  exists (controls d), (reservations d ++ rows). by destruct d.
Qed.
Lemma reserve_only m q now d : resources_only d (reserve m q now d).2.
Proof using.
  unfold reserve. destruct (ensure_controls m d) eqn:He; [|apply resources_only_refl].
  eapply resources_only_trans; [by eapply ensure_controls_only|apply reserve_all_only].
Qed.

(** What is reserved at the three scopes of a mission. *)
Definition reserved_at (m : mission_row) (action : string) (d : mdb) : Prop :=
  ∀ key, key ∈ scope_keys m → ∃ c r, c ∈ controls d ∧ MissionAdmissionControlModel.scope_key c = key
    ∧ r ∈ reservations d ∧ MissionResourceReservationModel.scope_key r = key
    ∧ MissionResourceReservationModel.action_id r = action.

Lemma ensure_control_keeps l d sk c :
  c ∈ controls d → c ∈ controls (ensure_control l d sk).
Proof using. unfold ensure_control. destruct (control_at _ _); [done|]. intros ?. apply elem_of_app. by left. Qed.
Lemma ensure_all_keep l sks d c : c ∈ controls d → c ∈ controls (foldl (ensure_control l) d sks).
Proof using.
  revert d. induction sks as [|sk sks IH]; intros d; simpl; [done|]. intros Hc.
  by apply IH, ensure_control_keeps.
Qed.
Lemma control_at_in key d c :
  control_at key d = Some c → c ∈ controls d ∧ MissionAdmissionControlModel.scope_key c = key.
Proof using.
  intros [Hin Hk]%find_some. split; [by apply list_elem_of_In|by apply String.eqb_eq].
Qed.
Lemma ensure_all_present l sks d key :
  key ∈ sks.*2 →
  ∃ c, c ∈ controls (foldl (ensure_control l) d sks) ∧ MissionAdmissionControlModel.scope_key c = key.
Proof using.
  revert d. induction sks as [|sk sks IH]; intros d; [by intros ?%elem_of_nil|].
  cbn [fmap list_fmap foldl]. intros [->|Hk]%elem_of_cons; [|by apply IH].
  assert (∃ c, c ∈ controls (ensure_control l d sk) ∧ MissionAdmissionControlModel.scope_key c = sk.2)
    as (c & Hc & Hkey).
  { unfold ensure_control. destruct (control_at sk.2 d) as [c|] eqn:Hc.
    - exists c. by apply control_at_in.
    - eexists. split; [apply elem_of_app; right; by apply list_elem_of_singleton|done]. }
  exists c. split; [by apply ensure_all_keep|done].
Qed.

Lemma reserve_all_rows m q now cs created d rs d' :
  reserve_all m q now created d cs = (Ok rs, d') →
  controls d' = controls d ∧ (∀ r, r ∈ reservations d → r ∈ reservations d')
  ∧ ∀ c, c ∈ cs → ∃ r, r ∈ reservations d'
      ∧ MissionResourceReservationModel.scope_key r = MissionAdmissionControlModel.scope_key c
      ∧ MissionResourceReservationModel.action_id r = rq_action q.
Proof using.
  revert created d. induction cs as [|c cs IH]; intros created d; simpl.
  { intros [= _ <-]. split_and!; [done..|]. by intros c ?%elem_of_nil. }
  destruct (reserve_at m q now d c) as [[r d1]|e] eqn:Hc; [|done].
  intros (Hctl & Hin & Hall)%IH. apply reserve_at_answers in Hc as ((Hf & _) & rows & ->).
  apply find_some in Hf as [Hr%list_elem_of_In Hact].
  apply andb_true_iff in Hact as [Hk%String.eqb_eq Ha%String.eqb_eq].
  split_and!; [exact Hctl| |].
  - intros r' Hr'. apply Hin, elem_of_app. by left.
  - intros c' [->|Hc']%elem_of_cons; [|by apply Hall]. exists r. split; [by apply Hin|done].
Qed.

Lemma controls_of_iff m d c :
  c ∈ controls_of m d
  ↔ c ∈ controls d ∧ MissionAdmissionControlModel.scope_key c ∈ scope_keys m.
Proof using.
  unfold controls_of. rewrite elem_of_sorted_key, list_elem_of_In, filter_In, bool_decide_eq_true.
  by rewrite <-list_elem_of_In.
Qed.

Lemma scoped_keys_snd m : (scoped_keys m).*2 = scope_keys m.
Proof using. done. Qed.

Lemma reserve_holds m q now d rs d' :
  reserve m q now d = (Ok rs, d') → reserved_at m (rq_action q) d'.
Proof using.
  unfold reserve, ensure_controls. destruct (validate_limits _) as [l|]; [|done].
  cbn [mbind option_bind res_bind].
  intros (Hctl & _ & Hall)%reserve_all_rows key Hkey.
  destruct (ensure_all_present l (scoped_keys m) d key) as (c & Hc & Hk); [by rewrite scoped_keys_snd|].
  destruct (Hall c) as (r & Hr & Hrk & Ha); [apply controls_of_iff; by rewrite Hk|].
  exists c, r. split_and!; [by rewrite Hctl|done|done|by rewrite Hrk|done].
Qed.

(** A mission that is admitted has no closed control. *)
Lemma require_admission_open m op d :
  (require_admission m op d).1 = Ok tt →
  ∀ c, c ∈ controls d → MissionAdmissionControlModel.scope_key c ∈ scope_keys m →
    MissionAdmissionControlModel.state c = ControlState.open.
Proof using.
  unfold require_admission, ensure_controls. destruct (validate_limits _) as [l|]; [|done].
  cbn [mbind option_bind res_bind fst].
  intros Ha c Hc Hk. destruct (List.filter closed _) as [|x xs] eqn:Hf; [|done].
  destruct (closed c) eqn:Hcl; [|by apply negb_false_iff, bool_decide_eq_true in Hcl].
  assert (c ∈ List.filter closed (controls_of m (foldl (ensure_control l) d (scoped_keys m)))) as Hin.
  { apply list_elem_of_In, filter_In. split; [|done]. apply list_elem_of_In, controls_of_iff.
    split; [by apply ensure_all_keep|done]. }
  rewrite Hf in Hin. by apply elem_of_nil in Hin.
Qed.

(** ** One dispatch *)

(** One item becomes [started]; its run is there. *)
Record starts (m : mission_row) (i : item_row) (d d' : mdb) : Prop := {
  st_items : items d' = <[MissionWorkItemModel.id i :=
      MissionWorkItemModel.started (item_job (MissionWorkItemModel.id i))
        (item_run (MissionWorkItemModel.id i)) i]> (items d);
  st_run : ∃ r, runs (core d') !! item_run (MissionWorkItemModel.id i) = Some r
    ∧ (runs (core d) !! item_run (MissionWorkItemModel.id i) = None →
       RunModel.status r = RunStatus.QUEUED ∧ RunModel.mode r = MissionModel.mode m
       ∧ RunModel.job_id r = item_job (MissionWorkItemModel.id i));
  st_reserved : reserved_at m (job_action (MissionWorkItemModel.id i)) d';
}.

Definition same_resources (d d' : mdb) : Prop :=
  controls d' = controls d ∧ reservations d' = reservations d.

Lemma put_mission_frame now m d d' :
  put_mission now m d = Ok d' → items d' = items d ∧ core d' = core d ∧ same_resources d d'.
Proof using.
  unfold put_mission. destruct (missions d !! _); [|done].
  destruct (MissionModel.unchanged _ _); [by intros [= <-]|].
  destruct (MissionModel.fits m); [|done]. by intros [= <-].
Qed.
Lemma emit_frame name data d d' :
  emit_ name data d = Ok d' →
  items d' = items d ∧ runs (core d') = runs (core d) ∧ same_resources d d'.
Proof using. unfold emit_, emit. destruct (migrated _); [|done]. by intros [= <-]. Qed.

Lemma create_run_spec m i team version frozen now created d d' :
  create_run m i team version frozen now created d = Ok d' →
  items d' = items d ∧ same_resources d d'
  ∧ ∃ r, runs (core d') !! item_run (MissionWorkItemModel.id i) = Some r
    ∧ (runs (core d) !! item_run (MissionWorkItemModel.id i) = None →
       RunModel.status r = RunStatus.QUEUED ∧ RunModel.mode r = MissionModel.mode m
       ∧ RunModel.job_id r = item_job (MissionWorkItemModel.id i)).
Proof using.
  unfold create_run. set (d1 := match jobs _ !! _ with Some _ => _ | None => _ end).
  assert (items d1 = items d ∧ runs (core d1) = runs (core d) ∧ same_resources d d1) as (Hi & Hr & Hres)
    by by subst d1; destruct (jobs _ !! _).
  clearbody d1. rewrite Hr. rewrite <-Hi. clear Hi. simpl. destruct (runs (core d) !! _) as [r|] eqn:He.
  - intros [= <-]. split; [done|]. split; [done|]. exists r. rewrite Hr. split; [exact He|]. done.
  - destruct (migrated _); [|done]. intros [= <-]. split; [done|]. split; [done|]. eexists.
    simpl. rewrite Hr, lookup_insert_eq. by split.
Qed.

Lemma freeze_frame fresh version o payload digest d i d' :
  freeze fresh version o payload digest d = Ok (i, d') →
  items d' = items d ∧ core d' = core d ∧ same_resources d d'.
Proof using.
  unfold freeze. destruct (find _ _); [by intros [= _ <-]|]. destruct (existsb _ _); [done|].
  by intros [= _ <-].
Qed.

Lemma launch_starts t m i team selection d d' :
  launch t m i team selection d = Ok d' →
  reserved_at m (job_action (MissionWorkItemModel.id i)) d → items d' = items d ∨ starts m i d d'.
Proof using.
  unfold launch. intros Hl Hres. revert Hl.
  destruct (versions d !! _) as [[[published|] [stored|]]|]; try solve [intros [Hi _]%put_mission_frame; by left].
  intros (o & _ & (digest & _ & ([frozen d1] & Hfr & (d2 & Hc & (d3 & Hp & He)%res_bind_ok)
    %res_bind_ok)%res_bind_ok)%res_bind_ok)%res_bind_ok. right. simpl in *.
  apply freeze_frame in Hfr as (Hi1 & Hc1 & Hk1 & Hr1).
  apply create_run_spec in Hc as (Hi2 & [Hk2 Hr2] & r & Hr & Hnew).
  apply put_mission_frame in Hp as (Hi3 & Hc3 & Hk3 & Hr3).
  apply emit_frame in He as (Hi4 & Hr4 & Hk4 & Hr5). simpl in Hi3, Hc3, Hk3, Hr3.
  split.
  - rewrite Hi4, Hi3. by rewrite Hi2, Hi1.
  - exists r. rewrite Hr4, Hc3. split; [done|]. by rewrite <-Hc1.
  - intros key Hkey. destruct (Hres key Hkey) as (c & x & Hin & Hck & Hx & Hxk & Ha).
    exists c, x. rewrite Hk4, Hk3, Hk2, Hk1, Hr5, Hr3, Hr2, Hr1. done.
Qed.

(** *** The conditions under which an item is started *)

(** A ready item of the mission that the current directive governs. *)
Record ready_for (m : mission_row) (d : mdb) (i : item_row) : Prop := {
  rd_row : ∃ k, items d !! k = Some i;
  rd_mission : MissionWorkItemModel.mission_id i = MissionModel.id m;
  rd_ready : MissionWorkItemModel.lifecycle i = WorkItemLifecycle.ready;
  rd_directive : MissionWorkItemModel.directive_version i = MissionModel.directive_version m;
}.

(** A mission the service may serve. *)
Record eligible (s : manager) (d : mdb) (m : mission_row) : Prop := {
  el_row : ∃ k, missions d !! k = Some m;
  el_mode : MissionModel.mode m = MissionManagerService.mode s;
  el_autonomous : MissionModel.autonomous m = true;
  el_lifecycle : MissionModel.lifecycle m = MissionLifecycle.active
    ∨ MissionModel.lifecycle m = MissionLifecycle.idle
    ∨ MissionModel.lifecycle m = MissionLifecycle.waiting_for_capacity;
  el_work : ∃ i, ready_for m d i;
}.

(** An item that is running: started, with a run that is not over. *)
Record running (m : mission_row) (d : mdb) (i : item_row) : Prop := {
  ru_mission : MissionWorkItemModel.mission_id i = MissionModel.id m;
  ru_started : MissionWorkItemModel.lifecycle i = WorkItemLifecycle.started;
  ru_run : ∃ k r, MissionWorkItemModel.run_id i = Some k ∧ runs (core d) !! k = Some r
    ∧ RunModel.status r ∉ [RunStatus.COMPLETED; RunStatus.FAILED; RunStatus.BLOCKED;
                           RunStatus.CANCELLED];
}.

(** Fewer than [n] items of the mission run. *)
Definition fewer_running (m : mission_row) (d : mdb) (n : Z) : Prop :=
  ∀ ks : list uuid, NoDup ks → (∀ k, k ∈ ks → ∃ i, items d !! k = Some i ∧ running m d i) →
    Z.of_nat (length ks) < n.

Record may_start (s : manager) (locked : uuid → bool) (m : mission_row) (i : item_row) (d : mdb) : Prop := {
  ms_mission : eligible s d m ∧ locked (MissionModel.id m) = false;
  ms_turn : ∀ o, eligible s d o → locked (MissionModel.id o) = false →
    MissionModel.updated_at m < MissionModel.updated_at o
    ∨ MissionModel.updated_at m = MissionModel.updated_at o
      ∧ (MissionModel.id m ≤ MissionModel.id o)%N;
  ms_item : ready_for m d i ∧ locked (MissionWorkItemModel.id i) = false;
  ms_priority : ∀ o, ready_for m d o → locked (MissionWorkItemModel.id o) = false →
    MissionWorkItemModel.priority o < MissionWorkItemModel.priority i
    ∨ MissionWorkItemModel.priority o = MissionWorkItemModel.priority i
      ∧ (MissionWorkItemModel.id i ≤ MissionWorkItemModel.id o)%N;
  ms_admitted : ∀ c, c ∈ controls d → MissionAdmissionControlModel.scope_key c ∈ scope_keys m →
    MissionAdmissionControlModel.state c = ControlState.open;
  ms_capacity : ∃ limits team selection,
    limits_validate (MissionModel.resource_limits_json m) = Some limits
    ∧ teams d !! MissionWorkItemModel.team_version_id i = Some team
    ∧ team_validate (MissionTeamVersionModel.selection_json team) = Some selection
    ∧ fewer_running m d (MissionResourceLimits.max_active_jobs limits)
    ∧ fewer_running m d (TeamBudgetPolicy.max_active_assignments (FixedTeamSelection.budgets selection));
}.

Lemma head_sorted {A K} `{PyOrdLaws K} (key : A → K) (p : A → bool) l x :
  head (List.filter p (sorted_key key l)) = Some x →
  x ∈ l ∧ p x = true ∧ ∀ y, y ∈ l → p y = true → py_leb (key x) (key y) = true.
Proof using.
  intros Hh.
  assert (StronglySorted (λ x y, py_leb (key x) (key y) = true) (List.filter p (sorted_key key l))) as Hs.
  { clear Hh. pose proof (sorted_key_sorted key l) as Hs. induction Hs as [|y l' Hs IH Hall]; [constructor|].
    simpl. assert (∀ q : list A, Forall (λ z, py_leb (key y) (key z) = true) q →
      Forall (λ z, py_leb (key y) (key z) = true) (List.filter p q)) as Hsub.
    { intros q Hq. apply Forall_forall. intros z Hz. rewrite Forall_forall in Hq. apply Hq.
      apply list_elem_of_In, filter_In in Hz as [Hz _]. by apply list_elem_of_In. }
    destruct (p y); [|exact IH]. constructor; [exact IH|by apply Hsub]. }
  assert (∀ y, y ∈ l → p y = true → y ∈ List.filter p (sorted_key key l)) as Hall.
  { intros y Hy Hp. apply list_elem_of_In, filter_In. split; [|done].
    by apply list_elem_of_In, elem_of_sorted_key. }
  destruct (List.filter p (sorted_key key l)) as [|z zs] eqn:Hf; [done|]. injection Hh as ->.
  assert (x ∈ List.filter p (sorted_key key l)) as Hx by (rewrite Hf; by left).
  apply list_elem_of_In, filter_In in Hx as [Hx Hp]. apply list_elem_of_In, elem_of_sorted_key in Hx.
  split_and!; [done..|]. intros y Hy Hpy. apply (Hall y Hy) in Hpy as [->|Hin]%elem_of_cons.
  - apply py_leb_refl.
  - inversion Hs as [|? ? _ Hle]; subst. rewrite Forall_forall in Hle. by apply Hle.
Qed.

Lemma py_leb_pair {A B} `{PyOrd A, PyOrd B} (a c : A) (b e : B) :
  py_leb (a, b) (c, e) = match py_cmp a c with Eq => py_leb b e | Lt => true | Gt => false end.
Proof using. unfold py_leb, prod_pyord. simpl. unfold py_cmp at 1. simpl. by destruct (py_cmp a c). Qed.

Context `{!RowOrderLaws}.

Lemma dispatchable_iff m d i :
  i ∈ select_rows (dispatchable m) (items d) ↔ ready_for m d i.
Proof using Type*.
  rewrite elem_of_select_rows. unfold dispatchable, of_mission, in_state.
  setoid_rewrite andb_true_iff. setoid_rewrite andb_true_iff.
  setoid_rewrite bool_decide_eq_true. setoid_rewrite Z.eqb_eq. split.
  - intros (k & Hk & (? & ?) & ?). split; eauto.
  - intros [[k Hk] ? ? ?]. eauto.
Qed.

Lemma serviceable_iff s d m :
  m ∈ select_rows (serviceable s d) (missions d) ↔ eligible s d m.
Proof using Type*.
  rewrite elem_of_select_rows. unfold serviceable.
  assert (existsb (dispatchable m) (snd <$> map_to_list (items d)) = true ↔ ∃ i, ready_for m d i) as Hw.
  { rewrite existsb_exists. setoid_rewrite <-dispatchable_iff. setoid_rewrite elem_of_select_rows.
    setoid_rewrite <-list_elem_of_In. setoid_rewrite list_elem_of_fmap. split.
    - intros (i & ([k j] & -> & Hk%elem_of_map_to_list) & Hd). by exists j, k.
    - intros (i & k & Hk & Hd). exists i. split; [|done]. exists (k, i). split; [done|].
      by apply elem_of_map_to_list. }
  setoid_rewrite andb_true_iff. setoid_rewrite andb_true_iff. setoid_rewrite andb_true_iff.
  setoid_rewrite Hw. setoid_rewrite bool_decide_eq_true. setoid_rewrite String.eqb_eq. split.
  - intros (k & Hk & ((? & ?) & Hl) & ?). split; [eauto|done|done| |done]. set_solver.
  - intros [[k Hk] ? ? Hl ?]. exists k. split_and!; [done..| |done]. set_solver.
Qed.

Lemma next_mission_spec s locked d m :
  next_mission s locked d = Some m →
  (eligible s d m ∧ locked (MissionModel.id m) = false)
  ∧ ∀ o, eligible s d o → locked (MissionModel.id o) = false →
      MissionModel.updated_at m < MissionModel.updated_at o
      ∨ MissionModel.updated_at m = MissionModel.updated_at o
        ∧ (MissionModel.id m ≤ MissionModel.id o)%N.
Proof using Type*.
  intros (Hm & Hl & Hall)%head_sorted. rewrite serviceable_iff in Hm. split.
  - split; [done|]. by apply negb_true_iff.
  - intros o Ho Hlo. specialize (Hall o). rewrite serviceable_iff, negb_true_iff in Hall.
    specialize (Hall Ho Hlo). rewrite py_leb_pair in Hall. unfold py_cmp, Z_pyord in Hall.
    destruct (Z.compare_spec (MissionModel.updated_at m) (MissionModel.updated_at o)); [|by left|done].
    right. split; [done|]. unfold py_leb, py_cmp, N_pyord in Hall.
    by destruct (N.compare_spec (MissionModel.id m) (MissionModel.id o)); [lia|lia|].
Qed.

Lemma next_item_spec m locked d i :
  next_item m locked d = Some i →
  (ready_for m d i ∧ locked (MissionWorkItemModel.id i) = false)
  ∧ ∀ o, ready_for m d o → locked (MissionWorkItemModel.id o) = false →
      MissionWorkItemModel.priority o < MissionWorkItemModel.priority i
      ∨ MissionWorkItemModel.priority o = MissionWorkItemModel.priority i
        ∧ (MissionWorkItemModel.id i ≤ MissionWorkItemModel.id o)%N.
Proof using Type*.
  intros (Hi & Hl & Hall)%head_sorted. rewrite dispatchable_iff in Hi. split.
  - split; [done|]. by apply negb_true_iff.
  - intros o Ho Hlo. specialize (Hall o). rewrite dispatchable_iff, negb_true_iff in Hall.
    specialize (Hall Ho Hlo). unfold by_priority in Hall. rewrite py_leb_pair in Hall.
    unfold py_cmp, Z_pyord in Hall.
    destruct (Z.compare_spec (- MissionWorkItemModel.priority i) (- MissionWorkItemModel.priority o));
      [|left; lia|done].
    right. split; [lia|]. unfold py_leb, py_cmp, N_pyord in Hall.
    by destruct (N.compare_spec (MissionWorkItemModel.id i) (MissionWorkItemModel.id o)); [lia|lia|].
Qed.

Lemma active_count_bounds m d n : active_count (MissionModel.id m) d < n → fewer_running m d n.
Proof using Type*.
  intros Hlt ks Hnd Hks. eapply Z.le_lt_trans; [|exact Hlt]. unfold active_count. apply inj_le.
  set (l := filter (λ ki : uuid * item_row, active_item (MissionModel.id m) d ki.2 = true)
              (map_to_list (items d))).
  assert (length (select_rows (active_item (MissionModel.id m) d) (items d)) = length l) as ->.
  { unfold select_rows. rewrite (Permutation_length (row_order_perm _ _)). unfold l. clear.
    induction (map_to_list (items d)) as [|[k i] r IH]; [done|]. rewrite filter_cons.
    cbn [fmap list_fmap snd List.filter].
    destruct (active_item _ _ i) eqn:Ha; case_decide; try congruence; cbn [length]; by rewrite IH. }
  rewrite <-(length_fmap fst l). apply submseteq_length, NoDup_submseteq; [done|].
  intros k Hk. destruct (Hks k Hk) as (i & Hi & [Hm Hs (q & r & Hq & Hr & Ht)]).
  apply list_elem_of_fmap. exists (k, i). split; [done|]. apply list_elem_of_filter.
  split; [|by apply elem_of_map_to_list]. simpl. unfold active_item, of_mission, in_state, run_of.
  rewrite !bool_decide_true by done. rewrite Hq. simpl. rewrite Hr. unfold terminal_run.
  by rewrite bool_decide_false.
Qed.

End dispatch.

(** ** The history the model is given *)

Section history.
Context `{PyRuntime}.

(** What [trim_messages] drops; no shorter prefix is enough. *)
Lemma trim_spec maximum bounded ms :
  dict_get "messages" bounded = Some (JArr ms) →
  ∃ dropped kept, ms = dropped ++ kept
    ∧ trim_messages maximum bounded ms = dict_set "messages" (JArr kept) bounded
    ∧ (∀ older newer, dropped = older ++ newer → newer ≠ [] →
         maximum < text_size (dict_set "messages" (JArr (newer ++ kept)) bounded))
    ∧ (kept = [] ∨ text_size (dict_set "messages" (JArr kept) bounded) ≤ maximum).
Proof.
  revert bounded. induction ms as [|m ms IH]; intros bounded Hb.
  { exists [], []. split_and!; [done|by rewrite dict_set_present| |by left].
    intros older newer Hd Hn. by destruct older, newer. }
  cbn [trim_messages]. destruct (Z.ltb_spec maximum (text_size bounded)) as [Hlt|Hle].
  - destruct (IH (dict_set "messages" (JArr ms) bounded)) as (dropped & kept & Hms & Ht & Hd & Hk);
      [by rewrite dict_get_set_eq|].
    rewrite dict_set_set in Ht, Hk. exists (m :: dropped), kept.
    split_and!; [by rewrite Hms|done| |done].
    intros [|m' older] newer Heq Hn; simpl in Heq.
    + subst newer. simpl. rewrite <-Hms, dict_set_present; done.
    + injection Heq as <- Heq. specialize (Hd older newer Heq Hn). by rewrite dict_set_set in Hd.
  - exists [], (m :: ms). rewrite dict_set_present by done. split_and!; [done..| |by right].
    intros older newer Hd Hn. by destruct older, newer.
Qed.

(** The text the model is given fits the profile's context (three bytes per
token, at most a megabyte) and keeps the objective, the constraints and the first
fifty items; of the last twenty messages it keeps the newest ones, and as many of
them as fit; it is refused only when not even the text without messages fits. *)
Theorem snapshot_bounded (o : jobj) context_limit :
  let maximum := Z.min 1000000 (context_limit * 3) in
  let recent := last_n 20 (json_list (dict_get "messages" o)) in
  let backlog := take 50 (json_list (dict_get "backlog" o)) in
  match bounded_snapshot o context_limit with
  | Ok b =>
      text_size b ≤ maximum
      ∧ (∀ k, k ≠ "messages" → k ≠ "backlog" → dict_get k b = dict_get k o)
      ∧ dict_get "backlog" b = Some (JArr backlog)
      ∧ ∃ dropped kept, recent = dropped ++ kept ∧ dict_get "messages" b = Some (JArr kept)
        ∧ ∀ older newer, dropped = older ++ newer → newer ≠ [] →
            maximum < text_size (dict_set "messages" (JArr (newer ++ kept)) b)
  | Err e =>
      e = Raised "management_context_too_large"
      ∧ maximum < text_size (dict_set "backlog" (JArr backlog) (dict_set "messages" (JArr []) o))
  end.
Proof.
  intros maximum recent backlog. unfold bounded_snapshot. fold maximum recent backlog.
  set (b0 := dict_set "backlog" (JArr backlog) (dict_set "messages" (JArr recent) o)).
  destruct (trim_spec maximum b0 recent) as (dropped & kept & Hr & Ht & Hd & Hk).
  { unfold b0. by rewrite dict_get_set_ne, dict_get_set_eq. }
  rewrite Ht. destruct (Z.ltb_spec maximum (text_size (dict_set "messages" (JArr kept) b0))) as [Hlt|Hle].
  - split; [done|]. destruct Hk as [->|Hk]; [|lia]. unfold b0 in Hlt. rewrite dict_set_swap, dict_set_set in Hlt;
      [exact Hlt|done|]. apply list_elem_of_fmap. exists ("messages", JArr recent).
    split; [done|]. apply dict_get_elem, dict_get_set_eq.
  - split_and!; [done| | |].
    + intros k Hm Hb. rewrite dict_get_set_ne by done. unfold b0. by rewrite !dict_get_set_ne by done.
    + rewrite dict_get_set_ne by done. unfold b0. by rewrite dict_get_set_eq.
    + exists dropped, kept. rewrite dict_get_set_eq. split_and!; [done..|].
      intros older newer Heq Hn. rewrite dict_set_set. by eapply Hd.
Qed.
End history.
