(* ===== verification/RunApi.v ===== *)
(** * Projects, jobs and commands

[api/app/jarvis_api/runtime.py] with [CommandRepository] of
[packages/persistence/src/jarvis_persistence/repositories.py]: owners create projects, enqueue
jobs on published workflows and send commands to their runs; and [control_mission] of
[missions.py] of the API, which sends a command to the active run of a mission.  Every request that changes
something runs under the lock on the event counter, and but for commands, which have keys of
their own, keeps its response under an idempotency key.

[job_sound] says what a job that is accepted starts from, [job_created_once] that a key
creates one job, [commands_numbered] that the commands of a run are numbered without gaps.

A [desk] is everything the owner's requests see: the tables of runs and missions, the tables
of the registry and the workflow service with the idempotency records, and the projects. *)
From S2P Require Import Prelude Enums PyJson PyDecimal PyFloat Failures Verification Registry WorkflowSpec.
From S2P Require Import Predicates Normalize RawValidation Graph GraphIssues FanoutIssues SnapshotIssues.
From S2P Require Import PolicyIssues Protected Validate Database Ownership MissionContracts MissionTables.
From S2P Require Import MissionResources Missions Circuit Accounting Approvals Regex Redaction RegistryService.
From S2P Require Import Auth WorkflowStudio.
From stdpp Require Import gmap.
Local Open Scope Z_scope.
Local Open Scope stdpp_scope.

(** ** Contracts *)

(** [^[A-Za-z0-9][A-Za-z0-9._:/-]+$] *)
Definition IdempotencyKey_valid (s : string) : bool :=
  len_between 8 200 s && head_tail is_alnum (λ c, is_alnum c || is_oneof [46; 95; 58; 47; 45]%nat c) 1 199 s.

Module ProjectCreate.
Record t := {
  idempotency_key : string;
  slug : string;
  name : string;
  project_type : string;
  execution_profile_revision_ids : list uuid;
}.
Definition explicit_web_profiles (b : t) : bool :=
  all_distinct (execution_profile_revision_ids b)
  && negb (negb (String.eqb (project_type b) "python") && Nat.eqb (List.length (execution_profile_revision_ids b)) 0).
Definition valid (b : t) : bool :=
  IdempotencyKey_valid (idempotency_key b)
  && head_tail (λ c, is_lower c || is_digit c) (λ c, is_lower c || is_digit c || is_oneof [45]%nat c) 0 79 (slug b)
  && len_between 1 160 (name b)
  && bool_decide (project_type b ∈ ["python"; "node"; "full_stack"])
  && size_between 0 3 (execution_profile_revision_ids b) && explicit_web_profiles b.
End ProjectCreate.

Module ProjectView.
Record t := {
  id : uuid;
  slug : string;
  name : string;
  project_type : string;
  execution_profile_revision_ids : list uuid;
}.
End ProjectView.

Module DemoFixture.
Record t := {
  seed : Z;
  clock : Z;
  scenario : string;
  delay_seconds : pyfloat;
  health : string;
  ci : string;
}.
End DemoFixture.

Module JobCreate.
Record t := {
  idempotency_key : string;
  workflow_version_id : uuid;
  objective : string;
  priority : Z;
  mode : string;
  demo_fixture : option DemoFixture.t;
}.
Definition demo_only (b : t) : bool :=
  negb (bool_decide (is_Some (demo_fixture b)) && negb (String.eqb (mode b) "demo")).
Definition valid (b : t) : bool :=
  IdempotencyKey_valid (idempotency_key b) && len_between 1 8000 (objective b)
  && z_between (-100) 100 (priority b) && bool_decide (mode b ∈ ["real"; "demo"]) && demo_only b.
End JobCreate.

(** The fields that the rows of [Database.v] have. *)
Module RunView.
Record t := {
  id : uuid;
  job_id : uuid;
  project_id : uuid;
  workflow_version_id : uuid;
  run_number : Z;
  retry_of_run_id : option uuid;
  thread_id : string;
  status : RunStatus.t;
  desired_state : DesiredRunState.t;
  mode : string;
  version : Z;
  recovering : bool;
  claimable_at : Z;
}.
End RunView.

Module JobView.
Record t := { id : uuid; project_id : uuid; objective : string; status : JobStatus.t }.
End JobView.

Module RunControl.
Record t := {
  idempotency_key : string;
  expected_run_version : Z;
  kind : RunCommandKind.t;
  instruction : option string;
}.
Definition instruction_shape (b : t) : bool :=
  Bool.eqb (bool_decide (kind b = RunCommandKind.INSTRUCTION)) (bool_decide (is_Some (instruction b))).
Definition valid (b : t) : bool :=
  IdempotencyKey_valid (idempotency_key b) && Z.leb 0 (expected_run_version b)
  && opt_all (len_between 1 4000) (instruction b) && instruction_shape b.
End RunControl.

Module RunCommandRequest.
Record t := {
  run_id : uuid;
  kind : RunCommandKind.t;
  idempotency_key : string;
  payload : jobj;
  expected_run_version : option Z;
}.
Definition valid (q : t) : bool :=
  IdempotencyKey_valid (idempotency_key q) && opt_all (Z.leb 0) (expected_run_version q).
Definition request_digest `{PyRuntime} (q : t) : string :=
  sha256_digest (JObj [("schema_version", JStr "1.0"); ("run_id", JStr (uuid_str (run_id q)));
                       ("kind", JStr (RunCommandKind.value (kind q))); ("payload", JObj (payload q));
                       ("expected_run_version", NodeConfig.opt_json JInt (expected_run_version q))]).
End RunCommandRequest.

Module RunCommandReceipt.
Record t := {
  command_id : uuid;
  run_id : uuid;
  sequence : Z;
  status : CommandStatus.t;
  request_digest : string;
  duplicate : bool;
}.
End RunCommandReceipt.

Module RunReconciliationRequest.
Record t := { effect_id : uuid; idempotency_key : string; expected_run_version : Z }.
Definition valid (b : t) : bool :=
  IdempotencyKey_valid (idempotency_key b) && Z.leb 0 (expected_run_version b).
End RunReconciliationRequest.

Module RunReconciliationReceipt.
Record t := {
  run_id : uuid;
  effect_id : uuid;
  effect_status : EffectStatus.t;
  queued_for_inspection : bool;
  duplicate : bool;
}.
Definition repeated (r : t) : t :=
  Build_t (run_id r) (effect_id r) (effect_status r) (queued_for_inspection r) true.
End RunReconciliationReceipt.

Module DemoDecision.
Record t := {
  decision_id : string;
  decision : string;
  expected_run_version : Z;
  idempotency_key : string;
}.
Definition valid (b : t) : bool :=
  len_between 1 160 (decision_id b) && bool_decide (decision b ∈ ["approved"; "rejected"])
  && Z.leb 0 (expected_run_version b) && len_between 8 120 (idempotency_key b).
End DemoDecision.

Module MissionControlView.
Record t := {
  scope : ControlScope.t;
  state : ControlState.t;
  instruction : option string;
  limits : MissionResourceLimits.t;
  version : Z;
}.
End MissionControlView.

Module DemoDecisionView.
Record t := { id : string; decision : string }.
End DemoDecisionView.

(** ** State *)

(** [slug] is unique. *)
Module ProjectModel.
Record t := {
  id : uuid;
  owner_user_id : uuid;
  slug : string;
  name : string;
  project_type : string;
  execution_profile_revision_ids_json : list uuid;
  status : string;
}.
End ProjectModel.

(** The columns of [run_commands] that only [CommandRepository] reads. *)
Module CommandKey.
Record t := { idempotency_key : string; request_digest : string; expected_run_version : option Z }.
End CommandKey.

(** [(mission_id, version)] is unique. *)
Module MissionDirectiveModel.
Record t := {
  id : uuid;
  mission_id : uuid;
  version : Z;
  objective : string;
  constraints_json : list string;
  content_hash : string;
  created_by : uuid;
}.
End MissionDirectiveModel.

(** [next_command] is the column [next_command_sequence] of runs; it starts at 0. *)
Record desk := {
  work : mdb;
  shelf : studio;
  projects : gmap uuid ProjectModel.t;
  command_keys : gmap uuid CommandKey.t;
  next_command : gmap uuid Z;
  directives : list MissionDirectiveModel.t;
}.
Definition set_work (w : mdb) (d : desk) : desk :=
  Build_desk w (shelf d) (projects d) (command_keys d) (next_command d) (directives d).
Definition set_shelf (s : studio) (d : desk) : desk :=
  Build_desk (work d) s (projects d) (command_keys d) (next_command d) (directives d).
Definition set_projects (p : gmap uuid ProjectModel.t) (d : desk) : desk :=
  Build_desk (work d) (shelf d) p (command_keys d) (next_command d) (directives d).
Definition set_keys (k : gmap uuid CommandKey.t) (n : gmap uuid Z) (d : desk) : desk :=
  Build_desk (work d) (shelf d) (projects d) k n (directives d).
Definition set_directives (l : list MissionDirectiveModel.t) (d : desk) : desk :=
  Build_desk (work d) (shelf d) (projects d) (command_keys d) (next_command d) l.
Definition db_of (d : desk) : db := MissionTables.core (work d).
Definition set_db (c : db) (d : desk) : desk := set_work (MissionTables.set_core c (work d)) d.
Definition desk_records (d : desk) : list IdempotencyRecordModel.t := records (base (shelf d)).
Definition set_desk_records (l : list IdempotencyRecordModel.t) (d : desk) : desk :=
  set_shelf (set_base (set_records l (base (shelf d))) (shelf d)) d.

(** ** Requests *)

Definition run_problem (status : Z) (code : string) : registry_error := Problem status ("run." +:+ code).
Definition missing : registry_error := run_problem 404 "not_found".
(** [sessions]: only an owner gets one. *)
Definition owner_access (code : string) (p : AuthPrincipal.t) : res registry_error unit :=
  raise_if (negb (String.eqb (AuthPrincipal.role p) "owner")) (Problem 403 code).
Definition safe_strings (j : json) : res registry_error unit :=
  raise_if (negb (_safe_strings j)) (RegistryService._problem 422 "unsafe_input").
Definition lock_desk (d : desk) : res registry_error unit :=
  match lock_events (db_of d) with
  | Ok _ => Ok tt
  | Err _ => Err (ServerError "Database migration is required")
  end.
(** Errors of the mission tables that a request does not catch. *)
Definition raised {A} (r : res mission_error A) : res registry_error A :=
  match r with
  | Ok a => Ok a
  | Err (MissionAdmissionDeniedError code) | Err (MissionBudgetDeniedError code) | Err (Raised code) =>
      Err (ServerError code)
  end.

(** [IdempotencyRepository.begin], and the response that is stored with the state completed. *)
Definition answered_once {A} `{ModelDump A} (scope key digest conflict : string) (parse : json → option A)
    (fresh_request : desk → res registry_error (A * desk)) (d : desk) : res registry_error (A * desk) :=
  match begin_record scope key digest (desk_records d) with
  | IdempotencyConflict => Err (Problem 409 conflict)
  | Replay r =>
      match parse (default JNull (IdempotencyRecordModel.response_json r)) with
      | Some a => Ok (a, d)
      | None => Err WorkflowStudio.validation_error
      end
  | Approvals.Fresh begun =>
      done ← fresh_request (set_desk_records begun d);
      let '(a, d) := done in
      Ok (a, set_desk_records (complete_record scope key (model_dump a) (desk_records d)) d)
  end.

(** [model_validate] of stored responses. *)
Class DeskModel := {
  project_validate : json → option ProjectView.t;
  run_validate : json → option RunView.t;
  reconciliation_validate : json → option RunReconciliationReceipt.t;
  decision_validate : json → option DemoDecisionView.t;
  mission_control_validate : json → option MissionControlView.t;
}.

(** ** [create_project] *)

Definition active_profile (d : registry) (i : uuid) : bool :=
  match revisions d !! i with
  | Some r =>
      match configurations d !! ConfigurationRevisionModel.configuration_id r with
      | Some c => bool_decide (ConfigurationModel.kind c = RegistryKind.execution_profile)
                  && ConfigurationModel.enabled c && negb (bool_decide (is_Some (ConfigurationModel.archived_at c)))
      | None => false
      end
  | None => false
  end.

(** The row that the statements of a request see. *)
Definition project_view (r : ProjectModel.t) : ProjectView.t := {|
  ProjectView.id := ProjectModel.id r;
  ProjectView.slug := ProjectModel.slug r;
  ProjectView.name := ProjectModel.name r;
  ProjectView.project_type := ProjectModel.project_type r;
  ProjectView.execution_profile_revision_ids := ProjectModel.execution_profile_revision_ids_json r;
|}.
Definition create_project_fresh (fresh : uuid) (b : ProjectCreate.t) (p : AuthPrincipal.t) (d : desk)
    : res registry_error (ProjectView.t * desk) :=
  if existsb (λ r, String.eqb (ProjectModel.slug r) (ProjectCreate.slug b)) (map_to_list (projects d)).*2
  then Err (run_problem 409 "slug_conflict")
  else if negb (forallb (active_profile (base (shelf d))) (ProjectCreate.execution_profile_revision_ids b))
  then Err (Problem 422 "project.execution_profile_invalid")
  else if bool_decide (is_Some (projects d !! fresh)) then Err (ServerError "IntegrityError")
  else
    let row := ProjectModel.Build_t fresh (AuthPrincipal.user_id p) (ProjectCreate.slug b) (ProjectCreate.name b)
      (ProjectCreate.project_type b) (ProjectCreate.execution_profile_revision_ids b) "active" in
    w ← raised (MissionTables.emit_ "project.created" [("actor_id", JStr (uuid_str (AuthPrincipal.user_id p)))] (work d));
    Ok (project_view row, set_work w (set_projects (<[fresh := row]> (projects d)) d)).

Section api.
Context `{PyRuntime} `{ConfigModel} `{SpecModel} `{SetOrder} `{PyStr} `{StudioModel} `{DeskModel}
  `{ModelDump WorkflowNode.t} `{ModelDump RawNode.t} `{ModelDump WorkflowEdge.t} `{ModelDump NodePolicy.t}
  `{RegistrySpecModel} `{ModelDump RegistrySpec} `{ModelDump WorkflowResolvedRevision.t}
  `{ModelDump WorkflowResolvedSnapshot.t} `{ModelDump WorkflowLayout.t}
  `{ModelDump ProjectCreate.t} `{ModelDump ProjectView.t} `{ModelDump DemoFixture.t} `{ModelDump JobCreate.t}
  `{ModelDump RunView.t} `{ModelDump RunControl.t} `{ModelDump RunReconciliationRequest.t}
  `{ModelDump RunReconciliationReceipt.t} `{ModelDump DemoDecision.t} `{ModelDump DemoDecisionView.t}
  `{LimitsModel} `{RowOrder} `{ModelDump MissionControlRequest.t} `{ModelDump MissionControlView.t}.

Definition create_project (fresh : uuid) (b : ProjectCreate.t) (p : AuthPrincipal.t) (d : desk)
    : res registry_error (ProjectView.t * desk) :=
  _ ← safe_strings (model_dump b);
  _ ← owner_access "run.forbidden" p;
  _ ← lock_desk d;
  answered_once ("project:" +:+ uuid_str (AuthPrincipal.user_id p)) (ProjectCreate.idempotency_key b)
    (sha256_digest (model_dump b)) "run.idempotency_conflict" project_validate (create_project_fresh fresh b p) d.

(** ** [create_job] *)

Definition run_view (r : RunModel.t) (project : uuid) : RunView.t := {|
  RunView.id := RunModel.id r;
  RunView.job_id := RunModel.job_id r;
  RunView.project_id := project;
  RunView.workflow_version_id := RunModel.workflow_version_id r;
  RunView.run_number := RunModel.run_number r;
  RunView.retry_of_run_id := RunModel.parent_run_id r;
  RunView.thread_id := RunModel.langgraph_thread_id r;
  RunView.status := RunModel.status r;
  RunView.desired_state := RunModel.desired_state r;
  RunView.mode := RunModel.mode r;
  RunView.version := RunModel.version r;
  RunView.recovering := match dict_get "recovering" (RunModel.runtime_json r) with
                        | Some j => truthy j
                        | None => false
                        end;
  RunView.claimable_at := RunModel.claimable_at r;
|}.

Definition owned_project (i : uuid) (p : AuthPrincipal.t) (d : desk) : option ProjectModel.t :=
  r ← projects d !! i;
  if bool_decide (ProjectModel.owner_user_id r = AuthPrincipal.user_id p) then Some r else None.
Definition active_project (i : uuid) (p : AuthPrincipal.t) (d : desk) : res registry_error ProjectModel.t :=
  match owned_project i p d with
  | Some r => if String.eqb (ProjectModel.status r) "active" then Ok r else Err missing
  | None => Err missing
  end.
(** A published version of a template of the owner that is not archived. *)
Definition owned_version (i : uuid) (user : uuid) (s : studio) : option WorkflowStudio.WorkflowVersionModel.t :=
  v ← versions s !! i;
  r ← templates s !! WorkflowStudio.WorkflowVersionModel.workflow_template_id v;
  if bool_decide (is_Some (WorkflowStudio.WorkflowVersionModel.published_at v))
     && bool_decide (WorkflowTemplateModel.owner_user_id r = Some user)
     && negb (bool_decide (is_Some (WorkflowTemplateModel.archived_at r)))
  then Some v else None.

(** [spec.model_dump(mode="json", by_alias=True)] *)
Definition spec_payload (s : WorkflowSpec.t RawNode.t) : jobj :=
  dict_set "nodes" (JArr (model_dump <$> WorkflowSpec.nodes s))
    (dict_set "edges" (JArr (model_dump <$> WorkflowSpec.edges s)) (payload_of s)).

Definition verify_policies (spec : WorkflowSpec.t RawNode.t) : list VerificationPolicy.t :=
  omap (λ n, NodePolicy.verification (effective_policy spec n))
    (List.filter (λ n, bool_decide (RawNode.type n = WorkflowNodeType.verify)) (WorkflowSpec.nodes spec)).
Definition same_members {A} `{EqDecision A} (l m : list A) : bool :=
  forallb (λ x, bool_decide (x ∈ m)) l && forallb (λ x, bool_decide (x ∈ l)) m.
Definition missing_purposes (policies : list VerificationPolicy.t) : list VerificationPurpose.t :=
  List.filter (λ u, negb (bool_decide (u ∈ (v ← policies; RequiredAcceptanceCheck.purpose
                                              <$> VerificationPolicy.required_acceptance_checks v))))
    [VerificationPurpose.build; VerificationPurpose.unit; VerificationPurpose.browser].
(** The checks on real runs of web projects. *)
Definition check_web (project : ProjectModel.t) (spec : WorkflowSpec.t RawNode.t) : res registry_error unit :=
  let policies := verify_policies spec in
  if negb (same_members (v ← policies; VerificationPolicy.execution_profile_revision_ids v)
             (ProjectModel.execution_profile_revision_ids_json project))
  then Err (run_problem 422 "execution_profile_mismatch")
  else raise_if (negb (Nat.eqb (List.length (missing_purposes policies)) 0))
         (run_problem 422 "acceptance_checks_missing").

(** [validate_demo_snapshot] of [demo/safety.py] *)
Definition demo_revision (s : RegistrySpec) : bool :=
  match s with
  | SProvider p => bool_decide (ProviderSpec.provider_kind p = ProviderKind.demo)
                   && negb (bool_decide (is_Some (ProviderSpec.base_url p)))
  | SWorker w => bool_decide (WorkerSpec.adapter_kind w = AdapterKind.demo) && negb (WorkerSpec.deployment_configured w)
  | _ => true
  end.
Definition validate_demo_snapshot (s : WorkflowResolvedSnapshot.t) : bool :=
  forallb (λ r, demo_revision (WorkflowResolvedRevision.spec r)) (WorkflowResolvedSnapshot.revisions s).

Record job_readings := { jr_snapshot : uuid; jr_job : uuid; jr_run : uuid; jr_now : Z; jr_created : Z }.

Definition fresh_run (t : job_readings) (b : JobCreate.t) (frozen : uuid) : RunModel.t := {|
  RunModel.id := jr_run t;
  RunModel.job_id := jr_job t;
  RunModel.run_number := 1;
  RunModel.parent_run_id := None;
  RunModel.workflow_version_id := JobCreate.workflow_version_id b;
  RunModel.config_snapshot_id := frozen;
  RunModel.langgraph_thread_id := uuid_str (jr_run t);
  RunModel.status := RunStatus.QUEUED;
  RunModel.desired_state := DesiredRunState.RUNNING;
  RunModel.priority := JobCreate.priority b;
  RunModel.mode := JobCreate.mode b;
  RunModel.runtime_json := match JobCreate.demo_fixture b with
                           | Some f => [("demo_fixture", model_dump f)]
                           | None => []
                           end;
  RunModel.claimable_at := jr_now t;
  RunModel.created_at := jr_created t;
  RunModel.version := 0;
|}.

(** The snapshot the new run is bound to; the workflow is evaluated again. *)
Definition job_configuration (b : JobCreate.t) (project : ProjectModel.t) (v : WorkflowStudio.WorkflowVersionModel.t)
    (d : desk) : res registry_error WorkflowResolvedSnapshot.t :=
  spec ← match spec_validate (WorkflowStudio.WorkflowVersionModel.spec_json v) with
         | Ok spec => Ok spec
         | Err _ => Err WorkflowStudio.validation_error
         end;
  evaluated ← _evaluate (spec_payload spec) (WorkflowStudio.WorkflowVersionModel.layout_json v) (base (shelf d));
  match evaluated with
  | (report, Some (_, sn)) =>
      _ ← raise_if (negb (WorkflowValidationReport.valid report)
                    || negb (bool_decide (Some (snapshot_hash sn) = WorkflowStudio.WorkflowVersionModel.snapshot_hash v)))
            (run_problem 422 "configuration_invalid");
      _ ← (if String.eqb (JobCreate.mode b) "real" && negb (String.eqb (ProjectModel.project_type project) "python")
           then check_web project spec else Ok tt);
      _ ← raise_if (String.eqb (JobCreate.mode b) "demo" && negb (validate_demo_snapshot sn))
            (run_problem 422 "demo_boundary");
      Ok sn
  | (_, None) => Err (run_problem 422 "configuration_invalid")
  end.

Definition job_payload (sn : WorkflowResolvedSnapshot.t) : jobj := [("snapshot", model_dump sn)].
Definition job_digest (version : uuid) (sn : WorkflowResolvedSnapshot.t) : string :=
  sha256_digest (JObj [("version_id", JStr (uuid_str version)); ("snapshot", model_dump sn)]).

Definition actor_data (p : AuthPrincipal.t) : string * json := ("actor_id", JStr (uuid_str (AuthPrincipal.user_id p))).
(** The job, its run and their three events. *)
Definition insert_job (t : job_readings) (b : JobCreate.t) (project : uuid) (frozen : uuid) (p : AuthPrincipal.t)
    (w : mdb) : res registry_error (RunModel.t * mdb) :=
  let c := MissionTables.core w in
  if bool_decide (is_Some (jobs c !! jr_job t)) || bool_decide (is_Some (runs c !! jr_run t))
  then Err (ServerError "IntegrityError")
  else
    let run := fresh_run t b frozen in
    let message := [("role", JStr "user"); ("body", JStr (JobCreate.objective b)); actor_data p;
                    ("message_kind", JStr "objective")] in
    let c := put_run run (set_jobs (<[jr_job t := JobStatus.QUEUED]> (jobs c)) c) in
    let c := event run "run.queued" [actor_data p]
               (event run "message.created" message (event run "job.created" [actor_data p] c)) in
    Ok (run, set_job_rows (<[jr_job t := {| JobModel.project_id := project;
                                            JobModel.objective := JobCreate.objective b |}]> (job_rows w))
               (MissionTables.set_core c w)).

Definition create_job_fresh (t : job_readings) (project : ProjectModel.t) (b : JobCreate.t) (p : AuthPrincipal.t)
    (d : desk) : res registry_error (RunView.t * desk) :=
  match owned_version (JobCreate.workflow_version_id b) (AuthPrincipal.user_id p) (shelf d) with
  | None => Err missing
  | Some v =>
      sn ← job_configuration b project v d;
      frozen ← raised (freeze (jr_snapshot t) (JobCreate.workflow_version_id b) sn (job_payload sn)
                         (job_digest (JobCreate.workflow_version_id b) sn) (work d));
      made ← insert_job t b (ProjectModel.id project) frozen.1 p frozen.2;
      Ok (run_view made.1 (ProjectModel.id project), set_work made.2 d)
  end.
Definition job_scope (p : AuthPrincipal.t) (project : uuid) : string :=
  "enqueue:" +:+ uuid_str (AuthPrincipal.user_id p) +:+ ":" +:+ uuid_str project.
Definition create_job (t : job_readings) (project : uuid) (b : JobCreate.t) (p : AuthPrincipal.t) (d : desk)
    : res registry_error (RunView.t * desk) :=
  _ ← safe_strings (model_dump b);
  _ ← owner_access "run.forbidden" p;
  _ ← lock_desk d;
  row ← active_project project p d;
  answered_once (job_scope p project) (JobCreate.idempotency_key b) (sha256_digest (model_dump b))
    "run.idempotency_conflict" run_validate (create_job_fresh t row b p) d.

(** ** Commands *)

(** The run of a job in a project of the owner, with the project. *)
Definition owned_run_row (i : uuid) (p : AuthPrincipal.t) (d : desk) : option (RunModel.t * uuid) :=
  r ← runs (db_of d) !! i;
  j ← job_rows (work d) !! RunModel.job_id r;
  _ ← owned_project (JobModel.project_id j) p d;
  Some (r, JobModel.project_id j).

Definition command_key (c : RunCommandModel.t) (d : desk) : option CommandKey.t :=
  command_keys d !! RunCommandModel.id c.
Definition has_key (run : uuid) (key : string) (d : desk) (c : RunCommandModel.t) : bool :=
  bool_decide (RunCommandModel.run_id c = run)
  && match command_key c d with Some k => String.eqb (CommandKey.idempotency_key k) key | None => false end.
Definition receipt_of (c : RunCommandModel.t) (k : CommandKey.t) (duplicate : bool) : RunCommandReceipt.t := {|
  RunCommandReceipt.command_id := RunCommandModel.id c;
  RunCommandReceipt.run_id := RunCommandModel.run_id c;
  RunCommandReceipt.sequence := RunCommandModel.sequence c;
  RunCommandReceipt.status := RunCommandModel.status c;
  RunCommandReceipt.request_digest := CommandKey.request_digest k;
  RunCommandReceipt.duplicate := duplicate;
|}.

Inductive enqueue_error : Set := RunLookup | KeyReused | VersionChanged | Violation.
(** [CommandRepository.enqueue] *)
Definition enqueue (fresh : uuid) (q : RunCommandRequest.t) (d : desk)
    : res enqueue_error (RunCommandReceipt.t * desk) :=
  let run := RunCommandRequest.run_id q in
  match runs (db_of d) !! run with
  | None => Err RunLookup
  | Some r =>
      let k := CommandKey.Build_t (RunCommandRequest.idempotency_key q) (RunCommandRequest.request_digest q)
                 (RunCommandRequest.expected_run_version q) in
      match find (has_key run (RunCommandRequest.idempotency_key q) d) (commands (db_of d)) with
      | Some c =>
          match command_key c d with
          | Some old => if String.eqb (CommandKey.request_digest old) (CommandKey.request_digest k)
                        then Ok (receipt_of c old true, d) else Err KeyReused
          | None => Err Violation
          end
      | None =>
          if bool_decide (is_Some (RunCommandRequest.expected_run_version q))
             && negb (bool_decide (RunCommandRequest.expected_run_version q = Some (RunModel.version r)))
          then Err VersionChanged
          else
            let n := default 0 (next_command d !! run) + 1 in
            let c := {|
              RunCommandModel.id := fresh;
              RunCommandModel.run_id := run;
              RunCommandModel.sequence := n;
              RunCommandModel.kind := RunCommandRequest.kind q;
              RunCommandModel.status := CommandStatus.PENDING;
              RunCommandModel.payload_json := RunCommandRequest.payload q;
              RunCommandModel.applied_at := None;
            |} in
            if existsb (λ o, bool_decide (RunCommandModel.id o = fresh)
                             || bool_decide (RunCommandModel.run_id o = run) && Z.eqb (RunCommandModel.sequence o) n)
                 (commands (db_of d)) || bool_decide (is_Some (command_keys d !! fresh))
            then Err Violation
            else Ok (receipt_of c k false,
                     set_keys (<[fresh := k]> (command_keys d)) (<[run := n]> (next_command d))
                       (set_db (set_commands (commands (db_of d) ++ [c]) (db_of d)) d))
      end
  end.

Definition command_payload (instruction : option string) (p : AuthPrincipal.t) : jobj :=
  actor_data p :: match instruction with
                  | Some i => if String.eqb i "" then [] else [("instruction", JStr i)]
                  | None => []
                  end.
Definition requested_event (receipt : RunCommandReceipt.t) (kind : RunCommandKind.t) (p : AuthPrincipal.t) : jobj :=
  [("command_id", JStr (uuid_str (RunCommandReceipt.command_id receipt)));
   ("kind", JStr (RunCommandKind.value kind)); ("sequence", JInt (RunCommandReceipt.sequence receipt)); actor_data p].
(** The events of a new command; the instruction is a message of the user. *)
Definition record_command (b : RunControl.t) (receipt : RunCommandReceipt.t) (r : RunModel.t) (p : AuthPrincipal.t)
    (c : db) : db :=
  let c := match RunControl.instruction b with
           | Some i => event r "message.created"
                         [("role", JStr "user"); ("body", JStr i); actor_data p;
                          ("command_id", JStr (uuid_str (RunCommandReceipt.command_id receipt)));
                          ("message_kind", JStr "instruction")] c
           | None => c
           end in
  let r := RunModel.bump r in
  event r "run.command_requested" (requested_event receipt (RunControl.kind b) p) (put_run r c).
Definition control (fresh run_id : uuid) (b : RunControl.t) (p : AuthPrincipal.t) (d : desk)
    : res registry_error (RunCommandReceipt.t * desk) :=
  _ ← safe_strings (model_dump b);
  _ ← owner_access "run.forbidden" p;
  _ ← lock_desk d;
  match owned_run_row run_id p d with
  | None => Err missing
  | Some (r, _) =>
      match enqueue fresh (RunCommandRequest.Build_t run_id (RunControl.kind b) (RunControl.idempotency_key b)
                             (command_payload (RunControl.instruction b) p)
                             (Some (RunControl.expected_run_version b))) d with
      | Err KeyReused | Err VersionChanged => Err (run_problem 409 "command_conflict")
      | Err RunLookup => Err (ServerError "LookupError")
      | Err Violation => Err (ServerError "IntegrityError")
      | Ok (receipt, d) =>
          Ok (receipt,
              if RunCommandReceipt.duplicate receipt then d
              else set_db (record_command b receipt r p (db_of d)) d)
      end
  end.

(** ** [request_reconciliation] *)

(** The statuses of an effect whose outcome is open. *)
Definition inspectable : list EffectStatus.t :=
  [EffectStatus.DISPATCHED; EffectStatus.RUNNING; EffectStatus.CANCEL_REQUESTED; EffectStatus.UNKNOWN].
(** The run is queued again and marked as recovering. *)
Definition requeued_run (now : Z) (r : RunModel.t) : RunModel.t :=
  RunModel.with_runtime (dict_set "recovering" (JBool true) (RunModel.runtime_json r))
    (RunModel.with_claimable now (RunModel.with_status RunStatus.QUEUED r)).
Definition reconciliation_fresh (now : Z) (r : RunModel.t) (b : RunReconciliationRequest.t) (p : AuthPrincipal.t)
    (d : desk) : res registry_error (RunReconciliationReceipt.t * desk) :=
  if negb (Z.eqb (RunModel.version r) (RunReconciliationRequest.expected_run_version b))
  then Err (run_problem 409 "version_conflict")
  else
    match effects (db_of d) !! RunReconciliationRequest.effect_id b with
    | None => Err missing
    | Some e =>
        if negb (bool_decide (EffectModel.run_id e = RunModel.id r)) then Err missing
        else if negb (bool_decide (EffectModel.status e ∈ inspectable))
        then Err (run_problem 409 "reconciliation_not_required")
        else
          let queued := bool_decide (RunModel.status r = RunStatus.BLOCKED) in
          let c := db_of d in
          let c := if queued then set_jobs (<[RunModel.job_id r := JobStatus.QUEUED]> (jobs c)) c else c in
          let r := RunModel.bump (if queued then requeued_run now r else r) in
          let data := [("effect_id", JStr (uuid_str (EffectModel.id e)));
                       ("effect_status", JStr (EffectStatus.value (EffectModel.status e)));
                       ("external_identity_present", JBool (bool_decide (is_Some (EffectModel.external_id e))));
                       actor_data p; ("queued_for_inspection", JBool queued)] in
          Ok (RunReconciliationReceipt.Build_t (RunModel.id r) (EffectModel.id e) (EffectModel.status e) queued false,
              set_db (event r "effect.reconciliation_requested" data (put_run r c)) d)
    end.
(** A repeated request is marked as a duplicate. *)
Definition request_reconciliation (now : Z) (run_id : uuid) (b : RunReconciliationRequest.t) (p : AuthPrincipal.t)
    (d : desk) : res registry_error (RunReconciliationReceipt.t * desk) :=
  _ ← owner_access "run.forbidden" p;
  _ ← lock_desk d;
  match owned_run_row run_id p d with
  | None => Err missing
  | Some (r, _) =>
      answered_once ("run:reconciliation:" +:+ uuid_str run_id) (RunReconciliationRequest.idempotency_key b)
        (sha256_digest (model_dump b)) "run.reconciliation_conflict"
        (λ j, RunReconciliationReceipt.repeated <$> reconciliation_validate j) (reconciliation_fresh now r b p) d
  end.

(** ** [submit_demo_decision] *)

(** [run.runtime_json.get("demo_decision", {})] *)
Definition demo_decision (r : RunModel.t) : res registry_error jobj :=
  match dict_get "demo_decision" (RunModel.runtime_json r) with
  | None => Ok []
  | Some (JObj o) => Ok o
  | Some _ => Err (ServerError "AttributeError")
  end.
Definition demo_stale (r : RunModel.t) (b : DemoDecision.t) (decision : jobj) (c : db) : bool :=
  negb (bool_decide (RunModel.status r = RunStatus.APPROVAL_REQUIRED))
  || negb (bool_decide (RunModel.desired_state r = DesiredRunState.RUNNING))
  || negb (Z.eqb (RunModel.version r) (DemoDecision.expected_run_version b))
  || negb (py_eq (default JNull (dict_get "id" decision)) (JStr (DemoDecision.decision_id b)))
  || negb (py_eq (default JNull (dict_get "decision" decision)) (JStr "pending"))
  || has_pending_command (RunModel.id r) c.
Definition demo_decided (now : Z) (b : DemoDecision.t) (p : AuthPrincipal.t) (decision : jobj) (r : RunModel.t)
    : RunModel.t :=
  RunModel.bump (RunModel.with_claimable now (RunModel.with_status RunStatus.QUEUED
    (RunModel.with_runtime
       (dict_set "demo_decision"
          (JObj (dict_update (dict_update decision [("decision", JStr (DemoDecision.decision b))]) [actor_data p]))
          (RunModel.runtime_json r)) r))).
Definition demo_fresh (now : Z) (r : RunModel.t) (b : DemoDecision.t) (p : AuthPrincipal.t) (d : desk)
    : res registry_error (DemoDecisionView.t * desk) :=
  decision ← demo_decision r;
  if demo_stale r b decision (db_of d) then Err (Problem 409 "demo.conflict")
  else
    let r := demo_decided now b p decision r in
    let data := [("decision", JStr (DemoDecision.decision b)); ("decision_id", JStr (DemoDecision.decision_id b));
                 actor_data p; ("summary", JStr "DEMO decision only")] in
    Ok (DemoDecisionView.Build_t (DemoDecision.decision_id b) (DemoDecision.decision b),
        set_db (event r "approval.decided" data (put_run r (db_of d))) d).
Definition submit_demo_decision (now : Z) (run_id : uuid) (b : DemoDecision.t) (p : AuthPrincipal.t) (d : desk)
    : res registry_error (DemoDecisionView.t * desk) :=
  _ ← owner_access "run.forbidden" p;
  _ ← lock_desk d;
  match owned_run_row run_id p d with
  | None => Err missing
  | Some (r, _) =>
      if negb (String.eqb (RunModel.mode r) "demo") then Err missing
      else
        answered_once ("demo-decision:" +:+ uuid_str (AuthPrincipal.user_id p) +:+ ":" +:+ uuid_str run_id)
          (DemoDecision.idempotency_key b) (sha256_digest (model_dump b)) "demo.conflict" decision_validate
          (demo_fresh now r b p) d
  end.

(** ** [control_mission] of [missions.py] *)

(** The mission of a project of the owner, with its selected team. *)
Definition owned_mission (i : uuid) (p : AuthPrincipal.t) (d : desk) : option MissionModel.t :=
  m ← missions (work d) !! i;
  _ ← owned_project (MissionModel.project_id m) p d;
  _ ← teams (work d) !! MissionModel.selected_team_version_id m;
  Some m.

(** The key of the control that a request names. *)
Definition control_key (scope : ControlScope.t) (m : MissionModel.t) : string :=
  match scope with
  | ControlScope.global => "global"
  | ControlScope.team => "team:" +:+ uuid_str (MissionModel.selected_team_version_id m)
  | ControlScope.mission => "mission:" +:+ uuid_str (MissionModel.id m)
  end.
Definition controlled (b : MissionControlRequest.t) (c : MissionAdmissionControlModel.t)
    : MissionAdmissionControlModel.t := {|
  MissionAdmissionControlModel.scope := MissionAdmissionControlModel.scope c;
  MissionAdmissionControlModel.scope_key := MissionAdmissionControlModel.scope_key c;
  MissionAdmissionControlModel.state :=
    match MissionControlRequest.action b with
    | ControlAction.safe_point => MissionAdmissionControlModel.state c
    | ControlAction.pause => ControlState.paused
    | ControlAction.resume => ControlState.open
    | ControlAction.drain => ControlState.draining
    | ControlAction.cancel => ControlState.cancelling
    end;
  MissionAdmissionControlModel.safe_point_instruction :=
    match MissionControlRequest.action b with
    | ControlAction.safe_point => MissionControlRequest.instruction b
    | _ => MissionAdmissionControlModel.safe_point_instruction c
    end;
  MissionAdmissionControlModel.resource_limits_json :=
    match MissionControlRequest.limits b with
    | Some l => limits_dump l
    | None => MissionAdmissionControlModel.resource_limits_json c
    end;
  MissionAdmissionControlModel.version := MissionAdmissionControlModel.version c + 1;
|}.
Definition put_control (c : MissionAdmissionControlModel.t) (w : mdb) : mdb :=
  set_controls ((λ o, if String.eqb (MissionAdmissionControlModel.scope_key o)
                           (MissionAdmissionControlModel.scope_key c) then c else o) <$> controls w) w.

(** A run of a started item of the mission that is not over. *)
Definition active_run (mission : uuid) (w : mdb) : option RunModel.t :=
  head (select_rows (λ r,
    negb (bool_decide (RunModel.status r ∈ [RunStatus.COMPLETED; RunStatus.FAILED; RunStatus.BLOCKED;
                                            RunStatus.CANCELLED]))
    && existsb (λ i, bool_decide (MissionWorkItemModel.mission_id i = mission)
                     && bool_decide (MissionWorkItemModel.lifecycle i = WorkItemLifecycle.started)
                     && bool_decide (MissionWorkItemModel.run_id i = Some (RunModel.id r)))
         (snd <$> map_to_list (items w))) (runs (MissionTables.core w))).
Definition command_kind (a : ControlAction.t) : option RunCommandKind.t :=
  match a with
  | ControlAction.pause => Some RunCommandKind.PAUSE
  | ControlAction.resume => Some RunCommandKind.RESUME
  | ControlAction.cancel => Some RunCommandKind.CANCEL
  | ControlAction.safe_point => Some RunCommandKind.INSTRUCTION
  | ControlAction.drain => None
  end.
(** The command to the active run; its request is validated when it is built, and its
errors are not caught. *)
Definition mission_request (b : MissionControlRequest.t) (kind : RunCommandKind.t) (p : AuthPrincipal.t)
    (r : RunModel.t) : RunCommandRequest.t := {|
  RunCommandRequest.run_id := RunModel.id r;
  RunCommandRequest.kind := kind;
  RunCommandRequest.idempotency_key := "mission-control:" +:+ MissionControlRequest.idempotency_key b;
  RunCommandRequest.payload := command_payload (MissionControlRequest.instruction b) p;
  RunCommandRequest.expected_run_version := Some (RunModel.version r);
|}.
Definition enqueue_problem (e : enqueue_error) : registry_error :=
  ServerError (match e with
               | RunLookup => "LookupError"
               | KeyReused => "IdempotencyConflictError"
               | VersionChanged => "OptimisticConcurrencyConflictError"
               | Violation => "IntegrityError"
               end).
Definition command_run (fresh : uuid) (b : MissionControlRequest.t) (kind : RunCommandKind.t) (p : AuthPrincipal.t)
    (r : RunModel.t) (d : desk) : res registry_error desk :=
  let q := mission_request b kind p r in
  if negb (RunCommandRequest.valid q) then Err WorkflowStudio.validation_error
  else
    match enqueue fresh q d with
    | Err e => Err (enqueue_problem e)
    | Ok (receipt, d) =>
        Ok (if RunCommandReceipt.duplicate receipt then d
            else
              let r := RunModel.bump r in
              set_db (event r "run.command_requested" (requested_event receipt kind p) (put_run r (db_of d))) d)
    end.
Definition command_active (fresh : uuid) (b : MissionControlRequest.t) (p : AuthPrincipal.t)
    (active : option RunModel.t) (d : desk) : res registry_error desk :=
  match active, command_kind (MissionControlRequest.action b) with
  | Some r, Some kind => command_run fresh b kind p r d
  | _, _ => Ok d
  end.

Definition mission_limits (b : MissionControlRequest.t) (m : MissionModel.t) : MissionModel.t :=
  match MissionControlRequest.limits b with
  | Some l => if bool_decide (MissionControlRequest.scope b = ControlScope.mission)
              then MissionModel.with_limits (limits_dump l) m else m
  | None => m
  end.
Definition mission_directed (b : MissionControlRequest.t) (active : bool) (m : MissionModel.t) : MissionModel.t :=
  if bool_decide (MissionControlRequest.scope b = ControlScope.mission) then
    match MissionControlRequest.action b with
    | ControlAction.pause => MissionModel.with_state MissionLifecycle.paused (Some "admission_paused") m
    | ControlAction.resume => MissionModel.with_state MissionLifecycle.active None m
    | ControlAction.cancel =>
        if active then MissionModel.with_state MissionLifecycle.cancelling (Some "cancellation_requested") m
        else MissionModel.with_state MissionLifecycle.cancelled None m
    | ControlAction.drain =>
        MissionModel.with_next (Some "Wait for active work to reach a terminal safe point")
          (Some "Mission admission is draining") m
    | ControlAction.safe_point => m
    end
  else m.
Definition control_view (b : MissionControlRequest.t) (c : MissionAdmissionControlModel.t)
    : res registry_error MissionControlView.t :=
  match limits_validate (MissionAdmissionControlModel.resource_limits_json c) with
  | Some l => Ok {|
      MissionControlView.scope := MissionControlRequest.scope b;
      MissionControlView.state := MissionAdmissionControlModel.state c;
      MissionControlView.instruction := MissionAdmissionControlModel.safe_point_instruction c;
      MissionControlView.limits := l;
      MissionControlView.version := MissionAdmissionControlModel.version c |}
  | None => Err WorkflowStudio.validation_error
  end.

(** [now] is the time of the transaction. *)
Definition control_mission_fresh (fresh : uuid) (now : Z) (m : MissionModel.t) (b : MissionControlRequest.t)
    (p : AuthPrincipal.t) (d : desk) : res registry_error (MissionControlView.t * desk) :=
  if negb (Z.eqb (MissionModel.version m) (MissionControlRequest.expected_version b))
  then Err (Problem 409 "mission.version_conflict")
  else
    w ← raised (ensure_controls m (work d));
    match control_at (control_key (MissionControlRequest.scope b) m) w with
    | None => Err (ServerError "AssertionError")
    | Some c =>
        let c := controlled b c in
        let active := active_run (MissionModel.id m) w in
        d ← command_active fresh b p active (set_work (put_control c w) d);
        let m := MissionModel.bump (mission_directed b (bool_decide (is_Some active)) (mission_limits b m)) in
        w ← raised (put_mission now m (work d));
        w ← raised (MissionTables.emit_ "mission.control_changed"
                      [("scope", JStr (ControlScope.value (MissionControlRequest.scope b)));
                       ("action", JStr (ControlAction.value (MissionControlRequest.action b)));
                       ("state", JStr (ControlState.value (MissionAdmissionControlModel.state c)))] w);
        v ← control_view b c;
        Ok (v, set_work w d)
    end.
Definition control_mission (fresh : uuid) (now : Z) (mission : uuid) (b : MissionControlRequest.t)
    (p : AuthPrincipal.t) (d : desk) : res registry_error (MissionControlView.t * desk) :=
  _ ← owner_access "mission.forbidden" p;
  _ ← lock_desk d;
  match owned_mission mission p d with
  | None => Err (Problem 404 "mission.not_found")
  | Some m =>
      answered_once ("mission:control:" +:+ uuid_str mission) (MissionControlRequest.idempotency_key b)
        (sha256_digest (model_dump b)) "mission.idempotency_conflict" mission_control_validate
        (control_mission_fresh fresh now m b p) d
  end.

(** ** Queries *)

Definition get_run (run_id : uuid) (p : AuthPrincipal.t) (d : desk) : res registry_error RunView.t :=
  _ ← owner_access "run.forbidden" p;
  match owned_run_row run_id p d with
  | Some (r, project) => Ok (run_view r project)
  | None => Err missing
  end.
Definition list_projects (p : AuthPrincipal.t) (after : option uuid) (limit : nat) (d : desk)
    : res registry_error (list ProjectView.t * option uuid) :=
  _ ← owner_access "run.forbidden" p;
  let owned r := bool_decide (ProjectModel.owner_user_id r = AuthPrincipal.user_id p) in
  let found := page ProjectModel.id after limit (List.filter owned (map_to_list (projects d)).*2) in
  Ok (project_view <$> found.1, found.2).
Definition list_runs (p : AuthPrincipal.t) (after : option uuid) (limit : nat) (d : desk)
    : res registry_error (list RunView.t * option uuid) :=
  _ ← owner_access "run.forbidden" p;
  let owned := omap (λ i, owned_run_row i p d) (map_to_list (runs (db_of d))).*1 in
  let found := page (λ rp, RunModel.id rp.1) after limit owned in
  Ok ((λ rp, run_view rp.1 rp.2) <$> found.1, found.2).
Definition owned_job (i : uuid) (p : AuthPrincipal.t) (d : desk) : option JobView.t :=
  j ← job_rows (work d) !! i;
  s ← jobs (db_of d) !! i;
  _ ← owned_project (JobModel.project_id j) p d;
  Some (JobView.Build_t i (JobModel.project_id j) (JobModel.objective j) s).
Definition get_job (i : uuid) (p : AuthPrincipal.t) (d : desk) : res registry_error JobView.t :=
  _ ← owner_access "run.forbidden" p;
  match owned_job i p d with Some j => Ok j | None => Err missing end.
Definition list_jobs (p : AuthPrincipal.t) (after : option uuid) (limit : nat) (d : desk)
    : res registry_error (list JobView.t * option uuid) :=
  _ ← owner_access "run.forbidden" p;
  Ok (page JobView.id after limit (omap (λ i, owned_job i p d) (map_to_list (job_rows (work d))).*1)).
(** The commands of a run behind a sequence number, with the number of the next page. *)
Definition get_commands (run_id : uuid) (p : AuthPrincipal.t) (after : Z) (limit : nat) (d : desk)
    : res registry_error (list RunCommandModel.t * option Z) :=
  _ ← get_run run_id p d;
  let behind c := bool_decide (RunCommandModel.run_id c = run_id) && Z.ltb after (RunCommandModel.sequence c) in
  let found := take (S limit) (sorted_key RunCommandModel.sequence (List.filter behind (commands (db_of d)))) in
  Ok (take limit found,
      if Nat.ltb limit (List.length found) then RunCommandModel.sequence <$> found !! (limit - 1)%nat else None).
End api.

(** ** What requests leave behind *)

(** Records of answered requests stay. *)
Definition records_kept (l l' : list IdempotencyRecordModel.t) : Prop :=
  ∀ scope key r, find (record_is scope key) l = Some r → find (record_is scope key) l' = Some r.
#[export] Instance records_kept_preorder : PreOrder records_kept.
Proof. split; [by intros ????|]. intros l1 l2 l3 H1 H2 scope key r Hr. by apply H2, H1. Qed.

(** What identifies a command; its status and date of application may change. *)
Record command_identity := {
  ci_id : uuid;
  ci_run : uuid;
  ci_sequence : Z;
  ci_kind : RunCommandKind.t;
  ci_payload : jobj;
}.
Definition identity_of (c : RunCommandModel.t) : command_identity := {|
  ci_id := RunCommandModel.id c;
  ci_run := RunCommandModel.run_id c;
  ci_sequence := RunCommandModel.sequence c;
  ci_kind := RunCommandModel.kind c;
  ci_payload := RunCommandModel.payload_json c;
|}.
Definition issued (c : db) : list command_identity := identity_of <$> commands c.

Section system.
Context `{PyRuntime} `{ConfigModel} `{SpecModel} `{SetOrder} `{PyStr} `{StudioModel} `{DeskModel}
  `{ModelDump WorkflowNode.t} `{ModelDump RawNode.t} `{ModelDump WorkflowEdge.t} `{ModelDump NodePolicy.t}
  `{RegistrySpecModel} `{ModelDump RegistrySpec} `{ModelDump WorkflowResolvedRevision.t}
  `{ModelDump WorkflowResolvedSnapshot.t} `{ModelDump WorkflowLayout.t}
  `{ModelDump ProjectCreate.t} `{ModelDump ProjectView.t} `{ModelDump DemoFixture.t} `{ModelDump JobCreate.t}
  `{ModelDump RunView.t} `{ModelDump RunControl.t} `{ModelDump RunReconciliationRequest.t}
  `{ModelDump RunReconciliationReceipt.t} `{ModelDump DemoDecision.t} `{ModelDump DemoDecisionView.t}
  `{LimitsModel} `{RowOrder} `{ModelDump MissionControlRequest.t} `{ModelDump MissionControlView.t}.

(** The requests of this file, those of the registry and the workflow service, and the
transactions of the orchestrator and of the other mission requests, which apply commands
but never add one: [control] and [control_mission] are the only callers of [enqueue]. *)
Inductive desk_step : desk → desk → Prop :=
  | ds_project fresh b p v d d' : create_project fresh b p d = Ok (v, d') → desk_step d d'
  | ds_job t project b p v d d' : create_job t project b p d = Ok (v, d') → desk_step d d'
  | ds_control fresh run b p v d d' : control fresh run b p d = Ok (v, d') → desk_step d d'
  | ds_reconcile now run b p v d d' : request_reconciliation now run b p d = Ok (v, d') → desk_step d d'
  | ds_decide now run b p v d d' : submit_demo_decision now run b p d = Ok (v, d') → desk_step d d'
  | ds_mission fresh now mission b p v d d' :
      control_mission fresh now mission b p d = Ok (v, d') → desk_step d d'
  | ds_shelf s d : records_kept (desk_records d) (records (base s)) → desk_step d (set_shelf s d)
  | ds_work w d : issued (MissionTables.core w) = issued (db_of d) → desk_step d (set_work w d).

(** ** Frames *)

(** A request that adds no command. *)
Record quiet (d d' : desk) : Prop := {
  q_issued : issued (db_of d') = issued (db_of d);
  q_keys : command_keys d' = command_keys d;
  q_next : next_command d' = next_command d;
}.
#[local] Instance quiet_preorder : PreOrder quiet.
Proof. split; [by intros d|]. intros d1 d2 d3 [A1 B1 C1] [A2 B2 C2]. split; congruence. Qed.

Lemma emit_core name data w w' :
  MissionTables.emit_ name data w = Ok w' → issued (MissionTables.core w') = issued (MissionTables.core w).
Proof.
  intros ([n w1] & He & [= <-])%res_bind_ok. revert He. unfold MissionTables.emit.
  destruct (migrated _); [|done]. by intros [= _ <-].
Qed.
Lemma freeze_core fresh version o payload digest w i w' :
  freeze fresh version o payload digest w = Ok (i, w') → MissionTables.core w' = MissionTables.core w.
Proof. unfold freeze. destruct (find _ _); [by intros [= _ <-]|]. destruct (existsb _ _); [done|]. by intros [= _ <-]. Qed.

(** Answering a request once: the records, and what the request itself did. *)
Lemma answered_once_ok {A} `{ModelDump A} scope key digest conflict parse work d (a : A) d' :
  answered_once scope key digest conflict parse work d = Ok (a, d') →
  (∃ r, find (record_is scope key) (desk_records d) = Some r ∧ d' = d
        ∧ parse (default JNull (IdempotencyRecordModel.response_json r)) = Some a)
  ∨ (∃ begun e, begin_record scope key digest (desk_records d) = Approvals.Fresh begun
       ∧ work (set_desk_records begun d) = Ok (a, e)
       ∧ d' = set_desk_records (complete_record scope key (model_dump a) (desk_records e)) e).
Proof.
  unfold answered_once. destruct (begin_record _ _ _ _) as [begun|r|] eqn:Hb; [|..|done].
  - intros ([a' e] & He & [= -> <-])%res_bind_ok. right. by exists begun, e.
  - destruct (parse _) as [a'|] eqn:Hp; [|done]. intros [= -> <-]. left. exists r. split; [|done].
    unfold begin_record in Hb. destruct (find _ _) as [r'|]; [|done]. destruct (String.eqb _ _); [|done].
    by injection Hb as <-.
Qed.
Lemma answered_once_kept {A} `{ModelDump A} scope key digest conflict parse work d (a : A) d' :
  answered_once scope key digest conflict parse work d = Ok (a, d') →
  (∀ e e' a, work e = Ok (a, e') → shelf e' = shelf e) → records_kept (desk_records d) (desk_records d').
Proof.
  intros [(r & _ & -> & _)|(begun & e & Hb & He & ->)]%answered_once_ok Hwork; [done|].
  intros s k r Hr. apply Hwork in He. unfold desk_records at 1. simpl. unfold desk_records. rewrite He.
  by eapply find_complete.
Qed.
Lemma answered_once_quiet {A} `{ModelDump A} scope key digest conflict parse work d (a : A) d' :
  answered_once scope key digest conflict parse work d = Ok (a, d') →
  (∀ e e' a, work e = Ok (a, e') → quiet e e') → quiet d d'.
Proof.
  intros [(r & _ & -> & _)|(begun & e & Hb & He & ->)]%answered_once_ok Hwork; [done|].
  apply Hwork in He as [? ? ?]. by split.
Qed.

Lemma create_project_fresh_frame fresh b p d v d' :
  create_project_fresh fresh b p d = Ok (v, d') → quiet d d' ∧ shelf d' = shelf d.
Proof.
  unfold create_project_fresh. destruct (existsb _ _); [done|]. destruct (negb _); [done|].
  destruct (bool_decide _); [done|]. intros (w & Hw & [= _ <-])%res_bind_ok. split; [|done]. split; try done.
  unfold raised in Hw. destruct (MissionTables.emit_ _ _ _) as [w'|[]] eqn:He; try done. injection Hw as ->.
  by apply emit_core in He.
Qed.
Lemma insert_job_ok t b project frozen p w r w' :
  insert_job t b project frozen p w = Ok (r, w') →
  r = fresh_run t b frozen ∧ runs (MissionTables.core w) !! RunModel.id r = None
  ∧ runs (MissionTables.core w') = <[RunModel.id r := r]> (runs (MissionTables.core w))
  ∧ job_rows w' = <[RunModel.job_id r := JobModel.Build_t project (JobCreate.objective b)]> (job_rows w)
  ∧ jobs (MissionTables.core w') = <[RunModel.job_id r := JobStatus.QUEUED]> (jobs (MissionTables.core w))
  ∧ issued (MissionTables.core w') = issued (MissionTables.core w)
  ∧ MissionTables.snapshots w' = MissionTables.snapshots w.
Proof.
  unfold insert_job. destruct (_ || _) eqn:Hfresh; [done|]. intros [= <- <-].
  apply orb_false_iff in Hfresh as [_ Hfresh%bool_decide_eq_false]. rewrite <-eq_None_not_Some in Hfresh. done.
Qed.
Lemma create_job_fresh_ok t row b p d v d' :
  create_job_fresh t row b p d = Ok (v, d') →
  ∃ ver sn frozen w w', owned_version (JobCreate.workflow_version_id b) (AuthPrincipal.user_id p) (shelf d) = Some ver
    ∧ job_configuration b row ver d = Ok sn
    ∧ freeze (jr_snapshot t) (JobCreate.workflow_version_id b) sn (job_payload sn)
        (job_digest (JobCreate.workflow_version_id b) sn) (work d) = Ok (frozen, w)
    ∧ insert_job t b (ProjectModel.id row) frozen p w = Ok (fresh_run t b frozen, w')
    ∧ v = run_view (fresh_run t b frozen) (ProjectModel.id row) ∧ d' = set_work w' d.
Proof.
  unfold create_job_fresh. destruct (owned_version _ _ _) as [ver|]; [|done].
  intros (sn & Hc & ([frozen w] & Hf & ([r w'] & Hi & [= <- <-])%res_bind_ok)%res_bind_ok)%res_bind_ok.
  unfold raised in Hf. destruct (freeze _ _ _ _ _ _) as [fw|[]] eqn:He; try done. injection Hf as ->.
  simpl in Hi. destruct (insert_job_ok _ _ _ _ _ _ _ _ Hi) as [-> _]. by exists ver, sn, frozen, w, w'.
Qed.
Lemma create_job_fresh_frame t row b p d v d' :
  create_job_fresh t row b p d = Ok (v, d') → quiet d d' ∧ shelf d' = shelf d.
Proof.
  intros (ver & sn & frozen & w & w' & _ & _ & Hf & Hi & _ & ->)%create_job_fresh_ok. split; [|done].
  destruct (insert_job_ok _ _ _ _ _ _ _ _ Hi) as (_ & _ & _ & _ & _ & Hc & _). apply freeze_core in Hf.
  split; try done. unfold db_of. simpl. by rewrite Hc, Hf.
Qed.
Lemma reconciliation_fresh_frame now r b p d v d' :
  reconciliation_fresh now r b p d = Ok (v, d') → quiet d d' ∧ shelf d' = shelf d.
Proof.
  unfold reconciliation_fresh. destruct (negb _); [done|]. destruct (effects _ !! _) as [e|]; [|done].
  destruct (negb _); [done|]. destruct (negb _); [done|]. intros [= _ <-]. split; [|done]. split; try done.
  unfold db_of. simpl. by destruct (bool_decide _).
Qed.
Lemma demo_fresh_frame now r b p d v d' :
  demo_fresh now r b p d = Ok (v, d') → quiet d d' ∧ shelf d' = shelf d.
Proof.
  unfold demo_fresh. intros (decision & _ & Hd)%res_bind_ok. destruct (demo_stale _ _ _ _); [done|].
  by injection Hd as _ <-.
Qed.

(** What a request that keeps its response does to the records and the commands. *)
Definition answers (d d' : desk) : Prop := records_kept (desk_records d) (desk_records d') ∧ quiet d d'.
Lemma answered_once_answers {A} `{ModelDump A} scope key digest conflict parse work d (a : A) d' :
  answered_once scope key digest conflict parse work d = Ok (a, d') →
  (∀ e a e', work e = Ok (a, e') → quiet e e' ∧ shelf e' = shelf e) → answers d d'.
Proof.
  intros Ha Hwork. split.
  - eapply answered_once_kept; [exact Ha|]. intros e e' a' He. by apply Hwork in He as [_ ?].
  - eapply answered_once_quiet; [exact Ha|]. intros e e' a' He. by apply Hwork in He as [? _].
Qed.
Lemma create_project_answers fresh b p d v d' : create_project fresh b p d = Ok (v, d') → answers d d'.
Proof.
  intros (? & _ & (? & _ & (? & _ & Ha)%res_bind_ok)%res_bind_ok)%res_bind_ok.
  eapply answered_once_answers; [exact Ha|]. apply create_project_fresh_frame.
Qed.
Lemma create_job_answers t project b p d v d' : create_job t project b p d = Ok (v, d') → answers d d'.
Proof.
  intros (? & _ & (? & _ & (? & _ & (row & _ & Ha)%res_bind_ok)%res_bind_ok)%res_bind_ok)%res_bind_ok.
  eapply answered_once_answers; [exact Ha|]. apply create_job_fresh_frame.
Qed.
Lemma reconciliation_answers now run b p d v d' :
  request_reconciliation now run b p d = Ok (v, d') → answers d d'.
Proof.
  intros (? & _ & (? & _ & Ha)%res_bind_ok)%res_bind_ok. destruct (owned_run_row _ _ _) as [[r i]|]; [|done].
  eapply answered_once_answers; [exact Ha|]. apply reconciliation_fresh_frame.
Qed.
Lemma demo_answers now run b p d v d' : submit_demo_decision now run b p d = Ok (v, d') → answers d d'.
Proof.
  intros (? & _ & (? & _ & Ha)%res_bind_ok)%res_bind_ok. destruct (owned_run_row _ _ _) as [[r i]|]; [|done].
  destruct (negb _); [done|]. eapply answered_once_answers; [exact Ha|]. apply demo_fresh_frame.
Qed.

(** ** Commands *)

Record commands_ok (d : desk) : Prop := {
  co_ids : NoDup (ci_id <$> issued (db_of d));
  co_next : ∀ run, 0 ≤ default 0 (next_command d !! run);
  co_bounds : ∀ c, c ∈ issued (db_of d) → 1 ≤ ci_sequence c ≤ default 0 (next_command d !! ci_run c);
  co_dense : ∀ run n, 1 ≤ n ≤ default 0 (next_command d !! run) →
    ∃ c, c ∈ issued (db_of d) ∧ ci_run c = run ∧ ci_sequence c = n;
  co_numbers : ∀ c c', c ∈ issued (db_of d) → c' ∈ issued (db_of d) →
    ci_run c = ci_run c' → ci_sequence c = ci_sequence c' → c = c';
  co_keyed : ∀ i, (∃ c, c ∈ issued (db_of d) ∧ ci_id c = i) ↔ is_Some (command_keys d !! i);
  co_keys : ∀ c c' k k', c ∈ issued (db_of d) → c' ∈ issued (db_of d) → ci_run c = ci_run c' →
    command_keys d !! ci_id c = Some k → command_keys d !! ci_id c' = Some k' →
    CommandKey.idempotency_key k = CommandKey.idempotency_key k' → c = c';
}.
Lemma quiet_commands_ok d d' : quiet d d' → commands_ok d → commands_ok d'.
Proof. intros [HI HK HN] [? ? ? ? ? ? ?]. by split; rewrite ?HI, ?HK, ?HN. Qed.

(** What [enqueue] does: it repeats a receipt, or adds the next command. *)
Record added (fresh : uuid) (q : RunCommandRequest.t) (d d' : desk) : Prop := {
  ad_work : issued (db_of d') = issued (db_of d) ++ [{|
    ci_id := fresh; ci_run := RunCommandRequest.run_id q;
    ci_sequence := default 0 (next_command d !! RunCommandRequest.run_id q) + 1;
    ci_kind := RunCommandRequest.kind q; ci_payload := RunCommandRequest.payload q |}];
  ad_keys : command_keys d' = <[fresh := CommandKey.Build_t (RunCommandRequest.idempotency_key q)
    (RunCommandRequest.request_digest q) (RunCommandRequest.expected_run_version q)]> (command_keys d);
  ad_next : next_command d' = <[RunCommandRequest.run_id q
    := default 0 (next_command d !! RunCommandRequest.run_id q) + 1]> (next_command d);
  ad_shelf : shelf d' = shelf d;
  ad_fresh : command_keys d !! fresh = None;
  ad_unused : ∀ c k, c ∈ issued (db_of d) → ci_run c = RunCommandRequest.run_id q →
    command_keys d !! ci_id c = Some k → CommandKey.idempotency_key k ≠ RunCommandRequest.idempotency_key q;
}.
Lemma issued_in c c0 : c ∈ issued c0 ↔ ∃ r, r ∈ commands c0 ∧ c = identity_of r.
Proof. unfold issued. rewrite list_elem_of_fmap. naive_solver. Qed.
Lemma enqueue_ok fresh q d receipt d' :
  enqueue fresh q d = Ok (receipt, d') →
  (RunCommandReceipt.duplicate receipt = true ∧ d' = d)
  ∨ (RunCommandReceipt.duplicate receipt = false ∧ added fresh q d d'
     ∧ RunCommandReceipt.command_id receipt = fresh
     ∧ RunCommandReceipt.sequence receipt = default 0 (next_command d' !! RunCommandRequest.run_id q)).
Proof.
  unfold enqueue. destruct (runs _ !! _) as [r|]; [|done]. destruct (find _ _) as [c|] eqn:Hf.
  { destruct (command_key c d); [|done]. destruct (String.eqb _ _); [|done]. intros [= <- <-]. by left. }
  destruct (_ && _); [done|]. destruct (_ || _) eqn:Hviol; [done|]. intros [= <- <-]. right.
  apply orb_false_iff in Hviol as [_ Hkey%bool_decide_eq_false]. rewrite <-eq_None_not_Some in Hkey.
  split; [done|]. split; [split; try done|].
  - unfold db_of, issued. simpl. by rewrite fmap_app.
  - intros c k (o & Ho & ->)%issued_in Hrun Hk He.
    pose proof (find_none _ _ Hf o ltac:(by apply list_elem_of_In)) as Hno. unfold has_key, command_key in Hno.
    simpl in Hrun, Hk. rewrite bool_decide_true, Hk, He, String.eqb_refl in Hno by done. done.
  - split; [done|]. simpl. by rewrite lookup_insert_eq.
Qed.

Lemma added_commands_ok fresh q d d' : added fresh q d d' → commands_ok d → commands_ok d'.
Proof.
  intros [HI HK HN _ Hfresh Hunused] [Hids Hpos Hb Hd Hn Hk Hu].
  set (run := RunCommandRequest.run_id q) in *. set (n := default 0 (next_command d !! run)) in *.
  set (new := Build_command_identity _ _ _ _ _) in HI.
  assert (∀ c, c ∈ issued (db_of d) → ci_id c ≠ fresh) as Hne.
  { intros c Hc He. assert (is_Some (command_keys d !! fresh)) as [k Hk'] by (apply Hk; by exists c). congruence. }
  assert (∀ j, default 0 (next_command d' !! j) = if decide (j = run) then n + 1 else default 0 (next_command d !! j))
    as Hnext.
  { intros j. rewrite HN. destruct (decide (j = run)) as [->|]; [by rewrite lookup_insert_eq|].
    by rewrite lookup_insert_ne. }
  assert (∀ c, c ∈ issued (db_of d') ↔ c ∈ issued (db_of d) ∨ c = new) as Hin.
  { intros c. rewrite HI. set_solver. }
  assert (∀ c, c ∈ issued (db_of d) → ¬ (ci_run c = run ∧ ci_sequence c = n + 1)) as Hold.
  { intros c Hc [Hr Hs]. specialize (Hb c Hc). rewrite Hr in Hb. fold n in Hb. lia. }
  assert (∀ c, c ∈ issued (db_of d) → command_keys d' !! ci_id c = command_keys d !! ci_id c) as Hsame.
  { intros c Hc. rewrite HK, lookup_insert_ne; [done|]. by apply not_eq_sym, Hne. }
  assert (command_keys d' !! ci_id new = Some (CommandKey.Build_t (RunCommandRequest.idempotency_key q)
    (RunCommandRequest.request_digest q) (RunCommandRequest.expected_run_version q))) as Hnewkey
    by (rewrite HK; apply lookup_insert_eq).
  split.
  - rewrite HI, fmap_app. apply NoDup_app. split; [done|]. split; [|apply NoDup_singleton].
    intros i (c & -> & Hc)%list_elem_of_fmap Hi. apply list_elem_of_singleton in Hi. by apply (Hne c).
  - intros j. rewrite Hnext. case_decide; [specialize (Hpos run); fold n in Hpos; lia|done].
  - intros c [Hc| ->]%Hin; rewrite Hnext.
    + specialize (Hb c Hc). case_decide as Hr; [rewrite Hr in Hb; fold n in Hb; lia|done].
    + specialize (Hpos run). fold n in Hpos. simpl. rewrite decide_True by done. lia.
  - intros j m Hm. rewrite Hnext in Hm. case_decide as Hj.
    + destruct (decide (m = n + 1)) as [->|]; [exists new; split; [apply Hin; by right|done]|].
      destruct (Hd run m ltac:(fold n; lia)) as (c & Hc & Hr & Hs). exists c. rewrite Hj. split; [apply Hin; by left|done].
    + destruct (Hd j m Hm) as (c & Hc & ?). exists c. split; [apply Hin; by left|done].
  - intros c c' [Hc| ->]%Hin [Hc'| ->]%Hin Hr Hs; [by apply Hn| | |done].
    + by destruct (Hold c Hc).
    + by destruct (Hold c' Hc').
  - intros i. rewrite HK. destruct (decide (i = fresh)) as [->|Hi].
    + rewrite lookup_insert_eq. split; [by eexists|]. intros _. exists new. split; [apply Hin; by right|done].
    + rewrite lookup_insert_ne by done. rewrite <-Hk. split; intros (c & Hc & He).
      * apply Hin in Hc as [Hc| ->]; [by exists c|by simpl in He].
      * exists c. split; [apply Hin; by left|done].
  - intros c c' k k' [Hc| ->]%Hin [Hc'| ->]%Hin Hr Hck Hck' He; [| | |done].
    + rewrite Hsame in Hck, Hck' by done. by eapply Hu.
    + rewrite Hsame in Hck by done. rewrite Hnewkey in Hck'. injection Hck' as <-. by destruct (Hunused c k Hc Hr Hck).
    + rewrite Hsame in Hck' by done. rewrite Hnewkey in Hck. injection Hck as <-.
      by destruct (Hunused c' k' Hc' (eq_sym Hr) Hck').
Qed.

Lemma record_command_issued b receipt r p c : issued (record_command b receipt r p c) = issued c.
Proof. unfold record_command. by destruct (RunControl.instruction b). Qed.
Lemma control_ok fresh run b p d receipt d' :
  control fresh run b p d = Ok (receipt, d') →
  ∃ d1, enqueue fresh (RunCommandRequest.Build_t run (RunControl.kind b) (RunControl.idempotency_key b)
                         (command_payload (RunControl.instruction b) p) (Some (RunControl.expected_run_version b))) d
        = Ok (receipt, d1) ∧ quiet d1 d' ∧ shelf d' = shelf d1
        ∧ (RunCommandReceipt.duplicate receipt = true → d' = d1).
Proof.
  intros (? & _ & (? & _ & (? & _ & Hc)%res_bind_ok)%res_bind_ok)%res_bind_ok.
  destruct (owned_run_row _ _ _) as [[r i]|]; [|done]. destruct (enqueue _ _ _) as [[receipt' d1]|[]]; try done.
  injection Hc as -> <-. exists d1. split; [done|]. destruct (RunCommandReceipt.duplicate receipt); [done|].
  split; [|done]. split; try done. unfold db_of. simpl. apply record_command_issued.
Qed.

(** A transaction that adds at most one command, as the next of its run. *)
Inductive numbers (d d' : desk) : Prop :=
  | nb_quiet : quiet d d' → numbers d d'
  | nb_added fresh q e e' : quiet d e → added fresh q e e' → quiet e' d' → numbers d d'.

Lemma quiet_numbers_l d e d' : quiet d e → numbers e d' → numbers d d'.
Proof.
  intros Hq [Hq'|fresh q e1 e2 Hq1 Ha Hq2]; [by apply nb_quiet; etrans|].
  eapply nb_added; [|exact Ha|exact Hq2]. by etrans.
Qed.
Lemma quiet_numbers_r d e d' : numbers d e → quiet e d' → numbers d d'.
Proof.
  intros [Hq'|fresh q e1 e2 Hq1 Ha Hq2] Hq; [by apply nb_quiet; etrans|].
  eapply nb_added; [exact Hq1|exact Ha|]. by etrans.
Qed.
Lemma numbers_ok d d' :
  numbers d d' → commands_ok d → commands_ok d' ∧ issued (db_of d) `prefix_of` issued (db_of d').
Proof.
  intros [Hq|fresh q e e' Hq1 Ha Hq2] Hok.
  - split; [by eapply quiet_commands_ok|]. by rewrite (q_issued _ _ Hq).
  - split; [eapply quiet_commands_ok, added_commands_ok, quiet_commands_ok; done|].
    rewrite (q_issued _ _ Hq2), (ad_work _ _ _ _ Ha), (q_issued _ _ Hq1). by eexists.
Qed.

Lemma command_active_numbers fresh b p active d d' :
  command_active fresh b p active d = Ok d' → numbers d d' ∧ shelf d' = shelf d.
Proof.
  assert (∀ e, numbers e e ∧ shelf e = shelf e) as Hsame by (intros e; split; [by apply nb_quiet|done]).
  unfold command_active. destruct active as [r|]; [|by intros [= <-]].
  destruct (command_kind _) as [kind|]; [|by intros [= <-]].
  unfold command_run. destruct (negb _); [done|]. destruct (enqueue _ _ _) as [[receipt e]|] eqn:He; [|done].
  intros [= <-]. apply enqueue_ok in He as [[Hd ->]|(Hd & Ha & _)]; rewrite Hd; [done|].
  split; [|exact (ad_shelf _ _ _ _ Ha)]. eapply nb_added; [done|exact Ha|]. by split.
Qed.
Lemma put_mission_core now m w w' :
  put_mission now m w = Ok w' → MissionTables.core w' = MissionTables.core w.
Proof.
  unfold put_mission. destruct (missions w !! _); [|done]. destruct (MissionModel.unchanged _ _); [by intros [= <-]|].
  destruct (MissionModel.fits m); [|done]. by intros [= <-].
Qed.
Lemma ensure_controls_core m w w' :
  ensure_controls m w = Ok w' → MissionTables.core w' = MissionTables.core w.
Proof.
  assert (∀ l v sk, MissionTables.core (ensure_control l v sk) = MissionTables.core v) as He
    by (intros l v sk; unfold ensure_control; by destruct (control_at _ _)).
  unfold ensure_controls. intros (l & _ & [= <-])%res_bind_ok. by rewrite !He.
Qed.
Lemma raised_ok {A} (r : res mission_error A) a : raised r = Ok a → r = Ok a.
Proof. unfold raised. destruct r as [x|[]]; try done. by intros [= ->]. Qed.

Lemma control_mission_fresh_numbers fresh now m b p d v d' :
  control_mission_fresh fresh now m b p d = Ok (v, d') → numbers d d' ∧ shelf d' = shelf d.
Proof.
  unfold control_mission_fresh. destruct (negb _); [done|].
  intros (w & Hw%raised_ok%ensure_controls_core & Hc)%res_bind_ok.
  destruct (control_at _ w) as [c|]; [|done].
  apply res_bind_ok in Hc as (e & [He Hsh]%command_active_numbers & Hc).
  apply res_bind_ok in Hc as (w1 & Hw1%raised_ok%put_mission_core & Hc).
  apply res_bind_ok in Hc as (w2 & Hw2%raised_ok%emit_core & (v' & _ & [= _ <-])%res_bind_ok).
  split; [|exact Hsh]. eapply quiet_numbers_l; [|eapply quiet_numbers_r; [exact He|]].
  - split; try done. unfold db_of. simpl. by rewrite Hw.
  - split; try done. unfold db_of. simpl. by rewrite Hw2, Hw1.
Qed.
Lemma control_mission_numbers fresh now mission b p d v d' :
  control_mission fresh now mission b p d = Ok (v, d') →
  numbers d d' ∧ records_kept (desk_records d) (desk_records d').
Proof.
  intros (? & _ & (? & _ & Ha)%res_bind_ok)%res_bind_ok. destruct (owned_mission _ _ _) as [m|]; [|done]. split.
  - apply answered_once_ok in Ha as [(r & _ & -> & _)|(begun & e & _ & He & ->)]; [by apply nb_quiet|].
    apply control_mission_fresh_numbers in He as [He _].
    eapply quiet_numbers_l; [|eapply quiet_numbers_r; [exact He|]]; by split.
  - eapply answered_once_kept; [exact Ha|]. intros e e' a He. by apply control_mission_fresh_numbers in He as [_ ?].
Qed.
Lemma control_numbers fresh run b p d v d' : control fresh run b p d = Ok (v, d') → numbers d d'.
Proof.
  intros (d1 & He & Hq & _)%control_ok. apply enqueue_ok in He as [[_ ->]|(_ & Ha & _)]; [by apply nb_quiet|].
  by eapply nb_added.
Qed.

(** The numbers of commands never change. *)
Lemma desk_step_commands d d' :
  desk_step d d' → commands_ok d → commands_ok d' ∧ issued (db_of d) `prefix_of` issued (db_of d').
Proof.
  intros Hs. apply numbers_ok. destruct Hs as [? ? ? ? d d' Hs|? ? ? ? ? d d' Hs|fresh run b p v d d' Hs
    |? ? ? ? ? d d' Hs|? ? ? ? ? d d' Hs|? ? ? ? ? ? d d' Hs|s d|w d Hs].
  - apply create_project_answers in Hs as [_ ?]. by apply nb_quiet.
  - apply create_job_answers in Hs as [_ ?]. by apply nb_quiet.
  - by eapply control_numbers.
  - apply reconciliation_answers in Hs as [_ ?]. by apply nb_quiet.
  - apply demo_answers in Hs as [_ ?]. by apply nb_quiet.
  - by apply control_mission_numbers in Hs as [? _].
  - apply nb_quiet. by split.
  - apply nb_quiet. by split.
Qed.

(** C33. The commands of a run are numbered 1, 2, 3 and so on without gaps or
repetitions up to the counter of the run, no two of them have the same idempotency
key, and the commands that were issued keep their number, kind and payload whatever
happens: commands of owners to their runs, those a mission control sends to the
active run of the mission, and every other transaction. *)
Theorem commands_numbered d0 d :
  commands_ok d0 → rtc desk_step d0 d → commands_ok d ∧ issued (db_of d0) `prefix_of` issued (db_of d).
Proof.
  intros Hok Hs. induction Hs as [d|d1 d2 d3 Hs _ IH]; [done|].
  destruct (desk_step_commands _ _ Hs Hok) as [Hok2 Hp]. destruct (IH Hok2) as [? Hp']. split; [done|]. by etrans.
Qed.

(** ** Jobs *)

Lemma desk_step_records d d' : desk_step d d' → records_kept (desk_records d) (desk_records d').
Proof.
  destruct 1 as [? ? ? ? d d' Hs|? ? ? ? ? d d' Hs|fresh run b p v d d' Hs|? ? ? ? ? d d' Hs|? ? ? ? ? d d' Hs
    |? ? ? ? ? ? d d' Hs|s d Hs|w d _].
  - by apply create_project_answers in Hs as [? _].
  - by apply create_job_answers in Hs as [? _].
  - apply control_ok in Hs as (d1 & He & _ & Hsh & _). unfold desk_records. rewrite Hsh.
    apply enqueue_ok in He as [[_ ->]|(_ & Ha & _)]; [done|]. by rewrite (ad_shelf _ _ _ _ Ha).
  - by apply reconciliation_answers in Hs as [? _].
  - by apply demo_answers in Hs as [? _].
  - by apply control_mission_numbers in Hs as [_ ?].
  - done.
  - done.
Qed.
Lemma desk_steps_records d d' : rtc desk_step d d' → records_kept (desk_records d) (desk_records d').
Proof. induction 1 as [d|d1 d2 d3 Hs _ IH]; [done|]. etrans; [by apply desk_step_records|done]. Qed.

Lemma create_job_ok t project b p d v d' :
  create_job t project b p d = Ok (v, d') →
  ∃ row, active_project project p d = Ok row
    ∧ answered_once (job_scope p project) (JobCreate.idempotency_key b) (sha256_digest (model_dump b))
        "run.idempotency_conflict" run_validate (create_job_fresh t row b p) d = Ok (v, d').
Proof.
  intros (? & _ & (? & _ & (? & _ & (row & Hr & Ha)%res_bind_ok)%res_bind_ok)%res_bind_ok)%res_bind_ok.
  by exists row.
Qed.

Section once.
(** A response is read back as it was dumped. *)
Context (run_dump_validate : ∀ v : RunView.t, run_validate (model_dump v) = Some v).

(** The response of a job is on record. *)
Lemma job_recorded t project b p d v d' :
  create_job t project b p d = Ok (v, d') →
  ∃ r, find (record_is (job_scope p project) (JobCreate.idempotency_key b)) (desk_records d') = Some r
       ∧ run_validate (default JNull (IdempotencyRecordModel.response_json r)) = Some v.
Proof.
  intros (row & _ & [(r & Hr & -> & Hv)|(begun & e & Hb & He & ->)]%answered_once_ok)%create_job_ok; [by exists r|].
  eexists. apply create_job_fresh_frame in He as [_ Hs]. split.
  - unfold desk_records at 1. simpl. unfold desk_records. rewrite Hs. by eapply find_completed.
  - apply run_dump_validate.
Qed.

(** C32. an idempotency key creates one job: after a job was accepted, whatever
owners, services and the orchestrator do in between, a request of the same owner for
the same project with the same key that succeeds returns the same run and changes
nothing. *)
Theorem job_created_once t project b p v d0 d1 d2 t' b' v' d3 :
  create_job t project b p d0 = Ok (v, d1) → rtc desk_step d1 d2 →
  JobCreate.idempotency_key b' = JobCreate.idempotency_key b →
  create_job t' project b' p d2 = Ok (v', d3) → v' = v ∧ d3 = d2.
Proof.
  intros (r & Hr & Hv)%job_recorded Hs Hkey Hj. apply (desk_steps_records _ _ Hs) in Hr.
  apply create_job_ok in Hj as (row & _ & [(r' & Hr' & -> & Hv')|(begun & e & Hb & _)]%answered_once_ok).
  - rewrite Hkey, Hr in Hr'. injection Hr' as <-. split; [|done]. congruence.
  - unfold begin_record in Hb. rewrite Hkey, Hr in Hb. by destruct (String.eqb _ _).
Qed.
End once.

(** The verification policy of some verify node of a workflow. *)
Definition verified_by (spec : WorkflowSpec.t RawNode.t) (v : VerificationPolicy.t) : Prop :=
  ∃ n, n ∈ WorkflowSpec.nodes spec ∧ RawNode.type n = WorkflowNodeType.verify
    ∧ NodePolicy.verification (effective_policy spec n) = Some v.
(** What a real run of a web project needs. *)
Record web_ok (project : ProjectModel.t) (spec : WorkflowSpec.t RawNode.t) : Prop := {
  wb_profiles : ∀ i, i ∈ ProjectModel.execution_profile_revision_ids_json project
    ↔ ∃ v, verified_by spec v ∧ i ∈ VerificationPolicy.execution_profile_revision_ids v;
  wb_checks : ∀ u, u ∈ [VerificationPurpose.build; VerificationPurpose.unit; VerificationPurpose.browser] →
    ∃ v c, verified_by spec v ∧ c ∈ VerificationPolicy.required_acceptance_checks v
      ∧ RequiredAcceptanceCheck.purpose c = u;
}.
(** Only the demo adapters, none of them deployed. *)
Definition demo_ok (s : RegistrySpec) : Prop :=
  (∀ p, s = SProvider p → ProviderSpec.provider_kind p = ProviderKind.demo ∧ ProviderSpec.base_url p = None)
  ∧ ∀ w, s = SWorker w → WorkerSpec.adapter_kind w = AdapterKind.demo ∧ WorkerSpec.deployment_configured w = false.

(** The row that keeps a configuration. *)
Definition frozen_row (i version : uuid) (sn : WorkflowResolvedSnapshot.t) : RunConfigSnapshotModel.t := {|
  RunConfigSnapshotModel.id := i;
  RunConfigSnapshotModel.workflow_version_id := version;
  RunConfigSnapshotModel.resolved_revisions_json := JArr (model_dump <$> WorkflowResolvedSnapshot.revisions sn);
  RunConfigSnapshotModel.effective_spec_json := [("snapshot", model_dump sn)];
  RunConfigSnapshotModel.snapshot_hash :=
    sha256_digest (JObj [("version_id", JStr (uuid_str version)); ("snapshot", model_dump sn)]);
|}.
(** A configuration is kept under its digest: a row that has the digest already is used
again, otherwise the whole configuration is added. *)
Definition keeps_configuration (i version : uuid) (sn : WorkflowResolvedSnapshot.t) (w w' : mdb) : Prop :=
  (∃ r, r ∈ MissionTables.snapshots w ∧ RunConfigSnapshotModel.id r = i
     ∧ RunConfigSnapshotModel.snapshot_hash r = RunConfigSnapshotModel.snapshot_hash (frozen_row i version sn)
     ∧ MissionTables.snapshots w' = MissionTables.snapshots w)
  ∨ (∀ r, r ∈ MissionTables.snapshots w →
       RunConfigSnapshotModel.snapshot_hash r ≠ RunConfigSnapshotModel.snapshot_hash (frozen_row i version sn)
       ∧ RunConfigSnapshotModel.id r ≠ i)
    ∧ MissionTables.snapshots w' = MissionTables.snapshots w ++ [frozen_row i version sn].

(** What a job that is enqueued starts from. *)
Record job_start (t : job_readings) (project : uuid) (b : JobCreate.t) (p : AuthPrincipal.t) (d d' : desk)
    (row : ProjectModel.t) (ver : WorkflowStudio.WorkflowVersionModel.t) (sn : WorkflowResolvedSnapshot.t)
    (frozen : uuid) : Prop := {
  js_project : projects d !! project = Some row ∧ ProjectModel.owner_user_id row = AuthPrincipal.user_id p
    ∧ ProjectModel.status row = "active";
  js_version : versions (shelf d) !! JobCreate.workflow_version_id b = Some ver ∧ published_ok (shelf d) ver;
  js_workflow : ∃ spec raw n, spec_validate (WorkflowStudio.WorkflowVersionModel.spec_json ver) = Ok spec
    ∧ spec_validate (spec_payload spec) = Ok raw ∧ normalize_workflow raw = Ok n
    ∧ workflow_ok (as_raw n) n (Some sn)
    ∧ (JobCreate.mode b = "real" → ProjectModel.project_type row ≠ "python" → web_ok row spec);
  js_snapshot : WorkflowStudio.WorkflowVersionModel.snapshot_hash ver = Some (snapshot_hash sn);
  js_revisions : Forall (resolved_ok (base (shelf d))) (WorkflowResolvedSnapshot.revisions sn);
  js_demo : JobCreate.mode b = "demo" →
    ∀ r, r ∈ WorkflowResolvedSnapshot.revisions sn → demo_ok (WorkflowResolvedRevision.spec r);
  js_run : runs (db_of d) !! jr_run t = None
    ∧ runs (db_of d') = <[jr_run t := fresh_run t b frozen]> (runs (db_of d));
  js_job : job_rows (work d') !! jr_job t = Some (JobModel.Build_t (ProjectModel.id row) (JobCreate.objective b))
    ∧ jobs (db_of d') !! jr_job t = Some JobStatus.QUEUED;
  js_frozen : keeps_configuration frozen (JobCreate.workflow_version_id b) sn (work d) (work d');
}.

Lemma active_project_ok i p d row :
  active_project i p d = Ok row →
  projects d !! i = Some row ∧ ProjectModel.owner_user_id row = AuthPrincipal.user_id p
  ∧ ProjectModel.status row = "active".
Proof.
  unfold active_project, owned_project. destruct (projects d !! i) as [r|] eqn:Hr; [|done]. simpl.
  case_bool_decide as Ho; [|done]. destruct (String.eqb_spec (ProjectModel.status r) "active"); [|done].
  by intros [= <-].
Qed.
Lemma owned_version_ok i user s v :
  owned_version i user s = Some v → versions s !! i = Some v ∧ is_published v.
Proof.
  unfold owned_version. intros (w & Hw & (r & _ & Hc)%bind_Some)%bind_Some.
  destruct (bool_decide_reflect (is_Some (WorkflowStudio.WorkflowVersionModel.published_at w))) as [Hp|]; [|done].
  destruct (_ && _); [|done]. by injection Hc as <-.
Qed.
Lemma freeze_keeps fresh version sn w i w' :
  freeze fresh version sn (job_payload sn) (job_digest version sn) w = Ok (i, w') →
  keeps_configuration i version sn w w'.
Proof.
  unfold freeze. destruct (find _ _) as [r|] eqn:Hf.
  - intros [= <- <-]. apply find_some in Hf as [Hin He%String.eqb_eq]. left. exists r.
    split; [by apply list_elem_of_In|done].
  - destruct (existsb _ _) eqn:Hid; [done|]. intros [= <- <-]. right. split; [|done].
    intros r Hr. rewrite existsb_false in Hid. split.
    + intros He. pose proof (find_none _ _ Hf r ltac:(by apply list_elem_of_In)) as Hno.
      simpl in Hno. by apply String.eqb_neq in Hno.
    + intros <-. specialize (Hid r Hr). by rewrite bool_decide_true in Hid.
Qed.

(** *** The checks of web projects and of demo runs *)

Lemma verify_policies_in spec v : v ∈ verify_policies spec ↔ verified_by spec v.
Proof.
  unfold verify_policies, verified_by. rewrite list_elem_of_omap. split.
  - intros (n & [Hn Ht%bool_decide_eq_true]%list_elem_of_In%filter_In & Hv). exists n.
    split; [by apply list_elem_of_In|done].
  - intros (n & Hn & Ht & Hv). exists n. split; [|done]. apply list_elem_of_In, filter_In.
    split; [by apply list_elem_of_In|by apply bool_decide_eq_true].
Qed.
Lemma check_web_ok row spec : check_web row spec = Ok tt → web_ok row spec.
Proof.
  unfold check_web. destruct (negb (same_members _ _)) eqn:Hp; [done|].
  intros Hm%raise_if_ok%negb_false_iff%Nat.eqb_eq%length_zero_iff_nil.
  apply negb_false_iff, andb_true_iff in Hp as [Hsub Hsup]. rewrite !forallb_forall in Hsub, Hsup. split.
  - intros i. setoid_rewrite <-verify_policies_in. split.
    + intros Hi. apply list_elem_of_In, Hsup, bool_decide_eq_true, list_elem_of_bind in Hi as (v & Hi & Hv). by exists v.
    + intros (v & Hv & Hi). eapply bool_decide_eq_true, Hsub, list_elem_of_In, list_elem_of_bind. by exists v.
  - intros u Hu. setoid_rewrite <-verify_policies_in.
    destruct (decide (u ∈ (v ← verify_policies spec; RequiredAcceptanceCheck.purpose
                             <$> VerificationPolicy.required_acceptance_checks v))) as [Hin|Hno].
    + apply list_elem_of_bind in Hin as (v & (c & -> & Hc)%list_elem_of_fmap & Hv). by exists v, c.
    + assert (u ∈ missing_purposes (verify_policies spec)) as Hin; [|rewrite Hm in Hin; by apply elem_of_nil in Hin].
      apply list_elem_of_In, filter_In. split; [by apply list_elem_of_In|].
      by rewrite bool_decide_false.
Qed.
Lemma demo_revision_ok s : demo_revision s = true → demo_ok s.
Proof.
  intros Hd. split; intros x ->; simpl in Hd; apply andb_true_iff in Hd as [Hk%bool_decide_eq_true Hr%negb_true_iff];
    (split; [done|]); [|done]. apply bool_decide_eq_false in Hr. by rewrite <-eq_None_not_Some in Hr.
Qed.

Section sound.
Context `{!StudioModelLaws} `{!ConfigErrors, !ConfigModelLaws, !SpecModelLaws, !SetOrderLaws}.

Lemma job_configuration_ok b row ver d sn :
  registry_ok (base (shelf d)) → job_configuration b row ver d = Ok sn →
  (∃ spec raw n, spec_validate (WorkflowStudio.WorkflowVersionModel.spec_json ver) = Ok spec
     ∧ spec_validate (spec_payload spec) = Ok raw ∧ normalize_workflow raw = Ok n
     ∧ workflow_ok (as_raw n) n (Some sn)
     ∧ (JobCreate.mode b = "real" → ProjectModel.project_type row ≠ "python" → web_ok row spec))
  ∧ WorkflowStudio.WorkflowVersionModel.snapshot_hash ver = Some (snapshot_hash sn)
  ∧ Forall (resolved_ok (base (shelf d))) (WorkflowResolvedSnapshot.revisions sn)
  ∧ (JobCreate.mode b = "demo" →
     ∀ r, r ∈ WorkflowResolvedSnapshot.revisions sn → demo_ok (WorkflowResolvedRevision.spec r)).
Proof.
  intros Hok (spec & Hs & ([report [[n sn']|]] & He & Hc)%res_bind_ok)%res_bind_ok; [|done].
  destruct (spec_validate (WorkflowStudio.WorkflowVersionModel.spec_json ver)) as [spec'|] eqn:Hspec; [|done].
  injection Hs as ->.
  apply res_bind_ok in Hc as (? & [Hvalid%negb_false_iff Hsnap%negb_false_iff%bool_decide_eq_true]%raise_if_ok%orb_false_iff & Hc).
  apply res_bind_ok in Hc as ([] & Hweb & (? & Hdemo%raise_if_ok & [= ->])%res_bind_ok).
  destruct (evaluate_ok _ _ _ _ _ _ Hok He Hvalid) as [Hw Hres].
  destruct (evaluate_parsed _ _ _ _ _ _ He) as (raw & Hraw & Hn). split_and!; [|done|done|].
  - exists spec, raw, n. split_and!; [done..|]. intros Hm Hp. apply check_web_ok. rewrite Hm in Hweb. simpl in Hweb.
    apply String.eqb_neq in Hp. by rewrite Hp in Hweb.
  - intros Hm r Hr. rewrite Hm in Hdemo. simpl in Hdemo. apply negb_false_iff in Hdemo.
    apply demo_revision_ok. unfold validate_demo_snapshot in Hdemo.
    rewrite forallb_forall in Hdemo. by apply Hdemo, list_elem_of_In.
Qed.

(** C31. A job that is enqueued belongs to an active project of the owner and runs a
published version of a workflow; the stored specification of that version, parsed
again, satisfies every check of the validator against the registry, with the
snapshot hash that was frozen at publication; every revision of the snapshot is
stored; the new run is queued with that snapshot, kept whole under its digest with
its version and revisions unless a row has the digest already; a demo run has demo
providers and workers only, and a real run of a web project has exactly the approved
execution profiles and a build, a unit and a browser check on its verify nodes. *)
Theorem job_sound t project b p v d d' :
  studio_ok (shelf d) → create_job t project b p d = Ok (v, d') → runs (db_of d') ≠ runs (db_of d) →
  ∃ row ver sn frozen, job_start t project b p d d' row ver sn frozen
    ∧ v = run_view (fresh_run t b frozen) (ProjectModel.id row).
Proof.
  intros Hok (row & Hrow & [(r & _ & -> & _)|(begun & e & _ & He & ->)]%answered_once_ok)%create_job_ok Hnew; [done|].
  apply create_job_fresh_ok in He as (ver & sn & frozen & w & w' & Hver & Hc & Hf & Hi & -> & ->).
  exists row, ver, sn, frozen. split; [|done]. apply owned_version_ok in Hver as [Hver Hp].
  assert (registry_ok (base (shelf (set_desk_records begun d)))) as Hreg
    by (exact (proj2 (same_registry (base (shelf d)) (base (shelf (set_desk_records begun d))) eq_refl eq_refl)
                 (so_registry _ Hok))).
  destruct (job_configuration_ok b row ver (set_desk_records begun d) sn Hreg Hc)
    as (Hw & Hsnap & Hres & Hdemo).
  destruct (insert_job_ok _ _ _ _ _ _ _ _ Hi) as (_ & Hnone & Hruns & Hjob & Hjobs & _ & Hsn).
  pose proof (freeze_core _ _ _ _ _ _ _ _ Hf) as Hcore. pose proof (freeze_keeps _ _ _ _ _ _ Hf) as Hkeeps.
  split; try done.
  - by apply active_project_ok.
  - split; [exact Hver|]. by destruct (so_versions _ Hok _ _ Hver) as (_ & _ & _ & Hpub); apply Hpub.
  - rewrite Hcore in Hnone, Hruns. by split.
  - split; simpl; [rewrite Hjob|unfold db_of; simpl; rewrite Hjobs]; apply lookup_insert_eq.
  - destruct Hkeeps as [(x & ? & ? & ? & Hx)|[? Hx]]; [left; exists x|right]; split_and!; try done; simpl; by rewrite Hsn.
Qed.
End sound.
End system.

(** ** The other services *)

(** Requests to the registry and to the workflow service are steps of a desk. *)
Section services.
Context `{PyRuntime} `{ConfigModel} `{SpecModel} `{SetOrder} `{PyStr} `{StudioModel}
  `{ModelDump WorkflowNode.t} `{ModelDump RawNode.t} `{ModelDump WorkflowEdge.t} `{ModelDump NodePolicy.t}
  `{RegistrySpecModel} `{ModelDump RegistrySpec} `{ModelDump WorkflowResolvedRevision.t}
  `{ModelDump WorkflowResolvedSnapshot.t} `{ModelDump WorkflowLayout.t}
  `{ModelDump WorkflowDocument.t} `{ModelDump WorkflowTemplateRecord.t} `{ModelDump WorkflowValidationReport.t}
  `{ModelDump WorkflowCommand.t} `{ModelDump WorkflowCreateRequest.t} `{ModelDump WorkflowDraftWrite.t}
  `{ModelDump WorkflowValidateRequest.t} `{ModelDump WorkflowNewDraft.t} `{ModelDump WorkflowArchiveRequest.t}
  `{SetDump WorkflowCommand.t} `{SetDump WorkflowCreateRequest.t} `{SetDump WorkflowDraftWrite.t}
  `{SetDump WorkflowValidateRequest.t} `{SetDump WorkflowNewDraft.t} `{SetDump WorkflowArchiveRequest.t}
  `{ModelDump RegistryWrite.t} `{RecordModel} `{ModelDump RegistryRecord.t} `{ReportModel}
  `{ModelDump ValidationReport.t}.

Lemma find_answered scope key digest scope' key' response l b r :
  find (record_is scope key) l = Some r → begin_record scope' key' digest l = Approvals.Fresh b →
  find (record_is scope key) (answer_record scope' key' response b) = Some r.
Proof.
  unfold begin_record. intros Hf Hb. destruct (find (record_is scope' key') l) eqn:Hn; [by case_match|].
  injection Hb as <-. unfold answer_record. rewrite fmap_app. apply find_some_app.
  revert Hf Hn. induction l as [|x l IH]; [done|]. simpl. intros Hf Hn.
  destruct (record_is scope' key' x); [done|]. destruct (record_is scope key x); [done|]. by apply IH.
Qed.
Lemma command_kept {A} `{ModelDump A} scope key digest parse work d (a : A) d' :
  command scope key digest parse work d = Ok (a, d') →
  (∀ e a e', work e = Ok (a, e') → records (base e') = records (base e)) →
  records_kept (records (base d)) (records (base d')).
Proof.
  unfold command. intros Hc Hwork. destruct (begin_record _ _ _ _) as [begun|r|] eqn:Hb; [|destruct (parse _); [|done]|done].
  - apply res_bind_ok in Hc as ([a' e] & He & [= -> <-]). intros s k r Hr. simpl. rewrite (Hwork _ _ _ He).
    by eapply find_answered.
  - by injection Hc as _ <-.
Qed.

Lemma new_version_records t r spec layout d x d' :
  _new_version t r spec layout d = Ok (x, d') → records (base d') = records (base d).
Proof. unfold _new_version. destruct (bool_decide _); [done|]. by intros [= _ <-]. Qed.
Lemma add_references_records v sn d d' : add_references v sn d = Ok d' → records (base d') = records (base d).
Proof. unfold add_references. destruct (existsb _ _); [done|]. by intros [= <-]. Qed.

Lemma studio_request_kept d d' :
  (∃ t b actor a, create t b actor d = Ok (a, d')) ∨ (∃ t i b actor a, new_draft t i b actor d = Ok (a, d'))
  ∨ (∃ t i b actor a, save t i b actor d = Ok (a, d')) ∨ (∃ i b actor a, WorkflowStudio.validate i b actor d = Ok (a, d'))
  ∨ (∃ t i b actor a, publish t i b actor d = Ok (a, d')) ∨ (∃ t i b actor a, archive t i b actor d = Ok (a, d')) →
  records_kept (records (base d)) (records (base d')).
Proof.
  intros [(t & b & actor & a & Hr)|[(t & i & b & actor & a & Hr)|[(t & i & b & actor & a & Hr)|
    [(i & b & actor & a & Hr)|[(t & i & b & actor & a & Hr)|(t & i & b & actor & a & Hr)]]]]].
  - unfold create in Hr. do 2 apply res_bind_ok in Hr as (? & _ & Hr). eapply command_kept; [exact Hr|]. clear.
    intros d a d' Hr. unfold create_fresh in Hr. destruct (existsb _ _); [done|]. destruct (bool_decide _); [done|].
    apply res_bind_ok in Hr as (spec & _ & ([[r v] d1] & Hn & (doc & _ & [= _ <-])%res_bind_ok)%res_bind_ok).
    apply new_version_records in Hn. exact Hn.
  - unfold new_draft in Hr. do 3 apply res_bind_ok in Hr as (? & _ & Hr). eapply command_kept; [exact Hr|]. clear.
    intros d a d' Hr. unfold new_draft_fresh in Hr. do 4 apply res_bind_ok in Hr as (? & _ & Hr).
    apply res_bind_ok in Hr as ([[r v] d1] & Hn & (doc & _ & [= _ <-])%res_bind_ok).
    apply new_version_records in Hn. exact Hn.
  - unfold save in Hr. do 4 apply res_bind_ok in Hr as (? & _ & Hr). eapply command_kept; [exact Hr|]. clear.
    intros d a d' Hr. unfold save_fresh in Hr. do 5 apply res_bind_ok in Hr as (? & _ & Hr). by injection Hr as _ <-.
  - unfold WorkflowStudio.validate in Hr. do 3 apply res_bind_ok in Hr as (? & _ & Hr).
    eapply command_kept; [exact Hr|]. clear. intros d a d' Hr. unfold WorkflowStudio.validate_fresh in Hr.
    do 2 apply res_bind_ok in Hr as (? & _ & Hr). by injection Hr as _ <-.
  - unfold publish in Hr. do 3 apply res_bind_ok in Hr as (? & _ & Hr). eapply command_kept; [exact Hr|]. clear.
    intros d a d' Hr. unfold publish_fresh in Hr. do 3 apply res_bind_ok in Hr as (? & _ & Hr).
    apply res_bind_ok in Hr as ([report [[n sn]|]] & _ & Hr); [|done]. do 2 apply res_bind_ok in Hr as (? & _ & Hr).
    apply res_bind_ok in Hr as (d1 & Ha & (doc & _ & [= _ <-])%res_bind_ok). exact (add_references_records _ _ _ _ Ha).
  - unfold archive in Hr. do 3 apply res_bind_ok in Hr as (? & _ & Hr). eapply command_kept; [exact Hr|]. clear.
    intros d a d' Hr. unfold archive_fresh in Hr. apply res_bind_ok in Hr as (? & _ & [= _ <-]). done.
Qed.

Lemma registry_request_kept d d' :
  (∃ allowed t kind b actor i r, RegistryService.write allowed t kind b actor i d = Ok (r, d'))
  ∨ (∃ allowed now kind i key actor r, RegistryService.validate allowed now kind i key actor d = Ok (r, d')) →
  records_kept (records d) (records d').
Proof.
  intros [(allowed & t & kind & b & actor & i & r & Hr)|(allowed & now & kind & i & key & actor & r & Hr)].
  - apply res_bind_ok in Hr as (? & _ & Hr). destruct (negb _); [done|]. cbv zeta in Hr.
    destruct (begin_record _ _ _ _) as [begun| |] eqn:Hb; [|destruct (record_validate _); [|done]|done].
    + apply res_bind_ok in Hr as (w & _ & [= _ <-]). intros s k q Hq. by eapply find_complete.
    + by injection Hr as _ <-.
  - apply res_bind_ok in Hr as (? & _ & Hr). destruct (negb _); [done|]. destruct (configurations d !! i); [|done].
    destruct (negb _); [done|]. destruct (ConfigurationModel.current_revision_id _); [|done]. cbv zeta in Hr.
    destruct (begin_record _ _ _ _) as [begun| |] eqn:Hb; [|destruct (report_validate _); [|done]|done].
    + apply res_bind_ok in Hr as (w & _ & [= _ <-]). intros s q z Hq. by eapply find_complete.
    + by injection Hr as _ <-.
Qed.
End services.
