(* ===== verification/WorkerPool.v ===== *)
(** * The worker pool of a run

The part of [orchestrator/app/jarvis_orchestrator/runtime/composition.py] that offers
the frozen workers of a team to the scheduler: [Scheduler.v] selects by the counts
that [WorkerSlots.v] maintains.  [selected_not_saturated] states what the two
guarantee together. *)
From S2P Require Import Prelude PyJson Registry RawValidation Database Ownership.
From S2P Require Import Effects Scheduler WorkerSlots.
From stdpp Require Import gmap.
Local Open Scope Z_scope.
Local Open Scope stdpp_scope.

Module ConfigurationModel.
Record t := { enabled : bool; archived_at : option Z }.
End ConfigurationModel.

Module WorkerHealthModel.
Record t := { report_json : jobj; observed_at : Z }.
End WorkerHealthModel.

(** [WorkerPoolSpec.model_validate]; [None] when it raises. *)
Class WorkerPoolSpecModel := pool_spec_validate : json → option WorkerPoolSpec.t.

Definition dependency_error (message : string) : own_error :=
  ApplicationError ("RuntimeDependencyError: " +:+ message).

(** [row.spec_json["spec"]] *)
Definition stored_spec (row : ConfigurationRevisionModel.t) : res own_error json :=
  match ConfigurationRevisionModel.spec row with
  | Some j => Ok j
  | None => Err (python_error "KeyError")
  end.

(** The freshness of the pools of the executing members. *)
Definition pool_freshness `{WorkerPoolSpecModel} (pool_ids : list uuid) (w : WorkerTables.t)
    : res own_error Z :=
  foldM (λ seconds pool_id,
    match WorkerTables.revisions w !! pool_id with
    | None => Ok seconds
    | Some row =>
        j ← stored_spec row;
        match pool_spec_validate j with
        | Some pool => Ok (Z.min seconds (WorkerPoolSpec.health_freshness_seconds pool))
        | None => Err (python_error "ValidationError")
        end
    end) 60 pool_ids.

(** [str(report.get("health", {}).get("status", default))] *)
Definition health_status `{PyStr} (report : jobj) (missing : string) : res own_error string :=
  match dict_get "health" report with
  | None => Ok missing
  | Some (JObj health) =>
      Ok (match dict_get "status" health with Some v => py_str v | None => missing end)
  | Some _ => Err (python_error "AttributeError")
  end.

Section pool.
Context `{WorkerSpecModel} `{WorkerPoolSpecModel} `{PyStr} `{UuidFormat}.

(** One turn of the loop over the eligible revisions; [None]: [continue].  [clock] is
the reading for a worker without a health report. *)
Definition offer (configurations : gmap uuid ConfigurationModel.t)
    (health : gmap uuid WorkerHealthModel.t) (clock : uuid → Z) (run : RunModel.t)
    (w : WorkerTables.t) (revision_id : uuid) : res own_error (option EligibleWorker.t) :=
  match WorkerTables.revisions w !! revision_id with
  | None => Ok None
  | Some row =>
      match configurations !! ConfigurationRevisionModel.configuration_id row with
      | None => Ok None
      | Some identity =>
          j ← stored_spec row;
          match worker_spec_validate (Some j) with
          | None => Err (python_error "ValidationError")
          | Some spec =>
              let resource := resource_id (ConfigurationRevisionModel.configuration_id row) spec in
              let demo := bool_decide (RunModel.mode run = "demo") in
              let report := health !! revision_id in
              status ← health_status
                         (match report with Some h => WorkerHealthModel.report_json h | None => [] end)
                         (if demo then "healthy" else "unknown");
              Ok (Some {|
                EligibleWorker.revision_id := revision_id;
                EligibleWorker.physical_resource_id := resource;
                EligibleWorker.capabilities := list_to_set (WorkerSpec.capabilities spec);
                EligibleWorker.permitted_project_ids :=
                  list_to_set (WorkerSpec.permitted_project_ids spec);
                EligibleWorker.execution_profile_ids :=
                  list_to_set (WorkerSpec.execution_profile_revision_ids spec);
                EligibleWorker.capacity := WorkerSpec.max_concurrency spec;
                EligibleWorker.slots_in_use := slots_in_use resource w;
                EligibleWorker.health := status;
                EligibleWorker.observed_at :=
                  match report with
                  | Some h => Some (WorkerHealthModel.observed_at h)
                  | None => if demo then Some (clock revision_id) else None
                  end;
                EligibleWorker.enabled :=
                  ConfigurationModel.enabled identity
                  && bool_decide (ConfigurationModel.archived_at identity = None);
              |})
          end
      end
  end.

(** The loop. *)
Fixpoint offers (configurations : gmap uuid ConfigurationModel.t)
    (health : gmap uuid WorkerHealthModel.t) (clock : uuid → Z) (run : RunModel.t)
    (w : WorkerTables.t) (revisions : list uuid) : res own_error (list EligibleWorker.t) :=
  match revisions with
  | [] => Ok []
  | i :: is' =>
      o ← offer configurations health clock run w i;
      l ← offers configurations health clock run w is';
      Ok (match o with Some c => c :: l | None => l end)
  end.

(** [UUID(str(run.runtime_json["mission_id"]))] *)
Definition mission_of (run : RunModel.t) : res own_error uuid :=
  match dict_get "mission_id" (RunModel.runtime_json run) with
  | None => Err (python_error "KeyError")
  | Some j => match uuid_of (py_str j) with
              | Some i => Ok i
              | None => Err (python_error "ValueError")
              end
  end.

Definition fairness_of (run_id : uuid) : Z :=
  let m := Z.of_N (run_id mod (2 ^ 63 - 1)) in if Z.eqb m 0 then 1 else m.

(** The request of a run. *)
Definition request_of (run : RunModel.t) (mission_id project_id : uuid)
    (project_profiles : gset uuid) (seconds : Z) : AssignmentRequest.t := {|
  AssignmentRequest.id := RunModel.id run;
  AssignmentRequest.mission_id := mission_id;
  AssignmentRequest.priority := RunModel.priority run;
  AssignmentRequest.fairness_sequence := fairness_of (RunModel.id run);
  AssignmentRequest.project_id := project_id;
  AssignmentRequest.required_capabilities := {["code"; "git"]};
  AssignmentRequest.execution_profile_ids := project_profiles;
  AssignmentRequest.health_freshness_seconds := seconds;
|}.

(** The selection for a run. *)
Definition select_for_run (configurations : gmap uuid ConfigurationModel.t)
    (health : gmap uuid WorkerHealthModel.t) (clock : uuid → Z) (now : Z) (run : RunModel.t)
    (project_id : uuid) (project_profiles : gset uuid) (pool_ids eligible : list uuid)
    (w : WorkerTables.t) : res own_error EligibleWorker.t :=
  seconds ← pool_freshness pool_ids w;
  candidates ← offers configurations health clock run w eligible;
  mission_id ← mission_of run;
  match select_worker (request_of run mission_id project_id project_profiles seconds) candidates
          now ∅ ∅ true with
  | Err _ => Err (python_error "ZeroDivisionError")
  | Ok (None, _) => Err (dependency_error "worker pool is waiting for eligible capacity")
  | Ok (Some selected, _) => Ok selected
  end.
End pool.

Section properties.
Context `{WorkerSpecModelLaws} `{WorkerPoolSpecModel} `{PyStr} `{UuidFormat}.

Lemma offer_Some configurations health clock run w i c :
  offer configurations health clock run w i = Ok (Some c) →
  EligibleWorker.revision_id c = i ∧ 0 < EligibleWorker.capacity c ≤ 128
  ∧ EligibleWorker.slots_in_use c = slots_in_use (EligibleWorker.physical_resource_id c) w.
Proof.
  unfold offer. destruct (WorkerTables.revisions w !! i) as [row|]; [|done].
  destruct (configurations !! _) as [identity|]; [|done]. intros (j & _ & Ho)%res_bind_ok.
  destruct (worker_spec_validate (Some j)) as [spec|] eqn:Hs; [|done].
  apply res_bind_ok in Ho as (status & _ & [= <-]).
  apply worker_spec_validate_valid in Hs. unfold WorkerSpec.valid, z_between in Hs.
  rewrite !andb_true_iff, !Z.leb_le in Hs. simpl. split_and!; [done|lia|lia|done].
Qed.

Lemma offers_spec configurations health clock run w ids l :
  offers configurations health clock run w ids = Ok l →
  EligibleWorker.revision_id <$> l `sublist_of` ids
  ∧ ∀ c, c ∈ l → offer configurations health clock run w (EligibleWorker.revision_id c)
                 = Ok (Some c).
Proof.
  revert l. induction ids as [|i ids IH]; intros l; simpl.
  - intros [= <-]. split; [constructor|]. intros c []%elem_of_nil.
  - intros (o & Ho & Hr)%res_bind_ok. apply res_bind_ok in Hr as (l' & Hl' & [= <-]).
    destruct (IH _ Hl') as [Hsub Hall]. destruct o as [c|]; [|split; [by constructor|done]].
    destruct (offer_Some _ _ _ _ _ _ _ Ho) as [Hi _]. split.
    + rewrite fmap_cons, Hi. by constructor.
    + intros x [->|Hx]%elem_of_cons; [by rewrite Hi|by apply Hall].
Qed.

(** [waits w ws]: if all slots of [w] are in use, so are those of every worker of [ws]
that could represent its resource. *)
Definition waits (ok : EligibleWorker.t → Prop) (ws : list EligibleWorker.t)
    (w : EligibleWorker.t) : Prop :=
  EligibleWorker.capacity w ≤ EligibleWorker.slots_in_use w →
  ∀ w', representative ok ws w' →
    EligibleWorker.capacity w' ≤ EligibleWorker.slots_in_use w'.

(** Scheduler and slot tables together: the worker selected for a run is one of
the frozen revisions, usable for the run and the representative of its physical
resource, it was offered with the number of unreleased leases on that resource, and
although the caller allows saturated workers, all its slots are in use only if those
of every usable resource of the pool are. *)
Theorem selected_not_saturated configurations health clock now run project profiles pools eligible
    d0 d w :
  workers_ok d0 → rtc wstep d0 d → NoDup eligible →
  select_for_run configurations health clock now run project profiles pools eligible (workers d)
    = Ok w →
  ∃ candidates mission seconds,
    offers configurations health clock run (workers d) eligible = Ok candidates
    ∧ EligibleWorker.revision_id w ∈ eligible
    ∧ let ok := usable (request_of run mission project profiles seconds) now ∅ ∅ true in
      representative ok candidates w ∧ waits ok candidates w
      ∧ EligibleWorker.slots_in_use w
        = slots_in_use (EligibleWorker.physical_resource_id w) (workers d).
Proof.
  intros Hok0 Hs Hnd. pose proof (wsteps_ok _ _ Hok0 Hs) as Hok. unfold select_for_run.
  intros (seconds & _ & Hr)%res_bind_ok. apply res_bind_ok in Hr as (cs & Hcs & Hr).
  apply res_bind_ok in Hr as (mission & _ & Hr). exists cs, mission, seconds. split; [done|].
  set (request := request_of run mission project profiles seconds) in *.
  destruct (offers_spec _ _ _ _ _ _ _ Hcs) as [Hsub Hall].
  assert (∀ c, c ∈ cs → 0 < EligibleWorker.capacity c ≤ 128 ∧ 0 ≤ EligibleWorker.slots_in_use c ≤ 2 ^ 20
    ∧ EligibleWorker.slots_in_use c = slots_in_use (EligibleWorker.physical_resource_id c) (workers d))
    as Hb.
  { intros c Hc. destruct (offer_Some _ _ _ _ _ _ _ (Hall c Hc)) as (_ & Hcap & ->).
    pose proof (slots_in_use_bound (EligibleWorker.physical_resource_id c) d Hok). split_and!; lia. }
  destruct (select_worker_cases request cs now ∅ ∅ true) as (o & Ho & Hc).
  { intros c Hc. destruct (Hb c Hc). lia. }
  rewrite Ho in Hr. destruct o as [w0|]; [|done]. injection Hr as ->.
  destruct Hc as [Hw Hmin]. pose proof Hw as (Hin & _). split; [|split_and!].
  - eapply elem_of_sublist; [|exact Hsub]. apply list_elem_of_fmap. by exists w.
  - exact Hw.
  - intros Hfull w' Hw'. destruct (Hmin w' Hw') as (x & Hx & Hres & Hle).
    assert (x = w') as ->.
    { eapply representative_unique; [|exact Hx|exact Hw'|exact Hres]. by eapply sublist_NoDup. }
    destruct (Hb w Hin) as (Hcap & Hsl & _), (Hb w' (proj1 Hw')) as (Hcap' & Hsl' & _).
    pose proof (load_le_exact w w' (worker_key_load _ _ Hle) Hsl Hsl' Hcap Hcap'). nia.
  - by apply Hb.
Qed.
End properties.
