(* ===== verification/Demo.v ===== *)
(** * The canonical demo configuration

[orchestrator/app/jarvis_orchestrator/demo/bootstrap.py]: the registry specs that
[bootstrap_demo] writes and the workflow [canonical_workflow] builds.  [refs] maps
the key of a spec to the revision the registry gave it.  The dictionaries of the
source are given as the contract values pydantic makes of them: a key that a
dictionary leaves out has the default of its contract. *)
From S2P Require Import Prelude Enums PyJson PyDecimal Failures Verification Registry.
From S2P Require Import WorkflowSpec.
From stdpp Require Import pretty.
From Stdlib Require Import QArith.
Local Close Scope Q_scope.
Local Open Scope Z_scope.
Local Open Scope stdpp_scope.

(** ** Registry specs *)

Definition purposes : list string := ["organizer"; "architect"; "reviewer"; "mission_manager"].

Definition demo_rule (c : FailureClass.t) : RetryRule := {|
  rule_failure_class := c; max_retries := 2; initial_delay_ms := 0; multiplier := 1;
  exhaustion_action := ExhaustionAction.fail; max_delay_ms := 0; jitter := Jitter.none;
  allow_failover := false;
|}.

Definition timeouts : TimeoutPolicy.t := TimeoutPolicy.Build_t 10 300 10.

Definition role (r : RoleResponsibility.t) (purpose instructions : string) : RegistrySpec :=
  SAgentRole (AgentRoleSpec.Build_t r purpose instructions).

(** [definitions], with the references that the loop fills in. *)
Definition definitions (refs : string → uuid) : list (string * RegistrySpec) :=
  [("manager-role", role RoleResponsibility.manager "mission_manager"
      "Choose mission goals and priorities; never execute work.");
   ("developer-role", role RoleResponsibility.developer "code"
      "Implement one bounded work item through the selected worker.");
   ("reviewer-role", role RoleResponsibility.reviewer "reviewer"
      "Independently verify acceptance evidence before completion.");
   ("provider", SProvider {|
      ProviderSpec.provider_kind := ProviderKind.demo;
      ProviderSpec.base_url := None;
      ProviderSpec.locality := Locality.local;
      ProviderSpec.egress := EgressPolicy.Build_t [DataClassification.public] false false;
      ProviderSpec.timeouts := timeouts;
      ProviderSpec.retry_policy_revision_id := None;
      ProviderSpec.circuit := CircuitPolicy.Build_t 3 30 60 |});
   ("worker", SWorker {|
      WorkerSpec.adapter_kind := AdapterKind.demo;
      WorkerSpec.execution_host_label := "Local demo";
      WorkerSpec.capabilities := ["code"; "git"; "tests"];
      WorkerSpec.max_concurrency := 1;
      WorkerSpec.labels := [];
      WorkerSpec.timeouts := timeouts;
      WorkerSpec.model_binding := ModelBinding.Build_t BindingMode.none [];
      WorkerSpec.deployment_configured := false;
      WorkerSpec.physical_resource_id := None;
      WorkerSpec.permitted_project_ids := [];
      WorkerSpec.execution_profile_revision_ids := [];
      WorkerSpec.observed_build_digest := None;
      WorkerSpec.observed_wrapper_version := None |});
   ("retry", SRetryPolicy {|
      rules := demo_rule <$> [FailureClass.CODE_TEST_FAILURE; FailureClass.CODE_REVIEW_FAILURE;
                              FailureClass.INFRASTRUCTURE_WORKER_TRANSPORT;
                              FailureClass.PROVIDER_TRANSIENT] |});
   ("permission", SPermissionPolicy {|
      PermissionPolicySpec.allowed_capabilities := ["code"; "git"; "tests"];
      PermissionPolicySpec.denied_capabilities := [];
      PermissionPolicySpec.approval_required_actions := [];
      PermissionPolicySpec.filesystem_scopes := [];
      PermissionPolicySpec.shell := Decision3.allow;
      PermissionPolicySpec.git := Decision3.allow;
      PermissionPolicySpec.docker := Decision3.deny;
      PermissionPolicySpec.browser := Decision3.deny;
      PermissionPolicySpec.network := Decision3.deny;
      PermissionPolicySpec.remote_provider := Decision3.deny;
      PermissionPolicySpec.sensitive_action := Decision3.require_approval;
      PermissionPolicySpec.destructive_action := Decision3.deny;
      PermissionPolicySpec.unknown_action := Decision3.deny |});
   ("profile", SModelProfile {|
      ModelProfileSpec.provider_revision_id := refs "provider";
      ModelProfileSpec.model_identifier := "DEMO-fixture-v1";
      ModelProfileSpec.purposes := purposes;
      ModelProfileSpec.capabilities := ["chat"; "structured_json"];
      ModelProfileSpec.context_limit := 16384;
      ModelProfileSpec.output_limit := 2048;
      ModelProfileSpec.structured_json := true;
      ModelProfileSpec.tool_calls := false;
      ModelProfileSpec.streaming := false;
      ModelProfileSpec.locality := Locality.local;
      ModelProfileSpec.parameters := [];
      ModelProfileSpec.usage_reporting := UsageReporting.none;
      ModelProfileSpec.pricing :=
        Pricing.Build_t PricingStatus.unknown "USD" None None None "Unspecified" None |});
   ("route", SRoutePolicy {|
      RoutePolicySpec.candidates := [RouteCandidate.Build_t (refs "profile") 0];
      RoutePolicySpec.required_capabilities := [];
      RoutePolicySpec.purposes := purposes;
      RoutePolicySpec.allowed_data := [DataClassification.public];
      RoutePolicySpec.allow_remote := false;
      RoutePolicySpec.allow_unknown_health := true;
      RoutePolicySpec.failover_classes := [];
      RoutePolicySpec.spend := SpendPolicy.Build_t false 32000 4096 None None Decision3.deny |})].

(** ** [canonical_workflow] *)

(** The identifiers and kinds of the first loop. *)
Definition canonical_kinds : list (string * WorkflowNodeType.t) :=
  [("organizer", WorkflowNodeType.organizer); ("architect", WorkflowNodeType.architect);
   ("dispatch", WorkflowNodeType.task_dispatch); ("developer", WorkflowNodeType.worker);
   ("verify", WorkflowNodeType.verify); ("reviewer", WorkflowNodeType.reviewer);
   ("integrate", WorkflowNodeType.integrate); ("final_verify", WorkflowNodeType.verify);
   ("final_review", WorkflowNodeType.reviewer); ("decision", WorkflowNodeType.approval);
   ("publish", WorkflowNodeType.github_publish); ("finish", WorkflowNodeType.finalize);
   ("failed", WorkflowNodeType.finalize); ("rejected", WorkflowNodeType.finalize)].

Definition node_policy_of (refs : string → uuid) (kind : WorkflowNodeType.t) : NodePolicy.t := {|
  NodePolicy.worker_selector :=
    if bool_decide (kind ∈ [WorkflowNodeType.worker; WorkflowNodeType.verify])
    then Some (WorkerSelector.Build_t (refs "worker") []) else None;
  NodePolicy.model_route_ref :=
    if bool_decide (kind ∈ [WorkflowNodeType.organizer; WorkflowNodeType.architect;
                            WorkflowNodeType.reviewer])
    then Some (refs "route") else None;
  NodePolicy.retry_policy_ref := None;
  NodePolicy.permission_policy_ref := None;
  NodePolicy.verification :=
    if bool_decide (kind ∈ [WorkflowNodeType.worker; WorkflowNodeType.verify])
    then Some (VerificationPolicy.Build_t true [] []) else None;
  NodePolicy.approval :=
    if bool_decide (kind = WorkflowNodeType.github_publish)
    then Some (ApprovalPolicy.Build_t (Some "decision") (Some ActionType.github_push_and_pr) None)
    else None;
  NodePolicy.timeout_seconds := None;
  NodePolicy.max_concurrency := None;
  NodePolicy.accepts_runtime_instructions := false;
  NodePolicy.accepts_set := false;
|}.

Definition node_config_of (identifier : string) (kind : WorkflowNodeType.t) : jobj :=
  (if bool_decide (kind = WorkflowNodeType.architect) then [("max_tasks", JInt 2)] else [])
  ++ (if bool_decide (identifier ∈ ["failed"; "rejected"])
      then [("outcome", JStr (if bool_decide (identifier = "failed") then "failed"
                              else "cancelled"))]
      else []).

Definition canonical_nodes (refs : string → uuid) : list RawNode.t :=
  (λ ik, {| RawNode.id := ik.1; RawNode.type := ik.2; RawNode.label := "DEMO " +:+ ik.1;
            RawNode.config := node_config_of ik.1 ik.2;
            RawNode.policy := node_policy_of refs ik.2 |}) <$> canonical_kinds.

(** [edge]: an edge with its ID left out, which is its position. *)
Definition edge (source target : string) (kind : WorkflowEdgeKind.t) (priority : Z)
    (fallback : bool) (when : option Predicate.t) (id : string) : WorkflowEdge.t := {|
  WorkflowEdge.id := id; WorkflowEdge.source := source; WorkflowEdge.target := target;
  WorkflowEdge.kind := kind; WorkflowEdge.when := when; WorkflowEdge.priority := priority;
  WorkflowEdge.fallback := fallback; WorkflowEdge.retry_class := None;
  WorkflowEdge.iteration_key := None; WorkflowEdge.progress_path := None;
  WorkflowEdge.max_iterations := None;
|}.
Definition always (source target : string) : string → WorkflowEdge.t :=
  edge source target WorkflowEdgeKind.always 0 false None.

Definition compares (o : PredicateOperator.t) (path : string) (v : json) : option Predicate.t :=
  Some (Predicate.Mk o (Some path) v []).

Definition checked (source target retry_target : string) (failure : FailureClass.t)
    : list (string → WorkflowEdge.t) :=
  [(λ id, {| WorkflowEdge.id := id; WorkflowEdge.source := source;
             WorkflowEdge.target := retry_target; WorkflowEdge.kind := WorkflowEdgeKind.retry;
             WorkflowEdge.when := None; WorkflowEdge.priority := 0;
             WorkflowEdge.fallback := false; WorkflowEdge.retry_class := Some failure;
             WorkflowEdge.iteration_key := None; WorkflowEdge.progress_path := None;
             WorkflowEdge.max_iterations := None |});
   edge source target WorkflowEdgeKind.on_result 1 false
     (compares PredicateOperator.eq "$.outcome.status" (JStr "succeeded"));
   edge source "failed" WorkflowEdgeKind.on_result 2 true None].

Definition task_loop (id : string) : WorkflowEdge.t := {|
  WorkflowEdge.id := id; WorkflowEdge.source := "dispatch"; WorkflowEdge.target := "developer";
  WorkflowEdge.kind := WorkflowEdgeKind.iterate;
  WorkflowEdge.when := compares PredicateOperator.neq "$.tasks.current_task" JNull;
  WorkflowEdge.priority := 0; WorkflowEdge.fallback := false; WorkflowEdge.retry_class := None;
  WorkflowEdge.iteration_key := Some "tasks";
  WorkflowEdge.progress_path := Some "$.tasks.terminal_count";
  WorkflowEdge.max_iterations := Some 2;
|}.

(** [edges], in the order of the calls; [f"e{len(edges)}"] numbers them. *)
Definition canonical_edges : list WorkflowEdge.t :=
  imap (λ i e, e ("e" +:+ pretty i))
    (checked "organizer" "architect" "organizer" FailureClass.PROVIDER_TRANSIENT
     ++ [always "architect" "dispatch"; task_loop;
         edge "dispatch" "final_verify" WorkflowEdgeKind.on_result 1 true None]
     ++ checked "developer" "verify" "developer" FailureClass.INFRASTRUCTURE_WORKER_TRANSPORT
     ++ checked "verify" "reviewer" "developer" FailureClass.CODE_TEST_FAILURE
     ++ checked "reviewer" "integrate" "developer" FailureClass.CODE_REVIEW_FAILURE
     ++ [always "integrate" "dispatch";
         edge "decision" "publish" WorkflowEdgeKind.on_result 0 false
           (compares PredicateOperator.eq "$.approval.decision" (JStr "approved"));
         edge "decision" "rejected" WorkflowEdgeKind.on_result 1 true None;
         always "final_verify" "final_review"; always "final_review" "decision";
         always "publish" "finish"]).

Definition canonical_workflow (refs : string → uuid) : WorkflowSpec.t RawNode.t := {|
  WorkflowSpec.spec_version := "1.1";
  WorkflowSpec.reducers := default_reducers;
  WorkflowSpec.key := "demo-m6-canonical";
  WorkflowSpec.name := "DEMO deterministic development";
  WorkflowSpec.description := "";
  WorkflowSpec.entrypoint := "organizer";
  WorkflowSpec.defaults := {|
    NodePolicy.worker_selector := None; NodePolicy.model_route_ref := None;
    NodePolicy.retry_policy_ref := Some (refs "retry");
    NodePolicy.permission_policy_ref := Some (refs "permission");
    NodePolicy.verification := None; NodePolicy.approval := None;
    NodePolicy.timeout_seconds := Some 30; NodePolicy.max_concurrency := None;
    NodePolicy.accepts_runtime_instructions := false; NodePolicy.accepts_set := false |};
  WorkflowSpec.nodes := canonical_nodes refs;
  WorkflowSpec.edges := canonical_edges;
  WorkflowSpec.result_path := "$.final.status";
|}.

(** The specs and the workflow are within the bounds of their contracts. *)
Lemma canonical_workflow_valid refs : WorkflowSpec.valid (canonical_workflow refs) = true.
Proof. vm_compute. reflexivity. Qed.
