(* ===== verification/Instances.v ===== *)
(** * Concrete instances of the parameters

The model's parameters stand for pydantic, the Python runtime and the C library.
Here each gets a concrete function that satisfies the laws assumed of it, so that
the scenarios of the last file can evaluate the development on concrete inputs.
[config_validate] is a strict parser of the node configurations: unknown keys are
rejected and missing ones take their defaults. *)
From S2P Require Import Prelude Enums PyJson PyDecimal PyFloat Failures Verification Registry.
From S2P Require Import WorkflowSpec Normalize RawValidation GraphIssues Validate Commands.
From S2P Require Import Routing.
From stdpp Require Import pretty.
From Stdlib Require Import QArith Qpower.
Local Close Scope Q_scope.
Local Open Scope Z_scope.
Local Open Scope stdpp_scope.

(** ** The runtime *)

(** A digest that depends on every byte, printed in decimal. *)
Fixpoint checksum (s : string) (acc : N) : N :=
  match s with
  | EmptyString => acc
  | String c s' => checksum s' ((acc * 31 + Ascii.N_of_ascii c + 1) mod 65521)%N
  end.

#[export] Instance sample_runtime : PyRuntime := {|
  float_repr q := pretty (Qnum q) +:+ "/" +:+ pretty (Zpos (Qden q));
  sha256 s := pretty (checksum s 0);
|}.

#[export] Instance sample_order : SetOrder := λ l, l.
#[export] Instance sample_order_laws : SetOrderLaws.
Proof. intros l. reflexivity. Qed.

#[export] Instance sample_str : PyStr :=
  λ j, match j with JStr s => s | _ => canonical_json j end.
#[export] Instance sample_str_laws : PyStrLaws.
Proof. intros s. reflexivity. Qed.

(** A time as its number of microseconds in decimal digits. *)
Fixpoint digits (acc : Z) (s : string) : option Z :=
  match s with
  | EmptyString => Some acc
  | String c s' =>
      if is_digit c then digits (10 * acc + Z.of_nat (Ascii.nat_of_ascii c) - 48) s' else None
  end.
#[export] Instance sample_iso : IsoFormat := digits 0.

(** The correctly rounded power. *)
#[export] Instance sample_pow : FloatPow := λ m n, f64 (Qpower m n).
#[export] Instance sample_pow_laws : FloatPowLaws.
Proof.
  intros m n Hm Hn. apply (f64_ge _ 1); [lia|]. by apply Qpower_1_le.
Qed.

(** ** Serializers *)

#[export] Instance dump_policy : ModelDump NodePolicy.t := λ p,
  JObj [("timeout_seconds", NodeConfig.opt_json JInt (NodePolicy.timeout_seconds p))].
#[export] Instance dump_node : ModelDump WorkflowNode.t := λ n,
  JObj [("id", JStr (WorkflowNode.id n)); ("label", JStr (WorkflowNode.label n));
        ("config", JObj (NodeConfig.dump (WorkflowNode.config n)))].
#[export] Instance dump_edge : ModelDump WorkflowEdge.t := λ e,
  JObj [("id", JStr (WorkflowEdge.id e)); ("from", JStr (WorkflowEdge.source e));
        ("to", JStr (WorkflowEdge.target e)); ("priority", JInt (WorkflowEdge.priority e))].
#[export] Instance dump_registry : ModelDump RegistrySpec := λ s,
  JStr (RegistryKind.value (spec_kind s)).
#[export] Instance dump_revision : ModelDump WorkflowResolvedRevision.t := λ r,
  JStr (WorkflowResolvedRevision.key r).
#[export] Instance dump_request : ModelDump RoutePreviewRequest.t := λ r,
  JStr (uuid_str (RoutePreviewRequest.route_revision_id r)).
#[export] Instance dump_record : ModelDump RegistryRecord.t := λ r,
  JStr (RegistryRecord.content_hash r).

(** ** Node configurations *)

Definition bad (type field : string) : list error_detail :=
  [{| error_type := type; error_loc := [LKey field] |}].

(** A field with a default, a literal field, and the check on the keys. *)
Definition field {A} (of_json : json → option A) (dflt : option A) (k : string) (d : jobj)
    : res (list error_detail) A :=
  match dict_get k d with
  | None => match dflt with Some a => Ok a | None => Err (bad "missing" k) end
  | Some j => match of_json j with Some a => Ok a | None => Err (bad "type" k) end
  end.
Definition literal (v : json) (k : string) (d : jobj) : res (list error_detail) unit :=
  field (λ j, if py_eq j v then Some tt else None) (Some tt) k d.
Definition only (ks : list string) (d : jobj) : res (list error_detail) unit :=
  match filter (λ kv, kv.1 ∉ ks) d with
  | [] => Ok tt
  | kv :: _ => Err (bad "extra_forbidden" kv.1)
  end.

Definition as_int (j : json) : option Z := match j with JInt z => Some z | _ => None end.
Definition as_bool (j : json) : option bool := match j with JBool b => Some b | _ => None end.
Definition as_str (j : json) : option string := match j with JStr s => Some s | _ => None end.
Definition as_opt {A} (f : json → option A) (j : json) : option (option A) :=
  match j with JNull => Some None | _ => Some <$> f j end.
Definition as_strs (j : json) : option (list string) :=
  match j with JArr l => mapM as_str l | _ => None end.
Definition as_enum {A} `{StrEnum A} (j : json) : option A := as_str j ≫= enum_of_value.

Definition parse_config (ty : WorkflowNodeType.t) (d : jobj)
    : res (list error_detail) NodeConfig.t :=
  match ty with
  | WorkflowNodeType.organizer =>
      _ ← only ["summary_limit"] d;
      n ← field as_int (Some 2000) "summary_limit" d; Ok (NodeConfig.OrganizerConfig n)
  | WorkflowNodeType.architect =>
      _ ← only ["output_schema"; "max_tasks"] d;
      _ ← literal (JStr "task_plan.v1") "output_schema" d;
      n ← field as_int (Some 100) "max_tasks" d; Ok (NodeConfig.ArchitectConfig n)
  | WorkflowNodeType.task_dispatch =>
      _ ← only ["parallelism"; "ready_order"] d;
      _ ← literal (JInt 1) "parallelism" d;
      _ ← literal (JStr "dependency_then_task_key") "ready_order" d;
      Ok NodeConfig.DispatchConfig
  | WorkflowNodeType.worker =>
      _ ← only ["task_source"] d; _ ← literal (JStr "current_task") "task_source" d;
      Ok NodeConfig.WorkerConfig
  | WorkflowNodeType.verify =>
      _ ← only ["commands_source"; "stop_on_failure"] d;
      _ ← literal (JStr "task.verification") "commands_source" d;
      _ ← literal (JBool true) "stop_on_failure" d; Ok NodeConfig.VerifyConfig
  | WorkflowNodeType.reviewer =>
      _ ← only ["requires_repository_snapshot"] d;
      _ ← literal (JBool true) "requires_repository_snapshot" d; Ok NodeConfig.ReviewerConfig
  | WorkflowNodeType.integrate =>
      _ ← only ["repository_source"; "run_combined_gates"] d;
      _ ← literal (JStr "project") "repository_source" d;
      _ ← literal (JBool true) "run_combined_gates" d; Ok NodeConfig.IntegrateConfig
  | WorkflowNodeType.router => _ ← only [] d; Ok NodeConfig.RouterConfig
  | WorkflowNodeType.fanout =>
      _ ← only ["children"; "join_id"; "max_fanout"; "cancellation_strategy"] d;
      _ ← literal (JStr "wait_all") "cancellation_strategy" d;
      children ← field as_strs (Some []) "children" d;
      join_id ← field as_str (Some "join") "join_id" d;
      n ← field as_int (Some 8) "max_fanout" d;
      Ok (NodeConfig.FanoutConfig children join_id n)
  | WorkflowNodeType.join =>
      _ ← only ["fanout_id"; "require_all"] d; _ ← literal (JBool true) "require_all" d;
      f ← field as_str (Some "fanout") "fanout_id" d; Ok (NodeConfig.JoinConfig f)
  | WorkflowNodeType.approval =>
      _ ← only ["action_type"; "expires_in_seconds"] d;
      a ← field as_enum (Some ActionType.github_push_and_pr) "action_type" d;
      e ← field (as_opt as_int) (Some None) "expires_in_seconds" d;
      Ok (NodeConfig.ApprovalConfig a e)
  | WorkflowNodeType.github_publish =>
      _ ← only ["repository_source"; "wait_for_ci"] d;
      _ ← literal (JStr "project") "repository_source" d;
      b ← field as_bool (Some true) "wait_for_ci" d; Ok (NodeConfig.PublishConfig b)
  | WorkflowNodeType.finalize =>
      _ ← only ["outcome"] d;
      o ← field as_enum (Some Outcome.derive) "outcome" d; Ok (NodeConfig.FinalizeConfig o)
  end.

#[export] Instance sample_config : ConfigModel := λ ty d,
  c ← parse_config ty d;
  if NodeConfig.valid c then Ok c else Err (bad "value_error" "config").

Lemma parse_config_type ty d c : parse_config ty d = Ok c → NodeConfig.config_type c = ty.
Proof.
  destruct ty; simpl; intros Hp;
    repeat (apply res_bind_ok in Hp as (? & _ & Hp)); by injection Hp as <-.
Qed.

Lemma as_strs_dump l : as_strs (JArr (JStr <$> l)) = Some l.
Proof. apply mapM_Some. induction l; simpl; constructor; done. Qed.

#[export] Instance sample_config_laws : ConfigModelLaws.
Proof.
  split; unfold config_validate, sample_config.
  - intros ty d c Hc. apply res_bind_ok in Hc as (c' & Hp & Hc).
    destruct (NodeConfig.valid c') eqn:Hv; [|done]. injection Hc as <-.
    split; [by eapply parse_config_type|done].
  - intros c Hv. enough (parse_config (NodeConfig.config_type c) (NodeConfig.dump c) = Ok c) as ->
      by (simpl; by rewrite Hv).
    destruct c; try reflexivity.
    + pose proof (as_strs_dump children) as Hs. simpl. revert Hs.
      generalize (JArr (JStr <$> children)) as j. intros j Hs. cbv -[as_strs]. by rewrite Hs.
    + by destruct action_type, expires_in_seconds.
    + by destruct outcome.
Qed.

(** Every error of the parser says something. *)
Definition explained {A} (m : res (list error_detail) A) : Prop := ∀ e, m = Err e → e ≠ [].

Lemma explained_bind {A B} (m : res (list error_detail) A) (f : A → res (list error_detail) B) :
  explained m → (∀ a, explained (f a)) → explained (m ≫= f).
Proof. intros Hm Hf e. destruct m as [a|e']; simpl; [apply Hf|]. intros [= <-]. by apply Hm. Qed.
Lemma explained_ok {A} (a : A) : explained (Ok a : res (list error_detail) A).
Proof. done. Qed.
Lemma explained_field {A} (f : json → option A) dflt k d : explained (field f dflt k d).
Proof.
  intros e. unfold field. destruct (dict_get k d) as [j|]; [destruct (f j)|destruct dflt];
    try done; by intros [= <-].
Qed.
Lemma explained_only ks d : explained (only ks d).
Proof. intros e. unfold only. destruct (filter _ d); [done|]. by intros [= <-]. Qed.
#[local] Hint Resolve explained_ok explained_field explained_only : core.

#[export] Instance sample_config_errors : ConfigErrors.
Proof.
  intros ty d errors. unfold config_validate, sample_config.
  assert (explained (parse_config ty d)) as Hp.
  { destruct ty; cbn -[only field literal]; unfold literal;
      repeat (apply explained_bind; [auto|intros ?]); auto. }
  apply explained_bind; [done|]. intros c e. destruct (NodeConfig.valid c); [done|].
  by intros [= <-].
Qed.
