(* ===== verification/WorkflowScenarios.v ===== *)
(** * Workflow scenarios

The canonical demo workflow with the registry revisions of [bootstrap_demo], and a
small fan-out workflow, evaluated with the concrete instances of [Instances.v]:
the model accepts both, and the theorems of the workflow components apply to
them. *)
From S2P Require Import Prelude Enums PyJson PyDecimal Failures Verification Registry.
From S2P Require Import WorkflowSpec Predicates State Graph Normalize RawValidation GraphIssues.
From S2P Require Import FanoutIssues SnapshotIssues PolicyIssues Protected Validate NodeFactory.
From S2P Require Import Compiler Superstep Guarantees Demo Instances.
From stdpp Require Import pretty.
Local Open Scope Z_scope.
Local Open Scope stdpp_scope.

(** ** The demo *)

(** Revisions are numbered in the order they are written. *)
Definition demo_refs (k : string) : uuid :=
  match list_find (λ d, d.1 = k) (definitions (λ _, 0%N)) with
  | Some (i, _) => N.of_nat (S i)
  | None => 0%N
  end.

Definition demo : WorkflowSpec.t RawNode.t := canonical_workflow demo_refs.
Definition demo_normal : nspec := Eval vm_compute in
  match normalize_workflow demo with
  | Ok n => n
  | Err _ => with_graph (WorkflowSpec.Build_t _ "" [] "" "" "" "" NodePolicy.default [] [] "") [] []
  end.

Definition revision_of (d : string * RegistrySpec) : WorkflowResolvedRevision.t :=
  let r := WorkflowResolvedRevision.Build_t (demo_refs d.1) (100 + demo_refs d.1) d.1 1
             ("DEMO " +:+ d.1) "" true false d.2 in
  r (revision_digest (r "")).

Definition demo_snapshot : WorkflowResolvedSnapshot.t := Eval vm_compute in {|
  WorkflowResolvedSnapshot.workflow_content_hash := content_hash demo_normal;
  WorkflowResolvedSnapshot.compiler_version := COMPILER_VERSION;
  WorkflowResolvedSnapshot.revisions := revision_of <$> definitions demo_refs;
|}.

(** ** A fan-out of two branches *)

Definition fan_node (id : string) (ty : WorkflowNodeType.t) (config : jobj) : RawNode.t :=
  RawNode.Build_t id ty id config NodePolicy.default.
Definition fan : WorkflowSpec.t RawNode.t := {|
  WorkflowSpec.spec_version := "1.1"; WorkflowSpec.reducers := default_reducers;
  WorkflowSpec.key := "fan"; WorkflowSpec.name := "Fan-out"; WorkflowSpec.description := "";
  WorkflowSpec.entrypoint := "split"; WorkflowSpec.defaults := NodePolicy.default;
  WorkflowSpec.nodes :=
    [fan_node "split" WorkflowNodeType.fanout
       [("children", JArr [JStr "left"; JStr "right"]); ("join_id", JStr "merge")];
     fan_node "left" WorkflowNodeType.router []; fan_node "right" WorkflowNodeType.router [];
     fan_node "merge" WorkflowNodeType.join [("fanout_id", JStr "split")];
     fan_node "finish" WorkflowNodeType.finalize []];
  WorkflowSpec.edges :=
    [always "split" "left" "e1"; always "split" "right" "e2"; always "left" "merge" "e3";
     always "right" "merge" "e4"; always "merge" "finish" "e5"];
  WorkflowSpec.result_path := "$.final.status";
|}.
Definition fan_normal : nspec := Eval vm_compute in
  match normalize_workflow fan with Ok n => n | Err _ => demo_normal end.

(** ** Payloads *)

(** The parts of a published document that are checked before it is parsed. *)
Definition raw_object (spec : WorkflowSpec.t RawNode.t) : jobj :=
  [("key", JStr (WorkflowSpec.key spec)); ("entrypoint", JStr (WorkflowSpec.entrypoint spec));
   ("nodes", JArr ((λ n, JObj [("id", JStr (RawNode.id n)); ("config", JObj (RawNode.config n))])
                   <$> WorkflowSpec.nodes spec));
   ("edges", JArr ((λ e, JObj [("id", JStr (WorkflowEdge.id e));
                               ("from", JStr (WorkflowEdge.source e));
                               ("to", JStr (WorkflowEdge.target e))])
                   <$> WorkflowSpec.edges spec))].

(** [model_validate] on the two documents. *)
#[export] Instance sample_spec : SpecModel := λ payload,
  match dict_get "key" payload with
  | Some (JStr k) =>
      if bool_decide (k = WorkflowSpec.key demo) then Ok demo
      else if bool_decide (k = WorkflowSpec.key fan) then Ok fan else Err (bad "unknown" "key")
  | _ => Err (bad "missing" "key")
  end.
#[export] Instance sample_spec_laws : SpecModelLaws.
Proof.
  intros payload s. unfold spec_validate, sample_spec.
  destruct (dict_get "key" payload) as [[| | | |k| |]|]; try done.
  case_bool_decide; [intros [= <-]; vm_compute; reflexivity|].
  case_bool_decide; [intros [= <-]; vm_compute; reflexivity|done].
Qed.

Lemma scenario_ok raw n s r :
  validate_workflow (raw_object raw) s = Ok r → WorkflowValidationReport.valid r = true →
  spec_validate (raw_object raw) = Ok raw → normalize_workflow raw = Ok n → workflow_ok raw n s.
Proof.
  intros Hr Hv Hs Hn. destruct (validate_workflow_accepts _ _ _ Hr Hv) as (raw' & n' & Hs' & Hok & _).
  assert (raw' = raw) as -> by congruence. pose proof (wo_normal _ _ _ Hok).
  by assert (n' = n) as -> by congruence.
Qed.

Definition demo_report : WorkflowValidationReport.t :=
  WorkflowValidationReport.Build_t true [] (Some (content_hash demo_normal))
    (Some (snapshot_hash demo_snapshot)).

Lemma demo_validates : validate_workflow (raw_object demo) (Some demo_snapshot) = Ok demo_report.
Proof. vm_compute. reflexivity. Qed.
Lemma demo_ok : workflow_ok demo demo_normal (Some demo_snapshot).
Proof. by apply (scenario_ok _ _ _ _ demo_validates); vm_compute. Qed.
Lemma fan_ok : workflow_ok fan fan_normal None.
Proof. eapply scenario_ok; vm_compute; reflexivity. Qed.

(** The handler of the organizer, which succeeds. *)
Definition succeeded : jobj := [("status", JStr "succeeded")].
Definition demo_handlers (i : string) : option handler :=
  if bool_decide (i = "organizer")
  then Some (λ _ _, Ok (WorkflowStateV1.Build_t None None None None None None (Some succeeded)
                          None None None None None None None None None))
  else None.

Definition first_state : WorkflowStateV1.t := Eval vm_compute in
  match find_node demo_normal "organizer" with
  | Some n =>
      match invoke demo_normal demo_snapshot n (demo_handlers "organizer") WorkflowStateV1.empty with
      | Ok u => match merged_state WorkflowStateV1.empty u with
                | Ok st => st
                | Err _ => WorkflowStateV1.empty
                end
      | Err _ => WorkflowStateV1.empty
      end
  | None => WorkflowStateV1.empty
  end.

Definition demo_compiled : compiled := {|
  compiled_spec := demo_normal; compiled_snapshot := demo_snapshot; recursion_limit := 156;
  compiled_identity := compilation_identity demo_normal demo_snapshot;
|}.

Lemma demo_compiles :
  compile_workflow (raw_object demo) demo demo_snapshot ["organizer"] = Ok demo_compiled.
Proof.
  unfold compile_workflow. rewrite demo_validates.
  assert (normalize_workflow demo = Ok demo_normal) as -> by (vm_compute; reflexivity).
  assert (_superstep_limit demo_normal demo_snapshot = Ok 156) as -> by (vm_compute; reflexivity).
  vm_compute. reflexivity.
Qed.

(** The first step of a run. *)
Lemma demo_first_step :
  graph_step demo_normal demo_snapshot demo_handlers
    ("organizer", WorkflowStateV1.empty) ("architect", first_state).
Proof.
  eapply gs_route; [vm_compute; reflexivity|vm_compute; discriminate|vm_compute; discriminate
    |vm_compute; reflexivity|vm_compute; reflexivity|vm_compute; reflexivity].
Qed.

Lemma compile_bound_witness :
  compile_workflow (raw_object demo) demo demo_snapshot ["organizer"] = Ok demo_compiled
  ∧ Z.of_nat 1 + 3 ≤ recursion_limit demo_compiled.
Proof.
  split; [exact demo_compiles|].
  apply (compile_bound (raw_object demo) demo demo_snapshot ["organizer"] demo_compiled
           demo_handlers 1 "organizer" "architect" WorkflowStateV1.empty first_state);
    [vm_compute; reflexivity|exact demo_compiles|apply (bool_decide_unpack _); vm_compute; exact I
    |split; [constructor|intros ? ? Hk; inversion Hk]|].
  eapply nsteps_l; [exact demo_first_step|constructor].
Defined.

Lemma validated_workflow_witness :
  ∃ spec n, spec_validate (raw_object demo) = Ok spec ∧ workflow_ok spec n (Some demo_snapshot).
Proof.
  destruct (validated_workflow (raw_object demo) (Some demo_snapshot) demo_report demo_validates
              eq_refl) as (spec & n & Hs & Hok & _).
  exists spec, n. split; [exact Hs|exact Hok].
Defined.

Lemma validated_reaches_terminal_witness :
  path demo_normal "organizer" "publish"
  ∧ ∃ n, n ∈ WorkflowSpec.nodes demo_normal ∧ WorkflowNode.type n = WorkflowNodeType.finalize
      ∧ path demo_normal "publish" (node_id n).
Proof.
  destruct (validated_reaches_terminal demo demo_normal (Some demo_snapshot) demo_ok) as [Hr Ht].
  split; [apply (Hr "publish"); apply (bool_decide_unpack _); vm_compute; exact I|].
  destruct (Ht "publish") as (n & Hn & Hty & Hp & _);
    [apply (bool_decide_unpack _); vm_compute; exact I|].
  exists n. split; [exact Hn|split; [exact Hty|exact Hp]].
Defined.

(** A way to the publishing node that does one task. *)
Definition demo_trail : list string :=
  ["decision"; "final_review"; "final_verify"; "dispatch"; "integrate"; "reviewer"; "verify";
   "developer"; "dispatch"; "architect"; "organizer"].

Definition joined (es : list WorkflowEdge.t) (x y : string) : bool :=
  existsb (λ e, bool_decide (WorkflowEdge.source e = x) && bool_decide (WorkflowEdge.target e = y))
    es.
Lemma joined_sound es x y : joined es x y = true → edge_rel es x y.
Proof.
  intros (e & He & Hxy)%existsb_exists. rewrite andb_true_iff, !bool_decide_eq_true in Hxy.
  exists e. by rewrite list_elem_of_In.
Qed.

Fixpoint is_trail (spec : nspec) (h : list string) (x : string) : bool :=
  match h with
  | [] => bool_decide (x = WorkflowSpec.entrypoint spec)
  | y :: h' => joined (WorkflowSpec.edges spec) y x && is_trail spec h' y
  end.
Lemma is_trail_sound spec h x : is_trail spec h x = true → trail spec h x.
Proof.
  revert x; induction h as [|y h IH]; intros x; simpl.
  - intros ->%bool_decide_eq_true. constructor.
  - rewrite andb_true_iff. intros [Hj Ht]. constructor; [by apply IH|by apply joined_sound].
Qed.

Definition publisher : WorkflowNode.t := Eval vm_compute in
  match find_node demo_normal "publish" with
  | Some n => n
  | None => WorkflowNode.Build_t "" "" NodeConfig.RouterConfig NodePolicy.default
  end.

Lemma publish_protected_witness :
  since_worker demo_normal WorkflowNodeType.verify demo_trail
  ∧ ∃ g expires, approval_ok demo_normal demo_trail "publish" g
      ∧ WorkflowNode.config <$> find_node demo_normal g
        = Some (NodeConfig.ApprovalConfig ActionType.github_push_and_pr expires).
Proof.
  destruct (publish_protected demo demo_normal demo_snapshot publisher demo_trail demo_ok)
    as (Hv & _ & Hg);
    [apply (bool_decide_unpack _); vm_compute; exact I|reflexivity
    |apply is_trail_sound; vm_compute; reflexivity|].
  split; [exact Hv|exact Hg].
Defined.

Definition fan_out : Fanout.t := Eval vm_compute in
  default (Fanout.Build_t "" [] "" 0) (head (fanouts fan_normal)).

Lemma branch_isolated_witness : path fan_normal (Fanout.join_id fan_out) "finish".
Proof.
  destruct (branch_isolated fan fan_normal None fan_out "left" fan_ok) as (_ & _ & Hout);
    [vm_compute; constructor|vm_compute; constructor|].
  apply (Hout "left" "finish"); [apply (bool_decide_unpack _); vm_compute; exact I
    |apply (bool_decide_unpack _); vm_compute; exact I|].
  apply (rtc_l _ _ "merge"); [|apply rtc_once]; apply joined_sound; vm_compute; reflexivity.
Defined.

Lemma validated_depth_witness : Z.of_nat 1 + 1 ≤ MAX_GRAPH_DEPTH.
Proof.
  apply (validated_depth demo demo_normal (Some demo_snapshot) 1 "architect" "dispatch" demo_ok).
  eapply nsteps_l; [|constructor]. apply joined_sound. vm_compute. reflexivity.
Defined.

(** ** Normal forms and hashes *)

Lemma normalize_workflow_idem_witness : normalize_workflow (as_raw demo_normal) = Ok demo_normal.
Proof. apply (normalize_workflow_idem demo demo_normal). vm_compute. reflexivity. Defined.

Lemma demo_wf : WorkflowSpec.wf demo_normal.
Proof. apply (wo_wf _ _ _ demo_ok). Qed.

(** The demo with its nodes and edges in another order. *)
Definition demo_reversed : nspec :=
  with_graph demo_normal (reverse (WorkflowSpec.nodes demo_normal))
    (reverse (WorkflowSpec.edges demo_normal)).

Lemma content_hash_order_witness : content_hash demo_normal = content_hash demo_reversed.
Proof.
  apply content_hash_order; [exact demo_wf|apply (bool_decide_unpack _); vm_compute; exact I|].
  unfold same_up_to_order, demo_reversed, with_graph. cbn -[demo_normal reverse].
  split_and!; try reflexivity; symmetry; apply reverse_Permutation.
Defined.

(** ** Predicates *)

Definition approved : Predicate.t :=
  Predicate.Mk PredicateOperator.eq (Some "$.approval.decision") (JStr "approved") [].
Definition both : Predicate.t := Predicate.Mk PredicateOperator.and None JNull [approved; approved].

Lemma evaluate_predicate_decides_witness :
  decides [("approval", JObj [("decision", JStr "approved")])] both.
Proof. apply evaluate_predicate_decides. vm_compute. reflexivity. Defined.

(** ** Channels *)

Definition result (i : string) : jobj := [(i, JObj [("node_id", JStr i)])].

Lemma results_order_independent_witness :
  match foldM merge_by_id [] [result "a"; result "b"], foldM merge_by_id [] [result "b"; result "a"] with
  | Ok w, Ok w' => same_completions w w'
  | Err _, Err _ => True
  | _, _ => False
  end.
Proof.
  apply results_order_independent;
    [apply NoDup_nil_2
    |repeat constructor; apply (bool_decide_unpack _); vm_compute; exact I
    |apply perm_swap|intros Hn; inversion Hn].
Defined.

Lemma counters_nonneg d : forallb (λ kv : string * Z, Z.leb 0 kv.2) d = true → nonneg d.
Proof.
  rewrite forallb_forall. intros Hd k z Hk. apply dict_get_elem, list_elem_of_In, Hd in Hk.
  by apply Z.leb_le.
Qed.

Lemma max_map_grows_witness :
  ∃ v', dict_get "visit:main:a" [("visit:main:a", 2)] = Some v' ∧ 1 ≤ v'.
Proof.
  apply (max_map_grows [("visit:main:a", 1)] [("visit:main:a", 2)] [("visit:main:a", 2)]
           "visit:main:a" 1);
    [split; [apply (bool_decide_unpack _); vm_compute; exact I
            |apply counters_nonneg; reflexivity]
    |split; [apply (bool_decide_unpack _); vm_compute; exact I
            |apply counters_nonneg; reflexivity]
    |vm_compute; reflexivity|vm_compute; reflexivity].
Defined.

(** ** Node handlers *)

Definition pick (i : string) : WorkflowNode.t :=
  default (WorkflowNode.Build_t "" "" NodeConfig.RouterConfig NodePolicy.default)
    (find_node demo_normal i).
Definition reviewer_node : WorkflowNode.t := Eval vm_compute in pick "reviewer".
Definition developer_node : WorkflowNode.t := Eval vm_compute in pick "developer".
Definition ok_flag : jobj := [("passed", JBool true)].
Definition verified_state : WorkflowStateV1.t :=
  WorkflowStateV1.Build_t None None None None None None None None (Some ok_flag) None None None
    None None None None.
(** A handler that reports success. *)
Definition succeeds : option handler :=
  Some (λ _ _, Ok (WorkflowStateV1.Build_t None None None None None None (Some succeeded)
                     None None None None None None None None None)).
Definition ran (n : WorkflowNode.t) (st : WorkflowStateV1.t) : WorkflowStateV1.t :=
  match _factory n (effective_policy demo_normal n) demo_snapshot succeeds st with
  | Ok u => u
  | Err _ => WorkflowStateV1.empty
  end.
Definition reviewed_update : WorkflowStateV1.t := Eval vm_compute in ran reviewer_node verified_state.
Definition worked_update : WorkflowStateV1.t := Eval vm_compute in ran developer_node verified_state.
Definition worked_state : WorkflowStateV1.t := Eval vm_compute in
  match merged_state verified_state worked_update with
  | Ok st => st
  | Err _ => WorkflowStateV1.empty
  end.

Lemma factory_evidence_witness : passed (WorkflowStateV1.verification verified_state) = true.
Proof.
  apply (factory_evidence reviewer_node (effective_policy demo_normal reviewer_node) demo_snapshot
           succeeds verified_state reviewed_update); [vm_compute; reflexivity|].
  left. reflexivity.
Defined.

Lemma worker_invalidates_witness : passed (WorkflowStateV1.verification worked_state) = false.
Proof.
  apply (worker_invalidates developer_node (effective_policy demo_normal developer_node)
           demo_snapshot succeeds verified_state worked_update worked_state
           (ApprovalPolicy.Build_t None None None) "decision");
    [reflexivity|reflexivity|vm_compute; reflexivity|vm_compute; reflexivity].
Defined.

(** The developer node reports success; its update ends the evidence of the state. *)
Lemma developer_ran :
  _factory developer_node (effective_policy demo_normal developer_node) demo_snapshot succeeds verified_state
  = Ok worked_update.
Proof. vm_compute. reflexivity. Qed.
Lemma external_execution_witness :
  ∃ f u, succeeds = Some f
    ∧ executed developer_node (effective_policy demo_normal developer_node) verified_state u
        "main:developer:1" worked_update.
Proof.
  destruct (external_execution developer_node (effective_policy demo_normal developer_node) demo_snapshot
              succeeds verified_state worked_update developer_ran eq_refl) as (f & u & Hf & _ & Hu).
  exists f, u. split; [exact Hf|exact Hu].
Defined.

(** Two tasks, the second of which depends on the first. *)
Definition task (status : string) (deps : list string) : json :=
  JObj [("status", JStr status); ("dependencies", JArr (JStr <$> deps))].
Definition tasks : jobj := [("build", task "completed" []); ("test", task "pending" ["build"])].
Definition tasks_state : WorkflowStateV1.t :=
  WorkflowStateV1.Build_t None None None None None None None (Some [("items", JObj tasks)]) None
    None None None None None None None.
Definition dispatched : jobj := Eval vm_compute in
  match _dispatch tasks_state with Ok d => d | Err _ => [] end.

Lemma _dispatch_spec_witness : ready_task tasks "test".
Proof.
  destruct (_dispatch_spec tasks_state dispatched tasks) as [_ Hc];
    [reflexivity|apply (bool_decide_unpack _); vm_compute; exact I|vm_compute; reflexivity|].
  destruct Hc as [Hr _]. exact Hr.
Defined.

Lemma finalize_status_witness : ∃ s, [("status", JStr "failed")] = [("status", JStr s)]
  ∧ s ∈ final_statuses.
Proof.
  destruct (finalize_status WorkflowStateV1.empty Outcome.failed [("status", JStr "failed")])
    as (s & Hs & Hin & _); [vm_compute; reflexivity|].
  exists s. split; [exact Hs|exact Hin].
Defined.

(** A join whose two children have completed. *)
Definition children : list string := ["split:1:left"; "split:1:right"].
Definition joined_state : WorkflowStateV1.t :=
  WorkflowStateV1.Build_t None
    (Some [("split:1:left", JObj succeeded); ("split:1:right", JObj succeeded)])
    (Some children) (Some children) (Some [("visit:main:split", 1)]) None None None None None None
    None None None None None.
Definition join_update : jobj := Eval vm_compute in
  match join_results joined_state "main:merge:1" "split" with Ok d => d | Err _ => [] end.

Lemma join_results_complete_witness : "split:1:left" ∈ children.
Proof.
  destruct (join_results_complete joined_state "main:merge:1" "split" join_update) as [_ Hall];
    [vm_compute; reflexivity|].
  apply (Hall "split:1:left"). apply (bool_decide_unpack _); vm_compute; exact I.
Defined.

(** ** The cache *)

Definition small_cache : @CompileCache.t string Z := CompileCache.Build_t 1 [("old", 1)] false.
Lemma cache_roundtrip_witness :
  ∃ c', CompileCache.get "new" (CompileCache.put "new" 2 small_cache) = Ok (Some 2, c')
    ∧ Z.of_nat (length (CompileCache.entries c')) ≤ CompileCache.max_entries c'.
Proof.
  destruct (cache_roundtrip small_cache "new" 2) as (c' & Hg & _ & _ & Hl);
    [split; [apply (bool_decide_unpack _); vm_compute; exact I|split; vm_compute; discriminate]
    |reflexivity|].
  exists c'. split; [exact Hg|exact Hl].
Defined.

(** The canonical demo workflow that bootstrap_demo publishes validates without
issues against its own registry snapshot and compiles, with a recursion limit of
156. *)
Theorem canonical_demo_compiles :
  ∃ c, compile_workflow (raw_object demo) demo demo_snapshot ["organizer"] = Ok c
    ∧ compiled_spec c = demo_normal ∧ recursion_limit c = 156.
Proof. exists demo_compiled. split; [exact demo_compiles|done]. Qed.

(** ** Counter keys of iterators

Iteration keys are compared as they are, but the counters of the iterator ["x"]
include ["iterate:x:progress"], which is also the counter of an iterator
["x:progress"]: a step of the first uses up the bound of the second. *)

Definition iterator (k : string) : WorkflowEdge.t := {|
  WorkflowEdge.id := "e-" +:+ k; WorkflowEdge.source := "dispatch";
  WorkflowEdge.target := "developer"; WorkflowEdge.kind := WorkflowEdgeKind.iterate;
  WorkflowEdge.when := None; WorkflowEdge.priority := 0; WorkflowEdge.fallback := false;
  WorkflowEdge.retry_class := None; WorkflowEdge.iteration_key := Some k;
  WorkflowEdge.progress_path := Some "$.tasks.terminal_count";
  WorkflowEdge.max_iterations := Some 2;
|}.
Definition progressed : jobj := [("tasks", JObj [("terminal_count", JInt 2)])].

Theorem iterators_collide :
  iterate_choice progressed [] (iterator "x")
    = Ok (Take "developer" [("iterate:x", 1); ("iterate:x:progress", 2)])
  ∧ is_ok (iterate_choice progressed [] (iterator "x:progress")) = true
  ∧ is_ok (iterate_choice progressed [("iterate:x", 1); ("iterate:x:progress", 2)]
             (iterator "x:progress")) = false.
Proof. vm_compute. done. Qed.
