(* ===== verification/RuntimeScenarios.v ===== *)
(** * Runtime scenarios

A small control plane on which the theorems about run ownership, run commands and
routing are applied: two executors, a run with a claimed lease, and a route with a
demo provider. *)
From S2P Require Import Prelude Enums PyJson PyDecimal Failures Verification Registry.
From S2P Require Import WorkflowSpec Validate Database Ownership Commands Routing Demo.
From S2P Require Import Instances WorkflowScenarios.
From stdpp Require Import gmap.
From Stdlib Require Import QArith.
Local Close Scope Q_scope.
Local Open Scope Z_scope.
Local Open Scope stdpp_scope.

(** ** Tables *)

Definition a_run (status : RunStatus.t) (desired : DesiredRunState.t) : RunModel.t := {|
  RunModel.id := 1; RunModel.job_id := 7; RunModel.run_number := 1;
  RunModel.parent_run_id := None; RunModel.workflow_version_id := 3;
  RunModel.config_snapshot_id := 4; RunModel.langgraph_thread_id := "thread";
  RunModel.status := status; RunModel.desired_state := desired; RunModel.priority := 0;
  RunModel.mode := "demo"; RunModel.runtime_json := []; RunModel.claimable_at := 0;
  RunModel.created_at := 0; RunModel.version := 1;
|}.

Definition an_instance : OrchestratorInstanceModel.t :=
  OrchestratorInstanceModel.Build_t 0 0 false.

Definition tables (run : RunModel.t) (cs : list RunCommandModel.t) : db := {|
  migrated := true; runs := {[1%N := run]}; leases := []; commands := cs;
  jobs := {[7%N := JobStatus.ACTIVE]}; workflow_versions := ∅;
  instances := {["a" := an_instance; "b" := an_instance]};
  recovery := Some (RecoveryGenerationModel.Build_t 1 true);
  node_executions := []; effects := ∅; workers := WorkerTables.empty;
  accounts := CallTables.empty; events := [];
|}.

Lemma tables_keyed run cs : RunModel.id run = 1%N → keyed (tables run cs).
Proof. intros Hid i r Hr. unfold tables in Hr; simpl in Hr. by apply lookup_singleton_Some in Hr as [<- <-]. Qed.

Lemma leases_ok_nil : leases_ok [].
Proof. split; [by intros l ?%elem_of_nil|constructor|by intros l ? ?%elem_of_nil]. Qed.

(** ** Ownership *)

Definition d0 : db := tables (a_run RunStatus.QUEUED DesiredRunState.RUNNING) [].
Lemma d0_ok : tables_ok d0.
Proof. split; [by apply tables_keyed|apply leases_ok_nil]. Qed.

(** Executor [owner] claims at time [now], with a lease of 30 and capacity one. *)
Definition claims (owner : string) (now : Z) (d : db) : res own_error (option RunFence.t * db) :=
  claim owner 30 (Some 1) None (λ _, false) now now d.
Definition after (r : res own_error (option RunFence.t * db)) : db :=
  match r with Ok (_, d) => d | Err _ => d0 end.

Definition fence_a : RunFence.t := RunFence.Build_t 1 "a" 1 1.
Definition fence_b : RunFence.t := RunFence.Build_t 1 "b" 2 1.
Definition d1 : db := after (claims "a" 10 d0).
(** The lease of [a] expires at 40; [b] claims at 50. *)
Definition d2 : db := after (claims "b" 50 d1).

Lemma a_claims : claims "a" 10 d0 = Ok (Some fence_a, d1).
Proof. vm_compute. reflexivity. Qed.
Lemma b_claims : claims "b" 50 d1 = Ok (Some fence_b, d2).
Proof. vm_compute. reflexivity. Qed.

Lemma d1_step : step d0 d1.
Proof.
  apply (step_claim "a" 30 (Some 1) None (λ _, false) 10 10 d0 (Some fence_a) d1);
    [lia|exact a_claims].
Qed.
Lemma d2_step : step d1 d2.
Proof.
  apply (step_claim "b" 30 (Some 1) None (λ _, false) 50 50 d1 (Some fence_b) d2);
    [lia|exact b_claims].
Qed.
Lemma d1_ok : tables_ok d1.
Proof. apply (step_ok d0 d1 d0_ok d1_step). Qed.

(** A body that reads only. *)
Definition reads (run : RunModel.t) (d : db) : res own_error (unit * db) := Ok (tt, d).
Lemma reads_app : app_body reads.
Proof. intros run d u d' [= <- <-]. done. Qed.

Definition lease_a : RunLeaseModel.t := RunLeaseModel.Build_t 1 "a" 1 10 (Some 10) 40 None.
Lemma lease_a_in : lease_a ∈ leases d1.
Proof. vm_compute. constructor. Qed.

Lemma fence_a_accepted : fenced fence_a 20 21 reads d1 = Ok (tt, d1).
Proof. vm_compute. reflexivity. Qed.
Lemma fence_b_accepted : fenced fence_b 55 56 reads d2 = Ok (tt, d2).
Proof. vm_compute. reflexivity. Qed.

(** [a] commits, its lease expires, [b] claims the run and commits: [a] gave the run up
in between and is refused ever after. *)
Lemma fenced_exclusive_witness :
  same_lease fence_a fence_b
  ∨ 1 < 2 ∧ ∃ e e', rtc step d1 e ∧ step e e' ∧ rtc step e' d2 ∧ gives_up fence_a e e'
      ∧ ∀ d3, rtc step e' d3 →
          ∀ t t' (b : RunModel.t → db → res own_error (unit * db)) r, fenced fence_a t t' b d3 ≠ Ok r.
Proof.
  apply (fenced_exclusive d1 d2 fence_a fence_b 20 21 55 56 reads reads (tt, d1) (tt, d2));
    [exact d1_ok|reflexivity|exact fence_a_accepted|apply rtc_once, d2_step|exact fence_b_accepted].
Defined.

Lemma reachable_leases_ok_witness : leases_ok (leases d2).
Proof.
  apply (reachable_leases_ok d0 d2); [by apply tables_keyed|reflexivity|].
  eapply rtc_l; [exact d1_step|]. apply rtc_once, d2_step.
Defined.

Lemma superseded_forever_witness : fenced fence_a 55 56 reads d2 ≠ Ok (tt, d2).
Proof.
  apply (superseded_forever d1 d2 d2 fence_a fence_b "b" 30 (Some 1) None (λ _, false) 50 50 lease_a);
    [exact d1_ok|lia|exact lease_a_in|by split_and!|exact b_claims|reflexivity|apply rtc_refl].
Defined.

Lemma claim_selects_witness :
  ∃ r, runs d0 !! 1%N = Some r ∧ Ownership.eligible None 10 d0 r = true.
Proof.
  destruct (claim_selects "a" 30 (Some 1) None (λ _, false) 10 10 d0 fence_a d1)
    as (r & Hr & He & _); [exact d0_ok|lia|exact a_claims|].
  exists r. split; [exact Hr|exact He].
Defined.

Lemma claim_progress_witness : ∃ f d', claims "a" 10 d0 = Ok (Some f, d').
Proof.
  apply (claim_progress "a" 30 (Some 1) None (λ _, false) 10 10 d0 an_instance
           (RecoveryGenerationModel.Build_t 1 true) 1
           (a_run RunStatus.QUEUED DesiredRunState.RUNNING));
    try reflexivity; [exact d0_ok|].
  intros c Hc. injection Hc as <-. vm_compute. reflexivity.
Defined.

Lemma claim_capacity_witness : Z.of_nat (length (live_leases 10 d1)) ≤ 1.
Proof.
  apply (claim_capacity "a" 30 1 None (λ _, false) 10 10 d0 fence_a d1);
    [exact d0_ok|lia|exact a_claims].
Defined.

Lemma claim_authorizes_witness :
  ∃ r, runs d1 !! 1%N = Some r ∧ fenced fence_a 20 21 reads d1 = reads r d1.
Proof.
  apply (claim_authorizes "a" 30 (Some 1) None (λ _, false) 10 10 d0 fence_a d1 20 21 reads);
    [exact d0_ok|lia|exact a_claims|exact reads_app|lia|lia].
Defined.

(** ** Commands *)

Definition a_command (id : uuid) (sequence : Z) (kind : RunCommandKind.t) : RunCommandModel.t :=
  RunCommandModel.Build_t id 1 sequence kind CommandStatus.PENDING [] None.
Definition clock (i : uuid) : readings :=
  {| r_now := 100; r_applied := 101; r_fresh := 50 + i; r_created := 102 |}.
Definition applied_to (d : db) : db :=
  match Commands.apply 1 clock d with Ok d' => d' | Err _ => d end.

(** A running run with a pause, a resume and a cancellation pending. *)
Definition busy : db :=
  tables (a_run RunStatus.RUNNING DesiredRunState.RUNNING)
    [a_command 11 1 RunCommandKind.PAUSE; a_command 12 2 RunCommandKind.CANCEL;
     a_command 13 3 RunCommandKind.RESUME].
(** A failed run with a retry pending. *)
Definition failed_db : db :=
  tables (a_run RunStatus.FAILED DesiredRunState.RUNNING) [a_command 11 1 RunCommandKind.RETRY].

Lemma apply_drains_witness : pending 1 (applied_to busy) = [].
Proof.
  apply (apply_drains clock 1 (a_run RunStatus.RUNNING DesiredRunState.RUNNING) busy
           (applied_to busy));
    [by apply tables_keyed|apply (bool_decide_unpack _); vm_compute; exact I
    |reflexivity|vm_compute; reflexivity].
Defined.

Lemma apply_cancel_witness :
  ∃ r, runs (applied_to busy) !! 1%N = Some r ∧ RunModel.status r = RunStatus.CANCEL_REQUESTED.
Proof.
  destruct (apply_cancel clock 1 (a_run RunStatus.RUNNING DesiredRunState.RUNNING) busy
              (applied_to busy)) as (r & Hr & _ & Hs & _);
    [by apply tables_keyed|apply (bool_decide_unpack _); vm_compute; exact I|reflexivity
    |apply (bool_decide_unpack _); vm_compute; exact I|reflexivity|vm_compute; reflexivity|].
  exists r. split; [exact Hr|exact Hs].
Defined.

Lemma apply_terminal_witness :
  ∃ r, runs (applied_to failed_db) !! 1%N = Some r ∧ RunModel.status r = RunStatus.FAILED.
Proof.
  destruct (apply_terminal clock 1 (a_run RunStatus.FAILED DesiredRunState.RUNNING) failed_db
              (applied_to failed_db)) as (r & Hr & Hs & _);
    [by apply tables_keyed|apply (bool_decide_unpack _); vm_compute; exact I|reflexivity
    |apply (bool_decide_unpack _); vm_compute; exact I|vm_compute; reflexivity|].
  exists r. split; [exact Hr|exact Hs].
Defined.

Lemma apply_retry_witness :
  ∃ d' new, Commands.apply 1 clock failed_db = Ok d' ∧ runs d' !! 61%N = Some new
    ∧ RunModel.parent_run_id new = Some 1%N.
Proof.
  destruct (apply_retry clock 1 (a_run RunStatus.FAILED DesiredRunState.RUNNING) failed_db
              (a_command 11 1 RunCommandKind.RETRY) JobStatus.ACTIVE)
    as (d' & new & Ha & Hn & _ & _ & Hp & _);
    [by apply tables_keyed|reflexivity|reflexivity|reflexivity
    |apply (bool_decide_unpack _); vm_compute; exact I|vm_compute; reflexivity|reflexivity
    |vm_compute; discriminate|].
  exists d', new. split; [exact Ha|split; [exact Hn|exact Hp]].
Defined.

Lemma apply_numbers_witness : numbers_ok (runs (applied_to failed_db)).
Proof.
  apply (apply_numbers clock 1 failed_db (applied_to failed_db));
    [by apply tables_keyed| |apply (bool_decide_unpack _); vm_compute; exact I| |
     vm_compute; reflexivity].
  - intros i j r r' Hi Hj _ _. unfold failed_db, tables in Hi, Hj; simpl in Hi, Hj. apply lookup_singleton_Some in Hi as [<- _].
    by apply lookup_singleton_Some in Hj as [<- _].
  - intros c Hc. apply list_elem_of_singleton in Hc as ->. vm_compute. reflexivity.
Defined.

(** ** Routing *)

(** The registry records of the demo. *)
Definition record_of (d : string * RegistrySpec) : RegistryRecord.t := {|
  RegistryRecord.id := 100 + demo_refs d.1; RegistryRecord.revision_id := demo_refs d.1;
  RegistryRecord.revision := 1; RegistryRecord.key := d.1;
  RegistryRecord.display_name := d.1; RegistryRecord.description := "";
  RegistryRecord.enabled := true; RegistryRecord.archived := false;
  RegistryRecord.spec := d.2; RegistryRecord.content_hash := d.1;
  RegistryRecord.secret_status := SecretStatus.not_required;
  RegistryRecord.health := HealthStatus.unknown;
  RegistryRecord.circuit_state := CircuitState.closed; RegistryRecord.others := [];
|}.
Definition demo_records : gmap uuid RegistryRecord.t :=
  list_to_map ((λ d, (demo_refs d.1, record_of d)) <$> definitions demo_refs).

Definition route_spec : RoutePolicySpec.t := {|
  RoutePolicySpec.candidates := [RouteCandidate.Build_t (demo_refs "profile") 0];
  RoutePolicySpec.required_capabilities := []; RoutePolicySpec.purposes := purposes;
  RoutePolicySpec.allowed_data := [DataClassification.public];
  RoutePolicySpec.allow_remote := false; RoutePolicySpec.allow_unknown_health := true;
  RoutePolicySpec.failover_classes := [];
  RoutePolicySpec.spend := SpendPolicy.Build_t false 32000 4096 None None Decision3.deny;
|}.
Definition demo_route : RegistryRecord.t := record_of ("route", SRoutePolicy route_spec).
Definition preview : RoutePreviewRequest.t := {|
  RoutePreviewRequest.route_revision_id := demo_refs "route";
  RoutePreviewRequest.requirements :=
    RouteRequirements.Build_t "organizer" [] 0 1 DataClassification.public None;
  RoutePreviewRequest.failed_profile_revision_ids := [];
  RoutePreviewRequest.failure_class := None;
|}.

Lemma route_selects_witness :
  ∃ spec c, RegistryRecord.spec demo_route = SRoutePolicy spec
    ∧ c ∈ RoutePolicySpec.candidates spec
    ∧ RouteCandidate.profile_revision_id c = demo_refs "profile".
Proof.
  destruct (route_selects preview demo_route demo_records (demo_refs "profile"))
    as (spec & c & _ & _ & _ & _ & Hs & _ & Hc & Hp & _); [vm_compute; reflexivity|].
  exists spec, c. split; [exact Hs|split; [exact Hc|exact Hp]].
Defined.

Lemma route_allow_affordable_witness :
  ∃ p paid, affordable (RoutePolicySpec.spend route_spec)
              (RoutePreviewRequest.requirements preview) (ModelProfileSpec.pricing p) paid.
Proof.
  destruct (route_allow_affordable preview demo_route demo_records route_spec)
    as (c & r & p & pr & v & _ & _ & _ & Ha);
    [reflexivity|vm_compute; reflexivity|vm_compute; reflexivity|].
  exists p, (EgressPolicy.paid (ProviderSpec.egress v)). exact Ha.
Defined.

(** ** Retries and permissions *)

Definition backoff_rule : RetryRule := {|
  rule_failure_class := FailureClass.PROVIDER_TRANSIENT; max_retries := 5;
  initial_delay_ms := 100; multiplier := 2; exhaustion_action := ExhaustionAction.fail;
  max_delay_ms := 1000; jitter := Jitter.deterministic; allow_failover := true;
|}.
Definition retry_policy : RetryPolicySpec := {| rules := [backoff_rule] |}.
Definition retry_outcome : RetryDecision.t := Eval vm_compute in
  match evaluate_retry retry_policy FailureClass.PROVIDER_TRANSIENT
          [(FailureClass.PROVIDER_TRANSIENT, 2)] "job" with
  | Some d => d
  | None => RetryDecision.Build_t FailureClass.PROVIDER_TRANSIENT false 0 0
              ExhaustionAction.fail false false
  end.

Lemma retry_decision_witness : 100 ≤ RetryDecision.delay_ms retry_outcome ≤ 1000.
Proof.
  destruct (retry_decision retry_policy FailureClass.PROVIDER_TRANSIENT
              [(FailureClass.PROVIDER_TRANSIENT, 2)] "job" retry_outcome)
    as (rule & Hin & _ & _ & _ & _ & Hd & _); [vm_compute; reflexivity|vm_compute; reflexivity|].
  apply list_elem_of_singleton in Hin as ->. exact Hd.
Defined.

Definition permissions : PermissionPolicySpec.t :=
  PermissionPolicySpec.Build_t ["code"; "git"] [] [] [] Decision3.allow Decision3.allow
    Decision3.deny Decision3.deny Decision3.deny Decision3.deny Decision3.require_approval
    Decision3.deny Decision3.deny.

Lemma permission_allow_witness : "git" ∉ PermissionPolicySpec.approval_required_actions permissions.
Proof.
  apply (permission_allow permissions "git" ["code"] None false false);
    [vm_compute; reflexivity|vm_compute; reflexivity].
Defined.
