(* ===== verification/EffectScenarios.v ===== *)
(** * Effect scenarios

A run of the effect ledger on a small control plane: executor [a] executes the
organizer node of the demo, with an instruction for it, and the adapter answers as
a script says. *)
From S2P Require Import Prelude Enums PyJson PyDecimal Failures Verification Registry.
From S2P Require Import WorkflowSpec Normalize State NodeFactory Validate Database Ownership.
From S2P Require Import Commands Routing ModelSelection Effects Ledger Demo Instances.
From S2P Require Import WorkflowScenarios RuntimeScenarios.
From stdpp Require Import gmap.
Local Open Scope Z_scope.
Local Open Scope stdpp_scope.

#[export] Instance sample_redactor : Redactor := λ o, o.
#[export] Instance sample_uuid : UuidFormat := λ s, Z.to_N <$> digits 0 s.
#[export] Instance dump_evaluation : ModelDump RouteEvaluationData.t := λ e,
  JObj [("request", model_dump (RouteEvaluationData.request e))].

(** ** Scripts *)

(** What lets a call go on: a transaction, or an answer. *)
Inductive input := Commit (t : readings) | Answer (o : EffectObservation.t).

Definition feed (g : Z) (s : sys) (i : input) : option sys :=
  p ← procs s !! g;
  match i with
  | Commit t =>
      r ← proc_tx t p (Ledger.tables s);
      Some {| Ledger.tables := r.2; procs := <[g := r.1]> (procs s); dispatches := dispatches s |}
  | Answer o =>
      q ← proc_adapter o p;
      Some {| Ledger.tables := Ledger.tables s; procs := <[g := q]> (procs s);
              dispatches := if dispatching p then S (dispatches s) else dispatches s |}
  end.

Lemma feed_step run_id key g s i s' : feed g s i = Some s' → sys_step run_id key s s'.
Proof.
  unfold feed. destruct (procs s !! g) as [p|] eqn:Hp; [|done]. simpl. destruct i as [t|o].
  - destruct (proc_tx t p (Ledger.tables s)) as [[q d]|] eqn:Ht; [|done]. intros [= <-].
    by eapply sys_tx.
  - destruct (proc_adapter o p) as [q|] eqn:Ho; [|done]. intros [= <-]. by eapply sys_adapter.
Qed.

Definition play (g : Z) (l : list input) (s : sys) : option sys :=
  foldl (λ acc i, acc ≫= λ s, feed g s i) (Some s) l.

Lemma play_steps run_id key g l s s' : play g l s = Some s' → rtc (sys_step run_id key) s s'.
Proof.
  unfold play. revert s. induction l as [|i l IH]; intros s; simpl; [by intros [= <-]|].
  destruct (feed g s i) as [s1|] eqn:Hf.
  - intros Hl. eapply rtc_l; [by eapply feed_step|by apply IH].
  - intros Hl. exfalso. clear IH Hf. by induction l.
Qed.

(** ** Executor [a] *)

Definition instruction : json := JObj [("command_id", JStr "c1"); ("text", JStr "be brief")].
Definition instructed_run : RunModel.t :=
  RunModel.with_runtime [("instructions", JArr [instruction])]
    (a_run RunStatus.QUEUED DesiredRunState.RUNNING).
Definition claimed : db :=
  match claims "a" 10 (RuntimeScenarios.tables instructed_run []) with
  | Ok (_, d) => d
  | Err _ => d0
  end.

Definition organizer_node : WorkflowNode.t := Eval vm_compute in pick "organizer".
Definition organizer_policy : NodePolicy.t := Eval vm_compute in
  let p := effective_policy demo_normal organizer_node in
  NodePolicy.Build_t (NodePolicy.worker_selector p) (NodePolicy.model_route_ref p)
    (NodePolicy.retry_policy_ref p) (NodePolicy.permission_policy_ref p)
    (NodePolicy.verification p) (NodePolicy.approval p) (NodePolicy.timeout_seconds p)
    (NodePolicy.max_concurrency p) true (NodePolicy.accepts_set p).
Definition organizer_call : call := {|
  c_fence := fence_a;
  c_context := NodeContext.Build_t organizer_node organizer_policy demo_snapshot "main:organizer:1";
  c_state := WorkflowStateV1.empty;
  c_idempotent := false;
|}.

Definition at_time (t : Z) : readings := Build_readings t t t t t 77.
Definition observed (s : ObservedStatus.t) (r : option jobj) : input :=
  Answer (EffectObservation.Build_t s r).
Definition organized : jobj := [("outcome", JObj [("status", JStr "succeeded")])].

Definition begun : sys :=
  {| Ledger.tables := claimed; procs := ∅; dispatches := 0 |}.
Definition called : sys :=
  {| Ledger.tables := claimed; procs := {[1 := Handling organizer_call PPrepare]};
     dispatches := 0 |}.
(** Until the result is observed. *)
Definition script : list input :=
  [Commit (at_time 12); observed ObservedStatus.absent None; Commit (at_time 13);
   observed ObservedStatus.absent None; Commit (at_time 14);
   observed ObservedStatus.succeeded (Some organized)].
Definition observed_state : sys := default begun (play 1 script called).

(** A call as [Handling organizer_call p] at generation 1. *)
Definition point (s : sys) : option pc :=
  match procs s !! 1 with Some (Handling _ p) => Some p | _ => None end.

Example script_point : point observed_state
  = Some (PSettle 77 EffectStatus.SUCCEEDED (Some organized) (Returned (Some organized))).
Proof. vm_compute. reflexivity. Qed.

Lemma claimed_ok : tables_ok claimed.
Proof.
  assert (tables_ok (RuntimeScenarios.tables instructed_run [])) as Hok
    by (split; [by apply tables_keyed|apply leases_ok_nil]).
  refine (proj1 (step_ok _ _ Hok _)).
  apply (step_claim "a" 30 (Some 1) None (λ _, false) 10 10 _ (Some fence_a) claimed); [lia|].
  vm_compute. reflexivity.
Qed.

Lemma begun_start : start_state 1 "main:organizer:1" begun.
Proof.
  assert (effects claimed = ∅) as He by (vm_compute; reflexivity).
  split; simpl; [exact claimed_ok| |by rewrite He|done|done].
  split; by rewrite He.
Qed.

Lemma organizer_of_effect : of_effect 1 "main:organizer:1" 1 (Handling organizer_call PPrepare).
Proof. by split_and!. Qed.

Lemma called_step : sys_step 1 "main:organizer:1" begun called.
Proof.
  apply (sys_start 1 "main:organizer:1" begun 1 (Handling organizer_call PPrepare));
    [done|done|exact organizer_of_effect].
Qed.

Lemma observed_steps : rtc (sys_step 1 "main:organizer:1") begun observed_state.
Proof.
  eapply rtc_l; [exact called_step|]. apply (play_steps _ _ 1 script).
  unfold observed_state. destruct (play 1 script called) eqn:Hp; [done|].
  vm_compute in Hp. discriminate Hp.
Qed.

Lemma dispatch_at_most_once_witness : (dispatches observed_state ≤ 1)%nat.
Proof.
  apply (dispatch_at_most_once 1 "main:organizer:1" begun observed_state);
    [exact begun_start|exact observed_steps].
Defined.

Lemma ledger_refines_witness :
  rtc spec_step (0%nat, None) (abstraction 1 "main:organizer:1" observed_state).
Proof.
  apply (ledger_refines 1 "main:organizer:1" begun observed_state);
    [exact begun_start|exact observed_steps].
Defined.

(** The call at [observed_state], and the tables after its last transaction. *)
Definition settling : proc :=
  Handling organizer_call
    (PSettle 77 EffectStatus.SUCCEEDED (Some organized) (Returned (Some organized))).
Definition settled : db :=
  match proc_tx (at_time 15) settling (Ledger.tables observed_state) with
  | Some (_, d) => d
  | None => claimed
  end.

Lemma observed_point : procs observed_state !! 1 = Some settling.
Proof. vm_compute. reflexivity. Qed.
Lemma settles_point :
  proc_tx (at_time 15) settling (Ledger.tables observed_state)
  = Some (Handling organizer_call (PDone (Returned (Some organized))), settled).
Proof. vm_compute. reflexivity. Qed.

Definition done_state : sys := {|
  Ledger.tables := settled;
  procs := <[1 := Handling organizer_call (PDone (Returned (Some organized)))]>
             (procs observed_state);
  dispatches := dispatches observed_state;
|}.

Lemma returned_durable_witness :
  verdict 1 "main:organizer:1" (Ledger.tables done_state)
  = Some (EffectStatus.SUCCEEDED, Some organized).
Proof.
  refine (proj1 (returned_durable 1 "main:organizer:1" begun observed_state done_state done_state
    1 settling (at_time 15) organizer_call (Some organized) settled
    begun_start observed_steps observed_point settles_point eq_refl (rtc_refl _ _))).
Defined.

(** ** Cancellation *)

(** The tables of [observed_state] once the run is to be cancelled. *)
Definition cancelled_tables : db :=
  put_run (RunModel.with_desired DesiredRunState.CANCELLED
             (default instructed_run (runs (Ledger.tables observed_state) !! 1%N)))
    (Ledger.tables observed_state).
Definition cancelled_after : db :=
  match proc_tx (at_time 15) settling cancelled_tables with Some (_, d) => d | None => claimed end.

Lemma one_effect_ok d (e : EffectModel.t) :
  effects d = {[77%N := e]} → EffectModel.id e = 77%N → effects_ok d.
Proof.
  intros He Hid. split; rewrite He.
  - by intros i x [<- <-]%lookup_singleton_Some.
  - by intros i x i' x' [<- _]%lookup_singleton_Some [<- _]%lookup_singleton_Some.
Qed.

Lemma cancelled_run_effects_witness :
  no_progress (effects cancelled_tables) (effects cancelled_after).
Proof.
  refine (proj2 (cancelled_run_effects (at_time 15) settling cancelled_tables
    (Handling organizer_call (PDone (Raised cooperative_cancel))) cancelled_after
    (default instructed_run (runs cancelled_tables !! 1%N)) _ _ _ _));
    [eapply one_effect_ok; vm_compute; reflexivity|vm_compute; reflexivity
    |vm_compute; reflexivity|vm_compute; reflexivity].
Defined.

(** ** Instructions and models *)

Definition prepared_config : DispatchConfig.t := Eval vm_compute in
  match handler_tx organizer_call (at_time 12) PPrepare claimed with
  | Some (PInspect _ _ c, _) => c
  | _ => DispatchConfig.Build_t JNull JNull JNull
  end.
Definition prepared_tables : db :=
  match handler_tx organizer_call (at_time 12) PPrepare claimed with
  | Some (_, d) => d
  | None => claimed
  end.

Lemma instructions_once_witness :
  ∃ l, DispatchConfig.runtime_instructions prepared_config = JArr l.
Proof.
  destruct (instructions_once organizer_call (at_time 12) claimed 77 false prepared_config
              prepared_tables) as (run & Hrun & Hc); [vm_compute; reflexivity|].
  exists [instruction]. revert Hc. vm_compute. reflexivity.
Defined.

Definition selection : RouteEvaluationData.t :=
  match select_model (c_context organizer_call) [] None 12 with
  | Ok e => e
  | Err _ => RouteEvaluationData.Build_t (denied preview "" "" []) preview []
  end.

Lemma select_model_allows_witness :
  ∃ p, "organizer" ∈ ModelProfileSpec.purposes p.
Proof.
  destruct (select_model_allows (c_context organizer_call) [] None 12 selection)
    as (v & p & _ & _ & _ & _ & _ & Hp & _); [vm_compute; reflexivity|vm_compute; reflexivity|].
  exists p. exact Hp.
Defined.
