(* ===== verification/WorkerScenarios.v ===== *)
(** * Worker scenarios

Two workers, one on a host with two slots and one on a host with a single slot, and
the run that executor [a] holds: the theorems of [Scheduler.v], [WorkerSlots.v] and
[WorkerPool.v] at concrete inputs. *)
From S2P Require Import Prelude Enums PyJson Registry RawValidation Database Ownership.
From S2P Require Import Effects Scheduler WorkerSlots WorkerPool Demo Instances.
From S2P Require Import RuntimeScenarios EffectScenarios.
From stdpp Require Import gmap.
Local Open Scope Z_scope.
Local Open Scope stdpp_scope.

(** ** Workers *)

Definition spec_on (host : string) (n : Z) : WorkerSpec.t := {|
  WorkerSpec.adapter_kind := AdapterKind.demo;
  WorkerSpec.execution_host_label := "Local demo";
  WorkerSpec.capabilities := ["code"; "git"; "tests"];
  WorkerSpec.max_concurrency := n;
  WorkerSpec.labels := [];
  WorkerSpec.timeouts := TimeoutPolicy.Build_t 10 60 5;
  WorkerSpec.model_binding := ModelBinding.Build_t BindingMode.none [];
  WorkerSpec.deployment_configured := false;
  WorkerSpec.physical_resource_id := Some host;
  WorkerSpec.permitted_project_ids := [];
  WorkerSpec.execution_profile_revision_ids := [];
  WorkerSpec.observed_build_digest := None;
  WorkerSpec.observed_wrapper_version := None;
|}.
Definition spec_a : WorkerSpec.t := spec_on "host-a" 2.
Definition spec_b : WorkerSpec.t := spec_on "host-b" 1.

#[export] Instance sample_worker_spec : WorkerSpecModel := λ j,
  match j with
  | Some (JStr s) => if String.eqb s "a" then Some spec_a
                     else if String.eqb s "b" then Some spec_b else None
  | _ => None
  end.
#[export] Instance sample_worker_spec_laws : WorkerSpecModelLaws.
Proof.
  intros j s. destruct j as [[| | | |x| |]|]; try done. unfold worker_spec_validate, sample_worker_spec.
  destruct (String.eqb x "a"); [by intros [= <-]|].
  destruct (String.eqb x "b"); [by intros [= <-]|done].
Qed.
#[export] Instance sample_pool_spec : WorkerPoolSpecModel := λ j,
  Some (WorkerPoolSpec.Build_t [20%N; 21%N] [] [] 30).

(** ** Slots *)

Definition worker_tables : WorkerTables.t := {|
  WorkerTables.revisions :=
    {[20%N := ConfigurationRevisionModel.Build_t 10 (Some (JStr "a"));
      21%N := ConfigurationRevisionModel.Build_t 11 (Some (JStr "b"))]};
  WorkerTables.tasks := {[5%N := TaskModel.Build_t 1]};
  WorkerTables.attempts := {[6%N := TaskAttemptModel.Build_t 5; 7%N := TaskAttemptModel.Build_t 5;
                             8%N := TaskAttemptModel.Build_t 5]};
  WorkerTables.slots := [];
  WorkerTables.worker_leases := [];
  WorkerTables.assignments := [];
|}.

Definition s0 : db := set_workers worker_tables d1.

Lemma s0_ok : workers_ok s0.
Proof.
  split; [constructor|constructor|by intros ? ?%elem_of_nil|constructor|constructor|
          by intros ? ?%elem_of_nil].
Qed.

Definition new_slot (k : Z) : uuid := (100 + Z.to_N k)%N.
Definition acquires (attempt new_lease : uuid) (d : db) : res own_error (WorkerSlotFence.t * db) :=
  acquire fence_a 30 20 attempt spec_a new_slot new_lease 20 20 20 d.
Definition then_ {A} (r : res own_error (A * db)) : db :=
  match r with Ok (_, d) => d | Err _ => s0 end.

Definition slot_fence (lease : uuid) (slot generation expiry : Z) : WorkerSlotFence.t :=
  WorkerSlotFence.Build_t lease 20 slot generation 1 expiry (Some "host-a").

(** Attempts 6 and 7 take the two slots; attempt 8 finds none until the first is
released. *)
Definition s1 : db := then_ (acquires 6 200 s0).
Definition s2 : db := then_ (acquires 7 201 s1).
Definition s3 : db := then_ (release fence_a (slot_fence 200 0 1 50) true 22 22 22 s2).
Definition s4 : db := then_ (acquires 8 202 s3).

Lemma s1_acquired : acquires 6 200 s0 = Ok (slot_fence 200 0 1 50, s1).
Proof. vm_compute. reflexivity. Qed.
Lemma s2_acquired : acquires 7 201 s1 = Ok (slot_fence 201 1 1 50, s2).
Proof. vm_compute. reflexivity. Qed.
Lemma s2_full : acquires 8 202 s2 = Err capacity_unavailable.
Proof. vm_compute. reflexivity. Qed.
Lemma s3_released : release fence_a (slot_fence 200 0 1 50) true 22 22 22 s2 = Ok (tt, s3).
Proof. vm_compute. reflexivity. Qed.
Lemma s4_acquired : acquires 8 202 s3 = Ok (slot_fence 202 0 2 50, s4).
Proof. vm_compute. reflexivity. Qed.

Lemma acquires_step attempt new_lease d c d' :
  acquires attempt new_lease d = Ok (c, d') → wstep d d'.
Proof. apply w_acquire. Qed.
Lemma s2_reached : rtc wstep s0 s2.
Proof.
  eapply rtc_l; [exact (acquires_step _ _ _ _ _ s1_acquired)|].
  apply rtc_once. exact (acquires_step _ _ _ _ _ s2_acquired).
Qed.

(** ** The theorems on slots *)

Lemma capacity_bound_witness : slots_in_use "host-a" (workers s2) ≤ 128.
Proof. apply (capacity_bound s0 s2 "host-a" 2); [exact s0_ok|exact s2_reached|lia]. Defined.

Lemma slot_exclusive_witness :
  ∃ row, require fence_a (slot_fence 200 0 1 50) 25 s2 = Ok row ∧ row = row.
Proof.
  eexists. split; [vm_compute; reflexivity|].
  refine (proj1 (slot_exclusive s0 s2 fence_a fence_a (slot_fence 200 0 1 50)
    (slot_fence 200 0 1 60) 25 26 _ _ s0_ok s2_reached _ _ _ _ _));
    [vm_compute; reflexivity|vm_compute; reflexivity|reflexivity|done|reflexivity].
Defined.

(** The first lease while it was held. *)
Definition first_lease : WorkerLeaseModel.t :=
  WorkerLeaseModel.Build_t 200 100 20 1 6 "a" 1 1 20 20 50 None.
Lemma first_lease_passed : require fence_a (slot_fence 200 0 1 50) 25 s2 = Ok first_lease.
Proof. vm_compute. reflexivity. Qed.
Lemma released_forever_witness :
  require fence_a (slot_fence 200 0 1 50) 25 s4 ≠ Ok first_lease.
Proof.
  apply (released_forever s3 s4).
  - apply (wsteps_ok s0 s3 s0_ok). etrans; [exact s2_reached|]. apply rtc_once.
    eapply w_release, s3_released.
  - eexists. split; [vm_compute; left|]. by vm_compute.
  - apply rtc_once. exact (acquires_step _ _ _ _ _ s4_acquired).
Defined.

Lemma acquire_returns_witness :
  ∃ c d' l, acquire_body fence_a 30 20 6 spec_a new_slot 200 20
              (a_run RunStatus.CLAIMING DesiredRunState.RUNNING) s0 = Ok (c, d')
    ∧ WorkerLeaseModel.task_attempt_id l = 6%N.
Proof.
  destruct (acquire_returns fence_a 30 20 6 spec_a new_slot 200 20
    (a_run RunStatus.CLAIMING DesiredRunState.RUNNING) s0 10 "host-a"
    [WorkerSlotModel.Build_t 100 10 "host-a" 0 0; WorkerSlotModel.Build_t 101 10 "host-a" 1 0])
    as [[_ Hfull]|(c & d' & l & Ha & _ & _ & Hl & _)].
  - exact s0_ok.
  - reflexivity.
  - reflexivity.
  - vm_compute. reflexivity.
  - vm_compute. reflexivity.
  - by intros ? ?%elem_of_nil.
  - by vm_compute in Hfull.
  - by exists c, d', l.
Defined.

(** A later revision of the worker of [host-a] is placed on [host-b]. *)
Definition s_moved : db := set_workers (WorkerTables.Build_t
  {[20%N := ConfigurationRevisionModel.Build_t 10 (Some (JStr "b"))]}
  (WorkerTables.tasks worker_tables) (WorkerTables.attempts worker_tables)
  (WorkerTables.slots (workers s1)) [] []) s1.

Lemma moved_worker_blocked_witness :
  acquire_body fence_a 30 20 7 spec_b new_slot 300 20
    (a_run RunStatus.CLAIMING DesiredRunState.RUNNING) s_moved = Err integrity_error.
Proof.
  apply (moved_worker_blocked fence_a 30 20 7 spec_b new_slot 300 20 _ s_moved 10 "host-b"
    (WorkerSlotModel.Build_t 100 10 "host-a" 0 1)).
  - vm_compute. reflexivity.
  - vm_compute. left.
  - reflexivity.
  - vm_compute. by split.
  - intros x Hx Hr.
    assert (WorkerTables.slots (workers s_moved)
      = [WorkerSlotModel.Build_t 100 10 "host-a" 0 1; WorkerSlotModel.Build_t 101 10 "host-a" 1 0])
      as Hss by (vm_compute; reflexivity).
    rewrite Hss in Hx. apply elem_of_cons in Hx as [->|Hx]; [discriminate Hr|].
    apply list_elem_of_singleton in Hx as ->. discriminate Hr.
Defined.

(** ** The theorems on selection *)

(** The run is the demo run of a mission. *)
Definition mission_run : RunModel.t :=
  RunModel.with_runtime [("mission_id", JStr "9")]
    (a_run RunStatus.CLAIMING DesiredRunState.RUNNING).
Definition configurations : gmap uuid ConfigurationModel.t :=
  {[10%N := ConfigurationModel.Build_t true None; 11%N := ConfigurationModel.Build_t true None]}.

(** Both slots of [host-a] are taken, so the worker on [host-b] is selected. *)
Definition selected_b : EligibleWorker.t := {|
  EligibleWorker.revision_id := 21;
  EligibleWorker.physical_resource_id := "host-b";
  EligibleWorker.capabilities := list_to_set ["code"; "git"; "tests"];
  EligibleWorker.permitted_project_ids := ∅;
  EligibleWorker.execution_profile_ids := ∅;
  EligibleWorker.capacity := 1;
  EligibleWorker.slots_in_use := 0;
  EligibleWorker.health := "healthy";
  EligibleWorker.observed_at := Some 20;
  EligibleWorker.enabled := true;
|}.

Lemma selected_not_saturated_witness :
  ∃ candidates, offers configurations ∅ (λ _, 20) mission_run (workers s2) [20%N; 21%N]
                = Ok candidates
    ∧ EligibleWorker.revision_id selected_b ∈ [20%N; 21%N].
Proof.
  destruct (selected_not_saturated configurations ∅ (λ _, 20) 21 mission_run 4 ∅ [30%N]
    [20%N; 21%N] s0 s2 selected_b) as (cs & m & sec & Hcs & Hin & _).
  - exact s0_ok.
  - exact s2_reached.
  - apply (bool_decide_unpack _). vm_compute. exact I.
  - vm_compute. reflexivity.
  - exists cs. split; [exact Hcs|exact Hin].
Defined.

Definition a_request : AssignmentRequest.t := request_of mission_run 9 4 ∅ 30.
Definition worker_on (host : string) (revision : uuid) (capacity in_use : Z) : EligibleWorker.t :=
  EligibleWorker.Build_t revision host {["code"; "git"]} ∅ ∅ capacity in_use "healthy" (Some 20) true.
(** Three registrations of two hosts. *)
Definition pool : list EligibleWorker.t :=
  [worker_on "host-a" 22 3 1; worker_on "host-b" 21 1 0; worker_on "host-a" 20 3 1].

Lemma pool_distinct : NoDup (EligibleWorker.revision_id <$> pool).
Proof. apply (bool_decide_unpack _). vm_compute. exact I. Qed.

Lemma elem_of_pool w : w ∈ pool → w = worker_on "host-a" 22 3 1 ∨ w = worker_on "host-b" 21 1 0
                                   ∨ w = worker_on "host-a" 20 3 1.
Proof. unfold pool. rewrite !elem_of_cons, elem_of_nil. tauto. Qed.

Lemma select_worker_spec_witness :
  ∃ o, select_worker a_request pool 21 ∅ ∅ false = Ok (o, reason o).
Proof.
  destruct (select_worker_spec a_request pool 21 ∅ ∅ false) as (o & Ho & _); [|exact pool_distinct|].
  - intros w [->|[->| ->]]%elem_of_pool; simpl; lia.
  - by exists o.
Defined.

Lemma select_worker_perm_witness :
  select_worker a_request pool 21 ∅ ∅ false = select_worker a_request (reverse pool) 21 ∅ ∅ false.
Proof.
  apply (select_worker_perm a_request pool (reverse pool) 21 ∅ ∅ false).
  - symmetry. apply reverse_Permutation.
  - exact pool_distinct.
  - by intros w [->|[->| ->]]%elem_of_pool.
Defined.

Lemma fair_order_spec_witness :
  fair_order [a_request] ∅ ≡ₚ [a_request].
Proof. apply (fair_order_spec [a_request] ∅). apply NoDup_singleton. Defined.
