(* ===== verification/ProviderScenarios.v ===== *)
(** * Provider scenarios

The circuit of a demo provider with a threshold of two failures, on which the theorems
of [Circuit.v] are applied. *)
From S2P Require Import Prelude Enums PyJson Registry Circuit Demo Instances.
From stdpp Require Import gmap.
Local Open Scope Z_scope.
Local Open Scope stdpp_scope.

Definition demo_provider : RegistrySpec :=
  SProvider {|
    ProviderSpec.provider_kind := ProviderKind.demo;
    ProviderSpec.base_url := None;
    ProviderSpec.locality := Locality.local;
    ProviderSpec.egress := EgressPolicy.Build_t [DataClassification.public] false false;
    ProviderSpec.timeouts := timeouts;
    ProviderSpec.retry_policy_revision_id := None;
    ProviderSpec.circuit := CircuitPolicy.Build_t 2 30 60 |}.
Definition two : CircuitPolicy.t := CircuitPolicy.Build_t 2 30 60.
Definition sec (n : Z) : Z := n * 1000000.

Definition h0 : tables := Build_tables {[1%N := Some demo_provider; 2%N := Some demo_provider]} ∅ [].
Definition ran (ops : list (uuid * op)) (d : tables) : list (uuid * answer) * tables :=
  match exec ops d with Ok r => r | Err _ => ([], d) end.

Definition failure (t : Z) : uuid * op := (1%N, Observe two false None None (sec t)).
(** A success first, so that the row exists and counts from its window. *)
Definition h1 : tables := (ran [(1%N, Observe two true None None (sec 0))] h0).2.
Definition h2 : tables := (ran [failure 100; failure 110] h1).2.

Lemma circuit_refines_witness :
  ∃ outs d', exec [failure 100; (2%N, Acquire two (sec 105)); failure 110] h0 = Ok (outs, d')
    ∧ of_revision 1%N outs = [Observed true; Observed true].
Proof.
  eexists _, _. split; [vm_compute; reflexivity|].
  refine (proj1 (circuit_refines 1 [failure 100; (2%N, Acquire two (sec 105)); failure 110] h0 _ _ _ _));
    vm_compute; reflexivity.
Defined.

Lemma circuit_trips_witness : Forall (eq (Observed true)) [Observed true; Observed true].
Proof.
  refine (proj1 (circuit_trips 1 two h1 (succeed None (sec 0) ProviderHealthModel.initial) (sec 100)
    [sec 110] [(1%N, Observed true); (1%N, Observed true)] h2 _ _ _ _ _ _ _)).
  - reflexivity.
  - vm_compute. reflexivity.
  - reflexivity.
  - vm_compute. reflexivity.
  - repeat constructor. by vm_compute.
  - by vm_compute.
  - vm_compute. reflexivity.
Defined.

(** The circuit is open until 140; a probe is granted at 150, and strangers are refused
until 180. *)
Definition open_row : ProviderHealthModel.t :=
  ProviderHealthModel.Build_t HealthStatus.unavailable CircuitState.open 2 (Some (sec 100))
    (Some (sec 140)) None (Some (sec 110)) 3.
Definition h3 : tables := (ran [(1%N, Acquire two (sec 150))] h2).2.
Definition strangers : list (uuid * op) :=
  [(1%N, Acquire two (sec 155)); (1%N, Observe two true None None (sec 160));
   (2%N, Acquire two (sec 300)); (1%N, Observe two true None (Some 3) (sec 170))].

Lemma single_probe_witness :
  ∃ outs d', exec strangers h3 = Ok (outs, d') ∧ Forall refused (of_revision 1%N outs).
Proof.
  eexists _, _. split; [vm_compute; reflexivity|].
  refine (proj1 (single_probe 1 two (sec 150) h2 open_row 4 h3 strangers _ _ _ _ _ _ _)).
  - vm_compute. reflexivity.
  - done.
  - vm_compute. reflexivity.
  - repeat constructor; by vm_compute.
  - vm_compute. reflexivity.
Defined.

Lemma probe_recovers_witness :
  ∃ d', exec [(1%N, Acquire two (sec 150)); (1%N, Observe two true None (Some 4) (sec 160))] h2
        = Ok ([(1%N, Version (Some 4)); (1%N, Observed true)], d').
Proof.
  destruct (probe_recovers 1 two None true h2 (sec 140) 3 (sec 150) (sec 160)) as (d' & He & _).
  - eexists. vm_compute. reflexivity.
  - vm_compute. by split_and!.
  - by vm_compute.
  - by vm_compute.
  - exists d'. exact He.
Defined.
