(* ===== verification/ModelScenarios.v ===== *)
(** * Model call scenarios

A paid call of the run that executor [a] holds, under a route that caps the run and a
team budget of two calls: the theorems of [ModelCalls.v] at concrete inputs. *)
From S2P Require Import Prelude Enums PyJson PyDecimal PyDecimalText Failures Registry Database.
From S2P Require Import WorkflowSpec Ownership Routing Effects Accounting Budget ModelCalls Demo Instances.
From S2P Require Import RuntimeScenarios EffectScenarios.
From stdpp Require Import gmap.
Local Open Scope Z_scope.
Local Open Scope stdpp_scope.

(** ** Configuration *)

(** One dollar per million tokens. *)
Definition price : Pricing.t := {|
  Pricing.status := PricingStatus.known; Pricing.currency := "USD";
  Pricing.input_per_million := Some (dec_of_Z 1); Pricing.cached_per_million := None;
  Pricing.output_per_million := Some (dec_of_Z 2); Pricing.source := "list";
  Pricing.effective_at := None;
|}.
Definition paid_provider : ProviderSpec.t := {|
  ProviderSpec.provider_kind := ProviderKind.openai;
  ProviderSpec.base_url := Some "https://models.example";
  ProviderSpec.locality := Locality.remote;
  ProviderSpec.egress := EgressPolicy.Build_t [DataClassification.public] true true;
  ProviderSpec.timeouts := timeouts;
  ProviderSpec.retry_policy_revision_id := None;
  ProviderSpec.circuit := CircuitPolicy.Build_t 2 30 60;
|}.
Definition paid_profile : ModelProfileSpec.t := {|
  ModelProfileSpec.provider_revision_id := 31;
  ModelProfileSpec.model_identifier := "model"; ModelProfileSpec.purposes := ["architect"];
  ModelProfileSpec.capabilities := []; ModelProfileSpec.context_limit := 10000;
  ModelProfileSpec.output_limit := 1000; ModelProfileSpec.structured_json := true;
  ModelProfileSpec.tool_calls := false; ModelProfileSpec.streaming := false;
  ModelProfileSpec.locality := Locality.remote; ModelProfileSpec.parameters := [];
  ModelProfileSpec.usage_reporting := UsageReporting.exact; ModelProfileSpec.pricing := price;
|}.
Definition capped : SpendPolicy.t := {|
  SpendPolicy.allow_paid := true; SpendPolicy.max_input_tokens := 5000;
  SpendPolicy.max_output_tokens := 1000; SpendPolicy.max_call_cost := None;
  SpendPolicy.max_run_cost := Some (Dec 5 (-2)); SpendPolicy.on_exceeded := Decision3.deny;
|}.
Definition paid_route : RoutePolicySpec.t := {|
  RoutePolicySpec.candidates := [];
  RoutePolicySpec.required_capabilities := []; RoutePolicySpec.purposes := ["architect"];
  RoutePolicySpec.allowed_data := [DataClassification.public];
  RoutePolicySpec.allow_remote := true; RoutePolicySpec.allow_unknown_health := true;
  RoutePolicySpec.failover_classes := []; RoutePolicySpec.spend := capped;
|}.

(** ** Parameters *)

#[export] Instance sample_text_redactor : TextRedactor := λ _, false.
#[export] Instance sample_registry_spec : RegistrySpecModel := λ j,
  match j with
  | Some (JStr s) => if String.eqb s "provider" then Some (SProvider paid_provider)
                     else if String.eqb s "profile" then Some (SModelProfile paid_profile) else None
  | _ => None
  end.
#[export] Instance sample_accounting : AccountingModel := λ _, None.
#[export] Instance sample_uuid5 : Uuid5 := λ u s, (u * 65536 + checksum s 0)%N.

#[export] Instance dump_tool : ModelDump ProviderTool.t := λ t, JStr (ProviderTool.name t).
#[export] Instance dump_spend : ModelDump SpendPolicy.t := λ p,
  JObj [("allow_paid", JBool (SpendPolicy.allow_paid p))].
#[export] Instance dump_usage : ModelDump Usage.t := λ u,
  JObj [("input_tokens", opt_json JInt (Usage.input_tokens u));
        ("output_tokens", opt_json JInt (Usage.output_tokens u))].
#[export] Instance dump_cost : ModelDump Cost.t := λ c,
  JObj [("amount", opt_json (λ d, JStr (dec_str d)) (Cost.amount c));
        ("status", JStr (CostStatus.value (Cost.status c)))].
#[export] Instance dump_accounting : ModelDump AccountingRecord.t := λ r,
  JObj [("usage", model_dump (AccountingRecord.usage r)); ("cost", model_dump (AccountingRecord.cost r));
        ("demo", JBool (AccountingRecord.demo r))].
#[export] Instance dump_provider_request : ModelDump ProviderRequest.t := λ r,
  JStr (ProviderRequest.text r).
#[export] Instance dump_failure : ModelDump ProviderFailure.t := λ f,
  JStr (FailureClass.value (ProviderFailure.failure_class f)).
#[export] Instance dump_result : ModelDump ProviderResult.t := λ r,
  JObj [("failure", opt_json model_dump (ProviderResult.failure r));
        ("structured", opt_json JObj (ProviderResult.structured r))].

(** A result with the given outcome. *)
Definition result_with (failure : option ProviderFailure.t) (structured : option jobj) (u : Usage.t)
    : ProviderResult.t := {|
  ProviderResult.profile_revision_id := 30; ProviderResult.provider_revision_id := 31;
  ProviderResult.model_identifier := "model"; ProviderResult.structured := structured;
  ProviderResult.request_id := None; ProviderResult.latency_ms := 5;
  ProviderResult.usage := u; ProviderResult.failure := failure; ProviderResult.others := [];
|}.
Definition failure_with (c : FailureClass.t) : ProviderFailure.t :=
  ProviderFailure.Build_t c "" "" false None None.

#[export] Instance sample_result : ResultModel := λ j,
  match j with
  | JObj o =>
      let failure := match dict_get "failure" o with
                     | Some (JStr s) => failure_with <$> enum_of_value s
                     | _ => None
                     end in
      let structured := match dict_get "structured" o with Some (JObj x) => Some x | _ => None end in
      Some (result_with failure structured no_usage)
  | _ => None
  end.
#[export] Instance sample_result_laws : ResultModelLaws.
Proof.
  intros r. eexists. split; [reflexivity|]. cbn. unfold _structured.
  destruct (ProviderResult.failure r) as [f|]; simpl.
  - unfold model_dump, dump_failure.
    by destruct (ProviderFailure.failure_class f).
  - by destruct (ProviderResult.structured r).
Qed.

(** ** The call *)

Definition call_tables : WorkerTables.t := {|
  WorkerTables.revisions :=
    {[30%N := ConfigurationRevisionModel.Build_t 3 (Some (JStr "profile"));
      31%N := ConfigurationRevisionModel.Build_t 4 (Some (JStr "provider"));
      32%N := ConfigurationRevisionModel.Build_t 5 None]};
  WorkerTables.tasks := ∅; WorkerTables.attempts := ∅; WorkerTables.slots := [];
  WorkerTables.worker_leases := []; WorkerTables.assignments := [];
|}.
Definition team_run : RunModel.t :=
  RunModel.with_runtime [("mission_id", JStr (uuid_str 40)); ("team_version_id", JStr (uuid_str 41))]
    (a_run RunStatus.QUEUED DesiredRunState.RUNNING).
(** The run as [a] claims it. *)
Definition before_call : db :=
  set_workers call_tables (after (claims "a" 10 (RuntimeScenarios.tables team_run []))).

Definition a_call : model_call := {|
  mc_fence := fence_a; mc_provider := paid_provider; mc_profile := paid_profile;
  mc_provider_id := 31; mc_profile_id := 30;
  mc_budget := BudgetGateway.Build_t (Some paid_route) (Some 32%N) (Some 2) (Some 40%N) (Some 41%N);
  mc_call_id := 50;
  mc_request := {|
    ProviderRequest.purpose := "architect"; ProviderRequest.text := "Plan the work";
    ProviderRequest.output_tokens := 100; ProviderRequest.structured_schema := None;
    ProviderRequest.tools := []; ProviderRequest.correlation_id := "call";
    ProviderRequest.run_id := Some 1%N; ProviderRequest.project_id := None;
    ProviderRequest.task_id := None; ProviderRequest.node_id := None;
    ProviderRequest.data_classification := DataClassification.public |};
|}.
Definition clock (n : Z) : call_readings := Build_call_readings n n n.
Definition good : ProviderResult.t :=
  result_with None (Some [("tasks", JArr [])])
    (Usage.Build_t (Some 200) None (Some 50) None UsageProvenance.exact).

(** One execution returns; a second one finds the receipt. *)
Definition sys0 : msys := {| m_db := before_call; m_procs := ∅; m_dispatches := 0 |}.
Definition txs (p : mpc) (n : Z) (d : db) : mpc * db := default (p, d) (invoke_tx a_call (clock n) p d).
Definition invoked : db := (txs MBegin 20 before_call).2.
Definition answered : db := (txs (MReceipt good) 22 invoked).2.
Definition value : option jobj := Some [("tasks", JArr [])].

Example begins_call : invoke_tx a_call (clock 20) MBegin before_call = Some (MInvoke, invoked).
Proof. vm_compute. reflexivity. Qed.
Example stores_answer :
  invoke_tx a_call (clock 22) (MReceipt good) invoked = Some (MDone (Returned value), answered).
Proof. vm_compute. reflexivity. Qed.
Example replays_answer :
  invoke_tx a_call (clock 24) MBegin answered = Some (MDone (Returned value), answered).
Proof. vm_compute. reflexivity. Qed.
(** The two executions have cost 200 and 50 tokens once: 0.0003 dollars. *)
Example answered_spend : run_spend 1 answered = Ok (Some (Dec 300 (-6))).
Proof. vm_compute. reflexivity. Qed.

(** A third execution while the first waits for its answer is refused. *)
Example refuses_second : invoke_tx a_call (clock 21) MBegin invoked
  = Some (MDone (Raised (ambiguous "model call requires receipt reconciliation")), invoked).
Proof. vm_compute. reflexivity. Qed.

Lemma sys0_start : mstart 1 50 sys0.
Proof.
  split; [|vm_compute; reflexivity|vm_compute; reflexivity|vm_compute; reflexivity|done|done].
  assert (keyed (after (claims "a" 10 (RuntimeScenarios.tables team_run [])))) as Hk.
  { assert (tables_ok (RuntimeScenarios.tables team_run [])) as Hok
      by (split; [by apply tables_keyed|apply leases_ok_nil]).
    apply (step_ok _ _ Hok). apply (step_claim "a" 30 (Some 1) None (λ _, false) 10 10 _ (Some fence_a));
      [lia|]. vm_compute. reflexivity. }
  exact Hk.
Qed.

Definition sys1 : msys :=
  {| m_db := before_call; m_procs := {[0%nat := (a_call, MBegin)]}; m_dispatches := 0 |}.
Lemma sys1_reached : rtc (msys_step 1 50) sys0 sys1.
Proof. apply rtc_once. apply (ms_start 1 50 sys0 0 a_call (Ok tt)); done. Qed.

Definition sys2 : msys :=
  {| m_db := invoked; m_procs := <[0%nat := (a_call, MInvoke)]> (m_procs sys1); m_dispatches := 0 |}.
Lemma sys2_reached : rtc (msys_step 1 50) sys0 sys2.
Proof.
  eapply rtc_r; [exact sys1_reached|].
  apply (ms_tx 1 50 sys1 0 a_call MBegin (clock 20) MInvoke invoked); [done|exact begins_call].
Qed.

Definition sys3 : msys :=
  {| m_db := invoked; m_procs := <[0%nat := (a_call, MReceipt good)]> (m_procs sys2); m_dispatches := 1 |}.
Definition sys4 : msys :=
  {| m_db := answered; m_procs := <[0%nat := (a_call, MDone (Returned value))]> (m_procs sys3);
     m_dispatches := 1 |}.
Definition sys5 : msys :=
  {| m_db := answered; m_procs := <[1%nat := (a_call, MBegin)]> (m_procs sys4); m_dispatches := 1 |}.
Definition sys6 : msys :=
  {| m_db := answered; m_procs := <[1%nat := (a_call, MDone (Returned value))]> (m_procs sys5);
     m_dispatches := 1 |}.
Lemma sys6_reached : rtc (msys_step 1 50) sys0 sys6.
Proof.
  eapply rtc_trans; [exact sys2_reached|].
  eapply rtc_l; [apply (ms_adapter 1 50 sys2 0 a_call MInvoke (Ok good) (MReceipt good)); done|].
  eapply rtc_l;
    [apply (ms_tx 1 50 sys3 0 a_call (MReceipt good) (clock 22) _ _ ltac:(done) stores_answer)|].
  eapply rtc_l; [apply (ms_start 1 50 sys4 1 a_call (Ok tt)); done|].
  apply rtc_once. apply (ms_tx 1 50 sys5 1 a_call MBegin (clock 24) _ _ ltac:(done) replays_answer).
Qed.

Lemma inference_once_witness : (m_dispatches sys6 ≤ 1)%nat.
Proof. exact (proj1 (inference_once 1 50 sys0 sys6 sys0_start sys6_reached)). Defined.

Lemma model_result_stable_witness : value = value.
Proof.
  apply (model_result_stable 1 50 sys0 sys6 0 1 a_call a_call value value sys0_start sys6_reached);
    reflexivity.
Defined.

Lemma paid_inference_within_cap_witness :
  ∃ route j total, BudgetGateway.bound (mc_budget a_call) = Some (route, j)
  ∧ run_spend 1 before_call = Ok total
  ∧ (SpendPolicy.valid (RoutePolicySpec.spend route) = true →
     affordable (RoutePolicySpec.spend route) (requirements_of (mc_request a_call) total)
       (ModelProfileSpec.pricing (mc_profile a_call)) true
     ∧ ∀ cap, SpendPolicy.max_run_cost (RoutePolicySpec.spend route) = Some cap →
         ∃ sum estimate, total = Some sum ∧ spent (run_calls 1 before_call) sum
         ∧ Cost.amount (calculate_cost (estimated_usage (requirements_of (mc_request a_call) total))
                          (ModelProfileSpec.pricing (mc_profile a_call))) = Some estimate
         ∧ dec_gtb (dec_add sum estimate) cap = false).
Proof.
  apply (paid_inference_within_cap 1 50 sys0 sys1 0 a_call (clock 20) invoked sys0_start sys1_reached);
    [reflexivity|reflexivity|exact begins_call].
Defined.

Lemma inference_call_budget_witness :
  ∃ mission team, BudgetGateway.mission_id (mc_budget a_call) = Some mission
  ∧ BudgetGateway.team_version_id (mc_budget a_call) = Some team
  ∧ inference_calls mission team invoked ≤ 2.
Proof.
  apply (inference_call_budget 1 50 sys0 sys1 0 a_call (clock 20) invoked 2 sys0_start sys1_reached);
    [reflexivity|reflexivity|exact begins_call].
Defined.
