(* ===== verification/EventScenarios.v ===== *)
(** * Event log scenarios

A run whose log grows by three events, the middle one hidden from its owner, and a client
that reconnects: the theorems of [EventLog.v] and [Sse.v] at concrete inputs. *)
From S2P Require Import Prelude Enums PyJson WorkflowSpec Instances EventLog Sse.
From stdpp Require Import gmap.
Local Open Scope Z_scope.
Local Open Scope stdpp_scope.

#[export] Instance dump_event : ModelDump NormalizedEvent.t := λ e,
  JObj [("type", JStr (NewEvent.type (NormalizedEvent.core e)));
        ("global_position", JInt (NormalizedEvent.global_position e))].

(** Run 1 belongs to job 10 of project 100. *)
Definition scope_of_run : EventScope.t := {|
  EventScope.project_id := Some 100%N; EventScope.thread_id := None; EventScope.job_id := None;
  EventScope.run_id := Some 1%N; EventScope.task_id := None; EventScope.task_attempt_id := None;
  EventScope.workflow_node_id := None; EventScope.node_execution_id := None;
|}.
Definition event (type : string) (visibility : EventVisibility.t) (key : option string)
    (source : EventSource.t) : NewEvent.t := {|
  NewEvent.schema_version := "1.0"; NewEvent.occurred_at := 5;
  NewEvent.category := EventCategory.RUN; NewEvent.type := type;
  NewEvent.severity := EventSeverity.INFO; NewEvent.message := "Run";
  NewEvent.mode := EventMode.REAL; NewEvent.visibility := visibility;
  NewEvent.scope := scope_of_run; NewEvent.source := source;
  NewEvent.correlation_id := "c"; NewEvent.causation_event_id := None;
  NewEvent.idempotency_key := key; NewEvent.trace := None; NewEvent.data := [];
  NewEvent.artifact_refs := [];
|}.
Definition quiet_source : EventSource.t := EventSource.Build_t "orchestrator" "main" None None None.
Definition started := event "run.started" EventVisibility.OWNER (Some "start") quiet_source.
Definition hidden := event "run.recovered" EventVisibility.INTERNAL None quiet_source.
Definition completed := event "run.completed" EventVisibility.OWNER None quiet_source.

Definition empty_log : tables := {|
  counter := Some 0; run_counters := ∅; log := [];
  runs := {[ 1%N := RunProjection.Build_t 10%N "running" 0 0 None ]};
  refs := {| jobs := {[ 10%N := JobScope.Build_t 100%N None ]}; projects := {[ 100%N ]};
             tasks := ∅; attempts := ∅; nodes := ∅; artifacts := ∅ |};
|}.
Definition after_append (fresh : uuid) (e : NewEvent.t) (d : tables) : tables :=
  match append fresh (Z.of_N fresh) e d with Ok (_, d') => d' | Err _ => d end.
Definition d1 : tables := after_append 201 started empty_log.
Definition d2 : tables := after_append 202 hidden d1.
Definition d3 : tables := after_append 203 completed d2.

Example log_of_d3 :
  (λ r, (EventModel.global_position r, EventModel.run_sequence r)) <$> log d3
  = [(1, Some 1); (2, Some 2); (3, Some 3)].
Proof. vm_compute. reflexivity. Qed.

Lemma appended fresh recorded e d d' n :
  append fresh recorded e d = Ok (n, d') → rtc log_step d d'.
Proof. intros Ha. apply rtc_once. by eapply log_append. Qed.

Definition stored (r : res event_error (NormalizedEvent.t * tables)) : option NormalizedEvent.t :=
  match r with Ok (n, _) => Some n | Err _ => None end.
Lemma appended_to fresh e d n :
  stored (append fresh (Z.of_N fresh) e d) = Some n →
  append fresh (Z.of_N fresh) e d = Ok (n, after_append fresh e d).
Proof. unfold after_append. destruct (append _ _ _ _) as [[n' d']|]; [by intros [= ->]|done]. Qed.

Definition e1 : option NormalizedEvent.t := stored (append 201 201 started empty_log).
Lemma empty_initial : initial empty_log.
Proof.
  split_and!; [done..|]. intros i p. unfold empty_log. simpl.
  intros [<- <-]%lookup_singleton_Some. done.
Qed.
Lemma grow_step fresh e d :
  is_Some (stored (append fresh (Z.of_N fresh) e d)) → rtc log_step d (after_append fresh e d).
Proof. intros [n Hn]. by eapply appended, appended_to. Qed.

Lemma steps_1 : rtc log_step empty_log d1.
Proof. apply grow_step. vm_compute. by eexists. Qed.
Lemma steps_2 : rtc log_step d1 d2.
Proof. apply grow_step. vm_compute. by eexists. Qed.
Lemma steps_3 : rtc log_step d2 d3.
Proof. apply grow_step. vm_compute. by eexists. Qed.

Lemma ok_1 : log_ok d1.
Proof. eapply log_steps_ok; [apply initial_ok, empty_initial|apply steps_1]. Qed.
Lemma ok_2 : log_ok d2.
Proof. eapply log_steps_ok; [apply ok_1|apply steps_2]. Qed.
Lemma ok_3 : log_ok d3.
Proof. eapply log_steps_ok; [apply ok_2|apply steps_3]. Qed.
Lemma grows_12 : grows d1 d2.
Proof. apply log_steps_grow, steps_2. Qed.
Lemma grows_23 : grows d2 d3.
Proof. apply log_steps_grow, steps_3. Qed.
Lemma grows_self d : grows d d.
Proof. by exists []; rewrite app_nil_r. Qed.
Create HintDb event_log.
#[export] Hint Resolve ok_1 ok_2 ok_3 grows_12 grows_23 grows_self : event_log.

Lemma reachable_log_ok_witness :
  initial empty_log ∧ rtc log_step empty_log d3 ∧ log_ok d3.
Proof.
  assert (rtc log_step empty_log d3) as Hs
    by (etrans; [apply steps_1|etrans; [apply steps_2|apply steps_3]]).
  split_and!; [apply empty_initial|done|]. apply (reachable_log_ok empty_log d3); [apply empty_initial|done].
Defined.

(** A page whose statements see the log grow. *)
Definition read_growing : reads := Build_reads d1 d1 d2 d2 d3.
Lemma growing_read : growing read_growing.
Proof. split; simpl; auto with event_log. Qed.

Lemma page_at_total_witness :
  growing read_growing ∧ high (r_counter read_growing) = 1
  ∧ (∃ p, page_at 1%N 0 50 read_growing = Ok p ∧ page_of 1%N 0 50 (r_counter read_growing) p)
  ∧ ∃ earliest, page_at 1%N 7 50 read_growing = Err (EventCursorExpiredError 7 earliest 1).
Proof.
  split_and!; [apply growing_read|by vm_compute|..].
  - apply (page_at_total 1%N 0 50 read_growing); [apply growing_read|lia..].
  - apply (page_at_total 1%N 7 50 read_growing); [apply growing_read|lia..].
Defined.

Lemma append_once_witness :
  ∃ n, append 201 201 started empty_log = Ok (n, d1) ∧ rtc log_step d1 d3
    ∧ append 999 999 started d3 = Ok (n, d3).
Proof.
  assert (is_Some (stored (append 201 (Z.of_N 201) started empty_log))) as [n Hn]
    by (vm_compute; by eexists).
  assert (rtc log_step d1 d3) as Hs by (etrans; [apply steps_2|apply steps_3]).
  exists n. split; [by apply appended_to|]. split; [done|].
  assert (∃ n' d', append 999 999 started d3 = Ok (n', d')) as (n' & d' & Ha)
    by (vm_compute; by do 2 eexists).
  destruct (append_once empty_log 201 201 started n d1 d3 999 999 n' d') as [-> ->];
    [left; by eexists|by apply appended_to|done|done|]. done.
Defined.

(** A client of run 1 that connects, is disconnected, and reconnects. *)
Definition quiet (d : tables) : reads := Build_reads d d d d d.
Lemma growing_quiet d : log_ok d → growing (quiet d).
Proof. intros Hd. split; simpl; auto with event_log. Qed.
Definition first_polls : list poll :=
  [Build_poll read_growing false 10; Build_poll (quiet d3) true 11].
Definition second_polls : list poll := [Build_poll (quiet d3) false 20; Build_poll (quiet d3) false 30].

Lemma polls_cons d p polls D :
  growing (p_reads p) → grows d (r_counter (p_reads p)) → polls_ok (r_durable (p_reads p)) polls D →
  polls_ok d (p :: polls) D.
Proof. intros Hg Hd Hp. exact (conj Hg (conj Hd Hp)). Qed.

Lemma first_polls_ok : polls_ok d1 first_polls d3.
Proof.
  apply polls_cons; [apply growing_read|apply grows_self|].
  apply polls_cons; [apply growing_quiet, ok_3|apply grows_self|apply grows_self].
Qed.
Lemma second_polls_ok : polls_ok d3 second_polls d3.
Proof.
  do 2 (apply polls_cons; [apply growing_quiet, ok_3|apply grows_self|]). apply grows_self.
Qed.
Lemma high_d3 : high d3 = 3.
Proof. by vm_compute. Qed.

Lemma stream_exactly_once_witness :
  polls_ok d1 first_polls d3 ∧ high d3 = 3
  ∧ let '(frames, en) := iter_frames 1 5 1%N 0 0 first_polls in
    let cursor := last_cursor 0 (events_of frames) in
    (∃ rows, delivered_as rows (events_of frames)
             ∧ pending_events 1%N 0 d3 = rows ++ pending_events 1%N cursor d3)
    ∧ (∀ reset, FReset reset ∉ frames) ∧ (en = Closed ∨ en = Waiting cursor).
Proof.
  split_and!; [apply first_polls_ok|apply high_d3|].
  apply (stream_exactly_once 1 5 1%N d1 first_polls d3 0 0);
    [lia|apply ok_3|rewrite high_d3; lia|apply first_polls_ok|by vm_compute].
Defined.

Lemma stream_resumes_witness :
  polls_ok d1 first_polls d3 ∧ polls_ok d3 second_polls d3
  ∧ let received := events_of (iter_frames 1 5 1%N 0 0 first_polls).1 in
    ∃ cursor, resolve_event_cursor 0 (last_event_id received) = Ok cursor
      ∧ let all := received ++ events_of (iter_frames 1 5 1%N cursor 0 second_polls).1 in
        ∃ rows, delivered_as rows all
          ∧ pending_events 1%N 0 d3 = rows ++ pending_events 1%N (last_cursor 0 all) d3.
Proof.
  split_and!; [apply first_polls_ok|apply second_polls_ok|].
  apply (stream_resumes 1 5 1%N d1 first_polls d3 second_polls d3 0 0 0);
    [lia|apply ok_3|apply ok_3|rewrite high_d3; lia|apply first_polls_ok|apply second_polls_ok|by vm_compute].
Defined.

Lemma stream_live_witness :
  polls_ok d3 second_polls d3 ∧ length (pending_events 1%N 0 d3) = 2%nat
  ∧ ∃ rows, delivered_as rows (events_of (iter_frames 1 5 1%N 0 0 second_polls).1)
            ∧ pending_events 1%N 0 d3 `prefix_of` rows.
Proof.
  split_and!; [apply second_polls_ok|by vm_compute|].
  apply (stream_live 1 5 1%N d3 second_polls d3 0 0);
    [lia|apply ok_3|apply ok_3|rewrite high_d3; lia|apply second_polls_ok|by vm_compute
    |by repeat constructor|by vm_compute].
Defined.

Lemma limiter_bound_witness :
  rtc (limiter_step 1) (∅, []) ({["p" := 1]}, ["p"])
  ∧ streams "p" ["p"] ≤ 1
  ∧ ((claim 1 "p" {["p" := 1]}).1 = true ↔ streams "p" ["p"] < 1).
Proof.
  assert (rtc (limiter_step 1) (∅, []) ({["p" := 1]}, ["p"])) as Hs
    by (apply rtc_once; by apply limiter_open).
  split; [done|]. apply (limiter_bound 1 {["p" := 1]} ["p"] "p"); [lia|done].
Defined.
