(* ===== verification/ApprovalScenarios.v ===== *)
(** * Approval scenarios

Executor [a] runs the approval node of a real run, its owner approves, the run resumes and
the protected effect is dispatched: the theorems of [Approvals.v] at concrete inputs. *)
From S2P Require Import Prelude Enums PyJson Verification Registry WorkflowSpec Normalize RawValidation.
From S2P Require Import State NodeFactory Database Ownership ModelCalls Approvals.
From S2P Require Import Instances WorkflowScenarios RuntimeScenarios.
From stdpp Require Import gmap.
Local Open Scope Z_scope.
Local Open Scope stdpp_scope.

(** ** Parameters *)

(** A digest of 64 characters. *)
Fixpoint zeros_before (n : nat) (s : string) : string :=
  match n with O => s | S n' => "0" +:+ zeros_before n' s end.
#[export] Instance hex_runtime : PyRuntime := {|
  float_repr := float_repr (PyRuntime := sample_runtime);
  sha256 s := let d := pretty (checksum s 0) in zeros_before (64 - String.length d) d;
|}.
#[export] Instance approval_uuid5 : Uuid5 := λ u s, (u * 65536 + checksum s 0)%N.
#[export] Instance sample_text : IsoText := λ t, pretty t.
#[export] Instance sample_stored : StoredData := Event.payload.
#[export] Instance sample_jsonb : JsonbText := λ j, canonical_json j.
#[export] Instance dump_decision : ModelDump ApprovalDecisionRequest.t := λ b,
  JArr [JStr (ApprovalDecisionRequest.idempotency_key b);
        JInt (ApprovalDecisionRequest.expected_run_version b);
        JStr (ApprovalDecisionRequest.request_digest b);
        JBool (ApprovalDecisionRequest.approve b)].

Definition opt_Z (o : option Z) : json := match o with Some z => JInt z | None => JNull end.
Definition opt_uuid (o : option uuid) : json := opt_Z (Z.of_N <$> o).
Definition read_Z (j : json) : option (option Z) :=
  match j with JInt z => Some (Some z) | JNull => Some None | _ => None end.
Definition read_decision (s : string) : option ApprovalDecision.t :=
  find (λ d, String.eqb (ApprovalDecision.value d) s)
    [ApprovalDecision.pending; ApprovalDecision.approved; ApprovalDecision.rejected;
     ApprovalDecision.expired; ApprovalDecision.cancelled].

Definition dump_view (a : ApprovalView.t) : json :=
  JArr [JInt (Z.of_N (ApprovalView.id a)); JInt (Z.of_N (ApprovalView.run_id a));
        JStr (ApprovalView.node_id a); JStr (ApprovalView.action_type a);
        JStr (ApprovalView.request_digest a); JObj (ApprovalView.parameters a);
        JInt (ApprovalView.created_at a); opt_Z (ApprovalView.expires_at a);
        JStr (ApprovalDecision.value (ApprovalView.decision a)); opt_uuid (ApprovalView.actor_id a);
        opt_Z (ApprovalView.decided_at a)].
Definition parse_view (j : json) : option ApprovalView.t :=
  match j with
  | JArr [JInt id; JInt run; JStr node; JStr action; JStr digest; JObj params; JInt created; expires;
          JStr decision; actor; decided] =>
      e ← read_Z expires; d ← read_decision decision; u ← read_Z actor; t ← read_Z decided;
      let a := ApprovalView.Build_t (Z.to_N id) (Z.to_N run) node action digest params created e d
                 (Z.to_N <$> u) t in
      if ApprovalView.valid a then Some a else None
  | _ => None
  end.
#[export] Instance sample_approvals : ApprovalModel :=
  {| approval_dump := dump_view; approval_validate := parse_view |}.

Lemma read_opt_Z o : read_Z (opt_Z o) = Some o.
Proof. by destruct o. Qed.
Lemma read_value d : read_decision (ApprovalDecision.value d) = Some d.
Proof. by destruct d. Qed.
Lemma opt_uuid_back (o : option uuid) : Z.to_N <$> (Z.of_N <$> o) = o.
Proof. destruct o; simpl; by rewrite ?N2Z.id. Qed.

#[export] Instance sample_approval_laws : ApprovalModelLaws.
Proof.
  split.
  - intros [] Hv. unfold approval_validate, approval_dump. simpl. unfold parse_view, dump_view, opt_uuid.
    simpl. rewrite !read_opt_Z, read_value. simpl. rewrite !N2Z.id, opt_uuid_back.
    unfold ApprovalView.valid in *. simpl in *. by rewrite Hv.
  - intros j a. unfold approval_validate. simpl. unfold parse_view.
    repeat (case_match; try done). intros Hb.
    apply bind_Some in Hb as (e & _ & Hb). apply bind_Some in Hb as (d & _ & Hb).
    apply bind_Some in Hb as (u & _ & Hb). apply bind_Some in Hb as (t & _ & Hb).
    destruct (ApprovalView.valid _) eqn:Hv; [|done]. by injection Hb as <-.
Qed.

(** ** A real run *)

Definition real_run (status : RunStatus.t) : RunModel.t :=
  let r := a_run status DesiredRunState.RUNNING in
  RunModel.Build_t (RunModel.id r) (RunModel.job_id r) (RunModel.run_number r)
    (RunModel.parent_run_id r) (RunModel.workflow_version_id r) (RunModel.config_snapshot_id r)
    (RunModel.langgraph_thread_id r) (RunModel.status r) (RunModel.desired_state r)
    (RunModel.priority r) "real" [] 0 0 1.
Definition held_by_a : db :=
  match claims "a" 10 (RuntimeScenarios.tables (real_run RunStatus.QUEUED) []) with
  | Ok (_, d) => d
  | Err _ => d0
  end.

Definition approve_node : WorkflowNode.t :=
  WorkflowNode.Build_t "approve" "Approve" (NodeConfig.ApprovalConfig ActionType.github_push_and_pr (Some 60))
    NodePolicy.default.
Definition publish_policy : ApprovalPolicy.t :=
  ApprovalPolicy.Build_t (Some "approve") (Some ActionType.github_push_and_pr) None.
Definition publish_node : WorkflowNode.t := Eval vm_compute in pick "publish".
Definition approve_context : NodeContext.t :=
  NodeContext.Build_t approve_node NodePolicy.default demo_snapshot "main:approve:1".
Definition publish_context : NodeContext.t :=
  NodeContext.Build_t publish_node
    (NodePolicy.Build_t None None None None None (Some publish_policy) None None false false)
    demo_snapshot "main:publish:1".
Definition target_configuration : jobj := [("repository", JStr "demo")].
Definition head : IntegrationHeadModel.t := IntegrationHeadModel.Build_t 60 "abc" "main" 61.

Definition idle : api_db := {|
  core := held_by_a; records := []; owners := {[7%N := 500%N]}; heads := λ _, [head];
|}.
Definition state_of {E A} (dflt : api_db) (r : res E (A * api_db)) : api_db :=
  match r with Ok (_, d) => d | Err _ => dflt end.

(** The run requests, and is suspended. *)
Definition approve_spec : WorkflowSpec.t WorkflowNode.t :=
  with_graph demo_normal
    [approve_node; WorkflowNode.Build_t "publish" "Publish" (WorkflowNode.config publish_node)
                     (NodeContext.policy publish_context)] [].
Definition request : res own_error (json * api_db) :=
  approval_request fence_a 12 13 approve_spec WorkflowStateV1.empty approve_context
    target_configuration 12 12 idle.
Definition requested : api_db := state_of idle request.
Definition suspend (d : db) : db :=
  match runs d !! 1%N with
  | Some r => put_run (RunModel.with_status RunStatus.APPROVAL_REQUIRED r) d
  | None => d
  end.
Definition waiting : api_db := set_core (suspend (core requested)) requested.

Definition approval : uuid := approval_id 1 approve_context.
Definition owner : Principal.t := Principal.Build_t 500 501.
Definition current : jobj :=
  parameters [head] (real_run RunStatus.QUEUED) "github.push_and_pr" "publish" WorkflowStateV1.empty
    target_configuration.
Definition approve_body : ApprovalDecisionRequest.t :=
  ApprovalDecisionRequest.Build_t "k" 2 (sha256_digest (JObj current)) true.
Definition answer : res problem (ApprovalView.t * api_db) :=
  Approvals.decide owner 1 approval approve_body 14 waiting.
Definition decided : api_db := match answer with Ok (_, d) => d | Err _ => waiting end.
Definition view : option ApprovalView.t := match answer with Ok (a, _) => Some a | Err _ => None end.

Definition granted_state : WorkflowStateV1.t :=
  WorkflowStateV1.Build_t None None None None None None None None None None
    (Some [("id", JStr (uuid_str approval))]) None None None None None.
Definition dispatched : res own_error (unit * api_db) :=
  protected_dispatch fence_a 20 21 22 granted_state publish_context target_configuration decided.

Example approved_view : ApprovalView.decision <$> view = Some ApprovalDecision.approved.
Proof. vm_compute. reflexivity. Qed.
Example dispatch_allowed : is_ok dispatched = true.
Proof. vm_compute. reflexivity. Qed.
Example dispatch_before_decision :
  is_ok (protected_dispatch fence_a 20 21 22 granted_state publish_context target_configuration waiting)
  = false.
Proof. vm_compute. reflexivity. Qed.

(** ** The steps *)

Definition claimed_run : RunModel.t := Eval vm_compute in
  default (real_run RunStatus.QUEUED) (runs held_by_a !! 1%N).
Lemma held_runs : runs held_by_a = {[1%N := claimed_run]}.
Proof. vm_compute. reflexivity. Qed.

Lemma idle_no_approvals : no_approvals idle.
Proof.
  split; intros i r; simpl; rewrite held_runs; intros [<- <-]%lookup_singleton_Some; done.
Qed.

Lemma state_of_ok {E A} (dflt : api_db) (r : res E (A * api_db)) :
  is_ok r = true → ∃ a, r = Ok (a, state_of dflt r).
Proof. destruct r as [[a d]|]; [by exists a|done]. Qed.

Lemma step_requested : approval_step idle requested.
Proof.
  destruct (state_of_ok idle request) as [w Hw]; [by vm_compute|].
  eapply (step_request fence_a 12 13 approve_spec WorkflowStateV1.empty approve_context
            target_configuration 12 12 w idle). exact Hw.
Qed.

(** The service suspends a run. *)
Lemma step_suspend d : keyed (core d) → approval_step d (set_core (suspend (core d)) d).
Proof.
  intros Hk. apply step_other. unfold suspend.
  destruct (runs (core d) !! 1%N) as [r0|] eqn:Hr0.
  - pose proof (Hk _ _ Hr0) as Hid. split; simpl.
    + intros _. by apply keyed_put_run.
    + intros i r Hr. rewrite Hid. destruct (base.decide (i = 1%N)) as [->|Hne].
      * rewrite Hr0 in Hr. injection Hr as <-. rewrite lookup_insert_eq. by eexists.
      * rewrite lookup_insert_ne by done. by exists r.
    + intros i r' Hn. rewrite Hid. destruct (base.decide (i = 1%N)) as [->|Hne]; [congruence|].
      rewrite lookup_insert_ne by done. congruence.
    + done.
  - split; simpl; [done|by intros i r Hr; exists r|congruence|done].
Qed.

Lemma requested_ok : api_ok requested.
Proof.
  eapply step_evolves; [apply no_approvals_ok, idle_no_approvals|apply step_requested].
Qed.

Definition answered : ApprovalView.t := Eval vm_compute in
  match view with Some a => a | None => new_approval claimed_run approve_context "" None [] 0 0 end.
Lemma answer_ok : Approvals.decide owner 1 approval approve_body 14 waiting = Ok (answered, decided).
Proof.
  unfold decided. fold answer. unfold answer at 1.
  assert (is_ok answer = true) as Hok by (by vm_compute).
  assert (view = Some answered) as Hv by (by vm_compute). unfold view in Hv.
  fold answer. destruct answer as [[a d]|]; [by injection Hv as ->|done].
Qed.

Lemma steps_waiting : rtc approval_step idle waiting.
Proof.
  eapply rtc_l; [apply step_requested|]. apply rtc_once, step_suspend, (ao_keyed _ requested_ok).
Qed.
Lemma steps_decided : rtc approval_step idle decided.
Proof. eapply rtc_r; [apply steps_waiting|]. by eapply step_decide, answer_ok. Qed.

Lemma protected_authorized_witness :
  is_ok dispatched = true ∧ ∃ a, ApprovalView.decision a = ApprovalDecision.approved
    ∧ granted_before idle decided 1%N a.
Proof.
  split; [by vm_compute|].
  assert (is_ok dispatched = true) as Hok by (by vm_compute).
  destruct dispatched as [[[] d']|] eqn:Hd; [|done].
  destruct (protected_authorized idle decided fence_a 20 21 22 granted_state publish_context
    target_configuration publish_policy "approve" ActionType.github_push_and_pr d')
    as (run & a & _ & _ & Ha & _ & _ & _ & _ & _ & _ & _ & _ & Hg);
    [apply idle_no_approvals|apply steps_decided|done|done|done|done|exact Hd|].
  exists a. by split.
Defined.

(** The decision is still there when the run has resumed. *)
Definition resumed_result : res own_error (jobj * jobj * api_db) :=
  approval_resume fence_a 18 19 18 (wait_for (uuid_str approval)) approve_context decided.
Definition resumed : api_db := state_of decided resumed_result.
Lemma steps_resumed : rtc approval_step decided resumed.
Proof.
  destruct (state_of_ok decided resumed_result) as [w Hw]; [by vm_compute|].
  apply rtc_once. eapply (step_resume fence_a 18 19 18 (wait_for (uuid_str approval)) approve_context w).
  exact Hw.
Qed.

Definition decided_row : RunModel.t := Eval vm_compute in
  default claimed_run (runs (core decided) !! 1%N).
Definition decided_entry : json := Eval vm_compute in
  default JNull (entry (uuid_str approval) decided_row).
Lemma decided_lookup :
  runs (core decided) !! 1%N = Some decided_row
  ∧ entry (uuid_str approval) decided_row = Some decided_entry
  ∧ approval_validate decided_entry = Some answered.
Proof. split_and!; vm_compute; reflexivity. Qed.

Lemma decision_final_witness :
  runs (core decided) !! 1%N = Some decided_row
  ∧ ∃ r', runs (core resumed) !! 1%N = Some r' ∧ entry (uuid_str approval) r' = Some decided_entry.
Proof.
  destruct decided_lookup as (Hr & He & Hv). split; [done|].
  apply (decision_final idle decided resumed 1%N decided_row (uuid_str approval) decided_entry answered);
    [apply idle_no_approvals|apply steps_decided|apply steps_resumed|done..].
Defined.

Lemma decide_idempotent_witness :
  Approvals.decide owner 1 approval approve_body 14 waiting = Ok (answered, decided)
  ∧ ∃ v d, Approvals.decide owner 1 approval approve_body 99 resumed = Ok (v, d)
           ∧ v = answered ∧ d = resumed.
Proof.
  split; [apply answer_ok|].
  assert (is_ok (Approvals.decide owner 1 approval approve_body 99 resumed) = true) as Hok
    by (by vm_compute).
  destruct (Approvals.decide owner 1 approval approve_body 99 resumed) as [[v d]|] eqn:Hd; [|done].
  exists v, d. split; [done|].
  apply (decide_idempotent owner 1 approval approve_body approve_body 14 99 answered v waiting decided
           resumed d); [apply answer_ok|apply steps_resumed|done|exact Hd].
Defined.

(** A tick an hour later, when nobody has decided. *)
Definition late : uuid → expiry_clock := λ _, Build_expiry_clock 3600000000 3600000000 3600000000.
Definition waiting_tick : res own_error db := expire_approvals late (core waiting).
Lemma waiting_tick_ok : is_ok waiting_tick = true.
Proof. vm_compute. reflexivity. Qed.
Lemma waiting_tick_runs : RunModel.id <$> waiting_runs (core waiting) = [1%N].
Proof. vm_compute. reflexivity. Qed.

Lemma expiry_isolated_witness :
  ∃ d', waiting_tick = Ok d'
    ∧ ∃ r r', r ∈ waiting_runs (core waiting) ∧ runs d' !! 1%N = Some r'
              ∧ expiry_outcome (late 1%N) (core waiting) r r'.
Proof.
  assert (keyed (core waiting)) as Hk
    by (eapply ao_keyed, steps_api_ok; [apply no_approvals_ok, idle_no_approvals|apply steps_waiting]).
  pose proof (expiry_isolated late (core waiting) Hk eq_refl) as Hx. fold waiting_tick in Hx.
  pose proof waiting_tick_ok as Hok. destruct waiting_tick as [d'|]; [|discriminate Hok].
  exists d'. split; [reflexivity|]. destruct Hx as [Hall _].
  pose proof waiting_tick_runs as Hids.
  destruct (waiting_runs (core waiting)) as [|r [|]]; try discriminate Hids.
  injection Hids as Hid. destruct (Hall r) as (_ & r' & Hr' & Ho); [by left|].
  exists r, r'. rewrite Hid in Hr', Ho. split; [by left|split; [exact Hr'|exact Ho]].
Defined.

(** A waiting run whose approvals are not a dictionary aborts the tick of every run; an empty
list, which [dict] accepts, does not. *)
Definition corrupted (approvals : json) : db :=
  match runs (core waiting) !! 1%N with
  | Some r => put_run (update_runtime [("approvals", approvals)] r) (core waiting)
  | None => core waiting
  end.
Example corrupt_tick :
  is_ok (expire_approvals late (corrupted JNull)) = false
  ∧ is_ok (expire_approvals late (corrupted (JArr [JStr "a"]))) = false
  ∧ is_ok (expire_approvals late (corrupted (JArr []))) = true.
Proof. vm_compute. repeat split. Qed.

Example expired_late :
  match expire_approvals late (core waiting) with
  | Ok d => (λ r, RunModel.status r) <$> runs d !! 1%N
  | Err _ => None
  end = Some RunStatus.QUEUED.
Proof. vm_compute. reflexivity. Qed.
