(* ===== verification/MissionScenarios.v ===== *)
(** * Mission scenarios

A mission whose manager proposes two items, the second built on the first: the theorems of
[MissionResources.v] and [MissionBacklog.v] at concrete inputs.  The examples at the end are
states in which the service does not do what it means to. *)
From S2P Require Import Prelude Enums PyJson PyDecimal PyDecimalText Failures Verification Registry.
From S2P Require Import WorkflowSpec Normalize RawValidation GraphIssues MissionContracts Database Ownership.
From S2P Require Import Commands Routing Effects Accounting Budget ModelCalls Approvals MissionTables MissionResources.
From S2P Require Import Missions MissionBacklog MissionDispatch Instances RuntimeScenarios.
From stdpp Require Import gmap pretty.
From Stdlib Require Import Ascii.
Local Open Scope Z_scope.
Local Open Scope stdpp_scope.

(** ** Parameters *)

#[export] Instance mission_uuid5 : Uuid5 := λ u s, (u * 65536 + checksum s 0)%N.
#[export] Instance mission_text : IsoText := λ t, pretty t.
#[export] Instance mission_rows : RowOrder := λ _ l, l.
#[export] Instance mission_rows_laws : RowOrderLaws.
Proof. intros A l. reflexivity. Qed.

(** The hexadecimal digits between the hyphens. *)
Definition hex_value (c : ascii) : option N :=
  let n := N_of_ascii c in
  if (48 <=? n)%N && (n <=? 57)%N then Some (n - 48)%N
  else if (97 <=? n)%N && (n <=? 102)%N then Some (n - 87)%N else None.
Fixpoint hex_number (acc : N) (s : string) : option N :=
  match s with
  | EmptyString => Some acc
  | String c s =>
      if Ascii.eqb c "-"%char then hex_number acc s
      else match hex_value c with Some v => hex_number (acc * 16 + v)%N s | None => None end
  end.
#[export] Instance mission_uuid : UuidFormat := hex_number 0.

Definition dump_limits (l : MissionResourceLimits.t) : json :=
  JArr [JInt (MissionResourceLimits.window_seconds l); JInt (MissionResourceLimits.max_calls l);
        JInt (MissionResourceLimits.max_input_tokens l); JInt (MissionResourceLimits.max_output_tokens l);
        JInt (MissionResourceLimits.max_active_jobs l); JInt (MissionResourceLimits.max_wall_seconds l);
        JInt (MissionResourceLimits.max_iterations l); JInt (MissionResourceLimits.max_new_work_items l);
        match MissionResourceLimits.max_cost l with
        | Some (Dec c e) => JArr [JInt c; JInt e] | None => JNull end;
        JStr (MissionResourceLimits.currency l)].
Definition parse_limits (j : json) : option MissionResourceLimits.t :=
  match j with
  | JArr [JInt a; JInt b; JInt c; JInt d; JInt e; JInt f; JInt g; JInt h; cost; JStr u] =>
      m ← match cost with JArr [JInt x; JInt y] => Some (Some (Dec x y)) | JNull => Some None | _ => None end;
      let l := MissionResourceLimits.Build_t a b c d e f g h m u in
      if MissionResourceLimits.valid l then Some l else None
  | _ => None
  end.
#[export] Instance mission_limits : LimitsModel :=
  {| limits_validate := parse_limits; limits_dump := dump_limits |}.
#[export] Instance mission_limits_laws : LimitsModelLaws.
Proof.
  split.
  - intros [? ? ? ? ? ? ? ? [[c e]|] u] Hv; simpl in *; by rewrite Hv.
  - intros j l. simpl. unfold parse_limits. repeat (case_match; try done); simpl;
      repeat (case_match; try done); by intros [= <-].
Qed.

Definition budgets : TeamBudgetPolicy.t := TeamBudgetPolicy.Build_t 3 600 10 0 0.
Definition selection : FixedTeamSelection.t := {|
  FixedTeamSelection.team_template_revision_id := 20;
  FixedTeamSelection.manager_role_revision_id := 21;
  FixedTeamSelection.manager_profile_revision_id := 22;
  FixedTeamSelection.developer_role_revision_id := 23;
  FixedTeamSelection.developer_worker_revision_id := 24;
  FixedTeamSelection.reviewer_role_revision_id := 25;
  FixedTeamSelection.reviewer_profile_revision_id := 26;
  FixedTeamSelection.workflow_version_id := 27;
  FixedTeamSelection.members := []; FixedTeamSelection.budgets := budgets;
  FixedTeamSelection.escalation_policy_revision_id := None;
  FixedTeamSelection.eligible_worker_revision_ids := [];
  FixedTeamSelection.worker_pool_snapshot_hash := None;
|}.
Definition is_text (t : string) (j : json) : bool :=
  match j with JStr s => String.eqb s t | _ => false end.
#[export] Instance mission_team : TeamModel := λ j, if is_text "team" j then Some selection else None.
#[export] Instance mission_snapshot : SnapshotModel := λ j,
  if is_text "snapshot" j then Some (WorkflowResolvedSnapshot.Build_t "hash" "v1" []) else None.
#[export] Instance dump_selection : ModelDump FixedTeamSelection.t := λ _, JStr "team".
#[export] Instance dump_snapshot : ModelDump WorkflowResolvedSnapshot.t := λ _, JStr "snapshot".
#[export] Instance dump_manager_decision : ModelDump ManagerDecision.t := λ c,
  JObj [("action", JStr (ManagerAction.value (ManagerDecision.action c)));
        ("message", JStr (ManagerDecision.message c))].

(** ** The mission *)

Definition manager_service : MissionManagerService.t :=
  MissionManagerService.Build_t "m" "demo" 360 2 120 2048 false.

Definition mission_of (i : uuid) (limits : MissionResourceLimits.t) (at_ : Z) : MissionModel.t := {|
  MissionModel.id := i; MissionModel.project_id := 9; MissionModel.objective := "Build it";
  MissionModel.constraints_json := []; MissionModel.lifecycle := MissionLifecycle.active;
  MissionModel.mode := "demo"; MissionModel.autonomous := true;
  MissionModel.waiting_reason := None; MissionModel.next_action := None;
  MissionModel.next_action_basis := None; MissionModel.user_action_required := None;
  MissionModel.resource_limits_json := limits_dump limits; MissionModel.directive_version := 1;
  MissionModel.selected_team_version_id := 2; MissionModel.next_message_sequence := 1;
  MissionModel.version := 1; MissionModel.updated_at := at_;
|}.
Definition the_mission : MissionModel.t := mission_of 1 MissionResourceLimits.default 5.
Definition the_team : MissionTeamVersionModel.t := MissionTeamVersionModel.Build_t 2 1 1 (JStr "team").
Definition the_message : MissionMessageModel.t :=
  MissionMessageModel.Build_t 3 1 1 MessageRole.user "owner" "Build it" 1 (Some 4%N) [] Disposition.queued.
Definition the_turn : ManagementTurnModel.t := {|
  ManagementTurnModel.id := 4; ManagementTurnModel.mission_id := 1;
  ManagementTurnModel.input_message_id := 3; ManagementTurnModel.directive_version := 1;
  ManagementTurnModel.team_version_id := 2; ManagementTurnModel.wakeup_id := None;
  ManagementTurnModel.source_event_cursor := None; ManagementTurnModel.input_snapshot_json := [];
  ManagementTurnModel.status := TurnStatus.queued; ManagementTurnModel.mode := "demo";
  ManagementTurnModel.allow_paid_inference := false; ManagementTurnModel.model_call_id := None;
  ManagementTurnModel.response_json := None; ManagementTurnModel.failure_code := None;
  ManagementTurnModel.claimable_at := 5; ManagementTurnModel.lease_until := None;
  ManagementTurnModel.claimed_by := None; ManagementTurnModel.attempt_count := 0;
  ManagementTurnModel.created_at := 5; ManagementTurnModel.completed_at := None;
|}.

(** Tables with the given missions and items. *)
Definition with_missions (ms : list MissionModel.t) (is_ : list MissionWorkItemModel.t) : mdb := {|
  core := set_accounts (CallTables.put_turn the_turn (CallTables.Build_t [] ∅ ∅ ∅)) d0;
  missions := list_to_map ((λ m, (MissionModel.id m, m)) <$> ms);
  teams := {[2%N := the_team]}; messages := {[3%N := the_message]};
  items := list_to_map ((λ i, (MissionWorkItemModel.id i, i)) <$> is_);
  dependencies := []; wakeups := ∅; controls := []; reservations := [];
  versions := {[27%N := WorkflowVersionModel.Build_t (Some 1) (Some (JStr "snapshot"))]};
  snapshots := []; job_rows := ∅;
|}.

(** ** A decision, a run, and its outcome *)

Definition proposed (key : string) (deps : list string) : WorkItemProposal.t :=
  WorkItemProposal.Build_t key "Implement" "The objective" ["It works"] 0 deps.
Definition plan : ManagerDecision.t := {|
  ManagerDecision.action := ManagerAction.propose; ManagerDecision.message := "Two items";
  ManagerDecision.work_items := [proposed "DEV-001" []; proposed "DEV-002" ["DEV-001"]];
  ManagerDecision.lifecycle := MissionLifecycle.active; ManagerDecision.scheduled_wakeup_at := None;
|}.
Definition apply_at : apply_readings := Build_apply_readings 10 11 12 13.
Definition apply_names : apply_ids := Build_apply_ids (λ n, N.of_nat (100 + n)) 50 51.
Definition dispatch_at (t : Z) : dispatch_readings := Build_dispatch_readings t t 70.
Definition reconcile_at (t : Z) : reconcile_inputs :=
  Build_reconcile_inputs t t (λ _, 60) (λ n, N.of_nat (200 + n)).
Definition unlocked (_ : uuid) : bool := false.

Definition is_ok {E A} (r : res E A) : bool := match r with Ok _ => true | Err _ => false end.
Definition after {E} (d : mdb) (r : res E mdb) : mdb := match r with Ok d' => d' | Err _ => d end.
Lemma after_ok {E} d (r : res E mdb) : is_ok r = true → r = Ok (after d r).
Proof. by destruct r. Qed.

Ltac succeeds := apply after_ok; vm_compute; reflexivity.

Definition s0 : mdb := with_missions [the_mission] [].
Definition s1 : mdb := match claim manager_service 10 unlocked s0 with Ok (_, d) => d | Err _ => s0 end.
Definition s2 : mdb := after s1 (Missions.apply apply_at apply_names 4 plan s1).
Definition s3 : mdb := after s2 (reconcile_items (reconcile_at 20) s2).
Definition s4 : mdb := after s3 (dispatch_ready manager_service (dispatch_at 30) unlocked s3).
(** The run of the first item completes. *)
Definition finish_runs (s : RunStatus.t) (d : mdb) : mdb :=
  set_core (set_runs (RunModel.with_status s <$> runs (core d)) (core d)) d.
Lemma finish_same s d : same_backlog d (finish_runs s d).
Proof. by apply same_backlog_of. Qed.
Definition s5 : mdb := finish_runs RunStatus.COMPLETED s4.
Definition s6 : mdb := after s5 (reconcile_items (reconcile_at 40) s5).

Definition lifecycles_of (d : mdb) : list (string * WorkItemLifecycle.t) :=
  (λ i, (MissionWorkItemModel.key i, MissionWorkItemModel.lifecycle i)) <$> (snd <$> map_to_list (items d)).

Example proposed_items : lifecycles_of s2
  = [("DEV-001", WorkItemLifecycle.ready); ("DEV-002", WorkItemLifecycle.pending)].
Proof. vm_compute. reflexivity. Qed.
Example started_item : lifecycles_of s4
  = [("DEV-001", WorkItemLifecycle.started); ("DEV-002", WorkItemLifecycle.pending)].
Proof. vm_compute. reflexivity. Qed.
Example accepted_item : lifecycles_of s6
  = [("DEV-001", WorkItemLifecycle.accepted); ("DEV-002", WorkItemLifecycle.ready)].
Proof. vm_compute. reflexivity. Qed.

Lemma claim_step : mission_step s0 s1.
Proof. apply (ms_claim manager_service 10 unlocked s0 (Some 4%N)). vm_compute. reflexivity. Qed.
Lemma decision_step : mission_step s1 s2.
Proof. apply (ms_apply apply_at apply_names 4 plan); [done|]. succeeds. Qed.
Lemma reconcile_step : mission_step s2 s3.
Proof. apply (ms_reconcile (reconcile_at 20)). succeeds. Qed.
Lemma dispatch_step : mission_step s3 s4.
Proof. apply (ms_dispatch manager_service (dispatch_at 30) unlocked). succeeds. Qed.
Lemma finish_step : mission_step s4 s5.
Proof. apply ms_other, (finish_same RunStatus.COMPLETED s4). Qed.
Lemma settle_step : mission_step s5 s6.
Proof. apply (ms_reconcile (reconcile_at 40)). succeeds. Qed.

Lemma to_s4 : rtc mission_step s0 s4.
Proof.
  eapply rtc_l; [exact claim_step|]. eapply rtc_l; [exact decision_step|].
  eapply rtc_l; [exact reconcile_step|]. apply rtc_once, dispatch_step.
Qed.
Lemma to_s6 : rtc mission_step s4 s6.
Proof. eapply rtc_l; [exact finish_step|]. apply rtc_once, settle_step. Qed.

Lemma to_end : rtc mission_step s0 s6.
Proof. etrans; [exact to_s4|exact to_s6]. Qed.

(** No items and no dependencies. *)
Lemma empty_backlog ms : backlog_ok (with_missions ms []).
Proof.
  split; unfold depends; simpl; try (intros; set_solver).
  - intros i m Hm%elem_of_list_to_map_2. apply list_elem_of_fmap in Hm as (? & [= -> ->] & _). done.
  - intros a Ha. inversion Ha; set_solver.
Qed.

Lemma s0_backlog : backlog_ok s0.
Proof. apply empty_backlog. Qed.
Lemma s4_backlog : backlog_ok s4.
Proof. by apply (mission_steps_good s0 s4 to_s4 s0_backlog). Qed.

(** The dependency the manager proposed. *)
Definition edge_ab : uuid * uuid := (101%N, 100%N).
Definition row_at (i : uuid) (d : mdb) : MissionWorkItemModel.t :=
  default (proposed_item i the_turn (proposed "NONE-1" []) None) (items d !! i).
Lemma row_at_ok i d : bool_decide (is_Some (items d !! i)) = true → items d !! i = Some (row_at i d).
Proof. rewrite bool_decide_eq_true. unfold row_at. by intros [r ->]. Qed.

Lemma backlog_sound_witness :
  ∃ r s, items s6 !! 101%N = Some r ∧ items s6 !! 100%N = Some s
    ∧ MissionWorkItemModel.lifecycle r = WorkItemLifecycle.ready
    ∧ MissionWorkItemModel.lifecycle s = WorkItemLifecycle.accepted.
Proof.
  destruct (backlog_sound s0 s6 to_end s0_backlog) as [_ Hg].
  destruct (Hg 101%N 100%N) as (r & s & Hr & Hs & _ & Hl).
  { unfold depends. vm_compute. constructor. }
  exists r, s. split; [exact Hr|]. split; [exact Hs|].
  assert (MissionWorkItemModel.lifecycle r = WorkItemLifecycle.ready) as Hrl.
  { assert (MissionWorkItemModel.lifecycle <$> items s6 !! 101%N = Some WorkItemLifecycle.ready) as Hv
      by (vm_compute; reflexivity). rewrite Hr in Hv. by injection Hv. }
  split; [exact Hrl|]. apply Hl. by rewrite Hrl.
Defined.

Lemma outcome_final_witness :
  ∃ r', items s6 !! 100%N = Some r' ∧ MissionWorkItemModel.key r' = MissionWorkItemModel.key (row_at 100 s4).
Proof.
  destruct (outcome_final s4 s6 100 (row_at 100 s4) to_s6 s4_backlog) as (r' & Hr & Hk & _);
    [apply row_at_ok; vm_compute; reflexivity|]. exists r'. split; [exact Hr|exact Hk].
Defined.

Lemma backlog_progress_witness :
  ∃ j s, tc (depends s3) 101%N j ∧ items s3 !! j = Some s
    ∧ MissionWorkItemModel.lifecycle s ∉ [WorkItemLifecycle.pending; WorkItemLifecycle.accepted].
Proof.
  assert (backlog_ok s2) as Hok.
  { apply (mission_steps_good s0 s2); [|exact s0_backlog].
    eapply rtc_l; [exact claim_step|]. apply rtc_once, decision_step. }
  apply (backlog_progress (reconcile_at 20) s2 s3 101 (row_at 101 s3));
    [succeeds|exact Hok|apply row_at_ok; vm_compute; reflexivity|vm_compute; reflexivity].
Defined.


(** ** Reservations *)

Definition two_calls : request :=
  Build_request "manager:4" "manager_inference" [("calls", JInt 2); ("input_tokens", JInt 100)] "USD" "currency".
Definition reserved : res mission_error (list MissionResourceReservationModel.t) * mdb :=
  reserve the_mission two_calls 1000000 s0.
Definition rows_of {E A} (r : res E (list A)) : list A := match r with Ok l => l | Err _ => [] end.
Lemma reserved_ok : reserved = (Ok (rows_of reserved.1), reserved.2).
Proof. vm_compute. reflexivity. Qed.

Lemma no_reservations_ok ms is_ : resources_ok (with_missions ms is_).
Proof. split; simpl; try (intros; set_solver). by apply NoDup_nil. Qed.

Lemma two_calls_nonneg : nonneg (rq_liability two_calls).
Proof.
  assert (Forall (λ f, 0 ≤ amount f.1 (rq_liability two_calls)) LIMIT_FIELDS) as Hall
    by (repeat constructor; vm_compute; discriminate).
  intros field limit Hf. rewrite Forall_forall in Hall. exact (Hall _ Hf).
Qed.

Lemma held_within_limits_witness :
  held reserved.2 "global" 0 "calls" ≤ 1000000.
Proof.
  apply (held_within_limits s0 reserved.2 "global" (limits_dump SHARED_RESOURCE_LIMITS)
           SHARED_RESOURCE_LIMITS 0 "calls" MissionResourceLimits.max_calls).
  - apply rtc_once. apply (rs_reserve the_mission two_calls 1000000); [|reflexivity].
    exact two_calls_nonneg.
  - apply no_reservations_ok.
  - vm_compute. constructor.
  - vm_compute. reflexivity.
  - constructor.
Defined.
Example held_two : held reserved.2 "global" 0 "calls" = 2.
Proof. vm_compute. reflexivity. Qed.

Lemma reserve_idempotent_witness :
  reserve the_mission two_calls 999999000000 reserved.2 = (Ok (rows_of reserved.1), reserved.2).
Proof. apply (reserve_idempotent the_mission two_calls 1000000 999999000000 s0). exact reserved_ok. Defined.

(** A released reservation is returned as if it were held: nothing is held after it. *)
Definition released : mdb := release the_mission "manager:4" 2000000 reserved.2.
Example released_accepted :
  is_ok (reserve the_mission two_calls 3000000 released).1 = true
  ∧ held (reserve the_mission two_calls 3000000 released).2 "global" 0 "calls" = 0.
Proof. vm_compute. done. Qed.

(** ** States the service handles badly *)

Definition item_of (i : uuid) (key title : string) (m : uuid) : MissionWorkItemModel.t := {|
  MissionWorkItemModel.id := i; MissionWorkItemModel.mission_id := m; MissionWorkItemModel.key := key;
  MissionWorkItemModel.title := title; MissionWorkItemModel.objective := "The objective";
  MissionWorkItemModel.acceptance_criteria_json := ["It works"]; MissionWorkItemModel.priority := 0;
  MissionWorkItemModel.lifecycle := WorkItemLifecycle.ready; MissionWorkItemModel.directive_version := 1;
  MissionWorkItemModel.team_version_id := 2; MissionWorkItemModel.job_id := None;
  MissionWorkItemModel.run_id := None; MissionWorkItemModel.source_wakeup_id := None;
  MissionWorkItemModel.accepted_event_cursor := None; MissionWorkItemModel.version := 0;
|}.
Definition dispatched (d : mdb) : res mission_error mdb :=
  dispatch_ready manager_service (dispatch_at 30) unlocked d.

(** The mission's own scope denies a dispatch; what the shared scopes granted stays held. *)
Definition short_limits : MissionResourceLimits.t :=
  MissionResourceLimits.Build_t 86400 20 500000 100000 1 100 20 20 None "USD".
Definition two_ready : mdb :=
  with_missions [mission_of 1 short_limits 5] [item_of 10 "DEV-001" "One" 1; item_of 11 "DEV-002" "Two" 1].
Definition first_job : mdb := after two_ready (dispatched two_ready).
Definition first_done : mdb :=
  after first_job (reconcile_items (reconcile_at 40) (finish_runs RunStatus.COMPLETED first_job)).
Definition denied : mdb := after first_done (dispatched first_done).
Definition held_of (key : string) (d : mdb) : Z := held d key 0 "wall_seconds".
Example denied_leaks :
  lifecycles_of denied = [("DEV-001", WorkItemLifecycle.accepted); ("DEV-002", WorkItemLifecycle.ready)]
  ∧ held_of "global" first_done = 60 ∧ held_of "global" denied = 160.
Proof. vm_compute. done. Qed.

(** A title as long as the contract allows does not fit the mission's [next_action] once it is
prefixed with the key: the dispatch fails with an error that nothing handles. *)
Fixpoint letters (n : nat) : string := match n with O => EmptyString | S n => String "a" (letters n) end.
Definition long_title : WorkItemProposal.t :=
  WorkItemProposal.Build_t "DEV-001" (letters 240) "The objective" ["It works"] 0 [].
Definition untouched : mdb := with_missions [the_mission] [item_of 10 "DEV-001" (letters 240) 1].
Example long_title_valid : WorkItemProposal.valid long_title = true.
Proof. vm_compute. reflexivity. Qed.
Example dispatch_overflows : dispatched untouched = Err data_error.
Proof. vm_compute. reflexivity. Qed.

(** A mission at capacity keeps its place at the head of the queue: the other mission, which
has ready work and the capacity for it, is never served. *)
Definition three_jobs : MissionResourceLimits.t :=
  MissionResourceLimits.Build_t 86400 20 500000 100000 3 86400 20 20 None "USD".
Definition both : mdb :=
  with_missions [the_mission; mission_of 5 three_jobs 60]
    [item_of 10 "DEV-001" "One" 1; item_of 11 "DEV-002" "Two" 1;
     item_of 12 "DEV-003" "Three" 5; item_of 13 "DEV-004" "Four" 5;
     item_of 14 "DEV-005" "Five" 5].
Definition dispatched_at (d : mdb) (t : Z) : mdb :=
  after d (dispatch_ready manager_service (dispatch_at t) unlocked d).
(** The third dispatch finds the first mission at its capacity; from the fifth on it is the
oldest, and its row does not change any more. *)
Definition served : mdb := foldl dispatched_at both [70; 80; 90; 100].
Definition later : mdb := foldl dispatched_at served [110; 120; 130; 140; 150].
Example first_starves_second :
  (MissionModel.id <$> next_mission manager_service unlocked served) = Some 1%N
  ∧ (MissionModel.id <$> next_mission manager_service unlocked later) = Some 1%N
  ∧ lifecycles_of later = lifecycles_of served
  ∧ (MissionWorkItemModel.lifecycle <$> items later !! 14%N) = Some WorkItemLifecycle.ready
  ∧ active_count 5 later = 2.
Proof. vm_compute. done. Qed.
