(* ===== verification/TurnScenarios.v ===== *)
(** * Management turn scenarios

Two executors work on the claimed turn of the mission of [MissionScenarios.v] in demo mode:
the theorems of [MissionTurns.v] at concrete inputs. *)
From S2P Require Import Prelude Enums PyJson PyDecimal PyDecimalText Failures Verification Registry.
From S2P Require Import WorkflowSpec Normalize RawValidation GraphIssues MissionContracts Database Ownership.
From S2P Require Import Commands Routing Effects Accounting Budget ModelCalls Approvals MissionTables MissionResources.
From S2P Require Import Missions MissionBacklog MissionDispatch MissionTurns Instances RuntimeScenarios.
From S2P Require Import ModelScenarios MissionScenarios.
From stdpp Require Import gmap.
Local Open Scope Z_scope.
Local Open Scope stdpp_scope.

(** ** Parameters *)

Definition demo_provider : ProviderSpec.t :=
  ProviderSpec.Build_t ProviderKind.demo None (ProviderSpec.locality paid_provider)
    (EgressPolicy.Build_t [DataClassification.public] false false) (ProviderSpec.timeouts paid_provider)
    None (ProviderSpec.circuit paid_provider).
Definition no_price : Pricing.t :=
  Pricing.Build_t PricingStatus.not_applicable "USD" None None None "demo" None.
Definition demo_profile : ModelProfileSpec.t :=
  let p := paid_profile in
  ModelProfileSpec.Build_t (ModelProfileSpec.provider_revision_id p) "demo" ["mission_manager"] []
    (ModelProfileSpec.context_limit p) (ModelProfileSpec.output_limit p) true false false
    (ModelProfileSpec.locality p) [] (ModelProfileSpec.usage_reporting p) no_price.
#[export] Instance turn_role : RoleModel := λ j,
  if is_text "role" j then Some (AgentRoleSpec.Build_t RoleResponsibility.manager "mission_manager" "Plan the work.")
  else None.
#[export] Instance turn_profile : ProfileModel := λ j, if is_text "profile" j then Some demo_profile else None.
#[export] Instance turn_provider : ProviderModel := λ j, if is_text "provider" j then Some demo_provider else None.
#[export] Instance turn_decision : DecisionModel := λ j,
  match j with
  | JObj o => if json_is "propose" (dict_get "action" o) then Some plan else None
  | _ => None
  end.
#[export] Instance turn_decision_laws : DecisionModelLaws.
Proof.
  intros [| | | | | |o] c; try done. unfold decision_validate, turn_decision.
  destruct (json_is _ _); [|done]. intros [= <-]. vm_compute. reflexivity.
Qed.
#[export] Instance turn_schema : DecisionSchema := [("type", JStr "object")].
#[export] Instance dump_pricing : ModelDump Pricing.t := λ p, JStr (Pricing.currency p).

(** ** The turn *)

Definition asked_turn : ManagementTurnModel.t :=
  let t := the_turn in
  ManagementTurnModel.claimed "m" 400000000
    (ManagementTurnModel.Build_t 4 1 3 1 2 None None [("objective", JStr "Build it")]
       TurnStatus.queued "demo" false None None None 5 None None 0 5 None).
Definition configured (d : mdb) : mdb :=
  let w := WorkerTables.Build_t
    {[21%N := ConfigurationRevisionModel.Build_t 1 (Some (JStr "role"));
      22%N := ConfigurationRevisionModel.Build_t 2 (Some (JStr "profile"));
      31%N := ConfigurationRevisionModel.Build_t 3 (Some (JStr "provider"))]} ∅ ∅ [] [] [] in
  put_turn asked_turn (set_core (set_workers w (core d)) d).
Definition turn_db : mdb := configured s0.

Definition inputs : turn_inputs := {|
  ti_begin := Build_begin_readings 10 10; ti_receipt := Build_receipt_readings 11 11;
  ti_apply := apply_at; ti_ids := apply_names; ti_dispatch := dispatch_at 30;
  ti_fail := Build_fail_readings 40 40; ti_locked := unlocked;
|}.

(** ** Executions *)

Definition begin_at (i : nat) (x : tsys) : tsys :=
  match t_procs x !! i with
  | None => {| t_db := t_db x; t_procs := <[i := (manager_service, 4%N, TLoad)]> (t_procs x);
               t_asked := t_asked x |}
  | Some _ => x
  end.
Definition advance (i : nat) (x : tsys) : tsys :=
  match t_procs x !! i with
  | Some (s, turn, p) =>
      match turn_tx s inputs turn p (t_db x) with
      | Some (p', d') => {| t_db := d'; t_procs := <[i := (s, turn, p')]> (t_procs x);
                            t_asked := asks p ++ t_asked x |}
      | None => x
      end
  | None => x
  end.
Lemma begin_steps i x : rtc tstep x (begin_at i x).
Proof.
  unfold begin_at. destruct (t_procs x !! i) eqn:Hi; [apply rtc_refl|].
  apply rtc_once. by apply ts_execute.
Qed.
Lemma advance_steps i x : rtc tstep x (advance i x).
Proof.
  unfold advance. destruct (t_procs x !! i) as [[[s turn] p]|] eqn:Hi; [|apply rtc_refl].
  destruct (turn_tx _ _ _ _ _) as [[p' d']|] eqn:Ht; [|apply rtc_refl].
  apply rtc_once. by eapply ts_tx.
Qed.
Lemma schedule_steps is_ x : rtc tstep x (foldl (λ x i, advance i x) x is_).
Proof.
  revert x. induction is_ as [|i is_ IH]; intros x; simpl; [apply rtc_refl|].
  etrans; [apply advance_steps|apply IH].
Qed.

Definition x0 : tsys := {| t_db := turn_db; t_procs := ∅; t_asked := [] |}.
(** The first executor reaches the call; the second finds it started; the first goes on. *)
Definition x1 : tsys := begin_at 1 (begin_at 0 x0).
Definition x2 : tsys := foldl (λ x i, advance i x) x1 [0; 0; 0; 1; 1; 1]%nat.
Definition x3 : tsys := foldl (λ x i, advance i x) x2 [0; 0; 0; 0]%nat.
Definition points (x : tsys) : list tpc := omap (λ i, snd <$> t_procs x !! i) [0; 1]%nat.
Definition refused (p : tpc) : bool :=
  match p with TFail code => String.eqb code "management_receipt_reconciliation_required" | _ => false end.
Definition waiting (p : tpc) : bool := match p with TCall _ _ => true | _ => false end.

Example second_refused : (waiting <$> points x2) = [true; false] ∧ (refused <$> points x2) = [false; true].
Proof. vm_compute. done. Qed.
Example one_asked : t_asked x3 = [4%N].
Proof. vm_compute. reflexivity. Qed.
Example decided_and_dispatched : lifecycles_of (t_db x3)
  = [("DEV-001", WorkItemLifecycle.started); ("DEV-002", WorkItemLifecycle.pending)].
Proof. vm_compute. reflexivity. Qed.

Lemma reached : rtc tstep x0 x3.
Proof.
  etrans; [apply begin_steps|]. etrans; [apply begin_steps|].
  etrans; [apply (schedule_steps [0; 0; 0; 1; 1; 1]%nat)|]. apply (schedule_steps [0; 0; 0; 0]%nat).
Qed.

Lemma manager_called_once_witness : NoDup (t_asked x3).
Proof.
  destruct (manager_called_once x0 x3) as [Hnd _]; [reflexivity|reflexivity|exact reached|exact Hnd].
Defined.

Lemma turns_refine_backlog_witness : rtc mission_step turn_db (t_db x3).
Proof.
  destruct (turns_refine_backlog x0 x3) as [Hs _]; [reflexivity|reflexivity|exact reached|exact Hs].
Defined.
