(* ===== verification/RegistryScenarios.v ===== *)
(** * Registry scenarios

A provider with a credential, a model profile that refers to it, a revision of the provider
and the replay of that request; what a write with a stale version or an unknown reference
does. *)
From S2P Require Import Prelude Enums PyJson Failures Verification Registry WorkflowSpec Accounting.
From S2P Require Import Approvals Instances ModelScenarios RegistryService.
From stdpp Require Import gmap.
Local Open Scope Z_scope.
Local Open Scope stdpp_scope.

(** ** Parameters *)

#[export] Instance dump_registry_spec : ModelDump RegistrySpec := λ s,
  JStr match s with
       | SProvider _ => "provider"
       | SModelProfile _ => "profile"
       | _ => RegistryKind.value (spec_kind s)
       end.
#[export] Instance dump_registry_write : ModelDump RegistryWrite.t := λ b,
  JObj [("key", JStr (RegistryWrite.key b)); ("display_name", JStr (RegistryWrite.display_name b));
        ("expected_version", JInt (RegistryWrite.expected_version b));
        ("spec", model_dump (RegistryWrite.spec b));
        ("secret_ref", NodeConfig.opt_json JStr (RegistryWrite.secret_ref b));
        ("deployment_ref", NodeConfig.opt_json JStr (RegistryWrite.deployment_ref b))].
#[export] Instance dump_registry_record : ModelDump RegistryRecord.t := λ r,
  JObj [("key", JStr (RegistryRecord.key r)); ("revision", JInt (RegistryRecord.revision r));
        ("spec", model_dump (RegistryRecord.spec r))].
#[export] Instance sample_record : RecordModel := λ j,
  match j with
  | JObj o =>
      match dict_get "key" o, dict_get "revision" o, registry_spec_validate (dict_get "spec" o) with
      | Some (JStr key), Some (JInt revision), Some spec => Some {|
          RegistryRecord.id := 0%N; RegistryRecord.revision_id := 0%N;
          RegistryRecord.revision := revision; RegistryRecord.key := key;
          RegistryRecord.display_name := ""; RegistryRecord.description := "";
          RegistryRecord.enabled := true; RegistryRecord.archived := false;
          RegistryRecord.spec := spec; RegistryRecord.content_hash := "";
          RegistryRecord.secret_status := SecretStatus.not_required;
          RegistryRecord.health := HealthStatus.unknown; RegistryRecord.circuit_state := CircuitState.closed;
          RegistryRecord.others := [];
        |}
      | _, _, _ => None
      end
  | _ => None
  end.
#[export] Instance dump_report : ModelDump ValidationReport.t := λ r,
  JObj [("valid", JBool (ValidationReport.valid r))].
#[export] Instance sample_report : ReportModel := λ _, None.

(** ** Requests *)

Definition allowed : list string := ["https://models.example"].
Definition actor : uuid := 90.
Definition request (key idempotency : string) (version : Z) (s : RegistrySpec) (secret : option string)
    : RegistryWrite.t := {|
  RegistryWrite.key := key; RegistryWrite.display_name := "Sample"; RegistryWrite.description := "";
  RegistryWrite.enabled := true; RegistryWrite.archived := false;
  RegistryWrite.expected_version := version; RegistryWrite.idempotency_key := idempotency;
  RegistryWrite.spec := s; RegistryWrite.secret_ref := secret;
  RegistryWrite.deployment_ref := None; RegistryWrite.clear_secret := false;
|}.
Definition provider_request : RegistryWrite.t :=
  request "models" "k1" 0 (SProvider paid_provider) (Some "vault/models").
Definition profile_request : RegistryWrite.t :=
  request "small" "k2" 0 (SModelProfile paid_profile) None.
Definition revision_request : RegistryWrite.t :=
  request "models" "k3" 1 (SProvider paid_provider) None.
Definition at_ (c r : N) : write_readings := Build_write_readings c r 1000.

Definition after {A} (d : registry) (r : res registry_error (A * registry)) : registry :=
  match r with Ok (_, d') => d' | Err _ => d end.
Definition empty_registry : registry := {|
  counter := true; configurations := ∅; revisions := ∅; private_refs := ∅; health := ∅;
  worker_view := λ _, Build_worker_reading None JNull; published := ∅; records := []; events := [];
|}.

Definition created : res registry_error (RegistryRecord.t * registry) :=
  write allowed (at_ 1 31) RegistryKind.provider_connection provider_request actor None empty_registry.
Definition with_provider : registry := after empty_registry created.
Definition profiled : res registry_error (RegistryRecord.t * registry) :=
  write allowed (at_ 2 30) RegistryKind.model_profile profile_request actor None with_provider.
Definition with_profile : registry := after with_provider profiled.
Definition revised : res registry_error (RegistryRecord.t * registry) :=
  write allowed (at_ 9 33) RegistryKind.provider_connection revision_request actor (Some 1%N) with_profile.
Definition with_revision : registry := after with_profile revised.
Definition replayed : res registry_error (RegistryRecord.t * registry) :=
  write allowed (at_ 10 34) RegistryKind.provider_connection revision_request actor (Some 1%N) with_revision.

Example versions :
  (λ c, (ConfigurationModel.version c, ConfigurationModel.current_revision_id c))
    <$> (configurations with_revision !! 1%N) = Some (2, Some 33%N).
Proof. vm_compute. reflexivity. Qed.
(** The second revision keeps the credential, which no response shows. *)
Example kept : secret_of (private_refs with_revision !! 33%N) = Some "vault/models".
Proof. vm_compute. reflexivity. Qed.
Example shown :
  match revised with Ok (r, _) => Some (RegistryRecord.secret_status r) | Err _ => None end
  = Some SecretStatus.configured.
Proof. vm_compute. reflexivity. Qed.

(** A stale version, a taken key, an unknown reference and a credential in a field. *)
Example stale :
  write allowed (at_ 10 34) RegistryKind.provider_connection
    (request "models" "k4" 1 (SProvider paid_provider) None) actor (Some 1%N) with_revision
  = Err (_problem 409 "version_conflict").
Proof. vm_compute. reflexivity. Qed.
Example taken :
  write allowed (at_ 10 34) RegistryKind.provider_connection
    (request "models" "k4" 0 (SProvider paid_provider) None) actor None with_revision
  = Err (_problem 409 "duplicate_key").
Proof. vm_compute. reflexivity. Qed.
Example unknown_reference :
  write allowed (at_ 2 30) RegistryKind.model_profile profile_request actor None empty_registry
  = Err (_problem 422 "invalid_reference").
Proof. vm_compute. reflexivity. Qed.
Example denied_endpoint :
  write [] (at_ 1 31) RegistryKind.provider_connection provider_request actor None empty_registry
  = Err (_problem 422 "endpoint_denied").
Proof. vm_compute. reflexivity. Qed.
Example credential_in_name :
  write allowed (at_ 1 31) RegistryKind.provider_connection
    (request "token: abc" "k1" 0 (SProvider paid_provider) None) actor None empty_registry
  = Err (_problem 422 "unsafe_input").
Proof. vm_compute. reflexivity. Qed.

(** ** Witnesses *)

(** Comparing states unfolds their names before the operations. *)
#[local] Strategy 1000 [write after].

Definition succeeded {A} (r : res registry_error (A * registry)) : bool :=
  match r with Ok _ => true | Err _ => false end.
Definition answer_of (r : res registry_error (RegistryRecord.t * registry)) : option RegistryRecord.t :=
  match r with Ok (a, _) => Some a | Err _ => None end.
Lemma succeeded_ok r d : succeeded r = true → ∃ a, r = Ok (a, after d r) ∧ answer_of r = Some a.
Proof. destruct r as [[a e]|]; [by exists a|done]. Qed.
Lemma write_step t kind b i d :
  succeeded (write allowed t kind b actor i d) = true →
  registry_step d (after d (write allowed t kind b actor i d)).
Proof. intros (a & Ha & _)%(λ H, succeeded_ok _ d H). by eapply rs_write. Qed.

Lemma empty_ok : registry_ok empty_registry.
Proof. split; simpl; intros; set_solver. Qed.
Lemma to_profile : rtc registry_step empty_registry with_profile.
Proof.
  eapply rtc_l; [apply (write_step (at_ 1 31) RegistryKind.provider_connection provider_request None);
                 by vm_compute|].
  eapply rtc_l; [apply (write_step (at_ 2 30) RegistryKind.model_profile profile_request None);
                 by vm_compute|]. apply rtc_refl.
Qed.

Lemma registry_sound_witness :
  registry_ok with_profile ∧ revisions empty_registry ⊆ revisions with_profile.
Proof. apply registry_sound; [exact to_profile|exact empty_ok]. Defined.

Lemma changed : configurations with_revision ≠ configurations with_profile.
Proof.
  intros Heq. apply (f_equal (λ m, ConfigurationModel.version <$> (m !! 1%N))) in Heq.
  vm_compute in Heq. discriminate Heq.
Qed.

Lemma revised_ok : succeeded revised = true.
Proof. vm_compute. reflexivity. Qed.
Lemma replayed_ok : succeeded replayed = true.
Proof. vm_compute. reflexivity. Qed.
Lemma profiled_ok : succeeded profiled = true.
Proof. vm_compute. reflexivity. Qed.
Lemma no_lost_update_witness :
  succeeded revised = true ∧ succeeded replayed = true ∧ after with_revision replayed = with_revision.
Proof.
  split; [exact revised_ok|split; [exact replayed_ok|]].
  destruct (succeeded_ok revised with_profile revised_ok) as (r1 & Hr1 & _).
  destruct (succeeded_ok replayed with_revision replayed_ok) as (r2 & Hr2 & _).
  pose proof changed as Hc. fold with_revision in Hr1. unfold revised in Hr1. unfold replayed in Hr2 at 1.
  eapply no_lost_update; [|exact Hr1|exact Hc|apply rtc_refl|exact Hr2|reflexivity].
  apply (registry_steps_ok _ _ to_profile empty_ok).
Defined.

Lemma secret_hidden_witness :
  same_answer (write allowed (at_ 1 31) RegistryKind.provider_connection provider_request actor None empty_registry)
    (write allowed (at_ 1 31) RegistryKind.provider_connection
       (RegistryWrite.with_refs (Some "env/OTHER") None provider_request) actor None empty_registry).
Proof.
  eapply secret_hidden; [split; reflexivity|vm_compute; reflexivity..].
Defined.

Lemma references_active_witness :
  spec_kind (SModelProfile paid_profile) = RegistryKind.model_profile
  ∧ spec_ok allowed (SModelProfile paid_profile) with_provider.
Proof.
  destruct (succeeded_ok profiled with_provider profiled_ok) as (r & Hr & _).
  fold with_profile in Hr. unfold profiled in Hr.
  apply (references_active allowed (at_ 2 30) RegistryKind.model_profile profile_request actor None
           with_provider r with_profile); [exact Hr|].
  intros Heq. apply (f_equal (λ m, ConfigurationModel.version <$> (m !! 2%N))) in Heq.
  vm_compute in Heq. discriminate Heq.
Defined.
