(* ===== verification/AuthScenarios.v ===== *)
(** * Authentication scenarios

The owner is created, logs in, logs in again, logs out and resets the password; a guesser is
locked out. *)
From S2P Require Import Prelude PyJson Database Instances Auth.
From stdpp Require Import gmap.
Local Open Scope Z_scope.
Local Open Scope stdpp_scope.

(** ** Parameters *)

#[export] Instance sample_hasher : PasswordHasher := {|
  argon2_verify hash password := Some (String.eqb hash ("h:" +:+ password));
  argon2_needs_rehash _ := Some false;
  argon2_hash _ password := "h:" +:+ password;
|}.
#[export] Instance sample_hmac : Hmac := {|
  hmac_hex key message := sha256 (key +:+ message);
  hmac_base64 key message := sha256 (key +:+ message);
  sha256_bytes message := sha256 message;
|}.
#[export] Instance sample_network : IpNetwork := λ v, Some (v +:+ "/24").

Definition defaults : Settings.t := {|
  Settings.session_idle_seconds := 1800; Settings.session_absolute_seconds := 43200;
  Settings.session_touch_interval_seconds := 60; Settings.login_window_seconds := 900;
  Settings.login_account_limit := 5; Settings.login_network_limit := 20;
  Settings.login_base_delay_seconds := 1; Settings.login_max_delay_seconds := 300;
|}.
Definition api : AuthService.t := AuthService.Build_t defaults (Some "key") "h:nobody knows".
Definition client : ClientMetadata.t := ClientMetadata.Build_t (Some "10.0.0.1") None.

(** Fifteen failures take 811 seconds of a window, a sixteenth would take 1111. *)
Example bound : (lock_time api "account" 15, lock_time api "account" 16) = (811, 1111).
Proof. vm_compute. reflexivity. Qed.
Example networks : lock_time api "network" 30 = 811 ∧ lock_time api "network" 31 = 1111.
Proof. vm_compute. done. Qed.

(** ** The owner *)

Definition initial : auth := Build_auth true ∅ ∅ ∅ ∅ [].
Definition result_of {A} (d : auth) (r : res auth_error (A * auth)) : auth :=
  match r with Ok (_, d') => d' | Err _ => d end.
Definition principal_of (r : res auth_error (LoginResult.t * auth)) : option AuthPrincipal.t :=
  match r with Ok (a, _) => LoginResult.principal a | Err _ => None end.

Definition start : Z := seconds 1000.
Definition password : string := "correct horse".
Definition owned : auth := result_of initial (bootstrap_owner " Owner" password 1 7 start initial).
Definition login (token : string) (session : uuid) (previous : option string) (name word : string) (now : Z)
    (d : auth) : res auth_error (LoginResult.t * auth) :=
  login_write api (login_read api name word client now d) (Build_login_readings token session 8 now) word
    client previous now d.

Definition token_a : string := "aaaaaaaaaaaaaaaaaaaaaaaaaaaaaaaaaaaaaaaaaaa".
Definition token_b : string := "bbbbbbbbbbbbbbbbbbbbbbbbbbbbbbbbbbbbbbbbbbb".
Definition first : res auth_error (LoginResult.t * auth) :=
  login token_a 11 None "owner" password (start + seconds 10) owned.
Definition inside : auth := result_of owned first.
Definition second : res auth_error (LoginResult.t * auth) :=
  login token_b 12 (Some token_a) "OWNER" password (start + seconds 20) inside.
Definition rotated : auth := result_of inside second.

Example second_owner :
  bootstrap_owner "other" password 2 7 start owned = Err BootstrapAlreadyCompletedError.
Proof. vm_compute. reflexivity. Qed.
Example short_password : bootstrap_owner "owner" "short" 2 7 start initial = Err PasswordPolicyError.
Proof. vm_compute. reflexivity. Qed.
Example idle_end :
  (authenticate api token_a false (start + seconds 1810) inside).1 = Expired "idle_expired".
Proof. vm_compute. reflexivity. Qed.
Example touch_extends :
  let d := (authenticate api token_a false (start + seconds 1800) inside).2 in
  match (authenticate api token_a false (start + seconds 1810) d).1 with Granted _ => true | _ => false end
  = true.
Proof. vm_compute. reflexivity. Qed.
(** A revocation for idleness that comes after the touch does nothing. *)
Example late_revocation :
  let d := (authenticate api token_a false (start + seconds 1800) inside).2 in
  _revoke_expired (sha256 token_a) "idle_expired" (start + seconds 1810) d = Ok d.
Proof. vm_compute. reflexivity. Qed.
Example rotated_out : (authenticate api token_a false (start + seconds 30) rotated).1 = Denied.
Proof. vm_compute. reflexivity. Qed.

(** ** A guesser *)

Definition guess (n : Z) (d : auth) : auth :=
  result_of d (login token_a 13 None "owner" "wrong password" (start + seconds (100 + n)) d).
Definition five_guesses : auth := foldl (λ d n, guess n d) rotated [0; 1; 2; 3; 4].
(** The sixth is refused whatever the password is. *)
Example locked_out :
  match login token_a 13 None "owner" password (start + seconds 104) five_guesses with
  | Ok (r, _) => Some r
  | Err _ => None
  end = Some (LoginResult.Build_t None 1).
Proof. vm_compute. reflexivity. Qed.

(** ** Witnesses *)

Lemma initial_auth_ok : auth_ok api initial.
Proof. split; simpl; intros; try done. lia. Qed.
Lemma login_ok token session previous name word now d p :
  principal_of (login token session previous name word now d) = Some p →
  ∃ n, login token session previous name word now d
       = Ok (LoginResult.Build_t (Some p) n, result_of d (login token session previous name word now d)).
Proof. destruct (login _ _ _ _ _ _ _) as [[[q n] e]|]; [|done]. intros [= ->]. by exists n. Qed.
Lemma login_step token session previous name word now d :
  auth_step api now d (result_of d (login token session previous name word now d)).
Proof.
  destruct (login token session previous name word now d) as [[r e]|e] eqn:Hl; simpl.
  - eapply as_login. exact Hl.
  - apply as_quiet, (as_other _ _ []); [done..| |constructor]. by rewrite app_nil_r.
Qed.
Lemma to_owned : rtc (any_step api) initial owned.
Proof.
  apply rtc_once. exists start. unfold owned. destruct (bootstrap_owner _ _ _ _ _ _) as [[r e]|e] eqn:Hb; simpl.
  - by eapply as_quiet, as_bootstrap.
  - apply as_quiet, (as_other _ _ []); [done..| |constructor]. by rewrite app_nil_r.
Qed.
Lemma to_inside : rtc (any_step api) initial inside.
Proof. eapply rtc_r; [exact to_owned|]. eexists. apply login_step. Qed.
Lemma owned_ok : auth_ok api owned.
Proof. exact (proj1 (auth_steps_ok api _ _ to_owned initial_auth_ok)). Qed.
Lemma inside_ok : auth_ok api inside.
Proof. exact (proj1 (auth_steps_ok api _ _ to_inside initial_auth_ok)). Qed.

Definition owner_session (session : uuid) (token : string) (idle : Z) : AuthPrincipal.t := {|
  AuthPrincipal.user_id := 1; AuthPrincipal.username := "owner"; AuthPrincipal.role := "owner";
  AuthPrincipal.session_id := session; AuthPrincipal.idle_expires_at := idle;
  AuthPrincipal.absolute_expires_at := idle + seconds 41400; AuthPrincipal.session_token := token;
  AuthPrincipal.csrf_token := derive_csrf_token token (Some "key");
|}.
Lemma first_granted : principal_of first = Some (owner_session 11 token_a (start + seconds 1810)).
Proof. vm_compute. reflexivity. Qed.
Lemma second_granted : principal_of second = Some (owner_session 12 token_b (start + seconds 1820)).
Proof. vm_compute. reflexivity. Qed.

Lemma auth_sound_witness :
  ∃ row user, sessions inside !! 11%N = Some row ∧ users inside !! 1%N = Some user
    ∧ SessionModel.token_hash row = sha256 token_a ∧ SessionModel.user_id row = UserModel.id user
    ∧ SessionModel.revoked_at row = None
    ∧ start + seconds 30 < SessionModel.created_at row + seconds 43200
    ∧ UserModel.enabled user = true
    ∧ ∀ i u, users inside !! i = Some u → UserModel.enabled u = true → i = 1%N.
Proof.
  apply (auth_sound api initial inside token_a true (start + seconds 30)
           (owner_session 11 token_a (start + seconds 1810)) initial_auth_ok to_inside).
  vm_compute. reflexivity.
Defined.

Lemma login_sound_witness :
  ∃ user, users owned !! 1%N = Some user
    ∧ normalize_username "owner" = Some (UserModel.username user)
    ∧ UserModel.enabled user = true ∧ verify (UserModel.password_hash user) password = true
    ∧ ∀ k row until, k ∈ ob_keys (login_read api "owner" password client (start + seconds 10) owned) →
        limits owned !! k = Some row → in_window api (start + seconds 10) row = true →
        LoginRateLimitModel.locked_until row = Some until → until ≤ start + seconds 10.
Proof.
  destruct (login_ok _ _ _ _ _ _ _ _ first_granted) as [n Hl]. unfold login in Hl at 1.
  exact (login_sound api owned owned "owner" password client _ None _ _ n _ owned_ok Hl).
Defined.

Lemma login_authenticates_witness :
  ∃ p' d'', authenticate api token_a false (start + seconds 100) inside = (Granted p', d'')
    ∧ AuthPrincipal.session_id p' = 11%N ∧ AuthPrincipal.user_id p' = 1%N
    ∧ AuthPrincipal.csrf_token p' = derive_csrf_token token_a (Some "key")
    ∧ start + seconds 1810 ≤ AuthPrincipal.idle_expires_at p'.
Proof.
  destruct (login_ok _ _ _ _ _ _ _ _ first_granted) as [n Hl]. unfold login in Hl at 1.
  destruct (login_authenticates api _ (Build_login_readings token_a 11 8 (start + seconds 10)) _ _ _ _ owned
              (owner_session 11 token_a (start + seconds 1810)) n inside (start + seconds 100) false owned_ok
              ltac:(split; apply Nat.leb_le; vm_compute; reflexivity) Hl
              ltac:(split; [apply Z.leb_le|apply Z.ltb_lt]; vm_compute; reflexivity))
    as (p' & d'' & Ha & Hs & Hu & Hc & Hi & _).
  exists p', d''. split_and!; assumption.
Defined.

Lemma ended_forever_witness :
  (authenticate api token_a false (start + seconds 30) five_guesses).1 = Denied.
Proof.
  destruct (login_ok _ _ _ _ _ _ _ _ second_granted) as [n Hl]. unfold login in Hl at 1.
  assert (n = 0) as -> by (apply (f_equal (λ r, match r with Ok (a, _) => LoginResult.retry_after_seconds a | Err _ => 0 end)) in Hl;
    vm_compute in Hl; by symmetry).
  destruct (sessions inside !! 11%N) as [q|] eqn:Hq; [|vm_compute in Hq; discriminate Hq].
  destruct (sessions rotated !! 11%N) as [row|] eqn:Hrow; [|vm_compute in Hrow; discriminate Hrow].
  refine (f_equal fst (proj2 (ended_forever api 11 inside rotated five_guesses row token_a false _ inside_ok _ _ Hrow _))).
  - eapply (ends_rotated api 11 _ _ _ _ token_a); [exact Hl|done|exact Hq|]. vm_compute in Hq. injection Hq as <-. reflexivity.
  - unfold five_guesses. cbn [foldl]. unfold guess. do 5 (eapply rtc_r; [|eexists; apply login_step]). apply rtc_refl.
  - vm_compute in Hrow. injection Hrow as <-. vm_compute. reflexivity.
Defined.

(** The history of the logins above: the owner enters twice, then a guesser fails five times. *)
Definition label (token : string) (session : uuid) (previous : option string) (name word : string)
    (now : Z) (d : auth) : option attempt :=
  match login token session previous name word now d with
  | Ok (r, _) => Some (attempt_of api (login_read api name word client now d) now r d)
  | Err _ => None
  end.
Lemma history_login token session previous name word now t d c l x :
  history api c l (t, d) → t ≤ now → label token session previous name word now d = Some x →
  history api c (l ++ [(now, x)]) (now, result_of d (login token session previous name word now d)).
Proof.
  intros Hh Ht Hx. eapply history_snoc; [exact Hh|exact Ht|]. unfold label in Hx.
  destruct (login token session previous name word now d) as [[r e]|e] eqn:Hl; [|done].
  injection Hx as <-. simpl. eapply ae_login. exact Hl.
Qed.

Definition account_key : string * string := ("account", (_subject api "owner").2).
Definition client_keys : list (string * string) :=
  _rate_keys api (_subject api "owner").2 (client_network (Some "10.0.0.1")).
Definition entered : list (Z * attempt) :=
  [(start + seconds 10, Entered client_keys); (start + seconds 20, Entered client_keys)].
Definition guessed : list (Z * attempt) :=
  (λ n, (start + seconds (100 + n), Failed client_keys)) <$> [0; 1; 2; 3; 4].

Lemma history_entered : history api (start, owned) entered (start + seconds 20, rotated).
Proof.
  apply (history_login token_b 12 (Some token_a) "OWNER" password (start + seconds 20)
           (start + seconds 10) inside (start, owned) [(start + seconds 10, Entered client_keys)]);
    [|unfold seconds; lia|vm_compute; reflexivity].
  apply (history_login token_a 11 None "owner" password (start + seconds 10) start owned
           (start, owned) []); [constructor|unfold seconds; lia|vm_compute; reflexivity].
Qed.
Lemma history_guessed :
  history api (start + seconds 20, rotated) guessed (start + seconds 104, five_guesses).
Proof.
  assert (∀ n t d l, history api (start + seconds 20, rotated) l (t, d) → t ≤ start + seconds (100 + n) →
    label token_a 13 None "owner" "wrong password" (start + seconds (100 + n)) d
      = Some (Failed client_keys) →
    history api (start + seconds 20, rotated) (l ++ [(start + seconds (100 + n), Failed client_keys)])
      (start + seconds (100 + n), guess n d)) as Hguess by (intros; by eapply history_login).
  assert (∀ n t d, label token_a 13 None "owner" "wrong password" (start + seconds (100 + n)) d
    = Some (Failed client_keys) → ∀ l, history api (start + seconds 20, rotated) l (t, d) →
    t ≤ start + seconds (100 + n) → history api (start + seconds 20, rotated)
      (l ++ [(start + seconds (100 + n), Failed client_keys)])
      (start + seconds (100 + n), guess n d)) as Hnext by eauto.
  pose proof (history_nil api (start + seconds 20, rotated)) as Hh.
  apply (Hnext 0) in Hh; [|vm_compute; reflexivity|unfold seconds; lia].
  apply (Hnext 1) in Hh; [|vm_compute; reflexivity|unfold seconds; lia].
  apply (Hnext 2) in Hh; [|vm_compute; reflexivity|unfold seconds; lia].
  apply (Hnext 3) in Hh; [|vm_compute; reflexivity|unfold seconds; lia].
  apply (Hnext 4) in Hh; [|vm_compute; reflexivity|unfold seconds; lia].
  unfold five_guesses, guessed. cbn [foldl]. change 104 with (100 + 4). exact Hh.
Qed.
Lemma guessed_within t x :
  (t, x) ∈ guessed →
  start + seconds 100 ≤ t < start + seconds 100 + seconds (window_seconds api)
  ∧ (account_key.1 = "account" → ¬ entered_for account_key x).
Proof.
  intros (n & [= -> ->] & Hn)%list_elem_of_fmap. split; [|by intros _ (? & [=] & _)].
  change (window_seconds api) with 900. unfold seconds. set_solver by lia.
Qed.
Lemma guesses_counted : guesses account_key guessed = 5%nat.
Proof. vm_compute. reflexivity. Qed.

(** With the default settings at most fifteen failures are counted in a window, so at most thirty
passwords are tried for an account in any fifteen minutes without a login. *)
Lemma guesses_bounded_witness :
  guesses account_key guessed = 5%nat ∧ Z.of_nat (guesses account_key guessed) ≤ 2 * 15.
Proof.
  split; [exact guesses_counted|].
  refine (proj1 (guesses_bounded api _ 15 (start + seconds 100) start owned entered
    (start + seconds 20) rotated guessed (start + seconds 104) five_guesses account_key
    _ history_entered history_guessed guessed_within _ _)).
  - vm_compute. reflexivity.
  - vm_compute. reflexivity.
  - lia.
  - vm_compute. discriminate.
Defined.
