(* ===== verification/StudioScenarios.v ===== *)
(** * Workflow service scenarios

A template is created, published, opened again as a draft and saved; the resolution of a
model profile over the registry of [RegistryScenarios.v]. *)
From S2P Require Import Prelude Enums PyJson PyDecimal Failures Verification Registry WorkflowSpec.
From S2P Require Import Predicates Normalize RawValidation Graph GraphIssues FanoutIssues SnapshotIssues.
From S2P Require Import PolicyIssues Protected Validate Accounting Approvals Instances ModelScenarios.
From S2P Require Import RegistryService RegistryScenarios WorkflowStudio.
From stdpp Require Import gmap.
Local Open Scope Z_scope.
Local Open Scope stdpp_scope.

(** ** References *)

(** A profile brings its provider along. *)
Example profile_resolves :
  (λ st : list WorkflowResolvedRevision.t * list WorkflowIssue.t,
     (WorkflowResolvedRevision.revision_id <$> st.1, st.2))
    <$> visit 4 with_profile "n" 30 RegistryKind.model_profile ([], [])
  = Ok ([30; 31]%N, []).
Proof. vm_compute. reflexivity. Qed.
Example wrong_kind :
  visit 4 with_profile "n" 30 RegistryKind.route_policy ([], []) = Ok ([], [kind_issue "n"]).
Proof. vm_compute. reflexivity. Qed.
Example missing :
  visit 4 with_profile "n" 77 RegistryKind.route_policy ([], []) = Ok ([], [unavailable_issue "n"]).
Proof. vm_compute. reflexivity. Qed.

(** ** A template *)

Definition author : uuid := 90.
Definition body : WorkflowCreateRequest.t := {|
  WorkflowCreateRequest.key := "small-flow"; WorkflowCreateRequest.name := "Small";
  WorkflowCreateRequest.description := ""; WorkflowCreateRequest.idempotency_key := "k-create";
|}.
Definition small : WorkflowSpec.t RawNode.t := {|
  WorkflowSpec.spec_version := "1.1"; WorkflowSpec.reducers := default_reducers;
  WorkflowSpec.key := "small-flow"; WorkflowSpec.name := "Small"; WorkflowSpec.description := "";
  WorkflowSpec.entrypoint := "finish"; WorkflowSpec.defaults := NodePolicy.default;
  WorkflowSpec.nodes := [RawNode.Build_t "finish" WorkflowNodeType.finalize "Finish" [] NodePolicy.default];
  WorkflowSpec.edges := []; WorkflowSpec.result_path := "$.final";
|}.
Definition small_normal : nspec := Eval vm_compute in
  match normalize_workflow small with
  | Ok n => n
  | Err _ => with_graph small [] []
  end.

(** [model_validate] on the payload of a new template and on a stored one. *)
#[export] Instance studio_spec : SpecModel := λ payload,
  match dict_get "key" payload with
  | Some (JStr k) =>
      if String.eqb k "small-flow"
      then Ok (match dict_get "spec_version" payload with Some _ => as_raw small_normal | None => small end)
      else Err (bad "unknown" "key")
  | _ => Err (bad "missing" "key")
  end.
#[export] Instance studio_spec_laws : SpecModelLaws.
Proof.
  intros payload s. unfold spec_validate, studio_spec.
  destruct (dict_get "key" payload) as [[| | | |k| |]|]; try done. destruct (String.eqb k "small-flow"); [|done].
  destruct (dict_get "spec_version" payload); intros [= <-]; vm_compute; reflexivity.
Qed.

#[export] Instance dump_raw_node : ModelDump RawNode.t := λ n,
  JObj [("id", JStr (RawNode.id n)); ("label", JStr (RawNode.label n)); ("config", JObj (RawNode.config n))].
#[export] Instance dump_layout : ModelDump WorkflowLayout.t := λ l,
  JObj [("nodes", JArr (JStr <$> (WorkflowLayout.nodes l).*1))].
#[export] Instance dump_snapshot : ModelDump WorkflowResolvedSnapshot.t := λ s,
  JObj [("workflow_content_hash", JStr (WorkflowResolvedSnapshot.workflow_content_hash s))].
#[export] Instance dump_template : ModelDump WorkflowTemplateRecord.t := λ r,
  JObj [("key", JStr (WorkflowTemplateRecord.key r))].
#[export] Instance dump_document : ModelDump WorkflowDocument.t := λ d,
  JObj [("template", model_dump (WorkflowDocument.template d))].
#[export] Instance dump_validation : ModelDump WorkflowValidationReport.t := λ r,
  JObj [("valid", JBool (WorkflowValidationReport.valid r))].
Definition dump_fields (c : WorkflowCommand.t) : json :=
  JObj [("expected_version", JInt (WorkflowCommand.expected_version c));
        ("idempotency_key", JStr (WorkflowCommand.idempotency_key c))].
#[export] Instance dump_command : ModelDump WorkflowCommand.t := dump_fields.
#[export] Instance dump_create : ModelDump WorkflowCreateRequest.t := λ b,
  JObj [("key", JStr (WorkflowCreateRequest.key b)); ("name", JStr (WorkflowCreateRequest.name b))].
#[export] Instance dump_draft : ModelDump WorkflowDraftWrite.t := λ b, dump_fields (WorkflowDraftWrite.command b).
#[export] Instance dump_check : ModelDump WorkflowValidateRequest.t := λ b,
  JObj [("command", dump_fields (WorkflowValidateRequest.command b)); ("spec", JObj (WorkflowValidateRequest.spec b))].
#[export] Instance dump_new_draft : ModelDump WorkflowNewDraft.t := λ b, dump_fields (WorkflowNewDraft.command b).
#[export] Instance dump_archive : ModelDump WorkflowArchiveRequest.t := λ b, dump_fields (WorkflowArchiveRequest.command b).
#[export] Instance set_command : SetDump WorkflowCommand.t := dump_command.
#[export] Instance set_create : SetDump WorkflowCreateRequest.t := dump_create.
#[export] Instance set_draft : SetDump WorkflowDraftWrite.t := dump_draft.
#[export] Instance set_check : SetDump WorkflowValidateRequest.t := dump_check.
#[export] Instance set_new_draft : SetDump WorkflowNewDraft.t := dump_new_draft.
#[export] Instance set_archive : SetDump WorkflowArchiveRequest.t := dump_archive.

#[export] Instance sample_studio : StudioModel := {|
  layout_validate j := match j with
    | JObj o => match dict_get "nodes" o with
                | Some (JArr []) => Some WorkflowLayout.empty
                | _ => None
                end
    | _ => None
    end;
  document_validate _ := None;
  template_validate _ := None;
  validation_validate _ := None;
  spec_dump n := payload_of (as_raw n);
|}.
Lemma small_stored : spec_validate (payload_of (as_raw small_normal)) = Ok (as_raw small_normal).
Proof. reflexivity. Qed.
#[export] Instance sample_studio_laws : StudioModelLaws.
Proof.
  split; [|done]. intros payload raw n. unfold spec_validate at 1, studio_spec.
  destruct (dict_get "key" payload) as [[| | | |k| |]|]; try done. destruct (String.eqb k "small-flow"); [|done].
  assert (normalize_workflow small = Ok small_normal) as Hn by (vm_compute; reflexivity).
  destruct (dict_get "spec_version" payload); intros [= <-].
  - rewrite (normalize_workflow_idem _ _ Hn). intros [= <-]. apply small_stored.
  - rewrite Hn. intros [= <-]. apply small_stored.
Qed.

Definition blank_studio : studio := Build_studio empty_registry ∅ ∅ [].
Definition next {A} (d : studio) (r : res registry_error (A * studio)) : studio :=
  match r with Ok (_, d') => d' | Err _ => d end.
Definition at_time (v : uuid) : readings := Build_readings 1 v 1000 1001.
Definition issue (version : Z) (key : string) : WorkflowCommand.t := WorkflowCommand.Build_t version key.

Definition made : studio := next blank_studio (create (at_time 11) body author blank_studio).
Definition out : studio := next made (publish (at_time 11) 1 (issue 1 "k-publish") author made).
Definition reopened : studio :=
  next out (new_draft (at_time 12) 1 (WorkflowNewDraft.Build_t (issue 2 "k-draft") None) author out).
Definition saved : studio :=
  next reopened (save (at_time 12) 1 (WorkflowDraftWrite.Build_t (issue 3 "k-save") (as_raw small_normal) WorkflowLayout.empty)
                   author reopened).

Example made_ok :
  (λ r, (WorkflowTemplateModel.version r, WorkflowTemplateModel.current_draft_version_id r)) <$> (templates made !! 1%N)
  = Some (1, Some 11%N).
Proof. vm_compute. reflexivity. Qed.
Example published_once :
  (WorkflowVersionModel.published_at <$> (versions out !! 11%N),
   WorkflowTemplateModel.current_published_version_id <$> (templates out !! 1%N)) = (Some (Some 1000), Some (Some 11%N)).
Proof. vm_compute. reflexivity. Qed.
Example reopened_ok :
  (λ v, (WorkflowVersionModel.version v, WorkflowVersionModel.published_at v)) <$> (versions saved !! 12%N)
  = Some (2, None).
Proof. vm_compute. reflexivity. Qed.
Example saved_once :
  WorkflowTemplateModel.version <$> (templates saved !! 1%N) = Some 4.
Proof. vm_compute. reflexivity. Qed.
Example no_draft_left :
  publish (at_time 11) 1 (issue 2 "k-again") author out = Err (problem 404 "version_not_found").
Proof. vm_compute. reflexivity. Qed.
Example stale_publish :
  publish (at_time 11) 1 (issue 7 "k-again") author made = Err (problem 409 "version_conflict").
Proof. vm_compute. reflexivity. Qed.

(** ** Witnesses *)

Lemma blank_ok : studio_ok blank_studio.
Proof. split; simpl; intros; try set_solver. exact empty_ok. Qed.
Definition went {A} (r : res registry_error (A * studio)) : bool :=
  match r with Ok _ => true | Err _ => false end.
Lemma went_ok {A} (r : res registry_error (A * studio)) d :
  went r = true → ∃ a, r = Ok (a, next d r).
Proof. destruct r as [[a e]|]; [by exists a|done]. Qed.
Definition creating := create (at_time 11) body author blank_studio.
Definition publishing := publish (at_time 11) 1 (issue 1 "k-publish") author made.
Definition redrafting :=
  new_draft (at_time 12) 1 (WorkflowNewDraft.Build_t (issue 2 "k-draft") None) author out.
Definition saving :=
  save (at_time 12) 1 (WorkflowDraftWrite.Build_t (issue 3 "k-save") (as_raw small_normal) WorkflowLayout.empty) author reopened.
(** Comparing states unfolds their names before the operations. *)
#[local] Strategy 1000 [create publish new_draft save next].
Lemma creating_ok : went creating = true.
Proof. vm_compute. reflexivity. Qed.
Lemma publishing_ok : went publishing = true.
Proof. vm_compute. reflexivity. Qed.
Lemma redrafting_ok : went redrafting = true.
Proof. vm_compute. reflexivity. Qed.
Lemma saving_ok : went saving = true.
Proof. vm_compute. reflexivity. Qed.
Lemma to_out : rtc studio_step blank_studio out.
Proof.
  destruct (went_ok creating blank_studio creating_ok) as [a Ha].
  destruct (went_ok publishing made publishing_ok) as [b Hb].
  exact (rtc_l _ _ _ _ (ss_create _ _ _ _ _ _ Ha) (rtc_once _ _ (ss_publish _ _ _ _ _ _ _ Hb))).
Qed.
Lemma to_saved : rtc studio_step out saved.
Proof.
  destruct (went_ok redrafting out redrafting_ok) as [a Ha]. destruct (went_ok saving reopened saving_ok) as [b Hb].
  exact (rtc_l _ _ _ _ (ss_new_draft _ _ _ _ _ _ _ Ha) (rtc_once _ _ (ss_save _ _ _ _ _ _ _ Hb))).
Qed.
Lemma all_steps : rtc studio_step blank_studio saved.
Proof. etransitivity; [exact to_out|exact to_saved]. Qed.
Lemma out_ok : studio_ok out.
Proof. exact (proj1 (studio_steps_ok _ _ to_out blank_ok)). Qed.

Definition shown (o : option WorkflowVersionModel.t) : bool :=
  match o with Some v => bool_decide (is_published v) | None => false end.
Lemma shown_ok o : shown o = true → ∃ v, o = Some v ∧ is_published v.
Proof. destruct o as [v|]; [|done]. intros Hs. exists v. split; [done|]. exact (bool_decide_eq_true_1 _ Hs). Qed.
Lemma shown_out : shown (versions out !! 11%N) = true.
Proof. vm_compute. reflexivity. Qed.
Lemma shown_saved : shown (versions saved !! 11%N) = true.
Proof. vm_compute. reflexivity. Qed.

Lemma published_sound_witness :
  ∃ v, versions saved !! 11%N = Some v ∧ is_published v ∧ published_ok saved v.
Proof.
  destruct (shown_ok _ shown_saved) as (v & Hv & Hp). exists v. split; [exact Hv|]. split; [exact Hp|].
  exact (published_sound blank_studio saved 11 v blank_ok all_steps Hv Hp).
Defined.

Lemma published_forever_witness :
  ∃ v, versions out !! 11%N = Some v ∧ is_published v ∧ versions saved !! 11%N = Some v.
Proof.
  destruct (shown_ok _ shown_out) as (v & Hv & Hp). exists v. split; [exact Hv|]. split; [exact Hp|].
  exact (published_forever out saved 11 v out_ok to_saved Hv Hp).
Defined.
