(* ===== verification/RunScenarios.v ===== *)
(** * Run scenarios

The owner enqueues a job on the template that [StudioScenarios.v] publishes, repeats the
request, sends two commands to the run and pauses its mission; what a stale version, a key with other content
and another user get. *)
From S2P Require Import Prelude Enums PyJson PyDecimal Failures Verification Registry WorkflowSpec.
From S2P Require Import Normalize Validate Database Ownership MissionContracts MissionTables MissionResources.
From S2P Require Import Accounting Approvals Instances.
From S2P Require Import ModelScenarios RegistryService RegistryScenarios Auth WorkflowStudio StudioScenarios RunApi.
From stdpp Require Import gmap.
Local Open Scope Z_scope.
Local Open Scope stdpp_scope.

(** ** Parameters *)

Definition num (i : uuid) : json := JInt (Z.of_N i).
#[export] Instance dump_run_view : ModelDump RunView.t := λ v, JArr
  [num (RunView.id v); num (RunView.job_id v); num (RunView.project_id v); num (RunView.workflow_version_id v);
   JInt (RunView.run_number v); match RunView.retry_of_run_id v with Some i => num i | None => JNull end;
   JStr (RunView.thread_id v); JStr (enum_value (RunView.status v)); JStr (enum_value (RunView.desired_state v));
   JStr (RunView.mode v); JInt (RunView.version v); JBool (RunView.recovering v); JInt (RunView.claimable_at v)].
Definition parse_view (j : json) : option RunView.t :=
  match j with
  | JArr [JInt i; JInt job; JInt project; JInt version; JInt number; parent; JStr thread; JStr status; JStr desired;
          JStr mode; JInt row; JBool recovering; JInt claimable] =>
      s ← enum_of_value status;
      w ← enum_of_value desired;
      Some (RunView.Build_t (Z.to_N i) (Z.to_N job) (Z.to_N project) (Z.to_N version) number
              (match parent with JInt p => Some (Z.to_N p) | _ => None end) thread s w mode row recovering claimable)
  | _ => None
  end.
#[export] Instance sample_desk : DeskModel := {|
  project_validate _ := None;
  run_validate := parse_view;
  reconciliation_validate _ := None;
  decision_validate _ := None;
  mission_control_validate _ := None;
|}.
Lemma run_round (v : RunView.t) : run_validate (model_dump v) = Some v.
Proof.
  destruct v as [i job project version number parent thread s w mode row recovering claimable].
  cbn -[enum_of_value enum_value]. rewrite !enum_of_value_value. simpl. rewrite !N2Z.id.
  destruct parent as [p|]; simpl; rewrite ?N2Z.id; reflexivity.
Qed.

#[export] Instance dump_project_create : ModelDump ProjectCreate.t := λ b, JStr (ProjectCreate.slug b).
#[export] Instance dump_project_view : ModelDump ProjectView.t := λ v, JStr (ProjectView.slug v).
#[export] Instance dump_fixture : ModelDump DemoFixture.t := λ f, JInt (DemoFixture.seed f).
#[export] Instance dump_job : ModelDump JobCreate.t := λ b,
  JObj [("objective", JStr (JobCreate.objective b)); ("mode", JStr (JobCreate.mode b))].
#[export] Instance dump_control : ModelDump RunControl.t := λ b,
  JObj [("kind", JStr (RunCommandKind.value (RunControl.kind b)))].
#[export] Instance dump_reconcile : ModelDump RunReconciliationRequest.t := λ b,
  num (RunReconciliationRequest.effect_id b).
#[export] Instance dump_reconciled : ModelDump RunReconciliationReceipt.t := λ r,
  num (RunReconciliationReceipt.effect_id r).
#[export] Instance dump_demo : ModelDump DemoDecision.t := λ b, JStr (DemoDecision.decision b).
#[export] Instance dump_demo_view : ModelDump DemoDecisionView.t := λ v, JStr (DemoDecisionView.decision v).

#[export] Instance run_rows : RowOrder := λ _ l, l.
#[export] Instance run_limits : LimitsModel := {|
  limits_validate j := match j with JNull => Some MissionResourceLimits.default | _ => None end;
  limits_dump _ := JNull;
|}.
#[export] Instance dump_mission_control : ModelDump MissionControlRequest.t := λ b,
  JStr (ControlAction.value (MissionControlRequest.action b)).
#[export] Instance dump_mission_view : ModelDump MissionControlView.t := λ v, JInt (MissionControlView.version v).

(** ** Requests *)

Definition user (i : uuid) : AuthPrincipal.t := {|
  AuthPrincipal.user_id := i; AuthPrincipal.username := "owner"; AuthPrincipal.role := "owner";
  AuthPrincipal.session_id := 1%N; AuthPrincipal.idle_expires_at := 9; AuthPrincipal.absolute_expires_at := 9;
  AuthPrincipal.session_token := ""; AuthPrincipal.csrf_token := "";
|}.
Definition quiet_db : db := {|
  migrated := true; runs := ∅; leases := []; commands := []; jobs := ∅; workflow_versions := ∅; instances := ∅;
  recovery := None; node_executions := []; effects := ∅; workers := WorkerTables.empty; accounts := CallTables.empty;
  Database.events := [];
|}.
Definition quiet_tables : mdb := {|
  MissionTables.core := quiet_db; missions := ∅; teams := ∅; messages := ∅; items := ∅; dependencies := [];
  wakeups := ∅; controls := []; reservations := []; MissionTables.versions := ∅; snapshots := []; job_rows := ∅;
|}.
Definition the_project : ProjectModel.t := ProjectModel.Build_t 60 author "demo" "Demo" "python" [] "active".
(** The state with the published template, evaluated. *)
Definition shelf_now : studio := Eval vm_compute in out.
Lemma shelf_now_ok : studio_ok shelf_now.
Proof. assert (shelf_now = out) as -> by (vm_compute; reflexivity). exact out_ok. Qed.
Definition opened : desk := {|
  work := quiet_tables; shelf := shelf_now; projects := {[60%N := the_project]};
  command_keys := ∅; next_command := ∅; directives := [];
|}.
Definition job (key objective : string) : JobCreate.t := {|
  JobCreate.idempotency_key := key; JobCreate.workflow_version_id := 11; JobCreate.objective := objective;
  JobCreate.priority := 0; JobCreate.mode := "demo"; JobCreate.demo_fixture := None;
|}.
Definition job_at (n : N) : job_readings := Build_job_readings (n + 1) (n + 2) (n + 3) 50 51.
Definition command_of (key : string) (version : Z) (k : RunCommandKind.t) : RunControl.t :=
  RunControl.Build_t key version k None.

Definition went_on {A} (d : desk) (r : res registry_error (A * desk)) : desk :=
  match r with Ok (_, d') => d' | Err _ => d end.
Definition enqueueing := create_job (job_at 70) 60 (job "job-0001" "Build it") (user author) opened.
Definition queued : desk := went_on opened enqueueing.
Definition pausing := control 80 73 (command_of "pause-01" 0 RunCommandKind.PAUSE) (user author) queued.
Definition paused : desk := went_on queued pausing.
Definition resuming := control 81 73 (command_of "resume-1" 1 RunCommandKind.RESUME) (user author) paused.
Definition resumed : desk := went_on paused resuming.

(** A mission whose item the run works on, and the request to pause it. *)
Definition run_mission : MissionModel.t := {|
  MissionModel.id := 1; MissionModel.project_id := 60; MissionModel.objective := "Build it";
  MissionModel.constraints_json := []; MissionModel.lifecycle := MissionLifecycle.active;
  MissionModel.mode := "demo"; MissionModel.autonomous := true;
  MissionModel.waiting_reason := None; MissionModel.next_action := None;
  MissionModel.next_action_basis := None; MissionModel.user_action_required := None;
  MissionModel.resource_limits_json := JNull; MissionModel.directive_version := 1;
  MissionModel.selected_team_version_id := 2; MissionModel.next_message_sequence := 1;
  MissionModel.version := 4; MissionModel.updated_at := 9;
|}.
Definition run_item : MissionWorkItemModel.t := {|
  MissionWorkItemModel.id := 5; MissionWorkItemModel.mission_id := 1; MissionWorkItemModel.key := "DEV-001";
  MissionWorkItemModel.title := "Build"; MissionWorkItemModel.objective := "Build it";
  MissionWorkItemModel.acceptance_criteria_json := []; MissionWorkItemModel.priority := 0;
  MissionWorkItemModel.lifecycle := WorkItemLifecycle.started; MissionWorkItemModel.directive_version := 1;
  MissionWorkItemModel.team_version_id := 2; MissionWorkItemModel.job_id := Some 72%N;
  MissionWorkItemModel.run_id := Some 73%N; MissionWorkItemModel.source_wakeup_id := None;
  MissionWorkItemModel.accepted_event_cursor := None; MissionWorkItemModel.version := 1;
|}.
Definition managed : desk :=
  set_work (set_items {[5%N := run_item]} (set_teams {[2%N := MissionTeamVersionModel.Build_t 2 1 1 JNull]}
    (set_missions {[1%N := run_mission]} (work resumed)))) resumed.
Definition pause_mission (key : string) : MissionControlRequest.t := {|
  MissionControlRequest.scope := ControlScope.mission; MissionControlRequest.action := ControlAction.pause;
  MissionControlRequest.instruction := None; MissionControlRequest.limits := None;
  MissionControlRequest.expected_version := 4; MissionControlRequest.idempotency_key := key;
|}.
Definition directing := control_mission 82 200 1 (pause_mission "pause-all") (user author) managed.
Definition directed : desk := went_on managed directing.

Definition repeating := create_job (job_at 90) 60 (job "job-0001" "Build it") (user author) resumed.

Definition refusal {A} (r : res registry_error A) : option registry_error :=
  match r with Ok _ => None | Err e => Some e end.
Example enqueued_run :
  (RunModel.status <$> (runs (db_of queued) !! 73%N), List.length (Database.events (db_of queued)))
  = (Some RunStatus.QUEUED, 3%nat).
Proof. vm_compute. reflexivity. Qed.
Example two_commands :
  (λ c, (RunCommandModel.id c, RunCommandModel.sequence c)) <$> commands (db_of resumed) = [(80%N, 1); (81%N, 2)].
Proof. vm_compute. reflexivity. Qed.
Example mission_command :
  ((λ c, (RunCommandModel.id c, RunCommandModel.sequence c)) <$> commands (db_of directed),
   (λ m, (MissionModel.lifecycle m, MissionModel.version m)) <$> (missions (work directed) !! 1%N),
   (λ c, (MissionAdmissionControlModel.scope_key c, MissionAdmissionControlModel.state c)) <$> controls (work directed))
  = ([(80%N, 1); (81%N, 2); (82%N, 3)], Some (MissionLifecycle.paused, 5),
     [("global", ControlState.open); ("team:" +:+ uuid_str 2, ControlState.open);
      ("mission:" +:+ uuid_str 1, ControlState.paused)]).
Proof. vm_compute. reflexivity. Qed.
(** A key that the mission request takes and the command request does not: with an active
run the request fails as a server error. *)
Lemma mission_key_with_space :
  MissionControlRequest.valid (pause_mission "pause all") = true
  ∧ refusal (control_mission 82 200 1 (pause_mission "pause all") (user author) managed)
    = Some WorkflowStudio.validation_error.
Proof. vm_compute. split; reflexivity. Qed.
Example repeated_command :
  (λ r : RunCommandReceipt.t * desk, (RunCommandReceipt.duplicate r.1, RunCommandReceipt.sequence r.1))
    <$> control 82 73 (command_of "pause-01" 0 RunCommandKind.PAUSE) (user author) resumed = Ok (true, 1).
Proof. vm_compute. reflexivity. Qed.
Example stale_command :
  refusal (control 82 73 (command_of "pause-02" 0 RunCommandKind.PAUSE) (user author) resumed)
  = Some (run_problem 409 "command_conflict").
Proof. vm_compute. reflexivity. Qed.
Example other_content :
  refusal (create_job (job_at 90) 60 (job "job-0001" "Build something else") (user author) resumed)
  = Some (run_problem 409 "idempotency_conflict").
Proof. vm_compute. reflexivity. Qed.
Example foreign_project :
  refusal (create_job (job_at 90) 60 (job "job-0002" "Build it") (user 91) resumed) = Some missing.
Proof. vm_compute. reflexivity. Qed.
Example foreign_run :
  refusal (control 82 73 (command_of "pause-02" 2 RunCommandKind.PAUSE) (user 91) resumed) = Some missing.
Proof. vm_compute. reflexivity. Qed.

(** ** Witnesses *)

(** Comparing states unfolds their names before the operations. *)
#[local] Strategy 1000 [create_job control control_mission went_on].
Definition did {A} (r : res registry_error (A * desk)) : bool := match r with Ok _ => true | Err _ => false end.
Lemma did_ok {A} (r : res registry_error (A * desk)) d : did r = true → ∃ a, r = Ok (a, went_on d r).
Proof. destruct r as [[a e]|]; [by exists a|done]. Qed.
Lemma did_enqueue : did enqueueing = true.
Proof. vm_compute. reflexivity. Qed.
Lemma did_pause : did pausing = true.
Proof. vm_compute. reflexivity. Qed.
Lemma did_resume : did resuming = true.
Proof. vm_compute. reflexivity. Qed.
Lemma did_repeat : did repeating = true.
Proof. vm_compute. reflexivity. Qed.

Lemma commands_steps : rtc desk_step queued resumed.
Proof.
  destruct (did_ok pausing queued did_pause) as [a Ha]. destruct (did_ok resuming paused did_resume) as [b Hb].
  unfold pausing in Ha at 1. change (went_on queued pausing) with paused in Ha.
  unfold resuming in Hb at 1. change (went_on paused resuming) with resumed in Hb.
  refine (rtc_l _ _ paused _ _ (rtc_once _ _ _)).
  - exact (ds_control 80 73 (command_of "pause-01" 0 RunCommandKind.PAUSE) (user author) a queued paused Ha).
  - exact (ds_control 81 73 (command_of "resume-1" 1 RunCommandKind.RESUME) (user author) b paused resumed Hb).
Qed.
Lemma opened_commands : commands_ok opened.
Proof.
  split; simpl.
  - apply NoDup_nil_2.
  - intros run. by rewrite lookup_empty.
  - by intros c ?%elem_of_nil.
  - intros run n. rewrite lookup_empty. simpl. lia.
  - by intros c c' ?%elem_of_nil.
  - intros i. rewrite lookup_empty. split; [by intros (c & ?%elem_of_nil & _)|by intros [? [=]]].
  - by intros c c' k k' ?%elem_of_nil.
Qed.
Lemma all_commands : rtc desk_step opened resumed.
Proof.
  destruct (did_ok enqueueing opened did_enqueue) as [a Ha].
  unfold enqueueing in Ha at 1. change (went_on opened enqueueing) with queued in Ha.
  refine (rtc_l _ _ queued _ _ commands_steps).
  exact (ds_job (job_at 70) 60 (job "job-0001" "Build it") (user author) a opened queued Ha).
Qed.

Lemma did_direct : did directing = true.
Proof. vm_compute. reflexivity. Qed.
Lemma mission_steps : rtc desk_step opened directed.
Proof.
  destruct (did_ok directing managed did_direct) as [a Ha].
  unfold directing in Ha at 1. change (went_on managed directing) with directed in Ha.
  etrans; [exact all_commands|]. refine (rtc_l _ _ managed _ _ (rtc_once _ _ _)).
  - apply ds_work. reflexivity.
  - exact (ds_mission 82 200 1 (pause_mission "pause-all") (user author) a managed directed Ha).
Qed.

Lemma commands_numbered_witness :
  commands_ok directed ∧ issued (db_of opened) `prefix_of` issued (db_of directed).
Proof. exact (commands_numbered opened directed opened_commands mission_steps). Defined.

Lemma job_created_once_witness :
  did enqueueing = true ∧ did repeating = true ∧ went_on resumed repeating = resumed.
Proof.
  split; [exact did_enqueue|split; [exact did_repeat|]].
  destruct (did_ok enqueueing opened did_enqueue) as [a Ha]. destruct (did_ok repeating resumed did_repeat) as [b Hb].
  unfold enqueueing in Ha at 1. change (went_on opened enqueueing) with queued in Ha.
  unfold repeating in Hb at 1.
  exact (proj2 (job_created_once run_round (job_at 70) 60 (job "job-0001" "Build it") (user author) a opened queued
    resumed (job_at 90) (job "job-0001" "Build it") b (went_on resumed repeating) Ha commands_steps eq_refl Hb)).
Defined.

Lemma queued_new : runs (db_of queued) ≠ runs (db_of opened).
Proof.
  intros Heq. apply (f_equal (λ m, bool_decide (is_Some (m !! 73%N)))) in Heq. vm_compute in Heq. discriminate Heq.
Qed.
Lemma job_sound_witness :
  ∃ v row ver sn frozen, job_start (job_at 70) 60 (job "job-0001" "Build it") (user author) opened queued row ver sn frozen
    ∧ v = run_view (fresh_run (job_at 70) (job "job-0001" "Build it") frozen) (ProjectModel.id row).
Proof.
  destruct (did_ok enqueueing opened did_enqueue) as [a Ha]. exists a.
  unfold enqueueing in Ha at 1. change (went_on opened enqueueing) with queued in Ha.
  exact (job_sound (job_at 70) 60 (job "job-0001" "Build it") (user author) a opened queued shelf_now_ok Ha queued_new).
Defined.
